(* ===== verification/_CoqProject ===== *)
-Q . S2P
Prelude.v
Bitmap.v
Bytes.v
Frames.v
BootInfo.v
Pmm.v
X86.v
Vmm.v
VmmInv.v
VmmProps.v
VmmRanges.v
VmmCopy.v
VmmSpec.v
Asm.v
Sched.v
SchedProps.v
Utf8.v
Kernel.v
Ipc.v
IpcCaps.v
IpcFrames.v
IpcSpec.v
IpcRecv.v
PortIo.v
Serial.v
Ps2.v
Inode.v
Vfs.v
Terminal.v
RamFs.v
RamFsProps.v
Block.v
PondLayout.v
PondFs.v
PondDisk.v
PondFile.v
PondGrow.v
PondDir.v
PondInv.v
PondOps.v
PondWrite.v
PondCreate.v
PondExample.v
PondSpec.v
PondMount.v
MkPondFs.v
MkFinal.v
MkPondInv.v
MkStore.v
MkTree.v
MkVisit.v
Font.v
Framebuffer.v
FramebufferProps.v
Machine.v
Arch.v
Pci.v
Nvme.v
NvmeProps.v
Dhcp.v
E1000.v
Ac97.v
Elf.v
Bootloader.v
BootloaderProps.v
Files.v
System.v
Syscall.v
SpawnProps.v
Boot.v
SyscallProps.v
FileProps.v
BootProps.v
User.v
Spring.v
SpringProps.v
Apps.v
Reflection.v
AppsProps.v
SurfaceProps.v
