(* ===== verification/Prelude.v ===== *)
(** * personaOS

    A model of the operating system personaOS and proofs about it: the kernel
    ([kernel/src]) and its bootloader ([bootloader/src]), the formatter of the
    disk images ([tools/mkpondfs]), the library that programs are built on
    ([libs/libpersona]) and the programs of the image ([user/]).  Paths are relative to [src/].

    ** How code is represented

    Pure functions are functions.  A computation that can fail returns
    [outcome]: [Ret], [Panic] (a failed bounds check, [unwrap], or arithmetic
    overflow, which the kernel's build checks), [Deadlock] (taking a lock that
    is held), or [OutOfFuel] (a loop that ran for as long as it was given).
    [Result] is [result].  Code that changes state is in the monad [ST] over
    the record of the state of its component, and the states nest as the
    components do; [let!], [let?] and [let*] are the binds.  Integers are [Z]
    with the width written out: [checked] panics, [wrap] wraps, [signed] reads
    two's complement.  [Arc]s and references are names of objects (addresses,
    task numbers, inode numbers) into a map, so that aliases share.  User
    programs are built in release mode, where arithmetic wraps and a panic is
    [exit(-1)]; they are trees of system calls ([Prog] of [User.v]).

    Hardware and third-party crates are not in the sources.  They are
    typeclasses whose laws are what their documentation says, each with an
    instance: page-table entries of the crate x86_64 ([X86.v]), I/O ports
    ([PortIo.v]), memory-mapped devices ([Machine.v]), an NVMe controller
    ([Nvme.v]), configuration space ([Pci.v]), a block device ([Block.v]), the
    ELF parser ([Elf.v]), the UEFI firmware ([Bootloader.v]), the descriptor
    tables of x86_64, model-specific registers and the interrupt controllers
    ([Arch.v]).  The frame allocator and the inodes are classes
    too, with the code's own implementations as instances.

    ** The parts, and where they are

    - [Bitmap.v], [Bytes.v], [Utf8.v]: bit arrays, little-endian integers and
      physical memory, [core::str::from_utf8].
    - Memory: [BootInfo.v] is [libs/shared/src/boot_info.rs]; [Frames.v] is the
      interface of the frame allocator and [Pmm.v] is [mm/pmm.rs] with its
      proof; [Vmm.v] is [mm/vmm.rs]; [VmmInv.v] to [VmmSpec.v] prove it
      correct with an invariant on who owns which page table.
    - Tasks: [Asm.v] has the naked functions of [sched/mod.rs], [sched/task.rs]
      and [arch/x86_64/syscall.rs] as instructions; [Sched.v] and
      [SchedProps.v] are the scheduler.
    - IPC: [Kernel.v] and [Ipc.v] are [ipc/]; [IpcCaps.v], [IpcFrames.v],
      [IpcSpec.v] and [IpcRecv.v] its proofs.
    - Files: [Inode.v] (the trait [Inode]), [Vfs.v] and [Terminal.v]
      ([fs/mod.rs]), [RamFs.v] and [RamFsProps.v] ([fs/ramfs.rs]), [Block.v]
      ([drivers/block.rs]), [PondLayout.v], [PondFs.v] and the files [Pond*.v]
      ([fs/pondfs]), [MkPondFs.v] and the files [Mk*.v] ([tools/mkpondfs]),
      [Elf.v] ([fs/elf.rs]).
    - Devices: [Serial.v], [Ps2.v], [Font.v], [Framebuffer.v] and
      [FramebufferProps.v], [Pci.v] (with [arch/x86_64/acpi.rs] and
      [drivers/virtio_gpu.rs]), [Nvme.v] and [NvmeProps.v], [Dhcp.v],
      [E1000.v], [Ac97.v].
    - Start: [Bootloader.v] is [bootloader/src/main.rs] and
      [BootloaderProps.v] proves what it leaves to the kernel; [Arch.v] is
      [arch/x86_64] ([gdt.rs], [idt.rs], [pic.rs], [apic.rs], [mod.rs] and
      [init_bsp] of [syscall.rs]) with [mm/heap.rs] and [mm/mod.rs], and
      [early_start], the part of [_start] before the devices.
    - The whole kernel: [Files.v] and [System.v] put the states together,
      [Syscall.v] is [syscall.rs], [Boot.v] is [_start] of [main.rs];
      [SpawnProps.v], [SyscallProps.v], [FileProps.v] and [BootProps.v] prove
      what follows for the system as one.
    - Programs: [User.v] is libpersona with the rules for what runs of programs
      do; [Spring.v] and [SpringProps.v] are [user/init]; [Apps.v] has the
      other programs, lily and skipstone, [Reflection.v] the compositor;
      [AppsProps.v] and [SurfaceProps.v] are about them together.

    ** What is proved

    - Memory: the allocator hands out each frame once and its counter is the
      number of clear bits; mapping, unmapping, stealing and installing pages
      change the translations they should and no other, in any address space;
      a new address space shares the kernel half.
    - Start: under the bootloader's page tables the first 4 GiB, the screen and
      the bytes of the kernel image are where the kernel expects them, and the
      boot information is read back as it was meant; the frames that hold all
      this are, by the memory map, free for the kernel's allocator; [init_bsp]
      leaves the processor on the descriptors that SYSCALL and SYSRET need,
      with the timer running; vectors for devices are handed out once.
    - Tasks: every task is in exactly one queue in every reachable state, the
      run queue is served round robin, a context switch and a system call
      restore every register, exit wakes the parent.
    - IPC: capabilities cannot be forged or duplicated beyond their rights, the
      frames of a message belong to it alone, pages and words arrive as sent.
    - Files: the RAM file system refines a map from paths, PondFS refines a map
      of inodes that is read off the disk alone (so what a call did survives a
      new mount), images of mkpondfs mount and hold the source tree, what a
      program writes it reads back; descriptor tables stay well typed whatever
      programs call.
    - Devices: NVMe queues refine an array of blocks; the drivers of the card,
      the audio codec and the display stay in their buffers whatever the
      hardware or a program does; the keyboard queues hold the last keys.
    - Programs: Spring waits for all it starts and never panics, its manifest is
      read back as printed, the services' announcements are the ones it waits
      for, and Reflection draws what its clients ask for.

    ** Bounds and fuel

    Loops with a bound in the source run for that bound.  Loops over data take
    the length of the data, and the theorems show that it is enough.  Loops
    that wait for hardware, for input or for other programs have no bound in
    the source: the number of turns is a parameter, the theorems hold for every
    number, and say what happened when it was used up.  [parse_manifest] takes
    as many turns as the text has bytes; a turn consumes at least one.
    [write_dec] has 20 digits, and 2^63 needs 19.

    ** Not modelled

    - Of the bootloader, reading the kernel file through the firmware
      ([load_kernel]) and the bit of EFER for NO_EXECUTE; the text of the
      exception handlers ([idt.rs]).
    - The calls of [_start] that bring up the devices are modelled one by one,
      not as one sequence with [early_start] and [boot].
    - The kernel heap: [linked_list_allocator] is third-party; [heap_init] of
      [Arch.v] is what [mm/heap.rs] hands it.  [Box], [Vec] and [Arc] do not fail in
      the model, except where [System.v] counts the heap.
    - The lines that drivers and [_start] write to the serial port, and
      formatting ([core::fmt]); [panic.rs].
    - Preemption inside a system call: the kernel runs with interrupts off, and
      there is one processor.  The calls of different programs interleave at
      the granularity of calls.
    - Answers of calls that block: in [User.v] a call has its answer, so the
      theorems on programs say what happens once the calls return.
    - Shell scripts, makefiles and linker scripts; the format of
      [tools/mkdisk.sh] for the manifest is the one of [print_manifest]. *)

From stdpp Require Export prelude gmap list list_numbers strings.
From Stdlib Require Export ZArith Lia.

#[export] Set Default Goal Selector "!".

Declare Scope kernel_scope.
Delimit Scope kernel_scope with K.
Open Scope Z_scope.
Open Scope kernel_scope.

(** ** Outcomes *)

(** What running a piece of kernel code can do.  The kernel is built with the
    [dev] profile, whose overflow checks and bounds checks panic, and a panic
    halts the machine ([kernel/src/panic.rs]).  [Deadlock] is a second [lock()]
    of a non-reentrant [spin::Mutex] by the same flow of control; [OutOfFuel]
    is only produced by the fuel of a modelled [loop]. *)
Inductive outcome (A : Type) : Type :=
  | Ret (a : A)
  | Panic
  | Deadlock
  | OutOfFuel.
Arguments Ret {A} a.
Arguments Panic {A}.
Arguments Deadlock {A}.
Arguments OutOfFuel {A}.

(** [core::result::Result]. *)
Inductive result (A E : Type) : Type :=
  | Ok (a : A)
  | Err (e : E).
Arguments Ok {A E} a.
Arguments Err {A E} e.

Definition obind {A B} (o : outcome A) (k : A -> outcome B) : outcome B :=
  match o with
  | Ret a => k a
  | Panic => Panic
  | Deadlock => Deadlock
  | OutOfFuel => OutOfFuel
  end.

Notation "'let!' x ':=' e 'in' k" := (obind e (fun x => k))
  (at level 10, x pattern, e at level 200, k at level 200,
   format "'[v' 'let!'  x  ':='  e  'in' '/' k ']'") : kernel_scope.

#[global] Instance outcome_eq_dec `{EqDecision A} : EqDecision (outcome A).
Proof. solve_decision. Defined.
#[global] Instance result_eq_dec `{EqDecision A, EqDecision E} : EqDecision (result A E).
Proof. solve_decision. Defined.

(** [for x in l { body }] over a state, stopping at the first panic. *)
Fixpoint ofold {A S} (f : S -> A -> outcome S) (l : list A) (s : S) : outcome S :=
  match l with
  | [] => Ret s
  | x :: l => let! s := f s x in ofold f l s
  end.

(** ** Stateful code *)

(** A function that reads and writes a state of type [S]. *)
Definition ST (S A : Type) : Type := S -> outcome (A * S).
Definition st_ret {S A} (a : A) : ST S A := fun s => Ret (a, s).
Definition st_bind {S A B} (c : ST S A) (k : A -> ST S B) : ST S B :=
  fun s => let! (a, s') := c s in k a s'.
Definition st_lift {S A} (o : outcome A) : ST S A := fun s => let! a := o in Ret (a, s).
Definition st_get {S} : ST S S := fun s => Ret (s, s).
Definition st_modify {S} (f : S -> S) : ST S unit := fun s => Ret (tt, f s).
(** The [?] operator: an [Err] is returned as it is, with the state as the
    callee left it. *)
Definition st_try {S A B E} (c : ST S (result A E)) (k : A -> ST S (result B E)) :
    ST S (result B E) :=
  st_bind c (fun r => match r with Ok a => k a | Err e => st_ret (Err e) end).

Notation "'let*' x ':=' e 'in' k" := (st_bind e (fun x => k))
  (at level 10, x pattern, e at level 200, k at level 200,
   format "'[v' 'let*'  x  ':='  e  'in' '/' k ']'") : kernel_scope.
Notation "'let?' x ':=' e 'in' k" := (st_try e (fun x => k))
  (at level 10, x pattern, e at level 200, k at level 200,
   format "'[v' 'let?'  x  ':='  e  'in' '/' k ']'") : kernel_scope.

(** ** Machine integers *)

Definition wrap (w x : Z) : Z := x mod 2 ^ w.
Definition fits (w x : Z) : bool := (0 <=? x) && (x <? 2 ^ w).
(** [as i32] / [as i64] of an unsigned bit pattern. *)
Definition signed (w x : Z) : Z :=
  let u := x mod 2 ^ w in if u <? 2 ^ (w - 1) then u else u - 2 ^ w.
Definition ifits (w x : Z) : bool := (- 2 ^ (w - 1) <=? x) && (x <? 2 ^ (w - 1)).
(** An arithmetic result under the overflow checks of the [dev] profile. *)
Definition checked (w x : Z) : outcome Z := if fits w x then Ret x else Panic.
Definition ichecked (w x : Z) : outcome Z := if ifits w x then Ret x else Panic.
(** [div_ceil]. *)
Definition div_ceil (a b : Z) : Z := (a + b - 1) / b.

(** ** Slices *)

Definition idx {A} (l : list A) (i : Z) : outcome A :=
  if i <? 0 then Panic
  else match l !! Z.to_nat i with Some x => Ret x | None => Panic end.
Definition upd {A} (l : list A) (i : Z) (x : A) : outcome (list A) :=
  if (0 <=? i) && (i <? Z.of_nat (length l)) then Ret (<[Z.to_nat i := x]> l) else Panic.

Definition zlen {A} (l : list A) : Z := Z.of_nat (length l).

(** ** Generic lemmas *)

Lemma zlen_app {A} (l1 l2 : list A) : zlen (l1 ++ l2) = zlen l1 + zlen l2.
Proof. unfold zlen. rewrite length_app. lia. Qed.
Lemma zlen_cons {A} (x : A) (l : list A) : zlen (x :: l) = 1 + zlen l.
Proof. unfold zlen. simpl length. lia. Qed.
Lemma zlen_nonneg {A} (l : list A) : 0 <= zlen l.
Proof. unfold zlen. lia. Qed.

Lemma obind_Ret {A B} (o : outcome A) (k : A -> outcome B) (b : B) :
  obind o k = Ret b <-> exists a, o = Ret a /\ k a = Ret b.
Proof.
  destruct o as [a | | |]; simpl; [| by split; [| intros (? & ? & ?)] ..].
  split; [by exists a | intros (a' & [= <-] & H); exact H].
Qed.

Lemma st_bind_Ret {S A B} (c : ST S A) (k : A -> ST S B) (s : S) (b : B) (s' : S) :
  st_bind c k s = Ret (b, s') <-> exists a s1, c s = Ret (a, s1) /\ k a s1 = Ret (b, s').
Proof.
  unfold st_bind. rewrite obind_Ret. split.
  - intros ([a s1] & H1 & H2). by exists a, s1.
  - intros (a & s1 & H1 & H2). by exists (a, s1).
Qed.

Lemma st_bind_step {S A B} (c : ST S A) (k : A -> ST S B) (s s1 : S) (a : A) :
  c s = Ret (a, s1) -> st_bind c k s = k a s1.
Proof. intros H. unfold st_bind. by rewrite H. Qed.

Lemma st_try_Ok {S A B E} (c : ST S (result A E)) (k : A -> ST S (result B E)) (s s1 : S) (a : A) :
  c s = Ret (Ok a, s1) -> st_try c k s = k a s1.
Proof. intros H. unfold st_try. by rewrite (st_bind_step _ _ _ _ _ H). Qed.

Lemma st_try_Err {S A B E} (c : ST S (result A E)) (k : A -> ST S (result B E)) (s s1 : S) (e : E) :
  c s = Ret (Err e, s1) -> st_try c k s = Ret (Err e, s1).
Proof. intros H. unfold st_try. by rewrite (st_bind_step _ _ _ _ _ H). Qed.

Lemma checked_fits (w x : Z) : 0 <= x < 2 ^ w -> checked w x = Ret x.
Proof. intros H. unfold checked, fits. destruct (Z.leb_spec 0 x), (Z.ltb_spec x (2 ^ w)); simpl; (done || lia). Qed.

Lemma checked_Ret (w x y : Z) : checked w x = Ret y <-> y = x /\ 0 <= x < 2 ^ w.
Proof.
  unfold checked, fits. destruct (Z.leb_spec 0 x), (Z.ltb_spec x (2 ^ w)); simpl;
    (split; [intros [= <-] || discriminate; (done || lia) | intros [-> ?]; (done || lia)]).
Qed.

Lemma checked_panic (w x : Z) : ~ (0 <= x < 2 ^ w) -> checked w x = Panic.
Proof. intros H. unfold checked, fits. destruct (Z.leb_spec 0 x), (Z.ltb_spec x (2 ^ w)); simpl; (done || lia). Qed.

Lemma idx_Ret {A} (l : list A) (i : Z) (x : A) :
  idx l i = Ret x <-> 0 <= i /\ l !! Z.to_nat i = Some x.
Proof.
  unfold idx. destruct (Z.ltb_spec i 0); [split; [done | lia] |].
  destruct (l !! Z.to_nat i); split;
    [intros [= ->]; done | intros [_ [= ->]]; done | done | intros [_ [=]]].
Qed.

Lemma idx_in_range {A} (l : list A) (i : Z) :
  0 <= i < zlen l -> exists x, idx l i = Ret x /\ l !! Z.to_nat i = Some x.
Proof.
  unfold zlen. intros H. destruct (lookup_lt_is_Some_2 l (Z.to_nat i)) as [x Hx]; [lia |].
  exists x. split; [apply idx_Ret; split; [lia | done] | done].
Qed.

Lemma idx_out_of_range {A} (l : list A) (i : Z) : ~ (0 <= i < zlen l) -> idx l i = Panic.
Proof.
  unfold zlen, idx. intros H. destruct (Z.ltb_spec i 0); [done |].
  rewrite lookup_ge_None_2; [done | lia].
Qed.

Lemma upd_in_range {A} (l : list A) (i : Z) (x : A) :
  0 <= i < zlen l -> upd l i x = Ret (<[Z.to_nat i := x]> l).
Proof.
  unfold zlen, upd. intros H.
  destruct (Z.leb_spec 0 i), (Z.ltb_spec i (Z.of_nat (length l))); simpl; (done || lia).
Qed.

Lemma upd_Ret {A} (l l' : list A) (i : Z) (x : A) :
  upd l i x = Ret l' <-> 0 <= i < zlen l /\ l' = <[Z.to_nat i := x]> l.
Proof.
  unfold zlen, upd.
  destruct (Z.leb_spec 0 i), (Z.ltb_spec i (Z.of_nat (length l))); simpl;
    (split; [intros [= <-] || discriminate; (done || lia) | intros [? ->]; (done || lia)]).
Qed.

(** An invariant of the state is an invariant of a [for] loop. *)
Lemma ofold_inv {A S} (P : S -> Prop) (f : S -> A -> outcome S) (l : list A) (s s' : S) :
  (forall s x s', x ∈ l -> P s -> f s x = Ret s' -> P s') ->
  P s -> ofold f l s = Ret s' -> P s'.
Proof.
  revert s. induction l as [| x l IH]; intros s Hf Hs; simpl; [intros [= <-]; done |].
  intros (s1 & H1 & H2)%obind_Ret.
  eapply IH; [| | exact H2]; [intros; eapply Hf; [by right | done | done] |].
  eapply Hf; [by left | done | done].
Qed.

(** A loop whose body never fails under [P] does not fail. *)
Lemma ofold_total {A S} (P : S -> Prop) (f : S -> A -> outcome S) (l : list A) (s : S) :
  (forall s x, x ∈ l -> P s -> exists s', f s x = Ret s' /\ P s') ->
  P s -> exists s', ofold f l s = Ret s' /\ P s'.
Proof.
  revert s. induction l as [| x l IH]; intros s Hf Hs; simpl; [eauto |].
  destruct (Hf s x) as (s1 & -> & H1); [by left | done |]. simpl.
  apply IH; [intros; apply Hf; [by right | done] | done].
Qed.

Lemma ofold_app {A S} (f : S -> A -> outcome S) (l1 l2 : list A) (s : S) :
  ofold f (l1 ++ l2) s = obind (ofold f l1 s) (ofold f l2).
Proof.
  revert s. induction l1 as [| x l1 IH]; intros s; simpl; [done |].
  destruct (f s x); simpl; [apply IH | done ..].
Qed.

Lemma list_filter_all {A} (P : A -> Prop) `{forall x, Decision (P x)} (l : list A) :
  Forall P l -> filter P l = l.
Proof. induction 1 as [| x l Hx _ IH]; [done |]. by rewrite filter_cons_True, IH. Qed.

Lemma list_filter_none {A} (P : A -> Prop) `{forall x, Decision (P x)} (l : list A) :
  Forall (fun x => ~ P x) l -> filter P l = [].
Proof. induction 1 as [| x l Hx _ IH]; [done |]. by rewrite filter_cons_False, IH. Qed.

Lemma seqZ_S_r (m n : Z) : 0 <= n -> seqZ m (n + 1) = seqZ m n ++ [m + n].
Proof. intros. rewrite seqZ_app by lia. done. Qed.

Lemma lor_range (w a b : Z) : 0 <= w -> 0 <= a < 2 ^ w -> 0 <= b < 2 ^ w -> 0 <= Z.lor a b < 2 ^ w.
Proof.
  intros Hw Ha Hb. split; [apply Z.lor_nonneg; lia |].
  replace (Z.lor a b) with (Z.land (Z.lor a b) (Z.ones w)).
  - rewrite Z.land_ones by lia. apply Z.mod_pos_bound, Z.pow_pos_nonneg; lia.
  - by rewrite Z.land_lor_distr_l, !Z.land_ones, !Z.mod_small.
Qed.

Lemma shiftl_range (w a k : Z) : 0 <= k <= w -> 0 <= a < 2 ^ (w - k) -> 0 <= Z.shiftl a k < 2 ^ w.
Proof.
  intros Hk Ha. rewrite Z.shiftl_mul_pow2 by lia. pose proof (Z.pow_pos_nonneg 2 k).
  replace w with (w - k + k) by lia. rewrite Z.pow_add_r by lia. nia.
Qed.

(** ** Automation *)

Create HintDb persona discriminated.

(** Break an [obind] chain known to return into its steps. *)
Ltac inv_bind H :=
  repeat match type of H with
  | obind _ _ = Ret _ =>
      let x := fresh "x" in let Hx := fresh "Hstep" in
      apply obind_Ret in H; destruct H as (x & Hx & H)
  end.

(** Case split on every boolean comparison of [Z] in the goal. *)
Ltac zcases :=
  repeat match goal with
  | |- context [?a <? ?b] => destruct (Z.ltb_spec a b)
  | |- context [?a <=? ?b] => destruct (Z.leb_spec a b)
  | |- context [?a =? ?b] => destruct (Z.eqb_spec a b)
  end.
