(* ===== verification/Bitmap.v ===== *)
(** * Bitmaps over byte arrays

    The physical frame allocator ([kernel/src/mm/pmm.rs]), the PondFS block
    allocator ([kernel/src/fs/pondfs/mod.rs]), the host formatter
    ([tools/mkpondfs]) and the interrupt vector pool all keep one bit per
    object in a byte array, least significant bit first.  This file has what
    they share: the reading [bit_at] of such an array, the effect of the
    byte-level updates the code performs on it, and the count of clear bits. *)

From S2P Require Import Prelude.

(** Bit [i] of the array; clear outside of it. *)
Definition bit_at (bm : list Z) (i : Z) : bool :=
  Z.testbit (default 0 (bm !! Z.to_nat (i / 8))) (i mod 8).

Definition bytes_ok (bm : list Z) : Prop := Forall (fun b => 0 <= b < 256) bm.

(** The clear bits among the first [n]. *)
Definition clear_bits (bm : list Z) (n : Z) : list Z :=
  filter (fun i => bit_at bm i = false) (seqZ 0 n).
Definition count_clear (bm : list Z) (n : Z) : Z := zlen (clear_bits bm n).

(** ** Byte-level facts *)

Lemma testbit_set (b k j : Z) :
  0 <= k -> 0 <= j -> Z.testbit (Z.lor b (Z.shiftl 1 k)) j = (j =? k) || Z.testbit b j.
Proof.
  intros Hk Hj. rewrite Z.lor_spec, Z.shiftl_spec, orb_comm by lia. f_equal.
  destruct (Z.eqb_spec j k) as [-> |]; [by rewrite Z.sub_diag |].
  destruct (Z.lt_trichotomy j k) as [? | [? | ?]]; [| lia |].
  - by rewrite Z.testbit_neg_r by lia.
  - replace (j - k) with (Z.succ (j - k - 1)) by lia.
    change 1 with (2 * 0 + 1) at 1. rewrite Z.testbit_odd_succ by lia. apply Z.testbit_0_l.
Qed.

Lemma testbit_clear (b k j : Z) :
  0 <= k < 8 -> 0 <= j < 8 ->
  Z.testbit (Z.land b (Z.lxor 255 (Z.shiftl 1 k))) j = negb (j =? k) && Z.testbit b j.
Proof.
  intros Hk Hj. rewrite Z.land_spec, Z.lxor_spec.
  pose proof (testbit_set 0 k j ltac:(lia) ltac:(lia)) as Hs.
  rewrite Z.lor_0_l, Z.testbit_0_l, orb_false_r in Hs. rewrite Hs.
  change 255 with (Z.ones 8). rewrite Z.ones_spec_low by lia.
  rewrite andb_comm. destruct (j =? k); done.
Qed.

(** The two ways the code reads a bit. *)
Lemma test_shift (b k : Z) : 0 <= k -> (Z.land (Z.shiftr b k) 1 =? 1) = Z.testbit b k.
Proof.
  intros Hk. change 1 with (Z.ones 1) at 1. rewrite Z.land_ones by lia.
  rewrite <- Z.bit0_mod, Z.shiftr_spec by lia. rewrite Z.add_0_l.
  by destruct (Z.testbit b k).
Qed.

Lemma test_mask (b k : Z) : 0 <= k -> (Z.land b (Z.shiftl 1 k) =? 0) = negb (Z.testbit b k).
Proof.
  intros Hk.
  assert (Z.land b (Z.shiftl 1 k) = if Z.testbit b k then Z.shiftl 1 k else 0) as ->.
  { apply Z.bits_inj'. intros j Hj. rewrite Z.land_spec.
    pose proof (testbit_set 0 k j ltac:(lia) ltac:(lia)) as Hs.
    rewrite Z.lor_0_l, Z.testbit_0_l, orb_false_r in Hs.
    destruct (Z.testbit b k) eqn:E; rewrite ?Hs, ?Z.testbit_0_l;
      destruct (Z.eqb_spec j k); subst; rewrite ?E, ?andb_false_r; done. }
  destruct (Z.testbit b k); [| done]. simpl.
  rewrite Z.shiftl_mul_pow2, Z.mul_1_l by lia.
  apply Z.eqb_neq. pose proof (Z.pow_pos_nonneg 2 k ltac:(lia) ltac:(lia)). lia.
Qed.

Lemma byte_set_range (b k : Z) : 0 <= b < 256 -> 0 <= k < 8 -> 0 <= Z.lor b (Z.shiftl 1 k) < 256.
Proof.
  intros Hb Hk. rewrite Z.shiftl_mul_pow2, Z.mul_1_l by lia.
  pose proof (Z.pow_pos_nonneg 2 k ltac:(lia) ltac:(lia)).
  pose proof (Z.pow_lt_mono_r 2 k 8 ltac:(lia) ltac:(lia) ltac:(lia)).
  assert (0 <= Z.lor b (2 ^ k)) by (apply Z.lor_nonneg; lia). split; [done |].
  destruct (Z.eq_dec (Z.lor b (2 ^ k)) 0) as [-> | Hnz]; [lia |].
  apply (Z.log2_lt_pow2 _ 8); [lia |]. rewrite Z.log2_lor, Z.log2_pow2 by lia.
  apply Z.max_lub_lt; [| lia].
  destruct (Z.eq_dec b 0) as [-> | ]; [simpl; lia |]. apply Z.log2_lt_pow2; simpl; lia.
Qed.

Lemma byte_clear_range (b m : Z) : 0 <= b < 256 -> 0 <= Z.land b m < 256.
Proof.
  intros Hb. assert (0 <= Z.land b m) by (apply Z.land_nonneg; lia). split; [done |].
  assert (Z.land b m <= b) by (apply Z.ldiff_le; [lia | ];
    rewrite <- (Z.land_lnot_diag b); apply Z.bits_inj'; intros j Hj;
    rewrite Z.ldiff_spec, !Z.land_spec, Z.lnot_spec by lia;
    by destruct (Z.testbit b j), (Z.testbit m j)).
  lia.
Qed.

(** ** Updating one bit *)

Lemma bit_at_insert (bm : list Z) (i j v : Z) :
  0 <= i -> i / 8 < zlen bm -> 0 <= j ->
  bit_at (<[Z.to_nat (i / 8) := v]> bm) j =
    if j / 8 =? i / 8 then Z.testbit v (j mod 8) else bit_at bm j.
Proof.
  unfold bit_at, zlen. intros Hi Hlen Hj. pose proof (Z.div_pos i 8).
  destruct (Z.eqb_spec (j / 8) (i / 8)) as [-> | Hne].
  - rewrite list_lookup_insert_eq; [done |]. lia.
  - rewrite list_lookup_insert_ne; [done |].
    pose proof (Z.div_pos j 8). lia.
Qed.

Lemma div_mod_8_inj (i j : Z) : i / 8 = j / 8 -> i mod 8 = j mod 8 -> i = j.
Proof. intros H1 H2. rewrite (Z.div_mod i 8), (Z.div_mod j 8) by lia. lia. Qed.

Lemma bit_at_set (bm : list Z) (i j b : Z) :
  0 <= i -> 0 <= j -> bm !! Z.to_nat (i / 8) = Some b ->
  bit_at (<[Z.to_nat (i / 8) := Z.lor b (Z.shiftl 1 (i mod 8))]> bm) j
  = (j =? i) || bit_at bm j.
Proof.
  intros Hi Hj Hb. pose proof (lookup_lt_Some _ _ _ Hb).
  pose proof (Z.mod_pos_bound i 8). pose proof (Z.mod_pos_bound j 8).
  pose proof (Z.div_pos i 8).
  rewrite bit_at_insert by (unfold zlen; lia).
  destruct (Z.eqb_spec (j / 8) (i / 8)) as [Hd | Hne].
  - rewrite testbit_set by lia. unfold bit_at. rewrite Hd, Hb. simpl. f_equal.
    destruct (Z.eqb_spec (j mod 8) (i mod 8)), (Z.eqb_spec j i); subst;
      (done || (exfalso; eauto using div_mod_8_inj)).
  - destruct (Z.eqb_spec j i); [by subst | done].
Qed.

Lemma bit_at_clear (bm : list Z) (i j b : Z) :
  0 <= i -> 0 <= j -> bm !! Z.to_nat (i / 8) = Some b ->
  bit_at (<[Z.to_nat (i / 8) := Z.land b (Z.lxor 255 (Z.shiftl 1 (i mod 8)))]> bm) j
  = negb (j =? i) && bit_at bm j.
Proof.
  intros Hi Hj Hb. pose proof (lookup_lt_Some _ _ _ Hb).
  pose proof (Z.mod_pos_bound i 8). pose proof (Z.mod_pos_bound j 8).
  pose proof (Z.div_pos i 8).
  rewrite bit_at_insert by (unfold zlen; lia).
  destruct (Z.eqb_spec (j / 8) (i / 8)) as [Hd | Hne].
  - rewrite testbit_clear by lia. unfold bit_at. rewrite Hd, Hb. simpl. f_equal.
    destruct (Z.eqb_spec (j mod 8) (i mod 8)), (Z.eqb_spec j i); subst;
      (done || (exfalso; eauto using div_mod_8_inj)).
  - destruct (Z.eqb_spec j i); [by subst | done].
Qed.

(** ** Counting *)

Lemma elem_of_clear_bits (bm : list Z) (n i : Z) :
  i ∈ clear_bits bm n <-> 0 <= i < n /\ bit_at bm i = false.
Proof. unfold clear_bits. rewrite list_elem_of_filter, elem_of_seqZ. intuition lia. Qed.

Lemma NoDup_clear_bits (bm : list Z) (n : Z) : NoDup (clear_bits bm n).
Proof. apply NoDup_filter, NoDup_seqZ. Qed.

Lemma count_clear_ext (bm bm' : list Z) (n : Z) :
  (forall j, 0 <= j < n -> bit_at bm j = bit_at bm' j) -> count_clear bm n = count_clear bm' n.
Proof.
  intros H. unfold count_clear, zlen. f_equal. apply Permutation_length, NoDup_Permutation;
    [apply NoDup_clear_bits .. |].
  intros j. rewrite !elem_of_clear_bits. split; intros [? Hb]; (split; [done |]);
    by rewrite ?H, <- ?H in * by lia.
Qed.

(** Setting a clear bit removes exactly it from the clear ones. *)
Lemma count_clear_set (bm bm' : list Z) (n i : Z) :
  0 <= i < n -> bit_at bm i = false ->
  (forall j, 0 <= j < n -> bit_at bm' j = (j =? i) || bit_at bm j) ->
  count_clear bm' n = count_clear bm n - 1.
Proof.
  intros Hi Hfree Hset. unfold count_clear, zlen.
  assert (clear_bits bm n ≡ₚ i :: clear_bits bm' n) as ->; [| simpl; lia].
  apply NoDup_Permutation.
  - apply NoDup_clear_bits.
  - apply NoDup_cons; split; [| apply NoDup_clear_bits].
    rewrite elem_of_clear_bits. intros [Hin Hb]. rewrite Hset, Z.eqb_refl in Hb by lia. done.
  - intros j. rewrite elem_of_cons, !elem_of_clear_bits. split.
    + intros [Hj Hb]. destruct (decide (j = i)); [by left | right].
      split; [done |]. rewrite Hset, Hb by lia. rewrite (proj2 (Z.eqb_neq j i)) by done. done.
    + intros [-> | [Hj Hb]]; [done |]. split; [done |].
      rewrite Hset in Hb by lia. by apply orb_false_elim in Hb as [_ ?].
Qed.

Lemma count_clear_clear (bm bm' : list Z) (n i : Z) :
  0 <= i < n -> bit_at bm i = true ->
  (forall j, 0 <= j < n -> bit_at bm' j = negb (j =? i) && bit_at bm j) ->
  count_clear bm' n = count_clear bm n + 1.
Proof.
  intros Hi Hfree Hset.
  assert (count_clear bm n = count_clear bm' n - 1); [| lia].
  apply (count_clear_set bm' bm n i); [done | |].
  - rewrite Hset, Z.eqb_refl by lia. done.
  - intros j Hj. rewrite Hset by done. destruct (Z.eqb_spec j i); subst; done.
Qed.
