(* ===== verification/Bytes.v ===== *)
(** * Bytes and integers in memory

    [to_le_bytes] and [from_le_bytes], byte slices, and physical memory as the
    kernel reads and writes it through the higher-half direct map. *)

From S2P Require Import Prelude.

(** ** Little-endian encodings *)

Definition byte_ok (b : Z) : Prop := 0 <= b < 256.

(** [v.to_le_bytes()] of an [n]-byte integer. *)
Fixpoint le_bytes (n : nat) (v : Z) : list Z :=
  match n with
  | O => []
  | S n => v mod 256 :: le_bytes n (v / 256)
  end.

(** [from_le_bytes]. *)
Fixpoint le_val (l : list Z) : Z :=
  match l with
  | [] => 0
  | b :: l => b + 256 * le_val l
  end.

(** ** Slices of bytes *)

(** [&l[a..a + n]], which panics when it reaches past the end. *)
Definition slice {A} (l : list A) (a n : Z) : outcome (list A) :=
  if (0 <=? a) && (0 <=? n) && (a + n <=? zlen l)
  then Ret (take (Z.to_nat n) (drop (Z.to_nat a) l)) else Panic.

(** [l[a..a + src.len()].copy_from_slice(src)]. *)
Definition splice {A} (l : list A) (a : Z) (src : list A) : outcome (list A) :=
  if (0 <=? a) && (a + zlen src <=? zlen l)
  then Ret (take (Z.to_nat a) l ++ src ++ drop (Z.to_nat a + length src) l) else Panic.

(** What a write at an offset makes of the bytes of a file: past the end, the
    gap is filled with zeros. *)
Definition overwrite (d : list Z) (off : Z) (b : list Z) : list Z :=
  take (Z.to_nat off) d ++ replicate (Z.to_nat off - length d) 0 ++ b ++ drop (Z.to_nat off + length b) d.

(** ** Physical memory *)

Definition PhysMem : Type := Z -> Z.
Definition mem_ok (m : PhysMem) : Prop := forall a, byte_ok (m a).

(** [core::ptr::write_bytes(a, v, n)]. *)
Definition fill (m : PhysMem) (a n v : Z) : PhysMem :=
  fun x => if (a <=? x) && (x <? a + n) then v else m x.
(** [copy_nonoverlapping] into memory, and out of it. *)
Definition store (m : PhysMem) (a : Z) (l : list Z) : PhysMem :=
  fun x => if (a <=? x) && (x <? a + zlen l) then nth (Z.to_nat (x - a)) l 0 else m x.
Definition load (m : PhysMem) (a : Z) (n : nat) : list Z :=
  (fun i => m (a + Z.of_nat i)) <$> seq 0 n.

Definition read64 (m : PhysMem) (a : Z) : Z := le_val (load m a 8).
Definition write64 (m : PhysMem) (a v : Z) : PhysMem := store m a (le_bytes 8 v).

(** ** Lemmas *)

Lemma le_bytes_length (n : nat) (v : Z) : length (le_bytes n v) = n.
Proof. revert v. induction n as [| n IH]; intros v; simpl; [done | by rewrite IH]. Qed.

Lemma le_bytes_ok (n : nat) (v : Z) : Forall byte_ok (le_bytes n v).
Proof.
  revert v. induction n as [| n IH]; intros v; simpl; [done |].
  constructor; [apply Z.mod_pos_bound; lia | apply IH].
Qed.

Lemma le_val_bytes (n : nat) (v : Z) : 0 <= v < 256 ^ Z.of_nat n -> le_val (le_bytes n v) = v.
Proof.
  revert v. induction n as [| n IH]; intros v Hv; cbn [le_bytes le_val].
  { simpl in Hv. lia. }
  rewrite IH; [pose proof (Z.div_mod v 256); lia |].
  rewrite Nat2Z.inj_succ, Z.pow_succ_r in Hv by lia.
  split; [apply Z.div_pos; lia | apply Z.div_lt_upper_bound; lia].
Qed.

Lemma le_val_range (l : list Z) : Forall byte_ok l -> 0 <= le_val l < 256 ^ zlen l.
Proof.
  unfold zlen. induction 1 as [| b l Hb _ IH]; cbn [le_val length]; [simpl; lia |].
  rewrite Nat2Z.inj_succ, Z.pow_succ_r by lia. unfold byte_ok in Hb. lia.
Qed.

Lemma le_bytes_val (l : list Z) : Forall byte_ok l -> le_bytes (length l) (le_val l) = l.
Proof.
  induction 1 as [| b l Hb _ IH]; simpl; [done |]. unfold byte_ok in Hb.
  replace (b + 256 * le_val l) with (le_val l * 256 + b) by lia.
  rewrite (Z.div_add_l _ 256 b) by lia. rewrite (Z.div_small b) by lia. rewrite Z.add_0_r, IH.
  rewrite Z.add_comm, Z.mod_add by lia. by rewrite Z.mod_small.
Qed.

Lemma slice_Ret {A} (l r : list A) (a n : Z) :
  slice l a n = Ret r <->
  0 <= a /\ 0 <= n /\ a + n <= zlen l /\ r = take (Z.to_nat n) (drop (Z.to_nat a) l).
Proof.
  unfold slice. zcases; simpl; (split; [intros [= <-] || discriminate; done | intros (? & ? & ? & ->); (done || lia)]).
Qed.

Lemma slice_length {A} (l r : list A) (a n : Z) : slice l a n = Ret r -> zlen r = n.
Proof.
  intros (? & ? & ? & ->)%slice_Ret. unfold zlen in *. rewrite length_take, length_drop. lia.
Qed.

Lemma splice_Ret {A} (l r src : list A) (a : Z) :
  splice l a src = Ret r <->
  0 <= a /\ a + zlen src <= zlen l /\
  r = take (Z.to_nat a) l ++ src ++ drop (Z.to_nat a + length src) l.
Proof.
  unfold splice. zcases; simpl; (split; [intros [= <-] || discriminate; done | intros (? & ? & ->); (done || lia)]).
Qed.

Lemma splice_length {A} (l r src : list A) (a : Z) : splice l a src = Ret r -> zlen r = zlen l.
Proof.
  intros (? & ? & ->)%splice_Ret. unfold zlen in *.
  rewrite !length_app, length_take, length_drop. lia.
Qed.

(** Reading back what was copied in, and reading elsewhere. *)
Lemma slice_splice_same {A} (l r src : list A) (a : Z) :
  splice l a src = Ret r -> slice r a (zlen src) = Ret src.
Proof.
  intros H. pose proof (splice_length _ _ _ _ H). apply splice_Ret in H as (? & ? & ->).
  apply slice_Ret. split_and!; [lia | unfold zlen; lia | lia |]. unfold zlen in *.
  rewrite drop_app_length' by (rewrite length_take; lia).
  rewrite take_app_length' by lia. done.
Qed.

Lemma slice_splice_other {A} (l r src : list A) (a b n : Z) :
  splice l a src = Ret r -> b + n <= a \/ a + zlen src <= b -> slice r b n = slice l b n.
Proof.
  intros H Hd. pose proof (splice_length _ _ _ _ H) as Hl. apply splice_Ret in H as (Ha & Hb & Hr).
  unfold slice. rewrite Hl. destruct (0 <=? b) eqn:E1, (0 <=? n) eqn:E2, (b + n <=? zlen l) eqn:E3;
    simpl; try done. f_equal. subst r. unfold zlen in *.
  apply list_eq. intros i. destruct (decide (i < Z.to_nat n)%nat) as [Hi |];
    [| rewrite !lookup_take_ge by lia; done].
  rewrite !lookup_take_lt by done. rewrite !lookup_drop.
  destruct Hd.
  - rewrite lookup_app_l by (rewrite length_take; lia). by rewrite lookup_take_lt by lia.
  - rewrite lookup_app_r by (rewrite length_take; lia). rewrite length_take.
    rewrite lookup_app_r by lia. rewrite lookup_drop. f_equal. lia.
Qed.

Lemma load_length (m : PhysMem) (a : Z) (n : nat) : length (load m a n) = n.
Proof. unfold load. by rewrite length_fmap, length_seq. Qed.

Lemma load_ext (m m' : PhysMem) (a : Z) (n : nat) :
  (forall x, a <= x < a + Z.of_nat n -> m' x = m x) -> load m' a n = load m a n.
Proof.
  intros H. unfold load. apply list_fmap_ext. intros i x [-> Hx]%lookup_seq. apply H. lia.
Qed.

Lemma load_store_same (m : PhysMem) (a : Z) (l : list Z) : load (store m a l) a (length l) = l.
Proof.
  apply list_eq. intros i. unfold load. rewrite list_lookup_fmap.
  destruct (decide (i < length l)%nat) as [Hi | Hi].
  - rewrite lookup_seq_lt by done. simpl. unfold store, zlen. zcases; simpl; try lia.
    replace (Z.to_nat (a + Z.of_nat i - a)) with i by lia.
    destruct (lookup_lt_is_Some_2 l i Hi) as [x Hx]. rewrite Hx.
    by rewrite (nth_lookup_Some _ _ _ _ Hx).
  - rewrite lookup_seq_ge by lia. rewrite lookup_ge_None_2 by lia. done.
Qed.

Lemma store_other (m : PhysMem) (a : Z) (l : list Z) (x : Z) :
  ~ (a <= x < a + zlen l) -> store m a l x = m x.
Proof. intros H. unfold store. zcases; simpl; (done || lia). Qed.

Lemma store_mem_ok (m : PhysMem) (a : Z) (l : list Z) : mem_ok m -> Forall byte_ok l -> mem_ok (store m a l).
Proof.
  intros Hm Hl x. unfold store. case_match; [| apply Hm].
  destruct (nth_in_or_default (Z.to_nat (x - a)) l 0) as [Hin | ->]; [| unfold byte_ok; lia].
  rewrite Forall_forall in Hl. apply Hl. by apply list_elem_of_In.
Qed.

Lemma fill_mem_ok (m : PhysMem) (a n v : Z) : mem_ok m -> byte_ok v -> mem_ok (fill m a n v).
Proof. intros Hm Hv x. unfold fill. case_match; [done | apply Hm]. Qed.

Lemma fill_in (m : PhysMem) (a n v x : Z) : a <= x < a + n -> fill m a n v x = v.
Proof. intros H. unfold fill. zcases; simpl; (done || lia). Qed.

Lemma fill_other (m : PhysMem) (a n v x : Z) : ~ (a <= x < a + n) -> fill m a n v x = m x.
Proof. intros H. unfold fill. zcases; simpl; (done || lia). Qed.

Lemma load_ok (m : PhysMem) (a : Z) (n : nat) : mem_ok m -> Forall byte_ok (load m a n).
Proof. intros H. unfold load. apply Forall_fmap, Forall_forall. intros i _. apply H. Qed.

Lemma read64_range (m : PhysMem) (a : Z) : mem_ok m -> 0 <= read64 m a < 2 ^ 64.
Proof.
  intros Hm. pose proof (le_val_range _ (load_ok m a 8 Hm)) as H.
  unfold zlen in H. rewrite load_length in H. exact H.
Qed.

Lemma read64_ext (m m' : PhysMem) (a : Z) :
  (forall x, a <= x < a + 8 -> m' x = m x) -> read64 m' a = read64 m a.
Proof. intros H. unfold read64. by rewrite (load_ext m m' a 8) by exact H. Qed.

Lemma read_write64_same (m : PhysMem) (a v : Z) : 0 <= v < 2 ^ 64 -> read64 (write64 m a v) a = v.
Proof.
  intros Hv. unfold read64, write64.
  pose proof (load_store_same m a (le_bytes 8 v)) as H. rewrite le_bytes_length in H.
  rewrite H. by apply le_val_bytes.
Qed.

Lemma write64_other (m : PhysMem) (a v x : Z) : ~ (a <= x < a + 8) -> write64 m a v x = m x.
Proof. intros H. apply store_other. unfold zlen. by rewrite le_bytes_length. Qed.

Lemma read_write64_other (m : PhysMem) (a b v : Z) :
  a + 8 <= b \/ b + 8 <= a -> read64 (write64 m a v) b = read64 m b.
Proof. intros H. apply read64_ext. intros x Hx. apply write64_other. lia. Qed.

Lemma write64_mem_ok (m : PhysMem) (a v : Z) : mem_ok m -> mem_ok (write64 m a v).
Proof. intros Hm. apply store_mem_ok; [done | apply le_bytes_ok]. Qed.

Lemma le_val_zeros (n : nat) : le_val (replicate n 0) = 0.
Proof. induction n as [| n IH]; simpl; [done | by rewrite IH]. Qed.

Lemma read64_fill_zero (m : PhysMem) (a n b : Z) :
  a <= b -> b + 8 <= a + n -> read64 (fill m a n 0) b = 0.
Proof.
  intros H1 H2. unfold read64.
  replace (load (fill m a n 0) b 8) with (replicate 8 0); [apply le_val_zeros |].
  apply replicate_as_elem_of. split; [apply load_length |].
  intros x (i & -> & Hi%elem_of_seq)%list_elem_of_fmap. apply fill_in. lia.
Qed.

(** ** Overwriting *)

Lemma overwrite_length (d b : list Z) (off : Z) : 0 <= off -> zlen (overwrite d off b) = Z.max (zlen d) (off + zlen b).
Proof.
  intros Ho. unfold overwrite, zlen. rewrite !length_app, length_take, length_replicate, length_drop. lia.
Qed.

Lemma overwrite_at (d b : list Z) (off i : Z) :
  0 <= off -> 0 <= i < Z.max (zlen d) (off + zlen b) ->
  overwrite d off b !!! Z.to_nat i
  = if (off <=? i) && (i <? off + zlen b) then b !!! Z.to_nat (i - off)
    else if i <? zlen d then d !!! Z.to_nat i else 0.
Proof.
  unfold zlen. intros Ho Hi. rewrite !list_lookup_total_alt. unfold overwrite.
  destruct (Z.leb_spec off i); simpl.
  - rewrite lookup_app_r by (rewrite length_take; lia). rewrite length_take.
    rewrite lookup_app_r by (rewrite length_replicate; lia). rewrite length_replicate.
    destruct (Z.ltb_spec i (off + Z.of_nat (length b))).
    + rewrite lookup_app_l by lia. do 2 f_equal. lia.
    + rewrite lookup_app_r by lia. rewrite lookup_drop. rewrite (proj2 (Z.ltb_lt i _)) by lia.
      do 2 f_equal. lia.
  - destruct (Z.ltb_spec i (Z.of_nat (length d))).
    + rewrite lookup_app_l by (rewrite length_take; lia). by rewrite lookup_take_lt by lia.
    + rewrite lookup_app_r by (rewrite length_take; lia). rewrite length_take.
      rewrite lookup_app_l by (rewrite length_replicate; lia). rewrite lookup_replicate_2 by lia. done.
Qed.
