(* ===== verification/Frames.v ===== *)
(** * The frame allocator interface

    What the page-table code, the IPC layer and the drivers rely on when they
    call [pmm::alloc_frame] and [pmm::free_frame]: a typeclass of the two
    operations, an invariant, the frames managed and available, and the contract.
    [Pmm.v] discharges it for the bitmap allocator; the memory manager and the
    components above it are proved against it. *)

From S2P Require Import Prelude.

(** [mm::PAGE_SIZE]. *)
Definition PAGE_SIZE : Z := 4096.

(** Physical addresses of 4 KiB frames the page-table entries can hold. *)
Definition frame_addr (a : Z) : Prop := 0 <= a < 2 ^ 52 /\ a mod 4096 = 0.

Class FrameAllocator (A : Type) : Type := {
  fa_alloc : A -> outcome (option Z * A);
  fa_free : A -> Z -> outcome A;
  (** The allocator's invariant, the frames it manages and those it can still
      hand out. *)
  fa_ok : A -> Prop;
  fa_ram : A -> Z -> Prop;
  fa_avail : A -> Z -> Prop;
  fa_avail_ram : forall a f, fa_ok a -> frame_addr f -> fa_avail a f -> fa_ram a f /\ f <> 0;
  fa_alloc_spec : forall a, fa_ok a ->
    exists r a', fa_alloc a = Ret (r, a') /\ fa_ok a' /\ (forall g, fa_ram a' g <-> fa_ram a g) /\
      match r with
      | Some f => frame_addr f /\ f <> 0 /\ fa_ram a f /\ fa_avail a f /\
                  forall g, frame_addr g -> fa_avail a' g <-> g <> f /\ fa_avail a g
      | None => a' = a /\ forall g, frame_addr g -> ~ fa_avail a g
      end;
  fa_free_spec : forall a f, fa_ok a -> frame_addr f -> f <> 0 -> fa_ram a f -> ~ fa_avail a f ->
    exists a', fa_free a f = Ret a' /\ fa_ok a' /\ (forall g, fa_ram a' g <-> fa_ram a g) /\
      forall g, frame_addr g -> fa_avail a' g <-> g = f \/ fa_avail a g
}.
