(* ===== verification/BootInfo.v ===== *)
(** * Boot protocol

    The types `personaboot` and the kernel share
    ([libs/shared/src/boot_info.rs]). *)

From S2P Require Import Prelude.

(** [HHDM_OFFSET]: physical memory is mapped at this offset in the kernel's
    address space.  The models of the memory managers name memory by its
    physical address, so an access through [(phys + HHDM_OFFSET) as *mut T] is
    an access at [phys]. *)
Definition HHDM_OFFSET : Z := 0xFFFF800000000000.

(** The bytes of "PondOSB" and a NUL, read as a little-endian [u64]. *)
Definition BOOT_INFO_MAGIC : Z := 0x0042534F646E6F50.
Definition BOOT_INFO_VERSION : Z := 1.

Inductive PixelFormat : Type := Bgrx8888 | Rgbx8888 | PfUnknown.

Inductive MemoryKind : Type :=
  | Usable
  | BootloaderReclaimable
  | KernelAndModules
  | AcpiReclaimable
  | AcpiNvs
  | Reserved
  | BadMemory
  | MkFramebuffer.

#[global] Instance MemoryKind_eq_dec : EqDecision MemoryKind.
Proof. solve_decision. Defined.
#[global] Instance PixelFormat_eq_dec : EqDecision PixelFormat.
Proof. solve_decision. Defined.

Record MemoryRegion : Type := mkRegion {
  r_base : Z;
  r_length : Z;
  r_kind : MemoryKind
}.

Record Framebuffer : Type := mkFramebuffer {
  fb_base : Z;
  fb_width : Z;
  fb_height : Z;
  fb_pitch : Z;
  fb_bits_per_pixel : Z;
  fb_pixel_format : PixelFormat
}.

Record BootInfo : Type := mkBootInfo {
  bi_magic : Z;
  bi_version : Z;
  bi_framebuffer : Framebuffer;
  bi_memory_map : list MemoryRegion;
  bi_rsdp_phys : Z;
  bi_hhdm_offset : Z
}.
