(* ===== verification/Pmm.v ===== *)
(** * Physical frame allocator

    Model of [kernel/src/mm/pmm.rs]: a single bitmap with one bit per page
    frame number, set when the frame is in use, and the two counters
    [TOTAL_FRAMES] and [FREE_FRAMES].  Every access to the bitmap is bounds
    checked as the slice accesses of the source are. *)

From S2P Require Import Prelude Bitmap Frames BootInfo.

(** ** State *)

Record Pmm : Type := mkPmm {
  bitmap : list Z;
  base_pfn : Z;
  total_pfns : Z;
  next_hint : Z
}.

Record PmmState : Type := mkPmmState {
  PMM : option Pmm;
  TOTAL_FRAMES : Z;
  FREE_FRAMES : Z
}.

(** The statics before [init]. *)
Definition pmm_statics : PmmState := mkPmmState None 0 0.

Definition with_bitmap (p : Pmm) (bm : list Z) : Pmm :=
  mkPmm bm (base_pfn p) (total_pfns p) (next_hint p).
Definition with_hint (p : Pmm) (h : Z) : Pmm :=
  mkPmm (bitmap p) (base_pfn p) (total_pfns p) h.

(** ** Operations *)

Definition is_free (k : MemoryKind) : bool :=
  match k with Usable | BootloaderReclaimable => true | _ => false end.

Definition pmm_set (p : Pmm) (pfn : Z) : outcome Pmm :=
  let! b := idx (bitmap p) (pfn / 8) in
  let! bm := upd (bitmap p) (pfn / 8) (Z.lor b (Z.shiftl 1 (pfn mod 8))) in
  Ret (with_bitmap p bm).

Definition pmm_clear (p : Pmm) (pfn : Z) : outcome Pmm :=
  let! b := idx (bitmap p) (pfn / 8) in
  let! bm := upd (bitmap p) (pfn / 8) (Z.land b (Z.lxor 255 (Z.shiftl 1 (pfn mod 8)))) in
  Ret (with_bitmap p bm).

Definition pmm_is_set (p : Pmm) (pfn : Z) : outcome bool :=
  let! b := idx (bitmap p) (pfn / 8) in
  Ret (Z.land (Z.shiftr b (pfn mod 8)) 1 =? 1).

(** The [loop] of [alloc_one], from the cursor [pfn]. *)
Fixpoint alloc_one_loop (fuel : nat) (p : Pmm) (start pfn : Z) : outcome (option Z * Pmm) :=
  match fuel with
  | O => OutOfFuel
  | S fuel =>
      let pfn := if total_pfns p <=? pfn then 0 else pfn in
      let! s := pmm_is_set p pfn in
      if negb s then
        let! p' := pmm_set p pfn in
        Ret (Some (base_pfn p + pfn), with_hint p' (pfn + 1))
      else
        let pfn := pfn + 1 in
        if pfn =? start then Ret (None, p) else alloc_one_loop fuel p start pfn
  end.

Definition alloc_one (fuel : nat) (p : Pmm) : outcome (option Z * Pmm) :=
  alloc_one_loop fuel p (next_hint p) (next_hint p).

Definition free_one (p : Pmm) (pfn : Z) : outcome Pmm :=
  let! p := pmm_clear p pfn in
  Ret (if pfn <? next_hint p then with_hint p pfn else p).

(** Iterations that are enough for [alloc_one] ([alloc_one_total] below). *)
Definition alloc_fuel (p : Pmm) : nat := S (Z.to_nat (total_pfns p)).

(** [AtomicUsize::fetch_sub] and [fetch_add] wrap. *)
Definition alloc_frame (st : PmmState) : outcome (option Z * PmmState) :=
  match PMM st with
  | None => Ret (None, st)
  | Some p =>
      let! r := alloc_one (alloc_fuel p) p in
      match r with
      | (None, p') => Ret (None, mkPmmState (Some p') (TOTAL_FRAMES st) (FREE_FRAMES st))
      | (Some pfn, p') =>
          let! phys := checked 64 (pfn * PAGE_SIZE) in
          Ret (Some phys, mkPmmState (Some p') (TOTAL_FRAMES st) (wrap 64 (FREE_FRAMES st - 1)))
      end
  end.

(** The scan of [alloc_contig] over [0..total_pfns]: the current run and its
    start, until a run of [n] is found. *)
Fixpoint contig_scan (p : Pmm) (n : Z) (pfns : list Z) (run start : Z) : outcome (option Z) :=
  match pfns with
  | [] => Ret None
  | pfn :: pfns =>
      let! s := pmm_is_set p pfn in
      if s : bool then contig_scan p n pfns 0 start
      else
        let start := if run =? 0 then pfn else start in
        let run := run + 1 in
        if run =? n then Ret (Some start) else contig_scan p n pfns run start
  end.

Definition alloc_contig (st : PmmState) (n : Z) : outcome (option Z * PmmState) :=
  match PMM st with
  | None => Ret (None, st)
  | Some p =>
      let! r := contig_scan p n (seqZ 0 (total_pfns p)) 0 0 in
      match r with
      | None => Ret (None, st)
      | Some start =>
          let! p' := ofold (fun p i => pmm_set p (start + i)) (seqZ 0 n) p in
          let! phys := checked 64 (start * PAGE_SIZE) in
          Ret (Some phys, mkPmmState (Some p') (TOTAL_FRAMES st) (wrap 64 (FREE_FRAMES st - n)))
      end
  end.

Definition free_frame (st : PmmState) (phys : Z) : outcome PmmState :=
  let pfn := phys / PAGE_SIZE in
  match PMM st with
  | None => Ret st
  | Some p =>
      let! p' := free_one p pfn in
      Ret (mkPmmState (Some p') (TOTAL_FRAMES st) (wrap 64 (FREE_FRAMES st + 1)))
  end.

Definition total_frames (st : PmmState) : Z := TOTAL_FRAMES st.
Definition free_frames (st : PmmState) : Z := FREE_FRAMES st.

(** *** [init] *)

Definition max_phys_of (regions : list MemoryRegion) : outcome Z :=
  ofold (fun m r =>
    let! e := checked 64 (r_base r + r_length r) in
    Ret (if m <? e then e else m)) regions 0.

(** The first usable region that fits the bitmap. *)
Fixpoint find_bitmap_region (regions : list MemoryRegion) (bitmap_pages : Z) : option Z :=
  match regions with
  | [] => None
  | r :: regions =>
      if negb (is_free (r_kind r)) then find_bitmap_region regions bitmap_pages
      else if bitmap_pages <=? r_length r / PAGE_SIZE then Some (r_base r)
      else find_bitmap_region regions bitmap_pages
  end.

(** Clear the bits of the frames [pfns], stopping at the first one past the
    end of the bitmap. *)
Fixpoint mark_frames (total : Z) (pfns : list Z) (pf : Pmm * Z) : outcome (Pmm * Z) :=
  match pfns with
  | [] => Ret pf
  | pfn :: pfns =>
      if total <=? pfn then Ret pf
      else
        let! p := pmm_clear (fst pf) pfn in
        mark_frames total pfns (p, snd pf + 1)
  end.

Definition mark_region (total : Z) (pf : Pmm * Z) (r : MemoryRegion) : outcome (Pmm * Z) :=
  if negb (is_free (r_kind r)) then Ret pf
  else
    let start_pfn := r_base r / PAGE_SIZE in
    let pages := r_length r / PAGE_SIZE in
    mark_frames total (seqZ start_pfn pages) pf.

Definition reserve_frame (pf : Pmm * Z) (pfn : Z) : outcome (Pmm * Z) :=
  let '(p, free) := pf in
  let! s := pmm_is_set p pfn in
  if s : bool then Ret (p, free)
  else
    let! p := pmm_set p pfn in
    let! free := checked 64 (free - 1) in
    Ret (p, free).

(** Page 0 is never handed out. *)
Definition reserve_null (pf : Pmm * Z) : outcome (Pmm * Z) :=
  let '(p, free) := pf in
  let! s := pmm_is_set p 0 in
  if s : bool then Ret (p, free)
  else
    let! p := pmm_set p 0 in
    Ret (p, Z.max 0 (free - 1)).

Definition init (regions : list MemoryRegion) : outcome PmmState :=
  let! max_phys := max_phys_of regions in
  let total := div_ceil max_phys PAGE_SIZE in
  let bitmap_bytes := div_ceil total 8 in
  let bitmap_pages := div_ceil bitmap_bytes PAGE_SIZE in
  match find_bitmap_region regions bitmap_pages with
  | None => Panic
  | Some bitmap_phys =>
      let p := mkPmm (replicate (Z.to_nat bitmap_bytes) 0xFF) 0 total 0 in
      let! pf := ofold (mark_region total) regions (p, 0) in
      let! pf := ofold (fun pf i => reserve_frame pf (bitmap_phys / PAGE_SIZE + i))
                   (seqZ 0 bitmap_pages) pf in
      let! (p, free) := reserve_null pf in
      Ret (mkPmmState (Some p) total free)
  end.

(** ** Invariant *)

(** Frame [i] is in use. *)
Definition used (p : Pmm) (i : Z) : bool := bit_at (bitmap p) i.
Definition n_free (p : Pmm) : Z := count_clear (bitmap p) (total_pfns p).

Record pmm_wf (p : Pmm) : Prop := {
  wf_base : base_pfn p = 0;
  wf_total : 0 < total_pfns p <= 2 ^ 40; (* 52-bit physical addresses *)
  wf_len : zlen (bitmap p) = div_ceil (total_pfns p) 8;
  wf_hint : 0 <= next_hint p <= total_pfns p
}.

(** The allocator is up, its free counter is exact, frame 0 is never handed
    out. *)
Definition state_wf (st : PmmState) : Prop :=
  match PMM st with
  | None => False
  | Some p => pmm_wf p /\ used p 0 = true /\ TOTAL_FRAMES st = total_pfns p /\
              FREE_FRAMES st = n_free p
  end.

(** ** Single-bit operations *)

Lemma pfn_in_bitmap (p : Pmm) (i : Z) :
  pmm_wf p -> 0 <= i < total_pfns p -> 0 <= i / 8 < zlen (bitmap p).
Proof.
  intros [_ _ -> _] Hi. unfold div_ceil. split; [apply Z.div_pos; lia |].
  apply Z.div_lt_upper_bound; [lia |].
  pose proof (Z.mul_succ_div_gt (total_pfns p + 8 - 1) 8 ltac:(lia)). lia.
Qed.

Lemma pmm_is_set_spec (p : Pmm) (i : Z) :
  pmm_wf p -> 0 <= i < total_pfns p -> pmm_is_set p i = Ret (used p i).
Proof.
  intros Hwf Hi. destruct (idx_in_range (bitmap p) (i / 8)) as (b & Hb & Hl);
    [by apply pfn_in_bitmap |].
  unfold pmm_is_set, used, bit_at. rewrite Hb, Hl. simpl.
  rewrite test_shift; [done |]. apply Z.mod_pos_bound; lia.
Qed.

Lemma with_bitmap_wf (p : Pmm) (bm : list Z) :
  pmm_wf p -> length bm = length (bitmap p) -> pmm_wf (with_bitmap p bm).
Proof. intros [? ? Hl ?] Hbm. split; simpl; try done. unfold zlen in *. by rewrite Hbm. Qed.

Lemma with_hint_wf (p : Pmm) (h : Z) :
  pmm_wf p -> 0 <= h <= total_pfns p -> pmm_wf (with_hint p h).
Proof. intros [? ? ? ?] ?. by split. Qed.

(** [update_at p p' i f]: only bit [i] changes, to [f]. *)
Definition sets (p p' : Pmm) (i : Z) : Prop :=
  forall j, 0 <= j -> used p' j = (j =? i) || used p j.
Definition clears (p p' : Pmm) (i : Z) : Prop :=
  forall j, 0 <= j -> used p' j = negb (j =? i) && used p j.

Lemma pmm_set_spec (p : Pmm) (i : Z) :
  pmm_wf p -> 0 <= i < total_pfns p ->
  exists bm, pmm_set p i = Ret (with_bitmap p bm) /\ pmm_wf (with_bitmap p bm) /\
             sets p (with_bitmap p bm) i.
Proof.
  intros Hwf Hi. pose proof (pfn_in_bitmap p i Hwf Hi) as Hin.
  destruct (idx_in_range (bitmap p) (i / 8)) as (b & Hb & Hl); [done |].
  unfold pmm_set. rewrite Hb. simpl. rewrite upd_in_range by done. simpl.
  eexists; split; [reflexivity |]. split.
  - apply with_bitmap_wf; [done |]. by rewrite length_insert.
  - intros j Hj. apply bit_at_set; [lia | done | done].
Qed.

Lemma pmm_clear_spec (p : Pmm) (i : Z) :
  pmm_wf p -> 0 <= i < total_pfns p ->
  exists bm, pmm_clear p i = Ret (with_bitmap p bm) /\ pmm_wf (with_bitmap p bm) /\
             clears p (with_bitmap p bm) i.
Proof.
  intros Hwf Hi. pose proof (pfn_in_bitmap p i Hwf Hi) as Hin.
  destruct (idx_in_range (bitmap p) (i / 8)) as (b & Hb & Hl); [done |].
  unfold pmm_clear. rewrite Hb. simpl. rewrite upd_in_range by done. simpl.
  eexists; split; [reflexivity |]. split.
  - apply with_bitmap_wf; [done |]. by rewrite length_insert.
  - intros j Hj. apply bit_at_clear; [lia | done | done].
Qed.

Lemma n_free_sets (p p' : Pmm) (i : Z) :
  0 <= i < total_pfns p -> total_pfns p' = total_pfns p ->
  used p i = false -> sets p p' i -> n_free p' = n_free p - 1.
Proof.
  intros Hi Ht Hf Hs. unfold n_free. rewrite Ht.
  apply (count_clear_set _ _ _ i); [done | done |]. intros j Hj. apply Hs. lia.
Qed.

Lemma n_free_clears (p p' : Pmm) (i : Z) :
  0 <= i < total_pfns p -> total_pfns p' = total_pfns p ->
  used p i = true -> clears p p' i -> n_free p' = n_free p + 1.
Proof.
  intros Hi Ht Hf Hs. unfold n_free. rewrite Ht.
  apply (count_clear_clear _ _ _ i); [done | done |]. intros j Hj. apply Hs. lia.
Qed.

Lemma n_free_bound (p : Pmm) : pmm_wf p -> 0 <= n_free p <= total_pfns p.
Proof.
  intros Hwf. pose proof (wf_total p Hwf). unfold n_free, count_clear, clear_bits, zlen.
  pose proof (length_filter (fun i => bit_at (bitmap p) i = false) (seqZ 0 (total_pfns p))) as H1.
  rewrite length_seqZ in H1. lia.
Qed.

Lemma n_free_pos (p : Pmm) (i : Z) :
  0 <= i < total_pfns p -> used p i = false -> 0 < n_free p.
Proof.
  intros Hi Hf. unfold n_free, count_clear, zlen.
  assert (i ∈ clear_bits (bitmap p) (total_pfns p)) as Hin by (apply elem_of_clear_bits; done).
  destruct (clear_bits _ _); [by apply not_elem_of_nil in Hin | simpl; lia].
Qed.

(** ** [alloc_one]: next-fit from the hint *)

(** The frames the loop has looked at when its cursor is at [pfn]. *)
Definition visited (p : Pmm) (start pfn j : Z) : Prop :=
  if start <=? pfn then start <= j < pfn
  else start <= j < total_pfns p \/ 0 <= j < pfn.

(** [f] is the first free frame at or after the hint, cyclically. *)
Definition next_fit (p : Pmm) (f : Z) : Prop :=
  0 <= f < total_pfns p /\ used p f = false /\
  (forall j, visited p (next_hint p) f j -> used p j = true).

Definition alloc_one_post (p : Pmm) (o : outcome (option Z * Pmm)) : Prop :=
  match o with
  | Ret (Some f, p') =>
      next_fit p f /\ pmm_wf p' /\ sets p p' f /\ next_hint p' = f + 1 /\
      total_pfns p' = total_pfns p
  | Ret (None, p') => p' = p /\ forall j, 0 <= j < total_pfns p -> used p j = true
  | _ => False
  end.

Definition loop_left (p : Pmm) (start pfn : Z) : Z :=
  if start <=? pfn then total_pfns p - pfn + start else start - pfn.

Definition has_free (p : Pmm) : Prop := exists i, 0 <= i < total_pfns p /\ used p i = false.

Lemma alloc_one_loop_step (fuel : nat) (p : Pmm) (pfn : Z) :
  pmm_wf p -> 0 <= pfn < total_pfns p ->
  alloc_one_loop (S fuel) p (next_hint p) pfn =
    if used p pfn then
      (if pfn + 1 =? next_hint p then Ret (None, p)
       else alloc_one_loop fuel p (next_hint p) (pfn + 1))
    else let! p' := pmm_set p pfn in Ret (Some (base_pfn p + pfn), with_hint p' (pfn + 1)).
Proof.
  intros Hwf Hp. cbn [alloc_one_loop].
  destruct (Z.leb_spec (total_pfns p) pfn); [lia |].
  rewrite pmm_is_set_spec by done. simpl. by destruct (used p pfn).
Qed.

Lemma alloc_one_loop_take (fuel : nat) (p : Pmm) (pfn : Z) :
  pmm_wf p -> 0 <= pfn < total_pfns p -> used p pfn = false ->
  (forall j, visited p (next_hint p) pfn j -> used p j = true) ->
  alloc_one_post p (alloc_one_loop (S fuel) p (next_hint p) pfn).
Proof.
  intros Hwf Hp Hf Hv. rewrite alloc_one_loop_step, Hf by done.
  destruct (pmm_set_spec p pfn Hwf Hp) as (bm & -> & Hwf' & Hs). simpl.
  rewrite (wf_base p Hwf), Z.add_0_l.
  assert (next_fit p pfn) as Hnf by (split; [done | by split]).
  refine (conj Hnf (conj _ (conj Hs (conj eq_refl eq_refl)))).
  apply with_hint_wf; [done |]. simpl. lia.
Qed.

Lemma alloc_one_loop_spec (fuel : nat) (p : Pmm) (pfn : Z) :
  pmm_wf p -> 0 < next_hint p \/ has_free p -> 0 <= pfn <= total_pfns p ->
  (next_hint p <= pfn \/ 0 < next_hint p) ->
  loop_left p (next_hint p) pfn <= Z.of_nat fuel ->
  (forall j, visited p (next_hint p) pfn j -> used p j = true) ->
  alloc_one_post p (alloc_one_loop fuel p (next_hint p) pfn).
Proof.
  intros Hwf Hprog. revert pfn.
  pose proof (wf_hint p Hwf) as Hh. pose proof (wf_total p Hwf) as Ht.
  induction fuel as [| fuel IH]; intros pfn Hp Hlow Hfuel Hv.
  { exfalso. unfold loop_left in Hfuel. destruct (Z.leb_spec (next_hint p) pfn) as [Hle |]; [| lia].
    assert (next_hint p = 0 /\ pfn = total_pfns p) as [Hz ->] by lia.
    destruct Hprog as [? | (i & Hi & Hf)]; [lia |].
    rewrite (Hv i) in Hf; [done |]. unfold visited. rewrite (proj2 (Z.leb_le _ _) Hle). lia. }
  (* a cursor at the end wraps to frame 0 in the same iteration *)
  assert (forall q, 0 <= q < total_pfns p ->
    (forall j, visited p (next_hint p) q j -> used p j = true) ->
    (used p q = true -> (q + 1 = next_hint p -> forall j, 0 <= j < total_pfns p -> used p j = true) /\
      (q + 1 <> next_hint p -> (next_hint p <= q + 1 \/ 0 < next_hint p) /\
         loop_left p (next_hint p) (q + 1) <= Z.of_nat fuel /\
         forall j, visited p (next_hint p) (q + 1) j -> used p j = true)) ->
    alloc_one_post p (alloc_one_loop (S fuel) p (next_hint p) q)) as Hstep.
  { intros q Hq Hvq Hu. destruct (used p q) eqn:E; [| by apply alloc_one_loop_take].
    rewrite alloc_one_loop_step, E by done. destruct (Hu eq_refl) as [Hn Hc].
    destruct (Z.eqb_spec (q + 1) (next_hint p)); [by split; [| apply Hn] |].
    destruct Hc as (? & ? & ?); [done |]. apply IH; [lia | done | done | done]. }
  destruct (decide (pfn = total_pfns p)) as [-> | Hne].
  - assert (alloc_one_loop (S fuel) p (next_hint p) (total_pfns p)
            = alloc_one_loop (S fuel) p (next_hint p) 0) as ->.
    { cbn [alloc_one_loop]. rewrite Z.leb_refl. by destruct (Z.leb_spec (total_pfns p) 0); [lia |]. }
    assert (forall j, next_hint p <= j < total_pfns p -> used p j = true) as Hall.
    { intros j Hj. apply Hv. unfold visited. destruct (Z.leb_spec (next_hint p) (total_pfns p)); lia. }
    assert (0 < next_hint p) as Hpos.
    { destruct Hprog as [? | (i & Hi & Hf)]; [done |].
      destruct (decide (next_hint p = 0)) as [Hz | ]; [| lia]. rewrite Hall in Hf by lia. done. }
    unfold loop_left in Hfuel. destruct (Z.leb_spec (next_hint p) (total_pfns p)); [| lia].
    apply Hstep; [lia | |].
    + intros j. unfold visited. destruct (Z.leb_spec (next_hint p) 0); [lia |]. intros. apply Hall. lia.
    + intros E. split.
      * intros Heq j Hj. destruct (decide (j = 0)) as [-> | ]; [done | apply Hall; lia].
      * intros Hd. unfold loop_left, visited. destruct (Z.leb_spec (next_hint p) (0 + 1)); [lia |].
        split_and!; [lia | lia |]. intros j [Hj | Hj]; [by apply Hall |].
        by replace j with 0 by lia.
  - apply Hstep; [lia | done |]. intros E. unfold loop_left, visited in *. split.
    + intros Heq j Hj. destruct (Z.leb_spec (next_hint p) pfn); [lia |].
      destruct (decide (j = pfn)) as [-> | ]; [done |]. apply Hv. lia.
    + intros Hd. destruct (Z.leb_spec (next_hint p) pfn), (Z.leb_spec (next_hint p) (pfn + 1)); try lia;
        (split_and!; [lia | lia |]; intros j Hj;
         destruct (decide (j = pfn)) as [-> | ]; [done | apply Hv; lia]).
Qed.

(** [alloc_one] terminates within [alloc_fuel] iterations, whatever the state
    of the bitmap, once the hint has moved past frame 0 (or a frame is free). *)
Lemma alloc_one_total (p : Pmm) :
  pmm_wf p -> 0 < next_hint p \/ has_free p -> alloc_one_post p (alloc_one (alloc_fuel p) p).
Proof.
  intros Hwf Hprog. pose proof (wf_hint p Hwf). pose proof (wf_total p Hwf).
  apply alloc_one_loop_spec; [done | done | lia | lia | |].
  - unfold loop_left, alloc_fuel. rewrite Z.leb_refl. lia.
  - intros j. unfold visited. rewrite Z.leb_refl. lia.
Qed.

(** With the hint still at 0 and every frame in use the cursor never meets
    [start] again: the loop runs forever. *)
Lemma alloc_one_loop_full (fuel : nat) (p : Pmm) (pfn : Z) :
  pmm_wf p -> next_hint p = 0 -> (forall j, 0 <= j < total_pfns p -> used p j = true) ->
  0 <= pfn <= total_pfns p -> alloc_one_loop fuel p (next_hint p) pfn = OutOfFuel.
Proof.
  intros Hwf Hh Hall. pose proof (wf_total p Hwf). revert pfn.
  induction fuel as [| fuel IH]; intros pfn Hp; [done |].
  assert (exists q, 0 <= q < total_pfns p /\
    alloc_one_loop (S fuel) p (next_hint p) pfn = alloc_one_loop (S fuel) p (next_hint p) q)
    as (q & Hq & ->).
  { destruct (decide (pfn = total_pfns p)) as [-> | ]; [exists 0 | exists pfn; split; [lia | done]].
    split; [lia |]. cbn [alloc_one_loop]. rewrite Z.leb_refl.
    by destruct (Z.leb_spec (total_pfns p) 0); [lia |]. }
  rewrite alloc_one_loop_step, (Hall q Hq) by done.
  destruct (Z.eqb_spec (q + 1) (next_hint p)); [lia |]. apply IH. lia.
Qed.

(** ** [alloc_contig]: first fit *)

(** The [n] frames from [s] are free. *)
Definition free_run (p : Pmm) (n s : Z) : Prop :=
  0 <= s /\ s + n <= total_pfns p /\ forall j, s <= j < s + n -> used p j = false.

Lemma contig_scan_spec (p : Pmm) (n : Z) (m : nat) (k run start : Z) :
  pmm_wf p -> 0 < n -> 0 <= k -> k + Z.of_nat m = total_pfns p -> 0 <= run < n ->
  (0 < run -> start = k - run) -> run <= k ->
  (forall j, k - run <= j < k -> used p j = false) ->
  (forall s, free_run p n s -> k - run <= s) ->
  exists r, contig_scan p n (seqZ k (Z.of_nat m)) run start = Ret r /\
    match r with
    | Some s => free_run p n s /\ forall s', free_run p n s' -> s <= s'
    | None => forall s, ~ free_run p n s
    end.
Proof.
  intros Hwf Hn. revert k run start.
  induction m as [| m IH]; intros k run start Hk Hm Hrun Hst Hrk Hfree Hmin.
  { exists None. split; [done |]. intros s Hs. pose proof (Hmin s Hs). destruct Hs as (? & ? & _). lia. }
  rewrite seqZ_cons by lia. cbn [contig_scan]. rewrite pmm_is_set_spec by (done || lia). cbn [obind].
  replace (Z.pred (Z.of_nat (S m))) with (Z.of_nat m) by lia.
  replace (Z.succ k) with (k + 1) by lia.
  destruct (used p k) eqn:E.
  - apply IH; try lia. intros s Hs. pose proof (Hmin s Hs) as Hle. destruct Hs as (_ & _ & Hb).
    destruct (decide (s <= k)); [| lia]. rewrite (Hb k) in E by lia. done.
  - set (start' := if run =? 0 then k else start).
    assert (start' = k - run) as Hs' by (subst start'; destruct (Z.eqb_spec run 0); lia).
    assert (forall j, k - run <= j < k + 1 -> used p j = false) as Hfree'.
    { intros j Hj. destruct (decide (j = k)) as [-> | ]; [done | apply Hfree; lia]. }
    destruct (Z.eqb_spec (run + 1) n) as [Hd | Hd].
    + exists (Some start'). split; [done |]. rewrite Hs'. split.
      * split; [lia | split; [lia |]]. intros j Hj. apply Hfree'. lia.
      * intros s Hs. by apply Hmin.
    + apply IH; try lia.
      * intros j Hj. apply Hfree'. lia.
      * intros s Hs. pose proof (Hmin s Hs). lia.
Qed.

(** Setting the bits of a run of free frames. *)
Lemma set_run_spec (p : Pmm) (s : Z) (m : nat) :
  pmm_wf p -> free_run p (Z.of_nat m) s ->
  exists p', ofold (fun p i => pmm_set p (s + i)) (seqZ 0 (Z.of_nat m)) p = Ret p' /\
    pmm_wf p' /\ total_pfns p' = total_pfns p /\ next_hint p' = next_hint p /\
    (forall j, 0 <= j -> used p' j = ((s <=? j) && (j <? s + Z.of_nat m)) || used p j) /\
    n_free p' = n_free p - Z.of_nat m.
Proof.
  intros Hwf. induction m as [| m IH]; intros (H0 & Hend & Hf).
  { exists p. split_and!; try done; [| lia]. intros j _. zcases; simpl; (done || lia). }
  destruct IH as (p1 & Hfold & Hwf1 & Ht1 & Hh1 & Hu1 & Hn1).
  { split; [lia | split; [lia |]]. intros j Hj. apply Hf. lia. }
  replace (Z.of_nat (S m)) with (Z.of_nat m + 1) by lia.
  rewrite seqZ_S_r, ofold_app, Hfold, Z.add_0_l by lia. cbn [ofold obind].
  destruct (pmm_set_spec p1 (s + Z.of_nat m)) as (bm & -> & Hwf2 & Hs2); [done | lia |]. cbn [obind].
  eexists; split; [reflexivity |]. simpl.
  assert (used p1 (s + Z.of_nat m) = false) as Hfree.
  { rewrite Hu1 by lia. rewrite Hf by lia. zcases; simpl; (done || lia). }
  split_and!; [done | done | done | |].
  - intros j Hj. rewrite Hs2, Hu1 by lia. zcases; simpl; subst; (done || lia).
  - rewrite (n_free_sets p1 _ (s + Z.of_nat m)); [lia | lia | done | done | done].
Qed.

(** ** The allocator's operations *)

(** The hint has moved, or some frame is free: [alloc_one] terminates. *)
Definition progress (st : PmmState) : Prop :=
  match PMM st with
  | None => False
  | Some p => 0 < next_hint p \/ has_free p
  end.

(** The frame at [a] is in use. *)
Definition frame_used (st : PmmState) (a : Z) : Prop :=
  match PMM st with
  | None => False
  | Some p => 0 <= a / PAGE_SIZE < total_pfns p /\ used p (a / PAGE_SIZE) = true
  end.

Lemma state_wf_update (st : PmmState) (p p' : Pmm) (free : Z) :
  state_wf st -> PMM st = Some p -> pmm_wf p' -> total_pfns p' = total_pfns p ->
  used p' 0 = true -> free = n_free p' ->
  state_wf (mkPmmState (Some p') (TOTAL_FRAMES st) (wrap 64 free)).
Proof.
  unfold state_wf. intros Hst Hp Hwf Ht Hu ->. rewrite Hp in Hst. simpl.
  destruct Hst as (_ & _ & HT & _). split_and!; [done | done | lia |].
  pose proof (n_free_bound p' Hwf). pose proof (wf_total p' Hwf). apply Z.mod_small. lia.
Qed.

(** [alloc_frame] returns, hands out a frame that was free (the first one
    from the hint), marks only it, keeps the free counter exact; it fails only
    when no frame is free. *)
Lemma alloc_frame_spec (st : PmmState) (p : Pmm) :
  state_wf st -> progress st -> PMM st = Some p ->
  exists r st', alloc_frame st = Ret (r, st') /\ state_wf st' /\ progress st' /\
    match r with
    | Some a => exists f p', a = f * PAGE_SIZE /\ 0 < f /\ next_fit p f /\
        PMM st' = Some p' /\ sets p p' f /\ total_pfns p' = total_pfns p /\
        FREE_FRAMES st' = FREE_FRAMES st - 1
    | None => st' = st /\ FREE_FRAMES st = 0
    end.
Proof.
  intros Hst Hprog Hp. pose proof Hst as Hst'. unfold state_wf in Hst'. rewrite Hp in Hst'.
  destruct Hst' as (Hwf & H0 & HT & HF).
  unfold progress in Hprog. rewrite Hp in Hprog.
  pose proof (alloc_one_total p Hwf Hprog) as Hpost. unfold alloc_frame. rewrite Hp.
  destruct (alloc_one (alloc_fuel p) p) as [[[f |] p'] | | |]; simpl in Hpost; try done; cbn [obind].
  - destruct Hpost as ((Hf & Hfree & Hv) & Hwf' & Hs & Hh & Ht).
    pose proof (wf_total p Hwf).
    assert (0 < f) as Hpos.
    { destruct (decide (f = 0)) as [-> | ]; [| lia]. by rewrite H0 in Hfree. }
    rewrite checked_fits by (unfold PAGE_SIZE; lia). cbn [obind].
    pose proof (n_free_sets p p' f Hf Ht Hfree Hs) as Hn.
    pose proof (n_free_bound p Hwf). pose proof (n_free_pos p f Hf Hfree).
    eexists _, _; split; [reflexivity |]. split_and!.
    + apply (state_wf_update st p p'); [done | done | done | done | | lia].
      rewrite Hs, H0 by lia. apply orb_true_r.
    + left. lia.
    + exists f, p'. split_and!; [done | done | | done | done | done |].
      * split; [done | by split].
      * simpl. unfold wrap. apply Z.mod_small. lia.
  - destruct Hpost as [-> Hall]. eexists _, _; split; [reflexivity |].
    destruct st as [pm T F]; simpl in *; subst pm. split_and!; [done | done | done |].
    rewrite HF. unfold n_free, count_clear, zlen.
    destruct (clear_bits _ _) as [| i l] eqn:E; [done |]. exfalso.
    assert (i ∈ clear_bits (bitmap p) (total_pfns p)) as Hin by (rewrite E; by left).
    apply elem_of_clear_bits in Hin as [Hi Hb]. specialize (Hall i Hi). unfold used in Hall. congruence.
Qed.

(** [free_frame] of a frame in use makes it available again, changes no
    other frame and keeps the free counter exact. *)
Lemma free_frame_spec (st : PmmState) (p : Pmm) (a : Z) :
  state_wf st -> PMM st = Some p ->
  0 < a / PAGE_SIZE < total_pfns p -> used p (a / PAGE_SIZE) = true ->
  exists st' p', free_frame st a = Ret st' /\ state_wf st' /\ progress st' /\
    PMM st' = Some p' /\ clears p p' (a / PAGE_SIZE) /\ total_pfns p' = total_pfns p /\
    FREE_FRAMES st' = FREE_FRAMES st + 1.
Proof.
  intros Hst Hp Ha Hu. pose proof Hst as Hst'. unfold state_wf in Hst'. rewrite Hp in Hst'.
  destruct Hst' as (Hwf & H0 & HT & HF). pose proof (wf_total p Hwf). pose proof (wf_hint p Hwf).
  unfold free_frame, free_one. rewrite Hp.
  destruct (pmm_clear_spec p (a / PAGE_SIZE)) as (bm & -> & Hwf' & Hc); [done | lia |].
  cbn [obind]. set (p1 := with_bitmap p bm) in *.
  set (p' := if a / PAGE_SIZE <? next_hint p1 then with_hint p1 (a / PAGE_SIZE) else p1).
  assert (pmm_wf p' /\ total_pfns p' = total_pfns p /\ bitmap p' = bitmap p1) as (Hwf2 & Ht2 & Hb2).
  { subst p'. destruct (Z.ltb_spec (a / PAGE_SIZE) (next_hint p1)); [| done].
    split_and!; [apply with_hint_wf; [done | subst p1; simpl; lia] | done | done]. }
  assert (clears p p' (a / PAGE_SIZE)) as Hc' by (intros j Hj; unfold used; rewrite Hb2; by apply Hc).
  pose proof (n_free_clears p p' (a / PAGE_SIZE) ltac:(lia) Ht2 Hu Hc') as Hn.
  pose proof (n_free_bound p' Hwf2). pose proof (n_free_bound p Hwf).
  exists (mkPmmState (Some p') (TOTAL_FRAMES st) (wrap 64 (FREE_FRAMES st + 1))), p'.
  split_and!; [done | | | done | done | done |].
  - apply (state_wf_update st p p'); [done | done | done | done | | lia].
    rewrite Hc', H0 by lia. destruct (Z.eqb_spec 0 (a / PAGE_SIZE)); [lia | done].
  - right. exists (a / PAGE_SIZE). split; [lia |]. rewrite Hc', Z.eqb_refl by lia. done.
  - simpl. apply Z.mod_small. lia.
Qed.

(** [alloc_contig] of [n > 0] frames returns the lowest run of [n] free
    frames and marks exactly it, keeping the free counter exact; it fails only
    when there is no such run. *)
Lemma alloc_contig_spec (st : PmmState) (p : Pmm) (n : Z) :
  state_wf st -> PMM st = Some p -> 0 < n ->
  exists r st', alloc_contig st n = Ret (r, st') /\ state_wf st' /\
    match r with
    | Some a => exists s p', a = s * PAGE_SIZE /\ free_run p n s /\
        (forall s', free_run p n s' -> s <= s') /\ PMM st' = Some p' /\
        (forall j, 0 <= j -> used p' j = ((s <=? j) && (j <? s + n)) || used p j) /\
        FREE_FRAMES st' = FREE_FRAMES st - n
    | None => st' = st /\ forall s, ~ free_run p n s
    end.
Proof.
  intros Hst Hp Hn. pose proof Hst as Hst'. unfold state_wf in Hst'. rewrite Hp in Hst'.
  destruct Hst' as (Hwf & H0 & HT & HF). pose proof (wf_total p Hwf).
  unfold alloc_contig. rewrite Hp.
  destruct (contig_scan_spec p n (Z.to_nat (total_pfns p)) 0 0 0) as (r & Hscan & Hr);
    [done | lia | lia | lia | lia | lia | lia | lia | by intros s (? & _); lia |].
  rewrite Z2Nat.id in Hscan by lia. rewrite Hscan. cbn [obind].
  destruct r as [s |]; [| by eexists _, _; split; [reflexivity |]].
  destruct Hr as [Hrun Hmin]. pose proof Hrun as (Hs0 & Hs1 & _).
  destruct (set_run_spec p s (Z.to_nat n)) as (p' & Hfold & Hwf' & Ht' & Hh' & Hu' & Hn');
    [done | by rewrite Z2Nat.id by lia |].
  rewrite Z2Nat.id in Hfold, Hu', Hn' by lia. rewrite Hfold. cbn [obind].
  rewrite checked_fits by (unfold PAGE_SIZE; lia). cbn [obind].
  pose proof (n_free_bound p Hwf). pose proof (n_free_bound p' Hwf').
  eexists _, _; split; [reflexivity |]. split.
  - apply (state_wf_update st p p'); [done | done | done | done | | lia].
    rewrite Hu', H0 by lia. apply orb_true_r.
  - exists s, p'. refine (conj eq_refl (conj Hrun (conj Hmin (conj eq_refl (conj Hu' _))))).
    simpl. apply Z.mod_small. lia.
Qed.

(** The bitmap allocator implements the interface. *)
Lemma frame_addr_div (a : Z) : frame_addr a -> a / PAGE_SIZE * PAGE_SIZE = a.
Proof. intros [_ Hm]. unfold PAGE_SIZE. rewrite (Z.div_mod a 4096) at 2 by lia. lia. Qed.

(** The frames the bitmap covers, and those of them that are free. *)
Definition frame_ram (st : PmmState) (a : Z) : Prop :=
  match PMM st with Some p => 0 <= a / PAGE_SIZE < total_pfns p | None => False end.
Definition frame_free (st : PmmState) (a : Z) : Prop :=
  match PMM st with
  | Some p => 0 <= a / PAGE_SIZE < total_pfns p /\ used p (a / PAGE_SIZE) = false
  | None => False
  end.

Lemma frame_ram_same (st st' : PmmState) (p p' : Pmm) (g : Z) :
  PMM st = Some p -> PMM st' = Some p' -> total_pfns p' = total_pfns p ->
  frame_ram st' g <-> frame_ram st g.
Proof. intros Hp Hp' Ht. unfold frame_ram. by rewrite Hp, Hp', Ht. Qed.

Lemma frame_free_sets (st st' : PmmState) (p p' : Pmm) (f g : Z) :
  PMM st = Some p -> PMM st' = Some p' -> total_pfns p' = total_pfns p ->
  sets p p' f -> frame_addr g ->
  frame_free st' g <-> g <> f * PAGE_SIZE /\ frame_free st g.
Proof.
  intros Hp Hp' Ht Hs Hg. unfold frame_free. rewrite Hp, Hp', Ht.
  pose proof (frame_addr_div g Hg) as Hd. assert (0 <= g / PAGE_SIZE) by (apply Z.div_pos; destruct Hg; unfold PAGE_SIZE; lia).
  rewrite Hs by done. destruct (Z.eqb_spec (g / PAGE_SIZE) f) as [He | Hne]; simpl.
  - split; [by intros [_ ?] | intros [Hn _]; by rewrite <- He in Hn].
  - split; [intros ?; split; [| done] | by intros [_ ?]]. intros ->. apply Hne.
    unfold PAGE_SIZE. apply Z.div_mul. lia.
Qed.

Lemma frame_free_clears (st st' : PmmState) (p p' : Pmm) (f g : Z) :
  PMM st = Some p -> PMM st' = Some p' -> total_pfns p' = total_pfns p ->
  0 <= f / PAGE_SIZE < total_pfns p -> frame_addr f -> clears p p' (f / PAGE_SIZE) -> frame_addr g ->
  frame_free st' g <-> g = f \/ frame_free st g.
Proof.
  intros Hp Hp' Ht Hr Hf Hs Hg. unfold frame_free. rewrite Hp, Hp', Ht.
  pose proof (frame_addr_div g Hg) as Hd. pose proof (frame_addr_div f Hf) as Hd'.
  assert (0 <= g / PAGE_SIZE) by (apply Z.div_pos; destruct Hg; unfold PAGE_SIZE; lia).
  rewrite Hs by done. destruct (Z.eqb_spec (g / PAGE_SIZE) (f / PAGE_SIZE)) as [He | Hne]; simpl.
  - split; [left; congruence | intros _; split; [lia | done]].
  - split; [by right |]. intros [-> | ?]; done.
Qed.

#[export] Instance pmm_frames : FrameAllocator PmmState.
Proof.
  refine {| fa_alloc := alloc_frame; fa_free := free_frame; fa_ram := frame_ram; fa_avail := frame_free;
            fa_ok := fun st => state_wf st /\ progress st |}.
  - intros st f [Hst _] _ Hfree. unfold frame_free in Hfree. unfold state_wf in Hst. unfold frame_ram.
    destruct (PMM st) as [p |]; [| done]. destruct Hfree as [Hr Hu]. split; [done |]. intros ->.
    destruct Hst as (_ & Hw & _). change (0 / PAGE_SIZE) with 0 in Hu. congruence.
  - intros st [Hst Hprog]. destruct (PMM st) as [p |] eqn:Hp;
      [| by unfold progress in Hprog; rewrite Hp in Hprog].
    destruct (alloc_frame_spec st p Hst Hprog Hp) as (r & st' & Ha & Hst' & Hprog' & Hr).
    pose proof Hst as Hw. unfold state_wf in Hw. rewrite Hp in Hw. destruct Hw as (Hwf & Hw2 & Hw3 & Hw4).
    exists r, st'. split; [done |]. split; [by split |]. destruct r as [a |].
    + destruct Hr as (f & p' & -> & Hpos & (Hf & Hfree & _) & Hp' & Hs & Ht & _).
      pose proof (wf_total p Hwf).
      assert (f * PAGE_SIZE / PAGE_SIZE = f) as Hdiv by (unfold PAGE_SIZE; apply Z.div_mul; lia).
      split; [intros g; by apply (frame_ram_same st st' p p') |].
      split; [split; [unfold PAGE_SIZE; lia | apply Z.mod_mul; lia] |]. split; [unfold PAGE_SIZE; lia |].
      split; [unfold frame_ram; by rewrite Hp, Hdiv |].
      split; [unfold frame_free; by rewrite Hp, Hdiv |].
      intros g Hg. by apply (frame_free_sets st st' p p').
    + destruct Hr as [-> Hz]. split; [done |]. split; [done |]. intros g _. unfold frame_free.
      rewrite Hp. intros [Hr Hu]. pose proof (n_free_pos p _ Hr Hu) as Hn. rewrite <- Hw4, Hz in Hn. lia.
  - intros st f [Hst Hprog] Hf Hnz Hr Hu. unfold frame_ram in Hr. unfold frame_free in Hu.
    destruct (PMM st) as [p |] eqn:Hp; [| done].
    assert (used p (f / PAGE_SIZE) = true) as Hused by (destruct (used p (f / PAGE_SIZE)); tauto).
    pose proof (frame_addr_div f Hf) as Hd.
    assert (f / PAGE_SIZE <> 0) by (intros E; rewrite E in Hd; lia).
    destruct (free_frame_spec st p f Hst Hp ltac:(lia) Hused)
      as (st' & p' & Ha & Hst' & Hprog' & Hp' & Hc & Ht & _).
    exists st'. split; [done |]. split; [by split |].
    split; [intros g; by apply (frame_ram_same st st' p p') |].
    intros g Hg. by apply (frame_free_clears st st' p p').
Defined.

(** ** [init] *)

(** The frames of the regions the allocator may hand out. *)
Definition usable_frames (regions : list MemoryRegion) : list Z :=
  concat (map (fun r => if is_free (r_kind r)
                        then seqZ (r_base r / PAGE_SIZE) (r_length r / PAGE_SIZE) else [])
              regions).

(** What the firmware's memory map promises: regions inside the physical
    address space, and no frame described twice as usable. *)
Record map_ok (regions : list MemoryRegion) : Prop := {
  mo_range : Forall (fun r => 0 <= r_base r /\ 0 <= r_length r /\
                              r_base r + r_length r <= 2 ^ 52) regions;
  mo_disjoint : NoDup (usable_frames regions)
}.

Lemma max_phys_of_spec (regions : list MemoryRegion) (m0 : Z) :
  Forall (fun r => 0 <= r_base r /\ 0 <= r_length r /\ r_base r + r_length r <= 2 ^ 52) regions ->
  0 <= m0 <= 2 ^ 52 ->
  exists m, ofold (fun m r => let! e := checked 64 (r_base r + r_length r) in
                              Ret (if m <? e then e else m)) regions m0 = Ret m /\
    m0 <= m <= 2 ^ 52 /\ forall r, r ∈ regions -> r_base r + r_length r <= m.
Proof.
  intros Hall. revert m0. induction Hall as [| r regions Hr Hall IH]; intros m0 Hm.
  { exists m0. split; [done |]. split; [lia |]. intros r Hr. by apply not_elem_of_nil in Hr. }
  cbn [ofold]. rewrite checked_fits by lia. cbn [obind].
  destruct (IH (if m0 <? r_base r + r_length r then r_base r + r_length r else m0))
    as (m & -> & Hm' & Hin); [destruct (Z.ltb_spec m0 (r_base r + r_length r)); lia |].
  exists m. split; [done |]. split; [destruct (Z.ltb_spec m0 (r_base r + r_length r)); lia |].
  intros r' [-> | Hr']%elem_of_cons; [| by apply Hin].
  destruct (Z.ltb_spec m0 (r_base r + r_length r)); lia.
Qed.

Lemma mark_frames_spec (pfns : list Z) (p : Pmm) (free : Z) :
  pmm_wf p -> NoDup pfns -> (forall i, i ∈ pfns -> 0 <= i < total_pfns p /\ used p i = true) ->
  exists p', mark_frames (total_pfns p) pfns (p, free) = Ret (p', free + zlen pfns) /\
    pmm_wf p' /\ total_pfns p' = total_pfns p /\ next_hint p' = next_hint p /\
    n_free p' = n_free p + zlen pfns /\
    forall j, 0 <= j -> used p' j = negb (bool_decide (j ∈ pfns)) && used p j.
Proof.
  revert p free. induction pfns as [| i pfns IH]; intros p free Hwf Hnd Hin.
  { exists p. unfold zlen. simpl. rewrite !Z.add_0_r. done. }
  apply NoDup_cons in Hnd as [Hi Hnd]. destruct (Hin i) as [Hir Hiu]; [by left |].
  cbn [mark_frames fst snd]. destruct (Z.leb_spec (total_pfns p) i); [lia |].
  destruct (pmm_clear_spec p i Hwf Hir) as (bm & -> & Hwf1 & Hc). cbn [obind].
  destruct (IH (with_bitmap p bm) (free + 1)) as (p' & Hm & Hwf' & Ht & Hh & Hn & Hu);
    [done | done | |].
  { intros j Hj. destruct (Hin j) as [? Hju]; [by right |]. split; [done |].
    rewrite Hc, Hju by lia. destruct (Z.eqb_spec j i); [by subst | done]. }
  exists p'. change (total_pfns (with_bitmap p bm)) with (total_pfns p) in Hm, Ht.
  rewrite Hm. pose proof (n_free_clears p (with_bitmap p bm) i Hir eq_refl Hiu Hc).
  unfold zlen in *. cbn [length]. split_and!; [do 2 f_equal; lia | done | done | done | lia |].
  intros j Hj. rewrite Hu, Hc by done.
  destruct (Z.eqb_spec j i) as [-> | Hne]; simpl.
  - rewrite (bool_decide_eq_true_2 (i ∈ i :: pfns)) by (by left). apply andb_false_r.
  - f_equal. f_equal. apply bool_decide_ext. rewrite elem_of_cons. clear -Hne. tauto.
Qed.

Lemma mark_frames_app (total : Z) (l1 l2 : list Z) (pf : Pmm * Z) :
  Forall (fun i => i < total) l1 ->
  mark_frames total (l1 ++ l2) pf = obind (mark_frames total l1 pf) (mark_frames total l2).
Proof.
  intros Hl. revert pf. induction Hl as [| i l1 Hi Hl IH]; intros pf; [done |].
  cbn [mark_frames app]. destruct (Z.leb_spec total i); [lia |].
  destruct (pmm_clear (fst pf) i); cbn [obind]; [apply IH | done ..].
Qed.

Lemma mark_regions_frames (total : Z) (regions : list MemoryRegion) (pf : Pmm * Z) :
  Forall (fun i => i < total) (usable_frames regions) ->
  ofold (mark_region total) regions pf = mark_frames total (usable_frames regions) pf.
Proof.
  revert pf. induction regions as [| r regions IH]; intros pf Hl; [done |].
  unfold usable_frames in *. cbn [map concat ofold] in *. apply Forall_app in Hl as [Hl1 Hl2].
  rewrite mark_frames_app by done. unfold mark_region at 1.
  destruct (is_free (r_kind r)); cbn [negb].
  - destruct (mark_frames _ _ pf); cbn [obind]; [by apply IH | done ..].
  - cbn [mark_frames obind]. by apply IH.
Qed.

Lemma reserve_frame_spec (p : Pmm) (i : Z) :
  pmm_wf p -> 0 <= i < total_pfns p ->
  exists p', reserve_frame (p, n_free p) i = Ret (p', n_free p') /\ pmm_wf p' /\
    total_pfns p' = total_pfns p /\ next_hint p' = next_hint p /\ sets p p' i.
Proof.
  intros Hwf Hi. unfold reserve_frame. rewrite pmm_is_set_spec by done. cbn [obind].
  pose proof (wf_total p Hwf). pose proof (n_free_bound p Hwf).
  destruct (used p i) eqn:E.
  - exists p. split_and!; try done. intros j Hj. destruct (Z.eqb_spec j i); by subst.
  - destruct (pmm_set_spec p i Hwf Hi) as (bm & -> & Hwf' & Hs). cbn [obind].
    pose proof (n_free_sets p (with_bitmap p bm) i Hi eq_refl E Hs) as Hn.
    pose proof (n_free_pos p i Hi E).
    rewrite checked_fits by lia. cbn [obind].
    exists (with_bitmap p bm). rewrite Hn. done.
Qed.

Lemma reserve_range_spec (p : Pmm) (s : Z) (m : nat) :
  pmm_wf p -> 0 <= s -> s + Z.of_nat m <= total_pfns p ->
  exists p', ofold (fun pf i => reserve_frame pf (s + i)) (seqZ 0 (Z.of_nat m)) (p, n_free p)
             = Ret (p', n_free p') /\ pmm_wf p' /\ total_pfns p' = total_pfns p /\
    next_hint p' = next_hint p /\
    forall j, 0 <= j -> used p' j = ((s <=? j) && (j <? s + Z.of_nat m)) || used p j.
Proof.
  intros Hwf Hs. induction m as [| m IH]; intros Hend.
  { exists p. split_and!; try done. intros j _. zcases; simpl; (done || lia). }
  destruct IH as (p1 & Hfold & Hwf1 & Ht1 & Hh1 & Hu1); [lia |].
  replace (Z.of_nat (S m)) with (Z.of_nat m + 1) by lia.
  rewrite seqZ_S_r, ofold_app, Hfold, Z.add_0_l by lia. cbn [ofold obind].
  destruct (reserve_frame_spec p1 (s + Z.of_nat m)) as (p2 & -> & Hwf2 & Ht2 & Hh2 & Hs2);
    [done | lia |]. cbn [obind].
  exists p2. split_and!; [done | done | lia | lia |].
  intros j Hj. rewrite Hs2, Hu1 by lia. zcases; simpl; subst; (done || lia).
Qed.

Lemma reserve_null_spec (p : Pmm) :
  pmm_wf p ->
  exists p', reserve_null (p, n_free p) = Ret (p', n_free p') /\ pmm_wf p' /\
    total_pfns p' = total_pfns p /\ next_hint p' = next_hint p /\ sets p p' 0.
Proof.
  intros Hwf. pose proof (wf_total p Hwf). pose proof (n_free_bound p Hwf).
  unfold reserve_null. rewrite pmm_is_set_spec by (done || lia). cbn [obind].
  destruct (used p 0) eqn:E.
  - exists p. split_and!; try done. intros j Hj. destruct (Z.eqb_spec j 0); by subst.
  - destruct (pmm_set_spec p 0 Hwf ltac:(lia)) as (bm & -> & Hwf' & Hs). cbn [obind].
    pose proof (n_free_sets p (with_bitmap p bm) 0 ltac:(lia) eq_refl E Hs) as Hn.
    pose proof (n_free_pos p 0 ltac:(lia) E).
    exists (with_bitmap p bm). rewrite Hn, Z.max_r by lia. done.
Qed.

Definition all_reserved (total : Z) : Pmm :=
  mkPmm (replicate (Z.to_nat (div_ceil total 8)) 0xFF) 0 total 0.

Lemma div_ceil_nonneg (a b : Z) : 0 <= a -> 0 < b -> 0 <= div_ceil a b.
Proof. intros. apply Z.div_pos; lia. Qed.

Lemma div_ceil_mul (a b : Z) : 0 < b -> a <= div_ceil a b * b < a + b.
Proof.
  intros Hb. unfold div_ceil. pose proof (Z.div_mod (a + b - 1) b ltac:(lia)).
  pose proof (Z.mod_pos_bound (a + b - 1) b Hb). lia.
Qed.

Lemma all_reserved_wf (total : Z) : 0 < total <= 2 ^ 40 -> pmm_wf (all_reserved total).
Proof.
  intros Ht. split; [done | done | | simpl; lia]. unfold zlen. simpl.
  rewrite length_replicate, Z2Nat.id; [done |]. apply div_ceil_nonneg; lia.
Qed.

Lemma all_reserved_used (total i : Z) : 0 <= i < total -> used (all_reserved total) i = true.
Proof.
  intros Hi. unfold used, bit_at. simpl.
  rewrite lookup_replicate_2.
  - simpl. change 255 with (Z.ones 8). apply Z.ones_spec_low, Z.mod_pos_bound. lia.
  - pose proof (div_ceil_mul total 8 ltac:(lia)). pose proof (Z.div_pos i 8).
    assert (i / 8 < div_ceil total 8) by (apply Z.div_lt_upper_bound; lia). lia.
Qed.

Lemma all_used_n_free (p : Pmm) :
  (forall i, 0 <= i < total_pfns p -> used p i = true) -> n_free p = 0.
Proof.
  intros Hall. unfold n_free, count_clear, zlen.
  destruct (clear_bits _ _) as [| i l] eqn:E; [done |]. exfalso.
  assert (i ∈ clear_bits (bitmap p) (total_pfns p)) as Hin by (rewrite E; by left).
  apply elem_of_clear_bits in Hin as [Hi Hb]. specialize (Hall i Hi). unfold used in Hall. congruence.
Qed.

Lemma find_bitmap_region_Some (regions : list MemoryRegion) (n b : Z) :
  find_bitmap_region regions n = Some b ->
  exists r, r ∈ regions /\ is_free (r_kind r) = true /\ r_base r = b /\ n <= r_length r / PAGE_SIZE.
Proof.
  induction regions as [| r regions IH]; cbn [find_bitmap_region]; [done |].
  assert (find_bitmap_region regions n = Some b ->
    exists r', r' ∈ r :: regions /\ is_free (r_kind r') = true /\ r_base r' = b /\
               n <= r_length r' / PAGE_SIZE) as Hrec.
  { intros (r' & ? & ?)%IH. exists r'. split; [by right | done]. }
  destruct (is_free (r_kind r)) eqn:E; cbn [negb]; [| done].
  destruct (Z.leb_spec n (r_length r / PAGE_SIZE)); [| done].
  intros [= <-]. exists r. split; [by left | done].
Qed.

(** Every frame a region describes lies below the end of memory. *)
Lemma region_frames_below (r : MemoryRegion) (m : Z) :
  0 <= r_base r -> 0 <= r_length r -> r_base r + r_length r <= m ->
  r_base r / PAGE_SIZE + r_length r / PAGE_SIZE <= div_ceil m PAGE_SIZE.
Proof.
  intros Hb Hl Hm. unfold PAGE_SIZE.
  pose proof (div_ceil_mul m 4096 ltac:(lia)).
  pose proof (Z.mul_div_le (r_base r) 4096 ltac:(lia)).
  pose proof (Z.mul_div_le (r_length r) 4096 ltac:(lia)). lia.
Qed.

Lemma usable_frames_range (regions : list MemoryRegion) (m i : Z) :
  Forall (fun r => 0 <= r_base r /\ 0 <= r_length r /\ r_base r + r_length r <= 2 ^ 52) regions ->
  (forall r, r ∈ regions -> r_base r + r_length r <= m) ->
  i ∈ usable_frames regions -> 0 <= i < div_ceil m PAGE_SIZE.
Proof.
  intros Hall Hm Hi. unfold usable_frames in Hi.
  apply list_elem_of_In, in_concat in Hi as (l & Hl & Hi). apply in_map_iff in Hl as (r & <- & Hr).
  apply list_elem_of_In in Hr. rewrite Forall_forall in Hall. destruct (Hall r Hr) as (Hb & Hlen & _).
  destruct (is_free (r_kind r)); [| done]. apply list_elem_of_In, elem_of_seqZ in Hi.
  pose proof (region_frames_below r m Hb Hlen (Hm r Hr)).
  assert (0 <= r_base r / PAGE_SIZE) by (apply Z.div_pos; unfold PAGE_SIZE; lia). lia.
Qed.

(** The frames the bitmap itself occupies. *)
Definition bitmap_pages (total : Z) : Z := div_ceil (div_ceil total 8) PAGE_SIZE.

(** After [init], the free counter is exact and the frames that can be handed
    out are exactly the usable ones other than frame 0 and the frames of the
    bitmap itself. *)
Lemma init_spec (regions : list MemoryRegion) (m b : Z) :
  map_ok regions -> max_phys_of regions = Ret m -> 0 < m ->
  find_bitmap_region regions (bitmap_pages (div_ceil m PAGE_SIZE)) = Some b ->
  exists st p, init regions = Ret st /\ state_wf st /\ PMM st = Some p /\ next_hint p = 0 /\
    total_pfns p = div_ceil m PAGE_SIZE /\
    forall i, 0 <= i < total_pfns p ->
      used p i = false <->
      i ∈ usable_frames regions /\ i <> 0 /\
      ~ (b / PAGE_SIZE <= i < b / PAGE_SIZE + bitmap_pages (div_ceil m PAGE_SIZE)).
Proof.
  intros [Hrange Hnd] Hmax Hm Hfind. set (total := div_ceil m PAGE_SIZE) in *.
  destruct (max_phys_of_spec regions 0 Hrange ltac:(lia)) as (m' & Hmax' & Hmb & Hin).
  unfold max_phys_of in Hmax. rewrite Hmax in Hmax'. injection Hmax' as <-.
  assert (0 < total <= 2 ^ 40) as Htot.
  { pose proof (div_ceil_mul m PAGE_SIZE ltac:(unfold PAGE_SIZE; lia)). subst total. unfold PAGE_SIZE in *. lia. }
  assert (0 <= bitmap_pages total) by (apply div_ceil_nonneg; [apply div_ceil_nonneg |]; unfold PAGE_SIZE; lia).
  pose proof (all_reserved_wf total Htot) as Hwf0.
  destruct (mark_frames_spec (usable_frames regions) (all_reserved total) 0)
    as (p1 & Hmark & Hwf1 & Ht1 & Hh1 & Hn1 & Hu1); [done | done | |].
  { intros i Hi. pose proof (usable_frames_range regions m i Hrange Hin Hi).
    split; [done | by apply all_reserved_used]. }
  rewrite (all_used_n_free (all_reserved total)) in Hn1 by (apply all_reserved_used).
  destruct (find_bitmap_region_Some _ _ _ Hfind) as (r & Hr & _ & Hrb & Hrl).
  pose proof (proj1 (Forall_forall _ _) Hrange r Hr) as (Hb0 & Hl0 & _).
  pose proof (region_frames_below r m Hb0 Hl0 (Hin r Hr)) as Hbelow. rewrite Hrb in Hbelow, Hb0.
  assert (0 <= b / PAGE_SIZE) by (apply Z.div_pos; unfold PAGE_SIZE; lia).
  destruct (reserve_range_spec p1 (b / PAGE_SIZE) (Z.to_nat (bitmap_pages total)))
    as (p2 & Hres & Hwf2 & Ht2 & Hh2 & Hu2); [done | lia | rewrite Ht1; simpl; fold total in Hbelow; lia |].
  rewrite Z2Nat.id in Hres, Hu2 by done. simpl in Ht1, Hh1.
  unfold init, max_phys_of. rewrite Hmax. cbn [obind]. fold total. fold (bitmap_pages total).
  rewrite Hfind. fold (all_reserved total).
  rewrite mark_regions_frames.
  2: { apply Forall_forall. intros i Hi. by apply (usable_frames_range regions m i Hrange Hin). }
  change total with (total_pfns (all_reserved total)) at 1. rewrite Hmark. cbn [obind].
  replace (0 + zlen (usable_frames regions)) with (n_free p1) by lia. rewrite Hres. cbn [obind].
  destruct (reserve_null_spec p2 Hwf2) as (p3 & -> & Hwf3 & Ht3 & Hh3 & Hu3). cbn [obind].
  eexists _, p3. split; [reflexivity |]. rewrite Ht3, Ht2, Ht1. split_and!; [| done | lia | done |].
  { unfold state_wf. simpl. split_and!; [done | | lia | done]. by rewrite Hu3. }
  intros i Hi. rewrite Hu3, Hu2, Hu1, all_reserved_used, andb_true_r by (simpl in *; lia).
  destruct (Z.eqb_spec i 0) as [-> | Hne]; cbn [orb]; [split; [done | tauto] |].
  case_bool_decide as Hi'; zcases; simpl; (split; [|]); (done || intuition lia).
Qed.

(** ** Histories of the allocator *)

(** One call into the allocator.  Callers only free frames they hold, so a
    freed frame is in use. *)
Inductive pmm_step : PmmState -> PmmState -> Prop :=
  | step_alloc_frame st r st' : alloc_frame st = Ret (r, st') -> pmm_step st st'
  | step_alloc_contig st n r st' : alloc_contig st n = Ret (r, st') -> pmm_step st st'
  | step_free_frame st a st' :
      frame_used st a -> 0 < a / PAGE_SIZE -> free_frame st a = Ret st' -> pmm_step st st'.

Lemma state_wf_PMM (st : PmmState) : state_wf st -> exists p, PMM st = Some p /\ pmm_wf p.
Proof. unfold state_wf. destruct (PMM st) as [p |]; [| done]. intros [? _]. by exists p. Qed.

Lemma alloc_frame_progress (st : PmmState) (r : option Z) (st' : PmmState) :
  state_wf st -> alloc_frame st = Ret (r, st') -> progress st.
Proof.
  intros Hst Ha. destruct (state_wf_PMM st Hst) as (p & Hp & Hwf). unfold progress. rewrite Hp.
  destruct (decide (0 < next_hint p)) as [? | Hh]; [by left | right].
  destruct (decide (n_free p = 0)) as [Hz | Hnz].
  - exfalso. unfold alloc_frame in Ha. rewrite Hp in Ha. unfold alloc_one in Ha.
    rewrite alloc_one_loop_full in Ha; [done | done | | | ]; pose proof (wf_hint p Hwf); [lia | | lia].
    intros j Hj. destruct (used p j) eqn:E; [done |]. pose proof (n_free_pos p j Hj E). lia.
  - unfold n_free, count_clear, zlen in Hnz. destruct (clear_bits _ _) as [| i l] eqn:E; [done |].
    exists i. apply elem_of_clear_bits. rewrite E. by left.
Qed.

Lemma contig_scan_nonpos (p : Pmm) (n : Z) (l : list Z) (run start : Z) (r : option Z) :
  n <= 0 -> 0 <= run -> contig_scan p n l run start = Ret r -> r = None.
Proof.
  intros Hn. revert run start. induction l as [| i l IH]; intros run start Hrun; cbn [contig_scan].
  { by intros [= <-]. }
  intros (s & _ & H)%obind_Ret. destruct s; [by eapply IH in H |].
  destruct (Z.eqb_spec (run + 1) n); [lia |]. eapply IH in H; [done | lia].
Qed.

Lemma pmm_step_wf (st st' : PmmState) : pmm_step st st' -> state_wf st -> state_wf st'.
Proof.
  intros Hstep Hst. destruct (state_wf_PMM st Hst) as (p & Hp & Hwf).
  destruct Hstep as [st r st' Ha | st n r st' Ha | st a st' Hu Hpos Ha].
  - destruct (alloc_frame_spec st p Hst) as (r' & st1 & H1 & ? & _);
      [by eapply alloc_frame_progress | done |]. congruence.
  - destruct (decide (0 < n)).
    + destruct (alloc_contig_spec st p n Hst Hp) as (r' & st1 & H1 & ? & _); [done |]. congruence.
    + unfold alloc_contig in Ha. rewrite Hp in Ha. apply obind_Ret in Ha as (s & Hs & Ha).
      apply contig_scan_nonpos in Hs as ->; [| lia | lia]. by injection Ha as _ <-.
  - unfold frame_used in Hu. rewrite Hp in Hu. destruct Hu as [Hr Hu].
    destruct (free_frame_spec st p a Hst Hp) as (st1 & p' & H1 & ? & _); [lia | done |]. congruence.
Qed.

(** ** Properties *)

(** C26 After [init] on a firmware memory map without overlaps, and after any
    sequence of calls of [alloc_frame], [alloc_contig] and [free_frame] of
    frames in use, [FREE_FRAMES] is exactly the number of clear bits and frame
    0 has never become available. *)
Theorem free_counter_exact (regions : list MemoryRegion) (m b : Z) (st0 st : PmmState) :
  map_ok regions -> max_phys_of regions = Ret m -> 0 < m ->
  find_bitmap_region regions (bitmap_pages (div_ceil m PAGE_SIZE)) = Some b ->
  init regions = Ret st0 -> rtc pmm_step st0 st ->
  exists p, PMM st = Some p /\ free_frames st = count_clear (bitmap p) (total_pfns p) /\
            total_frames st = div_ceil m PAGE_SIZE /\ used p 0 = true.
Proof.
  intros Hmap Hm Hpos Hfind Hinit Hsteps.
  destruct (init_spec regions m b Hmap Hm Hpos Hfind) as (st1 & p1 & H1 & Hwf1 & Hp1 & _ & Ht1 & _).
  assert (st1 = st0) as -> by congruence. clear H1.
  assert (TOTAL_FRAMES st0 = div_ceil m PAGE_SIZE) as HT.
  { unfold state_wf in Hwf1. rewrite Hp1 in Hwf1. lia. }
  assert (state_wf st /\ TOTAL_FRAMES st = TOTAL_FRAMES st0) as [Hwf HT'].
  { clear -Hsteps Hwf1. induction Hsteps as [st | st0 st1 st2 Hs _ IH]; [done |].
    destruct IH as [? HT]; [by eapply pmm_step_wf |]. split; [done |]. rewrite HT.
    destruct (state_wf_PMM st0 Hwf1) as (p & Hp & _).
    destruct Hs as [? ? ? Ha | ? ? ? ? Ha | ? ? ? _ _ Ha];
      [unfold alloc_frame in Ha | unfold alloc_contig in Ha | unfold free_frame in Ha];
      rewrite Hp in Ha; inv_bind Ha; repeat case_match; inv_bind Ha; by simplify_eq. }
  unfold state_wf in Hwf. destruct (PMM st) as [p |]; [| done]. exists p.
  destruct Hwf as (? & ? & ? & ?). unfold free_frames, total_frames. split_and!; (done || congruence).
Qed.

(** C25 [alloc_frame] returns once some frame is free or the hint has left 0:
    it hands out the first free frame from the hint on, cyclically, marks only
    that frame, and decrements the counter; it answers [None] only when
    nothing is free, leaving the state alone. *)
Theorem alloc_frame_correct (st : PmmState) (p : Pmm) :
  state_wf st -> progress st -> PMM st = Some p ->
  exists r st', alloc_frame st = Ret (r, st') /\ state_wf st' /\ progress st' /\
    match r with
    | Some a => exists f p', a = f * PAGE_SIZE /\ 0 < f /\ next_fit p f /\
        PMM st' = Some p' /\ sets p p' f /\ total_pfns p' = total_pfns p /\
        FREE_FRAMES st' = FREE_FRAMES st - 1
    | None => st' = st /\ FREE_FRAMES st = 0
    end.
Proof. apply alloc_frame_spec. Qed.

(** With every frame in use and the hint still at 0, as after [init] and an
    [alloc_contig] that takes all the memory, the loop of [alloc_one] never
    meets its exit condition: no amount of iterations is enough. *)
Theorem alloc_one_never_returns (p : Pmm) :
  pmm_wf p -> next_hint p = 0 -> n_free p = 0 ->
  forall fuel, alloc_one fuel p = OutOfFuel.
Proof.
  intros Hwf Hh Hn fuel. pose proof (wf_total p Hwf).
  apply alloc_one_loop_full; [done | done | | lia].
  intros j Hj. destruct (used p j) eqn:E; [done |]. pose proof (n_free_pos p j Hj E). lia.
Qed.

(** [alloc_contig] of [n > 0] frames takes the lowest run of [n] free frames
    and marks exactly those; it answers [None] only when there is none. *)
Theorem alloc_contig_correct (st : PmmState) (p : Pmm) (n : Z) :
  state_wf st -> PMM st = Some p -> 0 < n ->
  exists r st', alloc_contig st n = Ret (r, st') /\ state_wf st' /\
    match r with
    | Some a => exists s p', a = s * PAGE_SIZE /\ free_run p n s /\
        (forall s', free_run p n s' -> s <= s') /\ PMM st' = Some p' /\
        (forall j, 0 <= j -> used p' j = ((s <=? j) && (j <? s + n)) || used p j) /\
        FREE_FRAMES st' = FREE_FRAMES st - n
    | None => st' = st /\ forall s, ~ free_run p n s
    end.
Proof. apply alloc_contig_spec. Qed.

(** ** Witnesses *)

(** Eight usable frames from physical address 0x1000. *)
Definition demo_map : list MemoryRegion :=
  [mkRegion 0x1000 0x8000 Usable; mkRegion 0x9000 0x3000 Reserved].
Definition demo_state : PmmState :=
  Eval vm_compute in match init demo_map with Ret st => st | _ => pmm_statics end.
Definition demo_pmm : Pmm :=
  Eval vm_compute in match PMM demo_state with Some p => p | None => mkPmm [] 0 0 0 end.
(** The same with the seven remaining frames taken by [alloc_contig]. *)
Definition full_state : PmmState :=
  Eval vm_compute in match alloc_contig demo_state 7 with Ret (_, st) => st | _ => pmm_statics end.
Definition full_pmm : Pmm :=
  Eval vm_compute in match PMM full_state with Some p => p | None => mkPmm [] 0 0 0 end.

Lemma demo_pmm_wf : pmm_wf demo_pmm.
Proof. split; [reflexivity | vm_compute; split; congruence | reflexivity | vm_compute; split; congruence]. Qed.
Lemma full_pmm_wf : pmm_wf full_pmm.
Proof. split; [reflexivity | vm_compute; split; congruence | reflexivity | vm_compute; split; congruence]. Qed.
Lemma demo_state_wf : state_wf demo_state.
Proof. split_and!; [exact demo_pmm_wf | reflexivity ..]. Qed.
Lemma demo_map_ok : map_ok demo_map.
Proof.
  split; [| apply (bool_decide_unpack _); vm_compute; exact I].
  repeat constructor; vm_compute; congruence.
Qed.

Lemma free_counter_exact_witness :
  exists p, PMM full_state = Some p /\ free_frames full_state = count_clear (bitmap p) (total_pfns p) /\
            total_frames full_state = div_ceil 0xC000 PAGE_SIZE /\ used p 0 = true.
Proof.
  apply (free_counter_exact demo_map 0xC000 0x1000 demo_state full_state demo_map_ok);
    [reflexivity | lia | reflexivity | vm_compute; reflexivity |].
  eapply rtc_l; [| apply rtc_refl].
  apply (step_alloc_contig demo_state 7 (Some 0x2000)). vm_compute. reflexivity.
Defined.

Lemma alloc_frame_correct_witness :
  exists r st', alloc_frame demo_state = Ret (r, st') /\ state_wf st' /\ progress st' /\
    match r with
    | Some a => exists f p', a = f * PAGE_SIZE /\ 0 < f /\ next_fit demo_pmm f /\
        PMM st' = Some p' /\ sets demo_pmm p' f /\ total_pfns p' = total_pfns demo_pmm /\
        FREE_FRAMES st' = FREE_FRAMES demo_state - 1
    | None => st' = demo_state /\ FREE_FRAMES demo_state = 0
    end.
Proof.
  apply (alloc_frame_correct demo_state demo_pmm demo_state_wf); [| reflexivity].
  right. exists 2. split; [vm_compute; split; congruence | reflexivity].
Defined.

Lemma alloc_one_never_returns_witness :
  n_free full_pmm = 0 /\ forall fuel, alloc_one fuel full_pmm = OutOfFuel.
Proof. split; [reflexivity |]. apply (alloc_one_never_returns full_pmm full_pmm_wf); reflexivity. Defined.

Lemma alloc_contig_correct_witness :
  exists r st', alloc_contig demo_state 3 = Ret (r, st') /\ state_wf st' /\
    match r with
    | Some a => exists s p', a = s * PAGE_SIZE /\ free_run demo_pmm 3 s /\
        (forall s', free_run demo_pmm 3 s' -> s <= s') /\ PMM st' = Some p' /\
        (forall j, 0 <= j -> used p' j = ((s <=? j) && (j <? s + 3)) || used demo_pmm j) /\
        FREE_FRAMES st' = FREE_FRAMES demo_state - 3
    | None => st' = demo_state /\ forall s, ~ free_run demo_pmm 3 s
    end.
Proof. apply (alloc_contig_correct demo_state demo_pmm 3 demo_state_wf); [reflexivity | lia]. Defined.
