(* ===== verification/X86.v ===== *)
(** * The x86_64 crate

    What the kernel uses of the third-party [x86_64] crate: page-table entries
    and their flags, and the checked address types.  The operations are a
    typeclass and the documented behaviour of them its laws; [sdm_entry] is an
    instance with the entry layout of the processor manual, so the laws can
    hold. *)

From S2P Require Import Prelude Frames.

(** [PageTableFlags], [PageTableEntry], [PhysAddr] and [VirtAddr].  An entry is
    its 64-bit word, a set of flags its bits. *)
Class PageTableEntry : Type := {
  PTF_PRESENT : Z;
  PTF_WRITABLE : Z;
  PTF_USER_ACCESSIBLE : Z;
  PTF_WRITE_THROUGH : Z;
  PTF_NO_CACHE : Z;
  PTF_NO_EXECUTE : Z;
  PTF_ALL : Z;
  pte_flags : Z -> Z;
  pte_addr : Z -> Z;
  (** [set_addr(addr, flags)] and [set_flags(flags)], as the new word. *)
  pte_set_addr : Z -> Z -> outcome Z;
  pte_set_flags : Z -> Z -> Z;
  (** [PhysAddr::new], [VirtAddr::new]. *)
  phys_addr_new : Z -> outcome Z;
  virt_addr_new : Z -> outcome Z
}.

(** [contains] of the [bitflags] crate. *)
Definition contains (f g : Z) : bool := Z.land f g =? g.

(** [f] only has bits that name a flag. *)
Definition ptf_ok `{PageTableEntry} (f : Z) : Prop := Z.land f PTF_ALL = f.

(** Bits 48 to 63 repeat bit 47. *)
Definition canonical (v : Z) : Prop := 0 <= v < 2 ^ 47 \/ 2 ^ 64 - 2 ^ 47 <= v < 2 ^ 64.

Class PageTableEntryLaws `{PageTableEntry} : Prop := {
  ptf_all_range : 0 <= PTF_ALL < 2 ^ 64;
  ptf_present_nonzero : PTF_PRESENT <> 0;
  ptf_present_ok : ptf_ok PTF_PRESENT;
  ptf_writable_ok : ptf_ok PTF_WRITABLE;
  ptf_user_ok : ptf_ok PTF_USER_ACCESSIBLE;
  ptf_write_through_ok : ptf_ok PTF_WRITE_THROUGH;
  ptf_no_cache_ok : ptf_ok PTF_NO_CACHE;
  ptf_no_execute_ok : ptf_ok PTF_NO_EXECUTE;
  pte_flags_ok : forall e, 0 <= e < 2 ^ 64 -> ptf_ok (pte_flags e);
  pte_flags_unused : pte_flags 0 = 0;
  pte_addr_ok : forall e, 0 <= e < 2 ^ 64 -> frame_addr (pte_addr e);
  pte_set_addr_spec : forall a f, frame_addr a -> ptf_ok f ->
    exists e, pte_set_addr a f = Ret e /\ 0 <= e < 2 ^ 64 /\ pte_addr e = a /\ pte_flags e = f;
  pte_set_flags_spec : forall e f, 0 <= e < 2 ^ 64 -> ptf_ok f ->
    0 <= pte_set_flags e f < 2 ^ 64 /\ pte_addr (pte_set_flags e f) = pte_addr e /\
    pte_flags (pte_set_flags e f) = f;
  phys_addr_new_ok : forall a, 0 <= a < 2 ^ 52 -> phys_addr_new a = Ret a;
  phys_addr_new_panic : forall a, 2 ^ 52 <= a < 2 ^ 64 -> phys_addr_new a = Panic;
  virt_addr_new_ok : forall v, canonical v -> virt_addr_new v = Ret v;
  virt_addr_new_panic : forall v, 0 <= v < 2 ^ 64 -> ~ canonical v -> virt_addr_new v = Panic
}.

(** ** Facts on flags *)

Lemma contains_lor_l (f g h : Z) : contains f h = true -> contains (Z.lor f g) h = true.
Proof.
  unfold contains. rewrite !Z.eqb_eq. intros Hf. apply Z.bits_inj'. intros n Hn.
  rewrite Z.land_spec, Z.lor_spec. apply (f_equal (fun z => Z.testbit z n)) in Hf.
  rewrite Z.land_spec in Hf. by destruct (Z.testbit f n), (Z.testbit g n), (Z.testbit h n).
Qed.

Lemma contains_lor_r (f g h : Z) : contains g h = true -> contains (Z.lor f g) h = true.
Proof. rewrite Z.lor_comm. apply contains_lor_l. Qed.

Lemma contains_refl (f : Z) : contains f f = true.
Proof. unfold contains. by rewrite Z.land_diag, Z.eqb_refl. Qed.

Lemma contains_zero (g : Z) : g <> 0 -> contains 0 g = false.
Proof. intros Hg. unfold contains. rewrite Z.land_0_l. by apply Z.eqb_neq. Qed.

Lemma ptf_ok_lor `{PageTableEntry} (f g : Z) : ptf_ok f -> ptf_ok g -> ptf_ok (Z.lor f g).
Proof. unfold ptf_ok. intros Hf Hg. by rewrite Z.land_lor_distr_l, Hf, Hg. Qed.

(** ** The layout of the processor manual *)

Definition SDM_ADDR : Z := 0x000FFFFFFFFFF000.
Definition SDM_FLAGS : Z := 0xFFF0000000000FFF.

#[local] Lemma land_sub (f m : Z) : 0 <= m < 2 ^ 64 -> Z.land f m = f -> 0 <= f < 2 ^ 64.
Proof.
  intros Hm Hf. assert (0 <= f) by (rewrite <- Hf; apply Z.land_nonneg; lia).
  split; [done |]. replace f with (Z.land f (Z.ones 64)).
  - rewrite Z.land_ones by lia. apply Z.mod_pos_bound. lia.
  - rewrite <- Hf, <- Z.land_assoc. f_equal. rewrite Z.land_ones by lia. by apply Z.mod_small.
Qed.

Lemma frame_addr_mask (a : Z) : frame_addr a -> Z.land a SDM_ADDR = a.
Proof.
  intros [Hr Hm]. replace a with (Z.shiftl (a / 4096) 12) at 1.
  2: { rewrite Z.shiftl_mul_pow2 by lia. pose proof (Z.div_mod a 4096). lia. }
  change SDM_ADDR with (Z.shiftl (Z.ones 40) 12). rewrite <- Z.shiftl_land, Z.land_ones by lia.
  rewrite Z.mod_small by (split; [apply Z.div_pos; lia | apply Z.div_lt_upper_bound; lia]).
  rewrite Z.shiftl_mul_pow2 by lia. pose proof (Z.div_mod a 4096). lia.
Qed.

Lemma mask_frame_addr (e : Z) : frame_addr (Z.land e SDM_ADDR).
Proof.
  assert (Z.land e SDM_ADDR = Z.shiftl (Z.land (Z.shiftr e 12) (Z.ones 40)) 12) as ->.
  { apply Z.bits_inj'. intros n Hn. change SDM_ADDR with (Z.shiftl (Z.ones 40) 12).
    rewrite Z.land_spec. destruct (Z.ltb_spec n 12).
    - rewrite !Z.shiftl_spec_low by lia. apply andb_false_r.
    - rewrite !Z.shiftl_spec by lia. rewrite Z.land_spec, Z.shiftr_spec by lia.
      by replace (n - 12 + 12) with n by lia. }
  rewrite Z.land_ones, Z.shiftl_mul_pow2 by lia.
  pose proof (Z.mod_pos_bound (Z.shiftr e 12) (2 ^ 40)). split; [lia |].
  change (2 ^ 12) with 4096. by rewrite Z.mod_mul.
Qed.

#[export] Instance sdm_entry : PageTableEntry := {|
  PTF_PRESENT := 1;
  PTF_WRITABLE := 2;
  PTF_USER_ACCESSIBLE := 4;
  PTF_WRITE_THROUGH := 8;
  PTF_NO_CACHE := 16;
  PTF_NO_EXECUTE := 2 ^ 63;
  PTF_ALL := SDM_FLAGS;
  pte_flags e := Z.land e SDM_FLAGS;
  pte_addr e := Z.land e SDM_ADDR;
  pte_set_addr a f := if a mod 4096 =? 0 then Ret (Z.lor a f) else Panic;
  pte_set_flags e f := Z.lor (Z.land e SDM_ADDR) f;
  phys_addr_new a := if a <? 2 ^ 52 then Ret a else Panic;
  virt_addr_new v := if (v <? 2 ^ 47) || (2 ^ 64 - 2 ^ 47 <=? v) then Ret v else Panic
|}.

Lemma sdm_parts (a f : Z) :
  frame_addr a -> Z.land f SDM_FLAGS = f ->
  0 <= Z.lor a f < 2 ^ 64 /\ Z.land (Z.lor a f) SDM_ADDR = a /\ Z.land (Z.lor a f) SDM_FLAGS = f.
Proof.
  intros Ha Hf. pose proof (frame_addr_mask a Ha) as Hm.
  pose proof (land_sub f SDM_FLAGS ltac:(done) Hf). destruct Ha as [Hr _].
  split; [apply lor_range; lia |]. rewrite !Z.land_lor_distr_l. split.
  - rewrite Hm, <- Hf, <- Z.land_assoc. change (Z.land SDM_FLAGS SDM_ADDR) with 0.
    by rewrite Z.land_0_r, Z.lor_0_r.
  - rewrite Hf, <- Hm, <- Z.land_assoc. change (Z.land SDM_ADDR SDM_FLAGS) with 0.
    by rewrite Z.land_0_r, Z.lor_0_l.
Qed.

#[export] Instance sdm_entry_laws : PageTableEntryLaws.
Proof.
  split; try done.
  - intros e _. unfold ptf_ok. simpl. by rewrite <- Z.land_assoc, Z.land_diag.
  - intros e _. apply mask_frame_addr.
  - intros a f Ha Hf. exists (Z.lor a f). simpl. rewrite (proj2 (Z.eqb_eq _ _) (proj2 Ha)).
    split; [done |]. by apply sdm_parts.
  - intros e f _ Hf. apply sdm_parts; [apply mask_frame_addr | done].
  - intros a Ha. simpl. by rewrite (proj2 (Z.ltb_lt _ _) (proj2 Ha)).
  - intros a Ha. simpl. by rewrite (proj2 (Z.ltb_ge _ _) (proj1 Ha)).
  - intros v Hv. unfold canonical in Hv. cbn [virt_addr_new sdm_entry]. zcases; simpl; (done || lia).
  - intros v Hr Hv. unfold canonical in Hv. cbn [virt_addr_new sdm_entry]. zcases; simpl; (done || lia).
Qed.
