(* ===== verification/Vmm.v ===== *)
(** * Virtual memory manager

    [kernel/src/mm/vmm.rs]: four-level page tables walked through the direct
    map.  The state is physical memory, the frame allocator (any
    [FrameAllocator]), the register CR3 and the two statics of the module.  A
    table is named by its physical address and an entry by the address of its
    word, which is what the code's [&mut PageTableEntry] is. *)

From S2P Require Import Prelude Bytes Frames X86.

(** ** Flags *)

(** The bits of [MapFlags]. *)
Definition MF_WRITE : Z := Z.shiftl 1 0.
Definition MF_USER : Z := Z.shiftl 1 1.
Definition MF_NX : Z := Z.shiftl 1 2.
Definition MF_MMIO : Z := Z.shiftl 1 3.

Inductive MapError : Type := OutOfMemory | AlreadyMapped | Misaligned | NoVirtualSpace.

#[global] Instance MapError_eq_dec : EqDecision MapError.
Proof. solve_decision. Defined.

Definition MMIO_VA_BASE : Z := 0xFFFF900000000000.
Definition MMIO_VA_END : Z := 0xFFFF900040000000.
Definition USER_IPC_BASE : Z := 0x20000000.
Definition USER_IPC_END : Z := 0x60000000.

Definition pml4_idx (v : Z) : Z := Z.land (Z.shiftr v 39) 0x1FF.
Definition pdpt_idx (v : Z) : Z := Z.land (Z.shiftr v 30) 0x1FF.
Definition pd_idx (v : Z) : Z := Z.land (Z.shiftr v 21) 0x1FF.
Definition pt_idx (v : Z) : Z := Z.land (Z.shiftr v 12) 0x1FF.

Section Flags.
  Context `{PageTableEntry}.

(** [MapFlags::leaf] and [MapFlags::intermediate]. *)
Definition leaf_flags (fl : Z) : Z :=
  let f := PTF_PRESENT in
  let f := if contains fl MF_WRITE then Z.lor f PTF_WRITABLE else f in
  let f := if contains fl MF_USER then Z.lor f PTF_USER_ACCESSIBLE else f in
  let f := if contains fl MF_NX then Z.lor f PTF_NO_EXECUTE else f in
  if contains fl MF_MMIO then Z.lor f (Z.lor PTF_NO_CACHE PTF_WRITE_THROUGH) else f.

Definition intermediate_flags (fl : Z) : Z :=
  let f := Z.lor PTF_PRESENT PTF_WRITABLE in
  if contains fl MF_USER then Z.lor f PTF_USER_ACCESSIBLE else f.

(** [slot.flags().contains(PTF::PRESENT)]. *)
Definition present (e : Z) : bool := contains (pte_flags e) PTF_PRESENT.
End Flags.

(** ** State *)

Record Vmm (A : Type) : Type := mkVmm {
  vm_mem : PhysMem;
  vm_frames : A;
  KERNEL_AS : option Z;
  MMIO_NEXT : Z;
  CR3 : Z
}.
Arguments mkVmm {A} _ _ _ _ _.
Arguments vm_mem {A} _ _.
Arguments vm_frames {A} _.
Arguments KERNEL_AS {A} _.
Arguments MMIO_NEXT {A} _.
Arguments CR3 {A} _.

(** The entries of the table at [t]. *)
Definition slot (t i : Z) : Z := t + 8 * i.
Definition entry (m : PhysMem) (t i : Z) : Z := read64 m (slot t i).

#[global] Arguments entry _ _ _ : simpl never.
#[global] Arguments slot _ _ : simpl never.
#[global] Arguments pml4_idx _ : simpl never.
#[global] Arguments pdpt_idx _ : simpl never.
#[global] Arguments pd_idx _ : simpl never.
#[global] Arguments pt_idx _ : simpl never.
#[global] Arguments present {_} _ : simpl never.

(** [AddressSpace]: its [pml4_phys]. *)
Definition AddressSpace : Type := Z.

Section Vmm.
  Context {A : Type} `{FrameAllocator A} `{PageTableEntry}.

Definition VM (X : Type) : Type := ST (Vmm A) X.

Definition set_mem (f : PhysMem -> PhysMem) : VM unit :=
  st_modify (fun s => mkVmm (f (vm_mem s)) (vm_frames s) (KERNEL_AS s) (MMIO_NEXT s) (CR3 s)).
Definition get_mem : VM PhysMem := fun s => Ret (vm_mem s, s).
(** [pmm::alloc_frame()]. *)
Definition vm_alloc : VM (option Z) :=
  fun s => let! (r, fa) := fa_alloc (vm_frames s) in
           Ret (r, mkVmm (vm_mem s) fa (KERNEL_AS s) (MMIO_NEXT s) (CR3 s)).
Definition read_entry (a : Z) : VM Z := fun s => Ret (read64 (vm_mem s) a, s).
Definition write_entry (a e : Z) : VM unit := set_mem (fun m => write64 m a e).

(** [vmm::init]: inherit the bootloader's PML4 from CR3. *)
Definition vmm_init : VM unit :=
  st_modify (fun s => mkVmm (vm_mem s) (vm_frames s) (Some (CR3 s)) (MMIO_NEXT s) (CR3 s)).

(** ** Walking and building tables *)

Definition child_mut (a : Z) : VM (option Z) :=
  let* e := read_entry a in
  st_ret (if present e then Some (pte_addr e) else None).

Definition ensure_child (a inter : Z) : VM (result Z MapError) :=
  let* e := read_entry a in
  if present e then
    let existing := pte_flags e in
    let union := Z.lor existing inter in
    let* _ := (if union =? existing then st_ret tt else write_entry a (pte_set_flags e union)) in
    let* e := read_entry a in
    st_ret (Ok (pte_addr e))
  else
    let* r := vm_alloc in
    match r with
    | None => st_ret (Err OutOfMemory)
    | Some new =>
        let* _ := set_mem (fun m => fill m new PAGE_SIZE 0) in
        let* pa := st_lift (phys_addr_new new) in
        let* e := st_lift (pte_set_addr pa inter) in
        let* _ := write_entry a e in
        st_ret (Ok new)
    end.

Definition map_4k (pml4 : AddressSpace) (virt phys fl : Z) : VM (result unit MapError) :=
  if negb (Z.land virt 0xFFF =? 0) || negb (Z.land phys 0xFFF =? 0) then st_ret (Err Misaligned)
  else
    let? pdpt := ensure_child (slot pml4 (pml4_idx virt)) (intermediate_flags fl) in
    let? pd := ensure_child (slot pdpt (pdpt_idx virt)) (intermediate_flags fl) in
    let? pt := ensure_child (slot pd (pd_idx virt)) (intermediate_flags fl) in
    let a := slot pt (pt_idx virt) in
    let* e := read_entry a in
    if present e then st_ret (Err AlreadyMapped)
    else
      let* pa := st_lift (phys_addr_new phys) in
      let* e := st_lift (pte_set_addr pa (leaf_flags fl)) in
      let* _ := write_entry a e in
      st_ret (Ok tt).

(** [virt + (i * PAGE_SIZE) as u64]. *)
Definition page_at (virt i : Z) : outcome Z :=
  let! o := checked 64 (i * PAGE_SIZE) in
  checked 64 (virt + o).

(** The loop of [map_anon] over the page numbers left. *)
Fixpoint map_anon_loop (pml4 : AddressSpace) (virt fl : Z) (pages : list Z) :
    VM (result unit MapError) :=
  match pages with
  | [] => st_ret (Ok tt)
  | i :: pages =>
      let* r := vm_alloc in
      match r with
      | None => st_ret (Err OutOfMemory)
      | Some frame =>
          let* _ := set_mem (fun m => fill m frame PAGE_SIZE 0) in
          let* va := st_lift (page_at virt i) in
          let? _ := map_4k pml4 va frame fl in
          map_anon_loop pml4 virt fl pages
      end
  end.
Definition map_anon (pml4 : AddressSpace) (virt pages fl : Z) : VM (result unit MapError) :=
  map_anon_loop pml4 virt fl (seqZ 0 pages).

Definition unmap_4k (pml4 : AddressSpace) (virt : Z) : VM (option Z) :=
  let* r := child_mut (slot pml4 (pml4_idx virt)) in
  match r with None => st_ret None | Some pdpt =>
  let* r := child_mut (slot pdpt (pdpt_idx virt)) in
  match r with None => st_ret None | Some pd =>
  let* r := child_mut (slot pd (pd_idx virt)) in
  match r with None => st_ret None | Some pt =>
    let a := slot pt (pt_idx virt) in
    let* e := read_entry a in
    if negb (present e) then st_ret None
    else
      let phys := pte_addr e in
      let* _ := write_entry a 0 in
      (* the TLB flush *)
      let* _ := st_lift (virt_addr_new virt) in
      st_ret (Some phys)
  end end end.

(** The two read-only walks. *)
Definition phys_for_virt (m : PhysMem) (pml4 : AddressSpace) (virt : Z) : option Z :=
  let e1 := entry m pml4 (pml4_idx virt) in
  if negb (present e1) then None else
  let e2 := entry m (pte_addr e1) (pdpt_idx virt) in
  if negb (present e2) then None else
  let e3 := entry m (pte_addr e2) (pd_idx virt) in
  if negb (present e3) then None else
  let e4 := entry m (pte_addr e3) (pt_idx virt) in
  if negb (present e4) then None else
  Some (pte_addr e4 + Z.land virt 0xFFF).

Definition is_mapped_4k (m : PhysMem) (pml4 : AddressSpace) (virt : Z) : bool :=
  let e1 := entry m pml4 (pml4_idx virt) in
  if negb (present e1) then false else
  let e2 := entry m (pte_addr e1) (pdpt_idx virt) in
  if negb (present e2) then false else
  let e3 := entry m (pte_addr e2) (pd_idx virt) in
  if negb (present e3) then false else
  present (entry m (pte_addr e3) (pt_idx virt)).

(** ** Address spaces *)

(** [for i in 256..512 { new_pml4[i] = kernel_pml4[i].clone() }] *)
Definition copy_entry (src dst : Z) (m : PhysMem) (i : Z) : PhysMem :=
  write64 m (slot dst i) (entry m src i).

Definition new_user : VM (option AddressSpace) :=
  let* r := vm_alloc in
  match r with
  | None => st_ret None
  | Some phys =>
      let* _ := set_mem (fun m => fill m phys PAGE_SIZE 0) in
      let* s := st_get in
      match KERNEL_AS s with
      | None => st_lift Panic
      | Some k_phys =>
          let* _ := set_mem (fun m => foldl (copy_entry k_phys phys) m (seqZ 256 256)) in
          st_ret (Some phys)
      end
  end.

(** [activate]: [PhysFrame::from_start_address(..).unwrap()] wants an aligned
    address. *)
Definition activate (pml4 : AddressSpace) : VM unit :=
  let* pa := st_lift (phys_addr_new pml4) in
  if pa mod PAGE_SIZE =? 0
  then st_modify (fun s => mkVmm (vm_mem s) (vm_frames s) (KERNEL_AS s) (MMIO_NEXT s) pa)
  else st_lift Panic.

(** ** Copies into an address space *)

Definition page_left (va : Z) : Z := PAGE_SIZE - Z.land va (PAGE_SIZE - 1).

Fixpoint copy_loop (fuel : nat) (pml4 : AddressSpace) (virt : Z) (bytes : list Z) (written : Z) :
    VM (result unit MapError) :=
  match fuel with
  | O => st_lift OutOfFuel
  | S fuel =>
      if zlen bytes <=? written then st_ret (Ok tt)
      else
        let* va := st_lift (checked 64 (virt + written)) in
        let* m := get_mem in
        match phys_for_virt m pml4 va with
        | None => st_ret (Err NoVirtualSpace)
        | Some phys =>
            let n := Z.min (page_left va) (zlen bytes - written) in
            let* chunk := st_lift (slice bytes written n) in
            let* _ := set_mem (fun m => store m phys chunk) in
            copy_loop fuel pml4 virt bytes (written + n)
        end
  end.
Definition copy_to_user (pml4 : AddressSpace) (virt : Z) (bytes : list Z) : VM (result unit MapError) :=
  copy_loop (S (length bytes)) pml4 virt bytes 0.

Fixpoint zero_loop (fuel : nat) (pml4 : AddressSpace) (virt len done : Z) : VM (result unit MapError) :=
  match fuel with
  | O => st_lift OutOfFuel
  | S fuel =>
      if len <=? done then st_ret (Ok tt)
      else
        let* va := st_lift (checked 64 (virt + done)) in
        let* m := get_mem in
        match phys_for_virt m pml4 va with
        | None => st_ret (Err NoVirtualSpace)
        | Some phys =>
            let n := Z.min (page_left va) (len - done) in
            let* _ := set_mem (fun m => fill m phys n 0) in
            zero_loop fuel pml4 virt len (done + n)
        end
  end.
Definition zero_user (pml4 : AddressSpace) (virt len : Z) : VM (result unit MapError) :=
  zero_loop (S (Z.to_nat len)) pml4 virt len 0.

(** ** Moving pages between address spaces *)

Definition STEAL_FLAGS : Z := Z.lor (Z.lor MF_WRITE MF_USER) MF_NX.

(** The rollback of [steal_pages]: [let _ = self.map_4k(..)] for each frame. *)
Fixpoint remap_loop (pml4 : AddressSpace) (virt j : Z) (frames : list Z) : VM unit :=
  match frames with
  | [] => st_ret tt
  | p :: frames =>
      let* back_va := st_lift (page_at virt j) in
      let* _ := map_4k pml4 back_va p STEAL_FLAGS in
      remap_loop pml4 virt (j + 1) frames
  end.

Fixpoint steal_loop (pml4 : AddressSpace) (virt : Z) (pages : list Z) (out : list Z) :
    VM (result (list Z) MapError) :=
  match pages with
  | [] => st_ret (Ok out)
  | i :: pages =>
      let* va := st_lift (page_at virt i) in
      let* r := unmap_4k pml4 va in
      match r with
      | Some phys => steal_loop pml4 virt pages (out ++ [phys])
      | None =>
          let* _ := remap_loop pml4 virt 0 out in
          st_ret (Err AlreadyMapped)
      end
  end.

(** [Vec::with_capacity(pages)] of [u64]s panics beyond [isize::MAX] bytes. *)
Definition steal_pages (pml4 : AddressSpace) (virt pages : Z) : VM (result (list Z) MapError) :=
  if negb (Z.land virt 0xFFF =? 0) then st_ret (Err Misaligned)
  else if 2 ^ 63 <=? pages * 8 then st_lift Panic
  else steal_loop pml4 virt (seqZ 0 pages) [].

Fixpoint install_loop (pml4 : AddressSpace) (virt i : Z) (frames : list Z) : VM (result unit MapError) :=
  match frames with
  | [] => st_ret (Ok tt)
  | phys :: frames =>
      let* va := st_lift (page_at virt i) in
      let? _ := map_4k pml4 va phys STEAL_FLAGS in
      install_loop pml4 virt (i + 1) frames
  end.
Definition install_pages (pml4 : AddressSpace) (virt : Z) (frames : list Z) : VM (result unit MapError) :=
  install_loop pml4 virt 0 frames.

(** The [while] of [find_user_vm_range]: [run] pages from [run_start] up to
    [va] are free. *)
Fixpoint find_range_loop (fuel : nat) (m : PhysMem) (pml4 : AddressSpace) (pages : Z)
    (run_start : option Z) (run va : Z) : outcome (option Z) :=
  match fuel with
  | O => OutOfFuel
  | S fuel =>
      let! n := checked 64 (pages * PAGE_SIZE) in
      let! e := checked 64 (va + n) in
      if USER_IPC_END <? e then Ret None
      else if is_mapped_4k m pml4 va then
        find_range_loop fuel m pml4 pages None 0 (va + PAGE_SIZE)
      else
        let run_start := if run =? 0 then Some va else run_start in
        let run := run + 1 in
        if run =? pages then Ret run_start
        else find_range_loop fuel m pml4 pages run_start run (va + PAGE_SIZE)
  end.
(** The cursor advances by a page from [USER_IPC_BASE] and the loop ends past
    [USER_IPC_END]. *)
Definition range_fuel : nat := Z.to_nat ((USER_IPC_END - USER_IPC_BASE) / PAGE_SIZE + 2).
Definition find_user_vm_range (m : PhysMem) (pml4 : AddressSpace) (pages : Z) : outcome (option Z) :=
  find_range_loop range_fuel m pml4 pages None 0 USER_IPC_BASE.

(** ** Device memory *)

Fixpoint map_mmio_loop (pml4 : AddressSpace) (virt_base first : Z) (pages : list Z) :
    VM (result unit MapError) :=
  match pages with
  | [] => st_ret (Ok tt)
  | i :: pages =>
      let* v := st_lift (page_at virt_base i) in
      let* p := st_lift (page_at first i) in
      let? _ := map_4k pml4 v p (Z.lor (Z.lor MF_WRITE MF_NX) MF_MMIO) in
      map_mmio_loop pml4 virt_base first pages
  end.

(** [x & !(PAGE_SIZE - 1)] of a [u64]. *)
Definition page_down (x : Z) : Z := Z.land x (2 ^ 64 - PAGE_SIZE).

Definition map_mmio (phys bytes : Z) : VM (result Z MapError) :=
  let page_off := Z.land phys (PAGE_SIZE - 1) in
  let first := page_down phys in
  let* e := st_lift (let! x := checked 64 (phys + bytes) in checked 64 (x + PAGE_SIZE)) in
  let last := page_down (e - 1) in
  let* d := st_lift (checked 64 (last - first)) in
  let pages := d / PAGE_SIZE in
  let* s := st_get in
  let base := MMIO_NEXT s in
  let* e := st_lift (page_at base pages) in
  if MMIO_VA_END <? e then st_ret (Err NoVirtualSpace)
  else
    let* _ := st_modify (fun s => mkVmm (vm_mem s) (vm_frames s) (KERNEL_AS s) e (CR3 s)) in
    let* s := st_get in
    match KERNEL_AS s with
    | None => st_lift Panic
    | Some as_ =>
        let? _ := map_mmio_loop as_ base first (seqZ 0 pages) in
        let* v := st_lift (checked 64 (base + page_off)) in
        st_ret (Ok v)
    end.
End Vmm.
