(* ===== verification/VmmInv.v ===== *)
(** * Page-table ownership

    The invariant of the page tables of [Vmm.v] and the lemma that carries
    every proof about them: [ensure_child] keeps it and changes no
    translation.

    Several address spaces coexist and share the tables of the kernel half.
    A ghost map [owner] gives, for every frame that is a page table (or a page
    mapped in a user half), the address space it belongs to and the path of
    indices that leads to it; a frame has one owner, so two walks that end in
    the same table took the same path.  [managed r i] says that slot [i] of the
    PML4 [r] is only ever written by this module; the slots the bootloader
    filled with large pages (the direct map, the kernel image) are not. *)

From S2P Require Import Prelude Bytes Frames X86 Vmm.

(** The space that owns what all address spaces share. *)
Definition KSPACE : Z := -1.

Abbreviation owner_map := (gmap Z (Z * list Z)).

(** The owner of the child behind index [i] of a table. *)
Definition child_of (o : Z * list Z) (i : Z) : Z * list Z :=
  (match o.2 with [] => if i <? 256 then o.1 else KSPACE | _ => o.1 end, o.2 ++ [i]).

Definition index_ok (i : Z) : Prop := 0 <= i < 512.
Definition path3 (va : Z) : list Z := [pml4_idx va; pdpt_idx va; pd_idx va].
(** The page of [va] in the address space [r]; pages of the kernel half do not
    depend on [r]. *)
Definition page_of (r va : Z) : Z * list Z := foldl child_of (r, []) (path3 va ++ [pt_idx va]).
Definition frame_of (a : Z) : Z := a / PAGE_SIZE * PAGE_SIZE.

(** ** Arithmetic of tables *)

Lemma frame_addr_mul (f : Z) : frame_addr f -> exists k, f = PAGE_SIZE * k.
Proof. intros [_ Hm]. exists (f / 4096). unfold PAGE_SIZE. pose proof (Z.div_mod f 4096). lia. Qed.

Lemma slot_disjoint (f g i k : Z) :
  frame_addr f -> frame_addr g -> index_ok i -> index_ok k -> (f, i) <> (g, k) ->
  slot g k + 8 <= slot f i \/ slot f i + 8 <= slot g k.
Proof.
  intros [a ->]%frame_addr_mul [b ->]%frame_addr_mul Hi Hk Hne. unfold slot, PAGE_SIZE, index_ok in *.
  destruct (decide (a = b)) as [-> |]; [| lia].
  assert (i <> k) by congruence. lia.
Qed.

Lemma entry_write_other (m : PhysMem) (f i g k e : Z) :
  frame_addr f -> frame_addr g -> index_ok i -> index_ok k -> (f, i) <> (g, k) ->
  entry (write64 m (slot g k) e) f i = entry m f i.
Proof. intros. apply read_write64_other. by apply slot_disjoint. Qed.

Lemma entry_write_same (m : PhysMem) (g k e : Z) :
  0 <= e < 2 ^ 64 -> entry (write64 m (slot g k) e) g k = e.
Proof. apply read_write64_same. Qed.

Lemma entry_fill_other (m : PhysMem) (f i c v : Z) :
  frame_addr f -> frame_addr c -> index_ok i -> f <> c -> entry (fill m c PAGE_SIZE v) f i = entry m f i.
Proof.
  intros [a ->]%frame_addr_mul [b ->]%frame_addr_mul Hi Hne. unfold entry, slot, PAGE_SIZE, index_ok in *.
  apply read64_ext. intros x Hx. apply fill_other. lia.
Qed.

Lemma entry_fill_same (m : PhysMem) (i c : Z) : index_ok i -> entry (fill m c PAGE_SIZE 0) c i = 0.
Proof. intros Hi. unfold entry, slot, index_ok, PAGE_SIZE in *. apply read64_fill_zero; lia. Qed.

Lemma frame_of_in (f a : Z) : frame_addr f -> f <= a < f + PAGE_SIZE -> frame_of a = f.
Proof.
  intros [k ->]%frame_addr_mul Ha. unfold frame_of, PAGE_SIZE in *.
  assert (a / 4096 = k) as -> by (symmetry; apply Z.div_unique with (a - 4096 * k); lia). lia.
Qed.

Lemma slot_in_frame (f i a : Z) : index_ok i -> slot f i <= a < slot f i + 8 -> f <= a < f + PAGE_SIZE.
Proof. unfold index_ok, slot, PAGE_SIZE. lia. Qed.

Lemma land_1FF_range (x : Z) : index_ok (Z.land x 0x1FF).
Proof. unfold index_ok. change 0x1FF with (Z.ones 9). rewrite Z.land_ones by lia. apply Z.mod_pos_bound. lia. Qed.

Lemma path3_ok (va : Z) : Forall index_ok (path3 va).
Proof. repeat constructor; apply land_1FF_range. Qed.
Lemma pt_idx_ok (va : Z) : index_ok (pt_idx va).
Proof. apply land_1FF_range. Qed.

Lemma foldl_child_path (o : Z * list Z) (p : list Z) : (foldl child_of o p).2 = o.2 ++ p.
Proof.
  revert o. induction p as [| i p IH]; intros o; simpl; [by rewrite app_nil_r |].
  rewrite IH. simpl. by rewrite <- app_assoc.
Qed.

Lemma page_of_path (r va : Z) : (page_of r va).2 = path3 va ++ [pt_idx va].
Proof. unfold page_of. by rewrite foldl_child_path. Qed.

Lemma page_of_space (r va : Z) :
  (page_of r va).1 = if pml4_idx va <? 256 then r else KSPACE.
Proof. unfold page_of, path3, child_of. cbn [foldl app fst snd]. by destruct (pml4_idx va <? 256). Qed.

Section Inv.
  Context {A : Type} {FA : FrameAllocator A} {PE : PageTableEntry} {PL : PageTableEntryLaws}.

(** ** Translations *)

Fixpoint descend (m : PhysMem) (t : Z) (p : list Z) : option Z :=
  match p with
  | [] => Some t
  | i :: p =>
      let e := entry m t i in
      if present e then descend m (pte_addr e) p else None
  end.

(** The last-level entry of [va], when it is present. *)
Definition leaf (m : PhysMem) (r va : Z) : option Z :=
  match descend m r (path3 va) with
  | Some t => let e := entry m t (pt_idx va) in if present e then Some e else None
  | None => None
  end.

Lemma phys_for_virt_leaf (m : PhysMem) (r va : Z) :
  phys_for_virt m r va = (fun e => pte_addr e + Z.land va 0xFFF) <$> leaf m r va.
Proof.
  unfold phys_for_virt, leaf, path3. cbn [descend].
  do 4 (destruct (present _); cbn [negb]; [| reflexivity]). reflexivity.
Qed.

Lemma is_mapped_4k_leaf (m : PhysMem) (r va : Z) :
  is_mapped_4k m r va = bool_decide (is_Some (leaf m r va)).
Proof.
  unfold is_mapped_4k, leaf, path3. cbn [descend].
  do 3 (destruct (present _); cbn [negb]; [| by rewrite bool_decide_eq_false_2 by apply is_Some_None]).
  destruct (present _); [by rewrite bool_decide_eq_true_2 |].
  by rewrite bool_decide_eq_false_2 by apply is_Some_None.
Qed.

(** ** The invariant *)

Record pt_inv (s : Vmm A) (owner : owner_map) (managed : Z -> Z -> bool) : Prop := {
  inv_mem : mem_ok (vm_mem s);
  inv_fa : fa_ok (vm_frames s);
  inv_frame : forall f o, owner !! f = Some o -> frame_addr f /\ ~ fa_avail (vm_frames s) f;
  inv_len : forall f sp p, owner !! f = Some (sp, p) -> (length p <= 4)%nat;
  inv_root : forall f r, owner !! f = Some (r, []) -> r = f;
  inv_child : forall f sp p i, owner !! f = Some (sp, p) -> index_ok i ->
    (length p <= 2)%nat \/ length p = 3%nat /\ sp <> KSPACE ->
    (p = [] -> managed f i = true) -> present (entry (vm_mem s) f i) = true ->
    owner !! pte_addr (entry (vm_mem s) f i) = Some (child_of (sp, p) i);
  inv_back : forall g sp p i, owner !! g = Some (sp, p ++ [i]) -> sp <> KSPACE ->
    exists f, owner !! f = Some (sp, p) /\ index_ok i /\
      present (entry (vm_mem s) f i) = true /\ pte_addr (entry (vm_mem s) f i) = g
}.

Lemma owner_inj (s : Vmm A) (owner : owner_map) managed (f1 f2 sp : Z) (p : list Z) :
  pt_inv s owner managed -> sp <> KSPACE ->
  owner !! f1 = Some (sp, p) -> owner !! f2 = Some (sp, p) -> f1 = f2.
Proof.
  intros Hi Hsp. revert f1 f2. induction p as [| i p IH] using rev_ind; intros f1 f2 H1 H2.
  - apply (inv_root _ _ _ Hi) in H1, H2. congruence.
  - destruct (inv_back _ _ _ Hi _ _ _ _ H1 Hsp) as (g1 & Hg1 & _ & _ & <-).
    destruct (inv_back _ _ _ Hi _ _ _ _ H2 Hsp) as (g2 & Hg2 & _ & _ & <-).
    by rewrite (IH g1 g2).
Qed.

(** A root's slot is managed; deeper tables always are. *)
Definition may_walk (managed : Z -> Z -> bool) (t : Z) (q p : list Z) : Prop :=
  match q, p with [], i :: _ => managed t i = true | _, _ => True end.

Lemma descend_owned (s : Vmm A) (owner : owner_map) managed (p : list Z) (t t' sp : Z) (q : list Z) :
  pt_inv s owner managed -> owner !! t = Some (sp, q) -> (length q + length p <= 3)%nat ->
  Forall index_ok p -> may_walk managed t q p ->
  descend (vm_mem s) t p = Some t' -> owner !! t' = Some (foldl child_of (sp, q) p).
Proof.
  intros Hi. revert t sp q. induction p as [| i p IH]; intros t sp q Ht Hl Hp Hw Hd; simpl in *.
  { by injection Hd as <-. }
  apply Forall_cons in Hp as [Hix Hp].
  destruct (present (entry (vm_mem s) t i)) eqn:Hpr; [| done].
  assert (owner !! pte_addr (entry (vm_mem s) t i) = Some (child_of (sp, q) i)) as Hc.
  { apply (inv_child _ _ _ Hi); [done | done | left; lia | | done]. intros ->. exact Hw. }
  eapply IH; [exact Hc | simpl; rewrite length_app; simpl; lia | done | | exact Hd].
  unfold may_walk. simpl. by destruct (q ++ [i]) eqn:E; [apply app_nil in E as [_ ?] |].
Qed.

(** What changing memory and the allocator may do below the level of
    translations. *)
Record step_ok (managed : Z -> Z -> bool) (s : Vmm A) (owner : owner_map) (s' : Vmm A) (owner' : owner_map) : Prop := {
  so_inv : pt_inv s' owner' managed;
  so_sub : owner ⊆ owner';
  so_new : forall g o, owner' !! g = Some o -> owner !! g = None -> fa_avail (vm_frames s) g;
  so_avail : forall g, frame_addr g -> fa_avail (vm_frames s') g -> fa_avail (vm_frames s) g;
  so_ram : forall g, fa_ram (vm_frames s') g <-> fa_ram (vm_frames s) g;
  so_links : forall f sp q i, owner !! f = Some (sp, q) -> (length q <= 2)%nat -> index_ok i ->
    present (entry (vm_mem s) f i) = true ->
    present (entry (vm_mem s') f i) = true /\
    pte_addr (entry (vm_mem s') f i) = pte_addr (entry (vm_mem s) f i);
  so_leaves : forall r va, owner !! r = Some (r, []) -> managed r (pml4_idx va) = true ->
    leaf (vm_mem s') r va = leaf (vm_mem s) r va;
  so_data : forall a, (forall sp q, owner' !! frame_of a = Some (sp, q) -> length q = 4%nat) ->
    vm_mem s' a = vm_mem s a;
  so_statics : KERNEL_AS s' = KERNEL_AS s /\ MMIO_NEXT s' = MMIO_NEXT s /\ CR3 s' = CR3 s
}.

Lemma step_ok_refl managed (s : Vmm A) (owner : owner_map) :
  pt_inv s owner managed -> step_ok managed s owner s owner.
Proof. intros Hi. split; (done || congruence). Qed.

Lemma step_ok_trans managed (s1 s2 s3 : Vmm A) (o1 o2 o3 : owner_map) :
  step_ok managed s1 o1 s2 o2 -> step_ok managed s2 o2 s3 o3 -> step_ok managed s1 o1 s3 o3.
Proof.
  intros H12 H23. split.
  - apply (so_inv _ _ _ _ _ H23).
  - etrans; [apply (so_sub _ _ _ _ _ H12) | apply (so_sub _ _ _ _ _ H23)].
  - intros g o Hg Hn. destruct (o2 !! g) as [o' |] eqn:E.
    + by apply (so_new _ _ _ _ _ H12 g o').
    + pose proof (proj1 (inv_frame _ _ _ (so_inv _ _ _ _ _ H23) g o Hg)).
      apply (so_avail _ _ _ _ _ H12); [done |]. by apply (so_new _ _ _ _ _ H23 g o).
  - intros g Hg Ha. apply (so_avail _ _ _ _ _ H12); [done |]. by apply (so_avail _ _ _ _ _ H23).
  - intros g. by rewrite (so_ram _ _ _ _ _ H23), (so_ram _ _ _ _ _ H12).
  - intros f sp q i Hf Hq Hix Hp. destruct (so_links _ _ _ _ _ H12 f sp q i) as [Hp2 Ha2]; [done .. |].
    destruct (so_links _ _ _ _ _ H23 f sp q i) as [Hp3 Ha3]; [| done .. |].
    + by eapply lookup_weaken, (so_sub _ _ _ _ _ H12).
    + split; [done | congruence].
  - intros r va Hr Hm. rewrite (so_leaves _ _ _ _ _ H23); [by apply (so_leaves _ _ _ _ _ H12) | | done].
    by eapply lookup_weaken, (so_sub _ _ _ _ _ H12).
  - intros a Ha. rewrite (so_data _ _ _ _ _ H23) by done. apply (so_data _ _ _ _ _ H12).
    intros sp q Hq. apply (Ha sp q). by eapply lookup_weaken, (so_sub _ _ _ _ _ H23).
  - destruct (so_statics _ _ _ _ _ H12) as (? & ? & ?), (so_statics _ _ _ _ _ H23) as (? & ? & ?).
    split_and!; congruence.
Qed.

(** Links that are kept lead to the same tables. *)
Lemma step_descend managed (s s' : Vmm A) (owner owner' : owner_map) (p : list Z) (t t' sp : Z) (q : list Z) :
  pt_inv s owner managed -> step_ok managed s owner s' owner' -> owner !! t = Some (sp, q) ->
  (length q + length p <= 3)%nat -> Forall index_ok p -> may_walk managed t q p ->
  descend (vm_mem s) t p = Some t' -> descend (vm_mem s') t p = Some t'.
Proof.
  intros Hi Hs. revert t sp q. induction p as [| i p IH]; intros t sp q Ht Hl Hp Hw Hd; simpl in *; [done |].
  apply Forall_cons in Hp as [Hix Hp]. destruct (present (entry (vm_mem s) t i)) eqn:Hpr; [| done].
  destruct (so_links _ _ _ _ _ Hs t sp q i) as [-> ->]; [done | lia | done | done |].
  eapply IH; [| | done | | exact Hd].
  - apply (inv_child _ _ _ Hi); [done | done | left; lia | by intros -> | done].
  - simpl. rewrite length_app. simpl. lia.
  - unfold may_walk. simpl. by destruct (q ++ [i]) eqn:E; [apply app_nil in E as [_ ?] |].
Qed.

(** ** Writing an entry *)

Definition with_mem (s : Vmm A) (m : PhysMem) : Vmm A :=
  mkVmm m (vm_frames s) (KERNEL_AS s) (MMIO_NEXT s) (CR3 s).
Definition with_frames (s : Vmm A) (fa : A) : Vmm A :=
  mkVmm (vm_mem s) fa (KERNEL_AS s) (MMIO_NEXT s) (CR3 s).

Definition same_link (e e' : Z) : Prop :=
  present e' = present e /\ (present e = true -> pte_addr e' = pte_addr e).

Lemma same_link_refl (e : Z) : same_link e e.
Proof. done. Qed.

Lemma pt_inv_same_links (s : Vmm A) (m' : PhysMem) (owner : owner_map) managed :
  pt_inv s owner managed -> mem_ok m' ->
  (forall f sp q i, owner !! f = Some (sp, q) -> (length q <= 3)%nat -> index_ok i ->
     same_link (entry (vm_mem s) f i) (entry m' f i)) ->
  pt_inv (with_mem s m') owner managed.
Proof.
  intros Hi Hm Hl. split; simpl; [done | apply Hi .. | |].
  - intros f sp p i Hf Hix Hlen Hmg Hp. destruct (Hl f sp p i) as [Hp' Ha]; [done | lia | done |].
    rewrite Hp in Hp'. rewrite Ha by done. by apply (inv_child _ _ _ Hi).
  - intros g sp p i Hg Hsp. pose proof (inv_len _ _ _ Hi _ _ _ Hg) as Hlen. rewrite length_app in Hlen. simpl in Hlen.
    destruct (inv_back _ _ _ Hi g sp p i Hg Hsp) as (f & Hf & Hix & Hp & <-).
    destruct (Hl f sp p i) as [Hp' Ha]; [done | lia | done |].
    exists f. split; [done |]. split; [done |]. split; [congruence | by apply Ha].
Qed.

Lemma descend_same_links (s : Vmm A) (m' : PhysMem) (owner : owner_map) managed (p : list Z) (t sp : Z) (q : list Z) :
  pt_inv s owner managed ->
  (forall f sp q i, owner !! f = Some (sp, q) -> (length q <= 2)%nat -> index_ok i ->
     same_link (entry (vm_mem s) f i) (entry m' f i)) ->
  owner !! t = Some (sp, q) -> (length q + length p <= 3)%nat -> Forall index_ok p ->
  may_walk managed t q p -> descend m' t p = descend (vm_mem s) t p.
Proof.
  intros Hi Hl. revert t sp q. induction p as [| i p IH]; intros t sp q Ht Hlen Hp Hw; simpl; [done |].
  apply Forall_cons in Hp as [Hix Hp]. simpl in Hlen.
  destruct (Hl t sp q i) as [Hp' Ha]; [done | lia | done |]. rewrite Hp'.
  destruct (present (entry (vm_mem s) t i)) eqn:Hpr; [| done]. rewrite Ha by done.
  eapply IH; [| | done |].
  - apply (inv_child _ _ _ Hi); [done | done | left; lia | by intros -> | done].
  - simpl. rewrite length_app. simpl. lia.
  - unfold may_walk. simpl. by destruct (q ++ [i]) eqn:E; [apply app_nil in E as [_ ?] |].
Qed.

Lemma root_walk (s : Vmm A) (owner : owner_map) managed (r va t : Z) :
  pt_inv s owner managed -> owner !! r = Some (r, []) -> managed r (pml4_idx va) = true ->
  descend (vm_mem s) r (path3 va) = Some t ->
  owner !! t = Some (foldl child_of (r, []) (path3 va)) /\ length (foldl child_of (r, []) (path3 va)).2 = 3%nat.
Proof.
  intros Hi Hr Hm Hd. split; [| by rewrite foldl_child_path].
  by eapply descend_owned; [exact Hi | exact Hr | simpl; lia | apply path3_ok | exact Hm | exact Hd].
Qed.

(** Rewriting the entry of a table of one of the three upper levels with the
    same target. *)
Lemma relink_ok managed (s : Vmm A) (owner : owner_map) (g k sp e' : Z) (q : list Z) :
  pt_inv s owner managed -> owner !! g = Some (sp, q) -> (length q <= 2)%nat -> index_ok k ->
  0 <= e' < 2 ^ 64 -> same_link (entry (vm_mem s) g k) e' ->
  step_ok managed s owner (with_mem s (write64 (vm_mem s) (slot g k) e')) owner.
Proof.
  intros Hi Hg Hq Hk He Hlink.
  assert (forall f o i, owner !! f = Some o -> index_ok i ->
            same_link (entry (vm_mem s) f i) (entry (write64 (vm_mem s) (slot g k) e') f i)) as Hl.
  { intros f o i Hf Hix. destruct (decide ((f, i) = (g, k))) as [[= -> ->] | Hne].
    - by rewrite entry_write_same.
    - rewrite entry_write_other; [done | | | done | done | done];
        [by apply (inv_frame _ _ _ Hi f o) | by apply (inv_frame _ _ _ Hi g (sp, q))]. }
  split; simpl; try done; try congruence.
  - apply pt_inv_same_links; [done | apply write64_mem_ok, Hi |]. intros f sp' q' i Hf _. by apply Hl with (sp', q').
  - intros f sp' q' i Hf _ Hix Hp. destruct (Hl f (sp', q') i) as [Hp' Ha]; [done .. |].
    split; [congruence | by apply Ha].
  - intros r va Hr Hmg. unfold leaf. erewrite (descend_same_links s _ owner managed (path3 va) r r []);
      [| done | intros f sp' q' i Hf _; by apply Hl with (sp', q') | done | simpl; lia | apply path3_ok | done].
    destruct (descend _ _ _) as [t |] eqn:Hd; [| done].
    destruct (root_walk s owner managed r va t) as [Ht Hlen]; [done .. |].
    rewrite entry_write_other; [done | | | apply pt_idx_ok | done |].
    + by apply (inv_frame _ _ _ Hi _ _ Ht).
    + by apply (inv_frame _ _ _ Hi _ _ Hg).
    + intros [= -> _]. rewrite Hg in Ht. apply (inj Some) in Ht. rewrite <- Ht in Hlen. simpl in Hlen. lia.
  - intros a Ha. apply write64_other. intros Hin%slot_in_frame; [| done].
    apply frame_of_in in Hin; [| by apply (inv_frame _ _ _ Hi _ _ Hg)]. rewrite Hin in Ha.
    pose proof (Ha _ _ Hg). lia.
Qed.

Lemma present_unused : present 0 = false.
Proof. unfold present. rewrite pte_flags_unused. apply contains_zero, ptf_present_nonzero. Qed.

(** ** Linking a fresh table *)

Section Fresh.
  Context (managed : Z -> Z -> bool) (s : Vmm A) (owner : owner_map) (fa' : A) (g k sp e c : Z) (q : list Z).
  Context (Hi : pt_inv s owner managed) (Hg : owner !! g = Some (sp, q)) (Hq : (length q <= 2)%nat)
    (Hk : index_ok k) (Habs : present (entry (vm_mem s) g k) = false)
    (Hfa : fa_ok fa') (Hc : frame_addr c) (Hav : fa_avail (vm_frames s) c)
    (Hav' : forall f, frame_addr f -> fa_avail fa' f <-> f <> c /\ fa_avail (vm_frames s) f)
    (Hram : forall f, fa_ram fa' f <-> fa_ram (vm_frames s) f)
    (He : 0 <= e < 2 ^ 64) (Hea : pte_addr e = c) (Hep : present e = true).

Definition fresh_mem : PhysMem := write64 (fill (vm_mem s) c PAGE_SIZE 0) (slot g k) e.
Definition fresh_state : Vmm A := with_mem (with_frames s fa') fresh_mem.
Definition fresh_owner : owner_map := <[c := child_of (sp, q) k]> owner.

Lemma fresh_not_owned : owner !! c = None.
Proof. destruct (owner !! c) as [o |] eqn:E; [| done]. by destruct (inv_frame _ _ _ Hi c o E) as [_ []]. Qed.

Lemma fresh_owned_ne (f : Z) (o : Z * list Z) : owner !! f = Some o -> f <> c.
Proof. intros Hf ->. by rewrite fresh_not_owned in Hf. Qed.

Lemma fresh_entry_new (i : Z) : index_ok i -> entry fresh_mem c i = 0.
Proof.
  intros Hix. unfold fresh_mem. rewrite entry_write_other; [by apply entry_fill_same | done | | done | done |].
  - by apply (inv_frame _ _ _ Hi g (sp, q)).
  - intros [= E _]. by apply (fresh_owned_ne g (sp, q)).
Qed.

Lemma fresh_entry_slot : entry fresh_mem g k = e.
Proof. by apply entry_write_same. Qed.

Lemma fresh_entry_other (f i : Z) (o : Z * list Z) :
  owner !! f = Some o -> index_ok i -> (f, i) <> (g, k) -> entry fresh_mem f i = entry (vm_mem s) f i.
Proof.
  intros Hf Hix Hne. pose proof (proj1 (inv_frame _ _ _ Hi f o Hf)).
  unfold fresh_mem. rewrite entry_write_other; [| done | | done | done | done].
  - apply entry_fill_other; [done .. |]. by eapply fresh_owned_ne.
  - by apply (inv_frame _ _ _ Hi g (sp, q)).
Qed.

Lemma fresh_entry_present (f i : Z) (o : Z * list Z) :
  owner !! f = Some o -> index_ok i -> present (entry (vm_mem s) f i) = true ->
  entry fresh_mem f i = entry (vm_mem s) f i.
Proof. intros Hf Hix Hp. apply fresh_entry_other with o; [done | done |]. intros [= -> ->]. congruence. Qed.

Lemma fresh_inv : pt_inv fresh_state fresh_owner managed.
Proof.
  assert (mem_ok fresh_mem) as Hm.
  { apply write64_mem_ok, fill_mem_ok; [apply Hi | unfold byte_ok; lia]. }
  split; simpl; [done | done | | | | |]; unfold fresh_owner.
  - intros f o [[<- _] | [Hne Hf]]%lookup_insert_Some; [split; [done |]; rewrite Hav' by done; tauto |].
    destruct (inv_frame _ _ _ Hi f o Hf). split; [done |]. rewrite Hav' by done. tauto.
  - intros f sp' p [[_ E] | [_ Hf]]%lookup_insert_Some; [| by apply (inv_len _ _ _ Hi f sp')].
    apply (f_equal snd) in E. simpl in E. rewrite <- E, length_app. simpl. lia.
  - intros f r [[_ E] | [_ Hf]]%lookup_insert_Some; [| by apply (inv_root _ _ _ Hi)].
    apply (f_equal snd), app_nil in E as [_ ?]. done.
  - intros f sp' p i [[<- _] | [Hne Hf]]%lookup_insert_Some Hix Hlen Hmg Hp.
    { rewrite fresh_entry_new, present_unused in Hp by done. done. }
    destruct (decide ((f, i) = (g, k))) as [[= -> ->] | Hne'].
    + rewrite fresh_entry_slot, Hea. assert ((sp', p) = (sp, q)) as -> by congruence. apply lookup_insert_eq.
    + rewrite (fresh_entry_other f i (sp', p)) in Hp |- * by done.
      pose proof (inv_child _ _ _ Hi f sp' p i Hf Hix Hlen Hmg Hp) as Hch.
      rewrite lookup_insert_ne; [done |]. intros E. by rewrite <- E, fresh_not_owned in Hch.
  - intros g' sp' p i [[<- E] | [Hne Hg']]%lookup_insert_Some Hsp.
    + assert (p = q /\ i = k) as [-> ->].
      { apply (f_equal snd) in E. simpl in E. by apply app_inj_tail in E as [-> ->]. }
      exists g. rewrite fresh_entry_slot. split; [| done]. rewrite lookup_insert_ne.
      * rewrite Hg. f_equal. f_equal. apply (f_equal fst) in E. unfold child_of in E. cbn [fst snd] in E.
        destruct q; [destruct (k <? 256); congruence | done].
      * intros E'. by apply (fresh_owned_ne g (sp, q)).
    + destruct (inv_back _ _ _ Hi g' sp' p i Hg' Hsp) as (f & Hf & Hix & Hp & Ha).
      exists f. rewrite (fresh_entry_present f i (sp', p)) by done. split; [| done].
      rewrite lookup_insert_ne; [done |]. intros <-. by rewrite fresh_not_owned in Hf.
Qed.

Lemma fresh_descend (p : list Z) (t sp' : Z) (q' : list Z) :
  owner !! t = Some (sp', q') -> (length q' + length p <= 3)%nat -> Forall index_ok p ->
  may_walk managed t q' p ->
  descend fresh_mem t p = descend (vm_mem s) t p \/
  descend (vm_mem s) t p = None /\ (descend fresh_mem t p = None \/ descend fresh_mem t p = Some c).
Proof.
  revert t sp' q'. induction p as [| i p IH]; intros t sp' q' Ht Hlen Hp Hw; simpl; [by left |].
  apply Forall_cons in Hp as [Hix Hp]. simpl in Hlen.
  destruct (decide ((t, i) = (g, k))) as [[= -> ->] | Hne].
  - rewrite Habs, fresh_entry_slot, Hep, Hea. right. split; [done |].
    destruct p as [| j p]; simpl; [by right | left].
    apply Forall_cons in Hp as [Hj _]. by rewrite fresh_entry_new, present_unused.
  - rewrite (fresh_entry_other t i (sp', q')) by done.
    destruct (present (entry (vm_mem s) t i)) eqn:Hpr; [| by left].
    eapply IH; [apply (inv_child _ _ _ Hi); [done | done | left; lia | by intros -> | done] | | done |].
    + simpl. rewrite length_app. simpl. lia.
    + unfold may_walk. simpl. by destruct (q' ++ [i]) eqn:E; [apply app_nil in E as [_ ?] |].
Qed.

Lemma fresh_leaf (r va : Z) :
  owner !! r = Some (r, []) -> managed r (pml4_idx va) = true -> leaf fresh_mem r va = leaf (vm_mem s) r va.
Proof.
  intros Hr Hmg. unfold leaf.
  destruct (fresh_descend (path3 va) r r []) as [-> | [-> [-> | ->]]];
    [done | simpl; lia | apply path3_ok | done | | done |].
  - destruct (descend (vm_mem s) r (path3 va)) as [t |] eqn:Hd; [| done].
    destruct (root_walk s owner managed r va t) as [Ht Hlen]; [done .. |].
    rewrite (fresh_entry_other t (pt_idx va) _ Ht); [done | apply pt_idx_ok |].
    intros [= -> _]. rewrite Hg in Ht. apply (inj Some) in Ht. rewrite <- Ht in Hlen. simpl in Hlen. lia.
  - by rewrite fresh_entry_new, present_unused by apply pt_idx_ok.
Qed.

Lemma fresh_step_ok : step_ok managed s owner fresh_state fresh_owner.
Proof.
  split; simpl; [apply fresh_inv | | | | done | | apply fresh_leaf | | done].
  - apply insert_subseteq, fresh_not_owned.
  - unfold fresh_owner. intros f o [[<- _] | [_ Hf]]%lookup_insert_Some Hn; [done | congruence].
  - intros f Hf. rewrite Hav' by done. tauto.
  - intros f sp' q' i Hf _ Hix Hp. by rewrite (fresh_entry_present f i (sp', q')).
  - intros a Ha. unfold fresh_mem.
    assert (forall f o, fresh_owner !! f = Some o -> (length o.2 <= 3)%nat -> ~ f <= a < f + PAGE_SIZE) as Hout.
    { intros f [sp' q'] Hf Hl Hin. rewrite (frame_of_in f a) in Ha;
        [| by apply (inv_frame _ _ _ fresh_inv f (sp', q')) | done].
      apply Ha in Hf. simpl in Hl. lia. }
    rewrite write64_other, fill_other; [done | |].
    + apply (Hout c (child_of (sp, q) k)); [apply lookup_insert_eq |]. simpl. rewrite length_app. simpl. lia.
    + intros Hin%slot_in_frame; [| done]. apply (Hout g (sp, q)) in Hin; [done | | simpl; lia].
      unfold fresh_owner. rewrite lookup_insert_ne; [done |]. intros E. by apply (fresh_owned_ne g (sp, q)).
Qed.
End Fresh.

(** ** [ensure_child] *)

Lemma ptf_flags_present (e f : Z) : present e = true -> contains (Z.lor (pte_flags e) f) PTF_PRESENT = true.
Proof. apply contains_lor_l. Qed.

Lemma ensure_child_ok managed (s : Vmm A) (owner : owner_map) (g k sp inter : Z) (q : list Z) :
  pt_inv s owner managed -> owner !! g = Some (sp, q) -> (length q <= 2)%nat -> index_ok k ->
  (q = [] -> managed g k = true) -> ptf_ok inter -> contains inter PTF_PRESENT = true ->
  exists res s' owner', ensure_child (slot g k) inter s = Ret (res, s') /\
    step_ok managed s owner s' owner' /\
    match res with
    | Ok c => owner' !! c = Some (child_of (sp, q) k) /\
              present (entry (vm_mem s') g k) = true /\ pte_addr (entry (vm_mem s') g k) = c
    | Err e => e = OutOfMemory /\ present (entry (vm_mem s) g k) = false /\
               forall f, frame_addr f -> ~ fa_avail (vm_frames s') f
    end.
Proof.
  intros Hi Hg Hq Hk Hmg Hok Hpr. unfold ensure_child.
  set (e := entry (vm_mem s) g k). pose proof (read64_range (vm_mem s) (slot g k) (inv_mem _ _ _ Hi)) as He.
  rewrite (st_bind_step _ _ s s e) by reflexivity. destruct (present e) eqn:Hpe.
  - set (u := Z.lor (pte_flags e) inter).
    assert (ptf_ok u) as Hu by (apply ptf_ok_lor; [by apply pte_flags_ok | done]).
    destruct (pte_set_flags_spec e u He Hu) as (Hr & Ha & Hf).
    destruct (Z.eqb_spec u (pte_flags e)) as [_ | _].
    + exists (Ok (pte_addr e)), s, owner. split; [done |]. split; [by apply step_ok_refl |].
      split; [| done]. by apply (inv_child _ _ _ Hi); [| | left | |].
    + exists (Ok (pte_addr e)), (with_mem s (write64 (vm_mem s) (slot g k) (pte_set_flags e u))), owner.
      split.
      { rewrite (st_bind_step _ _ s _ tt) by reflexivity. unfold st_bind, read_entry. simpl.
        by rewrite read_write64_same, Ha. }
      split.
      { apply (relink_ok managed s owner g k sp _ q); [done .. |].
        split; [| done]. fold e. rewrite Hpe. unfold present. rewrite Hf. by apply ptf_flags_present. }
      split; [by apply (inv_child _ _ _ Hi); [| | left | |] |]. simpl.
      rewrite entry_write_same, Ha by done. split; [| done]. unfold present. rewrite Hf. by apply ptf_flags_present.
  - destruct (fa_alloc_spec (vm_frames s) (inv_fa _ _ _ Hi)) as ([c |] & fa' & Hal & Hfa & Hram & Hres).
    + destruct Hres as (Hc & _ & _ & Hav & Hav').
      destruct (pte_set_addr_spec c inter Hc Hok) as (e' & Hset & He' & Hea & Hef).
      exists (Ok c), (fresh_state s fa' g k e' c), (fresh_owner owner k sp c q).
      assert (present e' = true) as Hep by (unfold present; by rewrite Hef).
      split.
      { unfold st_bind at 1. unfold vm_alloc. rewrite Hal. simpl.
        unfold st_bind, st_lift, set_mem, st_modify. simpl.
        rewrite (phys_addr_new_ok c (proj1 Hc)). simpl. by rewrite Hset. }
      split; [by apply fresh_step_ok |]. simpl. rewrite fresh_entry_slot by done.
      split; [apply lookup_insert_eq | done].
    + destruct Hres as [-> Hnone]. exists (Err OutOfMemory), s, owner. split.
      { unfold st_bind at 1, vm_alloc. rewrite Hal. by destruct s. }
      split; [by apply step_ok_refl | done].
Qed.
End Inv.
