(* ===== verification/VmmProps.v ===== *)
(** * Mapping and unmapping pages

    What [map_4k], [unmap_4k] and the routines built on them do to the
    translations of every address space, proved with the ownership invariant
    of [VmmInv.v]. *)

From S2P Require Import Prelude Bytes Frames X86 Vmm VmmInv.

#[local] Arguments child_of _ _ : simpl never.

Section Props.
  Context {A : Type} {FA : FrameAllocator A} {PE : PageTableEntry} {PL : PageTableEntryLaws}.
  Context (managed : Z -> Z -> bool).

Abbreviation pt_inv s owner := (VmmInv.pt_inv s owner managed).
Abbreviation step_ok := (VmmInv.step_ok managed).

(** A PML4 of the system with the top-level slot of [va] under management. *)
Definition space_ok (owner : owner_map) (r va : Z) : Prop :=
  owner !! r = Some (r, []) /\ managed r (pml4_idx va) = true.

Definition user_va (va : Z) : Prop := pml4_idx va < 256.

(** The frame may become a page of a user half. *)
Definition frame_ready (s : Vmm A) (owner : owner_map) (phys : Z) : Prop :=
  owner !! phys = None /\ ~ fa_avail (vm_frames s) phys.

(** [moves P D]: the pages of [P] may change translation, and frames of [D] may
    have become user pages; nothing else is affected but tables made from
    frames that were available. *)
Record moves (P : Z * list Z -> Prop) (D : Z -> Prop) (s : Vmm A) (owner : owner_map)
    (s' : Vmm A) (owner' : owner_map) : Prop := {
  mv_inv : pt_inv s' owner';
  mv_tables : forall f o, owner !! f = Some o -> (length o.2 <= 3)%nat -> owner' !! f = Some o;
  mv_pages : forall f o, length o.2 = 4%nat -> ~ P o -> owner !! f = Some o -> owner' !! f = Some o;
  mv_new : forall f o, owner' !! f = Some o -> owner !! f = None -> fa_avail (vm_frames s) f \/ D f;
  mv_avail : forall f, frame_addr f -> fa_avail (vm_frames s') f -> fa_avail (vm_frames s) f;
  mv_ram : forall f, fa_ram (vm_frames s') f <-> fa_ram (vm_frames s) f;
  mv_leaves : forall r va, space_ok owner r va -> ~ P (page_of r va) ->
    leaf (vm_mem s') r va = leaf (vm_mem s) r va;
  mv_descend : forall r va t, space_ok owner r va ->
    descend (vm_mem s) r (path3 va) = Some t -> descend (vm_mem s') r (path3 va) = Some t;
  mv_data : forall a, frame_addr (frame_of a) -> (forall o, owner' !! frame_of a = Some o -> length o.2 = 4%nat) ->
    ~ fa_avail (vm_frames s) (frame_of a) -> vm_mem s' a = vm_mem s a;
  mv_statics : KERNEL_AS s' = KERNEL_AS s /\ MMIO_NEXT s' = MMIO_NEXT s /\ CR3 s' = CR3 s
}.

(** Every address space of [owner] is one of [owner'], so that what the invariant
    says of [owner'] is said of all of them. *)
Definition spaces_kept (owner owner' : owner_map) : Prop := forall r, owner !! r = Some (r, []) -> owner' !! r = Some (r, []).

Lemma moves_spaces P D s owner s' owner' : moves P D s owner s' owner' -> spaces_kept owner owner'.
Proof. intros Hm r Hr. apply (mv_tables _ _ _ _ _ _ Hm); [done | simpl; lia]. Qed.

Lemma moves_refl P D (s : Vmm A) (owner : owner_map) : pt_inv s owner -> moves P D s owner s owner.
Proof. intros Hi. split; (done || congruence). Qed.

Lemma moves_weaken (P P' : Z * list Z -> Prop) (D D' : Z -> Prop) s owner s' owner' :
  (forall o, P o -> P' o) -> (forall f, D f -> D' f) ->
  moves P D s owner s' owner' -> moves P' D' s owner s' owner'.
Proof.
  intros HP HD Hm. split; [apply Hm .. | | | apply Hm | apply Hm | | apply Hm | apply Hm | apply Hm].
  - intros f o Hl HnP. apply (mv_pages _ _ _ _ _ _ Hm); [done |]. intros ?. by apply HnP, HP.
  - intros f o Hf Hn. destruct (mv_new _ _ _ _ _ _ Hm f o Hf Hn); [by left | right; by apply HD].
  - intros r va Hs Hn. apply (mv_leaves _ _ _ _ _ _ Hm); [done |]. intros ?. by apply Hn, HP.
Qed.

Lemma step_moves P D s owner s' owner' :
  pt_inv s owner -> step_ok s owner s' owner' -> moves P D s owner s' owner'.
Proof.
  intros Hi Hs. split; [apply Hs | | | | apply Hs | apply Hs | | | | apply Hs].
  - intros f o Hf _. by eapply lookup_weaken, (so_sub _ _ _ _ _ Hs).
  - intros f o _ _ Hf. by eapply lookup_weaken, (so_sub _ _ _ _ _ Hs).
  - intros f o Hf Hn. left. by apply (so_new _ _ _ _ _ Hs f o).
  - intros r va [Hr Hm] _. by apply (so_leaves _ _ _ _ _ Hs).
  - intros r va t [Hr Hm]. apply (step_descend managed s s' owner owner' (path3 va) r t r []);
      [done | done | done | simpl; lia | apply path3_ok | done].
  - intros a _ Ha _. apply (so_data _ _ _ _ _ Hs). intros sp q Hq. by apply (Ha (sp, q)).
Qed.

(** Frames of [D2] that the first step allocated need not be given. *)
Lemma moves_trans_gen P (D1 D2 : Z -> Prop) s1 o1 s2 o2 s3 o3 :
  (forall f, D2 f -> fa_avail (vm_frames s1) f \/ D1 f) ->
  moves P D1 s1 o1 s2 o2 -> moves P D2 s2 o2 s3 o3 -> moves P D1 s1 o1 s3 o3.
Proof.
  intros HD H12 H23. split; [apply H23 | | | | | | | | |].
  - intros f o Hf Hl. apply (mv_tables _ _ _ _ _ _ H23); [| done]. by apply (mv_tables _ _ _ _ _ _ H12).
  - intros f o Hl HP Hf. apply (mv_pages _ _ _ _ _ _ H23); [done | done |]. by apply (mv_pages _ _ _ _ _ _ H12).
  - intros f o Hf Hn. destruct (o2 !! f) as [o' |] eqn:E; [by apply (mv_new _ _ _ _ _ _ H12 f o') |].
    destruct (mv_new _ _ _ _ _ _ H23 f o Hf E) as [Ha | ?]; [left | by apply HD].
    apply (mv_avail _ _ _ _ _ _ H12); [| done].
    by apply (inv_frame _ _ _ (mv_inv _ _ _ _ _ _ H23) f o).
  - intros f Hf Ha. apply (mv_avail _ _ _ _ _ _ H12); [done |]. by apply (mv_avail _ _ _ _ _ _ H23).
  - intros f. by rewrite (mv_ram _ _ _ _ _ _ H23), (mv_ram _ _ _ _ _ _ H12).
  - intros r va [Hr Hm] HP. rewrite (mv_leaves _ _ _ _ _ _ H23); [by apply (mv_leaves _ _ _ _ _ _ H12) | | done].
    split; [| done]. apply (mv_tables _ _ _ _ _ _ H12); [done | simpl; lia].
  - intros r va t Hs Hd. apply (mv_descend _ _ _ _ _ _ H23); [| by apply (mv_descend _ _ _ _ _ _ H12)].
    destruct Hs as [Hr Hm]. split; [| done]. apply (mv_tables _ _ _ _ _ _ H12); [done | simpl; lia].
  - intros a Hfa Ha Hna.
    rewrite (mv_data _ _ _ _ _ _ H23); [apply (mv_data _ _ _ _ _ _ H12); [done | | done] | done | done |].
    + intros o Ho. pose proof (inv_len _ _ _ (mv_inv _ _ _ _ _ _ H12) (frame_of a) o.1 o.2) as Hl.
      rewrite <- surjective_pairing in Hl. specialize (Hl Ho).
      destruct (decide (length o.2 = 4%nat)); [done |].
      apply (mv_tables _ _ _ _ _ _ H23) in Ho; [by apply Ha | lia].
    + intros Hav. by apply Hna, (mv_avail _ _ _ _ _ _ H12).
  - destruct (mv_statics _ _ _ _ _ _ H12) as (? & ? & ?), (mv_statics _ _ _ _ _ _ H23) as (? & ? & ?).
    split_and!; congruence.
Qed.

Lemma moves_trans P D s1 o1 s2 o2 s3 o3 :
  moves P D s1 o1 s2 o2 -> moves P D s2 o2 s3 o3 -> moves P D s1 o1 s3 o3.
Proof. apply moves_trans_gen. by right. Qed.

(** ** Changing a last-level entry *)

Lemma page_of_child (r va : Z) : page_of r va = child_of (foldl child_of (r, []) (path3 va)) (pt_idx va).
Proof. unfold page_of. by rewrite foldl_app. Qed.

Lemma foldl_path3_length (r va : Z) : length (foldl child_of (r, []) (path3 va)).2 = 3%nat.
Proof. by rewrite foldl_child_path. Qed.

Lemma child_of_deep (o : Z * list Z) (i : Z) : o.2 <> [] -> child_of o i = (o.1, o.2 ++ [i]).
Proof. destruct o as [sp [| j q]]; done. Qed.

Lemma child_of_deep_inj (o o' : Z * list Z) (i i' : Z) :
  length o.2 = 3%nat -> length o'.2 = 3%nat -> child_of o i = child_of o' i' -> o = o' /\ i = i'.
Proof.
  destruct o as [sp [| j q]], o' as [sp' [| j' q']]; [done .. |]. intros _ _.
  unfold child_of. cbn [fst snd]. intros E. apply pair_equal_spec in E as [-> E].
  by apply app_inj_tail in E as [-> ->].
Qed.

Lemma page_of_user (r va : Z) : user_va va -> (page_of r va).1 = r.
Proof. intros Hu. rewrite page_of_space. by rewrite (proj2 (Z.ltb_lt _ _) Hu). Qed.

Lemma page_of_kernel (r va : Z) : ~ user_va va -> (page_of r va).1 = KSPACE.
Proof. intros Hu%Z.nlt_ge. rewrite page_of_space. by rewrite (proj2 (Z.ltb_ge _ _) Hu). Qed.

Section Leaf.
  Context (s : Vmm A) (owner : owner_map) (r va t e : Z).
  Context (Hi : pt_inv s owner) (Hr : space_ok owner r va) (Hd : descend (vm_mem s) r (path3 va) = Some t)
    (He : 0 <= e < 2 ^ 64).

Let o3 := foldl child_of (r, []) (path3 va).
Let m' := write64 (vm_mem s) (slot t (pt_idx va)) e.

Lemma leaf_table : owner !! t = Some o3 /\ frame_addr t.
Proof.
  destruct Hr as [Hr1 Hr2]. destruct (root_walk s owner managed r va t Hi Hr1 Hr2 Hd) as [Ht _].
  split; [done | by apply (inv_frame _ _ _ Hi _ _ Ht)].
Qed.

Lemma leaf_entry_other (f i : Z) (o : Z * list Z) :
  owner !! f = Some o -> index_ok i -> (f, i) <> (t, pt_idx va) -> entry m' f i = entry (vm_mem s) f i.
Proof.
  intros Hf Hix Hne. apply entry_write_other;
    [by apply (inv_frame _ _ _ Hi f o) | apply leaf_table | done | apply pt_idx_ok | done].
Qed.

Lemma leaf_descend (r' va' : Z) :
  space_ok owner r' va' -> descend m' r' (path3 va') = descend (vm_mem s) r' (path3 va').
Proof.
  intros [Hr1 Hr2].
  apply (descend_same_links s m' owner managed (path3 va') r' r' []);
    [done | | done | simpl; lia | apply path3_ok | done].
  intros f sp q i Hf Hq Hix. rewrite (leaf_entry_other f i (sp, q)); [done | done | done |].
  intros [= -> _]. destruct leaf_table as [Ht _]. rewrite Hf in Ht. apply (inj Some) in Ht.
  pose proof (foldl_path3_length r va) as Hl. fold o3 in Hl. rewrite <- Ht in Hl. simpl in Hl. lia.
Qed.

Lemma leaf_write_same : leaf m' r va = if present e then Some e else None.
Proof. unfold leaf. rewrite leaf_descend, Hd by done. unfold m'. by rewrite entry_write_same. Qed.

Lemma leaf_write_other (r' va' : Z) :
  space_ok owner r' va' -> page_of r' va' <> page_of r va -> leaf m' r' va' = leaf (vm_mem s) r' va'.
Proof.
  intros Hr' Hne. unfold leaf. rewrite leaf_descend by done.
  destruct (descend (vm_mem s) r' (path3 va')) as [t' |] eqn:Hd'; [| done].
  destruct (root_walk s owner managed r' va' t' Hi (proj1 Hr') (proj2 Hr') Hd') as [Ht' _].
  rewrite (leaf_entry_other t' (pt_idx va') _ Ht'); [done | apply pt_idx_ok |].
  intros [= -> E]. apply Hne. rewrite !page_of_child, E. f_equal.
  destruct leaf_table as [Ht _]. rewrite Ht in Ht'. by apply (inj Some) in Ht'.
Qed.

Lemma leaf_data (a : Z) :
  (forall o, owner !! frame_of a = Some o -> length o.2 = 4%nat) -> m' a = vm_mem s a.
Proof.
  intros Ha. apply write64_other. intros Hin%slot_in_frame; [| apply pt_idx_ok].
  destruct leaf_table as [Ht Hf]. apply frame_of_in in Hin; [| done]. rewrite Hin in Ha.
  apply Ha in Ht. unfold o3 in Ht. rewrite foldl_path3_length in Ht. done.
Qed.

(** The entry goes from absent to present. *)
Definition mapped_owner (phys : Z) : owner_map :=
  if decide (user_va va) then <[phys := page_of r va]> owner else owner.

Lemma map_leaf_inv (phys : Z) :
  present (entry (vm_mem s) t (pt_idx va)) = false -> present e = true -> pte_addr e = phys ->
  frame_addr phys -> (user_va va -> frame_ready s owner phys) ->
  pt_inv (with_mem s m') (mapped_owner phys).
Proof.
  intros Habs Hpe Hea Hph Hready. destruct leaf_table as [Ht Hft].
  assert (forall f i o, owner !! f = Some o -> index_ok i -> present (entry (vm_mem s) f i) = true ->
            entry m' f i = entry (vm_mem s) f i) as Hpres.
  { intros f i o Hf Hix Hp. apply (leaf_entry_other f i o); [done | done |]. intros [= -> ->]. congruence. }
  assert (forall f o, owner !! f = Some o -> mapped_owner phys !! f = Some o) as Hsub.
  { intros f o Hf. unfold mapped_owner. destruct (decide _) as [Hu |]; [| done].
    rewrite lookup_insert_ne; [done |]. intros <-. by rewrite (proj1 (Hready Hu)) in Hf. }
  assert (forall f o, mapped_owner phys !! f = Some o ->
            owner !! f = Some o \/ user_va va /\ f = phys /\ o = page_of r va) as Hinv.
  { intros f o. unfold mapped_owner. destruct (decide _) as [Hu |]; [| by left].
    intros [[<- <-] | [_ ?]]%lookup_insert_Some; [by right | by left]. }
  split; simpl; [apply write64_mem_ok, Hi | apply Hi | | | | |].
  - intros f o [Hf | (Hu & -> & _)]%Hinv; [by apply (inv_frame _ _ _ Hi f o) |].
    split; [done | by apply Hready].
  - intros f sp p [Hf | (_ & _ & E)]%Hinv; [by apply (inv_len _ _ _ Hi f sp) |].
    apply (f_equal snd) in E. rewrite page_of_path in E. simpl in E. by rewrite E.
  - intros f sp [Hf | (_ & _ & E)]%Hinv; [by apply (inv_root _ _ _ Hi) |].
    apply (f_equal snd) in E. by rewrite page_of_path in E.
  - intros f sp p i [Hf | (_ & _ & E)]%Hinv Hix Hlen Hmg Hp.
    2: { apply (f_equal snd) in E. rewrite page_of_path in E. simpl in E. rewrite E in Hlen. simpl in Hlen. lia. }
    destruct (decide ((f, i) = (t, pt_idx va))) as [[= -> ->] | Hne].
    + unfold m'. rewrite entry_write_same, Hea by done. rewrite Ht in Hf. apply (inj Some) in Hf.
      rewrite <- Hf. unfold o3. rewrite <- page_of_child. unfold mapped_owner. destruct (decide _) as [Hu | Hu]; [apply lookup_insert_eq |].
      exfalso. pose proof (page_of_kernel r va Hu) as E. rewrite page_of_child in E. fold o3 in E. rewrite Hf in E.
      pose proof (foldl_path3_length r va) as Hl. fold o3 in Hl. rewrite Hf in Hl. simpl in Hl.
      rewrite child_of_deep in E by (intros E'; simpl in E'; by rewrite E' in Hl). simpl in E. lia.
    + rewrite (leaf_entry_other f i (sp, p)) in Hp |- * by done. apply Hsub.
      by apply (inv_child _ _ _ Hi).
  - intros g sp p i [Hg | (Hu & -> & E)]%Hinv Hsp.
    + destruct (inv_back _ _ _ Hi g sp p i Hg Hsp) as (f & Hf & Hix & Hp & Ha).
      exists f. rewrite (Hpres f i (sp, p)) by done. split; [by apply Hsub | done].
    + rewrite page_of_child in E. fold o3 in E. pose proof (foldl_path3_length r va) as Hl. fold o3 in Hl.
      rewrite child_of_deep in E by (intros E'; by rewrite E' in Hl).
      apply pair_equal_spec in E as [-> E]. apply app_inj_tail in E as [-> ->].
      exists t. split; [apply Hsub; rewrite Ht; by destruct o3 |].
      split; [apply pt_idx_ok |]. unfold m'. by rewrite entry_write_same.
Qed.

Lemma map_leaf_moves (phys : Z) :
  present (entry (vm_mem s) t (pt_idx va)) = false -> present e = true -> pte_addr e = phys ->
  frame_addr phys -> (user_va va -> frame_ready s owner phys) ->
  moves (eq (page_of r va)) (eq phys) s owner (with_mem s m') (mapped_owner phys).
Proof.
  intros Habs Hpe Hea Hph Hready.
  assert (forall f o, owner !! f = Some o -> mapped_owner phys !! f = Some o) as Hsub.
  { intros f o Hf. unfold mapped_owner. destruct (decide _) as [Hu |]; [| done].
    rewrite lookup_insert_ne; [done |]. intros <-. by rewrite (proj1 (Hready Hu)) in Hf. }
  split; simpl; [by apply map_leaf_inv | auto | auto | | done | done | | | | done].
  - intros f o Hf Hn. right. unfold mapped_owner in Hf. destruct (decide _); [| congruence].
    apply lookup_insert_Some in Hf as [[-> _] | [_ ?]]; [done | congruence].
  - intros r' va' Hs Hne. apply leaf_write_other; [done |]. intros E. by destruct Hne.
  - intros r' va' t' Hs <-. by apply leaf_descend.
  - intros a _ Ha _. apply leaf_data. intros o Ho. by apply Ha, Hsub.
Qed.

(** The entry is cleared. *)
Definition unmapped_owner (phys : Z) : owner_map :=
  if decide (user_va va) then delete phys owner else owner.
End Leaf.

Lemma leaf_owner (s : Vmm A) (owner : owner_map) (r va e : Z) :
  pt_inv s owner -> space_ok owner r va -> user_va va -> leaf (vm_mem s) r va = Some e ->
  owner !! pte_addr e = Some (page_of r va).
Proof.
  intros Hi [Hr Hm] Hu. unfold leaf. destruct (descend _ _ _) as [t |] eqn:Hd; [| done].
  destruct (present _) eqn:Hp; [| done]. intros [= <-].
  destruct (root_walk s owner managed r va t Hi Hr Hm Hd) as [Ht Hl].
  rewrite page_of_child. pose proof (page_of_user r va Hu) as Hsp. rewrite page_of_child in Hsp.
  destruct (foldl child_of (r, []) (path3 va)) as [sp q]. simpl in Hl.
  assert (q <> []) as Hq by (intros ->; done).
  apply (inv_child _ _ _ Hi); [done | apply pt_idx_ok | | by intros -> | done].
  right. split; [done |]. rewrite child_of_deep in Hsp by done. simpl in Hsp. subst sp.
  pose proof (proj1 (inv_frame _ _ _ Hi _ _ Hr)) as [? _]. unfold KSPACE. lia.
Qed.

Section Unmap.
  Context (s : Vmm A) (owner : owner_map) (r va t : Z).
  Context (Hi : pt_inv s owner) (Hr : space_ok owner r va) (Hd : descend (vm_mem s) r (path3 va) = Some t)
    (Hp : present (entry (vm_mem s) t (pt_idx va)) = true).

Let phys := pte_addr (entry (vm_mem s) t (pt_idx va)).
Let m' := write64 (vm_mem s) (slot t (pt_idx va)) 0.
Let owner' := unmapped_owner owner va phys.

Lemma unmap_leaf : leaf (vm_mem s) r va = Some (entry (vm_mem s) t (pt_idx va)).
Proof. unfold leaf. by rewrite Hd, Hp. Qed.

(** Only the cleared slot pointed at a frame that loses its owner. *)
Lemma unmap_unique (f i : Z) (o : Z * list Z) :
  user_va va -> owner !! f = Some o -> length o.2 = 3%nat -> owner !! phys = Some (child_of o i) ->
  (f, i) = (t, pt_idx va).
Proof.
  intros Hu Hf Hl Hph. pose proof (leaf_owner s owner r va _ Hi Hr Hu unmap_leaf) as Ho. fold phys in Ho.
  rewrite Ho in Hph. apply (inj Some) in Hph. rewrite page_of_child in Hph.
  apply child_of_deep_inj in Hph as [E <-]; [| apply foldl_path3_length | done]. f_equal.
  destruct (leaf_table s owner r va t Hi Hr Hd) as [Ht _]. rewrite E in Ht.
  pose proof (page_of_user r va Hu) as Hsp. rewrite page_of_child, E in Hsp.
  rewrite child_of_deep in Hsp by (intros E'; by rewrite E' in Hl). simpl in Hsp.
  apply (owner_inj s owner managed f t o.1 o.2 Hi); [| by rewrite <- surjective_pairing ..].
  pose proof (proj1 (inv_frame _ _ _ Hi _ _ (proj1 Hr))) as [? _]. rewrite Hsp. unfold KSPACE. lia.
Qed.

Lemma unmapped_sub (f : Z) (o : Z * list Z) : owner' !! f = Some o -> owner !! f = Some o.
Proof.
  unfold owner', unmapped_owner. destruct (decide _); [| done].
  by intros [_ ?]%lookup_delete_Some.
Qed.

Lemma unmapped_keeps (f : Z) (o : Z * list Z) :
  owner !! f = Some o -> o <> page_of r va -> owner' !! f = Some o.
Proof.
  intros Hf Hne. unfold owner', unmapped_owner. destruct (decide _) as [Hu |]; [| done].
  rewrite lookup_delete_ne; [done |]. intros <-.
  pose proof (leaf_owner s owner r va _ Hi Hr Hu unmap_leaf) as Ho. fold phys in Ho. congruence.
Qed.

Lemma unmap_leaf_inv : pt_inv (with_mem s m') owner'.
Proof.
  destruct (leaf_table s owner r va t Hi Hr Hd) as [Ht Hft].
  split; simpl; [apply write64_mem_ok, Hi | apply Hi | | | | |].
  - intros f o Hf%unmapped_sub. by apply (inv_frame _ _ _ Hi f o).
  - intros f sp p Hf%unmapped_sub. by apply (inv_len _ _ _ Hi f sp).
  - intros f sp Hf%unmapped_sub. by apply (inv_root _ _ _ Hi).
  - intros f sp p i Hf%unmapped_sub Hix Hlen Hmg Hpr.
    destruct (decide ((f, i) = (t, pt_idx va))) as [[= -> ->] | Hne].
    { unfold m' in Hpr. rewrite entry_write_same in Hpr by lia. by rewrite present_unused in Hpr. }
    unfold m' in *. rewrite (leaf_entry_other s owner r va t 0 Hi Hr Hd f i (sp, p)) in Hpr |- * by done.
    pose proof (inv_child _ _ _ Hi f sp p i Hf Hix Hlen Hmg Hpr) as Hc.
    unfold owner', unmapped_owner. destruct (decide _) as [Hu |]; [| done].
    rewrite lookup_delete_ne; [done |]. intros E. rewrite <- E in Hc.
    pose proof (leaf_owner s owner r va _ Hi Hr Hu unmap_leaf) as Ho. fold phys in Ho.
    rewrite Ho in Hc. assert (length p = 3%nat).
    { apply (inj Some), (f_equal snd), (f_equal length) in Hc. rewrite page_of_path in Hc. simpl in Hc.
      rewrite length_app in Hc. simpl in Hc. lia. }
    apply Hne, (unmap_unique f i (sp, p)); [done .. |]. by rewrite Ho.
  - intros g sp p i Hg Hsp. pose proof (unmapped_sub _ _ Hg) as Hg'.
    destruct (inv_back _ _ _ Hi g sp p i Hg' Hsp) as (f & Hf & Hix & Hpr & Ha).
    assert ((f, i) <> (t, pt_idx va)) as Hne.
    { intros [= -> ->]. unfold owner', unmapped_owner in Hg. fold phys in Ha. subst g.
      destruct (decide _) as [Hu | Hu]; [by rewrite lookup_delete_eq in Hg |].
      rewrite Ht in Hf. apply (inj Some) in Hf.
      pose proof (page_of_kernel r va Hu) as E. rewrite page_of_child, Hf in E.
      pose proof (foldl_path3_length r va) as Hl. rewrite Hf in Hl.
      rewrite child_of_deep in E by (intros E'; by rewrite E' in Hl). done. }
    exists f. unfold m'. rewrite (leaf_entry_other s owner r va t 0 Hi Hr Hd f i (sp, p)) by done.
    split; [| done]. apply unmapped_keeps; [done |]. intros E. apply (f_equal snd) in E.
    rewrite page_of_path in E. simpl in E. pose proof (inv_len _ _ _ Hi g sp _ Hg') as Hl.
    rewrite length_app, E in Hl. simpl in Hl. lia.
Qed.

Lemma unmap_leaf_moves (D : Z -> Prop) : moves (eq (page_of r va)) D s owner (with_mem s m') owner'.
Proof.
  split; simpl; [apply unmap_leaf_inv | | | | done | done | | | | done].
  - intros f o Hf Hl. apply unmapped_keeps; [done |]. intros ->. rewrite page_of_path in Hl. simpl in Hl. lia.
  - intros f o _ HP Hf. apply unmapped_keeps; [done |]. intros E. by apply HP.
  - intros f o Hf%unmapped_sub Hn. congruence.
  - intros r' va' Hs Hne. apply (leaf_write_other s owner r va t 0 Hi Hr Hd); [done |]. intros E. by destruct Hne.
  - intros r' va' t' Hs <-. by apply (leaf_descend s owner r va t 0 Hi Hr Hd).
  - intros a _ Ha _. apply (leaf_data s owner r va t 0 Hi Hr Hd). intros o Ho.
    destruct (decide (o = page_of r va)) as [-> |]; [by rewrite page_of_path | by apply Ha, unmapped_keeps].
Qed.

Lemma unmap_released : user_va va -> owner' !! phys = None.
Proof.
  intros Hu. unfold owner', unmapped_owner. destruct (decide _); [apply lookup_delete_eq | done].
Qed.
End Unmap.

(** ** [map_4k] *)

Lemma intermediate_flags_ok (fl : Z) : ptf_ok (intermediate_flags fl).
Proof.
  unfold intermediate_flags. destruct (contains _ _);
    repeat apply ptf_ok_lor; (apply ptf_present_ok || apply ptf_writable_ok || apply ptf_user_ok).
Qed.

Lemma intermediate_flags_present (fl : Z) : contains (intermediate_flags fl) PTF_PRESENT = true.
Proof.
  unfold intermediate_flags. destruct (contains fl _); repeat apply contains_lor_l; apply contains_refl.
Qed.

Lemma leaf_flags_ok (fl : Z) : ptf_ok (leaf_flags fl).
Proof.
  unfold leaf_flags. destruct (contains fl MF_WRITE), (contains fl MF_USER), (contains fl MF_NX), (contains fl MF_MMIO);
    repeat apply ptf_ok_lor;
    (apply ptf_present_ok || apply ptf_writable_ok || apply ptf_user_ok || apply ptf_no_execute_ok
     || apply ptf_no_cache_ok || apply ptf_write_through_ok).
Qed.

Lemma leaf_flags_present (fl : Z) : contains (leaf_flags fl) PTF_PRESENT = true.
Proof.
  unfold leaf_flags. destruct (contains fl MF_WRITE), (contains fl MF_USER), (contains fl MF_NX), (contains fl MF_MMIO);
    repeat apply contains_lor_l; apply contains_refl.
Qed.

Lemma step_descend_None (s s' : Vmm A) (owner owner' : owner_map) (r va : Z) :
  pt_inv s owner -> step_ok s owner s' owner' -> space_ok owner r va ->
  descend (vm_mem s') r (path3 va) = None -> descend (vm_mem s) r (path3 va) = None.
Proof.
  intros Hi Hs [Hr Hm] Hn. destruct (descend (vm_mem s) r (path3 va)) as [t |] eqn:Hd; [| done].
  erewrite step_descend in Hn; [done | exact Hi | exact Hs | exact Hr | simpl; lia | apply path3_ok | done | exact Hd].
Qed.

(** The three [ensure_child] calls of [map_4k], then [k]. *)
Lemma ensure_tables_ok {X : Type} (s : Vmm A) (owner : owner_map) (r va inter : Z) (k : Z -> VM (result X MapError)) :
  pt_inv s owner -> space_ok owner r va -> ptf_ok inter -> contains inter PTF_PRESENT = true ->
  let run := let? pdpt := ensure_child (slot r (pml4_idx va)) inter in
             let? pd := ensure_child (slot pdpt (pdpt_idx va)) inter in
             let? pt := ensure_child (slot pd (pd_idx va)) inter in k pt in
  exists s' owner', step_ok s owner s' owner' /\
    (run s = Ret (Err OutOfMemory, s') /\ descend (vm_mem s) r (path3 va) = None /\
       (forall f, frame_addr f -> ~ fa_avail (vm_frames s') f) \/
     exists t, descend (vm_mem s') r (path3 va) = Some t /\ run s = k t s').
Proof.
  intros Hi [Hr Hm] Hok Hpr run. pose proof (path3_ok va) as Hp. unfold path3 in Hp.
  apply Forall_cons in Hp as [H4 Hp]. apply Forall_cons in Hp as [H3 Hp]. apply Forall_cons in Hp as [H2 _].
  destruct (ensure_child_ok managed s owner r (pml4_idx va) r inter []) as ([c1 | e1] & s1 & o1 & E1 & S1 & R1);
    [done | done | simpl; lia | done | done | done | done | |].
  2: { destruct R1 as (-> & Hn & ?). exists s1, o1. split; [done |]. left.
       split; [apply (st_try_Err _ _ _ _ _ E1) |]. split; [| done]. unfold path3. cbn [descend]. by rewrite Hn. }
  destruct R1 as (Hc1 & P1 & A1).
  destruct (ensure_child_ok managed s1 o1 c1 (pdpt_idx va) (child_of (r, []) (pml4_idx va)).1 inter [pml4_idx va])
    as ([c2 | e2] & s2 & o2 & E2 & S2 & R2);
    [apply S1 | done | simpl; lia | done | done | done | done | |].
  2: { destruct R2 as (-> & Hn & ?). exists s2, o2. split; [by eapply step_ok_trans |]. left.
       split; [unfold run; rewrite (st_try_Ok _ _ _ _ _ E1); apply (st_try_Err _ _ _ _ _ E2) |]. split; [| done].
       apply (step_descend_None s s1 owner o1 r va); [done | done | by split |].
       unfold path3. cbn [descend]. by rewrite P1, A1, Hn. }
  destruct R2 as (Hc2 & P2 & A2).
  destruct (ensure_child_ok managed s2 o2 c2 (pd_idx va) (child_of (r, []) (pml4_idx va)).1 inter [pml4_idx va; pdpt_idx va])
    as ([c3 | e3] & s3 & o3 & E3 & S3 & R3);
    [apply S2 | done | simpl; lia | done | done | done | done | |].
  2: { destruct R3 as (-> & Hn & ?). exists s3, o3. split; [by eapply step_ok_trans, step_ok_trans |]. left.
       split; [unfold run; rewrite (st_try_Ok _ _ _ _ _ E1), (st_try_Ok _ _ _ _ _ E2);
               apply (st_try_Err _ _ _ _ _ E3) |]. split; [| done].
       apply (step_descend_None s s2 owner o2 r va); [done | by eapply step_ok_trans | by split |].
       destruct (so_links _ _ _ _ _ S2 r r [] (pml4_idx va)) as [P1' A1'];
         [by eapply lookup_weaken, (so_sub _ _ _ _ _ S1) | simpl; lia | done | done |].
       unfold path3. cbn [descend]. by rewrite P1', A1', A1, P2, A2, Hn. }
  destruct R3 as (Hc3 & P3 & A3).
  exists s3, o3. split; [by eapply step_ok_trans, step_ok_trans |]. right. exists c3. split.
  - pose proof (step_ok_trans _ _ _ _ _ _ _ S2 S3) as S23.
    destruct (so_links _ _ _ _ _ S23 r r [] (pml4_idx va)) as [P1' A1'];
      [by eapply lookup_weaken, (so_sub _ _ _ _ _ S1) | simpl; lia | done | done |].
    destruct (so_links _ _ _ _ _ S3 c1 (child_of (r, []) (pml4_idx va)).1 [pml4_idx va] (pdpt_idx va)) as [P2' A2'];
      [by eapply lookup_weaken, (so_sub _ _ _ _ _ S2) | simpl; lia | done | done |].
    unfold path3. cbn [descend]. rewrite P1', A1', A1, P2', A2', A2, P3, A3. done.
  - unfold run. by rewrite (st_try_Ok _ _ _ _ _ E1), (st_try_Ok _ _ _ _ _ E2), (st_try_Ok _ _ _ _ _ E3).
Qed.

Lemma frame_ready_step (s s' : Vmm A) (owner owner' : owner_map) (phys : Z) :
  step_ok s owner s' owner' -> frame_addr phys -> frame_ready s owner phys -> frame_ready s' owner' phys.
Proof.
  intros Hs Hph [Hn Ha]. split.
  - destruct (owner' !! phys) as [o |] eqn:E; [| done]. exfalso. by apply Ha, (so_new _ _ _ _ _ Hs phys o).
  - intros Hav. by apply Ha, (so_avail _ _ _ _ _ Hs).
Qed.

Lemma space_ok_step (s s' : Vmm A) (owner owner' : owner_map) (r va : Z) :
  step_ok s owner s' owner' -> space_ok owner r va -> space_ok owner' r va.
Proof. intros Hs [Hr Hm]. split; [| done]. by eapply lookup_weaken, (so_sub _ _ _ _ _ Hs). Qed.

Lemma space_ok_moves P D (s s' : Vmm A) (owner owner' : owner_map) (r va : Z) :
  moves P D s owner s' owner' -> space_ok owner r va -> space_ok owner' r va.
Proof. intros Hs [Hr Hm]. split; [| done]. apply (mv_tables _ _ _ _ _ _ Hs); [done | simpl; lia]. Qed.

Lemma land_fff (x : Z) : Z.land x 0xFFF = x mod 4096.
Proof. change 0xFFF with (Z.ones 12). by rewrite Z.land_ones. Qed.

(** What the result of [map_4k] means. *)
Definition map_result (s : Vmm A) (owner : owner_map) (s' : Vmm A) (owner' : owner_map)
    (r va phys fl : Z) (res : result unit MapError) : Prop :=
  match res with
  | Ok _ => va mod 4096 = 0 /\ phys mod 4096 = 0 /\ leaf (vm_mem s) r va = None /\
      exists e, leaf (vm_mem s') r va = Some e /\ pte_addr e = phys /\ pte_flags e = leaf_flags fl
  | Err Misaligned => (va mod 4096 <> 0 \/ phys mod 4096 <> 0) /\ s' = s /\ step_ok s owner s' owner'
  | Err AlreadyMapped => is_Some (leaf (vm_mem s) r va) /\ step_ok s owner s' owner'
  | Err OutOfMemory => descend (vm_mem s) r (path3 va) = None /\
      (forall f, frame_addr f -> ~ fa_avail (vm_frames s') f) /\ step_ok s owner s' owner'
  | Err NoVirtualSpace => False
  end.

Lemma map_4k_ok (s : Vmm A) (owner : owner_map) (r va phys fl : Z) :
  pt_inv s owner -> space_ok owner r va -> 0 <= phys < 2 ^ 52 ->
  (user_va va -> frame_ready s owner phys) ->
  exists res s' owner', map_4k r va phys fl s = Ret (res, s') /\
    moves (eq (page_of r va)) (eq phys) s owner s' owner' /\
    map_result s owner s' owner' r va phys fl res.
Proof.
  intros Hi Hr Hph Hready. unfold map_4k. rewrite !land_fff.
  destruct (Z.eqb_spec (va mod 4096) 0) as [Hva | Hva]; cbn [negb orb].
  2: { exists (Err Misaligned), s, owner. split; [done |]. split; [by apply moves_refl |].
       split; [by left |]. split; [done | by apply step_ok_refl]. }
  destruct (Z.eqb_spec (phys mod 4096) 0) as [Hpm | Hpm]; cbn [negb].
  2: { exists (Err Misaligned), s, owner. split; [done |]. split; [by apply moves_refl |].
       split; [by right |]. split; [done | by apply step_ok_refl]. }
  assert (frame_addr phys) as Hfa by done.
  match goal with |- context [let? pdpt := _ in let? pd := _ in let? pt := _ in @?k pt] =>
    destruct (ensure_tables_ok s owner r va (intermediate_flags fl) k)
      as (s1 & o1 & Hs1 & [(Hrun & Hnone & Hno) | (t & Hd & Hrun)]);
      [done | done | apply intermediate_flags_ok | apply intermediate_flags_present | |] end.
  - exists (Err OutOfMemory), s1, o1. split; [done |]. split; [by apply step_moves | done].
  - rewrite Hrun. clear Hrun. pose proof (so_inv _ _ _ _ _ Hs1) as Hi1.
    pose proof (space_ok_step _ _ _ _ _ _ Hs1 Hr) as Hr1.
    pose proof (so_leaves _ _ _ _ _ Hs1 r va (proj1 Hr) (proj2 Hr)) as Hl.
    set (e := entry (vm_mem s1) t (pt_idx va)).
    rewrite (st_bind_step _ _ s1 s1 e) by reflexivity. destruct (present e) eqn:Hp.
    + exists (Err AlreadyMapped), s1, o1. split; [done |]. split; [by apply step_moves |].
      split; [| done]. rewrite <- Hl. unfold leaf. rewrite Hd. fold e. rewrite Hp. by exists e.
    + destruct (pte_set_addr_spec phys (leaf_flags fl) Hfa (leaf_flags_ok fl)) as (e' & Hset & He' & Hea & Hef).
      assert (present e' = true) as Hpe by (unfold present; rewrite Hef; apply leaf_flags_present).
      eexists (Ok tt), _, (mapped_owner o1 r va phys). split.
      { unfold st_bind, st_lift. rewrite (phys_addr_new_ok phys Hph). simpl. rewrite Hset. reflexivity. }
      split.
      { eapply moves_trans; [by apply step_moves |].
        apply (map_leaf_moves s1 o1 r va t e' Hi1 Hr1 Hd He' phys Hp Hpe Hea Hfa).
        intros Hu. eapply frame_ready_step; [exact Hs1 | done | auto]. }
      split; [done |]. split; [done |]. split.
      { rewrite <- Hl. unfold leaf. rewrite Hd. fold e. by rewrite Hp. }
      exists e'. split; [| done]. simpl.
      pose proof (leaf_write_same s1 o1 r va t e' Hi1 Hr1 Hd He') as Hw. by rewrite Hpe in Hw.
Qed.

(** ** [unmap_4k] *)

Lemma unmap_4k_ok (s : Vmm A) (owner : owner_map) (r va : Z) :
  pt_inv s owner -> space_ok owner r va -> canonical va ->
  exists res s' owner', unmap_4k r va s = Ret (res, s') /\
    moves (eq (page_of r va)) (fun _ => False) s owner s' owner' /\
    leaf (vm_mem s') r va = None /\
    match res with
    | Some phys => (exists e, leaf (vm_mem s) r va = Some e /\ pte_addr e = phys) /\
                   vm_frames s' = vm_frames s /\ (user_va va -> frame_ready s' owner' phys)
    | None => leaf (vm_mem s) r va = None /\ s' = s /\ owner' = owner
    end.
Proof.
  intros Hi Hr Hca. unfold unmap_4k, child_mut.
  destruct (descend (vm_mem s) r (path3 va)) as [t |] eqn:Hd.
  - pose proof Hd as Hd'. unfold path3 in Hd'. cbn [descend] in Hd'. unfold st_bind, read_entry, st_ret.
    cbn [obind]. change (read64 (vm_mem s) (slot r (pml4_idx va))) with (entry (vm_mem s) r (pml4_idx va)).
    destruct (present (entry _ r _)); [| done]. set (t1 := pte_addr _) in *.
    change (read64 (vm_mem s) (slot t1 (pdpt_idx va))) with (entry (vm_mem s) t1 (pdpt_idx va)).
    destruct (present (entry _ t1 _)); [| done]. set (t2 := pte_addr (entry _ t1 _)) in *.
    change (read64 (vm_mem s) (slot t2 (pd_idx va))) with (entry (vm_mem s) t2 (pd_idx va)).
    destruct (present (entry _ t2 _)); [| done]. injection Hd' as ->.
    change (read64 (vm_mem s) (slot t (pt_idx va))) with (entry (vm_mem s) t (pt_idx va)).
    destruct (present (entry _ t _)) eqn:Hp; cbn [negb].
    + unfold st_lift. rewrite (virt_addr_new_ok va Hca). cbn [obind].
      eexists (Some _), _, (unmapped_owner owner va (pte_addr (entry (vm_mem s) t (pt_idx va)))).
      split; [reflexivity |]. split; [by apply unmap_leaf_moves |].
      pose proof (leaf_write_same s owner r va t 0 Hi Hr Hd ltac:(lia)) as Hw. rewrite present_unused in Hw.
      split; [exact Hw |].
      split; [exists (entry (vm_mem s) t (pt_idx va)); split; [by apply unmap_leaf | done] |].
      split; [done |]. intros Hu. split; [by apply unmap_released |].
      simpl. pose proof (leaf_owner s owner r va _ Hi Hr Hu (unmap_leaf s r va t Hd Hp)) as Ho.
      by apply (inv_frame _ _ _ Hi _ _ Ho).
    + exists None, s, owner. assert (leaf (vm_mem s) r va = None) by (unfold leaf; by rewrite Hd, Hp).
      split; [done |]. split; [by apply moves_refl | done].
  - exists None, s, owner. assert (leaf (vm_mem s) r va = None) by (unfold leaf; by rewrite Hd).
    split; [| split; [by apply moves_refl | done]].
    unfold path3 in Hd. cbn [descend] in Hd. unfold st_bind, read_entry, st_ret, entry in *. cbn [obind].
    destruct (present (read64 _ (slot r _))); [| done]. set (t1 := pte_addr _) in *.
    destruct (present (read64 _ (slot t1 _))); [| done]. set (t2 := pte_addr (read64 _ (slot t1 _))) in *.
    by destruct (present (read64 _ (slot t2 _))).
Qed.
End Props.
