(* ===== verification/VmmRanges.v ===== *)
(** * Ranges of pages

    [map_anon], [steal_pages], [install_pages], [copy_to_user] and
    [find_user_vm_range] on the user half of an address space. *)

From S2P Require Import Prelude Bytes Frames X86 Vmm VmmInv VmmProps.

#[local] Arguments child_of _ _ : simpl never.

(** ** Addresses and indices *)

Lemma idx_div (v k : Z) : 0 <= k -> Z.land (Z.shiftr v k) 0x1FF = v / 2 ^ k mod 512.
Proof. intros Hk. change 0x1FF with (Z.ones 9). rewrite Z.land_ones, Z.shiftr_div_pow2 by lia. done. Qed.

Lemma pml4_idx_user (v : Z) : 0 <= v < 2 ^ 47 -> 0 <= pml4_idx v < 256.
Proof.
  intros Hv. unfold pml4_idx. rewrite idx_div by lia. pose proof (Z.mod_pos_bound (v / 2 ^ 39) 512).
  assert (0 <= v / 2 ^ 39 < 256) by (split; [apply Z.div_pos; lia | apply Z.div_lt_upper_bound; lia]).
  rewrite Z.mod_small; lia.
Qed.

(** The page number from the four indices. *)
Lemma page_number (v : Z) : 0 <= v < 2 ^ 47 ->
  v / 4096 = pt_idx v + 512 * (pd_idx v + 512 * (pdpt_idx v + 512 * pml4_idx v)).
Proof.
  intros Hv. unfold pt_idx, pd_idx, pdpt_idx, pml4_idx. rewrite !idx_div by lia.
  set (n := v / 4096). change (v / 2 ^ 12) with n.
  assert (v / 2 ^ 21 = n / 512) as -> by (unfold n; rewrite Z.div_div by lia; done).
  assert (v / 2 ^ 30 = n / 512 / 512) as -> by (unfold n; rewrite !Z.div_div by lia; done).
  assert (v / 2 ^ 39 = n / 512 / 512 / 512) as -> by (unfold n; rewrite !Z.div_div by lia; done).
  assert (0 <= n < 2 ^ 35) by (unfold n; split; [apply Z.div_pos; lia | apply Z.div_lt_upper_bound; lia]).
  rewrite (Z.mod_small (n / 512 / 512 / 512)); cycle 1.
  { rewrite !Z.div_div by lia. split; [apply Z.div_pos; lia | apply Z.div_lt_upper_bound; lia]. }
  pose proof (Z.div_mod n 512). pose proof (Z.div_mod (n / 512) 512). pose proof (Z.div_mod (n / 512 / 512) 512). lia.
Qed.

Lemma page_of_inj (r r' v v' : Z) :
  0 <= v < 2 ^ 47 -> 0 <= v' < 2 ^ 47 -> page_of r v = page_of r' v' -> v / 4096 = v' / 4096.
Proof.
  intros Hv Hv' E. apply (f_equal snd) in E. rewrite !page_of_path in E. unfold path3 in E. simpl in E.
  injection E as E1 E2 E3 E4. rewrite !page_number by done. congruence.
Qed.

Lemma page_of_same (r v v' : Z) : v / 4096 = v' / 4096 -> page_of r v = page_of r v'.
Proof.
  intros E. unfold page_of, path3, pml4_idx, pdpt_idx, pd_idx, pt_idx. rewrite !idx_div by lia.
  assert (forall k, 12 <= k -> v / 2 ^ k = v' / 2 ^ k) as Hk; [| by rewrite !Hk by lia].
  intros k Hk. replace (2 ^ k) with (4096 * 2 ^ (k - 12)).
  - rewrite <- !Z.div_div by lia. by rewrite E.
  - change 4096 with (2 ^ 12). rewrite <- Z.pow_add_r by lia. f_equal. lia.
Qed.

Lemma page_at_Ret (virt i : Z) :
  0 <= virt -> 0 <= i -> virt + i * PAGE_SIZE < 2 ^ 64 -> page_at virt i = Ret (virt + i * PAGE_SIZE).
Proof.
  intros. unfold page_at. rewrite checked_fits by (unfold PAGE_SIZE in *; lia). simpl.
  by rewrite checked_fits by (unfold PAGE_SIZE in *; lia).
Qed.

Section Ranges.
  Context {A : Type} {FA : FrameAllocator A} {PE : PageTableEntry} {PL : PageTableEntryLaws}.
  Context (managed : Z -> Z -> bool).

Abbreviation pt_inv s owner := (VmmInv.pt_inv s owner managed).
Abbreviation moves := (VmmProps.moves managed).
Abbreviation space_ok := (VmmProps.space_ok managed).

(** An address space whose whole user half is under management. *)
Definition user_space (owner : owner_map) (r : Z) : Prop :=
  owner !! r = Some (r, []) /\ forall i, 0 <= i < 256 -> managed r i = true.

Definition user_range (virt n : Z) : Prop := 0 <= virt /\ 0 <= n /\ virt + n * PAGE_SIZE <= 2 ^ 47.

(** The pages [a .. a + n) counted from [virt]. *)
Definition in_range (r virt a n : Z) (o : Z * list Z) : Prop :=
  exists i, a <= i < a + n /\ o = page_of r (virt + i * PAGE_SIZE).

Lemma user_space_ok (owner : owner_map) (r va : Z) :
  user_space owner r -> 0 <= va < 2 ^ 47 -> space_ok owner r va /\ user_va va.
Proof.
  intros [Hr Hm] Hva. pose proof (pml4_idx_user va Hva). split; [| unfold user_va; lia].
  split; [done | by apply Hm].
Qed.

Lemma user_space_moves P D (s s' : Vmm A) (owner owner' : owner_map) (r : Z) :
  moves P D s owner s' owner' -> user_space owner r -> user_space owner' r.
Proof. intros Hm [Hr Hg]. split; [| done]. apply (mv_tables _ _ _ _ _ _ _ Hm); [done | simpl; lia]. Qed.

Lemma range_page (virt a n i : Z) :
  user_range virt (a + n) -> 0 <= a -> a <= i < a + n -> 0 <= virt + i * PAGE_SIZE < 2 ^ 47.
Proof. unfold user_range, PAGE_SIZE. nia. Qed.

Lemma range_page_ne (r virt i j : Z) :
  0 <= virt + i * PAGE_SIZE < 2 ^ 47 -> 0 <= virt + j * PAGE_SIZE < 2 ^ 47 -> i <> j ->
  page_of r (virt + i * PAGE_SIZE) <> page_of r (virt + j * PAGE_SIZE).
Proof.
  intros Hi Hj Hne E. apply page_of_inj in E; [| done | done]. unfold PAGE_SIZE in *.
  rewrite !Z.div_add in E by lia. lia.
Qed.

(** ** A fresh zeroed frame *)

Lemma alloc_zeroed (s : Vmm A) (owner : owner_map) P D :
  pt_inv s owner ->
  (exists s1, vm_alloc s = Ret (None, s1) /\ s1 = s /\ forall g, frame_addr g -> ~ fa_avail (vm_frames s) g) \/
  exists c s1 s2, vm_alloc s = Ret (Some c, s1) /\
    set_mem (fun m => fill m c PAGE_SIZE 0) s1 = Ret (tt, s2) /\
    moves P D s owner s2 owner /\ frame_addr c /\ fa_avail (vm_frames s) c /\ frame_ready s2 owner c /\
    (forall a, c <= a < c + PAGE_SIZE -> vm_mem s2 a = 0).
Proof.
  intros Hi. unfold vm_alloc.
  destruct (fa_alloc_spec (vm_frames s) (inv_fa _ _ _ Hi)) as ([c |] & fa' & Hal & Hfa & Hram & Hres); rewrite Hal.
  2: { left. exists s. destruct Hres as [-> ?]. by destruct s. }
  right. destruct Hres as (Hc & _ & _ & Hav & Hav').
  assert (owner !! c = None) as Hnone.
  { destruct (owner !! c) as [o |] eqn:E; [| done]. by destruct (inv_frame _ _ _ Hi c o E) as [_ []]. }
  set (m' := fill (vm_mem s) c PAGE_SIZE 0).
  assert (forall f o i, owner !! f = Some o -> index_ok i -> entry m' f i = entry (vm_mem s) f i) as Hent.
  { intros f o i Hf Hix. apply entry_fill_other; [by apply (inv_frame _ _ _ Hi f o) | done | done |]. congruence. }
  exists c, (with_frames s fa'), (with_mem (with_frames s fa') m').
  split; [done |]. split; [done |].
  assert (pt_inv (with_frames s fa') owner) as Hi1.
  { split; simpl; try apply Hi; [done |]. intros f o Hf. destruct (inv_frame _ _ _ Hi f o Hf).
    split; [done |]. rewrite Hav' by done. tauto. }
  assert (forall r va, space_ok owner r va -> descend m' r (path3 va) = descend (vm_mem s) r (path3 va)) as Hdesc.
  { intros r va [Hr Hm]. apply (descend_same_links s m' owner managed (path3 va) r r []);
      [done | | done | simpl; lia | apply path3_ok | done].
    intros f sp q i Hf _ Hix. by rewrite (Hent f (sp, q)). }
  split; [| split; [done |]; split; [done |]; split; [split; [done |]; simpl; rewrite Hav' by done; tauto |]].
  2: { intros a Ha. by apply fill_in. }
  split; simpl; [| done | done | | | done | | | | done].
  - apply (pt_inv_same_links (with_frames s fa')); [done | apply fill_mem_ok; [apply Hi | unfold byte_ok; lia] |].
    intros f sp q i Hf _ Hix. simpl. by rewrite (Hent f (sp, q)).
  - intros f o Hf Hn. congruence.
  - intros f Hf. rewrite Hav' by done. tauto.
  - intros r va Hs _. unfold leaf. rewrite Hdesc by done.
    destruct (descend (vm_mem s) r (path3 va)) as [t |] eqn:Hd; [| done].
    destruct (root_walk s owner managed r va t Hi (proj1 Hs) (proj2 Hs) Hd) as [Ht _].
    by rewrite (Hent t _ _ Ht) by apply pt_idx_ok.
  - intros r va t Hs <-. by apply Hdesc.
  - intros a Hfa' _ Hna. apply fill_other. intros Hin. apply Hna. by rewrite (frame_of_in c a).
Qed.

(** ** [map_anon] *)

Definition anon_result (s s' : Vmm A) (r virt a n fl : Z) (res : result unit MapError) : Prop :=
  match res with
  | Ok _ => forall i, a <= i < a + n -> exists e, leaf (vm_mem s) r (virt + i * PAGE_SIZE) = None /\
      leaf (vm_mem s') r (virt + i * PAGE_SIZE) = Some e /\ pte_flags e = leaf_flags fl /\
      fa_avail (vm_frames s) (pte_addr e) /\
      forall off, 0 <= off < PAGE_SIZE -> vm_mem s' (pte_addr e + off) = 0
  | Err OutOfMemory => forall f, frame_addr f -> ~ fa_avail (vm_frames s') f
  | Err AlreadyMapped => exists i, a <= i < a + n /\ is_Some (leaf (vm_mem s) r (virt + i * PAGE_SIZE))
  | Err Misaligned => virt mod 4096 <> 0
  | Err NoVirtualSpace => False
  end.

(** The pages of a user half keep their frame and its contents while other
    pages are changed. *)
Lemma moves_keeps_page P D (s s' : Vmm A) (owner owner' : owner_map) (r va e : Z) :
  pt_inv s owner -> moves P D s owner s' owner' -> user_space owner r -> 0 <= va < 2 ^ 47 ->
  ~ P (page_of r va) -> leaf (vm_mem s) r va = Some e ->
  leaf (vm_mem s') r va = Some e /\
  forall off, 0 <= off < PAGE_SIZE -> vm_mem s' (pte_addr e + off) = vm_mem s (pte_addr e + off).
Proof.
  intros Hi Hm Hu Hva HP Hl. destruct (user_space_ok owner r va Hu Hva) as [Hs Huv].
  destruct (user_space_ok owner' r va (user_space_moves _ _ _ _ _ _ _ Hm Hu) Hva) as [Hs' _].
  assert (leaf (vm_mem s') r va = Some e) as Hl'.
  { by rewrite (mv_leaves _ _ _ _ _ _ _ Hm). }
  split; [done |]. intros off Hoff.
  pose proof (leaf_owner managed s owner r va e Hi Hs Huv Hl) as Ho.
  pose proof (leaf_owner managed s' owner' r va e (mv_inv _ _ _ _ _ _ _ Hm) Hs' Huv Hl') as Ho'.
  destruct (inv_frame _ _ _ Hi _ _ Ho) as [Hfa Hna].
  apply (mv_data _ _ _ _ _ _ _ Hm); rewrite (frame_of_in (pte_addr e)) by (done || lia); [done | | done].
  intros o E. rewrite Ho' in E. injection E as <-. by rewrite page_of_path.
Qed.

Lemma leaf_frame_addr (m : PhysMem) (r va e : Z) :
  mem_ok m -> leaf m r va = Some e -> frame_addr (pte_addr e).
Proof.
  intros Hm. unfold leaf. destruct (descend _ _ _); [| done]. destruct (present _); [| done].
  intros [= <-]. apply pte_addr_ok. by apply read64_range.
Qed.

Lemma not_in_range_tail (r virt a n : Z) :
  user_range virt (a + 1 + n) -> 0 <= a -> 0 <= n -> ~ in_range r virt (a + 1) n (page_of r (virt + a * PAGE_SIZE)).
Proof.
  intros Hrg Ha Hn (i & Hi & E). revert E.
  apply range_page_ne; [| | lia]; eapply (range_page virt 0 (a + 1 + n)); try lia; by rewrite Z.add_0_l.
Qed.

Lemma map_anon_loop_ok (r virt fl : Z) (n : nat) (a : Z) (s : Vmm A) (owner : owner_map) :
  pt_inv s owner -> user_space owner r -> user_range virt (a + Z.of_nat n) -> 0 <= a ->
  exists res s' owner', map_anon_loop r virt fl (seqZ a (Z.of_nat n)) s = Ret (res, s') /\
    moves (in_range r virt a (Z.of_nat n)) (fun _ => False) s owner s' owner' /\
    anon_result s s' r virt a (Z.of_nat n) fl res.
Proof.
  revert a s owner. induction n as [| n IH]; intros a s owner Hi Hu Hrg Ha.
  { exists (Ok tt), s, owner. split; [done |]. split; [by apply moves_refl | simpl; lia]. }
  rewrite seqZ_cons by lia. replace (Z.pred (Z.of_nat (S n))) with (Z.of_nat n) by lia.
  replace (Z.succ a) with (a + 1) by lia. cbn [map_anon_loop].
  destruct (alloc_zeroed s owner (fun _ => False) (fun _ => False) Hi)
    as [(s1 & Hal & -> & Hno) | (c & s1 & s2 & Hal & Hfl & Hm2 & Hc & Hav & Hrd & Hz)];
    rewrite (st_bind_step _ _ _ _ _ Hal).
  { exists (Err OutOfMemory), s, owner. split; [done |]. split; [by apply moves_refl | done]. }
  rewrite (st_bind_step _ _ _ _ _ Hfl).
  assert (0 <= virt + a * PAGE_SIZE < 2 ^ 47) as Hva by (eapply range_page; [exact Hrg | lia | lia]).
  rewrite (st_bind_step _ _ s2 s2 (virt + a * PAGE_SIZE)); cycle 1.
  { unfold st_lift. by rewrite page_at_Ret by (unfold user_range in Hrg; lia). }
  set (va := virt + a * PAGE_SIZE) in *. pose proof (mv_inv _ _ _ _ _ _ _ Hm2) as Hi2.
  destruct (user_space_ok owner r va Hu Hva) as [Hs Huv].
  destruct (map_4k_ok managed s2 owner r va c fl Hi2 Hs (proj1 Hc)) as (res & s3 & o3 & Hmap & Hm3 & Hres); [done |].
  assert (moves (in_range r virt a (Z.of_nat (S n))) (fun _ => False) s owner s3 o3) as Hm13.
  { eapply moves_trans_gen; [| by eapply moves_weaken; [| | exact Hm2] |].
    - intros f E. left. exact (eq_ind c _ Hav f E).
    - eapply moves_weaken; [| | exact Hm3]; [| done]. intros o <-. exists a. split; [lia | done]. }
  pose proof (mv_leaves _ _ _ _ _ _ _ Hm2 r va Hs ltac:(auto)) as Hl2.
  destruct res as [[] | er].
  2: { exists (Err er), s3, o3. split; [by apply st_try_Err |]. split; [done |].
       destruct er; simpl in Hres |- *; [apply Hres | | | done].
       - exists a. split; [lia |]. fold va. rewrite <- Hl2. apply Hres.
       - destruct Hres as ([E | E] & _); [| by destruct Hc].
         unfold va, PAGE_SIZE in E. rewrite Z.mod_add in E; lia. }
  rewrite (st_try_Ok _ _ _ _ _ Hmap). destruct Hres as (_ & _ & Hl0 & e & Hl3 & Hea & Hef).
  destruct (IH (a + 1) s3 o3) as (res & s' & o' & Hrun & Hm' & Hres');
    [apply Hm3 | by eapply user_space_moves | | lia |].
  { unfold user_range in *. lia. }
  exists res, s', o'. split; [done |]. split.
  { eapply moves_trans; [exact Hm13 |]. eapply moves_weaken; [| | exact Hm']; [| done].
    intros o (i & Hix & ->). exists i. split; [lia | done]. }
  assert (~ in_range r virt (a + 1) (Z.of_nat n) (page_of r va)) as Hnot.
  { apply not_in_range_tail; [unfold user_range in *; lia | lia | lia]. }
  assert (forall i, a + 1 <= i < a + 1 + Z.of_nat n ->
            leaf (vm_mem s3) r (virt + i * PAGE_SIZE) = leaf (vm_mem s) r (virt + i * PAGE_SIZE)) as Hrest.
  { intros i Hix. assert (0 <= virt + i * PAGE_SIZE < 2 ^ 47) as Hvi by (eapply range_page; [exact Hrg | lia | lia]).
    destruct (user_space_ok owner r _ Hu Hvi) as [Hsi _].
    rewrite (mv_leaves _ _ _ _ _ _ _ Hm3) by (done || by apply range_page_ne; [| | lia]).
    apply (mv_leaves _ _ _ _ _ _ _ Hm2); [done |]. intros []. }
  destruct res as [[] | []]; simpl in Hres' |- *; [| done | | done | done].
  - intros i Hix. destruct (decide (i = a)) as [-> | Hne].
    + edestruct (moves_keeps_page _ _ s3 s' o3 o' r va e (mv_inv _ _ _ _ _ _ _ Hm3) Hm') as [Hl' Hkeep];
        [by eapply user_space_moves | done | done | done |].
      exists e. rewrite Hea in Hkeep |- *. split; [unfold va in Hl2; by rewrite <- Hl2 |]. split; [done |]. split; [done |]. split; [done |].
      intros off Hoff. rewrite Hkeep by done. rewrite <- (Hz (c + off)) by lia.
      apply (mv_data _ _ _ _ _ _ _ Hm3); rewrite (frame_of_in c) by (done || lia); [done | | apply Hrd].
      intros o Ho. destruct (user_space_ok o3 r va) as [Hs3 _]; [by eapply user_space_moves | done |].
      pose proof (leaf_owner managed s3 o3 r va e (mv_inv _ _ _ _ _ _ _ Hm3) Hs3 Huv Hl3) as E.
      rewrite Hea, Ho in E. injection E as ->. by rewrite page_of_path.
    + destruct (Hres' i) as (e' & Hn' & He' & Hf' & Hav' & Hz'); [lia |]. exists e'.
      split; [rewrite <- Hrest by lia; done |]. split; [done |]. split; [done |]. split; [| done]. apply (mv_avail _ _ _ _ _ _ _ Hm13); [| done].
      eapply leaf_frame_addr; [| exact He']. apply (mv_inv _ _ _ _ _ _ _ Hm').
  - destruct Hres' as (i & Hix & Hsome). exists i. split; [lia |]. by rewrite <- Hrest.
Qed.

(** ** Frames on the way from one address space to another *)

Lemma frame_ready_moves P (D : Z -> Prop) (s s' : Vmm A) (owner owner' : owner_map) (f : Z) :
  moves P D s owner s' owner' -> frame_addr f -> ~ D f -> frame_ready s owner f -> frame_ready s' owner' f.
Proof.
  intros Hm Hf HD [Hn Ha]. split.
  - destruct (owner' !! f) as [o |] eqn:E; [| done]. exfalso.
    by destruct (mv_new _ _ _ _ _ _ _ Hm f o E Hn).
  - intros Hav. by apply Ha, (mv_avail _ _ _ _ _ _ _ Hm).
Qed.

(** The frames of a list are distinct, owned by nobody, and can be mapped. *)
Definition in_flight (s : Vmm A) (owner : owner_map) (frames : list Z) : Prop :=
  NoDup frames /\ Forall (fun f => frame_addr f /\ frame_ready s owner f) frames.

Lemma in_flight_tail (s s' : Vmm A) (owner owner' : owner_map) P (f : Z) (frames : list Z) :
  in_flight s owner (f :: frames) -> moves P (eq f) s owner s' owner' -> in_flight s' owner' frames.
Proof.
  intros [[Hnin Hnd]%NoDup_cons [_ Hall]%Forall_cons] Hm. split; [done |].
  rewrite Forall_forall in Hall |- *. intros g Hg. destruct (Hall g Hg). split; [done |].
  eapply frame_ready_moves; [exact Hm | done | by intros -> | done].
Qed.

(** What mapping the frames at pages [a, a + 1, ...] leads to. *)
Definition installed (m : PhysMem) (r virt a : Z) (frames : list Z) : Prop :=
  forall i f, frames !! i = Some f -> exists e,
    leaf m r (virt + (a + Z.of_nat i) * PAGE_SIZE) = Some e /\ pte_addr e = f /\
    pte_flags e = leaf_flags STEAL_FLAGS.

Lemma installed_cons P D (s s' : Vmm A) (owner owner' : owner_map) (r virt a f e : Z) (frames : list Z) :
  user_space owner r -> user_range virt (a + 1 + zlen frames) -> 0 <= a ->
  (forall o, P o -> in_range r virt (a + 1) (zlen frames) o) ->
  moves P D s owner s' owner' -> leaf (vm_mem s) r (virt + a * PAGE_SIZE) = Some e ->
  pte_addr e = f -> pte_flags e = leaf_flags STEAL_FLAGS ->
  installed (vm_mem s') r virt (a + 1) frames -> installed (vm_mem s') r virt a (f :: frames).
Proof.
  intros Hu Hrg Ha HP Hm Hl Hea Hef Hins [| i] g Hg; simpl in Hg.
  - injection Hg as <-. exists e. rewrite Z.add_0_r. split; [| done].
    assert (0 <= virt + a * PAGE_SIZE < 2 ^ 47) as Hva.
    { apply (range_page virt 0 (a + 1 + zlen frames)); [by rewrite Z.add_0_l | lia |]. unfold zlen. lia. }
    destruct (user_space_ok owner r _ Hu Hva) as [Hs _].
    rewrite (mv_leaves _ _ _ _ _ _ _ Hm); [done | done |]. intros Hin%HP. revert Hin.
    apply not_in_range_tail; [done | lia | unfold zlen; lia].
  - destruct (Hins i g Hg) as (e' & ? & ?). exists e'. by replace (a + Z.of_nat (S i)) with (a + 1 + Z.of_nat i) by lia.
Qed.

(** One [map_4k] of [install_pages] or of the rollback of [steal_pages]. *)
Lemma install_step (s : Vmm A) (owner : owner_map) (r virt a f : Z) (frames : list Z) :
  pt_inv s owner -> user_space owner r -> user_range virt (a + zlen (f :: frames)) -> 0 <= a -> virt mod 4096 = 0 ->
  in_flight s owner (f :: frames) ->
  exists res s1 o1, page_at virt a = Ret (virt + a * PAGE_SIZE) /\
    map_4k r (virt + a * PAGE_SIZE) f STEAL_FLAGS s = Ret (res, s1) /\
    moves (eq (page_of r (virt + a * PAGE_SIZE))) (eq f) s owner s1 o1 /\ in_flight s1 o1 frames /\
    match res with
    | Ok _ => exists e, leaf (vm_mem s1) r (virt + a * PAGE_SIZE) = Some e /\ pte_addr e = f /\
                        pte_flags e = leaf_flags STEAL_FLAGS
    | Err AlreadyMapped => is_Some (leaf (vm_mem s) r (virt + a * PAGE_SIZE))
    | Err OutOfMemory => descend (vm_mem s) r (path3 (virt + a * PAGE_SIZE)) = None /\
                         forall g, frame_addr g -> ~ fa_avail (vm_frames s1) g
    | _ => False
    end.
Proof.
  intros Hi Hu Hrg Ha Hal Hfl.
  assert (0 <= virt + a * PAGE_SIZE < 2 ^ 47) as Hva.
  { apply (range_page virt a (zlen (f :: frames))); [done | lia |]. unfold zlen. simpl length. lia. }
  destruct (user_space_ok owner r _ Hu Hva) as [Hs Huv].
  pose proof Hfl as [_ [[Hfa Hrd] _]%Forall_cons].
  destruct (map_4k_ok managed s owner r (virt + a * PAGE_SIZE) f STEAL_FLAGS Hi Hs (proj1 Hfa))
    as (res & s1 & o1 & Hmap & Hm & Hres); [done |].
  exists res, s1, o1. split; [unfold user_range in Hrg; apply page_at_Ret; unfold PAGE_SIZE in *; lia |].
  split; [done |]. split; [done |]. split; [by eapply in_flight_tail |].
  destruct res as [[] | []]; simpl in Hres; [apply Hres | | apply Hres | | done].
  - split; apply Hres.
  - destruct Hres as ([E | E] & _); [| by destruct Hfa]. unfold PAGE_SIZE in E. rewrite Z.mod_add in E; lia.
Qed.

Lemma in_range_head (r virt a n : Z) (o : Z * list Z) :
  0 <= n -> page_of r (virt + a * PAGE_SIZE) = o -> in_range r virt a (1 + n) o.
Proof. intros Hn <-. exists a. split; [lia | done]. Qed.

Lemma in_range_tail (r virt a n : Z) (o : Z * list Z) :
  in_range r virt (a + 1) n o -> in_range r virt a (1 + n) o.
Proof. intros (i & Hi & ->). exists i. split; [lia | done]. Qed.

Lemma install_loop_ok (r virt : Z) (frames : list Z) (a : Z) (s : Vmm A) (owner : owner_map) :
  pt_inv s owner -> user_space owner r -> user_range virt (a + zlen frames) -> 0 <= a -> virt mod 4096 = 0 ->
  in_flight s owner frames ->
  exists res s' owner', install_loop r virt a frames s = Ret (res, s') /\
    moves (in_range r virt a (zlen frames)) (.∈ frames) s owner s' owner' /\
    match res with
    | Ok _ => installed (vm_mem s') r virt a frames
    | Err AlreadyMapped => exists i, a <= i < a + zlen frames /\ is_Some (leaf (vm_mem s) r (virt + i * PAGE_SIZE))
    | Err OutOfMemory => forall g, frame_addr g -> ~ fa_avail (vm_frames s') g
    | _ => False
    end.
Proof.
  revert a s owner. induction frames as [| f frames IH]; intros a s owner Hi Hu Hrg Ha Hal Hfl.
  { exists (Ok tt), s, owner. split; [done |]. split; [by apply moves_refl |]. by intros i f. }
  cbn [install_loop].
  destruct (install_step s owner r virt a f frames) as (res & s1 & o1 & Hpa & Hmap & Hm & Hfl1 & Hres); [done .. |].
  rewrite (st_bind_step _ _ s s (virt + a * PAGE_SIZE)) by (unfold st_lift; by rewrite Hpa).
  rewrite zlen_cons in *. assert (0 <= zlen frames) as Hz by (unfold zlen; lia).
  assert (moves (in_range r virt a (1 + zlen frames)) (.∈ f :: frames) s owner s1 o1) as Hm1.
  { eapply moves_weaken; [| | exact Hm]; [intros o; by apply in_range_head | intros g <-; by left]. }
  destruct res as [[] | er].
  2: { exists (Err er), s1, o1. split; [by apply st_try_Err |]. split; [done |].
       destruct er; [apply Hres | exists a; split; [lia | done] | done | done]. }
  rewrite (st_try_Ok _ _ _ _ _ Hmap). destruct Hres as (e & Hl & Hea & Hef).
  assert (user_range virt (a + 1 + zlen frames)) as Hrg1 by (unfold user_range in *; lia).
  destruct (IH (a + 1) s1 o1) as (res & s' & o' & Hrun & Hm' & Hres');
    [apply Hm | by eapply user_space_moves | done | lia | done | done |].
  exists res, s', o'. split; [done |]. split.
  { eapply moves_trans; [exact Hm1 |]. eapply moves_weaken; [| | exact Hm']; [apply in_range_tail | by right]. }
  destruct res as [[] | []]; [| done | | done | done].
  - refine (installed_cons _ _ s1 s' o1 o' r virt a f e frames _ Hrg1 Ha (fun o Ho => Ho) Hm' Hl Hea Hef Hres').
    by eapply user_space_moves.
  - destruct Hres' as (i & Hix & Hsome). exists i. split; [lia |].
    assert (0 <= virt + i * PAGE_SIZE < 2 ^ 47) as Hvi by (eapply (range_page virt (a + 1)); [exact Hrg1 | lia | lia]).
    destruct (user_space_ok owner r _ Hu Hvi) as [Hsi _].
    rewrite <- (mv_leaves _ _ _ _ _ _ _ Hm); [done | done |].
    apply range_page_ne; [| done | lia]. apply (range_page virt a (1 + zlen frames)); [done | lia | lia].
Qed.

(** ** [steal_pages] *)

(** Pages that were just unmapped: absent, with their tables in place. *)
Definition vacated (m : PhysMem) (r virt a n : Z) : Prop :=
  forall i, a <= i < a + n -> leaf m r (virt + i * PAGE_SIZE) = None /\
    is_Some (descend m r (path3 (virt + i * PAGE_SIZE))).

Lemma vacated_moves P D (s s' : Vmm A) (owner owner' : owner_map) (r virt a n : Z) :
  moves P D s owner s' owner' -> user_space owner r -> user_range virt (a + n) -> 0 <= a ->
  (forall i, a <= i < a + n -> ~ P (page_of r (virt + i * PAGE_SIZE))) ->
  vacated (vm_mem s) r virt a n -> vacated (vm_mem s') r virt a n.
Proof.
  intros Hm Hu Hrg Ha HP Hv i Hix. destruct (Hv i Hix) as [Hl [t Ht]].
  destruct (user_space_ok owner r (virt + i * PAGE_SIZE) Hu) as [Hs _]; [by eapply range_page |].
  split; [by rewrite (mv_leaves _ _ _ _ _ _ _ Hm) by auto |].
  exists t. by apply (mv_descend _ _ _ _ _ _ _ Hm).
Qed.

Lemma remap_loop_ok (r virt : Z) (frames : list Z) (a : Z) (s : Vmm A) (owner : owner_map) :
  pt_inv s owner -> user_space owner r -> user_range virt (a + zlen frames) -> 0 <= a -> virt mod 4096 = 0 ->
  in_flight s owner frames -> vacated (vm_mem s) r virt a (zlen frames) ->
  exists s' owner', remap_loop r virt a frames s = Ret (tt, s') /\
    moves (in_range r virt a (zlen frames)) (.∈ frames) s owner s' owner' /\
    installed (vm_mem s') r virt a frames.
Proof.
  revert a s owner. induction frames as [| f frames IH]; intros a s owner Hi Hu Hrg Ha Hal Hfl Hv.
  { exists s, owner. split; [done |]. split; [by apply moves_refl |]. by intros i f. }
  cbn [remap_loop].
  destruct (install_step s owner r virt a f frames) as (res & s1 & o1 & Hpa & Hmap & Hm & Hfl1 & Hres); [done .. |].
  rewrite (st_bind_step _ _ s s (virt + a * PAGE_SIZE)) by (unfold st_lift; by rewrite Hpa).
  rewrite (st_bind_step _ _ _ _ _ Hmap).
  rewrite zlen_cons in *. assert (0 <= zlen frames) as Hz by (unfold zlen; lia).
  destruct (Hv a) as [Hl0 [t Ht]]; [lia |].
  destruct res as [[] | []]; [| by rewrite Ht in Hres; destruct Hres | by rewrite Hl0 in Hres; destruct Hres | done | done].
  destruct Hres as (e & Hl & Hea & Hef).
  assert (user_range virt (a + 1 + zlen frames)) as Hrg1 by (unfold user_range in *; lia).
  assert (user_space o1 r) as Hu1 by (by eapply user_space_moves).
  destruct (IH (a + 1) s1 o1) as (s' & o' & Hrun & Hm' & Hins); [apply Hm | done | done | lia | done | done | |].
  { apply (vacated_moves _ _ s s1 owner o1) with (1 := Hm); [done | done | lia | |].
    - intros i Hix. apply range_page_ne; [eapply (range_page virt a); [exact Hrg | lia | lia] ..| lia].
    - intros i Hix. apply Hv. lia. }
  exists s', o'. split; [done |]. split.
  - eapply moves_trans; [eapply moves_weaken; [| | exact Hm] | eapply moves_weaken; [| | exact Hm']];
      [intros o; by apply in_range_head | intros g <-; by left | apply in_range_tail | by right].
  - exact (installed_cons _ _ s1 s' o1 o' r virt a f e frames Hu1 Hrg1 Ha (fun o Ho => Ho) Hm' Hl Hea Hef Hins).
Qed.

(** The first [a] pages have been stolen into [out]. *)
Record stolen (s0 : Vmm A) (o0 : owner_map) (r virt : Z) (out : list Z) (s : Vmm A) (owner : owner_map) : Prop := {
  st_moves : moves (in_range r virt 0 (zlen out)) (fun _ => False) s0 o0 s owner;
  st_frames : vm_frames s = vm_frames s0;
  st_out : forall i f, out !! i = Some f -> exists e,
    leaf (vm_mem s0) r (virt + Z.of_nat i * PAGE_SIZE) = Some e /\ pte_addr e = f;
  st_vacated : vacated (vm_mem s) r virt 0 (zlen out);
  st_ready : Forall (fun f => frame_addr f /\ frame_ready s owner f) out
}.

Lemma stolen_nil (s0 : Vmm A) (o0 : owner_map) (r virt : Z) : pt_inv s0 o0 -> stolen s0 o0 r virt [] s0 o0.
Proof.
  intros Hi. split; [by apply moves_refl | done | done | | by constructor].
  intros i Hix. unfold zlen in Hix. simpl in Hix. lia.
Qed.

Lemma zlen_snoc {X} (l : list X) (x : X) : zlen (l ++ [x]) = zlen l + 1.
Proof. unfold zlen. rewrite length_app. simpl. lia. Qed.

Lemma leaf_descend_some (m : PhysMem) (r va e : Z) : leaf m r va = Some e -> is_Some (descend m r (path3 va)).
Proof. unfold leaf. destruct (descend _ _ _); [by eexists | done]. Qed.

Lemma stolen_snoc (s0 s s1 : Vmm A) (o0 owner o1 : owner_map) (r virt phys : Z) (out : list Z) :
  user_space o0 r -> user_range virt (zlen out + 1) -> virt mod 4096 = 0 ->
  stolen s0 o0 r virt out s owner ->
  moves (eq (page_of r (virt + zlen out * PAGE_SIZE))) (fun _ => False) s owner s1 o1 ->
  vm_frames s1 = vm_frames s -> leaf (vm_mem s1) r (virt + zlen out * PAGE_SIZE) = None ->
  (exists e, leaf (vm_mem s) r (virt + zlen out * PAGE_SIZE) = Some e /\ pte_addr e = phys) ->
  frame_ready s1 o1 phys -> stolen s0 o0 r virt (out ++ [phys]) s1 o1.
Proof.
  intros Hu Hrg Hal Hst Hm Hfr Hnone (e & Hl & Hea) Hrd. set (a := zlen out) in *.
  assert (0 <= a) as Ha by (unfold a, zlen; lia).
  assert (forall i, 0 <= i < a + 1 -> 0 <= virt + i * PAGE_SIZE < 2 ^ 47) as Hpg.
  { intros i Hix. apply (range_page virt 0 (a + 1)); [by rewrite Z.add_0_l | lia | lia]. }
  destruct (user_space_ok o0 r (virt + a * PAGE_SIZE) Hu) as [Hs0 _]; [apply Hpg; lia |].
  assert (leaf (vm_mem s0) r (virt + a * PAGE_SIZE) = Some e) as Hl0.
  { rewrite <- (mv_leaves _ _ _ _ _ _ _ (st_moves _ _ _ _ _ _ _ Hst)); [done | done |].
    intros (i & Hix & E). fold a in Hix. revert E. apply range_page_ne; [apply Hpg; lia .. | lia]. }
  split; rewrite ?zlen_snoc; fold a.
  - eapply moves_trans; (eapply moves_weaken; [| |]); [| | apply Hst | | | exact Hm].
    all: try done.
    + intros o (i & Hix & ->). exists i. split; [fold a in Hix; lia | done].
    + intros o <-. exists a. split; [lia | done].
  - by rewrite Hfr, (st_frames _ _ _ _ _ _ _ Hst).
  - intros i f [Hf | [Hlen Hf]]%lookup_app_Some; [by apply (st_out _ _ _ _ _ _ _ Hst) |].
    apply list_lookup_singleton_Some in Hf as [Hi0 <-].
    assert (Z.of_nat i = a) as -> by (unfold a, zlen; lia). by exists e.
  - intros i Hix. destruct (decide (i = a)) as [-> | Hne].
    + split; [done |]. apply leaf_descend_some in Hl as [t Ht]. exists t.
      apply (mv_descend _ _ _ _ _ _ _ Hm); [| done]. destruct (st_moves _ _ _ _ _ _ _ Hst) as [_ Htab].
      destruct Hs0 as [Hr Hmg]. split; [| done]. apply Htab; [done | simpl; lia].
    + apply (vacated_moves _ _ s s1 owner o1 r virt 0 a Hm); [| | lia | | apply Hst | lia].
      * eapply user_space_moves; [apply Hst | done].
      * unfold user_range, PAGE_SIZE in *. lia.
      * intros j Hj. apply range_page_ne; [apply Hpg; lia .. | lia].
  - apply Forall_app. split.
    + eapply Forall_impl; [apply Hst |]. intros f [Hfa Hf]. split; [done |].
      eapply frame_ready_moves; [exact Hm | done | by intros [] | done].
    + constructor; [| constructor]. split; [| done]. subst phys.
      eapply leaf_frame_addr; [| exact Hl]. apply (mv_inv _ _ _ _ _ _ _ (st_moves _ _ _ _ _ _ _ Hst)).
Qed.

Lemma stolen_in_flight (s0 s : Vmm A) (o0 owner : owner_map) (r virt : Z) (out : list Z) :
  pt_inv s0 o0 -> user_space o0 r -> user_range virt (zlen out) -> stolen s0 o0 r virt out s owner ->
  in_flight s owner out /\ Forall (fun f => is_Some (o0 !! f)) out.
Proof.
  intros Hi Hu Hrg Hst.
  assert (forall i f, out !! i = Some f -> o0 !! f = Some (page_of r (virt + Z.of_nat i * PAGE_SIZE)) /\
            0 <= virt + Z.of_nat i * PAGE_SIZE < 2 ^ 47) as Hown.
  { intros i f Hf. destruct (st_out _ _ _ _ _ _ _ Hst i f Hf) as (e & Hl & <-).
    assert (0 <= virt + Z.of_nat i * PAGE_SIZE < 2 ^ 47) as Hva.
    { apply (range_page virt 0 (zlen out)); [by rewrite Z.add_0_l | lia |].
      apply lookup_lt_Some in Hf. unfold zlen. lia. }
    destruct (user_space_ok o0 r _ Hu Hva). split; [by apply (leaf_owner managed s0 o0) | done]. }
  split; [split; [| apply Hst] |].
  - apply NoDup_alt. intros i j f Hf1 Hf2. destruct (Hown i f Hf1) as [E1 H1], (Hown j f Hf2) as [E2 H2].
    destruct (decide (i = j)); [done | exfalso]. rewrite E1 in E2. apply (inj Some) in E2. revert E2. apply range_page_ne; [done | done | lia].
  - apply Forall_lookup. intros i f Hf. destruct (Hown i f Hf) as [-> _]. by eexists.
Qed.

Lemma moves_known P (D : Z -> Prop) (s s' : Vmm A) (owner owner' : owner_map) :
  (forall f, D f -> is_Some (owner !! f)) -> moves P D s owner s' owner' ->
  moves P (fun _ => False) s owner s' owner'.
Proof.
  intros HD Hm. split; try apply Hm. intros f o Hf Hn.
  destruct (mv_new _ _ _ _ _ _ _ Hm f o Hf Hn) as [? | [o' E]%HD]; [by left | congruence].
Qed.

(** The error path of [steal_pages] puts the frames back where they were. *)
Lemma rollback_ok (s0 s : Vmm A) (o0 owner : owner_map) (r virt n : Z) (out : list Z) :
  pt_inv s0 o0 -> user_space o0 r -> virt mod 4096 = 0 -> zlen out <= n -> user_range virt n ->
  stolen s0 o0 r virt out s owner ->
  exists s' o', remap_loop r virt 0 out s = Ret (tt, s') /\
    moves (in_range r virt 0 n) (fun _ => False) s0 o0 s' o' /\
    forall i, 0 <= i < n -> pte_addr <$> leaf (vm_mem s') r (virt + i * PAGE_SIZE) =
                          pte_addr <$> leaf (vm_mem s0) r (virt + i * PAGE_SIZE).
Proof.
  intros Hi Hu Hal Hn Hrg Hst. assert (0 <= zlen out) as Hz by (unfold zlen; lia).
  assert (user_range virt (zlen out)) as Hrg' by (unfold user_range, PAGE_SIZE in *; lia).
  destruct (stolen_in_flight s0 s o0 owner r virt out) as [Hfl Hin]; [done .. |].
  destruct (remap_loop_ok r virt out 0 s owner) as (s' & o' & Hrun & Hm & Hins);
    [apply Hst | eapply user_space_moves; [apply Hst | done] | by rewrite Z.add_0_l | lia | done | done | apply Hst |].
  assert (forall o, in_range r virt 0 (zlen out) o -> in_range r virt 0 n o) as Hsub.
  { intros o (i & Hix & ->). exists i. split; [lia | done]. }
  exists s', o'. split; [done |]. split.
  - apply (moves_known _ (.∈ out)); [intros f Hf; rewrite Forall_forall in Hin; by apply Hin |].
    eapply moves_trans.
    + eapply (moves_weaken _ _ _ (fun _ => False)); [exact Hsub | by intros f [] | apply Hst].
    + by eapply moves_weaken; [exact Hsub | | exact Hm].
  - intros i Hix. destruct (decide (i < zlen out)) as [Hlt | Hge].
    + unfold zlen in Hlt. destruct (lookup_lt_is_Some_2 out (Z.to_nat i)) as [f Hf]; [lia |].
      destruct (Hins _ _ Hf) as (e & Hl & Hea & _), (st_out _ _ _ _ _ _ _ Hst _ _ Hf) as (e0 & Hl0 & Hea0).
      rewrite Z.add_0_l, Z2Nat.id in Hl by lia. rewrite Z2Nat.id in Hl0 by lia. rewrite Hl, Hl0. simpl. congruence.
    + assert (~ in_range r virt 0 (zlen out) (page_of r (virt + i * PAGE_SIZE))) as Hnot.
      { intros (j & Hj & E). revert E.
        apply range_page_ne; [apply (range_page virt 0 n); [by rewrite Z.add_0_l | lia | lia] .. | lia]. }
      destruct (user_space_ok o0 r (virt + i * PAGE_SIZE) Hu) as [Hs _];
        [apply (range_page virt 0 n); [by rewrite Z.add_0_l | lia | lia] |].
      rewrite (mv_leaves _ _ _ _ _ _ _ Hm); [| | done].
      * by rewrite (mv_leaves _ _ _ _ _ _ _ (st_moves _ _ _ _ _ _ _ Hst)).
      * eapply space_ok_moves; [apply Hst | done].
Qed.

Lemma steal_loop_ok (s0 : Vmm A) (o0 : owner_map) (r virt : Z) (n : nat) (out : list Z) (s : Vmm A) (owner : owner_map) :
  pt_inv s0 o0 -> user_space o0 r -> virt mod 4096 = 0 -> user_range virt (zlen out + Z.of_nat n) ->
  stolen s0 o0 r virt out s owner ->
  exists res s' o', steal_loop r virt (seqZ (zlen out) (Z.of_nat n)) out s = Ret (res, s') /\
    match res with
    | Ok out' => stolen s0 o0 r virt out' s' o' /\ zlen out' = zlen out + Z.of_nat n
    | Err AlreadyMapped =>
        moves (in_range r virt 0 (zlen out + Z.of_nat n)) (fun _ => False) s0 o0 s' o' /\
        (exists i, 0 <= i < zlen out + Z.of_nat n /\ leaf (vm_mem s0) r (virt + i * PAGE_SIZE) = None) /\
        forall i, 0 <= i < zlen out + Z.of_nat n ->
          pte_addr <$> leaf (vm_mem s') r (virt + i * PAGE_SIZE) =
          pte_addr <$> leaf (vm_mem s0) r (virt + i * PAGE_SIZE)
    | Err _ => False
    end.
Proof.
  intros Hi Hu Hal. revert out s owner. induction n as [| n IH]; intros out s owner Hrg Hst.
  { exists (Ok out), s, owner. split; [done |]. split; [done | lia]. }
  rewrite seqZ_cons by lia. replace (Z.pred (Z.of_nat (S n))) with (Z.of_nat n) by lia. cbn [steal_loop].
  set (a := zlen out) in *. assert (0 <= a) as Ha by (unfold a, zlen; lia).
  assert (forall i, 0 <= i < a + Z.of_nat (S n) -> 0 <= virt + i * PAGE_SIZE < 2 ^ 47) as Hpg.
  { intros i Hix. apply (range_page virt 0 (a + Z.of_nat (S n))); [by rewrite Z.add_0_l | lia | lia]. }
  assert (0 <= virt + a * PAGE_SIZE < 2 ^ 47) as Hva by (apply Hpg; lia).
  rewrite (st_bind_step _ _ s s (virt + a * PAGE_SIZE)); cycle 1.
  { unfold st_lift. rewrite page_at_Ret; [done | unfold user_range in Hrg; lia | lia | lia]. }
  destruct (user_space_ok o0 r _ Hu Hva) as [Hs0 Huv].
  pose proof (space_ok_moves _ _ _ _ _ _ _ _ _ (st_moves _ _ _ _ _ _ _ Hst) Hs0) as Hs.
  destruct (unmap_4k_ok managed s owner r (virt + a * PAGE_SIZE)) as ([phys |] & s1 & o1 & Hun & Hm & Hnone & Hres);
    [apply Hst | done | left; done | |]; rewrite (st_bind_step _ _ _ _ _ Hun).
  - destruct Hres as (Hl & Hfr & Hrd).
    destruct (IH (out ++ [phys]) s1 o1) as (res & s' & o' & Hrun & Hres').
    { rewrite zlen_snoc. fold a. by replace (a + 1 + Z.of_nat n) with (a + Z.of_nat (S n)) by lia. }
    { apply (stolen_snoc s0 s s1 o0 owner o1); [done | | done | done | done | done | done | done | by apply Hrd].
      fold a. unfold user_range, PAGE_SIZE in *. lia. }
    rewrite zlen_snoc in Hrun, Hres'. fold a in Hrun, Hres'.
    replace (a + 1 + Z.of_nat n) with (a + Z.of_nat (S n)) in Hres' by lia. by exists res, s', o'.
  - destruct Hres as (Hl & -> & ->).
    destruct (rollback_ok s0 s o0 owner r virt (a + Z.of_nat (S n)) out) as (s' & o' & Hrun & Hm' & Hback);
      [done | done | done | fold a; lia | done | done |].
    exists (Err AlreadyMapped), s', o'. split; [by rewrite (st_bind_step _ _ _ _ _ Hrun) |].
    split; [done |]. split; [| done]. exists a. split; [lia |].
    rewrite <- (mv_leaves _ _ _ _ _ _ _ (st_moves _ _ _ _ _ _ _ Hst)); [done | done |].
    intros (i & Hix & E). fold a in Hix. revert E. apply range_page_ne; [apply Hpg; lia .. | lia].
Qed.
End Ranges.
