(* ===== verification/VmmCopy.v ===== *)
(** * Copies into user memory and the search for free ranges

    [copy_to_user] and [find_user_vm_range]. *)

From S2P Require Import Prelude Bytes Frames X86 Vmm VmmInv VmmProps VmmRanges.

#[local] Arguments child_of _ _ : simpl never.

Section Copy.
  Context {A : Type} {FA : FrameAllocator A} {PE : PageTableEntry} {PL : PageTableEntryLaws}.
  Context (managed : Z -> Z -> bool).

Abbreviation pt_inv s owner := (VmmInv.pt_inv s owner managed).
Abbreviation space_ok := (VmmProps.space_ok managed).
Abbreviation user_space := (VmmRanges.user_space managed).

(** ** Writing into the pages of a user half *)

(** Memory changed only inside frames that are user pages. *)
Definition data_write (owner : owner_map) (m m' : PhysMem) : Prop :=
  mem_ok m' /\ forall a, m' a <> m a -> exists o, owner !! frame_of a = Some o /\ length o.2 = 4%nat.

Lemma data_write_entry (s : Vmm A) (owner : owner_map) (m' : PhysMem) (f i : Z) (o : Z * list Z) :
  pt_inv s owner -> data_write owner (vm_mem s) m' -> owner !! f = Some o -> (length o.2 <= 3)%nat ->
  index_ok i -> entry m' f i = entry (vm_mem s) f i.
Proof.
  intros Hi [_ Hd] Hf Hl Hix. apply read64_ext. intros x Hx.
  destruct (decide (m' x = vm_mem s x)) as [| Hne]; [done |]. exfalso.
  apply Hd in Hne as (o' & Ho & Hl'). rewrite (frame_of_in f x) in Ho.
  - rewrite Hf in Ho. apply (inj Some) in Ho. subst o'. lia.
  - by apply (inv_frame _ _ _ Hi f o).
  - by eapply slot_in_frame.
Qed.

Lemma data_write_inv (s : Vmm A) (owner : owner_map) (m' : PhysMem) :
  pt_inv s owner -> data_write owner (vm_mem s) m' -> pt_inv (with_mem s m') owner.
Proof.
  intros Hi Hd. apply pt_inv_same_links; [done | apply Hd |]. intros f sp q i Hf Hl Hix.
  by rewrite (data_write_entry s owner m' f i (sp, q)).
Qed.

Lemma data_write_leaf (s : Vmm A) (owner : owner_map) (m' : PhysMem) (r va : Z) :
  pt_inv s owner -> data_write owner (vm_mem s) m' -> space_ok owner r va ->
  leaf m' r va = leaf (vm_mem s) r va.
Proof.
  intros Hi Hd [Hr Hm]. unfold leaf.
  rewrite (descend_same_links s m' owner managed (path3 va) r r []);
    [| done | | done | simpl; lia | apply path3_ok | done].
  - destruct (descend (vm_mem s) r (path3 va)) as [t |] eqn:E; [| done].
    destruct (root_walk s owner managed r va t Hi Hr Hm E) as [Ht Hl].
    by rewrite (data_write_entry s owner m' t _ _ Hi Hd Ht ltac:(lia) (pt_idx_ok va)).
  - intros f sp q i Hf Hl Hix. rewrite (data_write_entry s owner m' f i (sp, q)); [done .. | simpl; lia | done].
Qed.

(** ** Translations of the bytes of a user half *)

Lemma phys_for_virt_page (m : PhysMem) (r va e : Z) :
  leaf m r va = Some e -> phys_for_virt m r va = Some (pte_addr e + va mod 4096).
Proof. intros Hl. rewrite phys_for_virt_leaf, Hl. simpl. by rewrite land_fff. Qed.

Lemma leaf_same_page (m : PhysMem) (r va va' : Z) : va / 4096 = va' / 4096 -> leaf m r va = leaf m r va'.
Proof.
  intros E%(page_of_same r). apply (f_equal snd) in E. rewrite !page_of_path in E. unfold path3 in E. simpl in E.
  injection E as E1 E2 E3 E4. unfold leaf, path3. by rewrite E1, E2, E3, E4.
Qed.

(** Distinct user addresses are at distinct physical addresses. *)
Lemma phys_for_virt_inj (s : Vmm A) (owner : owner_map) (r v v' p : Z) :
  pt_inv s owner -> user_space owner r -> 0 <= v < 2 ^ 47 -> 0 <= v' < 2 ^ 47 ->
  phys_for_virt (vm_mem s) r v = Some p -> phys_for_virt (vm_mem s) r v' = Some p -> v = v'.
Proof.
  intros Hi Hu Hv Hv'. destruct (user_space_ok managed owner r v Hu Hv) as [Hs Huv].
  destruct (user_space_ok managed owner r v' Hu Hv') as [Hs' Huv'].
  rewrite !phys_for_virt_leaf, !land_fff. destruct (leaf _ r v) as [e |] eqn:E; [| done].
  destruct (leaf _ r v') as [e' |] eqn:E'; [| done]. simpl. intros [= <-] [= H].
  pose proof (leaf_frame_addr _ _ _ _ (inv_mem _ _ _ Hi) E) as [k Hk]%frame_addr_mul.
  pose proof (leaf_frame_addr _ _ _ _ (inv_mem _ _ _ Hi) E') as [k' Hk']%frame_addr_mul.
  pose proof (leaf_owner managed s owner r v e Hi Hs Huv E) as Ho.
  pose proof (leaf_owner managed s owner r v' e' Hi Hs' Huv' E') as Ho'.
  rewrite Hk, Hk' in *. unfold PAGE_SIZE in *.
  pose proof (Z.mod_pos_bound v 4096). pose proof (Z.mod_pos_bound v' 4096).
  assert (k = k') as -> by lia. rewrite Ho in Ho'. apply (inj Some) in Ho'.
  apply page_of_inj in Ho'; [| done | done].
  rewrite (Z.div_mod v 4096), (Z.div_mod v' 4096) by lia. lia.
Qed.

(** The frame behind a user address belongs to that page of that space. *)
Lemma phys_owner (s : Vmm A) (owner : owner_map) (r va p : Z) :
  pt_inv s owner -> user_space owner r -> 0 <= va < 2 ^ 47 -> phys_for_virt (vm_mem s) r va = Some p ->
  owner !! frame_of p = Some (page_of r va).
Proof.
  intros Hi Hu Hva. destruct (user_space_ok managed owner r va Hu Hva) as [Hs Huv].
  rewrite phys_for_virt_leaf, land_fff. destruct (leaf _ r va) as [e |] eqn:E; [| done]. intros [= <-].
  pose proof (leaf_owner managed s owner r va e Hi Hs Huv E) as Ho. rewrite (frame_of_in (pte_addr e)); [done | |].
  - by apply (inv_frame _ _ _ Hi _ _ Ho).
  - pose proof (Z.mod_pos_bound va 4096). unfold PAGE_SIZE. lia.
Qed.

(** No two pages of user halves share a frame, and the allocator has none of them. *)
Lemma frames_private (s : Vmm A) (owner : owner_map) (r r' va va' p p' : Z) :
  pt_inv s owner -> user_space owner r -> user_space owner r' -> 0 <= va < 2 ^ 47 -> 0 <= va' < 2 ^ 47 ->
  phys_for_virt (vm_mem s) r va = Some p -> phys_for_virt (vm_mem s) r' va' = Some p' -> frame_of p = frame_of p' ->
  r = r' /\ va / 4096 = va' / 4096.
Proof.
  intros Hi Hu Hu' Hva Hva' Hp Hp' E. pose proof (phys_owner s owner r va p Hi Hu Hva Hp) as Ho.
  rewrite E, (phys_owner s owner r' va' p' Hi Hu' Hva' Hp') in Ho. apply (inj Some) in Ho. symmetry in Ho.
  split; [| by eapply page_of_inj]. apply (f_equal fst) in Ho.
  destruct (user_space_ok managed owner r va Hu Hva) as [_ Huv], (user_space_ok managed owner r' va' Hu' Hva') as [_ Huv'].
  by rewrite !page_of_user in Ho.
Qed.

Lemma frame_taken (s : Vmm A) (owner : owner_map) (r va p : Z) :
  pt_inv s owner -> user_space owner r -> 0 <= va < 2 ^ 47 -> phys_for_virt (vm_mem s) r va = Some p ->
  ~ fa_avail (vm_frames s) (frame_of p).
Proof. intros Hi Hu Hva Hp. eapply (inv_frame _ _ _ Hi), phys_owner; done. Qed.

(** Every frame a walk of a user address passes by is owned. *)
Lemma descend_app (m : PhysMem) (t : Z) (p q : list Z) :
  descend m t (p ++ q) = match descend m t p with Some t' => descend m t' q | None => None end.
Proof. revert t. induction p as [| i p IH]; intros t; [done |]. simpl. by destruct (present _); [apply IH |]. Qed.

Lemma walk_owned (s : Vmm A) (owner : owner_map) (r va t : Z) (n : nat) :
  pt_inv s owner -> user_space owner r -> 0 <= va < 2 ^ 47 ->
  descend (vm_mem s) r (take n (path3 va ++ [pt_idx va])) = Some t -> is_Some (owner !! t).
Proof.
  intros Hi Hu Hva. destruct (user_space_ok managed owner r va Hu Hva) as [[Hr Hm] Huv].
  destruct (decide (n <= 3)%nat) as [Hn | Hn].
  - rewrite take_app_le by done. intros Hd. eapply mk_is_Some, (descend_owned s owner managed (take n (path3 va)) r t r []);
      [done | done | rewrite length_take; simpl; lia | apply Forall_take, path3_ok | | exact Hd].
    destruct n; [done |]. exact Hm.
  - rewrite take_ge by (rewrite length_app; simpl; lia). rewrite descend_app. intros Hd.
    apply mk_is_Some with (page_of r va). assert (exists e, leaf (vm_mem s) r va = Some e /\ pte_addr e = t) as (e & El & <-).
    { unfold leaf. destruct (descend _ r (path3 va)); [| done]. simpl in Hd. destruct (present _); [| done].
      eexists. split; [done |]. congruence. }
    by apply (leaf_owner managed s).
Qed.

(** The state of the copy after [w] bytes. *)
Record copied (s0 : Vmm A) (owner : owner_map) (r virt : Z) (bytes : list Z) (w : Z) (m : PhysMem) : Prop := {
  cp_data : data_write owner (vm_mem s0) m;
  cp_prefix : forall k b, bytes !! k = Some b -> Z.of_nat k < w -> exists p,
    phys_for_virt (vm_mem s0) r (virt + Z.of_nat k) = Some p /\ m p = b;
  cp_rest : forall a, (forall k, 0 <= k < zlen bytes -> phys_for_virt (vm_mem s0) r (virt + k) <> Some a) ->
    m a = vm_mem s0 a
}.

Lemma page_left_bound (va : Z) : page_left va = 4096 - va mod 4096 /\ 0 < page_left va <= 4096.
Proof.
  unfold page_left, PAGE_SIZE. change (4096 - 1) with 0xFFF. rewrite land_fff.
  pose proof (Z.mod_pos_bound va 4096). lia.
Qed.

(** Within a page, translation adds the offset. *)
Lemma phys_for_virt_chunk (m : PhysMem) (r va p j : Z) :
  phys_for_virt m r va = Some p -> 0 <= j < page_left va -> phys_for_virt m r (va + j) = Some (p + j).
Proof.
  intros Hp Hj. destruct (page_left_bound va) as [E _]. rewrite E in Hj.
  assert ((va + j) / 4096 = va / 4096 /\ (va + j) mod 4096 = va mod 4096 + j) as [Hd Hm].
  { pose proof (Z.div_mod va 4096). pose proof (Z.mod_pos_bound va 4096).
    split; symmetry; [apply (Z.div_unique _ _ _ (va mod 4096 + j)) | apply (Z.mod_unique _ _ (va / 4096))]; lia. }
  rewrite phys_for_virt_leaf, land_fff in Hp |- *. rewrite (leaf_same_page m r (va + j) va) by done.
  destruct (leaf m r va) as [e |]; [| done]. simpl in *. injection Hp as <-. f_equal. lia.
Qed.

Lemma copied_step (s0 : Vmm A) (owner : owner_map) (r virt w n p : Z) (bytes chunk : list Z) (m : PhysMem) :
  pt_inv s0 owner -> user_space owner r -> 0 <= virt -> virt + zlen bytes <= 2 ^ 47 -> Forall byte_ok bytes ->
  0 <= w -> w < zlen bytes -> n = Z.min (page_left (virt + w)) (zlen bytes - w) ->
  slice bytes w n = Ret chunk -> phys_for_virt (vm_mem s0) r (virt + w) = Some p ->
  copied s0 owner r virt bytes w m -> copied s0 owner r virt bytes (w + n) (store m p chunk).
Proof.
  intros Hi Hu Hv Hend Hb Hw Hlt Hn Hsl Hp Hc.
  destruct (page_left_bound (virt + w)) as [_ Hpl].
  pose proof (slice_length _ _ _ _ Hsl) as Hlen. apply slice_Ret in Hsl as (_ & _ & _ & Hchunk).
  assert (forall j, 0 <= j < n -> phys_for_virt (vm_mem s0) r (virt + (w + j)) = Some (p + j)) as Htr.
  { intros j Hj. rewrite Z.add_assoc. apply phys_for_virt_chunk; [done | lia]. }
  split.
  - split.
    + apply store_mem_ok; [apply Hc |]. rewrite Hchunk. by apply Forall_take, Forall_drop.
    + intros a Ha. destruct (decide (p <= a < p + zlen chunk)) as [Hin | Hout].
      2: { rewrite store_other in Ha by done. by apply (cp_data _ _ _ _ _ _ _ Hc). }
      assert (0 <= virt + w < 2 ^ 47) as Hva by lia. destruct (user_space_ok managed owner r _ Hu Hva) as [Hs Huv].
      rewrite phys_for_virt_leaf, land_fff in Hp. destruct (leaf _ _ _) as [e |] eqn:E; [| done].
      simpl in Hp. injection Hp as <-. exists (page_of r (virt + w)). rewrite page_of_path. split; [| done].
      rewrite (frame_of_in (pte_addr e)); [by apply (leaf_owner managed s0) | |].
      * eapply leaf_frame_addr; [| exact E]. apply Hi.
      * destruct (page_left_bound (virt + w)) as [E' _]. pose proof (Z.mod_pos_bound (virt + w) 4096).
        unfold PAGE_SIZE. lia.
  - intros k b Hk Hkw. destruct (decide (Z.of_nat k < w)) as [Hold | Hnew].
    + destruct (cp_prefix _ _ _ _ _ _ _ Hc k b Hk Hold) as (p' & Hp' & Hb'). exists p'. split; [done |].
      rewrite store_other; [done |]. intros Hin.
      assert (virt + Z.of_nat k = virt + (w + (p' - p))); [| lia].
      apply (phys_for_virt_inj s0 owner r _ _ p' Hi Hu); [lia | lia | done |]. rewrite Htr by lia. f_equal. lia.
    + exists (p + (Z.of_nat k - w)). split.
      { specialize (Htr (Z.of_nat k - w) ltac:(lia)). by replace (w + (Z.of_nat k - w)) with (Z.of_nat k) in Htr by lia. }
      unfold store. zcases; simpl; try lia. apply nth_lookup_Some. rewrite Hchunk.
      rewrite lookup_take_lt, lookup_drop by lia. rewrite <- Hk. f_equal. lia.
  - intros a Ha. rewrite store_other; [by apply (cp_rest _ _ _ _ _ _ _ Hc) |]. intros Hin.
    apply (Ha (w + (a - p))); [lia |]. rewrite Htr by lia. f_equal. lia.
Qed.

Lemma copy_loop_ok (s0 : Vmm A) (owner : owner_map) (r virt : Z) (bytes : list Z) (fuel : nat) (w : Z) (m : PhysMem) :
  pt_inv s0 owner -> user_space owner r -> 0 <= virt -> virt + zlen bytes <= 2 ^ 47 -> Forall byte_ok bytes ->
  0 <= w <= zlen bytes -> zlen bytes - w < Z.of_nat fuel -> copied s0 owner r virt bytes w m ->
  exists res m', copy_loop fuel r virt bytes w (with_mem s0 m) = Ret (res, with_mem s0 m') /\
    match res with
    | Ok _ => copied s0 owner r virt bytes (zlen bytes) m'
    | Err e => e = NoVirtualSpace /\ (exists w', copied s0 owner r virt bytes w' m') /\
               exists k, 0 <= k < zlen bytes /\ phys_for_virt (vm_mem s0) r (virt + k) = None
    end.
Proof.
  intros Hi Hu Hv Hend Hb. revert w m. induction fuel as [| fuel IH]; intros w m Hw Hfuel Hc; [lia |].
  cbn [copy_loop]. destruct (Z.leb_spec (zlen bytes) w) as [Hge | Hlt].
  { exists (Ok tt), m. split; [done |]. by replace (zlen bytes) with w by lia. }
  assert (0 <= virt + w < 2 ^ 47) as Hva by lia. destruct (user_space_ok managed owner r _ Hu Hva) as [Hs Huv].
  rewrite (st_bind_step _ _ _ (with_mem s0 m) (virt + w)); cycle 1.
  { unfold st_lift. by rewrite checked_fits by lia. }
  rewrite (st_bind_step _ _ _ (with_mem s0 m) m) by reflexivity.
  assert (phys_for_virt m r (virt + w) = phys_for_virt (vm_mem s0) r (virt + w)) as ->.
  { rewrite !phys_for_virt_leaf. by rewrite (data_write_leaf s0 owner m r _ Hi (cp_data _ _ _ _ _ _ _ Hc) Hs). }
  destruct (phys_for_virt (vm_mem s0) r (virt + w)) as [p |] eqn:Hp.
  2: { exists (Err NoVirtualSpace), m. split; [done |]. split; [done |]. split; [by exists w |]. exists w. split; [lia | done]. }
  set (n := Z.min (page_left (virt + w)) (zlen bytes - w)).
  destruct (page_left_bound (virt + w)) as [_ Hpl].
  assert (exists chunk, slice bytes w n = Ret chunk) as [chunk Hsl].
  { eexists. apply slice_Ret. split_and!; [lia | lia | lia | done]. }
  rewrite (st_bind_step _ _ _ (with_mem s0 m) chunk) by (unfold st_lift; by rewrite Hsl).
  rewrite (st_bind_step _ _ _ (with_mem s0 (store m p chunk)) tt) by reflexivity.
  apply IH; [lia | lia |]. apply (copied_step s0 owner r virt w n p bytes chunk m); (done || lia).
Qed.

Lemma copied_none (s0 : Vmm A) (owner : owner_map) (r virt : Z) (bytes : list Z) :
  pt_inv s0 owner -> copied s0 owner r virt bytes 0 (vm_mem s0).
Proof. intros Hi. split; [split; [apply Hi | done] | lia | done]. Qed.

(** What a copy leaves behind, whether it comes to an end or to a hole. *)
Definition copy_result (s0 : Vmm A) (owner : owner_map) (r virt : Z) (bytes : list Z)
    (res : result unit MapError) (m : PhysMem) : Prop :=
  match res with
  | Ok _ => copied s0 owner r virt bytes (zlen bytes) m
  | Err e => e = NoVirtualSpace /\ (exists w, copied s0 owner r virt bytes w m) /\
             exists k, 0 <= k < zlen bytes /\ phys_for_virt (vm_mem s0) r (virt + k) = None
  end.

Lemma copy_to_user_ok (s : Vmm A) (owner : owner_map) (r virt : Z) (bytes : list Z) :
  pt_inv s owner -> user_space owner r -> 0 <= virt -> virt + zlen bytes <= 2 ^ 47 -> Forall byte_ok bytes ->
  exists res m', copy_to_user r virt bytes s = Ret (res, with_mem s m') /\ copy_result s owner r virt bytes res m'.
Proof.
  intros Hi Hu Hv Hend Hb. unfold copy_to_user.
  destruct (copy_loop_ok s owner r virt bytes (S (length bytes)) 0 (vm_mem s)) as (res & m' & Hrun & Hres);
    [done .. | unfold zlen; lia | unfold zlen; lia | by apply copied_none |].
  exists res, m'. split; [| done]. rewrite <- Hrun. by destruct s.
Qed.

(** ** [zero_user] *)

Lemma copied_ext (s0 : Vmm A) (owner : owner_map) (r virt : Z) (bytes : list Z) (w : Z) (m m' : PhysMem) :
  (forall a, m' a = m a) -> copied s0 owner r virt bytes w m -> copied s0 owner r virt bytes w m'.
Proof.
  intros E [[H1 H2] H3 H4]. split.
  - split; [intros a; rewrite E; apply H1 | intros a; rewrite E; apply H2].
  - intros k b Hk Hw. destruct (H3 k b Hk Hw) as (p & ? & ?). exists p. split; [done | by rewrite E].
  - intros a Ha. by rewrite E, H4.
Qed.

(** Zeroing is copying zeros. *)
Lemma fill_store (m : PhysMem) (a n : Z) (x : Z) :
  0 <= n -> fill m a n 0 x = store m a (replicate (Z.to_nat n) 0) x.
Proof.
  intros Hn. unfold fill, store, zlen. rewrite length_replicate, Z2Nat.id by done.
  destruct ((a <=? x) && (x <? a + n)); [| done]. symmetry.
  destruct (nth_in_or_default (Z.to_nat (x - a)) (replicate (Z.to_nat n) 0) 0) as [Hin | ->]; [| done].
  by apply list_elem_of_In, elem_of_replicate in Hin as [-> _].
Qed.

Lemma zero_loop_ok (s0 : Vmm A) (owner : owner_map) (r virt len : Z) (fuel : nat) (w : Z) (m : PhysMem) :
  let bytes := replicate (Z.to_nat len) 0 in
  pt_inv s0 owner -> user_space owner r -> 0 <= virt -> virt + len <= 2 ^ 47 ->
  0 <= w <= len -> len - w < Z.of_nat fuel -> copied s0 owner r virt bytes w m ->
  exists res m', zero_loop fuel r virt len w (with_mem s0 m) = Ret (res, with_mem s0 m') /\
    copy_result s0 owner r virt bytes res m'.
Proof.
  intros bytes Hi Hu Hv Hend. assert (Forall byte_ok bytes) as Hb by (apply Forall_replicate; unfold byte_ok; lia).
  revert w m. induction fuel as [| fuel IH]; intros w m Hw Hfuel Hc; [lia |].
  assert (zlen bytes = len) as Hlen by (unfold bytes, zlen; rewrite length_replicate; lia).
  cbn [zero_loop]. destruct (Z.leb_spec len w) as [Hge | Hlt].
  { exists (Ok tt), m. split; [done |]. unfold copy_result. rewrite Hlen. by replace len with w by lia. }
  assert (0 <= virt + w < 2 ^ 47) as Hva by lia. destruct (user_space_ok managed owner r _ Hu Hva) as [Hs Huv].
  rewrite (st_bind_step _ _ _ (with_mem s0 m) (virt + w)); cycle 1.
  { unfold st_lift. by rewrite checked_fits by lia. }
  rewrite (st_bind_step _ _ _ (with_mem s0 m) m) by reflexivity.
  assert (phys_for_virt m r (virt + w) = phys_for_virt (vm_mem s0) r (virt + w)) as ->.
  { rewrite !phys_for_virt_leaf. by rewrite (data_write_leaf s0 owner m r _ Hi (cp_data _ _ _ _ _ _ _ Hc) Hs). }
  destruct (phys_for_virt (vm_mem s0) r (virt + w)) as [p |] eqn:Hp.
  2: { exists (Err NoVirtualSpace), m. split; [done |]. split; [done |]. split; [by exists w |]. exists w. split; [lia | done]. }
  set (n := Z.min (page_left (virt + w)) (len - w)). destruct (page_left_bound (virt + w)) as [_ Hpl].
  rewrite (st_bind_step _ _ _ (with_mem s0 (fill m p n 0)) tt) by reflexivity.
  apply IH; [lia | lia |]. eapply copied_ext; [intros a; apply fill_store; lia |].
  apply (copied_step s0 owner r virt w n p bytes _ m); try (done || lia).
  apply slice_Ret. rewrite Hlen. split_and!; [lia | lia | lia |]. unfold bytes.
  rewrite drop_replicate, take_replicate. f_equal. lia.
Qed.

Lemma zero_user_ok (s : Vmm A) (owner : owner_map) (r virt len : Z) :
  pt_inv s owner -> user_space owner r -> 0 <= virt -> 0 <= len -> virt + len <= 2 ^ 47 ->
  exists res m', zero_user r virt len s = Ret (res, with_mem s m') /\
    copy_result s owner r virt (replicate (Z.to_nat len) 0) res m'.
Proof.
  intros Hi Hu Hv Hl Hend. unfold zero_user.
  destruct (zero_loop_ok s owner r virt len (S (Z.to_nat len)) 0 (vm_mem s)) as (res & m' & Hrun & Hres);
    [done .. | lia | lia | by apply copied_none |].
  exists res, m'. split; [| done]. rewrite <- Hrun. by destruct s.
Qed.

(** ** [find_user_vm_range] *)

(** Page [j] of the IPC window. *)
Definition ipc_page (j : Z) : Z := USER_IPC_BASE + j * PAGE_SIZE.
Definition run_free (m : PhysMem) (r j n : Z) : Prop :=
  forall i, j <= i < j + n -> is_mapped_4k m r (ipc_page i) = false.
Definition run_blocked (m : PhysMem) (r j n : Z) : Prop :=
  exists i, j <= i < j + n /\ is_mapped_4k m r (ipc_page i) = true.
(** The window has [2 ^ 18] pages; the loop stops when the cursor, not the start
    of the run, leaves no room for [n] pages. *)
Definition reachable_run (j n : Z) : Prop := 0 <= j /\ j + 2 * n - 1 <= 2 ^ 18.

(** The answer is the first free run that leaves as much room behind it, less
    one page, as it takes. *)
Definition range_answer (m : PhysMem) (r n : Z) (o : option Z) : Prop :=
  match o with
  | Some v => exists j, v = ipc_page j /\ reachable_run j n /\ run_free m r j n /\
                        forall j', 0 <= j' < j -> run_blocked m r j' n
  | None => forall j, reachable_run j n -> run_blocked m r j n
  end.

Lemma find_range_loop_ok (m : PhysMem) (r n : Z) (fuel : nat) (start : option Z) (run c : Z) :
  0 < n < 2 ^ 40 -> 0 <= c <= 2 ^ 18 + 1 -> 2 ^ 18 + 1 - c < Z.of_nat fuel -> 0 <= run < n -> run <= c ->
  (0 < run -> start = Some (ipc_page (c - run))) -> run_free m r (c - run) run ->
  (forall j, 0 <= j < c - run -> run_blocked m r j n) ->
  exists o, find_range_loop fuel m r n start run (ipc_page c) = Ret o /\ range_answer m r n o.
Proof.
  intros Hn. revert start run c.
  induction fuel as [| fuel IH]; intros start run c Hc Hf Hrun Hrc Hst Hfree Hbl; [lia |].
  cbn [find_range_loop]. unfold ipc_page at 1, PAGE_SIZE, USER_IPC_BASE.
  rewrite checked_fits by lia. cbn [obind]. rewrite checked_fits by lia. cbn [obind].
  unfold USER_IPC_END. destruct (Z.ltb_spec 0x60000000 (0x20000000 + c * 4096 + n * 4096)) as [Hend | Hroom].
  { exists None. split; [done |]. intros j [Hj Hjn]. apply Hbl. lia. }
  change (0x20000000 + c * 4096) with (ipc_page c).
  replace (ipc_page c + 4096) with (ipc_page (c + 1)) by (unfold ipc_page, PAGE_SIZE; lia).
  destruct (is_mapped_4k m r (ipc_page c)) eqn:Hm.
  - apply IH; [lia | lia | lia | lia | lia | intros i; lia |].
    intros j Hj. destruct (decide (j < c - run)); [by apply Hbl; lia |]. exists c. split; [lia | done].
  - assert (run_free m r (c + 1 - (run + 1)) (run + 1)) as Hfree'.
    { intros i Hix. destruct (decide (i = c)) as [-> |]; [done | apply Hfree; lia]. }
    assert ((if run =? 0 then Some (ipc_page c) else start) = Some (ipc_page (c + 1 - (run + 1)))) as ->.
    { replace (c + 1 - (run + 1)) with (c - run) by lia.
      destruct (Z.eqb_spec run 0); [do 2 f_equal; lia | apply Hst; lia]. }
    destruct (Z.eqb_spec (run + 1) n) as [E | Hne].
    + exists (Some (ipc_page (c + 1 - (run + 1)))). split; [done |]. exists (c + 1 - (run + 1)).
      split; [done |]. split; [split; lia |]. split; [by rewrite <- E | intros j' Hj'; apply Hbl; lia].
    + apply IH; [lia | lia | lia | lia | done | done | intros j Hj; apply Hbl; lia].
Qed.

Lemma find_user_vm_range_ok (m : PhysMem) (r n : Z) :
  0 < n < 2 ^ 40 -> exists o, find_user_vm_range m r n = Ret o /\ range_answer m r n o.
Proof.
  intros Hn. unfold find_user_vm_range. change USER_IPC_BASE with (ipc_page 0).
  apply find_range_loop_ok; [done | lia | vm_compute; done | lia | lia | lia | intros i; lia | lia].
Qed.
End Copy.
