(* ===== verification/VmmSpec.v ===== *)
(** * Properties of the virtual memory manager

    New address spaces, and the theorems that state what the operations of
    [vmm.rs] promise. *)

From S2P Require Import Prelude Bytes Frames BootInfo Pmm X86 Vmm VmmInv VmmProps VmmRanges VmmCopy.

#[local] Arguments child_of _ _ : simpl never.

Section Spaces.
  Context {A : Type} {FA : FrameAllocator A} {PE : PageTableEntry} {PL : PageTableEntryLaws}.
  Context (managed : Z -> Z -> bool).

Abbreviation pt_inv s owner := (VmmInv.pt_inv s owner managed).
Abbreviation moves := (VmmProps.moves managed).
Abbreviation space_ok := (VmmProps.space_ok managed).

(** ** [new_user] *)

Lemma copy_entries_ok (src dst : Z) (l : list Z) (m : PhysMem) :
  frame_addr src -> frame_addr dst -> src <> dst -> Forall index_ok l -> mem_ok m ->
  let m' := foldl (copy_entry src dst) m l in
  mem_ok m' /\ (forall a, ~ dst <= a < dst + PAGE_SIZE -> m' a = m a) /\
  forall i, index_ok i -> entry m' dst i = if decide (i ∈ l) then entry m src i else entry m dst i.
Proof.
  intros Hsrc Hdst Hne. revert m. induction l as [| j l IH]; intros m Hl Hm; cbn [foldl].
  { split; [done |]. split; [done |]. intros i _. by destruct (decide (i ∈ [])) as [?%elem_of_nil |]. }
  apply Forall_cons in Hl as [Hj Hl]. unfold copy_entry at 2.
  pose proof (read64_range m (slot src j) Hm) as Hr. fold (entry m src j) in Hr.
  destruct (IH (write64 m (slot dst j) (entry m src j))) as (Hok & Hout & Hent); [done | by apply write64_mem_ok |].
  split; [done |]. split.
  - intros a Ha. rewrite Hout by done. apply write64_other. intros Hin. by apply Ha, slot_in_frame with j.
  - intros i Hi. rewrite Hent by done. rewrite entry_write_other; [| done | done | done | done | congruence].
    destruct (decide (i ∈ l)), (decide (i ∈ j :: l)) as [Hin | Hin]; try done.
    + by destruct Hin; right.
    + apply elem_of_cons in Hin as [-> | ?]; [| done]. by apply entry_write_same.
    + rewrite entry_write_other; [done | done | done | done | done |]. intros [= ->]. by destruct Hin; left.
Qed.

Lemma seqZ_index (a n : Z) : 0 <= a -> a + n <= 512 -> Forall index_ok (seqZ a n).
Proof. intros Ha Hn. apply Forall_seqZ. unfold index_ok. lia. Qed.

Section NewUser.
  Context (s : Vmm A) (owner : owner_map) (k c : Z) (s2 : Vmm A).
  Context (Hk : owner !! k = Some (k, [])) (Hshare : forall r i, 256 <= i -> managed r i = managed k i).
  Context (Hi2 : pt_inv s2 owner) (Hc : frame_addr c) (Hrd : frame_ready s2 owner c)
    (Hz : forall a, c <= a < c + PAGE_SIZE -> vm_mem s2 a = 0).

Let m' := foldl (copy_entry k c) (vm_mem s2) (seqZ 256 256).
Let owner' := <[c := (c, [])]> owner.

Lemma new_user_mem :
  mem_ok m' /\ (forall a, ~ c <= a < c + PAGE_SIZE -> m' a = vm_mem s2 a) /\
  forall i, index_ok i -> entry m' c i = if 256 <=? i then entry (vm_mem s2) k i else 0.
Proof.
  assert (k <> c) as Hkc by (intros ->; by rewrite (proj1 Hrd) in Hk).
  destruct (copy_entries_ok k c (seqZ 256 256) (vm_mem s2)) as (Hok & Hout & Hent);
    [by apply (inv_frame _ _ _ Hi2 _ _ Hk) | done | done | by apply seqZ_index | apply Hi2 |].
  split; [done |]. split; [done |]. intros i Hix. unfold m'. rewrite Hent by done.
  destruct (Z.leb_spec 256 i); destruct (decide (i ∈ seqZ 256 256)) as [E | E]; rewrite elem_of_seqZ in E; try done.
  - unfold index_ok in Hix. lia.
  - lia.
  - unfold entry. transitivity (read64 (fill (vm_mem s2) c PAGE_SIZE 0) (slot c i)).
    + apply read64_ext. intros x Hx. unfold fill. case_match; [| done]. apply Hz. zcases; lia.
    + by apply entry_fill_same.
Qed.

Lemma new_user_entry (f i : Z) (o : Z * list Z) :
  owner !! f = Some o -> index_ok i -> entry m' f i = entry (vm_mem s2) f i.
Proof.
  intros Hf Hix. apply read64_ext. intros x Hx. apply new_user_mem. intros Hin.
  apply slot_in_frame in Hx; [| done].
  assert (f = c) as ->; [| by rewrite (proj1 Hrd) in Hf].
  rewrite <- (frame_of_in f x), <- (frame_of_in c x); [done | done | done | | done].
  by apply (inv_frame _ _ _ Hi2 f o).
Qed.

Lemma new_user_inv : pt_inv (with_mem s2 m') owner'.
Proof.
  destruct new_user_mem as (Hok & Hout & Hent).
  assert (forall f o, owner !! f = Some o -> owner' !! f = Some o) as Hsub.
  { intros f o Hf. unfold owner'. rewrite lookup_insert_ne; [done |]. intros <-. by rewrite (proj1 Hrd) in Hf. }
  split; simpl; [done | apply Hi2 | | | | |]; unfold owner'.
  - intros f o [[<- _] | [_ Hf]]%lookup_insert_Some; [split; [done | apply Hrd] | by apply (inv_frame _ _ _ Hi2 f o)].
  - intros f sp p [[_ [= <- <-]] | [_ Hf]]%lookup_insert_Some; [simpl; lia | by apply (inv_len _ _ _ Hi2 f sp)].
  - intros f r [[<- [= <-]] | [_ Hf]]%lookup_insert_Some; [done | by apply (inv_root _ _ _ Hi2)].
  - intros f sp p i [[<- [= <- <-]] | [_ Hf]]%lookup_insert_Some Hix Hl Hmg Hp; apply Hsub.
    + rewrite Hent in Hp |- * by done. destruct (Z.leb_spec 256 i) as [Hge | Hlt]; [| by rewrite present_unused in Hp].
      rewrite (inv_child _ _ _ Hi2 k k [] i Hk Hix); [| left; simpl; lia | | done].
      * unfold child_of. cbn [fst snd]. by rewrite (proj2 (Z.ltb_ge i 256)) by lia.
      * intros _. rewrite <- (Hshare c i Hge). by apply Hmg.
    + rewrite (new_user_entry f i (sp, p)) in Hp |- * by done. by apply (inv_child _ _ _ Hi2).
  - intros g sp p i [[<- E] | [_ Hg]]%lookup_insert_Some Hsp.
    + apply (f_equal snd) in E. simpl in E. by destruct p.
    + destruct (inv_back _ _ _ Hi2 g sp p i Hg Hsp) as (f & Hf & Hix & Hp & Ha).
      exists f. rewrite (new_user_entry f i (sp, p)) by done. split; [by apply Hsub | done].
Qed.

Lemma new_user_descend (p : list Z) (t sp : Z) (q : list Z) :
  owner !! t = Some (sp, q) -> (length q + length p <= 3)%nat -> Forall index_ok p -> may_walk managed t q p ->
  descend m' t p = descend (vm_mem s2) t p.
Proof.
  apply descend_same_links; [done |]. intros f sp' q' i Hf _ Hix. by rewrite (new_user_entry f i (sp', q')).
Qed.

Lemma new_user_leaf (r va : Z) : space_ok owner r va -> leaf m' r va = leaf (vm_mem s2) r va.
Proof.
  intros [Hr Hm]. unfold leaf. rewrite (new_user_descend (path3 va) r r []);
    [| done | simpl; lia | apply path3_ok | done].
  destruct (descend (vm_mem s2) r (path3 va)) as [t |] eqn:E; [| done].
  destruct (root_walk s2 owner managed r va t Hi2 Hr Hm E) as [Ht _].
  by rewrite (new_user_entry t _ _ Ht (pt_idx_ok va)).
Qed.

(** The new PML4: an empty user half and the kernel half of [k]. *)
Lemma new_user_root (va : Z) :
  managed k (pml4_idx va) = true \/ user_va va ->
  leaf m' c va = if pml4_idx va <? 256 then None else leaf (vm_mem s2) k va.
Proof.
  intros Hcase. destruct new_user_mem as (_ & _ & Hent).
  assert (index_ok (pml4_idx va)) as Hix by apply land_1FF_range.
  unfold leaf at 1. unfold path3. cbn [descend]. rewrite Hent by done.
  destruct (Z.ltb_spec (pml4_idx va) 256) as [Hlt | Hge].
  { by rewrite (proj2 (Z.leb_gt 256 (pml4_idx va)) Hlt), present_unused. }
  rewrite (proj2 (Z.leb_le 256 (pml4_idx va)) Hge).
  assert (managed k (pml4_idx va) = true) as Hm by (destruct Hcase as [? | Hu]; [done | unfold user_va in Hu; lia]).
  unfold leaf, path3. cbn [descend]. destruct (present (entry (vm_mem s2) k (pml4_idx va))) eqn:Hp; [| done].
  pose proof (inv_child _ _ _ Hi2 k k [] (pml4_idx va) Hk Hix ltac:(left; simpl; lia) ltac:(done) Hp) as Hch.
  set (t1 := pte_addr _) in *. change [pdpt_idx va; pd_idx va] with (drop 1 (path3 va)).
  change (if present (entry m' t1 (pdpt_idx va)) then _ else None) with (descend m' t1 (drop 1 (path3 va))).
  change (if present (entry (vm_mem s2) t1 (pdpt_idx va)) then _ else None)
    with (descend (vm_mem s2) t1 (drop 1 (path3 va))).
  assert (may_walk managed t1 [pml4_idx va] (drop 1 (path3 va))) as Hw by done.
  assert (Forall index_ok (drop 1 (path3 va))) as Hf by apply Forall_drop, path3_ok.
  rewrite (new_user_descend (drop 1 (path3 va)) t1 _ _ Hch) by (done || (simpl; lia)).
  destruct (descend (vm_mem s2) t1 (drop 1 (path3 va))) as [t |] eqn:E; [| done].
  eapply descend_owned in E; [| exact Hi2 | exact Hch | simpl; lia | done | done].
  by rewrite (new_user_entry t _ _ E (pt_idx_ok va)).
Qed.
End NewUser.

(** ** Theorems *)

Lemma phys_of_leaf (m m' : PhysMem) (r va : Z) :
  leaf m' r va = leaf m r va -> phys_for_virt m' r va = phys_for_virt m r va.
Proof. intros E. by rewrite !phys_for_virt_leaf, E. Qed.

Lemma phys_via_addr (m : PhysMem) (r va : Z) :
  phys_for_virt m r va = (fun a => a + Z.land va 0xFFF) <$> (pte_addr <$> leaf m r va).
Proof. rewrite phys_for_virt_leaf. by destruct (leaf m r va). Qed.

Lemma phys_at_offset (m : PhysMem) (r va e off : Z) :
  leaf m r va = Some e -> va mod 4096 = 0 -> 0 <= off < PAGE_SIZE ->
  phys_for_virt m r (va + off) = Some (pte_addr e + off).
Proof.
  intros Hl Hva Hoff. apply phys_for_virt_chunk.
  - rewrite (phys_for_virt_page m r va e Hl), Hva. f_equal. lia.
  - destruct (page_left_bound va) as [-> _]. unfold PAGE_SIZE in Hoff. lia.
Qed.

(** C3 [map_4k] keeps the page tables well formed and translates exactly the
    page it was asked to map: after [Ok] every byte of the page is found at
    the frame given, with the flags asked for; on every error no translation
    of any address space has changed; and in all cases no other page of any
    address space is affected.  The page is refused when it is misaligned or
    mapped already, and [OutOfMemory] means that no frame is left. *)
Theorem map_4k_correct (s : Vmm A) (owner : owner_map) (r va phys fl : Z) :
  pt_inv s owner -> space_ok owner r va -> 0 <= phys < 2 ^ 52 ->
  (user_va va -> frame_ready s owner phys) ->
  exists res s' owner', map_4k r va phys fl s = Ret (res, s') /\ pt_inv s' owner' /\ spaces_kept owner owner' /\
    (forall r' va', space_ok owner r' va' -> page_of r' va' <> page_of r va \/ res <> Ok tt ->
       phys_for_virt (vm_mem s') r' va' = phys_for_virt (vm_mem s) r' va') /\
    match res with
    | Ok _ => va mod 4096 = 0 /\ phys mod 4096 = 0 /\ phys_for_virt (vm_mem s) r va = None /\
        (exists e, leaf (vm_mem s') r va = Some e /\ pte_flags e = leaf_flags fl) /\
        forall off, 0 <= off < PAGE_SIZE -> phys_for_virt (vm_mem s') r (va + off) = Some (phys + off)
    | Err Misaligned => (va mod 4096 <> 0 \/ phys mod 4096 <> 0) /\ s' = s
    | Err AlreadyMapped => is_Some (phys_for_virt (vm_mem s) r va)
    | Err OutOfMemory => forall f, frame_addr f -> ~ fa_avail (vm_frames s') f
    | Err NoVirtualSpace => False
    end.
Proof.
  intros Hi Hs Hph Hrd. destruct (map_4k_ok managed s owner r va phys fl) as (res & s' & o' & Hrun & Hm & Hres); [done .. |].
  assert (forall er, res = Err er -> VmmInv.step_ok managed s owner s' o') as Hstep.
  { intros er ->. destruct er; simpl in Hres; by destruct_and?. }
  exists res, s', o'. split; [done |]. split; [apply Hm |]. split; [by eapply moves_spaces |]. split.
  - intros r' va' Hs' Hor. apply phys_of_leaf. destruct res as [[] | er].
    + apply (mv_leaves _ _ _ _ _ _ _ Hm); [done |]. destruct Hor as [Hne | ?]; [| done]. intros E. by apply Hne.
    + destruct Hs'. by apply (so_leaves _ _ _ _ _ (Hstep er eq_refl)).
  - destruct res as [[] | []]; simpl in Hres; [| by destruct_and? | | by destruct_and? | done].
    + destruct Hres as (Hva & Hpm & Hnone & e & Hl & <- & Hfl). split; [done |]. split; [done |].
      split; [by rewrite phys_for_virt_leaf, Hnone |]. split; [by exists e |].
      intros off Hoff. by apply phys_at_offset.
    + rewrite phys_for_virt_leaf, fmap_is_Some. apply Hres.
Qed.

(** C28 [unmap_4k] of a canonical address removes that translation and no other,
    returns the frame that backed it, and returns [None] without changing
    anything when the page was not mapped; a user page's frame then belongs to
    nobody and can be mapped elsewhere. *)
Theorem unmap_4k_correct (s : Vmm A) (owner : owner_map) (r va : Z) :
  pt_inv s owner -> space_ok owner r va -> canonical va ->
  exists res s' owner', unmap_4k r va s = Ret (res, s') /\ pt_inv s' owner' /\ spaces_kept owner owner' /\
    phys_for_virt (vm_mem s') r va = None /\
    (forall r' va', space_ok owner r' va' -> page_of r' va' <> page_of r va ->
       phys_for_virt (vm_mem s') r' va' = phys_for_virt (vm_mem s) r' va') /\
    match res with
    | Some phys => phys_for_virt (vm_mem s) r va = Some (phys + va mod 4096) /\
                   (user_va va -> frame_ready s' owner' phys)
    | None => phys_for_virt (vm_mem s) r va = None /\ s' = s
    end.
Proof.
  intros Hi Hs Hc. destruct (unmap_4k_ok managed s owner r va) as (res & s' & o' & Hrun & Hm & Hnone & Hres); [done .. |].
  exists res, s', o'. split; [done |]. split; [apply Hm |]. split; [by eapply moves_spaces |].
  split; [by rewrite phys_for_virt_leaf, Hnone |]. split.
  - intros r' va' Hs' Hne. apply phys_of_leaf, (mv_leaves _ _ _ _ _ _ _ Hm); [done |]. intros E. by apply Hne.
  - destruct res as [phys |].
    + destruct Hres as ((e & Hl & <-) & _ & Hrd). split; [by apply phys_for_virt_page | done].
    + destruct Hres as (Hl & -> & _). by rewrite phys_for_virt_leaf, Hl.
Qed.

(** C29 [map_anon] over a range of a user half: on [Ok] every page of the range is
    backed by a zero-filled frame with the flags asked for.  The allocator had
    the frame available and has it no more, and it is behind this page only: no
    other page of the range, and no page of any address space, is at that frame.
    Pages outside the range keep their translation; an error has the cause it
    names. *)
Theorem map_anon_correct (s : Vmm A) (owner : owner_map) (r virt pages fl : Z) :
  pt_inv s owner -> VmmRanges.user_space managed owner r -> user_range virt pages ->
  exists res s' owner', map_anon r virt pages fl s = Ret (res, s') /\ pt_inv s' owner' /\ spaces_kept owner owner' /\
    (forall r' va', space_ok owner r' va' -> ~ in_range r virt 0 pages (page_of r' va') ->
       phys_for_virt (vm_mem s') r' va' = phys_for_virt (vm_mem s) r' va') /\
    anon_result s s' r virt 0 pages fl res /\
    (res = Ok tt -> forall i, 0 <= i < pages -> exists p,
       phys_for_virt (vm_mem s') r (virt + i * PAGE_SIZE) = Some p /\
       fa_avail (vm_frames s) (frame_of p) /\ ~ fa_avail (vm_frames s') (frame_of p) /\
       forall r' va' p', VmmRanges.user_space managed owner r' -> 0 <= va' < 2 ^ 47 ->
         phys_for_virt (vm_mem s') r' va' = Some p' -> frame_of p' = frame_of p ->
         r' = r /\ va' / 4096 = (virt + i * PAGE_SIZE) / 4096).
Proof.
  intros Hi Hu Hrg. assert (0 <= pages) as Hp by (unfold user_range in Hrg; lia).
  destruct (map_anon_loop_ok managed r virt fl (Z.to_nat pages) 0 s owner) as (res & s' & o' & Hrun & Hm & Hres);
    [done | done | | lia |]; rewrite ?Z2Nat.id, ?Z.add_0_l in * by lia; [done |].
  exists res, s', o'. split; [done |]. split; [apply Hm |]. split; [by eapply moves_spaces |]. split.
  { intros r' va' Hs' Hne. by apply phys_of_leaf, (mv_leaves _ _ _ _ _ _ _ Hm). }
  split; [done |]. intros -> i Hix. destruct (Hres i) as (e & _ & Hl & _ & Hav & _); [lia |].
  assert (0 <= virt + i * PAGE_SIZE < 2 ^ 47) as Hva by (eapply (range_page virt 0); [exact Hrg | lia | lia]).
  pose proof (phys_for_virt_page _ _ _ _ Hl) as Hph. eexists. split; [exact Hph |].
  pose proof (user_space_moves managed _ _ _ _ _ _ _ Hm Hu) as Hu'. pose proof (mv_inv _ _ _ _ _ _ _ Hm) as Hi'.
  split; [| split; [by eapply (frame_taken managed s' o') |]].
  - rewrite (frame_of_in (pte_addr e)); [done | | pose proof (Z.mod_pos_bound (virt + i * PAGE_SIZE) 4096); unfold PAGE_SIZE in *; lia].
    eapply leaf_frame_addr; [apply Hi' | exact Hl].
  - intros r' va' p' Hr' Hva' Hp' E.
    eapply (frames_private managed s' o' r' r va' _ p'); [done | by eapply user_space_moves | done ..].
Qed.

(** C30 [steal_pages] is transactional on translations: with every page of the
    range mapped it detaches them all and returns their frames in order, none
    of which is owned by anyone afterwards; with a hole in the range it fails
    and every page of the range is backed by the frame it had before.  No page
    outside the range is affected either way. *)
Theorem steal_pages_correct (s : Vmm A) (owner : owner_map) (r virt pages : Z) :
  pt_inv s owner -> VmmRanges.user_space managed owner r -> user_range virt pages -> virt mod 4096 = 0 ->
  exists res s' owner', steal_pages r virt pages s = Ret (res, s') /\ pt_inv s' owner' /\ spaces_kept owner owner' /\
    (forall r' va', space_ok owner r' va' -> ~ in_range r virt 0 pages (page_of r' va') ->
       phys_for_virt (vm_mem s') r' va' = phys_for_virt (vm_mem s) r' va') /\
    match res with
    | Ok frames => zlen frames = pages /\ in_flight s' owner' frames /\
        forall i f, frames !! i = Some f ->
          phys_for_virt (vm_mem s) r (virt + Z.of_nat i * PAGE_SIZE) = Some f /\
          phys_for_virt (vm_mem s') r (virt + Z.of_nat i * PAGE_SIZE) = None
    | Err AlreadyMapped =>
        (exists i, 0 <= i < pages /\ phys_for_virt (vm_mem s) r (virt + i * PAGE_SIZE) = None) /\
        forall i, 0 <= i < pages -> phys_for_virt (vm_mem s') r (virt + i * PAGE_SIZE) =
                                  phys_for_virt (vm_mem s) r (virt + i * PAGE_SIZE)
    | Err _ => False
    end.
Proof.
  intros Hi Hu Hrg Hal. assert (0 <= pages < 2 ^ 36) as Hp by (unfold user_range, PAGE_SIZE in Hrg; lia).
  unfold steal_pages. rewrite land_fff, Hal. simpl negb. cbv iota.
  rewrite (proj2 (Z.leb_gt (2 ^ 63) (pages * 8))) by lia.
  destruct (steal_loop_ok managed s owner r virt (Z.to_nat pages) [] s owner) as (res & s' & o' & Hrun & Hres);
    [done | done | done | | by apply stolen_nil |]; change (zlen []) with 0 in *;
    rewrite ?Z2Nat.id, ?Z.add_0_l in * by lia; [done |].
  assert (forall i, (virt + i * PAGE_SIZE) mod 4096 = 0) as Hmod.
  { intros i. unfold PAGE_SIZE. by rewrite Z.mod_add by lia. }
  exists res, s', o'. split; [done |]. destruct res as [frames | []]; try done.
  - destruct Hres as [Hst Hlen]. split; [apply Hst |].
    split; [eapply moves_spaces, (st_moves _ _ _ _ _ _ _ _ Hst) |]. split.
    { intros r' va' Hs' Hne. apply phys_of_leaf, (mv_leaves _ _ _ _ _ _ _ (st_moves _ _ _ _ _ _ _ _ Hst)); [done |].
      by rewrite Hlen. }
    split; [done |].
    split; [by apply (stolen_in_flight managed s s' owner o' r virt frames Hi Hu); rewrite ?Hlen |].
    intros i f Hf. destruct (st_out _ _ _ _ _ _ _ _ Hst i f Hf) as (e & Hl & <-).
    split; [rewrite (phys_for_virt_page _ _ _ _ Hl), Hmod; f_equal; lia |].
    destruct (st_vacated _ _ _ _ _ _ _ _ Hst (Z.of_nat i)) as [Hn _].
    { apply lookup_lt_Some in Hf. unfold zlen. lia. }
    by rewrite phys_for_virt_leaf, Hn.
  - destruct Hres as (Hm & (i & Hix & Hl) & Hback). split; [apply Hm |]. split; [by eapply moves_spaces |]. split.
    { intros r' va' Hs' Hne. by apply phys_of_leaf, (mv_leaves _ _ _ _ _ _ _ Hm). }
    split; [exists i; split; [done | by rewrite phys_for_virt_leaf, Hl] |].
    intros j Hj. by rewrite !phys_via_addr, Hback.
Qed.

(** The bytes of a stolen frame survive until it is mapped again. *)
Lemma transfer_data P1 P2 D (s s1 s2 : Vmm A) (owner o1 o2 : owner_map) (r va f e p : Z) :
  moves P1 (fun _ => False) s owner s1 o1 -> moves P2 D s1 o1 s2 o2 ->
  VmmRanges.user_space managed o2 r -> 0 <= va < 2 ^ 47 -> leaf (vm_mem s2) r va = Some e -> pte_addr e = f ->
  frame_addr f -> frame_ready s1 o1 f -> ~ fa_avail (vm_frames s) f -> f <= p < f + PAGE_SIZE ->
  vm_mem s2 p = vm_mem s p.
Proof.
  intros H1 H2 Hu Hva Hl Hea Hfa [Hn1 Ha1] Ha Hin. pose proof (frame_of_in f p Hfa Hin) as E.
  destruct (user_space_ok managed o2 r va Hu Hva) as [Hs Huv].
  rewrite (mv_data _ _ _ _ _ _ _ H2), (mv_data _ _ _ _ _ _ _ H1); rewrite ?E; try done.
  - intros o Ho. congruence.
  - intros o Ho. pose proof (leaf_owner managed s2 o2 r va e (mv_inv _ _ _ _ _ _ _ H2) Hs Huv Hl) as Ho'.
    rewrite Hea, Ho in Ho'. injection Ho' as ->. by rewrite page_of_path.
Qed.

(** C7 Zero-copy hand-over: when [steal_pages] succeeds and [install_pages] then
    maps its result in another (or the same) address space, byte [off] of page
    [i] is at the same physical address for the receiver as it was for the
    sender, and still holds the same value.  [install_pages] can only fail
    because a target page is taken or no frame is left for a table. *)
Theorem page_transfer (s : Vmm A) (owner : owner_map) (r1 r2 v1 v2 pages : Z) :
  pt_inv s owner -> VmmRanges.user_space managed owner r1 -> VmmRanges.user_space managed owner r2 ->
  user_range v1 pages -> user_range v2 pages -> v1 mod 4096 = 0 -> v2 mod 4096 = 0 ->
  exists res1 s1, steal_pages r1 v1 pages s = Ret (res1, s1) /\
    match res1 with
    | Err _ => exists i, 0 <= i < pages /\ phys_for_virt (vm_mem s) r1 (v1 + i * PAGE_SIZE) = None
    | Ok frames => exists res2 s2, install_pages r2 v2 frames s1 = Ret (res2, s2) /\
        match res2 with
        | Ok _ => forall i off, 0 <= i < pages -> 0 <= off < PAGE_SIZE -> exists p,
            phys_for_virt (vm_mem s) r1 (v1 + i * PAGE_SIZE + off) = Some p /\
            phys_for_virt (vm_mem s2) r2 (v2 + i * PAGE_SIZE + off) = Some p /\
            vm_mem s2 p = vm_mem s p
        | Err AlreadyMapped => exists i, 0 <= i < pages /\ is_Some (phys_for_virt (vm_mem s1) r2 (v2 + i * PAGE_SIZE))
        | Err OutOfMemory => forall f, frame_addr f -> ~ fa_avail (vm_frames s2) f
        | Err _ => False
        end
    end.
Proof.
  intros Hi Hu1 Hu2 Hr1 Hr2 Ha1 Ha2.
  assert (0 <= pages < 2 ^ 36) as Hp by (unfold user_range, PAGE_SIZE in Hr1; lia).
  destruct (steal_loop_ok managed s owner r1 v1 (Z.to_nat pages) [] s owner) as (res & s1 & o1 & Hrun & Hres);
    [done | done | done | | by apply stolen_nil |]; change (zlen []) with 0 in *;
    rewrite ?Z2Nat.id, ?Z.add_0_l in * by lia; [done |].
  exists res, s1. split.
  { unfold steal_pages. rewrite land_fff, Ha1. simpl negb. cbv iota.
    by rewrite (proj2 (Z.leb_gt (2 ^ 63) (pages * 8))) by lia. }
  destruct res as [frames | []]; [| done | | done | done].
  2: { destruct Hres as (_ & (i & Hix & Hl) & _). exists i. split; [done |]. by rewrite phys_for_virt_leaf, Hl. }
  destruct Hres as [Hst Hlen]. pose proof (st_moves _ _ _ _ _ _ _ _ Hst) as Hm1.
  destruct (stolen_in_flight managed s s1 owner o1 r1 v1 frames) as [Hfl Hown]; [done | done | by rewrite Hlen | done |].
  destruct (install_loop_ok managed r2 v2 frames 0 s1 o1) as (res2 & s2 & o2 & Hins & Hm2 & Hres2);
    [apply Hm1 | by eapply user_space_moves | by rewrite Hlen | lia | done | done |].
  exists res2, s2. split; [done |]. rewrite Hlen, ?Z.add_0_l in Hres2.
  destruct res2 as [[] | []]; [| done | | done | done].
  2: { destruct Hres2 as (i & Hix & Hl). exists i. split; [done |]. by rewrite phys_for_virt_leaf, fmap_is_Some. }
  intros i off Hix Hoff. destruct (lookup_lt_is_Some_2 frames (Z.to_nat i)) as [f Hf]; [unfold zlen in Hlen; lia |].
  destruct (st_out _ _ _ _ _ _ _ _ Hst _ _ Hf) as (e & Hl & Hea), (Hres2 _ _ Hf) as (e2 & Hl2 & Hea2 & _).
  rewrite Z.add_0_l in Hl2. rewrite !Z2Nat.id in Hl, Hl2 by lia.
  assert (forall v, v mod 4096 = 0 -> (v + i * PAGE_SIZE) mod 4096 = 0) as Hmod.
  { intros v Hv. unfold PAGE_SIZE. by rewrite Z.mod_add by lia. }
  exists (f + off). split; [rewrite <- Hea; by apply phys_at_offset; [| apply Hmod |] |].
  split; [rewrite <- Hea2; by apply phys_at_offset; [| apply Hmod |] |].
  destruct Hfl as [_ Hfl]. rewrite Forall_lookup in Hfl. destruct (Hfl _ _ Hf) as [Hfa Hrd].
  eapply (transfer_data _ _ _ s s1 s2 owner o1 o2 r2 (v2 + i * PAGE_SIZE) f e2 (f + off));
    [exact Hm1 | exact Hm2 | | | done | done | done | done | | lia].
  - eapply user_space_moves; [exact Hm2 |]. by eapply user_space_moves.
  - apply (range_page v2 0 pages); [by rewrite Z.add_0_l | lia | lia].
  - rewrite Forall_lookup in Hown. destruct (Hown _ _ Hf) as [o Ho]. by apply (inv_frame _ _ _ Hi f o).
Qed.

(** C31 [copy_to_user] into a mapped range returns [Ok], every byte can be read back
    through the translation of its address, no translation changes and no
    other byte of memory is written; when a page of the range is missing it
    returns [NoVirtualSpace]. *)
Theorem copy_to_user_correct (s : Vmm A) (owner : owner_map) (r virt : Z) (bytes : list Z) :
  pt_inv s owner -> VmmRanges.user_space managed owner r -> 0 <= virt -> virt + zlen bytes <= 2 ^ 47 ->
  Forall byte_ok bytes ->
  exists res s', copy_to_user r virt bytes s = Ret (res, s') /\ pt_inv s' owner /\
    (forall r' va, space_ok owner r' va -> phys_for_virt (vm_mem s') r' va = phys_for_virt (vm_mem s) r' va) /\
    (forall a, (forall k, 0 <= k < zlen bytes -> phys_for_virt (vm_mem s) r (virt + k) <> Some a) ->
       vm_mem s' a = vm_mem s a) /\
    match res with
    | Ok _ => forall k b, bytes !! k = Some b -> exists p,
        phys_for_virt (vm_mem s') r (virt + Z.of_nat k) = Some p /\ vm_mem s' p = b
    | Err e => e = NoVirtualSpace /\ exists k, 0 <= k < zlen bytes /\ phys_for_virt (vm_mem s) r (virt + k) = None
    end.
Proof.
  intros Hi Hu Hv Hend Hb.
  destruct (copy_to_user_ok managed s owner r virt bytes) as (res & m' & Hrun & Hres); [done .. |].
  assert (exists w, VmmCopy.copied s owner r virt bytes w m' /\ (res = Ok tt -> w = zlen bytes)) as (w & Hc & Hw).
  { destruct res as [[] | e]; [by exists (zlen bytes) |]. destruct Hres as (_ & (w & ?) & _). by exists w. }
  pose proof (cp_data _ _ _ _ _ _ _ Hc) as Hd.
  assert (forall r' va, space_ok owner r' va -> phys_for_virt m' r' va = phys_for_virt (vm_mem s) r' va) as Hsame.
  { intros r' va Hs. by apply phys_of_leaf, (data_write_leaf managed s owner). }
  exists res, (with_mem s m'). split; [done |].
  split; [by apply data_write_inv |]. split; [done |]. split; [apply Hc |].
  destruct res as [[] | e]; [| by destruct Hres as (? & _ & ?)].
  intros k b Hk. assert (0 <= virt + Z.of_nat k < 2 ^ 47) as Hva.
  { apply lookup_lt_Some in Hk. unfold zlen in *. lia. }
  destruct (user_space_ok managed owner r _ Hu Hva) as [Hs _]. simpl. rewrite Hsame by done.
  apply (cp_prefix _ _ _ _ _ _ _ Hc k b); [done |].
  rewrite Hw by done. apply lookup_lt_Some in Hk. unfold zlen. lia.
Qed.

Lemma new_user_ok (s : Vmm A) (owner : owner_map) (k : Z) :
  pt_inv s owner -> KERNEL_AS s = Some k -> owner !! k = Some (k, []) ->
  (forall r i, 256 <= i -> managed r i = managed k i) ->
  exists res s' owner', new_user s = Ret (res, s') /\ pt_inv s' owner' /\
    (forall r va, space_ok owner r va -> phys_for_virt (vm_mem s') r va = phys_for_virt (vm_mem s) r va) /\
    (forall a o, owner !! frame_of a = Some o -> length o.2 = 4%nat -> vm_mem s' a = vm_mem s a) /\
    owner ⊆ owner' /\
    match res with
    | Some r => owner !! r = None /\ owner' !! r = Some (r, []) /\ fa_avail (vm_frames s) r /\
        (forall va, user_va va -> phys_for_virt (vm_mem s') r va = None) /\
        (forall va, ~ user_va va -> managed k (pml4_idx va) = true ->
           phys_for_virt (vm_mem s') r va = phys_for_virt (vm_mem s) k va)
    | None => s' = s /\ forall f, frame_addr f -> ~ fa_avail (vm_frames s) f
    end.
Proof.
  intros Hi HK Hk Hshare. unfold new_user.
  destruct (alloc_zeroed managed s owner (fun _ => False) (fun _ => False) Hi)
    as [(s1 & Hal & -> & Hno) | (c & s1 & s2 & Hal & Hfl & Hm2 & Hc & Hav & Hrd & Hz)];
    rewrite (st_bind_step _ _ _ _ _ Hal).
  { exists None, s, owner. done. }
  rewrite (st_bind_step _ _ _ _ _ Hfl), (st_bind_step _ _ s2 s2 s2) by reflexivity.
  destruct (mv_statics _ _ _ _ _ _ _ Hm2) as [HK2 _]. rewrite HK2, HK.
  rewrite (st_bind_step _ _ s2 (with_mem s2 (foldl (copy_entry k c) (vm_mem s2) (seqZ 256 256))) tt) by reflexivity.
  pose proof (mv_inv _ _ _ _ _ _ _ Hm2) as Hi2.
  assert (forall r va, space_ok owner r va -> leaf (vm_mem s2) r va = leaf (vm_mem s) r va) as Hl2.
  { intros r va Hs. apply (mv_leaves _ _ _ _ _ _ _ Hm2); [done |]. intros []. }
  eexists (Some c), _, (<[c := (c, [])]> owner). split; [reflexivity |].
  split; [by apply new_user_inv |]. cbn [vm_mem with_mem]. split.
  { intros r va Hs. apply phys_of_leaf. rewrite (new_user_leaf owner k c s2) by done. by apply Hl2. }
  split.
  { intros a o Ho Hl. destruct (inv_frame _ _ _ Hi _ _ Ho) as [Hfa Hna].
    transitivity (vm_mem s2 a).
    - apply (new_user_mem owner k c s2); [done .. |]. intros Hin. rewrite (frame_of_in c a Hc Hin) in Ho.
      rewrite (proj1 Hrd) in Ho. done.
    - apply (mv_data _ _ _ _ _ _ _ Hm2); [done | | done]. intros o' Ho'. rewrite Ho in Ho'. by injection Ho' as <-. }
  split; [apply insert_subseteq, Hrd |]. split; [apply Hrd |]. split; [apply lookup_insert_eq |]. split; [done |]. split.
  - intros va Hu. rewrite phys_for_virt_leaf, (new_user_root owner k c s2) by (done || by right).
    by rewrite (proj2 (Z.ltb_lt _ _) Hu).
  - intros va Hu Hmg. rewrite !phys_for_virt_leaf.
    rewrite (new_user_root owner k c s2) by (done || by left). apply Z.nlt_ge in Hu.
    rewrite (proj2 (Z.ltb_ge _ _) Hu). by rewrite Hl2.
Qed.

(** C32 [new_user] gives an address space whose user half is empty and whose kernel
    half translates as the kernel's does, on a fresh PML4, and leaves every
    other address space alone; it answers [None] only when no frame is left. *)
Theorem new_user_correct (s : Vmm A) (owner : owner_map) (k : Z) :
  pt_inv s owner -> KERNEL_AS s = Some k -> owner !! k = Some (k, []) ->
  (forall r i, 256 <= i -> managed r i = managed k i) ->
  exists res s' owner', new_user s = Ret (res, s') /\ pt_inv s' owner' /\
    (forall r va, space_ok owner r va -> phys_for_virt (vm_mem s') r va = phys_for_virt (vm_mem s) r va) /\
    match res with
    | Some r => owner !! r = None /\ owner' !! r = Some (r, []) /\ fa_avail (vm_frames s) r /\
        (forall va, user_va va -> phys_for_virt (vm_mem s') r va = None) /\
        (forall va, ~ user_va va -> managed k (pml4_idx va) = true ->
           phys_for_virt (vm_mem s') r va = phys_for_virt (vm_mem s) k va)
    | None => s' = s /\ forall f, frame_addr f -> ~ fa_avail (vm_frames s) f
    end.
Proof.
  intros Hi HK Hk Hshare. destruct (new_user_ok s owner k Hi HK Hk Hshare) as (res & s' & o' & E & H1 & H2 & _ & _ & H3).
  by exists res, s', o'.
Qed.
End Spaces.

(** [find_user_vm_range] always returns, and the range it returns is free,
    page-aligned, inside the IPC window, and the first such one among those
    that leave room behind them for as many pages, less one, as were asked. *)
Theorem find_user_vm_range_correct `{PageTableEntry} (m : PhysMem) (r pages : Z) :
  0 < pages < 2 ^ 40 -> exists o, find_user_vm_range m r pages = Ret o /\ range_answer m r pages o.
Proof. apply find_user_vm_range_ok. Qed.

(** The search gives up although the window is free: a request for more than
    half of the 1 GiB IPC window is refused whatever is mapped, even in an
    address space with nothing mapped at all. *)
Theorem find_user_vm_range_misses `{PageTableEntry} (m : PhysMem) (r pages : Z) :
  2 ^ 17 < pages <= 2 ^ 18 -> find_user_vm_range m r pages = Ret None.
Proof.
  intros Hp. destruct (find_user_vm_range_ok m r pages) as ([v |] & -> & Ho); [lia | | done].
  destruct Ho as (j & _ & [Hj Hr] & _). lia.
Qed.

(** ** Witnesses *)

(** Memory of zeroes, seven free frames, and two empty PML4s at 0x9000 and
    0xA000, the first of them the kernel's. *)
Definition vm_demo_frames : PmmState :=
  Eval vm_compute in
    match init [mkRegion 0x1000 0x8000 Usable; mkRegion 0x9000 0x17000 Reserved] with
    | Ret st => st
    | _ => pmm_statics
    end.
Definition vm_demo : Vmm PmmState := mkVmm (fun _ => 0) vm_demo_frames (Some 0x9000) MMIO_VA_BASE 0x9000.
Definition vm_demo_owner : owner_map := {[ 0x9000 := (0x9000, []); 0xA000 := (0xA000, []) ]}.
Definition all_managed (r i : Z) : bool := true.

Lemma vm_demo_roots (f : Z) (o : Z * list Z) :
  vm_demo_owner !! f = Some o -> (f = 0x9000 \/ f = 0xA000) /\ o = (f, []).
Proof.
  unfold vm_demo_owner. intros [[<- <-] | [_ [<- <-]%lookup_singleton_Some]]%lookup_insert_Some; auto.
Qed.

Lemma vm_demo_entry (f i : Z) : present (entry (vm_mem vm_demo) f i) = false.
Proof.
  unfold entry, vm_demo. cbn [vm_mem]. replace (read64 (fun _ => 0) (slot f i)) with 0; [apply present_unused | done].
Qed.

Lemma vm_demo_frames_ok : fa_ok vm_demo_frames.
Proof.
  split; [split_and!; [| reflexivity ..] |].
  - split; [reflexivity | vm_compute; split; congruence | reflexivity | vm_compute; split; congruence].
  - right. exists 2. split; [vm_compute; split; congruence | reflexivity].
Qed.

Lemma vm_demo_inv : VmmInv.pt_inv vm_demo vm_demo_owner all_managed.
Proof.
  split.
  - intros a. unfold byte_ok, vm_demo. simpl. lia.
  - apply vm_demo_frames_ok.
  - intros f o [[-> | ->] _]%vm_demo_roots; (split; [by split |]; vm_compute; by intros [_ [=]]).
  - intros f sp p [_ [= _ ->]]%vm_demo_roots. simpl. lia.
  - intros f r [_ [= ->]]%vm_demo_roots. done.
  - intros f sp p i _ _ _ _ Hp. by rewrite vm_demo_entry in Hp.
  - intros g sp p i [_ [= _ E]]%vm_demo_roots. by destruct p.
Qed.

Lemma vm_demo_space (r : Z) : r = 0x9000 \/ r = 0xA000 -> VmmRanges.user_space all_managed vm_demo_owner r.
Proof. intros [-> | ->]; (split; [reflexivity | done]). Qed.

Lemma vm_demo_ready : frame_ready vm_demo vm_demo_owner 0xB000.
Proof. split; [reflexivity |]. vm_compute. by intros [_ [=]]. Qed.

(** The same with frame 0xB000 mapped at 0x400000 of the first. *)
Lemma vm_demo_mapped : exists s owner, VmmInv.pt_inv s owner all_managed /\
  VmmRanges.user_space all_managed owner 0x9000 /\ VmmRanges.user_space all_managed owner 0xA000 /\
  phys_for_virt (vm_mem s) 0x9000 0x400000 = Some 0xB000.
Proof.
  destruct (map_4k_ok all_managed vm_demo vm_demo_owner 0x9000 0x400000 0xB000 STEAL_FLAGS)
    as (res & s & o & Hrun & Hm & Hres);
    [apply vm_demo_inv | split; reflexivity | lia | intros _; apply vm_demo_ready |].
  exists s, o. split; [apply Hm |].
  split; [eapply user_space_moves; [exact Hm |]; apply vm_demo_space; by left |].
  split; [eapply user_space_moves; [exact Hm |]; apply vm_demo_space; by right |].
  assert (match map_4k 0x9000 0x400000 0xB000 STEAL_FLAGS vm_demo with Ret (Ok _, _) => true | _ => false end = true)
    as Hok by (vm_compute; reflexivity).
  rewrite Hrun in Hok. destruct res as [[] | er]; [| done].
  destruct Hres as (_ & _ & _ & e & Hl & He & _). by rewrite (phys_for_virt_page _ _ _ _ Hl), He.
Qed.

Lemma map_4k_correct_witness : exists res s' owner',
  map_4k 0x9000 0x400000 0xB000 STEAL_FLAGS vm_demo = Ret (res, s') /\
  VmmInv.pt_inv s' owner' all_managed.
Proof.
  destruct (map_4k_correct all_managed vm_demo vm_demo_owner 0x9000 0x400000 0xB000 STEAL_FLAGS)
    as (res & s' & o' & Hrun & Hi & _);
    [apply vm_demo_inv | split; reflexivity | lia | intros _; apply vm_demo_ready | exists res, s', o'; exact (conj Hrun Hi)].
Defined.

Lemma unmap_4k_correct_witness : exists s s', phys_for_virt (vm_mem s) 0x9000 0x400000 = Some 0xB000 /\
  @unmap_4k PmmState _ 0x9000 0x400000 s = Ret (Some 0xB000, s') /\
  phys_for_virt (vm_mem s') 0x9000 0x400000 = None.
Proof.
  destruct vm_demo_mapped as (s & o & Hi & [Hr _] & _ & Hp).
  destruct (unmap_4k_correct all_managed s o 0x9000 0x400000) as (res & s' & o' & Hrun & _ & _ & Hn & _ & Hres);
    [done | by split | left; lia |].
  exists s, s'. split; [done |]. split; [| done]. rewrite Hrun, Hp in *.
  destruct res as [phys |]; [| by destruct Hres]. destruct Hres as [[= ->] _]. by rewrite Z.add_0_r.
Defined.

Lemma map_anon_correct_witness : exists s' p0 p1,
  map_anon 0x9000 0x400000 2 STEAL_FLAGS vm_demo = Ret (Ok tt, s') /\
  phys_for_virt (vm_mem s') 0x9000 0x400000 = Some p0 /\ phys_for_virt (vm_mem s') 0x9000 0x401000 = Some p1 /\
  fa_avail vm_demo_frames (frame_of p0) /\ frame_of p1 <> frame_of p0.
Proof.
  destruct (map_anon_correct all_managed vm_demo vm_demo_owner 0x9000 0x400000 2 STEAL_FLAGS)
    as (res & s' & o' & Hrun & _ & _ & _ & _ & Hok);
    [apply vm_demo_inv | apply vm_demo_space; by left | unfold user_range, PAGE_SIZE; lia |].
  assert (match map_anon 0x9000 0x400000 2 STEAL_FLAGS vm_demo with Ret (Ok _, _) => true | _ => false end = true)
    as H by (vm_compute; reflexivity).
  rewrite Hrun in H. destruct res as [[] | er]; [| discriminate H].
  destruct (Hok eq_refl 0 ltac:(lia)) as (p0 & H0 & Hav & _ & Honly), (Hok eq_refl 1 ltac:(lia)) as (p1 & H1 & _).
  exists s', p0, p1. split; [exact Hrun |]. split; [exact H0 |]. split; [exact H1 |]. split; [exact Hav |]. intros E.
  destruct (Honly 0x9000 (0x400000 + 1 * PAGE_SIZE) p1) as [_ E'];
    [apply vm_demo_space; by left | vm_compute; split; congruence | exact H1 | exact E | vm_compute in E'; discriminate E'].
Defined.

Lemma steal_pages_correct_witness : exists s s' frames,
  phys_for_virt (vm_mem s) 0x9000 0x400000 = Some 0xB000 /\
  @steal_pages PmmState _ _ 0x9000 0x400000 1 s = Ret (Ok frames, s') /\ zlen frames = 1.
Proof.
  destruct vm_demo_mapped as (s & o & Hi & Hu & _ & Hp).
  destruct (steal_pages_correct all_managed s o 0x9000 0x400000 1) as (res & s' & o' & Hrun & _ & _ & _ & Hres);
    [done | done | unfold user_range, PAGE_SIZE; lia | done |].
  destruct res as [frames | []]; [exists s, s', frames; exact (conj Hp (conj Hrun (proj1 Hres))) | done | | done | done].
  destruct Hres as [(i & Hi' & Hn) _]. assert (i = 0) as -> by lia. change (0x400000 + 0 * PAGE_SIZE) with 0x400000 in Hn. by rewrite Hp in Hn.
Defined.

Lemma page_transfer_witness : exists s s1 frames,
  phys_for_virt (vm_mem s) 0x9000 0x400000 = Some 0xB000 /\
  @steal_pages PmmState _ _ 0x9000 0x400000 1 s = Ret (Ok frames, s1) /\
  exists res2 s2, install_pages 0xA000 0x800000 frames s1 = Ret (res2, s2).
Proof.
  destruct vm_demo_mapped as (s & o & Hi & Hu & Hu2 & Hp).
  destruct (page_transfer all_managed s o 0x9000 0xA000 0x400000 0x800000 1) as (res & s1 & Hrun & Hres);
    [done | done | done | unfold user_range, PAGE_SIZE; lia | unfold user_range, PAGE_SIZE; lia | done | done |].
  destruct res as [frames | e].
  - destruct Hres as (res2 & s2 & H2 & _). exists s, s1, frames. split; [exact Hp |]. split; [exact Hrun |].
    exists res2, s2. exact H2.
  - destruct Hres as (i & Hi' & Hn). assert (i = 0) as -> by lia. change (0x400000 + 0 * PAGE_SIZE) with 0x400000 in Hn. by rewrite Hp in Hn.
Defined.

Lemma copy_to_user_correct_witness : exists s s',
  phys_for_virt (vm_mem s) 0x9000 0x400010 = Some 0xB010 /\
  @copy_to_user PmmState _ 0x9000 0x400010 [104; 105] s = Ret (Ok tt, s') /\ vm_mem s' 0xB011 = 105.
Proof.
  destruct vm_demo_mapped as (s & o & Hi & Hu & _ & Hp).
  assert (forall k, 0 <= k < 4096 -> phys_for_virt (vm_mem s) 0x9000 (0x400000 + k) = Some (0xB000 + k)) as Hpk.
  { intros k Hk. by apply phys_for_virt_chunk. }
  destruct (copy_to_user_correct all_managed s o 0x9000 0x400010 [104; 105]) as (res & s' & Hrun & _ & Ht & _ & Hres);
    [done | done | lia | vm_compute; congruence | repeat constructor; lia |].
  exists s, s'. split; [by apply (Hpk 0x10) |]. destruct res as [[] | e].
  - split; [done |]. destruct (Hres 1%nat 105 eq_refl) as (p & Hp' & Hb).
    rewrite Ht in Hp' by (apply user_space_ok; [done | lia]). specialize (Hpk 0x11 ltac:(lia)).
    change (0x400000 + 0x11) with (0x400010 + Z.of_nat 1) in Hpk. rewrite Hpk in Hp'. by injection Hp' as <-.
  - destruct Hres as (_ & k & Hk & Hn). change (zlen [104; 105]) with 2 in Hk.
    specialize (Hpk (0x10 + k) ltac:(lia)). rewrite Z.add_assoc in Hpk.
    change (0x400000 + 0x10) with 0x400010 in Hpk. by rewrite Hn in Hpk.
Defined.

Lemma new_user_correct_witness : exists res s' owner',
  new_user vm_demo = Ret (res, s') /\ VmmInv.pt_inv s' owner' all_managed.
Proof.
  destruct (new_user_correct all_managed vm_demo vm_demo_owner 0x9000) as (res & s' & o' & Hrun & Hi & _);
    [apply vm_demo_inv | reflexivity | reflexivity | done | exists res, s', o'; exact (conj Hrun Hi)].
Defined.

Lemma find_user_vm_range_correct_witness :
  exists o, find_user_vm_range (vm_mem vm_demo) 0x9000 16 = Ret o /\ range_answer (vm_mem vm_demo) 0x9000 16 o.
Proof. apply (find_user_vm_range_correct (vm_mem vm_demo) 0x9000 16). lia. Defined.

Lemma find_user_vm_range_misses_witness : find_user_vm_range (vm_mem vm_demo) 0x9000 200000 = Ret None.
Proof. apply (find_user_vm_range_misses (vm_mem vm_demo) 0x9000 200000). lia. Defined.
