(* ===== verification/Asm.v ===== *)
(** * Assembly of the context switch and the system-call entry

    The naked functions of [sched/mod.rs], [sched/task.rs] and
    [arch/x86_64/syscall.rs] as lists of the instructions they are made of, with
    the semantics of those instructions on a register file and memory, and the
    initial kernel stacks [spawn_idle] and [spawn_user] build for them. *)

From S2P Require Import Prelude Bytes.

(** ** Machine *)

Inductive reg : Type :=
  | RAX | RBX | RCX | RDX | RSI | RDI | RBP | RSP
  | R8 | R9 | R10 | R11 | R12 | R13 | R14 | R15.

#[global] Instance reg_eq_dec : EqDecision reg.
Proof. solve_decision. Defined.

Record Cpu : Type := mkCpu {
  regs : reg -> Z;
  rip : Z;
  cs : Z;
  ss : Z;
  rflags : Z;
  star : Z;                (* the IA32_STAR register *)
  cmem : PhysMem
}.

Definition set_reg (c : Cpu) (r : reg) (v : Z) : Cpu :=
  mkCpu (fun r' => if decide (r' = r) then v else regs c r') (rip c) (cs c) (ss c) (rflags c) (star c) (cmem c).
Definition set_cmem (c : Cpu) (a v : Z) : Cpu :=
  mkCpu (regs c) (rip c) (cs c) (ss c) (rflags c) (star c) (write64 (cmem c) a v).
Definition set_rip (c : Cpu) (v : Z) : Cpu :=
  mkCpu (regs c) v (cs c) (ss c) (rflags c) (star c) (cmem c).

Inductive instr : Type :=
  | PUSH (r : reg)
  | PUSH_AT (a : Z)        (* push qword ptr [a] *)
  | POP (r : reg)
  | MOV (d s : reg)
  | MOV_TO (b s : reg)     (* mov [b], s *)
  | MOV_TO_AT (a : Z) (s : reg)
  | MOV_FROM_AT (d : reg) (a : Z)
  | AND_RSP_16             (* and rsp, -16 *)
  | ADD_RSP (n : Z)
  | CALL (f : Cpu -> Cpu)  (* a function of the C ABI, from call to return *)
  | RET
  | IRETQ
  | SYSRETQ.

Definition push (c : Cpu) (v : Z) : Cpu :=
  let sp := wrap 64 (regs c RSP - 8) in set_cmem (set_reg c RSP sp) sp v.
Definition top (c : Cpu) : Z := read64 (cmem c) (regs c RSP).
(** [pop r] writes [r] after the stack pointer, so [pop rsp] loads [rsp]. *)
Definition pop (c : Cpu) (r : reg) : Cpu :=
  set_reg (set_reg c RSP (wrap 64 (regs c RSP + 8))) r (top c).

Definition step (c : Cpu) (i : instr) : Cpu :=
  match i with
  | PUSH r => push c (regs c r)
  | PUSH_AT a => push c (read64 (cmem c) a)
  | POP r => pop c r
  | MOV d s => set_reg c d (regs c s)
  | MOV_TO b s => set_cmem c (regs c b) (regs c s)
  | MOV_TO_AT a s => set_cmem c a (regs c s)
  | MOV_FROM_AT d a => set_reg c d (read64 (cmem c) a)
  | AND_RSP_16 => set_reg c RSP (Z.land (regs c RSP) (2 ^ 64 - 16))
  | ADD_RSP n => set_reg c RSP (wrap 64 (regs c RSP + n))
  | CALL f => f c
  | RET => set_rip (set_reg c RSP (wrap 64 (regs c RSP + 8))) (top c)
  | IRETQ =>
      let sp := regs c RSP in
      mkCpu (fun r => if decide (r = RSP) then read64 (cmem c) (sp + 24) else regs c r)
        (read64 (cmem c) sp) (read64 (cmem c) (sp + 8)) (read64 (cmem c) (sp + 32))
        (read64 (cmem c) (sp + 16)) (star c) (cmem c)
  | SYSRETQ =>
      let base := Z.shiftr (star c) 48 in
      mkCpu (regs c) (regs c RCX) (Z.lor (base + 16) 3) (Z.lor (base + 8) 3)
        (Z.lor (Z.land (regs c R11) 0x3C7FD7) 2) (star c) (cmem c)
  end.
Definition exec (c : Cpu) (l : list instr) : Cpu := foldl step c l.

(** ** The naked functions *)

(** The tail shared by [switch_context], [run] and the bootstrap path of
    [schedule]. *)
Definition resume : list instr := [POP R15; POP R14; POP R13; POP R12; POP RBP; POP RBX; RET].

(** [switch_context(prev_rsp = rdi, next_rsp = rsi)]. *)
Definition switch_context : list instr :=
  [PUSH RBX; PUSH RBP; PUSH R12; PUSH R13; PUSH R14; PUSH R15; MOV_TO RDI RSP; MOV RSP RSI] ++ resume.

(** [run], and [schedule] without a previous task: [mov rsp, {rsp}] first. *)
Definition bootstrap (r : reg) : list instr := MOV RSP r :: resume.

Definition enter_user : list instr := [IRETQ].

(** [syscall_entry], with the addresses of [USER_RSP_SCRATCH] and
    [SYSCALL_STACK_TOP] and the compiled [dispatch]. *)
Definition syscall_save (user_rsp stack_top : Z) : list instr :=
  [MOV_TO_AT user_rsp RSP; MOV_FROM_AT RSP stack_top; AND_RSP_16; PUSH_AT user_rsp;
   PUSH RCX; PUSH R11; PUSH RDI; PUSH RSI; PUSH RDX; PUSH R10; PUSH R8; PUSH R9;
   PUSH RBX; PUSH RBP; PUSH R12; PUSH R13; PUSH R14; PUSH R15; MOV RCX R10; PUSH RAX].
Definition syscall_restore : list instr :=
  [ADD_RSP 8; POP R15; POP R14; POP R13; POP R12; POP RBP; POP RBX; POP R9; POP R8; POP R10;
   POP RDX; POP RSI; POP RDI; POP R11; POP RCX; POP RSP; SYSRETQ].
Definition syscall_entry (user_rsp stack_top : Z) (dispatch : Cpu -> Cpu) : list instr :=
  syscall_save user_rsp stack_top ++ [CALL dispatch] ++ syscall_restore.

(** The value [init_bsp] writes to IA32_STAR. *)
Definition star_value (kernel_code user_data : Z) : Z :=
  Z.lor (Z.shiftl kernel_code 32) (Z.shiftl (user_data - 8) 48).

(** ** Initial stacks *)

Definition KSTACK_SIZE : Z := 16 * 1024.

(** [sp -= 8; ptr::write(sp as *mut u64, v)] for each value. *)
Definition push_word (sm : Z * PhysMem) (v : Z) : Z * PhysMem :=
  let sp := sm.1 - 8 in (sp, write64 sm.2 sp v).
Definition push_words (sp : Z) (m : PhysMem) (l : list Z) : Z * PhysMem := foldl push_word (sp, m) l.

(** [spawn_idle]: a return address and six zeroed callee-saved registers. *)
Definition idle_stack (m : PhysMem) (kstack entry : Z) : Z * PhysMem :=
  push_words (kstack + KSTACK_SIZE) m (entry :: replicate 6 0).

(** [spawn_user]: the IRETQ frame below the top of the kernel stack, then
    [enter_user] as the return address of the switch. *)
Definition USER_RFLAGS : Z := 0x202.
Definition user_stack (m : PhysMem) (kstack user_code user_data entry_user stack_user enter_user_addr : Z) :
    Z * PhysMem :=
  push_words (kstack + KSTACK_SIZE) m
    ([Z.lor user_data 3; stack_user; USER_RFLAGS; Z.lor user_code 3; entry_user; enter_user_addr]
       ++ replicate 6 0).

(** ** Sequences of pushes and pops *)

Definition word (v : Z) : Prop := 0 <= v < 2 ^ 64.

(** Memory agrees outside [[lo, hi)]. *)
Definition same_outside (m m' : PhysMem) (lo hi : Z) : Prop := forall a, a < lo \/ hi <= a -> m' a = m a.

Lemma read64_same_outside (m m' : PhysMem) (lo hi a : Z) :
  same_outside m m' lo hi -> a + 8 <= lo \/ hi <= a -> read64 m' a = read64 m a.
Proof. intros Hs Ha. apply read64_ext. intros x Hx. apply Hs. lia. Qed.

Lemma pops_spec (rs : list reg) (c : Cpu) :
  NoDup rs -> RSP ∉ rs -> 0 <= regs c RSP -> regs c RSP + 8 * zlen rs < 2 ^ 64 ->
  let c' := exec c (POP <$> rs) in
  regs c' RSP = regs c RSP + 8 * zlen rs /\ cmem c' = cmem c /\ rip c' = rip c /\ star c' = star c /\
  (forall k r, rs !! k = Some r -> regs c' r = read64 (cmem c) (regs c RSP + 8 * Z.of_nat k)) /\
  (forall r, r ∉ rs -> r <> RSP -> regs c' r = regs c r).
Proof.
  revert c. induction rs as [| r rs IH]; intros c Hnd Hsp H0 Hend c'.
  { subst c'. simpl. unfold zlen. simpl. split_and!; [lia | done | done | done | by intros | done]. }
  apply NoDup_cons in Hnd as [Hr Hnd]. apply not_elem_of_cons in Hsp as [Hrsp Hsp].
  assert (zlen (r :: rs) = 1 + zlen rs) as Hl by (unfold zlen; simpl; lia).
  assert (0 <= zlen rs) by (unfold zlen; lia).
  assert (regs (pop c r) RSP = regs c RSP + 8) as Hp.
  { unfold pop. simpl. rewrite decide_False by done. unfold wrap. rewrite Z.mod_small; lia. }
  destruct (IH (pop c r)) as (H1 & H2 & H3 & H3' & H4 & H5); [done | done | lia | lia |].
  change (exec c (POP <$> r :: rs)) with (exec (pop c r) (POP <$> rs)) in c'. subst c'.
  rewrite Hp in *. split_and!; [lia | by rewrite H2 | by rewrite H3 | by rewrite H3' | |].
  - intros [| k] q Hq; simpl in Hq.
    + injection Hq as <-. rewrite H5 by done. unfold pop. simpl. rewrite decide_True by done.
      unfold top. f_equal. lia.
    + rewrite (H4 k q Hq). cbn [cmem pop set_reg]. f_equal. lia.
  - intros q [Hq Hq']%not_elem_of_cons Hqs. rewrite H5 by done. unfold pop. simpl.
    by rewrite !decide_False by done.
Qed.

Lemma pushes_spec (rs : list reg) (c : Cpu) :
  RSP ∉ rs -> 8 * zlen rs <= regs c RSP < 2 ^ 64 -> (forall r, r ∈ rs -> word (regs c r)) ->
  let c' := exec c (PUSH <$> rs) in
  (forall r, regs c' r = if decide (r = RSP) then regs c RSP - 8 * zlen rs else regs c r) /\
  same_outside (cmem c) (cmem c') (regs c RSP - 8 * zlen rs) (regs c RSP) /\ star c' = star c /\
  (forall k r, rs !! k = Some r -> read64 (cmem c') (regs c RSP - 8 * (Z.of_nat k + 1)) = regs c r).
Proof.
  revert c. induction rs as [| r rs IH]; intros c Hsp Hend Hw c'.
  { subst c'. unfold zlen. simpl. split_and!; [| by intros a _ | done | by intros].
    intros r. destruct (decide (r = RSP)) as [-> |]; [lia | done]. }
  apply not_elem_of_cons in Hsp as [Hrsp Hsp].
  assert (zlen (r :: rs) = 1 + zlen rs) as Hl by (unfold zlen; simpl; lia).
  assert (0 <= zlen rs) by (unfold zlen; lia).
  set (c1 := push c (regs c r)).
  assert (regs c1 RSP = regs c RSP - 8) as Hp.
  { unfold c1, push. simpl. unfold wrap. rewrite Z.mod_small; lia. }
  assert (forall q, q <> RSP -> regs c1 q = regs c q) as Hq.
  { intros q Hne. unfold c1, push. simpl. by rewrite decide_False. }
  assert (cmem c1 = write64 (cmem c) (regs c RSP - 8) (regs c r)) as Hm.
  { unfold c1, push. simpl. unfold wrap. rewrite Z.mod_small by lia. done. }
  destruct (IH c1) as (H1 & H2 & H2' & H3); [done | lia | |].
  { intros q Hin. rewrite Hq by (intros ->; done). apply Hw. by right. }
  change (exec c (PUSH <$> r :: rs)) with (exec c1 (PUSH <$> rs)) in c'. subst c'. rewrite Hp in *.
  split_and!.
  - intros q. rewrite H1. destruct (decide (q = RSP)); [lia | by apply Hq].
  - intros a Ha. rewrite H2 by lia. rewrite Hm. apply write64_other. lia.
  - by rewrite H2'.
  - intros [| k] q Hk; simpl in Hk.
    + injection Hk as <-. rewrite (read64_same_outside _ _ _ _ _ H2) by lia. rewrite Hm.
      replace (regs c RSP - 8 * (Z.of_nat 0 + 1)) with (regs c RSP - 8) by lia.
      apply read_write64_same. apply Hw. by left.
    + replace (regs c RSP - 8 * (Z.of_nat (S k) + 1)) with (regs c RSP - 8 - 8 * (Z.of_nat k + 1)) by lia.
      rewrite (H3 k q Hk). apply Hq. intros ->. apply Hsp. by eapply list_elem_of_lookup_2.
Qed.

Lemma exec_app (c : Cpu) (l1 l2 : list instr) : exec c (l1 ++ l2) = exec (exec c l1) l2.
Proof. apply foldl_app. Qed.

(** Read a field of an updated machine. *)
Ltac cpu := cbn [exec foldl enter_user step regs rip cs ss rflags star cmem set_rip set_reg set_cmem].

(** ** Switching contexts *)

Definition callee_saved : list reg := [RBX; RBP; R12; R13; R14; R15].

Lemma resume_spec (c : Cpu) :
  0 <= regs c RSP -> regs c RSP + 56 < 2 ^ 64 ->
  let c' := exec c resume in
  regs c' RSP = regs c RSP + 56 /\ cmem c' = cmem c /\ rip c' = read64 (cmem c) (regs c RSP + 48) /\
  (forall k r, rev callee_saved !! k = Some r -> regs c' r = read64 (cmem c) (regs c RSP + 8 * Z.of_nat k)).
Proof.
  intros H0 Hend c'. unfold resume in c'.
  destruct (pops_spec (rev callee_saved) c) as (H1 & H2 & _ & _ & H3 & _);
    [by apply (bool_decide_unpack _) | by apply (bool_decide_unpack _) | done | change (zlen _) with 6; lia |].
  change (zlen (rev callee_saved)) with 6 in H1.
  change (exec c _) with (step (exec c (POP <$> rev callee_saved)) RET) in c'.
  set (c1 := exec c (POP <$> rev callee_saved)) in *. subst c'. cbn [step]. split_and!.
  - cpu. rewrite decide_True, H1 by done. unfold wrap. rewrite Z.mod_small; lia.
  - exact H2.
  - cpu. unfold top. rewrite H1, H2. f_equal; lia.
  - intros k r Hk. rewrite <- (H3 k r Hk). cpu. rewrite decide_False; [done |]. intros ->.
    do 6 (destruct k as [| k]; [done |]). done.
Qed.

(** The first half of [switch_context]: the registers are on the old stack, its
    pointer in the slot, and the new stack is in use. *)
Definition suspended (c : Cpu) : Cpu :=
  exec c [PUSH RBX; PUSH RBP; PUSH R12; PUSH R13; PUSH R14; PUSH R15; MOV_TO RDI RSP; MOV RSP RSI].

Definition far (a la b lb : Z) : Prop := a + la <= b \/ b + lb <= a.

Lemma suspended_spec (c : Cpu) :
  48 <= regs c RSP < 2 ^ 64 -> (forall r, word (regs c r)) -> far (regs c RDI) 8 (regs c RSP - 48) 48 ->
  let c' := suspended c in
  regs c' RSP = regs c RSI /\
  (forall a, ~ regs c RSP - 48 <= a < regs c RSP -> ~ regs c RDI <= a < regs c RDI + 8 -> cmem c' a = cmem c a) /\
  read64 (cmem c') (regs c RDI) = regs c RSP - 48 /\
  (forall k r, callee_saved !! k = Some r -> read64 (cmem c') (regs c RSP - 8 * (Z.of_nat k + 1)) = regs c r).
Proof.
  intros Hsp Hw Hfar c'. unfold suspended in c'.
  destruct (pushes_spec callee_saved c) as (H1 & H2 & _ & H3);
    [by apply (bool_decide_unpack _) | change (zlen _) with 6; lia | by intros |].
  change (zlen callee_saved) with 6 in *. change (8 * 6) with 48 in *.
  set (c1 := exec c (PUSH <$> callee_saved)) in *.
  change (exec c _) with (step (step c1 (MOV_TO RDI RSP)) (MOV RSP RSI)) in c'. subst c'. cbn [step].
  pose proof (H1 RDI) as Hdi. pose proof (H1 RSI) as Hsi. pose proof (H1 RSP) as Hs.
  rewrite decide_False in Hdi by done. rewrite decide_False in Hsi by done. rewrite decide_True in Hs by done.
  unfold far in Hfar. pose proof (Hw RSP) as Hws. unfold word in Hws. split_and!.
  - cpu. by rewrite decide_True.
  - intros a Ha1 Ha2. cpu. rewrite Hdi. rewrite write64_other by done. apply H2. lia.
  - cpu. rewrite Hdi, Hs. apply read_write64_same. lia.
  - intros k r Hk. rewrite <- (H3 k r Hk). cpu. rewrite Hdi.
    assert (k < 6)%nat by (apply lookup_lt_Some in Hk; exact Hk).
    apply read_write64_other. unfold far in Hfar. lia.
Qed.

Lemma switch_split (c : Cpu) : exec c switch_context = exec (suspended c) resume.
Proof. apply (exec_app c _ resume). Qed.

(** C24 A task that switches away and is switched to again resumes where it was:
    with its callee-saved registers, its stack pointer and its return address,
    whatever ran in between, provided its saved frame and its [saved_rsp] slot
    were left alone. *)
Theorem switch_round_trip (c0 c2 : Cpu) :
  let sp := regs c0 RSP in let slot := regs c0 RDI in let c1 := exec c0 switch_context in
  48 <= sp -> sp + 8 < 2 ^ 64 -> (forall r, word (regs c0 r)) -> (forall r, word (regs c2 r)) ->
  regs c0 RSI + 56 < 2 ^ 64 -> 48 <= regs c2 RSP ->
  far slot 8 (sp - 48) 56 ->
  (forall a, sp - 48 <= a < sp + 8 \/ slot <= a < slot + 8 -> cmem c2 a = cmem c1 a) ->
  regs c2 RSI = read64 (cmem c2) slot ->
  far (regs c2 RDI) 8 (regs c2 RSP - 48) 48 ->
  far (regs c2 RDI) 8 (sp - 48) 56 -> far (regs c2 RSP - 48) 48 (sp - 48) 56 ->
  let c3 := exec c2 switch_context in
  regs c3 RSP = sp + 8 /\ rip c3 = read64 (cmem c0) sp /\ forall r, r ∈ callee_saved -> regs c3 r = regs c0 r.
Proof.
  intros sp slot c1 Hsp Hend Hw0 Hw2 Hrsi Hsp2 Hfar Hkept Hrsi2 Hf1 Hf2 Hf3 c3.
  unfold far in *. pose proof (Hw0 RSI) as Hwr. pose proof (Hw2 RSP) as Hw2s. unfold word in Hwr, Hw2s.
  destruct (suspended_spec c0) as (A1 & A2 & A3 & A4); [fold sp; lia | done | unfold far; fold sp slot; lia |].
  fold sp slot in A2, A3, A4. set (s0 := suspended c0) in *.
  destruct (resume_spec s0) as (_ & B2 & _ & _); [rewrite A1; lia | rewrite A1; lia |].
  assert (cmem c1 = cmem s0) as Hc1 by (unfold c1; rewrite switch_split; exact B2).
  assert (regs c2 RSI = sp - 48) as Hsi.
  { rewrite Hrsi2, <- A3, <- Hc1. apply read64_ext. intros x Hx. apply Hkept. lia. }
  destruct (suspended_spec c2) as (C1 & C2 & _ & _); [lia | done | unfold far; lia |].
  set (s2 := suspended c2) in *. rewrite Hsi in C1.
  destruct (resume_spec s2) as (D1 & _ & D3 & D4); [rewrite C1; lia | rewrite C1; lia |].
  assert (forall a, sp - 48 <= a < sp + 8 -> cmem s2 a = cmem s0 a) as Hframe.
  { intros a Ha. rewrite C2 by lia. rewrite Hkept by lia. by rewrite Hc1. }
  unfold c3. rewrite switch_split. fold s2. rewrite C1 in *. split_and!.
  - rewrite D1. lia.
  - rewrite D3. replace (sp - 48 + 48) with sp by lia. rewrite (read64_ext (cmem s0)) by (intros x Hx; apply Hframe; lia).
    apply read64_ext. intros x Hx. apply A2; lia.
  - intros r Hr. apply list_elem_of_lookup in Hr as [k Hk].
    assert (k < 6)%nat by (apply lookup_lt_Some in Hk; exact Hk).
    assert (rev callee_saved !! (5 - k)%nat = Some r) as Hk'.
    { do 6 (destruct k as [| k]; [exact Hk |]). lia. }
    rewrite (D4 _ _ Hk'), <- (A4 k r Hk).
    replace (sp - 48 + 8 * Z.of_nat (5 - k)) with (sp - 8 * (Z.of_nat k + 1)) by lia.
    apply read64_ext. intros x Hx. apply Hframe. lia.
Qed.

(** ** Entering user mode for the first time *)

Lemma push_words_spec (l : list Z) (sp : Z) (m : PhysMem) :
  Forall word l ->
  let '(sp', m') := push_words sp m l in
  sp' = sp - 8 * zlen l /\ same_outside m m' sp' sp /\
  forall k v, l !! k = Some v -> read64 m' (sp - 8 * (Z.of_nat k + 1)) = v.
Proof.
  unfold push_words. revert sp m. induction l as [| v l IH]; intros sp m Hw; cbn [foldl].
  { unfold zlen. simpl. split_and!; [lia | by intros a _ | by intros]. }
  apply Forall_cons in Hw as [Hv Hw].
  specialize (IH (sp - 8) (write64 m (sp - 8) v) Hw). change (push_word (sp, m) v) with (sp - 8, write64 m (sp - 8) v).
  destruct (foldl push_word _ l) as [sp' m']. destruct IH as (-> & H2 & H3).
  assert (zlen (v :: l) = 1 + zlen l) as Hl by (unfold zlen; simpl; lia). assert (0 <= zlen l) by (unfold zlen; lia).
  split_and!; [lia | |].
  - intros a Ha. rewrite H2 by lia. apply write64_other. lia.
  - intros [| k] u Hk; simpl in Hk.
    + injection Hk as <-. rewrite (read64_same_outside _ _ _ _ _ H2) by lia.
      replace (sp - 8 * (Z.of_nat 0 + 1)) with (sp - 8) by lia. by apply read_write64_same.
    + replace (sp - 8 * (Z.of_nat (S k) + 1)) with (sp - 8 - 8 * (Z.of_nat k + 1)) by lia. by apply H3.
Qed.

(** The first switch to a task made by [spawn_user] pops six zeroes, returns to
    [enter_user], and the [iretq] there starts the program at its entry point
    in ring 3, on its stack, with interrupts enabled. *)
Theorem first_switch_enters_user (c : Cpu) (m : PhysMem)
    (kstack user_code user_data entry_user stack_user enter_user_addr : Z) :
  let '(sp, m') := user_stack m kstack user_code user_data entry_user stack_user enter_user_addr in
  0 <= kstack -> kstack + KSTACK_SIZE < 2 ^ 64 ->
  Forall word [Z.lor user_data 3; stack_user; Z.lor user_code 3; entry_user; enter_user_addr] ->
  (forall r, word (regs c r)) -> 48 <= regs c RSP -> regs c RSI = sp ->
  far (regs c RDI) 8 (regs c RSP - 48) 48 -> far (regs c RDI) 8 sp 96 -> far (regs c RSP - 48) 48 sp 96 ->
  (forall a, sp <= a < sp + 96 -> cmem c a = m' a) ->
  let c1 := exec c switch_context in let c2 := exec c1 enter_user in
  rip c1 = enter_user_addr /\ (forall r, r ∈ callee_saved -> regs c1 r = 0) /\
  rip c2 = entry_user /\ regs c2 RSP = stack_user /\ rflags c2 = USER_RFLAGS /\
  cs c2 = Z.lor user_code 3 /\ ss c2 = Z.lor user_data 3.
Proof.
  unfold user_stack.
  set (l := [Z.lor user_data 3; stack_user; USER_RFLAGS; Z.lor user_code 3; entry_user; enter_user_addr] ++ replicate 6 0).
  pose proof (push_words_spec l (kstack + KSTACK_SIZE) m) as Hp.
  destruct (push_words (kstack + KSTACK_SIZE) m l) as [sp m']. intros Hk0 Hk1 Hwords Hw Hsp Hrsi Hf1 Hf2 Hf3 Hmem.
  set (c1 := exec c switch_context) in *. set (c2 := exec c1 enter_user).
  rewrite !Forall_cons in Hwords. destruct Hwords as (Hw1 & Hw2 & Hw3 & Hw4 & Hw5 & _).
  destruct Hp as (E & _ & Hrd).
  { unfold l. cbn [app replicate].
    repeat (apply Forall_cons_2; [done || (unfold word, USER_RFLAGS; lia) |]). apply Forall_nil_2. }
  change (zlen l) with 12 in E. unfold KSTACK_SIZE, far in *. pose proof (Hw RSP) as Hws. unfold word in Hws.
  destruct (suspended_spec c) as (C1 & C2 & _ & _); [lia | done | unfold far; lia |].
  set (s := suspended c) in *. rewrite Hrsi in C1.
  assert (forall k v, l !! k = Some v -> read64 (cmem s) (sp + 8 * (11 - Z.of_nat k)) = v) as Hs.
  { intros k v Hk. assert (k < 12)%nat by (apply lookup_lt_Some in Hk; exact Hk).
    rewrite <- (Hrd k v Hk). replace (kstack + 16 * 1024 - 8 * (Z.of_nat k + 1)) with (sp + 8 * (11 - Z.of_nat k)) by lia.
    apply read64_ext. intros x Hx. rewrite C2 by lia. apply Hmem. lia. }
  destruct (resume_spec s) as (D1 & D2 & D3 & D4); [rewrite C1; lia | rewrite C1; lia |].
  assert (c1 = exec s resume) as Hc1 by apply switch_split. rewrite <- Hc1, C1 in *.
  assert (forall d, read64 (cmem c1) (sp + 56 + d) = read64 (cmem s) (sp + (56 + d))) as Hrd'.
  { intros d. rewrite D2. f_equal. lia. }
  split_and!.
  - rewrite D3. exact (Hs 5%nat _ eq_refl).
  - intros r Hr. apply list_elem_of_lookup in Hr as [k Hk].
    assert (k < 6)%nat by (apply lookup_lt_Some in Hk; exact Hk).
    assert (rev callee_saved !! (5 - k)%nat = Some r) as Hk' by (do 6 (destruct k as [| k]; [exact Hk |]); lia).
    rewrite (D4 _ _ Hk'). assert (l !! (11 - (5 - k))%nat = Some 0) as Hl.
    { do 6 (destruct k as [| k]; [done |]). lia. }
    rewrite <- (Hs _ _ Hl). f_equal. lia.
  - unfold c2. cpu. rewrite ?decide_True by done. rewrite D1, <- (Z.add_0_r (sp + 56)), Hrd'. exact (Hs 4%nat _ eq_refl).
  - unfold c2. cpu. rewrite ?decide_True by done. rewrite D1, Hrd'. exact (Hs 1%nat _ eq_refl).
  - unfold c2. cpu. rewrite ?decide_True by done. rewrite D1, Hrd'. exact (Hs 2%nat _ eq_refl).
  - unfold c2. cpu. rewrite ?decide_True by done. rewrite D1, Hrd'. exact (Hs 3%nat _ eq_refl).
  - unfold c2. cpu. rewrite ?decide_True by done. rewrite D1, Hrd'. exact (Hs 0%nat _ eq_refl).
Qed.

(** ** System calls *)

(** What the compiled [dispatch] guarantees as a function of the C ABI when it
    is called on a stack that ends at [hi]: the stack pointer and the
    callee-saved registers are back, and the caller's part of the stack, above
    the argument passed on it, is untouched. *)
Record abi_call (f : Cpu -> Cpu) (hi : Z) : Prop := {
  abi_rsp : forall c, regs (f c) RSP = regs c RSP;
  abi_saved : forall c r, r ∈ callee_saved -> regs (f c) r = regs c r;
  abi_frame : forall c a, regs c RSP + 8 <= a < hi -> cmem (f c) a = cmem c a;
  abi_star : forall c, star (f c) = star c
}.

Definition syscall_pushed : list reg :=
  [RCX; R11; RDI; RSI; RDX; R10; R8; R9; RBX; RBP; R12; R13; R14; R15].

Lemma rsp_not_pushed : RSP ∉ syscall_pushed.
Proof. by apply (bool_decide_unpack _). Qed.

Lemma and_16_aligned (x n : Z) : (Z.land x (2 ^ 64 - 16) - 16 * n) mod 16 = 0.
Proof.
  replace (Z.land x (2 ^ 64 - 16) - 16 * n) with (Z.land x (2 ^ 64 - 16) + (- n) * 16) by lia.
  rewrite Z.mod_add by lia. change 16 with (2 ^ 4) at 2. rewrite <- Z.land_ones, <- Z.land_assoc by lia.
  by rewrite (Z.land_0_r x : Z.land x (Z.land (2 ^ 64 - 16) (Z.ones 4)) = 0).
Qed.

(** The saved frame of the user context on the kernel stack ending at [base]. *)
Definition saved_frame (c : Cpu) (base : Z) (m : PhysMem) : Prop :=
  read64 m (base - 8) = regs c RSP /\
  forall k r, syscall_pushed !! k = Some r -> read64 m (base - 8 - 8 * (Z.of_nat k + 1)) = regs c r.

(** The switch to the kernel stack. *)
Definition syscall_switch (user_rsp stack_top : Z) : list instr :=
  [MOV_TO_AT user_rsp RSP; MOV_FROM_AT RSP stack_top; AND_RSP_16; PUSH_AT user_rsp].

Lemma push_regs (c : Cpu) (v : Z) (r : reg) :
  regs (push c v) r = if decide (r = RSP) then wrap 64 (regs c RSP - 8) else regs c r.
Proof. done. Qed.
Lemma push_cmem (c : Cpu) (v : Z) : cmem (push c v) = write64 (cmem c) (wrap 64 (regs c RSP - 8)) v.
Proof. done. Qed.
Lemma set_reg_regs (c : Cpu) (r q : reg) (v : Z) : regs (set_reg c r v) q = if decide (q = r) then v else regs c q.
Proof. done. Qed.

Lemma set_reg_cmem (c : Cpu) (r : reg) (v : Z) : cmem (set_reg c r v) = cmem c.
Proof. done. Qed.
Lemma push_star (c : Cpu) (v : Z) : star (push c v) = star c.
Proof. done. Qed.
Lemma set_reg_star (c : Cpu) (r : reg) (v : Z) : star (set_reg c r v) = star c.
Proof. done. Qed.

Lemma syscall_switch_spec (c : Cpu) (user_rsp stack_top : Z) :
  let base := Z.land (read64 (cmem c) stack_top) (2 ^ 64 - 16) in
  word (regs c RSP) -> 8 <= base < 2 ^ 64 -> far user_rsp 8 stack_top 8 ->
  let ca := exec c (syscall_switch user_rsp stack_top) in
  (forall r, regs ca r = if decide (r = RSP) then base - 8 else regs c r) /\ star ca = star c /\
  cmem ca = write64 (write64 (cmem c) user_rsp (regs c RSP)) (base - 8) (regs c RSP).
Proof.
  intros base Hw Hb Hf ca. unfold far in Hf.
  assert (read64 (write64 (cmem c) user_rsp (regs c RSP)) stack_top = read64 (cmem c) stack_top) as Htop
    by (apply read_write64_other; lia).
  set (c0 := set_reg (set_reg (set_cmem c user_rsp (regs c RSP)) RSP
               (read64 (write64 (cmem c) user_rsp (regs c RSP)) stack_top)) RSP base).
  assert (ca = push c0 (read64 (cmem c0) user_rsp)) as ->.
  { unfold ca, exec, syscall_switch, c0, base. cbn [foldl step]. f_equal. rewrite set_reg_regs, decide_True by done.
    by rewrite <- Htop. }
  assert (cmem c0 = write64 (cmem c) user_rsp (regs c RSP)) as Hm by done.
  assert (wrap 64 (regs c0 RSP - 8) = base - 8) as Hsp.
  { unfold c0. rewrite set_reg_regs, decide_True by done. apply Z.mod_small. lia. }
  split_and!; [| done |].
  - intros r. rewrite push_regs, Hsp. destruct (decide (r = RSP)); [done |].
    unfold c0. by rewrite !set_reg_regs, !decide_False by done.
  - rewrite push_cmem, Hsp, Hm. f_equal. by apply read_write64_same.
Qed.

Lemma syscall_save_split (c : Cpu) (user_rsp stack_top : Z) :
  let cb := exec (exec c (syscall_switch user_rsp stack_top)) (PUSH <$> syscall_pushed) in
  exec c (syscall_save user_rsp stack_top) = step (step cb (MOV RCX R10)) (PUSH RAX).
Proof.
  intros cb. unfold cb. rewrite <- !exec_app.
  change (step (step ?c (MOV RCX R10)) (PUSH RAX)) with (exec c [MOV RCX R10; PUSH RAX]).
  rewrite <- exec_app. f_equal.
Qed.

Lemma syscall_save_spec (c c1 : Cpu) (user_rsp stack_top base : Z) :
  c1 = exec c (syscall_save user_rsp stack_top) ->
  base = Z.land (read64 (cmem c) stack_top) (2 ^ 64 - 16) ->
  (forall r, word (regs c r)) -> 128 <= base < 2 ^ 64 ->
  far user_rsp 8 stack_top 8 -> far user_rsp 8 (base - 128) 128 ->
  regs c1 RSP = base - 128 /\ regs c1 RCX = regs c R10 /\
  (forall r, r <> RSP -> r <> RCX -> regs c1 r = regs c r) /\
  saved_frame c base (cmem c1) /\ read64 (cmem c1) (base - 128) = regs c RAX /\ star c1 = star c.
Proof.
  intros Hc1 Hbase Hw Hb Hf1 Hf2.
  destruct (syscall_switch_spec c user_rsp stack_top) as (Hr & Hst & Hm); [done | rewrite <- Hbase; lia | done |].
  rewrite <- Hbase in Hr, Hm. clear Hbase. set (ca := exec c (syscall_switch user_rsp stack_top)) in *.
  destruct (pushes_spec syscall_pushed ca) as (H1 & H2 & H2' & H3);
    [apply rsp_not_pushed | rewrite Hr, decide_True by done; change (zlen _) with 14; lia | |].
  { intros r Hin. rewrite Hr, decide_False; [apply Hw |]. intros ->. by apply rsp_not_pushed. }
  set (cb := exec ca (PUSH <$> syscall_pushed)) in *.
  rewrite syscall_save_split in Hc1. fold ca cb in Hc1. cbn [step] in Hc1. subst c1.
  clearbody ca cb. change (zlen syscall_pushed) with 14 in *. unfold far in *.
  rewrite (Hr RSP), decide_True in H1, H2, H3 by done.
  assert (regs cb RSP = base - 120) as Hbsp by (rewrite H1, decide_True by done; lia).
  assert (forall r, r <> RSP -> regs cb r = regs c r) as Hbr
    by (intros r Hne; by rewrite H1, decide_False, Hr, decide_False by done).
  assert (wrap 64 (regs (set_reg cb RCX (regs cb R10)) RSP - 8) = base - 128) as Hsp.
  { rewrite set_reg_regs, decide_False, Hbsp by done. unfold wrap. rewrite Z.mod_small; lia. }
  assert (regs (set_reg cb RCX (regs cb R10)) RAX = regs c RAX) as Hax
    by (by rewrite set_reg_regs, decide_False, Hbr by done).
  rewrite push_cmem, Hsp, Hax, set_reg_cmem. split_and!.
  - by rewrite push_regs, decide_True.
  - by rewrite push_regs, decide_False, set_reg_regs, decide_True, Hbr by done.
  - intros r Hne Hne'. rewrite push_regs, decide_False, set_reg_regs, decide_False by done. by apply Hbr.
  - split.
    + rewrite read_write64_other by lia. rewrite (read64_same_outside _ _ _ _ _ H2) by lia.
      rewrite Hm. apply read_write64_same, Hw.
    + intros k r Hk. assert (k < 14)%nat by (apply lookup_lt_Some in Hk; exact Hk).
      rewrite read_write64_other by lia. rewrite (H3 k r Hk), Hr, decide_False; [done |].
      intros ->. apply rsp_not_pushed. by eapply list_elem_of_lookup_2.
  - apply read_write64_same, Hw.
  - by rewrite push_star, set_reg_star, H2'.
Qed.

Lemma syscall_restore_spec (c c1 : Cpu) (base : Z) :
  128 <= base < 2 ^ 64 -> regs c1 RSP = base - 128 -> saved_frame c base (cmem c1) ->
  let c2 := exec c1 syscall_restore in
  regs c2 RSP = regs c RSP /\ regs c2 RAX = regs c1 RAX /\
  (forall r, r ∈ syscall_pushed -> regs c2 r = regs c r) /\
  rip c2 = regs c RCX /\ rflags c2 = Z.lor (Z.land (regs c R11) 0x3C7FD7) 2 /\
  cs c2 = Z.lor (Z.shiftr (star c1) 48 + 16) 3 /\ ss c2 = Z.lor (Z.shiftr (star c1) 48 + 8) 3.
Proof.
  intros Hb Hsp [Hf1 Hf2] c2. set (ca := step c1 (ADD_RSP 8)).
  assert (regs ca RSP = base - 120) as Ha.
  { unfold ca. cpu. rewrite decide_True, Hsp by done. unfold wrap. rewrite Z.mod_small; lia. }
  destruct (pops_spec (rev syscall_pushed) ca) as (H1 & H2 & _ & H2' & H3 & H4);
    [by apply (bool_decide_unpack _) | by apply (bool_decide_unpack _) | lia | change (zlen _) with 14; lia |].
  change (zlen (rev syscall_pushed)) with 14 in H1. set (cb := exec ca (POP <$> rev syscall_pushed)) in *.
  assert (c2 = step (step cb (POP RSP)) SYSRETQ) as Hc.
  { unfold c2. change syscall_restore with ([ADD_RSP 8] ++ (POP <$> rev syscall_pushed) ++ [POP RSP; SYSRETQ]).
    by rewrite !exec_app. }
  clearbody c2 cb. subst c2.
  assert (forall r, r ∈ syscall_pushed -> regs cb r = regs c r) as Hr.
  { intros r Hin. apply list_elem_of_lookup in Hin as [k Hk].
    assert (k < 14)%nat by (apply lookup_lt_Some in Hk; exact Hk).
    assert (rev syscall_pushed !! (13 - k)%nat = Some r) as Hk' by (do 14 (destruct k as [| k]; [exact Hk |]); lia).
    rewrite (H3 _ _ Hk'), Ha, <- (Hf2 k r Hk). change (cmem ca) with (cmem c1). f_equal. lia. }
  assert (forall r, r <> RSP -> regs (step (step cb (POP RSP)) SYSRETQ) r = regs cb r) as Hc2.
  { intros r Hne. cbn [step]. unfold pop. cpu. by rewrite !decide_False by done. }
  assert (star cb = star c1) as Hst by (by rewrite H2').
  split_and!.
  - cbn [step]. unfold pop. cpu. rewrite decide_True by done. unfold top. rewrite H1, H2, Ha, <- Hf1.
    change (cmem ca) with (cmem c1). f_equal. lia.
  - rewrite Hc2 by done. rewrite H4; [| by apply (bool_decide_unpack _) | done]. done.
  - intros r Hin. rewrite Hc2; [by apply Hr |]. intros ->. by apply rsp_not_pushed.
  - rewrite <- (Hr RCX) by (by apply (bool_decide_unpack _)). cbn [step]. unfold pop. cpu. by rewrite !decide_False by done.
  - rewrite <- (Hr R11) by (by apply (bool_decide_unpack _)). cbn [step]. unfold pop. cpu. by rewrite !decide_False by done.
  - cbn [step]. unfold pop. cpu. by rewrite Hst.
  - cbn [step]. unfold pop. cpu. by rewrite Hst.
Qed.

(** C22 A system call hands [dispatch] its six arguments and its number, on a
    16-byte aligned kernel stack, and returns to the instruction after
    [syscall] with every register but the result in RAX as the program left
    it, in ring 3 with the user selectors of the GDT. *)
Theorem syscall_round_trip (c : Cpu) (user_rsp stack_top kernel_code user_data : Z) (dispatch : Cpu -> Cpu) :
  let base := Z.land (read64 (cmem c) stack_top) (2 ^ 64 - 16) in
  (forall r, word (regs c r)) -> 128 <= base < 2 ^ 64 ->
  far user_rsp 8 stack_top 8 -> far user_rsp 8 (base - 128) 128 -> abi_call dispatch base ->
  star c = star_value kernel_code user_data -> 0 <= kernel_code < 2 ^ 16 -> 8 <= user_data -> user_data mod 8 = 3 ->
  let c1 := exec c (syscall_save user_rsp stack_top) in
  let c2 := exec c (syscall_entry user_rsp stack_top dispatch) in
  [regs c1 RDI; regs c1 RSI; regs c1 RDX; regs c1 RCX; regs c1 R8; regs c1 R9; read64 (cmem c1) (regs c1 RSP)] =
  [regs c RDI; regs c RSI; regs c RDX; regs c R10; regs c R8; regs c R9; regs c RAX] /\
  regs c1 RSP mod 16 = 0 /\
  (forall r, r <> RAX -> regs c2 r = regs c r) /\ regs c2 RAX = regs (dispatch c1) RAX /\
  rip c2 = regs c RCX /\ rflags c2 = Z.lor (Z.land (regs c R11) 0x3C7FD7) 2 /\
  ss c2 = user_data /\ cs c2 = user_data + 8.
Proof.
  intros base Hw Hb Hf1 Hf2 Habi Hstar Hkc Hud Hmod c1 c2.
  destruct (syscall_save_spec c c1 user_rsp stack_top base) as (S1 & S2 & S3 & [S4 S4'] & S5 & S6); [done .. |].
  assert (saved_frame c base (cmem (dispatch c1))) as Hsf.
  { split; [rewrite <- S4 | intros k r Hk; rewrite <- (S4' k r Hk)]; apply read64_ext; intros x Hx;
      apply (abi_frame _ _ Habi); rewrite S1; [lia |].
    assert (k < 14)%nat by (apply lookup_lt_Some in Hk; exact Hk). lia. }
  destruct (syscall_restore_spec c (dispatch c1) base) as (R1 & R2 & R3 & R4 & R5 & R6 & R7);
    [done | by rewrite (abi_rsp _ _ Habi) | done |].
  assert (c2 = exec (dispatch c1) syscall_restore) as Hc2.
  { unfold c2, syscall_entry. by rewrite !exec_app. }
  rewrite <- Hc2 in *.
  assert (Z.shiftr (star (dispatch c1)) 48 = user_data - 8) as Hsel.
  { rewrite (abi_star _ _ Habi), S6, Hstar. unfold star_value. rewrite Z.shiftr_lor.
    rewrite (Z.shiftr_shiftl_l _ 48 48), Z.shiftl_0_r by lia.
    rewrite Z.shiftr_shiftl_r by lia. rewrite Z.shiftr_div_pow2 by lia.
    rewrite Z.div_small by lia. apply Z.lor_0_l. }
  assert (forall x, x mod 8 = 3 -> Z.lor x 3 = x) as Hlor.
  { intros x Hx. apply Z.bits_inj'. intros n Hn. rewrite Z.lor_spec. destruct (Z.ltb_spec n 2).
    - assert (Z.testbit x n = true) as ->; [| done].
      rewrite <- (Z.mod_pow2_bits_low x 3 n) by lia. change (2 ^ 3) with 8. rewrite Hx.
      assert (n = 0 \/ n = 1) as [-> | ->] by lia; done.
    - assert (Z.testbit 3 n = false) as ->; [| apply orb_false_r]. apply Z.bits_above_log2; [lia |]. simpl. lia. }
  split; [| split; [| split; [| split; [| split; [| split; [| split]]]]]].
  - rewrite S1, S2, S5, !S3 by done. done.
  - rewrite S1. exact (and_16_aligned _ 8).
  - intros r Hne. destruct (decide (r ∈ syscall_pushed)) as [Hin | Hin]; [by apply R3 |].
    destruct (decide (r = RSP)) as [-> |]; [done |]. exfalso. apply Hin. destruct r; by apply (bool_decide_unpack _).
  - done.
  - done.
  - done.
  - rewrite R7, Hsel. rewrite Hlor; [lia |]. by replace (user_data - 8 + 8) with user_data by lia.
  - rewrite R6, Hsel. replace (user_data - 8 + 16) with (user_data + 1 * 8) by lia.
    rewrite Hlor; [lia |]. by rewrite Z.mod_add.
Qed.

(** ** Witnesses *)

Definition demo_cpu (rsp rsi rdi : Z) (m : PhysMem) : Cpu :=
  mkCpu (fun r => match r with RSP => rsp | RSI => rsi | RDI => rdi | RBX => 7 | R10 => 4 | RCX => 0x400010 | _ => 1 end)
    0 8 16 2 (star_value 8 0x1B) m.
Lemma demo_cpu_cmem (rsp rsi rdi : Z) (m : PhysMem) : cmem (demo_cpu rsp rsi rdi m) = m.
Proof. done. Qed.
Definition demo_c0 : Cpu := demo_cpu 0x1000 0x2000 0x5000 (fun _ => 0).
Definition demo_c2 : Cpu := demo_cpu 0x3000 (0x1000 - 48) 0x6000 (cmem (exec demo_c0 switch_context)).

Lemma switch_round_trip_witness :
  let c3 := exec demo_c2 switch_context in
  regs c3 RSP = regs demo_c0 RSP + 8 /\ rip c3 = read64 (cmem demo_c0) (regs demo_c0 RSP) /\
  forall r, r ∈ callee_saved -> regs c3 r = regs demo_c0 r.
Proof.
  destruct (switch_round_trip demo_c0 demo_c2) as (H1 & H2 & H3);
    [vm_compute; congruence | vm_compute; congruence | intros []; vm_compute; split; congruence
    | intros []; vm_compute; split; congruence | vm_compute; congruence | vm_compute; congruence
    | right; vm_compute; congruence | intros a _; unfold demo_c2; by rewrite demo_cpu_cmem | vm_compute; reflexivity | right; vm_compute; congruence
    | right; vm_compute; congruence | right; vm_compute; congruence |].
  exact (conj H1 (conj H2 H3)).
Defined.

Lemma first_switch_enters_user_witness :
  let '(sp, m') := user_stack (fun _ => 0) 0x10000 0x23 0x1B 0x400000 0x7FFFF000 0xABC0 in
  let c2 := exec (exec (demo_cpu 0x3000 sp 0x6000 m') switch_context) enter_user in
  rip c2 = 0x400000 /\ regs c2 RSP = 0x7FFFF000.
Proof.
  pose proof (first_switch_enters_user
    (demo_cpu 0x3000 (user_stack (fun _ => 0) 0x10000 0x23 0x1B 0x400000 0x7FFFF000 0xABC0).1 0x6000
       (user_stack (fun _ => 0) 0x10000 0x23 0x1B 0x400000 0x7FFFF000 0xABC0).2)
    (fun _ => 0) 0x10000 0x23 0x1B 0x400000 0x7FFFF000 0xABC0) as H.
  destruct (user_stack _ _ _ _ _ _ _) as [sp m'] eqn:E.
  assert (sp = 0x13FA0) as Hsp by (apply (f_equal fst) in E; vm_compute in E; congruence).
  cbn [fst snd] in H. destruct H as (_ & _ & H1 & H2 & _);
    [lia | unfold KSTACK_SIZE; lia | | intros []; unfold demo_cpu, word; cbn [regs]; lia
    | unfold demo_cpu; cbn [regs]; lia | done | right; unfold demo_cpu; cbn [regs]; lia
    | left; unfold demo_cpu; cbn [regs]; lia | left; unfold demo_cpu; cbn [regs]; lia | done | by split].
  repeat (apply Forall_cons_2; [vm_compute; split; congruence |]). apply Forall_nil_2.
Defined.

(** A dispatcher that returns 42 and touches nothing else. *)
Definition demo_dispatch (c : Cpu) : Cpu := set_reg c RAX 42.
Lemma demo_dispatch_abi (hi : Z) : abi_call demo_dispatch hi.
Proof.
  split; [done | | done | done]. intros c r Hr. unfold demo_dispatch. rewrite set_reg_regs, decide_False; [done |].
  intros ->. revert Hr. by apply (bool_decide_unpack _).
Qed.

Definition demo_sys : Cpu := demo_cpu 0x7000 2 3 (write64 (fun _ => 0) 0x5000 0x9000).

Lemma syscall_round_trip_witness :
  let c2 := exec demo_sys (syscall_entry 0x5100 0x5000 demo_dispatch) in
  rip c2 = 0x400010 /\ regs c2 RAX = 42 /\ regs c2 RSP = 0x7000.
Proof.
  destruct (syscall_round_trip demo_sys 0x5100 0x5000 8 0x1B demo_dispatch) as (_ & _ & H1 & H2 & H3 & _);
    [intros []; vm_compute; split; congruence | vm_compute; split; congruence | right; lia | left; vm_compute; congruence
    | apply demo_dispatch_abi | done | lia | lia | done |].
  split; [exact H3 | split; [exact H2 |]]. by apply (H1 RSP).
Defined.
