(* ===== verification/Sched.v ===== *)
(** * Scheduler

    [kernel/src/sched/mod.rs] and the task objects of [sched/task.rs].  An
    [Arc<Task>] is its task id, which is unique ([NEXT_ID]); the fields of the
    task behind it are in the map [tasks].  The file descriptors and the
    capability table of a task are in the models of those components, keyed by
    the same id.  The instructions of the switch itself are in [Asm.v]. *)

From S2P Require Import Prelude.

(** ** Tasks *)

Inductive TaskState : Type := Ready | Running | Dead | Blocked.
#[global] Instance TaskState_eq_dec : EqDecision TaskState.
Proof. solve_decision. Defined.

Record Task : Type := mkTask {
  t_parent : Z;
  t_exit_code : Z;
  t_state : TaskState;
  t_addr_space : option Z;
  t_kstack_top : Z;
  t_saved_rsp : Z
}.

Record Sched : Type := mkSched {
  tasks : gmap Z Task;
  NEXT_ID : Z;
  RUN_QUEUE : list Z;
  CURRENT : option Z;
  TASKS : list Z;
  TICKS : Z;
  NEED_RESCHED : bool;
  WAIT_QUEUES : list (Z * Z);
  (* what [prepare_to_run] programs *)
  cpu_pml4 : option Z;
  TSS_RSP0 : Z;
  SYSCALL_STACK_TOP : Z
}.

Definition sched_statics : Sched := mkSched ∅ 1 [] None [] 0 false [] None 0 0.

(** ** Field updates *)

Definition with_tasks (s : Sched) (t : gmap Z Task) : Sched :=
  mkSched t (NEXT_ID s) (RUN_QUEUE s) (CURRENT s) (TASKS s) (TICKS s) (NEED_RESCHED s)
    (WAIT_QUEUES s) (cpu_pml4 s) (TSS_RSP0 s) (SYSCALL_STACK_TOP s).
Definition with_rq (s : Sched) (q : list Z) : Sched :=
  mkSched (tasks s) (NEXT_ID s) q (CURRENT s) (TASKS s) (TICKS s) (NEED_RESCHED s)
    (WAIT_QUEUES s) (cpu_pml4 s) (TSS_RSP0 s) (SYSCALL_STACK_TOP s).
Definition with_current (s : Sched) (c : option Z) : Sched :=
  mkSched (tasks s) (NEXT_ID s) (RUN_QUEUE s) c (TASKS s) (TICKS s) (NEED_RESCHED s)
    (WAIT_QUEUES s) (cpu_pml4 s) (TSS_RSP0 s) (SYSCALL_STACK_TOP s).
Definition with_wq (s : Sched) (w : list (Z * Z)) : Sched :=
  mkSched (tasks s) (NEXT_ID s) (RUN_QUEUE s) (CURRENT s) (TASKS s) (TICKS s) (NEED_RESCHED s)
    w (cpu_pml4 s) (TSS_RSP0 s) (SYSCALL_STACK_TOP s).
Definition with_resched (s : Sched) (b : bool) : Sched :=
  mkSched (tasks s) (NEXT_ID s) (RUN_QUEUE s) (CURRENT s) (TASKS s) (TICKS s) b
    (WAIT_QUEUES s) (cpu_pml4 s) (TSS_RSP0 s) (SYSCALL_STACK_TOP s).
Definition with_cpu (s : Sched) (pml4 : option Z) (rsp : Z) : Sched :=
  mkSched (tasks s) (NEXT_ID s) (RUN_QUEUE s) (CURRENT s) (TASKS s) (TICKS s) (NEED_RESCHED s)
    (WAIT_QUEUES s) pml4 rsp rsp.

(** [Task::state], [set_state], [set_exit_code] through the [Arc]. *)
Definition state_of (s : Sched) (i : Z) : option TaskState := t_state <$> tasks s !! i.
Definition set_state (s : Sched) (i : Z) (st : TaskState) : Sched :=
  with_tasks s (alter (fun t => mkTask (t_parent t) (t_exit_code t) st (t_addr_space t)
                                  (t_kstack_top t) (t_saved_rsp t)) i (tasks s)).
Definition set_exit_code (s : Sched) (i code : Z) : Sched :=
  with_tasks s (alter (fun t => mkTask (t_parent t) code (t_state t) (t_addr_space t)
                                  (t_kstack_top t) (t_saved_rsp t)) i (tasks s)).

(** ** Creating and finding tasks *)

(** [new_id]: [fetch_add] on an [AtomicU64]. *)
Definition new_id (s : Sched) : Z * Sched :=
  (NEXT_ID s, mkSched (tasks s) (wrap 64 (NEXT_ID s + 1)) (RUN_QUEUE s) (CURRENT s) (TASKS s) (TICKS s)
                (NEED_RESCHED s) (WAIT_QUEUES s) (cpu_pml4 s) (TSS_RSP0 s) (SYSCALL_STACK_TOP s)).

(** The task object of [spawn_idle] and [spawn_user]. *)
Definition new_task (s : Sched) (parent : Z) (addr_space : option Z) (kstack_top rsp : Z) : Z * Sched :=
  let '(id, s) := new_id s in
  (id, with_tasks s (<[id := mkTask parent 0 Ready addr_space kstack_top rsp]> (tasks s))).

Definition enqueue (s : Sched) (i : Z) : Sched := with_rq s (RUN_QUEUE s ++ [i]).
Definition register (s : Sched) (i : Z) : Sched :=
  mkSched (tasks s) (NEXT_ID s) (RUN_QUEUE s) (CURRENT s) (TASKS s ++ [i]) (TICKS s) (NEED_RESCHED s)
    (WAIT_QUEUES s) (cpu_pml4 s) (TSS_RSP0 s) (SYSCALL_STACK_TOP s).

Definition find_task (s : Sched) (pid : Z) : option Z := head (filter (fun i => i = pid) (TASKS s)).
Definition parent_of (s : Sched) (i : Z) : Z := match tasks s !! i with Some t => t_parent t | None => 0 end.
Definition exit_code_of (s : Sched) (i : Z) : Z := match tasks s !! i with Some t => t_exit_code t | None => 0 end.
Definition is_child (s : Sched) (parent child : Z) : bool :=
  match find_task s child with Some t => parent_of s t =? parent | None => false end.

(** ** Picking the next task *)

(** [prepare_to_run]: the address space, and the stack for the next entry from
    ring 3, both in the TSS and for [syscall]. *)
Definition prepare_to_run (s : Sched) (next : Z) : Sched :=
  match tasks s !! next with
  | None => s
  | Some t => with_cpu s (match t_addr_space t with Some p => Some p | None => cpu_pml4 s end) (t_kstack_top t)
  end.

(** What [schedule] did: returned at once, or went on in the context of [next];
    [prev] is [None] on the bootstrap path, which saves nothing. *)
Inductive Switch : Type :=
  | Stay
  | SwitchTo (prev : option Z) (next : Z).

Definition schedule (s : Sched) : Switch * Sched :=
  let s := with_resched s false in
  match RUN_QUEUE s with
  | [] => (Stay, s)
  | next :: q =>
      let s := with_rq s q in
      let prev := CURRENT s in
      let s := match prev with
               | Some p =>
                   if decide (state_of s p = Some Ready \/ state_of s p = Some Running)
                   then let s := set_state s p Ready in with_rq s (RUN_QUEUE s ++ [p])
                   else s
               | None => s
               end in
      let s := set_state s next Running in
      let s := with_current s (Some next) in
      if decide (prev = Some next) then (Stay, s)
      else (SwitchTo prev next, prepare_to_run s next)
  end.

Definition on_tick (s : Sched) : Switch * Sched :=
  schedule (mkSched (tasks s) (NEXT_ID s) (RUN_QUEUE s) (CURRENT s) (TASKS s) (wrap 64 (TICKS s + 1))
              (NEED_RESCHED s) (WAIT_QUEUES s) (cpu_pml4 s) (TSS_RSP0 s) (SYSCALL_STACK_TOP s)).
Definition yield_now (s : Sched) : Switch * Sched := schedule s.
Definition preempt_if_needed (s : Sched) : Switch * Sched :=
  if NEED_RESCHED s then schedule s else (Stay, s).

(** [run]: [q.remove(0)] panics on an empty queue. *)
Definition run (s : Sched) : outcome Sched :=
  match RUN_QUEUE s with
  | [] => Panic
  | first :: q => Ret (prepare_to_run (with_current (with_rq s q) (Some first)) first)
  end.

(** ** Waiting *)

(** [Vec::swap_remove]: the last element takes the place of element [i]. *)
Definition swap_remove {A} (l : list A) (i : nat) : list A :=
  match last l with
  | Some x => take (length l - 1) (<[i := x]> l)
  | None => l
  end.

(** The loop [while i < l.len() { if p(l[i]) { swap_remove(i) } else { i += 1 } }],
    with the elements taken out in order. *)
Fixpoint take_out {A} (fuel : nat) (p : A -> bool) (l : list A) (i : nat) (out : list A) : list A * list A :=
  match fuel with
  | O => (l, out)
  | S fuel =>
      match l !! i with
      | None => (l, out)
      | Some x => if p x then take_out fuel p (swap_remove l i) i (out ++ [x])
                  else take_out fuel p l (S i) out
      end
  end.

Definition wake_one (s : Sched) (i : Z) : Sched := let s := set_state s i Ready in with_rq s (RUN_QUEUE s ++ [i]).

Definition wake_all (s : Sched) (key : Z) : Sched :=
  let '(wq, woken) := take_out (length (WAIT_QUEUES s)) (fun kt => kt.1 =? key) (WAIT_QUEUES s) 0 [] in
  foldl wake_one (with_wq s wq) woken.*2.

Definition block_on (s : Sched) (key : Z) : Switch * Sched :=
  match CURRENT s with
  | Some t =>
      let s := set_state s t Blocked in
      schedule (with_wq s (WAIT_QUEUES s ++ [(key, t)]))
  | None => schedule s
  end.

(** ** Exit, wait and kill *)

Definition wait_key (parent_pid : Z) : Z := Z.lor 0x5750000000000000 parent_pid.

(** [current_exit] does not return to its caller; with nothing to run the CPU
    halts ([Stay]). *)
Definition current_exit (s : Sched) (code : Z) : Switch * Sched :=
  let s := match CURRENT s with
           | Some t => wake_all (set_state (set_exit_code s t code) t Dead) (wait_key (parent_of s t))
           | None => s
           end in
  schedule (with_current s None).

Definition current_id (s : Sched) : option Z := CURRENT s.

Definition exited_child (s : Sched) (parent_pid pid i : Z) : bool :=
  (parent_of s i =? parent_pid) && ((pid =? 0) || (i =? pid)) && bool_decide (state_of s i = Some Dead).
Definition find_exited_child (s : Sched) (parent_pid pid : Z) : option (Z * Z) :=
  (fun i => (i, exit_code_of s i)) <$> head (filter (fun i => exited_child s parent_pid pid i = true) (TASKS s)).
Definition has_child (s : Sched) (parent_pid pid : Z) : bool :=
  existsb (fun i => (parent_of s i =? parent_pid) && ((pid =? 0) || (i =? pid))) (TASKS s).

Definition kill (s : Sched) (pid code : Z) : bool * Sched :=
  match find_task s pid with
  | None => (false, s)
  | Some target =>
      let s := set_state (set_exit_code s target code) target Dead in
      let s := with_rq s (take_out (length (RUN_QUEUE s)) (fun i => i =? pid) (RUN_QUEUE s) 0 []).1 in
      (true, wake_all s (wait_key (parent_of s target)))
  end.

(** ** Boot *)

(** [_start]: the idle task, then the first user task, then [run]. *)
Definition spawn_task (s : Sched) (parent : Z) (addr_space : option Z) (kstack_top rsp : Z) : Z * Sched :=
  let '(id, s) := new_task s parent addr_space kstack_top rsp in
  (id, enqueue (register s id) id).
Definition boot_sched (idle_top idle_rsp pml4 init_top init_rsp : Z) : outcome Sched :=
  let '(_, s) := spawn_task sched_statics 0 None idle_top idle_rsp in
  let '(_, s) := spawn_task s 0 (Some pml4) init_top init_rsp in
  run s.
