(* ===== verification/SchedProps.v ===== *)
(** * Properties of the scheduler

    Every task is in exactly the place its state says: the run queue, the CPU
    or a wait queue.  The invariant is proved over the operations the kernel
    performs, with the kills [sys_kill] permits: a kill of a blocked task leaves
    a dead task in a wait queue, a kill of the idle task breaks the rest. *)

From S2P Require Import Prelude Sched.

(** ** [swap_remove] loops *)

Lemma swap_remove_snoc {A} (l : list A) (y : A) (i : nat) :
  swap_remove (l ++ [y]) i = if decide (i = length l) then l else <[i := y]> l.
Proof.
  unfold swap_remove. rewrite last_snoc, length_app. simpl. replace (length l + 1 - 1)%nat with (length l) by lia.
  destruct (decide (i = length l)) as [-> | Hne].
  - rewrite insert_app_r_alt by lia. by rewrite take_app_length.
  - destruct (decide (i < length l)%nat).
    + rewrite insert_app_l by done. by rewrite take_app_length' by (by rewrite length_insert).
    + rewrite !list_insert_ge by (rewrite ?length_app; simpl; lia). by rewrite take_app_length.
Qed.

Lemma swap_remove_spec {A} (l : list A) (i : nat) (x : A) :
  l !! i = Some x ->
  x :: swap_remove l i ≡ₚ l /\ take i (swap_remove l i) = take i l /\ length (swap_remove l i) = (length l - 1)%nat.
Proof.
  destruct l as [| y l _] using rev_ind; [done |]. intros Hx. rewrite swap_remove_snoc, length_app. simpl.
  destruct (decide (i = length l)) as [-> | Hne].
  - rewrite lookup_app_r, Nat.sub_diag in Hx by lia. injection Hx as <-.
    split; [by rewrite Permutation_cons_append |]. rewrite take_app_length. split; [by rewrite take_ge | lia].
  - assert (i < length l)%nat as Hi.
    { apply lookup_lt_Some in Hx. rewrite length_app in Hx. simpl in Hx. lia. }
    rewrite lookup_app_l in Hx by done. rewrite length_insert, take_insert_ge by lia. rewrite take_app_le by lia.
    split; [| split; [done | lia]]. rewrite insert_take_drop by done.
    rewrite <- (take_drop_middle l i x Hx) at 3. generalize (take i l) (drop (S i) l). intros a b.
    rewrite <- Permutation_cons_append, <- !Permutation_middle. apply Permutation_swap.
Qed.

Lemma take_out_spec {A} (p : A -> bool) (fuel : nat) (l : list A) (i : nat) (out : list A) :
  (length l <= fuel + i)%nat -> Forall (fun x => p x = false) (take i l) ->
  let '(l', out') := take_out fuel p l i out in
  l' ≡ₚ filter (fun x => p x = false) l /\ out' ≡ₚ out ++ filter (fun x => p x = true) l.
Proof.
  revert l i out. induction fuel as [| fuel IH]; intros l i out Hlen Hpre; simpl.
  { rewrite take_ge in Hpre by lia. rewrite list_filter_all by done.
    rewrite (list_filter_none (fun x => p x = true)), app_nil_r; [done |].
    eapply Forall_impl; [exact Hpre |]. intros x Hx. by rewrite Hx. }
  destruct (l !! i) as [x |] eqn:Hx.
  2: { apply lookup_ge_None in Hx. rewrite take_ge in Hpre by lia. rewrite list_filter_all by done.
       rewrite (list_filter_none (fun x => p x = true)), app_nil_r; [done |].
       eapply Forall_impl; [exact Hpre |]. intros x Hp. by rewrite Hp. }
  destruct (swap_remove_spec l i x Hx) as (Hperm & Htake & Hl). pose proof (lookup_lt_Some _ _ _ Hx).
  destruct (p x) eqn:Hp.
  - specialize (IH (swap_remove l i) i (out ++ [x])). destruct (take_out fuel p _ _ _) as [l' out'].
    destruct IH as [H1 H2]; [lia | by rewrite Htake |]. rewrite H1, H2. clear H1 H2.
    set (l1 := swap_remove l i) in *. clearbody l1. split.
    + etrans; [| by apply (filter_Permutation (fun x => p x = false)) in Hperm; exact Hperm].
      by rewrite filter_cons_False by (by rewrite Hp).
    + rewrite <- app_assoc. apply Permutation_app_head.
      etrans; [| by apply (filter_Permutation (fun x => p x = true)) in Hperm; exact Hperm]. by rewrite filter_cons_True.
  - specialize (IH l (S i) out). destruct (take_out fuel p l (S i) out) as [l' out']. apply IH; [lia |].
    rewrite (take_S_r _ _ _ Hx). apply Forall_app. split; [done |]. by constructor.
Qed.

(** ** Effects of the operations *)

Lemma state_of_set (s : Sched) (i j : Z) (st : TaskState) :
  state_of (set_state s i st) j = if decide (j = i) then (fun _ => st) <$> tasks s !! i else state_of s j.
Proof.
  unfold state_of, set_state, with_tasks. simpl. destruct (decide (j = i)) as [-> | Hne].
  - rewrite lookup_alter_eq. by destruct (tasks s !! i).
  - by rewrite lookup_alter_ne.
Qed.

(** The parts of a task no scheduling operation changes. *)
Definition same_tasks (s s' : Sched) : Prop :=
  forall i, (fun t => (t_parent t, t_exit_code t, t_addr_space t, t_kstack_top t)) <$> tasks s' !! i =
            (fun t => (t_parent t, t_exit_code t, t_addr_space t, t_kstack_top t)) <$> tasks s !! i.

Lemma same_tasks_refl (s s' : Sched) : tasks s' = tasks s -> same_tasks s s'.
Proof. intros E i. by rewrite E. Qed.

Lemma same_tasks_trans (s1 s2 s3 : Sched) : same_tasks s1 s2 -> same_tasks s2 s3 -> same_tasks s1 s3.
Proof. intros H1 H2 i. by rewrite H2, H1. Qed.

Lemma same_tasks_set_state (s : Sched) (i : Z) (st : TaskState) : same_tasks s (set_state s i st).
Proof.
  intros j. unfold set_state, with_tasks. simpl. destruct (decide (j = i)) as [-> |].
  - rewrite lookup_alter_eq. by destruct (tasks s !! i).
  - by rewrite lookup_alter_ne.
Qed.

Lemma same_tasks_dom (s s' : Sched) (i : Z) : same_tasks s s' -> is_Some (tasks s' !! i) <-> is_Some (tasks s !! i).
Proof. intros H. specialize (H i). rewrite <- !not_eq_None_Some. destruct (tasks s' !! i), (tasks s !! i); simpl in H; naive_solver. Qed.

Lemma same_tasks_parent (s s' : Sched) (i : Z) : same_tasks s s' -> parent_of s' i = parent_of s i.
Proof. intros H. specialize (H i). unfold parent_of. destruct (tasks s' !! i), (tasks s !! i); simpl in H; congruence. Qed.

Lemma same_tasks_code (s s' : Sched) (i : Z) : same_tasks s s' -> exit_code_of s' i = exit_code_of s i.
Proof. intros H. specialize (H i). unfold exit_code_of. destruct (tasks s' !! i), (tasks s !! i); simpl in H; congruence. Qed.

Lemma wake_fold_spec (l : list Z) (s : Sched) :
  Forall (fun i => is_Some (tasks s !! i)) l ->
  let s' := foldl wake_one s l in
  RUN_QUEUE s' = RUN_QUEUE s ++ l /\ WAIT_QUEUES s' = WAIT_QUEUES s /\ CURRENT s' = CURRENT s /\
  TASKS s' = TASKS s /\ NEXT_ID s' = NEXT_ID s /\ same_tasks s s' /\
  forall j, state_of s' j = if decide (j ∈ l) then Some Ready else state_of s j.
Proof.
  revert s. induction l as [| i l IH]; intros s Hl s'; simpl in s'; subst s'.
  { rewrite app_nil_r. repeat split. }
  apply Forall_cons in Hl as [Hi Hl].
  destruct (IH (wake_one s i)) as (H1 & H2 & H3 & H4 & H5 & H6 & H7).
  { eapply Forall_impl; [exact Hl |]. intros j Hj. unfold wake_one. simpl.
    apply (same_tasks_dom s (set_state s i Ready) j); [apply same_tasks_set_state | done]. }
  rewrite H1, H2, H3, H4, H5. simpl. rewrite <- app_assoc. repeat split.
  - eapply same_tasks_trans; [apply same_tasks_set_state |]. exact H6.
  - intros j. rewrite H7. unfold wake_one. change (state_of (with_rq ?a ?b) j) with (state_of a j).
    rewrite state_of_set. destruct (decide (j ∈ l)) as [Hj | Hj].
    { by rewrite decide_True by (by right). }
    destruct (decide (j = i)) as [-> | Hne].
    + rewrite decide_True by (by left). by destruct Hi as [t ->].
    + rewrite decide_False; [done |]. by intros [-> | ?]%elem_of_cons.
Qed.

Definition waiting_on (key : Z) (s : Sched) : list (Z * Z) := filter (fun kt => (kt.1 =? key) = true) (WAIT_QUEUES s).

Lemma wake_all_spec (s : Sched) (key : Z) :
  Forall (fun kt => is_Some (tasks s !! kt.2)) (WAIT_QUEUES s) ->
  exists woken, woken ≡ₚ (waiting_on key s).*2 /\
  let s' := wake_all s key in
  RUN_QUEUE s' = RUN_QUEUE s ++ woken /\
  WAIT_QUEUES s' ≡ₚ filter (fun kt => (kt.1 =? key) = false) (WAIT_QUEUES s) /\
  CURRENT s' = CURRENT s /\ TASKS s' = TASKS s /\ NEXT_ID s' = NEXT_ID s /\ same_tasks s s' /\
  forall j, state_of s' j = if decide (j ∈ woken) then Some Ready else state_of s j.
Proof.
  intros Hall. unfold wake_all.
  pose proof (take_out_spec (fun kt : Z * Z => kt.1 =? key) (length (WAIT_QUEUES s)) (WAIT_QUEUES s) 0 []) as Hto.
  destruct (take_out _ _ _ _ _) as [wq woken]. destruct Hto as [Hwq Hwoken]; [lia | constructor |].
  simpl in Hwoken. exists woken.*2. split; [unfold waiting_on; by rewrite Hwoken |]. cbv zeta.
  destruct (wake_fold_spec woken.*2 (with_wq s wq)) as (H1 & H2 & H3 & H4 & H5 & H6 & H7).
  { apply Forall_forall. intros i (kt & -> & Hin)%list_elem_of_fmap.
    rewrite Hwoken in Hin. apply list_elem_of_filter in Hin as [_ Hin]. rewrite Forall_forall in Hall. by apply Hall. }
  split; [done |]. split; [by rewrite H2 |]. done.
Qed.

Lemma elem_of_option_list {A} (o : option A) (x : A) : x ∈ option_list o <-> o = Some x.
Proof. destruct o as [y |]; simpl; [rewrite list_elem_of_singleton; split; congruence | split; [by intros ?%elem_of_nil | done]]. Qed.

(** The outgoing task goes to the back of the queue if it can still run. *)
Definition requeues (s : Sched) : bool :=
  match CURRENT s with
  | Some p => bool_decide (state_of s p = Some Ready \/ state_of s p = Some Running)
  | None => false
  end.

(** What scheduling operations leave alone. *)
Definition same_static (s s' : Sched) : Prop :=
  TASKS s' = TASKS s /\ NEXT_ID s' = NEXT_ID s /\ same_tasks s s'.

Lemma prepare_to_run_fields (s : Sched) (i : Z) :
  let s' := prepare_to_run s i in
  tasks s' = tasks s /\ RUN_QUEUE s' = RUN_QUEUE s /\ CURRENT s' = CURRENT s /\ WAIT_QUEUES s' = WAIT_QUEUES s /\
  TASKS s' = TASKS s /\ NEXT_ID s' = NEXT_ID s.
Proof. unfold prepare_to_run. by destruct (tasks s !! i). Qed.

Lemma schedule_spec (s : Sched) (next : Z) (q : list Z) :
  RUN_QUEUE s = next :: q -> is_Some (tasks s !! next) -> CURRENT s <> Some next ->
  exists s', schedule s = (SwitchTo (CURRENT s) next, s') /\
    RUN_QUEUE s' = q ++ (if requeues s then option_list (CURRENT s) else []) /\
    CURRENT s' = Some next /\ WAIT_QUEUES s' = WAIT_QUEUES s /\ same_static s s' /\
    forall j, state_of s' j = if decide (j = next) then Some Running
                              else if requeues s && bool_decide (CURRENT s = Some j) then Some Ready
                              else state_of s j.
Proof.
  intros Hq [t Ht] Hne. unfold schedule. cbn [RUN_QUEUE with_resched]. rewrite Hq. cbv zeta.
  set (s0 := with_rq (with_resched s false) q).
  set (s1 := match CURRENT s0 with Some p => _ | None => _ end).
  assert (RUN_QUEUE s1 = q ++ (if requeues s then option_list (CURRENT s) else []) /\ CURRENT s1 = CURRENT s /\
          WAIT_QUEUES s1 = WAIT_QUEUES s /\ same_static s s1 /\
          forall j, state_of s1 j = if requeues s && bool_decide (CURRENT s = Some j) then Some Ready else state_of s j)
    as (H1 & H2 & H3 & H4 & H5).
  { unfold s1, requeues. change (CURRENT s0) with (CURRENT s). destruct (CURRENT s) as [p |] eqn:Hc.
    2: { rewrite app_nil_r. repeat split; simpl; congruence. }
    change (state_of s0 p) with (state_of s p).
    destruct (decide (state_of s p = Some Ready \/ state_of s p = Some Running)) as [Hr | Hr].
    - rewrite bool_decide_eq_true_2 by done. simpl. repeat split; [done | apply (same_tasks_set_state s0) |].
      intros j. change (state_of (with_rq ?a ?b) j) with (state_of a j). rewrite state_of_set.
      destruct (decide (j = p)) as [-> | Hj].
      + rewrite bool_decide_eq_true_2 by done. simpl. unfold state_of in Hr. destruct (tasks s !! p); [done |].
        by destruct Hr.
      + rewrite bool_decide_eq_false_2 by congruence. done.
    - rewrite bool_decide_eq_false_2 by done. rewrite app_nil_r. repeat split; simpl; congruence. }
  clearbody s1. change (CURRENT s0) with (CURRENT s). rewrite decide_False by done.
  set (s2 := with_current (set_state s1 next Running) (Some next)).
  destruct (prepare_to_run_fields s2 next) as (P1 & P2 & P3 & P4 & P5 & P6).
  exists (prepare_to_run s2 next). split; [done |]. rewrite P2, P3, P4. simpl. destruct H4 as (H4 & H4' & H4'').
  split; [done |]. split; [done |]. split; [done |]. split.
  - split; [by rewrite P5 | split; [by rewrite P6 |]].
    eapply same_tasks_trans; [exact H4'' |]. eapply same_tasks_trans; [apply (same_tasks_set_state s1 next Running) |].
    by apply same_tasks_refl.
  - intros j. unfold state_of at 1. rewrite P1. change (t_state <$> tasks s2 !! j) with (state_of (set_state s1 next Running) j).
    rewrite state_of_set. destruct (decide (j = next)) as [-> |]; [| apply H5].
    destruct (proj2 (same_tasks_dom s s1 next H4'')) as [t' ->]; [by exists t | done].
Qed.

(** ** The invariant *)

Definition IDLE : Z := 1.
(** Where tasks are. *)
Definition placed (s : Sched) : list Z := RUN_QUEUE s ++ option_list (CURRENT s) ++ (WAIT_QUEUES s).*2.

(** With [zombies] a wait queue may also hold tasks that were killed in it. *)
Record sched_inv (zombies : Prop) (s : Sched) : Prop := {
  wf_once : NoDup (placed s);
  wf_rq : forall i, i ∈ RUN_QUEUE s -> state_of s i = Some Ready;
  wf_cur : forall i, CURRENT s = Some i -> state_of s i = Some Running \/ state_of s i = Some Ready;
  wf_wq : forall i, i ∈ (WAIT_QUEUES s).*2 -> state_of s i = Some Blocked \/ zombies /\ state_of s i = Some Dead;
  wf_ready : forall i, state_of s i = Some Ready -> i ∈ RUN_QUEUE s \/ CURRENT s = Some i;
  wf_running : forall i, state_of s i = Some Running -> CURRENT s = Some i;
  wf_blocked : forall i, state_of s i = Some Blocked -> i ∈ (WAIT_QUEUES s).*2;
  wf_idle : IDLE ∈ RUN_QUEUE s \/ CURRENT s = Some IDLE;
  wf_ids : forall i, is_Some (tasks s !! i) -> 0 < i < NEXT_ID s;
  wf_tasks : NoDup (TASKS s) /\ forall i, i ∈ TASKS s <-> is_Some (tasks s !! i)
}.

Arguments wf_once {zombies} s _.
Arguments wf_rq {zombies} s _.
Arguments wf_cur {zombies} s _.
Arguments wf_wq {zombies} s _.
Arguments wf_ready {zombies} s _.
Arguments wf_running {zombies} s _.
Arguments wf_blocked {zombies} s _.
Arguments wf_idle {zombies} s _.
Arguments wf_ids {zombies} s _.
Arguments wf_tasks {zombies} s _.

Notation sched_wf := (sched_inv False).
Notation sched_ok := (sched_inv True).

Lemma state_is_task (s : Sched) (i : Z) (st : TaskState) : state_of s i = Some st -> is_Some (tasks s !! i).
Proof. unfold state_of. by destruct (tasks s !! i). Qed.

Lemma wf_static (s s' : Sched) :
  same_static s s' ->
  ((forall i, is_Some (tasks s !! i) -> 0 < i < NEXT_ID s) /\ NoDup (TASKS s) /\ forall i, i ∈ TASKS s <-> is_Some (tasks s !! i)) ->
  (forall i, is_Some (tasks s' !! i) -> 0 < i < NEXT_ID s') /\ NoDup (TASKS s') /\ forall i, i ∈ TASKS s' <-> is_Some (tasks s' !! i).
Proof.
  intros (-> & -> & Hs) (H1 & H2 & H3). split; [| split; [done |]].
  - intros i Hi. apply H1. by apply (same_tasks_dom s s').
  - intros i. rewrite H3. symmetry. by apply same_tasks_dom.
Qed.

(** The common part of every switch: [s] may be about to lose its current task,
    which then is no longer runnable. *)
Lemma switch_wf {zb : Prop} (s : Sched) :
  NoDup (RUN_QUEUE s ++ (if requeues s then option_list (CURRENT s) else []) ++ (WAIT_QUEUES s).*2) ->
  (forall i, i ∈ RUN_QUEUE s -> state_of s i = Some Ready) ->
  (forall i, i ∈ (WAIT_QUEUES s).*2 -> state_of s i = Some Blocked \/ zb /\ state_of s i = Some Dead) ->
  (forall i, state_of s i = Some Ready -> i ∈ RUN_QUEUE s \/ CURRENT s = Some i) ->
  (forall i, state_of s i = Some Running -> CURRENT s = Some i) ->
  (forall i, state_of s i = Some Blocked -> i ∈ (WAIT_QUEUES s).*2) ->
  IDLE ∈ RUN_QUEUE s \/ requeues s = true /\ CURRENT s = Some IDLE ->
  (forall i, is_Some (tasks s !! i) -> 0 < i < NEXT_ID s) ->
  NoDup (TASKS s) /\ (forall i, i ∈ TASKS s <-> is_Some (tasks s !! i)) ->
  (forall i, CURRENT s = Some i -> i ∉ RUN_QUEUE s) -> RUN_QUEUE s <> [] ->
  exists next s', schedule s = (SwitchTo (CURRENT s) next, s') /\ head (RUN_QUEUE s) = Some next /\ sched_inv zb s'.
Proof.
  intros Hnd Hrq Hwq Hready Hrun Hbl Hidle Hids Htasks Hcur Hne.
  destruct (RUN_QUEUE s) as [| next q] eqn:Hq; [done |].
  assert (state_of s next = Some Ready) as Hn by (apply Hrq; by left).
  destruct (schedule_spec s next q Hq (state_is_task _ _ _ Hn)) as (s' & Hs & H1 & H2 & H3 & H4 & H5).
  { intros E. apply (Hcur next E). by left. }
  exists next, s'. split; [done |]. split; [done |].
  destruct (wf_static s s' H4 (conj Hids Htasks)) as (Hids' & Htasks').
  assert (forall j, CURRENT s = Some j -> requeues s = false -> state_of s j <> Some Ready /\ state_of s j <> Some Running) as Hdead.
  { intros j Hj. unfold requeues. rewrite Hj. intros ?%bool_decide_eq_false. tauto. }
  assert (forall j, CURRENT s = Some j -> j <> next) as Hcn.
  { intros j Hj ->. apply (Hcur next Hj). by left. }
  assert (next ∉ q /\ next ∉ (WAIT_QUEUES s).*2) as [Hnq Hnw].
  { simpl in Hnd. apply NoDup_cons in Hnd as [Hnd _]. rewrite !elem_of_app in Hnd. tauto. }
  assert (forall j, j ∈ q -> state_of s j = Some Ready) as Hqr by (intros j Hj; apply Hrq; by right).
  split; rewrite ?H1, ?H2, ?H3; [| | | | | | | | done | done].
  - unfold placed. rewrite H1, H2, H3. simpl. rewrite <- app_assoc. simpl.
    simpl in Hnd. revert Hnd. apply NoDup_Permutation_proper.
    rewrite (Permutation_app_comm (if requeues s then _ else _) (next :: _)). simpl.
    rewrite <- Permutation_middle. apply perm_skip. apply Permutation_app_head, Permutation_app_comm.
  - intros i [Hi | Hi]%elem_of_app; rewrite H5.
    + rewrite decide_False by (intros ->; done). destruct (requeues s && _); [done | by apply Hqr].
    + destruct (requeues s) eqn:Hr; [| by apply elem_of_nil in Hi].
      apply elem_of_option_list in Hi. rewrite decide_False by (by apply Hcn). by rewrite bool_decide_eq_true_2.
  - intros i [= <-]. rewrite H5, decide_True by done. by left.
  - intros i Hi. rewrite H5, decide_False by (intros ->; done).
    destruct (requeues s && bool_decide _) eqn:E; [| by apply Hwq].
    apply andb_prop in E as [Hr Hc%bool_decide_eq_true]. exfalso. simpl in Hnd. rewrite Hr, Hc in Hnd.
    apply NoDup_cons in Hnd as [_ Hnd]. apply NoDup_app in Hnd as (_ & _ & Hnd). simpl in Hnd.
    apply NoDup_cons in Hnd as [Hnd _]. done.
  - intros i Hi. rewrite H5 in Hi. destruct (decide (i = next)) as [-> | Hin]; [done |].
    destruct (requeues s) eqn:Hr; simpl in Hi.
    + left. apply elem_of_app. destruct (bool_decide _) eqn:E; [right; apply bool_decide_eq_true in E; by rewrite E; left |].
      apply bool_decide_eq_false in E. apply Hready in Hi as [[]%elem_of_cons | ?]; [done | by left | done].
    + rewrite app_nil_r. apply Hready in Hi as Hi'. destruct Hi' as [[]%elem_of_cons | Hc]; [done | by left |].
      destruct (Hdead i Hc eq_refl) as [? _]. done.
  - intros i Hi. rewrite H5 in Hi. destruct (decide (i = next)) as [-> | Hin]; [done |].
    destruct (requeues s) eqn:Hr; simpl in Hi.
    + destruct (bool_decide _) eqn:E; [done |]. apply bool_decide_eq_false in E. apply Hrun in Hi. done.
    + pose proof (Hrun i Hi) as Hc. by destruct (Hdead i Hc eq_refl).
  - intros i Hi. rewrite H5 in Hi. destruct (decide (i = next)) as [-> | Hin]; [done |].
    destruct (requeues s && bool_decide _); [done | by apply Hbl].
  - destruct Hidle as [[-> | Hi]%elem_of_cons | [Hr Hc]]; [by right | left; apply elem_of_app; by left |].
    left. rewrite Hr, Hc. apply elem_of_app. right. by left.
Qed.

Lemma filter_split {A} (p : A -> bool) (l : list A) :
  filter (fun x => p x = true) l ++ filter (fun x => p x = false) l ≡ₚ l.
Proof.
  induction l as [| x l IH]; [done |]. rewrite !filter_cons. destruct (p x) eqn:E.
  - rewrite decide_True, decide_False by congruence. simpl. by rewrite IH.
  - rewrite decide_False, decide_True by congruence. by rewrite <- Permutation_middle, IH.
Qed.

Lemma wf_waiters {zb : Prop} (s : Sched) : sched_inv zb s -> Forall (fun kt => is_Some (tasks s !! kt.2)) (WAIT_QUEUES s).
Proof.
  intros Hwf. apply Forall_forall. intros kt Hkt.
  destruct (wf_wq s Hwf kt.2) as [? | [_ ?]]; [by apply list_elem_of_fmap_2 | |]; by eapply state_is_task.
Qed.

Lemma wf_waits (s : Sched) (i : Z) : sched_wf s -> i ∈ (WAIT_QUEUES s).*2 -> state_of s i = Some Blocked.
Proof. intros Hwf [? | [[] _]]%(wf_wq s Hwf). done. Qed.

Lemma wake_all_wf {zb : Prop} (s : Sched) (key : Z) : sched_inv zb s -> sched_inv zb (wake_all s key).
Proof.
  intros Hwf. destruct (wake_all_spec s key (wf_waiters s Hwf)) as (woken & Hw & H1 & H2 & H3 & H4 & H5 & H6 & H7).
  set (s' := wake_all s key) in *. clearbody s'.
  assert ((WAIT_QUEUES s).*2 ≡ₚ woken ++ (WAIT_QUEUES s').*2) as Hwq.
  { rewrite Hw, H2. unfold waiting_on. rewrite <- fmap_app. by rewrite filter_split. }
  pose proof (wf_once s Hwf) as Hnd. unfold placed in Hnd. rewrite Hwq in Hnd.
  assert (forall i, i ∈ (WAIT_QUEUES s').*2 -> i ∉ woken) as Hdisj.
  { intros i Hi Hi'. apply NoDup_app in Hnd as (_ & _ & Hnd). apply NoDup_app in Hnd as (_ & _ & Hnd).
    apply NoDup_app in Hnd as (_ & Hnd & _). by apply (Hnd i). }
  destruct (wf_static s s' (conj H4 (conj H5 H6)) (conj (wf_ids s Hwf) (wf_tasks s Hwf))) as (Hids & Htasks).
  split; rewrite ?H1, ?H3; [| | | | | | | | done | done].
  - unfold placed. rewrite H1, H3. revert Hnd. apply NoDup_Permutation_proper. rewrite <- app_assoc.
    apply Permutation_app_head. rewrite !app_assoc. apply Permutation_app_tail, Permutation_app_comm.
  - intros i Hi. rewrite H7. destruct (decide (i ∈ woken)); [done |]. apply (wf_rq s Hwf).
    by apply elem_of_app in Hi as [? | ?].
  - intros i Hi. rewrite H7. destruct (decide (i ∈ woken)) as [Hin |]; [by right | by apply (wf_cur s Hwf)].
  - intros i Hi. rewrite H7, decide_False by (by apply Hdisj). apply (wf_wq s Hwf). rewrite Hwq, elem_of_app. by right.
  - intros i Hi. rewrite H7 in Hi. destruct (decide (i ∈ woken)); [left; apply elem_of_app; by right |].
    apply (wf_ready s Hwf) in Hi as [? | ?]; [left; apply elem_of_app; by left | by right].
  - intros i Hi. rewrite H7 in Hi. destruct (decide (i ∈ woken)); [done | by apply (wf_running s Hwf)].
  - intros i Hi. rewrite H7 in Hi. destruct (decide (i ∈ woken)); [done |].
    apply (wf_blocked s Hwf) in Hi. rewrite Hwq in Hi. by apply elem_of_app in Hi as [? | ?].
  - destruct (wf_idle s Hwf) as [? | ?]; [left; apply elem_of_app; by left | by right].
Qed.

(** Fields the invariant does not look at. *)
Lemma wf_ext {zb : Prop} (s s' : Sched) :
  tasks s' = tasks s -> RUN_QUEUE s' = RUN_QUEUE s -> CURRENT s' = CURRENT s -> WAIT_QUEUES s' = WAIT_QUEUES s ->
  TASKS s' = TASKS s -> NEXT_ID s' = NEXT_ID s -> sched_inv zb s -> sched_inv zb s'.
Proof.
  intros E1 E2 E3 E4 E5 E6 Hwf. destruct s, s'. simpl in *. subst. destruct Hwf. by split.
Qed.

Lemma wf_cur_not_queued {zb : Prop} (s : Sched) (i : Z) : sched_inv zb s -> CURRENT s = Some i -> i ∉ RUN_QUEUE s.
Proof.
  intros Hwf Hc Hi. pose proof (wf_once s Hwf) as Hnd. unfold placed in Hnd. rewrite Hc in Hnd.
  apply NoDup_app in Hnd as (_ & Hnd & _). apply (Hnd i Hi). by left.
Qed.

Lemma schedule_wf {zb : Prop} (s : Sched) : sched_inv zb s -> sched_inv zb (schedule s).2.
Proof.
  intros Hwf. destruct (RUN_QUEUE s) as [| n q] eqn:Hq.
  { unfold schedule. simpl. rewrite Hq. by apply (wf_ext s). }
  assert (requeues s = bool_decide (is_Some (CURRENT s))) as Hr.
  { unfold requeues. destruct (CURRENT s) as [p |] eqn:Hc; [| done]. rewrite !bool_decide_eq_true_2; [done | done |].
    destruct (wf_cur s Hwf p Hc); tauto. }
  destruct (switch_wf (zb := zb) s) as (next & s' & Hs & _ & Hwf'); try apply Hwf.
  - rewrite Hr. pose proof (wf_once s Hwf) as Hnd. unfold placed in Hnd. destruct (CURRENT s); [| done].
    by rewrite bool_decide_eq_true_2.
  - destruct (wf_idle s Hwf) as [? | Hc]; [by left | right]. rewrite Hr, Hc. by rewrite bool_decide_eq_true_2.
  - intros i Hi. by eapply wf_cur_not_queued.
  - by rewrite Hq.
  - by rewrite Hs.
Qed.

Lemma wf_idle_queued {zb : Prop} (s : Sched) (c : Z) : sched_inv zb s -> CURRENT s = Some c -> c <> IDLE -> IDLE ∈ RUN_QUEUE s.
Proof. intros Hwf Hc Hne. destruct (wf_idle s Hwf); [done | congruence]. Qed.

Lemma block_on_spec {zb : Prop} (s : Sched) (c key : Z) :
  sched_inv zb s -> CURRENT s = Some c -> c <> IDLE ->
  exists next s', block_on s key = (SwitchTo (Some c) next, s') /\ head (RUN_QUEUE s) = Some next /\ sched_inv zb s'.
Proof.
  intros Hwf Hc Hne. unfold block_on. rewrite Hc.
  set (s1 := with_wq (set_state s c Blocked) (WAIT_QUEUES (set_state s c Blocked) ++ [(key, c)])).
  assert (is_Some (tasks s !! c)) as [t Ht] by (destruct (wf_cur s Hwf c Hc); by eapply state_is_task).
  assert (forall j, state_of s1 j = if decide (j = c) then Some Blocked else state_of s j) as Hst.
  { intros j. unfold s1. change (state_of (with_wq ?a ?b) j) with (state_of a j). rewrite state_of_set. by rewrite Ht. }
  assert (requeues s1 = false) as Hr.
  { unfold requeues. change (CURRENT s1) with (CURRENT s). rewrite Hc. apply bool_decide_eq_false_2.
    rewrite Hst, decide_True by done. by intros [? | ?]. }
  assert (same_static s s1) as Hss by (repeat split; apply same_tasks_set_state).
  destruct (wf_static s s1 Hss (conj (wf_ids s Hwf) (wf_tasks s Hwf))) as (Hids & Htasks).
  pose proof (wf_idle_queued s c Hwf Hc Hne) as Hidle.
  assert ((WAIT_QUEUES s1).*2 = (WAIT_QUEUES s).*2 ++ [c]) as Hwq by (unfold s1; simpl; by rewrite fmap_app).
  assert (RUN_QUEUE s1 = RUN_QUEUE s) as Hrq by done. assert (CURRENT s1 = Some c) as Hc1 by done.
  clearbody s1. destruct (switch_wf (zb := zb) s1) as (next & s' & Hs & Hh & Hwf'); try done; rewrite ?Hrq in *.
  - rewrite Hr, Hwq. simpl. pose proof (wf_once s Hwf) as Hnd. unfold placed in Hnd. rewrite Hc in Hnd.
    revert Hnd. apply NoDup_Permutation_proper. apply Permutation_app_head. simpl. by rewrite <- Permutation_cons_append.
  - intros i Hi. rewrite Hst, decide_False; [by apply (wf_rq s Hwf) |]. intros ->. by apply (wf_cur_not_queued (zb := zb) s c).
  - intros i. rewrite Hwq, elem_of_app, list_elem_of_singleton, Hst. intros [Hi | ->]; [| left; by rewrite decide_True].
    destruct (decide (i = c)); [by left | by apply (wf_wq s Hwf)].
  - intros i. rewrite Hst. destruct (decide (i = c)); [done |]. intros Hi%(wf_ready s Hwf). by rewrite Hc1, <- Hc.
  - intros i. rewrite Hst. destruct (decide (i = c)); [done |]. intros Hi%(wf_running s Hwf). by rewrite Hc1, <- Hc.
  - intros i. rewrite Hst, Hwq, elem_of_app, list_elem_of_singleton. destruct (decide (i = c)); [by right |].
    intros Hi. left. by apply (wf_blocked s Hwf).
  - by left.
  - intros i. rewrite Hc1. intros [= <-]. by eapply wf_cur_not_queued.
  - intros E. rewrite E in Hidle. by apply elem_of_nil in Hidle.
  - exists next, s'. rewrite Hc1 in Hs. done.
Qed.

(** ** Exit *)

Lemma wake_all_with_current (s : Sched) (key : Z) (o : option Z) :
  with_current (wake_all s key) o = wake_all (with_current s o) key.
Proof.
  unfold wake_all. change (WAIT_QUEUES (with_current s o)) with (WAIT_QUEUES s).
  destruct (take_out _ _ _ _ _) as [wq woken].
  change (with_wq (with_current s o) wq) with (with_current (with_wq s wq) o).
  generalize (with_wq s wq). induction woken.*2 as [| i l IH]; intros s0; simpl; [done | by rewrite IH].
Qed.

(** [s] with task [c] dead. *)
Definition buried (s : Sched) (c code : Z) : Sched := set_state (set_exit_code s c code) c Dead.

Lemma buried_spec (s : Sched) (c code : Z) :
  is_Some (tasks s !! c) ->
  (forall j, state_of (buried s c code) j = if decide (j = c) then Some Dead else state_of s j) /\
  (forall j, is_Some (tasks (buried s c code) !! j) <-> is_Some (tasks s !! j)) /\
  (forall j, parent_of (buried s c code) j = parent_of s j) /\ exit_code_of (buried s c code) c = code.
Proof.
  intros [t Ht]. unfold buried. split_and!.
  - intros j. rewrite state_of_set. unfold set_exit_code, state_of. simpl. destruct (decide (j = c)) as [-> | Hne].
    + by rewrite lookup_alter_eq, Ht.
    + by rewrite lookup_alter_ne.
  - intros j. unfold set_state, set_exit_code. simpl. by rewrite !lookup_alter_is_Some.
  - intros j. unfold parent_of, set_state, set_exit_code. simpl. destruct (decide (j = c)) as [-> | Hne].
    + by rewrite !lookup_alter_eq, Ht.
    + by rewrite !lookup_alter_ne.
  - unfold exit_code_of, set_state, set_exit_code. simpl. by rewrite !lookup_alter_eq, Ht.
Qed.

Lemma buried_wf {zb : Prop} (s : Sched) (c code : Z) :
  sched_inv zb s -> CURRENT s = Some c -> c <> IDLE -> sched_inv zb (with_current (buried s c code) None).
Proof.
  intros Hwf Hc Hne.
  assert (is_Some (tasks s !! c)) as Ht by (destruct (wf_cur s Hwf c Hc); by eapply state_is_task).
  destruct (buried_spec s c code Ht) as (Hst & Hdom & _). pose proof (wf_cur_not_queued s c Hwf Hc) as Hcq.
  pose proof (wf_once s Hwf) as Hnd. unfold placed in Hnd. rewrite Hc in Hnd.
  assert (c ∉ (WAIT_QUEUES s).*2) as Hcw.
  { apply NoDup_app in Hnd as (_ & _ & Hnd). by apply NoDup_cons in Hnd as [? _]. }
  split; change (state_of (with_current ?a ?b)) with (state_of a);
    change (RUN_QUEUE (with_current (buried s c code) None)) with (RUN_QUEUE s);
    change (WAIT_QUEUES (with_current (buried s c code) None)) with (WAIT_QUEUES s);
    change (CURRENT (with_current (buried s c code) None)) with (@None Z).
  - unfold placed. simpl. apply NoDup_app in Hnd as (H1 & H2 & H3). apply NoDup_app. split; [done |].
    split; [| by apply NoDup_cons in H3 as [_ ?]]. intros i Hi Hi'. apply (H2 i Hi). by right.
  - intros i Hi. rewrite Hst, decide_False by (by intros ->). by apply (wf_rq s Hwf).
  - done.
  - intros i Hi. rewrite Hst, decide_False by (by intros ->). by apply (wf_wq s Hwf).
  - intros i. rewrite Hst. destruct (decide (i = c)); [done |].
    intros [? | ?]%(wf_ready s Hwf); [by left | congruence].
  - intros i. rewrite Hst. destruct (decide (i = c)); [done |]. intros ?%(wf_running s Hwf). congruence.
  - intros i. rewrite Hst. destruct (decide (i = c)); [done |]. apply (wf_blocked s Hwf).
  - left. by apply (wf_idle_queued (zb := zb) s c).
  - intros i Hi. apply (wf_ids s Hwf). by apply Hdom.
  - split; [apply (wf_tasks s Hwf) |]. intros i. simpl. rewrite Hdom. apply (wf_tasks s Hwf).
Qed.

Lemma current_exit_spec {zb : Prop} (s : Sched) (c code : Z) :
  sched_inv zb s -> CURRENT s = Some c -> c <> IDLE ->
  exists next s', current_exit s code = (SwitchTo None next, s') /\ sched_inv zb s' /\
    let s1 := wake_all (with_current (buried s c code) None) (wait_key (parent_of s c)) in
    head (RUN_QUEUE s1) = Some next /\ schedule s1 = (SwitchTo None next, s').
Proof.
  intros Hwf Hc Hne. unfold current_exit. rewrite Hc. fold (buried s c code). rewrite wake_all_with_current.
  pose proof (buried_wf s c code Hwf Hc Hne) as Hb.
  set (s1 := wake_all _ _). assert (sched_inv zb s1) as Hwf1 by (by apply wake_all_wf).
  assert (CURRENT s1 = None) as Hc1.
  { destruct (wake_all_spec (with_current (buried s c code) None) (wait_key (parent_of s c)) (wf_waiters _ Hb))
      as (? & _ & _ & _ & H & _). unfold s1. by rewrite H. }
  assert (IDLE ∈ RUN_QUEUE s1) as Hidle by (destruct (wf_idle s1 Hwf1); [done | congruence]).
  destruct (switch_wf (zb := zb) s1) as (next & s' & Hs & Hh & Hwf'); try apply Hwf1.
  - unfold requeues. rewrite Hc1. pose proof (wf_once s1 Hwf1) as Hnd. unfold placed in Hnd. by rewrite Hc1 in Hnd.
  - by left.
  - congruence.
  - intros E. rewrite E in Hidle. by apply elem_of_nil in Hidle.
  - exists next, s'. by rewrite Hc1 in Hs.
Qed.

(** ** Kill *)

Lemma find_task_Some (s : Sched) (pid t : Z) : find_task s pid = Some t -> t = pid /\ pid ∈ TASKS s.
Proof.
  unfold find_task. intros H. assert (t ∈ filter (fun i => i = pid) (TASKS s)) as Hin.
  { destruct (filter _ _); [done |]. injection H as ->. by left. }
  apply list_elem_of_filter in Hin as [-> ?]. done.
Qed.

Lemma find_task_None (s : Sched) (pid : Z) : pid ∈ TASKS s -> find_task s pid = Some pid.
Proof.
  intros Hin. unfold find_task. assert (pid ∈ filter (fun i => i = pid) (TASKS s)) as H by (by apply list_elem_of_filter).
  destruct (filter _ _) as [| x l] eqn:E; [by apply elem_of_nil in H |].
  assert (x ∈ filter (fun i => i = pid) (TASKS s)) as Hx by (rewrite E; by left).
  apply list_elem_of_filter in Hx as [-> _]. done.
Qed.

(** The state [kill] hands to [wake_all]. *)
Definition killed (s : Sched) (pid code : Z) : Sched :=
  with_rq (buried s pid code) (take_out (length (RUN_QUEUE s)) (fun i => i =? pid) (RUN_QUEUE s) 0 []).1.

Lemma kill_split (s : Sched) (pid code : Z) :
  pid ∈ TASKS s -> is_Some (tasks s !! pid) ->
  kill s pid code = (true, wake_all (killed s pid code) (wait_key (parent_of s pid))).
Proof.
  intros Hin Ht. unfold kill. rewrite find_task_None by done. fold (buried s pid code).
  change (RUN_QUEUE (buried s pid code)) with (RUN_QUEUE s). fold (killed s pid code).
  destruct (buried_spec s pid code Ht) as (_ & _ & Hp & _).
  change (parent_of (killed s pid code) pid) with (parent_of (buried s pid code) pid). by rewrite Hp.
Qed.

Lemma killed_rq (s : Sched) (pid code : Z) : RUN_QUEUE (killed s pid code) ≡ₚ filter (fun i => i <> pid) (RUN_QUEUE s).
Proof.
  unfold killed. cbn [RUN_QUEUE with_rq].
  pose proof (take_out_spec (fun i => i =? pid) (length (RUN_QUEUE s)) (RUN_QUEUE s) 0 []) as H.
  destruct (take_out _ _ _ _ _) as [l out]. destruct H as [H _]; [lia | constructor |]. simpl. rewrite H.
  erewrite list_filter_iff; [done |]. intros i. simpl. by rewrite Z.eqb_neq.
Qed.

Lemma killed_wf {zb : Prop} (s : Sched) (pid code : Z) :
  sched_inv zb s -> is_Some (tasks s !! pid) -> CURRENT s <> Some pid -> pid <> IDLE ->
  zb \/ state_of s pid <> Some Blocked -> sched_inv zb (killed s pid code).
Proof.
  intros Hwf Ht Hc Hne Hnb. destruct (buried_spec s pid code Ht) as (Hst & Hdom & _).
  pose proof (killed_rq s pid code) as Hrq.
  assert (forall i, i ∈ RUN_QUEUE (killed s pid code) <-> i <> pid /\ i ∈ RUN_QUEUE s) as Hin.
  { intros i. by rewrite Hrq, list_elem_of_filter. }
  split; change (state_of (killed s pid code)) with (state_of (buried s pid code));
    change (CURRENT (killed s pid code)) with (CURRENT s);
    change (WAIT_QUEUES (killed s pid code)) with (WAIT_QUEUES s).
  - unfold placed. change (CURRENT (killed s pid code)) with (CURRENT s).
    change (WAIT_QUEUES (killed s pid code)) with (WAIT_QUEUES s). pose proof (wf_once s Hwf) as Hnd. unfold placed in Hnd.
    apply NoDup_app in Hnd as (H1 & H2 & H3). apply NoDup_app. split; [| split; [| done]].
    + rewrite Hrq. by apply NoDup_filter.
    + intros i [_ Hi]%Hin. by apply H2.
  - intros i [Hip Hi]%Hin. rewrite Hst, decide_False by done. by apply (wf_rq s Hwf).
  - intros i Hi. rewrite Hst, decide_False by congruence. by apply (wf_cur s Hwf).
  - intros i Hi%(wf_wq s Hwf). rewrite Hst. destruct (decide (i = pid)) as [-> |]; [right | done].
    split; [| done]. destruct Hnb, Hi as [? | []]; done.
  - intros i. rewrite Hst. destruct (decide (i = pid)); [done |]. intros [? | ?]%(wf_ready s Hwf); [| by right].
    left. by apply Hin.
  - intros i. rewrite Hst. destruct (decide (i = pid)); [done |]. apply (wf_running s Hwf).
  - intros i. rewrite Hst. destruct (decide (i = pid)); [done |]. apply (wf_blocked s Hwf).
  - destruct (wf_idle s Hwf); [left; by apply Hin | by right].
  - intros i Hi. apply (wf_ids s Hwf). by apply Hdom.
  - split; [apply (wf_tasks s Hwf) |]. intros i.
    change (tasks (killed s pid code)) with (tasks (buried s pid code)). rewrite Hdom. apply (wf_tasks s Hwf).
Qed.

Lemma kill_wf {zb : Prop} (s : Sched) (pid code : Z) :
  sched_inv zb s -> CURRENT s <> Some pid -> pid <> IDLE -> zb \/ state_of s pid <> Some Blocked ->
  sched_inv zb (kill s pid code).2.
Proof.
  intros Hwf Hc Hne Hnb. destruct (find_task s pid) as [t |] eqn:E.
  - apply find_task_Some in E as [_ Hin]. pose proof (proj1 (proj2 (wf_tasks s Hwf) pid) Hin) as Ht.
    rewrite kill_split by done. by apply wake_all_wf, killed_wf.
  - unfold kill. by rewrite E.
Qed.

(** ** New tasks *)

Lemma spawn_task_wf {zb : Prop} (s : Sched) (parent : Z) (asp : option Z) (top rsp : Z) :
  sched_inv zb s -> NEXT_ID s + 1 < 2 ^ 64 -> sched_inv zb (spawn_task s parent asp top rsp).2.
Proof.
  intros Hwf Hid. unfold spawn_task, new_task, new_id. simpl. set (id := NEXT_ID s).
  assert (tasks s !! id = None) as Hn.
  { destruct (tasks s !! id) eqn:E; [| done]. pose proof (wf_ids s Hwf id ltac:(by rewrite E)). lia. }
  assert (0 < id) as Hpos.
  { assert (is_Some (tasks s !! IDLE)) as H; [| apply (wf_ids s Hwf) in H; unfold id, IDLE in *; lia].
    destruct (wf_idle s Hwf) as [H%(wf_rq s Hwf) | H%(wf_cur s Hwf)]; [by eapply state_is_task |].
    destruct H; by eapply state_is_task. }
  set (s' := enqueue _ _).
  assert (forall j, state_of s' j = if decide (j = id) then Some Ready else state_of s j) as Hst.
  { intros j. unfold s', state_of. simpl. destruct (decide (j = id)) as [-> |];
      [by rewrite lookup_insert_eq | by rewrite lookup_insert_ne]. }
  assert (forall st, state_of s id <> Some st) as Hnone by (intros st; unfold state_of; by rewrite Hn).
  assert (id ∉ placed s) as Hnp.
  { unfold placed. rewrite !elem_of_app, elem_of_option_list.
    intros [H%(wf_rq s Hwf) | [[H | H]%(wf_cur s Hwf) | [H | [_ H]]%(wf_wq s Hwf)]]; by eapply Hnone. }
  split; rewrite ?Hst; change (CURRENT s') with (CURRENT s); change (WAIT_QUEUES s') with (WAIT_QUEUES s);
    change (RUN_QUEUE s') with (RUN_QUEUE s ++ [id]).
  - unfold placed. change (RUN_QUEUE s') with (RUN_QUEUE s ++ [id]). rewrite <- app_assoc. simpl.
    rewrite <- Permutation_middle. apply NoDup_cons. split; [exact Hnp | apply Hwf].
  - intros i. rewrite elem_of_app, list_elem_of_singleton, Hst. destruct (decide (i = id)); [done |].
    intros [? | ?]; [by apply (wf_rq s Hwf) | done].
  - intros i Hi. rewrite Hst. destruct (decide (i = id)); [by right | by apply (wf_cur s Hwf)].
  - intros i Hi. rewrite Hst. destruct (decide (i = id)) as [-> |]; [| by apply (wf_wq s Hwf)].
    destruct Hnp. unfold placed. rewrite !elem_of_app. tauto.
  - intros i. rewrite Hst, elem_of_app, list_elem_of_singleton. destruct (decide (i = id)); [tauto |].
    intros [? | ?]%(wf_ready s Hwf); tauto.
  - intros i. rewrite Hst. destruct (decide (i = id)); [done |]. apply (wf_running s Hwf).
  - intros i. rewrite Hst. destruct (decide (i = id)); [done |]. apply (wf_blocked s Hwf).
  - destruct (wf_idle s Hwf); [left; apply elem_of_app; by left | by right].
  - intros i. unfold s'. simpl. rewrite lookup_insert_is_Some. unfold wrap. rewrite Z.mod_small by (unfold id in *; lia).
    intros [<- | [_ Hi]]; [lia |]. apply (wf_ids s Hwf) in Hi. lia.
  - destruct (wf_tasks s Hwf) as [Hnd Hiff]. change (TASKS s') with (TASKS s ++ [id]). split.
    + apply NoDup_app. split; [done |]. split; [| apply NoDup_singleton].
      intros i Hi ->%list_elem_of_singleton. apply Hiff in Hi. rewrite Hn in Hi. by destruct Hi.
    + intros i. unfold s'. simpl. rewrite elem_of_app, list_elem_of_singleton, Hiff, lookup_insert_is_Some.
      destruct (decide (id = i)) as [-> |]; [| naive_solver]. split; [by left | by right].
Qed.

(** ** Boot *)

Lemma boot_sched_wf (idle_top idle_rsp pml4 init_top init_rsp : Z) (s : Sched) :
  boot_sched idle_top idle_rsp pml4 init_top init_rsp = Ret s ->
  sched_wf s /\ CURRENT s = Some IDLE /\ RUN_QUEUE s = [2].
Proof.
  intros [= <-]. set (s := prepare_to_run _ _).
  assert (tasks s = <[2 := mkTask 0 0 Ready (Some pml4) init_top init_rsp]>
                      (<[1 := mkTask 0 0 Ready None idle_top idle_rsp]> ∅)) as Ht by reflexivity.
  assert (forall i, is_Some (tasks s !! i) <-> i = 2 \/ i = 1) as Hdom.
  { intros i. rewrite Ht, !lookup_insert_is_Some, lookup_empty, is_Some_alt.
    destruct (decide (i = 2)), (decide (i = 1)); naive_solver. }
  assert (forall i, state_of s i = if decide (i = 2 \/ i = 1) then Some Ready else None) as Hst.
  { intros i. unfold state_of. destruct (decide _) as [[-> | ->] | Hn]; [by rewrite Ht | by rewrite Ht |].
    destruct (tasks s !! i) eqn:E; [| done]. destruct Hn. apply Hdom. by rewrite E. }
  split; [| done].
  split; change (CURRENT s) with (Some 1); change (RUN_QUEUE s) with [2]; change (WAIT_QUEUES s) with (@nil (Z * Z));
    change (NEXT_ID s) with 3; change (TASKS s) with [1; 2].
  - unfold placed. change (CURRENT s) with (Some 1); change (RUN_QUEUE s) with [2];
      change (WAIT_QUEUES s) with (@nil (Z * Z)). by apply (bool_decide_unpack (NoDup [2; 1])).
  - intros i ->%list_elem_of_singleton. rewrite Hst. by rewrite decide_True by tauto.
  - intros i [= <-]. right. rewrite Hst. by rewrite decide_True by tauto.
  - intros i Hi. by apply elem_of_nil in Hi.
  - intros i. rewrite Hst, list_elem_of_singleton. destruct (decide _) as [[-> | ->] |]; [tauto | tauto | done].
  - intros i. rewrite Hst. by destruct (decide _).
  - intros i. rewrite Hst. by destruct (decide _).
  - by right.
  - intros i [-> | ->]%Hdom; lia.
  - split; [by apply (bool_decide_unpack (NoDup [1; 2])) |]. intros i. rewrite Hdom, !elem_of_cons, elem_of_nil. tauto.
Qed.

(** ** The scheduler as a transition system *)

(** What the kernel does to the scheduler: a timer tick, [sys_yield], a blocking
    system call, a wake-up, [sys_exit] (also [sys_kill] of oneself), [sys_kill]
    and [sys_spawn]. The idle task only halts, so it never blocks, exits or kills.
    The guard of [step_kill] is the one of [sys_kill]: the caller is Spring, with
    pid 2, or the parent of the target, and the target may be in any state.
    [target] restricts the kills of a history; [any_target] does not. *)
Inductive sched_step (target : Sched -> Z -> Prop) : Sched -> Sched -> Prop :=
  | step_tick s : sched_step target s (on_tick s).2
  | step_yield s : sched_step target s (yield_now s).2
  | step_block s c key : CURRENT s = Some c -> c <> IDLE -> sched_step target s (block_on s key).2
  | step_wake s key : sched_step target s (wake_all s key)
  | step_exit s c code : CURRENT s = Some c -> c <> IDLE -> sched_step target s (current_exit s code).2
  | step_kill s c pid code : CURRENT s = Some c -> c <> IDLE -> pid <> c -> c = 2 \/ is_child s c pid = true ->
      target s pid -> sched_step target s (kill s pid code).2
  | step_spawn s parent asp top rsp : NEXT_ID s + 1 < 2 ^ 64 ->
      sched_step target s (spawn_task s parent asp top rsp).2.

Definition any_target (s : Sched) (pid : Z) : Prop := True.
Definition spares_idle (s : Sched) (pid : Z) : Prop := pid <> IDLE.
Definition spares_waiters (s : Sched) (pid : Z) : Prop := pid <> IDLE /\ state_of s pid <> Some Blocked.

#[export] Hint Resolve schedule_wf wake_all_wf kill_wf spawn_task_wf : persona.

(** Every step but a kill of the idle task, and without [zb] of a blocked one,
    keeps the invariant. *)
Lemma sched_step_inv {zb : Prop} (target : Sched -> Z -> Prop) (s s' : Sched) :
  (forall pid, target s pid -> pid <> IDLE /\ (zb \/ state_of s pid <> Some Blocked)) ->
  sched_step target s s' -> sched_inv zb s -> sched_inv zb s'.
Proof.
  intros Ht Hs Hwf. destruct Hs as [| | s c key | | s c code | s c pid code Hc ? ? _ Htg |]; eauto with persona.
  - apply schedule_wf. by eapply wf_ext, Hwf.
  - destruct (block_on_spec (zb := zb) s c key) as (next & s' & -> & _ & ?); done.
  - destruct (current_exit_spec (zb := zb) s c code) as (next & s' & -> & ? & _); done.
  - destruct (Ht pid Htg). apply kill_wf; [done | congruence | done | done].
Qed.

Lemma reachable_inv {zb : Prop} (target : Sched -> Z -> Prop) (s s' : Sched) :
  (forall s pid, target s pid -> pid <> IDLE /\ (zb \/ state_of s pid <> Some Blocked)) ->
  rtc (sched_step target) s s' -> sched_inv zb s -> sched_inv zb s'.
Proof. intros Ht. induction 1; eauto using sched_step_inv. Qed.

Lemma reachable_wf (s s' : Sched) : rtc (sched_step spares_waiters) s s' -> sched_wf s -> sched_wf s'.
Proof. intros Hr. eapply reachable_inv, Hr. intros ? pid [? ?]. split; [done | by right]. Qed.

Lemma reachable_ok (s s' : Sched) : rtc (sched_step spares_idle) s s' -> sched_ok s -> sched_ok s'.
Proof. intros Hr. eapply reachable_inv, Hr. intros ? pid ?. split; [done | by left]. Qed.

Lemma inv_mono (zb zb' : Prop) (s : Sched) : (zb -> zb') -> sched_inv zb s -> sched_inv zb' s.
Proof.
  intros Hz Hwf. destruct Hwf as [? ? ? Hq]. split; try done. intros i [? | [? ?]]%Hq; [by left | right; auto].
Qed.

(** ** After the idle task was killed *)

(** What is left then: every id the scheduler holds is one of a task, and the
    idle task is dead and nowhere. *)
Record idle_killed (s : Sched) : Prop := {
  ik_tasks : forall i, i ∈ placed s -> is_Some (tasks s !! i);
  ik_ids : forall i, is_Some (tasks s !! i) -> 0 < i < NEXT_ID s;
  ik_reg : NoDup (TASKS s) /\ forall i, i ∈ TASKS s <-> is_Some (tasks s !! i);
  ik_dead : state_of s IDLE = Some Dead;
  ik_gone : IDLE ∉ placed s
}.

(** Nothing appears out of nowhere: what an operation may do to the ids, and
    to a task that is in no place. *)
Definition confined (s s' : Sched) : Prop :=
  (forall i, i ∈ placed s' -> i ∈ placed s) /\ (forall i, is_Some (tasks s' !! i) <-> is_Some (tasks s !! i)) /\
  TASKS s' = TASKS s /\ NEXT_ID s' = NEXT_ID s /\
  forall i, i ∉ placed s -> state_of s' i = state_of s i \/ state_of s i <> None /\ state_of s' i = Some Dead.

Lemma elem_placed (s : Sched) (i : Z) :
  i ∈ placed s <-> i ∈ RUN_QUEUE s \/ CURRENT s = Some i \/ i ∈ (WAIT_QUEUES s).*2.
Proof. unfold placed. by rewrite !elem_of_app, elem_of_option_list. Qed.

Lemma confined_trans (s1 s2 s3 : Sched) : confined s1 s2 -> confined s2 s3 -> confined s1 s3.
Proof.
  intros (A1 & A2 & A3 & A4 & A5) (B1 & B2 & B3 & B4 & B5). split_and!; try congruence.
  - auto.
  - intros i. by rewrite B2.
  - intros i Hi. destruct (B5 i) as [-> | [H ->]]; [auto | auto |].
    destruct (A5 i Hi) as [<- | [? _]]; by right.
Qed.

(** Moving ids between the places, and writing states of placed tasks. *)
Lemma confined_set_state (s : Sched) (i : Z) (st : TaskState) : i ∈ placed s -> confined s (set_state s i st).
Proof.
  intros Hi. split_and!; try done.
  - intros j. apply same_tasks_dom, same_tasks_set_state.
  - intros j Hj. left. by rewrite state_of_set, decide_False by (by intros ->).
Qed.

Lemma confined_move (s s' : Sched) :
  tasks s' = tasks s -> TASKS s' = TASKS s -> NEXT_ID s' = NEXT_ID s ->
  (forall i, i ∈ placed s' -> i ∈ placed s) -> confined s s'.
Proof. intros E1 E2 E3 H. unfold confined, state_of. rewrite E1, E2, E3. split_and!; auto. Qed.

Lemma schedule_confined (s : Sched) : confined s (schedule s).2.
Proof.
  unfold schedule. cbn [RUN_QUEUE with_resched]. destruct (RUN_QUEUE s) as [| next q] eqn:Hq; [by apply confined_move |].
  cbv zeta. set (s0 := with_rq (with_resched s false) q).
  set (s1 := match CURRENT s0 with Some p => _ | None => _ end).
  assert (forall i, i ∈ q \/ CURRENT s = Some i \/ i ∈ (WAIT_QUEUES s).*2 -> i ∈ placed s) as Hin.
  { intros i Hi. apply elem_placed. rewrite Hq, elem_of_cons. tauto. }
  assert (confined s s1 /\ (forall i, i ∈ placed s1 \/ i = next -> i ∈ placed s)) as [H1 H2].
  { assert (confined s s0) as H0 by (apply confined_move; try done; intros i Hi%elem_placed; by apply Hin).
    assert (next ∈ placed s) as Hn by (apply elem_placed; rewrite Hq; left; by left).
    assert (confined s s1) as H1; [| split; [done | intros i [? | ->]; [by apply H1 | done]]].
    unfold s1. change (CURRENT s0) with (CURRENT s). destruct (CURRENT s) as [p |] eqn:Hc; [| done].
    destruct (decide _); [| done]. apply (confined_trans _ _ _ H0), (confined_trans _ (set_state s0 p Ready)).
    - apply confined_set_state, elem_placed. right. by left.
    - apply confined_move; try done. intros i. rewrite !elem_placed. cbn. rewrite elem_of_app, list_elem_of_singleton.
      intros [[? | ->] | ?]; tauto. }
  clearbody s1. set (s2 := with_current (set_state s1 next Running) (Some next)).
  assert (confined s s2) as H3.
  { destruct H1 as (A1 & A2 & A3 & A4 & A5). unfold s2. split_and!; try done.
    - intros i. rewrite elem_placed. cbn. intros Hi. apply H2. rewrite elem_placed.
      destruct Hi as [? | [[= ->] | ?]]; tauto.
    - intros i. rewrite <- A2. by apply (same_tasks_dom s1 (set_state s1 next Running)), same_tasks_set_state.
    - intros i Hi. change (state_of (with_current ?a ?b) i) with (state_of a i).
      rewrite state_of_set, decide_False; [by apply A5 |]. intros ->. apply Hi, H2. by right. }
  destruct (decide _); [done |]. apply (confined_trans _ _ _ H3).
  destruct (prepare_to_run_fields s2 next) as (P1 & P2 & P3 & P4 & P5 & P6).
  apply confined_move; try done. intros i. cbn [snd]. by rewrite !elem_placed, P2, P3, P4.
Qed.

Lemma wake_fold_confined (l : list Z) (s s0 : Sched) :
  confined s0 s -> (forall i, i ∈ l -> i ∈ placed s0) -> confined s0 (foldl wake_one s l).
Proof.
  revert s. induction l as [| i l IH]; intros s Hs Hl; simpl; [done |]. apply IH; [| intros j Hj; apply Hl; by right].
  destruct Hs as (A1 & A2 & A3 & A4 & A5). assert (i ∈ placed s0) as Hi by (apply Hl; by left).
  unfold wake_one. split_and!; try done.
  - intros j. rewrite elem_placed. cbn. rewrite elem_of_app, list_elem_of_singleton.
    intros [[? | ->] | ?]; [| done |]; apply A1, elem_placed; tauto.
  - intros j. rewrite <- A2. by apply (same_tasks_dom s (set_state s i Ready)), same_tasks_set_state.
  - intros j Hj. change (state_of (with_rq ?a ?b) j) with (state_of a j).
    rewrite state_of_set, decide_False by (by intros ->). by apply A5.
Qed.

Lemma wake_all_confined (s : Sched) (key : Z) : confined s (wake_all s key).
Proof.
  unfold wake_all.
  pose proof (take_out_spec (fun kt : Z * Z => kt.1 =? key) (length (WAIT_QUEUES s)) (WAIT_QUEUES s) 0 []) as Hto.
  destruct (take_out _ _ _ _ _) as [wq woken]. destruct Hto as [Hwq Hwoken]; [lia | constructor |]. simpl in Hwoken.
  assert (forall l p, l ≡ₚ filter (fun kt : Z * Z => (kt.1 =? key) = p) (WAIT_QUEUES s) ->
          forall i, i ∈ l.*2 -> i ∈ (WAIT_QUEUES s).*2) as Hsub.
  { intros l p Hl i (kt & -> & Hin)%list_elem_of_fmap. rewrite Hl in Hin.
    apply list_elem_of_filter in Hin as [_ ?]. by apply list_elem_of_fmap_2. }
  apply wake_fold_confined.
  - apply confined_move; try done. intros i. rewrite !elem_placed. cbn. intros [? | [? | ?]]; [tauto | tauto |].
    right. right. by eapply (Hsub wq false).
  - intros i Hi. apply elem_placed. right. right. by eapply (Hsub woken true).
Qed.

Lemma block_on_confined (s : Sched) (key : Z) : confined s (block_on s key).2.
Proof.
  unfold block_on. destruct (CURRENT s) as [c |] eqn:Hc; [| apply schedule_confined].
  refine (confined_trans _ _ _ _ (schedule_confined _)). apply (confined_trans _ (set_state s c Blocked)).
  - apply confined_set_state, elem_placed. tauto.
  - apply confined_move; try done. intros i. rewrite !elem_placed. cbn.
    rewrite fmap_app, elem_of_app. cbn. rewrite list_elem_of_singleton. intros [? | [? | [? | ->]]]; tauto.
Qed.

Lemma buried_confined (s s' : Sched) (c code : Z) :
  tasks s' = tasks (buried s c code) -> TASKS s' = TASKS s -> NEXT_ID s' = NEXT_ID s ->
  (forall i, i ∈ placed s' -> i ∈ placed s) -> confined s s'.
Proof.
  intros E1 E2 E3 H. unfold confined, state_of. rewrite E1, E2, E3. split_and!; try done.
  - intros j. unfold buried, set_state, set_exit_code. simpl. by rewrite !lookup_alter_is_Some.
  - intros i _. unfold buried, set_state, set_exit_code. simpl. destruct (decide (i = c)) as [-> |].
    + rewrite !lookup_alter_eq. destruct (tasks s !! c); [right | left]; done.
    + left. by rewrite !lookup_alter_ne.
Qed.

Lemma current_exit_confined (s : Sched) (code : Z) : confined s (current_exit s code).2.
Proof.
  unfold current_exit. refine (confined_trans _ _ _ _ (schedule_confined _)). destruct (CURRENT s) as [c |] eqn:Hc.
  - fold (buried s c code). rewrite wake_all_with_current. refine (confined_trans _ _ _ _ (wake_all_confined _ _)).
    apply (buried_confined _ _ c code); try done. intros i. rewrite !elem_placed. cbn. intros [? | [? | ?]]; [tauto | done | tauto].
  - apply confined_move; try done. intros i. rewrite !elem_placed. cbn. intros [? | [? | ?]]; [tauto | done | tauto].
Qed.

Lemma killed_confined (s : Sched) (pid code : Z) : confined s (killed s pid code).
Proof.
  apply (buried_confined _ _ pid code); try done. intros i. rewrite !elem_placed, killed_rq, list_elem_of_filter.
  cbn. tauto.
Qed.

Lemma kill_confined (s : Sched) (pid code : Z) :
  (forall i, i ∈ TASKS s -> is_Some (tasks s !! i)) -> confined s (kill s pid code).2.
Proof.
  intros Hreg. destruct (find_task s pid) as [t |] eqn:E.
  - apply find_task_Some in E as [_ Hin]. rewrite kill_split by auto.
    eapply confined_trans; [apply killed_confined | apply wake_all_confined].
  - unfold kill. rewrite E. by apply confined_move.
Qed.

Lemma idle_killed_confined (s s' : Sched) : confined s s' -> idle_killed s -> idle_killed s'.
Proof.
  intros (A1 & A2 & A3 & A4 & A5) [B1 B2 B3 B4 B5]. split.
  - intros i Hi. apply A2. auto.
  - intros i. rewrite A2, A4. auto.
  - rewrite A3. split; [apply B3 |]. intros i. rewrite A2. apply B3.
  - destruct (A5 IDLE B5) as [-> | [_ ->]]; done.
  - auto.
Qed.

Lemma idle_killed_spawn (s : Sched) (parent : Z) (asp : option Z) (top rsp : Z) :
  NEXT_ID s + 1 < 2 ^ 64 -> idle_killed s -> idle_killed (spawn_task s parent asp top rsp).2.
Proof.
  intros Hid [B1 B2 B3 B4 B5]. unfold spawn_task, new_task, new_id. simpl. set (id := NEXT_ID s).
  assert (0 < IDLE < id) as Hi by (apply B2; by eapply state_is_task).
  assert (tasks s !! id = None) as Hn.
  { destruct (tasks s !! id) eqn:E; [| done]. pose proof (B2 id ltac:(by rewrite E)). lia. }
  assert (forall i, i ∈ placed (spawn_task s parent asp top rsp).2 -> i = id \/ i ∈ placed s) as Hp.
  { intros i. rewrite !elem_placed. cbn. rewrite elem_of_app, list_elem_of_singleton. tauto. }
  change (forall i, i ∈ placed (enqueue (register (with_tasks (new_id s).2 (<[id:=mkTask parent 0 Ready asp top rsp]> (tasks s))) id) id) ->
    i = id \/ i ∈ placed s) in Hp.
  split; simpl.
  - intros i [-> | Hin]%Hp; rewrite lookup_insert_is_Some; [by left |].
    destruct (decide (id = i)); [by left | right; auto].
  - intros i. rewrite lookup_insert_is_Some. unfold wrap. rewrite Z.mod_small by (unfold id in *; lia).
    intros [<- | [_ H%B2]]; lia.
  - split.
    + apply NoDup_app. split; [apply B3 |]. split; [| apply NoDup_singleton].
      intros i Hin ->%list_elem_of_singleton. apply B3 in Hin as [? ?]. congruence.
    + intros i. rewrite elem_of_app, list_elem_of_singleton, lookup_insert_is_Some, (proj2 B3 i).
      destruct (decide (id = i)) as [<- |]; [tauto | naive_solver].
  - unfold state_of. simpl. rewrite lookup_insert_ne by lia. exact B4.
  - intros [? | ?]%Hp; [lia | done].
Qed.

(** Killing the idle task from a state in which it could run. *)
Lemma kill_idle_killed (s : Sched) (c code : Z) :
  sched_ok s -> CURRENT s = Some c -> c <> IDLE -> idle_killed (kill s IDLE code).2.
Proof.
  intros Hwf Hc Hne. pose proof (wf_idle_queued s c Hwf Hc Hne) as Hq.
  assert (is_Some (tasks s !! IDLE)) as Ht by (eapply state_is_task, (wf_rq s Hwf), Hq).
  rewrite kill_split by (done || by apply (wf_tasks s Hwf)).
  apply (idle_killed_confined _ _ (wake_all_confined _ _)).
  destruct (killed_confined s IDLE code) as (A1 & A2 & A3 & A4 & _).
  destruct (buried_spec s IDLE code Ht) as (Hst & _). split.
  - intros i Hi%A1%elem_placed. apply A2. destruct Hi as [H%(wf_rq s Hwf) | [[H | H]%(wf_cur s Hwf) | [H | [_ H]]%(wf_wq s Hwf)]];
      by eapply state_is_task.
  - intros i. rewrite A2, A4. apply (wf_ids s Hwf).
  - rewrite A3. split; [apply (wf_tasks s Hwf) |]. intros i. rewrite A2. apply (wf_tasks s Hwf).
  - change (state_of (buried s IDLE code) IDLE = Some Dead). by rewrite Hst, decide_True.
  - rewrite elem_placed, killed_rq, list_elem_of_filter. change (CURRENT (killed s IDLE code)) with (CURRENT s).
    change (WAIT_QUEUES (killed s IDLE code)) with (WAIT_QUEUES s). rewrite Hc.
    intros [[? _] | [[= ?] | [H | [_ H]]%(wf_wq s Hwf)]]; [done | done | |];
      rewrite (wf_rq s Hwf IDLE Hq) in H; done.
Qed.

Lemma any_step (s s' : Sched) :
  sched_step any_target s s' -> sched_ok s \/ idle_killed s -> sched_ok s' \/ idle_killed s'.
Proof.
  intros Hs [Hok | Hik].
  - destruct Hs as [s | s | s c key | s key | s c code | s c pid code | s parent asp top rsp].
    6: { destruct (decide (pid = IDLE)) as [-> |]; [right; by apply (kill_idle_killed s c) |].
         left. apply kill_wf; [done | congruence | done | by left]. }
    all: left; eapply (sched_step_inv spares_idle), Hok; [intros ? ?; split; [done | by left] | by econstructor].
  - right. destruct Hs; [| | | | | |by apply idle_killed_spawn]; eapply idle_killed_confined, Hik.
    + exact (schedule_confined (mkSched _ _ _ _ _ _ _ _ _ _ _)).
    + apply schedule_confined.
    + apply block_on_confined.
    + apply wake_all_confined.
    + apply current_exit_confined.
    + apply kill_confined. intros i. apply (ik_reg s Hik).
Qed.

Lemma reachable_any (s s' : Sched) :
  rtc (sched_step any_target) s s' -> sched_ok s \/ idle_killed s -> sched_ok s' \/ idle_killed s'.
Proof. induction 1; eauto using any_step. Qed.

(** ** Round robin *)

Lemma schedule_rotates (s : Sched) (c next : Z) (q : list Z) :
  sched_wf s -> CURRENT s = Some c -> RUN_QUEUE s = next :: q ->
  let s' := (schedule s).2 in sched_wf s' /\ CURRENT s' = Some next /\ RUN_QUEUE s' = q ++ [c].
Proof.
  intros Hwf Hc Hq. cbv zeta. split; [by apply schedule_wf |].
  pose proof (wf_cur_not_queued s c Hwf Hc) as Hcq. rewrite Hq in Hcq.
  destruct (schedule_spec s next q Hq) as (s' & -> & Hrq & Hcur & _).
  - eapply state_is_task, (wf_rq s Hwf). rewrite Hq. by left.
  - rewrite Hc. intros [= ->]. apply Hcq. by left.
  - cbn [snd]. split; [done |]. rewrite Hrq. unfold requeues. rewrite Hc, bool_decide_eq_true_2; [done |].
    destruct (wf_cur s Hwf c Hc); tauto.
Qed.

Lemma schedule_reaches (k : nat) (s : Sched) (i : Z) :
  sched_wf s -> is_Some (CURRENT s) -> RUN_QUEUE s !! k = Some i ->
  CURRENT (Nat.iter (S k) (fun s => (schedule s).2) s) = Some i.
Proof.
  revert s. induction k as [| k IH]; intros s Hwf [c Hc] Hk; destruct (RUN_QUEUE s) as [| n q] eqn:Hq; try done;
    destruct (schedule_rotates s c n q Hwf Hc Hq) as (Hwf' & Hc' & Hq').
  - simpl in Hk. injection Hk as ->. exact Hc'.
  - rewrite Nat.iter_succ_r. apply IH; [done | by rewrite Hc' |]. rewrite Hq'. by apply lookup_app_l_Some.
Qed.

(** ** Waiting for a child *)

Lemma head_filter_only {A} (P : A -> Prop) `{!forall x, Decision (P x)} (l : list A) (x : A) :
  x ∈ l -> P x -> (forall y, P y -> y = x) -> head (filter P l) = Some x.
Proof.
  intros Hin HP Hu. assert (x ∈ filter P l) as Hx by (by apply list_elem_of_filter).
  destruct (filter P l) as [| y l'] eqn:E; [by apply elem_of_nil in Hx |].
  assert (y ∈ filter P l) as Hy by (rewrite E; by left). apply list_elem_of_filter in Hy as [Hy _].
  simpl. by rewrite (Hu y Hy).
Qed.

Lemma find_exited_child_hit (s : Sched) (c : Z) :
  c ∈ TASKS s -> c <> 0 -> state_of s c = Some Dead ->
  find_exited_child s (parent_of s c) c = Some (c, exit_code_of s c).
Proof.
  intros Hin Hc Hd. unfold find_exited_child. rewrite (head_filter_only _ _ c); [done | done | |].
  - unfold exited_child. rewrite !Z.eqb_refl, orb_true_r, bool_decide_eq_true_2 by done. done.
  - intros y. unfold exited_child. rewrite !andb_true_iff, orb_true_iff, !Z.eqb_eq. intuition lia.
Qed.

Lemma wake_all_moves (s : Sched) (key i : Z) :
  Forall (fun kt => is_Some (tasks s !! kt.2)) (WAIT_QUEUES s) -> (key, i) ∈ WAIT_QUEUES s ->
  i ∈ RUN_QUEUE (wake_all s key) /\ state_of (wake_all s key) i = Some Ready.
Proof.
  intros Hall Hin. destruct (wake_all_spec s key Hall) as (woken & Hw & Hrq & _ & _ & _ & _ & _ & Hst).
  assert (i ∈ woken) as Hi.
  { rewrite Hw. apply list_elem_of_fmap. exists (key, i). split; [done |]. apply list_elem_of_filter. split; [apply Z.eqb_refl | done]. }
  rewrite Hrq, Hst, decide_True by done. split; [apply elem_of_app; by right | done].
Qed.

Lemma wake_all_static (s : Sched) (key : Z) :
  Forall (fun kt => is_Some (tasks s !! kt.2)) (WAIT_QUEUES s) -> same_static s (wake_all s key).
Proof. intros Hall. destruct (wake_all_spec s key Hall) as (? & _ & _ & _ & _ & H1 & H2 & H3 & _). done. Qed.

Lemma wake_all_keeps (s : Sched) (key i : Z) :
  Forall (fun kt => is_Some (tasks s !! kt.2)) (WAIT_QUEUES s) -> i ∉ (waiting_on key s).*2 ->
  state_of (wake_all s key) i = state_of s i /\
  forall k, (k, i) ∈ WAIT_QUEUES s -> k <> key -> (k, i) ∈ WAIT_QUEUES (wake_all s key).
Proof.
  intros Hall Hin. destruct (wake_all_spec s key Hall) as (woken & Hw & _ & Hwq & _ & _ & _ & _ & Hst).
  split; [by rewrite Hst, decide_False by (by rewrite Hw) |]. intros k Hk Hne. rewrite Hwq.
  apply list_elem_of_filter. split; [by apply Z.eqb_neq | done].
Qed.

(** ** Claims *)


(** The state after boot: the idle task runs, Spring waits for its turn. *)
Definition booted : Sched :=
  match boot_sched 0x10000 0xffc8 0x5000 0x20000 0x1ffa0 with Ret s => s | _ => sched_statics end.

(** Spring runs, blocks on a key, is woken and runs again. *)
Definition booted_blocked : Sched := (block_on (on_tick booted).2 0x77).2.

Lemma booted_ok : boot_sched 0x10000 0xffc8 0x5000 0x20000 0x1ffa0 = Ret booted.
Proof. unfold booted. by destruct (boot_sched _ _ _ _ _) eqn:E. Qed.

Lemma booted_runs (target : Sched -> Z -> Prop) : rtc (sched_step target) booted booted_blocked.
Proof.
  apply (rtc_l _ _ (on_tick booted).2); [apply step_tick |]. apply rtc_once, (step_block _ _ 2); [by vm_compute | done].
Qed.

(** Spring has a child that blocks, and kills it; and then kills the idle task. *)
Definition child_blocked : Sched :=
  (block_on (on_tick (on_tick (spawn_task (on_tick booted).2 2 (Some 0x6000) 0x30000 0x2ffa0).2).2).2 0x77).2.
Definition child_killed : Sched := (kill child_blocked 3 (-9)).2.
Definition idle_gone : Sched := (kill child_killed IDLE 0).2.

Lemma child_blocked_runs (target : Sched -> Z -> Prop) : rtc (sched_step target) booted child_blocked.
Proof.
  eapply rtc_l; [apply step_tick |].
  eapply rtc_l; [apply (step_spawn _ _ 2 (Some 0x6000) 0x30000 0x2ffa0); by vm_compute |].
  eapply rtc_l; [apply step_tick |]. eapply rtc_l; [apply step_tick |].
  apply rtc_once, (step_block _ _ 3 0x77); [by vm_compute | done].
Qed.

Lemma child_killed_runs (target : Sched -> Z -> Prop) :
  target child_blocked 3 -> rtc (sched_step target) booted child_killed.
Proof.
  intros Ht. eapply rtc_r; [apply child_blocked_runs |].
  apply (step_kill _ _ 2); [by vm_compute | done | done | by left | done].
Qed.

Lemma idle_gone_runs : rtc (sched_step any_target) booted idle_gone.
Proof.
  eapply rtc_r; [by apply child_killed_runs |]. apply (step_kill _ _ 2); [by vm_compute | done | done | by left | done].
Qed.


(** C21 Round robin: from a well-formed state with a running task, the task at
    position [k] of the run queue is running after exactly [k + 1] calls of
    [schedule], whatever the tasks are. *)
Theorem round_robin (s : Sched) (k : nat) (i : Z) :
  sched_wf s -> is_Some (CURRENT s) -> RUN_QUEUE s !! k = Some i ->
  CURRENT (Nat.iter (S k) (fun s => (schedule s).2) s) = Some i.
Proof. apply schedule_reaches. Qed.

Lemma booted_wf : sched_wf booted /\ CURRENT booted = Some IDLE /\ RUN_QUEUE booted = [2].
Proof. eapply boot_sched_wf, booted_ok. Qed.

Lemma round_robin_witness :
  CURRENT booted = Some IDLE /\ CURRENT (Nat.iter 1 (fun s => (schedule s).2) booted) = Some 2.
Proof.
  destruct booted_wf as (Hwf & Hc & Hq). split; [exact Hc |].
  apply (round_robin booted 0 2 Hwf); [rewrite Hc; apply is_Some_alt; exact I | rewrite Hq; reflexivity].
Defined.

(** C33 When a task exits while its parent waits for it in [waitpid], the parent
    is runnable again, and [find_exited_child] then reports the child's pid and
    the very code the child exited with; the machine goes on with another task. *)
Theorem exit_notifies_parent (s : Sched) (c code : Z) :
  sched_wf s -> CURRENT s = Some c -> c <> IDLE ->
  (wait_key (parent_of s c), parent_of s c) ∈ WAIT_QUEUES s ->
  let s' := (current_exit s code).2 in
  find_exited_child s' (parent_of s c) c = Some (c, code) /\
  (parent_of s c ∈ RUN_QUEUE s' \/ CURRENT s' = Some (parent_of s c)) /\
  exists next, (current_exit s code).1 = SwitchTo None next.
Proof.
  intros Hwf Hc Hne Hp. cbv zeta. set (p := parent_of s c) in *.
  destruct (current_exit_spec s c code Hwf Hc Hne) as (next & s' & -> & Hwf' & Hhd & Hsch). cbn [fst snd].
  pose proof (buried_wf s c code Hwf Hc Hne) as Hb. fold p in Hhd, Hsch.
  assert (is_Some (tasks s !! c)) as Ht by (destruct (wf_cur s Hwf c Hc); by eapply state_is_task).
  destruct (buried_spec s c code Ht) as (Hst & Hdom & Hpar & Hcode).
  destruct (wake_all_static _ (wait_key p) (wf_waiters _ Hb)) as (HT & _ & Hsame).
  destruct (wake_all_moves _ (wait_key p) p (wf_waiters _ Hb) Hp) as [Hprq _].
  pose proof (wake_all_wf _ (wait_key p) Hb) as Hwf1. set (s1 := wake_all _ _) in *.
  destruct (RUN_QUEUE s1) as [| n q] eqn:Hq; [done |]. injection Hhd as ->.
  destruct (schedule_spec s1 next q Hq) as (s'' & Hs & Hrq & Hcur & _ & (HT' & _ & Hsame') & Hst').
  { eapply state_is_task, (wf_rq s1 Hwf1). rewrite Hq. by left. }
  { intros E. apply (wf_cur_not_queued s1 next Hwf1 E). rewrite Hq. by left. }
  rewrite Hsch in Hs. injection Hs as Hc1 <-. pose proof (same_tasks_trans _ _ _ Hsame Hsame') as Hall.
  assert (p = parent_of s' c) as Hp' by (rewrite (same_tasks_parent _ _ c Hall); symmetry; apply Hpar).
  assert (state_of s' c = Some Dead) as Hd.
  { destruct (wake_all_keeps (with_current (buried s c code) None) (wait_key p) c (wf_waiters _ Hb)) as [Hd _].
    { intros (kt & E & Hin)%list_elem_of_fmap. apply list_elem_of_filter in Hin as [_ Hin].
      assert (state_of (buried s c code) c = Some Blocked) as Hbl.
      { apply (wf_waits _ _ Hb). rewrite E. by apply list_elem_of_fmap_2. }
      rewrite Hst, decide_True in Hbl by done. done. }
    fold s1 in Hd. change (state_of (with_current ?a ?b) c) with (state_of a c) in Hd.
    rewrite Hst, decide_True in Hd by done. rewrite Hst'.
    assert (c <> next) as Hcn by (intros ->; rewrite (wf_rq s1 Hwf1 next) in Hd by (rewrite Hq; by left); done).
    rewrite decide_False by done. unfold requeues. by rewrite <- Hc1. }
  split_and!; [| | by eexists].
  - rewrite Hp' at 1. rewrite find_exited_child_hit.
    + f_equal. f_equal. rewrite (same_tasks_code _ _ c Hall). exact Hcode.
    + rewrite HT', HT. by apply (wf_tasks s Hwf).
    + pose proof (wf_ids s Hwf c Ht). lia.
    + done.
  - apply elem_of_cons in Hprq as [-> | ?]; [by right | left]. rewrite Hrq. apply elem_of_app. by left.
Qed.

(** Spring spawned a child, waits for it, and the child runs. *)
Definition spring_waits : Sched := (block_on (spawn_task (on_tick booted).2 2 (Some 0x6000) 0x30000 0x2ffa0).2 (wait_key 2)).2.
Definition child_runs : Sched := (on_tick spring_waits).2.

Lemma spring_waits_wf : sched_wf spring_waits.
Proof.
  eapply (reachable_wf booted); [| apply booted_wf].
  apply (rtc_l _ _ (on_tick booted).2); [apply step_tick |].
  eapply rtc_l; [apply (step_spawn _ _ 2 (Some 0x6000) 0x30000 0x2ffa0); by vm_compute |].
  apply rtc_once, (step_block _ _ 2); [by vm_compute | done].
Qed.

Lemma child_runs_wf : sched_wf child_runs.
Proof. eapply reachable_wf; [apply rtc_once, step_tick | apply spring_waits_wf]. Qed.

Lemma exit_notifies_parent_witness :
  find_exited_child (current_exit child_runs 7).2 (parent_of child_runs 3) 3 = Some (3, 7).
Proof.
  apply (exit_notifies_parent child_runs 3 7 child_runs_wf); [by vm_compute | discriminate |].
  apply list_elem_of_lookup_2 with (i := 0%nat). by vm_compute.
Defined.

Lemma NoDup_snd_fst {A B} (l : list (A * B)) (a a' : A) (b : B) :
  NoDup l.*2 -> (a, b) ∈ l -> (a', b) ∈ l -> a = a'.
Proof.
  intros Hnd [i Hi]%list_elem_of_lookup [j Hj]%list_elem_of_lookup.
  assert (i = j) as ->; [| congruence]. eapply NoDup_lookup; [exact Hnd | |]; by rewrite list_lookup_fmap, ?Hi, ?Hj.
Qed.

(** [kill] does not take a blocked target out of the wait queues: a task that
    is killed while it waits on a key is reported dead, but the next [wake_all]
    of that key makes it Ready and puts it back on the run queue. *)
Theorem kill_blocked_resurrects (s : Sched) (key pid code : Z) :
  sched_wf s -> (key, pid) ∈ WAIT_QUEUES s -> key <> wait_key (parent_of s pid) ->
  let '(found, s1) := kill s pid code in
  let s2 := wake_all s1 key in
  found = true /\ state_of s1 pid = Some Dead /\ state_of s2 pid = Some Ready /\ pid ∈ RUN_QUEUE s2.
Proof.
  intros Hwf Hin Hne. assert (is_Some (tasks s !! pid)) as Ht.
  { eapply state_is_task, (wf_waits s pid Hwf). by apply (list_elem_of_fmap_2 snd _ (key, pid)). }
  rewrite kill_split by (done || by apply (wf_tasks s Hwf)). cbv zeta iota.
  destruct (buried_spec s pid code Ht) as (Hst & Hdom & _).
  assert (Forall (fun kt => is_Some (tasks (killed s pid code) !! kt.2)) (WAIT_QUEUES (killed s pid code))) as Hall.
  { eapply Forall_impl; [apply (wf_waiters s Hwf) |]. intros kt Hkt. by apply Hdom. }
  destruct (wake_all_keeps (killed s pid code) (wait_key (parent_of s pid)) pid Hall) as [Hs Hk].
  { intros ([k i] & Ei & Hw)%list_elem_of_fmap. simpl in Ei. subst i. apply list_elem_of_filter in Hw as [E Hw].
    apply Hne. apply Z.eqb_eq in E. simpl in E. rewrite <- E. eapply NoDup_snd_fst; [| exact Hin | exact Hw].
    pose proof (wf_once s Hwf) as Hnd. by apply NoDup_app in Hnd as (_ & _ & (_ & _ & ?)%NoDup_app). }
  specialize (Hk key Hin Hne). destruct (wake_all_static _ (wait_key (parent_of s pid)) Hall) as (_ & _ & Hsame).
  split; [done |]. split; [by rewrite Hs; unfold killed; change (state_of (with_rq ?a ?b) pid) with (state_of a pid);
    rewrite Hst, decide_True |].
  apply and_comm, wake_all_moves; [| done]. apply Forall_forall. intros kt Hkt. apply (same_tasks_dom _ _ _ Hsame).
  destruct (wake_all_spec _ (wait_key (parent_of s pid)) Hall) as (? & _ & _ & Hwq & _). rewrite Hwq in Hkt.
  apply list_elem_of_filter in Hkt as [_ Hkt]. rewrite Forall_forall in Hall. by apply Hall.
Qed.

Lemma kill_blocked_resurrects_witness :
  state_of (wake_all (kill booted_blocked 2 (-9)).2 0x77) 2 = Some Ready.
Proof.
  assert (sched_wf booted_blocked) as Hwf by (eapply reachable_wf; [apply booted_runs | apply booted_wf]).
  pose proof (kill_blocked_resurrects booted_blocked 0x77 2 (-9) Hwf) as H.
  destruct (kill booted_blocked 2 (-9)) as [found s1]. apply H; [| by vm_compute].
  apply list_elem_of_lookup_2 with (i := 0%nat). by vm_compute.
Defined.

(** [sys_kill] does not spare the idle task.  Once Spring has killed it and is
    the last task that can run, [block_on] finds nothing to switch to: it returns
    at once, with the caller marked blocked and still [CURRENT]. *)
Theorem kill_idle_strands (s : Sched) (c key code : Z) :
  sched_wf s -> CURRENT s = Some c -> RUN_QUEUE s = [IDLE] -> WAIT_QUEUES s = [] ->
  let '(sw, s') := block_on (kill s IDLE code).2 key in
  sw = Stay /\ CURRENT s' = Some c /\ state_of s' c = Some Blocked /\ (key, c) ∈ WAIT_QUEUES s'.
Proof.
  intros Hwf Hc Hq Hw. pose proof (wf_cur_not_queued s c Hwf Hc) as Hne. rewrite Hq, list_elem_of_singleton in Hne.
  assert (IDLE ∈ RUN_QUEUE s) as Hi by (rewrite Hq; by left).
  assert (is_Some (tasks s !! IDLE)) as Ht by (eapply state_is_task, (wf_rq s Hwf), Hi).
  assert (is_Some (tasks s !! c)) as [t Htc] by (destruct (wf_cur s Hwf c Hc); by eapply state_is_task).
  rewrite kill_split by (done || by apply (wf_tasks s Hwf)). cbn [snd].
  set (k := wake_all _ _). assert (k = with_wq (killed s IDLE code) []) as ->.
  { unfold k, wake_all. change (WAIT_QUEUES (killed s IDLE code)) with (WAIT_QUEUES s). by rewrite Hw. }
  unfold block_on. change (CURRENT (with_wq (killed s IDLE code) [])) with (CURRENT s). rewrite Hc.
  assert (RUN_QUEUE (killed s IDLE code) = []) as Hrq.
  { apply Permutation_nil_r. rewrite killed_rq, Hq. by rewrite filter_cons_False by naive_solver. }
  unfold schedule, set_state. cbn [RUN_QUEUE with_resched with_wq with_tasks WAIT_QUEUES]. rewrite Hrq. split_and!; [done | done | | by left].
  unfold state_of. cbn. rewrite lookup_alter_eq, !lookup_alter_ne by done. by rewrite Htc.
Qed.

Lemma kill_idle_strands_witness :
  CURRENT (block_on (kill (on_tick booted).2 IDLE 0).2 0x77).2 = Some 2.
Proof.
  pose proof (kill_idle_strands (on_tick booted).2 2 0x77 0) as H.
  destruct (block_on (kill (on_tick booted).2 IDLE 0).2 0x77) as [sw s']. apply H; [| by vm_compute ..].
  eapply reachable_wf; [apply rtc_once, step_tick | apply booted_wf].
Defined.
