(* ===== verification/Utf8.v ===== *)
(** * UTF-8

    [core::str::from_utf8]: the kernel rejects a path or a service name that is
    not well-formed UTF-8. *)

From S2P Require Import Prelude.

Definition within (lo hi b : Z) : bool := (lo <=? b) && (b <=? hi).
Definition continuation (b : Z) : bool := within 0x80 0xBF b.

(** The well-formed byte sequences of the Unicode standard (table 3-7). *)
Fixpoint utf8_valid (l : list Z) : bool :=
  match l with
  | [] => true
  | a :: l =>
      if within 0 0x7F a then utf8_valid l
      else match l with
      | [] => false
      | b :: l =>
          if within 0xC2 0xDF a then continuation b && utf8_valid l
          else match l with
          | [] => false
          | c :: l =>
              let three := continuation c && utf8_valid l in
              if a =? 0xE0 then within 0xA0 0xBF b && three
              else if a =? 0xED then within 0x80 0x9F b && three
              else if within 0xE1 0xEF a then continuation b && three
              else match l with
              | [] => false
              | d :: l =>
                  let four := continuation c && continuation d && utf8_valid l in
                  if a =? 0xF0 then within 0x90 0xBF b && four
                  else if a =? 0xF4 then within 0x80 0x8F b && four
                  else within 0xF1 0xF3 a && continuation b && four
              end
          end
      end
  end.

(** Text in ASCII is UTF-8. *)
Lemma utf8_ascii (l : list Z) : Forall (fun b => 0 <= b < 128) l -> utf8_valid l = true.
Proof.
  induction 1 as [| b l Hb _ IH]; [done |]. cbn [utf8_valid]. unfold within at 1.
  rewrite (proj2 (Z.leb_le 0 b)), (proj2 (Z.leb_le b 0x7F)) by lia. exact IH.
Qed.
