(* ===== verification/Kernel.v ===== *)
(** * The kernel state

    The state the IPC system calls work on: the memory manager, the scheduler,
    one capability table per task, the ports with their queues, and the name
    registry ([kernel/src/ipc]).  Also how the kernel reaches the memory of the
    running program. *)

From S2P Require Import Prelude Bytes Frames X86 Vmm Sched.

(** ** Capabilities (ipc/cap.rs) *)

Definition SEND : Z := Z.shiftl 1 0.
Definition RECV : Z := Z.shiftl 1 1.
Definition DUP : Z := Z.shiftl 1 2.
Definition RIGHTS_ALL : Z := Z.lor (Z.lor SEND RECV) DUP.

(** A port is named by the address of its [Arc]. *)
Inductive CapObject : Type :=
  | CapPort (p : Z)
  | CapVm
  | CapRegistrar.
Record Cap : Type := mkCap { c_object : CapObject; c_rights : Z }.

#[global] Instance CapObject_eq_dec : EqDecision CapObject.
Proof. solve_decision. Defined.
#[global] Instance Cap_eq_dec : EqDecision Cap.
Proof. solve_decision. Defined.

Definition cap_port (p rights : Z) : Cap := mkCap (CapPort p) rights.
Definition registrar : Cap := mkCap CapRegistrar 0.
Definition as_port (c : Cap) : option Z := match c_object c with CapPort p => Some p | _ => None end.
Definition is_registrar (c : Cap) : bool := match c_object c with CapRegistrar => true | _ => false end.

(** ** Capability tables (ipc/cap_table.rs) *)

Record CapTable : Type := mkCapTable { slots : gmap Z Cap; next : Z }.
Definition cap_table_new : CapTable := mkCapTable ∅ 1.
(** [self.next += 1] on an [i32]. *)
Definition install (t : CapTable) (c : Cap) : outcome (Z * CapTable) :=
  let id := next t in
  let! n := ichecked 32 (id + 1) in
  Ret (id, mkCapTable (<[id := c]> (slots t)) n).
Definition cap_get (t : CapTable) (id : Z) : option Cap := slots t !! id.
Definition cap_remove (t : CapTable) (id : Z) : option Cap * CapTable :=
  (slots t !! id, mkCapTable (delete id (slots t)) (next t)).

(** ** Messages and ports (ipc/port.rs) *)

Definition REG_SLOTS : Z := 6.
Definition MAX_IN_FLIGHT : Z := 16.
Definition MAX_CAPS : Z := 8.

Record Message : Type := mkMessage {
  m_regs : list Z;
  m_caps : list Cap;
  m_pages : list Z;
  m_len : Z
}.

(** ** The kernel *)

Record Kernel (A : Type) : Type := mkKernel {
  k_vmm : Vmm A;
  k_sched : Sched;
  k_caps : gmap Z CapTable;
  k_ports : gmap Z (list Message);
  (** The address the next [Arc<Port>] gets: addresses are not reused. *)
  k_next_port : Z;
  REGISTRY : gmap (list Z) Z;
  (** Tasks parked inside [sys_recv], with the port and the buffer in their
      kernel stack frames. *)
  k_receivers : gmap Z (Z * Z)
}.
Arguments mkKernel {A} _ _ _ _ _ _ _.
Arguments k_vmm {A} _.
Arguments k_sched {A} _.
Arguments k_caps {A} _.
Arguments k_ports {A} _.
Arguments k_next_port {A} _.
Arguments REGISTRY {A} _.
Arguments k_receivers {A} _.

Section Updates.
  Context {A : Type}.
  Implicit Types k : Kernel A.
Definition with_vmm k (v : Vmm A) : Kernel A :=
  mkKernel v (k_sched k) (k_caps k) (k_ports k) (k_next_port k) (REGISTRY k) (k_receivers k).
Definition with_sched k (s : Sched) : Kernel A :=
  mkKernel (k_vmm k) s (k_caps k) (k_ports k) (k_next_port k) (REGISTRY k) (k_receivers k).
Definition with_table k (task : Z) (t : CapTable) : Kernel A :=
  mkKernel (k_vmm k) (k_sched k) (<[task := t]> (k_caps k)) (k_ports k) (k_next_port k) (REGISTRY k) (k_receivers k).
Definition with_ports k (p : gmap Z (list Message)) : Kernel A :=
  mkKernel (k_vmm k) (k_sched k) (k_caps k) p (k_next_port k) (REGISTRY k) (k_receivers k).
Definition with_registry k (r : gmap (list Z) Z) : Kernel A :=
  mkKernel (k_vmm k) (k_sched k) (k_caps k) (k_ports k) (k_next_port k) r (k_receivers k).
Definition with_receivers k (r : gmap Z (Z * Z)) : Kernel A :=
  mkKernel (k_vmm k) (k_sched k) (k_caps k) (k_ports k) (k_next_port k) (REGISTRY k) r.
End Updates.

(** ** Memory of the running program *)

(** An access of the kernel at an address of the kernel half, which the
    bootloader mapped (the direct map with its large pages among others). *)
Class KernelMemory (A : Type) : Type := {
  km_load : Vmm A -> Z -> outcome Z;
  km_store : Vmm A -> Z -> Z -> outcome (Vmm A)
}.

Section Access.
  Context {A : Type} `{FrameAllocator A} `{PageTableEntry} `{KernelMemory A}.

Definition KM (X : Type) : Type := ST (Kernel A) X.
Definition on_vmm {X} (c : VM X) : KM X := fun k => let! (x, v) := c (k_vmm k) in Ret (x, with_vmm k v).

(** The address space the CPU is in. *)
Definition active (k : Kernel A) : Z := match cpu_pml4 (k_sched k) with Some p => p | None => CR3 (k_vmm k) end.

(** One byte through the page tables.  The tables of a user half are all built
    by [map_4k], so every page there is a 4 KiB one; a page fault in the kernel
    halts the machine ([arch/x86_64/idt.rs]). *)
Definition cpu_load (va : Z) : KM Z := fun k =>
  if (0 <=? va) && (va <? 2 ^ 47) then
    match phys_for_virt (vm_mem (k_vmm k)) (active k) va with
    | Some p => Ret (vm_mem (k_vmm k) p, k)
    | None => Panic
    end
  else let! b := km_load (k_vmm k) va in Ret (b, k).
Definition cpu_store (va b : Z) : KM unit := fun k =>
  if (0 <=? va) && (va <? 2 ^ 47) then
    match phys_for_virt (vm_mem (k_vmm k)) (active k) va with
    | Some p => let! (_, v) := set_mem (fun m => store m p [b]) (k_vmm k) in Ret (tt, with_vmm k v)
    | None => Panic
    end
  else let! v := km_store (k_vmm k) va b in Ret (tt, with_vmm k v).

(** Pointers wrap at 64 bits. *)
Fixpoint load_bytes (va : Z) (n : nat) : KM (list Z) :=
  match n with
  | O => st_ret []
  | S n =>
      let* b := cpu_load va in
      let* l := load_bytes (wrap 64 (va + 1)) n in
      st_ret (b :: l)
  end.
Fixpoint store_bytes (va : Z) (l : list Z) : KM unit :=
  match l with
  | [] => st_ret tt
  | b :: l => let* _ := cpu_store va b in store_bytes (wrap 64 (va + 1)) l
  end.
Definition load_u64 (va : Z) : KM Z := let* l := load_bytes va 8 in st_ret (le_val l).
Fixpoint load_u64s (va : Z) (n : nat) : KM (list Z) :=
  match n with
  | O => st_ret []
  | S n =>
      let* x := load_u64 va in
      let* l := load_u64s (wrap 64 (va + 8)) n in
      st_ret (x :: l)
  end.
(** An element of a [&[i32]] made from a user pointer. *)
Definition load_i32 (va : Z) : KM Z := let* l := load_bytes va 4 in st_ret (signed 32 (le_val l)).
Definition store_u64s (va : Z) (l : list Z) : KM unit := store_bytes va (l ≫= le_bytes 8).
Definition store_i32 (va v : Z) : KM unit := store_bytes va (le_bytes 4 (wrap 32 v)).
(** [from_raw_parts] checks alignment under the debug assertions of the [dev]
    profile. *)
Definition aligned (n va : Z) : KM unit := if va mod n =? 0 then st_ret tt else st_lift Panic.

End Access.
