(* ===== verification/Ipc.v ===== *)
(** * IPC system calls

    The handlers of [kernel/src/ipc/syscalls.rs] over the kernel state, with the
    queue operations of [port.rs], the registry of [registry.rs] and the
    dropping of messages and ports that [Arc] does at the end of a call. *)

From S2P Require Import Prelude Bytes Utf8 Frames X86 Vmm Sched Kernel.

(** ** Error numbers (ipc/mod.rs) *)

Definition EPERM : Z := -1.
Definition ENOENT : Z := -2.
Definition E2BIG : Z := -7.
Definition EBADF : Z := -9.
Definition EAGAIN : Z := -11.
Definition ENOMEM : Z := -12.
Definition EFAULT : Z := -14.
Definition EEXIST : Z := -17.
Definition EINVAL : Z := -22.

Definition IPC_NAME_PUBLISH : Z := 0.
Definition IPC_NAME_LOOKUP : Z := 1.
Definition NAME_MAX : Z := 64.

(** Buffer layouts shared with user space. *)
Record SendMsg : Type := mkSendMsg { sm_regs : list Z; sm_caps_ptr : Z; sm_ncaps : Z; sm_pages_va : Z; sm_pages_len : Z }.
Record RecvMsg : Type := mkRecvMsg {
  rm_regs : list Z; rm_caps_out : Z; rm_caps_max : Z; rm_ncaps : Z; rm_pages_va : Z; rm_pages_len : Z }.
Definition recv_words (r : RecvMsg) : list Z :=
  rm_regs r ++ [rm_caps_out r; rm_caps_max r; rm_ncaps r; rm_pages_va r; rm_pages_len r].

(** What a handler came to: a return value, or the task went to sleep in it. *)
Inductive sysret : Type :=
  | Done (v : Z)
  | Parked.

Section Ipc.
  Context {A : Type} `{FrameAllocator A} `{PageTableEntry} `{KernelMemory A}.
  Implicit Types k : Kernel A.

(** An early [return]: the [Err] of the handler's result. *)
Definition early {X} (code : Z) : KM (A := A) (result X Z) := st_ret (Err code).
Definition code_of (r : result Z Z) : Z := match r with Ok v => v | Err v => v end.

(** ** The current task and its table *)

Definition current : KM (result Z Z) := fun k =>
  Ret (match CURRENT (k_sched k) with Some t => Ok t | None => Err EPERM end, k).
Definition table k (task : Z) : CapTable := default cap_table_new (k_caps k !! task).
Definition caps_get (task id : Z) : KM (option Cap) := fun k => Ret (cap_get (table k task) id, k).
Definition caps_install (task : Z) (c : Cap) : KM Z := fun k =>
  let! (id, t) := install (table k task) c in Ret (id, with_table k task t).
Definition caps_remove (task id : Z) : KM (option Cap) := fun k =>
  let '(c, t) := cap_remove (table k task) id in Ret (c, with_table k task t).
Fixpoint caps_install_all (task : Z) (l : list Cap) : KM unit :=
  match l with
  | [] => st_ret tt
  | c :: l => let* _ := caps_install task c in caps_install_all task l
  end.

(** ** Ports *)

Definition port_new : KM Z := fun k =>
  let p := k_next_port k in
  Ret (p, mkKernel (k_vmm k) (k_sched k) (k_caps k) (<[p := []]> (k_ports k)) (p + 1) (REGISTRY k) (k_receivers k)).
Definition port_wait_key (p : Z) : Z := p.
Definition queue k (p : Z) : list Message := default [] (k_ports k !! p).
Definition try_push (p : Z) (msg : Message) : KM (result unit Message) := fun k =>
  let q := queue k p in
  if MAX_IN_FLIGHT <=? zlen q then Ret (Err msg, k)
  else Ret (Ok tt, with_ports k (<[p := q ++ [msg]]> (k_ports k))).
Definition port_pop (p : Z) : KM (option Message) := fun k =>
  match queue k p with
  | [] => Ret (None, k)
  | m :: q => Ret (Some m, with_ports k (<[p := q]> (k_ports k)))
  end.

(** [Drop for Message]: [pmm::free_frame] for each page still in it. *)
Fixpoint free_pages (pages : list Z) : KM unit :=
  match pages with
  | [] => st_ret tt
  | f :: pages => fun k =>
      let! fa := fa_free (vm_frames (k_vmm k)) f in
      let v := k_vmm k in
      free_pages pages (with_vmm k (mkVmm (vm_mem v) fa (KERNEL_AS v) (MMIO_NEXT v) (CR3 v)))
  end.
Definition drop_message (m : Message) : KM unit := free_pages (m_pages m).
Fixpoint drop_messages (q : list Message) : KM unit :=
  match q with
  | [] => st_ret tt
  | m :: q => let* _ := drop_message m in drop_messages q
  end.

(** The strong count of an [Arc<Port>]: capabilities in tables and in queued
    messages, registry entries, and the receivers inside [sys_recv]. *)
Definition names_port (p : Z) (c : Cap) : bool := bool_decide (as_port c = Some p).
Definition port_used k (p : Z) : bool :=
  existsb (fun t => existsb (fun ic => names_port p ic.2) (map_to_list (slots t.2))) (map_to_list (k_caps k)) ||
  existsb (fun q => existsb (fun m => existsb (names_port p) (m_caps m)) q.2) (map_to_list (k_ports k)) ||
  existsb (fun nr => nr.2 =? p) (map_to_list (REGISTRY k)) ||
  existsb (fun tr => tr.2.1 =? p) (map_to_list (k_receivers k)).

(** Ports nobody refers to are dropped, with the messages in them, which may
    leave others without a reference.  Every round drops a port, so as many
    rounds as there are ports are enough. *)
Fixpoint reap_loop (fuel : nat) : KM unit :=
  match fuel with
  | O => st_ret tt
  | S fuel => fun k =>
      match List.find (fun pq => negb (port_used k pq.1)) (map_to_list (k_ports k)) with
      | None => Ret (tt, k)
      | Some (p, q) =>
          let! (_, k) := drop_messages q (with_ports k (delete p (k_ports k))) in
          reap_loop fuel k
      end
  end.
Definition reap : KM unit := fun k => reap_loop (size (k_ports k)) k.

(** The end of a handler: its locals are dropped. *)
Definition finish (c : KM (result Z Z)) : KM Z :=
  let* r := c in
  let* _ := reap in
  st_ret (code_of r).

(** ** Handlers *)

Definition sys_port_create : KM Z :=
  finish (
    let? task := current in
    let* port := port_new in
    let* id := caps_install task (cap_port port (Z.lor (Z.lor SEND RECV) DUP)) in
    st_ret (Ok id)).

Definition sys_cap_drop (cap_id : Z) : KM Z :=
  finish (
    let? task := current in
    let* c := caps_remove task cap_id in
    match c with
    | Some _ => st_ret (Ok 0)
    | None => early EBADF
    end).

(** [(cap.rights & requested) - Rights::RECV]. *)
Definition dup_rights (rights mask : Z) : Z :=
  let requested := Z.land mask RIGHTS_ALL in
  Z.land (Z.land rights requested) (Z.lxor RIGHTS_ALL RECV).

Definition sys_cap_dup (cap_id mask : Z) : KM Z :=
  finish (
    let? task := current in
    let* c := caps_get task cap_id in
    match c with
    | None => early EBADF
    | Some cap =>
        if negb (contains (c_rights cap) DUP) then early EPERM
        else match as_port cap with
        | None => early EINVAL
        | Some port =>
            let* id := caps_install task (cap_port port (dup_rights (c_rights cap) mask)) in
            st_ret (Ok id)
        end
    end).

(** [read_unaligned(msg_ptr as *const SendMsg)]: ten words. *)
Definition read_send_msg (msg_ptr : Z) : KM SendMsg :=
  let* regs := load_u64s msg_ptr 6 in
  let* caps_ptr := load_u64 (wrap 64 (msg_ptr + 48)) in
  let* ncaps := load_u64 (wrap 64 (msg_ptr + 56)) in
  let* pages_va := load_u64 (wrap 64 (msg_ptr + 64)) in
  let* pages_len := load_u64 (wrap 64 (msg_ptr + 72)) in
  st_ret (mkSendMsg regs caps_ptr ncaps pages_va pages_len).

(** The first pass over the ids of the caps to move: all must be there. *)
Fixpoint check_caps (task caps_ptr : Z) (n : nat) : KM (result unit Z) :=
  match n with
  | O => st_ret (Ok tt)
  | S n =>
      let* id := load_i32 caps_ptr in
      let* c := caps_get task id in
      match c with
      | None => early EBADF
      | Some _ => check_caps task (wrap 64 (caps_ptr + 4)) n
      end
  end.
(** The second pass: take them out. *)
Fixpoint take_caps (task caps_ptr : Z) (n : nat) : KM (list Cap) :=
  match n with
  | O => st_ret []
  | S n =>
      let* id := load_i32 caps_ptr in
      let* c := caps_remove task id in
      let* l := take_caps task (wrap 64 (caps_ptr + 4)) n in
      st_ret (match c with Some c => c :: l | None => l end)
  end.
Definition collect_caps (task : Z) (msg : SendMsg) : KM (result (list Cap) Z) :=
  if sm_ncaps msg =? 0 then st_ret (Ok [])
  else if sm_caps_ptr msg =? 0 then early EFAULT
  else
    let* _ := aligned 4 (sm_caps_ptr msg) in
    let n := Z.to_nat (sm_ncaps msg) in
    let? _ := check_caps task (sm_caps_ptr msg) n in
    let* l := take_caps task (sm_caps_ptr msg) n in
    st_ret (Ok l).

(** [task.addr_space()]. *)
Definition addr_space (task : Z) : KM (option Z) := fun k =>
  Ret (match tasks (k_sched k) !! task with Some t => t_addr_space t | None => None end, k).

Definition collect_pages (task : Z) (msg : SendMsg) (xferred_caps : list Cap) : KM (result (list Z * Z) Z) :=
  if sm_pages_len msg =? 0 then st_ret (Ok ([], 0))
  else if (sm_pages_va msg =? 0) || negb (Z.land (sm_pages_va msg) (PAGE_SIZE - 1) =? 0)
          || negb (Z.land (sm_pages_len msg) (PAGE_SIZE - 1) =? 0) then
    let* _ := caps_install_all task xferred_caps in
    early EINVAL
  else
    let pages := sm_pages_len msg / PAGE_SIZE in
    let* sp := addr_space task in
    match sp with
    | None => early EPERM
    | Some sp =>
        let* stolen := on_vmm (steal_pages sp (sm_pages_va msg) pages) in
        match stolen with
        | Ok v => st_ret (Ok (v, sm_pages_len msg))
        | Err _ =>
            let* _ := caps_install_all task xferred_caps in
            early EFAULT
        end
    end.

Definition wake_port (p : Z) : KM unit := st_modify (fun k => with_sched k (wake_all (k_sched k) (port_wait_key p))).

Definition send_to (task port : Z) (msg_in : SendMsg) : KM (result Z Z) :=
  let? xferred_caps := collect_caps task msg_in in
  let? (pages, payload_len) := collect_pages task msg_in xferred_caps in
  let message := mkMessage (sm_regs msg_in) xferred_caps pages payload_len in
  let* r := try_push port message in
  match r with
  | Ok _ => let* _ := wake_port port in st_ret (Ok 0)
  | Err msg => let* _ := drop_message msg in early EAGAIN
  end.

Definition sys_send (cap_id msg_ptr : Z) : KM Z :=
  finish (
    if msg_ptr =? 0 then early EFAULT
    else
      let* msg_in := read_send_msg msg_ptr in
      if MAX_CAPS <? sm_ncaps msg_in then early E2BIG
      else
        let? task := current in
        let* c := caps_get task cap_id in
        match c with
        | None => early EBADF
        | Some send_cap =>
            if negb (contains (c_rights send_cap) SEND) then early EPERM
            else match as_port send_cap with
            | None => early EINVAL
            | Some port => send_to task port msg_in
            end
        end).

(** ** Receiving *)

Definition read_recv_msg (msg_ptr : Z) : KM RecvMsg :=
  let* regs := load_u64s msg_ptr 6 in
  let* caps_out := load_u64 (wrap 64 (msg_ptr + 48)) in
  let* caps_max := load_u64 (wrap 64 (msg_ptr + 56)) in
  let* ncaps := load_u64 (wrap 64 (msg_ptr + 64)) in
  let* pages_va := load_u64 (wrap 64 (msg_ptr + 72)) in
  let* pages_len := load_u64 (wrap 64 (msg_ptr + 80)) in
  st_ret (mkRecvMsg regs caps_out caps_max ncaps pages_va pages_len).

(** [for (i, cap) in .. { out_slice[i] = tbl.install(cap); }] *)
Fixpoint deliver_caps (task out : Z) (l : list Cap) : KM unit :=
  match l with
  | [] => st_ret tt
  | c :: l =>
      let* id := caps_install task c in
      let* _ := store_i32 out id in
      deliver_caps task (wrap 64 (out + 4)) l
  end.

(** The capabilities of a message go to the receiver, their ids to its array. *)
Definition put_caps (task : Z) (m : Message) (out : RecvMsg) : KM unit :=
  if bool_decide (m_caps m = []) then st_ret tt
  else
    let* _ := aligned 4 (rm_caps_out out) in
    deliver_caps task (rm_caps_out out) (m_caps m).

(** The pages of a message go to the receiver: the address they are at, or the
    error, on which the message is dropped with all its pages. *)
Definition deliver_pages (task : Z) (m : Message) : KM (result Z Z) :=
  let pages := div_ceil (m_len m) PAGE_SIZE in
  let* sp := addr_space task in
  match sp with
  | None => let* _ := drop_message m in early EPERM
  | Some sp =>
      let* mem := on_vmm get_mem in
      let* va := st_lift (find_user_vm_range mem sp pages) in
      match va with
      | None => let* _ := drop_message m in early ENOMEM
      | Some va =>
          let* r := on_vmm (install_pages sp va (m_pages m)) in
          match r with
          | Err _ => let* _ := drop_message m in early ENOMEM
          | Ok _ => st_ret (Ok va)
          end
      end
  end.

(** From the message on: what [sys_recv] does after its loop. *)
Definition deliver (task : Z) (m : Message) (msg_ptr : Z) : KM (result Z Z) :=
  let* out := read_recv_msg msg_ptr in
  if negb (bool_decide (m_caps m = [])) && ((rm_caps_out out =? 0) || (rm_caps_max out <? zlen (m_caps m))) then
    let* _ := drop_message m in early E2BIG
  else
    let* _ := put_caps task m out in
    let? (va, len) := (if 0 <? m_len m then
                         let? va := deliver_pages task m in st_ret (Ok (va, m_len m))
                       else
                         let* _ := drop_message m in st_ret (Ok (0, 0))) in
    let* _ := store_u64s msg_ptr (recv_words (mkRecvMsg (m_regs m) (rm_caps_out out) (rm_caps_max out)
                                                 (zlen (m_caps m)) va len)) in
    st_ret (Ok 0).

Definition set_receiver (task : Z) (r : option (Z * Z)) : KM unit :=
  st_modify (fun k => with_receivers k (partial_alter (fun _ => r) task (k_receivers k))).

(** One turn of the [loop] in [sys_recv]: a message, or to sleep. *)
Definition recv_turn (task port msg_ptr : Z) : KM sysret :=
  let* m := port_pop port in
  match m with
  | None =>
      let* _ := set_receiver task (Some (port, msg_ptr)) in
      let* _ := st_modify (fun k => with_sched k (block_on (k_sched k) (port_wait_key port)).2) in
      st_ret Parked
  | Some m =>
      let* _ := set_receiver task None in
      let* v := finish (deliver task m msg_ptr) in
      st_ret (Done v)
  end.

Definition sys_recv (cap_id msg_ptr : Z) : KM sysret :=
  let fail code := let* v := finish (early code) in st_ret (Done v) in
  if msg_ptr =? 0 then fail EFAULT
  else
    let* r := current in
    match r with
    | Err code => fail code
    | Ok task =>
        let* c := caps_get task cap_id in
        match c with
        | None => fail EBADF
        | Some recv_cap =>
            if negb (contains (c_rights recv_cap) RECV) then fail EPERM
            else match as_port recv_cap with
            | None => fail EINVAL
            | Some port => recv_turn task port msg_ptr
            end
        end
    end.

(** A receiver that was woken goes around its loop when it runs again. *)
Definition recv_resume : KM sysret := fun k =>
  match CURRENT (k_sched k) with
  | Some task =>
      match k_receivers k !! task with
      | Some (port, msg_ptr) => recv_turn task port msg_ptr k
      | None => Panic
      end
  | None => Panic
  end.

(** ** Names (registry.rs and sys_name) *)

Definition publish (name : list Z) (port : Z) : KM (result unit Z) := fun k =>
  match REGISTRY k !! name with
  | Some _ => Ret (Err EEXIST, k)
  | None => Ret (Ok tt, with_registry k (<[name := port]> (REGISTRY k)))
  end.
Definition registry_lookup (name : list Z) : KM (option Z) := fun k => Ret (REGISTRY k !! name, k).

(** [for id in 1..i32::MAX]: the scan gives up at the first gap past 32. *)
Fixpoint scan_registrar (fuel : nat) (t : CapTable) (id : Z) : bool :=
  match fuel with
  | O => false
  | S fuel =>
      if 2 ^ 31 - 1 <=? id then false
      else match cap_get t id with
      | Some c => if is_registrar c then true else scan_registrar fuel t (id + 1)
      | None => if 32 <? id then false else scan_registrar fuel t (id + 1)
      end
  end.
(** There is a gap at [next] at the latest. *)
Definition has_registrar (t : CapTable) : bool := scan_registrar (Z.to_nat (Z.max 33 (next t))) t 1.

Definition sys_name (op name_ptr name_len cap_id : Z) : KM Z :=
  finish (
    if (name_ptr =? 0) || (name_len =? 0) || (NAME_MAX <? name_len) then early EINVAL
    else
      let* name := load_bytes name_ptr (Z.to_nat name_len) in
      if negb (utf8_valid name) then early EINVAL
      else
        let? task := current in
        if op =? IPC_NAME_PUBLISH then
          let* c := caps_get task cap_id in
          match c with
          | None => early EBADF
          | Some cap =>
              match as_port cap with
              | None => early EINVAL
              | Some port =>
                  let* k := st_get in
                  if negb (has_registrar (table k task)) then early EPERM
                  else
                    let* r := publish name port in
                    match r with
                    | Ok _ => st_ret (Ok 0)
                    | Err _ => early EEXIST
                    end
              end
          end
        else if op =? IPC_NAME_LOOKUP then
          let* p := registry_lookup name in
          match p with
          | None => early ENOENT
          | Some port =>
              let* id := caps_install task (cap_port port SEND) in
              st_ret (Ok id)
          end
        else early EINVAL).

(** [spawn_user]: a new task starts with the capabilities it is given. *)
Definition new_caps (task : Z) (initial : list Cap) : KM unit :=
  let* _ := st_modify (fun k => with_table k task cap_table_new) in
  caps_install_all task initial.
End Ipc.
