(* ===== verification/IpcCaps.v ===== *)
(** * Capabilities are conserved

    Every capability in the system is accounted for against a budget: a list of
    the capabilities that were ever minted.  Each operation is shown to keep
    tables and queues within it, so that what the budget forbids (two receive
    rights for one port, a forged registrar) cannot come about. *)

From S2P Require Import Prelude Bytes Utf8 Frames X86 Vmm Sched Kernel Ipc.

(** ** Partial correctness of kernel code *)

Section Wp.
  Context {S : Type}.

Definition wp {X} (c : ST S X) (s : S) (Q : X -> S -> Prop) : Prop := forall x s', c s = Ret (x, s') -> Q x s'.

Lemma wp_bind {X Y} (c : ST S X) (f : X -> ST S Y) s Q : wp c s (fun x s1 => wp (f x) s1 Q) -> wp (st_bind c f) s Q.
Proof. intros Hc y s' (x & s1 & H1 & H2)%st_bind_Ret. by apply (Hc x s1). Qed.

Lemma wp_ret {X} (x : X) s (Q : X -> S -> Prop) : Q x s -> wp (st_ret x) s Q.
Proof. by intros HQ y s' [= <- <-]. Qed.

Lemma wp_try {X Y E} (c : ST S (result X E)) (f : X -> ST S (result Y E)) s Q :
  wp c s (fun r s1 => match r with Ok a => wp (f a) s1 Q | Err e => Q (Err e) s1 end) -> wp (st_try c f) s Q.
Proof.
  intros Hc. apply wp_bind. intros r s1 Er. specialize (Hc r s1 Er). destruct r; [done | by apply wp_ret].
Qed.

Lemma wp_mono {X} (c : ST S X) s (Q Q' : X -> S -> Prop) :
  wp c s Q -> (forall x s', Q x s' -> Q' x s') -> wp c s Q'.
Proof. intros Hc HQ x s' E. by apply HQ, Hc. Qed.

Lemma wp_lift {X} (o : outcome X) s (Q : X -> S -> Prop) : (forall x, o = Ret x -> Q x s) -> wp (st_lift o) s Q.
Proof. intros HQ x s' (y & -> & [= <- <-])%obind_Ret. by apply HQ. Qed.

Lemma wp_get s (Q : S -> S -> Prop) : Q s s -> wp st_get s Q.
Proof. by intros HQ x s' [= <- <-]. Qed.

Lemma wp_modify (f : S -> S) s (Q : unit -> S -> Prop) : Q tt (f s) -> wp (st_modify f) s Q.
Proof. by intros HQ x s' [= <- <-]. Qed.
End Wp.

(** ** Counting capabilities *)

Definition table_caps (t : CapTable) : list Cap := (map_to_list (slots t)).*2.
Definition queue_caps (q : list Message) : list Cap := q ≫= m_caps.

(** The values of a map, flattened. *)
Definition gather {V X} (f : V -> list X) (m : gmap Z V) : list X := (map_to_list m).*2 ≫= f.

Lemma gather_insert {V X} (f : V -> list X) (m : gmap Z V) (i : Z) (x : V) :
  gather f (<[i := x]> m) ≡ₚ f x ++ gather f (delete i m).
Proof. unfold gather. by rewrite <- insert_delete_eq, map_to_list_insert by apply lookup_delete_eq. Qed.

Lemma gather_lookup {V X} (f : V -> list X) (m : gmap Z V) (i : Z) (x : V) :
  m !! i = Some x -> gather f m ≡ₚ f x ++ gather f (delete i m).
Proof. intros E. rewrite <- (insert_id m i x E) at 1. apply gather_insert. Qed.

Lemma gather_delete {V X} (f : V -> list X) (m : gmap Z V) (i : Z) : gather f (delete i m) ⊆+ gather f m.
Proof.
  destruct (m !! i) as [x |] eqn:E; [| by rewrite delete_id].
  rewrite (gather_lookup f m i x E). apply submseteq_inserts_l. done.
Qed.

(** Replacing the value at [i], given what the values contribute. *)
Lemma gather_update {V X} (f : V -> list X) (m : gmap Z V) (i : Z) (x d : V) (e e' : list X) :
  f d = [] -> e' ++ f x ⊆+ e ++ f (default d (m !! i)) -> e' ++ gather f (<[i := x]> m) ⊆+ e ++ gather f m.
Proof.
  intros Hd Hs. rewrite gather_insert. destruct (m !! i) as [y |] eqn:E; simpl in Hs.
  - rewrite (gather_lookup f m i y E), !(assoc_L (++)). by apply submseteq_app.
  - rewrite Hd, app_nil_r in Hs. rewrite delete_id by done. rewrite (assoc_L (++)). by apply submseteq_app.
Qed.

Section Caps.
  Context {A : Type} `{FrameAllocator A} `{PageTableEntry} `{KernelMemory A}.
  Implicit Types (k : Kernel A) (B extra : list Cap) (H : list Z).

Definition held k : list Cap := gather table_caps (k_caps k).
Definition queued k : list Cap := gather queue_caps (k_ports k).
Definition all_caps k : list Cap := held k ++ queued k.

Definition port_live k (p : Z) : Prop := is_Some (k_ports k !! p).

(** [extra] are capabilities in local variables of the running handler, and
    [locals] the ports it holds. *)
Record kinv B extra (locals : list Z) k : Prop := {
  ki_caps : extra ++ all_caps k ⊆+ B;
  ki_ports : forall c p, c ∈ extra ++ all_caps k -> as_port c = Some p -> port_live k p;
  ki_locals : Forall (port_live k) locals;
  ki_names : forall n p, REGISTRY k !! n = Some p -> port_live k p;
  ki_receivers : forall t p v, k_receivers k !! t = Some (p, v) -> port_live k p;
  ki_fresh : forall p, port_live k p -> p < k_next_port k;
  ki_queue : forall p q, k_ports k !! p = Some q -> zlen q <= MAX_IN_FLIGHT;
  ki_ids : forall t tbl, k_caps k !! t = Some tbl ->
    1 <= next tbl /\ forall id, is_Some (slots tbl !! id) -> 1 <= id < next tbl;
  ki_bound : forall c p, c ∈ B -> as_port c = Some p -> p < k_next_port k
}.

(** [extra] may shrink, and be reordered. *)
Lemma kinv_drop B extra extra' locals locals' k :
  extra' ⊆+ extra -> locals' ⊆ locals -> kinv B extra locals k -> kinv B extra' locals' k.
Proof.
  intros Hs Hl [? Hp Hloc ? ? ? ? ?]. split; try done.
  - etrans; [by apply submseteq_skips_r | done].
  - intros c p [Hc | Hc]%elem_of_app; apply Hp, elem_of_app; [left | by right]. by eapply elem_of_submseteq.
  - rewrite Forall_forall in Hloc |- *. intros p Hin. by apply Hloc, Hl.
Qed.

(** A state that differs only in memory and scheduler. *)
Definition same_ipc k k' : Prop :=
  k_caps k' = k_caps k /\ k_ports k' = k_ports k /\ k_next_port k' = k_next_port k /\ REGISTRY k' = REGISTRY k /\
  k_receivers k' = k_receivers k.

Lemma kinv_same B extra locals k k' : same_ipc k k' -> kinv B extra locals k -> kinv B extra locals k'.
Proof.
  intros (E1 & E2 & E3 & E4 & E5) Hk. destruct k, k'; simpl in *; subst. destruct Hk. by split.
Qed.

(** ** Changing a table or a queue *)

Definition ids_ok (t : CapTable) : Prop := 1 <= next t /\ forall id, is_Some (slots t !! id) -> 1 <= id < next t.

Lemma kinv_table B extra extra' locals k (task : Z) (t : CapTable) :
  kinv B extra locals k -> extra' ++ table_caps t ⊆+ extra ++ table_caps (table k task) -> ids_ok t ->
  kinv B extra' locals (with_table k task t).
Proof.
  intros Hk Hs Ht.
  assert (extra' ++ all_caps (with_table k task t) ⊆+ extra ++ all_caps k) as Hall.
  { unfold all_caps. rewrite !(assoc_L (++)). apply submseteq_app; [| done].
    unfold held. simpl. by apply (gather_update table_caps _ _ _ cap_table_new). }
  destruct Hk as [Hc Hp Hl Hn Hr Hf Hq Hid]. split; try done.
  - by etrans.
  - intros c p Hin. by apply Hp, (elem_of_submseteq _ _ _ Hin Hall).
  - intros t' tbl. simpl. destruct (decide (t' = task)) as [-> |].
    + rewrite lookup_insert_eq. by intros [= <-].
    + rewrite lookup_insert_ne by done. apply Hid.
Qed.

Lemma kinv_queue B extra extra' locals k (p : Z) (q : list Message) :
  kinv B extra locals k -> port_live k p -> extra' ++ queue_caps q ⊆+ extra ++ queue_caps (queue k p) ->
  zlen q <= MAX_IN_FLIGHT -> kinv B extra' locals (with_ports k (<[p := q]> (k_ports k))).
Proof.
  intros Hk Hlive Hs Hlen. set (k' := with_ports k _).
  assert (extra' ++ all_caps k' ⊆+ extra ++ all_caps k) as Hall.
  { unfold all_caps. change (held k') with (held k).
    rewrite (Permutation_app_comm (held k)), (Permutation_app_comm (held k)), !(assoc_L (++)).
    apply submseteq_app; [| done]. by apply (gather_update queue_caps _ _ _ []). }
  assert (forall p', port_live k' p' <-> port_live k p') as Hl'.
  { intros p'. unfold port_live, k'. simpl. rewrite lookup_insert_is_Some. split; [intros [<- | [_ ?]]; done |].
    intros ?. destruct (decide (p = p')); [by left | by right]. }
  destruct Hk as [Hc Hp Hl Hn Hr Hf Hq Hid]. split; try done.
  - by etrans.
  - intros c p' Hin Has. apply Hl', (Hp c p'); [by apply (elem_of_submseteq _ _ _ Hin Hall) | done].
  - eapply Forall_impl; [exact Hl |]. intros p'. apply Hl'.
  - intros n p' Hn'. by apply Hl', (Hn n).
  - intros t p' v Ht. by apply Hl', (Hr t p' v).
  - intros p' Hp'. by apply Hf, Hl'.
  - intros p' q'. simpl. destruct (decide (p' = p)) as [-> |].
    + rewrite lookup_insert_eq. by intros [= <-].
    + rewrite lookup_insert_ne by done. apply Hq.
Qed.

Lemma table_ids B extra locals k (task : Z) : kinv B extra locals k -> ids_ok (table k task).
Proof.
  intros Hk. unfold table. destruct (k_caps k !! task) as [t |] eqn:E; simpl; [by apply (ki_ids _ _ _ _ Hk task) |].
  split; [simpl; lia |]. intros id [c Hc]. simpl in Hc. by rewrite lookup_empty in Hc.
Qed.

Lemma install_spec (t t' : CapTable) (c : Cap) (id : Z) :
  ids_ok t -> install t c = Ret (id, t') ->
  ids_ok t' /\ table_caps t' ≡ₚ c :: table_caps t /\ slots t' !! id = Some c /\ slots t !! id = None /\
  (forall j, j <> id -> slots t' !! j = slots t !! j).
Proof.
  unfold install, ichecked. intros [Hn Hid] E. destruct (ifits 32 (next t + 1)); [| done]. simpl in E. injection E as <- <-.
  assert (slots t !! next t = None) as Hnone.
  { destruct (slots t !! next t) eqn:E; [| done]. specialize (Hid (next t) ltac:(by rewrite E)). lia. }
  split; [split |].
  - simpl. lia.
  - simpl. intros id Hin. apply lookup_insert_is_Some in Hin as [<- | [_ Hin]]; [lia |]. specialize (Hid id Hin). lia.
  - split; [unfold table_caps; simpl; by rewrite map_to_list_insert |]. simpl. split; [apply lookup_insert_eq |].
    split; [done |]. intros j Hj. by apply lookup_insert_ne.
Qed.

Lemma remove_spec (t : CapTable) (id : Z) :
  ids_ok t -> let '(c, t') := cap_remove t id in
  ids_ok t' /\ option_list c ++ table_caps t' ≡ₚ table_caps t.
Proof.
  intros [Hn Hid]. simpl. split.
  - split; [done |]. simpl. intros j Hj. apply Hid. by apply lookup_delete_is_Some in Hj as [_ ?].
  - unfold table_caps. simpl. destruct (slots t !! id) as [c |] eqn:E; simpl.
    + rewrite <- (map_to_list_delete _ id c E). done.
    + by rewrite delete_id.
Qed.

(** ** Code that only touches memory and scheduler *)

Class Inert {X} (c : KM (A := A) X) : Prop := inert : forall k, wp c k (fun _ k' => same_ipc k k').

Lemma same_ipc_refl k : same_ipc k k.
Proof. done. Qed.
Lemma same_ipc_trans k1 k2 k3 : same_ipc k1 k2 -> same_ipc k2 k3 -> same_ipc k1 k3.
Proof. intros (? & ? & ? & ? & ?) (? & ? & ? & ? & ?). repeat split; congruence. Qed.

#[local] Instance inert_ret {X} (x : X) : Inert (st_ret x).
Proof. intros k. by apply wp_ret. Qed.
#[local] Instance inert_lift {X} (o : outcome X) : Inert (st_lift o).
Proof. intros k. by apply wp_lift. Qed.
#[local] Instance inert_bind {X Y} (c : KM X) (f : X -> KM Y) : Inert c -> (forall x, Inert (f x)) -> Inert (st_bind c f).
Proof.
  intros Hc Hf k. apply wp_bind. intros x k1 E1 y k2 E2. eapply same_ipc_trans; [exact (Hc k x k1 E1) |].
  exact (Hf x k1 y k2 E2).
Qed.
#[local] Instance inert_on_vmm {X} (c : VM X) : Inert (on_vmm c).
Proof. intros k x k' E. unfold on_vmm in E. apply obind_Ret in E as ([y v] & _ & [= <- <-]). done. Qed.
#[local] Instance inert_cpu_load (va : Z) : Inert (cpu_load va).
Proof.
  intros k x k'. unfold cpu_load. case_match; [case_match; [by intros [= <- <-] | done] |].
  by intros (b & _ & [= <- <-])%obind_Ret.
Qed.
#[local] Instance inert_cpu_store (va b : Z) : Inert (cpu_store va b).
Proof.
  intros k x k'. unfold cpu_store. case_match; [case_match; [by intros [= <- <-] | done] |].
  by intros (v & _ & [= <- <-])%obind_Ret.
Qed.
#[local] Instance inert_load_bytes (va : Z) (n : nat) : Inert (load_bytes va n).
Proof. revert va. induction n; intros va; simpl; apply _. Qed.
#[local] Instance inert_store_bytes (va : Z) (l : list Z) : Inert (store_bytes va l).
Proof. revert va. induction l; intros va; simpl; apply _. Qed.
#[local] Instance inert_load_u64 (va : Z) : Inert (load_u64 va).
Proof. unfold load_u64. apply _. Qed.
#[local] Instance inert_load_u64s (va : Z) (n : nat) : Inert (load_u64s va n).
Proof. revert va. induction n; intros va; simpl; apply _. Qed.
#[local] Instance inert_load_i32 (va : Z) : Inert (load_i32 va).
Proof. unfold load_i32. apply _. Qed.
#[local] Instance inert_store_i32 (va v : Z) : Inert (store_i32 va v).
Proof. unfold store_i32. apply _. Qed.
#[local] Instance inert_store_u64s (va : Z) (l : list Z) : Inert (store_u64s va l).
Proof. unfold store_u64s. apply _. Qed.
#[local] Instance inert_aligned (n va : Z) : Inert (aligned n va).
Proof. unfold aligned. case_match; apply _. Qed.
#[local] Instance inert_read_send_msg (va : Z) : Inert (read_send_msg va).
Proof. unfold read_send_msg. apply _. Qed.
#[local] Instance inert_read_recv_msg (va : Z) : Inert (read_recv_msg va).
Proof. unfold read_recv_msg. apply _. Qed.
#[local] Instance inert_free_pages (l : list Z) : Inert (free_pages l).
Proof.
  induction l as [| f l IH]; simpl; [apply _ |]. intros k x k' (fa & _ & E)%obind_Ret.
  eapply same_ipc_trans; [| exact (IH _ x k' E)]. done.
Qed.
#[local] Instance inert_drop_message (m : Message) : Inert (drop_message m).
Proof. unfold drop_message. apply _. Qed.
#[local] Instance inert_drop_messages (q : list Message) : Inert (drop_messages q).
Proof. induction q; simpl; apply _. Qed.
#[local] Instance inert_wake_port (p : Z) : Inert (wake_port p).
Proof. intros k. by apply wp_modify. Qed.
#[local] Instance inert_addr_space (task : Z) : Inert (addr_space task).
Proof. intros k x k' [= <- <-]. done. Qed.
#[local] Instance inert_current : Inert current.
Proof. intros k x k' [= <- <-]. done. Qed.
#[local] Instance inert_caps_get (task id : Z) : Inert (caps_get task id).
Proof. intros k x k' [= <- <-]. done. Qed.
#[local] Instance inert_registry_lookup (n : list Z) : Inert (registry_lookup n).
Proof. intros k x k' [= <- <-]. done. Qed.
#[local] Instance inert_early {X} (code : Z) : Inert (early (X := X) code).
Proof. unfold early. apply _. Qed.

Lemma inert_wp {X} (c : KM X) B e l k : Inert c -> kinv B e l k -> wp c k (fun _ k' => kinv B e l k').
Proof. intros Hc Hk x k' E. eapply kinv_same; [exact (Hc k x k' E) | done]. Qed.

(** ** Operations on tables and queues *)

Lemma caps_install_wp B c e l k (task : Z) :
  kinv B (c :: e) l k -> wp (caps_install task c) k (fun _ k' => kinv B e l k').
Proof.
  intros Hk x k' E. unfold caps_install in E. apply obind_Ret in E as ([id t] & E & [= <- <-]).
  destruct (install_spec _ _ _ _ (table_ids _ _ _ _ task Hk) E) as (Hids & Hp & _).
  apply (kinv_table B (c :: e)); [done | | done]. rewrite Hp. by rewrite <- Permutation_middle.
Qed.

Lemma caps_install_all_wp B (cs e : list Cap) l k (task : Z) :
  kinv B (cs ++ e) l k -> wp (caps_install_all task cs) k (fun _ k' => kinv B e l k').
Proof.
  revert k. induction cs as [| c cs IH]; intros k Hk; simpl; [by apply wp_ret |].
  apply wp_bind. eapply wp_mono; [by apply caps_install_wp, Hk |]. intros x k1. apply IH.
Qed.

Lemma caps_remove_wp B e l k (task id : Z) :
  kinv B e l k -> wp (caps_remove task id) k (fun c k' => kinv B (option_list c ++ e) l k').
Proof.
  intros Hk x k' E. unfold caps_remove in E. pose proof (remove_spec (table k task) id (table_ids _ _ _ _ task Hk)) as Hr.
  destruct (cap_remove _ _) as [c t]. injection E as <- <-. destruct Hr as [Hids Hp].
  apply (kinv_table B e); [done | | done]. rewrite <- Hp. rewrite (Permutation_app_comm _ e), (assoc_L (++)). done.
Qed.

Lemma try_push_wp B (m : Message) e l k (p : Z) :
  p ∈ l -> kinv B (m_caps m ++ e) l k ->
  wp (try_push p m) k (fun r k' => match r with Ok _ => kinv B e l k' | Err m' => m' = m /\ kinv B (m_caps m ++ e) l k' end).
Proof.
  intros Hp Hk r k'. unfold try_push. destruct (Z.leb_spec MAX_IN_FLIGHT (zlen (queue k p))); [by intros [= <- <-] |].
  intros [= <- <-]. apply (kinv_queue B (m_caps m ++ e)); [done | | |].
  - pose proof (ki_locals _ _ _ _ Hk) as Hl. rewrite Forall_forall in Hl. by apply Hl.
  - unfold queue_caps. rewrite bind_app. simpl. rewrite app_nil_r. by solve_submseteq.
  - unfold zlen in *. rewrite length_app. simpl. lia.
Qed.

Lemma port_pop_wp B e l k (p : Z) :
  p ∈ l -> kinv B e l k ->
  wp (port_pop p) k (fun r k' => match r with Some m => kinv B (m_caps m ++ e) l k' | None => k' = k end).
Proof.
  intros Hp Hk r k'. unfold port_pop. destruct (queue k p) as [| m q] eqn:Hq; [by intros [= <- <-] |].
  intros [= <- <-]. apply (kinv_queue B e); [done | | |].
  - pose proof (ki_locals _ _ _ _ Hk) as Hl. rewrite Forall_forall in Hl. by apply Hl.
  - rewrite Hq. unfold queue_caps. simpl. solve_submseteq.
  - unfold queue in Hq. destruct (k_ports k !! p) as [q0 |] eqn:E; [| done]. simpl in Hq. subst q0.
    pose proof (ki_queue _ _ _ _ Hk p _ E). unfold zlen in *. simpl in *. lia.
Qed.

Lemma kinv_mint B e l k (c : Cap) :
  kinv B e l k -> (forall p, as_port c = Some p -> port_live k p) -> kinv (c :: B) (c :: e) l k.
Proof.
  intros [Hc Hp ? ? ? Hf ? ? Hb] Hlive. split; try done.
  - simpl. by apply submseteq_skip.
  - intros c' p. simpl. rewrite elem_of_cons. intros [-> | Hin] Has; [by apply Hlive | by apply (Hp c')].
  - intros c' p. rewrite elem_of_cons. intros [-> | Hin] Has; [by apply Hf, Hlive | by apply (Hb c')].
Qed.

Lemma kinv_local B e l k (p : Z) : kinv B e l k -> port_live k p -> kinv B e (p :: l) k.
Proof. intros [] Hlive. split; try done. by constructor. Qed.

Lemma port_new_wp B e l k :
  kinv B e l k -> wp port_new k (fun p k' => p = k_next_port k /\ k_next_port k' = p + 1 /\ kinv B e (p :: l) k').
Proof.
  intros Hk p k' [= <- <-]. split; [done |]. split; [done |].
  destruct Hk as [Hc Hp Hl Hn Hr Hf Hq Hid Hb]. set (p := k_next_port k). set (k' := mkKernel _ _ _ _ _ _ _).
  assert (k_ports k !! p = None) as Hnone.
  { destruct (k_ports k !! p) eqn:E; [| done]. specialize (Hf p ltac:(unfold port_live; by rewrite E)). lia. }
  assert (forall p', port_live k' p' <-> p' = p \/ port_live k p') as Hl'.
  { intros p'. unfold port_live, k'. simpl. rewrite lookup_insert_is_Some. split; [naive_solver |].
    intros [-> | ?]; [by left |]. destruct (decide (p = p')); [by left | by right]. }
  assert (all_caps k' ≡ₚ all_caps k) as Hall.
  { unfold all_caps. change (held k') with (held k). apply Permutation_app_head. unfold queued, k'. simpl.
    rewrite gather_insert. by rewrite delete_id. }
  split; try done.
  - by rewrite Hall.
  - intros c p' Hin Has. apply Hl'. right. apply (Hp c); [by rewrite <- Hall | done].
  - constructor; [apply Hl'; by left |]. eapply Forall_impl; [exact Hl |]. intros p' ?. apply Hl'. by right.
  - intros n p' Hn'. apply Hl'. right. by apply (Hn n).
  - intros t p' v Ht. apply Hl'. right. by apply (Hr t p' v).
  - intros p' [-> | Hp']%Hl'; simpl; [lia |]. specialize (Hf p' Hp'). lia.
  - intros p' q'. simpl. rewrite lookup_insert_Some. intros [[<- <-] | [_ ?]]; [by vm_compute | by apply (Hq p')].
  - intros c p' Hin Has. simpl. specialize (Hb c p' Hin Has). unfold p. lia.
Qed.

(** ** Dropping ports *)

Lemma existsb_false {X} (f : X -> bool) (l : list X) (x : X) : existsb f l = false -> x ∈ l -> f x = false.
Proof.
  intros E Hin. destruct (f x) eqn:Ef; [| done]. apply (not_true_iff_false (existsb f l)) in E. destruct E.
  apply existsb_exists. exists x. split; [by apply list_elem_of_In | done].
Qed.

Lemma elem_of_gather {V X} (f : V -> list X) (m : gmap Z V) (c : X) :
  c ∈ gather f m <-> exists i x, m !! i = Some x /\ c ∈ f x.
Proof.
  unfold gather. rewrite list_elem_of_bind. split.
  - intros (x & Hc & Hx). apply list_elem_of_fmap in Hx as ([i y] & -> & Hi). apply elem_of_map_to_list in Hi. eauto.
  - intros (i & x & Hi & Hc). exists x. split; [done |]. apply list_elem_of_fmap. exists (i, x).
    split; [done |]. by apply elem_of_map_to_list.
Qed.

Lemma elem_of_table_caps (t : CapTable) (c : Cap) : c ∈ table_caps t <-> exists id, slots t !! id = Some c.
Proof.
  unfold table_caps. rewrite list_elem_of_fmap. split.
  - intros ([i y] & -> & Hi). exists i. by apply elem_of_map_to_list in Hi.
  - intros [id Hid]. exists (id, c). split; [done |]. by apply elem_of_map_to_list.
Qed.

Lemma port_unused k (p : Z) :
  port_used k p = false ->
  (forall c, c ∈ all_caps k -> as_port c <> Some p) /\ (forall n, REGISTRY k !! n <> Some p) /\
  (forall t v, k_receivers k !! t <> Some (p, v)).
Proof.
  unfold port_used. rewrite !orb_false_iff. intros [[[Ht Hq] Hn] Hr]. split_and!.
  - intros c Hc Has. assert (names_port p c = true) as Hnp by (by apply bool_decide_eq_true_2).
    unfold all_caps in Hc. rewrite elem_of_app in Hc. destruct Hc as [Hc | Hc]; apply elem_of_gather in Hc as (i & x & Hi & Hc).
    + apply elem_of_table_caps in Hc as [id Hid].
      pose proof (existsb_false _ _ (i, x) Ht ltac:(by apply elem_of_map_to_list)) as E.
      pose proof (existsb_false _ _ (id, c) E ltac:(by apply elem_of_map_to_list)) as E'. simpl in E'. congruence.
    + apply list_elem_of_bind in Hc as (m & Hc & Hm).
      pose proof (existsb_false _ _ (i, x) Hq ltac:(by apply elem_of_map_to_list)) as E.
      pose proof (existsb_false _ _ m E Hm) as E'. pose proof (existsb_false _ _ c E' Hc). congruence.
  - intros n Hnp. pose proof (existsb_false _ _ (n, p) Hn ltac:(by apply elem_of_map_to_list)) as E.
    simpl in E. by rewrite Z.eqb_refl in E.
  - intros t v Htv. pose proof (existsb_false _ _ (t, (p, v)) Hr ltac:(by apply elem_of_map_to_list)) as E.
    simpl in E. by rewrite Z.eqb_refl in E.
Qed.

Lemma kinv_remove_port B k (p : Z) :
  kinv B [] [] k -> port_used k p = false -> kinv B [] [] (with_ports k (delete p (k_ports k))).
Proof.
  intros [Hc Hp Hl Hn Hr Hf Hq Hid Hb] (U1 & U2 & U3)%port_unused. set (k' := with_ports k _).
  assert (all_caps k' ⊆+ all_caps k) as Hall by (apply submseteq_app; [done | apply gather_delete]).
  assert (forall p', p' <> p -> port_live k p' -> port_live k' p') as Hl'.
  { intros p' Hne ?. unfold port_live, k'. simpl. by rewrite lookup_delete_ne. }
  split; try done.
  - simpl. by etrans.
  - intros c p' Hin Has. apply (elem_of_submseteq _ _ _ Hin) in Hall. apply Hl'; [| by apply (Hp c)].
    intros ->. by apply (U1 c).
  - intros n p' Hn'. apply Hl'; [| by apply (Hn n)]. intros ->. by apply (U2 n).
  - intros t p' v Ht. apply Hl'; [| by apply (Hr t p' v)]. intros ->. by apply (U3 t v).
  - intros p' Hp'. apply Hf. unfold port_live, k' in Hp'. simpl in Hp'. by apply lookup_delete_is_Some in Hp' as [_ ?].
  - intros p' q'. simpl. rewrite lookup_delete_Some. intros [_ ?]. by apply (Hq p').
Qed.

Lemma reap_loop_wp B (fuel : nat) k : kinv B [] [] k -> wp (reap_loop fuel) k (fun _ k' => kinv B [] [] k').
Proof.
  revert k. induction fuel as [| fuel IH]; intros k Hk x k'; cbn [reap_loop]; [unfold st_ret; by intros [= <- <-] |].
  destruct (List.find _ _) as [[p q] |] eqn:E; [| by intros [= <- <-]].
  apply List.find_some in E as [_ Hu]. apply negb_true_iff in Hu. simpl in Hu.
  intros ([y k1] & Hd & E2)%obind_Ret. eapply IH; [| exact E2].
  exact (inert_wp _ _ _ _ _ _ (kinv_remove_port B k p Hk Hu) _ _ Hd).
Qed.

Lemma reap_wp B k : kinv B [] [] k -> wp reap k (fun _ k' => kinv B [] [] k').
Proof. intros Hk x k' E. by eapply reap_loop_wp. Qed.

Lemma finish_wp B (c : KM (result Z Z)) k :
  wp c k (fun _ k' => exists e l, kinv B e l k') -> wp (finish c) k (fun _ k' => kinv B [] [] k').
Proof.
  intros Hc. unfold finish. apply wp_bind. eapply wp_mono; [exact Hc |]. intros r k1 (e' & l' & Hk1).
  apply wp_bind. eapply wp_mono; [apply (reap_wp B) |].
  - eapply kinv_drop; [apply submseteq_nil_l | | exact Hk1]. set_solver.
  - intros x k2 Hk2. by apply wp_ret.
Qed.

(** ** Handlers *)

Lemma wp_bind_inert {X Y} (c : KM X) (f : X -> KM Y) B e l k Q :
  Inert c -> kinv B e l k -> (forall x k1, kinv B e l k1 -> wp (f x) k1 Q) -> wp (st_bind c f) k Q.
Proof. intros Hc Hk Hf. apply wp_bind. eapply wp_mono; [by apply inert_wp | apply Hf]. Qed.

Lemma wp_try_inert {X Y} (c : KM (result X Z)) (f : X -> KM (result Y Z)) B e l k (Q : result Y Z -> Kernel A -> Prop) :
  Inert c -> kinv B e l k -> (forall x k1, kinv B e l k1 -> wp (f x) k1 Q) ->
  (forall er k1, kinv B e l k1 -> Q (Err er) k1) -> wp (st_try c f) k Q.
Proof.
  intros Hc Hk Hf He. apply wp_try. eapply wp_mono; [by apply inert_wp |]. intros [x | er] k1; [apply Hf | apply He].
Qed.

Lemma caps_get_wp B e l k (task id : Z) :
  kinv B e l k ->
  wp (caps_get task id) k (fun r k' => kinv B e l k' /\
    match r with Some c => forall p, as_port c = Some p -> port_live k' p | None => True end).
Proof.
  intros Hk r k' [= <- <-]. split; [done |]. destruct (cap_get (table k task) id) as [c |] eqn:E; [| done].
  intros p. apply (ki_ports _ _ _ _ Hk). unfold all_caps. rewrite !elem_of_app. right. left.
  unfold table, cap_get in E. destruct (k_caps k !! task) as [t |] eqn:Et; simpl in E; [| by rewrite lookup_empty in E].
  apply elem_of_gather. exists task, t. split; [done |]. apply elem_of_table_caps. by exists id.
Qed.

(** A handler may mint capabilities, but only good ones. *)
Definition recv_for (p : Z) (c : Cap) : bool := names_port p c && contains (c_rights c) RECV.
Definition count (f : Cap -> bool) (l : list Cap) : nat := length (filter (fun c => f c = true) l).
Definition good B : Prop := (forall p, (count (recv_for p) B <= 1)%nat) /\ (count is_registrar B <= 1)%nat.
Definition outcome_ok B k : Prop := exists B', kinv B' [] [] k /\ (good B -> good B').

Lemma count_cons (f : Cap -> bool) (c : Cap) (l : list Cap) : count f (c :: l) = ((if f c then 1 else 0) + count f l)%nat.
Proof. unfold count. rewrite filter_cons. destruct (f c); [by rewrite decide_True | by rewrite decide_False]. Qed.

Lemma good_send B (p r : Z) : contains r RECV = false -> good B -> good (cap_port p r :: B).
Proof.
  intros Hr [G1 G2]. split; [| by rewrite count_cons]. intros p'. rewrite count_cons.
  unfold recv_for. simpl. rewrite Hr, andb_false_r. apply G1.
Qed.

Lemma good_new B (p r : Z) : (forall c p', c ∈ B -> as_port c = Some p' -> p' < p) -> good B -> good (cap_port p r :: B).
Proof.
  intros Hb [G1 G2]. split; [| by rewrite count_cons]. intros p'. rewrite count_cons.
  destruct (decide (p' = p)) as [-> |].
  - assert (count (recv_for p) B = 0%nat) as ->; [| destruct (recv_for _ _); lia].
    unfold count. rewrite list_filter_none; [done |]. apply Forall_forall. intros c Hc.
    unfold recv_for, names_port. rewrite andb_true_iff, bool_decide_eq_true. intros [Has _]. specialize (Hb c p Hc Has). lia.
  - assert (recv_for p' (cap_port p r) = false) as ->; [| apply G1].
    unfold recv_for, names_port. rewrite bool_decide_eq_false_2; [done |]. unfold as_port. simpl. congruence.
Qed.

Lemma outcome_ok_refl B e l k : kinv B e l k -> kinv B [] [] k.
Proof. intros Hk. eapply kinv_drop; [apply submseteq_nil_l | | exact Hk]. set_solver. Qed.

(** What the body of a handler leads to, before its locals are dropped. *)
Definition body_ok B k : Prop := exists B' e l, kinv B' e l k /\ (good B -> good B').

Lemma body_ok_same B e l k : kinv B e l k -> body_ok B k.
Proof. intros Hk. by exists B, e, l. Qed.
Hint Resolve body_ok_same : persona.

Lemma finish_ok B (c : KM (result Z Z)) k :
  wp c k (fun _ k' => body_ok B k') -> wp (finish c) k (fun _ k' => outcome_ok B k').
Proof.
  intros Hc. unfold finish. apply wp_bind. eapply wp_mono; [exact Hc |]. intros r k1 (B' & e & l & Hk1 & HB).
  apply wp_bind. eapply wp_mono; [apply (reap_wp B'), (outcome_ok_refl _ _ _ _ Hk1) |].
  intros x k2 Hk2. apply wp_ret. by exists B'.
Qed.

Lemma sys_port_create_ok B k : kinv B [] [] k -> wp sys_port_create k (fun _ k' => outcome_ok B k').
Proof.
  intros Hk. apply finish_ok. eapply wp_try_inert; [apply _ | exact Hk | | eauto with persona].
  intros task k1 Hk1. apply wp_bind. eapply wp_mono; [by apply port_new_wp |]. intros p k2 (-> & _ & Hk2).
  apply wp_bind. eapply wp_mono.
  { apply caps_install_wp, kinv_mint; [exact Hk2 |]. intros p [= <-].
    pose proof (ki_locals _ _ _ _ Hk2) as Hl. by apply Forall_cons in Hl as [? _]. }
  intros id k3 Hk3. apply wp_ret. do 3 eexists. split; [exact Hk3 |]. apply good_new, (ki_bound _ _ _ _ Hk1).
Qed.

Lemma sys_cap_drop_ok B k (cap_id : Z) : kinv B [] [] k -> wp (sys_cap_drop cap_id) k (fun _ k' => outcome_ok B k').
Proof.
  intros Hk. apply finish_ok. eapply wp_try_inert; [apply _ | exact Hk | | eauto with persona].
  intros task k1 Hk1. apply wp_bind. eapply wp_mono; [by apply caps_remove_wp |]. intros [c |] k2 Hk2; apply wp_ret; eauto with persona.
Qed.

Lemma dup_rights_no_recv (rights mask : Z) : contains (dup_rights rights mask) RECV = false.
Proof.
  unfold contains, dup_rights. rewrite <- Z.land_assoc. change (Z.land (Z.lxor RIGHTS_ALL RECV) RECV) with 0.
  by rewrite Z.land_0_r.
Qed.

Lemma install_minted B k (task p r : Z) :
  kinv B [] [] k -> port_live k p ->
  contains r RECV = false ->
  wp (let* id := caps_install task (cap_port p r) in st_ret (Ok id)) k (fun (_ : result Z Z) k' => body_ok B k').
Proof.
  intros Hk Hp Hr. apply wp_bind. eapply wp_mono.
  { apply caps_install_wp, kinv_mint; [exact Hk |]. by intros p' [= <-]. }
  intros id k2 Hk2. apply wp_ret. do 3 eexists. split; [exact Hk2 | by apply good_send].
Qed.

Lemma sys_cap_dup_ok B k (cap_id mask : Z) : kinv B [] [] k -> wp (sys_cap_dup cap_id mask) k (fun _ k' => outcome_ok B k').
Proof.
  intros Hk. apply finish_ok. eapply wp_try_inert; [apply _ | exact Hk | | eauto with persona].
  intros task k1 Hk1. apply wp_bind. eapply wp_mono; [by apply caps_get_wp |]. intros [c |] k2 [Hk2 Hlive].
  2: { apply wp_ret. eauto with persona. }
  case_match; [apply wp_ret; eauto with persona |]. destruct (as_port c) as [p |] eqn:Has; [| apply wp_ret; eauto with persona].
  apply install_minted; [done | by apply Hlive | apply dup_rights_no_recv].
Qed.

#[local] Instance inert_check_caps (task ptr : Z) (n : nat) : Inert (check_caps task ptr n).
Proof.
  revert ptr. induction n as [| n IH]; intros ptr; simpl; [apply _ |].
  apply inert_bind; [apply _ |]. intros id. apply inert_bind; [apply _ |]. intros [c |]; apply _.
Qed.

Lemma take_caps_wp B e l k (task ptr : Z) (n : nat) :
  kinv B e l k -> wp (take_caps task ptr n) k (fun cs k' => kinv B (cs ++ e) l k').
Proof.
  revert e ptr k. induction n as [| n IH]; intros e ptr k Hk; simpl; [by apply wp_ret |].
  eapply wp_bind_inert; [apply _ | exact Hk |]. intros id k1 Hk1. apply wp_bind.
  eapply wp_mono; [by apply caps_remove_wp |]. intros c k2 Hk2. apply wp_bind. eapply wp_mono; [apply (IH _ _ _ Hk2) |].
  intros cs k3 Hk3. apply wp_ret. eapply kinv_drop; [| reflexivity | exact Hk3]. destruct c; simpl; solve_submseteq.
Qed.

Lemma collect_caps_wp B l k (task : Z) (msg : SendMsg) :
  kinv B [] l k ->
  wp (collect_caps task msg) k (fun r k' => match r with Ok cs => kinv B cs l k' | Err _ => kinv B [] l k' end).
Proof.
  intros Hk. unfold collect_caps. case_match; [by apply wp_ret |]. case_match; [by apply wp_ret |].
  eapply wp_bind_inert; [apply _ | exact Hk |]. intros _ k1 Hk1.
  eapply wp_try_inert; [apply _ | exact Hk1 | | done]. intros _ k2 Hk2.
  apply wp_bind. eapply wp_mono; [apply (take_caps_wp B [] l _ _ _ _ Hk2) |]. intros cs k3 Hk3. cbv beta in Hk3.
  apply wp_ret. by rewrite app_nil_r in Hk3.
Qed.

Lemma collect_pages_wp B cs l k (task : Z) (msg : SendMsg) :
  kinv B cs l k ->
  wp (collect_pages task msg cs) k (fun r k' => match r with Ok _ => kinv B cs l k' | Err _ => kinv B [] l k' end).
Proof.
  intros Hk. unfold collect_pages.
  assert (forall X (k' : Kernel A) (code : Z), kinv B cs l k' ->
    wp (let* _ := caps_install_all task cs in early (X := X) code) k'
       (fun r k'' => match r with Ok _ => kinv B cs l k'' | Err _ => kinv B [] l k'' end)) as Hback.
  { intros X k' code Hk'. apply wp_bind. eapply wp_mono; [apply (caps_install_all_wp B cs []); by rewrite app_nil_r |].
    intros x k'' Hk''. by apply wp_ret. }
  case_match; [by apply wp_ret |]. case_match; [by apply Hback |].
  eapply wp_bind_inert; [apply _ | exact Hk |]. intros [sp |] k1 Hk1.
  2: { apply wp_ret. eapply kinv_drop; [apply submseteq_nil_l | reflexivity | exact Hk1]. }
  eapply wp_bind_inert; [apply _ | exact Hk1 |]. intros [v | er] k2 Hk2; [by apply wp_ret | by apply Hback].
Qed.

Lemma send_to_wp B l k (task port : Z) (msg : SendMsg) :
  port ∈ l -> kinv B [] l k -> wp (send_to task port msg) k (fun _ k' => body_ok B k').
Proof.
  intros Hp Hk. unfold send_to. apply wp_try. eapply wp_mono; [by apply collect_caps_wp |].
  intros [cs | er] k1 Hk1; [| eauto with persona]. apply wp_try. eapply wp_mono; [by apply collect_pages_wp |].
  intros [[pages len] | er] k2 Hk2; [| eauto with persona]. apply wp_bind.
  eapply wp_mono; [apply (try_push_wp B _ [] l); [done | simpl; by rewrite app_nil_r] |].
  intros [u | m] k3 Hk3.
  - eapply wp_bind_inert; [apply _ | exact Hk3 |]. intros x k4 Hk4. apply wp_ret. eauto with persona.
  - destruct Hk3 as [-> Hk3]. eapply wp_bind_inert; [apply _ | exact Hk3 |]. intros x k4 Hk4. apply wp_ret. eauto with persona.
Qed.

Lemma sys_send_ok B k (cap_id ptr : Z) : kinv B [] [] k -> wp (sys_send cap_id ptr) k (fun _ k' => outcome_ok B k').
Proof.
  intros Hk. apply finish_ok. case_match; [apply wp_ret; eauto with persona |].
  eapply wp_bind_inert; [apply _ | exact Hk |]. intros msg k1 Hk1. case_match; [apply wp_ret; eauto with persona |].
  eapply wp_try_inert; [apply _ | exact Hk1 | | eauto with persona]. intros task k2 Hk2. apply wp_bind.
  eapply wp_mono; [by apply caps_get_wp |]. intros [c |] k3 [Hk3 Hlive]; [| apply wp_ret; eauto with persona].
  case_match; [apply wp_ret; eauto with persona |]. destruct (as_port c) as [p |]; [| apply wp_ret; eauto with persona].
  apply (send_to_wp B [p]); [by left |]. by apply kinv_local, Hlive.
Qed.

Lemma deliver_caps_wp B cs l k (task out : Z) :
  kinv B cs l k -> wp (deliver_caps task out cs) k (fun _ k' => kinv B [] l k').
Proof.
  revert out k. induction cs as [| c cs IH]; intros out k Hk; simpl; [by apply wp_ret |].
  apply wp_bind. eapply wp_mono; [by apply caps_install_wp, Hk |]. intros id k1 Hk1.
  eapply wp_bind_inert; [apply _ | exact Hk1 |]. intros x k2 Hk2. by apply IH.
Qed.

#[local] Instance inert_deliver_pages (task : Z) (m : Message) : Inert (deliver_pages task m).
Proof.
  unfold deliver_pages. apply inert_bind; [apply _ |]. intros [sp |]; [| apply _].
  apply inert_bind; [apply _ |]. intros mem. apply inert_bind; [apply _ |]. intros [va |]; [| apply _].
  apply inert_bind; [apply _ |]. intros [u | er]; apply _.
Qed.

#[local] Instance inert_try {X Y} (c : KM (result X Z)) (f : X -> KM (result Y Z)) :
  Inert c -> (forall x, Inert (f x)) -> Inert (st_try c f).
Proof. intros Hc Hf. apply inert_bind; [done |]. intros [x | er]; apply _. Qed.

Lemma deliver_wp B l k (task : Z) (m : Message) (ptr : Z) :
  kinv B (m_caps m) l k -> wp (deliver task m ptr) k (fun _ k' => body_ok B k').
Proof.
  intros Hk. unfold deliver. eapply wp_bind_inert; [apply _ | exact Hk |]. intros out k1 Hk1.
  case_match. { eapply wp_bind_inert; [apply _ | exact Hk1 |]. intros x k2 Hk2. apply wp_ret. eauto with persona. }
  apply wp_bind. apply (wp_mono _ _ (fun _ k' => kinv B [] l k')).
  - unfold put_caps. case_bool_decide as Hm; [apply wp_ret; by rewrite Hm in Hk1 |].
    eapply wp_bind_inert; [apply _ | exact Hk1 |]. intros x k2 Hk2. by apply deliver_caps_wp.
  - intros x k2 Hk2. eapply wp_try_inert; [case_match; apply _ | exact Hk2 | | eauto with persona].
    intros [va len] k3 Hk3. eapply wp_bind_inert; [apply _ | exact Hk3 |]. intros y k4 Hk4. apply wp_ret. eauto with persona.
Qed.

Lemma kinv_receivers B e l k (r : gmap Z (Z * Z)) :
  kinv B e l k -> (forall t p v, r !! t = Some (p, v) -> port_live k p) -> kinv B e l (with_receivers k r).
Proof. intros [] Hr. by split. Qed.

Lemma recv_turn_ok B k (task port ptr : Z) :
  port_live k port -> kinv B [] [] k -> wp (recv_turn task port ptr) k (fun _ k' => outcome_ok B k').
Proof.
  intros Hlive Hk. unfold recv_turn. apply wp_bind.
  eapply wp_mono; [apply (port_pop_wp B [] [port]); [by left | by apply kinv_local] |]. intros [m |] k1 Hk1.
  - rewrite app_nil_r in Hk1. apply wp_bind, wp_modify, wp_bind. eapply wp_mono.
    { apply (finish_ok B), (deliver_wp B [port]). apply kinv_receivers; [exact Hk1 |].
      intros t p v Ht. destruct (decide (t = task)) as [-> |]; [by rewrite lookup_partial_alter_eq in Ht |].
      rewrite lookup_partial_alter_ne in Ht by done. by apply (ki_receivers _ _ _ _ Hk1 t p v). }
    intros v k2 Hk2. by apply wp_ret.
  - subst k1. apply wp_bind, wp_modify, wp_bind, wp_modify, wp_ret. exists B. split; [| done].
    eapply kinv_same; [| apply (kinv_receivers B [] [] k); [exact Hk |]]; [done |].
    intros t p v Ht. destruct (decide (t = task)) as [-> |].
    + rewrite lookup_partial_alter_eq in Ht. by injection Ht as <- <-.
    + rewrite lookup_partial_alter_ne in Ht by done. by apply (ki_receivers _ _ _ _ Hk t p v).
Qed.

Lemma sys_recv_ok B k (cap_id ptr : Z) : kinv B [] [] k -> wp (sys_recv cap_id ptr) k (fun _ k' => outcome_ok B k').
Proof.
  intros Hk. unfold sys_recv.
  assert (forall (k' : Kernel A) (code : Z), kinv B [] [] k' ->
    wp (let* v := finish (early code) in st_ret (Done v)) k' (fun _ k'' => outcome_ok B k'')) as Hfail.
  { intros k' code Hk'. apply wp_bind. eapply wp_mono; [apply (finish_ok B), wp_ret; eauto with persona |].
    intros v k'' ?. by apply wp_ret. }
  case_match; [by apply Hfail |]. eapply wp_bind_inert; [apply _ | exact Hk |]. intros [task | er] k1 Hk1; [| by apply Hfail].
  apply wp_bind. eapply wp_mono; [by apply caps_get_wp |]. intros [c |] k2 [Hk2 Hlive]; [| by apply Hfail].
  case_match; [by apply Hfail |]. destruct (as_port c) as [p |]; [| by apply Hfail].
  apply recv_turn_ok; [by apply Hlive | done].
Qed.

Lemma recv_resume_ok B k : kinv B [] [] k -> wp recv_resume k (fun _ k' => outcome_ok B k').
Proof.
  intros Hk x k'. unfold recv_resume. destruct (CURRENT (k_sched k)) as [t |]; [| done].
  destruct (k_receivers k !! t) as [[p v] |] eqn:E; [| done].
  apply (recv_turn_ok B); [by apply (ki_receivers _ _ _ _ Hk t p v) | done].
Qed.

Lemma publish_wp B e l k (name : list Z) (port : Z) :
  port_live k port -> kinv B e l k -> wp (publish name port) k (fun _ k' => kinv B e l k').
Proof.
  intros Hlive Hk r k'. unfold publish. destruct (REGISTRY k !! name) eqn:E; intros [= <- <-]; [done |].
  destruct Hk as [? ? ? Hn ? ? ? ?]. split; try done. intros n p. simpl. rewrite lookup_insert_Some.
  intros [[_ <-] | [_ ?]]; [done | by apply (Hn n)].
Qed.

Lemma sys_name_ok B k (op ptr len cap_id : Z) : kinv B [] [] k -> wp (sys_name op ptr len cap_id) k (fun _ k' => outcome_ok B k').
Proof.
  intros Hk. apply finish_ok. case_match; [apply wp_ret; eauto with persona |].
  eapply wp_bind_inert; [apply _ | exact Hk |]. intros name k1 Hk1. case_match; [apply wp_ret; eauto with persona |].
  eapply wp_try_inert; [apply _ | exact Hk1 | | eauto with persona]. intros task k2 Hk2. case_match; [| case_match].
  - apply wp_bind. eapply wp_mono; [by apply caps_get_wp |]. intros [c |] k3 [Hk3 Hlive]; [| apply wp_ret; eauto with persona].
    destruct (as_port c) as [p |]; [| apply wp_ret; eauto with persona]. apply wp_bind, wp_get.
    case_match; [apply wp_ret; eauto with persona |]. apply wp_bind.
    eapply wp_mono; [apply (publish_wp B [] []); [by apply Hlive | exact Hk3] |].
    intros [u | er] k4 Hk4; apply wp_ret; eauto with persona.
  - apply wp_bind. intros r k3 [= <- <-]. destruct (REGISTRY k2 !! name) as [p |] eqn:E; [| apply wp_ret; eauto with persona].
    apply install_minted; [done | by apply (ki_names _ _ _ _ Hk2 name) | done].
  - apply wp_ret. eauto with persona.
Qed.

Lemma new_caps_ok B k (task : Z) : kinv B [] [] k -> wp (new_caps task []) k (fun _ k' => outcome_ok B k').
Proof.
  intros Hk. unfold new_caps. simpl. apply wp_bind, wp_modify, wp_ret. exists B. split; [| done].
  apply (kinv_table B [] []); [done | apply submseteq_nil_l |]. split; [simpl; lia |].
  intros id Hid. simpl in Hid. rewrite lookup_empty in Hid. by destruct Hid.
Qed.

(** ** The system *)

(** The system calls of [ipc/syscalls.rs] and what else changes the kernel:
    a new task starts without capabilities ([sys_spawn]), and memory and
    scheduler go their own ways between the calls. *)
Inductive ipc_step : Kernel A -> Kernel A -> Prop :=
  | ipc_port_create k v k' : sys_port_create k = Ret (v, k') -> ipc_step k k'
  | ipc_cap_drop k id v k' : sys_cap_drop id k = Ret (v, k') -> ipc_step k k'
  | ipc_cap_dup k id mask v k' : sys_cap_dup id mask k = Ret (v, k') -> ipc_step k k'
  | ipc_send k id ptr v k' : sys_send id ptr k = Ret (v, k') -> ipc_step k k'
  | ipc_recv k id ptr v k' : sys_recv id ptr k = Ret (v, k') -> ipc_step k k'
  | ipc_resume k v k' : recv_resume k = Ret (v, k') -> ipc_step k k'
  | ipc_name k op ptr len id v k' : sys_name op ptr len id k = Ret (v, k') -> ipc_step k k'
  | ipc_spawn k task v k' : new_caps task [] k = Ret (v, k') -> ipc_step k k'
  | ipc_other k v s : ipc_step k (with_sched (with_vmm k v) s).

Lemma ipc_step_ok B k k' : ipc_step k k' -> kinv B [] [] k -> outcome_ok B k'.
Proof.
  intros Hs Hk. destruct Hs as [k v k' E | k id v k' E | k id mask v k' E | k id ptr v k' E | k id ptr v k' E | k v k' E
    | k op ptr len id v k' E | k task v k' E | k v s].
  - by eapply sys_port_create_ok.
  - by eapply sys_cap_drop_ok.
  - by eapply sys_cap_dup_ok.
  - by eapply sys_send_ok.
  - by eapply sys_recv_ok.
  - by eapply recv_resume_ok.
  - by eapply sys_name_ok.
  - by eapply new_caps_ok.
  - exists B. split; [| done]. by apply (kinv_same B [] [] k).
Qed.

Lemma ipc_reachable_ok B k k' : rtc ipc_step k k' -> kinv B [] [] k -> good B -> exists B', kinv B' [] [] k' /\ good B'.
Proof.
  intros Hr. revert B. induction Hr as [k | k1 k2 k3 Hs Hr IH]; intros B Hk HB; [by exists B |].
  destruct (ipc_step_ok B k1 k2 Hs Hk) as (B' & Hk' & HB'). by apply (IH B'), HB'.
Qed.

(** The kernel when Spring is spawned: no port, and the registrar in slot 1 of
    the table of the task [init]. *)
Definition boot_kernel (v : Vmm A) (s : Sched) (init first_port : Z) : Kernel A :=
  mkKernel v s {[ init := mkCapTable {[ 1 := registrar ]} 2 ]} ∅ first_port ∅ ∅.

Lemma boot_kernel_ok (v : Vmm A) (s : Sched) (init first_port : Z) : kinv [registrar] [] [] (boot_kernel v s init first_port).
Proof.
  assert (all_caps (boot_kernel v s init first_port) = [registrar]) as Hall.
  { unfold all_caps, held, queued, gather. simpl. by rewrite map_to_list_singleton, map_to_list_empty. }
  split; try done.
  - by rewrite Hall.
  - intros c p. rewrite Hall. by intros ->%list_elem_of_singleton.
  - intros p [q Hq]. done.
  - intros t tbl. simpl. rewrite lookup_singleton_Some. intros [<- <-]. simpl. split; [lia |].
    intros id [c Hc]. apply lookup_singleton_Some in Hc as [<- _]. lia.
  - by intros c p ->%list_elem_of_singleton.
Qed.
End Caps.
