(* ===== verification/IpcFrames.v ===== *)
(** * Frames in messages

    The pages of a queued message belong to the message alone: no address space
    maps them, the frame allocator does not hold them, and no other message has
    them.  This file shows that the IPC calls keep it so. *)

From S2P Require Import Prelude Bytes Utf8 Frames X86 Vmm VmmInv VmmProps VmmRanges VmmCopy VmmSpec.
From S2P Require Import Sched SchedProps Kernel Ipc IpcCaps.

Definition queue_pages (q : list Message) : list Z := q ≫= m_pages.

Lemma NoDup_sub {X} (l l' : list X) : l ⊆+ l' -> NoDup l' -> NoDup l.
Proof. intros [r Hp]%submseteq_Permutation. rewrite Hp. by intros [? _]%NoDup_app. Qed.

Section Frames.
  Context {A : Type} `{FrameAllocator A} `{PageTableEntry} `{!PageTableEntryLaws} `{KernelMemory A}.
  Context (managed : Z -> Z -> bool).
  Abbreviation pt_inv s owner := (VmmInv.pt_inv s owner managed).
  Abbreviation user_space := (VmmRanges.user_space managed).
  Abbreviation moves := (VmmProps.moves managed).
  Implicit Types (k : Kernel A) (owner : owner_map) (extra : list Z).

Definition all_pages k : list Z := gather queue_pages (k_ports k).

(** User pages and pages in messages are frames the allocator manages. *)
Definition is_ram (s : Vmm A) (f : Z) : Prop := fa_ram (vm_frames s) f /\ f <> 0.
Definition pages_ram (s : Vmm A) owner : Prop := forall f o, owner !! f = Some o -> length o.2 = 4%nat -> is_ram s f.

(** The payload of a message is whole pages. *)
Definition msg_ok (m : Message) : Prop :=
  length (m_regs m) = 6%nat /\ zlen (m_caps m) <= MAX_CAPS /\
  m_len m = PAGE_SIZE * zlen (m_pages m) /\ zlen (m_pages m) < 2 ^ 36.

(** [extra] are the frames in local variables of the running handler. *)
Record minv owner extra k : Prop := {
  mi_pt : pt_inv (k_vmm k) owner;
  mi_flight : in_flight (k_vmm k) owner (extra ++ all_pages k);
  mi_ram : pages_ram (k_vmm k) owner;
  mi_pages : Forall (is_ram (k_vmm k)) (extra ++ all_pages k);
  mi_spaces : forall t x r, tasks (k_sched k) !! t = Some x -> t_addr_space x = Some r -> user_space owner r;
  mi_active : user_space owner (active k);
  mi_msgs : forall p q, k_ports k !! p = Some q -> Forall msg_ok q
}.
Definition safe extra k : Prop := exists owner, minv owner extra k.

(** What a list of frames in flight asks of each of them. *)
Definition flying (s : Vmm A) owner (f : Z) : Prop := frame_addr f /\ frame_ready s owner f /\ is_ram s f.

Lemma minv_flying owner extra k : minv owner extra k -> NoDup (extra ++ all_pages k) /\ Forall (flying (k_vmm k) owner) (extra ++ all_pages k).
Proof.
  intros Hm. destruct (mi_flight _ _ _ Hm) as [Hnd Hall]. split; [done |].
  pose proof (mi_pages _ _ _ Hm) as Hr. rewrite Forall_forall in Hall, Hr |- *. intros f Hf.
  destruct (Hall f Hf). split; [done |]. split; [done | by apply Hr].
Qed.

Lemma minv_set owner owner' extra extra' k v :
  minv owner extra k -> pt_inv v owner' -> pages_ram v owner' ->
  (forall r, user_space owner r -> user_space owner' r) -> CR3 v = CR3 (k_vmm k) ->
  NoDup (extra' ++ all_pages k) -> Forall (flying v owner') (extra' ++ all_pages k) ->
  minv owner' extra' (with_vmm k v).
Proof.
  intros Hm Hi Hr Hu Hcr Hnd Hall. split; simpl; try done.
  - split; [done |]. eapply Forall_impl; [exact Hall |]. intros f (? & ? & ?). done.
  - eapply Forall_impl; [exact Hall |]. intros f (? & ? & ?). done.
  - intros t x r Ht Hx. by apply Hu, (mi_spaces _ _ _ Hm t x r).
  - pose proof (mi_active _ _ _ Hm) as Ha. unfold active in *. simpl. rewrite Hcr. by apply Hu.
  - apply (mi_msgs _ _ _ Hm).
Qed.

Lemma safe_drop extra extra' k : extra' ⊆+ extra -> safe extra k -> safe extra' k.
Proof.
  intros Hs [owner Hm]. exists owner. destruct (minv_flying _ _ _ Hm) as [Hnd Hall].
  assert (extra' ++ all_pages k ⊆+ extra ++ all_pages k) as Hs' by (by apply submseteq_skips_r).
  destruct Hm as [? ? ? Hp ? ? ?]. split; try done.
  - split; [by eapply NoDup_sub |]. rewrite Forall_forall in Hall |- *. intros f Hf.
    destruct (Hall f (elem_of_submseteq _ _ _ Hf Hs')) as (? & ? & ?). done.
  - rewrite Forall_forall in Hp |- *. intros f Hf. by apply Hp, (elem_of_submseteq _ _ _ Hf Hs').
Qed.

(** ** Memory manager steps *)

Lemma moves_ram P (D : Z -> Prop) (s s' : Vmm A) owner owner' :
  pt_inv s owner -> moves P D s owner s' owner' -> (forall f, D f -> is_ram s f) -> pages_ram s owner -> pages_ram s' owner'.
Proof.
  intros Hi Hm HD Hr f o Ho Hl. assert (is_ram s f) as [Hf Hz].
  { destruct (owner !! f) as [o0 |] eqn:E.
    - pose proof (inv_len _ _ _ Hi f o0.1 o0.2 ltac:(rewrite E; by destruct o0)) as Hlen.
      apply (Hr f o0 E). destruct (decide (length o0.2 = 4%nat)); [done |].
      pose proof (mv_tables _ _ _ _ _ _ _ Hm f o0 E ltac:(lia)) as E'. rewrite Ho in E'. injection E' as ->. lia.
    - destruct (mv_new _ _ _ _ _ _ _ Hm f o Ho E) as [Ha | Hd]; [| by apply HD].
      apply (fa_avail_ram (vm_frames s) f (inv_fa _ _ _ Hi)); [| done].
      by apply (inv_frame _ _ _ (mv_inv _ _ _ _ _ _ _ Hm) f o). }
  split; [by apply (mv_ram _ _ _ _ _ _ _ Hm) | done].
Qed.

Lemma flying_moves P (D : Z -> Prop) (s s' : Vmm A) owner owner' (l : list Z) :
  moves P D s owner s' owner' -> (forall f, f ∈ l -> ~ D f) -> Forall (flying s owner) l -> Forall (flying s' owner') l.
Proof.
  intros Hm HD Hall. rewrite Forall_forall in Hall |- *. intros f Hf. destruct (Hall f Hf) as (Ha & Hr & Hram & Hz).
  split; [done |]. split; [by eapply frame_ready_moves; [exact Hm | done | by apply HD |] |].
  split; [by apply (mv_ram _ _ _ _ _ _ _ Hm) | done].
Qed.

Lemma minv_moves P owner owner' extra k v :
  minv owner extra k -> moves P (fun _ => False) (k_vmm k) owner v owner' -> minv owner' extra (with_vmm k v).
Proof.
  intros Hm Hmv. destruct (minv_flying _ _ _ Hm) as [Hnd Hall]. eapply minv_set; [exact Hm | | | | | done |].
  - apply Hmv.
  - eapply moves_ram; [apply Hm | exact Hmv | done | apply Hm].
  - intros r. by eapply user_space_moves.
  - apply (mv_statics _ _ _ _ _ _ _ Hmv).
  - eapply flying_moves; [exact Hmv | by intros ? ? [] | done].
Qed.

Lemma steal_pages_moves (s : Vmm A) owner (r virt pages : Z) :
  pt_inv s owner -> user_space owner r -> user_range virt pages -> virt mod 4096 = 0 ->
  exists res s' owner', steal_pages r virt pages s = Ret (res, s') /\
    moves (in_range r virt 0 pages) (fun _ => False) s owner s' owner' /\
    match res with
    | Ok frames => in_flight s' owner' frames /\ Forall (fun f => is_Some (owner !! f)) frames /\ zlen frames = pages /\
        forall i f, frames !! i = Some f -> owner !! f = Some (page_of r (virt + Z.of_nat i * PAGE_SIZE))
    | Err _ => True
    end.
Proof.
  intros Hi Hu Hrg Hal. assert (0 <= pages < 2 ^ 36) as Hp by (unfold user_range, PAGE_SIZE in Hrg; lia).
  unfold steal_pages. rewrite land_fff, Hal. simpl negb. cbv iota.
  rewrite (proj2 (Z.leb_gt (2 ^ 63) (pages * 8))) by lia.
  destruct (steal_loop_ok managed s owner r virt (Z.to_nat pages) [] s owner) as (res & s' & o' & Hrun & Hres);
    [done | done | done | | by apply stolen_nil |]; change (zlen []) with 0 in *;
    rewrite ?Z2Nat.id, ?Z.add_0_l in * by lia; [done |].
  exists res, s', o'. split; [done |]. destruct res as [frames | []]; try done; [| split; [apply Hres | done]].
  destruct Hres as [Hst Hlen]. split; [rewrite <- Hlen; apply Hst |].
  destruct (stolen_in_flight managed s s' owner o' r virt frames Hi Hu) as [H1' H2']; [by rewrite Hlen | done |].
  split; [done |]. split; [done |]. split; [done |]. intros i f Hf.
  destruct (st_out _ _ _ _ _ _ _ _ Hst i f Hf) as (e & Hl & <-).
  assert (0 <= virt + Z.of_nat i * PAGE_SIZE < 2 ^ 47) as Hva.
  { apply (range_page virt 0 pages); [by rewrite Z.add_0_l | lia |]. apply lookup_lt_Some in Hf. unfold zlen in Hlen. lia. }
  destruct (user_space_ok managed owner r _ Hu Hva) as [Hs Huv]. by apply (leaf_owner managed s owner).
Qed.

Lemma safe_steal extra k (r virt pages : Z) :
  safe extra k -> (exists t x, tasks (k_sched k) !! t = Some x /\ t_addr_space x = Some r) ->
  user_range virt pages -> virt mod 4096 = 0 ->
  wp (on_vmm (steal_pages r virt pages)) k
     (fun res k' => match res with Ok frames => zlen frames = pages /\ safe (frames ++ extra) k' | Err _ => safe extra k' end).
Proof.
  intros [owner Hm] (t & x & Ht & Hx) Hrg Hal res k' E. unfold on_vmm in E.
  apply obind_Ret in E as ([res' v] & E & Er). injection Er as <- <-.
  pose proof (mi_spaces _ _ _ Hm t x r Ht Hx) as Hu.
  destruct (steal_pages_moves (k_vmm k) owner r virt pages (mi_pt _ _ _ Hm) Hu Hrg Hal)
    as (res & s' & owner' & E' & Hmv & Hres). rewrite E in E'. injection E' as -> ->.
  destruct res as [frames | er]; [| exists owner'; by eapply minv_moves].
  destruct Hres as ([Hnd Hfl] & Hown & Hlen & Hpath). destruct (minv_flying _ _ _ Hm) as [Hnd0 Hall0].
  split; [done |]. exists owner'. eapply minv_set; [exact Hm | apply Hmv | | | apply (mv_statics _ _ _ _ _ _ _ Hmv) | |].
  - eapply moves_ram; [apply Hm | exact Hmv | done | apply Hm].
  - intros r'. by eapply user_space_moves.
  - rewrite <- (assoc_L (++)). apply NoDup_app. split; [done |]. split; [| done]. intros f Hf Hf'.
    rewrite Forall_forall in Hown, Hall0. destruct (Hown f Hf) as [o Ho]. destruct (Hall0 f Hf') as (_ & [Hn _] & _). congruence.
  - rewrite <- (assoc_L (++)). apply Forall_app. split; [| eapply flying_moves; [exact Hmv | by intros ? ? [] | done]].
    rewrite Forall_lookup in Hfl |- *. intros i f Hf. destruct (Hfl i f Hf) as [Hfa Hrd].
    split; [done |]. split; [done |].
    destruct (mi_ram _ _ _ Hm f _ (Hpath i f Hf)) as [Hram Hz]; [by rewrite page_of_path |].
    split; [by apply (mv_ram _ _ _ _ _ _ _ Hmv) | done].
Qed.

(** What is mapped in [r] keeps its place and its contents. *)
Definition bytes_kept k k' (r : Z) : Prop :=
  forall va p, 0 <= va < 2 ^ 47 -> phys_for_virt (vm_mem (k_vmm k)) r va = Some p ->
    phys_for_virt (vm_mem (k_vmm k')) r va = Some p /\ vm_mem (k_vmm k') p = vm_mem (k_vmm k) p.

Lemma moves_bytes_kept (D : Z -> Prop) k (v : Vmm A) owner owner' (r virt n : Z) :
  pt_inv (k_vmm k) owner -> user_space owner r -> user_range virt n ->
  moves (in_range r virt 0 n) D (k_vmm k) owner v owner' ->
  (forall i, 0 <= i < n -> leaf (vm_mem (k_vmm k)) r (virt + i * PAGE_SIZE) = None) -> bytes_kept k (with_vmm k v) r.
Proof.
  intros Hi Hu Hrg Hmv Hfree va p Hva. rewrite !phys_for_virt_leaf, land_fff.
  destruct (leaf (vm_mem (k_vmm k)) r va) as [e |] eqn:El; [| done]. intros [= <-].
  destruct (moves_keeps_page managed _ _ _ _ _ _ r va e Hi Hmv Hu Hva) as [Hl Hk]; [| done |].
  - intros (i & Hix & E). rewrite Z.add_0_l in Hix.
    assert (0 <= virt + i * PAGE_SIZE < 2 ^ 47) as Hvi by (apply (range_page virt 0 n); [by rewrite Z.add_0_l | lia | lia]).
    apply page_of_inj in E; [| done | done]. rewrite (leaf_same_page _ _ _ _ E), Hfree in El by done. done.
  - simpl. rewrite Hl. split; [done |]. apply Hk. pose proof (Z.mod_pos_bound va 4096). unfold PAGE_SIZE. lia.
Qed.

Lemma safe_install extra k (r virt : Z) (frames : list Z) :
  safe (frames ++ extra) k -> (exists t x, tasks (k_sched k) !! t = Some x /\ t_addr_space x = Some r) ->
  user_range virt (zlen frames) -> virt mod 4096 = 0 ->
  wp (on_vmm (install_pages r virt frames)) k (fun res k' =>
    match res with Ok _ => safe extra k' /\ installed (vm_mem (k_vmm k')) r virt 0 frames /\
      ((forall i, 0 <= i < zlen frames -> leaf (vm_mem (k_vmm k)) r (virt + i * PAGE_SIZE) = None) -> bytes_kept k k' r)
    | Err _ => True end).
Proof.
  intros [owner Hm] (t & x & Ht & Hx) Hrg Hal res k' E. unfold on_vmm in E.
  apply obind_Ret in E as ([res' v] & E & Er). injection Er as <- <-.
  pose proof (mi_spaces _ _ _ Hm t x r Ht Hx) as Hu. destruct (minv_flying _ _ _ Hm) as [Hnd Hall].
  rewrite <- (assoc_L (++)) in Hnd, Hall. apply NoDup_app in Hnd as (Hnd1 & Hdisj & Hnd2).
  apply Forall_app in Hall as [Hall1 Hall2].
  destruct (install_loop_ok managed r virt frames 0 (k_vmm k) owner) as (res & s' & owner' & E' & Hmv & Hres).
  - apply Hm.
  - done.
  - by rewrite Z.add_0_l.
  - lia.
  - done.
  - split; [done |]. eapply Forall_impl; [exact Hall1 |]. by intros f (? & ? & ?).
  - unfold install_pages in E. rewrite E in E'. injection E' as -> ->. destruct res as [u | er]; [| done].
    split; [| split; [exact Hres | intros Hfree; by eapply moves_bytes_kept; [apply Hm | ..]]]. exists owner'. eapply minv_set; [exact Hm | apply Hmv | | | apply (mv_statics _ _ _ _ _ _ _ Hmv) | done |].
    + eapply moves_ram; [apply Hm | exact Hmv | | apply Hm]. rewrite Forall_forall in Hall1. intros f Hf.
      by destruct (Hall1 f Hf) as (_ & _ & ?).
    + intros r'. by eapply user_space_moves.
    + eapply flying_moves; [exact Hmv | | done]. intros f Hf Hf'. by apply (Hdisj f).
Qed.

(** ** Freeing *)

Lemma safe_free extra k (frames : list Z) :
  safe (frames ++ extra) k -> wp (free_pages frames) k (fun _ k' => safe extra k').
Proof.
  revert k. induction frames as [| f frames IH]; intros k Hs; cbn [free_pages]; [by apply wp_ret |].
  destruct Hs as [owner Hm]. destruct (minv_flying _ _ _ Hm) as [Hnd Hall]. simpl in Hnd, Hall.
  apply NoDup_cons in Hnd as [Hf Hnd]. apply Forall_cons in Hall as [(Hfa & [Hn Hna] & Hram & Hz) Hall].
  destruct (fa_free_spec (vm_frames (k_vmm k)) f (inv_fa _ _ _ (mi_pt _ _ _ Hm)) Hfa Hz Hram Hna)
    as (fa & Efa & Hok & Hram' & Hav).
  intros x k' E. rewrite Efa in E. cbn [obind] in E. revert E. apply IH. exists owner.
  set (v := k_vmm k) in *. change (mkVmm _ _ _ _ _) with (with_frames v fa).
  assert (pt_inv v owner) as Hi by apply Hm.
  eapply minv_set; [exact Hm | | | done | done | done |].
  - split; simpl; try apply Hi; [done |]. intros g o Hg. destruct (inv_frame _ _ _ Hi g o Hg) as [Hga Hgn].
    split; [done |]. rewrite Hav by done. intros [-> | ?]; [congruence | done].
  - intros g o Hg Hl. destruct (mi_ram _ _ _ Hm g o Hg Hl) as [Hgr Hgz]. split; [| done]. simpl. by apply Hram'.
  - rewrite Forall_forall in Hall |- *. intros g Hg. destruct (Hall g Hg) as (Hga & [Hgn Hgav] & Hgr & Hgz).
    split; [done |]. split; [split; [done |] | split; [| done]]; simpl; [| by apply Hram'].
    rewrite Hav by done. intros [-> | ?]; done.
Qed.

(** ** Writing to the running program *)

Definition user_buf (va n : Z) : Prop := 0 <= va /\ va + n <= 2 ^ 47.

Lemma safe_cpu_store extra k (va b : Z) :
  safe extra k -> 0 <= va < 2 ^ 47 -> byte_ok b -> wp (cpu_store va b) k (fun _ k' => safe extra k').
Proof.
  intros [owner Hm] Hva Hb x k'. unfold cpu_store.
  rewrite (proj2 (Z.leb_le 0 va)), (proj2 (Z.ltb_lt va (2 ^ 47))) by lia. cbn [andb].
  destruct (phys_for_virt _ _ _) as [p |] eqn:Ep; [| done]. intros E. injection E as _ <-.
  change (mkVmm _ _ _ _ _) with (with_mem (k_vmm k) (store (vm_mem (k_vmm k)) p [b])).
  pose proof (mi_pt _ _ _ Hm) as Hi. destruct (minv_flying _ _ _ Hm) as [Hnd Hall].
  rewrite phys_for_virt_leaf in Ep. destruct (leaf (vm_mem (k_vmm k)) (active k) va) as [e |] eqn:El; [| done].
  cbn [fmap option_fmap option_map] in Ep. apply (inj Some) in Ep. rewrite land_fff in Ep.
  destruct (user_space_ok managed owner (active k) va (mi_active _ _ _ Hm) Hva) as [Hs Huv].
  pose proof (leaf_owner managed (k_vmm k) owner (active k) va e Hi Hs Huv El) as Ho.
  assert (frame_of p = pte_addr e) as Hfp.
  { apply frame_of_in; [by apply (inv_frame _ _ _ Hi _ _ Ho) |]. pose proof (Z.mod_pos_bound va 4096). unfold PAGE_SIZE. lia. }
  exists owner. eapply minv_set; [exact Hm | | apply Hm | done | done | done | done].
  apply (data_write_inv managed); [done |]. split; [apply store_mem_ok; [apply Hi | by constructor] |].
  intros a Ha. destruct (decide (a = p)) as [-> |].
  - exists (page_of (active k) va). rewrite Hfp. split; [done | by rewrite page_of_path].
  - destruct Ha. apply store_other. unfold zlen. simpl. lia.
Qed.

Lemma safe_store extra k (va : Z) (l : list Z) :
  safe extra k -> user_buf va (zlen l) -> Forall byte_ok l -> wp (store_bytes va l) k (fun _ k' => safe extra k').
Proof.
  intros Hs Hb Hl. revert va k Hs Hb. induction Hl as [| b l Hb Hl IH]; intros va k Hs [H1' H2']; simpl; [by apply wp_ret |].
  rewrite zlen_cons in H2'. assert (0 <= zlen l) by (unfold zlen; lia).
  apply wp_bind. eapply wp_mono; [apply safe_cpu_store; [exact Hs | lia | done] |]. intros x k1 Hs1.
  unfold wrap. destruct (decide (l = [])) as [-> | Hne]; [by apply wp_ret |].
  assert (0 < zlen l) by (unfold zlen; destruct l; [done | simpl; lia]).
  rewrite Z.mod_small by lia. apply IH; [done | split; lia].
Qed.

(** ** The scheduler *)

Definition keeps_spaces (s s' : Sched) : Prop :=
  (forall t, t_addr_space <$> tasks s' !! t = t_addr_space <$> tasks s !! t) /\
  (cpu_pml4 s' = cpu_pml4 s \/ exists t x r, tasks s !! t = Some x /\ t_addr_space x = Some r /\ cpu_pml4 s' = Some r).

Lemma safe_sched extra k (s : Sched) : keeps_spaces (k_sched k) s -> safe extra k -> safe extra (with_sched k s).
Proof.
  intros [Ht Hc] [owner Hm]. exists owner. destruct Hm as [H1' H2' H3 H4 H5 H6 H7]. split; try done.
  - intros t x r Hx Hr. specialize (Ht t). simpl in Hx. rewrite Hx in Ht.
    destruct (tasks (k_sched k) !! t) as [y |] eqn:Hy; [| done]. simpl in Ht. injection Ht as Ht.
    apply (H5 t y r Hy). congruence.
  - unfold active in *. simpl. destruct Hc as [-> | (t & x & r & Hx & Hr & ->)]; [done | by apply (H5 t x)].
Qed.

Lemma set_state_spaces (s : Sched) (i t : Z) (st : TaskState) :
  t_addr_space <$> tasks (set_state s i st) !! t = t_addr_space <$> tasks s !! t.
Proof.
  unfold set_state. simpl. destruct (decide (i = t)) as [-> |].
  - rewrite lookup_alter_eq. by destruct (tasks s !! t).
  - by rewrite lookup_alter_ne.
Qed.

Lemma wake_all_spaces (s : Sched) (key : Z) : keeps_spaces s (wake_all s key).
Proof.
  unfold wake_all. destruct (take_out _ _ _ _ _) as [wq woken]. generalize (woken.*2). intros l.
  assert (forall s0, (forall t, t_addr_space <$> tasks (foldl wake_one s0 l) !! t = t_addr_space <$> tasks s0 !! t) /\
    cpu_pml4 (foldl wake_one s0 l) = cpu_pml4 s0) as Hl.
  { induction l as [| i l IH]; intros s0; simpl; [done |]. destruct (IH (wake_one s0 i)) as [E1 E2]. split.
    - intros t. rewrite E1. unfold wake_one. apply set_state_spaces.
    - by rewrite E2. }
  destruct (Hl (with_wq s wq)) as [E1 E2]. split; [done | by left].
Qed.

Lemma prepare_to_run_spaces (s : Sched) (i : Z) :
  tasks (prepare_to_run s i) = tasks s /\
  (cpu_pml4 (prepare_to_run s i) = cpu_pml4 s \/
   exists x r, tasks s !! i = Some x /\ t_addr_space x = Some r /\ cpu_pml4 (prepare_to_run s i) = Some r).
Proof.
  unfold prepare_to_run. destruct (tasks s !! i) as [x |] eqn:Hx; [| by split; [| left]]. split; [done |].
  destruct (t_addr_space x) as [r |] eqn:Hr; [right | by left]. by exists x, r.
Qed.

Lemma keeps_spaces_trans (s1 s2 s3 : Sched) :
  keeps_spaces s1 s2 -> keeps_spaces s2 s3 -> keeps_spaces s1 s3.
Proof.
  intros [H1' H2'] [H3 H4]. split; [intros t; by rewrite H3, H1' |].
  destruct H4 as [-> | (t & x & r & Hx & Hr & ->)]; [done |]. right. specialize (H1' t). rewrite Hx in H1'.
  destruct (tasks s1 !! t) as [y |] eqn:Hy; [| done]. injection H1' as H1'. exists t, y, r. split; [done |]. split; [congruence | done].
Qed.

Lemma keeps_spaces_set (s s' : Sched) (i : Z) (st : TaskState) :
  tasks s' = tasks (set_state s i st) -> cpu_pml4 s' = cpu_pml4 s -> keeps_spaces s s'.
Proof. intros E1 E2. split; [| by left]. intros t. rewrite E1. apply set_state_spaces. Qed.

Lemma schedule_spaces (s : Sched) : keeps_spaces s (schedule s).2.
Proof.
  unfold schedule. cbn [RUN_QUEUE with_resched]. destruct (RUN_QUEUE s) as [| next q]; [by split; [| left] |]. cbv zeta.
  set (s1 := with_rq (with_resched s false) q). set (s2 := match CURRENT s1 with Some p => _ | None => s1 end).
  assert (keeps_spaces s s2) as H2'.
  { unfold s2. destruct (CURRENT s1) as [p |]; [| by split; [| left]]. case_decide; [| by split; [| left]].
    by apply (keeps_spaces_set s _ p Ready). }
  set (s3 := with_current (set_state s2 next Running) (Some next)).
  assert (keeps_spaces s s3) as H3.
  { eapply keeps_spaces_trans; [exact H2' |]. by apply (keeps_spaces_set s2 _ next Running). }
  case_decide; [done |]. cbn [snd]. eapply keeps_spaces_trans; [exact H3 |].
  destruct (prepare_to_run_spaces s3 next) as [E1 E2]. split; [by rewrite E1 |].
  destruct E2 as [E2 | (x & r & ? & ? & ?)]; [by left | right; by exists next, x, r].
Qed.

Lemma block_on_spaces (s : Sched) (key : Z) : keeps_spaces s (block_on s key).2.
Proof.
  unfold block_on. destruct (CURRENT s) as [t |]; [| apply schedule_spaces].
  eapply keeps_spaces_trans; [| apply schedule_spaces]. by apply (keeps_spaces_set s _ t Blocked).
Qed.

(** ** Code that leaves memory, scheduler and queues alone *)

Definition same_mem k k' : Prop := k_vmm k' = k_vmm k /\ k_sched k' = k_sched k.
(** A reader: it changes nothing and depends on memory and scheduler only. *)
Class Reader {X} (c : KM (A := A) X) : Prop :=
  reader : forall k k0 x k', same_mem k k0 -> c k = Ret (x, k') -> k' = k /\ c k0 = Ret (x, k0).
Class Quiet {X} (c : KM (A := A) X) : Prop :=
  quiet : forall k, wp c k (fun _ k' => same_mem k k' /\ k_ports k' = k_ports k).

#[local] Instance reader_quiet {X} (c : KM X) : Reader c -> Quiet c.
Proof. intros Hc k x k' E. by destruct (Hc k k x k' ltac:(done) E) as [-> _]. Qed.
#[local] Instance reader_ret {X} (x : X) : Reader (st_ret x).
Proof. intros k k0 y k' _ [= <- <-]. done. Qed.
#[local] Instance reader_bind {X Y} (c : KM X) (f : X -> KM Y) : Reader c -> (forall x, Reader (f x)) -> Reader (st_bind c f).
Proof.
  intros Hc Hf k k0 y k' Hs (x & k1 & E1 & E2)%st_bind_Ret. destruct (Hc k k0 x k1 Hs E1) as [-> E3].
  destruct (Hf x k k0 y k' Hs E2) as [-> E4]. split; [done |]. apply st_bind_Ret. by exists x, k0.
Qed.
#[local] Instance reader_cpu_load (va : Z) : Reader (cpu_load va).
Proof.
  intros k k0 x k' [Hv Hs]. unfold cpu_load, active. rewrite Hv, Hs. case_match.
  - case_match; [| done]. by intros [= <- <-].
  - intros (b & Eb & [= <- <-])%obind_Ret. by rewrite Eb.
Qed.
#[local] Instance reader_load_bytes (va : Z) (n : nat) : Reader (load_bytes va n).
Proof. revert va. induction n; intros va; simpl; apply _. Qed.
#[local] Instance reader_load_u64 (va : Z) : Reader (load_u64 va).
Proof. unfold load_u64. apply _. Qed.
#[local] Instance reader_load_u64s (va : Z) (n : nat) : Reader (load_u64s va n).
Proof. revert va. induction n; intros va; simpl; apply _. Qed.
#[local] Instance reader_load_i32 (va : Z) : Reader (load_i32 va).
Proof. unfold load_i32. apply _. Qed.
#[local] Instance reader_read_send_msg (va : Z) : Reader (read_send_msg va).
Proof. unfold read_send_msg. apply _. Qed.
#[local] Instance reader_read_recv_msg (va : Z) : Reader (read_recv_msg va).
Proof. unfold read_recv_msg. apply _. Qed.
#[local] Instance reader_current : Reader current.
Proof. intros k k0 x k' [_ Hs] [= <- <-]. unfold current. by rewrite Hs. Qed.

#[local] Instance quiet_bind {X Y} (c : KM X) (f : X -> KM Y) : Quiet c -> (forall x, Quiet (f x)) -> Quiet (st_bind c f).
Proof.
  intros Hc Hf k y k' (x & k1 & E1 & E2)%st_bind_Ret. destruct (Hc k x k1 E1) as [[] ?], (Hf x k1 y k' E2) as [[] ?].
  repeat split; congruence.
Qed.
#[local] Instance quiet_lift {X} (o : outcome X) : Quiet (st_lift o).
Proof. intros k x k' (y & -> & [= <- <-])%obind_Ret. done. Qed.
#[local] Instance quiet_aligned (n va : Z) : Quiet (aligned n va).
Proof. unfold aligned. case_match; apply _. Qed.
#[local] Instance quiet_caps_get (task id : Z) : Quiet (caps_get task id).
Proof. intros k x k' [= <- <-]. done. Qed.
#[local] Instance quiet_caps_install (task : Z) (c : Cap) : Quiet (caps_install task c).
Proof. intros k x k' ([id t] & _ & [= <- <-])%obind_Ret. done. Qed.
#[local] Instance quiet_caps_remove (task id : Z) : Quiet (caps_remove task id).
Proof. intros k x k'. unfold caps_remove. destruct (cap_remove _ _). by intros [= <- <-]. Qed.
#[local] Instance quiet_caps_install_all (task : Z) (l : list Cap) : Quiet (caps_install_all task l).
Proof. induction l; simpl; apply _. Qed.
#[local] Instance quiet_early {X} (code : Z) : Quiet (early (X := X) code).
Proof. unfold early. apply _. Qed.
#[local] Instance quiet_check_caps (task ptr : Z) (n : nat) : Quiet (check_caps task ptr n).
Proof.
  revert ptr. induction n as [| n IH]; intros ptr; simpl; [apply _ |].
  apply quiet_bind; [apply _ |]. intros id. apply quiet_bind; [apply _ |]. intros [c |]; apply _.
Qed.
#[local] Instance quiet_set_receiver (task : Z) (r : option (Z * Z)) : Quiet (set_receiver task r).
Proof. intros k x k' [= <- <-]. done. Qed.
#[local] Instance quiet_addr_space (task : Z) : Quiet (addr_space task).
Proof. intros k x k' [= <- <-]. done. Qed.
#[local] Instance quiet_publish (n : list Z) (p : Z) : Quiet (publish n p).
Proof. intros k x k'. unfold publish. case_match; by intros [= <- <-]. Qed.
#[local] Instance quiet_registry_lookup (n : list Z) : Quiet (registry_lookup n).
Proof. intros k x k' [= <- <-]. done. Qed.
#[local] Instance quiet_get : Quiet st_get.
Proof. intros k x k' [= <- <-]. done. Qed.

Lemma safe_same extra k k' : same_mem k k' -> k_ports k' = k_ports k -> safe extra k -> safe extra k'.
Proof.
  intros [Ev Es] Ep [owner Hm]. exists owner. destruct Hm as [? ? ? ? ? Hact ?].
  split; unfold all_pages, active in *; rewrite ?Ev, ?Es, ?Ep; done.
Qed.

Lemma quiet_wp {X} (c : KM X) extra k : Quiet c -> safe extra k -> wp c k (fun _ k' => safe extra k').
Proof. intros Hc Hs x k' E. destruct (Hc k x k' E). by eapply safe_same. Qed.

Lemma wp_bind_quiet {X Y} (c : KM X) (f : X -> KM Y) extra k Q :
  Quiet c -> safe extra k -> (forall x k1, safe extra k1 -> wp (f x) k1 Q) -> wp (st_bind c f) k Q.
Proof. intros Hc Hk Hf. apply wp_bind. eapply wp_mono; [by apply quiet_wp | apply Hf]. Qed.

(** ** Queues *)

Lemma safe_queue extra extra' k (p : Z) (q : list Message) :
  safe extra k -> extra' ++ queue_pages q ⊆+ extra ++ queue_pages (queue k p) -> Forall msg_ok q ->
  safe extra' (with_ports k (<[p := q]> (k_ports k))).
Proof.
  intros [owner Hm] Hs Hq. exists owner. destruct (minv_flying _ _ _ Hm) as [Hnd Hall]. set (k' := with_ports k _).
  assert (extra' ++ all_pages k' ⊆+ extra ++ all_pages k) as Hsub.
  { unfold all_pages, k'. simpl. by apply (gather_update queue_pages _ _ _ []). }
  destruct Hm as [? [? Hfl] ? Hp ? ? Hmsg]. split; try done.
  - split; [by eapply NoDup_sub |]. rewrite Forall_forall in Hfl |- *. intros f Hf. by apply Hfl, (elem_of_submseteq _ _ _ Hf Hsub).
  - rewrite Forall_forall in Hp |- *. intros f Hf. by apply Hp, (elem_of_submseteq _ _ _ Hf Hsub).
  - intros p' q'. simpl. rewrite lookup_insert_Some. intros [[_ <-] | [_ ?]]; [done | by apply (Hmsg p')].
Qed.

Lemma queue_ok extra k (p : Z) : safe extra k -> Forall msg_ok (queue k p).
Proof.
  intros [owner Hm]. unfold queue. destruct (k_ports k !! p) as [q |] eqn:E; [| constructor].
  by apply (mi_msgs _ _ _ Hm p).
Qed.

Lemma safe_push extra k (p : Z) (m : Message) :
  safe (m_pages m ++ extra) k -> msg_ok m ->
  wp (try_push p m) k (fun r k' => match r with Ok _ => safe extra k' | Err m' => m' = m /\ safe (m_pages m ++ extra) k' end).
Proof.
  intros Hs Hm r k'. unfold try_push. destruct (Z.leb_spec MAX_IN_FLIGHT (zlen (queue k p))); [by intros [= <- <-] |].
  intros [= <- <-]. apply (safe_queue (m_pages m ++ extra)); [done | |].
  - unfold queue_pages. rewrite bind_app. simpl. rewrite app_nil_r. by solve_submseteq.
  - apply Forall_app. split; [by eapply queue_ok | by constructor].
Qed.

Lemma safe_pop extra k (p : Z) :
  safe extra k ->
  wp (port_pop p) k (fun r k' => same_mem k k' /\
    match r with Some m => msg_ok m /\ safe (m_pages m ++ extra) k' | None => k' = k end).
Proof.
  intros Hs r k'. unfold port_pop. destruct (queue k p) as [| m q] eqn:Hq; [by intros [= <- <-] |].
  intros [= <- <-]. pose proof (queue_ok _ _ p Hs) as Hok. rewrite Hq in Hok. apply Forall_cons in Hok as [Hm Hok].
  split; [done |]. split; [done |]. apply (safe_queue extra); [done | | done]. rewrite Hq. unfold queue_pages. simpl. solve_submseteq.
Qed.

Lemma safe_drop_messages extra k (q : list Message) :
  safe (queue_pages q ++ extra) k -> wp (drop_messages q) k (fun _ k' => safe extra k').
Proof.
  revert k. induction q as [| m q IH]; intros k Hs; simpl; [by apply wp_ret |]. apply wp_bind.
  eapply wp_mono; [apply (safe_free (queue_pages q ++ extra)); by rewrite (assoc_L (++)) |]. intros x k1 Hs1. by apply IH.
Qed.

Lemma safe_reap_loop (fuel : nat) k : safe [] k -> wp (reap_loop fuel) k (fun _ k' => safe [] k').
Proof.
  revert k. induction fuel as [| fuel IH]; intros k Hs x k'; cbn [reap_loop]; [unfold st_ret; by intros [= <- <-] |].
  destruct (List.find _ _) as [[p q] |] eqn:E; [| by intros [= <- <-]].
  apply List.find_some in E as [Hin _]. apply list_elem_of_In, elem_of_map_to_list in Hin.
  intros ([y k1] & Hd & E2)%obind_Ret. eapply IH; [| exact E2]. eapply (safe_drop_messages []); [| exact Hd].
  destruct Hs as [owner Hm]. exists owner. set (k0 := with_ports k _).
  assert (queue_pages q ++ [] ++ all_pages k0 ≡ₚ all_pages k) as Hp.
  { unfold all_pages, k0. simpl. by rewrite <- (gather_lookup queue_pages (k_ports k) p q Hin). }
  destruct Hm as [? [Hnd Hfl] ? Hpg ? ? Hmsg]. split; try done.
  - split; rewrite <- (assoc_L (++)), Hp; done.
  - by rewrite <- (assoc_L (++)), Hp.
  - intros p' q'. simpl. rewrite lookup_delete_Some. intros [_ ?]. by apply (Hmsg p').
Qed.

Lemma safe_finish (c : KM (result Z Z)) k :
  wp c k (fun _ k' => exists e, safe e k') -> wp (finish c) k (fun _ k' => safe [] k').
Proof.
  intros Hc. unfold finish. apply wp_bind. eapply wp_mono; [exact Hc |]. intros r k1 [e Hk1].
  apply wp_bind. intros x k2 E. apply wp_ret. eapply safe_reap_loop; [| exact E].
  eapply safe_drop; [apply submseteq_nil_l | exact Hk1].
Qed.

(** ** Sending *)

#[local] Instance quiet_try {X Y} (c : KM (result X Z)) (f : X -> KM (result Y Z)) :
  Quiet c -> (forall x, Quiet (f x)) -> Quiet (st_try c f).
Proof. intros Hc Hf. apply quiet_bind; [done |]. intros [x | er]; apply _. Qed.
#[local] Instance quiet_take_caps (task ptr : Z) (n : nat) : Quiet (take_caps task ptr n).
Proof. revert ptr. induction n; intros ptr; simpl; apply _. Qed.
#[local] Instance quiet_collect_caps (task : Z) (msg : SendMsg) : Quiet (collect_caps task msg).
Proof. unfold collect_caps. case_match; [apply _ |]. case_match; apply _. Qed.

Lemma take_caps_length (task ptr : Z) (n : nat) k : wp (take_caps task ptr n) k (fun cs _ => (length cs <= n)%nat).
Proof.
  revert ptr k. induction n as [| n IH]; intros ptr k; simpl; [by apply wp_ret |].
  apply wp_bind. intros id k1 _. apply wp_bind. intros c k2 _. apply wp_bind. eapply wp_mono; [apply IH |].
  intros cs k3 Hcs. cbv beta in Hcs. apply wp_ret. destruct c; simpl; lia.
Qed.

Lemma collect_caps_length (task : Z) (msg : SendMsg) k :
  sm_ncaps msg <= MAX_CAPS ->
  wp (collect_caps task msg) k (fun r _ => match r with Ok cs => zlen cs <= MAX_CAPS | Err _ => True end).
Proof.
  intros Hn. unfold collect_caps. case_match; [by apply wp_ret |]. case_match; [by apply wp_ret |].
  apply wp_bind. intros _ k1 _. apply wp_try. intros [u | er] k2 _; [| done].
  apply wp_bind. eapply wp_mono; [apply take_caps_length |]. intros cs k3 Hcs. apply wp_ret.
  cbv beta in Hcs. unfold zlen, MAX_CAPS in *. lia.
Qed.

Lemma addr_space_wp (task : Z) k :
  wp (addr_space task) k (fun sp k' => k' = k /\
    forall r, sp = Some r -> exists t x, tasks (k_sched k) !! t = Some x /\ t_addr_space x = Some r).
Proof.
  intros sp k' [= <- <-]. split; [done |]. intros r Hr. destruct (tasks (k_sched k) !! task) as [x |] eqn:E; [| done].
  by exists task, x.
Qed.

(** The payload of a message lies in the user half. *)
Definition payload_ok (msg : SendMsg) : Prop := user_buf (sm_pages_va msg) (sm_pages_len msg) /\ 0 <= sm_pages_len msg.

Lemma collect_pages_safe k (task : Z) (msg : SendMsg) (cs : list Cap) :
  safe [] k -> payload_ok msg ->
  wp (collect_pages task msg cs) k (fun r k' =>
    match r with
    | Ok (pages, len) => safe pages k' /\ len = PAGE_SIZE * zlen pages /\ zlen pages < 2 ^ 36
    | Err _ => safe [] k'
    end).
Proof.
  intros Hs [[Hv Hend] Hlen]. unfold collect_pages. change (PAGE_SIZE - 1) with 0xFFF. rewrite !land_fff.
  case_match. { apply wp_ret. by vm_compute; split. }
  destruct (sm_pages_va msg =? 0); simpl; [eapply wp_bind_quiet; [apply _ | exact Hs |]; intros; by apply wp_ret |].
  destruct (Z.eqb_spec (sm_pages_va msg mod 4096) 0) as [Hal |]; simpl;
    [| eapply wp_bind_quiet; [apply _ | exact Hs |]; intros; by apply wp_ret].
  destruct (Z.eqb_spec (sm_pages_len msg mod 4096) 0) as [Hll |]; simpl;
    [| eapply wp_bind_quiet; [apply _ | exact Hs |]; intros; by apply wp_ret].
  apply wp_bind. eapply wp_mono; [apply addr_space_wp |]. intros [sp |] k1 [-> Hsp]; [| by apply wp_ret].
  assert (sm_pages_len msg = PAGE_SIZE * (sm_pages_len msg / PAGE_SIZE)) as Hdiv.
  { unfold PAGE_SIZE. pose proof (Z.div_mod (sm_pages_len msg) 4096). lia. }
  assert (0 <= sm_pages_len msg / PAGE_SIZE) as Hpos by (apply Z.div_pos; unfold PAGE_SIZE in *; lia).
  set (n := sm_pages_len msg / PAGE_SIZE) in *.
  apply wp_bind. eapply wp_mono.
  { apply (safe_steal [] k sp (sm_pages_va msg) n); [exact Hs | by apply Hsp | | done].
    unfold user_range, PAGE_SIZE in *. lia. }
  intros [frames | er] k2 Hk2.
  - destruct Hk2 as [Hn Hk2]. rewrite app_nil_r in Hk2. apply wp_ret. split; [done |]. rewrite Hn. split; [done |].
    unfold PAGE_SIZE in *. lia.
  - eapply wp_bind_quiet; [apply _ | exact Hk2 |]. intros; by apply wp_ret.
Qed.

Lemma send_to_safe k (task port : Z) (msg : SendMsg) :
  safe [] k -> length (sm_regs msg) = 6%nat -> sm_ncaps msg <= MAX_CAPS -> payload_ok msg ->
  wp (send_to task port msg) k (fun _ k' => exists e, safe e k').
Proof.
  intros Hs Hr Hn Hp. unfold send_to. apply wp_try. intros r k1 E1.
  pose proof (quiet_wp _ _ _ (quiet_collect_caps task msg) Hs r k1 E1) as Hs1.
  pose proof (collect_caps_length task msg k Hn r k1 E1) as Hcs. destruct r as [cs | er]; [| by exists []].
  apply wp_try. eapply wp_mono; [by apply collect_pages_safe |].
  intros [[pages len] | er] k2 Hk2; [| by exists []]. destruct Hk2 as (Hs2 & Hlen & Hmax).
  apply wp_bind. eapply wp_mono.
  { apply (safe_push []); [simpl; by rewrite app_nil_r |]. by split_and!. }
  intros [u | m] k3 Hk3.
  - apply wp_bind, wp_modify, wp_ret. exists []. by apply safe_sched; [apply wake_all_spaces |].
  - destruct Hk3 as [-> Hk3]. apply wp_bind. eapply wp_mono; [apply (safe_free []), Hk3 |]. intros x k4 Hk4.
    apply wp_ret. by exists [].
Qed.

Lemma load_u64s_length (va : Z) (n : nat) k : wp (load_u64s va n) k (fun l _ => length l = n).
Proof.
  revert va k. induction n as [| n IH]; intros va k; simpl; [by apply wp_ret |]. apply wp_bind. intros x k1 _.
  apply wp_bind. eapply wp_mono; [apply IH |]. intros l k2 Hl. apply wp_ret. simpl. by f_equal.
Qed.

Lemma read_send_msg_wp (ptr : Z) k :
  wp (read_send_msg ptr) k (fun msg k' => k' = k /\ length (sm_regs msg) = 6%nat /\ read_send_msg ptr k = Ret (msg, k)).
Proof.
  assert (wp (read_send_msg ptr) k (fun msg _ => length (sm_regs msg) = 6%nat)) as Hl.
  { apply wp_bind. eapply wp_mono; [apply load_u64s_length |]. intros regs k1 Hl.
    do 4 (apply wp_bind; intros ? ? _). by apply wp_ret. }
  intros msg k' E. destruct (reader k k msg k' ltac:(done) E) as [-> E']. split; [done |]. split; [by apply (Hl msg k) | done].
Qed.

Lemma sys_send_safe k (cap_id ptr : Z) :
  safe [] k -> (forall msg, read_send_msg ptr k = Ret (msg, k) -> payload_ok msg) ->
  wp (sys_send cap_id ptr) k (fun _ k' => safe [] k').
Proof.
  intros Hs Hp. apply safe_finish. case_match; [apply wp_ret; by exists [] |].
  apply wp_bind. eapply wp_mono; [apply read_send_msg_wp |]. intros msg k1 (-> & Hr & E).
  destruct (Z.ltb_spec MAX_CAPS (sm_ncaps msg)); [apply wp_ret; by exists [] |].
  apply wp_try. intros [task | er] k1 E1; (destruct (reader k k _ _ ltac:(done) E1) as [-> _]); [| by exists []].
  apply wp_bind. intros [c |] k1 E2; injection E2 as _ <-; [| apply wp_ret; by exists []].
  case_match; [apply wp_ret; by exists [] |]. case_match; [| apply wp_ret; by exists []].
  by apply send_to_safe; [| | | apply Hp].
Qed.

(** ** Receiving *)

Lemma deliver_caps_safe extra k (task out : Z) (cs : list Cap) :
  safe extra k -> user_buf out (4 * zlen cs) -> wp (deliver_caps task out cs) k (fun _ k' => safe extra k').
Proof.
  revert out k. induction cs as [| c cs IH]; intros out k Hs [Ho Hend]; simpl; [by apply wp_ret |].
  rewrite zlen_cons in Hend. assert (0 <= zlen cs) by (unfold zlen; lia).
  eapply wp_bind_quiet; [apply _ | exact Hs |]. intros id k1 Hs1. apply wp_bind.
  eapply wp_mono; [apply safe_store; [exact Hs1 | | apply le_bytes_ok] |].
  { unfold zlen. rewrite le_bytes_length. split; lia. }
  intros x k2 Hs2. destruct cs as [| c' cs]; [by apply wp_ret |].
  assert (0 < zlen (c' :: cs)) by (rewrite zlen_cons; unfold zlen; lia).
  unfold wrap. rewrite Z.mod_small by lia. apply IH; [done | split; lia].
Qed.

(** The frames are at [va] and up in the space of [task]. *)
Definition pages_at k (task va : Z) (frames : list Z) : Prop :=
  (0 <= va /\ va + zlen frames * PAGE_SIZE <= 2 ^ 46) /\ va mod 4096 = 0 /\
  forall x sp, tasks (k_sched k) !! task = Some x -> t_addr_space x = Some sp -> installed (vm_mem (k_vmm k)) sp va 0 frames.

(** A receive that finds an address range but no frames for the page tables it
    needs there: [install_pages] stops half-way. *)
Definition install_fails k (task : Z) (m : Message) : Prop :=
  exists x sp va er v, tasks (k_sched k) !! task = Some x /\ t_addr_space x = Some sp /\
    find_user_vm_range (vm_mem (k_vmm k)) sp (div_ceil (m_len m) PAGE_SIZE) = Ret (Some va) /\
    install_pages sp va (m_pages m) (k_vmm k) = Ret (Err er, v).

Lemma deliver_pages_safe k (task : Z) (m : Message) :
  safe (m_pages m) k -> msg_ok m -> 0 < m_len m ->
  wp (deliver_pages task m) k (fun r k' =>
    match r with
    | Ok va => safe [] k' /\ pages_at k' task va (m_pages m) /\
        forall x sp, tasks (k_sched k') !! task = Some x -> t_addr_space x = Some sp -> bytes_kept k k' sp
    | Err _ => install_fails k task m \/ safe [] k' end).
Proof.
  intros Hs (_ & _ & Hlen & Hmax) Hpos. unfold deliver_pages, install_fails.
  assert (div_ceil (m_len m) PAGE_SIZE = zlen (m_pages m)) as Hn.
  { rewrite Hlen. unfold div_ceil, PAGE_SIZE. replace (4096 * zlen (m_pages m) + 4096 - 1) with (4095 + zlen (m_pages m) * 4096) by lia.
    rewrite Z.div_add by lia. change (4095 / 4096) with 0. lia. }
  rewrite Hn. assert (0 < zlen (m_pages m)) by (unfold PAGE_SIZE in Hlen; lia).
  apply wp_bind. intros sp0 k1 E0. destruct (addr_space_wp task k sp0 k1 E0) as [-> Hsp].
  injection E0 as E0. destruct sp0 as [sp |].
  2: { apply wp_bind. eapply wp_mono; [apply (safe_free []); by rewrite app_nil_r |]. intros x k1 Hk1. apply wp_ret. by right. }
  apply wp_bind. intros mem k1 E1. unfold on_vmm, get_mem in E1. injection E1 as <- <-.
  replace (with_vmm k (k_vmm k)) with k by (by destruct k).
  apply wp_bind, wp_lift. intros [va |] Hva; [| apply wp_bind; eapply wp_mono;
    [apply (safe_free []); by rewrite app_nil_r | intros x k1 Hk1; apply wp_ret; by right]].
  destruct (find_user_vm_range_ok (vm_mem (k_vmm k)) sp (zlen (m_pages m))) as (o & Ho & Hans); [lia |].
  rewrite Hva in Ho. injection Ho as <-. destruct Hans as (j & -> & [Hj Hrun] & Hfree & _).
  assert (user_range (ipc_page j) (zlen (m_pages m)) /\ ipc_page j mod 4096 = 0 /\
    0 <= ipc_page j /\ ipc_page j + zlen (m_pages m) * PAGE_SIZE <= 2 ^ 46) as (Hrg & Hal & Hsmall).
  { unfold user_range, ipc_page, USER_IPC_BASE, PAGE_SIZE. rewrite Z.mod_add by lia. split; [lia |]. split; [done | lia]. }
  apply wp_bind. intros res k2 E2.
  pose proof (safe_install [] k sp (ipc_page j) (m_pages m) ltac:(by rewrite app_nil_r) (Hsp sp eq_refl) Hrg Hal res k2 E2) as Hk2.
  assert (k_sched k2 = k_sched k) as Hsc by (unfold on_vmm in E2; by apply obind_Ret in E2 as ([? ?] & _ & [= _ <-])).
  destruct res as [u | er].
  2: { apply wp_bind. intros x k3 _. apply wp_ret. left. destruct (tasks (k_sched k) !! task) as [y |] eqn:Ey; [| done].
       unfold on_vmm in E2. apply obind_Ret in E2 as ([? v] & E2 & [= -> _]). by exists y, sp, (ipc_page j), er, v. }
  apply wp_ret. destruct Hk2 as (Hk2 & Hinst & Hkept).
  assert (forall x sp', tasks (k_sched k2) !! task = Some x -> t_addr_space x = Some sp' -> sp' = sp) as Hspe.
  { intros x sp' Hx Hsp'. rewrite Hsc in Hx. rewrite Hx, Hsp' in E0. by injection E0. }
  split; [done |]. split; [split; [done |]; split; [done |] |]; intros x sp' Hx Hsp'; rewrite (Hspe x sp' Hx Hsp'); [done |].
  apply Hkept. intros i Hix. pose proof (Hfree (j + i) ltac:(lia)) as Hfr. rewrite is_mapped_4k_leaf in Hfr.
  apply bool_decide_eq_false in Hfr. unfold ipc_page in *.
  replace (USER_IPC_BASE + j * PAGE_SIZE + i * PAGE_SIZE) with (USER_IPC_BASE + (j + i) * PAGE_SIZE) by lia.
  by apply eq_None_not_Some.
Qed.

Definition half_delivered k (task : Z) (m : Message) (ptr : Z) : Prop :=
  exists out u k1, read_recv_msg ptr k = Ret (out, k) /\ put_caps task m out k = Ret (u, k1) /\ install_fails k1 task m.

Lemma deliver_safe k (task : Z) (m : Message) (ptr : Z) :
  safe (m_pages m) k -> msg_ok m -> user_buf ptr 88 ->
  (forall out, read_recv_msg ptr k = Ret (out, k) -> user_buf (rm_caps_out out) (4 * MAX_CAPS)) ->
  wp (deliver task m ptr) k (fun _ k' => half_delivered k task m ptr \/ safe [] k').
Proof.
  intros Hs Hm Hptr Hbuf. unfold deliver. apply wp_bind. intros out k1 E.
  destruct (reader k k out k1 ltac:(done) E) as [-> E']. specialize (Hbuf out E').
  case_match. { apply wp_bind. eapply wp_mono; [apply (safe_free []); by rewrite app_nil_r |]. intros x k1 Hk1. apply wp_ret. by right. }
  destruct Hm as (Hregs & Hcaps & Hlen & Hmax). apply wp_bind. intros x k1 Ek1. assert (safe (m_pages m) k1) as Hs1.
  { revert x k1 Ek1. unfold put_caps. case_bool_decide; [by apply wp_ret |]. eapply wp_bind_quiet; [apply _ | exact Hs |]. intros x k1 Hs1.
    apply deliver_caps_safe; [done |]. unfold user_buf, MAX_CAPS in *. lia. }
  apply wp_try.
  apply (wp_mono _ _ (fun r k' => match r with Ok _ => safe [] k' | Err _ => install_fails k1 task m \/ safe [] k' end)).
  - destruct (Z.ltb_spec 0 (m_len m)).
    + apply wp_try. eapply wp_mono; [by apply deliver_pages_safe |]. intros [va | er] k2 Hk2; [| done].
      apply wp_ret. apply Hk2.
    + apply wp_bind. eapply wp_mono; [apply (safe_free []); by rewrite app_nil_r |]. intros y k2 Hk2. by apply wp_ret.
  - intros [[va len] | er] k2 Hk2; [| destruct Hk2 as [? | ?]; [left; by exists out, x, k1 | by right]]. apply wp_bind. eapply wp_mono; [apply safe_store; [exact Hk2 | |] |].
    + destruct (m_regs m) as [| r0 [| r1 [| r2 [| r3 [| r4 [| r5 [|]]]]]]] eqn:Er; try discriminate Hregs. exact Hptr.
    + apply Forall_bind, Forall_true. intros w. apply le_bytes_ok.
    + intros y k3 Hk3. apply wp_ret. by right.
Qed.

Lemma safe_finish_or (c : KM (result Z Z)) (P : Prop) k :
  wp c k (fun _ k' => P \/ safe [] k') -> wp (finish c) k (fun _ k' => P \/ safe [] k').
Proof.
  intros Hc. unfold finish. apply wp_bind. eapply wp_mono; [exact Hc |]. intros r k1 Hk1.
  apply wp_bind. intros x k2 E. apply wp_ret. destruct Hk1 as [? | Hk1]; [by left | right].
  by eapply safe_reap_loop; [| exact E].
Qed.

(** A receive buffer in the user half of the running program. *)
Definition buffer_ok k (ptr : Z) : Prop :=
  user_buf ptr 88 /\ forall out, read_recv_msg ptr k = Ret (out, k) -> user_buf (rm_caps_out out) (4 * MAX_CAPS).

Lemma buffer_ok_same k k' (ptr : Z) : same_mem k k' -> buffer_ok k ptr -> buffer_ok k' ptr.
Proof.
  intros [Hv Hs] [Hb Ho]. split; [done |]. intros out E. apply Ho.
  destruct (reader k' k out k' ltac:(done) E) as [_ E']. exact E'.
Qed.

(** The receive that is about to run is one of these. *)
Definition half_received k (task port ptr : Z) : Prop :=
  exists m k1 k2, port_pop port k = Ret (Some m, k1) /\ set_receiver task None k1 = Ret (tt, k2) /\
    half_delivered k2 task m ptr.

Lemma recv_turn_safe k (task port ptr : Z) :
  safe [] k -> buffer_ok k ptr -> wp (recv_turn task port ptr) k (fun _ k' => half_received k task port ptr \/ safe [] k').
Proof.
  intros Hs Hb. unfold recv_turn. apply wp_bind. intros o k1 Eo. pose proof (safe_pop [] k port Hs o k1 Eo) as [Hsame Hk1].
  destruct o as [m |].
  - destruct Hk1 as [Hm Hk1]. rewrite app_nil_r in Hk1. apply wp_bind. intros x k2 E2. pose proof E2 as E2'. injection E2 as _ <-.
    apply wp_bind. eapply wp_mono.
    { apply (safe_finish_or _ (half_delivered (with_receivers k1 (partial_alter (fun _ => None) task (k_receivers k1))) task m ptr)).
      apply deliver_safe; [by apply (safe_same _ k1) | done | apply Hb |].
      eapply (buffer_ok_same k); [exact Hsame | exact Hb]. }
    intros v k3 [? | Hk3]; apply wp_ret; [left; by eexists m, k1, _ | by right].
  - subst k1. apply wp_bind, wp_modify, wp_bind, wp_modify, wp_ret. right.
    apply safe_sched; [apply block_on_spaces |]. by apply (safe_same _ k).
Qed.

(** ** The system *)

(** The spaces of the tasks, and the one that is active, are owned. *)
Definition spaces_owned owner k : Prop :=
  (forall t x r, tasks (k_sched k) !! t = Some x -> t_addr_space x = Some r -> user_space owner r) /\
  user_space owner (active k).

(** The IPC calls with user buffers in the user half; stores of the running
    program; work of the scheduler; and other work on address spaces, such as
    the one of [map_anon] or [spawn], that gives no frame in flight away.  The
    receives that [install_fails] describes are left out. *)
Inductive frame_step : Kernel A -> Kernel A -> Prop :=
  | fs_port_create k v k' : sys_port_create k = Ret (v, k') -> frame_step k k'
  | fs_cap_drop k id v k' : sys_cap_drop id k = Ret (v, k') -> frame_step k k'
  | fs_cap_dup k id mask v k' : sys_cap_dup id mask k = Ret (v, k') -> frame_step k k'
  | fs_name k op ptr len id v k' : sys_name op ptr len id k = Ret (v, k') -> frame_step k k'
  | fs_send k id ptr v k' :
      (forall msg, read_send_msg ptr k = Ret (msg, k) -> payload_ok msg) ->
      sys_send id ptr k = Ret (v, k') -> frame_step k k'
  | fs_recv k id ptr v k' :
      buffer_ok k ptr ->
      (forall t c p, CURRENT (k_sched k) = Some t -> cap_get (table k t) id = Some c -> as_port c = Some p ->
         ~ half_received k t p ptr) ->
      sys_recv id ptr k = Ret (v, k') -> frame_step k k'
  | fs_resume k v k' :
      (forall t p ptr, CURRENT (k_sched k) = Some t -> k_receivers k !! t = Some (p, ptr) ->
         buffer_ok k ptr /\ ~ half_received k t p ptr) ->
      recv_resume k = Ret (v, k') -> frame_step k k'
  | fs_store k va b u k' : 0 <= va < 2 ^ 47 -> byte_ok b -> cpu_store va b k = Ret (u, k') -> frame_step k k'
  | fs_sched k s : keeps_spaces (k_sched k) s -> frame_step k (with_sched k s)
  | fs_spaces k v s :
      (forall owner, pt_inv (k_vmm k) owner -> spaces_owned owner k ->
         exists P owner', moves P (fun _ => False) (k_vmm k) owner v owner' /\
           spaces_owned owner' (with_sched (with_vmm k v) s)) ->
      frame_step k (with_sched (with_vmm k v) s).

Lemma sys_recv_safe k (cap_id ptr : Z) :
  safe [] k -> buffer_ok k ptr ->
  (forall t c p, CURRENT (k_sched k) = Some t -> cap_get (table k t) cap_id = Some c -> as_port c = Some p ->
     ~ half_received k t p ptr) ->
  wp (sys_recv cap_id ptr) k (fun _ k' => safe [] k').
Proof.
  intros Hs Hb Hh. unfold sys_recv.
  assert (forall code, wp (let* v := finish (early code) in st_ret (Done v)) k (fun _ k' => safe [] k')) as Hfail.
  { intros code. apply wp_bind. eapply wp_mono; [apply safe_finish, wp_ret; by exists [] |].
    intros v k' Hk'. by apply wp_ret. }
  case_match; [apply Hfail |]. apply wp_bind. intros [task | er] k1 E1;
    (destruct (reader k k _ _ ltac:(done) E1) as [-> E1']); [| apply Hfail].
  unfold current in E1'. destruct (CURRENT (k_sched k)) as [t |] eqn:Ec; [| done]. injection E1' as ->.
  apply wp_bind. intros [c |] k1 E2; injection E2 as Ec2 <-; [| apply Hfail].
  case_match; [apply Hfail |]. destruct (as_port c) as [p |] eqn:Ep; [| apply Hfail].
  eapply wp_mono; [by apply recv_turn_safe |]. intros v k' [Hf | ?]; [| done]. by destruct (Hh task c p eq_refl Ec2 Ep).
Qed.

Lemma quiet_finish_safe (c : KM (result Z Z)) k : safe [] k -> Quiet c -> wp (finish c) k (fun _ k' => safe [] k').
Proof. intros Hs Hc. apply safe_finish. eapply wp_mono; [by apply quiet_wp |]. intros x k' Hk'. by exists []. Qed.

Lemma safe_port_new k : safe [] k -> wp port_new k (fun _ k' => safe [] k').
Proof.
  intros Hs x k' E. injection E as _ <-. eapply safe_same;
    [| | apply (safe_queue [] [] k (k_next_port k) []); [exact Hs | apply submseteq_nil_l | constructor]]; done.
Qed.

Lemma sys_name_safe k (op ptr len id : Z) : safe [] k -> wp (sys_name op ptr len id) k (fun _ k' => safe [] k').
Proof.
  intros Hs. apply quiet_finish_safe; [done |]. case_match; [apply _ |]. apply quiet_bind; [apply _ |]. intros name.
  case_match; [apply _ |]. apply quiet_try; [apply _ |]. intros task. case_match; [| case_match; [| apply _]].
  - apply quiet_bind; [apply _ |]. intros [c |]; [| apply _]. case_match; [| apply _]. apply quiet_bind; [apply _ |]. intros k0.
    case_match; [apply _ |]. apply quiet_bind; [apply _ |]. intros [u | er]; apply _.
  - apply quiet_bind; [apply _ |]. intros [p |]; apply _.
Qed.

Lemma frame_step_safe k k' : frame_step k k' -> safe [] k -> safe [] k'.
Proof.
  intros Hst Hs. destruct Hst as [k v k' E | k id v k' E | k id mask v k' E | k op ptr len id v k' E | k id ptr v k' Hp E
    | k id ptr v k' Hb Hh E | k v k' Hb E | k va b u k' Hva Hbo E | k s Hk | k v s Hk].
  - revert v k' E. apply safe_finish, wp_try. intros [task | er] k1 E1;
      (destruct (reader k k _ _ ltac:(done) E1) as [-> _]); [| by exists []].
    apply wp_bind. eapply wp_mono; [by apply safe_port_new |]. intros p k1 Hk1.
    eapply wp_bind_quiet; [apply _ | exact Hk1 |]. intros id k2 Hk2. apply wp_ret. by exists [].
  - revert v k' E. apply quiet_finish_safe; [done |]. apply quiet_try; [apply _ |]. intros task.
    apply quiet_bind; [apply _ |]. intros [c |]; apply _.
  - revert v k' E. apply quiet_finish_safe; [done |]. apply quiet_try; [apply _ |]. intros task.
    apply quiet_bind; [apply _ |]. intros [c |]; [| apply _]. case_match; [apply _ |]. case_match; apply _.
  - by eapply sys_name_safe.
  - by eapply sys_send_safe.
  - by eapply sys_recv_safe.
  - unfold recv_resume in E. destruct (CURRENT (k_sched k)) as [t |] eqn:Ec; [| done].
    destruct (k_receivers k !! t) as [[p ptr] |] eqn:Er; [| done].
    destruct (Hb t p ptr eq_refl Er) as [Hb1 Hb2]. by destruct (recv_turn_safe k t p ptr Hs Hb1 v k' E).
  - by eapply safe_cpu_store.
  - by apply safe_sched.
  - destruct Hs as [owner Hm].
    destruct (Hk owner (mi_pt _ _ _ Hm) (conj (mi_spaces _ _ _ Hm) (mi_active _ _ _ Hm))) as (P & owner' & Hmv & Hsp & Hact).
    exists owner'. destruct (minv_moves P owner owner' [] k v Hm Hmv). by split.
Qed.
End Frames.
