(* ===== verification/IpcSpec.v ===== *)
(** * Properties of the IPC layer

    What the capability and the frame invariants give for every state the
    system reaches, what a send does on each of its branches, and two paths on
    which resources are lost or freed twice. *)

From S2P Require Import Prelude Bitmap Bytes Utf8 Frames BootInfo Pmm X86 Vmm VmmInv VmmProps VmmRanges VmmCopy VmmSpec.
From S2P Require Import Sched SchedProps Kernel Ipc IpcCaps IpcFrames.

Lemma count_sub (f : Cap -> bool) (l l' : list Cap) : l ⊆+ l' -> (count f l <= count f l')%nat.
Proof.
  intros [r Hp]%submseteq_Permutation. unfold count. rewrite Hp, filter_app, length_app. lia.
Qed.

Section Spec.
  Context {A : Type} `{FrameAllocator A} `{PageTableEntry} `{!PageTableEntryLaws} `{KernelMemory A}.
  Implicit Types k : Kernel A.

(** C2 Capabilities cannot be forged: in every state reached from boot by IPC
    calls, spawns and arbitrary work of the memory manager and the scheduler,
    at most one capability in the whole system (tables and queued messages)
    carries RECV for a port, at most one is the registrar, every port a
    capability names is alive, and no queue exceeds 16 messages. *)
Theorem capabilities_unforgeable (v : Vmm A) (s : Sched) (init first_port : Z) k :
  rtc ipc_step (boot_kernel v s init first_port) k ->
  (forall p, (count (recv_for p) (all_caps k) <= 1)%nat) /\ (count is_registrar (all_caps k) <= 1)%nat /\
  (forall c p, c ∈ all_caps k -> as_port c = Some p -> is_Some (k_ports k !! p)) /\
  (forall p q, k_ports k !! p = Some q -> zlen q <= MAX_IN_FLIGHT).
Proof.
  intros Hr. destruct (ipc_reachable_ok [registrar] _ k Hr) as (B & Hk & [G1 G2]).
  - apply boot_kernel_ok.
  - split; [intros p; vm_compute; lia | vm_compute; lia].
  - pose proof (ki_caps _ _ _ _ Hk) as Hs. simpl in Hs. split_and!.
    + intros p. etrans; [by apply count_sub | apply G1].
    + etrans; [by apply count_sub | apply G2].
    + intros c p Hc. apply (ki_ports _ _ _ _ Hk c p). exact Hc.
    + apply (ki_queue _ _ _ _ Hk).
Qed.

(** An address space in use: that of a task, or the active one. *)
Definition in_use k (r : Z) : Prop :=
  (exists t x, tasks (k_sched k) !! t = Some x /\ t_addr_space x = Some r) \/ r = active k.
(** Frame [f] is on the walk of a user address of the space [r]: the PML4, one
    of the tables below it, or the page. *)
Definition on_walk k (r f : Z) : Prop :=
  exists va n, 0 <= va < 2 ^ 47 /\ descend (vm_mem (k_vmm k)) r (take n (path3 va ++ [pt_idx va])) = Some f.

Lemma minv_in_use (managed : Z -> Z -> bool) owner (e : list Z) k (r : Z) :
  minv managed owner e k -> in_use k r -> VmmRanges.user_space managed owner r.
Proof. intros Hm [(t & x & Ht & Hx) | ->]; [by apply (mi_spaces _ _ _ _ Hm t x) | apply (mi_active _ _ _ _ Hm)]. Qed.

Lemma frame_steps_safe (managed : Z -> Z -> bool) k k' :
  rtc (frame_step managed) k k' -> safe managed [] k -> safe managed [] k'.
Proof. induction 1; eauto using frame_step_safe. Qed.

(** C6 Page stealing is memory safe.  Take any sequence of IPC calls on user
    buffers, stores of programs and other work on address spaces, in which no
    receive fails half-way through mapping the pages of its message.  In the
    state it leads to, the frames of queued messages are distinct; each is out
    of the allocator, and is neither a page nor a page table in the user half
    of any address space in use.  What is a page or a page table there is out
    of the allocator too, and no frame is behind two user pages, be it of one
    address space or of two. *)
Theorem message_frames_exclusive (managed : Z -> Z -> bool) k k' :
  safe managed [] k -> rtc (frame_step managed) k k' ->
  NoDup (all_pages k') /\
  (forall f, f ∈ all_pages k' ->
     ~ fa_avail (vm_frames (k_vmm k')) f /\ forall r, in_use k' r -> ~ on_walk k' r f) /\
  (forall r f, in_use k' r -> on_walk k' r f -> ~ fa_avail (vm_frames (k_vmm k')) f) /\
  (forall r1 r2 va1 va2 p1 p2, in_use k' r1 -> in_use k' r2 -> 0 <= va1 < 2 ^ 47 -> 0 <= va2 < 2 ^ 47 ->
     phys_for_virt (vm_mem (k_vmm k')) r1 va1 = Some p1 -> phys_for_virt (vm_mem (k_vmm k')) r2 va2 = Some p2 ->
     frame_of p1 = frame_of p2 -> r1 = r2 /\ va1 / 4096 = va2 / 4096).
Proof.
  intros Hs Hr. destruct (frame_steps_safe managed k k' Hr Hs) as [owner Hm].
  pose proof (mi_pt _ _ _ _ Hm) as Hi. destruct (mi_flight _ _ _ _ Hm) as [Hnd Hfl]. rewrite Forall_forall in Hfl.
  assert (forall r f, in_use k' r -> on_walk k' r f -> is_Some (owner !! f)) as Hown.
  { intros r f Hu (va & n & Hva & Hd). eapply (walk_owned managed (k_vmm k')); [done | by eapply minv_in_use | done | done]. }
  split_and!; [done | | |].
  - intros f Hf. destruct (Hfl f Hf) as [_ [Hn Ha]]. split; [done |]. intros r Hu Hw.
    destruct (Hown r f Hu Hw) as [o Ho]. congruence.
  - intros r f Hu Hw. destruct (Hown r f Hu Hw) as [o Ho]. apply (inv_frame _ _ _ Hi f o Ho).
  - intros r1 r2 va1 va2 p1 p2 Hu1 Hu2. eapply (frames_private managed (k_vmm k')); [done | by eapply minv_in_use ..].
Qed.

Lemma boot_safe (managed : Z -> Z -> bool) (v : Vmm A) (s : Sched) (init first_port : Z) (owner : owner_map) (r : Z) :
  VmmInv.pt_inv v owner managed -> pages_ram v owner ->
  (forall t x r, tasks s !! t = Some x -> t_addr_space x = Some r -> VmmRanges.user_space managed owner r) ->
  cpu_pml4 s = Some r -> VmmRanges.user_space managed owner r -> safe managed [] (boot_kernel v s init first_port).
Proof.
  intros Hi Hr Hsp Hc Hu. exists owner. assert (all_pages (boot_kernel v s init first_port) = []) as Hall.
  { unfold all_pages, gather. simpl. by rewrite map_to_list_empty. }
  split; [done | | done | | done | | done].
  - rewrite Hall. split; constructor.
  - rewrite Hall. constructor.
  - unfold active. simpl. by rewrite Hc.
Qed.

(** ** A receive that runs out of memory *)

Lemma free_pages_avail (l : list Z) k :
  fa_ok (vm_frames (k_vmm k)) -> NoDup l ->
  Forall (fun g => frame_addr g /\ is_ram (k_vmm k) g /\ ~ fa_avail (vm_frames (k_vmm k)) g) l ->
  exists k', free_pages l k = Ret (tt, k') /\ vm_mem (k_vmm k') = vm_mem (k_vmm k) /\
    forall g, frame_addr g -> fa_avail (vm_frames (k_vmm k')) g <-> g ∈ l \/ fa_avail (vm_frames (k_vmm k)) g.
Proof.
  revert k. induction l as [| f l IH]; intros k Hok Hnd Hall.
  { exists k. split; [done |]. split; [done |]. intros g _. rewrite elem_of_nil. tauto. }
  apply NoDup_cons in Hnd as [Hf Hnd]. apply Forall_cons in Hall as [(Hfa & [Hram Hz] & Hna) Hall].
  destruct (fa_free_spec _ f Hok Hfa Hz Hram Hna) as (fa & Efa & Hok' & Hram' & Hav). cbn [free_pages]. rewrite Efa. cbn [obind].
  destruct (IH (with_vmm k (mkVmm (vm_mem (k_vmm k)) fa (KERNEL_AS (k_vmm k)) (MMIO_NEXT (k_vmm k)) (CR3 (k_vmm k)))))
    as (k' & E & Hmem & Hav'); [done | done | |].
  - rewrite Forall_forall in Hall |- *. intros g Hg. destruct (Hall g Hg) as (Hga & [Hgr Hgz] & Hgn).
    split; [done |]. split; [split; [by apply Hram' | done] |]. simpl. rewrite Hav by done. intros [-> | ?]; done.
  - exists k'. split; [exact E |]. split; [exact Hmem |]. intros g Hg. rewrite Hav' by done. simpl.
    rewrite Hav, elem_of_cons by done. tauto.
Qed.

(** A receive that runs out of page-table frames half-way frees frames that are
    mapped: when [install_pages] fails after it mapped page [f] of the message,
    the call returns ENOMEM, [f] goes back to the allocator, and the receiver
    keeps the mapping, so the next owner of [f] shares it with the receiver. *)
Theorem recv_failure_frees_mapped_frame k (task : Z) (x : Task) (m : Message) (sp va : Z) (er : MapError) (v1 : Vmm A) (f : Z) :
  tasks (k_sched k) !! task = Some x -> t_addr_space x = Some sp ->
  find_user_vm_range (vm_mem (k_vmm k)) sp (div_ceil (m_len m) PAGE_SIZE) = Ret (Some va) ->
  install_pages sp va (m_pages m) (k_vmm k) = Ret (Err er, v1) ->
  fa_ok (vm_frames v1) -> NoDup (m_pages m) ->
  Forall (fun g => frame_addr g /\ is_ram v1 g /\ ~ fa_avail (vm_frames v1) g) (m_pages m) ->
  f ∈ m_pages m -> phys_for_virt (vm_mem v1) sp va = Some f ->
  exists k', deliver_pages task m k = Ret (Err ENOMEM, k') /\
    fa_avail (vm_frames (k_vmm k')) f /\ phys_for_virt (vm_mem (k_vmm k')) sp va = Some f.
Proof.
  intros Ht Hx Hfind Hins Hok Hnd Hall Hf Hmap.
  destruct (free_pages_avail (m_pages m) (with_vmm k v1)) as (k' & Efree & Hmem & Hav); [done .. |].
  exists k'. rewrite Hmem. split; [| split; [| exact Hmap]].
  - unfold deliver_pages. rewrite (st_bind_step _ _ k k (Some sp)) by (unfold addr_space; by rewrite Ht, Hx).
    rewrite (st_bind_step _ _ k k (vm_mem (k_vmm k))) by (unfold on_vmm, get_mem; simpl; by destruct k).
    rewrite (st_bind_step _ _ k k (Some va)) by (unfold st_lift; by rewrite Hfind).
    rewrite (st_bind_step _ _ k (with_vmm k v1) (Err er)) by (unfold on_vmm; by rewrite Hins).
    unfold drop_message. by rewrite (st_bind_step _ _ _ k' tt Efree).
  - apply Hav; [| by left]. rewrite Forall_forall in Hall. by destruct (Hall f Hf).
Qed.

(** ** What a send does *)

Definition tables_ok k : Prop := forall t tbl, k_caps k !! t = Some tbl -> ids_ok tbl.

Lemma table_ok k (t : Z) : tables_ok k -> ids_ok (table k t).
Proof.
  intros Hk. unfold table. destruct (k_caps k !! t) as [tbl |] eqn:E; simpl; [by apply (Hk t) |].
  split; [simpl; lia |]. intros id [c Hc]. simpl in Hc. by rewrite lookup_empty in Hc.
Qed.

Lemma held_with_table k (t : Z) (tbl : CapTable) :
  table_caps (table k t) ++ held (with_table k t tbl) ≡ₚ table_caps tbl ++ held k.
Proof.
  unfold held, table. simpl. rewrite gather_insert. destruct (k_caps k !! t) as [t0 |] eqn:E; simpl.
  - rewrite (gather_lookup table_caps (k_caps k) t t0 E). solve_Permutation.
  - by rewrite delete_id.
Qed.

Lemma tables_ok_with k (t : Z) (tbl : CapTable) : tables_ok k -> ids_ok tbl -> tables_ok (with_table k t tbl).
Proof.
  intros Hk Ht t' tbl'. simpl. rewrite lookup_insert_Some. intros [[_ <-] | [_ ?]]; [done | by apply (Hk t')].
Qed.

(** Only the tables differ. *)
Definition only_caps k k' : Prop :=
  k_vmm k' = k_vmm k /\ k_sched k' = k_sched k /\ k_ports k' = k_ports k /\ k_next_port k' = k_next_port k /\
  REGISTRY k' = REGISTRY k /\ k_receivers k' = k_receivers k.
Definition others_kept k k' (task : Z) : Prop := forall t, t <> task -> table k' t = table k t.

(** The capabilities with these ids have left the table of the task. *)
Definition caps_gone k k' (task : Z) (ids : list Z) : Prop :=
  (forall id, cap_get (table k' task) id = if decide (id ∈ ids) then None else cap_get (table k task) id) /\
  next (table k' task) = next (table k task) /\ others_kept k k' task.
(** [cs] has been added to the table of the task, under ids not used before. *)
Definition caps_added k k' (task : Z) (cs : list Cap) : Prop :=
  (forall id, cap_get (table k' task) id =
     if next (table k task) <=? id then cs !! Z.to_nat (id - next (table k task)) else cap_get (table k task) id) /\
  next (table k' task) = next (table k task) + zlen cs /\ others_kept k k' task.
(** The capabilities with these ids are back, under ids not used before. *)
Definition caps_renamed k k' (task : Z) (ids : list Z) (cs : list Cap) : Prop :=
  (forall id, cap_get (table k' task) id =
     if next (table k task) <=? id then cs !! Z.to_nat (id - next (table k task))
     else if decide (id ∈ ids) then None else cap_get (table k task) id) /\
  others_kept k k' task.

Lemma table_with k (t t' : Z) (tbl : CapTable) : table (with_table k t tbl) t' = if decide (t' = t) then tbl else table k t'.
Proof.
  unfold table. simpl. destruct (decide (t' = t)) as [-> |]; [by rewrite lookup_insert_eq | by rewrite lookup_insert_ne].
Qed.

Lemma only_caps_refl k : only_caps k k.
Proof. done. Qed.
Lemma only_caps_trans k1 k2 k3 : only_caps k1 k2 -> only_caps k2 k3 -> only_caps k1 k3.
Proof. intros (? & ? & ? & ? & ? & ?) (? & ? & ? & ? & ? & ?). split_and!; congruence. Qed.
Lemma only_caps_mem k k' : only_caps k k' -> same_mem k k'.
Proof. by intros (? & ? & _). Qed.

Lemma cap_get_fresh k (task id : Z) : tables_ok k -> next (table k task) <= id -> cap_get (table k task) id = None.
Proof.
  intros Hk Hid. destruct (table_ok k task Hk) as [_ Hids]. unfold cap_get.
  destruct (slots _ !! id) eqn:E; [| done]. specialize (Hids id ltac:(by rewrite E)). lia.
Qed.

(** One [install]. *)
Lemma caps_install_one k (task id : Z) (c : Cap) k' :
  tables_ok k -> caps_install task c k = Ret (id, k') ->
  id = next (table k task) /\ only_caps k k' /\ tables_ok k' /\ caps_added k k' task [c].
Proof.
  intros Hk. unfold caps_install. intros ([id' t] & E & [= <- <-])%obind_Ret.
  destruct (install_spec _ _ _ _ (table_ok k task Hk) E) as (Hids & _).
  unfold install, ichecked in E. destruct (ifits 32 (next (table k task) + 1)); [| done]. cbn [obind] in E. injection E as <- <-.
  split; [done |]. split; [done |]. split; [by apply tables_ok_with |]. unfold caps_added, others_kept. split_and!.
  - intros id. rewrite table_with, decide_True by done. unfold cap_get. simpl.
    destruct (Z.leb_spec (next (table k task)) id) as [Hle | Hlt]; [| by rewrite lookup_insert_ne by lia].
    destruct (decide (id = next (table k task))) as [-> | Hne]; [by rewrite lookup_insert_eq, Z.sub_diag |].
    rewrite lookup_insert_ne by done. rewrite lookup_ge_None_2 by (simpl; lia). by apply cap_get_fresh.
  - rewrite table_with, decide_True by done. done.
  - intros t' Hne. by rewrite table_with, decide_False.
Qed.

Lemma caps_added_cons k k1 k' (task : Z) (c : Cap) (cs : list Cap) :
  caps_added k k1 task [c] -> caps_added k1 k' task cs -> caps_added k k' task (c :: cs).
Proof.
  intros (A1 & A2 & A3) (B1 & B2 & B3). change (zlen [c]) with 1 in A2. unfold caps_added. split_and!.
  - intros id. rewrite B1, A1, A2. destruct (Z.leb_spec (next (table k task) + 1) id), (Z.leb_spec (next (table k task)) id); try lia.
    + replace (Z.to_nat (id - next (table k task))) with (S (Z.to_nat (id - (next (table k task) + 1)))) by lia. done.
    + by assert (id - next (table k task) = 0) as -> by lia.
    + done.
  - rewrite B2, A2, zlen_cons. lia.
  - intros t Hne. by rewrite B3, A3.
Qed.

Lemma caps_added_nil k (task : Z) : tables_ok k -> caps_added k k task [].
Proof.
  intros Hk. unfold caps_added. split_and!; [| unfold zlen; simpl; lia | done]. intros id.
  destruct (Z.leb_spec (next (table k task)) id); [by apply cap_get_fresh | done].
Qed.

Lemma caps_install_all_added k (task : Z) (cs : list Cap) :
  tables_ok k -> wp (caps_install_all task cs) k (fun _ k' => only_caps k k' /\ tables_ok k' /\ caps_added k k' task cs).
Proof.
  revert k. induction cs as [| c cs IH]; intros k Hk; simpl.
  - apply wp_ret. split; [done |]. split; [done | by apply caps_added_nil].
  - apply wp_bind. intros id k1 E. destruct (caps_install_one k task id c k1 Hk E) as (_ & Ho & Ht & Ha).
    eapply wp_mono; [by apply IH |]. intros u k2 (Ho2 & Ht2 & Ha2).
    split; [by eapply only_caps_trans |]. split; [done | by eapply caps_added_cons].
Qed.

(** ** The capabilities a message names *)

(** The ids in the array of the message, as the program sees it. *)
Fixpoint load_i32s (va : Z) (n : nat) : KM (A := A) (list Z) :=
  match n with
  | O => st_ret []
  | S n =>
      let* id := load_i32 va in
      let* l := load_i32s (wrap 64 (va + 4)) n in
      st_ret (id :: l)
  end.
(** Each element once, at its first place. *)
Fixpoint firsts (l : list Z) : list Z :=
  match l with [] => [] | x :: l => x :: filter (fun y => y <> x) (firsts l) end.
Definition caps_named (t : CapTable) (ids : list Z) : list Cap := omap (cap_get t) (firsts ids).

Lemma load_i32s_reader (va : Z) (n : nat) k k0 l k' :
  same_mem k k0 -> load_i32s va n k = Ret (l, k') -> k' = k /\ load_i32s va n k0 = Ret (l, k0).
Proof.
  intros Hs. revert va l k'. induction n as [| n IH]; intros va l k'; cbn [load_i32s]; [by intros [= <- <-] |].
  intros (id & k1 & E1 & E2)%st_bind_Ret. destruct (reader_load_i32 va k k0 id k1 Hs E1) as [-> E1'].
  apply st_bind_Ret in E2 as (l' & k2 & E2 & E3). destruct (IH _ _ _ E2) as [-> E2']. injection E3 as <- <-. split; [done |].
  rewrite (st_bind_step _ _ _ _ _ E1'). by rewrite (st_bind_step _ _ _ _ _ E2').
Qed.

Lemma check_caps_spec (task ptr : Z) (n : nat) k k' (r : result unit Z) :
  check_caps task ptr n k = Ret (r, k') -> k' = k /\
  match r with
  | Ok _ => exists ids, load_i32s ptr n k = Ret (ids, k) /\ Forall (fun id => is_Some (cap_get (table k task) id)) ids
  | Err code => code = EBADF /\ exists ids id, load_i32s ptr (S (length ids)) k = Ret (ids ++ [id], k) /\
      cap_get (table k task) id = None
  end.
Proof.
  revert ptr. induction n as [| n IH]; intros ptr; cbn [check_caps].
  { intros [= <- <-]. split; [done |]. by exists []. }
  intros (id & k1 & E1 & E2)%st_bind_Ret. destruct (reader_load_i32 ptr k k id k1 ltac:(done) E1) as [-> _].
  apply st_bind_Ret in E2 as (c & k2 & E2 & E3). injection E2 as Ec <-. rewrite <- Ec in E3.
  destruct (cap_get (table k task) id) as [c0 |] eqn:Hc; subst c.
  - destruct (IH _ E3) as [-> Hr]. split; [done |]. destruct r as [u | code].
    + destruct Hr as (ids & El & Hall). exists (id :: ids). split; [| constructor; [by rewrite Hc | done]].
      cbn [load_i32s]. rewrite (st_bind_step _ _ _ _ _ E1). by rewrite (st_bind_step _ _ _ _ _ El).
    + destruct Hr as (-> & ids & id' & El & Hn). split; [done |]. exists (id :: ids), id'. split; [| done].
      cbn [length app]. cbn [load_i32s] in El |- *. rewrite (st_bind_step _ _ _ _ _ E1).
      by rewrite (st_bind_step _ _ _ _ _ El).
  - injection E3 as <- <-. split; [done |]. split; [done |]. exists [], id. split; [| done]. cbn [length app load_i32s].
    by rewrite (st_bind_step _ _ _ _ _ E1).
Qed.

Lemma omap_without {B} (f g : Z -> option B) (id : Z) (l : list Z) :
  f id = None -> (forall x, x <> id -> f x = g x) -> omap f l = omap g (filter (fun y => y <> id) l).
Proof.
  intros Hn Hg. induction l as [| x l IH]; [done |]. rewrite filter_cons. destruct (decide (x <> id)) as [Hx | Hx]; simpl.
  - rewrite Hg by done. destruct (g x); [f_equal |]; exact IH.
  - apply dec_stable in Hx as ->. rewrite Hn. exact IH.
Qed.

Lemma take_caps_spec (task ptr : Z) (n : nat) k k' (cs : list Cap) :
  tables_ok k -> take_caps task ptr n k = Ret (cs, k') ->
  exists ids, load_i32s ptr n k = Ret (ids, k) /\ cs = caps_named (table k task) ids /\
    only_caps k k' /\ tables_ok k' /\ caps_gone k k' task ids.
Proof.
  revert ptr k cs. induction n as [| n IH]; intros ptr k cs Hk; cbn [take_caps].
  { intros [= <- <-]. exists []. split; [done |]. split; [done |]. split; [done |]. split; [done |]. split; [| done].
    intros id. by rewrite decide_False by apply not_elem_of_nil. }
  intros (id & k1 & E1 & E2)%st_bind_Ret. destruct (reader_load_i32 ptr k k id k1 ltac:(done) E1) as [-> _].
  apply st_bind_Ret in E2 as (c & k2 & E2 & E3). apply st_bind_Ret in E3 as (cs' & k3 & E3 & E4). injection E4 as <- <-.
  unfold caps_remove in E2. pose proof (remove_spec (table k task) id (table_ok k task Hk)) as Hr.
  unfold cap_remove in E2, Hr. injection E2 as Hc <-. destruct Hr as [Hids _]. set (t1 := mkCapTable _ _) in *.
  destruct (IH _ _ _ (tables_ok_with k task t1 Hk Hids) E3) as (ids & El & -> & Ho & Ht & (G1 & G2 & G3)).
  assert (table (with_table k task t1) task = t1) as Et by (rewrite table_with; by rewrite decide_True).
  exists (id :: ids). destruct (load_i32s_reader _ n (with_table k task t1) k _ _ (conj eq_refl eq_refl) El) as [_ El'].
  split; [cbn [load_i32s]; rewrite (st_bind_step _ _ _ _ _ E1); by rewrite (st_bind_step _ _ _ _ _ El') |].
  assert (forall x, cap_get t1 x = if decide (x = id) then None else cap_get (table k task) x) as Hget.
  { intros x. unfold cap_get, t1. simpl. destruct (decide (x = id)) as [-> |]; [apply lookup_delete_eq | by rewrite lookup_delete_ne]. }
  split; [| split; [done | split; [done |]]].
  - rewrite Et. unfold caps_named. cbn [firsts]. rewrite (omap_without (cap_get t1) (cap_get (table k task)) id).
    + cbn [omap list_omap]. change (cap_get (table k task) id) with (slots (table k task) !! id). rewrite Hc. by destruct c.
    + by rewrite Hget, decide_True.
    + intros x Hx. by rewrite Hget, decide_False.
  - unfold caps_gone. rewrite Et in *. split_and!; [| by rewrite G2 |].
    + intros x. rewrite G1, Hget. destruct (decide (x ∈ ids)) as [Hin | Hin].
      { by rewrite decide_True by (by right). }
      destruct (decide (x = id)) as [-> | Hne]; [by rewrite decide_True by (by left) |].
      rewrite decide_False; [done |]. by intros [? | ?]%elem_of_cons.
    + intros t Hne. rewrite G3 by done. by rewrite table_with, decide_False.
Qed.

(** ** The outcomes of a send *)

(** The message names the capabilities [ids], all of which the task has. *)
Definition names k (task : Z) (msg : SendMsg) (ids : list Z) : Prop :=
  (if sm_ncaps msg =? 0 then ids = []
   else sm_caps_ptr msg <> 0 /\ load_i32s (sm_caps_ptr msg) (Z.to_nat (sm_ncaps msg)) k = Ret (ids, k)) /\
  Forall (fun id => is_Some (cap_get (table k task) id)) ids.
Definition space_of k (task : Z) : option Z :=
  match tasks (k_sched k) !! task with Some t => t_addr_space t | None => None end.
Definition payload_aligned (msg : SendMsg) : Prop :=
  sm_pages_va msg <> 0 /\ sm_pages_va msg mod 4096 = 0 /\ sm_pages_len msg mod 4096 = 0.
(** [pages] have been taken from the task, which leaves the memory manager [v]. *)
Definition payload_taken k (task : Z) (msg : SendMsg) (pages : list Z) (v : Vmm A) : Prop :=
  if sm_pages_len msg =? 0 then pages = [] /\ v = k_vmm k
  else payload_aligned msg /\ exists sp, space_of k task = Some sp /\
    steal_pages sp (sm_pages_va msg) (sm_pages_len msg / PAGE_SIZE) (k_vmm k) = Ret (Ok pages, v).
Fixpoint free_all (fa : A) (l : list Z) : outcome A :=
  match l with
  | [] => Ret fa
  | f :: l => let! fa := fa_free fa f in free_all fa l
  end.
Definition nothing_sent k k' : Prop := k_ports k' = k_ports k /\ k_sched k' = k_sched k.

Inductive send_outcome (task port : Z) (msg : SendMsg) k : result Z Z -> Kernel A -> Prop :=
  | so_sent ids pages k' :
      names k task msg ids -> payload_taken k task msg pages (k_vmm k') -> zlen (queue k port) < MAX_IN_FLIGHT ->
      k_ports k' = <[port := queue k port ++
        [mkMessage (sm_regs msg) (caps_named (table k task) ids) pages (sm_pages_len msg)]]> (k_ports k) ->
      caps_gone k k' task ids -> k_sched k' = wake_all (k_sched k) (port_wait_key port) ->
      send_outcome task port msg k (Ok 0) k'
  | so_full ids pages v k' :
      names k task msg ids -> payload_taken k task msg pages v -> MAX_IN_FLIGHT <= zlen (queue k port) ->
      nothing_sent k k' -> caps_gone k k' task ids ->
      vm_mem (k_vmm k') = vm_mem v -> free_all (vm_frames v) pages = Ret (vm_frames (k_vmm k')) ->
      send_outcome task port msg k (Err EAGAIN) k'
  | so_no_space ids k' :
      names k task msg ids -> sm_pages_len msg <> 0 -> payload_aligned msg -> space_of k task = None ->
      nothing_sent k k' -> caps_gone k k' task ids -> k_vmm k' = k_vmm k ->
      send_outcome task port msg k (Err EPERM) k'
  | so_bad_payload ids k' :
      names k task msg ids -> sm_pages_len msg <> 0 -> ~ payload_aligned msg ->
      nothing_sent k k' -> caps_renamed k k' task ids (caps_named (table k task) ids) -> k_vmm k' = k_vmm k ->
      send_outcome task port msg k (Err EINVAL) k'
  | so_hole ids sp er k' :
      names k task msg ids -> payload_aligned msg -> space_of k task = Some sp ->
      steal_pages sp (sm_pages_va msg) (sm_pages_len msg / PAGE_SIZE) (k_vmm k) = Ret (Err er, k_vmm k') ->
      nothing_sent k k' -> caps_renamed k k' task ids (caps_named (table k task) ids) ->
      send_outcome task port msg k (Err EFAULT) k'
  | so_bad_cap ids id :
      sm_ncaps msg <> 0 -> load_i32s (sm_caps_ptr msg) (S (length ids)) k = Ret (ids ++ [id], k) ->
      cap_get (table k task) id = None -> send_outcome task port msg k (Err EBADF) k
  | so_no_array : sm_ncaps msg <> 0 -> sm_caps_ptr msg = 0 -> send_outcome task port msg k (Err EFAULT) k.

Lemma collect_caps_spec k (task port : Z) (msg : SendMsg) (r : result (list Cap) Z) k' :
  tables_ok k -> collect_caps task msg k = Ret (r, k') ->
  match r with
  | Ok cs => exists ids, names k task msg ids /\ cs = caps_named (table k task) ids /\
      only_caps k k' /\ tables_ok k' /\ caps_gone k k' task ids
  | Err code => send_outcome task port msg k (Err code) k' /\ k' = k
  end.
Proof.
  intros Hk. unfold collect_caps, names. destruct (Z.eqb_spec (sm_ncaps msg) 0) as [Hz | Hz].
  { intros [= <- <-]. exists []. split; [done |]. split; [done |]. split; [done |]. split; [done |]. split; [| done].
    intros id. by rewrite decide_False by apply not_elem_of_nil. }
  destruct (Z.eqb_spec (sm_caps_ptr msg) 0) as [Hp | Hp]; [intros [= <- <-]; split; [by constructor | done] |].
  intros (u & k0 & Ea & E)%st_bind_Ret.
  assert (k0 = k) as -> by (unfold aligned in Ea; case_match; [by injection Ea | done]).
  apply st_bind_Ret in E as (rc & k1 & E1 & E). apply check_caps_spec in E1 as [-> Hr]. destruct rc as [u1 | code].
  - apply st_bind_Ret in E as (l & k2 & E2 & E). injection E as <- <-. destruct Hr as (ids & El & Hall).
    destruct (take_caps_spec task (sm_caps_ptr msg) _ k k2 l Hk E2) as (ids' & El' & -> & Ho & Ht & Hg).
    rewrite El in El'. injection El' as <-. exists ids. done.
  - injection E as <- <-. destruct Hr as (-> & ids & id & El & Hn). split; [by eapply so_bad_cap | done].
Qed.

Lemma caps_gone_added k k1 k2 k' (task : Z) (ids : list Z) (cs : list Cap) :
  caps_gone k k1 task ids -> k_caps k2 = k_caps k1 -> caps_added k2 k' task cs -> caps_renamed k k' task ids cs.
Proof.
  intros (G1 & G2 & G3) E (A1 & _ & A3). assert (forall t, table k2 t = table k1 t) as Et by (intros t; unfold table; by rewrite E).
  split.
  - intros id. rewrite A1, Et, G2, G1. done.
  - intros t Hne. rewrite A3, Et by done. by apply G3.
Qed.

Lemma aligned_dec (msg : SendMsg) :
  ((sm_pages_va msg =? 0) || negb (Z.land (sm_pages_va msg) (PAGE_SIZE - 1) =? 0)
    || negb (Z.land (sm_pages_len msg) (PAGE_SIZE - 1) =? 0)) = false <-> payload_aligned msg.
Proof.
  change (PAGE_SIZE - 1) with 0xFFF. rewrite !land_fff, !orb_false_iff, !negb_false_iff, !Z.eqb_eq, Z.eqb_neq.
  unfold payload_aligned. tauto.
Qed.

(** What collecting the pages comes to, once the capabilities [ids] are taken. *)
Lemma collect_pages_spec k k1 (task port : Z) (msg : SendMsg) (ids : list Z) (r : result (list Z * Z) Z) k' :
  names k task msg ids -> only_caps k k1 -> tables_ok k1 -> caps_gone k k1 task ids ->
  collect_pages task msg (caps_named (table k task) ids) k1 = Ret (r, k') ->
  match r with
  | Ok (pages, len) => len = sm_pages_len msg /\ payload_taken k task msg pages (k_vmm k') /\ k' = with_vmm k1 (k_vmm k')
  | Err code => send_outcome task port msg k (Err code) k' /\ only_caps (with_vmm k (k_vmm k')) k'
  end.
Proof.
  intros Hn (Hv & Hs & Hp & Hx) Ht Hg. unfold collect_pages, payload_taken.
  destruct (Z.eqb_spec (sm_pages_len msg) 0) as [Hz | Hz].
  { intros [= <- <-]. split; [done |]. split; [done |]. by destruct k1. }
  assert (forall code k2 r k', k_caps k2 = k_caps k1 -> only_caps k2 (with_vmm k1 (k_vmm k2)) ->
    (let* _ := caps_install_all task (caps_named (table k task) ids) in early (X := list Z * Z) code) k2 = Ret (r, k') ->
    r = Err code /\ k_vmm k' = k_vmm k2 /\ nothing_sent k k' /\ only_caps (with_vmm k (k_vmm k')) k' /\
    caps_renamed k k' task ids (caps_named (table k task) ids)) as Hback.
  { intros code k2 r0 k0 Ec (_ & Es & Ep & Ex) (u & k3 & E3 & E)%st_bind_Ret. injection E as <- <-.
    destruct (caps_install_all_added k2 task (caps_named (table k task) ids)) with u k3 as ((Hv3 & Hs3 & Hp3 & Hx3) & _ & Ha);
      [unfold tables_ok; by rewrite Ec | done |]. simpl in *. destruct Ex as (? & ? & ?), Hx as (? & ? & ?), Hx3 as (? & ? & ?).
    split; [done |]. split; [done |]. split; [split; simpl; congruence |].
    split; [split_and!; simpl; congruence | by eapply caps_gone_added]. }
  assert (only_caps (with_vmm k (k_vmm k1)) k1) as Hoc by done.
  pose proof (aligned_dec msg) as Had. destruct (_ || _) eqn:Hor.
  { intros (-> & Hv' & Hns & Hoc' & Hr)%Hback; [| done | by destruct k1]. rewrite Hv in Hv'. split; [| done].
    eapply so_bad_payload; try done. intros Hal%Had. done. }
  assert (payload_aligned msg) as Hal by (by apply Had).
  intros (sp & k2 & E2 & E)%st_bind_Ret. injection E2 as Hsp <-. rewrite Hs in Hsp. fold (space_of k task) in Hsp.
  destruct sp as [sp |]; [| injection E as <- <-; split; [by eapply so_no_space | done]].
  apply st_bind_Ret in E as (st & k3 & E3 & E). unfold on_vmm in E3. rewrite Hv in E3.
  apply obind_Ret in E3 as ([st' v] & Est & E3). injection E3 as <- <-. destruct st' as [frames | er].
  - injection E as <- <-. split; [done |]. split; [| done]. split; [done |]. by exists sp.
  - apply Hback in E as (-> & Hv' & Hns & Hoc' & Hr); [| done | done]. simpl in Hv'. split; [| done].
    eapply so_hole; try done. by rewrite Hv'.
Qed.

Lemma free_pages_all (l : list Z) k k' (u : unit) :
  free_pages l k = Ret (u, k') ->
  vm_mem (k_vmm k') = vm_mem (k_vmm k) /\ free_all (vm_frames (k_vmm k)) l = Ret (vm_frames (k_vmm k')) /\
  k' = with_vmm k (k_vmm k').
Proof.
  revert k. induction l as [| f l IH]; intros k; cbn [free_pages free_all]; [intros [= _ <-]; by destruct k |].
  intros (fa & E & E')%obind_Ret. rewrite E. cbn [obind]. destruct (IH _ E') as (Hm & Hf & Hk). split; [done |]. split; [done |]. exact Hk.
Qed.

(** C20 What a send does on each branch, [send_outcome] says in full.  On success
    one message, with the registers of the caller, the capabilities whose ids
    are in its array (each once) and the pages of the payload, is appended to a
    queue of fewer than 16; the ids are free, and the receivers waiting on the
    port are woken.  With an id that is not in the table, or no array, nothing
    changes at all.  With a bad payload the capabilities are back under new
    ids.  In two cases they are lost: a full queue (EAGAIN), where the pages are
    freed too, and a task without an address space (EPERM).  On no error does a
    queue or the scheduler change, and never a table of another task, the
    registry, or the set of receivers. *)
Theorem send_outcomes k (task port : Z) (msg : SendMsg) (r : result Z Z) k' :
  tables_ok k -> send_to task port msg k = Ret (r, k') ->
  send_outcome task port msg k r k' /\
  k_next_port k' = k_next_port k /\ REGISTRY k' = REGISTRY k /\ k_receivers k' = k_receivers k.
Proof.
  intros Hk E. unfold send_to in E. apply st_bind_Ret in E as (rc & k1 & E1 & E).
  pose proof (collect_caps_spec k task port msg rc k1 Hk E1) as Hc.
  destruct rc as [cs | er]; [| injection E as <- <-; by destruct Hc as [? ->]].
  destruct Hc as (ids & Hn & -> & Ho & Ht & Hg). apply st_bind_Ret in E as (rp & k2 & E2 & E).
  pose proof (collect_pages_spec k k1 task port msg ids rp k2 Hn Ho Ht Hg E2) as Hp.
  destruct rp as [[pages len] | er]; [| injection E as <- <-; by destruct Hp as [? (? & ? & ? & ? & ? & ?)]].
  destruct Hp as (-> & Htk & Ek2), Ho as (_ & Hs & Hpo & Hnp & Hre & Hrc).
  apply st_bind_Ret in E as (rq & k3 & E3 & E). unfold try_push in E3.
  assert (queue k2 port = queue k port) as Hq by (rewrite Ek2; unfold queue; simpl; by rewrite Hpo).
  assert (caps_gone k k2 task ids) as Hg2 by (rewrite Ek2; exact Hg).
  rewrite Hq in E3. destruct (Z.leb_spec MAX_IN_FLIGHT (zlen (queue k port))) as [Hfull | Hroom].
  - injection E3 as <- <-. apply st_bind_Ret in E as (u & k4 & E4 & E). injection E as <- <-.
    destruct (free_pages_all pages k2 k4 u E4) as (Hm4 & Hf4 & Ek4). rewrite Ek4. simpl. rewrite Ek2. simpl.
    split; [| done]. eapply so_full; [done | exact Htk | done | by split | exact Hg | done | done].
  - injection E3 as <- <-. injection E as <- <-. simpl. rewrite Ek2. simpl. split; [| done].
    eapply so_sent; [done | exact Htk | done | simpl; by rewrite Hpo | exact Hg | simpl; by rewrite Hs].
Qed.
End Spec.

(** ** Witnesses *)

(** No address of the kernel half is mapped. *)
#[export] Instance demo_kernel_memory : KernelMemory PmmState := {| km_load _ _ := Panic; km_store _ _ _ := Panic |}.

Definition demo_sched : Sched :=
  match boot_sched 0x10000 0xffc8 0x9000 0x20000 0x1ffa0 with Ret s => (on_tick s).2 | _ => sched_statics end.
Definition demo_boot : Kernel PmmState := boot_kernel vm_demo demo_sched 2 0x1000000.
Definition demo_port : Kernel PmmState := match sys_port_create demo_boot with Ret (_, k) => k | _ => demo_boot end.

Lemma demo_port_ok : exists v, sys_port_create demo_boot = Ret (v, demo_port).
Proof.
  assert (match sys_port_create demo_boot with Ret _ => true | _ => false end = true) as H by (vm_compute; reflexivity).
  unfold demo_port. destruct (sys_port_create demo_boot) as [[v k] | | |]; [by exists v | discriminate H ..].
Qed.

Lemma demo_port_reached : rtc ipc_step demo_boot demo_port.
Proof. destruct demo_port_ok as [v E]. by eapply rtc_once, ipc_port_create. Qed.

Lemma capabilities_unforgeable_witness :
  count (recv_for 0x1000000) (all_caps demo_port) = 1%nat /\ (count is_registrar (all_caps demo_port) <= 1)%nat.
Proof.
  split; [vm_compute; reflexivity |].
  apply (capabilities_unforgeable vm_demo demo_sched 2 0x1000000 demo_port demo_port_reached).
Defined.

Lemma demo_sched_spaces (t : Z) (x : Task) (r : Z) :
  tasks demo_sched !! t = Some x -> t_addr_space x = Some r -> r = 0x9000.
Proof.
  intros Ht Hr. assert (map_Forall (fun _ x => t_addr_space x = None \/ t_addr_space x = Some 0x9000) (tasks demo_sched)) as Hall.
  { refine (bool_decide_unpack _ _). vm_compute. exact I. }
  destruct (Hall t x Ht) as [E | E]; congruence.
Qed.

Lemma demo_boot_safe : safe all_managed [] demo_boot.
Proof.
  apply (boot_safe all_managed vm_demo demo_sched 2 0x1000000 vm_demo_owner 0x9000 vm_demo_inv).
  - intros f o [_ ->]%vm_demo_roots Hl. discriminate Hl.
  - intros t x r Ht Hr. rewrite (demo_sched_spaces t x r Ht Hr). apply vm_demo_space. by left.
  - vm_compute. reflexivity.
  - apply vm_demo_space. by left.
Qed.

(** Spring runs with a buffer at 0x400000 and a page of payload at 0x401000. *)
Definition map_page (va f : Z) (s : Vmm PmmState) : Vmm PmmState :=
  match map_4k 0x9000 va f STEAL_FLAGS s with Ret (_, s) => s | _ => s end.
Definition demo_vmm : Vmm PmmState := map_page 0x401000 0xC000 (map_page 0x400000 0xB000 vm_demo).

(** What stays true while such pages are mapped. *)
Definition vmm_ready (s : Vmm PmmState) (frames : list Z) : Prop :=
  exists owner, VmmInv.pt_inv s owner all_managed /\ pages_ram s owner /\ VmmRanges.user_space all_managed owner 0x9000 /\
    NoDup frames /\ Forall (flying s owner) frames.

Lemma map_page_ready (va f : Z) (s : Vmm PmmState) (frames : list Z) :
  0 <= va < 2 ^ 47 -> vmm_ready s (f :: frames) -> vmm_ready (map_page va f s) frames.
Proof.
  intros Hva (owner & Hi & Hr & Hu & Hnd & Hall). apply NoDup_cons in Hnd as [Hf Hnd].
  apply Forall_cons in Hall as [(Hfa & Hrd & Hram) Hall].
  destruct (user_space_ok all_managed owner 0x9000 va Hu Hva) as [Hs _].
  destruct (map_4k_ok all_managed s owner 0x9000 va f STEAL_FLAGS) as (res & s' & o & Hrun & Hm & _);
    [done | done | apply Hfa | done |].
  unfold map_page. rewrite Hrun. exists o. split; [apply Hm |]. split_and!; [| | done |].
  - eapply (moves_ram all_managed); [exact Hi | exact Hm | by intros g <- | done].
  - by eapply user_space_moves.
  - eapply (flying_moves all_managed); [exact Hm | | done]. intros g Hg <-. done.
Qed.

Lemma demo_vmm_ready : vmm_ready demo_vmm [].
Proof.
  unfold demo_vmm. do 2 (apply map_page_ready; [lia |]). exists vm_demo_owner. split_and!.
  - apply vm_demo_inv.
  - intros f o [_ ->]%vm_demo_roots Hl. discriminate Hl.
  - apply vm_demo_space. by left.
  - apply (bool_decide_unpack (NoDup [0xB000; 0xC000])). vm_compute. exact I.
  - assert (forall f, f = 0xB000 \/ f = 0xC000 -> flying vm_demo vm_demo_owner f) as Hf.
    { intros f [-> | ->]; (split; [split; [lia | done] |]; split; [split; [done | vm_compute; by intros [_ [=]]] |];
        split; [vm_compute; split; congruence | done]). }
    constructor; [| constructor; [| constructor]]; apply Hf; tauto.
Qed.

(** The buffer at 0x400000: a message to send, with one register, the id of a
    capability and the payload, and at 0x400200 a buffer to receive into. *)
Fixpoint pokes (l : list (Z * Z)) : KM (A := PmmState) unit :=
  match l with
  | [] => st_ret tt
  | (va, b) :: l => let* _ := cpu_store va b in pokes l
  end.
Definition demo_bytes : list (Z * Z) :=
  [(0x400000, 7); (0x400031, 1); (0x400032, 0x40); (0x400038, 1); (0x400041, 0x10); (0x400042, 0x40); (0x400049, 0x10);
   (0x400100, 3); (0x400231, 3); (0x400232, 0x40); (0x400238, 4)].

Lemma pokes_steps (l : list (Z * Z)) (k k' : Kernel PmmState) (u : unit) :
  Forall (fun ab => 0 <= ab.1 < 2 ^ 47 /\ byte_ok ab.2) l -> pokes l k = Ret (u, k') -> rtc (frame_step all_managed) k k'.
Proof.
  intros Hl. revert k. induction Hl as [| [va b] l [Hva Hb] _ IH]; intros k; cbn [pokes]; [by intros [= _ <-] |].
  intros (x & k1 & E1 & E2)%st_bind_Ret. eapply rtc_l; [by eapply fs_store | by apply IH].
Qed.

Definition after {X} (c : KM X) (k : Kernel PmmState) : Kernel PmmState := match c k with Ret (_, k) => k | _ => k end.
Definition returns {X} (c : KM (A := PmmState) X) (k : Kernel PmmState) : bool := match c k with Ret _ => true | _ => false end.

Lemma after_ok {X} (c : KM X) (k : Kernel PmmState) : returns c k = true -> exists x, c k = Ret (x, after c k).
Proof. unfold returns, after. destruct (c k) as [[x k'] | | |]; [by exists x | done ..]. Qed.

(** Spring makes two ports, with ids 2 and 3, and sends the second through the
    first, with the page. *)
Definition mail_boot : Kernel PmmState := boot_kernel demo_vmm demo_sched 2 0x1000000.
Definition mail_ports : Kernel PmmState :=
  after sys_port_create (after sys_port_create (after (pokes demo_bytes) mail_boot)).
Definition mail_sent : Kernel PmmState := after (sys_send 2 0x400000) mail_ports.

Lemma mail_boot_safe : safe all_managed [] mail_boot.
Proof.
  destruct demo_vmm_ready as (owner & Hi & Hr & Hu & _).
  apply (boot_safe all_managed demo_vmm demo_sched 2 0x1000000 owner 0x9000 Hi Hr); [| vm_compute; reflexivity | done].
  intros t x r Ht Hx. by rewrite (demo_sched_spaces t x r Ht Hx).
Qed.

Lemma mail_ports_steps : rtc (frame_step all_managed) mail_boot mail_ports.
Proof.
  destruct (after_ok (pokes demo_bytes) mail_boot) as [u E1]; [vm_compute; reflexivity |].
  destruct (after_ok sys_port_create (after (pokes demo_bytes) mail_boot)) as [i E2]; [vm_compute; reflexivity |].
  destruct (after_ok sys_port_create (after sys_port_create (after (pokes demo_bytes) mail_boot))) as [j E3];
    [vm_compute; reflexivity |].
  etrans; [eapply pokes_steps; [| exact E1] |].
  - repeat (constructor; [split; unfold byte_ok; simpl; lia |]). constructor.
  - eapply rtc_l; [exact (fs_port_create all_managed _ _ _ E2) |]. eapply rtc_once.
    exact (fs_port_create all_managed _ _ _ E3).
Qed.

Lemma mail_sent_steps : rtc (frame_step all_managed) mail_boot mail_sent.
Proof.
  destruct (after_ok (sys_send 2 0x400000) mail_ports) as [v E]; [vm_compute; reflexivity |].
  eapply rtc_r; [exact mail_ports_steps |]. refine (fs_send all_managed _ _ _ _ _ _ E). intros msg Em.
  assert (match read_send_msg 0x400000 mail_ports with
          | Ret (msg, _) => (sm_pages_va msg =? 0x401000) && (sm_pages_len msg =? 0x1000) | _ => false end = true) as H
    by (vm_compute; reflexivity).
  rewrite Em in H. apply andb_true_iff in H as [H1%Z.eqb_eq H2%Z.eqb_eq].
  unfold payload_ok, user_buf. rewrite H1, H2. lia.
Qed.

Lemma mail_sent_pages : all_pages mail_sent = [0xC000].
Proof. vm_compute. reflexivity. Qed.

Lemma message_frames_exclusive_witness :
  all_pages mail_sent = [0xC000] /\ in_use mail_sent 0x9000 /\ ~ on_walk mail_sent 0x9000 0xC000.
Proof.
  split; [exact mail_sent_pages |]. assert (in_use mail_sent 0x9000) as Hu by (right; vm_compute; reflexivity).
  split; [exact Hu |].
  destruct (message_frames_exclusive all_managed mail_boot mail_sent mail_boot_safe mail_sent_steps) as (_ & Hp & _).
  apply (Hp 0xC000); [rewrite mail_sent_pages; left | exact Hu].
Defined.

(** Spring sends the second port and the page, as in [mail_sent]. *)
Definition mail_msg : SendMsg := mkSendMsg [7; 0; 0; 0; 0; 0] 0x400100 1 0x401000 0x1000.
Definition mail_to : Kernel PmmState := after (send_to 2 0x1000000 mail_msg) mail_ports.

Lemma tables_ok_all (k : Kernel PmmState) :
  map_Forall (fun _ t => 1 <= next t /\ map_Forall (fun id _ => 1 <= id < next t) (slots t)) (k_caps k) -> tables_ok k.
Proof. intros Hall t tbl Ht. destruct (Hall t tbl Ht) as [Hn Hs]. split; [done |]. intros id [c Hc]. by apply (Hs id c). Qed.

Lemma mail_ports_tables : tables_ok mail_ports.
Proof. apply tables_ok_all. refine (bool_decide_unpack _ _). vm_compute. exact I. Qed.

Lemma mail_to_ok : send_to 2 0x1000000 mail_msg mail_ports = Ret (Ok 0, mail_to).
Proof.
  assert (match send_to 2 0x1000000 mail_msg mail_ports with Ret (Ok 0, _) => true | _ => false end = true) as H
    by (vm_compute; reflexivity).
  unfold mail_to, after. destruct (send_to 2 0x1000000 mail_msg mail_ports) as [[[v | e] k] | | |]; try discriminate H.
  by destruct v.
Qed.

Lemma send_outcomes_witness :
  queue mail_to 0x1000000 = [mkMessage [7; 0; 0; 0; 0; 0] [cap_port 0x1000001 7] [0xC000] 0x1000] /\
  cap_get (table mail_ports 2) 3 = Some (cap_port 0x1000001 7) /\ cap_get (table mail_to 2) 3 = None /\
  send_outcome 2 0x1000000 mail_msg mail_ports (Ok 0) mail_to.
Proof.
  split; [vm_compute; reflexivity |]. split; [vm_compute; reflexivity |]. split; [vm_compute; reflexivity |].
  exact (proj1 (send_outcomes mail_ports 2 0x1000000 mail_msg (Ok 0) mail_to mail_ports_tables mail_to_ok)).
Defined.

(** The receive window is full up to the last page of its first page table, and
    no frame is left for a second one: a message of two pages is half mapped. *)
Definition full_mem : PhysMem := fun a =>
  if (0xE000 <=? a) && (a <? 0xE000 + 511 * 8) then (if a mod 8 =? 0 then 1 else 0)
  else if (a =? 0x9000) || (a =? 0xC000) || (a =? 0xD800) then 7
  else if a =? 0x9001 then 0xC0 else if a =? 0xC001 then 0xD0 else if a =? 0xD801 then 0xE0 else 0.
Definition full_frames : PmmState :=
  Eval vm_compute in
    match init [mkRegion 0x1000 0x2000 Usable; mkRegion 0x3000 0x1D000 Reserved] with
    | Ret st => match alloc_frame st with Ret (_, st) => st | _ => st end
    | _ => pmm_statics
    end.
Definition full_kernel : Kernel PmmState :=
  boot_kernel (mkVmm full_mem full_frames (Some 0x9000) MMIO_VA_BASE 0x9000) demo_sched 2 0x1000000.
Definition full_msg : Message := mkMessage [0; 0; 0; 0; 0; 0] [] [0x10000; 0x11000] 0x2000.
Definition half_mapped : Vmm PmmState :=
  match install_pages 0x9000 0x201FF000 (m_pages full_msg) (k_vmm full_kernel) with Ret (_, v) => v | _ => vm_demo end.

Lemma full_find : find_user_vm_range (vm_mem (k_vmm full_kernel)) 0x9000 2 = Ret (Some 0x201FF000).
Proof. vm_compute. reflexivity. Qed.

Lemma half_mapped_ok :
  install_pages 0x9000 0x201FF000 (m_pages full_msg) (k_vmm full_kernel) = Ret (Err OutOfMemory, half_mapped) /\
  vm_frames half_mapped = full_frames /\ phys_for_virt (vm_mem half_mapped) 0x9000 0x201FF000 = Some 0x10000.
Proof.
  assert (match install_pages 0x9000 0x201FF000 (m_pages full_msg) (k_vmm full_kernel) with
          | Ret (Err OutOfMemory, v) => bool_decide (phys_for_virt (vm_mem v) 0x9000 0x201FF000 = Some 0x10000)
          | _ => false end = true) as H by (vm_compute; reflexivity).
  split_and!; [| vm_compute; reflexivity |]; unfold half_mapped;
    destruct (install_pages _ _ _ _) as [[[u | []] v] | | |]; try discriminate H; [done |]. by apply bool_decide_eq_true in H.
Qed.

Lemma full_frames_ok : fa_ok full_frames.
Proof.
  split; [split_and!; [| reflexivity ..] |].
  - split; [reflexivity | vm_compute; split; congruence | reflexivity | vm_compute; split; congruence].
  - left. vm_compute. reflexivity.
Qed.

Lemma recv_failure_frees_mapped_frame_witness : exists k',
  deliver_pages 2 full_msg full_kernel = Ret (Err ENOMEM, k') /\
  fa_avail (vm_frames (k_vmm k')) 0x10000 /\ phys_for_virt (vm_mem (k_vmm k')) 0x9000 0x201FF000 = Some 0x10000.
Proof.
  destruct half_mapped_ok as (Hins & Hfr & Hph).
  destruct (tasks demo_sched !! 2) as [x |] eqn:Hx; [| vm_compute in Hx; discriminate Hx].
  apply (recv_failure_frees_mapped_frame full_kernel 2 x full_msg 0x9000 0x201FF000 OutOfMemory half_mapped 0x10000).
  - exact Hx.
  - vm_compute in Hx. injection Hx as <-. reflexivity.
  - exact full_find.
  - exact Hins.
  - rewrite Hfr. exact full_frames_ok.
  - apply (bool_decide_unpack (NoDup [0x10000; 0x11000])). vm_compute. exact I.
  - unfold is_ram. rewrite Hfr. repeat constructor; try (vm_compute; congruence); vm_compute; intros [_ E]; discriminate E.
  - left.
  - exact Hph.
Defined.
