(* ===== verification/IpcRecv.v ===== *)
(** * What a receiver reads

    The bytes [sys_recv] writes through the page tables of the running program
    are the ones the program then reads: the message as it was sent. *)

From S2P Require Import Prelude Bytes Utf8 Frames Pmm X86 Vmm VmmInv VmmProps VmmRanges VmmCopy VmmSpec.
From S2P Require Import Sched SchedProps Kernel Ipc IpcCaps IpcFrames IpcSpec.

Section Recv.
  Context {A : Type} `{FrameAllocator A} `{PageTableEntry} `{!PageTableEntryLaws} `{KernelMemory A}.
  Context (managed : Z -> Z -> bool).
  Abbreviation safe := (IpcFrames.safe managed).
  Implicit Types k : Kernel A.

(** ** Bytes of the running program *)

Definition ubyte k (va : Z) : option Z := vm_mem (k_vmm k) <$> phys_for_virt (vm_mem (k_vmm k)) (active k) va.

Lemma cpu_load_ubyte k (va b : Z) : 0 <= va < 2 ^ 47 -> ubyte k va = Some b -> cpu_load va k = Ret (b, k).
Proof.
  intros Hva Hb. unfold cpu_load, ubyte in *. rewrite (proj2 (Z.leb_le 0 va)), (proj2 (Z.ltb_lt va (2 ^ 47))) by lia.
  cbn [andb]. destruct (phys_for_virt _ _ va); [by injection Hb as <- | done].
Qed.

Lemma cpu_store_ubyte e k k' (va b : Z) (u : unit) :
  safe e k -> 0 <= va < 2 ^ 47 -> byte_ok b -> cpu_store va b k = Ret (u, k') ->
  active k' = active k /\
  forall va', 0 <= va' < 2 ^ 47 ->
    phys_for_virt (vm_mem (k_vmm k')) (active k) va' = phys_for_virt (vm_mem (k_vmm k)) (active k) va' /\
    ubyte k' va' = if va' =? va then Some b else ubyte k va'.
Proof.
  intros [owner Hm] Hva Hb. unfold cpu_store.
  rewrite (proj2 (Z.leb_le 0 va)), (proj2 (Z.ltb_lt va (2 ^ 47))) by lia. cbn [andb].
  destruct (phys_for_virt _ _ va) as [p |] eqn:Ep; [| done]. intros E. injection E as _ <-. split; [done |].
  set (m' := store (vm_mem (k_vmm k)) p [b]). pose proof (mi_pt _ _ _ _ Hm) as Hi. pose proof (mi_active _ _ _ _ Hm) as Hu.
  assert (data_write owner (vm_mem (k_vmm k)) m') as Hd.
  { rewrite phys_for_virt_leaf in Ep. destruct (leaf _ _ va) as [en |] eqn:El; [| done].
    cbn [fmap option_fmap option_map] in Ep. apply (inj Some) in Ep. rewrite land_fff in Ep.
    destruct (user_space_ok managed owner (active k) va Hu Hva) as [Hs Huv].
    pose proof (leaf_owner managed (k_vmm k) owner (active k) va en Hi Hs Huv El) as Ho.
    split; [apply store_mem_ok; [apply Hi | by constructor] |]. intros a Ha.
    destruct (decide (a = p)) as [-> |]; [| destruct Ha; apply store_other; unfold zlen; simpl; lia].
    exists (page_of (active k) va). rewrite (frame_of_in (pte_addr en)); [split; [done | by rewrite page_of_path] | |].
    - by apply (inv_frame _ _ _ Hi _ _ Ho).
    - pose proof (Z.mod_pos_bound va 4096). unfold PAGE_SIZE. lia. }
  assert (forall va', 0 <= va' < 2 ^ 47 ->
    phys_for_virt m' (active k) va' = phys_for_virt (vm_mem (k_vmm k)) (active k) va') as Htr.
  { intros va' Hva'. destruct (user_space_ok managed owner (active k) va' Hu Hva') as [Hs' _].
    rewrite !phys_for_virt_leaf. by rewrite (data_write_leaf managed (k_vmm k) owner m'). }
  intros va' Hva'. split; [by apply Htr |]. unfold ubyte.
  change (vm_mem (k_vmm (with_vmm k _))) with m'. change (active (with_vmm k _)) with (active k).
  rewrite Htr by done. destruct (Z.eqb_spec va' va) as [-> | Hne].
  - rewrite Ep. cbn [fmap option_fmap option_map]. f_equal. unfold m', store. change (zlen [b]) with 1.
    rewrite (proj2 (Z.leb_le p p)), (proj2 (Z.ltb_lt p (p + 1))), Z.sub_diag by lia. done.
  - destruct (phys_for_virt _ _ va') as [p' |] eqn:Ep'; [| done]. simpl. f_equal. apply store_other. unfold zlen. simpl.
    intros Hin. assert (p' = p) as -> by lia. apply Hne. by eapply (phys_for_virt_inj managed (k_vmm k) owner).
Qed.

Lemma store_bytes_ubyte (l : list Z) e k k' (va : Z) (u : unit) :
  safe e k -> user_buf va (zlen l) -> Forall byte_ok l -> store_bytes va l k = Ret (u, k') ->
  active k' = active k /\
  forall va', 0 <= va' < 2 ^ 47 ->
    phys_for_virt (vm_mem (k_vmm k')) (active k) va' = phys_for_virt (vm_mem (k_vmm k)) (active k) va' /\
    ubyte k' va' = if (va <=? va') && (va' <? va + zlen l) then l !! Z.to_nat (va' - va) else ubyte k va'.
Proof.
  intros Hs Hb Hl. revert va k Hs Hb. induction Hl as [| b l Hbo Hl IH]; intros va k Hs [Hv Hend]; cbn [store_bytes].
  { intros [= _ <-]. split; [done |]. intros va' _. split; [done |]. change (zlen []) with 0. rewrite Z.add_0_r.
    destruct (Z.leb_spec va va'), (Z.ltb_spec va' va); simpl; (done || lia). }
  intros (x & k1 & E1 & E2)%st_bind_Ret. rewrite zlen_cons in *. assert (0 <= zlen l) by (unfold zlen; lia).
  pose proof (safe_cpu_store managed e k va b Hs ltac:(lia) Hbo x k1 E1) as Hs1.
  destruct (cpu_store_ubyte e k k1 va b x Hs ltac:(lia) Hbo E1) as [Ha1 H1'].
  assert (active k' = active k1 /\ forall va', 0 <= va' < 2 ^ 47 ->
    phys_for_virt (vm_mem (k_vmm k')) (active k1) va' = phys_for_virt (vm_mem (k_vmm k1)) (active k1) va' /\
    ubyte k' va' = if (va + 1 <=? va') && (va' <? va + 1 + zlen l) then l !! Z.to_nat (va' - (va + 1)) else ubyte k1 va')
    as [Ha2 H2'].
  { destruct l as [| b' l].
    - injection E2 as _ <-. split; [done |]. intros va' _. split; [done |]. change (zlen []) with 0. rewrite Z.add_0_r.
      destruct (Z.leb_spec (va + 1) va'), (Z.ltb_spec va' (va + 1)); simpl; (done || lia).
    - assert (0 < zlen (b' :: l)) by (rewrite zlen_cons; unfold zlen; lia).
      unfold wrap in E2. rewrite Z.mod_small in E2 by lia. apply (IH (va + 1) k1); [done | split; lia | done]. }
  rewrite Ha1 in *. split; [congruence |]. intros va' Hva'. destruct (H1' va' Hva') as [T1 U1], (H2' va' Hva') as [T2 U2].
  split; [congruence |]. rewrite U2, U1.
  destruct (Z.leb_spec (va + 1) va'), (Z.leb_spec va va'), (Z.ltb_spec va' (va + 1 + zlen l)),
    (Z.ltb_spec va' (va + (1 + zlen l))), (Z.eqb_spec va' va); simpl; try lia; try done.
  - replace (Z.to_nat (va' - va)) with (S (Z.to_nat (va' - (va + 1)))) by lia. done.
  - subst va'. by rewrite Z.sub_diag.
Qed.

Lemma load_bytes_ubyte (l : list Z) k (va : Z) :
  user_buf va (zlen l) -> (forall i b, l !! i = Some b -> ubyte k (va + Z.of_nat i) = Some b) ->
  load_bytes va (length l) k = Ret (l, k).
Proof.
  revert va. induction l as [| b l IH]; intros va [Hv Hend] Hl; [done |]. cbn [length load_bytes].
  rewrite zlen_cons in Hend. assert (0 <= zlen l) by (unfold zlen; lia).
  assert (ubyte k va = Some b) as Hb by (rewrite <- (Z.add_0_r va); by apply (Hl 0%nat)).
  rewrite (st_bind_step _ _ k k b) by (apply cpu_load_ubyte; [lia | done]).
  assert (load_bytes (wrap 64 (va + 1)) (length l) k = Ret (l, k)) as E.
  { destruct l as [| b' l]; [done |]. assert (0 < zlen (b' :: l)) by (rewrite zlen_cons; unfold zlen; lia).
    unfold wrap. rewrite Z.mod_small by lia. apply IH; [split; lia |]. intros i b0 Hi.
    replace (va + 1 + Z.of_nat i) with (va + Z.of_nat (S i)) by lia. by apply Hl. }
  by rewrite (st_bind_step _ _ k k l E).
Qed.

Lemma load_u64_ubyte k (va w : Z) :
  user_buf va 8 -> 0 <= w < 2 ^ 64 -> (forall i b, le_bytes 8 w !! i = Some b -> ubyte k (va + Z.of_nat i) = Some b) ->
  load_u64 va k = Ret (w, k).
Proof.
  intros Hb Hw Hl. unfold load_u64. change 8%nat with (length (le_bytes 8 w)) at 1.
  rewrite (st_bind_step _ _ k k (le_bytes 8 w)) by (apply load_bytes_ubyte; [exact Hb | exact Hl]).
  unfold st_ret. rewrite le_val_bytes; [done |]. exact Hw.
Qed.

(** The words at [va] are [ws]. *)
Definition words_at k (va : Z) (ws : list Z) : Prop :=
  forall i b, (ws ≫= le_bytes 8) !! i = Some b -> ubyte k (va + Z.of_nat i) = Some b.

Lemma words_at_cons k (va w : Z) (ws : list Z) :
  words_at k va (w :: ws) ->
  (forall i b, le_bytes 8 w !! i = Some b -> ubyte k (va + Z.of_nat i) = Some b) /\ words_at k (va + 8) ws.
Proof.
  intros Hw. split.
  - intros i b Hi. apply Hw. cbn [mbind list_bind]. by apply lookup_app_l_Some.
  - intros i b Hi. replace (va + 8 + Z.of_nat i) with (va + Z.of_nat (8 + i)) by lia. apply Hw.
    cbn [mbind list_bind]. rewrite lookup_app_r by (rewrite le_bytes_length; lia). rewrite le_bytes_length.
    by replace (8 + i - 8)%nat with i by lia.
Qed.

Lemma load_u64s_ubyte (ws : list Z) k (va : Z) :
  user_buf va (8 * zlen ws) -> Forall (fun w => 0 <= w < 2 ^ 64) ws -> words_at k va ws ->
  load_u64s va (length ws) k = Ret (ws, k).
Proof.
  intros Hb Hall. revert va Hb. induction Hall as [| w ws Hw Hall IH]; intros va [Hv Hend] Hws; [done |].
  cbn [length load_u64s]. rewrite zlen_cons in Hend. assert (0 <= zlen ws) by (unfold zlen; lia).
  apply words_at_cons in Hws as [H1' H2']. rewrite (st_bind_step _ _ k k w) by (apply load_u64_ubyte; [split; lia | done | done]).
  assert (load_u64s (wrap 64 (va + 8)) (length ws) k = Ret (ws, k)) as E.
  { destruct ws as [| w' ws]; [done |]. assert (0 < zlen (w' :: ws)) by (rewrite zlen_cons; unfold zlen; lia).
    unfold wrap. rewrite Z.mod_small by lia. apply IH; [split; lia | done]. }
  by rewrite (st_bind_step _ _ k k ws E).
Qed.

(** ** The buffer of the receiver *)

Lemma load_bytes_ok e k (va : Z) (n : nat) :
  safe e k -> user_buf va (Z.of_nat n) -> wp (load_bytes va n) k (fun l _ => length l = n /\ Forall byte_ok l).
Proof.
  intros Hs. revert va. induction n as [| n IH]; intros va [Hv Hend]; cbn [load_bytes]; [by apply wp_ret |].
  apply wp_bind. intros b k1 E1. destruct (reader_cpu_load va k k b k1 ltac:(done) E1) as [-> _].
  assert (byte_ok b) as Hb.
  { destruct Hs as [owner Hm]. unfold cpu_load in E1.
    rewrite (proj2 (Z.leb_le 0 va)), (proj2 (Z.ltb_lt va (2 ^ 47))) in E1 by lia. cbn [andb] in E1.
    destruct (phys_for_virt _ _ va); [| done]. injection E1 as <-. apply (inv_mem _ _ _ (mi_pt _ _ _ _ Hm)). }
  apply wp_bind. assert (wp (load_bytes (wrap 64 (va + 1)) n) k (fun l _ => length l = n /\ Forall byte_ok l)) as Hn.
  { destruct n as [| n]; [by apply wp_ret |]. unfold wrap. rewrite Z.mod_small by lia. apply IH. split; lia. }
  eapply wp_mono; [exact Hn |]. intros l k1 [Hl Hall]. apply wp_ret. split; [simpl; by f_equal | by constructor].
Qed.

Lemma load_u64_range e k (va : Z) : safe e k -> user_buf va 8 -> wp (load_u64 va) k (fun w k' => k' = k /\ 0 <= w < 2 ^ 64).
Proof.
  intros Hs Hb w k' E. destruct (reader_load_u64 va k k w k' ltac:(done) E) as [-> _]. split; [done |].
  unfold load_u64 in E. apply st_bind_Ret in E as (l & k1 & E1 & [= <- _]).
  destruct (load_bytes_ok e k va 8 Hs Hb l k1 E1) as [Hl Hall].
  pose proof (le_val_range l Hall) as Hr. unfold zlen in Hr. rewrite Hl in Hr. exact Hr.
Qed.

Lemma read_recv_msg_range e k (ptr : Z) :
  safe e k -> user_buf ptr 88 ->
  wp (read_recv_msg ptr) k (fun out k' => k' = k /\ 0 <= rm_caps_out out < 2 ^ 64 /\ 0 <= rm_caps_max out < 2 ^ 64).
Proof.
  intros Hs [Hp Hend] out k' E. destruct (reader_read_recv_msg ptr k k out k' ltac:(done) E) as [-> _]. split; [done |].
  revert out E. unfold read_recv_msg, wrap. rewrite !Z.mod_small by lia. intros out.
  intros (regs & k1 & E1 & E)%st_bind_Ret. destruct (reader_load_u64s ptr 6 k k regs k1 ltac:(done) E1) as [-> _].
  apply st_bind_Ret in E as (w1 & k1 & E2 & E). destruct (load_u64_range e k (ptr + 48) Hs ltac:(split; lia) w1 k1 E2) as [-> H1'].
  apply st_bind_Ret in E as (w2 & k1 & E3 & E). destruct (load_u64_range e k (ptr + 56) Hs ltac:(split; lia) w2 k1 E3) as [-> H2'].
  apply st_bind_Ret in E as (w3 & k1 & E4 & E). apply st_bind_Ret in E as (w4 & k3 & E5 & E).
  apply st_bind_Ret in E as (w5 & k4 & E6 & E). injection E as <- _. done.
Qed.

Lemma store_bytes_sched (l : list Z) k k' (va : Z) (u : unit) : store_bytes va l k = Ret (u, k') -> k_sched k' = k_sched k.
Proof.
  revert va k. induction l as [| b l IH]; intros va k; cbn [store_bytes]; [by intros [= _ <-] |].
  intros (x & k1 & E1 & E2)%st_bind_Ret. rewrite (IH _ _ E2). revert E1. unfold cpu_store. case_match.
  - case_match; [| done]. by intros [= _ <-].
  - by intros (v & _ & [= _ <-])%obind_Ret.
Qed.

(** The ids of [n] capabilities, from [id] on, in the receiver's array. *)
Definition id_bytes (id n : Z) : list Z := seqZ id n ≫= le_bytes 4.

Lemma id_bytes_cons (id n : Z) : 0 <= n -> id_bytes id (1 + n) = le_bytes 4 id ++ id_bytes (id + 1) n.
Proof. intros Hn. unfold id_bytes. rewrite seqZ_cons by lia. rewrite bind_cons. do 3 f_equal; lia. Qed.

Lemma id_bytes_length (id n : Z) : 0 <= n -> zlen (id_bytes id n) = 4 * n.
Proof.
  intros Hn. replace n with (Z.of_nat (Z.to_nat n)) by lia. generalize (Z.to_nat n) as m. intros m. clear Hn. revert id.
  induction m as [| m IH]; intros id; [done |]. replace (Z.of_nat (S m)) with (1 + Z.of_nat m) by lia.
  rewrite id_bytes_cons by lia. unfold zlen in *. rewrite length_app, le_bytes_length, Nat2Z.inj_add, IH. lia.
Qed.

(** [bs] has been written at [va], and nothing else, in the running program. *)
Definition wrote k k' (va : Z) (bs : list Z) : Prop :=
  active k' = active k /\
  forall va', 0 <= va' < 2 ^ 47 ->
    phys_for_virt (vm_mem (k_vmm k')) (active k) va' = phys_for_virt (vm_mem (k_vmm k)) (active k) va' /\
    ubyte k' va' = if (va <=? va') && (va' <? va + zlen bs) then bs !! Z.to_nat (va' - va) else ubyte k va'.

Lemma wrote_app k k1 k' (va : Z) (bs bs' : list Z) :
  wrote k k1 va bs -> wrote k1 k' (va + zlen bs) bs' -> wrote k k' va (bs ++ bs').
Proof.
  intros [A1 A2] [B1 B2]. rewrite A1 in *. split; [done |]. intros va' Hva'.
  destruct (A2 va' Hva') as [T1 U1], (B2 va' Hva') as [T2 U2]. split; [congruence |]. rewrite U2, U1.
  assert (zlen (bs ++ bs') = zlen bs + zlen bs') as -> by (unfold zlen; rewrite length_app; lia).
  assert (0 <= zlen bs /\ 0 <= zlen bs') as [? ?] by (unfold zlen; lia).
  destruct (Z.leb_spec (va + zlen bs) va'), (Z.leb_spec va va'), (Z.ltb_spec va' (va + zlen bs + zlen bs')),
    (Z.ltb_spec va' (va + zlen bs)), (Z.ltb_spec va' (va + (zlen bs + zlen bs'))); simpl; try lia; try done.
  - rewrite lookup_app_r by (unfold zlen in *; lia). f_equal. unfold zlen in *. lia.
  - rewrite lookup_app_l by (unfold zlen in *; lia). done.
Qed.

Lemma wrote_nil k (va : Z) : wrote k k va [].
Proof.
  split; [done |]. intros va' _. split; [done |]. change (zlen []) with 0. rewrite Z.add_0_r.
  destruct (Z.leb_spec va va'), (Z.ltb_spec va' va); simpl; (done || lia).
Qed.

Lemma caps_added_same k k0 k' (task : Z) (cs : list Cap) : k_caps k0 = k_caps k -> caps_added k0 k' task cs -> caps_added k k' task cs.
Proof. intros E. unfold caps_added, others_kept, table. by rewrite E. Qed.

Lemma only_caps_wrote k k1 k' (va : Z) (bs : list Z) : only_caps k k1 -> wrote k1 k' va bs -> wrote k k' va bs.
Proof.
  intros (Hv & Hs & _) [B1 B2]. assert (active k1 = active k) as Ea by (unfold active; by rewrite Hv, Hs).
  split; [congruence |]. intros va' Hva'. destruct (B2 va' Hva') as [T U]. unfold ubyte in *. rewrite Ea, Hv in *. done.
Qed.

Lemma deliver_caps_spec (cs : list Cap) e k (task out : Z) :
  safe e k -> tables_ok k -> user_buf out (4 * zlen cs) ->
  wp (deliver_caps task out cs) k (fun _ k' =>
    caps_added k k' task cs /\ tables_ok k' /\ k_sched k' = k_sched k /\
    wrote k k' out (id_bytes (next (table k task)) (zlen cs)) /\
    (cs = [] \/ next (table k task) + zlen cs < 2 ^ 31)).
Proof.
  revert out k. induction cs as [| c cs IH]; intros out k Hs Hk [Ho Hend]; cbn [deliver_caps].
  { apply wp_ret. split; [by apply caps_added_nil |]. split; [done |]. split; [done |]. split; [apply wrote_nil | by left]. }
  rewrite zlen_cons in *. assert (0 <= zlen cs) by (unfold zlen; lia).
  apply wp_bind. intros id k1 E1. destruct (caps_install_one k task id c k1 Hk E1) as (-> & Ho1 & Ht1 & Ha1).
  assert (safe e k1) as Hs1 by (eapply (safe_same managed); [by apply only_caps_mem | by apply Ho1 | done]).
  set (id := next (table k task)) in *. assert (1 <= id /\ id + 1 < 2 ^ 31) as Hid.
  { destruct (table_ok k task Hk) as [Hn _]. fold id in Hn. split; [done |]. unfold caps_install, install in E1.
    apply obind_Ret in E1 as (? & E1 & _). fold id in E1. unfold ichecked, ifits in E1. case_match eqn:Ef; [| done].
    apply andb_true_iff in Ef as [_ Ef%Z.ltb_lt]. lia. }
  apply wp_bind. intros u k2 E2. unfold store_i32 in E2. unfold wrap in E2. rewrite Z.mod_small in E2 by lia.
  destruct (store_bytes_ubyte (le_bytes 4 id) e k1 k2 out u Hs1) as [Ha2 Hu2];
    [unfold user_buf, zlen; rewrite le_bytes_length; lia | apply le_bytes_ok | exact E2 |].
  pose proof (store_bytes_sched _ _ _ _ _ E2) as Hsc2. destruct (inert_store_bytes out _ k1 u k2 E2) as (Hc2 & _).
  assert (safe e k2) as Hs2.
  { eapply (safe_store managed e k1 out (le_bytes 4 id) Hs1); [| apply le_bytes_ok | exact E2].
    unfold user_buf, zlen. rewrite le_bytes_length. lia. }
  assert (wrote k k2 out (le_bytes 4 id)) as Hw by (eapply only_caps_wrote; [exact Ho1 | by split]).
  assert (wp (deliver_caps task (wrap 64 (out + 4)) cs) k2 (fun _ k' =>
    caps_added k2 k' task cs /\ tables_ok k' /\ k_sched k' = k_sched k2 /\
    wrote k2 k' (out + 4) (id_bytes (next (table k2 task)) (zlen cs)) /\
    (cs = [] \/ next (table k2 task) + zlen cs < 2 ^ 31))) as HI.
  { assert (tables_ok k2) as Ht2 by (unfold tables_ok; by rewrite Hc2). destruct cs as [| c' cs].
    - apply wp_ret. split; [by apply caps_added_nil |]. split; [done |]. split; [done |]. split; [apply wrote_nil | by left].
    - assert (0 < zlen (c' :: cs)) by (rewrite zlen_cons; unfold zlen; lia).
      unfold wrap. rewrite Z.mod_small by lia. apply IH; [done | done | split; lia]. }
  eapply wp_mono; [exact HI |]. intros x k3 (Ha3 & Ht3 & Hsc3 & Hw3 & Hb3).
  assert (next (table k2 task) = id + 1) as En by (unfold table; rewrite Hc2; apply Ha1).
  destruct Ho1 as (_ & Hsc1 & _). split; [| split; [done |]; split; [congruence |]; split].
  - eapply caps_added_cons; [exact Ha1 | by eapply caps_added_same].
  - rewrite id_bytes_cons by done. eapply wrote_app; [exact Hw |].
    unfold zlen at 1. rewrite le_bytes_length. rewrite En in Hw3. exact Hw3.
  - right. rewrite En in Hb3. destruct Hb3 as [-> | ?]; [change (zlen []) with 0; lia | lia].
Qed.

(** Reading the ids back. *)
Lemma load_ids k (va id : Z) (n : nat) :
  user_buf va (4 * Z.of_nat n) -> 1 <= id -> id + Z.of_nat n <= 2 ^ 31 ->
  (forall i b, id_bytes id (Z.of_nat n) !! i = Some b -> ubyte k (va + Z.of_nat i) = Some b) ->
  load_i32s va n k = Ret (seqZ id (Z.of_nat n), k).
Proof.
  revert va id. induction n as [| n IH]; intros va id [Hv Hend] Hid Hmax Hl; [done |]. cbn [load_i32s].
  replace (Z.of_nat (S n)) with (1 + Z.of_nat n) in * by lia. rewrite id_bytes_cons in Hl by lia.
  assert (load_i32 va k = Ret (id, k)) as E1.
  { unfold load_i32. change 4%nat with (length (le_bytes 4 id)) at 1.
    rewrite (st_bind_step _ _ k k (le_bytes 4 id)).
    - unfold st_ret. rewrite le_val_bytes by (simpl; lia). do 2 f_equal. unfold signed. rewrite Z.mod_small by lia.
      by rewrite (proj2 (Z.ltb_lt _ _)) by lia.
    - apply load_bytes_ubyte; [unfold user_buf, zlen; rewrite le_bytes_length; lia |].
      intros i b Hi. apply Hl. by apply lookup_app_l_Some. }
  rewrite (st_bind_step _ _ k k id E1).
  assert (load_i32s (wrap 64 (va + 4)) n k = Ret (seqZ (id + 1) (Z.of_nat n), k)) as E2.
  { destruct n as [| n]; [done |]. unfold wrap. rewrite Z.mod_small by lia. apply IH; [split; lia | lia | lia |].
    intros i b Hi. replace (va + 4 + Z.of_nat i) with (va + Z.of_nat (4 + i)) by lia. apply Hl.
    rewrite lookup_app_r by (rewrite le_bytes_length; lia). rewrite le_bytes_length. by replace (4 + i - 4)%nat with i by lia. }
  rewrite (st_bind_step _ _ k k _ E2). unfold st_ret. rewrite (seqZ_cons id) by lia.
  replace (Z.pred (1 + Z.of_nat n)) with (Z.of_nat n) by lia. done.
Qed.

Lemma words_length (ws : list Z) : zlen (ws ≫= le_bytes 8) = 8 * zlen ws.
Proof.
  induction ws as [| w ws IH]; [done |]. rewrite bind_cons, zlen_cons. unfold zlen in *. rewrite length_app, le_bytes_length. lia.
Qed.

(** The last step of [deliver]: the words are in the buffer, and no translation
    has changed. *)
Lemma store_words e k k' (ptr : Z) (ws : list Z) (u : unit) :
  safe e k -> user_buf ptr (8 * zlen ws) -> Forall (fun w => 0 <= w < 2 ^ 64) ws -> store_u64s ptr ws k = Ret (u, k') ->
  load_u64s ptr (length ws) k' = Ret (ws, k') /\ k_caps k' = k_caps k /\ wrote k k' ptr (ws ≫= le_bytes 8).
Proof.
  intros Hs Hb Hws E. unfold store_u64s in E.
  pose proof (words_length ws) as Hlen.
  destruct (store_bytes_ubyte (ws ≫= le_bytes 8) e k k' ptr u Hs) as [Ha Hu].
  { by rewrite Hlen. }
  { apply Forall_bind, Forall_true. intros w. apply le_bytes_ok. }
  { exact E. }
  split; [| split; [| by split]].
  - apply load_u64s_ubyte; [done | done |]. intros i b Hi. pose proof (lookup_lt_Some _ _ _ Hi) as Hlt.
    destruct (Hu (ptr + Z.of_nat i)) as [_ ->]; [unfold user_buf, zlen in *; lia |].
    rewrite (proj2 (Z.leb_le ptr _)), (proj2 (Z.ltb_lt _ _)) by (unfold zlen; lia). cbn [andb].
    by replace (Z.to_nat (ptr + Z.of_nat i - ptr)) with i by lia.
  - by apply (inert_store_bytes ptr _ k u k' E).
Qed.

Lemma free_pages_sched (l : list Z) k : wp (free_pages l) k (fun _ k' => k_sched k' = k_sched k).
Proof.
  revert k. induction l as [| f l IH]; intros k; cbn [free_pages]; [by apply wp_ret |].
  intros u k' (fa & _ & E)%obind_Ret. by rewrite (IH _ u k' E).
Qed.

Lemma deliver_pages_sched k (task : Z) (m : Message) : wp (deliver_pages task m) k (fun _ k' => k_sched k' = k_sched k).
Proof.
  unfold deliver_pages. apply wp_bind. intros sp k0 E0. injection E0 as _ <-.
  assert (forall code k0, k_sched k0 = k_sched k ->
    wp (let* _ := drop_message m in early (X := Z) code) k0 (fun _ k' => k_sched k' = k_sched k)) as Hdrop.
  { intros code k0 Hk0. apply wp_bind. eapply wp_mono; [apply free_pages_sched |]. intros u k1 Hk1. apply wp_ret. congruence. }
  destruct sp as [sp |]; [| by apply Hdrop]. apply wp_bind. intros mem k1 E1. unfold on_vmm, get_mem in E1. injection E1 as _ <-.
  apply wp_bind, wp_lift. intros [va |] _; [| by apply Hdrop]. apply wp_bind. intros r k1 E1. unfold on_vmm in E1.
  apply obind_Ret in E1 as ([r' v] & _ & E1). injection E1 as _ <-. destruct r; [by apply wp_ret | by apply Hdrop].
Qed.

(** The two middle steps of [deliver]. *)
Lemma put_caps_step k k1 (task : Z) (out : RecvMsg) (m : Message) (u : unit) :
  safe (m_pages m) k -> msg_ok m -> tables_ok k -> user_buf (rm_caps_out out) (4 * MAX_CAPS) ->
  put_caps task m out k = Ret (u, k1) ->
  safe (m_pages m) k1 /\ caps_added k k1 task (m_caps m) /\ tables_ok k1 /\ k_sched k1 = k_sched k /\
  wrote k k1 (rm_caps_out out) (id_bytes (next (table k task)) (zlen (m_caps m))) /\
  (m_caps m = [] \/ next (table k task) + zlen (m_caps m) < 2 ^ 31).
Proof.
  intros Hs (_ & Hcaps & _) Ht Hb. unfold put_caps. case_bool_decide as Hnil.
  { rewrite Hnil. intros [= _ <-]. split; [done |]. split; [by apply caps_added_nil |]. split; [done |]. split; [done |].
    split; [apply wrote_nil | by left]. }
  intros (u' & k0 & E0 & E)%st_bind_Ret.
  assert (k0 = k) as -> by (unfold aligned in E0; case_match; [by injection E0 | done]).
  assert (user_buf (rm_caps_out out) (4 * zlen (m_caps m))) as Hb' by (unfold user_buf in *; lia).
  split; [| by apply (deliver_caps_spec (m_caps m) (m_pages m) k task _ Hs Ht Hb' u k1)].
  by apply (deliver_caps_safe managed (m_pages m) k task _ (m_caps m) Hs Hb' u k1).
Qed.

Lemma deliver_pages_step k k2 (task : Z) (x : Task) (m : Message) (sp : Z) (r : result (Z * Z) Z) :
  safe (m_pages m) k -> msg_ok m -> tasks (k_sched k) !! task = Some x -> t_addr_space x = Some sp ->
  (if 0 <? m_len m then let? va := deliver_pages task m in st_ret (Ok (va, m_len m))
   else let* _ := drop_message m in st_ret (Ok (0, 0))) k = Ret (r, k2) ->
  k_sched k2 = k_sched k /\ k_caps k2 = k_caps k /\
  match r with
  | Ok (va, len) => len = m_len m /\ safe [] k2 /\ (0 <= va /\ va + zlen (m_pages m) * PAGE_SIZE <= 2 ^ 46) /\ va mod 4096 = 0 /\
                    installed (vm_mem (k_vmm k2)) sp va 0 (m_pages m) /\ bytes_kept k k2 sp
  | Err _ => True
  end.
Proof.
  intros Hs Hm Hx Hsp. destruct (Z.ltb_spec 0 (m_len m)) as [Hpos | Hz].
  - intros (rv & k1 & E1 & E)%st_bind_Ret. pose proof (deliver_pages_sched k task m rv k1 E1) as Hsc.
    destruct (inert_deliver_pages task m k rv k1 E1) as (Hc & _).
    pose proof (deliver_pages_safe managed k task m Hs Hm Hpos rv k1 E1) as Hd.
    destruct rv as [va | er]; injection E as <- <-; [| done]. destruct Hd as (Hs1 & (Hva & Hmod & Hp) & Hkept).
    split; [done |]. split; [done |]. split; [done |]. split; [done |]. split; [done |]. split; [done |].
    split; [apply (Hp x sp) | apply (Hkept x sp)]; try done; by rewrite Hsc.
  - unfold drop_message. intros (u & k1 & E1 & E)%st_bind_Ret. injection E as <- <-.
    pose proof (free_pages_sched (m_pages m) k u k1 E1) as Hsc. destruct (inert_free_pages (m_pages m) k u k1 E1) as (Hc & _).
    destruct Hm as (_ & _ & Hlen & _). assert (m_pages m = []) as Hnil.
    { destruct (m_pages m); [done |]. rewrite zlen_cons in Hlen. unfold zlen, PAGE_SIZE in Hlen. lia. }
    rewrite Hnil in *. injection E1 as _ <-. split; [done |]. split; [done |]. split; [rewrite Hlen; done |].
    split; [done |]. split; [lia |]. split; [done |]. split; [by intros i f | by intros va p].
Qed.

(** The ids survive the later steps of [deliver]. *)
Lemma array_kept k k1 k2 k3 (ptr out id : Z) (ws : list Z) (n : nat) :
  user_buf out (4 * Z.of_nat n) -> 1 <= id -> n = 0%nat \/ id + Z.of_nat n < 2 ^ 31 ->
  wrote k k1 out (id_bytes id (Z.of_nat n)) -> active k2 = active k -> bytes_kept k1 k2 (active k) ->
  wrote k2 k3 ptr (ws ≫= le_bytes 8) -> out + 4 * Z.of_nat n <= ptr \/ ptr + 8 * zlen ws <= out ->
  load_i32s out n k3 = Ret (seqZ id (Z.of_nat n), k3).
Proof.
  intros [Ho Hend] Hid Hn [A1 A2] Ea Hk [B1 B2] Hdis. destruct n as [| n]; [done |]. destruct Hn as [? | Hn]; [done |].
  set (m := Z.of_nat (S n)) in *. assert (0 <= m) by (unfold m; lia). unfold m. apply load_ids; [by split | done | lia |]. fold m.
  intros i b Hi. pose proof (lookup_lt_Some _ _ _ Hi) as Hlt. pose proof (id_bytes_length id m ltac:(done)) as Hlen.
  assert (0 <= out + Z.of_nat i < 2 ^ 47 /\ Z.of_nat i < 4 * m) as [Hva Hi4] by (unfold zlen in Hlen; lia).
  assert (ubyte k1 (out + Z.of_nat i) = Some b) as Hu1.
  { destruct (A2 _ Hva) as [_ ->]. rewrite Hlen, (proj2 (Z.leb_le _ _)), (proj2 (Z.ltb_lt _ _)) by lia. cbn [andb].
    by replace (Z.to_nat (out + Z.of_nat i - out)) with i by lia. }
  assert (ubyte k2 (out + Z.of_nat i) = Some b) as Hu2.
  { unfold ubyte in *. rewrite A1 in Hu1. rewrite Ea.
    destruct (phys_for_virt _ (active k) (out + Z.of_nat i)) as [p |] eqn:Ep; [| done].
    destruct (Hk _ p Hva Ep) as [-> Hb]. simpl in *. by rewrite Hb. }
  destruct (B2 _ Hva) as [_ ->]. rewrite words_length.
  destruct (Z.leb_spec ptr (out + Z.of_nat i)), (Z.ltb_spec (out + Z.of_nat i) (ptr + 8 * zlen ws)); simpl; (done || lia).
Qed.

(** C19 What was sent is what is received: when [sys_recv] delivers message [m] the
    eleven words of the receiver's buffer, read back through its page tables,
    are the six registers of the message, the two buffer fields as they were,
    the number of capabilities, and address and length of the payload; page [i]
    of the payload is frame [i] of the message in the receiver's space.  The
    capabilities of the message have been added, in order, to the table of the
    receiver and of no other task, under ids that were free; and these are the
    ids the receiver then reads, in order, from its array, provided the array
    does not overlap the buffer. *)
Theorem recv_delivers_message k k' (task : Z) (x : Task) (m : Message) (sp ptr v : Z) :
  safe (m_pages m) k -> msg_ok m -> Forall (fun w => 0 <= w < 2 ^ 64) (m_regs m) -> tables_ok k -> buffer_ok k ptr ->
  tasks (k_sched k) !! task = Some x -> t_addr_space x = Some sp -> cpu_pml4 (k_sched k) = Some sp ->
  deliver task m ptr k = Ret (Ok v, k') ->
  exists out va, read_recv_msg ptr k = Ret (out, k) /\
    load_u64s ptr 11 k' =
      Ret (recv_words (mkRecvMsg (m_regs m) (rm_caps_out out) (rm_caps_max out) (zlen (m_caps m)) va (m_len m)), k') /\
    (forall i f, m_pages m !! i = Some f ->
       phys_for_virt (vm_mem (k_vmm k')) sp (va + Z.of_nat i * PAGE_SIZE) = Some f) /\
    caps_added k k' task (m_caps m) /\
    (rm_caps_out out + 4 * zlen (m_caps m) <= ptr \/ ptr + 88 <= rm_caps_out out ->
     load_i32s (rm_caps_out out) (length (m_caps m)) k' = Ret (seqZ (next (table k task)) (zlen (m_caps m)), k')).
Proof.
  intros Hs Hm Hregs Htab [Hptr Hbuf] Htask Hsp Hcpu E. unfold deliver in E. apply st_bind_Ret in E as (out & k0 & E0 & E).
  destruct (read_recv_msg_range _ k ptr Hs Hptr out k0 E0) as (-> & Hco & Hcm). specialize (Hbuf out E0).
  case_match. { apply st_bind_Ret in E as (u & k1 & _ & E). discriminate E. }
  apply st_bind_Ret in E as (u & k1 & E1 & E).
  destruct (put_caps_step k k1 task out m u Hs Hm Htab Hbuf E1) as (Hs1 & Hadd & Ht1 & Hsc1 & Hw1 & Hbd).
  assert (active k = sp) as Ha by (unfold active; by rewrite Hcpu).
  apply st_bind_Ret in E as (r & k2 & E2 & E). rewrite <- Hsc1 in Htask, Hcpu.
  destruct (deliver_pages_step k1 k2 task x m sp r Hs1 Hm Htask Hsp E2) as (Hsc2 & Hc2 & Hr). rewrite <- Hsc2 in Hcpu.
  destruct r as [[va len] | er]; [| discriminate E]. destruct Hr as (-> & Hs2 & Hva & Hmod & Hinst & Hkept).
  apply st_bind_Ret in E as (u' & k3 & E3 & E). injection E as _ <-. destruct Hm as (Hr6 & Hcaps & Hlen & Hmax).
  assert (active k2 = sp) as Ha2 by (unfold active; by rewrite Hcpu).
  set (ws := recv_words _) in E3. assert (length ws = 11%nat) as Hl by (unfold ws, recv_words; simpl; rewrite length_app, Hr6; done).
  destruct (store_words [] k2 k3 ptr ws u' Hs2) as (Hw & Hc3 & Hw3); [| | exact E3 |].
  { unfold zlen. rewrite Hl. exact Hptr. }
  { unfold ws, recv_words. simpl. apply Forall_app. split; [done |]. unfold zlen, MAX_CAPS, PAGE_SIZE in *.
    repeat (constructor; [lia |]). constructor. }
  exists out, va. split; [done |]. rewrite Hl in Hw. split; [exact Hw |]. split; [| split].
  - intros i f Hf. destruct (Hinst i f Hf) as (e & Hle & <- & _). rewrite <- Ha2. destruct Hw3 as [_ Htr].
    destruct (Htr (va + Z.of_nat i * PAGE_SIZE)) as [-> _].
    + apply lookup_lt_Some in Hf. unfold zlen, PAGE_SIZE in *. lia.
    + rewrite Ha2, (phys_for_virt_page _ _ _ e); [| exact Hle]. unfold PAGE_SIZE. rewrite Z.mod_add by lia. rewrite Hmod. f_equal. lia.
  - unfold caps_added, others_kept, table in *. by rewrite Hc3, Hc2.
  - intros Hdis. unfold zlen in *. eapply (array_kept k k1 k2 k3 ptr _ _ ws); [| exact (proj1 (table_ok k task Htab)) | | exact Hw1 | | | exact Hw3 |].
    + unfold user_buf, zlen in *. lia.
    + destruct Hbd as [Hnil | ?]; [left; by rewrite Hnil | by right].
    + congruence.
    + by rewrite Ha.
    + unfold zlen. rewrite Hl. exact Hdis.
Qed.
End Recv.

(** ** Witness *)

(** Spring takes the message of [mail_sent], with its capability and its page,
    out of the queue, into the buffer at 0x400200 with the array at 0x400300. *)
Definition mail_msg_in : Message := mkMessage [7; 0; 0; 0; 0; 0] [cap_port 0x1000001 7] [0xC000] 0x1000.
Definition mail_popped : Kernel PmmState := after (port_pop 0x1000000) mail_sent.
Definition mail_done : Kernel PmmState := after (deliver 2 mail_msg_in 0x400200) mail_popped.

Lemma mail_popped_ok : port_pop 0x1000000 mail_sent = Ret (Some mail_msg_in, mail_popped).
Proof.
  assert (match port_pop 0x1000000 mail_sent with Ret (o, _) => o | _ => None end = Some mail_msg_in) as H
    by (vm_compute; reflexivity).
  unfold mail_popped, after. destruct (port_pop 0x1000000 mail_sent) as [[o k] | | |]; try discriminate H. by rewrite H.
Qed.

Lemma mail_popped_safe : msg_ok mail_msg_in /\ IpcFrames.safe all_managed (m_pages mail_msg_in) mail_popped.
Proof.
  pose proof (frame_steps_safe all_managed _ _ mail_sent_steps mail_boot_safe) as Hs.
  pose proof (safe_pop all_managed [] mail_sent 0x1000000 Hs (Some mail_msg_in) mail_popped mail_popped_ok) as (_ & Hm & Hp).
  split; [exact Hm |]. rewrite app_nil_r in Hp. exact Hp.
Qed.

Lemma mail_popped_tables : tables_ok mail_popped.
Proof. apply tables_ok_all. refine (bool_decide_unpack _ _). vm_compute. exact I. Qed.

(** What the receiver put in its buffer. *)
Lemma mail_buffer (out : RecvMsg) :
  read_recv_msg 0x400200 mail_popped = Ret (out, mail_popped) -> rm_caps_out out = 0x400300 /\ rm_caps_max out = 4.
Proof.
  intros E. assert (match read_recv_msg 0x400200 mail_popped with
    | Ret (o, _) => (rm_caps_out o =? 0x400300) && (rm_caps_max o =? 4) | _ => false end = true) as H by (vm_compute; reflexivity).
  rewrite E in H. apply andb_true_iff in H as [H1%Z.eqb_eq H2%Z.eqb_eq]. exact (conj H1 H2).
Qed.

Lemma mail_done_ok : exists v, deliver 2 mail_msg_in 0x400200 mail_popped = Ret (Ok v, mail_done).
Proof.
  assert (match deliver 2 mail_msg_in 0x400200 mail_popped with Ret (Ok _, _) => true | _ => false end = true) as H
    by (vm_compute; reflexivity).
  unfold mail_done, after. destruct (deliver 2 mail_msg_in 0x400200 mail_popped) as [[[v | e] k] | | |]; try discriminate H.
  by exists v.
Qed.

Lemma recv_delivers_message_witness : exists va,
  load_u64s 0x400200 11 mail_done = Ret ([7; 0; 0; 0; 0; 0; 0x400300; 4; 1; va; 0x1000], mail_done) /\
  phys_for_virt (vm_mem (k_vmm mail_done)) 0x9000 va = Some 0xC000 /\
  load_i32s 0x400300 1 mail_done = Ret ([4], mail_done) /\ cap_get (table mail_done 2) 4 = Some (cap_port 0x1000001 7).
Proof.
  destruct mail_done_ok as [v E]. destruct mail_popped_safe as [Hm Hs].
  destruct (tasks demo_sched !! 2) as [x |] eqn:Hx; [| vm_compute in Hx; discriminate Hx].
  assert (next (table mail_popped 2) = 4) as Hn by (vm_compute; reflexivity).
  destruct (recv_delivers_message all_managed mail_popped mail_done 2 x mail_msg_in 0x9000 0x400200 v Hs Hm)
    as (out & va & Eo & Hw & Hp & (Hadd & _) & Hids).
  - repeat (constructor; [lia |]). constructor.
  - exact mail_popped_tables.
  - split; [unfold user_buf; lia |]. intros out Eo. rewrite (proj1 (mail_buffer out Eo)). unfold user_buf, MAX_CAPS. lia.
  - replace (k_sched mail_popped) with demo_sched by (vm_compute; reflexivity). exact Hx.
  - vm_compute in Hx. injection Hx as <-. reflexivity.
  - vm_compute. reflexivity.
  - exact E.
  - destruct (mail_buffer out Eo) as [H1 H2]. rewrite H1, H2 in *. exists va. split; [exact Hw |].
    split; [rewrite <- (Z.add_0_r va); apply (Hp 0%nat); reflexivity |]. rewrite Hn in *.
    split; [apply Hids; right; vm_compute; congruence |]. rewrite Hadd. reflexivity.
Defined.
