(* ===== verification/PortIo.v ===== *)
(** * Port and memory-mapped I/O

    The devices are not part of the sources: what they answer is a parameter.
    The [in] and [out] instructions of [kernel/src/arch/x86_64/mod.rs] and the
    volatile accesses of the drivers go through these classes, whose state [W]
    is the state of the hardware. *)

From S2P Require Import Prelude.

(** [port_in bits port] and [port_out bits port value]. *)
Class PortIO (W : Type) : Type := {
  port_in : Z -> Z -> W -> Z * W;
  port_out : Z -> Z -> Z -> W -> W
}.

(** The width of a read. *)
Class PortIOLaws (W : Type) `{PortIO W} : Prop := {
  port_in_range : forall bits port w, 0 <= bits -> 0 <= (port_in bits port w).1 < 2 ^ bits
}.

Section Ports.
  Context {W : Type} `{PortIO W}.

Definition inb (port : Z) : ST W Z := fun w => Ret (port_in 8 port w).
Definition outb (port val : Z) : ST W unit := fun w => Ret (tt, port_out 8 port val w).
Definition inw (port : Z) : ST W Z := fun w => Ret (port_in 16 port w).
Definition outw (port val : Z) : ST W unit := fun w => Ret (tt, port_out 16 port val w).
Definition inl (port : Z) : ST W Z := fun w => Ret (port_in 32 port w).
Definition outl (port val : Z) : ST W unit := fun w => Ret (tt, port_out 32 port val w).

End Ports.
