(* ===== verification/Serial.v ===== *)
(** * Serial console

    [kernel/src/drivers/serial.rs].  [write_byte] spins until the transmitter
    is ready, so the operations take the number of polls it may make. *)

From S2P Require Import Prelude PortIo.

Definition COM1 : Z := 0x3F8.

Section Serial.
  Context {W : Type} `{PortIO W}.

(** A register of the UART: [self.base + n] on a [u16]. *)
Definition reg (base n : Z) : ST W Z := st_lift (checked 16 (base + n)).

Definition serial_init (base : Z) : ST W unit :=
  let* r1 := reg base 1 in let* _ := outb r1 0x00 in
  let* r3 := reg base 3 in let* _ := outb r3 0x80 in
  let* _ := outb base 0x01 in
  let* r1 := reg base 1 in let* _ := outb r1 0x00 in
  let* r3 := reg base 3 in let* _ := outb r3 0x03 in
  let* r2 := reg base 2 in let* _ := outb r2 0xC7 in
  let* r4 := reg base 4 in outb r4 0x0B.

Definition can_write (base : Z) : ST W bool :=
  let* r5 := reg base 5 in
  let* s := inb r5 in
  st_ret (negb (Z.land s 0x20 =? 0)).

Fixpoint write_byte (fuel : nat) (base b : Z) : ST W unit :=
  match fuel with
  | O => st_lift OutOfFuel
  | S fuel =>
      let* ready := can_write base in
      if ready then outb base b else write_byte fuel base b
  end.

Fixpoint write_bytes (fuel : nat) (base : Z) (l : list Z) : ST W unit :=
  match l with
  | [] => st_ret tt
  | b :: l => let* _ := write_byte fuel base b in write_bytes fuel base l
  end.

(** [write_str] puts a carriage return before a line feed. *)
Fixpoint write_str (fuel : nat) (base : Z) (s : list Z) : ST W unit :=
  match s with
  | [] => st_ret tt
  | b :: s =>
      let* _ := (if b =? 10 then write_byte fuel base 13 else st_ret tt) in
      let* _ := write_byte fuel base b in
      write_str fuel base s
  end.

(** The digits of [write_dec_u32], most significant first: [buf] has ten bytes
    and is filled from the end. *)
Fixpoint dec_digits (n : nat) (v : Z) (acc : list Z) : outcome (list Z) :=
  if v <=? 0 then Ret acc
  else match n with
       | O => Panic
       | S n => dec_digits n (v / 10) ((48 + v mod 10) :: acc)
       end.
Definition write_dec_u32 (fuel : nat) (base v : Z) : ST W unit :=
  if v =? 0 then write_byte fuel base 48
  else let* ds := st_lift (dec_digits 10 v []) in write_bytes fuel base ds.

End Serial.

(** Ten digits are enough for a [u32]. *)
Lemma dec_digits_total (n : nat) (v : Z) (acc : list Z) :
  0 <= v < 10 ^ Z.of_nat n -> exists ds, dec_digits n v acc = Ret ds.
Proof.
  revert v acc. induction n as [| n IH]; intros v acc Hv; cbn [dec_digits].
  { destruct (Z.leb_spec v 0); [eauto | simpl in Hv; lia]. }
  destruct (Z.leb_spec v 0); [eauto |]. apply IH.
  rewrite Nat2Z.inj_succ, Z.pow_succ_r in Hv by lia.
  split; [apply Z.div_pos; lia | apply Z.div_lt_upper_bound; lia].
Qed.
