(* ===== verification/Ps2.v ===== *)
(** * PS/2 keyboard

    [kernel/src/drivers/ps2.rs]: the decoder of scan codes, the two byte queues
    it feeds (one for the terminal, one for programs that poll for events), and
    the polling of the controller. *)

From S2P Require Import Prelude PortIo.

Definition DATA_PORT : Z := 0x60.
Definition STATUS_PORT : Z := 0x64.
Definition STATUS_OUTPUT_FULL : Z := Z.shiftl 1 0.
Definition STATUS_INPUT_FULL : Z := Z.shiftl 1 1.
Definition STATUS_AUX_DATA : Z := Z.shiftl 1 5.
Definition INPUT_QUEUE : Z := 32.

(** ** Byte queues *)

Record ByteQueue : Type := mkByteQueue { q_buf : list Z; q_head : Z; q_len : Z }.
Definition byte_queue_new : ByteQueue := mkByteQueue (replicate 32 0) 0 0.

(** A full queue loses its oldest byte. *)
Definition q_push (q : ByteQueue) (b : Z) : outcome ByteQueue :=
  if q_len q =? INPUT_QUEUE then
    let! buf := upd (q_buf q) (q_head q) b in
    Ret (mkByteQueue buf ((q_head q + 1) mod INPUT_QUEUE) (q_len q))
  else
    let idx := (q_head q + q_len q) mod INPUT_QUEUE in
    let! buf := upd (q_buf q) idx b in
    Ret (mkByteQueue buf (q_head q) (q_len q + 1)).

Definition q_pop (q : ByteQueue) : outcome (option Z * ByteQueue) :=
  if q_len q =? 0 then Ret (None, q)
  else
    let! b := idx (q_buf q) (q_head q) in
    Ret (Some b, mkByteQueue (q_buf q) ((q_head q + 1) mod INPUT_QUEUE) (q_len q - 1)).

Definition q_peek (q : ByteQueue) : outcome (option Z) :=
  if q_len q =? 0 then Ret None
  else let! b := idx (q_buf q) (q_head q) in Ret (Some b).

(** ** Decoding *)

Record Keyboard : Type := mkKeyboard { kb_shift : bool; kb_caps : bool; kb_extended : bool }.
Definition keyboard_new : Keyboard := mkKeyboard false false false.

Definition letter (b : Z) (shift caps : bool) : outcome Z :=
  if xorb shift caps then checked 8 (b - 32) else Ret b.
Definition shifted (normal shifted : Z) (shift : bool) : Z := if shift then shifted else normal.

(** The key caps of scan-code set 1: a letter, a key with two symbols, or a
    key that ignores the modifiers. *)
Inductive KeyCap : Type :=
  | Letter (b : Z)
  | Pair (normal shifted : Z)
  | Plain (b : Z).
Definition set1 (code : Z) : option KeyCap :=
  match code with
  | 0x01 => Some (Plain 0x1B)
  | 0x02 => Some (Pair 49 33) | 0x03 => Some (Pair 50 64) | 0x04 => Some (Pair 51 35)
  | 0x05 => Some (Pair 52 36) | 0x06 => Some (Pair 53 37) | 0x07 => Some (Pair 54 94)
  | 0x08 => Some (Pair 55 38) | 0x09 => Some (Pair 56 42) | 0x0A => Some (Pair 57 40)
  | 0x0B => Some (Pair 48 41) | 0x0C => Some (Pair 45 95) | 0x0D => Some (Pair 61 43)
  | 0x0E => Some (Plain 0x08) | 0x0F => Some (Plain 9)
  | 0x10 => Some (Letter 113) | 0x11 => Some (Letter 119) | 0x12 => Some (Letter 101)
  | 0x13 => Some (Letter 114) | 0x14 => Some (Letter 116) | 0x15 => Some (Letter 121)
  | 0x16 => Some (Letter 117) | 0x17 => Some (Letter 105) | 0x18 => Some (Letter 111)
  | 0x19 => Some (Letter 112) | 0x1A => Some (Pair 91 123) | 0x1B => Some (Pair 93 125)
  | 0x1C => Some (Plain 10)
  | 0x1E => Some (Letter 97) | 0x1F => Some (Letter 115) | 0x20 => Some (Letter 100)
  | 0x21 => Some (Letter 102) | 0x22 => Some (Letter 103) | 0x23 => Some (Letter 104)
  | 0x24 => Some (Letter 106) | 0x25 => Some (Letter 107) | 0x26 => Some (Letter 108)
  | 0x27 => Some (Pair 59 58) | 0x28 => Some (Pair 39 34) | 0x29 => Some (Pair 96 126)
  | 0x2B => Some (Pair 92 124)
  | 0x2C => Some (Letter 122) | 0x2D => Some (Letter 120) | 0x2E => Some (Letter 99)
  | 0x2F => Some (Letter 118) | 0x30 => Some (Letter 98) | 0x31 => Some (Letter 110)
  | 0x32 => Some (Letter 109)
  | 0x33 => Some (Pair 44 60) | 0x34 => Some (Pair 46 62) | 0x35 => Some (Pair 47 63)
  | 0x39 => Some (Plain 32)
  | _ => None
  end.
Definition translate_set1 (code : Z) (shift caps : bool) : outcome (option Z) :=
  match set1 code with
  | None => Ret None
  | Some (Letter b) => let! b := letter b shift caps in Ret (Some b)
  | Some (Pair n s) => Ret (Some (shifted n s shift))
  | Some (Plain b) => Ret (Some b)
  end.

Definition decode (k : Keyboard) (scancode : Z) : outcome (option Z * Keyboard) :=
  if scancode =? 0xE0 then Ret (None, mkKeyboard (kb_shift k) (kb_caps k) true)
  else if scancode =? 0xE1 then Ret (None, k)
  else
    let released := negb (Z.land scancode 0x80 =? 0) in
    let code := Z.land scancode 0x7F in
    if (code =? 0x2A) || (code =? 0x36) then Ret (None, mkKeyboard (negb released) (kb_caps k) (kb_extended k))
    else if (code =? 0x3A) && negb released then Ret (None, mkKeyboard (kb_shift k) (negb (kb_caps k)) (kb_extended k))
    else if released then Ret (None, k)
    else if kb_extended k then Ret (None, mkKeyboard (kb_shift k) (kb_caps k) false)
    else let! b := translate_set1 code (kb_shift k) (kb_caps k) in Ret (b, k).

(** ** The input state *)

Record InputState : Type := mkInputState { keyboard : Keyboard; tty : ByteQueue; events : ByteQueue }.
Definition input_state_new : InputState := mkInputState keyboard_new byte_queue_new byte_queue_new.

Definition input_push (i : InputState) (b : Z) : outcome InputState :=
  let! t := q_push (tty i) b in
  let! e := q_push (events i) b in
  Ret (mkInputState (keyboard i) t e).

(** The part of [poll_input] after the read of a keyboard byte. *)
Definition on_scancode (i : InputState) (scancode : Z) : outcome InputState :=
  let! (b, k) := decode (keyboard i) scancode in
  let i := mkInputState k (tty i) (events i) in
  match b with Some b => input_push i b | None => Ret i end.

Section Controller.
  Context {W : Type} `{PortIO W}.

(** The controller and the [INPUT] static. *)
Record Ps2 : Type := mkPs2 { ps_io : W; INPUT : InputState }.
Definition PS (A : Type) : Type := ST Ps2 A.
Definition on_io {A} (c : ST W A) : PS A := fun s => let! (a, w) := c (ps_io s) in Ret (a, mkPs2 w (INPUT s)).
Definition on_input {A} (f : InputState -> outcome (A * InputState)) : PS A :=
  fun s => let! (a, i) := f (INPUT s) in Ret (a, mkPs2 (ps_io s) i).

Definition poll_input : PS unit :=
  let* status := on_io (inb STATUS_PORT) in
  if Z.land status STATUS_OUTPUT_FULL =? 0 then st_ret tt
  else
    let* scancode := on_io (inb DATA_PORT) in
    if negb (Z.land status STATUS_AUX_DATA =? 0) then st_ret tt
    else on_input (fun i => let! i := on_scancode i scancode in Ret (tt, i)).

Definition tty_pop (i : InputState) : outcome (option Z * InputState) :=
  let! (b, t) := q_pop (tty i) in Ret (b, mkInputState (keyboard i) t (events i)).
Definition event_pop (i : InputState) : outcome (option Z * InputState) :=
  let! (b, e) := q_pop (events i) in
  let i := mkInputState (keyboard i) (tty i) e in
  match b with
  | None => Ret (None, i)
  | Some b =>
      let! p := q_peek (tty i) in
      if decide (p = Some b) then let! (_, i) := tty_pop i in Ret (Some b, i) else Ret (Some b, i)
  end.

Definition poll_byte : PS (option Z) := let* _ := poll_input in on_input tty_pop.
Definition poll_event_byte : PS (option Z) := let* _ := poll_input in on_input event_pop.

Fixpoint read_byte_blocking (fuel : nat) : PS Z :=
  match fuel with
  | O => st_lift OutOfFuel
  | S fuel =>
      let* b := poll_byte in
      match b with Some b => st_ret b | None => read_byte_blocking fuel end
  end.

(** ** Bring-up *)

Fixpoint flush_output (n : nat) : PS unit :=
  match n with
  | O => st_ret tt
  | S n =>
      let* s := on_io (inb STATUS_PORT) in
      if Z.land s STATUS_OUTPUT_FULL =? 0 then st_ret tt
      else let* _ := on_io (inb DATA_PORT) in flush_output n
  end.
Fixpoint wait_input_empty (n : nat) : PS bool :=
  match n with
  | O => st_ret false
  | S n =>
      let* s := on_io (inb STATUS_PORT) in
      if Z.land s STATUS_INPUT_FULL =? 0 then st_ret true else wait_input_empty n
  end.
Fixpoint wait_output_full (n : nat) : PS bool :=
  match n with
  | O => st_ret false
  | S n =>
      let* s := on_io (inb STATUS_PORT) in
      if negb (Z.land s STATUS_OUTPUT_FULL =? 0) then st_ret true else wait_output_full n
  end.
Definition POLLS : nat := Z.to_nat 100000.
Definition ps2_init : PS unit :=
  let* _ := flush_output 64 in
  let* e := wait_input_empty POLLS in
  let* _ := (if e then on_io (outb DATA_PORT 0xF4) else st_ret tt) in
  let* f := wait_output_full POLLS in
  if f then let* _ := on_io (inb DATA_PORT) in st_ret tt else st_ret tt.

End Controller.
Arguments Ps2 W : clear implicits.

(** ** Keyboard input: what the queues hold

    The ring buffers of [Ps2.v] against lists: each queue is the window of the
    last 32 bytes that were decoded and not yet taken. *)

(** ** The specification *)

Module Window.

Definition push (l : list Z) (b : Z) : list Z := drop (length l + 1 - 32) (l ++ [b]).
Definition pop (l : list Z) : option Z * list Z := (head l, tail l).

Record Input : Type := mkInput { kbd : Keyboard; tty : list Z; events : list Z }.

(** A byte of the keyboard: a key that stands for a character goes to both. *)
Definition scan (i : Input) (c : option Z) : Input :=
  match c with
  | None => i
  | Some c =>
      match decode (kbd i) c with
      | Ret (Some b, k) => mkInput k (push (tty i) b) (push (events i) b)
      | Ret (None, k) => mkInput k (tty i) (events i)
      | _ => i
      end
  end.
Definition take_tty (i : Input) : option Z * Input :=
  (head (tty i), mkInput (kbd i) (tail (tty i)) (events i)).
(** A polled byte also leaves the terminal's queue when it is next there. *)
Definition take_event (i : Input) : option Z * Input :=
  let tty' := if decide (is_Some (head (events i)) /\ head (tty i) = head (events i)) then tail (tty i) else tty i in
  (head (events i), mkInput (kbd i) tty' (tail (events i))).

End Window.

(** ** Queues as lists *)

Definition queue_wf (q : ByteQueue) : Prop :=
  length (q_buf q) = 32%nat /\ 0 <= q_head q < 32 /\ 0 <= q_len q <= 32.
Definition cell (q : ByteQueue) (i : Z) : Z := q_buf q !!! Z.to_nat ((q_head q + i) mod 32).
Definition queue_list (q : ByteQueue) : list Z := cell q <$> seqZ 0 (q_len q).

Lemma queue_list_length (q : ByteQueue) : length (queue_list q) = Z.to_nat (q_len q).
Proof. unfold queue_list. by rewrite length_fmap, length_seqZ. Qed.

Lemma idx_total_32 (l : list Z) (i : Z) :
  length l = 32%nat -> 0 <= i < 32 -> idx l i = Ret (l !!! Z.to_nat i).
Proof.
  intros Hl Hi. destruct (idx_in_range l i) as (x & -> & Hx); [unfold zlen; lia |].
  by rewrite (list_lookup_total_correct _ _ _ Hx).
Qed.

Lemma upd_total_32 (l : list Z) (i b : Z) :
  length l = 32%nat -> 0 <= i < 32 -> upd l i b = Ret (<[Z.to_nat i := b]> l).
Proof. intros Hl Hi. apply upd_in_range. unfold zlen. lia. Qed.

Lemma cell_insert (q : ByteQueue) (j i b : Z) :
  length (q_buf q) = 32%nat -> 0 <= j < 32 ->
  q_buf q !!! Z.to_nat ((q_head q + i) mod 32) = cell q i /\
  <[Z.to_nat j := b]> (q_buf q) !!! Z.to_nat ((q_head q + i) mod 32)
  = if (q_head q + i) mod 32 =? j then b else cell q i.
Proof.
  intros Hl Hj. split; [done |]. pose proof (Z.mod_pos_bound (q_head q + i) 32).
  destruct (Z.eqb_spec ((q_head q + i) mod 32) j) as [-> |].
  - apply list_lookup_total_insert_eq. lia.
  - rewrite list_lookup_total_insert_ne by lia. done.
Qed.

Lemma mod_32_inj (h i j : Z) : 0 <= i < 32 -> 0 <= j < 32 -> (h + i) mod 32 = (h + j) mod 32 -> i = j.
Proof. intros. pose proof (Z.div_mod (h + i) 32). pose proof (Z.div_mod (h + j) 32). lia. Qed.

Lemma queue_list_cons (q : ByteQueue) :
  0 < q_len q ->
  queue_list q = cell q 0 ::
    queue_list (mkByteQueue (q_buf q) ((q_head q + 1) mod INPUT_QUEUE) (q_len q - 1)).
Proof.
  intros Hn. unfold queue_list. rewrite seqZ_cons by lia. rewrite fmap_cons. f_equal. cbn [q_len].
  replace (Z.pred (q_len q)) with (q_len q - 1) by lia. change (Z.succ 0) with (1 + 0).
  rewrite <- (fmap_add_seqZ 1 0), <- list_fmap_compose.
  apply list_fmap_ext. intros i x _. unfold cell, INPUT_QUEUE; simpl.
  rewrite Z.add_mod_idemp_l by lia. do 2 f_equal. f_equal. lia.
Qed.

(** ** The operations *)

Lemma q_push_spec (q : ByteQueue) (b : Z) :
  queue_wf q -> exists q', q_push q b = Ret q' /\ queue_wf q' /\ queue_list q' = Window.push (queue_list q) b.
Proof.
  intros (Hl & Hh & Hn). unfold q_push. pose proof (Z.mod_pos_bound (q_head q + q_len q) 32).
  pose proof (Z.mod_pos_bound (q_head q + 1) 32). unfold Window.push. rewrite queue_list_length.
  unfold INPUT_QUEUE. destruct (Z.eqb_spec (q_len q) 32) as [Hf | Hf].
  - rewrite upd_total_32 by lia. eexists. split; [done |]. split; [split_and!; simpl; rewrite ?length_insert; lia |].
    rewrite Hf. change (Z.to_nat 32 + 1 - 32)%nat with 1%nat.
    rewrite (queue_list_cons q) by lia. cbn [drop app]. unfold queue_list. cbn [q_len].
    rewrite Hf. change (32 - 1) with 31. change (seqZ 0 32) with (seqZ 0 31 ++ [31]). rewrite fmap_app, drop_0. f_equal.
    + apply list_fmap_ext. intros i x Hx. apply list_elem_of_lookup_2, elem_of_seqZ in Hx. unfold cell; cbn [q_buf q_head].
      unfold INPUT_QUEUE. rewrite !Z.add_mod_idemp_l by lia. replace (q_head q + 1 + x) with (q_head q + (1 + x)) by lia.
      rewrite (proj2 (cell_insert q (q_head q) (1 + x) b Hl ltac:(lia))).
      destruct (Z.eqb_spec ((q_head q + (1 + x)) mod 32) (q_head q)) as [E |]; [| done].
      exfalso. assert (1 + x = 0) by (apply (mod_32_inj (q_head q)); [lia | lia |];
        rewrite E, Z.add_0_r, Z.mod_small; lia). lia.
    + simpl. f_equal. unfold cell; cbn [q_buf q_head]. rewrite Z.add_mod_idemp_l by lia.
      replace (q_head q + 1 + 31) with (q_head q + 1 * 32) by lia. rewrite Z.mod_add, Z.mod_small by lia.
      apply list_lookup_total_insert_eq. lia.
  - rewrite upd_total_32 by lia. eexists. split; [done |]. split; [split_and!; simpl; rewrite ?length_insert; lia |].
    replace (Z.to_nat (q_len q) + 1 - 32)%nat with 0%nat by lia. rewrite drop_0. unfold queue_list. cbn [q_len].
    rewrite seqZ_S_r by lia. rewrite fmap_app. f_equal.
    + apply list_fmap_ext. intros i x Hx. apply list_elem_of_lookup_2, elem_of_seqZ in Hx. unfold cell at 1; cbn [q_buf q_head].
      rewrite (proj2 (cell_insert q ((q_head q + q_len q) mod 32) x b Hl ltac:(lia))).
      destruct (Z.eqb_spec ((q_head q + x) mod 32) ((q_head q + q_len q) mod 32)) as [E |]; [| done].
      apply mod_32_inj in E; lia.
    + simpl. f_equal. unfold cell; cbn [q_buf q_head]. apply list_lookup_total_insert_eq. lia.
Qed.

Lemma q_pop_spec (q : ByteQueue) :
  queue_wf q -> exists q', q_pop q = Ret (head (queue_list q), q') /\ queue_wf q' /\ queue_list q' = tail (queue_list q).
Proof.
  intros (Hl & Hh & Hn). unfold q_pop. pose proof (Z.mod_pos_bound (q_head q + 1) 32).
  destruct (Z.eqb_spec (q_len q) 0) as [E | E].
  - exists q. unfold queue_list. rewrite E. done.
  - rewrite idx_total_32 by lia. rewrite (queue_list_cons q) by lia. simpl. eexists. split; [| split; [| done]].
    + unfold cell. rewrite Z.add_0_r, (Z.mod_small (q_head q)) by lia. done.
    + split_and!; simpl; unfold INPUT_QUEUE; lia.
Qed.

Lemma q_peek_spec (q : ByteQueue) : queue_wf q -> q_peek q = Ret (head (queue_list q)).
Proof.
  intros (Hl & Hh & Hn). unfold q_peek. destruct (Z.eqb_spec (q_len q) 0) as [E | E].
  - unfold queue_list. by rewrite E.
  - rewrite idx_total_32 by lia. rewrite (queue_list_cons q) by lia. simpl.
    unfold cell. by rewrite Z.add_0_r, Z.mod_small by lia.
Qed.

(** The decoder never underflows a letter. *)
Lemma set1_letter (c b : Z) : set1 c = Some (Letter b) -> 97 <= b <= 122.
Proof.
  unfold set1. intros H.
  repeat (case_match; try discriminate H; try (injection H as <-; lia)).
Qed.

Lemma decode_total (k : Keyboard) (c : Z) : exists b k', decode k c = Ret (b, k').
Proof.
  unfold decode. repeat (case_match; [by eauto |]).
  unfold translate_set1. destruct (set1 _) as [[b | ? ? | ?] |] eqn:E; simpl; [| eauto ..].
  apply set1_letter in E. unfold letter. destruct (xorb _ _); [| eauto].
  rewrite checked_fits by lia. simpl. eauto.
Qed.

(** ** The input state *)

Definition input_wf (i : InputState) : Prop := queue_wf (tty i) /\ queue_wf (events i).
Definition window (i : InputState) : Window.Input :=
  Window.mkInput (keyboard i) (queue_list (tty i)) (queue_list (events i)).

Lemma on_scancode_spec (i : InputState) (c : Z) :
  input_wf i -> exists i', on_scancode i c = Ret i' /\ input_wf i' /\ window i' = Window.scan (window i) (Some c).
Proof.
  intros [Ht He]. unfold on_scancode, Window.scan. simpl.
  destruct (decode_total (keyboard i) c) as (b & k & ->). destruct b as [b |]; simpl; [| by eexists].
  unfold input_push. simpl.
  destruct (q_push_spec _ b Ht) as (t & -> & ? & Et). destruct (q_push_spec _ b He) as (e & -> & ? & Ee). simpl.
  eexists. split; [done |]. split; [done |]. unfold window; simpl. by rewrite Et, Ee.
Qed.

Lemma tty_pop_spec (i : InputState) :
  input_wf i -> exists i', tty_pop i = Ret ((Window.take_tty (window i)).1, i') /\ input_wf i' /\
    window i' = (Window.take_tty (window i)).2.
Proof.
  intros [Ht He]. unfold tty_pop. destruct (q_pop_spec _ Ht) as (t & -> & ? & Et). simpl.
  eexists. split; [done |]. split; [done |]. unfold window; simpl. by rewrite Et.
Qed.

Lemma event_pop_spec (i : InputState) :
  input_wf i -> exists i', event_pop i = Ret ((Window.take_event (window i)).1, i') /\ input_wf i' /\
    window i' = (Window.take_event (window i)).2.
Proof.
  intros [Ht He]. unfold event_pop, Window.take_event. destruct (q_pop_spec _ He) as (e & -> & He' & Ee). simpl.
  destruct (head (queue_list (events i))) as [b |]; simpl.
  2:{ eexists. split; [done |]. split; [done |]. unfold window; simpl. rewrite Ee.
      done. }
  rewrite (q_peek_spec _ Ht). simpl.
  destruct (decide (head (queue_list (tty i)) = Some b)) as [Hb | Hb].
  - destruct (tty_pop_spec (mkInputState (keyboard i) (tty i) e)) as (i' & -> & Hwf & Hw); [done |]. simpl.
    eexists. split; [done |]. split; [done |]. rewrite Hw. unfold Window.take_tty; simpl. rewrite Ee.
    by rewrite decide_True by eauto.
  - eexists. split; [done |]. split; [done |]. unfold window; simpl. rewrite Ee.
    rewrite decide_False by (intros [_ ?]; done). done.
Qed.

(** ** Sequences of calls *)

Inductive Call : Type := PollByte | PollEvent.

Section Calls.
  Context {W : Type} `{PortIO W}.

(** The keyboard byte a poll finds, if any: nothing when the output buffer is
    empty, and a byte of the mouse is read and dropped. *)
Definition controller_byte (w : W) : option Z * W :=
  let '(status, w) := port_in 8 STATUS_PORT w in
  if Z.land status STATUS_OUTPUT_FULL =? 0 then (None, w)
  else let '(c, w) := port_in 8 DATA_PORT w in
       (if Z.land status STATUS_AUX_DATA =? 0 then Some c else None, w).

Definition run_call (c : Call) : PS (W := W) (option Z) :=
  match c with PollByte => poll_byte | PollEvent => poll_event_byte end.
Fixpoint run_calls (cs : list Call) : PS (W := W) (list (option Z)) :=
  match cs with
  | [] => st_ret []
  | c :: cs => let* o := run_call c in let* os := run_calls cs in st_ret (o :: os)
  end.

Definition spec_call (c : Call) (s : W * Window.Input) : option Z * (W * Window.Input) :=
  let '(b, w) := controller_byte s.1 in
  let i := Window.scan s.2 b in
  let '(o, i) := match c with PollByte => Window.take_tty i | PollEvent => Window.take_event i end in
  (o, (w, i)).
Fixpoint spec_calls (cs : list Call) (s : W * Window.Input) : list (option Z) * (W * Window.Input) :=
  match cs with
  | [] => ([], s)
  | c :: cs =>
      let '(o, s) := spec_call c s in
      let '(os, s) := spec_calls cs s in (o :: os, s)
  end.

Definition abstract (s : Ps2 W) : W * Window.Input := (ps_io s, window (INPUT s)).

Lemma poll_input_spec (s : Ps2 W) :
  input_wf (INPUT s) ->
  exists s', poll_input s = Ret (tt, s') /\ input_wf (INPUT s') /\
    abstract s' = let '(b, w) := controller_byte (ps_io s) in (w, Window.scan (window (INPUT s)) b).
Proof.
  intros Hwf. unfold poll_input, controller_byte, st_bind, on_io, inb. simpl.
  destruct (port_in 8 STATUS_PORT (ps_io s)) as [status w]. simpl.
  destruct (Z.land status STATUS_OUTPUT_FULL =? 0); simpl; [by eexists |].
  destruct (port_in 8 DATA_PORT w) as [c w']. simpl.
  destruct (Z.land status STATUS_AUX_DATA =? 0); simpl; [| by eexists].
  destruct (on_scancode_spec _ c Hwf) as (i & E & ? & Ew).
  unfold on_input. simpl. rewrite E. simpl. eexists. split; [done |]. split; [done |].
  unfold abstract. simpl. by rewrite Ew.
Qed.

Lemma run_call_spec (c : Call) (s : Ps2 W) :
  input_wf (INPUT s) ->
  exists s', run_call c s = Ret ((spec_call c (abstract s)).1, s') /\ input_wf (INPUT s') /\
    abstract s' = (spec_call c (abstract s)).2.
Proof.
  intros Hwf. destruct (poll_input_spec s Hwf) as (s1 & E & Hwf1 & Ha).
  unfold spec_call. cbn [abstract fst snd]. destruct (controller_byte (ps_io s)) as [b w].
  injection Ha as Ew Ei. rewrite <- Ei.
  destruct c; unfold run_call, poll_byte, poll_event_byte, st_bind; rewrite E; simpl; unfold on_input;
    [destruct (tty_pop_spec _ Hwf1) as (i & -> & ? & Hi) | destruct (event_pop_spec _ Hwf1) as (i & -> & ? & Hi)];
    simpl; eexists; (split; [done |]); (split; [done |]); unfold abstract; simpl; by rewrite Hi, Ew.
Qed.

(** C37 From any well-formed input state, any sequence of polls by the terminal
    and by event readers returns without a panic, and returns exactly what the
    two bounded windows of decoded bytes return: each queue gives the bytes in
    the order typed, loses only the oldest when 33 are waiting, and an event
    read consumes the terminal's copy when it is next. *)
Theorem keyboard_queues_refine_windows (cs : list Call) (s : Ps2 W) :
  input_wf (INPUT s) ->
  exists s', run_calls cs s = Ret ((spec_calls cs (abstract s)).1, s') /\ input_wf (INPUT s') /\
    abstract s' = (spec_calls cs (abstract s)).2.
Proof.
  revert s. induction cs as [| c cs IH]; intros s Hwf; [by exists s |]. cbn [run_calls spec_calls].
  destruct (run_call_spec c s Hwf) as (s1 & E1 & Hwf1 & Ha1). rewrite (st_bind_step _ _ _ _ _ E1).
  destruct (spec_call c (abstract s)) as [o a]. cbn [fst snd] in *. subst a.
  destruct (IH s1 Hwf1) as (s2 & E2 & Hwf2 & Ha2). rewrite (st_bind_step _ _ _ _ _ E2).
  destruct (spec_calls cs (abstract s1)) as [os a]. simpl in *. by eexists.
Qed.

End Calls.

(** A controller that delivers a list of scan codes. *)
Definition scan_io : PortIO (list Z) := {|
  port_in _ port w :=
    if port =? STATUS_PORT then (match w with [] => 0 | _ => 1 end, w)
    else match w with [] => (0, []) | c :: w => (c, w) end;
  port_out _ _ _ w := w
|}.

Lemma input_new_wf : input_wf input_state_new.
Proof. split; (split_and!; [reflexivity | simpl; lia ..]). Qed.

(** Typing [a], shift down, [b], shift up: the terminal reads [a], nothing for
    the shift key, and then [B]. *)
Lemma keyboard_queues_refine_windows_witness :
  input_wf (INPUT (mkPs2 [0x1E; 0x2A; 0x30; 0xAA] input_state_new)) /\
  exists s', run_calls (H := scan_io) [PollByte; PollEvent; PollByte] (mkPs2 [0x1E; 0x2A; 0x30; 0xAA] input_state_new)
             = Ret ([Some 97; Some 97; Some 66], s').
Proof.
  split; [exact input_new_wf |].
  destruct (keyboard_queues_refine_windows (H := scan_io) [PollByte; PollEvent; PollByte]
    (mkPs2 [0x1E; 0x2A; 0x30; 0xAA] input_state_new) input_new_wf) as (s' & E & _).
  exists s'. exact E.
Defined.

(** Releasing an extended key leaves the decoder expecting the second half of
    one, so the next key pressed is lost. *)
Lemma extended_release_swallows_key :
  match decode keyboard_new 0xE0 with
  | Ret (_, k1) =>
      match decode k1 0xCB with
      | Ret (_, k2) => decode k2 0x1E = Ret (None, keyboard_new) /\ decode keyboard_new 0x1E = Ret (Some 97, keyboard_new)
      | _ => False
      end
  | _ => False
  end.
Proof. split; reflexivity. Qed.
