(* ===== verification/Inode.v ===== *)
(** * The inode interface

    The trait [Inode] of [kernel/src/fs/mod.rs], which the RAM file system,
    PondFS and the terminal implement and through which the rest of the kernel
    uses them.  [S] is the state the implementation works on and [N] stands for
    [Arc<dyn Inode>].  A [&str] is the list of its bytes. *)

From S2P Require Import Prelude.

Abbreviation Str := (list Z).

Inductive InodeKind : Type := File | Dir.
Inductive FsError : Type :=
  | NotFound | NotDir | NotFile | Exists_ | InvalidPath | IsDir | Io | NoSpace | BadFd | Unsupported.

#[global] Instance InodeKind_eq_dec : EqDecision InodeKind.
Proof. solve_decision. Defined.
#[global] Instance FsError_eq_dec : EqDecision FsError.
Proof. solve_decision. Defined.

(** [read_at] is given the length of the buffer; besides its result it yields
    the bytes it stored at the front of the buffer. *)
Class Inode (S N : Type) : Type := {
  i_kind : N -> ST S InodeKind;
  i_size : N -> ST S Z;
  i_read_at : N -> Z -> Z -> ST S (result Z FsError * list Z);
  i_write_at : N -> Z -> list Z -> ST S (result Z FsError);
  i_lookup : N -> Str -> ST S (result N FsError);
  i_readdir : N -> ST S (result (list (Str * InodeKind)) FsError);
  i_create : N -> Str -> InodeKind -> ST S (result N FsError);
  i_unlink : N -> Str -> ST S (result unit FsError)
}.

(** The trait [Filesystem]. *)
Class Filesystem (F N : Type) : Type := { root : F -> N }.

(** ** Strings *)

(** [str::starts_with] and [ends_with('/')]. *)
Definition SLASH : Z := 0x2F.
Fixpoint starts_with (s p : Str) {struct p} : bool :=
  match p, s with
  | [], _ => true
  | x :: p, y :: s => (x =? y) && starts_with s p
  | _ :: _, [] => false
  end.
Definition ends_with_slash (s : Str) : bool := bool_decide (last s = Some SLASH).

(** [s.split('/')]: one more piece than there are slashes. *)
Fixpoint split_slash (s : Str) : list Str :=
  match s with
  | [] => [[]]
  | c :: s =>
      if c =? SLASH then [] :: split_slash s
      else match split_slash s with
           | [] => [[c]]
           | p :: ps => (c :: p) :: ps
           end
  end.
(** [.filter(|c| !c.is_empty())]. *)
Definition components (s : Str) : list Str := filter (fun c => c ≠ []) (split_slash s).

(** [s.rfind('/')]. *)
Fixpoint rfind_slash (s : Str) : option nat :=
  match s with
  | [] => None
  | c :: s =>
      match rfind_slash s with
      | Some i => Some (S i)
      | None => if c =? SLASH then Some 0%nat else None
      end
  end.

Lemma starts_with_prefix (s p : Str) : starts_with s p = true <-> p `prefix_of` s.
Proof.
  revert s. induction p as [| x p IH]; intros s; [split; [intros _; apply prefix_nil | done] |].
  destruct s as [| y s]; cbn [starts_with].
  { split; [done | intros H; by apply prefix_nil_inv in H]. }
  rewrite andb_true_iff, Z.eqb_eq, IH. split.
  - intros [-> H]. by apply prefix_cons.
  - intros H. split; [by apply prefix_cons_inv_1 in H | by apply prefix_cons_inv_2 in H].
Qed.

Lemma split_slash_ne (s : Str) : split_slash s ≠ [].
Proof. destruct s as [| c s]; simpl; [done |]. destruct (c =? SLASH); [done |]. by destruct (split_slash s). Qed.

(** A separator splits the components. *)
Lemma split_slash_app (s t : Str) : split_slash (s ++ SLASH :: t) = split_slash s ++ split_slash t.
Proof.
  induction s as [| c s IH]; [done |]. cbn [app split_slash].
  destruct (c =? SLASH); [by rewrite IH |]. rewrite IH.
  destruct (split_slash s) as [| p ps] eqn:E; [by apply split_slash_ne in E | done].
Qed.

Lemma components_app (s t : Str) : components (s ++ SLASH :: t) = components s ++ components t.
Proof. unfold components. by rewrite split_slash_app, filter_app. Qed.

Lemma split_slash_free (s : Str) : SLASH ∉ s -> split_slash s = [s].
Proof.
  induction s as [| c s IH]; intros Hs; [done |]. cbn [split_slash].
  destruct (Z.eqb_spec c SLASH) as [-> |]; [set_solver |]. rewrite IH by set_solver. done.
Qed.

Lemma components_single (s : Str) : s ≠ [] -> SLASH ∉ s -> components s = [s].
Proof. intros Hn Hs. unfold components. rewrite split_slash_free by done. by rewrite filter_cons_True, filter_nil. Qed.

Lemma rfind_slash_None (s : Str) : rfind_slash s = None <-> SLASH ∉ s.
Proof.
  induction s as [| c s IH]; cbn [rfind_slash]; [split; [intros _; apply not_elem_of_nil | done] |].
  rewrite not_elem_of_cons, <- IH. clear IH. destruct (rfind_slash s); [naive_solver |].
  destruct (Z.eqb_spec c SLASH); naive_solver.
Qed.

Lemma rfind_slash_Some (s : Str) (i : nat) :
  rfind_slash s = Some i -> s = take i s ++ SLASH :: drop (S i) s /\ SLASH ∉ drop (S i) s.
Proof.
  revert i. induction s as [| c s IH]; intros i; cbn [rfind_slash]; [done |].
  destruct (rfind_slash s) as [j |] eqn:E.
  - intros [= <-]. destruct (IH j eq_refl) as [H1 H2]. split; [| exact H2]. cbn. by rewrite <- H1.
  - destruct (Z.eqb_spec c SLASH) as [-> |]; intros [= <-]. split; [done |].
    by apply rfind_slash_None.
Qed.
