(* ===== verification/Vfs.v ===== *)
(** * Mount table and path lookup

    [mount], [resolve_mount], [lookup] and [split_parent] of
    [kernel/src/fs/mod.rs], over any file systems [F] whose inodes [N]
    implement the inode interface; and the tables of open files. *)

From Stdlib Require Import Sorted.
From S2P Require Import Prelude Inode.

Section Mounts.
  Context {F : Type}.

Definition MountTable : Type := list (Str * F).

(** [iter_mut().find(..)] and the assignment to the slot. *)
Fixpoint replace_mount (m : MountTable) (path : Str) (fs : F) : option MountTable :=
  match m with
  | [] => None
  | (p, f) :: m =>
      if decide (p = path) then Some ((p, fs) :: m)
      else cons (p, f) <$> replace_mount m path fs
  end.
(** [sort_by] is stable: an element goes behind those of its own length. *)
Fixpoint insert_by_length (x : Str * F) (m : MountTable) : MountTable :=
  match m with
  | [] => [x]
  | y :: m => if (length y.1 <? length x.1)%nat then x :: y :: m else y :: insert_by_length x m
  end.
Definition sort_by_length (m : MountTable) : MountTable := foldl (fun acc x => insert_by_length x acc) [] m.

Definition mount (m : MountTable) (path : Str) (fs : F) : MountTable :=
  match replace_mount m path fs with
  | Some m => m
  | None => sort_by_length (m ++ [(path, fs)])
  end.

(** The slice [path[mp.len()..]] starts at a character boundary: both strings
    are UTF-8 and [mp] is a prefix. *)
Fixpoint resolve_mount (m : MountTable) (path : Str) : option (F * Str) :=
  match m with
  | [] => None
  | (mp, fs) :: m =>
      if decide (path = mp) then Some (fs, [SLASH])
      else if starts_with path mp
              && (ends_with_slash mp || bool_decide (path !! length mp = Some SLASH))
      then let rest := drop (length mp) path in Some (fs, if decide (rest = []) then [SLASH] else rest)
      else resolve_mount m path
  end.

End Mounts.
Arguments MountTable F : clear implicits.

Section Lookup.
  Context {S F N : Type} `{Inode S N} `{Filesystem F N}.

Fixpoint walk_components (node : N) (comps : list Str) : ST S (result N FsError) :=
  match comps with
  | [] => st_ret (Ok node)
  | c :: cs => let? node := i_lookup node c in walk_components node cs
  end.

Definition lookup (m : MountTable F) (path : Str) : ST S (result N FsError) :=
  if negb (starts_with path [SLASH]) then st_ret (Err InvalidPath)
  else match resolve_mount m path with
       | None => st_ret (Err NotFound)
       | Some (fs, rest) => walk_components (root fs) (components rest)
       end.

End Lookup.

Definition split_parent (path : Str) : option (Str * Str) :=
  if negb (starts_with path [SLASH]) then None
  else match rfind_slash path with
       | None => None
       | Some idx =>
           let name := drop (idx + 1) path in
           if decide (name = []) then None
           else Some (if decide (idx = 0%nat) then [SLASH] else take idx path, name)
       end.

(** ** Open files *)

Definition FD_READ : Z := Z.shiftl 1 0.
Definition FD_WRITE : Z := Z.shiftl 1 1.
Definition FD_CREATE : Z := Z.shiftl 1 2.

Record OpenFile (N : Type) : Type := mkOpenFile { inode : N; offset : Z; flags : Z }.
Arguments mkOpenFile {N} _ _ _.
Arguments inode {N} _.
Arguments offset {N} _.
Arguments flags {N} _.
Definition open_file_new {N} (n : N) (flags : Z) : OpenFile N := mkOpenFile n 0 flags.

(** The table holds the addresses of the [Arc<OpenFile>]s. *)
Record FdTable : Type := mkFdTable { fd_slots : gmap Z Z; fd_next : Z }.
Definition fd_table_new : FdTable := mkFdTable ∅ 0.
(** [self.next += 1] on an [i32]. *)
Definition fd_install (t : FdTable) (open : Z) : outcome (Z * FdTable) :=
  let fd := fd_next t in
  let! n := ichecked 32 (fd + 1) in
  Ret (fd, mkFdTable (<[fd := open]> (fd_slots t)) n).
Definition fd_install_at (t : FdTable) (fd open : Z) : outcome FdTable :=
  let s := <[fd := open]> (fd_slots t) in
  if fd_next t <=? fd then let! n := ichecked 32 (fd + 1) in Ret (mkFdTable s n)
  else Ret (mkFdTable s (fd_next t)).
Definition fd_get (t : FdTable) (fd : Z) : option Z := fd_slots t !! fd.
Definition fd_close (t : FdTable) (fd : Z) : bool * FdTable :=
  (bool_decide (is_Some (fd_slots t !! fd)), mkFdTable (delete fd (fd_slots t)) (fd_next t)).

(** ** The longest mount point *)

Section MountProps.
  Context {F : Type}.
  Implicit Types m : MountTable F.

(** A mount point covers its own path and everything below it. *)
Definition covers (mp path : Str) : Prop :=
  path = mp \/ (mp `prefix_of` path /\ (last mp = Some SLASH \/ path !! length mp = Some SLASH)).
#[global] Instance covers_dec mp path : Decision (covers mp path).
Proof. unfold covers. apply _. Defined.

(** What is left of the path for the file system. *)
Definition below (mp path : Str) : Str := if decide (path = mp) then [SLASH] else drop (length mp) path.

Definition by_length (x y : Str * F) : Prop := (length y.1 <= length x.1)%nat.

Lemma covers_prefix mp path : covers mp path -> mp `prefix_of` path.
Proof. intros [-> | [? _]]; [apply reflexivity | done]. Qed.

Lemma prefix_same_length (a b p : Str) : a `prefix_of` p -> b `prefix_of` p -> length a = length b -> a = b.
Proof.
  intros [k ->] [k' E] Hl. apply (f_equal (take (length a))) in E.
  rewrite take_app_length, Hl, take_app_length in E. done.
Qed.

Lemma resolve_cons mp fs m path :
  resolve_mount ((mp, fs) :: m) path
  = if decide (covers mp path) then Some (fs, below mp path) else resolve_mount m path.
Proof.
  cbn [resolve_mount]. unfold below. destruct (decide (path = mp)) as [-> | Hne].
  { by rewrite decide_True by (by left). }
  destruct (starts_with path mp) eqn:Ep; simpl.
  2:{ rewrite decide_False; [done |]. intros Hc%covers_prefix%starts_with_prefix. congruence. }
  apply starts_with_prefix in Ep. unfold ends_with_slash.
  destruct (bool_decide (last mp = Some SLASH)) eqn:E1; simpl;
    [| destruct (bool_decide (path !! length mp = Some SLASH)) eqn:E2; simpl].
  3:{ apply bool_decide_eq_false in E1, E2. rewrite decide_False; [done |]. intros [| [_ [|]]]; done. }
  all: rewrite (decide_True (P := covers mp path));
    [| right; split; [done | first [left; by apply bool_decide_eq_true in E1 | right; by apply bool_decide_eq_true in E2]]].
  all: rewrite decide_False; [done |]; intros E; apply Hne; destruct Ep as [k ->];
    rewrite drop_app_length in E; subst k; by rewrite app_nil_r.
Qed.

(** The table after a sequence of calls to [mount]. *)
Definition mounted (ms : list (Str * F)) : MountTable F := foldl (fun m x => mount m x.1 x.2) [] ms.

Lemma insert_by_length_perm x m : insert_by_length x m ≡ₚ x :: m.
Proof.
  induction m as [| y m IH]; [done |]. cbn [insert_by_length].
  destruct (_ <? _)%nat; [done |]. rewrite IH. constructor.
Qed.

Lemma sort_by_length_perm m : sort_by_length m ≡ₚ m.
Proof.
  unfold sort_by_length.
  assert (forall acc, foldl (fun acc x => insert_by_length x acc) acc m ≡ₚ m ++ acc) as H; [| by rewrite H, app_nil_r].
  induction m as [| x m IH]; intros acc; [done |]. cbn [foldl]. rewrite IH, insert_by_length_perm.
  by rewrite <- Permutation_middle.
Qed.

Lemma insert_by_length_sorted x m : StronglySorted by_length m -> StronglySorted by_length (insert_by_length x m).
Proof.
  induction 1 as [| y m Hs IH Hy]; cbn [insert_by_length]; [by repeat constructor |].
  destruct (Nat.ltb_spec (length y.1) (length x.1)).
  - constructor; [by constructor |]. constructor; [unfold by_length; lia |].
    eapply Forall_impl; [exact Hy |]. unfold by_length. simpl. lia.
  - constructor; [done |]. rewrite insert_by_length_perm. constructor; [done | done].
Qed.

Lemma sort_by_length_sorted m : StronglySorted by_length (sort_by_length m).
Proof.
  unfold sort_by_length.
  assert (forall acc, StronglySorted by_length acc ->
    StronglySorted by_length (foldl (fun acc x => insert_by_length x acc) acc m)) as H; [| apply H; constructor].
  induction m as [| x m IH]; intros acc Ha; [done |]. apply IH. by apply insert_by_length_sorted.
Qed.

Lemma replace_mount_None m path fs : replace_mount m path fs = None <-> path ∉ m.*1.
Proof.
  induction m as [| [p f] m IH]; simpl; [split; [set_solver | done] |].
  destruct (decide (p = path)) as [-> | Hne]; [split; [done |]; intros Hn; destruct Hn; by left |].
  rewrite fmap_None, IH, not_elem_of_cons. clear IH. naive_solver.
Qed.

Lemma replace_mount_Some m m' path fs :
  NoDup m.*1 -> replace_mount m path fs = Some m' ->
  m'.*1 = m.*1 /\ (forall p f, (p, f) ∈ m' <-> (p = path /\ f = fs) \/ (p ≠ path /\ (p, f) ∈ m)).
Proof.
  revert m'. induction m as [| [p0 f0] m IH]; intros m' Hnd; simpl; [done |].
  apply NoDup_cons in Hnd as [Hn Hnd]. destruct (decide (p0 = path)) as [-> | Hne].
  - intros [= <-]. split; [done |]. intros p f. rewrite !elem_of_cons. split.
    + intros [[= -> ->] | Hin]; [by left |]. right. split; [| by right].
      intros ->. apply Hn. by apply (list_elem_of_fmap_2 fst) in Hin.
    + intros [[-> ->] | [Hp [[= -> ->] | Hin]]]; [by left | done | by right].
  - intros (m1 & E & ->)%fmap_Some. destruct (IH m1 Hnd E) as [H1 H2]. split; [by rewrite !fmap_cons, H1 |].
    intros p f. rewrite !elem_of_cons, H2. split.
    + intros [[= -> ->] | [[-> ->] | [? ?]]]; [right | left | right]; auto.
    + intros [[-> ->] | [Hp [[= -> ->] | Hin]]]; auto.
Qed.

(** The last file system mounted at a path. *)
Definition last_mount (ms : list (Str * F)) (mp : Str) : option F :=
  last (filter (fun x => x.1 = mp) ms).*2.

Definition table_ok (ms : list (Str * F)) (m : MountTable F) : Prop :=
  NoDup m.*1 /\ StronglySorted by_length m /\ (forall mp fs, (mp, fs) ∈ m <-> last_mount ms mp = Some fs).

Lemma last_mount_snoc ms x mp :
  last_mount (ms ++ [x]) mp = if decide (x.1 = mp) then Some x.2 else last_mount ms mp.
Proof.
  unfold last_mount. rewrite filter_app, fmap_app. destruct (decide (x.1 = mp)).
  - rewrite filter_cons_True by done. rewrite filter_nil. change ([x].*2) with [x.2]. by rewrite last_snoc.
  - rewrite filter_cons_False by done. by rewrite filter_nil, app_nil_r.
Qed.

Lemma sorted_same_lengths (m m' : MountTable F) :
  m'.*1 = m.*1 -> StronglySorted by_length m -> StronglySorted by_length m'.
Proof.
  revert m'. induction m as [| [p f] m IH]; intros [| [p' f'] m'] E Hs; try discriminate E; [done |].
  injection E as -> E. change (m'.*1 = m.*1) in E. apply StronglySorted_inv in Hs as [Hs Hf]. constructor; [by apply IH |].
  apply Forall_forall. intros [q g] Hq. unfold by_length. cbn [fst].
  apply (list_elem_of_fmap_2 fst) in Hq. rewrite E in Hq.
  apply list_elem_of_fmap_1 in Hq as ([q' g'] & Eq & Hq). cbn in Eq. subst q'. rewrite Forall_forall in Hf. by apply (Hf (q, g')).
Qed.

Lemma mount_ok ms m x : table_ok ms m -> table_ok (ms ++ [x]) (mount m x.1 x.2).
Proof.
  intros (Hnd & Hs & Hm). unfold mount. destruct (replace_mount m x.1 x.2) as [m' |] eqn:E.
  - destruct (replace_mount_Some _ _ _ _ Hnd E) as [H1 H2]. split_and!.
    + by rewrite H1.
    + by eapply sorted_same_lengths.
    + intros mp fs. rewrite H2, last_mount_snoc. destruct (decide (x.1 = mp)) as [<- | Hne].
      * split; [intros [[_ ->] | [? _]]; done | intros [= <-]; by left].
      * rewrite <- Hm. split; [intros [[-> _] | [_ ?]]; done | intros ?; right; split; congruence].
  - apply replace_mount_None in E. split_and!.
    + rewrite sort_by_length_perm, fmap_app. apply NoDup_app. split_and!; [done | | apply NoDup_singleton].
      intros p Hp Hx. apply list_elem_of_singleton in Hx as ->. done.
    + apply sort_by_length_sorted.
    + intros mp fs. rewrite sort_by_length_perm, elem_of_app, list_elem_of_singleton, last_mount_snoc.
      destruct (decide (x.1 = mp)) as [<- | Hne].
      * split; [| intros [= <-]; right; by destruct x].
        intros [Hin | E']; [| by injection E' as ->]. apply (list_elem_of_fmap_2 fst) in Hin. done.
      * rewrite <- Hm. split; [intros [? | [= -> ->]]; done | by left].
Qed.

Lemma mounted_ok ms : table_ok ms (mounted ms).
Proof.
  induction ms as [| x ms IH] using rev_ind.
  - split_and!; [constructor | constructor | intros; split; [set_solver | done]].
  - unfold mounted. rewrite foldl_app. apply mount_ok, IH.
Qed.

Lemma resolve_None m path : resolve_mount m path = None <-> forall mp fs, (mp, fs) ∈ m -> ~ covers mp path.
Proof.
  induction m as [| [mp fs] m IH]; [split; [set_solver | done] |]. rewrite resolve_cons.
  destruct (decide (covers mp path)) as [Hc | Hc].
  - split; [done |]. intros H. exfalso. by apply (H mp fs); [left |].
  - rewrite IH. split; intros H mp' fs' Hin; [| apply (H mp' fs'); by right].
    apply elem_of_cons in Hin as [[= -> ->] | Hin]; [done | by apply (H mp' fs')].
Qed.

Lemma resolve_Some m path fs rest :
  StronglySorted by_length m -> resolve_mount m path = Some (fs, rest) ->
  exists mp, (mp, fs) ∈ m /\ covers mp path /\ rest = below mp path /\
    (forall mp' fs', (mp', fs') ∈ m -> covers mp' path -> (length mp' <= length mp)%nat).
Proof.
  induction 1 as [| [mp0 fs0] m Hs IH Hl]; [done |]. rewrite resolve_cons.
  destruct (decide (covers mp0 path)) as [Hc | Hc].
  - intros [= <- <-]. exists mp0. split_and!; [by left | done | done |].
    intros mp' fs' Hin _. apply elem_of_cons in Hin as [[= -> ->] | Hin]; [done |].
    rewrite Forall_forall in Hl. by apply (Hl (mp', fs')).
  - intros E. destruct (IH E) as (mp & Hin & Hc' & Hr & Hmax). exists mp. split_and!; [by right | done | done |].
    intros mp' fs' Hin' Hc2. apply elem_of_cons in Hin' as [[= -> ->] | Hin']; [done | eauto].
Qed.

(** After any sequence of [mount] calls, [resolve_mount] picks for every
    path the file system last mounted at the longest mount point that covers
    the path (the path itself or one of its ancestors), hands on exactly the
    rest of the path, and fails only when no mount point covers it; in
    particular the order of the calls does not matter beyond remounts. *)
Theorem resolve_mount_longest (ms : list (Str * F)) (path : Str) :
  match resolve_mount (mounted ms) path with
  | None => forall mp, covers mp path -> last_mount ms mp = None
  | Some (fs, rest) =>
      exists mp, covers mp path /\ last_mount ms mp = Some fs /\ rest = below mp path /\
        (forall mp', covers mp' path -> is_Some (last_mount ms mp') -> mp' ≠ mp -> (length mp' < length mp)%nat)
  end.
Proof.
  destruct (mounted_ok ms) as (Hnd & Hs & Hm).
  destruct (resolve_mount (mounted ms) path) as [[fs rest] |] eqn:E.
  - destruct (resolve_Some _ _ _ _ Hs E) as (mp & Hin & Hc & Hr & Hmax). exists mp.
    split_and!; [done | by apply Hm | done |]. intros mp' Hc' [fs' Hf] Hne. apply Hm in Hf.
    pose proof (Hmax _ _ Hf Hc'). destruct (decide (length mp' = length mp)) as [El |]; [| lia].
    exfalso. eauto using prefix_same_length, covers_prefix.
  - intros mp Hc. destruct (last_mount ms mp) as [fs |] eqn:El; [| done].
    exfalso. apply Hm in El. by apply (proj1 (resolve_None _ _) E) in El.
Qed.

End MountProps.
