(* ===== verification/Terminal.v ===== *)
(** * Terminal inodes

    [TtyStdin] and [SerialStdout] of [kernel/src/fs/mod.rs]: the inodes behind
    the descriptors 0, 1 and 2 of a new task.  The input is line edited and
    echoed on the serial line. *)

From S2P Require Import Prelude PortIo Serial Ps2 Inode.

Inductive Terminal : Type := TtyStdin | SerialStdout.

Section Terminal.
  Context {W : Type} `{PortIO W}.
  (** How often the transmitter and the keyboard are polled for one byte, and
      how many keys one call of [read_at] takes. *)
  Variables (polls turns : nat).

Definition serial_byte (b : Z) : PS (W := W) unit := on_io (write_byte polls COM1 b).

Definition tty_echo (b : Z) : PS unit :=
  if b =? 10 then let* _ := serial_byte 13 in serial_byte 10
  else if b =? 8 then let* _ := serial_byte 8 in let* _ := serial_byte 32 in serial_byte 8
  else serial_byte b.

(** [buf[n] = b]: [buf] is the part of the buffer that has been stored to. *)
Definition buf_set (buf : list Z) (n b : Z) : list Z :=
  if n <? zlen buf then <[Z.to_nat n := b]> buf else buf ++ [b].
Definition key_text (b : Z) : bool := ((0x20 <=? b) && (b <=? 0x7E)) || (b =? 9).

Fixpoint tty_loop (turns : nat) (len n : Z) (buf : list Z) : PS (Z * list Z) :=
  if len <=? n then st_ret (n, buf)
  else match turns with
  | O => st_lift OutOfFuel
  | S turns =>
      let* b := read_byte_blocking polls in
      if b =? 10 then
        let* _ := tty_echo 10 in
        st_ret (n + 1, buf_set buf n 10)
      else if b =? 8 then
        if 0 <? n then let* _ := tty_echo 8 in tty_loop turns len (n - 1) buf
        else tty_loop turns len n buf
      else if key_text b then
        let* _ := tty_echo b in
        tty_loop turns len (n + 1) (buf_set buf n b)
      else tty_loop turns len n buf
  end.
Definition tty_read_at (len : Z) : PS (result Z FsError * list Z) :=
  let* (n, buf) := tty_loop turns len 0 [] in st_ret (Ok n, buf).

Definition stdout_char (b : Z) : Z := if ((0x20 <=? b) && (b <=? 0x7E)) || (b =? 10) then b else 46.
Fixpoint stdout_loop (buf : list Z) : PS unit :=
  match buf with
  | [] => st_ret tt
  | b :: buf => let* _ := serial_byte (stdout_char b) in stdout_loop buf
  end.
Definition stdout_write_at (buf : list Z) : PS (result Z FsError) :=
  let* _ := stdout_loop buf in st_ret (Ok (zlen buf)).

#[local] Instance terminal_inode : Inode (Ps2 W) Terminal := {
  i_kind _ := st_ret File;
  i_size _ := st_ret 0;
  i_read_at t _ len := match t with TtyStdin => tty_read_at len | SerialStdout => st_ret (Ok 0, []) end;
  i_write_at t _ buf := match t with TtyStdin => st_ret (Err Unsupported) | SerialStdout => stdout_write_at buf end;
  i_lookup _ _ := st_ret (Err NotDir);
  i_readdir _ := st_ret (Err NotDir);
  i_create _ _ _ := st_ret (Err NotDir);
  i_unlink _ _ := st_ret (Err NotDir)
}.
End Terminal.

(** ** The line editor *)

(** What a line becomes: the text, its echo and the keys that are left, or
    [None] when more keys are awaited. *)
Fixpoint edit_line (len : Z) (line keys : list Z) : option (list Z * list Z * list Z) :=
  if len <=? zlen line then Some (line, [], keys)
  else match keys with
  | [] => None
  | k :: keys =>
      let after line echo :=
        (fun r => (r.1.1, echo ++ r.1.2, r.2)) <$> edit_line len line keys in
      if k =? 10 then Some (line ++ [10], [13; 10], keys)
      else if k =? 8 then
        if decide (line = []) then after [] [] else after (take (length line - 1) line) [8; 32; 8]
      else if key_text k then after (line ++ [k]) [k]
      else after line []
  end.

(** The devices while no key arrives: the status of the keyboard controller
    says that there is no byte, the transmitter is ready, and what is written
    to it goes out. *)
Class QuietConsole (W : Type) `{PortIO W} : Type := {
  quiet : W -> Prop;
  sent : W -> list Z;
  quiet_keyboard w : quiet w -> let '(s, w') := port_in 8 STATUS_PORT w in
    Z.land s STATUS_OUTPUT_FULL = 0 /\ quiet w' /\ sent w' = sent w;
  quiet_ready w : quiet w -> let '(s, w') := port_in 8 (COM1 + 5) w in
    Z.land s 0x20 ≠ 0 /\ quiet w' /\ sent w' = sent w;
  quiet_send w b : quiet w -> quiet (port_out 8 COM1 b w) /\ sent (port_out 8 COM1 b w) = sent w ++ [b]
}.

Section Quiet.
  Context {W : Type} `{HP : PortIO W} `{!QuietConsole W}.
  Variable polls : nat.
  Implicit Types s : Ps2 W.

(** The terminal is at rest with the keys [keys] typed and [out] on the line. *)
Record at_rest s (keys out : list Z) : Prop := {
  ar_quiet : quiet (ps_io s);
  ar_wf : input_wf (INPUT s);
  ar_keys : queue_list (Ps2.tty (INPUT s)) = keys;
  ar_sent : sent (ps_io s) = out
}.

Lemma serial_byte_quiet s keys out (b : Z) :
  at_rest s keys out -> exists s', serial_byte (S polls) b s = Ret (tt, s') /\ at_rest s' keys (out ++ [b]).
Proof.
  intros [Hq Hw Hk Ho]. unfold serial_byte, on_io. cbn [write_byte].
  unfold can_write, reg. rewrite checked_fits by (unfold COM1; lia).
  pose proof (quiet_ready (ps_io s) Hq) as Hr. unfold st_bind, st_lift, inb, outb. cbn [obind].
  destruct (port_in 8 (COM1 + 5) (ps_io s)) as [st w]. destruct Hr as (Hb & Hq' & Hs). cbn [obind].
  apply Z.eqb_neq in Hb. unfold st_ret. cbn [obind]. rewrite Hb. cbn [negb obind].
  eexists. split; [reflexivity |]. destruct (quiet_send w b Hq') as [H1 H2]. split; cbn; try done. by rewrite H2, Hs, Ho.
Qed.

Lemma tty_echo_quiet s keys out (b : Z) :
  at_rest s keys out ->
  exists s', tty_echo (S polls) b s = Ret (tt, s') /\
    at_rest s' keys (out ++ (if b =? 10 then [13; 10] else if b =? 8 then [8; 32; 8] else [b])).
Proof.
  intros Hs. unfold tty_echo. destruct (b =? 10); [| destruct (b =? 8); [| by apply serial_byte_quiet]].
  - destruct (serial_byte_quiet s keys out 13 Hs) as (s1 & E1 & H1). rewrite (st_bind_step _ _ _ _ _ E1).
    destruct (serial_byte_quiet s1 keys _ 10 H1) as (s2 & E2 & H2). exists s2. split; [done |]. by rewrite <- app_assoc in H2.
  - destruct (serial_byte_quiet s keys out 8 Hs) as (s1 & E1 & H1). rewrite (st_bind_step _ _ _ _ _ E1).
    destruct (serial_byte_quiet s1 keys _ 32 H1) as (s2 & E2 & H2). rewrite (st_bind_step _ _ _ _ _ E2).
    destruct (serial_byte_quiet s2 keys _ 8 H2) as (s3 & E3 & H3). exists s3. split; [done |].
    by rewrite <- !app_assoc in H3.
Qed.

Lemma read_byte_quiet s (k : Z) (keys out : list Z) :
  at_rest s (k :: keys) out -> exists s', read_byte_blocking (S polls) s = Ret (k, s') /\ at_rest s' keys out.
Proof.
  intros [Hq Hw Hk Ho]. cbn [read_byte_blocking]. pose proof (quiet_keyboard (ps_io s) Hq) as Hb.
  destruct (run_call_spec PollByte s Hw) as (s' & E & Hw' & Ha). cbn [run_call] in E.
  unfold spec_call, controller_byte in *. cbn [abstract fst snd] in *.
  destruct (port_in 8 STATUS_PORT (ps_io s)) as [st w]. destruct Hb as (Hst & Hq' & Hs').
  rewrite Hst in *. cbn [Z.eqb Window.scan Window.take_tty fst snd] in *. rewrite (st_bind_step _ _ _ _ _ E).
  cbn [window Window.tty]. rewrite Hk. cbn [head]. exists s'. split; [done |].
  unfold abstract, window in Ha. cbn [Window.tty Window.kbd Window.events] in Ha. injection Ha as Ew _ Et _.
  split; [by rewrite Ew | done | by rewrite Et, Hk | by rewrite Ew, Hs'].
Qed.

(** The line is a prefix of what was stored in the buffer. *)
Lemma buf_set_line (line buf : list Z) (b : Z) :
  line `prefix_of` buf -> (line ++ [b]) `prefix_of` buf_set buf (zlen line) b.
Proof.
  intros [r ->]. unfold buf_set, zlen. rewrite length_app. destruct r as [| x r]; cbn [length].
  - rewrite app_nil_r. destruct (Z.ltb_spec (Z.of_nat (length line)) (Z.of_nat (length line + 0))); [lia |]. done.
  - destruct (Z.ltb_spec (Z.of_nat (length line)) (Z.of_nat (length line + S (length r)))); [| lia].
    rewrite Nat2Z.id, insert_app_r_alt, Nat.sub_diag by lia. cbn. exists r. by rewrite <- app_assoc.
Qed.

Lemma tty_loop_spec (keys : list Z) : forall (turns : nat) (len : Z) s (line buf out text echo rest : list Z),
  at_rest s keys out -> line `prefix_of` buf -> (length keys <= turns)%nat ->
  edit_line len line keys = Some (text, echo, rest) ->
  exists s' buf', tty_loop (S polls) turns len (zlen line) buf s = Ret ((zlen text, buf'), s') /\
    text `prefix_of` buf' /\ at_rest s' rest (out ++ echo).
Proof.
  induction keys as [| k keys IH]; intros turns len s line buf out text echo rest Hs Hp Ht; cbn [edit_line].
  { destruct (Z.leb_spec len (zlen line)); [| done]. intros [= <- <- <-]. exists s, buf. rewrite app_nil_r.
    split; [| done]. destruct turns; cbn [tty_loop]; by destruct (Z.leb_spec len (zlen line)); [| lia]. }
  destruct turns as [| turns]; [cbn in Ht; lia |]. cbn [length] in Ht. cbn [tty_loop].
  destruct (Z.leb_spec len (zlen line)) as [Hl | Hl].
  { intros [= <- <- <-]. exists s, buf. by rewrite app_nil_r. }
  destruct (read_byte_quiet s k keys out Hs) as (s1 & E1 & H1). rewrite (st_bind_step _ _ _ _ _ E1).
  assert (forall s2 line' buf' e text' echo' rest',
    at_rest s2 keys (out ++ e) -> line' `prefix_of` buf' ->
    (fun r => (r.1.1, e ++ r.1.2, r.2)) <$> edit_line len line' keys = Some (text', echo', rest') ->
    exists s' buf'', tty_loop (S polls) turns len (zlen line') buf' s2 = Ret ((zlen text', buf''), s') /\
      text' `prefix_of` buf'' /\ at_rest s' rest' (out ++ echo')) as Hgo.
  { intros s2 line' buf' e text' echo' rest' H2 Hp' ([[t e'] r] & Hed & E)%fmap_Some. cbn in E. injection E as -> -> ->.
    destruct (IH turns len s2 line' buf' _ _ _ _ H2 Hp' ltac:(lia) Hed) as (s' & b' & E & Hb & Hr).
    exists s', b'. split; [done |]. split; [done |]. by rewrite app_assoc. }
  destruct (Z.eqb_spec k 10) as [-> | H10].
  { intros [= <- <- <-]. destruct (tty_echo_quiet s1 keys out 10 H1) as (s2 & E2 & H2).
    rewrite (st_bind_step _ _ _ _ _ E2). exists s2, (buf_set buf (zlen line) 10).
    split; [unfold st_ret; do 3 f_equal; unfold zlen; rewrite length_app; cbn; lia |]. split; [by apply buf_set_line | done]. }
  destruct (Z.eqb_spec k 8) as [-> | H8].
  { destruct (decide (line = [])) as [-> | Hne]; cbn [zlen length Z.of_nat Z.ltb Z.compare].
    - intros He. apply (Hgo s1 [] buf []); [by rewrite app_nil_r | done | done].
    - intros He. assert (0 < zlen line) as Hpos by (unfold zlen; destruct line; [done | cbn; lia]).
      destruct (Z.ltb_spec 0 (zlen line)); [| lia]. destruct (tty_echo_quiet s1 keys out 8 H1) as (s2 & E2 & H2).
      rewrite (st_bind_step _ _ _ _ _ E2).
      replace (zlen line - 1) with (zlen (take (length line - 1) line)) by (unfold zlen in *; rewrite length_take; lia).
      apply (Hgo s2 _ buf [8; 32; 8]); [done | | done]. etrans; [| exact Hp]. apply prefix_take. }
  destruct (key_text k).
  - intros He. destruct (tty_echo_quiet s1 keys out k H1) as (s2 & E2 & H2). rewrite (st_bind_step _ _ _ _ _ E2).
    apply Z.eqb_neq in H10, H8. rewrite H10, H8 in H2.
    replace (zlen line + 1) with (zlen (line ++ [k])) by (unfold zlen; rewrite length_app; cbn; lia).
    apply (Hgo s2 _ _ [k]); [done | by apply buf_set_line | done].
  - intros He. apply (Hgo s1 line buf []); [by rewrite app_nil_r | done | done].
Qed.

Lemma stdout_loop_spec (buf : list Z) s keys out :
  at_rest s keys out -> exists s', stdout_loop (S polls) buf s = Ret (tt, s') /\ at_rest s' keys (out ++ (stdout_char <$> buf)).
Proof.
  revert s out. induction buf as [| b buf IH]; intros s out Hs; cbn [stdout_loop].
  { exists s. split; [done |]. by rewrite app_nil_r. }
  destruct (serial_byte_quiet s keys out (stdout_char b) Hs) as (s1 & E1 & H1). rewrite (st_bind_step _ _ _ _ _ E1).
  destruct (IH s1 _ H1) as (s2 & E2 & H2). exists s2. split; [done |]. rewrite fmap_cons. by rewrite <- app_assoc in H2.
Qed.

End Quiet.

(** C38 The terminal edits lines: while no key arrives and the transmitter is
    ready, a read of [len] bytes takes the typed keys up to a line feed or a
    full buffer, applies backspaces, ignores control characters, leaves the
    later keys, returns the text with its length, and echoes it; a write sends
    every byte, with a dot for what is neither printable nor a line feed. *)
Theorem terminal_edits_lines {W : Type} `{PortIO W} `{!QuietConsole W} (polls turns : nat) (len : Z) (s : Ps2 W)
    (keys out text echo rest buf : list Z) :
  at_rest s keys out -> (0 < polls)%nat -> (length keys <= turns)%nat ->
  edit_line len [] keys = Some (text, echo, rest) ->
  (exists s' stored, i_read_at (Inode := terminal_inode polls turns) TtyStdin 0 len s = Ret ((Ok (zlen text), stored), s') /\
     text `prefix_of` stored /\ at_rest s' rest (out ++ echo)) /\
  (exists s', i_write_at (Inode := terminal_inode polls turns) SerialStdout 0 buf s = Ret (Ok (zlen buf), s') /\
     at_rest s' keys (out ++ (stdout_char <$> buf))).
Proof.
  intros Hs Hp Ht He. destruct polls as [| polls]; [lia |]. cbn [i_read_at i_write_at terminal_inode]. split.
  - destruct (tty_loop_spec polls keys turns len s [] [] out text echo rest) as (s' & st & E & Hst & Hr); [done .. |].
    unfold tty_read_at. rewrite (st_bind_step _ _ _ _ _ E). by exists s', st.
  - destruct (stdout_loop_spec polls buf s keys out Hs) as (s' & E & Hr). unfold stdout_write_at.
    rewrite (st_bind_step _ _ _ _ _ E). by exists s'.
Qed.

(** A line that records what is sent, and a keyboard at rest. *)
Definition line_io : PortIO (list Z) := {|
  port_in _ port w := (if port =? COM1 + 5 then 0x20 else 0, w);
  port_out _ port b w := if port =? COM1 then w ++ [b] else w
|}.
#[export] Program Instance line_quiet : QuietConsole (list Z) (H := line_io) :=
  {| quiet _ := True; sent w := w |}.
Solve Obligations with done.

(** Typing [h], [x], backspace, [i] and a line feed. *)
Definition typed : Ps2 (list Z) :=
  mkPs2 [] (mkInputState keyboard_new (mkByteQueue ([104; 120; 8; 105; 10] ++ replicate 27 0) 0 5) byte_queue_new).
Lemma typed_rest : at_rest (HP := line_io) typed [104; 120; 8; 105; 10] [].
Proof. split; [done | split; (split_and!; [reflexivity | simpl; lia ..]) | reflexivity | done]. Qed.

Lemma terminal_edits_lines_witness :
  exists s' stored, i_read_at (Inode := terminal_inode (H := line_io) 1 5) TtyStdin 0 64 typed = Ret ((Ok 3, stored), s') /\
    [104; 105; 10] `prefix_of` stored.
Proof.
  destruct (terminal_edits_lines (H := line_io) 1 5 64 typed [104; 120; 8; 105; 10] []
    [104; 105; 10] [104; 120; 8; 32; 8; 105; 13; 10] [] []) as [H _];
    [apply typed_rest | lia | simpl; lia | vm_compute; reflexivity |].
  destruct H as (s' & st & E & Hp & _). exists s', st. split; [exact E | exact Hp].
Defined.
