(* ===== verification/RamFs.v ===== *)
(** * RAM file system

    [kernel/src/fs/ramfs.rs].  The [Arc<RamInode>]s live in a heap of entries
    and are named by their addresses, so that two handles on one file see the
    same data; a directory maps names to addresses. *)

From stdpp Require Import sorting.
From S2P Require Import Prelude Bytes Inode Vfs.

Record Entry : Type := mkEntry { e_kind : InodeKind; e_data : list Z; e_children : gmap Str Z }.
Record RamHeap : Type := mkRamHeap { nodes : gmap Z Entry; fresh_addr : Z }.

Definition RM (A : Type) : Type := ST RamHeap A.

Definition alloc_node (e : Entry) : RM Z := fun h =>
  Ret (fresh_addr h, mkRamHeap (<[fresh_addr h := e]> (nodes h)) (fresh_addr h + 1)).
Definition new_file (data : list Z) : RM Z := alloc_node (mkEntry File data ∅).
Definition new_dir : RM Z := alloc_node (mkEntry Dir [] ∅).

(** [self.inner.lock()]: the entry behind an [Arc]. *)
Definition entry (a : Z) : RM Entry := fun h =>
  match nodes h !! a with Some e => Ret (e, h) | None => Panic end.
Definition set_entry (a : Z) (e : Entry) : RM unit := fun h =>
  Ret (tt, mkRamHeap (<[a := e]> (nodes h)) (fresh_addr h)).

(** [Vec::resize] to a larger size, which panics past [isize::MAX] bytes. *)
Definition vec_resize (l : list Z) (n : Z) : outcome (list Z) :=
  if n <? 2 ^ 63 then Ret (take (Z.to_nat n) l ++ replicate (Z.to_nat n - length l) 0) else Panic.

Definition ram_kind (a : Z) : RM InodeKind := let* e := entry a in st_ret (e_kind e).
Definition ram_size (a : Z) : RM Z := let* e := entry a in st_ret (zlen (e_data e)).

Definition ram_read_at (a off len : Z) : RM (result Z FsError * list Z) :=
  let* g := entry a in
  if decide (e_kind g ≠ File) then st_ret (Err IsDir, [])
  else if zlen (e_data g) <=? off then st_ret (Ok 0, [])
  else
    let n := Z.min len (zlen (e_data g) - off) in
    let* bytes := st_lift (slice (e_data g) off n) in
    st_ret (Ok n, bytes).

Definition ram_write_at (a off : Z) (buf : list Z) : RM (result Z FsError) :=
  let* g := entry a in
  if decide (e_kind g ≠ File) then st_ret (Err IsDir)
  else
    let* end_ := st_lift (checked 64 (off + zlen buf)) in
    let* data := st_lift (if zlen (e_data g) <? end_ then vec_resize (e_data g) end_ else Ret (e_data g)) in
    let* data := st_lift (splice data off buf) in
    let* _ := set_entry a (mkEntry (e_kind g) data (e_children g)) in
    st_ret (Ok (zlen buf)).

Definition ram_lookup (a : Z) (name : Str) : RM (result Z FsError) :=
  let* g := entry a in
  if decide (e_kind g ≠ Dir) then st_ret (Err NotDir)
  else match e_children g !! name with
       | Some c => st_ret (Ok c)
       | None => st_ret (Err NotFound)
       end.

(** A [BTreeMap] iterates in the order of its keys, byte by byte. *)
Fixpoint str_leb (s t : Str) : bool :=
  match s, t with
  | [], _ => true
  | _ :: _, [] => false
  | x :: s, y :: t => if x =? y then str_leb s t else x <? y
  end.
Definition key_le (x y : Str * Z) : Prop := str_leb x.1 y.1 = true.
#[global] Instance key_le_dec : RelDecision key_le := fun x y => decide (str_leb x.1 y.1 = true).
Definition in_order (m : gmap Str Z) : list (Str * Z) := merge_sort key_le (map_to_list m).

(** The lock of the directory is held while its children are locked. *)
Fixpoint child_kinds (self : Z) (cs : list (Str * Z)) : RM (list (Str * InodeKind)) :=
  match cs with
  | [] => st_ret []
  | (n, c) :: cs =>
      if c =? self then st_lift Deadlock
      else
        let* e := entry c in
        let* l := child_kinds self cs in
        st_ret ((n, e_kind e) :: l)
  end.
Definition ram_readdir (a : Z) : RM (result (list (Str * InodeKind)) FsError) :=
  let* g := entry a in
  if decide (e_kind g ≠ Dir) then st_ret (Err NotDir)
  else let* l := child_kinds a (in_order (e_children g)) in st_ret (Ok l).

Definition ram_create (a : Z) (name : Str) (kind : InodeKind) : RM (result Z FsError) :=
  let* g := entry a in
  if decide (e_kind g ≠ Dir) then st_ret (Err NotDir)
  else if decide (is_Some (e_children g !! name)) then st_ret (Err Exists_)
  else
    let* node := match kind with File => new_file [] | Dir => new_dir end in
    let* _ := set_entry a (mkEntry (e_kind g) (e_data g) (<[name := node]> (e_children g))) in
    st_ret (Ok node).

Definition ram_unlink (a : Z) (name : Str) : RM (result unit FsError) :=
  let* g := entry a in
  if decide (e_kind g ≠ Dir) then st_ret (Err NotDir)
  else match e_children g !! name with
       | None => st_ret (Err NotFound)
       | Some _ =>
           let* _ := set_entry a (mkEntry (e_kind g) (e_data g) (delete name (e_children g))) in
           st_ret (Ok tt)
       end.

#[global] Instance ram_inode : Inode RamHeap Z := {|
  i_kind := ram_kind;
  i_size := ram_size;
  i_read_at := ram_read_at;
  i_write_at := ram_write_at;
  i_lookup := ram_lookup;
  i_readdir := ram_readdir;
  i_create := ram_create;
  i_unlink := ram_unlink
|}.

(** ** The file system object *)

Record RamFs : Type := mkRamFs { ram_root : Z }.
#[global] Instance ram_filesystem : Filesystem RamFs Z := {| root := ram_root |}.
Definition ramfs_new : RM RamFs := let* r := new_dir in st_ret (mkRamFs r).

(** [.expect(..)] on a result. *)
Definition expect {S A E} (c : ST S (result A E)) : ST S A :=
  let* r := c in match r with Ok a => st_ret a | Err _ => st_lift Panic end.

Definition get_or_create (node : Z) (name : Str) (kind : InodeKind) : RM Z :=
  let* r := ram_lookup node name in
  match r with Ok n => st_ret n | Err _ => expect (ram_create node name kind) end.
Fixpoint make_dirs (node : Z) (dirs : list Str) : RM Z :=
  match dirs with
  | [] => st_ret node
  | d :: ds => let* node := get_or_create node d Dir in make_dirs node ds
  end.
Definition put_file (fs : RamFs) (path : Str) (bytes : list Z) : RM unit :=
  if negb (starts_with path [SLASH]) then st_lift Panic
  else
    let comps := components path in
    match last comps with
    | None => st_lift Panic
    | Some name =>
        let* node := make_dirs (ram_root fs) (removelast comps) in
        let* file := get_or_create node name File in
        let* _ := expect (ram_write_at file 0 bytes) in
        st_ret tt
    end.
