(* ===== verification/RamFsProps.v ===== *)
(** * RAM file system: refinement of a tree of files

    The heap of [RamFs.v] stands for a map from paths to contents; every inode
    operation at the node of a path does to the heap what the abstract
    operation does to the map. *)

From stdpp Require Import sorting.
From S2P Require Import Prelude Bytes Inode Vfs RamFs.

(** ** The specification *)

Module FileTree.

Inductive content : Type := AFile (data : list Z) | ADir.
(** The root is the empty path. *)
Definition tree : Type := list Str -> option content.

Inductive op : Type :=
  | Kind | Size
  | Read (off len : Z)
  | Write (off : Z) (bytes : list Z)
  | Lookup (name : Str)
  | Readdir
  | Create (name : Str) (kind : InodeKind)
  | Unlink (name : Str).
Inductive reply : Type :=
  | RKind (k : InodeKind)
  | RNum (n : Z)
  | RData (bytes : list Z)
  | RPath (p : list Str)
  | RList (l : list (Str * InodeKind))
  | RDone
  | RErr (e : FsError).

Definition kind_of (c : content) : InodeKind := match c with AFile _ => File | ADir => Dir end.
Definition size_of (c : content) : Z := match c with AFile d => zlen d | ADir => 0 end.
Definition empty_content (k : InodeKind) : content := match k with File => AFile [] | Dir => ADir end.
Definition set (t : tree) (p : list Str) (c : content) : tree :=
  fun q => if decide (q = p) then Some c else t q.
Definition prune (t : tree) (p : list Str) : tree :=
  fun q => if decide (p `prefix_of` q) then None else t q.

(** What a listing holds: the names one level down, in order. *)
Definition listing (t : tree) (p : list Str) (l : list (Str * InodeKind)) : Prop :=
  (forall n k, (n, k) ∈ l <-> kind_of <$> t (p ++ [n]) = Some k) /\
  NoDup l.*1 /\ Sorted (fun x y => str_leb x y = true) l.*1.

Definition same (t t' : tree) : Prop := forall q, t q = t' q.

Definition on_dir (t : tree) (p : list Str) (e : FsError) (r : reply) (t' : tree)
    (k : Prop) : Prop :=
  match t p with Some ADir => k | _ => r = RErr e /\ same t' t end.
Definition on_file (t : tree) (p : list Str) (r : reply) (t' : tree) (k : list Z -> Prop) : Prop :=
  match t p with Some (AFile d) => k d | _ => r = RErr IsDir /\ same t' t end.

Definition step (t : tree) (p : list Str) (o : op) (r : reply) (t' : tree) : Prop :=
  match o with
  | Kind => Some r = RKind ∘ kind_of <$> t p /\ same t' t
  | Size => Some r = RNum ∘ size_of <$> t p /\ same t' t
  | Read off len => on_file t p r t' (fun d => r = RData (take (Z.to_nat len) (drop (Z.to_nat off) d)) /\ same t' t)
  | Write off b => on_file t p r t' (fun d => r = RNum (zlen b) /\ same t' (set t p (AFile (overwrite d off b))))
  | Lookup n => on_dir t p NotDir r t' (same t' t /\
      r = match t (p ++ [n]) with Some _ => RPath (p ++ [n]) | None => RErr NotFound end)
  | Readdir => on_dir t p NotDir r t' (same t' t /\ exists l, r = RList l /\ listing t p l)
  | Create n k => on_dir t p NotDir r t'
      match t (p ++ [n]) with
      | Some _ => r = RErr Exists_ /\ same t' t
      | None => r = RPath (p ++ [n]) /\ same t' (set t (p ++ [n]) (empty_content k))
      end
  | Unlink n => on_dir t p NotDir r t'
      match t (p ++ [n]) with
      | Some _ => r = RDone /\ same t' (prune t (p ++ [n]))
      | None => r = RErr NotFound /\ same t' t
      end
  end.

End FileTree.
Import FileTree.

(** ** Paths in the heap *)

Definition child (h : RamHeap) (a : Z) (n : Str) : option Z :=
  match nodes h !! a with Some e => e_children e !! n | None => None end.

Section Paths.
  Context (ch : Z -> Str -> option Z).

Fixpoint at_path (a : Z) (p : list Str) : option Z :=
  match p with
  | [] => Some a
  | n :: p => match ch a n with Some c => at_path c p | None => None end
  end.

Lemma at_path_snoc a p n : at_path a (p ++ [n]) = at_path a p ≫= fun b => ch b n.
Proof.
  revert a. induction p as [| m p IH]; intros a; simpl; [by destruct (ch a n) |].
  destruct (ch a m); [apply IH | done].
Qed.

(** With one parent per node, a node has one path. *)
Lemma at_path_inj r p q a :
  (forall a n b m c, ch a n = Some c -> ch b m = Some c -> a = b /\ n = m) ->
  (forall a n, ch a n ≠ Some r) ->
  at_path r p = Some a -> at_path r q = Some a -> p = q.
Proof.
  intros Hu Hr. revert q a. induction p as [| n p IH] using rev_ind; intros q a Hp Hq.
  - destruct q as [| m q _] using rev_ind; [done |]. simpl in Hp. injection Hp as <-.
    rewrite at_path_snoc in Hq. apply bind_Some in Hq as (b & _ & Hq). by apply Hr in Hq.
  - rewrite at_path_snoc in Hp. apply bind_Some in Hp as (b & Hb & Hc).
    destruct q as [| m q _] using rev_ind; [simpl in Hq; injection Hq as <-; by apply Hr in Hc |].
    rewrite at_path_snoc in Hq. apply bind_Some in Hq as (b' & Hb' & Hc').
    destruct (Hu _ _ _ _ _ Hc Hc') as [-> ->]. by rewrite (IH _ _ Hb Hb').
Qed.

End Paths.

Lemma at_path_ext ch ch' a p : (forall b n, ch b n = ch' b n) -> at_path ch a p = at_path ch' a p.
Proof. intros H. revert a. induction p as [| n p IH]; intros a; simpl; [done |]. rewrite H. by case_match. Qed.

(** Adding a leaf, and removing an edge. *)
Lemma at_path_add ch ch' r p a n c q :
  (forall a n b m c, ch a n = Some c -> ch b m = Some c -> a = b /\ n = m) ->
  (forall a n, ch a n ≠ Some r) ->
  at_path ch r p = Some a -> ch a n = None -> (forall m, ch c m = None) -> r ≠ c -> (forall b m, ch b m ≠ Some c) ->
  (forall b m, ch' b m = if decide (b = a /\ m = n) then Some c else ch b m) ->
  at_path ch' r q = if decide (q = p ++ [n]) then Some c else at_path ch r q.
Proof.
  intros Hu Hr Hp Hn Hc Hrc Hcn Hch. induction q as [| m q IH] using rev_ind.
  { rewrite decide_False; [done |]. intros E. by destruct p. }
  rewrite !at_path_snoc, IH. destruct (decide (q = p ++ [n])) as [-> |].
  - simpl. rewrite Hch, decide_False, Hc.
    2:{ intros [-> _]. destruct p as [| x p _] using rev_ind; [simpl in Hp; congruence |].
        rewrite at_path_snoc in Hp. apply bind_Some in Hp as (? & _ & Hx). by apply Hcn in Hx. }
    rewrite decide_False; [| intros E; apply (f_equal length) in E; rewrite !length_app in E; simpl in E; lia].
    rewrite at_path_snoc, Hp. simpl. by rewrite Hn.
  - destruct (at_path ch r q) as [b |] eqn:Eq; simpl.
    2:{ rewrite decide_False; [done |]. intros E. apply app_inj_tail in E as [-> ->]. congruence. }
    rewrite Hch. destruct (decide (b = a /\ m = n)) as [[-> ->] | Hne].
    + by rewrite (at_path_inj ch r q p a Hu Hr Eq Hp), decide_True.
    + rewrite decide_False; [done |]. intros E. apply app_inj_tail in E as [-> ->]. apply Hne. split; congruence.
Qed.

Lemma at_path_cut ch ch' r p a n q :
  (forall a n b m c, ch a n = Some c -> ch b m = Some c -> a = b /\ n = m) ->
  (forall a n, ch a n ≠ Some r) ->
  at_path ch r p = Some a ->
  (forall b m, ch' b m = if decide (b = a /\ m = n) then None else ch b m) ->
  at_path ch' r q = if decide (p ++ [n] `prefix_of` q) then None else at_path ch r q.
Proof.
  intros Hu Hr Hp Hch. induction q as [| m q IH] using rev_ind.
  { rewrite decide_False; [done |]. intros E. apply prefix_nil_inv in E. by destruct p. }
  rewrite !at_path_snoc, IH. destruct (decide (p ++ [n] `prefix_of` q)) as [Hpre |].
  - rewrite decide_True; [done |]. by apply prefix_app_r.
  - destruct (at_path ch r q) as [b |] eqn:Eq; simpl.
    2:{ by case_decide. }
    rewrite Hch. destruct (decide (b = a /\ m = n)) as [[-> ->] | Hne].
    + rewrite (at_path_inj ch r q p a Hu Hr Eq Hp). by rewrite decide_True by done.
    + rewrite decide_False; [done |]. intros [k E]. destruct k as [| x k _] using rev_ind.
      * rewrite app_nil_r in E. apply app_inj_tail in E as [-> ->]. apply Hne. split; congruence.
      * rewrite app_assoc in E. apply app_inj_tail in E as [-> _]. eauto using prefix_app_r, prefix_app_l.
Qed.

(** ** Well-formed heaps *)

Record ram_wf (h : RamHeap) (r : Z) : Prop := {
  wf_root : e_kind <$> nodes h !! r = Some Dir;
  wf_child : forall a n c, child h a n = Some c -> is_Some (nodes h !! c) /\ a < c /\ c ≠ r;
  wf_parent : forall a n b m c, child h a n = Some c -> child h b m = Some c -> a = b /\ n = m;
  wf_file : forall a e, nodes h !! a = Some e -> e_kind e = File -> e_children e = ∅;
  wf_dir : forall a e, nodes h !! a = Some e -> e_kind e = Dir -> e_data e = [];
  wf_fresh : forall a, is_Some (nodes h !! a) -> a < fresh_addr h
}.

Definition node_at (h : RamHeap) (r : Z) (p : list Str) : option Z := at_path (child h) r p.
Definition content_of (e : Entry) : content := match e_kind e with File => AFile (e_data e) | Dir => ADir end.
Definition tree_of (h : RamHeap) (r : Z) : tree :=
  fun p => node_at h r p ≫= fun a => content_of <$> nodes h !! a.

Lemma fresh_None h r : ram_wf h r -> nodes h !! fresh_addr h = None.
Proof.
  intros Hwf. destruct (nodes h !! fresh_addr h) eqn:E; [| done].
  assert (fresh_addr h < fresh_addr h) by (apply (wf_fresh _ _ Hwf); by eexists). lia.
Qed.

Lemma node_at_valid h r p a : ram_wf h r -> node_at h r p = Some a -> is_Some (nodes h !! a).
Proof.
  intros Hwf. destruct p as [| n p _] using rev_ind.
  - intros [= <-]. pose proof (wf_root _ _ Hwf) as Hr.
    destruct (nodes h !! r); [done | discriminate].
  - unfold node_at. rewrite at_path_snoc. intros (b & _ & Hc)%bind_Some. by apply (wf_child _ _ Hwf) in Hc as (? & _).
Qed.

Lemma node_at_inj h r p q a : ram_wf h r -> node_at h r p = Some a -> node_at h r q = Some a -> p = q.
Proof.
  intros Hwf. apply at_path_inj; [apply (wf_parent _ _ Hwf) |]. intros b n E. by apply (wf_child _ _ Hwf) in E as (_ & _ & ?).
Qed.

Lemma tree_of_at h r p a e :
  node_at h r p = Some a -> nodes h !! a = Some e -> tree_of h r p = Some (content_of e).
Proof. intros H1 H2. unfold tree_of. rewrite H1. simpl. by rewrite H2. Qed.

Lemma tree_of_None h r p : ram_wf h r -> tree_of h r p = None <-> node_at h r p = None.
Proof.
  intros Hwf. unfold tree_of. destruct (node_at h r p) as [a |] eqn:E; simpl; [| done].
  destruct (node_at_valid h r p a Hwf E) as [e ->]. done.
Qed.

Lemma node_at_child h r p a e n :
  node_at h r p = Some a -> nodes h !! a = Some e -> node_at h r (p ++ [n]) = e_children e !! n.
Proof. intros H1 H2. unfold node_at in *. rewrite at_path_snoc, H1. simpl. unfold child. by rewrite H2. Qed.

(** ** The operations *)

(** Replacing the data of a file. *)
Lemma set_data_wf h r a e d :
  ram_wf h r -> nodes h !! a = Some e -> e_kind e = File ->
  let h' := mkRamHeap (<[a := mkEntry File d (e_children e)]> (nodes h)) (fresh_addr h) in
  ram_wf h' r /\ (forall b n, child h' b n = child h b n).
Proof.
  intros Hwf He Hk h'. assert (forall b n, child h' b n = child h b n) as Hch.
  { intros b n. unfold child. simpl. destruct (decide (a = b)) as [<- |].
    - by rewrite lookup_insert_eq, He.
    - by rewrite lookup_insert_ne by done. }
  split; [| done]. split.
  - simpl. destruct (decide (a = r)) as [<- |]; [| rewrite lookup_insert_ne by done; apply Hwf].
    pose proof (wf_root _ _ Hwf) as Hr. rewrite He in Hr. simpl in Hr. congruence.
  - intros b n c. rewrite Hch. intros Hc. destruct (wf_child _ _ Hwf _ _ _ Hc) as (? & ? & ?).
    split_and!; [| done | done]. simpl. by apply lookup_insert_is_Some'; right.
  - intros b n b' m c. rewrite !Hch. apply Hwf.
  - intros b e' Hb Hke. simpl in Hb. apply lookup_insert_Some in Hb as [[<- <-] | [_ Hb]];
      [by apply (wf_file _ _ Hwf _ _ He) | by apply (wf_file _ _ Hwf _ _ Hb)].
  - intros b e' Hb Hke. simpl in Hb. apply lookup_insert_Some in Hb as [[<- <-] | [_ Hb]];
      [done | by apply (wf_dir _ _ Hwf _ _ Hb)].
  - intros b Hb. simpl in *. apply lookup_insert_is_Some' in Hb as [<- | Hb]; apply (wf_fresh _ _ Hwf); [by eexists | done].
Qed.

(** Replacing the children of a directory. *)
Lemma child_set_children h a e cs b n f :
  nodes h !! a = Some e ->
  child (mkRamHeap (<[a := mkEntry Dir (e_data e) cs]> (nodes h)) f) b n
  = if decide (b = a) then cs !! n else child h b n.
Proof.
  intros He. unfold child. simpl. destruct (decide (b = a)) as [-> | Hne];
    [by rewrite lookup_insert_eq | by rewrite lookup_insert_ne].
Qed.

Definition created (h : RamHeap) (a : Z) (e : Entry) (n : Str) (k : InodeKind) : RamHeap :=
  mkRamHeap (<[a := mkEntry Dir (e_data e) (<[n := fresh_addr h]> (e_children e))]>
    (<[fresh_addr h := mkEntry k [] ∅]> (nodes h))) (fresh_addr h + 1).

Lemma created_child h r a e n k :
  ram_wf h r -> nodes h !! a = Some e ->
  forall b m, child (created h a e n k) b m = if decide (b = a /\ m = n) then Some (fresh_addr h) else child h b m.
Proof.
  intros Hwf He b m. pose proof (wf_fresh _ _ Hwf a ltac:(by eexists)). unfold child, created. simpl.
  destruct (decide (b = a)) as [-> | Hne].
  - rewrite lookup_insert_eq, He. simpl. destruct (decide (m = n)) as [-> | Hm].
    + by rewrite lookup_insert_eq, decide_True.
    + rewrite lookup_insert_ne by done. by rewrite decide_False by (intros [_ ?]; done).
  - rewrite lookup_insert_ne by done. rewrite decide_False by (intros [? _]; done).
    destruct (decide (b = fresh_addr h)) as [-> | Hf].
    + rewrite lookup_insert_eq. simpl. rewrite lookup_empty.
      by rewrite (fresh_None h r Hwf).
    + by rewrite lookup_insert_ne.
Qed.

Lemma fresh_not_child h r b m : ram_wf h r -> child h b m ≠ Some (fresh_addr h) /\ child h (fresh_addr h) m = None.
Proof.
  intros Hwf. pose proof (fresh_None h r Hwf) as Hn. split; [| unfold child; by rewrite Hn].
  intros Hc. apply (wf_child _ _ Hwf) in Hc as ([? Hc] & _). congruence.
Qed.

Lemma created_wf h r a e n k :
  ram_wf h r -> nodes h !! a = Some e -> e_kind e = Dir -> e_children e !! n = None -> ram_wf (created h a e n k) r.
Proof.
  intros Hwf He Hk Hn. pose proof (created_child h r a e n k Hwf He) as Hch.
  pose proof (wf_fresh _ _ Hwf a ltac:(by eexists)) as Ha.
  assert (forall b, is_Some (nodes h !! b) -> is_Some (nodes (created h a e n k) !! b)) as Hold.
  { intros b Hb. simpl. rewrite lookup_insert_is_Some'. right. rewrite lookup_insert_is_Some'. by right. }
  split.
  - pose proof (wf_root _ _ Hwf) as Hr. simpl. destruct (decide (a = r)) as [<- |]; [by rewrite lookup_insert_eq |].
    rewrite lookup_insert_ne by done. rewrite lookup_insert_ne; [done |].
    intros <-. by rewrite (fresh_None h _ Hwf) in Hr.
  - intros b m c. rewrite Hch. destruct (decide (b = a /\ m = n)) as [[-> ->] | Hne].
    + intros [= <-]. split_and!; [| done |].
      * simpl. rewrite lookup_insert_is_Some'. right. rewrite lookup_insert_is_Some'. by left.
      * intros E. pose proof (wf_root _ _ Hwf) as Hr. rewrite <- E, (fresh_None h r Hwf) in Hr. done.
    + intros Hc. destruct (wf_child _ _ Hwf _ _ _ Hc) as (? & ? & ?). split_and!; auto.
  - intros b m b' m' c. rewrite !Hch.
    destruct (decide (b = a /\ m = n)) as [[-> ->] |], (decide (b' = a /\ m' = n)) as [[-> ->] |].
    + done.
    + intros [= <-] Hc. by apply (fresh_not_child _ _ _ _ Hwf) in Hc.
    + intros Hc [= <-]. by apply (fresh_not_child _ _ _ _ Hwf) in Hc.
    + apply Hwf.
  - intros b e' Hb. simpl in Hb. apply lookup_insert_Some in Hb as [[<- <-] | [_ Hb]]; [done |].
    apply lookup_insert_Some in Hb as [[<- <-] | [_ Hb]]; [done | apply (wf_file _ _ Hwf _ _ Hb)].
  - intros b e' Hb. simpl in Hb. apply lookup_insert_Some in Hb as [[<- <-] | [_ Hb]].
    { intros _. simpl. by apply (wf_dir _ _ Hwf _ _ He). }
    apply lookup_insert_Some in Hb as [[<- <-] | [_ Hb]]; [done | apply (wf_dir _ _ Hwf _ _ Hb)].
  - intros b Hb. simpl in *. rewrite !lookup_insert_is_Some' in Hb.
    destruct Hb as [<- | [<- | Hb]]; [lia | lia |]. apply (wf_fresh _ _ Hwf) in Hb. lia.
Qed.

Lemma created_node_at h r p a e n k q :
  ram_wf h r -> node_at h r p = Some a -> nodes h !! a = Some e -> e_children e !! n = None ->
  node_at (created h a e n k) r q = if decide (q = p ++ [n]) then Some (fresh_addr h) else node_at h r q.
Proof.
  intros Hwf Hp He Hn. apply (at_path_add (child h) _ r p a n).
  - apply (wf_parent _ _ Hwf).
  - intros b m E. by apply (wf_child _ _ Hwf) in E as (_ & _ & ?).
  - exact Hp.
  - unfold child. by rewrite He.
  - intros m. by apply (fresh_not_child _ _ r m Hwf).
  - intros E. pose proof (wf_root _ _ Hwf) as Hr. rewrite E, (fresh_None h r Hwf) in Hr. done.
  - intros b m. by apply (fresh_not_child _ _ b m Hwf).
  - by eapply created_child.
Qed.

Definition unlinked (h : RamHeap) (a : Z) (e : Entry) (n : Str) : RamHeap :=
  mkRamHeap (<[a := mkEntry Dir (e_data e) (delete n (e_children e))]> (nodes h)) (fresh_addr h).

Lemma unlinked_child h a e n b m :
  nodes h !! a = Some e ->
  child (unlinked h a e n) b m = if decide (b = a /\ m = n) then None else child h b m.
Proof.
  intros He. unfold unlinked. rewrite child_set_children by done. destruct (decide (b = a)) as [-> |].
  - destruct (decide (m = n)) as [-> |].
    + by rewrite lookup_delete_eq, decide_True.
    + rewrite lookup_delete_ne by done. rewrite decide_False by (intros [_ ?]; done). unfold child. by rewrite He.
  - by rewrite decide_False by (intros [? _]; done).
Qed.

Lemma unlinked_wf h r a e n :
  ram_wf h r -> nodes h !! a = Some e -> e_kind e = Dir -> ram_wf (unlinked h a e n) r.
Proof.
  intros Hwf He Hk.
  assert (forall b m c, child (unlinked h a e n) b m = Some c -> child h b m = Some c) as Hch.
  { intros b m c. rewrite unlinked_child by done. by case_decide. }
  assert (forall b, is_Some (nodes (unlinked h a e n) !! b) <-> is_Some (nodes h !! b)) as Hdom.
  { intros b. simpl. rewrite lookup_insert_is_Some'. split; [intros [<- | ?]; [by eexists | done] | by right]. }
  split.
  - simpl. destruct (decide (a = r)) as [<- |]; [by rewrite lookup_insert_eq | rewrite lookup_insert_ne by done; apply Hwf].
  - intros b m c Hc%Hch. rewrite Hdom. by apply (wf_child _ _ Hwf) in Hc.
  - intros b m b' m' c Hc%Hch Hc'%Hch. by apply (wf_parent _ _ Hwf _ _ _ _ _ Hc Hc').
  - intros b e' Hb. simpl in Hb. apply lookup_insert_Some in Hb as [[<- <-] | [_ Hb]]; [done | apply (wf_file _ _ Hwf _ _ Hb)].
  - intros b e' Hb. simpl in Hb. apply lookup_insert_Some in Hb as [[<- <-] | [_ Hb]]; [| apply (wf_dir _ _ Hwf _ _ Hb)].
    intros _. by apply (wf_dir _ _ Hwf _ _ He).
  - intros b Hb%Hdom. by apply (wf_fresh _ _ Hwf).
Qed.

Lemma unlinked_node_at h r p a e n q :
  ram_wf h r -> node_at h r p = Some a -> nodes h !! a = Some e ->
  node_at (unlinked h a e n) r q = if decide (p ++ [n] `prefix_of` q) then None else node_at h r q.
Proof.
  intros Hwf Hp He. apply (at_path_cut (child h) _ r p a n); [apply (wf_parent _ _ Hwf) | | exact Hp |].
  - intros b m E. by apply (wf_child _ _ Hwf) in E as (_ & _ & ?).
  - intros b m. by apply unlinked_child.
Qed.

(** *** Listing a directory *)

Lemma str_leb_total (s t : Str) : str_leb s t = true \/ str_leb t s = true.
Proof.
  revert t. induction s as [| x s IH]; intros [| y t]; simpl; [by left | by left | by right |].
  rewrite (Z.eqb_sym y x). destruct (Z.eqb_spec x y); [apply IH |].
  destruct (Z.ltb_spec x y); [by left |]. right. apply Z.ltb_lt. lia.
Qed.

Lemma in_order_sorted m : Sorted (fun x y => str_leb x y = true) (in_order m).*1.
Proof.
  assert (Sorted key_le (in_order m)) as Hs.
  { apply Sorted_merge_sort. intros x y. apply str_leb_total. }
  unfold in_order in *. induction Hs as [| x l Hs IH Hd]; [constructor |]. simpl. constructor; [exact IH |].
  destruct Hd; constructor. done.
Qed.

Lemma in_order_perm m : in_order m ≡ₚ map_to_list m.
Proof. apply merge_sort_Permutation. Qed.

Lemma child_kinds_spec h a cs :
  Forall (fun nc => is_Some (nodes h !! nc.2) /\ nc.2 ≠ a) cs ->
  exists l, child_kinds a cs h = Ret (l, h) /\ l.*1 = cs.*1 /\
    (forall n k, (n, k) ∈ l <-> exists c e, (n, c) ∈ cs /\ nodes h !! c = Some e /\ e_kind e = k).
Proof.
  induction 1 as [| [n c] cs [[e He] Hne] _ IH]; cbn [child_kinds].
  { exists []. split_and!; [done | done |]. intros n k. split; [set_solver | intros (? & ? & ? & _); set_solver]. }
  simpl in He, Hne. rewrite (proj2 (Z.eqb_neq c a) Hne). destruct IH as (l & E & Hk & Hl).
  unfold st_bind, entry. rewrite He. simpl. rewrite E. simpl. eexists. split; [done |].
  split; [by rewrite !fmap_cons, Hk |]. intros n' k. rewrite elem_of_cons, Hl. split.
  - intros [[= -> ->] | (c' & e' & ? & ? & ?)]; [exists c, e | exists c', e']; (split; [| done]); [by left | by right].
  - intros (c' & e' & Hin & He' & <-). apply elem_of_cons in Hin as [[= -> ->] | Hin];
      [left; congruence | right; by exists c', e'].
Qed.

(** ** Refinement *)

(** The answer of the code: a reply, or the node an operation yields. *)
Inductive answer : Type := AReply (r : reply) | ANode (a : Z).

Definition to_answer {A} (f : A -> answer) (c : RM (result A FsError)) : RM answer :=
  let* r := c in st_ret (match r with Ok x => f x | Err e => AReply (RErr e) end).
Definition run (o : op) (a : Z) : RM answer :=
  match o with
  | Kind => let* k := i_kind a in st_ret (AReply (RKind k))
  | Size => let* n := i_size a in st_ret (AReply (RNum n))
  | Read off len =>
      let* (r, bytes) := i_read_at a off len in
      st_ret (AReply (match r with Ok n => RData (take (Z.to_nat n) bytes) | Err e => RErr e end))
  | Write off b => to_answer (fun n => AReply (RNum n)) (i_write_at a off b)
  | Lookup n => to_answer ANode (i_lookup a n)
  | Readdir => to_answer (fun l => AReply (RList l)) (i_readdir a)
  | Create n k => to_answer ANode (i_create a n k)
  | Unlink n => to_answer (fun _ => AReply RDone) (i_unlink a n)
  end.

Definition answers (h : RamHeap) (r : Z) (x : answer) (y : reply) : Prop :=
  match x with AReply x => y = x | ANode a => exists p, y = RPath p /\ node_at h r p = Some a end.

(** Sizes and offsets as the machine has them. *)
Definition op_fits (o : op) : Prop :=
  match o with
  | Read off len => 0 <= off /\ 0 <= len
  | Write off b => 0 <= off /\ off + zlen b < 2 ^ 63
  | _ => True
  end.

(** The nodes of the paths that stay are the same nodes. *)
Definition handles_kept (h h' : RamHeap) (r : Z) : Prop :=
  forall q a, node_at h r q = Some a -> node_at h' r q = Some a \/ node_at h' r q = None.

Definition refines_step (h : RamHeap) (r : Z) (p : list Str) (o : op) (a : Z) : Prop :=
  exists x h' y, run o a h = Ret (x, h') /\ ram_wf h' r /\ handles_kept h h' r /\
    answers h' r x y /\ step (tree_of h r) p o y (tree_of h' r).

Section Steps.
  Context (h : RamHeap) (r : Z) (p : list Str) (a : Z) (e : Entry).
  Context (Hwf : ram_wf h r) (Hp : node_at h r p = Some a) (He : nodes h !! a = Some e).

Lemma run_entry {A} (k : Entry -> RM A) : st_bind (entry a) k h = k e h.
Proof. unfold st_bind, entry. by rewrite He. Qed.

Lemma tree_here : tree_of h r p = Some (content_of e).
Proof. by apply (tree_of_at h r p a). Qed.

Lemma handles_refl : handles_kept h h r.
Proof. intros q b. by left. Qed.

Lemma tree_child n : tree_of h r (p ++ [n]) = None <-> e_children e !! n = None.
Proof. rewrite tree_of_None by done. by rewrite (node_at_child h r p a e n). Qed.

(** An operation that leaves the heap alone. *)
Lemma refines_read o x y :
  run o a h = Ret (x, h) -> answers h r x y -> step (tree_of h r) p o y (tree_of h r) -> refines_step h r p o a.
Proof. intros Hr Ha Hs. exists x, h, y. split_and!; [done | done | apply handles_refl | done | done]. Qed.

Lemma refines_kind_size o : o = Kind \/ o = Size -> refines_step h r p o a.
Proof.
  intros [-> | ->]; eapply refines_read; cbn [run i_kind i_size ram_inode step]; unfold ram_kind, ram_size.
  - unfold st_bind at 1. rewrite run_entry. done.
  - done.
  - rewrite tree_here. simpl. split; [| done]. unfold content_of. by destruct (e_kind e).
  - unfold st_bind at 1. rewrite run_entry. done.
  - done.
  - rewrite tree_here. simpl. split; [| done]. unfold content_of. destruct (e_kind e) eqn:Ek; [done |].
    by rewrite (wf_dir _ _ Hwf _ _ He Ek).
Qed.

Lemma refines_read_at off len : 0 <= off -> 0 <= len -> refines_step h r p (Read off len) a.
Proof.
  intros Ho Hl. destruct (e_kind e) eqn:Ek.
  2:{ apply (refines_read _ (AReply (RErr IsDir)) (RErr IsDir)); [| done |].
      - cbn [run i_read_at ram_inode]. unfold ram_read_at. unfold st_bind at 1. rewrite run_entry.
        by rewrite decide_True by (by rewrite Ek).
      - cbn [step]. unfold on_file. rewrite tree_here. unfold content_of. by rewrite Ek. }
  assert (exists bytes n, ram_read_at a off len h = Ret ((Ok n, bytes), h) /\
    take (Z.to_nat n) bytes = take (Z.to_nat len) (drop (Z.to_nat off) (e_data e))) as (bytes & n & E & Hb).
  { unfold ram_read_at. rewrite run_entry. rewrite decide_False by (rewrite Ek; auto).
    destruct (Z.leb_spec (zlen (e_data e)) off).
    - exists [], 0. split; [done |]. rewrite drop_ge by (unfold zlen in *; lia). by rewrite !take_nil.
    - unfold st_bind, st_lift.
      destruct (slice (e_data e) off (Z.min len (zlen (e_data e) - off))) as [bs | | |] eqn:Es;
        [| unfold slice in Es; revert Es; zcases; simpl; (discriminate || lia) ..].
      simpl. exists bs, (Z.min len (zlen (e_data e) - off)). split; [done |].
      apply slice_Ret in Es as (_ & _ & _ & ->). rewrite take_take. unfold zlen in *.
      destruct (Z.min_spec len (Z.of_nat (length (e_data e)) - off)) as [[_ ->] | [? ->]].
      + f_equal. lia.
      + rewrite !take_ge by (rewrite length_drop; lia). done. }
  eapply refines_read; [cbn [run i_read_at ram_inode]; unfold st_bind at 1; rewrite E; done | done |].
  cbn [step]. unfold on_file. rewrite tree_here. unfold content_of. rewrite Ek. by rewrite Hb.
Qed.

Lemma refines_lookup n : refines_step h r p (Lookup n) a.
Proof.
  destruct (e_kind e) eqn:Ek.
  { apply (refines_read _ (AReply (RErr NotDir)) (RErr NotDir)); [| done |].
    - cbn [run i_lookup ram_inode]. unfold to_answer, ram_lookup, st_bind at 1. rewrite run_entry.
      by rewrite decide_True by (by rewrite Ek).
    - cbn [step]. unfold on_dir. rewrite tree_here. unfold content_of. by rewrite Ek. }
  pose proof (tree_child n) as Ht. destruct (e_children e !! n) as [c |] eqn:Ec.
  - apply (refines_read _ (ANode c) (RPath (p ++ [n]))).
    + cbn [run i_lookup ram_inode]. unfold to_answer, ram_lookup, st_bind at 1. rewrite run_entry.
      rewrite decide_False by (rewrite Ek; auto). by rewrite Ec.
    + exists (p ++ [n]). split; [done |]. by rewrite (node_at_child h r p a e).
    + cbn [step]. unfold on_dir. rewrite tree_here. unfold content_of. rewrite Ek. split; [done |].
      destruct (tree_of h r (p ++ [n])); [done | discriminate (proj1 Ht eq_refl)].
  - apply (refines_read _ (AReply (RErr NotFound)) (RErr NotFound)); [| done |].
    + cbn [run i_lookup ram_inode]. unfold to_answer, ram_lookup, st_bind at 1. rewrite run_entry.
      rewrite decide_False by (rewrite Ek; auto). by rewrite Ec.
    + cbn [step]. unfold on_dir. rewrite tree_here. unfold content_of. rewrite Ek. split; [done |].
      by rewrite (proj2 Ht eq_refl).
Qed.

Lemma refines_readdir : refines_step h r p Readdir a.
Proof.
  destruct (e_kind e) eqn:Ek.
  { apply (refines_read _ (AReply (RErr NotDir)) (RErr NotDir)); [| done |].
    - cbn [run i_readdir ram_inode]. unfold to_answer, ram_readdir, st_bind at 1. rewrite run_entry.
      by rewrite decide_True by (by rewrite Ek).
    - cbn [step]. unfold on_dir. rewrite tree_here. unfold content_of. by rewrite Ek. }
  assert (forall n c, (n, c) ∈ in_order (e_children e) <-> e_children e !! n = Some c) as Hin.
  { intros n c. rewrite in_order_perm. apply elem_of_map_to_list. }
  destruct (child_kinds_spec h a (in_order (e_children e))) as (l & E & Hk & Hl).
  { apply Forall_forall. intros [n c] Hc%Hin. cbn [snd].
    assert (child h a n = Some c) as (? & ? & _)%(wf_child _ _ Hwf) by (unfold child; by rewrite He).
    split; [done | lia]. }
  apply (refines_read _ (AReply (RList l)) (RList l)); [| done |].
  - cbn [run i_readdir ram_inode]. unfold to_answer, ram_readdir, st_bind at 1. rewrite run_entry.
    rewrite decide_False by (rewrite Ek; auto). unfold st_bind. by rewrite E.
  - cbn [step]. unfold on_dir. rewrite tree_here. unfold content_of at 1. rewrite Ek. split; [done |].
    exists l. split; [done |]. unfold listing. rewrite Hk. split_and!.
    + intros n k. rewrite Hl. unfold tree_of. rewrite (node_at_child h r p a e) by done. split.
      * intros (c & e' & Hc%Hin & He' & <-). rewrite Hc. simpl. rewrite He'. simpl. unfold content_of. by destruct (e_kind e').
      * destruct (e_children e !! n) as [c |] eqn:Ec; [| done]. simpl. destruct (nodes h !! c) as [e' |] eqn:He'; [| done].
        simpl. intros [= Hk']. exists c, e'. split_and!; [by apply Hin | done |].
        rewrite <- Hk'. unfold content_of. by destruct (e_kind e').
    + rewrite in_order_perm. apply NoDup_fst_map_to_list.
    + apply in_order_sorted.
Qed.

(** Reading the new tree when only the entry of this node changed. *)
Lemma tree_same_nodes h' c :
  (forall q, node_at h' r q = node_at h r q) ->
  (forall b, b ≠ a -> nodes h' !! b = nodes h !! b) -> content_of <$> nodes h' !! a = Some c ->
  same (tree_of h' r) (set (tree_of h r) p c).
Proof.
  intros Hn Ho Ha q. unfold tree_of, set. rewrite Hn. destruct (decide (q = p)) as [-> | Hq].
  - rewrite Hp. exact Ha.
  - destruct (node_at h r q) as [b |] eqn:Eb; [| done]. simpl. rewrite Ho; [done |].
    intros ->. by apply Hq, (node_at_inj h r q p a).
Qed.

Lemma splice_resized off b :
  0 <= off -> off + zlen b < 2 ^ 63 ->
  exists d1, (if zlen (e_data e) <? off + zlen b then vec_resize (e_data e) (off + zlen b) else Ret (e_data e)) = Ret d1 /\
    splice d1 off b = Ret (overwrite (e_data e) off b).
Proof.
  intros Ho Hb. unfold overwrite. destruct (Z.ltb_spec (zlen (e_data e)) (off + zlen b)).
  - unfold vec_resize. rewrite (proj2 (Z.ltb_lt _ _) Hb). eexists. split; [done |].
    apply splice_Ret. unfold zlen in *. rewrite length_app, length_take, length_replicate.
    split_and!; [lia | lia |]. rewrite (take_ge (e_data e) (Z.to_nat (off + Z.of_nat (length b)))) by lia.
    rewrite (drop_ge (e_data e)) by lia.
    rewrite (drop_ge (_ ++ _)) by (rewrite length_app, length_replicate; lia).
    rewrite take_app. rewrite take_replicate.
    rewrite <- !app_assoc. do 3 f_equal. lia.
  - exists (e_data e). split; [done |]. apply splice_Ret. split_and!; [lia | unfold zlen in *; lia |].
    replace (Z.to_nat off - length (e_data e))%nat with 0%nat by (unfold zlen in *; lia). done.
Qed.

Lemma refines_write off b : 0 <= off -> off + zlen b < 2 ^ 63 -> refines_step h r p (Write off b) a.
Proof.
  intros Ho Hb. destruct (e_kind e) eqn:Ek.
  2:{ apply (refines_read _ (AReply (RErr IsDir)) (RErr IsDir)); [| done |].
      - cbn [run i_write_at ram_inode]. unfold to_answer, ram_write_at, st_bind at 1. rewrite run_entry.
        by rewrite decide_True by (by rewrite Ek).
      - cbn [step]. unfold on_file. rewrite tree_here. unfold content_of. by rewrite Ek. }
  destruct (splice_resized off b Ho Hb) as (d1 & E1 & E2).
  set (d := overwrite (e_data e) off b) in *.
  destruct (set_data_wf h r a e d Hwf He Ek) as [Hwf' Hch].
  exists (AReply (RNum (zlen b))), (mkRamHeap (<[a := mkEntry File d (e_children e)]> (nodes h)) (fresh_addr h)), (RNum (zlen b)).
  assert (forall q, node_at (mkRamHeap (<[a := mkEntry File d (e_children e)]> (nodes h)) (fresh_addr h)) r q = node_at h r q) as Hn.
  { intros q. apply at_path_ext, Hch. }
  split_and!; [| done | intros q c; left; by rewrite Hn | done |].
  - cbn [run i_write_at ram_inode]. unfold to_answer, ram_write_at, st_bind at 1. rewrite run_entry.
    rewrite decide_False by (rewrite Ek; auto). unfold st_bind, st_lift.
    rewrite checked_fits by (unfold zlen in *; lia). simpl. rewrite E1. simpl. rewrite E2. simpl. by rewrite Ek.
  - cbn [step]. unfold on_file. rewrite tree_here. unfold content_of at 1. rewrite Ek. split; [done |].
    apply tree_same_nodes; [exact Hn | |].
    + intros c Hc. simpl. by rewrite lookup_insert_ne.
    + simpl. by rewrite lookup_insert_eq.
Qed.

Lemma refines_create n k : refines_step h r p (Create n k) a.
Proof.
  destruct (e_kind e) eqn:Ek.
  { apply (refines_read _ (AReply (RErr NotDir)) (RErr NotDir)); [| done |].
    - cbn [run i_create ram_inode]. unfold to_answer, ram_create, st_bind at 1. rewrite run_entry.
      by rewrite decide_True by (by rewrite Ek).
    - cbn [step]. unfold on_dir. rewrite tree_here. unfold content_of. by rewrite Ek. }
  pose proof (tree_child n) as Ht. destruct (e_children e !! n) as [c |] eqn:Ec.
  { apply (refines_read _ (AReply (RErr Exists_)) (RErr Exists_)); [| done |].
    - cbn [run i_create ram_inode]. unfold to_answer, ram_create, st_bind at 1. rewrite run_entry.
      rewrite decide_False by (rewrite Ek; auto). by rewrite decide_True by (rewrite Ec; eauto).
    - cbn [step]. unfold on_dir. rewrite tree_here. unfold content_of. rewrite Ek.
      destruct (tree_of h r (p ++ [n])); [done | discriminate (proj1 Ht eq_refl)]. }
  pose proof (fun q => created_node_at h r p a e n k q Hwf Hp He Ec) as Hn.
  exists (ANode (fresh_addr h)), (created h a e n k), (RPath (p ++ [n])). split_and!.
  - cbn [run i_create ram_inode]. unfold to_answer, ram_create, st_bind at 1. rewrite run_entry.
    rewrite decide_False by (rewrite Ek; auto). rewrite decide_False by (rewrite Ec; intros [? ?]; done).
    unfold created. rewrite Ek. destruct k; done.
  - by apply created_wf.
  - intros q b Hq. rewrite Hn. case_decide as D; [| by left]. subst q.
    rewrite (node_at_child h r p a e) in Hq by done. congruence.
  - exists (p ++ [n]). split; [done |]. by rewrite Hn, decide_True.
  - cbn [step]. unfold on_dir. rewrite tree_here. unfold content_of. rewrite Ek.
    rewrite (proj2 Ht eq_refl). split; [done |]. intros q. unfold tree_of, set. rewrite Hn.
    destruct (decide (q = p ++ [n])) as [-> | Hq].
    + simpl. rewrite lookup_insert_ne by (pose proof (wf_fresh _ _ Hwf a ltac:(by eexists)); lia).
      rewrite lookup_insert_eq. by destruct k.
    + destruct (node_at h r q) as [b |] eqn:Eb; [| done]. simpl.
      destruct (node_at_valid h r q b Hwf Eb) as [e' He'].
      destruct (decide (b = a)) as [-> | Hba].
      * rewrite lookup_insert_eq, He. unfold content_of. simpl. by rewrite Ek.
      * rewrite lookup_insert_ne by done.
        rewrite lookup_insert_ne; [done |]. intros <-. by rewrite (fresh_None h r Hwf) in He'.
Qed.

Lemma refines_unlink n : refines_step h r p (Unlink n) a.
Proof.
  destruct (e_kind e) eqn:Ek.
  { apply (refines_read _ (AReply (RErr NotDir)) (RErr NotDir)); [| done |].
    - cbn [run i_unlink ram_inode]. unfold to_answer, ram_unlink, st_bind at 1. rewrite run_entry.
      by rewrite decide_True by (by rewrite Ek).
    - cbn [step]. unfold on_dir. rewrite tree_here. unfold content_of. by rewrite Ek. }
  pose proof (tree_child n) as Ht. destruct (e_children e !! n) as [c |] eqn:Ec.
  2:{ apply (refines_read _ (AReply (RErr NotFound)) (RErr NotFound)); [| done |].
    - cbn [run i_unlink ram_inode]. unfold to_answer, ram_unlink, st_bind at 1. rewrite run_entry.
      rewrite decide_False by (rewrite Ek; auto). by rewrite Ec.
    - cbn [step]. unfold on_dir. rewrite tree_here. unfold content_of. rewrite Ek.
      by rewrite (proj2 Ht eq_refl). }
  pose proof (fun q => unlinked_node_at h r p a e n q Hwf Hp He) as Hn.
  exists (AReply RDone), (unlinked h a e n), RDone. split_and!.
  - cbn [run i_unlink ram_inode]. unfold to_answer, ram_unlink, st_bind at 1. rewrite run_entry.
    rewrite decide_False by (rewrite Ek; auto). rewrite Ec. unfold unlinked. by rewrite Ek.
  - by apply unlinked_wf.
  - intros q b Hq. rewrite Hn. case_decide; [by right | by left].
  - done.
  - cbn [step]. unfold on_dir. rewrite tree_here. unfold content_of at 1. rewrite Ek.
    destruct (tree_of h r (p ++ [n])); [| discriminate (proj1 Ht eq_refl)]. split; [done |].
    intros q. unfold tree_of, prune. rewrite Hn. case_decide; [done |].
    destruct (node_at h r q) as [b |]; [| done]. simpl. destruct (decide (b = a)) as [-> |].
    + rewrite lookup_insert_eq, He. unfold content_of. simpl. by rewrite Ek.
    + by rewrite lookup_insert_ne.
Qed.

End Steps.

(** C11 Every inode operation of the RAM file system, at the node of any path,
    returns without a panic or a deadlock and refines the same operation on a
    map from paths to contents: reads and writes with zero-filled gaps, lookup,
    sorted listing, creation of an empty node, and unlinking of a whole
    subtree, with each error exactly when the map calls for it; the heap stays
    a tree and the nodes of all other paths stay the same. *)
Theorem ramfs_refines_tree (h : RamHeap) (r a : Z) (p : list Str) (o : op) :
  ram_wf h r -> node_at h r p = Some a -> op_fits o -> refines_step h r p o a.
Proof.
  intros Hwf Hp Hf. destruct (node_at_valid h r p a Hwf Hp) as [e He].
  destruct o; simpl in Hf.
  - apply (refines_kind_size h r p a e); auto.
  - apply (refines_kind_size h r p a e); auto.
  - destruct Hf. by apply (refines_read_at h r p a e).
  - destruct Hf. by apply (refines_write h r p a e).
  - by apply (refines_lookup h r p a e).
  - by apply (refines_readdir h r p a e).
  - by apply (refines_create h r p a e).
  - by apply (refines_unlink h r p a e).
Qed.

(** ** Building a tree *)

Lemma ramfs_new_wf :
  exists h, ramfs_new (mkRamHeap ∅ 0) = Ret (mkRamFs 0, h) /\ ram_wf h 0 /\
    same (tree_of h 0) (fun p => if decide (p = []) then Some ADir else None).
Proof.
  eexists. split; [reflexivity |]. split.
  - split.
    + done.
    + intros a n c. unfold child. simpl. rewrite insert_empty. destruct (decide (0 = a)) as [<- |];
        [by rewrite lookup_singleton_eq | by rewrite lookup_singleton_ne].
    + intros a n b m c. unfold child at 1. simpl. rewrite insert_empty. destruct (decide (0 = a)) as [<- |];
        [by rewrite lookup_singleton_eq | by rewrite lookup_singleton_ne].
    + intros a e. simpl. rewrite insert_empty. intros [<- <-]%lookup_singleton_Some. done.
    + intros a e. simpl. rewrite insert_empty. intros [<- <-]%lookup_singleton_Some. done.
    + intros a. simpl. rewrite insert_empty. intros [e [<- _]%lookup_singleton_Some]. lia.
  - intros [| n p]; [done |]. rewrite decide_False by done. done.
Qed.


(** The empty file system: creating the file [a] in the root. *)
Definition empty_ramfs : RamHeap := mkRamHeap {[0 := mkEntry Dir [] ∅]} 1.

Lemma empty_ramfs_wf : ram_wf empty_ramfs 0.
Proof.
  destruct ramfs_new_wf as (h & [= <-] & Hwf & _). exact Hwf.
Qed.

Lemma ramfs_refines_tree_witness :
  node_at empty_ramfs 0 [] = Some 0 /\ refines_step empty_ramfs 0 [] (Create [97] File) 0.
Proof.
  split; [reflexivity |].
  exact (ramfs_refines_tree empty_ramfs 0 0 [] (Create [97] File) empty_ramfs_wf eq_refl I).
Defined.
