(* ===== verification/Block.v ===== *)
(** * Block devices

    The trait [BlockDevice] of [kernel/src/drivers/block.rs] and the list of
    registered devices.  [Disk] states what a file system relies on: at the
    granularity of 4096-byte blocks the device is an array that reads return
    and writes update, and accesses past its end fail. *)

From S2P Require Import Prelude Bytes.

Inductive BlockError : Type := OutOfRange | BadLength | BlkIo | BlkUnsupported.

(** [read_blocks lba len] fills a buffer of [len] bytes. *)
Class BlockDevice (D : Type) : Type := {
  block_size : D -> Z;
  block_count : D -> Z;
  read_blocks : Z -> Z -> ST D (result (list Z) BlockError);
  write_blocks : Z -> list Z -> ST D (result unit BlockError)
}.

Definition register_device {D} (devices : list D) (dev : D) : list D := devices ++ [dev].
Definition first_device {D} (devices : list D) : option D := head devices.

Definition DISK_BLOCK : Z := 4096.

Class Disk (D : Type) `{BlockDevice D} : Type := {
  dev_blocks : D -> Z;
  dev_block : D -> Z -> list Z;
  (** The states in which the device answers. *)
  dev_ok : D -> Prop;
  dev_size_ok d : dev_ok d -> 0 < block_size d /\ DISK_BLOCK mod block_size d = 0 /\
    0 <= dev_blocks d /\ dev_blocks d * DISK_BLOCK < 2 ^ 64;
  dev_block_ok d blk : dev_ok d -> 0 <= blk < dev_blocks d ->
    zlen (dev_block d blk) = DISK_BLOCK /\ Forall byte_ok (dev_block d blk);
  dev_read d blk : dev_ok d -> 0 <= blk -> blk * (DISK_BLOCK / block_size d) < 2 ^ 64 ->
    exists r d', read_blocks (blk * (DISK_BLOCK / block_size d)) DISK_BLOCK d = Ret (r, d') /\
      dev_ok d' /\ block_size d' = block_size d /\ dev_blocks d' = dev_blocks d /\
      (forall b, 0 <= b < dev_blocks d -> dev_block d' b = dev_block d b) /\
      if blk <? dev_blocks d then r = Ok (dev_block d blk) else exists e, r = Err e;
  dev_write d blk data : dev_ok d -> 0 <= blk -> blk * (DISK_BLOCK / block_size d) < 2 ^ 64 -> zlen data = DISK_BLOCK -> Forall byte_ok data ->
    exists r d', write_blocks (blk * (DISK_BLOCK / block_size d)) data d = Ret (r, d') /\
      dev_ok d' /\ block_size d' = block_size d /\ dev_blocks d' = dev_blocks d /\
      if blk <? dev_blocks d
      then r = Ok tt /\ forall b, 0 <= b < dev_blocks d -> dev_block d' b = if b =? blk then data else dev_block d b
      else (exists e, r = Err e) /\ forall b, 0 <= b < dev_blocks d -> dev_block d' b = dev_block d b
}.

(** ** A disk in memory *)

Record MemDisk : Type := mkMemDisk { md_blocks : list (list Z) }.
#[global] Instance mem_disk_device : BlockDevice MemDisk := {|
  block_size _ := DISK_BLOCK;
  block_count d := zlen (md_blocks d);
  read_blocks lba len := fun d =>
    if len =? DISK_BLOCK then
      Ret (match (if lba <? 0 then None else md_blocks d !! Z.to_nat lba) with Some b => Ok b | None => Err OutOfRange end, d)
    else Ret (Err BadLength, d);
  write_blocks lba data := fun d =>
    if zlen data =? DISK_BLOCK then
      if (0 <=? lba) && (lba <? zlen (md_blocks d))
      then Ret (Ok tt, mkMemDisk (<[Z.to_nat lba := data]> (md_blocks d))) else Ret (Err OutOfRange, d)
    else Ret (Err BadLength, d)
|}.

Definition mem_disk_ok (d : MemDisk) : Prop :=
  Forall (fun b => zlen b = DISK_BLOCK /\ Forall byte_ok b) (md_blocks d) /\ zlen (md_blocks d) * DISK_BLOCK < 2 ^ 64.

#[global] Program Instance mem_disk : Disk MemDisk := {|
  dev_blocks d := zlen (md_blocks d);
  dev_block d blk := default [] (md_blocks d !! Z.to_nat blk);
  dev_ok := mem_disk_ok
|}.
Next Obligation. intros d [_ H]. unfold block_size; simpl. unfold zlen in *. split_and!; [done | done | lia | done]. Qed.
Next Obligation.
  intros d blk [H _] Hb. simpl. destruct (lookup_lt_is_Some_2 (md_blocks d) (Z.to_nat blk)) as [b E]; [unfold zlen in *; lia |].
  rewrite E. simpl. by apply (Forall_lookup_1 _ _ _ _ H) in E.
Qed.
Next Obligation.
  intros d blk Hok Hb _. unfold block_size, read_blocks; simpl. rewrite Z.div_same, Z.mul_1_r by done.
  rewrite (proj2 (Z.ltb_ge blk 0)) by lia. eexists _, d. split; [done |]. do 4 (split; [done |]).
  destruct (Z.ltb_spec blk (zlen (md_blocks d))).
  - destruct (lookup_lt_is_Some_2 (md_blocks d) (Z.to_nat blk)) as [b ->]; [unfold zlen in *; lia |]. done.
  - rewrite lookup_ge_None_2 by (unfold zlen in *; lia). eauto.
Qed.
Next Obligation.
  intros d blk data [Hf Hs] Hb _ Hl Hd. unfold block_size, write_blocks; simpl. rewrite Z.div_same, Z.mul_1_r by done.
  rewrite Hl. simpl. rewrite (proj2 (Z.leb_le 0 blk)) by lia. simpl.
  destruct (Z.ltb_spec blk (zlen (md_blocks d))).
  - eexists _, _. split; [done |]. unfold mem_disk_ok, zlen in *. simpl. rewrite length_insert.
    split; [split; [apply Forall_insert; [done | split; [done | done]] | done] |]. do 2 (split; [done |]).
    split; [done |].
    intros b Hb'. destruct (Z.eqb_spec b blk) as [-> |].
    + by rewrite list_lookup_insert_eq by lia.
    + by rewrite list_lookup_insert_ne by lia.
  - eexists _, _. split; [done |]. split; [done |]. do 2 (split; [done |]). split; [eauto | done].
Qed.
