(* ===== verification/PondLayout.v ===== *)
(** * PondFS on-disk layout

    [kernel/src/fs/pondfs/layout.rs], whose structures [tools/mkpondfs] repeats:
    the [repr(C)] structures as the bytes they are on a little-endian machine. *)

From S2P Require Import Prelude Bytes.

Definition POND_MAGIC : list Z := [80; 79; 78; 68].
Definition POND_VERSION : Z := 1.
Definition BLOCK_SIZE : Z := 4096.
Definition INODE_SIZE : Z := 128.
Definition INODES_PER_BLOCK : Z := BLOCK_SIZE / INODE_SIZE.
Definition DIRECT_BLOCKS : Z := 12.
Definition INODE_KIND_UNUSED : Z := 0.
Definition INODE_KIND_FILE : Z := 1.
Definition INODE_KIND_DIR : Z := 2.
Definition ROOT_INO : Z := 1.

Record Superblock : Type := mkSuperblock {
  sb_magic : list Z;
  sb_version : Z;
  total_blocks : Z;
  inode_count : Z;
  bitmap_start : Z;
  bitmap_blocks : Z;
  inode_table_start : Z;
  inode_table_blocks : Z;
  data_start : Z
}.

Record RawInode : Type := mkRawInode {
  r_kind : Z;
  r_pad0 : Z;
  link_count : Z;
  r_size : Z;
  mtime : Z;
  r_pad1 : Z;
  direct : list Z
}.

Record DirEntryHeader : Type := mkDirEntryHeader { h_inode : Z; h_name_len : Z; h_kind : Z }.
(** [size_of::<DirEntryHeader>()]: twelve bytes of fields, padded to the
    alignment of a [u64]. *)
Definition DIR_ENTRY_HEADER_SIZE : Z := 16.

(** [(x + 3) & !3]. *)
Definition align4 (x : Z) : Z := Z.land (x + 3) (Z.lxor (2 ^ 64 - 1) 3).

(** ** Fields in memory *)

(** The integer of [n] bytes at offset [off]. *)
Definition field (b : list Z) (off n : nat) : Z := le_val (take n (drop off b)).

Definition superblock_of (b : list Z) : Superblock :=
  mkSuperblock (take 4 b) (field b 4 4) (field b 8 8) (field b 16 8) (field b 24 8) (field b 32 8)
    (field b 40 8) (field b 48 8) (field b 56 8).
Definition superblock_bytes (s : Superblock) : list Z :=
  sb_magic s ++ le_bytes 4 (sb_version s) ++
  ([total_blocks s; inode_count s; bitmap_start s; bitmap_blocks s; inode_table_start s;
    inode_table_blocks s; data_start s] ≫= le_bytes 8).

Fixpoint words_of (n : nat) (b : list Z) : list Z :=
  match n with
  | O => []
  | S n => le_val (take 8 b) :: words_of n (drop 8 b)
  end.
Definition raw_of (b : list Z) : RawInode :=
  mkRawInode (field b 0 2) (field b 2 2) (field b 4 4) (field b 8 8) (field b 16 8) (field b 24 8)
    (words_of 12 (drop 32 b)).
Definition raw_bytes (r : RawInode) : list Z :=
  le_bytes 2 (r_kind r) ++ le_bytes 2 (r_pad0 r) ++ le_bytes 4 (link_count r) ++ le_bytes 8 (r_size r) ++
  le_bytes 8 (mtime r) ++ le_bytes 8 (r_pad1 r) ++ (direct r ≫= le_bytes 8).

Definition header_of (b : list Z) : DirEntryHeader :=
  mkDirEntryHeader (field b 0 8) (field b 8 2) (field b 10 2).

(** The padding bytes of a structure that is copied as a whole are whatever
    was there: nothing reads them. *)
Class Padding : Type := {
  pad_bytes : Z -> list Z;
  pad_bytes_ok : forall i, length (pad_bytes i) = 4%nat /\ Forall byte_ok (pad_bytes i)
}.
Definition header_bytes (pad : list Z) (h : DirEntryHeader) : list Z :=
  le_bytes 8 (h_inode h) ++ le_bytes 2 (h_name_len h) ++ le_bytes 2 (h_kind h) ++ pad.

(** ** Round trips *)

Definition raw_ok (r : RawInode) : Prop :=
  0 <= r_kind r < 2 ^ 16 /\ 0 <= r_pad0 r < 2 ^ 16 /\ 0 <= link_count r < 2 ^ 32 /\ 0 <= r_size r < 2 ^ 64 /\
  0 <= mtime r < 2 ^ 64 /\ 0 <= r_pad1 r < 2 ^ 64 /\ length (direct r) = 12%nat /\
  Forall (fun b => 0 <= b < 2 ^ 64) (direct r).

Lemma field_drop (a b : list Z) (off m : nat) :
  (length a <= off)%nat -> field (a ++ b) off m = field b (off - length a) m.
Proof. intros H. unfold field. by rewrite drop_app_ge. Qed.

Lemma field_skip (n : nat) (v : Z) (b : list Z) (off m : nat) :
  (n <= off)%nat -> field (le_bytes n v ++ b) off m = field b (off - n) m.
Proof. intros H. rewrite field_drop by (rewrite le_bytes_length; lia). by rewrite le_bytes_length. Qed.

Lemma field_here (n : nat) (v : Z) (b : list Z) : 0 <= v < 256 ^ Z.of_nat n -> field (le_bytes n v ++ b) 0 n = v.
Proof.
  intros H. unfold field. rewrite drop_0. rewrite take_app_length' by (symmetry; apply le_bytes_length).
  by apply le_val_bytes.
Qed.

(** Read a field of a concatenation of encodings. *)
Ltac read_field :=
  repeat (rewrite field_skip by lia; cbn [Nat.sub]);
  rewrite field_here; [done | simpl; lia].

Lemma words_of_bytes (l : list Z) (n : nat) (rest : list Z) :
  length l = n -> Forall (fun b => 0 <= b < 2 ^ 64) l -> words_of n ((l ≫= le_bytes 8) ++ rest) = l.
Proof.
  intros <- Hl. revert rest. induction Hl as [| x l Hx _ IH]; intros rest; [done |].
  cbn [length words_of mbind list_bind]. rewrite <- app_assoc.
  rewrite take_app_length', drop_app_length' by (symmetry; apply le_bytes_length).
  rewrite IH. f_equal. apply le_val_bytes. simpl. lia.
Qed.

Lemma bind_le_bytes_length (l : list Z) : length (l ≫= le_bytes 8) = (8 * length l)%nat.
Proof.
  induction l as [| x l IH]; [done |]. cbn [mbind list_bind]. rewrite length_app, le_bytes_length.
  change (list_bind Z Z (le_bytes 8) l) with (l ≫= le_bytes 8). rewrite IH. simpl. lia.
Qed.

Lemma raw_bytes_length (r : RawInode) : length (direct r) = 12%nat -> length (raw_bytes r) = 128%nat.
Proof.
  intros H. unfold raw_bytes. rewrite !length_app, !le_bytes_length, bind_le_bytes_length, H. done.
Qed.

Lemma raw_bytes_ok (r : RawInode) : Forall byte_ok (raw_bytes r).
Proof.
  unfold raw_bytes. rewrite !Forall_app. split_and!; try apply le_bytes_ok.
  induction (direct r) as [| x l IH]; [constructor |]. cbn [mbind list_bind]. apply Forall_app.
  split; [apply le_bytes_ok | exact IH].
Qed.

Lemma raw_of_bytes (r : RawInode) (rest : list Z) : raw_ok r -> raw_of (raw_bytes r ++ rest) = r.
Proof.
  intros (H1 & H2 & H3 & H4 & H5 & H6 & H7 & H8). destruct r as [k p0 lc sz mt p1 d].
  cbn [r_kind r_pad0 link_count r_size mtime r_pad1 direct] in *.
  unfold raw_of, raw_bytes. cbn [r_kind r_pad0 link_count r_size mtime r_pad1 direct].
  rewrite <- !app_assoc.
  f_equal; [read_field .. |].
  rewrite !drop_app_ge by (rewrite le_bytes_length; lia). rewrite !le_bytes_length. by apply words_of_bytes.
Qed.

Lemma superblock_of_bytes (s : Superblock) (rest : list Z) :
  length (sb_magic s) = 4%nat -> 0 <= sb_version s < 2 ^ 32 ->
  Forall (fun b => 0 <= b < 2 ^ 64) [total_blocks s; inode_count s; bitmap_start s; bitmap_blocks s;
    inode_table_start s; inode_table_blocks s; data_start s] ->
  superblock_of (superblock_bytes s ++ rest) = s.
Proof.
  intros Hm Hv Hw. destruct s as [mg v a b c d e f g].
  cbn [sb_magic sb_version total_blocks inode_count bitmap_start bitmap_blocks inode_table_start inode_table_blocks
       data_start] in *.
  repeat match goal with H : Forall _ (_ :: _) |- _ => apply Forall_cons in H as [? H] end.
  unfold superblock_of, superblock_bytes.
  cbn [sb_magic sb_version total_blocks inode_count bitmap_start bitmap_blocks inode_table_start inode_table_blocks
       data_start mbind list_bind].
  rewrite <- !app_assoc.
  f_equal; [by rewrite take_app_length' | ..];
    rewrite field_drop by lia; rewrite Hm; cbn [Nat.sub]; read_field.
Qed.
