(* ===== verification/PondFs.v ===== *)
(** * PondFS

    [kernel/src/fs/pondfs/mod.rs] over any block device.  An [Arc<InodeState>]
    is an address in the map [states], so that the handles on one inode share
    its in-memory copy; the locks are explicit, because one operation takes a
    lock it already holds. *)

From S2P Require Import Prelude Bytes Utf8 Inode Block PondLayout.

Record InodeState : Type := mkInodeState { ino : Z; raw : RawInode }.

(** [FsInner] behind its mutex, the inode states behind theirs, and the locks
    that are held. *)
Record Pond (D : Type) : Type := mkPond {
  dev : D;
  sb : Superblock;
  bitmap : list Z;
  inode_cache : gmap Z Z;
  states : gmap Z InodeState;
  next_state : Z;
  fs_locked : bool;
  raw_locked : gset Z
}.
Arguments mkPond {D} _ _ _ _ _ _ _ _.
Arguments dev {D} _.
Arguments sb {D} _.
Arguments bitmap {D} _.
Arguments inode_cache {D} _.
Arguments states {D} _.
Arguments next_state {D} _.
Arguments fs_locked {D} _.
Arguments raw_locked {D} _.

(** [[0u8; BLOCK_SIZE]]. *)
Definition zero_block : list Z := replicate (Z.to_nat BLOCK_SIZE) 0.
Arguments zero_block : simpl never.

(** A directory entry: name, kind, inode number. *)
Abbreviation DirEntry := (Str * InodeKind * Z)%type.

Section PondFs.
  Context {D : Type} {BD : BlockDevice D} {PD : Padding}.
  Implicit Types s : Pond D.

Definition PM (A : Type) : Type := ST (Pond D) A.

Definition with_dev s (d : D) : Pond D :=
  mkPond d (sb s) (bitmap s) (inode_cache s) (states s) (next_state s) (fs_locked s) (raw_locked s).
Definition with_bitmap s (b : list Z) : Pond D :=
  mkPond (dev s) (sb s) b (inode_cache s) (states s) (next_state s) (fs_locked s) (raw_locked s).
Definition with_cache s (c : gmap Z Z) : Pond D :=
  mkPond (dev s) (sb s) (bitmap s) c (states s) (next_state s) (fs_locked s) (raw_locked s).
Definition with_states s (c : gmap Z InodeState) (n : Z) : Pond D :=
  mkPond (dev s) (sb s) (bitmap s) (inode_cache s) c n (fs_locked s) (raw_locked s).
Definition with_locks s (f : bool) (r : gset Z) : Pond D :=
  mkPond (dev s) (sb s) (bitmap s) (inode_cache s) (states s) (next_state s) f r.

(** ** Locks *)

(** A guard is dropped on every way out of its scope, early returns included. *)
Definition locked_fs {A} (body : PM A) : PM A :=
  let* s := st_get in
  if fs_locked s then st_lift Deadlock
  else
    let* _ := st_modify (fun s => with_locks s true (raw_locked s)) in
    let* a := body in
    let* _ := st_modify (fun s => with_locks s false (raw_locked s)) in
    st_ret a.
Definition locked_raw {A} (a : Z) (body : PM A) : PM A :=
  let* s := st_get in
  if decide (a ∈ raw_locked s) then st_lift Deadlock
  else
    let* _ := st_modify (fun s => with_locks s (fs_locked s) ({[a]} ∪ raw_locked s)) in
    let* x := body in
    let* _ := st_modify (fun s => with_locks s (fs_locked s) (raw_locked s ∖ {[a]})) in
    st_ret x.

(** The contents of a locked inode state. *)
Definition get_state (a : Z) : PM InodeState := fun s =>
  match states s !! a with Some x => Ret (x, s) | None => Panic end.
Definition set_raw (a : Z) (r : RawInode) : PM unit := fun s =>
  match states s !! a with
  | Some x => Ret (tt, with_states s (<[a := mkInodeState (ino x) r]> (states s)) (next_state s))
  | None => Panic
  end.
(** [Arc::new(InodeState { .. })]. *)
Definition new_state (x : InodeState) : PM Z := fun s =>
  Ret (next_state s, with_states s (<[next_state s := x]> (states s)) (next_state s + 1)).
Definition cache_insert (i a : Z) : PM unit := st_modify (fun s => with_cache s (<[i := a]> (inode_cache s))).
Definition cache_remove (i : Z) : PM unit := st_modify (fun s => with_cache s (delete i (inode_cache s))).

(** ** Blocks *)

(** Integer division panics on a zero divisor. *)
Definition lbas_per_block (d : D) : outcome Z :=
  if block_size d =? 0 then Panic else Ret (BLOCK_SIZE / block_size d).
Definition map_io {A} (r : result A BlockError) : result A FsError :=
  match r with Ok a => Ok a | Err _ => Err Io end.

Definition dev_read_block (blk : Z) : ST D (result (list Z) FsError) := fun d =>
  let! n := lbas_per_block d in
  let! lba := checked 64 (blk * n) in
  let! (r, d) := read_blocks lba BLOCK_SIZE d in
  Ret (map_io r, d).
Definition dev_write_block (blk : Z) (buf : list Z) : ST D (result unit FsError) := fun d =>
  let! n := lbas_per_block d in
  let! lba := checked 64 (blk * n) in
  let! (r, d) := write_blocks lba buf d in
  Ret (map_io r, d).

Definition on_dev {A} (c : ST D A) : PM A := fun s => let! (a, d) := c (dev s) in Ret (a, with_dev s d).
Definition read_block (blk : Z) : PM (result (list Z) FsError) := on_dev (dev_read_block blk).
Definition write_block (blk : Z) (buf : list Z) : PM (result unit FsError) := on_dev (dev_write_block blk buf).

Definition ok {A} (a : A) : PM (result A FsError) := st_ret (Ok a).
Definition err {A} (e : FsError) : PM (result A FsError) := st_ret (Err e).
(** Arithmetic that panics, in a function that returns a [Result]. *)
Definition arith {A} (o : outcome A) : PM (result A FsError) := let* a := st_lift o in ok a.

(** ** Inodes *)

Definition load_inode (i : Z) : PM (result Z FsError) :=
  let? blk := locked_fs (
    let* s := st_get in
    if (i =? 0) || (inode_count (sb s) <=? i) then err NotFound
    else arith (checked 64 (inode_table_start (sb s) + i / INODES_PER_BLOCK))) in
  let? buf := read_block blk in
  let* bytes := st_lift (slice buf (i mod INODES_PER_BLOCK * INODE_SIZE) INODE_SIZE) in
  let* a := new_state (mkInodeState i (raw_of bytes)) in
  ok a.

Definition write_inode (i : Z) (r : RawInode) : PM (result unit FsError) :=
  let* s := st_get in
  let? blk := arith (checked 64 (inode_table_start (sb s) + i / INODES_PER_BLOCK)) in
  let? buf := read_block blk in
  let* buf := st_lift (splice buf (i mod INODES_PER_BLOCK * INODE_SIZE) (raw_bytes r)) in
  write_block blk buf.

Definition get_or_load (i : Z) : PM (result Z FsError) :=
  let* hit := locked_fs (let* s := st_get in st_ret (inode_cache s !! i)) in
  match hit with
  | Some a => ok a
  | None =>
      let? a := load_inode i in
      let* _ := locked_fs (cache_insert i a) in
      ok a
  end.

(** ** The allocators *)

(** Flush the bitmap block that holds a byte. *)
Definition flush_bitmap_byte (byte : Z) : PM (result unit FsError) :=
  let* s := st_get in
  let? bitmap_blk := arith (checked 64 (bitmap_start (sb s) + byte / BLOCK_SIZE)) in
  let? buf := read_block bitmap_blk in
  let* s := st_get in
  let* v := st_lift (idx (bitmap s) byte) in
  let* buf := st_lift (upd buf (byte mod BLOCK_SIZE) v) in
  write_block bitmap_blk buf.

Fixpoint alloc_scan (ixs : list Z) : PM (result Z FsError) :=
  match ixs with
  | [] => err NoSpace
  | i :: ixs =>
      let byte := i / 8 in
      let bit := i mod 8 in
      let* s := st_get in
      let* b := st_lift (idx (bitmap s) byte) in
      if Z.land b (Z.shiftl 1 bit) =? 0 then
        let* bm := st_lift (upd (bitmap s) byte (Z.lor b (Z.shiftl 1 bit))) in
        let* _ := st_modify (fun s => with_bitmap s bm) in
        let? _ := flush_bitmap_byte byte in
        arith (checked 64 (data_start (sb s) + i))
      else alloc_scan ixs
  end.
Definition alloc_data_block : PM (result Z FsError) :=
  let* s := st_get in
  let? data_blocks := arith (checked 64 (total_blocks (sb s) - data_start (sb s))) in
  alloc_scan (seqZ 0 data_blocks).

Definition free_data_block (blk : Z) : PM (result unit FsError) :=
  let* s := st_get in
  if (blk <? data_start (sb s)) || (total_blocks (sb s) <=? blk) then err Io
  else
    let i := blk - data_start (sb s) in
    let byte := i / 8 in
    let bit := i mod 8 in
    let* b := st_lift (idx (bitmap s) byte) in
    let* bm := st_lift (upd (bitmap s) byte (Z.land b (Z.lxor 255 (Z.shiftl 1 bit)))) in
    let* _ := st_modify (fun s => with_bitmap s bm) in
    flush_bitmap_byte byte.

(** The first unused slot of a block of the inode table. *)
Fixpoint free_slot (buf : list Z) (first : Z) (ixs : list Z) : outcome (option Z) :=
  match ixs with
  | [] => Ret None
  | i :: ixs =>
      let ino := first + i in
      if ino =? 0 then free_slot buf first ixs
      else
        let! bytes := slice buf (i * INODE_SIZE) INODE_SIZE in
        if r_kind (raw_of bytes) =? INODE_KIND_UNUSED then Ret (Some ino) else free_slot buf first ixs
  end.
Fixpoint alloc_inode_scan (blk_offs : list Z) : PM (result Z FsError) :=
  match blk_offs with
  | [] => err NoSpace
  | blk_off :: blk_offs =>
      let* s := st_get in
      let? blk := arith (checked 64 (inode_table_start (sb s) + blk_off)) in
      let? buf := read_block blk in
      let? first := arith (checked 64 (blk_off * INODES_PER_BLOCK)) in
      let* slot := st_lift (free_slot buf first (seqZ 0 INODES_PER_BLOCK)) in
      match slot with Some i => ok i | None => alloc_inode_scan blk_offs end
  end.
Definition alloc_inode : PM (result Z FsError) :=
  let* s := st_get in alloc_inode_scan (seqZ 0 (inode_table_blocks (sb s))).

(** ** File data *)

(** The loop of [read_file_at], with what is in the buffer so far.  Each turn
    ends at a block boundary or at [end_], so [DIRECT_BLOCKS] + 2 are enough. *)
Fixpoint read_loop (fuel : nat) (r : RawInode) (cursor end_ : Z) (out : list Z) : PM (result Z FsError * list Z) :=
  if cursor <? end_ then
    match fuel with
    | O => st_lift OutOfFuel
    | S fuel =>
        let blk_idx := cursor / BLOCK_SIZE in
        if DIRECT_BLOCKS <=? blk_idx then st_ret (Err Unsupported, out)
        else
          let* blk := st_lift (idx (direct r) blk_idx) in
          if blk =? 0 then st_ret (Err Io, out)
          else
            let* b := read_block blk in
            match b with
            | Err e => st_ret (Err e, out)
            | Ok blk_buf =>
                let in_blk := cursor mod BLOCK_SIZE in
                let take_ := Z.min (BLOCK_SIZE - in_blk) (end_ - cursor) in
                let* bytes := st_lift (slice blk_buf in_blk take_) in
                read_loop fuel r (cursor + take_) end_ (out ++ bytes)
            end
    end
  else st_ret (Ok (zlen out), out).
Definition read_file_at (r : RawInode) (off len : Z) : PM (result Z FsError * list Z) :=
  if r_size r <=? off then st_ret (Ok 0, [])
  else
    let* e := st_lift (checked 64 (off + len)) in
    read_loop 14 r off (Z.min (r_size r) e) [].

Definition set_direct (r : RawInode) (d : list Z) : RawInode :=
  mkRawInode (r_kind r) (r_pad0 r) (link_count r) (r_size r) (mtime r) (r_pad1 r) d.
Definition set_size (r : RawInode) (n : Z) : RawInode :=
  mkRawInode (r_kind r) (r_pad0 r) (link_count r) n (mtime r) (r_pad1 r) (direct r).

(** [raw] is updated in place, whether or not the call succeeds. *)
Fixpoint alloc_missing (r : RawInode) (ixs : list Z) : PM (result unit FsError * RawInode) :=
  match ixs with
  | [] => st_ret (Ok tt, r)
  | i :: ixs =>
      let* b := st_lift (idx (direct r) i) in
      if b =? 0 then
        let* nb := alloc_data_block in
        match nb with
        | Err e => st_ret (Err e, r)
        | Ok nb =>
            let* w := write_block nb zero_block in
            match w with
            | Err e => st_ret (Err e, r)
            | Ok _ =>
                let* d := st_lift (upd (direct r) i nb) in
                alloc_missing (set_direct r d) ixs
            end
        end
      else alloc_missing r ixs
  end.
Fixpoint write_loop (fuel : nat) (r : RawInode) (cursor : Z) (buf : list Z) : PM (result unit FsError) :=
  match buf with
  | [] => ok tt
  | _ =>
      match fuel with
      | O => st_lift OutOfFuel
      | S fuel =>
          let blk_idx := cursor / BLOCK_SIZE in
          let* blk := st_lift (idx (direct r) blk_idx) in
          let? blk_buf := read_block blk in
          let in_blk := cursor mod BLOCK_SIZE in
          let take_ := Z.min (BLOCK_SIZE - in_blk) (zlen buf) in
          let* blk_buf := st_lift (splice blk_buf in_blk (take (Z.to_nat take_) buf)) in
          let? _ := write_block blk blk_buf in
          write_loop fuel r (cursor + take_) (drop (Z.to_nat take_) buf)
      end
  end.
Definition write_file_at (r : RawInode) (off : Z) (buf : list Z) : PM (result Z FsError * RawInode) :=
  let* end_ := st_lift (checked 64 (off + zlen buf)) in
  let needed_blocks := div_ceil end_ BLOCK_SIZE in
  if DIRECT_BLOCKS <? needed_blocks then st_ret (Err Unsupported, r)
  else
    let* (a, r) := alloc_missing r (seqZ 0 needed_blocks) in
    match a with
    | Err e => st_ret (Err e, r)
    | Ok _ =>
        let* w := write_loop 14 r off buf in
        match w with
        | Err e => st_ret (Err e, r)
        | Ok _ => st_ret (Ok (zlen buf), if r_size r <? end_ then set_size r end_ else r)
        end
    end.

(** ** Directories *)

(** The parser: each turn consumes at least a header. *)
Fixpoint parse_entries (fuel : nat) (buf : list Z) (i : Z) (acc : list DirEntry) : outcome (result (list DirEntry) FsError) :=
  if i + DIR_ENTRY_HEADER_SIZE <=? zlen buf then
    match fuel with
    | O => OutOfFuel
    | S fuel =>
        let hdr := header_of (drop (Z.to_nat i) buf) in
        if h_name_len hdr =? 0 then Ret (Ok acc)
        else
          let name_start := i + DIR_ENTRY_HEADER_SIZE in
          let name_end := name_start + h_name_len hdr in
          if zlen buf <? name_end then Ret (Err Io)
          else
            let! name := slice buf name_start (h_name_len hdr) in
            if negb (utf8_valid name) then Ret (Err Io)
            else if h_kind hdr =? INODE_KIND_FILE
            then parse_entries fuel buf (align4 name_end) (acc ++ [(name, File, h_inode hdr)])
            else if h_kind hdr =? INODE_KIND_DIR
            then parse_entries fuel buf (align4 name_end) (acc ++ [(name, Dir, h_inode hdr)])
            else Ret (Err Io)
    end
  else Ret (Ok acc).
(** [vec![0u8; raw.size as usize]] panics past [isize::MAX]. *)
Definition dir_read_entries (r : RawInode) : PM (result (list DirEntry) FsError) :=
  let* _ := st_lift (if r_size r <? 2 ^ 63 then Ret tt else Panic) in
  let* (res, out) := read_file_at r 0 (r_size r) in
  match res with
  | Err e => err e
  | Ok _ =>
      let buf := out ++ replicate (Z.to_nat (r_size r) - length out) 0 in
      st_lift (parse_entries (length buf) buf 0 [])
  end.

Definition kind_code (k : InodeKind) : Z := match k with File => INODE_KIND_FILE | Dir => INODE_KIND_DIR end.
(** Zeros up to a multiple of four. *)
Definition pad4 (b : list Z) : list Z := b ++ replicate (Z.to_nat (- zlen b mod 4)) 0.
Fixpoint serialize (buf : list Z) (entries : list DirEntry) : list Z :=
  match entries with
  | [] => buf
  | (name, kind, i) :: es =>
      let hdr := mkDirEntryHeader i (wrap 16 (zlen name)) (kind_code kind) in
      serialize (pad4 (buf ++ header_bytes (pad_bytes (zlen buf)) hdr ++ name)) es
  end.

Fixpoint free_excess (r : RawInode) (ixs : list Z) : PM (result unit FsError * RawInode) :=
  match ixs with
  | [] => st_ret (Ok tt, r)
  | i :: ixs =>
      let* b := st_lift (idx (direct r) i) in
      if b =? 0 then free_excess r ixs
      else
        let* f := free_data_block b in
        match f with
        | Err e => st_ret (Err e, r)
        | Ok _ => let* d := st_lift (upd (direct r) i 0) in free_excess (set_direct r d) ixs
        end
  end.
Definition dir_write_entries (r : RawInode) (entries : list DirEntry) : PM (result unit FsError * RawInode) :=
  let buf := serialize [] entries in
  let old_blocks := div_ceil (r_size r) BLOCK_SIZE in
  let new_blocks := div_ceil (zlen buf) BLOCK_SIZE in
  let* (f, r) := free_excess r (seqZ new_blocks (Z.min old_blocks DIRECT_BLOCKS - new_blocks)) in
  match f with
  | Err e => st_ret (Err e, r)
  | Ok _ =>
      let* (w, r) := write_file_at (set_size r 0) 0 buf in
      match w with
      | Err e => st_ret (Err e, r)
      | Ok _ => st_ret (Ok tt, set_size r (zlen buf))
      end
  end.

(** ** The inode operations *)

Definition pond_kind (a : Z) : PM InodeKind :=
  locked_raw a (let* x := get_state a in st_ret (if r_kind (raw x) =? INODE_KIND_DIR then Dir else File)).
Definition pond_size (a : Z) : PM Z := locked_raw a (let* x := get_state a in st_ret (r_size (raw x))).

Definition pond_read_at (a off len : Z) : PM (result Z FsError * list Z) :=
  locked_fs (locked_raw a (
    let* x := get_state a in
    if negb (r_kind (raw x) =? INODE_KIND_FILE) then st_ret (Err IsDir, [])
    else read_file_at (raw x) off len)).

Definition pond_write_at (a off : Z) (buf : list Z) : PM (result Z FsError) :=
  locked_fs (locked_raw a (
    let* x := get_state a in
    if negb (r_kind (raw x) =? INODE_KIND_FILE) then err IsDir
    else
      let* (w, r) := write_file_at (raw x) off buf in
      let* _ := set_raw a r in
      match w with
      | Err e => err e
      | Ok n => let? _ := write_inode (ino x) r in ok n
      end)).

Fixpoint find_entry (name : Str) (es : list DirEntry) : option Z :=
  match es with
  | [] => None
  | (n, _, i) :: es => if decide (n = name) then Some i else find_entry name es
  end.

Definition pond_lookup (a : Z) (name : Str) : PM (result Z FsError) :=
  let* x := locked_raw a (get_state a) in
  if negb (r_kind (raw x) =? INODE_KIND_DIR) then err NotDir
  else
    let? entries := locked_fs (dir_read_entries (raw x)) in
    match find_entry name entries with
    | Some i => get_or_load i
    | None => err NotFound
    end.

Definition pond_readdir (a : Z) : PM (result (list (Str * InodeKind)) FsError) :=
  let* x := locked_raw a (get_state a) in
  if negb (r_kind (raw x) =? INODE_KIND_DIR) then err NotDir
  else
    let? entries := locked_fs (dir_read_entries (raw x)) in
    ok ((fun e : DirEntry => e.1) <$> entries).

Definition new_raw (kind : InodeKind) : RawInode :=
  mkRawInode (kind_code kind) 0 1 0 0 0 (replicate (Z.to_nat DIRECT_BLOCKS) 0).

Definition pond_create (a : Z) (name : Str) (kind : InodeKind) : PM (result Z FsError) :=
  locked_fs (locked_raw a (
    let* x := get_state a in
    if negb (r_kind (raw x) =? INODE_KIND_DIR) then err NotDir
    else
      let? entries := dir_read_entries (raw x) in
      match find_entry name entries with
      | Some _ => err Exists_
      | None =>
          let? new_ino := alloc_inode in
          let* state := new_state (mkInodeState new_ino (new_raw kind)) in
          let? _ := write_inode new_ino (new_raw kind) in
          let* (w, r) := dir_write_entries (raw x) (entries ++ [(name, kind, new_ino)]) in
          let* _ := set_raw a r in
          match w with
          | Err e => err e
          | Ok _ =>
              let? _ := write_inode (ino x) r in
              let* _ := cache_insert new_ino state in
              ok state
          end
      end)).

(** [entries.remove(pos)] of the first entry with the name. *)
Fixpoint remove_entry (name : Str) (es : list DirEntry) : option (Z * list DirEntry) :=
  match es with
  | [] => None
  | (n, k, i) :: es =>
      if decide (n = name) then Some (i, es)
      else match remove_entry name es with
           | Some (j, es') => Some (j, (n, k, i) :: es')
           | None => None
           end
  end.

Definition pond_unlink (a : Z) (name : Str) : PM (result unit FsError) :=
  locked_fs (locked_raw a (
    let* x := get_state a in
    if negb (r_kind (raw x) =? INODE_KIND_DIR) then err NotDir
    else
      let? entries := dir_read_entries (raw x) in
      match remove_entry name entries with
      | None => err NotFound
      | Some (i, entries) =>
          let? st := get_or_load i in
          let? snap := locked_raw st (
            let* y := get_state st in
            let* (f, r) := free_excess (raw y) (seqZ 0 DIRECT_BLOCKS) in
            let* _ := set_raw st r in
            match f with
            | Err e => err e
            | Ok _ =>
                let r := mkRawInode INODE_KIND_UNUSED (r_pad0 r) 0 0 (mtime r) (r_pad1 r) (direct r) in
                let* _ := set_raw st r in
                ok r
            end) in
          let? _ := write_inode i snap in
          let* _ := cache_remove i in
          let* x := get_state a in
          let* (w, r) := dir_write_entries (raw x) entries in
          let* _ := set_raw a r in
          match w with
          | Err e => err e
          | Ok _ => write_inode (ino x) r
          end
      end)).

Definition pond_inode : Inode (Pond D) Z := {|
  i_kind := pond_kind;
  i_size := pond_size;
  i_read_at := pond_read_at;
  i_write_at := pond_write_at;
  i_lookup := pond_lookup;
  i_readdir := pond_readdir;
  i_create := pond_create;
  i_unlink := pond_unlink
|}.

(** ** Mounting *)

Fixpoint read_bitmap (s0 : Superblock) (bm : list Z) (ixs : list Z) : ST D (result (list Z) FsError) :=
  match ixs with
  | [] => st_ret (Ok bm)
  | i :: ixs =>
      let* blk := st_lift (checked 64 (bitmap_start s0 + i)) in
      let? buf := dev_read_block blk in
      let* bm := st_lift (splice bm (i * BLOCK_SIZE) buf) in
      read_bitmap s0 bm ixs
  end.

(** The mounted file system and the handle of its root. *)
Definition pond_mount (d : D) : outcome (result (Pond D * Z) FsError) :=
  let! (r, d) := dev_read_block 0 d in
  match r with
  | Err e => Ret (Err e)
  | Ok sb_buf =>
      let s0 := superblock_of sb_buf in
      if decide (sb_magic s0 ≠ POND_MAGIC) then Ret (Err Io)
      else if negb (sb_version s0 =? POND_VERSION) then Ret (Err Io)
      else
        let! bytes := checked 64 (bitmap_blocks s0 * BLOCK_SIZE) in
        let! bm := (if bytes <? 2 ^ 63 then Ret (replicate (Z.to_nat bytes) 0) else Panic) in
        let! (b, d) := read_bitmap s0 bm (seqZ 0 (bitmap_blocks s0)) d in
        match b with
        | Err e => Ret (Err e)
        | Ok bm =>
            let s := mkPond d s0 bm ∅ ∅ 0 false ∅ in
            let! (l, s) := load_inode ROOT_INO s in
            match l with
            | Err e => Ret (Err e)
            | Ok a =>
                let! (_, s) := locked_fs (cache_insert ROOT_INO a) s in
                Ret (Ok (s, a))
            end
        end
  end.

End PondFs.
