(* ===== verification/PondDisk.v ===== *)
(** * PondFS: blocks, the inode table and the bitmap

    The effect of the lowest operations of [PondFs.v] on the disk, as the set
    of blocks they write. *)

From S2P Require Import Prelude Bytes Bitmap Inode Block PondLayout PondFs.

(** ** Geometry *)

Record geometry (g : Superblock) (n : Z) : Prop := {
  g_magic : sb_magic g = POND_MAGIC;
  g_version : sb_version g = POND_VERSION;
  g_bitmap : 1 <= bitmap_start g /\ 0 <= bitmap_blocks g /\ bitmap_start g + bitmap_blocks g <= inode_table_start g;
  g_table : 0 <= inode_table_blocks g /\ inode_table_start g + inode_table_blocks g <= data_start g;
  g_data : data_start g <= total_blocks g <= n;
  g_inodes : 2 <= inode_count g /\ inode_count g = INODES_PER_BLOCK * inode_table_blocks g;
  g_bits : total_blocks g - data_start g <= 8 * BLOCK_SIZE * bitmap_blocks g /\ bitmap_blocks g * BLOCK_SIZE < 2 ^ 63
}.

Section Disk.
  Context {D : Type} {BD : BlockDevice D} {DK : Disk D} {PD : Padding}.
  Implicit Types (d : D) (s : Pond D) (w : gmap Z (list Z)).

(** [d'] is [d] with the blocks [w] written. *)
Record written d w d' : Prop := {
  wr_ok : dev_ok d';
  wr_size : block_size d' = block_size d;
  wr_count : dev_blocks d' = dev_blocks d;
  wr_block : forall b, 0 <= b < dev_blocks d -> dev_block d' b = default (dev_block d b) (w !! b)
}.

Lemma written_refl d : dev_ok d -> written d ∅ d.
Proof. intros Hd. split; [done | done | done |]. intros b _. by rewrite lookup_empty. Qed.

Lemma written_trans d w1 d1 w2 d2 : written d w1 d1 -> written d1 w2 d2 -> written d (w2 ∪ w1) d2.
Proof.
  intros [O1 S1 C1 B1] [O2 S2 C2 B2]. split; [done | congruence | congruence |].
  intros b Hb. rewrite B2 by lia. rewrite B1 by lia. rewrite lookup_union.
  destruct (w2 !! b) as [x |]; simpl; [by rewrite union_Some_l |]. by rewrite (left_id_L None (∪)).
Qed.

Lemma written_read d d1 w d2 : written d ∅ d1 -> written d1 w d2 -> written d w d2.
Proof. intros H1 H2. pose proof (written_trans _ _ _ _ _ H1 H2) as X. by rewrite (right_id_L ∅ (∪)) in X. Qed.

Lemma written_same d d' b : written d ∅ d' -> 0 <= b < dev_blocks d -> dev_block d' b = dev_block d b.
Proof. intros Hw Hb. rewrite (wr_block _ _ _ Hw) by done. by rewrite lookup_empty. Qed.

Lemma written_other d w d' b : written d w d' -> 0 <= b < dev_blocks d -> w !! b = None -> dev_block d' b = dev_block d b.
Proof. intros Hw Hb Hn. rewrite (wr_block _ _ _ Hw) by done. by rewrite Hn. Qed.

Lemma written_at d w d' b x : written d w d' -> 0 <= b < dev_blocks d -> w !! b = Some x -> dev_block d' b = x.
Proof. intros Hw Hb Hn. rewrite (wr_block _ _ _ Hw) by done. by rewrite Hn. Qed.

(** ** Reading and writing a block *)

Lemma lba_fits d blk :
  dev_ok d -> 0 <= blk < dev_blocks d ->
  lbas_per_block d = Ret (DISK_BLOCK / block_size d) /\ 0 <= blk * (DISK_BLOCK / block_size d) < 2 ^ 64.
Proof.
  intros Hd Hb. destruct (dev_size_ok d Hd) as (H1' & H2' & H3' & H4'). unfold lbas_per_block.
  rewrite (proj2 (Z.eqb_neq (block_size d) 0)) by lia. split; [done |].
  assert (DISK_BLOCK / block_size d <= DISK_BLOCK) by (apply Z.div_le_upper_bound; unfold DISK_BLOCK; lia).
  assert (0 <= DISK_BLOCK / block_size d) by (apply Z.div_pos; unfold DISK_BLOCK; lia).
  unfold DISK_BLOCK in *. nia.
Qed.

Lemma dev_read_block_spec d blk :
  dev_ok d -> 0 <= blk < dev_blocks d ->
  exists d', dev_read_block blk d = Ret (Ok (dev_block d blk), d') /\ written d ∅ d'.
Proof.
  intros Hd Hb. destruct (lba_fits d blk Hd Hb) as [E Hf]. unfold dev_read_block. rewrite E. simpl.
  rewrite checked_fits by done. simpl.
  destruct (dev_read d blk Hd ltac:(lia) ltac:(lia)) as (r & d' & Er & Ho & Hs & Hc & Hbl & Hr).
  change BLOCK_SIZE with DISK_BLOCK. rewrite Er. simpl. rewrite (proj2 (Z.ltb_lt _ _)) in Hr by lia. subst r.
  exists d'. split; [done |]. split; [done | done | done |]. intros b Hb'. rewrite Hbl by done. by rewrite lookup_empty.
Qed.

Lemma dev_write_block_spec d blk data :
  dev_ok d -> 0 <= blk < dev_blocks d -> zlen data = BLOCK_SIZE -> Forall byte_ok data ->
  exists d', dev_write_block blk data d = Ret (Ok tt, d') /\ written d {[blk := data]} d'.
Proof.
  intros Hd Hb Hl Hby. destruct (lba_fits d blk Hd Hb) as [E Hf]. unfold dev_write_block. rewrite E. simpl.
  rewrite checked_fits by done. simpl.
  destruct (dev_write d blk data Hd ltac:(lia) ltac:(lia) Hl Hby) as (r & d' & Er & Ho & Hs & Hc & Hr).
  rewrite Er. simpl. rewrite (proj2 (Z.ltb_lt _ _)) in Hr by lia. destruct Hr as [-> Hbl].
  exists d'. split; [done |]. split; [done | done | done |]. intros b Hb'. rewrite Hbl by done.
  destruct (Z.eqb_spec b blk) as [-> |]; [by rewrite lookup_singleton_eq | by rewrite lookup_singleton_ne].
Qed.

Lemma read_block_spec s blk :
  dev_ok (dev s) -> 0 <= blk < dev_blocks (dev s) ->
  exists d', read_block blk s = Ret (Ok (dev_block (dev s) blk), with_dev s d') /\ written (dev s) ∅ d'.
Proof.
  intros Hd Hb. destruct (dev_read_block_spec _ _ Hd Hb) as (d' & E & Hw).
  exists d'. unfold read_block, on_dev. rewrite E. done.
Qed.

Lemma write_block_spec s blk data :
  dev_ok (dev s) -> 0 <= blk < dev_blocks (dev s) -> zlen data = BLOCK_SIZE -> Forall byte_ok data ->
  exists d', write_block blk data s = Ret (Ok tt, with_dev s d') /\ written (dev s) {[blk := data]} d'.
Proof.
  intros Hd Hb Hl Hby. destruct (dev_write_block_spec _ _ _ Hd Hb Hl Hby) as (d' & E & Hw).
  exists d'. unfold write_block, on_dev. rewrite E. done.
Qed.

Lemma block_len d blk : dev_ok d -> 0 <= blk < dev_blocks d -> zlen (dev_block d blk) = BLOCK_SIZE.
Proof. intros Hd Hb. by destruct (dev_block_ok d blk Hd Hb). Qed.
Lemma block_bytes d blk : dev_ok d -> 0 <= blk < dev_blocks d -> Forall byte_ok (dev_block d blk).
Proof. intros Hd Hb. by destruct (dev_block_ok d blk Hd Hb). Qed.

(** ** The inode table *)

Definition inode_block (g : Superblock) (i : Z) : Z := inode_table_start g + i / INODES_PER_BLOCK.
Definition inode_off (i : Z) : Z := i mod INODES_PER_BLOCK * INODE_SIZE.
Definition disk_raw d (g : Superblock) (i : Z) : RawInode :=
  raw_of (take 128 (drop (Z.to_nat (inode_off i)) (dev_block d (inode_block g i)))).

Lemma inode_block_range g n i :
  geometry g n -> 0 <= i < inode_count g ->
  inode_table_start g <= inode_block g i < inode_table_start g + inode_table_blocks g /\
  0 <= inode_block g i < n /\ 0 <= inode_off i /\ inode_off i + INODE_SIZE <= BLOCK_SIZE.
Proof.
  intros [_ _ Gb Gt Gd [_ Gi] _] Hi. unfold inode_block, inode_off, INODES_PER_BLOCK, INODE_SIZE, BLOCK_SIZE in *.
  change (4096 / 128) with 32 in *. pose proof (Z.mod_pos_bound i 32).
  assert (i / 32 < inode_table_blocks g) by (apply Z.div_lt_upper_bound; lia).
  assert (0 <= i / 32) by (apply Z.div_pos; lia). lia.
Qed.

Lemma raw_slice_other (l l' : list Z) (i j : Z) (x : list Z) :
  splice l (inode_off i) x = Ret l' -> zlen x = INODE_SIZE -> zlen l = BLOCK_SIZE ->
  i mod INODES_PER_BLOCK ≠ j mod INODES_PER_BLOCK ->
  take 128 (drop (Z.to_nat (inode_off j)) l') = take 128 (drop (Z.to_nat (inode_off j)) l).
Proof.
  intros Hs Hx Hl Hne. unfold inode_off, INODES_PER_BLOCK, INODE_SIZE, BLOCK_SIZE in *. change (4096 / 128) with 32 in *.
  pose proof (Z.mod_pos_bound i 32). pose proof (Z.mod_pos_bound j 32).
  pose proof (slice_splice_other l l' x _ (j mod 32 * 128) 128 Hs ltac:(lia)) as E.
  pose proof (splice_length _ _ _ _ Hs) as Hl'.
  assert (forall m : list Z, zlen m = 4096 ->
    slice m (j mod 32 * 128) 128 = Ret (take 128 (drop (Z.to_nat (j mod 32 * 128)) m))) as Hsl.
  { intros m Hm. apply slice_Ret. split_and!; [lia | lia | lia | done]. }
  rewrite !Hsl in E by lia. by injection E.
Qed.

(** Writing an inode changes that inode and no other, and nothing else on the
    disk. *)
Lemma write_inode_spec s i r :
  dev_ok (dev s) -> geometry (sb s) (dev_blocks (dev s)) -> 0 <= i < inode_count (sb s) -> raw_ok r ->
  exists d' b, write_inode i r s = Ret (Ok tt, with_dev s d') /\
    written (dev s) {[inode_block (sb s) i := b]} d' /\
    disk_raw d' (sb s) i = r /\
    (forall j, 0 <= j < inode_count (sb s) -> j ≠ i -> disk_raw d' (sb s) j = disk_raw (dev s) (sb s) j).
Proof.
  intros Hd Hg Hi Hr. destruct (inode_block_range _ _ _ Hg Hi) as (Hb1 & Hb2 & Ho1 & Ho2).
  pose proof (dev_size_ok _ Hd) as (_ & _ & _ & Hmax).
  unfold write_inode, st_bind at 1, st_get. simpl. unfold st_try, arith, st_bind at 1 2, st_lift.
  unfold inode_block in *. rewrite checked_fits by (unfold DISK_BLOCK in *; lia). simpl.
  destruct (read_block_spec s _ Hd Hb2) as (d1 & E1 & W1). unfold st_bind at 1. rewrite E1. simpl.
  set (blk := inode_table_start (sb s) + i / INODES_PER_BLOCK) in *.
  assert (length (raw_bytes r) = 128%nat) as Hlen by (apply raw_bytes_length, Hr).
  assert (zlen (raw_bytes r) = INODE_SIZE) as Hz by (unfold zlen; by rewrite Hlen).
  assert (exists l, splice (dev_block (dev s) blk) (inode_off i) (raw_bytes r) = Ret l) as [l Hs].
  { eexists. apply splice_Ret. rewrite block_len by done. rewrite Hz. split_and!; [lia | lia | done]. }
  fold (inode_off i). unfold st_bind at 1. rewrite Hs. simpl.
  pose proof (splice_length _ _ _ _ Hs) as Hl. rewrite block_len in Hl by done.
  assert (Forall byte_ok l) as Hby.
  { apply splice_Ret in Hs as (_ & _ & ->). rewrite !Forall_app. pose proof (block_bytes _ _ Hd Hb2).
    split_and!; [by apply Forall_take | apply raw_bytes_ok | by apply Forall_drop]. }
  destruct (write_block_spec (with_dev s d1) blk l) as (d2 & E2 & W2);
    [apply (wr_ok _ _ _ W1) | simpl; by rewrite (wr_count _ _ _ W1) | done | done |].
  unfold st_bind. rewrite E2. exists d2, l. split; [done |].
  assert (written (dev s) {[blk := l]} d2) as W by (apply (written_read _ _ _ _ W1 W2)).
  split; [done |]. split.
  - unfold disk_raw. fold blk. change (inode_block (sb s) i) with blk. rewrite (written_at _ _ _ _ l W) by (done || apply lookup_singleton_eq).
    pose proof (slice_splice_same _ _ _ _ Hs) as E. rewrite Hz in E. apply slice_Ret in E as (_ & _ & _ & E).
    change (Z.to_nat INODE_SIZE) with 128%nat in E. rewrite <- E.
    rewrite <- (app_nil_r (raw_bytes r)). by apply raw_of_bytes.
  - intros j Hj Hne. destruct (inode_block_range _ _ _ Hg Hj) as (_ & Hbj & _).
    unfold disk_raw. destruct (decide (inode_block (sb s) j = blk)) as [Ej | Ej].
    + rewrite Ej. rewrite (written_at _ _ _ _ l W) by (done || apply lookup_singleton_eq).
      f_equal. apply (raw_slice_other _ _ i j _ Hs Hz); [by apply block_len |].
      unfold inode_block, blk in Ej. intros Em.
      pose proof (Z.div_mod i INODES_PER_BLOCK ltac:(done)). pose proof (Z.div_mod j INODES_PER_BLOCK ltac:(done)). lia.
    + by rewrite (written_other _ _ _ _ W) by (done || by apply lookup_singleton_ne).
Qed.

(** ** The bitmap *)

(** The in-memory superblock and bitmap are those of the disk. *)
Record bitmap_ok d (g : Superblock) (bm : list Z) : Prop := {
  bm_len : zlen bm = bitmap_blocks g * BLOCK_SIZE;
  bm_bytes : bytes_ok bm;
  bm_disk : forall k, 0 <= k < bitmap_blocks g ->
    dev_block d (bitmap_start g + k) = take 4096 (drop (Z.to_nat (k * BLOCK_SIZE)) bm);
  bm_super : superblock_of (dev_block d 0) = g
}.

Definition data_blocks (g : Superblock) : Z := total_blocks g - data_start g.
(** The block of the bitmap that holds bit [i]. *)
Definition bitmap_block (g : Superblock) (i : Z) : Z := bitmap_start g + i / 8 / BLOCK_SIZE.

Lemma bit_range g n i :
  geometry g n -> 0 <= i < data_blocks g ->
  0 <= i / 8 < bitmap_blocks g * BLOCK_SIZE /\ 0 <= i / 8 / BLOCK_SIZE < bitmap_blocks g /\
  bitmap_start g <= bitmap_block g i < bitmap_start g + bitmap_blocks g /\ 0 <= bitmap_block g i < n.
Proof.
  intros [_ _ Gb Gt Gd _ Gbits] Hi. unfold data_blocks, bitmap_block, BLOCK_SIZE in *.
  assert (0 <= i / 8) by (apply Z.div_pos; lia).
  assert (i / 8 < bitmap_blocks g * 4096) by (apply Z.div_lt_upper_bound; lia).
  assert (0 <= i / 8 / 4096) by (apply Z.div_pos; lia).
  assert (i / 8 / 4096 < bitmap_blocks g) by (apply Z.div_lt_upper_bound; lia). lia.
Qed.

Lemma take_drop_insert_same (bm : list Z) (k p v : Z) :
  0 <= k -> 0 <= p < 4096 ->
  <[Z.to_nat p := v]> (take 4096 (drop (Z.to_nat (k * 4096)) bm))
  = take 4096 (drop (Z.to_nat (k * 4096)) (<[Z.to_nat (k * 4096 + p) := v]> bm)).
Proof.
  intros Hk Hp. rewrite drop_insert_ge by lia. rewrite take_insert_lt by lia. f_equal. lia.
Qed.

Lemma take_drop_insert_other (bm : list Z) (k p v : Z) :
  0 <= k -> 0 <= p -> p / 4096 ≠ k ->
  take 4096 (drop (Z.to_nat (k * 4096)) (<[Z.to_nat p := v]> bm)) = take 4096 (drop (Z.to_nat (k * 4096)) bm).
Proof.
  intros Hk Hp Hne. pose proof (Z.div_mod p 4096 ltac:(lia)). pose proof (Z.mod_pos_bound p 4096 ltac:(lia)).
  destruct (Z.lt_ge_cases p (k * 4096)).
  - by rewrite drop_insert_lt by lia.
  - rewrite drop_insert_ge by lia. rewrite take_insert_ge by nia. done.
Qed.

(** Changing one byte of the bitmap in memory and flushing its block. *)
Lemma flush_bitmap_byte_spec s (bm0 : list Z) byte v :
  dev_ok (dev s) -> geometry (sb s) (dev_blocks (dev s)) -> bitmap_ok (dev s) (sb s) bm0 ->
  0 <= byte < bitmap_blocks (sb s) * BLOCK_SIZE -> 0 <= v < 256 -> bitmap s = <[Z.to_nat byte := v]> bm0 ->
  exists d' b, flush_bitmap_byte byte s = Ret (Ok tt, with_dev s d') /\
    written (dev s) {[bitmap_start (sb s) + byte / BLOCK_SIZE := b]} d' /\ bitmap_ok d' (sb s) (bitmap s).
Proof.
  intros Hd Hg [Bl Bb Bd Bs] Hby Hv Hbm. pose proof (dev_size_ok _ Hd) as (_ & _ & _ & Hmax).
  destruct Hg as [_ _ Gb Gt Gd _ _]. unfold BLOCK_SIZE, DISK_BLOCK in *.
  set (k := byte / 4096). assert (0 <= k < bitmap_blocks (sb s)) as Hk
    by (unfold k; split; [apply Z.div_pos; lia | apply Z.div_lt_upper_bound; lia]).
  pose proof (Z.mod_pos_bound byte 4096 ltac:(lia)) as Hm.
  assert (0 <= bitmap_start (sb s) + k < dev_blocks (dev s)) as Hr by lia.
  unfold flush_bitmap_byte, st_bind at 1, st_get. simpl. unfold st_try, arith, st_bind at 1 2, st_lift.
  unfold BLOCK_SIZE. fold k. rewrite checked_fits by lia. simpl.
  destruct (read_block_spec s _ Hd Hr) as (d1 & E1 & W1). unfold st_bind at 1. rewrite E1. simpl.
  unfold st_bind at 1. simpl. unfold st_bind at 1.
  assert (idx (bitmap s) byte = Ret v) as ->.
  { rewrite Hbm. apply idx_Ret. split; [lia |]. apply list_lookup_insert_eq. unfold zlen in Bl. lia. }
  simpl. unfold st_bind at 1. rewrite upd_in_range by (rewrite block_len by done; unfold BLOCK_SIZE; lia). simpl.
  set (l := <[Z.to_nat (byte mod 4096) := v]> (dev_block (dev s) (bitmap_start (sb s) + k))).
  destruct (write_block_spec (with_dev s d1) (bitmap_start (sb s) + k) l) as (d2 & E2 & W2).
  - apply (wr_ok _ _ _ W1).
  - simpl. by rewrite (wr_count _ _ _ W1).
  - unfold l, zlen. rewrite length_insert. by apply block_len.
  - apply Forall_insert; [by apply block_bytes | exact Hv].
  - exists d2, l. rewrite E2. pose proof (written_read _ _ _ _ W1 W2) as W. split; [done |]. split; [done |]. split.
    + rewrite Hbm. unfold zlen in *. by rewrite length_insert.
    + rewrite Hbm. apply Forall_insert; [exact Bb | exact Hv].
    + intros j Hj. unfold BLOCK_SIZE. rewrite Hbm. destruct (decide (j = k)) as [-> | Hne].
      * rewrite (written_at _ _ _ _ l W) by (lia || apply lookup_singleton_eq). unfold l. rewrite Bd by done.
        unfold BLOCK_SIZE. rewrite take_drop_insert_same by lia. do 3 f_equal. unfold k.
        pose proof (Z.div_mod byte 4096 ltac:(lia)). lia.
      * rewrite (written_other _ _ _ _ W) by (lia || apply lookup_singleton_ne; lia). rewrite Bd by done.
        unfold BLOCK_SIZE. by rewrite take_drop_insert_other by (lia || unfold k in Hne; congruence).
    + rewrite (written_other _ _ _ _ W) by (lia || apply lookup_singleton_ne; lia). done.
Qed.

(** ** Allocating and freeing a block *)

(** What the allocator did: the first clear bit is taken. *)
Definition took s (i : Z) (r : result Z FsError) s' : Prop :=
  0 <= i < data_blocks (sb s) /\ bit_at (bitmap s) i = false /\ r = Ok (data_start (sb s) + i) /\
  exists d' bm' b, s' = with_dev (with_bitmap s bm') d' /\ bitmap_ok d' (sb s) bm' /\
    written (dev s) {[bitmap_block (sb s) i := b]} d' /\
    (forall j, 0 <= j -> bit_at bm' j = (j =? i) || bit_at (bitmap s) j).

Lemma byte_lookup g (bm : list Z) i n :
  geometry g n -> zlen bm = bitmap_blocks g * BLOCK_SIZE -> 0 <= i < data_blocks g ->
  exists b, bm !! Z.to_nat (i / 8) = Some b /\ idx bm (i / 8) = Ret b.
Proof.
  intros Hg Hl Hi. destruct (bit_range _ _ _ Hg Hi) as (? & _).
  destruct (idx_in_range bm (i / 8)) as (b & ? & ?); [lia |]. by exists b.
Qed.

Lemma alloc_scan_skip s i ixs :
  geometry (sb s) (dev_blocks (dev s)) -> bitmap_ok (dev s) (sb s) (bitmap s) -> 0 <= i < data_blocks (sb s) ->
  bit_at (bitmap s) i = true -> alloc_scan (i :: ixs) s = alloc_scan ixs s.
Proof.
  intros Hg Hbm Hi Hbit. destruct (byte_lookup _ (bitmap s) i _ Hg (bm_len _ _ _ Hbm) Hi) as (b & Hb & Ei).
  pose proof (Z.mod_pos_bound i 8 ltac:(lia)).
  cbn [alloc_scan]. unfold st_bind at 1, st_get. simpl. unfold st_bind at 1, st_lift. rewrite Ei. simpl.
  rewrite test_mask by lia. unfold bit_at in Hbit. rewrite Hb in Hbit. simpl in Hbit. by rewrite Hbit.
Qed.

Lemma alloc_scan_take s i ixs :
  dev_ok (dev s) -> geometry (sb s) (dev_blocks (dev s)) -> bitmap_ok (dev s) (sb s) (bitmap s) ->
  0 <= i < data_blocks (sb s) -> bit_at (bitmap s) i = false ->
  exists r s', alloc_scan (i :: ixs) s = Ret (r, s') /\ took s i r s'.
Proof.
  intros Hd Hg Hbm Hi Hbit. destruct (byte_lookup _ (bitmap s) i _ Hg (bm_len _ _ _ Hbm) Hi) as (b & Hb & Ei).
  pose proof (Z.mod_pos_bound i 8 ltac:(lia)).
  cbn [alloc_scan]. unfold st_bind at 1, st_get. simpl. unfold st_bind at 1, st_lift. rewrite Ei. simpl.
  pose proof Hbit as Hbit'. unfold bit_at in Hbit'. rewrite Hb in Hbit'. simpl in Hbit'.
  rewrite test_mask by lia. rewrite Hbit'. simpl.
  destruct (bit_range _ _ _ Hg Hi) as (Hr1 & Hr2 & Hr3 & Hr4).
  set (v := Z.lor b (Z.shiftl 1 (i mod 8))). set (bm' := <[Z.to_nat (i / 8) := v]> (bitmap s)).
  assert (0 <= v < 256) as Hv.
  { apply byte_set_range; [| lia]. by apply (Forall_lookup_1 _ _ _ _ (bm_bytes _ _ _ Hbm)) in Hb. }
  unfold st_bind at 1. rewrite upd_in_range by (rewrite (bm_len _ _ _ Hbm); lia). simpl.
  unfold st_bind at 1, st_modify. simpl. fold v. fold bm'.
  destruct (flush_bitmap_byte_spec (with_bitmap s bm') (bitmap s) (i / 8) v) as (d' & blk & E & W & Hok'); try done.
  unfold st_try, arith, st_bind at 1. rewrite E. simpl. unfold st_bind.
  pose proof (dev_size_ok _ Hd) as (_ & _ & _ & Hmax). destruct Hg as [_ _ Gb Gt Gd _ _]. unfold data_blocks, DISK_BLOCK in *.
  rewrite checked_fits by lia. simpl. eexists _, _. split; [done |].
  split; [unfold data_blocks; lia |]. split; [done |]. split; [done |]. exists d', bm', blk. split; [done |]. split; [done |].
  split; [done |]. intros j Hj. apply bit_at_set; (lia || done).
Qed.

Lemma alloc_scan_spec s lo (n : nat) :
  dev_ok (dev s) -> geometry (sb s) (dev_blocks (dev s)) -> bitmap_ok (dev s) (sb s) (bitmap s) ->
  0 <= lo -> lo + Z.of_nat n = data_blocks (sb s) ->
  (exists i r s', alloc_scan (seqZ lo (Z.of_nat n)) s = Ret (r, s') /\ took s i r s') \/
  (alloc_scan (seqZ lo (Z.of_nat n)) s = Ret (Err NoSpace, s) /\
   (forall j, lo <= j < data_blocks (sb s) -> bit_at (bitmap s) j = true)).
Proof.
  intros Hd Hg Hbm. revert lo. induction n as [| n IH]; intros lo Hlo Hsum.
  { right. split; [done | lia]. }
  rewrite seqZ_cons by lia. replace (Z.pred (Z.of_nat (S n))) with (Z.of_nat n) by lia.
  destruct (bit_at (bitmap s) lo) eqn:Hbit.
  - rewrite alloc_scan_skip by (done || lia).
    destruct (IH (Z.succ lo) ltac:(lia) ltac:(lia)) as [? | (E & Hall)]; [by left | right]. split; [done |].
    intros j Hj. destruct (decide (j = lo)) as [-> |]; [done | apply Hall; lia].
  - left. exists lo. apply alloc_scan_take; (done || lia).
Qed.

Lemma alloc_data_block_spec s :
  dev_ok (dev s) -> geometry (sb s) (dev_blocks (dev s)) -> bitmap_ok (dev s) (sb s) (bitmap s) ->
  (exists i r s', alloc_data_block s = Ret (r, s') /\ took s i r s') \/
  (alloc_data_block s = Ret (Err NoSpace, s) /\ count_clear (bitmap s) (data_blocks (sb s)) = 0).
Proof.
  intros Hd Hg Hbm. pose proof (dev_size_ok _ Hd) as (_ & _ & _ & Hmax).
  pose proof Hg as [_ _ Gb Gt Gd _ _]. unfold DISK_BLOCK in *.
  assert (alloc_data_block s = alloc_scan (seqZ 0 (data_blocks (sb s))) s) as ->.
  { unfold alloc_data_block, st_bind, st_get. simpl. unfold st_try, arith, st_bind, st_lift.
    by rewrite checked_fits by lia. }
  destruct (alloc_scan_spec s 0 (Z.to_nat (data_blocks (sb s))) Hd Hg Hbm) as [(i & r & s' & E & Ht) | [E Hall]];
    [lia | unfold data_blocks in *; lia | |];
    rewrite Z2Nat.id in E by (unfold data_blocks; lia).
  - left. by exists i, r, s'.
  - right. split; [done |]. unfold count_clear.
    assert (clear_bits (bitmap s) (data_blocks (sb s)) = []) as ->; [| done].
    apply list_filter_none. apply Forall_forall. intros j Hj%elem_of_seqZ. rewrite Hall by lia. done.
Qed.

End Disk.
