(* ===== verification/PondFile.v ===== *)
(** * PondFS: file data

    The bytes of a file as a function of the disk and its inode, and what
    reading, growing and writing do to them. *)

From S2P Require Import Prelude Bytes Bitmap Inode Block PondLayout PondFs PondDisk.

Definition MAX_FILE : Z := DIRECT_BLOCKS * BLOCK_SIZE.

Section File.
  Context {D : Type} {BD : BlockDevice D} {DK : Disk D} {PD : Padding}.
  Implicit Types (d : D) (s : Pond D) (r : RawInode) (w : gmap Z (list Z)).

(** Byte [x] of a file; a hole reads as zero. *)
Definition fbyte d r (x : Z) : Z :=
  let b := direct r !!! Z.to_nat (x / BLOCK_SIZE) in
  if b =? 0 then 0 else dev_block d b !!! Z.to_nat (x mod BLOCK_SIZE).
Definition fbytes d r (off n : Z) : list Z := fbyte d r <$> seqZ off n.
Definition content d r : list Z := fbytes d r 0 (r_size r).

(** The blocks of an inode are distinct data blocks that the bitmap has. *)
Record blocks_ok (g : Superblock) (bm : list Z) r : Prop := {
  bk_len : length (direct r) = 12%nat;
  bk_range : forall k b, direct r !! k = Some b -> b ≠ 0 ->
    data_start g <= b < total_blocks g /\ bit_at bm (b - data_start g) = true;
  bk_inj : forall k l b, direct r !! k = Some b -> direct r !! l = Some b -> b ≠ 0 -> k = l
}.

Definition mapped r (k : Z) : Prop := direct r !!! Z.to_nat k ≠ 0.

Lemma direct_at r k : length (direct r) = 12%nat -> 0 <= k < 12 ->
  direct r !! Z.to_nat k = Some (direct r !!! Z.to_nat k) /\ idx (direct r) k = Ret (direct r !!! Z.to_nat k).
Proof.
  intros Hl Hk. destruct (idx_in_range (direct r) k) as (b & E & Hb); [unfold zlen; lia |].
  rewrite (list_lookup_total_correct _ _ _ Hb). done.
Qed.

Lemma mapped_block g bm r k n :
  blocks_ok g bm r -> geometry g n -> 0 <= k < 12 -> mapped r k -> 0 <= direct r !!! Z.to_nat k < n.
Proof.
  intros Hb Hg Hk Hm. destruct (direct_at r k (bk_len _ _ _ Hb) Hk) as [E _].
  destruct (bk_range _ _ _ Hb _ _ E Hm) as [? _]. destruct Hg as [_ _ Gb Gt Gd _ _]. lia.
Qed.

Lemma block_index (x : Z) : 0 <= x < MAX_FILE -> 0 <= x / BLOCK_SIZE < 12.
Proof.
  unfold MAX_FILE, DIRECT_BLOCKS, BLOCK_SIZE. intros Hx.
  split; [apply Z.div_pos; lia | apply Z.div_lt_upper_bound; lia].
Qed.

(** Writes to other blocks leave the bytes of a file alone. *)
Lemma fbyte_frame g bm d w d' r x :
  written d w d' -> geometry g (dev_blocks d) -> blocks_ok g bm r -> 0 <= x < MAX_FILE ->
  (forall k b, direct r !! k = Some b -> b ≠ 0 -> w !! b = None) ->
  fbyte d' r x = fbyte d r x.
Proof.
  intros Hw Hg Hb Hx Hn. unfold fbyte. pose proof (block_index x Hx) as Hk.
  destruct (direct_at r (x / BLOCK_SIZE) (bk_len _ _ _ Hb) Hk) as [E _].
  destruct (Z.eqb_spec (direct r !!! Z.to_nat (x / BLOCK_SIZE)) 0) as [| Hne]; [done |].
  rewrite (written_other _ _ _ _ Hw); [done | | by apply (Hn _ _ E)].
  by apply (mapped_block g bm).
Qed.

Lemma fbyte_same g bm d d' r x :
  written d ∅ d' -> geometry g (dev_blocks d) -> blocks_ok g bm r -> 0 <= x < MAX_FILE -> fbyte d' r x = fbyte d r x.
Proof. intros Hw Hg Hb Hx. apply (fbyte_frame g bm d ∅); [done | done | done | done |]. intros. apply lookup_empty. Qed.

(** A stretch inside one block. *)
Lemma fbytes_block d r x n :
  0 <= x -> 0 <= n -> x mod BLOCK_SIZE + n <= BLOCK_SIZE -> mapped r (x / BLOCK_SIZE) ->
  zlen (dev_block d (direct r !!! Z.to_nat (x / BLOCK_SIZE))) = BLOCK_SIZE ->
  slice (dev_block d (direct r !!! Z.to_nat (x / BLOCK_SIZE))) (x mod BLOCK_SIZE) n = Ret (fbytes d r x n).
Proof.
  intros Hx Hn Hfit Hm Hl. unfold BLOCK_SIZE in *. pose proof (Z.mod_pos_bound x 4096 ltac:(lia)).
  pose proof (Z.div_mod x 4096 ltac:(lia)).
  apply slice_Ret. split_and!; [lia | lia | lia |]. set (l := dev_block d _) in *. unfold zlen in Hl.
  apply list_eq_same_length with (n := Z.to_nat n);
    [by rewrite length_take, length_drop; lia | unfold fbytes; by rewrite length_fmap, length_seqZ |].
  intros i y z Hi Hy Hz. unfold fbytes in Hy. rewrite list_lookup_fmap, lookup_seqZ_lt in Hy by lia.
  simpl in Hy. injection Hy as <-. rewrite lookup_take_lt, lookup_drop in Hz by lia.
  unfold fbyte, BLOCK_SIZE.
  assert ((x + Z.of_nat i) / 4096 = x / 4096) as -> by (symmetry; apply (Z.div_unique _ _ _ (x mod 4096 + Z.of_nat i)); lia).
  assert ((x + Z.of_nat i) mod 4096 = x mod 4096 + Z.of_nat i) as ->
    by (symmetry; apply (Z.mod_unique _ _ (x / 4096)); lia).
  unfold mapped, BLOCK_SIZE in Hm. rewrite (proj2 (Z.eqb_neq _ _) Hm). fold l.
  apply list_lookup_total_correct. rewrite <- Hz. f_equal. lia.
Qed.

Lemma fbytes_app d r x n m : 0 <= n -> 0 <= m -> fbytes d r x (n + m) = fbytes d r x n ++ fbytes d r (x + n) m.
Proof. intros. unfold fbytes. by rewrite seqZ_app, fmap_app by lia. Qed.

Lemma fbytes_ext d d' r r' x n :
  (forall y, x <= y < x + n -> fbyte d' r' y = fbyte d r y) -> fbytes d' r' x n = fbytes d r x n.
Proof. intros Hy. unfold fbytes. apply list_fmap_ext. intros i y E%list_elem_of_lookup_2%elem_of_seqZ. by apply Hy. Qed.

Lemma fbytes_length d r x n : 0 <= n -> zlen (fbytes d r x n) = n.
Proof. intros. unfold fbytes, zlen. rewrite length_fmap, length_seqZ. lia. Qed.

(** ** Reading *)

Lemma blocks_left (c e : Z) (fuel : nat) :
  0 <= c -> c < e -> div_ceil e BLOCK_SIZE - c / BLOCK_SIZE <= Z.of_nat fuel ->
  exists fuel', fuel = S fuel' /\
    let t := Z.min (BLOCK_SIZE - c mod BLOCK_SIZE) (e - c) in
    0 < t /\ c mod BLOCK_SIZE + t <= BLOCK_SIZE /\ c + t <= e /\
    (c + t < e -> div_ceil e BLOCK_SIZE - (c + t) / BLOCK_SIZE <= Z.of_nat fuel').
Proof.
  unfold BLOCK_SIZE, div_ceil. intros Hc He Hf. pose proof (Z.mod_pos_bound c 4096 ltac:(lia)).
  pose proof (Z.div_mod c 4096 ltac:(lia)). pose proof (Z.div_mod (e + 4096 - 1) 4096 ltac:(lia)).
  pose proof (Z.mod_pos_bound (e + 4096 - 1) 4096 ltac:(lia)).
  destruct fuel as [| fuel]; [lia |]. exists fuel. split; [done |]. simpl.
  split_and!; [lia | lia | lia |]. intros Hlt.
  assert (Z.min (4096 - c mod 4096) (e - c) = 4096 - c mod 4096) as -> by lia.
  replace (c + (4096 - c mod 4096)) with ((c / 4096 + 1) * 4096) by lia. rewrite Z.div_mul by lia. lia.
Qed.

Lemma read_loop_spec fuel s r g bm c e out :
  dev_ok (dev s) -> geometry g (dev_blocks (dev s)) -> blocks_ok g bm r ->
  0 <= c <= e -> e <= MAX_FILE -> (forall k, c / BLOCK_SIZE <= k < div_ceil e BLOCK_SIZE -> mapped r k) ->
  (c < e -> div_ceil e BLOCK_SIZE - c / BLOCK_SIZE <= Z.of_nat fuel) ->
  exists d', read_loop fuel r c e out s = Ret ((Ok (zlen out + (e - c)), out ++ fbytes (dev s) r c (e - c)), with_dev s d') /\
    written (dev s) ∅ d'.
Proof.
  revert s c out. induction fuel as [| fuel IH]; intros s c out Hd Hg Hb Hc He Hm Hf;
    (destruct (decide (c = e)) as [-> | Hne];
      [exists (dev s); split; [| by apply written_refl]; cbn [read_loop]; rewrite Z.ltb_irrefl, Z.sub_diag;
       unfold fbytes; rewrite seqZ_nil by lia; simpl; rewrite app_nil_r, Z.add_0_r; by destruct s |]).
  { destruct (blocks_left c e 0 ltac:(lia) ltac:(lia) (Hf ltac:(lia))) as (? & [=] & _). }
  destruct (blocks_left c e (S fuel) ltac:(lia) ltac:(lia) (Hf ltac:(lia))) as (f' & [= <-] & Ht). cbv zeta in Ht.
  cbn [read_loop]. rewrite (proj2 (Z.ltb_lt c e)) by lia.
  pose proof (block_index c ltac:(lia)) as Hk. unfold DIRECT_BLOCKS. rewrite (proj2 (Z.leb_gt 12 (c / BLOCK_SIZE))) by lia.
  destruct (direct_at r _ (bk_len _ _ _ Hb) Hk) as [_ Ei]. unfold st_bind at 1, st_lift. rewrite Ei. simpl.
  assert (mapped r (c / BLOCK_SIZE)) as Hmap.
  { apply Hm. split; [lia |]. unfold div_ceil, BLOCK_SIZE in *. apply Z.lt_le_trans with (c / 4096 + 1); [lia |].
    replace (c / 4096 + 1) with ((c + 1 * 4096) / 4096) by (rewrite Z.div_add; lia). apply Z.div_le_mono; lia. }
  rewrite (proj2 (Z.eqb_neq _ _) Hmap). pose proof (mapped_block _ _ _ _ _ Hb Hg Hk Hmap) as Hbr.
  destruct (read_block_spec s _ Hd Hbr) as (d1 & E1 & W1). unfold st_bind at 1. rewrite E1. simpl.
  set (t := Z.min (BLOCK_SIZE - c mod BLOCK_SIZE) (e - c)) in *. destruct Ht as (Ht1 & Ht2 & Ht3 & Ht4).
  unfold st_bind at 1. rewrite fbytes_block by (done || lia || by apply block_len). simpl.
  destruct (IH (with_dev s d1) (c + t) (out ++ fbytes (dev s) r c t)) as (d2 & E2 & W2).
  - apply (wr_ok _ _ _ W1).
  - simpl. by rewrite (wr_count _ _ _ W1).
  - done.
  - lia.
  - done.
  - intros k Hk'. apply Hm. split; [| lia].
    apply Z.le_trans with ((c + t) / BLOCK_SIZE); [apply Z.div_le_mono; [done | lia] | lia].
  - exact Ht4.
  - exists d2. split; [| by apply (written_read _ _ _ _ W1 W2)]. rewrite E2.
    assert (fbytes (dev (with_dev s d1)) r (c + t) (e - (c + t)) = fbytes (dev s) r (c + t) (e - (c + t))) as ->.
    { apply fbytes_ext. intros y Hy. apply (fbyte_same g bm); (done || lia). }
    rewrite <- app_assoc, <- fbytes_app by lia. replace (t + (e - (c + t))) with (e - c) by lia.
    unfold zlen. rewrite length_app. pose proof (fbytes_length (dev s) r c t ltac:(lia)) as Hl. unfold zlen in Hl.
    do 4 f_equal. lia.
Qed.

(** An inode whose size its blocks cover. *)
Definition sized r : Prop :=
  0 <= r_size r <= MAX_FILE /\ forall k, 0 <= k < div_ceil (r_size r) BLOCK_SIZE -> mapped r k.

Lemma content_slice d r off len :
  0 <= off <= r_size r -> 0 <= len ->
  take (Z.to_nat len) (drop (Z.to_nat off) (content d r)) = fbytes d r off (Z.min (r_size r) (off + len) - off).
Proof.
  intros Ho Hl. unfold content, fbytes. rewrite <- fmap_drop, <- fmap_take. f_equal.
  destruct (Z.min_spec (r_size r) (off + len)) as [[? ->] | [? ->]].
  - rewrite <- (Z.sub_add off (r_size r)) at 1. rewrite Z.add_comm, seqZ_app by lia.
    rewrite drop_app_length' by (rewrite length_seqZ; lia). rewrite Z.add_0_l.
    rewrite take_ge by (rewrite length_seqZ; lia). done.
  - replace (r_size r) with (off + (len + (r_size r - off - len))) at 1 by lia. rewrite seqZ_app by lia.
    rewrite drop_app_length' by (rewrite length_seqZ; lia). rewrite Z.add_0_l, seqZ_app by lia.
    rewrite take_app_length' by (rewrite length_seqZ; lia). f_equal. lia.
Qed.

Lemma content_length d r : 0 <= r_size r -> zlen (content d r) = r_size r.
Proof. apply fbytes_length. Qed.

Lemma read_file_at_spec s r g bm off len :
  dev_ok (dev s) -> geometry g (dev_blocks (dev s)) -> blocks_ok g bm r -> sized r ->
  0 <= off -> 0 <= len -> off + len < 2 ^ 64 ->
  let bytes := take (Z.to_nat len) (drop (Z.to_nat off) (content (dev s) r)) in
  exists d', read_file_at r off len s = Ret ((Ok (zlen bytes), bytes), with_dev s d') /\ written (dev s) ∅ d'.
Proof.
  intros Hd Hg Hb [Hs Hm] Ho Hl Hf bytes. unfold read_file_at.
  destruct (Z.leb_spec (r_size r) off) as [Hge | Hlt].
  - assert (bytes = []) as ->.
    { unfold bytes. rewrite drop_ge; [by rewrite take_nil |]. pose proof (content_length (dev s) r). unfold zlen in *. lia. }
    exists (dev s). split; [by destruct s | by apply written_refl].
  - unfold st_bind, st_lift. rewrite checked_fits by lia. cbn [obind].
    assert (bytes = fbytes (dev s) r off (Z.min (r_size r) (off + len) - off)) as Eb by (apply content_slice; lia).
    destruct (read_loop_spec 14 s r g bm off (Z.min (r_size r) (off + len)) []) as (d' & E & W); try done.
    + lia.
    + lia.
    + intros k Hk. apply Hm. unfold div_ceil, BLOCK_SIZE in *. split.
      * pose proof (Z.div_pos off 4096). lia.
      * apply Z.lt_le_trans with ((Z.min (r_size r) (off + len) + 4096 - 1) / 4096); [lia | apply Z.div_le_mono; lia].
    + intros _. unfold div_ceil, MAX_FILE, DIRECT_BLOCKS, BLOCK_SIZE in *. pose proof (Z.div_pos off 4096).
      assert ((Z.min (r_size r) (off + len) + 4096 - 1) / 4096 <= 13) by (apply Z.div_le_upper_bound; lia). lia.
    + exists d'. split; [| done]. rewrite E, Eb. rewrite fbytes_length by lia. done.
Qed.

(** ** Writing *)

Lemma total_insert_block (l x : list Z) (p i : Z) :
  0 <= p -> p + zlen x <= zlen l -> 0 <= i < zlen l ->
  (take (Z.to_nat p) l ++ x ++ drop (Z.to_nat p + length x) l) !!! Z.to_nat i
  = if (p <=? i) && (i <? p + zlen x) then x !!! Z.to_nat (i - p) else l !!! Z.to_nat i.
Proof.
  unfold zlen. intros Hp Hx Hi. destruct (Z.leb_spec p i); simpl; [destruct (Z.ltb_spec i (p + Z.of_nat (length x))) |].
  - destruct (lookup_lt_is_Some_2 x (Z.to_nat (i - p))) as [y Hy]; [lia |].
    rewrite (list_lookup_total_correct _ _ _ Hy). apply list_lookup_total_correct.
    rewrite lookup_app_r by (rewrite length_take; lia). rewrite length_take.
    rewrite lookup_app_l by lia. rewrite <- Hy. f_equal. lia.
  - destruct (lookup_lt_is_Some_2 l (Z.to_nat i)) as [y Hy]; [lia |].
    rewrite (list_lookup_total_correct _ _ _ Hy). apply list_lookup_total_correct.
    rewrite lookup_app_r by (rewrite length_take; lia). rewrite length_take.
    rewrite lookup_app_r by lia. rewrite lookup_drop, <- Hy. f_equal. lia.
  - destruct (lookup_lt_is_Some_2 l (Z.to_nat i)) as [y Hy]; [lia |].
    rewrite (list_lookup_total_correct _ _ _ Hy). apply list_lookup_total_correct.
    rewrite lookup_app_l by (rewrite length_take; lia). by rewrite lookup_take_lt by lia.
Qed.

(** The block writes of one turn of the write loop. *)
Lemma fbyte_write_block g bm d d' r c x l :
  geometry g (dev_blocks d) -> blocks_ok g bm r -> dev_ok d ->
  0 <= c < MAX_FILE -> c mod BLOCK_SIZE + zlen x <= BLOCK_SIZE -> mapped r (c / BLOCK_SIZE) ->
  splice (dev_block d (direct r !!! Z.to_nat (c / BLOCK_SIZE))) (c mod BLOCK_SIZE) x = Ret l ->
  written d {[direct r !!! Z.to_nat (c / BLOCK_SIZE) := l]} d' ->
  forall y, 0 <= y < MAX_FILE ->
    fbyte d' r y = if (c <=? y) && (y <? c + zlen x) then x !!! Z.to_nat (y - c) else fbyte d r y.
Proof.
  intros Hg Hb Hd Hc Hfit Hm Hs W y Hy. pose proof (block_index c Hc) as Hkc. pose proof (block_index y Hy) as Hky.
  pose proof (mapped_block _ _ _ _ _ Hb Hg Hkc Hm) as Hbr.
  pose proof (block_len d _ Hd Hbr) as Hl. apply splice_Ret in Hs as (Hs1 & Hs2 & ->).
  unfold BLOCK_SIZE in *. pose proof (Z.div_mod c 4096 ltac:(lia)). pose proof (Z.mod_pos_bound c 4096 ltac:(lia)).
  pose proof (Z.div_mod y 4096 ltac:(lia)). pose proof (Z.mod_pos_bound y 4096 ltac:(lia)).
  destruct (decide (y / 4096 = c / 4096)) as [Ek | Ek].
  - unfold fbyte, BLOCK_SIZE. rewrite Ek. unfold mapped in Hm. rewrite (proj2 (Z.eqb_neq _ _) Hm).
    rewrite (written_at _ _ _ _ _ W Hbr (lookup_singleton_eq _ _)). rewrite total_insert_block by lia.
    replace (c mod 4096 <=? y mod 4096) with (c <=? y) by (destruct (Z.leb_spec c y), (Z.leb_spec (c mod 4096) (y mod 4096)); lia).
    replace (y mod 4096 <? c mod 4096 + zlen x) with (y <? c + zlen x)
      by (destruct (Z.ltb_spec y (c + zlen x)), (Z.ltb_spec (y mod 4096) (c mod 4096 + zlen x)); lia).
    replace (y mod 4096 - c mod 4096) with (y - c) by lia. done.
  - replace ((c <=? y) && (y <? c + zlen x)) with false
      by (destruct (Z.leb_spec c y), (Z.ltb_spec y (c + zlen x)); simpl; lia).
    unfold fbyte, BLOCK_SIZE. destruct (Z.eqb_spec (direct r !!! Z.to_nat (y / 4096)) 0) as [| Hne]; [done |].
    rewrite (written_other _ _ _ _ W); [done | by apply (mapped_block g bm) |].
    apply lookup_singleton_ne. intros E. apply Ek.
    destruct (direct_at r _ (bk_len _ _ _ Hb) Hkc) as [E1 _]. destruct (direct_at r _ (bk_len _ _ _ Hb) Hky) as [E2 _].
    rewrite <- E in E2. pose proof (bk_inj _ _ _ Hb _ _ _ E2 E1 Hm). lia.
Qed.

Lemma write_loop_spec fuel s r g bm c buf :
  dev_ok (dev s) -> geometry g (dev_blocks (dev s)) -> blocks_ok g bm r -> Forall byte_ok buf ->
  0 <= c -> c + zlen buf <= MAX_FILE ->
  (forall k, c / BLOCK_SIZE <= k < div_ceil (c + zlen buf) BLOCK_SIZE -> mapped r k) ->
  (0 < zlen buf -> div_ceil (c + zlen buf) BLOCK_SIZE - c / BLOCK_SIZE <= Z.of_nat fuel) ->
  exists d' w, write_loop fuel r c buf s = Ret (Ok tt, with_dev s d') /\ written (dev s) w d' /\
    (forall b, is_Some (w !! b) -> b ≠ 0 /\ b ∈ direct r) /\
    (forall y, 0 <= y < MAX_FILE ->
      fbyte d' r y = if (c <=? y) && (y <? c + zlen buf) then buf !!! Z.to_nat (y - c) else fbyte (dev s) r y).
Proof.
  revert s c buf. induction fuel as [| fuel IH]; intros s c buf Hd Hg Hb Hby Hc He Hm Hf;
    (destruct (decide (buf = [])) as [-> | Hne];
      [exists (dev s), ∅; split_and!; [by destruct s | by apply written_refl | intros b [? Hx]; by rewrite lookup_empty in Hx |];
       intros y Hy; change (zlen (@nil Z)) with 0; destruct (Z.leb_spec c y), (Z.ltb_spec y (c + 0)); simpl; (done || lia) |]).
  { assert (0 < zlen buf) by (unfold zlen; destruct buf; [done | simpl; lia]).
    destruct (blocks_left c (c + zlen buf) 0 ltac:(lia) ltac:(lia) (Hf ltac:(lia))) as (? & [=] & _). }
  assert (0 < zlen buf) as Hpos by (unfold zlen; destruct buf; [done | simpl; lia]).
  destruct (blocks_left c (c + zlen buf) (S fuel) ltac:(lia) ltac:(lia) (Hf ltac:(lia))) as (f' & [= <-] & Ht).
  cbv zeta in Ht. replace (c + zlen buf - c) with (zlen buf) in Ht by lia.
  set (t := Z.min (BLOCK_SIZE - c mod BLOCK_SIZE) (zlen buf)) in *. destruct Ht as (Ht1 & Ht2 & Ht3 & Ht4).
  pose proof (block_index c ltac:(lia)) as Hk. destruct (direct_at r _ (bk_len _ _ _ Hb) Hk) as [Ed Ei].
  assert (mapped r (c / BLOCK_SIZE)) as Hmap.
  { apply Hm. split; [lia |]. unfold div_ceil, BLOCK_SIZE in *. apply Z.lt_le_trans with (c / 4096 + 1); [lia |].
    replace (c / 4096 + 1) with ((c + 1 * 4096) / 4096) by (rewrite Z.div_add; lia). apply Z.div_le_mono; lia. }
  pose proof (mapped_block _ _ _ _ _ Hb Hg Hk Hmap) as Hbr.
  destruct (read_block_spec s _ Hd Hbr) as (d1 & E1 & W1).
  set (x := take (Z.to_nat t) buf). assert (zlen x = t) as Hxl by (unfold x, zlen in *; rewrite length_take; lia).
  set (blk := direct r !!! Z.to_nat (c / BLOCK_SIZE)) in *.
  destruct (splice (dev_block (dev s) blk) (c mod BLOCK_SIZE) x) as [l | | |] eqn:Es;
    [| unfold splice in Es; revert Es; rewrite block_len by done; pose proof (Z.mod_pos_bound c BLOCK_SIZE ltac:(done));
       zcases; simpl; (discriminate || lia) ..].
  pose proof (splice_length _ _ _ _ Es) as Hll. rewrite block_len in Hll by done.
  destruct (write_block_spec (with_dev s d1) blk l) as (d2 & E2 & W2);
    [apply (wr_ok _ _ _ W1) | simpl; by rewrite (wr_count _ _ _ W1) | done | |].
  { apply splice_Ret in Es as (_ & _ & ->). rewrite !Forall_app. pose proof (block_bytes _ _ Hd Hbr).
    split_and!; [by apply Forall_take | by apply Forall_take | by apply Forall_drop]. }
  pose proof (written_read _ _ _ _ W1 W2) as W.
  destruct (IH (with_dev s d2) (c + t) (drop (Z.to_nat t) buf)) as (d3 & w & E3 & W3 & Hw3 & Hy3).
  - apply (wr_ok _ _ _ W).
  - simpl. by rewrite (wr_count _ _ _ W).
  - done.
  - by apply Forall_drop.
  - lia.
  - unfold zlen in *. rewrite length_drop. lia.
  - unfold zlen in *. rewrite length_drop. replace (c + t + Z.of_nat (length buf - Z.to_nat t)) with (c + Z.of_nat (length buf)) by lia.
    intros k Hk'. apply Hm. split; [| lia].
    apply Z.le_trans with ((c + t) / BLOCK_SIZE); [apply Z.div_le_mono; [done | lia] | lia].
  - unfold zlen in *. rewrite length_drop. replace (c + t + Z.of_nat (length buf - Z.to_nat t)) with (c + Z.of_nat (length buf)) by lia.
    intros ?. apply Ht4. lia.
  - exists d3, (w ∪ {[blk := l]}). split_and!.
    + cbn [write_loop]. destruct buf as [| b0 buf']; [done |]. unfold st_bind at 1, st_lift. rewrite Ei. simpl.
      unfold st_try at 1, st_bind at 1. fold blk. rewrite E1. cbn [obind].
      fold t. fold x. unfold st_bind at 1. rewrite Es. cbn [obind].
      unfold st_try at 1, st_bind at 1. rewrite E2. exact E3.
    + by apply (written_trans _ _ _ _ _ W W3).
    + intros b. rewrite lookup_union_is_Some. intros [Hb' | Hb']; [by apply Hw3 |].
      apply lookup_singleton_is_Some in Hb' as <-. split; [done |]. by eapply list_elem_of_lookup_2.
    + intros y Hy. rewrite Hy3 by done. simpl.
      rewrite (fbyte_write_block g bm (dev s) d2 r c x l Hg Hb Hd) by (done || lia). rewrite Hxl.
      unfold zlen in *. rewrite length_drop.
      replace (c + t + Z.of_nat (length buf - Z.to_nat t)) with (c + Z.of_nat (length buf)) by lia.
      destruct (Z.leb_spec (c + t) y), (Z.ltb_spec y (c + Z.of_nat (length buf))), (Z.leb_spec c y), (Z.ltb_spec y (c + t));
        simpl; try (done || lia).
      * rewrite !list_lookup_total_alt, lookup_drop. do 2 f_equal. lia.
      * unfold x. rewrite !list_lookup_total_alt, lookup_take_lt by lia. done.
Qed.

End File.
