(* ===== verification/PondGrow.v ===== *)
(** * PondFS: growing and writing a file

    [alloc_missing] and [write_file_at]: which blocks they take, that they
    touch nothing else, and the bytes of the file afterwards. *)

From S2P Require Import Prelude Bytes Bitmap Inode Block PondLayout PondFs PondDisk PondFile.

Section Grow.
  Context {D : Type} {BD : BlockDevice D} {DK : Disk D} {PD : Padding}.
  Implicit Types (d : D) (s : Pond D) (r : RawInode) (w : gmap Z (list Z)).

Definition in_bitmap (g : Superblock) (b : Z) : Prop := bitmap_start g <= b < bitmap_start g + bitmap_blocks g.
Definition in_data (g : Superblock) (b : Z) : Prop := data_start g <= b < total_blocks g.
Definition block_free (g : Superblock) (bm : list Z) (b : Z) : Prop := bit_at bm (b - data_start g) = false.

(** Everything the lower layers need of the mounted state. *)
Record disk_ok s : Prop := {
  dk_dev : dev_ok (dev s);
  dk_geo : geometry (sb s) (dev_blocks (dev s));
  dk_bm : bitmap_ok (dev s) (sb s) (bitmap s)
}.

(** [s'] is [s] with only the device and the bitmap changed. *)
Definition same_rest s s' : Prop := s' = with_dev (with_bitmap s (bitmap s')) (dev s').

(** [r'] has taken more blocks than [r] and is otherwise the same file. *)
Record grows s r s' r' : Prop := {
  gr_rest : same_rest s s';
  gr_ok : disk_ok s';
  gr_written : exists w, written (dev s) w (dev s') /\
    forall b, is_Some (w !! b) -> in_bitmap (sb s) b \/ (in_data (sb s) b /\ block_free (sb s) (bitmap s) b);
  gr_bits : forall j, 0 <= j -> bit_at (bitmap s) j = true -> bit_at (bitmap s') j = true;
  gr_len : length (direct r) = 12%nat;
  gr_raw : r' = set_direct r (direct r');
  gr_blocks : blocks_ok (sb s) (bitmap s') r';
  gr_direct : forall k b, direct r !! k = Some b -> b ≠ 0 -> direct r' !! k = Some b;
  gr_fresh : forall k b, direct r' !! k = Some b -> b ≠ 0 -> direct r !! k = Some b \/
    (direct r !! k = Some 0 /\ in_data (sb s) b /\ block_free (sb s) (bitmap s) b);
  gr_bytes : forall x, 0 <= x < MAX_FILE -> fbyte (dev s') r' x = fbyte (dev s) r x
}.

Lemma same_rest_trans s s1 s2 : same_rest s s1 -> same_rest s1 s2 -> same_rest s s2.
Proof. unfold same_rest. intros -> H. by rewrite H. Qed.

Lemma grows_refl s r : disk_ok s -> blocks_ok (sb s) (bitmap s) r -> grows s r s r.
Proof.
  intros Hs Hb. split; try done.
  - unfold same_rest. by destruct s.
  - exists ∅. split; [apply written_refl, Hs |]. intros b [? E]. by rewrite lookup_empty in E.
  - apply Hb.
  - by destruct r.
  - auto.
Qed.

Lemma grows_trans s r s1 r1 s2 r2 : grows s r s1 r1 -> grows s1 r1 s2 r2 -> grows s r s2 r2.
Proof.
  intros G1 G2. assert (sb s1 = sb s) as Esb by (rewrite (gr_rest _ _ _ _ G1); done).
  assert (forall b, in_data (sb s) b -> block_free (sb s) (bitmap s1) b -> block_free (sb s) (bitmap s) b) as Hfree.
  { unfold block_free, in_data. intros b Hr Hb. destruct (bit_at (bitmap s) (b - data_start (sb s))) eqn:E; [| done].
    apply (gr_bits _ _ _ _ G1) in E; [congruence | lia]. }
  destruct G1 as [R1 K1 (w1 & W1 & C1) B1 L1 A1 O1 D1 F1 Y1], G2 as [R2 K2 (w2 & W2 & C2) B2 L2 A2 O2 D2 F2 Y2].
  rewrite Esb in *. split.
  - by eapply same_rest_trans.
  - done.
  - exists (w2 ∪ w1). split; [by eapply written_trans |]. intros b. rewrite lookup_union_is_Some.
    intros [[Hb | [Hr Hb]]%C2 | Hb]; [by left | right; auto | by apply C1].
  - auto.
  - done.
  - rewrite A2, A1. done.
  - done.
  - eauto.
  - intros k b Hk Hb. destruct (F2 k b Hk Hb) as [Hk1 | (Hk1 & Hr & Hf)]; [by apply F1 |].
    right. split; [| auto]. destruct (direct r !! k) as [b0 |] eqn:E.
    + destruct (decide (b0 = 0)) as [-> |]; [done |]. rewrite (D1 _ _ E) in Hk1 by done. congruence.
    + apply lookup_ge_None in E. apply lookup_lt_Some in Hk1. rewrite (bk_len _ _ _ O1) in Hk1. lia.
  - intros x Hx. rewrite Y2, Y1 by done. done.
Qed.

(** *** One more block *)

Lemma zero_block_ok : zlen zero_block = BLOCK_SIZE /\ Forall byte_ok zero_block.
Proof. split; [unfold zlen, zero_block; by rewrite length_replicate | apply Forall_replicate; unfold byte_ok; lia]. Qed.

Lemma bitmap_ok_frame d w d' g bm :
  bitmap_ok d g bm -> geometry g (dev_blocks d) -> written d w d' ->
  (forall b, b = 0 \/ in_bitmap g b -> w !! b = None) -> bitmap_ok d' g bm.
Proof.
  intros [B1 B2 B3 B4] Hg W Hw. destruct Hg as [_ _ Gb Gt Gd _ _].
  split; [done | done | intros k Hk | rewrite (written_other _ _ _ _ W); [done | lia | apply Hw; by left]].
  rewrite (written_other _ _ _ _ W); [by apply B3 | lia |]. apply Hw. right. unfold in_bitmap. lia.
Qed.

(** Taking a block, zeroing it and entering it into the inode. *)
Lemma took_grows s r k i s1 d2 :
  disk_ok s -> blocks_ok (sb s) (bitmap s) r -> 0 <= k < 12 -> direct r !!! Z.to_nat k = 0 ->
  took s i (Ok (data_start (sb s) + i)) s1 ->
  written (dev s1) {[data_start (sb s) + i := zero_block]} d2 ->
  grows s r (with_dev s1 d2) (set_direct r (<[Z.to_nat k := data_start (sb s) + i]> (direct r))).
Proof.
  intros [Hd Hg Hbm] Hb Hk H0 (Hi & Hfree & _ & d1 & bm' & blk & -> & Hbm' & W1 & Hbits) W2. simpl in W2.
  set (nb := data_start (sb s) + i) in *. pose proof Hg as [_ _ Gb Gt Gd _ _].
  assert (data_start (sb s) <= nb < total_blocks (sb s)) as Hnb by (unfold nb, data_blocks in *; lia).
  pose proof (written_trans _ _ _ _ _ W1 W2) as W.
  assert (in_bitmap (sb s) (bitmap_block (sb s) i)) as Hinb by (by destruct (bit_range _ _ _ Hg Hi) as (_ & _ & ? & _)).
  destruct (direct_at r k (bk_len _ _ _ Hb) Hk) as [Ek _]. rewrite H0 in Ek.
  assert (forall b l, direct r !! l = Some b -> b ≠ 0 -> b ≠ nb) as Hnew.
  { intros b l Hl Hb0 ->. destruct (bk_range _ _ _ Hb _ _ Hl Hb0) as [_ Hbit].
    unfold nb in Hbit. replace (data_start (sb s) + i - data_start (sb s)) with i in Hbit by lia. congruence. }
  assert (forall l b, <[Z.to_nat k := nb]> (direct r) !! l = Some b -> b ≠ 0 ->
    (l = Z.to_nat k /\ b = nb) \/ (l ≠ Z.to_nat k /\ direct r !! l = Some b)) as Hins.
  { intros l b Hl Hb0. apply list_lookup_insert_Some in Hl as [(-> & <- & _) | [? ?]]; auto. }
  split; simpl.
  - done.
  - split; simpl; [by apply (wr_ok _ _ _ W2) | by rewrite (wr_count _ _ _ W) |].
    apply (bitmap_ok_frame d1 {[nb := zero_block]}); [done | by rewrite (wr_count _ _ _ W1) | done |].
    intros b Hbb. apply lookup_singleton_ne. unfold in_bitmap in Hbb. lia.
  - eexists. split; [exact W |]. intros b. rewrite lookup_union_is_Some.
    intros [E | E]; apply lookup_singleton_is_Some in E as <-; [right | by left].
    split; [exact Hnb |]. unfold block_free, nb. by replace (data_start (sb s) + i - data_start (sb s)) with i by lia.
  - intros j Hj Hbit. rewrite Hbits by done. rewrite Hbit. apply orb_true_r.
  - apply Hb.
  - done.
  - split; simpl.
    + rewrite length_insert. apply Hb.
    + intros l b Hl Hb0. destruct (Hins l b Hl Hb0) as [[_ ->] | [_ Hl']].
      * split; [done |]. unfold nb. replace (data_start (sb s) + i - data_start (sb s)) with i by lia.
        rewrite Hbits by lia. by rewrite Z.eqb_refl.
      * destruct (bk_range _ _ _ Hb _ _ Hl' Hb0) as [Hr Hbit]. split; [done |]. rewrite Hbits by lia.
        rewrite Hbit. apply orb_true_r.
    + intros l m b Hl Hm Hb0. destruct (Hins l b Hl Hb0) as [[-> ->] | [? Hl']], (Hins m _ Hm Hb0) as [[-> E] | [? Hm']].
      * done.
      * exfalso. by apply (Hnew _ _ Hm').
      * subst b. exfalso. by apply (Hnew _ _ Hl').
      * by apply (bk_inj _ _ _ Hb _ _ b).
  - intros l b Hl Hb0. rewrite list_lookup_insert_ne; [done |]. intros <-. congruence.
  - intros l b Hl Hb0. destruct (Hins l b Hl Hb0) as [[-> ->] | [_ Hl']]; [| by left].
    right. split; [done |]. split; [done |]. unfold block_free, nb. by replace (data_start (sb s) + i - data_start (sb s)) with i by lia.
  - intros x Hx. pose proof (block_index x Hx) as Hkx. destruct (decide (x / BLOCK_SIZE = k)) as [Ex | Ex].
    + unfold fbyte. simpl. rewrite Ex, H0. rewrite list_lookup_total_insert_eq by (rewrite (bk_len _ _ _ Hb); lia).
      rewrite (proj2 (Z.eqb_neq nb 0)) by lia. rewrite Z.eqb_refl.
      rewrite (written_at _ _ _ _ zero_block W2); [| rewrite (wr_count _ _ _ W1); lia | apply lookup_singleton_eq].
      unfold zero_block. apply lookup_total_replicate_2. unfold BLOCK_SIZE. pose proof (Z.mod_pos_bound x 4096). lia.
    + transitivity (fbyte d2 r x).
      { unfold fbyte. simpl. rewrite list_lookup_total_insert_ne by lia. done. }
      apply (fbyte_frame (sb s) (bitmap s) (dev s) _ d2 r x W Hg Hb Hx). intros l b Hl Hb0.
      apply lookup_union_None. split; apply lookup_singleton_ne.
      * intros ->. by apply (Hnew _ _ Hl).
      * intros <-. destruct (bk_range _ _ _ Hb _ _ Hl Hb0) as [? _]. unfold in_bitmap in Hinb. lia.
Qed.

(** *** All the missing blocks *)

Definition free_blocks s : Z := count_clear (bitmap s) (data_blocks (sb s)).
Definition missing r (lo n : Z) : Z := zlen (filter (fun k => direct r !!! Z.to_nat k = 0) (seqZ lo n)).

Lemma missing_cons r lo n :
  0 < n -> missing r lo n = (if decide (direct r !!! Z.to_nat lo = 0) then 1 else 0) + missing r (lo + 1) (n - 1).
Proof.
  intros Hn. unfold missing. rewrite seqZ_cons by lia. rewrite filter_cons.
  change (Z.succ lo) with (lo + 1). change (Z.pred n) with (n - 1).
  destruct (decide _); unfold zlen; simpl; lia.
Qed.

Lemma missing_nonneg r lo n : 0 <= missing r lo n.
Proof. unfold missing, zlen. lia. Qed.

Lemma missing_set r lo n k b :
  0 <= k < lo -> missing (set_direct r (<[Z.to_nat k := b]> (direct r))) lo n = missing r lo n.
Proof.
  intros Hk. unfold missing. simpl. f_equal.
  assert (forall l : list Z, (forall j, j ∈ l -> lo <= j) ->
    filter (fun j => <[Z.to_nat k := b]> (direct r) !!! Z.to_nat j = 0) l = filter (fun j => direct r !!! Z.to_nat j = 0) l) as Hl.
  { induction l as [| j l IH]; intros Hj; [done |]. rewrite !filter_cons.
    rewrite IH by (intros; apply Hj; by right). pose proof (Hj j ltac:(by left)).
    rewrite list_lookup_total_insert_ne by lia. done. }
  apply Hl. intros j [? _]%elem_of_seqZ. done.
Qed.

(** One turn of the loop on a hole. *)
Lemma alloc_missing_hole s r k ixs :
  disk_ok s -> blocks_ok (sb s) (bitmap s) r -> 0 <= k < 12 -> direct r !!! Z.to_nat k = 0 ->
  (exists s1 b, b ≠ 0 /\ alloc_missing r (k :: ixs) s = alloc_missing (set_direct r (<[Z.to_nat k := b]> (direct r))) ixs s1 /\
     grows s r s1 (set_direct r (<[Z.to_nat k := b]> (direct r))) /\ free_blocks s1 = free_blocks s - 1) \/
  (alloc_missing r (k :: ixs) s = Ret ((Err NoSpace, r), s) /\ free_blocks s = 0).
Proof.
  intros Hs Hb Hk H0. destruct (direct_at r k (bk_len _ _ _ Hb) Hk) as [_ Ei]. rewrite H0 in Ei.
  assert (alloc_missing r (k :: ixs) s =
    (let* nb := alloc_data_block in
     match nb with
     | Err e => st_ret (Err e, r)
     | Ok nb =>
         let* z := write_block nb zero_block in
         match z with
         | Err e => st_ret (Err e, r)
         | Ok _ => let* ds := st_lift (upd (direct r) k nb) in alloc_missing (set_direct r ds) ixs
         end
     end) s) as ->.
  { cbn [alloc_missing]. unfold st_bind at 1, st_lift. rewrite Ei. done. }
  destruct (alloc_data_block_spec s (dk_dev _ Hs) (dk_geo _ Hs) (dk_bm _ Hs)) as [(i & res & s1 & E & Ht) | [E Hc]].
  2:{ right. unfold st_bind at 1. rewrite E. done. }
  left. pose proof Ht as (Hi & Hfree & -> & d1 & bm' & blk & Es1 & Hbm' & W1 & Hbits).
  pose proof (dk_geo _ Hs) as [_ _ Gb Gt Gd _ _]. unfold data_blocks in Hi.
  destruct zero_block_ok as [Hz1 Hz2].
  destruct (write_block_spec s1 (data_start (sb s) + i) zero_block) as (d2 & E2 & W2);
    [by rewrite Es1; apply (wr_ok _ _ _ W1) | rewrite Es1; simpl; rewrite (wr_count _ _ _ W1); lia | done | done |].
  exists (with_dev s1 d2), (data_start (sb s) + i). split; [lia |]. split; [| split].
  - unfold st_bind at 1. rewrite E. cbn [obind]. unfold st_bind at 1. rewrite E2. cbn [obind].
    unfold st_bind at 1, st_lift. rewrite upd_in_range by (unfold zlen; rewrite (bk_len _ _ _ Hb); lia). done.
  - by apply took_grows.
  - rewrite Es1. unfold free_blocks. simpl. apply (count_clear_set (bitmap s) bm' _ i); [done | done |].
    intros j Hj. apply Hbits. lia.
Qed.

Lemma alloc_missing_spec (n : nat) s r lo :
  disk_ok s -> blocks_ok (sb s) (bitmap s) r -> 0 <= lo -> lo + Z.of_nat n <= 12 ->
  exists res s' r', alloc_missing r (seqZ lo (Z.of_nat n)) s = Ret ((res, r'), s') /\ grows s r s' r' /\
    (missing r lo (Z.of_nat n) <= free_blocks s <-> res = Ok tt) /\
    match res with
    | Ok _ => forall k, lo <= k < lo + Z.of_nat n -> mapped r' k
    | Err e => e = NoSpace /\ free_blocks s' = 0
    end.
Proof.
  revert s r lo. induction n as [| n IH]; intros s r lo Hs Hb Hlo Hn.
  { exists (Ok tt), s, r. split; [done |]. split; [by apply grows_refl |].
    split; [| lia]. split; [done |]. intros _. unfold missing, free_blocks. rewrite seqZ_nil by lia. unfold count_clear, zlen. simpl. lia. }
  rewrite missing_cons by lia. rewrite seqZ_cons by lia. change (Z.succ lo) with (lo + 1).
  replace (Z.pred (Z.of_nat (S n))) with (Z.of_nat n) by lia. replace (Z.of_nat (S n) - 1) with (Z.of_nat n) by lia.
  pose proof (missing_nonneg r (lo + 1) (Z.of_nat n)).
  assert (forall s1 r1 b, grows s r s1 r1 -> direct r1 !! Z.to_nat lo = Some b -> b ≠ 0 ->
    missing r1 (lo + 1) (Z.of_nat n) = missing r (lo + 1) (Z.of_nat n) -> free_blocks s1 = free_blocks s - (if decide (direct r !!! Z.to_nat lo = 0) then 1 else 0) ->
    exists res s' r', alloc_missing r1 (seqZ (lo + 1) (Z.of_nat n)) s1 = Ret ((res, r'), s') /\ grows s r s' r' /\
      ((if decide (direct r !!! Z.to_nat lo = 0) then 1 else 0) + missing r (lo + 1) (Z.of_nat n) <= free_blocks s <-> res = Ok tt) /\
      match res with
      | Ok _ => forall k, lo <= k < lo + Z.of_nat (S n) -> mapped r' k
      | Err e => e = NoSpace /\ free_blocks s' = 0
      end) as Hgo.
  { intros s1 r1 b G Hlk Hb0 Hmiss Hfree. assert (sb s1 = sb s) as Esb by (rewrite (gr_rest _ _ _ _ G); done).
    destruct (IH s1 r1 (lo + 1)) as (res & s' & r' & E & G' & Hok & Hres);
      [apply G | rewrite Esb; apply G | lia | lia |].
    exists res, s', r'. split; [done |]. split; [by eapply grows_trans |]. split.
    - rewrite <- Hok. lia.
    - destruct res; [| done]. intros k Hk. destruct (decide (k = lo)) as [-> |]; [| apply Hres; lia].
      unfold mapped. rewrite (list_lookup_total_correct _ _ _ (gr_direct _ _ _ _ G' _ _ Hlk Hb0)). done. }
  destruct (direct_at r lo (bk_len _ _ _ Hb) ltac:(lia)) as [Elk Ei].
  destruct (decide (direct r !!! Z.to_nat lo = 0)) as [H0 | H0].
  - destruct (alloc_missing_hole s r lo (seqZ (lo + 1) (Z.of_nat n)) Hs Hb ltac:(lia) H0) as [(s1 & b & Hb0 & E & G & Hf) | [E Hf]].
    + rewrite E. apply (Hgo _ _ b); [done | | done | apply missing_set; lia | done].
      simpl. apply list_lookup_insert_eq. rewrite (bk_len _ _ _ Hb). lia.
    + exists (Err NoSpace), s, r. split; [done |]. split; [by apply grows_refl |].
      split; [split; [lia | done] | done].
  - assert (alloc_missing r (lo :: seqZ (lo + 1) (Z.of_nat n)) s = alloc_missing r (seqZ (lo + 1) (Z.of_nat n)) s) as ->.
    { cbn [alloc_missing]. unfold st_bind at 1, st_lift. rewrite Ei. simpl. by rewrite (proj2 (Z.eqb_neq _ _) H0). }
    apply (Hgo _ _ _ (grows_refl s r Hs Hb) Elk H0); [done | lia].
Qed.

(** ** Writing *)

(** Beyond its size a file is all zeros. *)
Definition zero_tail d r : Prop := forall x, r_size r <= x < MAX_FILE -> fbyte d r x = 0.

(** What a successful write leaves. *)
Record wrote s r (off : Z) (buf : list Z) s' r' : Prop := {
  wt_rest : same_rest s s';
  wt_ok : disk_ok s';
  wt_written : exists w, written (dev s) w (dev s') /\
    forall b, is_Some (w !! b) -> in_bitmap (sb s) b \/
      (in_data (sb s) b /\ (block_free (sb s) (bitmap s) b \/ b ∈ direct r));
  wt_bits : forall j, 0 <= j -> bit_at (bitmap s) j = true -> bit_at (bitmap s') j = true;
  wt_raw : r' = set_size (set_direct r (direct r')) (Z.max (r_size r) (off + zlen buf));
  wt_blocks : blocks_ok (sb s) (bitmap s') r';
  wt_sized : sized r';
  wt_direct : forall k b, direct r !! k = Some b -> b ≠ 0 -> direct r' !! k = Some b;
  wt_fresh : forall k b, direct r' !! k = Some b -> b ≠ 0 -> direct r !! k = Some b \/
    (direct r !! k = Some 0 /\ in_data (sb s) b /\ block_free (sb s) (bitmap s) b);
  wt_bytes : forall y, 0 <= y < MAX_FILE -> fbyte (dev s') r' y
    = if (off <=? y) && (y <? off + zlen buf) then buf !!! Z.to_nat (y - off) else fbyte (dev s) r y
}.

Lemma needed_range e : 0 <= e -> (DIRECT_BLOCKS <? div_ceil e BLOCK_SIZE) = (MAX_FILE <? e).
Proof.
  intros He. unfold MAX_FILE, DIRECT_BLOCKS, div_ceil, BLOCK_SIZE.
  pose proof (Z.div_mod (e + 4096 - 1) 4096 ltac:(lia)). pose proof (Z.mod_pos_bound (e + 4096 - 1) 4096 ltac:(lia)).
  destruct (Z.ltb_spec 12 ((e + 4096 - 1) / 4096)), (Z.ltb_spec (12 * 4096) e); lia.
Qed.

Lemma block_count_nonneg e : 0 <= e -> 0 <= div_ceil e BLOCK_SIZE.
Proof. intros. unfold div_ceil, BLOCK_SIZE. apply Z.div_pos; lia. Qed.

Lemma div_ceil_max a b : div_ceil (Z.max a b) BLOCK_SIZE = Z.max (div_ceil a BLOCK_SIZE) (div_ceil b BLOCK_SIZE).
Proof.
  unfold div_ceil, BLOCK_SIZE. pose proof (Z.div_le_mono (a + 4096 - 1) (b + 4096 - 1) 4096).
  pose proof (Z.div_le_mono (b + 4096 - 1) (a + 4096 - 1) 4096).
  destruct (Z.max_spec a b) as [[? ->] | [? ->]]; lia.
Qed.

(** The bytes after the write, from the bytes after the growth. *)
Lemma content_overwrite d d' r r' off buf :
  0 <= off -> 0 <= r_size r -> r_size r' = Z.max (r_size r) (off + zlen buf) -> r_size r' <= MAX_FILE ->
  zero_tail d r ->
  (forall y, 0 <= y < MAX_FILE ->
     fbyte d' r' y = if (off <=? y) && (y <? off + zlen buf) then buf !!! Z.to_nat (y - off) else fbyte d r y) ->
  content d' r' = overwrite (content d r) off buf /\ zero_tail d' r'.
Proof.
  intros Ho Hs Hs' Hmax Hz Hy. split.
  - pose proof (content_length d r Hs) as Hl.
    apply list_eq_same_length with (n := Z.to_nat (r_size r')).
    + rewrite Hs'. pose proof (overwrite_length (content d r) buf off Ho) as E. rewrite Hl in E. unfold zlen in *. lia.
    + pose proof (content_length d' r' ltac:(lia)). unfold zlen in *. lia.
    + intros i x y Hi Hx Hy'. unfold content, fbytes in Hx. rewrite list_lookup_fmap, lookup_seqZ_lt in Hx by lia.
      simpl in Hx. injection Hx as <-. apply list_lookup_total_correct in Hy'. subst y.
      pose proof (overwrite_at (content d r) buf off (Z.of_nat i) Ho ltac:(rewrite Hl; lia)) as E. rewrite Nat2Z.id in E.
      rewrite E, Z.add_0_l, Hy by lia.
      destruct ((off <=? Z.of_nat i) && (Z.of_nat i <? off + zlen buf)) eqn:Ein; [done |].
      rewrite Hl. destruct (Z.ltb_spec (Z.of_nat i) (r_size r)); [| apply Hz; lia].
      symmetry. apply list_lookup_total_correct. unfold content, fbytes.
      rewrite list_lookup_fmap, lookup_seqZ_lt by lia. simpl. do 2 f_equal; lia.
  - intros x Hx. rewrite Hy by (pose proof (Z.le_max_l (r_size r) (off + zlen buf)); lia).
    destruct (Z.leb_spec off x), (Z.ltb_spec x (off + zlen buf)); simpl; [lia | apply Hz; lia ..].
Qed.

Lemma wrote_content s r off buf s' r' :
  wrote s r off buf s' r' -> 0 <= off -> 0 <= r_size r -> zero_tail (dev s) r ->
  content (dev s') r' = overwrite (content (dev s) r) off buf /\ zero_tail (dev s') r'.
Proof.
  intros H Ho Hs Hz. pose proof (wt_sized _ _ _ _ _ _ H) as [Hs' _].
  apply content_overwrite; [done | done | rewrite (wt_raw _ _ _ _ _ _ H); done | lia | done | apply H].
Qed.

(** [write_file_at] without the arithmetic that cannot fail. *)
Lemma write_file_at_eq s r off buf :
  0 <= off -> off + zlen buf < 2 ^ 64 ->
  write_file_at r off buf s =
    if MAX_FILE <? off + zlen buf then Ret ((Err Unsupported, r), s)
    else (let* (a, r) := alloc_missing r (seqZ 0 (div_ceil (off + zlen buf) BLOCK_SIZE)) in
          match a with
          | Err e => st_ret (Err e, r)
          | Ok _ =>
              let* z := write_loop 14 r off buf in
              match z with
              | Err e => st_ret (Err e, r)
              | Ok _ => st_ret (Ok (zlen buf), if r_size r <? off + zlen buf then set_size r (off + zlen buf) else r)
              end
          end) s.
Proof.
  intros Ho Hf. assert (0 <= zlen buf) by (unfold zlen; lia). unfold write_file_at, st_bind at 1, st_lift.
  rewrite checked_fits by lia. cbn [obind]. rewrite needed_range by lia. by destruct (MAX_FILE <? _).
Qed.

Lemma grown_sized s r s1 r1 r' e :
  grows s r s1 r1 -> sized r -> blocks_ok (sb s) (bitmap s) r -> 0 <= e <= MAX_FILE ->
  direct r' = direct r1 -> r_size r' = Z.max (r_size r) e ->
  (forall k, 0 <= k < div_ceil e BLOCK_SIZE -> mapped r1 k) -> sized r'.
Proof.
  intros G [Hsz Hm] Hb He Edr Esz Hres. split; [lia |]. rewrite Esz, div_ceil_max. intros k Hk. unfold mapped. rewrite Edr.
  destruct (Z.lt_ge_cases k (div_ceil e BLOCK_SIZE)) as [Hlt | Hge]; [apply Hres; lia |].
  assert (k < 12) by (pose proof (needed_range (r_size r) ltac:(lia)) as E; unfold DIRECT_BLOCKS in E;
    rewrite (proj2 (Z.ltb_ge MAX_FILE (r_size r))) in E by lia; apply Z.ltb_ge in E; lia).
  destruct (direct_at r k (bk_len _ _ _ Hb) ltac:(lia)) as [Ek _].
  rewrite (list_lookup_total_correct _ _ _ (gr_direct _ _ _ _ G _ _ Ek (Hm k ltac:(lia)))). apply Hm. lia.
Qed.

(** Growth, then the write to the blocks of the file. *)
Lemma grown_wrote s r off buf s1 r1 d2 w r' :
  grows s r s1 r1 -> blocks_ok (sb s) (bitmap s) r -> written (dev s1) w d2 ->
  (forall b, is_Some (w !! b) -> b ≠ 0 /\ b ∈ direct r1) ->
  (forall y, 0 <= y < MAX_FILE -> fbyte d2 r1 y
    = if (off <=? y) && (y <? off + zlen buf) then buf !!! Z.to_nat (y - off) else fbyte (dev s1) r1 y) ->
  direct r' = direct r1 -> r' = set_size (set_direct r (direct r')) (Z.max (r_size r) (off + zlen buf)) -> sized r' ->
  wrote s r off buf (with_dev s1 d2) r'.
Proof.
  intros G Hb W2 Hw Hy Edr Er' Hsz. assert (sb s1 = sb s) as Esb by (rewrite (gr_rest _ _ _ _ G); done).
  pose proof (gr_ok _ _ _ _ G) as [Hd1 Hg1 Hbm1]. pose proof (gr_blocks _ _ _ _ G) as Hb1. rewrite Esb in Hg1, Hbm1.
  destruct (gr_written _ _ _ _ G) as (w1 & W1 & Hw1). split.
  - rewrite (gr_rest _ _ _ _ G). done.
  - split; simpl; [apply (wr_ok _ _ _ W2) | rewrite Esb, (wr_count _ _ _ W2); done |]. rewrite Esb.
    apply (bitmap_ok_frame (dev s1) w); [done | done | done |]. intros b Hbb.
    destruct (w !! b) eqn:E; [exfalso | done]. destruct (Hw b ltac:(by eexists)) as [Hb0 Hin].
    apply list_elem_of_lookup in Hin as [k Hk]. destruct (bk_range _ _ _ Hb1 _ _ Hk Hb0) as [? _].
    destruct Hg1 as [_ _ Gb Gt Gd _ _]. unfold in_bitmap in Hbb. lia.
  - eexists. split; [exact (written_trans _ _ _ _ _ W1 W2) |]. intros b. rewrite lookup_union_is_Some.
    intros [[Hb0 Hin]%Hw | [? | [? ?]]%Hw1]; [| by left | right; auto]. right.
    apply list_elem_of_lookup in Hin as [k Hk]. destruct (gr_fresh _ _ _ _ G k b Hk Hb0) as [Hk' | (_ & ? & ?)]; [| auto].
    destruct (bk_range _ _ _ Hb _ _ Hk' Hb0) as [? _]. split; [done |]. right. by eapply list_elem_of_lookup_2.
  - apply (gr_bits _ _ _ _ G).
  - done.
  - destruct Hb1 as [L R I]. split; rewrite Edr; done.
  - done.
  - intros k b Hk Hb0. rewrite Edr. by apply (gr_direct _ _ _ _ G).
  - intros k b. rewrite Edr. apply (gr_fresh _ _ _ _ G).
  - intros y Hyr. simpl. assert (fbyte d2 r' y = fbyte d2 r1 y) as -> by (unfold fbyte; by rewrite Edr).
    rewrite Hy by done. by rewrite (gr_bytes _ _ _ _ G) by done.
Qed.

Lemma write_file_at_spec s r off buf :
  disk_ok s -> blocks_ok (sb s) (bitmap s) r -> sized r -> Forall byte_ok buf ->
  0 <= off -> off + zlen buf < 2 ^ 64 ->
  (MAX_FILE < off + zlen buf /\ write_file_at r off buf s = Ret ((Err Unsupported, r), s)) \/
  (off + zlen buf <= MAX_FILE /\ missing r 0 (div_ceil (off + zlen buf) BLOCK_SIZE) <= free_blocks s /\
     exists s' r', write_file_at r off buf s = Ret ((Ok (zlen buf), r'), s') /\ wrote s r off buf s' r') \/
  (off + zlen buf <= MAX_FILE /\ exists s' r', write_file_at r off buf s = Ret ((Err NoSpace, r'), s') /\ grows s r s' r' /\
     free_blocks s' = 0 /\ free_blocks s < missing r 0 (div_ceil (off + zlen buf) BLOCK_SIZE)).
Proof.
  intros Hs Hb Hsz Hby Ho Hf. assert (0 <= zlen buf) by (unfold zlen; lia). rewrite write_file_at_eq by done.
  set (e := off + zlen buf) in *. pose proof (block_count_nonneg e ltac:(lia)) as Hn0. pose proof (needed_range e ltac:(lia)) as Hnr.
  destruct (Z.ltb_spec MAX_FILE e) as [| Hle]; [left; done | right]. apply Z.ltb_ge in Hnr. unfold DIRECT_BLOCKS in Hnr.
  destruct (alloc_missing_spec (Z.to_nat (div_ceil e BLOCK_SIZE)) s r 0 Hs Hb) as (res & s1 & r1 & E1 & G & Hok & Hres);
    [lia | lia |]. rewrite Z2Nat.id in E1, Hok, Hres by lia.
  match goal with |- context [st_bind (alloc_missing r (seqZ 0 _)) ?k s] => set (W := st_bind (alloc_missing r (seqZ 0 (div_ceil e BLOCK_SIZE))) k s) end.
  destruct res as [[] | err].
  2:{ right. destruct Hres as [-> Hf0]. assert (W = Ret ((Err NoSpace, r1), s1)) as -> by (unfold W, st_bind; by rewrite E1).
      split; [done |]. exists s1, r1. do 3 (split; [done |]).
      destruct (Z.lt_ge_cases (free_blocks s) (missing r 0 (div_ceil e BLOCK_SIZE))) as [| Hge]; [done | discriminate (proj1 Hok Hge)]. }
  left. split; [done |]. split; [by apply Hok |]. assert (sb s1 = sb s) as Esb by (rewrite (gr_rest _ _ _ _ G); done).
  pose proof (gr_ok _ _ _ _ G) as [Hd1 Hg1 _]. pose proof (gr_blocks _ _ _ _ G) as Hb1. rewrite Esb in Hg1.
  destruct (write_loop_spec 14 s1 r1 (sb s) (bitmap s1) off buf Hd1 Hg1 Hb1 Hby Ho Hle) as (d2 & w & E2 & W2 & Hw & Hy).
  - intros k Hk. apply Hres. fold e in Hk. pose proof (Z.div_pos off BLOCK_SIZE ltac:(lia) ltac:(done)). lia.
  - intros _. fold e. pose proof (Z.div_pos off BLOCK_SIZE ltac:(lia) ltac:(done)). lia.
  - set (r' := if r_size r1 <? e then set_size r1 e else r1). exists (with_dev s1 d2), r'. split.
    { unfold W, st_bind at 1. rewrite E1. cbn [obind]. unfold st_bind. by rewrite E2. }
    assert (r_size r1 = r_size r) as Es1 by (rewrite (gr_raw _ _ _ _ G); done).
    assert (direct r' = direct r1) as Edr by (unfold r'; by destruct (r_size r1 <? e)).
    assert (r_size r' = Z.max (r_size r) e) as Esz.
    { unfold r'. rewrite Es1. destruct (Z.ltb_spec (r_size r) e); simpl; lia. }
    apply (grown_wrote s r off buf s1 r1 d2 w); [done .. | |].
    + fold e. rewrite Edr, <- (gr_raw _ _ _ _ G), <- Esz. unfold r'. destruct (_ <? e); [done | by destruct r1].
    + apply (grown_sized s r s1 r1 r' e G Hsz Hb ltac:(lia) Edr Esz). intros k Hk. apply Hres. lia.
Qed.

End Grow.
