(* ===== verification/PondDir.v ===== *)
(** * PondFS: directory entries

    The byte format of a directory: what [serialize] writes, [parse_entries]
    reads back. *)

From S2P Require Import Prelude Bytes Utf8 Inode PondLayout PondFs.

(** An entry the format can hold: names are non-empty text of at most 65535
    bytes. *)
Definition entry_ok (e : DirEntry) : Prop :=
  let '(n, k, i) := e in
  n ≠ [] /\ utf8_valid n = true /\ Forall byte_ok n /\ zlen n < 2 ^ 16 /\ 0 <= i < 2 ^ 64.

Definition entry_bytes (pad : list Z) (e : DirEntry) : list Z :=
  let '(n, k, i) := e in
  header_bytes pad (mkDirEntryHeader i (zlen n) (kind_code k)) ++ n ++ replicate (Z.to_nat (- zlen n mod 4)) 0.

(** The bytes of a list of entries, up to the padding of the headers. *)
Inductive encodes : list DirEntry -> list Z -> Prop :=
  | encodes_nil : encodes [] []
  | encodes_cons pad e es b :
      length pad = 4%nat -> Forall byte_ok pad -> entry_ok e -> encodes es b -> encodes (e :: es) (entry_bytes pad e ++ b).

Lemma align4_spec (x : Z) : 0 <= x -> x + 3 < 2 ^ 64 -> align4 x = x + - x mod 4.
Proof.
  intros Hx Hx2. unfold align4.
  assert (Z.land (x + 3) (Z.lxor (2 ^ 64 - 1) 3) = Z.ldiff (x + 3) (Z.ones 2)) as ->.
  { apply Z.bits_inj'. intros j Hj. rewrite Z.land_spec, Z.ldiff_spec, Z.lxor_spec.
    change (2 ^ 64 - 1) with (Z.ones 64). change 3 with (Z.ones 2) at 2.
    destruct (Z.lt_ge_cases j 64).
    - rewrite (Z.ones_spec_low 64 j) by lia. done.
    - rewrite (Z.ones_spec_high 64 j) by lia.
      assert (Z.testbit (x + 3) j = false) as ->; [| done].
      destruct (Z.eq_dec (x + 3) 0) as [-> | ]; [apply Z.testbit_0_l |].
      apply Z.bits_above_log2; [lia |]. apply Z.lt_le_trans with 64; [apply Z.log2_lt_pow2; lia | done]. }
  rewrite Z.ldiff_ones_r by lia. rewrite Z.shiftl_mul_pow2, Z.shiftr_div_pow2 by lia. change (2 ^ 2) with 4.
  pose proof (Z.div_mod (x + 3) 4 ltac:(lia)). pose proof (Z.mod_pos_bound (x + 3) 4 ltac:(lia)).
  pose proof (Z.div_mod (- x) 4 ltac:(lia)). pose proof (Z.mod_pos_bound (- x) 4 ltac:(lia)). lia.
Qed.

Lemma header_bytes_length pad h : length pad = 4%nat -> length (header_bytes pad h) = 16%nat.
Proof. intros Hp. unfold header_bytes. rewrite !length_app, !le_bytes_length, Hp. done. Qed.

Lemma header_of_bytes pad h rest :
  0 <= h_inode h < 2 ^ 64 -> 0 <= h_name_len h < 2 ^ 16 -> 0 <= h_kind h < 2 ^ 16 ->
  header_of (header_bytes pad h ++ rest) = h.
Proof.
  intros H1 H2 H3. destruct h as [i n k]. cbn [h_inode h_name_len h_kind] in *.
  unfold header_of, header_bytes. cbn [h_inode h_name_len h_kind]. rewrite <- !app_assoc.
  f_equal; read_field.
Qed.

Lemma entry_bytes_length pad e :
  length pad = 4%nat -> zlen (entry_bytes pad e) = 16 + zlen e.1.1 + - zlen e.1.1 mod 4.
Proof.
  intros Hp. destruct e as [[n k] i]. unfold entry_bytes, zlen.
  rewrite !length_app, length_replicate, header_bytes_length by done.
  pose proof (Z.mod_pos_bound (- Z.of_nat (length n)) 4 ltac:(lia)). simpl. unfold zlen. lia.
Qed.

Lemma entry_bytes_mod4 pad e : length pad = 4%nat -> zlen (entry_bytes pad e) mod 4 = 0.
Proof.
  intros Hp. rewrite entry_bytes_length by done. set (x := zlen e.1.1).
  pose proof (Z.div_mod (- x) 4 ltac:(lia)). 
  replace (16 + x + - x mod 4) with ((4 - (- x / 4)) * 4) by lia. apply Z.mod_mul. lia.
Qed.

Lemma encodes_mod4 es b : encodes es b -> zlen b mod 4 = 0.
Proof.
  induction 1 as [| pad e es b Hp _ _ _ IH]; [done |]. pose proof (entry_bytes_mod4 pad e Hp) as He.
  unfold zlen in *. rewrite length_app, Nat2Z.inj_add, Z.add_mod, He, IH by lia. done.
Qed.

Lemma kind_code_range k : 0 <= kind_code k < 2 ^ 16.
Proof. destruct k; vm_compute; split; congruence. Qed.

Lemma entry_bytes_ok pad e : Forall byte_ok pad -> entry_ok e -> Forall byte_ok (entry_bytes pad e).
Proof.
  destruct e as [[n k] i]. intros Hp (_ & _ & Hn & _). unfold entry_bytes, header_bytes. rewrite !Forall_app.
  split_and!; try apply le_bytes_ok; [done | done |]. apply Forall_replicate. unfold byte_ok. lia.
Qed.

Lemma encodes_bytes es b : encodes es b -> Forall byte_ok b.
Proof. induction 1; [constructor |]. apply Forall_app. split; [by apply entry_bytes_ok | done]. Qed.

Lemma encodes_entries es b : encodes es b -> Forall entry_ok es.
Proof. induction 1; by constructor. Qed.

Lemma encodes_length es b : encodes es b -> (length es <= length b)%nat.
Proof.
  induction 1 as [| pad e es b Hp _ _ _ IH]; [done |]. pose proof (entry_bytes_length pad e Hp) as Hl.
  pose proof (Z.mod_pos_bound (- zlen e.1.1) 4 ltac:(lia)). unfold zlen in *. rewrite length_app. simpl. lia.
Qed.

Lemma encodes_app es1 es2 b1 b2 : encodes es1 b1 -> encodes es2 b2 -> encodes (es1 ++ es2) (b1 ++ b2).
Proof.
  induction 1 as [| pad e es b Hp Hpb He _ IH]; intros H2; [done |]. rewrite <- app_assoc. simpl.
  constructor; auto.
Qed.

(** ** Parsing *)

(** One turn of the parser at the start of an entry. *)
Lemma parse_entry fuel pre pad e rest acc :
  length pad = 4%nat -> entry_ok e -> zlen pre mod 4 = 0 -> zlen (pre ++ entry_bytes pad e ++ rest) < 2 ^ 63 ->
  parse_entries (S fuel) (pre ++ entry_bytes pad e ++ rest) (zlen pre) acc
  = parse_entries fuel (pre ++ entry_bytes pad e ++ rest) (zlen (pre ++ entry_bytes pad e)) (acc ++ [e]).
Proof.
  intros Hp He Hm Hbig. pose proof (entry_bytes_length pad e Hp) as Hl. destruct e as [[n k] i].
  destruct He as (Hn & Hu & _ & Hs & Hi). cbn [fst] in Hl.
  assert (0 < zlen n) as Hpos by (destruct n; [done | unfold zlen; simpl; lia]).
  pose proof (Z.mod_pos_bound (- zlen n) 4 ltac:(lia)) as Hr.
  set (buf := pre ++ entry_bytes pad (n, k, i) ++ rest) in *.
  assert (zlen buf = zlen pre + zlen (entry_bytes pad (n, k, i)) + zlen rest) as Hbl
    by (unfold buf, zlen; rewrite !length_app; lia).
  assert (0 <= zlen pre /\ 0 <= zlen rest) as [Hpre0 Hrest0] by (unfold zlen; lia).
  cbn [parse_entries]. unfold DIR_ENTRY_HEADER_SIZE. rewrite (proj2 (Z.leb_le _ _)) by lia.
  assert (header_of (drop (Z.to_nat (zlen pre)) buf) = mkDirEntryHeader i (zlen n) (kind_code k)) as ->.
  { unfold buf, zlen. rewrite Nat2Z.id, drop_app_length. unfold entry_bytes. rewrite <- app_assoc.
    apply header_of_bytes; cbn [h_inode h_name_len h_kind]; [done | unfold zlen in *; lia | apply kind_code_range]. }
  cbn [h_inode h_name_len h_kind]. rewrite (proj2 (Z.eqb_neq (zlen n) 0)) by lia.
  rewrite (proj2 (Z.ltb_ge _ _)) by lia.
  assert (slice buf (zlen pre + 16) (zlen n) = Ret n) as ->.
  { apply slice_Ret. split_and!; [lia | lia | lia |]. unfold buf, entry_bytes.
    rewrite <- !app_assoc. rewrite (app_assoc pre). rewrite drop_app_length'.
    - by rewrite take_app_length' by (unfold zlen; lia).
    - rewrite length_app, header_bytes_length by done. unfold zlen. lia. }
  cbn [obind]. rewrite Hu. cbn [negb].
  assert (align4 (zlen pre + 16 + zlen n) = zlen (pre ++ entry_bytes pad (n, k, i))) as ->.
  { rewrite align4_spec by lia. unfold zlen in *. rewrite length_app, Nat2Z.inj_add, Hl.
    assert (- (Z.of_nat (length pre) + 16 + Z.of_nat (length n)) mod 4 = - Z.of_nat (length n) mod 4) as ->; [| lia].
    replace (- (Z.of_nat (length pre) + 16 + Z.of_nat (length n)))
      with (- Z.of_nat (length n) + (- (Z.of_nat (length pre) / 4) - 4) * 4)
      by (pose proof (Z.div_mod (Z.of_nat (length pre)) 4 ltac:(lia)); lia).
    apply Z.mod_add. lia. }
  destruct k; done.
Qed.

Lemma parse_encoded es b : encodes es b -> forall fuel pre acc,
  zlen pre mod 4 = 0 -> zlen (pre ++ b) < 2 ^ 63 -> (length es <= fuel)%nat ->
  parse_entries fuel (pre ++ b) (zlen pre) acc = Ret (Ok (acc ++ es)).
Proof.
  induction 1 as [| pad e es b Hp _ He Henc IH]; intros fuel pre acc Hm Hbig Hf.
  { rewrite !app_nil_r. destruct fuel; cbn [parse_entries]; unfold DIR_ENTRY_HEADER_SIZE;
      by rewrite (proj2 (Z.leb_gt _ _)) by lia. }
  destruct fuel as [| fuel]; [simpl in Hf; lia |].
  rewrite parse_entry by done. rewrite app_assoc. rewrite IH.
  - by rewrite <- app_assoc.
  - unfold zlen in *. rewrite length_app, Nat2Z.inj_add, Z.add_mod, Hm by lia.
    pose proof (entry_bytes_mod4 pad e Hp) as E. unfold zlen in E. by rewrite E.
  - by rewrite <- app_assoc.
  - simpl in Hf. lia.
Qed.

(** ** Serializing *)

Lemma serialize_encodes `{Padding} (es : list DirEntry) (buf : list Z) :
  Forall entry_ok es -> zlen buf mod 4 = 0 -> exists b, serialize buf es = buf ++ b /\ encodes es b.
Proof.
  intros Hes. revert buf. induction Hes as [| e es He Hes IH]; intros buf Hm; cbn [serialize].
  { exists []. rewrite app_nil_r. split; [done | constructor]. }
  destruct e as [[n k] i]. destruct (pad_bytes_ok (zlen buf)) as [Hp Hpb]. pose proof He as (_ & _ & _ & Hs & _).
  set (pad := pad_bytes (zlen buf)) in *.
  assert (wrap 16 (zlen n) = zlen n) as -> by (apply Z.mod_small; unfold zlen in *; lia).
  assert (pad4 (buf ++ header_bytes pad (mkDirEntryHeader i (zlen n) (kind_code k)) ++ n) = buf ++ entry_bytes pad (n, k, i)) as ->.
  { unfold pad4, entry_bytes. rewrite <- !app_assoc. do 3 f_equal. f_equal. f_equal.
    unfold zlen in *. rewrite !length_app, header_bytes_length by done.
    replace (- Z.of_nat (length buf + (16 + length n)))
      with (- Z.of_nat (length n) + (- (Z.of_nat (length buf) / 4) - 4) * 4)
      by (pose proof (Z.div_mod (Z.of_nat (length buf)) 4 ltac:(lia)); lia).
    apply Z.mod_add. lia. }
  destruct (IH (buf ++ entry_bytes pad (n, k, i))) as (b & E & Henc).
  { unfold zlen in *. rewrite length_app, Nat2Z.inj_add, Z.add_mod, Hm by lia.
    pose proof (entry_bytes_mod4 pad (n, k, i) Hp) as E. unfold zlen in E. by rewrite E. }
  exists (entry_bytes pad (n, k, i) ++ b). split; [by rewrite E, app_assoc | by constructor].
Qed.

Lemma parse_serialize `{Padding} (es : list DirEntry) :
  Forall entry_ok es -> zlen (serialize [] es) < 2 ^ 63 ->
  encodes es (serialize [] es) /\
  parse_entries (length (serialize [] es)) (serialize [] es) 0 [] = Ret (Ok es).
Proof.
  intros Hes Hbig. destruct (serialize_encodes es [] Hes eq_refl) as (b & E & Henc). simpl in E.
  rewrite E in *. split; [done |]. apply (parse_encoded es b Henc (length b) [] []); [done | done |].
  by apply encodes_length in Henc.
Qed.
