(* ===== verification/PondInv.v ===== *)
(** * PondFS: the invariant of a mounted file system

    What holds between calls: the inodes own distinct blocks, the in-memory
    copies agree with the disk up to blocks that were reserved and not yet
    recorded, and directories parse.  The abstract state is read off the disk
    alone, so what an operation is shown to do to it is durable. *)

From S2P Require Import Prelude Bytes Bitmap Inode Block PondLayout PondFs PondDisk PondFile PondGrow PondDir.

(** The fields of an updated state, and nothing else. *)
Ltac psimpl := cbn [dev sb bitmap inode_cache states next_state fs_locked raw_locked with_dev with_bitmap with_cache with_states with_locks].

(** ** The abstract state *)

Inductive pnode : Type := PFile (data : list Z) | PDir (entries : list DirEntry).

Section Inv.
  Context {D : Type} {BD : BlockDevice D} {DK : Disk D} {PD : Padding}.
  Implicit Types (d : D) (s : Pond D) (r q : RawInode) (w : gmap Z (list Z)).

Definition node_of d r : option pnode :=
  if r_kind r =? INODE_KIND_FILE then Some (PFile (content d r))
  else if r_kind r =? INODE_KIND_DIR then
    match parse_entries (length (content d r)) (content d r) 0 [] with Ret (Ok es) => Some (PDir es) | _ => None end
  else None.
Definition disk_node d (g : Superblock) (i : Z) : option pnode := node_of d (disk_raw d g i).

(** ** Invariant *)

Definition in_table (g : Superblock) (b : Z) : Prop :=
  inode_table_start g <= b < inode_table_start g + inode_table_blocks g.
Definition valid_ino (g : Superblock) (i : Z) : Prop := 0 < i < inode_count g.
Definition used s (i : Z) : Prop := valid_ino (sb s) i /\ r_kind (disk_raw (dev s) (sb s) i) ≠ INODE_KIND_UNUSED.

(** The copy of an inode that counts: the cached one, else the disk's. *)
Definition eff s (i : Z) : RawInode :=
  match inode_cache s !! i ≫= fun a => states s !! a with Some x => raw x | None => disk_raw (dev s) (sb s) i end.

(** [q] on the disk and [r] in memory: [r] may have blocks that [q] lacks. *)
Record agrees q r : Prop := {
  ag_kind : r_kind q = r_kind r;
  ag_size : r_size q = r_size r;
  ag_sized : sized q;
  ag_direct : forall k b, direct q !! k = Some b -> b ≠ 0 -> direct r !! k = Some b
}.

Record inode_good d (g : Superblock) (bm : list Z) r q : Prop := {
  ig_raw : raw_ok r;
  ig_raw' : raw_ok q;
  ig_kind : r_kind r = INODE_KIND_FILE \/ r_kind r = INODE_KIND_DIR;
  ig_blocks : blocks_ok g bm r;
  ig_sized : sized r;
  ig_tail : r_kind r = INODE_KIND_FILE -> zero_tail d r;
  ig_agrees : agrees q r
}.

(** A directory holds well-formed entries, each name once, that refer to
    inodes of their kind. *)
Definition dir_good s r (es : list DirEntry) : Prop :=
  encodes es (content (dev s) r) /\ NoDup (es.*1.*1) /\
  forall n k j, (n, k, j) ∈ es -> used s j /\ r_kind (disk_raw (dev s) (sb s) j) = kind_code k.

Record pond_inv s : Prop := {
  pi_disk : disk_ok s;
  pi_cache : forall i a, inode_cache s !! i = Some a -> exists r, states s !! a = Some (mkInodeState i r) /\ used s i;
  pi_next : forall a, is_Some (states s !! a) -> a < next_state s;
  pi_used : forall i, used s i -> inode_good (dev s) (sb s) (bitmap s) (eff s i) (disk_raw (dev s) (sb s) i);
  pi_distinct : forall i j k l b, used s i -> used s j ->
    direct (eff s i) !! k = Some b -> direct (eff s j) !! l = Some b -> b ≠ 0 -> i = j;
  pi_dirs : forall i, used s i -> r_kind (eff s i) = INODE_KIND_DIR -> exists es, dir_good s (eff s i) es
}.

(** ** Reading the abstract state *)

Lemma content_agrees q r d :
  length (direct q) = 12%nat -> agrees q r -> content d q = content d r.
Proof.
  intros Hl [Hk Hsz [Hs Hm] Hd]. unfold content. rewrite <- Hsz. apply fbytes_ext. intros x Hx.
  unfold fbyte. assert (0 <= x / BLOCK_SIZE < div_ceil (r_size q) BLOCK_SIZE) as Hx'.
  { unfold div_ceil, BLOCK_SIZE. split; [apply Z.div_pos; lia |].
    apply Z.lt_le_trans with (x / 4096 + 1); [lia |].
    replace (x / 4096 + 1) with ((x + 1 * 4096) / 4096) by (rewrite Z.div_add; lia). apply Z.div_le_mono; lia. }
  pose proof (Hm _ Hx') as Hmx. pose proof (block_index x ltac:(lia)) as Hk12.
  destruct (direct_at q _ Hl Hk12) as [Eq _].
  by rewrite (list_lookup_total_correct _ _ _ (Hd _ _ Eq Hmx)).
Qed.

Lemma parse_dir es b : encodes es b -> zlen b < 2 ^ 63 -> parse_entries (length b) b 0 [] = Ret (Ok es).
Proof. intros He Hb. apply (parse_encoded es b He (length b) [] []); [done | done | by apply encodes_length in He]. Qed.

Lemma node_of_file d r : r_kind r = INODE_KIND_FILE -> node_of d r = Some (PFile (content d r)).
Proof. intros E. unfold node_of. by rewrite E. Qed.

Lemma node_of_dir d r es :
  r_kind r = INODE_KIND_DIR -> encodes es (content d r) -> sized r -> node_of d r = Some (PDir es).
Proof.
  intros E He [Hs _]. unfold node_of. rewrite E. simpl. rewrite (parse_dir es); [done | done |].
  rewrite content_length by lia. unfold MAX_FILE, DIRECT_BLOCKS, BLOCK_SIZE in Hs. lia.
Qed.

Lemma node_of_agrees q r d :
  length (direct q) = 12%nat -> agrees q r -> node_of d q = node_of d r.
Proof.
  intros Hl Ha. unfold node_of. rewrite (ag_kind _ _ Ha). by rewrite (content_agrees q r d Hl Ha).
Qed.

Lemma disk_node_eff s i : pond_inv s -> used s i -> disk_node (dev s) (sb s) i = node_of (dev s) (eff s i).
Proof.
  intros Hi Hu. destruct (pi_used _ Hi i Hu) as [_ Hq _ Hb _ _ Ha]. unfold disk_node.
  apply node_of_agrees; [apply Hq | done].
Qed.

Lemma eff_cached s i a r : inode_cache s !! i = Some a -> states s !! a = Some (mkInodeState i r) -> eff s i = r.
Proof. intros Hc Hs. unfold eff. rewrite Hc. simpl. by rewrite Hs. Qed.

Lemma eff_uncached s i : inode_cache s !! i = None -> eff s i = disk_raw (dev s) (sb s) i.
Proof. intros Hc. unfold eff. by rewrite Hc. Qed.

(** Locks and reads do not matter. *)
Lemma pond_inv_locks s f l : pond_inv s -> pond_inv (with_locks s f l).
Proof. intros [[A1 A2 A3] B C E F G]. split; [by split | exact B | exact C | exact E | exact F | exact G]. Qed.

(** The parts of a state that the invariant depends on, up to a read of the
    device. *)
Lemma disk_raw_same d d' g i :
  written d ∅ d' -> geometry g (dev_blocks d) -> 0 <= i < inode_count g -> disk_raw d' g i = disk_raw d g i.
Proof.
  intros W Hg Hi. unfold disk_raw. destruct (inode_block_range _ _ _ Hg Hi) as (_ & Hr & _).
  by rewrite (written_same _ _ _ W Hr).
Qed.

Lemma disk_raw_frame d w d' g i :
  written d w d' -> geometry g (dev_blocks d) -> 0 <= i < inode_count g ->
  (forall b, in_table g b -> w !! b = None) -> disk_raw d' g i = disk_raw d g i.
Proof.
  intros W Hg Hi Hw. unfold disk_raw. destruct (inode_block_range _ _ _ Hg Hi) as (Ht & Hr & _).
  by rewrite (written_other _ _ _ _ W Hr (Hw _ Ht)).
Qed.

(** ** Changing one inode *)

(** Blocks that belong to no inode but perhaps [r]. *)
Definition private s r (b : Z) : Prop :=
  in_data (sb s) b /\ (block_free (sb s) (bitmap s) b \/ b ∈ direct r).

Lemma content_frame s w d' r :
  disk_ok s -> written (dev s) w d' -> blocks_ok (sb s) (bitmap s) r -> sized r ->
  (forall k b, direct r !! k = Some b -> b ≠ 0 -> w !! b = None) ->
  content d' r = content (dev s) r /\ (zero_tail (dev s) r -> zero_tail d' r).
Proof.
  intros Hd W Hb [Hs _] Hw. assert (forall x, 0 <= x < MAX_FILE -> fbyte d' r x = fbyte (dev s) r x) as Hf.
  { intros x Hx. apply (fbyte_frame (sb s) (bitmap s) (dev s) w); [done | apply Hd | done | done | done]. }
  split.
  - apply fbytes_ext. intros y Hy. apply Hf. lia.
  - intros Hz x Hx. rewrite Hf by lia. by apply Hz.
Qed.

Lemma blocks_ok_bits g bm bm' r :
  blocks_ok g bm r -> (forall j, 0 <= j -> bit_at bm j = true -> bit_at bm' j = true) -> blocks_ok g bm' r.
Proof.
  intros [L R I] Hbits. split; [done | | done]. intros k b Hk Hb. destruct (R k b Hk Hb) as [Hr Hbit].
  split; [done |]. apply Hbits; [lia | done].
Qed.

(** A used block is not free, and belongs to one inode. *)
Lemma used_block s i k b :
  pond_inv s -> used s i -> direct (eff s i) !! k = Some b -> b ≠ 0 ->
  in_data (sb s) b /\ ~ block_free (sb s) (bitmap s) b.
Proof.
  intros Hi Hu Hk Hb. destruct (bk_range _ _ _ (ig_blocks _ _ _ _ _ (pi_used _ Hi i Hu)) _ _ Hk Hb) as [Hr Hbit].
  split; [done |]. unfold block_free. by rewrite Hbit.
Qed.

(** An inode that none of the written blocks belongs to keeps its content. *)
Lemma other_inode s w d' bm' j :
  pond_inv s -> used s j -> written (dev s) w d' ->
  (forall j0, 0 <= j0 -> bit_at (bitmap s) j0 = true -> bit_at bm' j0 = true) ->
  (forall k b, direct (eff s j) !! k = Some b -> b ≠ 0 -> w !! b = None) ->
  disk_raw d' (sb s) j = disk_raw (dev s) (sb s) j ->
  inode_good d' (sb s) bm' (eff s j) (disk_raw d' (sb s) j) /\
  content d' (eff s j) = content (dev s) (eff s j) /\
  disk_node d' (sb s) j = disk_node (dev s) (sb s) j.
Proof.
  intros Hi Hu W Hbits Hw Hq. destruct (pi_used _ Hi j Hu) as [G1 G2 G3 G4 G5 G6 G7].
  destruct (content_frame s w d' (eff s j) (pi_disk _ Hi) W G4 G5 Hw) as [Hc Hz]. split_and!.
  - rewrite Hq. split; auto. by apply (blocks_ok_bits _ (bitmap s)).
  - done.
  - rewrite (disk_node_eff s j Hi Hu). unfold disk_node. rewrite Hq.
    rewrite (node_of_agrees _ (eff s j) d' ltac:(apply G2) G7).
    unfold node_of. by rewrite Hc.
Qed.

Lemma unused_node s d' j :
  valid_ino (sb s) j -> ~ used s j -> disk_raw d' (sb s) j = disk_raw (dev s) (sb s) j ->
  disk_node d' (sb s) j = disk_node (dev s) (sb s) j.
Proof.
  intros Hv Hn Hq. destruct (decide (r_kind (disk_raw (dev s) (sb s) j) = INODE_KIND_UNUSED)) as [E | E]; [| by destruct Hn].
  unfold disk_node, node_of. by rewrite Hq, E.
Qed.

(** What an operation on the file or directory [i] may have done. *)
Record changes s (i a : Z) r s' r' : Prop := {
  ch_sb : sb s' = sb s;
  ch_cache : inode_cache s' = inode_cache s;
  ch_next : next_state s' = next_state s;
  ch_states : states s' = <[a := mkInodeState i r']> (states s);
  ch_ok : disk_ok s';
  ch_written : exists w, written (dev s) w (dev s') /\ forall b, is_Some (w !! b) -> ~ in_data (sb s) b \/ private s r b;
  ch_others : forall j, 0 <= j < inode_count (sb s) -> j ≠ i ->
    disk_raw (dev s') (sb s) j = disk_raw (dev s) (sb s) j;
  ch_bits : forall j, 0 <= j -> bit_at (bitmap s) j = true -> bit_at (bitmap s') j = true;
  ch_fresh : forall k b, direct r' !! k = Some b -> b ≠ 0 -> b ∈ direct r \/ (in_data (sb s) b /\ block_free (sb s) (bitmap s) b);
  ch_kind : r_kind r' = r_kind r;
  ch_good : inode_good (dev s') (sb s) (bitmap s') r' (disk_raw (dev s') (sb s) i)
}.

Section Change.
  Variables (s : Pond D) (i a : Z) (r : RawInode) (s' : Pond D) (r' : RawInode).
  Hypothesis Hinv : pond_inv s.
  Hypothesis Hcache : inode_cache s !! i = Some a.
  Hypothesis Hstate : states s !! a = Some (mkInodeState i r).
  Hypothesis Hch : changes s i a r s' r'.

Lemma handle_used : used s i.
Proof. by destruct (pi_cache _ Hinv i a Hcache) as (? & _ & ?). Qed.

Lemma changes_kind j : valid_ino (sb s) j -> r_kind (disk_raw (dev s') (sb s) j) = r_kind (disk_raw (dev s) (sb s) j).
Proof.
  intros Hv. destruct (decide (j = i)) as [-> | Hne]; [| rewrite (ch_others _ _ _ _ _ _ Hch); [done | unfold valid_ino in Hv; lia | done]].
  pose proof (ig_agrees _ _ _ _ _ (ch_good _ _ _ _ _ _ Hch)) as Ha'.
  pose proof (ig_agrees _ _ _ _ _ (pi_used _ Hinv i handle_used)) as Ha. rewrite (eff_cached _ _ _ _ Hcache Hstate) in Ha.
  rewrite (ag_kind _ _ Ha'), (ag_kind _ _ Ha). apply Hch.
Qed.

Lemma changes_used j : used s' j <-> used s j.
Proof.
  unfold used. rewrite (ch_sb _ _ _ _ _ _ Hch). split; intros [Hv Hk]; (split; [done |]).
  - by rewrite <- changes_kind.
  - by rewrite changes_kind.
Qed.

Lemma changes_eff j : used s j -> eff s' j = if decide (j = i) then r' else eff s j.
Proof.
  intros [Hv _]. unfold eff. rewrite (ch_cache _ _ _ _ _ _ Hch), (ch_states _ _ _ _ _ _ Hch), (ch_sb _ _ _ _ _ _ Hch).
  destruct (decide (j = i)) as [-> | Hne].
  - rewrite Hcache. simpl. by rewrite lookup_insert_eq.
  - destruct (inode_cache s !! j) as [b |] eqn:E; simpl.
    + destruct (pi_cache _ Hinv j b E) as (q & Hb & _). rewrite lookup_insert_ne by congruence. by rewrite Hb.
    + apply Hch; [unfold valid_ino in Hv; lia | done].
Qed.

(** The blocks of another inode are not written. *)
Lemma changes_apart j : used s j -> j ≠ i -> exists w, written (dev s) w (dev s') /\
  forall k b, direct (eff s j) !! k = Some b -> b ≠ 0 -> w !! b = None.
Proof.
  intros Hu Hne. destruct (ch_written _ _ _ _ _ _ Hch) as (w & W & Hw). exists w. split; [done |].
  intros k b Hk Hb. destruct (w !! b) eqn:E; [exfalso | done].
  destruct (used_block s j k b Hinv Hu Hk Hb) as [Hd Hf].
  destruct (Hw b ltac:(by eexists)) as [? | [_ [? | Hin]]]; [done | done |].
  apply list_elem_of_lookup in Hin as [m Hm]. apply Hne.
  apply (pi_distinct _ Hinv j i k m b Hu handle_used Hk); [| done]. by rewrite (eff_cached _ _ _ _ Hcache Hstate).
Qed.

Lemma changes_other j : used s j -> j ≠ i ->
  inode_good (dev s') (sb s) (bitmap s') (eff s j) (disk_raw (dev s') (sb s) j) /\
  content (dev s') (eff s j) = content (dev s) (eff s j) /\
  disk_node (dev s') (sb s) j = disk_node (dev s) (sb s) j.
Proof.
  intros Hu Hne. destruct (changes_apart j Hu Hne) as (w & W & Hw).
  apply (other_inode s w); [done | done | done | apply Hch | done |].
  apply Hch; [destruct Hu; unfold valid_ino in *; lia | done].
Qed.

Lemma changes_nodes j : valid_ino (sb s) j -> j ≠ i -> disk_node (dev s') (sb s) j = disk_node (dev s) (sb s) j.
Proof.
  intros Hv Hne. destruct (decide (r_kind (disk_raw (dev s) (sb s) j) = INODE_KIND_UNUSED)) as [E | E].
  - apply unused_node; [done | by intros [_ ?] |]. apply Hch; [unfold valid_ino in Hv; lia | done].
  - apply changes_other; [by split | done].
Qed.

Lemma changes_node : disk_node (dev s') (sb s) i = node_of (dev s') r'.
Proof. pose proof (ch_good _ _ _ _ _ _ Hch) as Hg. apply node_of_agrees; apply Hg. Qed.

Lemma changes_distinct j1 j2 k l b :
  used s j1 -> used s j2 -> direct (eff s' j1) !! k = Some b -> direct (eff s' j2) !! l = Some b -> b ≠ 0 -> j1 = j2.
Proof.
  intros H1 H2. rewrite !changes_eff by done. intros Hk Hl Hb.
  assert (forall j k l, used s j -> j ≠ i -> direct r' !! k = Some b -> direct (eff s j) !! l = Some b -> False) as Hno.
  { intros j k0 l0 Hu Hne Hk0 Hl0. destruct (used_block s j l0 b Hinv Hu Hl0 Hb) as [Hd Hf].
    destruct (ch_fresh _ _ _ _ _ _ Hch k0 b Hk0 Hb) as [Hin | [_ ?]]; [| done].
    apply list_elem_of_lookup in Hin as [m Hm]. apply Hne.
    apply (pi_distinct _ Hinv j i l0 m b Hu handle_used Hl0); [| done]. by rewrite (eff_cached _ _ _ _ Hcache Hstate). }
  destruct (decide (j1 = i)) as [-> | N1], (decide (j2 = i)) as [-> | N2]; [done | | | ].
  - destruct (Hno j2 k l H2 N2 Hk Hl).
  - destruct (Hno j1 l k H1 N1 Hl Hk).
  - exact (pi_distinct _ Hinv j1 j2 k l b H1 H2 Hk Hl Hb).
Qed.

Lemma changes_inv :
  (r_kind r' = INODE_KIND_DIR -> exists es, dir_good s' r' es) ->
  pond_inv s' /\ forall j, valid_ino (sb s) j -> j ≠ i -> disk_node (dev s') (sb s) j = disk_node (dev s) (sb s) j.
Proof.
  intros Hdir. split; [| apply changes_nodes]. split.
  - apply Hch.
  - intros j b. rewrite (ch_cache _ _ _ _ _ _ Hch), (ch_states _ _ _ _ _ _ Hch). intros Hc.
    destruct (pi_cache _ Hinv j b Hc) as (q & Hb & Hu). destruct (decide (b = a)) as [-> |].
    + assert (j = i) as -> by congruence. exists r'. rewrite lookup_insert_eq. by rewrite changes_used.
    + exists q. rewrite lookup_insert_ne by done. by rewrite changes_used.
  - intros b. rewrite (ch_next _ _ _ _ _ _ Hch), (ch_states _ _ _ _ _ _ Hch). intros Hb. apply (pi_next _ Hinv).
    destruct (decide (b = a)) as [-> |]; [by eexists | by rewrite lookup_insert_ne in Hb].
  - intros j. rewrite changes_used. intros Hu. rewrite changes_eff, (ch_sb _ _ _ _ _ _ Hch) by done.
    destruct (decide (j = i)) as [-> |]; [apply Hch | by apply changes_other].
  - intros j1 j2 k l b. rewrite !changes_used. apply changes_distinct.
  - intros j. rewrite changes_used. intros Hu. rewrite changes_eff by done.
    destruct (decide (j = i)) as [-> | Hne]; [done |]. intros Hk.
    destruct (pi_dirs _ Hinv j Hu Hk) as (es & He & Hnd & Hes). exists es. split_and!; [| done |].
    + by rewrite (proj1 (proj2 (changes_other j Hu Hne))).
    + intros n k0 j0 Hin. destruct (Hes n k0 j0 Hin) as [Hu0 Hk0]. rewrite changes_used, (ch_sb _ _ _ _ _ _ Hch).
      split; [done |]. rewrite changes_kind; [done | apply Hu0].
Qed.

End Change.

End Inv.
