(* ===== verification/PondOps.v ===== *)
(** * PondFS: the operations that create nothing

    Reading, writing, looking up and listing, against the invariant. *)

From S2P Require Import Prelude Bytes Bitmap Inode Block PondLayout PondFs PondDisk PondFile PondGrow PondDir PondInv.

Section Ops.
  Context {D : Type} {BD : BlockDevice D} {DK : Disk D} {PD : Padding}.
  Implicit Types (d : D) (s : Pond D) (r q : RawInode) (w : gmap Z (list Z)).

(** ** Locks *)

Definition unlocked s : Prop := fs_locked s = false /\ raw_locked s = ∅.

Lemma locked_fs_run {A} (body : PM A) s x s' :
  fs_locked s = false -> body (with_locks s true (raw_locked s)) = Ret (x, s') ->
  locked_fs body s = Ret (x, with_locks s' false (raw_locked s')).
Proof. intros Hl E. unfold locked_fs, st_get, st_modify, st_bind, st_ret. simpl. rewrite Hl. simpl. by rewrite E. Qed.

Lemma locked_raw_run {A} a (body : PM A) s x s' :
  raw_locked s = ∅ -> body (with_locks s (fs_locked s) {[a]}) = Ret (x, s') -> raw_locked s' = {[a]} ->
  locked_raw a body s = Ret (x, with_locks s' (fs_locked s') ∅).
Proof.
  intros Hl E Hr. unfold locked_raw, st_get, st_modify, st_bind, st_ret. simpl. rewrite Hl, decide_False by set_solver. simpl.
  rewrite ?Hl, (right_id_L ∅ (∪)), E. simpl. by rewrite Hr, difference_diag_L.
Qed.

Lemma locked_both_run {A} a (body : PM A) s x s' :
  unlocked s -> body (with_locks s true {[a]}) = Ret (x, s') -> raw_locked s' = {[a]} ->
  locked_fs (locked_raw a body) s = Ret (x, with_locks s' false ∅).
Proof.
  intros [Hf Hr] E Hr'.
  rewrite (locked_fs_run _ s x (with_locks s' (fs_locked s') ∅) Hf); [done |].
  by apply locked_raw_run.
Qed.

Lemma with_locks_same s : unlocked s -> with_locks s false ∅ = s.
Proof. intros [Hf Hr]. destruct s. simpl in *. by subst. Qed.

(** A look at the in-memory copy. *)
Lemma peek_run s a x : unlocked s -> states s !! a = Some x -> locked_raw a (get_state a) s = Ret (x, s).
Proof.
  intros Hu Hs. rewrite (locked_raw_run a _ s x (with_locks s (fs_locked s) {[a]})); [| apply Hu | unfold get_state; simpl; by rewrite Hs | done].
  destruct Hu, s. simpl in *. by subst.
Qed.

(** ** Handles *)

(** [a] is the shared in-memory copy of inode [i]. *)
Definition handle s (a i : Z) : Prop := inode_cache s !! i = Some a.

Section Handle.
  Variables (s : Pond D) (a i : Z).
  Hypothesis Hinv : pond_inv s.
  Hypothesis Hun : unlocked s.
  Hypothesis Ha : handle s a i.

Lemma handle_state : exists r, states s !! a = Some (mkInodeState i r) /\ eff s i = r /\ used s i /\
  inode_good (dev s) (sb s) (bitmap s) r (disk_raw (dev s) (sb s) i) /\ disk_node (dev s) (sb s) i = node_of (dev s) r.
Proof.
  destruct (pi_cache _ Hinv i a Ha) as (r & Hs & Hu). exists r. pose proof (eff_cached s i a r Ha Hs) as E.
  do 3 (split; [done |]). rewrite <- E. split; [by apply (pi_used _ Hinv) | by apply disk_node_eff].
Qed.

(** A file or a directory, by the kind of the in-memory copy. *)
Lemma handle_cases : exists r, states s !! a = Some (mkInodeState i r) /\ eff s i = r /\ used s i /\
  inode_good (dev s) (sb s) (bitmap s) r (disk_raw (dev s) (sb s) i) /\
  ((r_kind r = INODE_KIND_FILE /\ disk_node (dev s) (sb s) i = Some (PFile (content (dev s) r))) \/
   (r_kind r = INODE_KIND_DIR /\ exists es, dir_good s r es /\ disk_node (dev s) (sb s) i = Some (PDir es))).
Proof.
  destruct handle_state as (r & Hs & E & Hu & Hg & Hn). exists r. do 4 (split; [done |]).
  destruct (ig_kind _ _ _ _ _ Hg) as [Hk | Hk]; [left | right]; (split; [done |]); rewrite Hn.
  - by apply node_of_file.
  - destruct (pi_dirs _ Hinv i Hu) as (es & Hd); [by rewrite E |]. rewrite E in Hd. exists es. split; [done |].
    apply node_of_dir; [done | apply Hd | apply Hg].
Qed.

End Handle.

(** ** Reads of the device *)

Lemma pond_inv_read s d' : pond_inv s -> written (dev s) ∅ d' ->
  pond_inv (with_dev s d') /\ forall j, valid_ino (sb s) j -> disk_node d' (sb s) j = disk_node (dev s) (sb s) j.
Proof.
  intros Hi W. pose proof (pi_disk _ Hi) as [Hd Hg Hb].
  assert (forall j, valid_ino (sb s) j -> disk_raw d' (sb s) j = disk_raw (dev s) (sb s) j) as Hraw.
  { intros j Hj. apply disk_raw_same; [done | done |]. unfold valid_ino in Hj. lia. }
  assert (forall j, used (with_dev s d') j <-> used s j) as Hused.
  { intros j. unfold used. change (sb (with_dev s d')) with (sb s). change (dev (with_dev s d')) with d'.
    split; intros [Hv Hk]; (split; [done |]); [by rewrite <- Hraw | by rewrite Hraw]. }
  assert (forall j, used s j -> eff (with_dev s d') j = eff s j) as Heff.
  { intros j [Hv _]. unfold eff. simpl. destruct (_ ≫= _); [done | by apply Hraw]. }
  assert (forall j, used s j -> inode_good d' (sb s) (bitmap s) (eff s j) (disk_raw d' (sb s) j) /\
    content d' (eff s j) = content (dev s) (eff s j) /\ disk_node d' (sb s) j = disk_node (dev s) (sb s) j) as Hoth.
  { intros j Hu. apply (other_inode s ∅); [done | done | done | done | done |]. apply Hraw, Hu. }
  split.
  - split; simpl.
    + split; simpl; [apply W | by rewrite (wr_count _ _ _ W) | by apply (bitmap_ok_frame (dev s) ∅)].
    + intros j b Hc. destruct (pi_cache _ Hi j b Hc) as (r & ? & ?). exists r. by rewrite Hused.
    + apply Hi.
    + intros j. rewrite Hused. intros Hu. rewrite Heff by done. by apply Hoth.
    + intros j1 j2 k l b. rewrite !Hused. intros H1 H2. rewrite !Heff by done. by apply (pi_distinct _ Hi).
    + intros j. rewrite Hused. intros Hu. rewrite Heff by done. intros Hk. destruct (pi_dirs _ Hi j Hu Hk) as (es & He & Hnd & Hes).
      exists es. split_and!; [simpl; by rewrite (proj1 (proj2 (Hoth j Hu))) | done |].
      intros n k0 j0 Hin. destruct (Hes n k0 j0 Hin) as [Hu0 Hk0]. rewrite Hused. psimpl. rewrite Hraw; [done | apply Hu0].
  - intros j Hv. destruct (decide (r_kind (disk_raw (dev s) (sb s) j) = INODE_KIND_UNUSED)) as [E | E].
    + apply unused_node; [done | by intros [_ ?] | by apply Hraw].
    + apply Hoth. by split.
Qed.

Lemma relock_read s f l d' : unlocked s -> with_locks (with_dev (with_locks s f l) d') false ∅ = with_dev s d'.
Proof. intros [Hf Hr]. destruct s. simpl in *. by subst. Qed.

Lemma relock_same s f l : unlocked s -> with_locks (with_locks s f l) false ∅ = s.
Proof. intros [Hf Hr]. destruct s. simpl in *. by subst. Qed.

(** An operation that leaves every node as it was, and the handles valid. *)
Record keeps s s' : Prop := {
  kp_inv : pond_inv s';
  kp_un : unlocked s';
  kp_sb : sb s' = sb s;
  kp_handles : forall a i, handle s a i -> handle s' a i;
  kp_nodes : forall j, valid_ino (sb s) j -> disk_node (dev s') (sb s) j = disk_node (dev s) (sb s) j
}.

Lemma keeps_read s d' : pond_inv s -> unlocked s -> written (dev s) ∅ d' -> keeps s (with_dev s d').
Proof. intros Hi Hu W. destruct (pond_inv_read s d' Hi W) as [H1 H2]. split; [done | done | done | done | exact H2]. Qed.

Lemma keeps_refl s : pond_inv s -> unlocked s -> keeps s s.
Proof. intros. by split. Qed.

Lemma keeps_trans s s1 s2 : keeps s s1 -> keeps s1 s2 -> keeps s s2.
Proof.
  intros [A1 A2 A3 A4 A5] [B1 B2 B3 B4 B5]. rewrite A3 in *. split; [done | done | congruence | auto |].
  intros j Hj. rewrite B5 by done. by apply A5.
Qed.

(** ** Kind, size and data *)

Definition node_kind (n : pnode) : InodeKind := match n with PFile _ => File | PDir _ => Dir end.

Section Reads.
  Variables (s : Pond D) (a i : Z).
  Hypothesis Hinv : pond_inv s.
  Hypothesis Hun : unlocked s.
  Hypothesis Ha : handle s a i.

Lemma pond_kind_size_run : exists n, disk_node (dev s) (sb s) i = Some n /\
  pond_kind a s = Ret (node_kind n, s) /\ exists z, pond_size a s = Ret (z, s) /\ forall b, n = PFile b -> z = zlen b.
Proof.
  destruct (handle_cases s a i Hinv Ha) as (r & Hs & _ & _ & Hg & Hc).
  assert (forall A (f : InodeState -> A), locked_raw a (let* x := get_state a in st_ret (f x)) s = Ret (f (mkInodeState i r), s)) as Hrun.
  { intros A f. rewrite (locked_raw_run a _ s (f (mkInodeState i r)) (with_locks s (fs_locked s) {[a]}));
      [| apply Hun | unfold st_bind, get_state; simpl; by rewrite Hs | done].
    pose proof Hun as [Hf Hr]. destruct s. simpl in *. by subst. }
  unfold pond_kind, pond_size. rewrite !Hrun. simpl.
  destruct Hc as [[Hk Hn] | [Hk (es & _ & Hn)]]; rewrite Hk; eexists; (split; [exact Hn |]); (split; [done |]); eexists; (split; [done |]).
  - intros b [= <-]. rewrite content_length; [done | apply Hg].
  - intros b [=].
Qed.

Lemma pond_read_at_run off len : 0 <= off -> 0 <= len -> off + len < 2 ^ 64 ->
  exists x s', pond_read_at a off len s = Ret (x, s') /\ keeps s s' /\
    match disk_node (dev s) (sb s) i with
    | Some (PFile b) => let bytes := take (Z.to_nat len) (drop (Z.to_nat off) b) in x = (Ok (zlen bytes), bytes)
    | _ => x = (Err IsDir, [])
    end.
Proof.
  intros Ho Hl Hf. destruct (handle_cases s a i Hinv Ha) as (r & Hs & _ & _ & Hg & Hc). pose proof (pi_disk _ Hinv) as [Hd Hgeo _].
  unfold pond_read_at. destruct Hc as [[Hk Hn] | [Hk (es & _ & Hn)]]; rewrite Hn.
  - destruct (read_file_at_spec (with_locks s true {[a]}) r (sb s) (bitmap s) off len) as (d' & E & W);
      [done | done | apply Hg | apply Hg | done | done | done |].
    eexists _, _. split; [| split; [by apply (keeps_read s d') | done]].
    rewrite <- (relock_read s true {[a]} d' Hun). apply locked_both_run; [done | | done].
    unfold st_bind, get_state. psimpl. rewrite Hs. cbn [obind raw]. rewrite Hk. exact E.
  - eexists _, s. split; [| split; [by apply keeps_refl | done]].
    rewrite <- (relock_same s true {[a]} Hun) at 2. apply locked_both_run; [done | | done].
    unfold st_bind, get_state. psimpl. rewrite Hs. cbn [obind raw]. by rewrite Hk.
Qed.

End Reads.

(** ** Directories *)

Lemma dir_read_entries_run s r es :
  disk_ok s -> blocks_ok (sb s) (bitmap s) r -> sized r -> encodes es (content (dev s) r) ->
  exists d', dir_read_entries r s = Ret (Ok es, with_dev s d') /\ written (dev s) ∅ d'.
Proof.
  intros [Hd Hg _] Hb [Hsz Hm] He. assert (r_size r < 2 ^ 63) by (unfold MAX_FILE, DIRECT_BLOCKS, BLOCK_SIZE in Hsz; lia).
  destruct (read_file_at_spec s r (sb s) (bitmap s) 0 (r_size r)) as (d' & E & W); [done .. | lia | lia | lia |].
  exists d'. split; [| done]. pose proof (content_length (dev s) r ltac:(lia)) as Hl.
  rewrite drop_0, take_ge in E by (unfold zlen in Hl; lia).
  unfold dir_read_entries, st_bind, st_lift. rewrite (proj2 (Z.ltb_lt _ _)) by lia. cbn [obind]. rewrite E. cbn [obind].
  replace (Z.to_nat (r_size r) - length (content (dev s) r))%nat with 0%nat by (unfold zlen in Hl; lia).
  cbn [replicate]. rewrite app_nil_r, (parse_dir es) by (done || lia). done.
Qed.

(** ** The cache *)

(** [s] with inode [j] read into the cache. *)
Definition cached s (j : Z) r : Pond D :=
  with_cache (with_states s (<[next_state s := mkInodeState j r]> (states s)) (next_state s + 1)) (<[j := next_state s]> (inode_cache s)).

Lemma next_fresh s : pond_inv s -> states s !! next_state s = None.
Proof.
  intros Hi. destruct (states s !! next_state s) eqn:E; [| done].
  pose proof (pi_next _ Hi (next_state s) ltac:(by eexists)). lia.
Qed.

(** A new in-memory copy that nothing refers to yet. *)
Lemma pond_inv_new_state s x :
  pond_inv s -> pond_inv (with_states s (<[next_state s := x]> (states s)) (next_state s + 1)).
Proof.
  intros Hi. assert (forall i, eff (with_states s (<[next_state s := x]> (states s)) (next_state s + 1)) i = eff s i) as Heff.
  { intros i. unfold eff. psimpl. destruct (inode_cache s !! i) as [b |] eqn:E; [| done]. simpl.
    destruct (pi_cache _ Hi i b E) as (r & Hb & _). rewrite lookup_insert_ne; [done |]. intros <-. by rewrite next_fresh in Hb. }
  split.
  - destruct (pi_disk _ Hi). by split.
  - intros i b Hc. destruct (pi_cache _ Hi i b Hc) as (r & Hb & Hu). exists r. psimpl.
    rewrite lookup_insert_ne; [done |]. intros <-. by rewrite next_fresh in Hb.
  - intros b. psimpl. destruct (decide (b = next_state s)) as [-> | Hne]; [lia |].
    rewrite lookup_insert_ne by done. intros Hb%(pi_next _ Hi). lia.
  - intros i. rewrite Heff. apply (pi_used _ Hi).
  - intros i1 i2 k l b. rewrite !Heff. apply (pi_distinct _ Hi).
  - intros i. rewrite Heff. apply (pi_dirs _ Hi).
Qed.

(** A copy of what the disk has, entered in the cache. *)
Lemma cache_add_keeps s j c :
  pond_inv s -> unlocked s -> used s j -> inode_cache s !! j = None ->
  states s !! c = Some (mkInodeState j (disk_raw (dev s) (sb s) j)) ->
  keeps s (with_cache s (<[j := c]> (inode_cache s))) /\ handle (with_cache s (<[j := c]> (inode_cache s))) c j.
Proof.
  intros Hi Hun Hu Hj Hc. split; [| apply lookup_insert_eq].
  assert (forall i, eff (with_cache s (<[j := c]> (inode_cache s))) i = eff s i) as Heff.
  { intros i. unfold eff. psimpl. destruct (decide (i = j)) as [-> | Hne]; [| by rewrite lookup_insert_ne].
    rewrite lookup_insert_eq, Hj. simpl. by rewrite Hc. }
  split; [| done | done | | done].
  - split.
    + destruct (pi_disk _ Hi). by split.
    + intros i b. psimpl. destruct (decide (i = j)) as [-> | Hne].
      * rewrite lookup_insert_eq. intros [= <-]. by eexists.
      * rewrite lookup_insert_ne by done. apply (pi_cache _ Hi).
    + apply (pi_next _ Hi).
    + intros i. rewrite Heff. apply (pi_used _ Hi).
    + intros i1 i2 k l b. rewrite !Heff. apply (pi_distinct _ Hi).
    + intros i. rewrite Heff. apply (pi_dirs _ Hi).
  - intros b i. unfold handle. psimpl. intros Hb. rewrite lookup_insert_ne; [done |]. intros <-. congruence.
Qed.

Lemma keeps_new_state s x :
  pond_inv s -> unlocked s -> keeps s (with_states s (<[next_state s := x]> (states s)) (next_state s + 1)).
Proof. intros Hi Hun. split; [by apply pond_inv_new_state | done | done | done | done]. Qed.

Lemma cached_keeps s j : pond_inv s -> unlocked s -> used s j -> inode_cache s !! j = None ->
  keeps s (cached s j (disk_raw (dev s) (sb s) j)) /\ handle (cached s j (disk_raw (dev s) (sb s) j)) (next_state s) j.
Proof.
  intros Hi Hun Hu Hj. pose proof (keeps_new_state s (mkInodeState j (disk_raw (dev s) (sb s) j)) Hi Hun) as K.
  destruct (cache_add_keeps _ j (next_state s) (kp_inv _ _ K) (kp_un _ _ K) Hu Hj) as [K2 Hh]; [psimpl; apply lookup_insert_eq |].
  split; [exact (keeps_trans _ _ _ K K2) | exact Hh].
Qed.

Lemma load_inode_run s j : pond_inv s -> unlocked s -> used s j -> exists d', written (dev s) ∅ d' /\
  load_inode j s = Ret (Ok (next_state s),
    with_states (with_dev s d') (<[next_state s := mkInodeState j (disk_raw (dev s) (sb s) j)]> (states s)) (next_state s + 1)).
Proof.
  intros Hi Hun [Hv _]. pose proof (pi_disk _ Hi) as [Hd Hg _]. unfold valid_ino in Hv.
  destruct (inode_block_range _ _ j Hg ltac:(lia)) as (_ & Hr & Ho & Ho').
  destruct (read_block_spec s (inode_block (sb s) j) Hd Hr) as (d' & E & W). exists d'. split; [done |].
  pose proof (block_len _ _ Hd Hr) as Hlen. pose proof (dev_size_ok _ Hd) as (_ & _ & _ & Hlim). unfold DISK_BLOCK in Hlim.
  unfold load_inode. erewrite st_try_Ok.
  2:{ apply locked_fs_run; [apply Hun |]. unfold st_bind, st_get. psimpl. cbn [obind]. psimpl.
      rewrite (proj2 (Z.eqb_neq j 0)), (proj2 (Z.leb_gt _ _)) by lia. cbn [orb]. unfold arith, st_bind, st_lift.
      change (inode_table_start (sb s) + j / INODES_PER_BLOCK) with (inode_block (sb s) j).
      rewrite checked_fits by lia. done. }
  psimpl. replace (with_locks (with_locks s true (raw_locked s)) false (raw_locked s)) with s by (destruct Hun, s; simpl in *; by subst).
  rewrite (st_try_Ok _ _ _ _ _ E). unfold st_bind at 1, st_lift.
  fold (inode_off j). erewrite (proj2 (slice_Ret _ _ _ _)); [done |]. split_and!; [done | done | lia | done].
Qed.

Lemma get_or_load_run s j : pond_inv s -> unlocked s -> used s j ->
  exists a s', get_or_load j s = Ret (Ok a, s') /\ keeps s s' /\ handle s' a j.
Proof.
  intros Hi Hun Hu. unfold get_or_load.
  assert (locked_fs (let* s := st_get in st_ret (inode_cache s !! j)) s = Ret (inode_cache s !! j, s)) as E.
  { erewrite locked_fs_run; [| apply Hun | done]. destruct Hun, s. simpl in *. by subst. }
  destruct (inode_cache s !! j) as [b |] eqn:Hc; setoid_rewrite (st_bind_step _ _ _ _ _ E).
  - exists b, s. split; [done |]. split; [by apply keeps_refl | done].
  - destruct (load_inode_run s j Hi Hun Hu) as (d' & W & El).
    destruct (pond_inv_read s d' Hi W) as [Hi' Hn']. pose proof (keeps_read s d' Hi Hun W) as K1.
    assert (disk_raw d' (sb s) j = disk_raw (dev s) (sb s) j) as Eraw.
    { destruct Hu as [Hv _]. unfold valid_ino in Hv. apply disk_raw_same; [done | apply (pi_disk _ Hi) | lia]. }
    destruct (cached_keeps (with_dev s d') j Hi' Hun) as [K2 Hh]; [| done |].
    { destruct Hu. split; [done |]. psimpl. by rewrite Eraw. }
    eexists _, _. split; [| split; [exact (keeps_trans _ _ _ K1 K2) | exact Hh]].
    rewrite (st_try_Ok _ _ _ _ _ El). erewrite st_bind_step; [| apply locked_fs_run; [apply Hun | done]].
    unfold ok, st_ret, cached. psimpl. rewrite Eraw. destruct Hun, s. simpl in *. by subst.
Qed.

Section DirReads.
  Variables (s : Pond D) (a i : Z).
  Hypothesis Hinv : pond_inv s.
  Hypothesis Hun : unlocked s.
  Hypothesis Ha : handle s a i.

(** The start of [lookup] and [readdir]. *)
Lemma entries_run {A} (k : list DirEntry -> PM (result A FsError)) :
  let run := (let* x := locked_raw a (get_state a) in
    if negb (r_kind (raw x) =? INODE_KIND_DIR) then err NotDir
    else let? entries := locked_fs (dir_read_entries (raw x)) in k entries) s in
  (exists b, disk_node (dev s) (sb s) i = Some (PFile b) /\ run = Ret (Err NotDir, s)) \/
  (exists es d', disk_node (dev s) (sb s) i = Some (PDir es) /\ dir_good s (eff s i) es /\
     written (dev s) ∅ d' /\ run = k es (with_dev s d')).
Proof.
  intros run. destruct (handle_cases s a i Hinv Ha) as (r & Hs & Er & Hu & Hg & Hc).
  assert (run = (if negb (r_kind r =? INODE_KIND_DIR) then err NotDir
    else let? entries := locked_fs (dir_read_entries r) in k entries) s) as ->.
  { unfold run. by rewrite (st_bind_step _ _ _ _ _ (peek_run s a _ Hun Hs)). }
  destruct Hc as [[Hk Hn] | [Hk (es & Hd & Hn)]]; rewrite Hk; [left; by eexists | right].
  assert (disk_ok (with_locks s true (raw_locked s))) as Hok by (destruct (pi_disk _ Hinv); by split).
  destruct (dir_read_entries_run (with_locks s true (raw_locked s)) r es Hok) as (d' & E & W); [apply Hg | apply Hg | apply Hd |].
  exists es, d'. rewrite Er. do 3 (split; [done |]).
  assert (negb (INODE_KIND_DIR =? INODE_KIND_DIR) = false) as -> by done.
  erewrite st_try_Ok; [| apply locked_fs_run; [apply Hun | exact E]]. psimpl. destruct Hun as [Hf Hr]. f_equal.
  destruct s. simpl in *. by subst.
Qed.

Lemma find_entry_in n es j : find_entry n es = Some j -> exists k, (n, k, j) ∈ es.
Proof.
  induction es as [| [[m k] j'] es IH]; [done |]. simpl. destruct (decide (m = n)) as [-> |].
  - intros [= ->]. exists k. apply elem_of_cons. by left.
  - intros (k' & ?)%IH. exists k'. apply elem_of_cons. by right.
Qed.

Lemma pond_lookup_run n : exists x s', pond_lookup a n s = Ret (x, s') /\ keeps s s' /\
  match disk_node (dev s) (sb s) i with
  | Some (PDir es) => match find_entry n es with Some j => exists b, x = Ok b /\ handle s' b j | None => x = Err NotFound end
  | _ => x = Err NotDir
  end.
Proof.
  destruct (entries_run (fun es => match find_entry n es with Some j => get_or_load j | None => err NotFound end))
    as [(b & Hn & E) | (es & d' & Hn & Hd & W & E)]; fold (pond_lookup a n) in E; setoid_rewrite E; rewrite Hn.
  - eexists _, s. split; [done |]. split; [by apply keeps_refl | done].
  - pose proof (keeps_read s d' Hinv Hun W) as K1. destruct (find_entry n es) as [j |] eqn:Ef.
    + apply find_entry_in in Ef as [k Hin]. destruct Hd as (_ & _ & Hd). destruct (Hd n k j Hin) as [Hu _].
      destruct (get_or_load_run (with_dev s d') j) as (b & s2 & E2 & K2 & Hh); [apply K1 | apply K1 | |].
      { destruct Hu as [Hv Hk]. split; [done |]. psimpl.
        rewrite (disk_raw_same (dev s)); [done | done | apply (pi_disk _ Hinv) | unfold valid_ino in Hv; lia]. }
      exists (Ok b), s2. split; [done |]. split; [exact (keeps_trans _ _ _ K1 K2) |]. by exists b.
    + eexists _, _. split; [done |]. done.
Qed.

Lemma pond_readdir_run : exists x s', pond_readdir a s = Ret (x, s') /\ keeps s s' /\
  match disk_node (dev s) (sb s) i with
  | Some (PDir es) => x = Ok (es.*1)
  | _ => x = Err NotDir
  end.
Proof.
  destruct (entries_run (fun es => ok ((fun e : DirEntry => e.1) <$> es)))
    as [(b & Hn & E) | (es & d' & Hn & Hd & W & E)]; fold (pond_readdir a) in E; setoid_rewrite E; rewrite Hn.
  - eexists _, s. split; [done |]. split; [by apply keeps_refl | done].
  - eexists _, _. split; [done |]. split; [exact (keeps_read s d' Hinv Hun W) | done].
Qed.

End DirReads.

End Ops.
