(* ===== verification/PondWrite.v ===== *)
(** * PondFS: writing and creating *)

From S2P Require Import Prelude Bytes Bitmap Inode Block PondLayout PondFs PondDisk PondFile PondGrow PondDir PondInv PondOps.

Section Write.
  Context {D : Type} {BD : BlockDevice D} {DK : Disk D} {PD : Padding}.
  Implicit Types (d : D) (s : Pond D) (r q : RawInode) (w : gmap Z (list Z)).

(** An operation that changes one node. *)
Record sets s (i : Z) (n : pnode) s' : Prop := {
  st_inv : pond_inv s';
  st_un : unlocked s';
  st_sb : sb s' = sb s;
  st_handles : forall a j, handle s a j -> handle s' a j;
  st_node : disk_node (dev s') (sb s) i = Some n;
  st_nodes : forall j, valid_ino (sb s) j -> j ≠ i -> disk_node (dev s') (sb s) j = disk_node (dev s) (sb s) j
}.

Lemma table_not_data s b : disk_ok s -> in_table (sb s) b -> ~ in_data (sb s) b /\ ~ (b = 0 \/ in_bitmap (sb s) b).
Proof. intros [_ [_ _ Gb Gt Gd _ _] _]. unfold in_table, in_data, in_bitmap. lia. Qed.

Lemma blocks_raw s bm r :
  disk_ok s -> blocks_ok (sb s) bm r -> Forall (fun b => 0 <= b < 2 ^ 64) (direct r).
Proof.
  intros [Hd Hg _] Hb. apply Forall_lookup_2. intros k b Hk. destruct (decide (b = 0)) as [-> |]; [lia |].
  destruct (bk_range _ _ _ Hb k b Hk ltac:(done)) as [Hr _]. pose proof (dev_size_ok _ Hd) as (_ & _ & _ & Hlim).
  unfold DISK_BLOCK in Hlim. destruct Hg as [_ _ Gb Gt Gd _ _]. lia.
Qed.

(** An inode with new blocks and a new size is a valid inode. *)
Lemma raw_ok_update s bm r ds n :
  disk_ok s -> raw_ok r -> blocks_ok (sb s) bm (set_size (set_direct r ds) n) -> 0 <= n <= MAX_FILE ->
  raw_ok (set_size (set_direct r ds) n).
Proof.
  intros Hok (? & ? & ? & ? & ? & ? & ? & ?) Hb Hn. pose proof (blocks_raw s bm _ Hok Hb) as Hf. pose proof (bk_len _ _ _ Hb).
  unfold MAX_FILE, DIRECT_BLOCKS, BLOCK_SIZE in Hn. unfold raw_ok. simpl in *. split_and!; (done || lia).
Qed.

(** The blocks an inode grows into are its own. *)
Lemma fresh_blocks s r r' :
  (forall k b, direct r' !! k = Some b -> b ≠ 0 -> direct r !! k = Some b \/
    (direct r !! k = Some 0 /\ in_data (sb s) b /\ block_free (sb s) (bitmap s) b)) ->
  forall k b, direct r' !! k = Some b -> b ≠ 0 -> b ∈ direct r \/ (in_data (sb s) b /\ block_free (sb s) (bitmap s) b).
Proof.
  intros H k b Hk Hb. destruct (H k b Hk Hb) as [Hin | (_ & ? & ?)]; [left | by right]. by eapply list_elem_of_lookup_2.
Qed.

(** ** Growth that is not recorded on the disk *)

Section Grown.
  Variables (s : Pond D) (a i : Z) (r : RawInode).
  Hypothesis Hinv : pond_inv s.
  Hypothesis Hun : unlocked s.
  Hypothesis Ha : handle s a i.
  Hypothesis Hs : states s !! a = Some (mkInodeState i r).

Lemma grown_changes s1 r' l :
  grows (with_locks s true {[a]}) r s1 r' ->
  changes s i a r (with_locks (with_states s1 (<[a := mkInodeState i r']> (states s1)) (next_state s1)) false l) r'.
Proof.
  intros G. pose proof (handle_used s i a Hinv Ha) as Hu. pose proof (pi_used _ Hinv i Hu) as Hg.
  rewrite (eff_cached s i a r Ha Hs) in Hg. destruct Hg as [G1 G2 G3 G4 G5 G6 G7].
  destruct (gr_written _ _ _ _ G) as (w & W & Hw). pose proof (gr_rest _ _ _ _ G) as Erest.
  pose proof (gr_ok _ _ _ _ G) as [O1 O2 O3]. pose proof (gr_raw _ _ _ _ G) as Er'.
  pose proof (f_equal sb Erest) as Esb. pose proof (f_equal states Erest) as Est. pose proof (f_equal inode_cache Erest) as Ec.
  pose proof (f_equal next_state Erest) as En. cbn in Esb, Est, Ec, En.
  assert (r_kind r' = r_kind r /\ r_size r' = r_size r) as [Ek Ez] by (rewrite Er'; done).
  assert (forall j, 0 <= j < inode_count (sb s) -> disk_raw (dev s1) (sb s) j = disk_raw (dev s) (sb s) j) as Hraw.
  { intros j Hj. apply (disk_raw_frame _ w); [done | apply (pi_disk _ Hinv) | done |]. intros b Hb.
    destruct (table_not_data s b (pi_disk _ Hinv) Hb) as [N1 N2]. destruct (w !! b) eqn:E; [exfalso | done].
    destruct (Hw b ltac:(by eexists)) as [? | [? _]]; [apply N2; by right | done]. }
  split; psimpl; try done.
  - by rewrite Est.
  - exists w. split; [done |]. intros b Hb. destruct (Hw b Hb) as [Hbm | [Hbd Hbf]].
    + left. destruct (dk_geo _ (pi_disk _ Hinv)) as [_ _ Gb Gt Gd _ _]. cbn in Hbm. unfold in_bitmap, in_data in *. lia.
    + right. split; [done | by left].
  - intros j Hj _. by apply Hraw.
  - apply (gr_bits _ _ _ _ G).
  - exact (fresh_blocks s r r' (gr_fresh _ _ _ _ G)).
  - rewrite Hraw by (destruct Hu as [Hv _]; unfold valid_ino in Hv; lia). split; [| done | by rewrite Ek | apply (gr_blocks _ _ _ _ G) | | |].
    + assert (r' = set_size (set_direct r (direct r')) (r_size r)) as -> by (rewrite Er' at 1; done).
      apply (raw_ok_update s (bitmap s1)); [apply Hinv | done | | apply G5].
      assert (set_size (set_direct r (direct r')) (r_size r) = r') as -> by (rewrite Er' at 2; done). apply (gr_blocks _ _ _ _ G).
    + split; [rewrite Ez; apply G5 |]. rewrite Ez. intros k Hk. destruct G5 as [Hsz Hm].
      assert (k < 12) by (pose proof (needed_range (r_size r) ltac:(lia)) as E; unfold DIRECT_BLOCKS in E;
        rewrite (proj2 (Z.ltb_ge MAX_FILE (r_size r))) in E by lia; apply Z.ltb_ge in E; lia).
      destruct (direct_at r k (bk_len _ _ _ G4) ltac:(lia)) as [Ekk _]. unfold mapped.
      rewrite (list_lookup_total_correct _ _ _ (gr_direct _ _ _ _ G _ _ Ekk (Hm k Hk))). by apply Hm.
    + rewrite Ek. intros Hf x Hx. rewrite Ez in Hx. rewrite (gr_bytes _ _ _ _ G) by (destruct G5; lia). by apply G6.
    + destruct G7 as [A1 A2 A3 A4]. split; [congruence | congruence | done |]. intros k b Hk Hb.
      apply (gr_direct _ _ _ _ G); [by apply A4 | done].
Qed.

Lemma grown_content s1 r' :
  grows (with_locks s true {[a]}) r s1 r' -> sized r -> content (dev s1) r' = content (dev s) r.
Proof.
  intros G [Hsz _]. unfold content. rewrite (gr_raw _ _ _ _ G) at 2. simpl. apply fbytes_ext. intros y Hy.
  apply (gr_bytes _ _ _ _ G). lia.
Qed.

Lemma grown_keeps s1 r' :
  grows (with_locks s true {[a]}) r s1 r' ->
  keeps s (with_locks (with_states s1 (<[a := mkInodeState i r']> (states s1)) (next_state s1)) false ∅).
Proof.
  intros G. pose proof (grown_changes s1 r' ∅ G) as Hch.
  match type of Hch with changes _ _ _ _ ?x _ => set (s' := x) in * end.
  pose proof (pi_used _ Hinv i (handle_used s i a Hinv Ha)) as Hg. rewrite (eff_cached s i a r Ha Hs) in Hg.
  assert (content (dev s') r' = content (dev s) r) as Ec by (apply (grown_content s1); [done | apply Hg]).
  assert (r_kind r' = INODE_KIND_DIR -> exists es, dir_good s' r' es) as Hdir.
  { rewrite (ch_kind _ _ _ _ _ _ Hch). intros Hk. pose proof (pi_dirs _ Hinv i (handle_used s i a Hinv Ha)) as Hd.
    rewrite (eff_cached s i a r Ha Hs) in Hd. destruct (Hd Hk) as (es & He & Hnd & Hes). exists es.
    split_and!; [by rewrite Ec | done |]. intros n k j Hin. destruct (Hes n k j Hin) as [Hu Hkj].
    rewrite (changes_used s i a r s' r' Hinv Ha Hs Hch), (ch_sb _ _ _ _ _ _ Hch). split; [done |].
    rewrite (changes_kind s i a r s' r' Hinv Ha Hs Hch); [done | apply Hu]. }
  destruct (changes_inv s i a r s' r' Hinv Ha Hs Hch Hdir) as [Hi' Hnodes].
  split; [done | done | apply Hch | intros b j; unfold handle; by rewrite (ch_cache _ _ _ _ _ _ Hch) |].
  intros j Hj. destruct (decide (j = i)) as [-> | Hne]; [| by apply Hnodes].
  rewrite (changes_node s i a r s' r' Hch), (disk_node_eff s i Hinv (handle_used s i a Hinv Ha)), (eff_cached s i a r Ha Hs).
  unfold node_of. by rewrite Ec, (ch_kind _ _ _ _ _ _ Hch).
Qed.

(** ** A change that is recorded on the disk *)

(** The data is in place and only the inode is to be written. *)
Record prepared s1 r' : Prop := {
  pp_rest : same_rest (with_locks s true {[a]}) s1;
  pp_ok : disk_ok s1;
  pp_written : exists w, written (dev s) w (dev s1) /\ forall b, is_Some (w !! b) -> in_bitmap (sb s) b \/ private s r b;
  pp_bits : forall j, 0 <= j -> bit_at (bitmap s) j = true -> bit_at (bitmap s1) j = true;
  pp_raw : raw_ok r';
  pp_blocks : blocks_ok (sb s) (bitmap s1) r';
  pp_sized : sized r';
  pp_fresh : forall k b, direct r' !! k = Some b -> b ≠ 0 -> b ∈ direct r \/ (in_data (sb s) b /\ block_free (sb s) (bitmap s) b);
  pp_kind : r_kind r' = r_kind r;
  pp_tail : r_kind r' = INODE_KIND_FILE -> zero_tail (dev s1) r'
}.

Lemma agrees_refl r0 : sized r0 -> agrees r0 r0.
Proof. intros. by split. Qed.

Definition stored s1 r' d3 : Pond D :=
  with_locks (with_dev (with_states s1 (<[a := mkInodeState i r']> (states s1)) (next_state s1)) d3) false ∅.

Lemma stored_changes s1 r' d3 (b : list Z) :
  prepared s1 r' -> written (dev s1) {[inode_block (sb s) i := b]} d3 -> disk_raw d3 (sb s) i = r' ->
  (forall j, 0 <= j < inode_count (sb s) -> j ≠ i -> disk_raw d3 (sb s) j = disk_raw (dev s1) (sb s) j) ->
  changes s i a r (stored s1 r' d3) r' /\ content d3 r' = content (dev s1) r'.
Proof.
  intros Hp W3 Hri Hrj. pose proof (handle_used s i a Hinv Ha) as [Hv _]. unfold valid_ino in Hv.
  pose proof (pi_disk _ Hinv) as Hok. pose proof (pp_rest _ _ Hp) as Erest. pose proof (pp_ok _ _ Hp) as Hok1.
  pose proof (f_equal sb Erest) as Esb. pose proof (f_equal states Erest) as Est. pose proof (f_equal inode_cache Erest) as Ec.
  pose proof (f_equal next_state Erest) as En. cbn in Esb, Est, Ec, En.
  destruct (pp_written _ _ Hp) as (w & W & Hw).
  assert (in_table (sb s) (inode_block (sb s) i)) as Htab by (apply (inode_block_range _ _ i (dk_geo _ Hok)); lia).
  destruct (table_not_data s _ Hok Htab) as [N1 N2].
  destruct (content_frame s1 _ d3 r' Hok1 W3) as [Hcont Hz];
    [rewrite Esb; apply Hp | apply Hp | | ].
  { intros k b' Hk Hb'. apply lookup_singleton_ne. intros <-. destruct (bk_range _ _ _ (pp_blocks _ _ Hp) k _ Hk Hb') as [? _]. done. }
  split; [| done]. split; unfold stored; psimpl; try done.
  - by rewrite Est.
  - destruct Hok1 as [O1 O2 O3]. split; psimpl; [apply W3 | by rewrite (wr_count _ _ _ W3) |].
    apply (bitmap_ok_frame (dev s1) {[inode_block (sb s) i := b]}); [done .. |]. rewrite Esb.
    intros b' Hb'. apply lookup_singleton_ne. intros <-. done.
  - eexists. split; [exact (written_trans _ _ _ _ _ W W3) |]. intros b'. rewrite lookup_union_is_Some.
    intros [[? E] | [Hbm | Hpr]%Hw].
    + apply lookup_singleton_Some in E as [<- _]. by left.
    + left. destruct (dk_geo _ Hok) as [_ _ Gb Gt Gd _ _]. unfold in_bitmap, in_data in *. lia.
    + by right.
  - intros j Hj Hne. rewrite Hrj by done. apply (disk_raw_frame _ w); [done | apply Hok | done |]. intros b' Hb'.
    destruct (table_not_data s b' Hok Hb') as [M1 M2]. destruct (w !! b') eqn:E; [exfalso | done].
    destruct (Hw b' ltac:(by eexists)) as [? | [? _]]; [apply M2; by right | done].
  - apply Hp.
  - apply Hp.
  - apply Hp.
  - rewrite Hri. destruct Hp as [_ _ _ _ P5 P6 P7 P8 P9 P10].
    pose proof (ig_kind _ _ _ _ _ (pi_used _ Hinv i (handle_used s i a Hinv Ha))) as Hk.
    rewrite (eff_cached s i a r Ha Hs) in Hk. split; auto; [by rewrite P9 | by apply agrees_refl].
Qed.

(** The run of [write_inode] on what was prepared. *)
Lemma store_run s1 r' : prepared s1 r' -> exists d3 (b : list Z),
  write_inode i r' (with_states s1 (<[a := mkInodeState i r']> (states s1)) (next_state s1))
    = Ret (Ok tt, with_dev (with_states s1 (<[a := mkInodeState i r']> (states s1)) (next_state s1)) d3) /\
  changes s i a r (stored s1 r' d3) r' /\ content d3 r' = content (dev s1) r'.
Proof.
  intros Hp. pose proof (f_equal sb (pp_rest _ _ Hp)) as Esb. cbn in Esb. pose proof (handle_used s i a Hinv Ha) as [Hv _].
  unfold valid_ino in Hv. pose proof (pp_ok _ _ Hp) as [O1 O2 O3].
  destruct (write_inode_spec (with_states s1 (<[a := mkInodeState i r']> (states s1)) (next_state s1)) i r') as (d3 & b & E & W & Hr & Ho);
    [done | done | psimpl; rewrite Esb; lia | apply Hp |]. cbn in W, Hr, Ho. rewrite Esb in W, Hr, Ho.
  exists d3, b. split; [exact E |]. by apply (stored_changes s1 r' d3 b).
Qed.

End Grown.

(** ** [write_at] *)

Lemma wrote_prepared s a i r off buf s1 r' :
  pond_inv s -> handle s a i -> states s !! a = Some (mkInodeState i r) -> r_kind r = INODE_KIND_FILE -> 0 <= off ->
  wrote (with_locks s true {[a]}) r off buf s1 r' ->
  prepared s a r s1 r' /\ content (dev s1) r' = overwrite (content (dev s) r) off buf.
Proof.
  intros Hinv Ha Hs Hk Ho H. pose proof (pi_used _ Hinv i (handle_used s i a Hinv Ha)) as Hg. rewrite (eff_cached s i a r Ha Hs) in Hg.
  destruct Hg as [G1 G2 G3 G4 G5 G6 G7]. destruct (wrote_content _ _ _ _ _ _ H Ho ltac:(apply G5) (G6 Hk)) as [Hc Hz].
  pose proof (wt_raw _ _ _ _ _ _ H) as Er. pose proof (wt_sized _ _ _ _ _ _ H) as Hsz. split; [| done].
  destruct H as [H1 H2 H3 H4 H5 H6 H7 H8 H9 H10]. split; auto.
  - rewrite Er. apply (raw_ok_update s (bitmap s1)); [apply Hinv | done | by rewrite <- Er |].
    rewrite Er in Hsz. apply Hsz.
  - exact (fresh_blocks s r r' H9).
  - by rewrite Er.
Qed.

(** The part of [write_at] after the data is written. *)
Lemma write_at_locked s a i r off buf :
  unlocked s -> states s !! a = Some (mkInodeState i r) -> r_kind r = INODE_KIND_FILE ->
  forall z r1 s1, write_file_at r off buf (with_locks s true {[a]}) = Ret ((z, r1), s1) ->
  states s1 = states s -> raw_locked s1 = {[a]} ->
  let s2 := with_states s1 (<[a := mkInodeState i r1]> (states s)) (next_state s1) in
  match z with
  | Err e => pond_write_at a off buf s = Ret (Err e, with_locks s2 false ∅)
  | Ok n => forall d3, write_inode i r1 s2 = Ret (Ok tt, with_dev s2 d3) ->
      pond_write_at a off buf s = Ret (Ok n, with_locks (with_dev s2 d3) false ∅)
  end.
Proof.
  intros Hun Hs Hk z r1 s1 E Es Hr s2.
  assert (forall x s', (match z with Err e => err e | Ok n => let? _ := write_inode i r1 in ok n end) s2 = Ret (x, s') ->
    raw_locked s' = {[a]} -> pond_write_at a off buf s = Ret (x, with_locks s' false ∅)) as Hrun.
  { intros x s' E' Hr'. apply locked_both_run; [done | | done].
    rewrite (st_bind_step (get_state a) _ _ (with_locks s true {[a]}) (mkInodeState i r)) by (unfold get_state; psimpl; by rewrite Hs).
    cbn [raw ino]. rewrite Hk.
    assert (negb (INODE_KIND_FILE =? INODE_KIND_FILE) = false) as -> by done. rewrite (st_bind_step _ _ _ _ _ E).
    rewrite (st_bind_step (set_raw a r1) _ _ s2 tt); [exact E' |]. unfold set_raw. by rewrite Es, Hs. }
  destruct z as [n | e]; [| by apply Hrun]. intros d3 E3. apply Hrun; [| done]. by rewrite (st_try_Ok _ _ _ _ _ E3).
Qed.

Lemma pond_write_at_run s a i off buf :
  pond_inv s -> unlocked s -> handle s a i -> 0 <= off -> off + zlen buf < 2 ^ 64 -> Forall byte_ok buf ->
  exists x s', pond_write_at a off buf s = Ret (x, s') /\
    match disk_node (dev s) (sb s) i with
    | Some (PFile b) =>
        if MAX_FILE <? off + zlen buf then x = Err Unsupported /\ keeps s s'
        else (x = Ok (zlen buf) /\ sets s i (PFile (overwrite b off buf)) s') \/
             (x = Err NoSpace /\ keeps s s' /\ free_blocks s < missing (eff s i) 0 (div_ceil (off + zlen buf) BLOCK_SIZE))
    | _ => x = Err IsDir /\ keeps s s'
    end.
Proof.
  intros Hinv Hun Ha Ho Hf Hbuf. destruct (handle_cases s a i Hinv Ha) as (r & Hs & Er & Hu & Hg & Hc).
  destruct Hc as [[Hk Hn] | [Hk (es & Hd & Hn)]]; rewrite Hn.
  2:{ exists (Err IsDir), s. split; [| split; [done | by apply keeps_refl]]. rewrite <- (relock_same s true {[a]} Hun) at 2.
      apply locked_both_run; [done | | done]. unfold st_bind, get_state. psimpl. rewrite Hs. cbn [obind raw]. by rewrite Hk. }
  destruct (write_file_at_spec (with_locks s true {[a]}) r off buf) as
    [[Hmax E] | [(Hmax & _ & s1 & r' & E & H) | (Hmax & s1 & r' & E & G & _ & Hfree)]];
    [destruct (pi_disk _ Hinv); by split | apply Hg | apply Hg | done | done | done | | |].
  - rewrite (proj2 (Z.ltb_lt _ _) Hmax). exists (Err Unsupported), s. split; [| split; [done | by apply keeps_refl]].
    rewrite (write_at_locked s a i r off buf Hun Hs Hk _ _ _ E eq_refl eq_refl). psimpl. rewrite insert_id by done.
    destruct Hun, s. simpl in *. by subst.
  - rewrite (proj2 (Z.ltb_ge _ _) Hmax). destruct (wrote_prepared s a i r off buf s1 r' Hinv Ha Hs Hk Ho H) as [Hp Hcont].
    destruct (store_run s a i r Hinv Ha Hs s1 r' Hp) as (d3 & b & E3 & Hch & Hc3).
    exists (Ok (zlen buf)), (stored a i s1 r' d3). split.
    + pose proof (f_equal states (pp_rest _ _ _ _ _ Hp)) as Est. pose proof (f_equal raw_locked (pp_rest _ _ _ _ _ Hp)) as El.
      cbn in Est, El. unfold stored. rewrite Est in *.
      exact (write_at_locked s a i r off buf Hun Hs Hk _ _ _ E Est El d3 E3).
    + left. split; [done |]. destruct (changes_inv s i a r _ r' Hinv Ha Hs Hch) as [Hi' Hnodes].
      { rewrite (ch_kind _ _ _ _ _ _ Hch), Hk. done. }
      split; [done | done | apply Hch | intros c j; unfold handle; by rewrite (ch_cache _ _ _ _ _ _ Hch) | | done].
      rewrite (changes_node s i a r _ r' Hch), node_of_file by (by rewrite (ch_kind _ _ _ _ _ _ Hch)).
      unfold stored. psimpl. by rewrite Hc3, Hcont.
  - rewrite (proj2 (Z.ltb_ge _ _) Hmax). eexists _, _. split; [| right; split; [done |]; split; [exact (grown_keeps s a i r Hinv Ha Hs s1 r' G) |]].
    + pose proof (f_equal states (gr_rest _ _ _ _ G)) as Est. pose proof (f_equal raw_locked (gr_rest _ _ _ _ G)) as El.
      cbn in Est, El. rewrite Est. exact (write_at_locked s a i r off buf Hun Hs Hk _ _ _ E Est El).
    + by rewrite Er.
Qed.

End Write.
