(* ===== verification/PondCreate.v ===== *)
(** * PondFS: creating files and directories *)

From S2P Require Import Prelude Bytes Bitmap Inode Block PondLayout PondFs PondDisk PondFile PondGrow PondDir PondInv PondOps PondWrite.

Section Create.
  Context {D : Type} {BD : BlockDevice D} {DK : Disk D} {PD : Padding}.
  Implicit Types (d : D) (s : Pond D) (r q : RawInode) (w : gmap Z (list Z)).

(** ** Finding an inode *)

Lemma ino_split g b k : 0 <= b -> 0 <= k < 32 ->
  inode_block g (b * 32 + k) = inode_table_start g + b /\ inode_off (b * 32 + k) = k * 128.
Proof.
  intros Hb Hk. unfold inode_block, inode_off, INODES_PER_BLOCK, BLOCK_SIZE, INODE_SIZE. change (4096 / 128) with 32.
  rewrite Z.div_add_l, Z.div_small, Z.add_comm, Z.add_mod, Z.mod_mul, Z.add_0_r, !(Z.mod_small k) by lia. lia.
Qed.

Definition free_ino d (g : Superblock) (j : Z) : Prop := r_kind (disk_raw d g j) = INODE_KIND_UNUSED.

Lemma free_slot_spec d g b (n : nat) k :
  0 <= b -> 0 <= k -> k + Z.of_nat n = 32 -> zlen (dev_block d (inode_table_start g + b)) = BLOCK_SIZE ->
  exists o, free_slot (dev_block d (inode_table_start g + b)) (b * 32) (seqZ k (Z.of_nat n)) = Ret o /\
    match o with
    | Some j => b * 32 <= j < b * 32 + 32 /\ j ≠ 0 /\ free_ino d g j
    | None => forall j, b * 32 + k <= j < b * 32 + 32 -> j ≠ 0 -> ~ free_ino d g j
    end.
Proof.
  intros Hb Hk Hn Hl. revert k Hk Hn. induction n as [| n IH]; intros k Hk Hn.
  { exists None. split; [by rewrite seqZ_nil by lia | intros; lia]. }
  rewrite seqZ_cons by lia. replace (Z.pred (Z.of_nat (S n))) with (Z.of_nat n) by lia.
  destruct (IH (Z.succ k) ltac:(lia) ltac:(lia)) as (o & E & Ho). cbn [free_slot].
  destruct (Z.eqb_spec (b * 32 + k) 0) as [H0 | H0].
  { exists o. split; [done |]. destruct o; [done |]. intros j Hj Hj0. apply Ho; lia. }
  destruct (ino_split g b k Hb ltac:(lia)) as [Eb Eo].
  erewrite (proj2 (slice_Ret _ _ _ _)); [| split_and!; [unfold INODE_SIZE; lia | done | rewrite Hl; unfold INODE_SIZE, BLOCK_SIZE; lia | done]].
  cbn [obind]. assert (raw_of (take (Z.to_nat INODE_SIZE) (drop (Z.to_nat (k * INODE_SIZE)) (dev_block d (inode_table_start g + b))))
    = disk_raw d g (b * 32 + k)) as ->.
  { unfold disk_raw. by rewrite Eb, Eo. }
  destruct (Z.eqb_spec (r_kind (disk_raw d g (b * 32 + k))) INODE_KIND_UNUSED) as [E0 | E0].
  - eexists. split; [done |]. simpl. split_and!; [lia | lia | done | done].
  - exists o. split; [done |]. destruct o; [done |]. intros j Hj Hj0. destruct (decide (j = b * 32 + k)) as [-> |]; [done |].
    apply Ho; [lia | done].
Qed.

Lemma alloc_inode_scan_spec s lo (n : nat) :
  disk_ok s -> 0 <= lo -> lo + Z.of_nat n = inode_table_blocks (sb s) ->
  exists x d', alloc_inode_scan (seqZ lo (Z.of_nat n)) s = Ret (x, with_dev s d') /\ written (dev s) ∅ d' /\
    match x with
    | Ok j => valid_ino (sb s) j /\ free_ino (dev s) (sb s) j
    | Err e => e = NoSpace /\ forall j, lo * 32 <= j < inode_count (sb s) -> j ≠ 0 -> ~ free_ino (dev s) (sb s) j
    end.
Proof.
  intros [Hd Hg Hbm] Hlo Hn. pose proof (dev_size_ok _ Hd) as (_ & _ & _ & Hlim). unfold DISK_BLOCK in Hlim.
  assert (inode_count (sb s) = 32 * inode_table_blocks (sb s)) as Ecount by apply Hg.
  revert s lo Hd Hg Hbm Hlo Hn Hlim Ecount. induction n as [| n IH]; intros s lo Hd Hg Hbm Hlo Hn Hlim Ecount.
  { exists (Err NoSpace), (dev s). rewrite seqZ_nil by lia. split; [destruct s; done |]. split; [by apply written_refl |].
    split; [done | intros; lia]. }
  rewrite seqZ_cons by lia. replace (Z.pred (Z.of_nat (S n))) with (Z.of_nat n) by lia.
  pose proof Hg as [_ _ Gb Gt Gd [Gi1 Gi2] _].
  destruct (read_block_spec s (inode_table_start (sb s) + lo) Hd ltac:(lia)) as (d1 & E1 & W1).
  pose proof (block_len _ (inode_table_start (sb s) + lo) Hd ltac:(lia)) as Hl.
  destruct (free_slot_spec (dev s) (sb s) lo 32 0 Hlo ltac:(lia) ltac:(lia) Hl) as (o & Eo & Ho).
  assert (alloc_inode_scan (lo :: seqZ (Z.succ lo) (Z.of_nat n)) s
    = match o with Some i => Ret (Ok i, with_dev s d1) | None => alloc_inode_scan (seqZ (Z.succ lo) (Z.of_nat n)) (with_dev s d1) end) as ->.
  { cbn [alloc_inode_scan]. unfold st_bind at 1, st_get. cbn [obind].
    rewrite (st_try_Ok (arith _) _ s s (inode_table_start (sb s) + lo)) by (unfold arith, st_bind, st_lift; by rewrite checked_fits by lia).
    rewrite (st_try_Ok _ _ _ _ _ E1). unfold INODES_PER_BLOCK, BLOCK_SIZE, INODE_SIZE. change (4096 / 128) with 32.
    rewrite (st_try_Ok (arith _) _ (with_dev s d1) (with_dev s d1) (lo * 32)) by (unfold arith, st_bind, st_lift; by rewrite checked_fits by lia).
    unfold st_bind at 1, st_lift. change (Z.of_nat 32) with 32 in Eo. rewrite Eo. cbn [obind]. by destruct o. }
  destruct o as [j |].
  - eexists _, _. split; [done |]. split; [done |]. unfold valid_ino. destruct Ho as (? & ? & ?). split; [lia | done].
  - destruct (IH (with_dev s d1) (Z.succ lo)) as (x & d2 & E2 & W2 & Hx); psimpl;
      [apply W1 | by rewrite (wr_count _ _ _ W1) | by apply (bitmap_ok_frame (dev s) ∅) | lia | lia | rewrite (wr_count _ _ _ W1); lia | done |].
    cbn in W2, Hx. exists x, d2. split; [exact E2 |]. split; [exact (written_read _ _ _ _ W1 W2) |].
    assert (forall j, 0 <= j < inode_count (sb s) -> free_ino d1 (sb s) j <-> free_ino (dev s) (sb s) j) as Hfree.
    { intros j Hj. unfold free_ino. by rewrite (disk_raw_same (dev s)). }
    destruct x as [j | e].
    + destruct Hx as [Hv Hf]. split; [done |]. apply Hfree; [unfold valid_ino in Hv; lia | done].
    + destruct Hx as [-> Hx]. split; [done |]. intros j Hj Hj0. destruct (Z.lt_ge_cases j (Z.succ lo * 32)).
      * apply Ho; lia.
      * rewrite <- Hfree by lia. apply Hx; lia.
Qed.

Lemma alloc_inode_spec s : disk_ok s ->
  exists x d', alloc_inode s = Ret (x, with_dev s d') /\ written (dev s) ∅ d' /\
    match x with
    | Ok j => valid_ino (sb s) j /\ free_ino (dev s) (sb s) j
    | Err e => e = NoSpace /\ forall j, valid_ino (sb s) j -> ~ free_ino (dev s) (sb s) j
    end.
Proof.
  intros Hok. pose proof (dk_geo _ Hok) as [_ _ _ Gt _ _ _].
  destruct (alloc_inode_scan_spec s 0 (Z.to_nat (inode_table_blocks (sb s))) Hok) as (x & d' & E & W & Hx); [lia | lia |].
  rewrite Z2Nat.id in E by lia. exists x, d'. split; [exact E |]. split; [done |]. destruct x; [done |].
  destruct Hx as [-> Hx]. split; [done |]. intros j [? ?]. apply Hx; lia.
Qed.

(** ** A new inode *)

Definition empty_node (k : InodeKind) : pnode := match k with File => PFile [] | Dir => PDir [] end.

Lemma new_raw_good d g bm k : raw_ok (new_raw k) /\ inode_good d g bm (new_raw k) (new_raw k) /\
  (forall l b, direct (new_raw k) !! l = Some b -> b = 0) /\ content d (new_raw k) = [] /\ node_of d (new_raw k) = Some (empty_node k).
Proof.
  assert (forall l b, direct (new_raw k) !! l = Some b -> b = 0) as Hz by (intros l b H; by apply (lookup_replicate 12) in H as [-> _]).
  assert (raw_ok (new_raw k)) as Hraw.
  { unfold raw_ok, new_raw. simpl. split_and!; try lia; try done; [destruct k; done .. |]. repeat constructor; lia. }
  assert (sized (new_raw k)) as Hsz by (split; [simpl; unfold MAX_FILE, DIRECT_BLOCKS, BLOCK_SIZE; lia | simpl; unfold div_ceil, BLOCK_SIZE; intros l Hl; change ((0 + 4096 - 1) / 4096) with 0 in Hl; lia]).
  split_and!; [done | | done | done | by destruct k]. split; [done | done | destruct k; auto | | done | | by split].
  - split; [done | intros l b H Hb; by rewrite (Hz l b H) in Hb | intros l m b H _ Hb; by rewrite (Hz l b H) in Hb].
  - intros _ x Hx. destruct (direct_at (new_raw k) (x / BLOCK_SIZE) eq_refl (block_index x Hx)) as [E _].
    unfold fbyte. by rewrite (Hz _ _ E).
Qed.

(** The inode table with one more entry. *)
Section Added.
  Variables (s : Pond D) (j : Z) (k : InodeKind) (d' : D) (b : list Z).
  Hypothesis Hinv : pond_inv s.
  Hypothesis Hv : valid_ino (sb s) j.
  Hypothesis Hfree : free_ino (dev s) (sb s) j.
  Hypothesis W : written (dev s) {[inode_block (sb s) j := b]} d'.
  Hypothesis Hraw : disk_raw d' (sb s) j = new_raw k.
  Hypothesis Hother : forall i, 0 <= i < inode_count (sb s) -> i ≠ j -> disk_raw d' (sb s) i = disk_raw (dev s) (sb s) i.

Lemma added_used i : used (with_dev s d') i <-> i = j \/ used s i.
Proof.
  unfold used. psimpl. split.
  - intros [Hi Hk]. destruct (decide (i = j)) as [-> | Hne]; [by left | right]. split; [done |].
    by rewrite Hother in Hk by (unfold valid_ino in Hi; lia || done).
  - intros [-> | [Hi Hk]]; [split; [done | rewrite Hraw; by destruct k] |]. split; [done |].
    destruct (decide (i = j)) as [-> | Hne]; [by destruct Hk | rewrite Hother; [done | unfold valid_ino in Hi; lia | done]].
Qed.

Lemma added_fresh i : used s i -> i ≠ j.
Proof. intros [_ Hk] ->. by apply Hk. Qed.

Lemma added_uncached : inode_cache s !! j = None.
Proof.
  destruct (inode_cache s !! j) as [a |] eqn:E; [| done].
  destruct (pi_cache _ Hinv j a E) as (_ & _ & Hu). by destruct (added_fresh j Hu).
Qed.

Lemma added_eff i : used s i \/ i = j -> eff (with_dev s d') i = if decide (i = j) then new_raw k else eff s i.
Proof.
  intros Hi. unfold eff. psimpl. destruct (decide (i = j)) as [-> | Hne]; [by rewrite added_uncached |].
  destruct (_ ≫= _); [done |]. destruct Hi as [[Hi _] | ?]; [| done]. apply Hother; [unfold valid_ino in Hi; lia | done].
Qed.

Lemma added_other i : used s i ->
  inode_good d' (sb s) (bitmap s) (eff s i) (disk_raw d' (sb s) i) /\
  content d' (eff s i) = content (dev s) (eff s i) /\ disk_node d' (sb s) i = disk_node (dev s) (sb s) i.
Proof.
  intros Hu. apply (other_inode s {[inode_block (sb s) j := b]}); [done | done | done | done | |].
  - intros l c Hl Hc. apply lookup_singleton_ne. intros <-. destruct (used_block s i l _ Hinv Hu Hl Hc) as [Hd _].
    assert (in_table (sb s) (inode_block (sb s) j)) as Ht
      by (apply (inode_block_range _ _ j (dk_geo _ (pi_disk _ Hinv))); unfold valid_ino in Hv; lia).
    by destruct (table_not_data s _ (pi_disk _ Hinv) Ht).
  - apply Hother; [destruct Hu as [Hi _]; unfold valid_ino in Hi; lia | by apply added_fresh].
Qed.

Lemma added_nodes i : valid_ino (sb s) i -> i ≠ j -> disk_node d' (sb s) i = disk_node (dev s) (sb s) i.
Proof.
  intros Hi Hne. destruct (decide (r_kind (disk_raw (dev s) (sb s) i) = INODE_KIND_UNUSED)) as [E | E].
  - apply unused_node; [done | by intros [_ ?] |]. apply Hother; [unfold valid_ino in Hi; lia | done].
  - apply added_other. by split.
Qed.

Lemma added_inv : pond_inv (with_dev s d').
Proof.
  destruct (new_raw_good d' (sb s) (bitmap s) k) as (_ & Hgood & Hz & Hc & _). pose proof (pi_disk _ Hinv) as Hok. split.
  - destruct Hok as [Hd Hg Hb]. split; psimpl; [apply W | by rewrite (wr_count _ _ _ W) |].
    apply (bitmap_ok_frame (dev s) {[inode_block (sb s) j := b]}); [done .. |]. intros c Hcc. apply lookup_singleton_ne. intros <-.
    assert (in_table (sb s) (inode_block (sb s) j)) as Ht by (apply (inode_block_range _ _ j Hg); unfold valid_ino in Hv; lia).
    by destruct (table_not_data s _ (pi_disk _ Hinv) Ht).
  - intros i a Hca. destruct (pi_cache _ Hinv i a Hca) as (r & Hr & Hu). exists r. split; [done |]. apply added_used. by right.
  - apply (pi_next _ Hinv).
  - intros i Hu%added_used. psimpl. destruct (decide (i = j)) as [-> | Hne].
    + rewrite added_eff, decide_True, Hraw by auto. done.
    + destruct Hu as [? | Hu]; [done |]. rewrite added_eff, decide_False by auto. by apply added_other.
  - intros i1 i2 l m c H1%added_used H2%added_used.
    destruct (decide (i1 = j)) as [-> | N1], (decide (i2 = j)) as [-> | N2]; [done | | |].
    + rewrite added_eff, decide_True by auto. intros H _ Hb. destruct (Hb (Hz _ _ H)).
    + intros _. rewrite added_eff, decide_True by auto. intros H Hb. destruct (Hb (Hz _ _ H)).
    + destruct H1 as [? | H1], H2 as [? | H2]; [done .. |]. rewrite !added_eff, !decide_False by auto. by apply (pi_distinct _ Hinv).
  - intros i Hu%added_used. destruct (decide (i = j)) as [-> | Hne].
    + rewrite added_eff, decide_True by auto. intros _. exists []. split_and!; [psimpl; rewrite Hc; constructor | constructor |].
      intros n k0 i0 H. by apply elem_of_nil in H.
    + destruct Hu as [? | Hu]; [done |]. rewrite added_eff, decide_False by auto. intros Hk.
      destruct (pi_dirs _ Hinv i Hu Hk) as (es & He & Hnd & Hes). exists es. psimpl. split_and!; [| done |].
      * psimpl. by rewrite (proj1 (proj2 (added_other i Hu))).
      * intros n k0 i0 Hin. destruct (Hes n k0 i0 Hin) as [Hu0 Hk0]. split; [apply added_used; by right |]. psimpl.
        rewrite Hother; [done | destruct Hu0 as [Hi0 _]; unfold valid_ino in Hi0; lia | by apply added_fresh].
Qed.

Lemma added_node : disk_node d' (sb s) j = Some (empty_node k).
Proof. unfold disk_node. rewrite Hraw. apply (new_raw_good d' (sb s) (bitmap s) k). Qed.

End Added.

(** ** Writing a directory *)

Definition entry_len (e : DirEntry) : Z := 16 + zlen e.1.1 + - zlen e.1.1 mod 4.
Fixpoint dir_len (es : list DirEntry) : Z := match es with [] => 0 | e :: es => entry_len e + dir_len es end.

Lemma encodes_dir_len es b : encodes es b -> zlen b = dir_len es.
Proof.
  induction 1 as [| pad e es b Hp _ _ _ IH]; [done |]. pose proof (entry_bytes_length pad e Hp) as Hl.
  unfold zlen in *. rewrite length_app. simpl. unfold entry_len, zlen in *. lia.
Qed.

Lemma dir_len_snoc es e : dir_len (es ++ [e]) = dir_len es + entry_len e.
Proof. induction es; simpl; lia. Qed.

Lemma entry_len_pos e : 0 < entry_len e.
Proof. unfold entry_len, zlen. pose proof (Z.mod_pos_bound (- Z.of_nat (length e.1.1)) 4). lia. Qed.

Lemma entry_len_bound e : entry_ok e -> entry_len e < 2 ^ 17.
Proof.
  destruct e as [[n k] i]. intros (_ & _ & _ & Hn & _). unfold entry_len. simpl.
  pose proof (Z.mod_pos_bound (- zlen n) 4 ltac:(lia)). lia.
Qed.

(** The whole content is replaced, so what was there before is gone. *)
Lemma wrote_all s r buf s1 r1 : wrote s (set_size r 0) 0 buf s1 r1 -> content (dev s1) r1 = buf.
Proof.
  intros H. pose proof (wt_raw _ _ _ _ _ _ H) as Er. assert (0 <= zlen buf) by (unfold zlen; lia).
  assert (r_size r1 = zlen buf) as Esz by (rewrite Er; simpl; lia).
  pose proof (wt_sized _ _ _ _ _ _ H) as [Hsz _]. unfold content, fbytes. rewrite Esz.
  apply list_eq_same_length with (n := length buf); [done | unfold zlen; by rewrite length_fmap, length_seqZ, Nat2Z.id |].
  intros k x y Hk Hx Hy. rewrite list_lookup_fmap, lookup_seqZ_lt in Hx by (unfold zlen; lia). simpl in Hx. injection Hx as <-.
  rewrite (wt_bytes _ _ _ _ _ _ H) by (unfold zlen in *; lia).
  assert ((0 <=? 0 + Z.of_nat k) && (0 + Z.of_nat k <? 0 + zlen buf) = true) as ->.
  { apply andb_true_iff. rewrite Z.leb_le, Z.ltb_lt. unfold zlen. lia. }
  replace (Z.to_nat (0 + Z.of_nat k - 0)) with k by lia. by apply list_lookup_total_correct.
Qed.

Lemma missing_size r n lo m : missing (set_size r n) lo m = missing r lo m.
Proof. done. Qed.

Lemma dir_write_entries_run s r es e :
  disk_ok s -> blocks_ok (sb s) (bitmap s) r -> sized r -> encodes es (content (dev s) r) -> entry_ok e ->
  let es' := es ++ [e] in
  (MAX_FILE < dir_len es' /\ dir_write_entries r es' s = Ret ((Err Unsupported, set_size r 0), s)) \/
  (dir_len es' <= MAX_FILE /\ missing r 0 (div_ceil (dir_len es') BLOCK_SIZE) <= free_blocks s /\
   exists s1 r1, dir_write_entries r es' s = Ret ((Ok tt, r1), s1) /\
     wrote s (set_size r 0) 0 (serialize [] es') s1 r1 /\ encodes es' (content (dev s1) r1)) \/
  (dir_len es' <= MAX_FILE /\ exists s1 r1, dir_write_entries r es' s = Ret ((Err NoSpace, r1), s1) /\
     grows s (set_size r 0) s1 r1 /\ free_blocks s < missing r 0 (div_ceil (dir_len es') BLOCK_SIZE)).
Proof.
  intros Hok Hb [Hsz Hm] He Hent es'. pose proof (content_length (dev s) r ltac:(lia)) as Hcl.
  pose proof (encodes_dir_len _ _ He) as Hdl. rewrite Hcl in Hdl.
  assert (dir_len es' = r_size r + entry_len e) as Edl by (unfold es'; rewrite dir_len_snoc; lia).
  pose proof (entry_len_pos e) as Hpos. pose proof (entry_len_bound e Hent) as Hbound.
  assert (r_size r <= 49152) as Hsz' by (unfold MAX_FILE, DIRECT_BLOCKS, BLOCK_SIZE in Hsz; lia).
  assert (Forall entry_ok es') as Hes by (apply Forall_app; split; [by apply encodes_entries in He | by constructor]).
  destruct (serialize_encodes es' [] Hes eq_refl) as (buf & Eser & Henc). rewrite app_nil_l in Eser.
  pose proof (encodes_dir_len _ _ Henc) as Hbl. pose proof (encodes_bytes _ _ Henc) as Hby.
  assert (dir_write_entries r es' s = (let* (z, r) := write_file_at (set_size r 0) 0 buf in
    match z with Err e => st_ret (Err e, r) | Ok _ => st_ret (Ok tt, set_size r (zlen buf)) end) s) as ->.
  { unfold dir_write_entries. rewrite Eser. rewrite seqZ_nil; [done |].
    assert (div_ceil (r_size r) BLOCK_SIZE <= div_ceil (zlen buf) BLOCK_SIZE); [| lia].
    unfold div_ceil, BLOCK_SIZE. apply Z.div_le_mono; lia. }
  destruct (write_file_at_spec s (set_size r 0) 0 buf Hok) as
    [[Hmax E] | [(Hmax & Hfr & s1 & r1 & E & H) | (Hmax & s1 & r1 & E & G & _ & Hfree)]];
    [destruct Hb as [L R I]; by split | | done | lia | lia | | |].
  - split; [simpl; unfold MAX_FILE, DIRECT_BLOCKS, BLOCK_SIZE; lia |]. simpl. unfold div_ceil, BLOCK_SIZE.
    change ((0 + 4096 - 1) / 4096) with 0. intros; lia.
  - left. split; [lia |]. by rewrite (st_bind_step _ _ _ _ _ E).
  - right. left. split; [lia |]. rewrite missing_size in Hfr. split; [by rewrite <- Hbl |]. exists s1, r1. rewrite Eser, (wrote_all _ _ _ _ _ H).
    rewrite (st_bind_step _ _ _ _ _ E). split; [| done].
    pose proof (wt_raw _ _ _ _ _ _ H) as Er. assert (r_size r1 = zlen buf) as <- by (rewrite Er; simpl; lia). by destruct r1.
  - right. right. split; [lia |]. exists s1, r1. rewrite (st_bind_step _ _ _ _ _ E). split; [done |]. split; [done |].
    rewrite missing_size in Hfree. by rewrite <- Hbl.
Qed.

(** ** [create] *)

(** [create] once the inode is allocated and written. *)
Definition create_tail (a i j c : Z) r (es : list DirEntry) : PM (result Z FsError) :=
  let* (z, r) := dir_write_entries r es in
  let* _ := set_raw a r in
  match z with
  | Err e => err e
  | Ok _ =>
      let? _ := write_inode i r in
      let* _ := cache_insert j c in
      ok c
  end.

(** [s] with inode [j] written and an in-memory copy for it. *)
Definition with_inode s (j : Z) (k : InodeKind) d' : Pond D :=
  with_states (with_dev s d') (<[next_state s := mkInodeState j (new_raw k)]> (states s)) (next_state s + 1).

Record inode_added s (j : Z) (k : InodeKind) sA : Prop := {
  ia_shape : exists d', sA = with_inode s j k d';
  ia_inv : pond_inv sA;
  ia_valid : valid_ino (sb s) j;
  ia_free : disk_node (dev s) (sb s) j = None;
  ia_fresh : forall i, used s i -> i ≠ j;
  ia_raw : disk_raw (dev sA) (sb s) j = new_raw k;
  ia_node : disk_node (dev sA) (sb s) j = Some (empty_node k);
  ia_nodes : forall i, valid_ino (sb s) i -> i ≠ j -> disk_node (dev sA) (sb s) i = disk_node (dev s) (sb s) i;
  ia_uncached : inode_cache s !! j = None;
  ia_used : forall i, used sA i <-> i = j \/ used s i;
  ia_kind : forall i, used s i -> r_kind (disk_raw (dev sA) (sb s) i) = r_kind (disk_raw (dev s) (sb s) i);
  ia_bytes : forall i, used s i -> content (dev sA) (eff s i) = content (dev s) (eff s i)
}.

Lemma free_node d g j : free_ino d g j -> disk_node d g j = None.
Proof. unfold free_ino, disk_node, node_of. by intros ->. Qed.

(** Reading the directory, then taking and writing an inode. *)
Lemma write_new_inode_run s j k d2 :
  pond_inv s -> valid_ino (sb s) j -> free_ino (dev s) (sb s) j -> written (dev s) ∅ d2 ->
  forall l, exists d3, write_inode j (new_raw k) (with_locks (with_inode s j k d2) true l)
      = Ret (Ok tt, with_locks (with_inode s j k d3) true l) /\
    inode_added s j k (with_inode s j k d3).
Proof.
  intros Hinv Hv Hf W2 l. destruct (pond_inv_read s d2 Hinv W2) as [Hi2 Hn2].
  assert (forall i, 0 <= i < inode_count (sb s) -> disk_raw d2 (sb s) i = disk_raw (dev s) (sb s) i) as Hr2.
  { intros i Hi. apply disk_raw_same; [done | apply (pi_disk _ Hinv) | done]. }
  assert (free_ino (dev (with_dev s d2)) (sb (with_dev s d2)) j) as Hf2.
  { unfold free_ino. psimpl. rewrite Hr2; [done | unfold valid_ino in Hv; lia]. }
  pose proof (pi_disk _ Hi2) as [O1 O2 O3]. cbn in O1, O2, O3.
  destruct (write_inode_spec (with_locks (with_inode s j k d2) true l) j (new_raw k)) as (d3 & b & E & W3 & Hrj & Hro);
    [done | done | unfold valid_ino in Hv; cbn; lia | apply (new_raw_good d2 (sb s) (bitmap s) k) |].
  cbn in W3, Hrj, Hro. exists d3. split; [exact E |].
  pose proof (added_inv (with_dev s d2) j k d3 b Hi2 Hv Hf2 W3 Hrj Hro) as Hi3.
  assert (forall i, used s i <-> used (with_dev s d2) i) as Hu2.
  { intros i. unfold used. psimpl. split; intros [Hi Hk]; (split; [done |]);
      [rewrite Hr2 | rewrite Hr2 in Hk]; (done || unfold valid_ino in Hi; lia). }
  split.
  - by exists d3.
  - exact (pond_inv_new_state (with_dev (with_dev s d2) d3) _ Hi3).
  - done.
  - by apply free_node.
  - intros i [_ Hk] ->. by apply Hk.
  - done.
  - exact (added_node (with_dev s d2) j k d3 Hrj).
  - intros i Hi Hne. rewrite <- Hn2 by done. exact (added_nodes (with_dev s d2) j d3 b Hi2 Hv Hf2 W3 Hro i Hi Hne).
  - exact (added_uncached (with_dev s d2) j Hi2 Hf2).
  - intros i. rewrite Hu2. exact (added_used (with_dev s d2) j k d3 Hv Hf2 Hrj Hro i).
  - intros i [Hi Hk]. unfold with_inode. psimpl. unfold valid_ino in Hi. rewrite Hro by (lia || intros ->; by apply Hk). by rewrite Hr2 by lia.
  - intros i Hu. unfold with_inode. psimpl.
    assert (eff (with_dev s d2) i = eff s i) as Ee.
    { destruct Hu as [Hi _]. unfold eff. psimpl. destruct (_ ≫= _); [done | apply Hr2; unfold valid_ino in Hi; lia]. }
    rewrite <- Ee. rewrite (proj1 (proj2 (added_other (with_dev s d2) j d3 b Hi2 Hv Hf2 W3 Hro i (proj1 (Hu2 i) Hu)))).
    psimpl. rewrite Ee. destruct (content_frame s ∅ d2 (eff s i)) as [? _]; [apply Hinv | done | | | done | done];
      apply (pi_used _ Hinv i Hu).
Qed.

(** The node of [j] is new and the directory [i] has an entry for it. *)
Record adds s (i j : Z) (es : list DirEntry) (n : Str) (k : InodeKind) s' : Prop := {
  ad_inv : pond_inv s';
  ad_un : unlocked s';
  ad_sb : sb s' = sb s;
  ad_handles : forall a i, handle s a i -> handle s' a i;
  ad_valid : valid_ino (sb s) j;
  ad_free : disk_node (dev s) (sb s) j = None;
  ad_new : disk_node (dev s') (sb s) j = Some (empty_node k);
  ad_dir : disk_node (dev s') (sb s) i = Some (PDir (es ++ [(n, k, j)]));
  ad_nodes : forall x, valid_ino (sb s) x -> x ≠ i -> x ≠ j -> disk_node (dev s') (sb s) x = disk_node (dev s) (sb s) x
}.

Section Tail.
  Variables (s : Pond D) (a i j : Z) (r : RawInode) (es : list DirEntry) (n : Str) (k : InodeKind) (sA : Pond D).
  Hypothesis Hinv : pond_inv s.
  Hypothesis Hun : unlocked s.
  Hypothesis Ha : handle s a i.
  Hypothesis Hs : states s !! a = Some (mkInodeState i r).
  Hypothesis Hdir : r_kind r = INODE_KIND_DIR.
  Hypothesis Hgood : dir_good s r es.
  Hypothesis Hnew : n ∉ es.*1.*1.
  Hypothesis HA : inode_added s j k sA.

Lemma tail_frame : next_state s ≠ a /\ states sA !! a = Some (mkInodeState i r) /\ handle sA a i /\ sb sA = sb s /\
  bitmap sA = bitmap s /\ unlocked sA /\ inode_cache sA = inode_cache s /\
  states sA !! next_state s = Some (mkInodeState j (new_raw k)) /\ i ≠ j /\ encodes es (content (dev sA) r).
Proof.
  destruct (ia_shape _ _ _ _ HA) as (d' & E).
  assert (next_state s ≠ a) as Hne by (intros <-; by rewrite next_fresh in Hs).
  pose proof (ia_bytes _ _ _ _ HA i (handle_used s i a Hinv Ha)) as Hby. rewrite (eff_cached s i a r Ha Hs) in Hby.
  pose proof (ia_fresh _ _ _ _ HA i (handle_used s i a Hinv Ha)).
  rewrite E at 1 2 3 4 5 6 7. unfold with_inode, handle. psimpl.
  rewrite lookup_insert_ne, lookup_insert_eq by done. do 9 (split; [done |]). rewrite Hby. apply Hgood.
Qed.

Lemma tail_prepared s1 r1 :
  wrote (with_locks sA true {[a]}) (set_size r 0) 0 (serialize [] (es ++ [(n, k, j)])) s1 r1 -> prepared sA a r s1 r1.
Proof.
  intros H. pose proof tail_frame as (_ & HsA & HaA & EsbA & EbmA & _). pose proof (wt_raw _ _ _ _ _ _ H) as Er.
  pose proof (wt_sized _ _ _ _ _ _ H) as Hsz. pose proof (ia_inv _ _ _ _ HA) as HinvA.
  pose proof (ig_raw _ _ _ _ _ (pi_used _ HinvA i (handle_used sA i a HinvA HaA))) as Hraw.
  rewrite (eff_cached sA i a r HaA HsA) in Hraw.
  assert (r_kind r1 = r_kind r) as Ek by (rewrite Er; done).
  destruct H as [H1 H2 H3 H4 H5 H6 H7 H8 H9 H10]. split; auto.
  - change (set_size (set_direct (set_size r 0) (direct r1)) ?m) with (set_size (set_direct r (direct r1)) m) in Er.
    rewrite Er. apply (raw_ok_update sA (bitmap s1)); [apply HinvA | done | by rewrite <- Er |]. rewrite Er in Hsz. apply Hsz.
  - exact (fresh_blocks sA r r1 H9).
  - rewrite Ek, Hdir. done.
Qed.

Lemma tail_dir_good s' r1 :
  changes sA i a r s' r1 -> encodes (es ++ [(n, k, j)]) (content (dev s') r1) -> dir_good s' r1 (es ++ [(n, k, j)]).
Proof.
  intros Hch He. pose proof tail_frame as (_ & HsA & HaA & EsbA & _). pose proof (ia_inv _ _ _ _ HA) as HinvA.
  destruct Hgood as (_ & Hnd & Hes). split_and!; [done | |].
  - rewrite !fmap_app. apply NoDup_app. split; [done |]. split; [| apply NoDup_singleton].
    intros x Hx Hx'. apply list_elem_of_singleton in Hx' as ->. done.
  - intros m k0 j0 [Hin | [= -> -> ->]%list_elem_of_singleton]%elem_of_app.
    + destruct (Hes m k0 j0 Hin) as [Hu Hk0].
      assert (used sA j0) as HuA by (apply (ia_used _ _ _ _ HA); by right).
      rewrite (changes_used sA i a r s' r1 HinvA HaA HsA Hch), (ch_sb _ _ _ _ _ _ Hch). split; [done |].
      rewrite (changes_kind sA i a r s' r1 HinvA HaA HsA Hch) by apply HuA. rewrite EsbA, <- Hk0.
      by apply (ia_kind _ _ _ _ HA).
    + assert (used sA j) as HuA by (apply (ia_used _ _ _ _ HA); by left).
      rewrite (changes_used sA i a r s' r1 HinvA HaA HsA Hch), (ch_sb _ _ _ _ _ _ Hch). split; [done |].
      rewrite (changes_kind sA i a r s' r1 HinvA HaA HsA Hch) by apply HuA. by rewrite EsbA, (ia_raw _ _ _ _ HA).
Qed.

(** The directory is written: the new entry is there. *)
Lemma tail_adds s1 r1 :
  dir_write_entries r (es ++ [(n, k, j)]) (with_locks sA true {[a]}) = Ret ((Ok tt, r1), s1) ->
  wrote (with_locks sA true {[a]}) (set_size r 0) 0 (serialize [] (es ++ [(n, k, j)])) s1 r1 ->
  encodes (es ++ [(n, k, j)]) (content (dev s1) r1) ->
  exists s', create_tail a i j (next_state s) r (es ++ [(n, k, j)]) (with_locks sA true {[a]}) = Ret (Ok (next_state s), s') /\
    raw_locked s' = {[a]} /\ adds s i j es n k (with_locks s' false ∅) /\ handle s' (next_state s) j.
Proof.
  intros Ed H He. pose proof tail_frame as (Hca & HsA & HaA & EsbA & _ & HunA & EcA & HcA & Hij & _).
  pose proof (ia_inv _ _ _ _ HA) as HinvA. pose proof (tail_prepared s1 r1 H) as Hp.
  destruct (store_run sA a i r HinvA HaA HsA s1 r1 Hp) as (d3 & b & E3 & Hch & Hc3).
  pose proof (f_equal states (pp_rest _ _ _ _ _ Hp)) as Est. pose proof (f_equal raw_locked (pp_rest _ _ _ _ _ Hp)) as El.
  pose proof (f_equal inode_cache (pp_rest _ _ _ _ _ Hp)) as Ec1. cbn in Est, El, Ec1.
  set (s2 := with_dev (with_states s1 (<[a := mkInodeState i r1]> (states s1)) (next_state s1)) d3) in *.
  exists (with_cache s2 (<[j := next_state s]> (inode_cache s2))).
  assert (dir_good (stored a i s1 r1 d3) r1 (es ++ [(n, k, j)])) as Hd3.
  { apply tail_dir_good; [done |]. unfold stored. psimpl. by rewrite Hc3. }
  destruct (changes_inv sA i a r _ r1 HinvA HaA HsA Hch) as [Hi3 Hn3]; [intros _; by eexists |].
  assert (disk_raw d3 (sb s) j = new_raw k) as Ej.
  { rewrite <- (ia_raw _ _ _ _ HA), <- EsbA. apply (ch_others _ _ _ _ _ _ Hch); [| done].
    rewrite EsbA. pose proof (ia_valid _ _ _ _ HA) as Hv. unfold valid_ino in Hv. lia. }
  pose proof (ch_sb _ _ _ _ _ _ Hch) as Esb3.
  destruct (cache_add_keeps (stored a i s1 r1 d3) j (next_state s)) as [K Hh].
  { done. } { done. }
  { apply (changes_used sA i a r _ r1 HinvA HaA HsA Hch), (ia_used _ _ _ _ HA). by left. }
  { rewrite (ch_cache _ _ _ _ _ _ Hch), EcA. apply HA. }
  { rewrite (ch_states _ _ _ _ _ _ Hch), lookup_insert_ne, HcA by done. rewrite Esb3, EsbA. unfold stored. psimpl. by rewrite Ej. }
  split_and!; [| done | | exact Hh].
  - unfold create_tail. rewrite (st_bind_step _ _ _ _ _ Ed).
    rewrite (st_bind_step (set_raw a r1) _ s1 (with_states s1 (<[a := mkInodeState i r1]> (states s1)) (next_state s1)) tt)
      by (unfold set_raw; by rewrite Est, HsA).
    by rewrite (st_try_Ok _ _ _ _ _ E3).
  - destruct K as [K1 K2 K3 K4 K5]. rewrite Esb3, EsbA in K3, K5. split; [done | done | done | | apply HA | apply HA | | |].
    + intros c x Hc. apply K4. unfold handle. rewrite (ch_cache _ _ _ _ _ _ Hch), EcA. exact Hc.
    + etransitivity; [apply K5, HA |]. rewrite <- (ia_node _ _ _ _ HA), <- EsbA. apply Hn3; [rewrite EsbA; apply HA | done].
    + etransitivity; [apply K5; destruct (handle_used s i a Hinv Ha); done |]. rewrite <- EsbA.
      rewrite (changes_node sA i a r _ r1 Hch). apply node_of_dir; [by rewrite (ch_kind _ _ _ _ _ _ Hch) | apply Hd3 | apply Hp].
    + intros x Hx Hxi Hxj. etransitivity; [by apply K5 |]. rewrite <- (ia_nodes _ _ _ _ HA x Hx Hxj), <- EsbA.
      apply Hn3; [by rewrite EsbA | done].
Qed.

End Tail.

Lemma find_entry_None n es : find_entry n es = None <-> n ∉ es.*1.*1.
Proof.
  induction es as [| [[m k] j] es IH]; simpl; [split; [intros _; apply not_elem_of_nil | done] |].
  rewrite not_elem_of_cons. destruct (decide (m = n)) as [-> | Hne]; [split; [done | by intros [? _]] |].
  rewrite IH. naive_solver.
Qed.

(** [create] up to the write of the directory. *)
Lemma create_prefix s a i n k :
  pond_inv s -> unlocked s -> handle s a i ->
  (exists b, disk_node (dev s) (sb s) i = Some (PFile b) /\ pond_create a n k s = Ret (Err NotDir, s)) \/
  exists r es, states s !! a = Some (mkInodeState i r) /\ eff s i = r /\ r_kind r = INODE_KIND_DIR /\ dir_good s r es /\
    inode_good (dev s) (sb s) (bitmap s) r (disk_raw (dev s) (sb s) i) /\
    disk_node (dev s) (sb s) i = Some (PDir es) /\
    ((is_Some (find_entry n es) /\ exists s', pond_create a n k s = Ret (Err Exists_, s') /\ keeps s s') \/
     (find_entry n es = None /\ (forall j, valid_ino (sb s) j -> ~ free_ino (dev s) (sb s) j) /\
        exists s', pond_create a n k s = Ret (Err NoSpace, s') /\ keeps s s') \/
     (find_entry n es = None /\ exists j sA, inode_added s j k sA /\
        forall x s', create_tail a i j (next_state s) r (es ++ [(n, k, j)]) (with_locks sA true {[a]}) = Ret (x, s') ->
          raw_locked s' = {[a]} -> pond_create a n k s = Ret (x, with_locks s' false ∅))).
Proof.
  intros Hinv Hun Ha. destruct (handle_cases s a i Hinv Ha) as (r & Hs & Er & Hu & Hg & Hc).
  set (s0 := with_locks s true {[a]}).
  assert (forall x s', (if negb (r_kind r =? INODE_KIND_DIR) then err NotDir
      else let? entries := dir_read_entries r in
        match find_entry n entries with
        | Some _ => err Exists_
        | None =>
            let? new_ino := alloc_inode in
            let* state := new_state (mkInodeState new_ino (new_raw k)) in
            let? _ := write_inode new_ino (new_raw k) in
            create_tail a i new_ino state r (entries ++ [(n, k, new_ino)])
        end) s0 = Ret (x, s') -> raw_locked s' = {[a]} -> pond_create a n k s = Ret (x, with_locks s' false ∅)) as Hrun.
  { intros x s' E Hr. apply locked_both_run; [done | | done].
    rewrite (st_bind_step (get_state a) _ s0 s0 (mkInodeState i r)); [exact E |]. unfold get_state, s0. psimpl. by rewrite Hs. }
  destruct Hc as [[Hk Hn] | [Hk (es & Hd & Hn)]]; rewrite Hk in Hrun.
  { left. eexists. split; [exact Hn |]. by rewrite (Hrun (Err NotDir) s0 eq_refl eq_refl), (relock_same s true {[a]} Hun). }
  right. exists r, es. do 6 (split; [done |]). simpl in Hrun.
  assert (disk_ok s0) as Hok0 by (destruct (pi_disk _ Hinv); by split).
  destruct (dir_read_entries_run s0 r es Hok0) as (d1 & E1 & W1); [apply Hg | apply Hg | apply Hd |].
  assert (disk_ok (with_dev s0 d1)) as Hok1.
  { destruct Hok0 as [O1 O2 O3]. split; psimpl; [apply W1 | by rewrite (wr_count _ _ _ W1) | by apply (bitmap_ok_frame (dev s) ∅)]. }
  destruct (find_entry n es) as [j0 |] eqn:Ef; [left | right].
  { split; [done |]. exists (with_dev s d1). split; [| by apply keeps_read]. rewrite <- (relock_read s true {[a]} d1 Hun).
    apply Hrun; [| done]. rewrite (st_try_Ok _ _ _ _ _ E1), Ef. done. }
  destruct (alloc_inode_spec (with_dev s0 d1) Hok1) as (x & d2 & E2 & W2 & Hx). cbn in Hx.
  pose proof (written_read _ _ _ _ W1 W2) as W.
  assert (forall j, valid_ino (sb s) j -> free_ino d1 (sb s) j <-> free_ino (dev s) (sb s) j) as Hfree.
  { intros j Hj. unfold free_ino. rewrite (disk_raw_same (dev s)); [done | done | apply (pi_disk _ Hinv) | unfold valid_ino in Hj; lia]. }
  destruct x as [j | e].
  - right. split; [done |]. destruct Hx as [Hv Hf]. rewrite Hfree in Hf by done.
    destruct (write_new_inode_run s j k d2 Hinv Hv Hf W {[a]}) as (d3 & E3 & HA). exists j, (with_inode s j k d3). split; [done |].
    intros x s' E Hr. apply Hrun; [| done]. rewrite (st_try_Ok _ _ _ _ _ E1), Ef, (st_try_Ok _ _ _ _ _ E2).
    rewrite (st_bind_step (new_state _) _ _ (with_locks (with_inode s j k d2) true {[a]}) (next_state s)) by done.
    by rewrite (st_try_Ok _ _ _ _ _ E3).
  - left. split; [done |]. destruct Hx as [-> Hx]. split; [intros j Hj; rewrite <- Hfree by done; by apply Hx |].
    exists (with_dev s d2). split; [| by apply keeps_read]. rewrite <- (relock_read s true {[a]} d2 Hun).
    apply Hrun; [| done]. rewrite (st_try_Ok _ _ _ _ _ E1), Ef, (st_try_Err _ _ _ _ _ E2). done.
Qed.

(** Space for the directory with an entry of this name. *)
Definition create_room s (i : Z) (n : Str) : Prop :=
  forall es, disk_node (dev s) (sb s) i = Some (PDir es) -> find_entry n es = None ->
    dir_len (es ++ [(n, File, 0)]) <= MAX_FILE /\
    missing (eff s i) 0 (div_ceil (dir_len (es ++ [(n, File, 0)])) BLOCK_SIZE) <= free_blocks s.

Definition name_ok (n : Str) : Prop := entry_ok (n, File, 0).

Lemma dir_len_name es n k j : dir_len (es ++ [(n, k, j)]) = dir_len (es ++ [(n, File, 0)]).
Proof. by rewrite !dir_len_snoc. Qed.

Lemma valid_ino_range s j : disk_ok s -> valid_ino (sb s) j -> 0 <= j < 2 ^ 64.
Proof.
  intros [Hd [_ _ Gb Gt Gd [_ Gi] _] _] Hv. pose proof (dev_size_ok _ Hd) as (_ & _ & _ & Hlim). unfold DISK_BLOCK in Hlim.
  unfold valid_ino in Hv. change INODES_PER_BLOCK with 32 in Gi. lia.
Qed.

Lemma name_entry s n k j : disk_ok s -> valid_ino (sb s) j -> name_ok n -> entry_ok (n, k, j).
Proof. intros Hok Hv (? & ? & ? & ? & _). pose proof (valid_ino_range s j Hok Hv). split_and!; (done || lia). Qed.

Lemma pond_create_run s a i n k :
  pond_inv s -> unlocked s -> handle s a i -> name_ok n -> create_room s i n ->
  exists x s', pond_create a n k s = Ret (x, s') /\
    match disk_node (dev s) (sb s) i with
    | Some (PDir es) =>
        match find_entry n es with
        | Some _ => x = Err Exists_ /\ keeps s s'
        | None =>
            (exists c j, x = Ok c /\ handle s' c j /\ adds s i j es n k s') \/
            (x = Err NoSpace /\ keeps s s' /\ forall j, valid_ino (sb s) j -> disk_node (dev s) (sb s) j ≠ None)
        end
    | _ => x = Err NotDir /\ keeps s s'
    end.
Proof.
  intros Hinv Hun Ha Hname Hroom.
  destruct (create_prefix s a i n k Hinv Hun Ha) as [(b & Hn & E) | (r & es & Hs & Er & Hk & Hd & Hg & Hn & Hc)]; rewrite Hn.
  { eexists _, _. split; [exact E |]. split; [done | by apply keeps_refl]. }
  destruct Hc as [([j0 Hf] & s' & E & K) | [(Hf & Hall & s' & E & K) | (Hf & j & sA & HA & Hrun)]]; rewrite Hf.
  - eexists _, _. by split.
  - eexists _, _. split; [exact E |]. right. split; [done |]. split; [done |]. intros j Hj Hnone.
    assert (used s j) as Hu by (split; [done | by apply Hall]). rewrite (disk_node_eff s j Hinv Hu) in Hnone.
    destruct (pi_used _ Hinv j Hu) as [_ _ [Ek | Ek] _ Hsz _ _]; [by rewrite node_of_file in Hnone |].
    destruct (pi_dirs _ Hinv j Hu Ek) as (es' & He & _). by rewrite (node_of_dir _ _ es') in Hnone.
  - destruct (Hroom es Hn Hf) as [Hr1 Hr2]. rewrite <- (dir_len_name es n k j) in Hr1, Hr2.
    destruct (tail_frame s a i j r es k sA Hinv Hun Ha Hs Hd HA) as (_ & HsA & HaA & EsbA & EbmA & HunA & _ & _ & _ & HeA).
    assert (disk_ok (with_locks sA true {[a]})) as HokA by (destruct (pi_disk _ (ia_inv _ _ _ _ HA)); by split).
    destruct (dir_write_entries_run (with_locks sA true {[a]}) r es (n, k, j) HokA) as
      [[Hbad _] | [(_ & _ & s1 & r1 & E & H & He) | (_ & s1 & r1 & _ & _ & Hbad)]].
    + psimpl. rewrite EsbA, EbmA. apply Hg.
    + apply Hg.
    + exact HeA.
    + apply (name_entry s); [apply Hinv | apply HA | done].
    + lia.
    + destruct (tail_adds s a i j r es n k sA Hinv Hun Ha Hs Hk Hd ltac:(by apply find_entry_None) HA s1 r1 E H He) as (s' & Et & Hl & Had & Hh).
      eexists _, _. split; [by apply Hrun |]. left. by eexists _, _.
    + unfold free_blocks in *. psimpl. cbn in Hbad. rewrite EsbA, EbmA in Hbad. rewrite Er in Hr2. lia.
Qed.

End Create.
