(* ===== verification/PondExample.v ===== *)
(** * A freshly formatted PondFS

    Five blocks: superblock, bitmap, inode table, two data blocks; the root
    directory is inode 1 and is open.  Inputs on which the theorems are
    applied. *)

From S2P Require Import Prelude Bytes Bitmap Inode Block PondLayout PondFs PondDisk PondFile PondGrow PondDir PondInv PondOps PondWrite PondCreate.

#[global, program] Instance zero_padding : Padding := {| pad_bytes _ := [0; 0; 0; 0] |}.
Next Obligation. split; [done | repeat constructor; unfold byte_ok; lia]. Qed.

Definition tiny_super : Superblock := mkSuperblock POND_MAGIC POND_VERSION 5 32 1 1 2 1 3.

(** A block that starts with some bytes. *)
Definition block_with (off : nat) (b : list Z) : list Z := replicate off 0 ++ b ++ replicate (4096 - off - length b) 0.
Arguments block_with : simpl never.

(** [m]: the data blocks that are taken, as the first byte of the bitmap. *)
Definition tiny_disk (m : Z) : MemDisk :=
  mkMemDisk [block_with 0 (superblock_bytes tiny_super); block_with 0 [m]; block_with 128 (raw_bytes (new_raw Dir)); zero_block; zero_block].
Definition tiny_pond (m : Z) : Pond MemDisk :=
  mkPond (tiny_disk m) tiny_super (block_with 0 [m]) {[1 := 0]} {[0 := mkInodeState 1 (new_raw Dir)]} 1 false ∅.

Lemma block_with_ok off b : (off + length b <= 4096)%nat -> Forall byte_ok b ->
  zlen (block_with off b) = DISK_BLOCK /\ Forall byte_ok (block_with off b).
Proof.
  intros Hl Hb. unfold block_with, zlen, DISK_BLOCK. rewrite !length_app, !length_replicate. split; [lia |].
  rewrite !Forall_app. split_and!; [| done |]; apply Forall_replicate; unfold byte_ok; lia.
Qed.

Lemma bytes_check (l : list Z) : forallb (fun b => (0 <=? b) && (b <? 256)) l = true -> Forall byte_ok l.
Proof.
  intros H. apply Forall_forall. intros b Hb. rewrite forallb_forall in H.
  apply list_elem_of_In, H, andb_prop in Hb as [? ?]. unfold byte_ok. lia.
Qed.

Section Tiny.
  Variable m : Z.

Lemma tiny_disk_ok : 0 <= m < 256 -> mem_disk_ok (tiny_disk m).
Proof.
  intros Hm. split; [| done]. pose proof zero_block_ok as Hz. change BLOCK_SIZE with DISK_BLOCK in Hz. unfold tiny_disk. cbn [md_blocks].
  rewrite !Forall_cons, Forall_nil. split; [| split; [| split; [| do 2 (split; [exact Hz |]); done]]]; apply block_with_ok; try (vm_compute; lia).
  - apply bytes_check. vm_compute. reflexivity.
  - repeat constructor; done || lia.
  - apply raw_bytes_ok.
Qed.

(** The inodes on the disk: the root and nothing else. *)
Lemma tiny_root : disk_raw (tiny_disk m) tiny_super 1 = new_raw Dir.
Proof. vm_compute. reflexivity. Qed.

Lemma tiny_unused i : 0 < i < 32 -> i ≠ 1 -> r_kind (disk_raw (tiny_disk m) tiny_super i) = INODE_KIND_UNUSED.
Proof.
  assert (forallb (fun i => (i =? 1) || (r_kind (disk_raw (tiny_disk m) tiny_super i) =? INODE_KIND_UNUSED)) (seqZ 1 31) = true) as H
    by (vm_compute; reflexivity).
  intros Hi Hne. rewrite forallb_forall in H. specialize (H i).
  destruct (Z.eqb_spec i 1); [done |]. cbn [orb] in H. apply Z.eqb_eq, H, list_elem_of_In, elem_of_seqZ. lia.
Qed.

Lemma tiny_used i : used (tiny_pond m) i <-> i = 1.
Proof.
  unfold used, valid_ino. psimpl. cbn [tiny_pond sb dev inode_count tiny_super]. split.
  - intros [Hv Hk]. destruct (decide (i = 1)); [done |]. by rewrite tiny_unused in Hk.
  - intros ->. rewrite tiny_root. split; [lia | done].
Qed.

Lemma tiny_eff : eff (tiny_pond m) 1 = new_raw Dir.
Proof. vm_compute. reflexivity. Qed.

Lemma tiny_disk_state : 0 <= m < 256 -> disk_ok (tiny_pond m).
Proof.
  intros Hm. split; [by apply tiny_disk_ok | | ].
  - split; cbn; try done; unfold INODES_PER_BLOCK, BLOCK_SIZE, INODE_SIZE; cbn; lia.
  - split.
    + vm_compute. reflexivity.
    + apply (Forall_impl byte_ok); [apply block_with_ok; [vm_compute; lia | repeat constructor; done || lia] | unfold byte_ok; lia].
    + intros k Hk. cbn in Hk. assert (k = 0) as -> by lia. vm_compute. reflexivity.
    + vm_compute. reflexivity.
Qed.

Lemma tiny_inv : 0 <= m < 256 -> pond_inv (tiny_pond m).
Proof.
  intros Hm. destruct (new_raw_good (tiny_disk m) tiny_super (block_with 0 [m]) Dir) as (_ & Hg & Hz & Hc & _). split.
  - by apply tiny_disk_state.
  - intros i a H. cbn [tiny_pond inode_cache] in H. apply lookup_singleton_Some in H as [<- <-]. exists (new_raw Dir).
    split; [by apply lookup_singleton_eq | by apply tiny_used].
  - intros a [x H]. cbn [tiny_pond states] in H. apply lookup_singleton_Some in H as [<- _]. cbn. lia.
  - intros i ->%tiny_used. rewrite tiny_eff. cbn [tiny_pond sb dev bitmap]. rewrite tiny_root. exact Hg.
  - intros i j k l b ->%tiny_used ->%tiny_used. done.
  - intros i ->%tiny_used _. rewrite tiny_eff. exists []. cbn [tiny_pond dev]. split_and!; [change (encodes [] (content (tiny_disk m) (new_raw Dir))); rewrite Hc; constructor | constructor |].
    intros n k j H. by apply elem_of_nil in H.
Qed.

Lemma tiny_handle : unlocked (tiny_pond m) /\ handle (tiny_pond m) 0 1.
Proof. split; [done | by apply lookup_singleton_eq]. Qed.

Lemma tiny_node : disk_node (dev (tiny_pond m)) (sb (tiny_pond m)) 1 = Some (PDir []).
Proof.
  unfold disk_node. cbn [tiny_pond dev sb]. rewrite tiny_root.
  apply (new_raw_good (dev (tiny_pond m)) (sb (tiny_pond m)) (bitmap (tiny_pond m)) Dir).
Qed.

Lemma tiny_free : valid_ino tiny_super 2 /\ disk_node (tiny_disk m) tiny_super 2 = None.
Proof.
  split; [unfold valid_ino; cbn; lia |]. unfold disk_node, node_of. by rewrite tiny_unused.
Qed.

End Tiny.

Lemma short_name : name_ok [97].
Proof. split_and!; [done | done | repeat constructor; unfold byte_ok; lia | vm_compute; done | lia | lia]. Qed.

Lemma tiny_room : create_room (tiny_pond 0) 1 [97].
Proof.
  intros es Hn _. rewrite tiny_node in Hn. injection Hn as <-. rewrite tiny_eff.
  split; vm_compute; intros; discriminate.
Qed.

Lemma tiny_no_room : ~ create_room (tiny_pond 3) 1 [97].
Proof.
  intros H. destruct (H [] (tiny_node 3) eq_refl) as [_ Hf]. rewrite tiny_eff in Hf. revert Hf. vm_compute. intros Hf. by apply Hf.
Qed.

(** After the file [a] was created. *)
Definition tiny_created : Pond MemDisk :=
  match pond_create 0 [97] File (tiny_pond 0) with Ret (_, s) => s | _ => tiny_pond 0 end.

Lemma tiny_created_adds : exists j, adds (tiny_pond 0) 1 j [] [97] File tiny_created.
Proof.
  destruct (pond_create_run (tiny_pond 0) 0 1 [97] File) as (x & s' & E & H);
    [apply tiny_inv; lia | apply tiny_handle | apply tiny_handle | apply short_name | apply tiny_room |].
  rewrite tiny_node in H. cbn [find_entry] in H. destruct H as [(c & j & -> & _ & Had) | (_ & _ & Hall)].
  - exists j. unfold tiny_created. by rewrite E.
  - destruct (Hall 2 (proj1 (tiny_free 0))). apply tiny_free.
Qed.
