(* ===== verification/PondSpec.v ===== *)
(** * PondFS: what it promises

    The inode table as a map from inode numbers to files and directories, what
    each operation does to it, and that the code does that: durably, since the
    map is read off the disk.  Then the two operations that break the promise:
    [unlink], and a [create] for which there is no space. *)

From S2P Require Import Prelude Bytes Bitmap Inode Block PondLayout PondFs PondDisk PondFile PondGrow PondDir PondInv PondOps PondWrite PondCreate PondExample.

(** ** Specification *)

Module Inodes.

Definition table : Type := Z -> option pnode.

Inductive op : Type :=
  | Kind | Size
  | Read (off len : Z)
  | Write (off : Z) (bytes : list Z)
  | Lookup (name : Str)
  | Readdir
  | Create (name : Str) (kind : InodeKind).
Inductive reply : Type :=
  | RKind (k : InodeKind)
  | RNum (n : Z)
  | RData (bytes : list Z)
  | RIno (i : Z)
  | RList (l : list (Str * InodeKind))
  | RErr (e : FsError).

Section Step.
  (** The inode numbers there are. *)
  Variable valid : Z -> Prop.

Definition same (t t' : table) : Prop := forall j, valid j -> t' j = t j.
Definition set (t : table) (i : Z) (n : pnode) : table := fun j => if j =? i then Some n else t j.

Definition write_step (t : table) (i : Z) (data : list Z) (off : Z) (b : list Z) (r : reply) (t' : table) : Prop :=
  if MAX_FILE <? off + zlen b then r = RErr Unsupported /\ same t t'
  else (r = RNum (zlen b) /\ same (set t i (PFile (overwrite data off b))) t') \/ (r = RErr NoSpace /\ same t t').

Definition create_step (t : table) (i : Z) (es : list DirEntry) (n : Str) (k : InodeKind) (r : reply) (t' : table) : Prop :=
  match find_entry n es with
  | Some _ => r = RErr Exists_ /\ same t t'
  | None =>
      (exists j, valid j /\ t j = None /\ r = RIno j /\
         same (set (set t j (empty_node k)) i (PDir (es ++ [(n, k, j)]))) t') \/
      (r = RErr NoSpace /\ same t t' /\ forall j, valid j -> t j ≠ None)
  end.

Definition step (t : table) (i : Z) (o : op) (r : reply) (t' : table) : Prop :=
  match t i with
  | None => False
  | Some (PFile data) =>
      match o with
      | Kind => r = RKind File /\ same t t'
      | Size => r = RNum (zlen data) /\ same t t'
      | Read off len => r = RData (take (Z.to_nat len) (drop (Z.to_nat off) data)) /\ same t t'
      | Write off b => write_step t i data off b r t'
      | Lookup _ | Readdir | Create _ _ => r = RErr NotDir /\ same t t'
      end
  | Some (PDir es) =>
      match o with
      | Kind => r = RKind Dir /\ same t t'
      | Size => (exists n, r = RNum n) /\ same t t'
      | Read _ _ | Write _ _ => r = RErr IsDir /\ same t t'
      | Lookup n => r = match find_entry n es with Some j => RIno j | None => RErr NotFound end /\ same t t'
      | Readdir => r = RList es.*1 /\ same t t'
      | Create n k => create_step t i es n k r t'
      end
  end.

End Step.
End Inodes.

(** ** Refinement *)

Section Spec.
  Context {D : Type} {BD : BlockDevice D} {DK : Disk D} {PD : Padding}.
  Implicit Types (d : D) (s : Pond D).

Definition table_of s : Inodes.table := disk_node (dev s) (sb s).

Inductive answer : Type := AReply (r : Inodes.reply) | AHandle (a : Z).
Definition to_answer {A} (f : A -> answer) (c : ST (Pond D) (result A FsError)) : ST (Pond D) answer :=
  let* r := c in st_ret (match r with Ok x => f x | Err e => AReply (Inodes.RErr e) end).
Definition run (o : Inodes.op) (a : Z) : ST (Pond D) answer :=
  match o with
  | Inodes.Kind => let* k := pond_kind a in st_ret (AReply (Inodes.RKind k))
  | Inodes.Size => let* n := pond_size a in st_ret (AReply (Inodes.RNum n))
  | Inodes.Read off len =>
      let* (r, bytes) := pond_read_at a off len in
      st_ret (AReply (match r with Ok n => Inodes.RData (take (Z.to_nat n) bytes) | Err e => Inodes.RErr e end))
  | Inodes.Write off b => to_answer (fun n => AReply (Inodes.RNum n)) (pond_write_at a off b)
  | Inodes.Lookup n => to_answer AHandle (pond_lookup a n)
  | Inodes.Readdir => to_answer (fun l => AReply (Inodes.RList l)) (pond_readdir a)
  | Inodes.Create n k => to_answer AHandle (pond_create a n k)
  end.

(** A handle stands for the inode it is the shared copy of. *)
Definition answers s (x : answer) (y : Inodes.reply) : Prop :=
  match x with AReply x => y = x | AHandle a => exists i, y = Inodes.RIno i /\ handle s a i end.

(** Arguments as the machine has them, names that fit an entry, and space in
    the directory for what is created. *)
Definition op_fits s (i : Z) (o : Inodes.op) : Prop :=
  match o with
  | Inodes.Read off len => 0 <= off /\ 0 <= len /\ off + len < 2 ^ 64
  | Inodes.Write off b => 0 <= off /\ off + zlen b < 2 ^ 64 /\ Forall byte_ok b
  | Inodes.Create n _ => name_ok n /\ create_room s i n
  | _ => True
  end.

Definition refines_op s (a i : Z) (o : Inodes.op) : Prop :=
  exists x s' y, run o a s = Ret (x, s') /\ pond_inv s' /\ unlocked s' /\ sb s' = sb s /\
    (forall b j, handle s b j -> handle s' b j) /\ answers s' x y /\
    Inodes.step (valid_ino (sb s)) (table_of s) i o y (table_of s').

Lemma keeps_same s s' : keeps s s' -> Inodes.same (valid_ino (sb s)) (table_of s) (table_of s').
Proof. intros K j Hj. unfold table_of. rewrite (kp_sb _ _ K). by apply (kp_nodes _ _ K). Qed.

Lemma refines_keeps s a i o x s' y :
  run o a s = Ret (x, s') -> keeps s s' -> answers s' x y ->
  Inodes.step (valid_ino (sb s)) (table_of s) i o y (table_of s') -> refines_op s a i o.
Proof. intros E K Hy Hst. exists x, s', y. do 5 (split; [done || apply K |]). by split. Qed.

Lemma refines_sets s a i o x s' y n :
  run o a s = Ret (x, s') -> sets s i n s' -> answers s' x y ->
  Inodes.step (valid_ino (sb s)) (table_of s) i o y (table_of s') -> refines_op s a i o.
Proof. intros E K Hy Hst. exists x, s', y. do 5 (split; [done || apply K |]). by split. Qed.

Lemma sets_same s i n s' : sets s i n s' -> Inodes.same (valid_ino (sb s)) (Inodes.set (table_of s) i n) (table_of s').
Proof.
  intros K j Hj. unfold table_of, Inodes.set. rewrite (st_sb _ _ _ _ K).
  destruct (Z.eqb_spec j i) as [-> |]; [apply K | by apply (st_nodes _ _ _ _ K)].
Qed.

Section Steps.
  Variables (s : Pond D) (a i : Z).
  Hypothesis Hinv : pond_inv s.
  Hypothesis Hun : unlocked s.
  Hypothesis Ha : handle s a i.

Lemma handle_node :
  (exists data, disk_node (dev s) (sb s) i = Some (PFile data)) \/ (exists es, disk_node (dev s) (sb s) i = Some (PDir es)).
Proof. destruct (handle_cases s a i Hinv Ha) as (r & _ & _ & _ & _ & [[_ Hn] | [_ (es & _ & Hn)]]); eauto. Qed.

Lemma pond_refines_kind_size : refines_op s a i Inodes.Kind /\ refines_op s a i Inodes.Size.
Proof.
  destruct (pond_kind_size_run s a i Hinv Hun Ha) as (n & Hn & Ek & z & Ez & Hz). pose proof (keeps_refl s Hinv Hun) as K.
  split.
  - apply (refines_keeps s a i _ (AReply (Inodes.RKind (node_kind n))) s (Inodes.RKind (node_kind n))); [| done | done |].
    + unfold run. by rewrite (st_bind_step _ _ _ _ _ Ek).
    + unfold Inodes.step, table_of. rewrite Hn. by destruct n.
  - apply (refines_keeps s a i _ (AReply (Inodes.RNum z)) s (Inodes.RNum z)); [| done | done |].
    + unfold run. by rewrite (st_bind_step _ _ _ _ _ Ez).
    + unfold Inodes.step, table_of. rewrite Hn. destruct n; [by rewrite (Hz data eq_refl) | by split; [eexists |]].
Qed.

Lemma pond_refines_read off len : 0 <= off -> 0 <= len -> off + len < 2 ^ 64 -> refines_op s a i (Inodes.Read off len).
Proof.
  intros Ho Hl Hf. destruct (pond_read_at_run s a i Hinv Hun Ha off len Ho Hl Hf) as (x & s' & E & K & Hx).
  destruct handle_node as [[data Hn] | [es Hn]]; rewrite Hn in Hx; cbv zeta in Hx; subst x;
    (eapply (refines_keeps s a i); [unfold run; rewrite (st_bind_step _ _ _ _ _ E); done | done | done |]);
    unfold Inodes.step, table_of; rewrite Hn; (split; [| by apply keeps_same]).
  - f_equal. apply take_ge. unfold zlen. lia.
  - done.
Qed.

Lemma pond_refines_write off b : 0 <= off -> off + zlen b < 2 ^ 64 -> Forall byte_ok b -> refines_op s a i (Inodes.Write off b).
Proof.
  intros Ho Hl Hf. destruct (pond_write_at_run s a i off b Hinv Hun Ha Ho Hl Hf) as (x & s' & E & Hx).
  assert (run (Inodes.Write off b) a s = Ret (match x with Ok n => AReply (Inodes.RNum n) | Err e => AReply (Inodes.RErr e) end, s')) as Er
    by (unfold run, to_answer; by rewrite (st_bind_step _ _ _ _ _ E)).
  destruct handle_node as [[data Hn] | [es Hn]]; rewrite Hn in Hx.
  - destruct (MAX_FILE <? off + zlen b) eqn:Em.
    + destruct Hx as [-> K]. eapply (refines_keeps s a i); [exact Er | done | done |].
      unfold Inodes.step, table_of. rewrite Hn. unfold Inodes.write_step. rewrite Em. split; [done | by apply keeps_same].
    + destruct Hx as [[-> K] | (-> & K & _)].
      * eapply (refines_sets s a i); [exact Er | done | done |].
        unfold Inodes.step, table_of. rewrite Hn. unfold Inodes.write_step. rewrite Em. left. split; [done | by apply sets_same].
      * eapply (refines_keeps s a i); [exact Er | done | done |].
        unfold Inodes.step, table_of. rewrite Hn. unfold Inodes.write_step. rewrite Em. right. split; [done | by apply keeps_same].
  - destruct Hx as [-> K]. eapply (refines_keeps s a i); [exact Er | done | done |].
    unfold Inodes.step, table_of. rewrite Hn. split; [done | by apply keeps_same].
Qed.

Lemma pond_refines_lookup n : refines_op s a i (Inodes.Lookup n).
Proof.
  destruct (pond_lookup_run s a i Hinv Hun Ha n) as (x & s' & E & K & Hx).
  assert (run (Inodes.Lookup n) a s = Ret (match x with Ok n => AHandle n | Err e => AReply (Inodes.RErr e) end, s')) as Er
    by (unfold run, to_answer; by rewrite (st_bind_step _ _ _ _ _ E)).
  destruct handle_node as [[data Hn] | [es Hn]]; rewrite Hn in Hx;
    [| destruct (find_entry n es) as [j |] eqn:Ef; [destruct Hx as (b & Hx & Hh) |]]; subst x;
    (eapply (refines_keeps s a i); [exact Er | done | try done; by exists j |]);
    unfold Inodes.step, table_of; rewrite Hn, ?Ef; (split; [done | by apply keeps_same]).
Qed.

Lemma pond_refines_readdir : refines_op s a i Inodes.Readdir.
Proof.
  destruct (pond_readdir_run s a i Hinv Hun Ha) as (x & s' & E & K & Hx).
  assert (run Inodes.Readdir a s = Ret (match x with Ok l => AReply (Inodes.RList l) | Err e => AReply (Inodes.RErr e) end, s')) as Er
    by (unfold run, to_answer; by rewrite (st_bind_step _ _ _ _ _ E)).
  destruct handle_node as [[data Hn] | [es Hn]]; rewrite Hn in Hx; subst x;
    (eapply (refines_keeps s a i); [exact Er | done | done |]);
    unfold Inodes.step, table_of; rewrite Hn; (split; [done | by apply keeps_same]).
Qed.

Lemma adds_same es n k j s' : adds s i j es n k s' ->
  Inodes.same (valid_ino (sb s)) (Inodes.set (Inodes.set (table_of s) j (empty_node k)) i (PDir (es ++ [(n, k, j)]))) (table_of s').
Proof.
  intros K x Hx. unfold table_of, Inodes.set. rewrite (ad_sb _ _ _ _ _ _ _ K).
  destruct (Z.eqb_spec x i) as [-> |]; [apply K |]. destruct (Z.eqb_spec x j) as [-> |]; [apply K | by apply (ad_nodes _ _ _ _ _ _ _ K)].
Qed.

Lemma pond_refines_create n k : name_ok n -> create_room s i n -> refines_op s a i (Inodes.Create n k).
Proof.
  intros Hname Hroom. destruct (pond_create_run s a i n k Hinv Hun Ha Hname Hroom) as (x & s' & E & Hx).
  assert (run (Inodes.Create n k) a s = Ret (match x with Ok c => AHandle c | Err e => AReply (Inodes.RErr e) end, s')) as Er
    by (unfold run, to_answer; by rewrite (st_bind_step _ _ _ _ _ E)).
  destruct handle_node as [[data Hn] | [es Hn]]; rewrite Hn in Hx.
  { destruct Hx as [-> K]. eapply (refines_keeps s a i); [exact Er | done | done |].
    unfold Inodes.step, table_of. rewrite Hn. split; [done | by apply keeps_same]. }
  destruct (find_entry n es) as [j0 |] eqn:Ef; [destruct Hx as [-> K] | destruct Hx as [(c & j & -> & Hh & K) | (-> & K & Hall)]].
  - eapply (refines_keeps s a i); [exact Er | done | done |].
    unfold Inodes.step, table_of. rewrite Hn. unfold Inodes.create_step. rewrite Ef. split; [done | by apply keeps_same].
  - exists (AHandle c), s', (Inodes.RIno j). do 5 (split; [done || apply K |]). split; [by exists j |].
    unfold Inodes.step, table_of. rewrite Hn. unfold Inodes.create_step. rewrite Ef. left. exists j.
    split; [apply K |]. split; [apply K |]. split; [done | by apply adds_same].
  - eapply (refines_keeps s a i); [exact Er | done | done |].
    unfold Inodes.step, table_of. rewrite Hn. unfold Inodes.create_step. rewrite Ef. right.
    split; [done |]. split; [by apply keeps_same | done].
Qed.

End Steps.

(** C1 PondFS implements the inode table: started from a state that satisfies
    the invariant, with a handle on inode [i], each of kind, size, read, write,
    lookup, readdir and create returns (no panic, no deadlock), answers what
    the table says, and leaves on the disk the table that the specification
    gives: a write changes the bytes of that one file and is refused past 48
    KiB, a create adds one empty node under an unused number and one entry,
    every other file and directory keeps its contents.  The invariant holds
    again and every handle given out stays valid. *)
Theorem pondfs_refines_inodes s (a i : Z) (o : Inodes.op) :
  pond_inv s -> unlocked s -> handle s a i -> op_fits s i o -> refines_op s a i o.
Proof.
  intros Hinv Hun Ha Hf. destruct o; simpl in Hf.
  - by apply pond_refines_kind_size.
  - by apply pond_refines_kind_size.
  - destruct Hf as (? & ? & ?). by apply pond_refines_read.
  - destruct Hf as (? & ? & ?). by apply pond_refines_write.
  - by apply pond_refines_lookup.
  - by apply pond_refines_readdir.
  - destruct Hf. by apply pond_refines_create.
Qed.

(** ** Where the promise is broken *)

Lemma locked_both_deadlock {A} (a : Z) (body : ST (Pond D) A) s :
  unlocked s -> body (with_locks s true {[a]}) = Deadlock -> locked_fs (locked_raw a body) s = Deadlock.
Proof.
  intros [Hf Hr] E. assert (locked_raw a body (with_locks s true (raw_locked s)) = Deadlock) as E'.
  { unfold locked_raw, st_get, st_modify, st_bind, st_ret. simpl. rewrite Hr, decide_False by set_solver. simpl.
    rewrite (right_id_L ∅ (∪)). change (with_locks (with_locks s true ∅) true {[a]}) with (with_locks s true {[a]}). by rewrite E. }
  unfold locked_fs, st_get, st_modify, st_bind. simpl. rewrite Hf. simpl. by rewrite E'.
Qed.

Lemma remove_entry_find n es : is_Some (find_entry n es) -> exists i es', remove_entry n es = Some (i, es').
Proof.
  induction es as [| [[m k] j] es IH]; simpl; [by intros [? ?] |]. destruct (decide (m = n)) as [-> | Hne]; [by eexists _, _ |].
  intros (i & es' & ->)%IH. by eexists _, _.
Qed.

(** Removing a name that exists never returns: with a handle on a directory
    that has the entry, [unlink] blocks forever, because it looks up the
    inode through [get_or_load], which takes the file system lock that
    [unlink] already holds. *)
Theorem pondfs_unlink_deadlocks s (a i : Z) (n : Str) (es : list DirEntry) :
  pond_inv s -> unlocked s -> handle s a i -> table_of s i = Some (PDir es) -> is_Some (find_entry n es) ->
  pond_unlink a n s = Deadlock.
Proof.
  intros Hinv Hun Ha Hn (j & es' & Hrem)%remove_entry_find. unfold table_of in Hn.
  destruct (handle_cases s a i Hinv Ha) as (r & Hs & Er & Hu & Hg & [[Hk Hn'] | [Hk (es0 & Hd & Hn')]]); rewrite Hn in Hn'; [done |].
  injection Hn' as <-. set (s0 := with_locks s true {[a]}).
  assert (disk_ok s0) as Hok by (destruct (pi_disk _ Hinv); by split).
  destruct (dir_read_entries_run s0 r es Hok) as (d1 & E1 & W1); [apply Hg | apply Hg | apply Hd |].
  apply locked_both_deadlock; [done |]. fold s0.
  rewrite (st_bind_step (get_state a) _ s0 s0 (mkInodeState i r)) by (unfold get_state, s0; psimpl; by rewrite Hs).
  cbn [raw]. rewrite Hk. assert (negb (INODE_KIND_DIR =? INODE_KIND_DIR) = false) as -> by done.
  rewrite (st_try_Ok _ _ _ _ _ E1), Hrem. unfold st_try, get_or_load, locked_fs, st_get, st_bind, st_lift. done.
Qed.

(** A directory whose in-memory size is zero reads as empty. *)
Lemma readdir_empty s (a : Z) x :
  unlocked s -> states s !! a = Some x -> r_kind (raw x) = INODE_KIND_DIR -> r_size (raw x) = 0 -> pond_readdir a s = Ret (Ok [], s).
Proof.
  intros Hun Hs Hk Hz. unfold pond_readdir. rewrite (st_bind_step _ _ _ _ _ (peek_run s a x Hun Hs)), Hk.
  cbn [negb INODE_KIND_DIR Z.eqb Pos.eqb].
  assert (dir_read_entries (raw x) (with_locks s true (raw_locked s)) = Ret (Ok [], with_locks s true (raw_locked s))) as E.
  { unfold dir_read_entries, read_file_at. rewrite Hz. done. }
  erewrite st_try_Ok; [| apply locked_fs_run; [apply Hun | exact E]]. psimpl. destruct Hun, s. simpl in *. by subst.
Qed.

(** [create] after a directory write that failed. *)
Lemma create_tail_fails s (a i j c : Z) (r r1 : RawInode) es e s1 i0 r0 :
  dir_write_entries r es s = Ret ((Err e, r1), s1) -> states s1 !! a = Some (mkInodeState i0 r0) ->
  create_tail a i j c r es s = Ret (Err e, with_states s1 (<[a := mkInodeState i0 r1]> (states s1)) (next_state s1)).
Proof.
  intros E Hs. unfold create_tail. rewrite (st_bind_step _ _ _ _ _ E). unfold st_bind, set_raw. by rewrite Hs.
Qed.

(** A create for which the directory has no space loses the directory: when
    the entries with the new one exceed 48 KiB, or need more data blocks than
    are free, and an inode is available, [create] fails and leaves the shared
    in-memory copy with size zero, so that the directory then lists as empty. *)
Theorem pondfs_failed_create_empties s (a i : Z) (n : Str) (k : InodeKind) (es : list DirEntry) :
  pond_inv s -> unlocked s -> handle s a i -> name_ok n ->
  table_of s i = Some (PDir es) -> find_entry n es = None -> ~ create_room s i n ->
  (exists j, valid_ino (sb s) j /\ table_of s j = None) ->
  exists e s', pond_create a n k s = Ret (Err e, s') /\ (e = Unsupported \/ e = NoSpace) /\ pond_readdir a s' = Ret (Ok [], s').
Proof.
  intros Hinv Hun Ha Hname Hn Hf Hroom (j0 & Hj0 & Hfree). unfold table_of in *.
  destruct (create_prefix s a i n k Hinv Hun Ha) as [(b & Hn' & _) | (r & es0 & Hs & Er & Hk & Hd & Hg & Hn' & Hc)];
    rewrite Hn in Hn'; [done | injection Hn' as <-].
  destruct Hc as [([j Hf'] & _) | [(_ & Hall & s' & E & K) | (_ & j & sA & HA & Hrun)]]; [congruence | |].
  { exfalso. assert (used s j0) as Hu by (split; [done | by apply Hall]). rewrite (disk_node_eff s j0 Hinv Hu) in Hfree.
    destruct (pi_used _ Hinv j0 Hu) as [_ _ [Ek | Ek] _ Hsz _ _]; [by rewrite node_of_file in Hfree |].
    destruct (pi_dirs _ Hinv j0 Hu Ek) as (es' & He & _). by rewrite (node_of_dir _ _ es') in Hfree. }
  destruct (tail_frame s a i j r es k sA Hinv Hun Ha Hs Hd HA) as (_ & HsA & HaA & EsbA & EbmA & HunA & _ & _ & _ & HeA).
  assert (disk_ok (with_locks sA true {[a]})) as HokA by (destruct (pi_disk _ (ia_inv _ _ _ _ HA)); by split).
  destruct (dir_write_entries_run (with_locks sA true {[a]}) r es (n, k, j) HokA) as
    [[Hbad E] | [(Hle & Hfr & s1 & r1 & E & H & He) | (_ & s1 & r1 & E & G & Hbad)]];
    [psimpl; rewrite EsbA, EbmA; apply Hg | apply Hg | exact HeA | apply (name_entry s); [apply Hinv | apply HA | done] | | |].
  - eexists _, _. split; [apply Hrun; [by apply (create_tail_fails _ _ _ _ _ _ _ _ _ _ i r E) | done] |]. split; [by left |].
    eapply readdir_empty; [done | psimpl; apply lookup_insert_eq | done | done].
  - destruct Hroom. intros es' Hn' _. rewrite Hn in Hn'. injection Hn' as <-. rewrite <- (dir_len_name es n k j). split; [done |].
    unfold free_blocks in *. cbn in Hfr. rewrite EsbA, EbmA in Hfr. by rewrite Er.
  - assert (states s1 = states sA) as Est by (pose proof (f_equal states (gr_rest _ _ _ _ G)) as X; exact X).
    assert (raw_locked s1 = {[a]}) as El by (pose proof (f_equal raw_locked (gr_rest _ _ _ _ G)) as X; exact X).
    eexists _, _. split; [apply Hrun; [apply (create_tail_fails _ _ _ _ _ _ _ _ _ _ i r E); by rewrite Est | done] |]. split; [by right |].
    eapply readdir_empty; [done | psimpl; apply lookup_insert_eq | |]; cbn [raw]; rewrite (gr_raw _ _ _ _ G); done.
Qed.

End Spec.

(** ** Applied *)

Lemma pondfs_refines_inodes_witness :
  handle (tiny_pond 0) 0 1 /\ refines_op (tiny_pond 0) 0 1 (Inodes.Create [97] File).
Proof.
  split; [apply tiny_handle |].
  apply (pondfs_refines_inodes (tiny_pond 0) 0 1 (Inodes.Create [97] File) (tiny_inv 0 ltac:(lia)) (proj1 (tiny_handle 0)) (proj2 (tiny_handle 0))).
  exact (conj short_name tiny_room).
Defined.

Lemma pondfs_unlink_deadlocks_witness :
  unlocked tiny_created /\ pond_unlink 0 [97] tiny_created = Deadlock.
Proof.
  destruct tiny_created_adds as (j & Had). split; [apply Had |].
  apply (pondfs_unlink_deadlocks tiny_created 0 1 [97] [([97], File, j)]);
    [apply Had | apply Had | apply Had, tiny_handle | exact (ad_dir _ _ _ _ _ _ _ Had) | by eexists].
Defined.

Lemma pondfs_failed_create_empties_witness :
  exists e s', pond_create 0 [97] File (tiny_pond 3) = Ret (Err e, s') /\ (e = Unsupported \/ e = NoSpace) /\ pond_readdir 0 s' = Ret (Ok [], s').
Proof.
  apply (pondfs_failed_create_empties (tiny_pond 3) 0 1 [97] File []);
    [apply tiny_inv; lia | apply tiny_handle | apply tiny_handle | apply short_name | apply tiny_node | done | apply tiny_no_room |].
  exists 2. exact (tiny_free 3).
Defined.
