(* ===== verification/PondMount.v ===== *)
(** * PondFS: mounting

    What a mount finds on the disk is what the operations left there, whatever
    was in memory. *)

From S2P Require Import Prelude Bytes Bitmap Inode Block PondLayout PondFs PondDisk PondFile PondGrow PondDir PondInv PondOps PondWrite PondCreate PondExample PondSpec.

Section Mount.
  Context {D : Type} {BD : BlockDevice D} {DK : Disk D} {PD : Padding}.
  Implicit Types (d : D) (s : Pond D) (r q : RawInode).

(** A file system of which nothing is in memory but the superblock and the
    bitmap. *)
Definition fresh_pond d (g : Superblock) (bm : list Z) : Pond D := mkPond d g bm ∅ ∅ 0 false ∅.

(** ** Forgetting what is in memory *)

Lemma agrees_good d g bm r q : inode_good d g bm r q -> inode_good d g bm q q.
Proof.
  intros [G1 G2 G3 G4 G5 G6 [A1 A2 A3 A4]]. split; [done | done | by rewrite A1 | | done | | by split].
  - destruct G4 as [L R I]. split; [apply G2 | |].
    + intros k b Hk Hb. by apply (R k b (A4 k b Hk Hb)).
    + intros k l b Hk Hl Hb. by apply (I k l b (A4 _ _ Hk Hb) (A4 _ _ Hl Hb)).
  - rewrite A1. intros Hf x Hx. rewrite A2 in Hx. pose proof (G6 Hf x Hx) as Hz. unfold fbyte in *.
    destruct (direct_at q (x / BLOCK_SIZE) ltac:(apply G2)) as [E _]; [apply block_index; destruct G5; lia |].
    destruct (Z.eqb_spec (direct q !!! Z.to_nat (x / BLOCK_SIZE)) 0) as [| Hne]; [done |].
    rewrite (list_lookup_total_correct _ _ _ (A4 _ _ E Hne)) in Hz. by rewrite (proj2 (Z.eqb_neq _ _) Hne) in Hz.
Qed.

Lemma forget_inv s : pond_inv s -> pond_inv (fresh_pond (dev s) (sb s) (bitmap s)).
Proof.
  intros Hi. assert (forall j, eff (fresh_pond (dev s) (sb s) (bitmap s)) j = disk_raw (dev s) (sb s) j) as Heff by done.
  split.
  - destruct (pi_disk _ Hi). by split.
  - intros i a H. cbn in H. by apply lookup_empty_Some in H.
  - intros a [? H]. cbn in H. by apply lookup_empty_Some in H.
  - intros i Hu. rewrite Heff. by apply (agrees_good _ _ _ (eff s i)), (pi_used _ Hi).
  - intros i j k l b Hui Huj. rewrite !Heff. intros Hk Hl Hb.
    apply (pi_distinct _ Hi i j k l b Hui Huj); [| | done].
    + by apply (ag_direct _ _ (ig_agrees _ _ _ _ _ (pi_used _ Hi i Hui))).
    + by apply (ag_direct _ _ (ig_agrees _ _ _ _ _ (pi_used _ Hi j Huj))).
  - intros i Hu. rewrite Heff. pose proof (pi_used _ Hi i Hu) as [_ G2 _ _ _ _ Ha]. intros Hk.
    rewrite (ag_kind _ _ Ha) in Hk. destruct (pi_dirs _ Hi i Hu Hk) as (es & He & Hnd & Hes). exists es.
    split_and!; [| done | done]. cbn [fresh_pond dev]. by rewrite (content_agrees _ (eff s i)) by (apply G2 || done).
Qed.

(** ** The bitmap *)

Lemma read_bitmap_run (n : nat) d g bm acc k :
  dev_ok d -> geometry g (dev_blocks d) -> bitmap_ok d g bm -> 0 <= k -> k + Z.of_nat n = bitmap_blocks g ->
  zlen acc = zlen bm -> take (Z.to_nat (k * BLOCK_SIZE)) acc = take (Z.to_nat (k * BLOCK_SIZE)) bm ->
  exists d', read_bitmap g acc (seqZ k (Z.of_nat n)) d = Ret (Ok bm, d') /\ written d ∅ d'.
Proof.
  revert d acc k. induction n as [| n IH]; intros d acc k Hd Hg Hbm Hk Hn Hl Ht.
  - exists d. rewrite seqZ_nil by lia. split; [| by apply written_refl]. cbn. pose proof (bm_len _ _ _ Hbm) as Hlen.
    replace acc with bm; [done |]. rewrite !take_ge in Ht; [done | unfold zlen, BLOCK_SIZE in *; nia ..].
  - rewrite seqZ_cons by lia. replace (Z.pred (Z.of_nat (S n))) with (Z.of_nat n) by lia.
    pose proof (bm_len _ _ _ Hbm) as Hlen. unfold BLOCK_SIZE in Hlen. pose proof (dev_size_ok _ Hd) as (_ & _ & _ & Hlim). unfold DISK_BLOCK in Hlim.
    assert (0 <= bitmap_start g + k < dev_blocks d) as Hr by (destruct Hg as [_ _ Gb Gt Gd _ _]; lia).
    destruct (dev_read_block_spec d _ Hd Hr) as (d1 & E1 & W1). rewrite (bm_disk _ _ _ Hbm k ltac:(lia)) in E1.
    set (blk := take 4096 (drop (Z.to_nat (k * BLOCK_SIZE)) bm)) in *.
    assert (zlen blk = 4096) as Hbl by (unfold blk, zlen, BLOCK_SIZE in *; rewrite length_take, length_drop; lia).
    cbn [read_bitmap]. rewrite (st_bind_step (st_lift _) _ d d (bitmap_start g + k)) by (unfold st_lift; rewrite checked_fits by lia; done).
    rewrite (st_try_Ok _ _ _ _ _ E1).
    assert (splice acc (k * BLOCK_SIZE) blk = Ret (take (Z.to_nat (k * BLOCK_SIZE)) acc ++ blk ++ drop (Z.to_nat (k * BLOCK_SIZE) + length blk) acc)) as Es.
    { apply splice_Ret. unfold BLOCK_SIZE in *. split_and!; [lia | nia | done]. }
    set (acc' := take _ acc ++ _) in Es. rewrite (st_bind_step (st_lift _) _ d1 d1 acc') by (unfold st_lift; by rewrite Es).
    destruct (IH d1 acc' (Z.succ k)) as (d2 & E2 & W2).
    + apply W1.
    + by rewrite (wr_count _ _ _ W1).
    + by apply (bitmap_ok_frame d ∅).
    + lia.
    + lia.
    + rewrite (splice_length _ _ _ _ Es). done.
    + unfold acc'. rewrite Ht. replace (Z.to_nat (Z.succ k * BLOCK_SIZE)) with (Z.to_nat (k * BLOCK_SIZE) + 4096)%nat by (unfold BLOCK_SIZE; lia).
      rewrite <- (take_take_drop bm (Z.to_nat (k * BLOCK_SIZE)) 4096). fold blk. rewrite app_assoc.
      rewrite take_app_length'; [done |]. unfold zlen, BLOCK_SIZE in *. rewrite length_app, length_take. lia.
    + exists d2. split; [done |]. exact (written_read _ _ _ _ W1 W2).
Qed.

(** ** [mount] *)

Lemma mount_run d g bm :
  pond_inv (fresh_pond d g bm) -> used (fresh_pond d g bm) ROOT_INO ->
  exists s a, pond_mount d = Ret (Ok (s, a)) /\ pond_inv s /\ unlocked s /\ handle s a ROOT_INO /\ sb s = g /\
    forall j, valid_ino g j -> disk_node (dev s) g j = disk_node d g j.
Proof.
  intros Hi Hu. pose proof (pi_disk _ Hi) as [Hd Hg Hbm]. cbn in Hd, Hg, Hbm.
  pose proof (dev_size_ok _ Hd) as (_ & _ & _ & Hlim). unfold DISK_BLOCK in Hlim.
  assert (0 <= 0 < dev_blocks d) as H0 by (destruct Hg as [_ _ Gb Gt Gd _ _]; lia).
  assert (0 <= bitmap_blocks g * BLOCK_SIZE < 2 ^ 64 /\ 0 <= bitmap_blocks g) as [Hbb Hbb2]
    by (destruct Hg as [_ _ Gb Gt Gd _ _]; unfold BLOCK_SIZE; lia).
  assert (bitmap_blocks g * BLOCK_SIZE < 2 ^ 63) as Hvec by apply Hg.
  destruct (dev_read_block_spec d 0 Hd H0) as (d1 & E1 & W1).
  destruct (pond_inv_read _ d1 Hi W1) as [Hi1 Hn1].
  pose proof (pi_disk _ Hi1) as [Hd1 Hg1 Hbm1]. cbn in Hd1, Hg1, Hbm1.
  destruct (read_bitmap_run (Z.to_nat (bitmap_blocks g)) d1 g bm (replicate (Z.to_nat (bitmap_blocks g * BLOCK_SIZE)) 0) 0) as (d2 & E2 & W2);
    [done | done | done | lia | lia | rewrite (bm_len _ _ _ Hbm); unfold zlen; rewrite length_replicate; lia | done |].
  rewrite Z2Nat.id in E2 by lia. destruct (pond_inv_read _ d2 Hi1 W2) as [Hi2 Hn2].
  set (s2 := fresh_pond d2 g bm). change (pond_inv s2) in Hi2.
  assert (unlocked s2) as Hun by done.
  assert (forall j, valid_ino g j -> disk_raw d2 g j = disk_raw d g j) as Hraw.
  { intros j Hj. apply disk_raw_same; [exact (written_read _ _ _ _ W1 W2) | done | unfold valid_ino in Hj; lia]. }
  assert (used s2 ROOT_INO) as Hu2.
  { destruct Hu as [Hv Hk]. split; [exact Hv |]. change (r_kind (disk_raw d2 g ROOT_INO) ≠ INODE_KIND_UNUSED). rewrite Hraw by exact Hv. exact Hk. }
  destruct (load_inode_run s2 ROOT_INO Hi2 Hun Hu2) as (d3 & W3 & El).
  destruct (pond_inv_read s2 d3 Hi2 W3) as [Hi3 Hn3].
  assert (disk_raw d3 g ROOT_INO = disk_raw d2 g ROOT_INO) as Eraw.
  { apply (disk_raw_same d2); [done | apply (pi_disk _ Hi2) | destruct Hu2 as [Hv _]; unfold valid_ino in Hv; cbn in Hv; lia]. }
  destruct (cached_keeps (with_dev s2 d3) ROOT_INO Hi3 Hun) as [K Hh]; [| apply lookup_empty |].
  { destruct Hu2 as [Hv Hk]. split; [exact Hv |]. change (r_kind (disk_raw d3 g ROOT_INO) ≠ INODE_KIND_UNUSED). rewrite Eraw. exact Hk. }
  eexists _, _. split; [| split; [apply K |]; split; [apply K |]; split; [exact Hh |]; split; [done |]].
  - unfold pond_mount. rewrite E1. cbn [obind]. rewrite (bm_super _ _ _ Hbm). cbv zeta.
    rewrite decide_False by (intros []; apply Hg). rewrite (g_version _ _ Hg). cbn [negb Z.eqb POND_VERSION Pos.eqb].
    rewrite checked_fits by lia. cbn [obind]. rewrite (proj2 (Z.ltb_lt _ _) Hvec). cbn [obind]. rewrite E2. cbn [obind].
    fold (fresh_pond d2 g bm). fold s2. rewrite El. cbn [obind].
    erewrite locked_fs_run; [| done | done]. cbn [obind]. unfold cached, s2, fresh_pond. psimpl. rewrite Eraw. done.
  - intros j Hj. etransitivity; [by apply (kp_nodes _ _ K) |]. etransitivity; [by apply Hn3 |].
    etransitivity; [by apply Hn2 | by apply Hn1].
Qed.

(** C9 What the operations did survives: when the file system is mounted again
    from the disk of a state that satisfies the invariant, whatever was in
    memory, the mount succeeds, the new state satisfies the invariant, its
    root handle is valid, and every inode holds what it held before. *)
Theorem pondfs_remount s :
  pond_inv s -> used s ROOT_INO ->
  exists s' a, pond_mount (dev s) = Ret (Ok (s', a)) /\ pond_inv s' /\ unlocked s' /\ handle s' a ROOT_INO /\ sb s' = sb s /\
    forall j, valid_ino (sb s) j -> table_of s' j = table_of s j.
Proof.
  intros Hi Hu. destruct (mount_run (dev s) (sb s) (bitmap s) (forget_inv s Hi) Hu) as (s' & a & E & H1 & H2 & H3 & H4 & H5).
  exists s', a. do 5 (split; [done |]). intros j Hj. unfold table_of. rewrite H4. by apply H5.
Qed.

End Mount.

Lemma pondfs_remount_witness :
  pond_inv tiny_created /\
  exists s' a, pond_mount (dev tiny_created) = Ret (Ok (s', a)) /\ pond_inv s' /\ unlocked s' /\ handle s' a ROOT_INO /\
    sb s' = sb tiny_created /\ forall j, valid_ino (sb tiny_created) j -> table_of s' j = table_of tiny_created j.
Proof.
  destruct tiny_created_adds as (j & Had). split; [apply Had |].
  apply (pondfs_remount tiny_created); [apply Had |].
  destruct (pi_cache _ (ad_inv _ _ _ _ _ _ _ Had) 1 0) as (r & _ & Hu); [apply Had, tiny_handle | exact Hu].
Defined.
