(* ===== verification/MkPondFs.v ===== *)
(** * mkpondfs

    [tools/mkpondfs/src/main.rs], the host program that formats an image and
    copies a directory tree into it.  The image is the list of its whole
    blocks.  The tree is what [read_dir] and [metadata] report: the entries of
    a directory in the order of [read_dir], names as [to_string_lossy] gives
    them; a node that is neither a directory nor a regular file is skipped. *)

From S2P Require Import Prelude Bytes Inode PondLayout PondFs.

#[local] Unset Elimination Schemes.
Inductive HostNode : Type :=
  | HFile (bytes : list Z)
  | HDir (entries : list (Str * HostNode))
  | HOther.
#[local] Set Elimination Schemes.

Definition HostDir : Type := list (Str * HostNode).

Record Formatter : Type := mkFormatter {
  img : list (list Z);
  fm_total_blocks : Z;
  fm_inode_count : Z;
  fm_inodes : list RawInode;
  fm_bitmap : list Z;
  fm_bitmap_start : Z;
  fm_bitmap_blocks : Z;
  fm_inode_table_start : Z;
  fm_inode_table_blocks : Z;
  fm_data_start : Z
}.
Definition with_img (f : Formatter) (i : list (list Z)) : Formatter :=
  mkFormatter i (fm_total_blocks f) (fm_inode_count f) (fm_inodes f) (fm_bitmap f) (fm_bitmap_start f) (fm_bitmap_blocks f)
    (fm_inode_table_start f) (fm_inode_table_blocks f) (fm_data_start f).
Definition with_fm_bitmap (f : Formatter) (b : list Z) : Formatter :=
  mkFormatter (img f) (fm_total_blocks f) (fm_inode_count f) (fm_inodes f) b (fm_bitmap_start f) (fm_bitmap_blocks f)
    (fm_inode_table_start f) (fm_inode_table_blocks f) (fm_data_start f).
Definition with_inodes (f : Formatter) (l : list RawInode) : Formatter :=
  mkFormatter (img f) (fm_total_blocks f) (fm_inode_count f) l (fm_bitmap f) (fm_bitmap_start f) (fm_bitmap_blocks f)
    (fm_inode_table_start f) (fm_inode_table_blocks f) (fm_data_start f).

Definition FM (A : Type) : Type := ST Formatter A.

(** [RawInode::default()]. *)
Definition raw_default : RawInode := mkRawInode 0 0 0 0 0 0 (replicate (Z.to_nat DIRECT_BLOCKS) 0).

(** ** [Formatter::new] *)

(** The loop that sizes the bitmap.  The need does not grow with the bitmap, so
    the third turn is the last. *)
Fixpoint size_bitmap (fuel : nat) (total_blocks inode_table_blocks bitmap_blocks : Z) : outcome Z :=
  match fuel with
  | O => OutOfFuel
  | S fuel =>
      let reserved := 1 + bitmap_blocks + inode_table_blocks in
      let data_blocks := Z.max 0 (total_blocks - reserved) in
      let need := div_ceil data_blocks (8 * BLOCK_SIZE) in
      if need <=? bitmap_blocks then Ret bitmap_blocks else size_bitmap fuel total_blocks inode_table_blocks need
  end.

Definition formatter_new (image : list (list Z)) (total_bytes inode_count : Z) : outcome Formatter :=
  let total_blocks := total_bytes / BLOCK_SIZE in
  if negb (64 <=? total_blocks) then Panic
  else
    let inode_table_blocks := div_ceil inode_count INODES_PER_BLOCK in
    let! bitmap_blocks := size_bitmap 3 total_blocks inode_table_blocks 1 in
    let bitmap_start := 1 in
    let inode_table_start := bitmap_start + bitmap_blocks in
    let data_start := inode_table_start + inode_table_blocks in
    Ret (mkFormatter image total_blocks inode_count (replicate (Z.to_nat inode_count) raw_default)
      (replicate (Z.to_nat (bitmap_blocks * BLOCK_SIZE)) 0) bitmap_start bitmap_blocks inode_table_start inode_table_blocks data_start).

(** ** Allocation *)

Fixpoint mk_alloc_scan (ixs : list Z) : FM Z :=
  match ixs with
  | [] => st_lift Panic
  | i :: ixs =>
      let byte := i / 8 in
      let bit := i mod 8 in
      let* f := st_get in
      let* b := st_lift (idx (fm_bitmap f) byte) in
      if Z.land b (Z.shiftl 1 bit) =? 0 then
        let* bm := st_lift (upd (fm_bitmap f) byte (Z.lor b (Z.shiftl 1 bit))) in
        let* _ := st_modify (fun f => with_fm_bitmap f bm) in
        st_ret (fm_data_start f + i)
      else mk_alloc_scan ixs
  end.
Definition mk_alloc_data_block : FM Z :=
  let* f := st_get in
  let* data_blocks := st_lift (checked 64 (fm_total_blocks f - fm_data_start f)) in
  mk_alloc_scan (seqZ 0 data_blocks).

(** The position of the first unused inode but the zeroth. *)
Fixpoint first_unused (i : Z) (l : list RawInode) : option Z :=
  match l with
  | [] => None
  | r :: l => if (1 <=? i) && (r_kind r =? INODE_KIND_UNUSED) then Some i else first_unused (i + 1) l
  end.
Definition mk_alloc_inode : FM Z :=
  let* f := st_get in
  match first_unused 0 (fm_inodes f) with Some i => st_ret i | None => st_lift Panic end.

(** A write past the end extends the file. *)
Definition put_block (image : list (list Z)) (blk : Z) (data : list Z) : list (list Z) :=
  if blk <? zlen image then <[Z.to_nat blk := data]> image
  else image ++ replicate (Z.to_nat (blk - zlen image)) zero_block ++ [data].
Definition mk_write_block (blk : Z) (data : list Z) : FM unit := st_modify (fun f => with_img f (put_block (img f) blk data)).

Definition get_inode (i : Z) : FM RawInode := let* f := st_get in st_lift (idx (fm_inodes f) i).
Definition set_inode (i : Z) (r : RawInode) : FM unit :=
  let* f := st_get in
  let* l := st_lift (upd (fm_inodes f) i r) in
  st_modify (fun f => with_inodes f l).

(** ** Files and directories *)

(** [bytes.chunks(BLOCK_SIZE)]; [fuel] bounds the number of chunks. *)
Fixpoint chunks (fuel : nat) (b : list Z) : list (list Z) :=
  match b, fuel with
  | [], _ | _, O => []
  | _, S fuel => take (Z.to_nat BLOCK_SIZE) b :: chunks fuel (drop (Z.to_nat BLOCK_SIZE) b)
  end.
Definition pad_block (chunk : list Z) : list Z := chunk ++ replicate (Z.to_nat BLOCK_SIZE - length chunk) 0.

Fixpoint write_chunks (i : Z) (cs : list (list Z)) (direct : list Z) : FM (list Z) :=
  match cs with
  | [] => st_ret direct
  | c :: cs =>
      let* blk := mk_alloc_data_block in
      let* _ := mk_write_block blk (pad_block c) in
      let* direct := st_lift (upd direct i blk) in
      write_chunks (i + 1) cs direct
  end.
Definition write_file_bytes (i : Z) (bytes : list Z) : FM unit :=
  let needed := div_ceil (zlen bytes) BLOCK_SIZE in
  if negb (needed <=? DIRECT_BLOCKS) then st_lift Panic
  else
    let* direct := write_chunks 0 (chunks (length bytes) bytes) (replicate (Z.to_nat DIRECT_BLOCKS) 0) in
    let* r := get_inode i in
    set_inode i (mkRawInode INODE_KIND_FILE (r_pad0 r) 1 (zlen bytes) (mtime r) (r_pad1 r) direct).

Section Directory.
  Context {PD : Padding}.

(** The directory is serialised as the kernel does it. *)
Definition write_directory (i : Z) (entries : list DirEntry) : FM unit :=
  let* _ := write_file_bytes i (serialize [] entries) in
  let* r := get_inode i in
  set_inode i (mkRawInode INODE_KIND_DIR (r_pad0 r) (link_count r) (r_size r) (mtime r) (r_pad1 r) (direct r)).

(** ** [visit] *)

Definition reserve (kind : InodeKind) : FM Z :=
  let* i := mk_alloc_inode in
  let* r := get_inode i in
  let* _ := set_inode i (mkRawInode (kind_code kind) (r_pad0 r) 1 (r_size r) (mtime r) (r_pad1 r) (direct r)) in
  st_ret i.

(** The bodies of the files, each under the number its name has. *)
Fixpoint write_files (files : list (Str * list Z)) (entries : list DirEntry) : FM unit :=
  match files with
  | [] => st_ret tt
  | (name, data) :: files =>
      match find_entry name entries with
      | None => st_lift Panic
      | Some i => let* _ := write_file_bytes i data in write_files files entries
      end
  end.

(** The loop over the directory; [visit_dir] visits a subdirectory. *)
Definition scan_dir (visit_dir : Z -> HostNode -> FM unit) :=
  fix scan (l : HostDir) (entries : list DirEntry) (files : list (Str * list Z)) : FM (list DirEntry * list (Str * list Z)) :=
  match l with
  | [] => st_ret (entries, files)
  | (name, node) :: l =>
      match node with
      | HDir _ =>
          let* new_ino := reserve Dir in
          let* _ := visit_dir new_ino node in
          scan l (entries ++ [(name, Dir, new_ino)]) files
      | HFile data =>
          let* i := reserve File in
          scan l (entries ++ [(name, File, i)]) (files ++ [(name, data)])
      | HOther => scan l entries files
      end
  end.

Fixpoint visit (dir_ino : Z) (src : HostNode) : FM unit :=
  match src with
  | HDir l =>
      let* (entries, files) := scan_dir visit l [] [] in
      let* _ := write_files files entries in
      write_directory dir_ino entries
  | _ => st_lift Panic
  end.

End Directory.

(** ** [finalize] and [main] *)

(** A block of the inode table. *)
Definition table_block (l : list RawInode) (blk_off : Z) : list Z :=
  pad_block (take 32 (drop (Z.to_nat (blk_off * INODES_PER_BLOCK)) l) ≫= raw_bytes).
Fixpoint write_table (offs : list Z) : FM unit :=
  match offs with
  | [] => st_ret tt
  | o :: offs =>
      let* f := st_get in
      let* _ := mk_write_block (fm_inode_table_start f + o) (table_block (fm_inodes f) o) in
      write_table offs
  end.
Fixpoint write_bitmap (offs : list Z) : FM unit :=
  match offs with
  | [] => st_ret tt
  | o :: offs =>
      let* f := st_get in
      let* buf := st_lift (slice (fm_bitmap f) (o * BLOCK_SIZE) BLOCK_SIZE) in
      let* _ := mk_write_block (fm_bitmap_start f + o) buf in
      write_bitmap offs
  end.
Definition fm_super (f : Formatter) : Superblock :=
  mkSuperblock POND_MAGIC POND_VERSION (fm_total_blocks f) (fm_inode_count f) (fm_bitmap_start f) (fm_bitmap_blocks f)
    (fm_inode_table_start f) (fm_inode_table_blocks f) (fm_data_start f).
Definition finalize : FM unit :=
  let* f := st_get in
  let* _ := write_table (seqZ 0 (fm_inode_table_blocks f)) in
  let* _ := write_bitmap (seqZ 0 (fm_bitmap_blocks f)) in
  mk_write_block 0 (pad_block (superblock_bytes (fm_super f))).

(** [main] on an image of [total_bytes] bytes: the image it leaves. *)
Definition mkpondfs {PD : Padding} (image : list (list Z)) (total_bytes : Z) (src : HostNode) : outcome (list (list Z)) :=
  let! f := formatter_new image total_bytes 64 in
  let! (_, f) := (
    let* r := get_inode ROOT_INO in
    let* _ := set_inode ROOT_INO (mkRawInode INODE_KIND_DIR (r_pad0 r) 1 (r_size r) (mtime r) (r_pad1 r) (direct r)) in
    let* _ := visit ROOT_INO src in
    finalize) f in
  Ret (img f).
