(* ===== verification/MkFinal.v ===== *)
(** * mkpondfs: what [finalize] leaves on the disk *)

From S2P Require Import Prelude Bytes Bitmap Inode Block PondLayout PondFs PondDisk PondFile PondGrow PondDir PondInv PondOps PondWrite PondCreate PondExample PondSpec PondMount MkPondFs.

(** ** The final image *)

Definition final_block (f : Formatter) (b : Z) : list Z :=
  if b =? 0 then pad_block (superblock_bytes (fm_super f))
  else if (fm_bitmap_start f <=? b) && (b <? fm_bitmap_start f + fm_bitmap_blocks f)
  then take 4096 (drop (Z.to_nat ((b - fm_bitmap_start f) * BLOCK_SIZE)) (fm_bitmap f))
  else if (fm_inode_table_start f <=? b) && (b <? fm_inode_table_start f + fm_inode_table_blocks f)
  then table_block (fm_inodes f) (b - fm_inode_table_start f)
  else default [] (img f !! Z.to_nat b).
Definition final_img (f : Formatter) : list (list Z) := final_block f <$> seqZ 0 (zlen (img f)).

(** The mounted state that the image gives. *)
Definition pond_of (f : Formatter) : Pond MemDisk := fresh_pond (mkMemDisk (final_img f)) (fm_super f) (fm_bitmap f).

Lemma final_len f : zlen (final_img f) = zlen (img f).
Proof. unfold final_img, zlen. rewrite length_fmap, length_seqZ. lia. Qed.

Lemma final_at f b : 0 <= b < zlen (img f) -> dev_block (mkMemDisk (final_img f)) b = final_block f b.
Proof.
  intros Hb. unfold dev_block. simpl. unfold final_img. rewrite list_lookup_fmap, lookup_seqZ_lt by lia. simpl. f_equal. lia.
Qed.

(** What the layout promises about the parts of a formatter. *)
Record fm_shape (f : Formatter) : Prop := {
  sh_geo : geometry (fm_super f) (zlen (img f));
  sh_img : Forall (fun b => zlen b = DISK_BLOCK /\ Forall byte_ok b) (img f);
  sh_size : zlen (img f) * DISK_BLOCK < 2 ^ 64;
  sh_inodes : zlen (fm_inodes f) = fm_inode_count f;
  sh_raw : Forall raw_ok (fm_inodes f);
  sh_bm : zlen (fm_bitmap f) = fm_bitmap_blocks f * BLOCK_SIZE;
  sh_bytes : bytes_ok (fm_bitmap f);
  sh_u64 : Forall (fun x => 0 <= x < 2 ^ 64)
    [fm_total_blocks f; fm_inode_count f; fm_bitmap_start f; fm_bitmap_blocks f; fm_inode_table_start f; fm_inode_table_blocks f; fm_data_start f]
}.

(** ** Running [finalize] *)

Lemma put_block_in (l : list (list Z)) b x : 0 <= b < zlen l -> put_block l b x = <[Z.to_nat b := x]> l.
Proof. intros H. unfold put_block. by rewrite (proj2 (Z.ltb_lt _ _)) by lia. Qed.

(** A run of consecutive block writes. *)
Definition put_blocks (l : list (list Z)) (base : Z) (g : Z -> list Z) (offs : list Z) : list (list Z) :=
  foldl (fun l o => put_block l (base + o) (g o)) l offs.

Lemma put_blocks_at l base g lo (n : nat) :
  0 <= base + lo -> base + lo + Z.of_nat n <= zlen l ->
  length (put_blocks l base g (seqZ lo (Z.of_nat n))) = length l /\
  forall b, 0 <= b < zlen l -> put_blocks l base g (seqZ lo (Z.of_nat n)) !! Z.to_nat b
    = if (base + lo <=? b) && (b <? base + lo + Z.of_nat n) then Some (g (b - base)) else l !! Z.to_nat b.
Proof.
  revert l lo. induction n as [| n IH]; intros l lo Hlo Hn.
  - rewrite seqZ_nil by lia. split; [done |]. intros b Hb. simpl.
    destruct (Z.leb_spec (base + lo) b), (Z.ltb_spec b (base + lo + Z.of_nat 0)); simpl; (done || lia).
  - rewrite seqZ_cons by lia. replace (Z.pred (Z.of_nat (S n))) with (Z.of_nat n) by lia. unfold put_blocks. cbn [foldl].
    rewrite put_block_in by lia. fold (put_blocks (<[Z.to_nat (base + lo) := g lo]> l) base g (seqZ (Z.succ lo) (Z.of_nat n))).
    destruct (IH (<[Z.to_nat (base + lo) := g lo]> l) (Z.succ lo)) as [Hl Hat]; [lia | unfold zlen in *; rewrite length_insert; lia |].
    rewrite length_insert in Hl. split; [done |]. intros b Hb. rewrite Hat by (unfold zlen in *; rewrite length_insert; lia).
    destruct (decide (b = base + lo)) as [-> | Hne].
    + destruct (Z.leb_spec (base + Z.succ lo) (base + lo)); [lia |]. simpl. rewrite list_lookup_insert_eq by (unfold zlen in *; lia).
      rewrite (proj2 (Z.leb_le _ _)), (proj2 (Z.ltb_lt _ _)) by lia. simpl. do 2 f_equal. lia.
    + rewrite list_lookup_insert_ne by lia.
      destruct (Z.leb_spec (base + Z.succ lo) b), (Z.ltb_spec b (base + Z.succ lo + Z.of_nat n)),
        (Z.leb_spec (base + lo) b), (Z.ltb_spec b (base + lo + Z.of_nat (S n))); simpl; (done || lia).
Qed.

Lemma write_table_run offs f :
  write_table offs f = Ret (tt, with_img f (put_blocks (img f) (fm_inode_table_start f) (table_block (fm_inodes f)) offs)).
Proof.
  revert f. induction offs as [| o offs IH]; intros f; [by destruct f |]. cbn [write_table]. unfold st_bind at 1, st_get. cbn [obind].
  unfold st_bind, mk_write_block, st_modify. cbn [obind]. rewrite IH. done.
Qed.

Lemma write_bitmap_run offs f :
  zlen (fm_bitmap f) = fm_bitmap_blocks f * BLOCK_SIZE -> Forall (fun o => 0 <= o < fm_bitmap_blocks f) offs ->
  write_bitmap offs f = Ret (tt, with_img f (put_blocks (img f) (fm_bitmap_start f)
    (fun o => take 4096 (drop (Z.to_nat (o * BLOCK_SIZE)) (fm_bitmap f))) offs)).
Proof.
  intros Hl H. revert f Hl H. induction offs as [| o offs IH]; intros f Hl H; [by destruct f |].
  apply Forall_cons in H as [Ho H]. cbn [write_bitmap]. unfold st_bind at 1, st_get. cbn [obind].
  rewrite (st_bind_step (st_lift _) _ f f (take 4096 (drop (Z.to_nat (o * BLOCK_SIZE)) (fm_bitmap f)))).
  - unfold st_bind, mk_write_block, st_modify. cbn [obind]. rewrite IH; [done | done | done].
  - unfold st_lift. erewrite (proj2 (slice_Ret _ _ _ _)); [done |]. rewrite Hl. unfold BLOCK_SIZE in *. split_and!; [lia | lia | nia | done].
Qed.

Lemma finalize_run f : fm_shape f -> finalize f = Ret (tt, with_img f (final_img f)).
Proof.
  intros [[_ _ Gb Gt Gd [Gi1 Gi2] _] _ _ _ _ Hbm _ _]. cbn in Gb, Gt, Gd, Gi1, Gi2. unfold finalize, st_bind at 1, st_get. cbn [obind].
  unfold st_bind at 1. rewrite write_table_run. cbn [obind].
  rewrite (st_bind_step _ _ _ _ _ (write_bitmap_run (seqZ 0 (fm_bitmap_blocks f)) (with_img f _) Hbm
    ltac:(apply Forall_forall; intros o Ho%elem_of_seqZ; cbn; lia))).
  unfold mk_write_block, st_modify. do 2 f_equal. destruct f as [im tb ic ino bm bs bb ts tbl ds]. cbn in *. unfold with_img. f_equal. cbn [img fm_total_blocks].
  set (l1 := put_blocks im ts _ _). set (l2 := put_blocks l1 bs _ _).
  pose proof (put_blocks_at im ts (table_block ino) 0 (Z.to_nat tbl) ltac:(lia) ltac:(lia)) as [L1 A1]. rewrite Z2Nat.id in L1, A1 by lia. fold l1 in L1, A1.
  pose proof (put_blocks_at l1 bs (fun o => take 4096 (drop (Z.to_nat (o * BLOCK_SIZE)) bm)) 0 (Z.to_nat bb) ltac:(lia) ltac:(unfold zlen in *; lia)) as [L2 A2].
  rewrite Z2Nat.id in L2, A2 by lia. fold l2 in L2, A2.
  assert (zlen l1 = zlen im /\ zlen l2 = zlen im) as [Z1 Z2] by (unfold zlen; lia).
  rewrite put_block_in by lia. apply list_eq. intros k. destruct (decide (k < length im)%nat) as [Hk |].
  2:{ rewrite !lookup_ge_None_2; [done | | rewrite length_insert; lia]. unfold final_img. rewrite length_fmap, length_seqZ. cbn. unfold zlen. lia. }
  unfold final_img. cbn [img]. rewrite list_lookup_fmap, lookup_seqZ_lt by (unfold zlen; lia). rewrite Z.add_0_l.
  cbn [fmap option_fmap option_map]. unfold final_block.
  cbn [fm_bitmap_start fm_bitmap_blocks fm_inode_table_start fm_inode_table_blocks fm_bitmap fm_inodes img].
  destruct (Z.eqb_spec (Z.of_nat k) 0) as [E0 | E0].
  { replace k with 0%nat by lia. rewrite list_lookup_insert_eq by (unfold zlen in *; lia). done. }
  rewrite list_lookup_insert_ne by lia. replace k with (Z.to_nat (Z.of_nat k)) at 1 by lia.
  rewrite A2 by (unfold zlen in *; lia). rewrite !Z.add_0_r. destruct ((bs <=? Z.of_nat k) && (Z.of_nat k <? bs + bb)); [done |].
  rewrite A1 by (unfold zlen in *; lia). rewrite !Z.add_0_r. destruct ((ts <=? Z.of_nat k) && (Z.of_nat k <? ts + tbl)); [done |].
  rewrite Nat2Z.id. destruct (lookup_lt_is_Some_2 im k Hk) as [x ->]. done.
Qed.

(** ** Reading it back *)

Lemma pad_block_ok c : (length c <= 4096)%nat -> Forall byte_ok c -> zlen (pad_block c) = DISK_BLOCK /\ Forall byte_ok (pad_block c).
Proof.
  intros Hl Hc. unfold pad_block, zlen, BLOCK_SIZE, DISK_BLOCK. rewrite length_app, length_replicate. split; [lia |].
  apply Forall_app. split; [done |]. apply Forall_replicate. unfold byte_ok. lia.
Qed.

Lemma raws_length (l : list RawInode) : Forall raw_ok l -> length (l ≫= raw_bytes) = (128 * length l)%nat.
Proof.
  induction 1 as [| r l Hr _ IH]; [done |]. cbn [mbind list_bind]. rewrite length_app, raw_bytes_length by apply Hr.
  change (list_bind RawInode Z raw_bytes l) with (l ≫= raw_bytes). rewrite IH. simpl. lia.
Qed.

Lemma raws_ok (l : list RawInode) : Forall byte_ok (l ≫= raw_bytes).
Proof. induction l as [| r l IH]; [constructor |]. cbn [mbind list_bind]. apply Forall_app. split; [apply raw_bytes_ok | exact IH]. Qed.

Lemma raws_at (l : list RawInode) k r rest :
  Forall raw_ok l -> l !! k = Some r -> exists rest', drop (128 * k) ((l ≫= raw_bytes) ++ rest) = raw_bytes r ++ rest'.
Proof.
  intros Hl. revert k. induction Hl as [| x l Hx _ IH]; intros k Hk; [done |]. destruct k as [| k].
  - injection Hk as ->. cbn [mbind list_bind]. rewrite drop_0, <- app_assoc. by eexists.
  - cbn [mbind list_bind]. rewrite <- app_assoc. change (list_bind RawInode Z raw_bytes l) with (l ≫= raw_bytes).
    rewrite drop_app_ge by (rewrite raw_bytes_length by apply Hx; lia). rewrite raw_bytes_length by apply Hx.
    replace (128 * S k - 128)%nat with (128 * k)%nat by lia. by apply IH.
Qed.

Section Final.
  Context (f : Formatter) (Hf : fm_shape f).

Lemma table_block_ok o : zlen (table_block (fm_inodes f) o) = DISK_BLOCK /\ Forall byte_ok (table_block (fm_inodes f) o).
Proof.
  apply pad_block_ok; [| apply raws_ok]. rewrite raws_length by (apply Forall_take, Forall_drop, Hf). rewrite length_take. lia.
Qed.

Lemma final_block_ok b : 0 <= b < zlen (img f) -> zlen (final_block f b) = DISK_BLOCK /\ Forall byte_ok (final_block f b).
Proof.
  intros Hb. unfold final_block. destruct (b =? 0) eqn:E0.
  { apply pad_block_ok; [| ].
    - unfold superblock_bytes. rewrite !length_app, le_bytes_length, bind_le_bytes_length. simpl. lia.
    - unfold superblock_bytes. rewrite !Forall_app. split_and!; [repeat constructor; unfold byte_ok; lia | apply le_bytes_ok |].
      apply Forall_forall. intros x Hx. apply list_elem_of_bind in Hx as (v & Hx & _).
      pose proof (le_bytes_ok 8 v) as H. rewrite Forall_forall in H. by apply H. }
  destruct ((fm_bitmap_start f <=? b) && (b <? fm_bitmap_start f + fm_bitmap_blocks f)) eqn:E1.
  { apply andb_prop in E1 as [H1 H2]. pose proof (sh_bm _ Hf) as Hbm. unfold zlen, BLOCK_SIZE, DISK_BLOCK in *.
    rewrite length_take, length_drop. split; [nia |]. apply Forall_take, Forall_drop. exact (sh_bytes _ Hf). }
  destruct ((fm_inode_table_start f <=? b) && (b <? fm_inode_table_start f + fm_inode_table_blocks f)); [apply table_block_ok |].
  destruct (lookup_lt_is_Some_2 (img f) (Z.to_nat b)) as [x E]; [unfold zlen in Hb; lia |]. rewrite E. simpl.
  by apply (Forall_lookup_1 _ _ _ _ (sh_img _ Hf)) in E.
Qed.

Lemma final_dev_ok : dev_ok (mkMemDisk (final_img f)).
Proof.
  split; simpl; [| rewrite final_len; apply Hf]. unfold final_img. apply Forall_fmap, Forall_forall.
  intros b Hb%elem_of_seqZ. apply final_block_ok. lia.
Qed.

Lemma geo_order : 1 <= fm_bitmap_start f /\ 0 <= fm_bitmap_blocks f /\ fm_bitmap_start f + fm_bitmap_blocks f <= fm_inode_table_start f /\
  0 <= fm_inode_table_blocks f /\ fm_inode_table_start f + fm_inode_table_blocks f <= fm_data_start f /\
  fm_data_start f <= fm_total_blocks f <= zlen (img f) /\ fm_inode_count f = 32 * fm_inode_table_blocks f.
Proof. destruct (sh_geo _ Hf) as [_ _ Gb Gt Gd [_ Gi] _]. cbn in *. change INODES_PER_BLOCK with 32 in Gi. lia. Qed.

Lemma final_bitmap : bitmap_ok (mkMemDisk (final_img f)) (fm_super f) (fm_bitmap f).
Proof.
  pose proof geo_order as (? & ? & ? & ? & ? & ? & _). split; [apply Hf | apply Hf | |].
  - cbn [fm_super bitmap_blocks bitmap_start]. intros k Hk. rewrite final_at by lia. unfold final_block.
    rewrite (proj2 (Z.eqb_neq _ _)), (proj2 (Z.leb_le _ _)), (proj2 (Z.ltb_lt _ _)) by lia. cbn [andb].
    do 3 f_equal. lia.
  - rewrite final_at by lia. unfold final_block. rewrite Z.eqb_refl. unfold pad_block. apply superblock_of_bytes; [done | done |].
    exact (sh_u64 _ Hf).
Qed.

Lemma final_disk_ok : disk_ok (pond_of f).
Proof. split; [exact final_dev_ok | simpl; rewrite final_len; apply Hf | exact final_bitmap]. Qed.

Lemma final_raw i r : fm_inodes f !! Z.to_nat i = Some r -> 0 <= i -> disk_raw (mkMemDisk (final_img f)) (fm_super f) i = r.
Proof.
  intros Hr Hi. pose proof geo_order as (? & ? & ? & ? & ? & ? & Hc). pose proof (sh_inodes _ Hf) as Hn.
  assert (i < 32 * fm_inode_table_blocks f) as Hlt by (apply lookup_lt_Some in Hr; unfold zlen in Hn; lia).
  unfold disk_raw. assert (0 <= i / 32 < fm_inode_table_blocks f) as Hb by (split; [apply Z.div_pos; lia | apply Z.div_lt_upper_bound; lia]).
  pose proof (Z.div_mod i 32 ltac:(lia)) as Hdm. pose proof (Z.mod_pos_bound i 32 ltac:(lia)) as Hm.
  unfold inode_block, inode_off. change INODES_PER_BLOCK with 32. change INODE_SIZE with 128. cbn [fm_super inode_table_start].
  rewrite final_at by lia. unfold final_block.
  rewrite (proj2 (Z.eqb_neq _ _)), (proj2 (Z.ltb_ge _ (fm_bitmap_start f + _))), andb_false_r, (proj2 (Z.leb_le _ _)), (proj2 (Z.ltb_lt _ _)) by lia.
  cbn [andb]. unfold table_block, pad_block. change INODES_PER_BLOCK with 32.
  set (l := take 32 _). assert (l !! Z.to_nat (i mod 32) = Some r) as Hl.
  { unfold l. rewrite lookup_take_lt by lia. rewrite lookup_drop. rewrite <- Hr. f_equal. lia. }
  assert (Forall raw_ok l) as Hraw by (unfold l; apply Forall_take, Forall_drop, Hf).
  destruct (raws_at l _ r (replicate (Z.to_nat BLOCK_SIZE - length (l ≫= raw_bytes)) 0) Hraw Hl) as (rest & E).
  replace (Z.to_nat (i mod 32 * 128)) with (128 * Z.to_nat (i mod 32))%nat by lia. rewrite E.
  assert (raw_ok r) as Hok by (by apply (Forall_lookup_1 _ _ _ _ (sh_raw _ Hf)) in Hr).
  rewrite take_app_length' by (symmetry; apply raw_bytes_length, Hok).
  rewrite <- (app_nil_r (raw_bytes r)). by apply raw_of_bytes.
Qed.

End Final.
