(* ===== verification/MkPondInv.v ===== *)
(** * mkpondfs: the formatter keeps a well-formed file system

    Inodes and data blocks are handed out in order, so the state of the
    allocators is two numbers: [n], the next inode, and [m], the data blocks
    in use. *)

From S2P Require Import Prelude Bytes Bitmap Inode Block PondLayout PondFs PondDisk PondFile PondGrow PondDir PondInv PondOps PondWrite PondCreate PondExample PondSpec PondMount MkPondFs MkFinal.

Definition fm_data_blocks (f : Formatter) : Z := fm_total_blocks f - fm_data_start f.
Definition tab (f : Formatter) : Inodes.table := table_of (pond_of f).

Record fm_inv (f : Formatter) (n m : Z) : Prop := {
  fi_shape : fm_shape f;
  fi_n : 1 <= n <= fm_inode_count f;
  fi_m : 0 <= m <= fm_data_blocks f;
  fi_used : forall i r, 1 <= i < n -> fm_inodes f !! Z.to_nat i = Some r -> r_kind r ≠ INODE_KIND_UNUSED;
  fi_unused : forall i r, n <= i -> fm_inodes f !! Z.to_nat i = Some r -> r = raw_default;
  fi_bits : forall j, 0 <= j -> bit_at (fm_bitmap f) j = (j <? m);
  fi_pond : pond_inv (pond_of f)
}.

Lemma fm_inode f n m i : fm_inv f n m -> 0 <= i < fm_inode_count f -> exists r, fm_inodes f !! Z.to_nat i = Some r /\
  disk_raw (mkMemDisk (final_img f)) (fm_super f) i = r.
Proof.
  intros H Hi. pose proof (sh_inodes _ (fi_shape _ _ _ H)) as Hl.
  destruct (lookup_lt_is_Some_2 (fm_inodes f) (Z.to_nat i)) as [r Hr]; [unfold zlen in Hl; lia |].
  exists r. split; [done |]. apply final_raw; [apply H | done | lia].
Qed.

Lemma fm_used f n m i : fm_inv f n m -> used (pond_of f) i <-> 1 <= i < n.
Proof.
  intros H. pose proof (fi_n _ _ _ H) as Hn. unfold used, valid_ino. cbn [pond_of fresh_pond sb dev fm_super inode_count]. split.
  - intros [Hv Hk]. destruct (fm_inode f n m i H ltac:(lia)) as (r & Hr & E). rewrite E in Hk.
    destruct (Z.lt_ge_cases i n); [lia |]. by rewrite (fi_unused _ _ _ H i r ltac:(lia) Hr) in Hk.
  - intros Hi. destruct (fm_inode f n m i H ltac:(lia)) as (r & Hr & E). rewrite E. split; [lia |]. by apply (fi_used _ _ _ H i r).
Qed.

(** Two states of the formatter whose final images differ in some blocks. *)
Lemma written_final f f' w :
  fm_shape f' -> zlen (img f') = zlen (img f) ->
  (forall b, 0 <= b < zlen (img f) -> final_block f' b = default (final_block f b) (w !! b)) ->
  written (mkMemDisk (final_img f)) w (mkMemDisk (final_img f')).
Proof.
  intros Hf' Hl Hb. split; [by apply final_dev_ok | done | unfold dev_blocks; simpl; by rewrite !final_len |].
  intros b Hbb. unfold dev_blocks in Hbb. simpl in Hbb. rewrite final_len in Hbb. rewrite !final_at by lia. by apply Hb.
Qed.

Lemma table_block_other (l : list RawInode) i r o :
  0 <= o -> 0 <= i -> i / 32 ≠ o -> table_block (<[Z.to_nat i := r]> l) o = table_block l o.
Proof.
  intros Ho Hi Hne. unfold table_block. do 2 f_equal. change INODES_PER_BLOCK with 32. apply list_eq. intros k.
  destruct (decide (k < 32)%nat) as [Hk |]; [| by rewrite !lookup_take_ge by lia].
  rewrite !lookup_take_lt, !lookup_drop by lia. apply list_lookup_insert_ne. intros E. apply Hne.
  replace i with (o * 32 + Z.of_nat k) by lia. rewrite Z.div_add_l, Z.div_small by lia. lia.
Qed.

(** Only its block of the table depends on an inode. *)
Lemma final_block_inode f i r b :
  0 <= i -> b ≠ inode_block (fm_super f) i -> final_block (with_inodes f (<[Z.to_nat i := r]> (fm_inodes f))) b = final_block f b.
Proof.
  intros Hi Hb. unfold final_block. cbn [with_inodes fm_super fm_inodes fm_bitmap fm_bitmap_start fm_bitmap_blocks fm_inode_table_start fm_inode_table_blocks img].
  destruct (b =? 0); [done |]. destruct (_ && _); [done |].
  destruct ((fm_inode_table_start f <=? b) && (b <? fm_inode_table_start f + fm_inode_table_blocks f)) eqn:E; [| done].
  apply andb_prop in E as [? ?]. apply table_block_other; [lia | done |]. unfold inode_block in Hb. change INODES_PER_BLOCK with 32 in Hb.
  cbn in Hb. lia.
Qed.

(** ** Reserving an inode *)

Lemma first_unused_run f n m : fm_inv f n m -> n < fm_inode_count f -> first_unused 0 (fm_inodes f) = Some n.
Proof.
  intros H Hn. pose proof (sh_inodes _ (fi_shape _ _ _ H)) as Hl. pose proof (fi_n _ _ _ H) as Hn0.
  assert (forall l k, (forall j r, l !! j = Some r -> fm_inodes f !! (Z.to_nat k + j)%nat = Some r) -> 0 <= k <= n ->
    zlen l = fm_inode_count f - k -> first_unused k l = Some n) as Hgo; [| apply Hgo; [done | lia | lia]].
  induction l as [| r l IH]; intros k Hs Hk Hlen; [unfold zlen in Hlen; simpl in Hlen; lia |]. cbn [first_unused].
  pose proof (Hs 0%nat r eq_refl) as Hr. rewrite Nat.add_0_r in Hr.
  destruct (decide (k = n)) as [-> | Hne].
  - rewrite (fi_unused _ _ _ H n r ltac:(lia) Hr). by rewrite (proj2 (Z.leb_le _ _)) by lia.
  - assert ((1 <=? k) && (r_kind r =? INODE_KIND_UNUSED) = false) as ->.
    { destruct (Z.leb_spec 1 k); [| done]. simpl. apply Z.eqb_neq. apply (fi_used _ _ _ H k r); [lia | done]. }
    apply IH; [| lia | unfold zlen in *; simpl in Hlen; lia]. intros j r' Hj. rewrite <- (Hs (S j) r' Hj). f_equal. lia.
Qed.

Lemma shape_inodes f i r : fm_shape f -> raw_ok r -> fm_shape (with_inodes f (<[Z.to_nat i := r]> (fm_inodes f))).
Proof.
  intros [] Hr. split; cbn; try done; [by unfold zlen; rewrite length_insert | by apply Forall_insert].
Qed.

Lemma reserve_run f n m k :
  fm_inv f n m -> n < fm_inode_count f ->
  let f' := with_inodes f (<[Z.to_nat n := new_raw k]> (fm_inodes f)) in
  reserve k f = Ret (n, f') /\ fm_inv f' (n + 1) m /\ tab f' n = Some (empty_node k) /\
  forall j, 1 <= j < fm_inode_count f -> j ≠ n -> tab f' j = tab f j.
Proof.
  intros H Hn f'. pose proof (fi_n _ _ _ H) as Hn0. pose proof (fi_shape _ _ _ H) as Hsh.
  destruct (new_raw_good (mkMemDisk (final_img f')) (fm_super f) (fm_bitmap f) k) as (Hnr & _).
  assert (fm_shape f') as Hsh' by (by apply shape_inodes).
  destruct (fm_inode f n m n H ltac:(lia)) as (r & Hr & Er). assert (r = raw_default) as -> by (apply (fi_unused _ _ _ H n); [lia | done]).
  set (b := final_block f' (inode_block (fm_super f) n)).
  assert (written (mkMemDisk (final_img f)) {[inode_block (fm_super f) n := b]} (mkMemDisk (final_img f'))) as W.
  { apply written_final; [done | done |]. intros x Hx. destruct (decide (x = inode_block (fm_super f) n)) as [-> | Hne].
    - by rewrite lookup_singleton_eq.
    - rewrite lookup_singleton_ne by done. simpl. apply final_block_inode; [lia | done]. }
  assert (disk_raw (mkMemDisk (final_img f')) (fm_super f) n = new_raw k) as Hnew.
  { apply (final_raw f' Hsh'); [| lia]. apply list_lookup_insert_eq. apply lookup_lt_Some in Hr. done. }
  assert (forall i, 0 <= i < fm_inode_count f -> i ≠ n ->
    disk_raw (mkMemDisk (final_img f')) (fm_super f) i = disk_raw (mkMemDisk (final_img f)) (fm_super f) i) as Hoth.
  { intros i Hi Hne. destruct (fm_inode f n m i H Hi) as (ri & Hri & ->). apply (final_raw f' Hsh'); [| lia]. cbn.
    rewrite list_lookup_insert_ne by lia. done. }
  assert (free_ino (mkMemDisk (final_img f)) (fm_super f) n) as Hfree by (unfold free_ino; by rewrite Er).
  assert (valid_ino (fm_super f) n) as Hv by (unfold valid_ino; cbn; lia).
  split_and!.
  - unfold reserve, mk_alloc_inode. unfold st_bind at 1 2, st_get. cbn [obind]. rewrite (first_unused_run f n m H Hn).
    unfold st_bind, st_ret, get_inode, set_inode, st_get, st_lift, st_modify, st_bind. cbn [obind].
    assert (idx (fm_inodes f) n = Ret raw_default) as -> by (apply idx_Ret; split; [lia | done]). cbn [obind].
    rewrite upd_in_range by (apply lookup_lt_Some in Hr; unfold zlen; lia). done.
  - split; [done | cbn; lia | apply H | | | apply H |].
    + intros i ri Hi Hri. cbn in Hri. destruct (decide (i = n)) as [-> | Hne].
      * apply lookup_lt_Some in Hr. rewrite list_lookup_insert_eq in Hri by done. injection Hri as <-. by destruct k.
      * rewrite list_lookup_insert_ne in Hri by lia. apply (fi_used _ _ _ H i ri); [lia | done].
    + intros i ri Hi Hri. cbn in Hri. rewrite list_lookup_insert_ne in Hri by lia. apply (fi_unused _ _ _ H i); [lia | done].
    + exact (added_inv (pond_of f) n k _ b (fi_pond _ _ _ H) Hv Hfree W Hnew Hoth).
  - exact (added_node (pond_of f) n k _ Hnew).
  - intros j Hj Hne. apply (added_nodes (pond_of f) n _ b (fi_pond _ _ _ H) Hv Hfree W Hoth j); [unfold valid_ino; cbn; lia | done].
Qed.

(** ** Data blocks *)

(** The bitmap of [m] blocks in use. *)
Record bits_to (f : Formatter) (bm : list Z) (m : Z) : Prop := {
  bt_len : zlen bm = fm_bitmap_blocks f * BLOCK_SIZE;
  bt_bytes : bytes_ok bm;
  bt_bits : forall j, 0 <= j -> bit_at bm j = (j <? m)
}.

Lemma mk_alloc_scan_skip f i ixs :
  fm_shape f -> 0 <= i < fm_data_blocks f -> bit_at (fm_bitmap f) i = true -> mk_alloc_scan (i :: ixs) f = mk_alloc_scan ixs f.
Proof.
  intros Hf Hi Hbit. destruct (byte_lookup (fm_super f) (fm_bitmap f) i _ (sh_geo _ Hf) (sh_bm _ Hf) Hi) as (b & Hb & Ei).
  pose proof (Z.mod_pos_bound i 8 ltac:(lia)). cbn [mk_alloc_scan]. unfold st_bind at 1 2, st_get, st_lift. cbn [obind].
  rewrite Ei. cbn [obind]. unfold bit_at in Hbit. rewrite Hb in Hbit. simpl in Hbit. rewrite test_mask by lia. by rewrite Hbit.
Qed.

Lemma mk_alloc_scan_skips f m (k : nat) lo ixs :
  fm_shape f -> m <= fm_data_blocks f -> (forall j, 0 <= j -> bit_at (fm_bitmap f) j = (j <? m)) ->
  0 <= lo -> lo + Z.of_nat k = m -> mk_alloc_scan (seqZ lo (Z.of_nat k) ++ ixs) f = mk_alloc_scan ixs f.
Proof.
  intros Hf Hm Hbits. revert lo. induction k as [| k IH]; intros lo Hlo Hk; [by rewrite seqZ_nil by lia |].
  rewrite seqZ_cons by lia. replace (Z.pred (Z.of_nat (S k))) with (Z.of_nat k) by lia. cbn [app].
  rewrite mk_alloc_scan_skip; [apply IH; lia | done | lia |]. rewrite Hbits by lia. apply Z.ltb_lt. lia.
Qed.

Lemma mk_alloc_data_block_run f m :
  fm_shape f -> 0 <= m < fm_data_blocks f -> (forall j, 0 <= j -> bit_at (fm_bitmap f) j = (j <? m)) ->
  exists bm', mk_alloc_data_block f = Ret (fm_data_start f + m, with_fm_bitmap f bm') /\ bits_to f bm' (m + 1).
Proof.
  intros Hf Hm Hbits. unfold mk_alloc_data_block, st_bind at 1 2, st_get, st_lift. cbn [obind]. fold (fm_data_blocks f).
  pose proof (geo_order f Hf) as (? & ? & ? & ? & ? & ? & _). pose proof (sh_size _ Hf) as Hsz. unfold DISK_BLOCK in Hsz.
  rewrite checked_fits by (unfold fm_data_blocks in *; lia). cbn [obind].
  replace (fm_data_blocks f) with (m + (fm_data_blocks f - m)) by lia. rewrite seqZ_app by lia. rewrite Z.add_0_l.
  pose proof (mk_alloc_scan_skips f m (Z.to_nat m) 0 (seqZ m (fm_data_blocks f - m)) Hf ltac:(lia) Hbits) as E.
  rewrite Z2Nat.id in E by lia. rewrite E by lia. clear E.
  rewrite seqZ_cons by lia. cbn [mk_alloc_scan]. unfold st_bind at 1 2, st_get, st_lift. cbn [obind].
  destruct (byte_lookup (fm_super f) (fm_bitmap f) m _ (sh_geo _ Hf) (sh_bm _ Hf) Hm) as (b & Hb & Ei). rewrite Ei. cbn [obind].
  pose proof (Z.mod_pos_bound m 8 ltac:(lia)) as Hmod.
  assert (bit_at (fm_bitmap f) m = false) as Hbit by (rewrite Hbits by lia; apply Z.ltb_irrefl).
  pose proof Hbit as Hbit'. unfold bit_at in Hbit'. rewrite Hb in Hbit'. simpl in Hbit'. rewrite test_mask, Hbit' by lia. cbn [negb].
  destruct (bit_range _ _ _ (sh_geo _ Hf) Hm) as (Hr1 & _). cbn in Hr1.
  pose proof (sh_bm _ Hf) as Hlen. rewrite <- Hlen in Hr1.
  unfold st_bind at 1. rewrite upd_in_range by lia. cbn [obind]. eexists. split; [done |].
  assert (0 <= Z.lor b (Z.shiftl 1 (m mod 8)) < 256) as Hv.
  { apply byte_set_range; [| lia]. by apply (Forall_lookup_1 _ _ _ _ (sh_bytes _ Hf)) in Hb. }
  split; [unfold zlen; by rewrite length_insert | by apply Forall_insert; [apply Hf |] |].
  intros j Hj. rewrite (bit_at_set (fm_bitmap f) m j b) by (done || lia). rewrite Hbits by lia.
  destruct (Z.eqb_spec j m), (Z.ltb_spec j m), (Z.ltb_spec j (m + 1)); simpl; (done || lia).
Qed.

(** ** Writing the blocks of a file *)

Lemma chunks_spec (fuel : nat) (b : list Z) :
  (length b <= fuel)%nat ->
  zlen (chunks fuel b) = div_ceil (zlen b) BLOCK_SIZE /\
  forall j, (j < length (chunks fuel b))%nat -> chunks fuel b !! j = Some (take 4096 (drop (4096 * j) b)).
Proof.
  revert b. induction fuel as [| fuel IH]; intros b Hb.
  { destruct b; [| simpl in Hb; lia]. split; [done |]. intros j Hj. simpl in Hj. lia. }
  destruct b as [| x b]; [split; [done |]; intros j Hj; simpl in Hj; lia |].
  set (l := x :: b) in *. assert (chunks (S fuel) l = take 4096 l :: chunks fuel (drop 4096 l)) as -> by done.
  destruct (IH (drop 4096 l)) as [Hl Hat]; [rewrite length_drop; unfold l; simpl in *; lia |]. split.
  - change (zlen (take 4096 l :: chunks fuel (drop 4096 l))) with (Z.of_nat (S (length (chunks fuel (drop 4096 l))))).
    rewrite Nat2Z.inj_succ. fold (zlen (chunks fuel (drop 4096 l))). rewrite Hl. unfold zlen, div_ceil, BLOCK_SIZE. rewrite length_drop.
    assert (1 <= Z.of_nat (length l)) by (unfold l; simpl; lia). destruct (Z.le_gt_cases (Z.of_nat (length l)) 4096).
    + replace (Z.of_nat (length l - 4096)) with 0 by lia. change ((0 + 4096 - 1) / 4096) with 0.
      replace (Z.of_nat (length l) + 4096 - 1) with ((Z.of_nat (length l) - 1) + 1 * 4096) by lia. rewrite Z.div_add, Z.div_small by lia. lia.
    + replace (Z.of_nat (length l) + 4096 - 1) with ((Z.of_nat (length l - 4096) + 4096 - 1) + 1 * 4096) by lia. rewrite Z.div_add by lia. lia.
  - intros j Hj. destruct j as [| j]; [by rewrite Nat.mul_0_r |]. cbn [lookup list_lookup]. change (list_lookup j ?x) with (x !! j).
    rewrite Hat by (cbn [length] in Hj; lia). rewrite drop_drop. do 3 f_equal. lia.
Qed.

Definition chunk_ok (c : list Z) : Prop := (length c <= 4096)%nat /\ Forall byte_ok c.

Lemma shape_block f bm m b x :
  fm_shape f -> bits_to f bm m -> 0 <= b < zlen (img f) -> zlen x = DISK_BLOCK /\ Forall byte_ok x ->
  fm_shape (with_img (with_fm_bitmap f bm) (<[Z.to_nat b := x]> (img f))).
Proof.
  intros [] [Bl Bb _] Hb Hx. split; cbn; try done; unfold zlen; rewrite ?length_insert; [done | by apply Forall_insert | done].
Qed.

(** The blocks of a file: the next ones, in order. *)
Record placed (f : Formatter) (m : Z) (cs : list (list Z)) (f' : Formatter) : Prop := {
  pl_shape : fm_shape f';
  pl_same : f' = with_img (with_fm_bitmap f (fm_bitmap f')) (img f');
  pl_bits : bits_to f (fm_bitmap f') (m + zlen cs);
  pl_len : zlen (img f') = zlen (img f);
  pl_img : forall b, 0 <= b < zlen (img f) -> img f' !! Z.to_nat b
    = if (fm_data_start f + m <=? b) && (b <? fm_data_start f + m + zlen cs)
      then pad_block <$> cs !! Z.to_nat (b - fm_data_start f - m) else img f !! Z.to_nat b
}.

Lemma write_chunks_run cs f m k dir :
  fm_shape f -> (forall j, 0 <= j -> bit_at (fm_bitmap f) j = (j <? m)) ->
  0 <= m -> m + zlen cs <= fm_data_blocks f -> 0 <= k -> k + zlen cs <= 12 -> length dir = 12%nat -> Forall chunk_ok cs ->
  exists f', write_chunks k cs dir f
    = Ret (take (Z.to_nat k) dir ++ seqZ (fm_data_start f + m) (zlen cs) ++ drop (Z.to_nat k + length cs) dir, f') /\ placed f m cs f'.
Proof.
  intros Hf Hbits Hm Hmc Hk Hkc Hdir Hcs. revert f m k dir Hf Hbits Hm Hmc Hk Hkc Hdir.
  induction Hcs as [| c cs [Hc1 Hc2] _ IH]; intros f m k dir Hf Hbits Hm Hmc Hk Hkc Hdir.
  { exists f. split.
    { cbn [write_chunks length]. rewrite (seqZ_nil _ (zlen [])), Nat.add_0_r by (unfold zlen; simpl; lia). cbn [app]. by rewrite take_drop. }
    split; [done | by destruct f | split; [apply Hf | apply Hf | intros j Hj; rewrite Hbits by done; f_equal; unfold zlen; simpl; lia] | done |].
    intros b Hb. change (zlen []) with 0. destruct (Z.leb_spec (fm_data_start f + m) b); cbn [andb]; [| done].
    by rewrite (proj2 (Z.ltb_ge _ _)) by lia. }
  assert (zlen (c :: cs) = 1 + zlen cs) as Elen by (unfold zlen; simpl; lia). assert (0 <= zlen cs) by (unfold zlen; lia).
  rewrite Elen in Hmc, Hkc.
  destruct (mk_alloc_data_block_run f m Hf ltac:(lia) Hbits) as (bm1 & E1 & B1).
  pose proof (geo_order f Hf) as (? & ? & ? & ? & ? & ? & _). unfold fm_data_blocks in *.
  set (f1 := with_img (with_fm_bitmap f bm1) (<[Z.to_nat (fm_data_start f + m) := pad_block c]> (img f))).
  assert (fm_shape f1) as Hf1 by (apply (shape_block f bm1 (m + 1)); [done | done | lia | by apply pad_block_ok]).
  destruct (IH f1 (m + 1) (k + 1) (<[Z.to_nat k := fm_data_start f + m]> dir)) as (f' & E2 & [P1 P2 P3 P4 P5]);
    [done | apply B1 | lia | cbn; unfold fm_data_blocks; cbn; lia | lia | lia | by rewrite length_insert |].
  exists f'. split.
  - cbn [write_chunks]. rewrite (st_bind_step _ _ _ _ _ E1). unfold st_bind at 1, mk_write_block, st_modify. cbn [obind].
    assert (with_img (with_fm_bitmap f bm1) (put_block (img (with_fm_bitmap f bm1)) (fm_data_start f + m) (pad_block c)) = f1) as ->.
    { unfold f1. cbn [with_fm_bitmap img]. by rewrite put_block_in by lia. }
    rewrite (st_bind_step (st_lift _) _ f1 f1 (<[Z.to_nat k := fm_data_start f + m]> dir))
      by (unfold st_lift; rewrite upd_in_range by (unfold zlen; lia); done).
    rewrite E2. do 2 f_equal. change (fm_data_start f1) with (fm_data_start f). rewrite Elen.
    replace (Z.to_nat (k + 1)) with (S (Z.to_nat k)) by lia. rewrite (take_S_r _ _ (fm_data_start f + m)) by (apply list_lookup_insert_eq; lia).
    rewrite take_insert by lia. rewrite drop_insert_lt by lia. rewrite (seqZ_cons _ (1 + zlen cs)) by lia.
    replace (Z.pred (1 + zlen cs)) with (zlen cs) by lia. change (Z.succ (fm_data_start f + m)) with (fm_data_start f + m + 1).
    rewrite <- !app_assoc. cbn [app length]. rewrite Z.add_assoc. rewrite decide_False by lia. by replace (S (Z.to_nat k) + length cs)%nat with (Z.to_nat k + S (length cs))%nat by lia.
  - split; [done | rewrite P2; done | | rewrite P4; unfold f1, zlen; cbn; by rewrite length_insert |].
    + rewrite Elen. replace (m + (1 + zlen cs)) with (m + 1 + zlen cs) by lia. destruct P3. by split.
    + intros b Hb. rewrite P5 by (unfold f1, zlen in *; cbn; rewrite length_insert; lia). change (fm_data_start f1) with (fm_data_start f).
      rewrite Elen. destruct (decide (b = fm_data_start f + m)) as [-> | Hne].
      * rewrite (proj2 (Z.leb_gt _ _)) by lia. rewrite (proj2 (Z.leb_le _ _)), (proj2 (Z.ltb_lt _ _)) by lia. cbn [andb].
        unfold f1. cbn [with_img img]. rewrite list_lookup_insert_eq by (unfold zlen in *; lia).
        replace (Z.to_nat (fm_data_start f + m - fm_data_start f - m)) with 0%nat by lia. by rewrite (proj2 (Z.ltb_lt _ _)) by lia.
      * unfold f1. cbn [with_img img]. rewrite list_lookup_insert_ne by lia.
        destruct (Z.leb_spec (fm_data_start f + (m + 1)) b), (Z.ltb_spec b (fm_data_start f + (m + 1) + zlen cs)),
          (Z.leb_spec (fm_data_start f + m) b), (Z.ltb_spec b (fm_data_start f + m + (1 + zlen cs))); cbn [andb]; try done; try lia.
        replace (Z.to_nat (b - fm_data_start f - m)) with (S (Z.to_nat (b - fm_data_start f - (m + 1)))) by lia. done.
Qed.
