(* ===== verification/MkStore.v ===== *)
(** * mkpondfs: storing the body of a file or a directory *)

From S2P Require Import Prelude Bitmap Bytes Inode Block PondLayout PondFs PondDisk PondFile PondGrow PondDir PondInv PondOps PondWrite PondCreate PondExample PondSpec PondMount MkPondFs MkFinal MkPondInv.

(** Some blocks as a map. *)
Lemma blocks_map (g : Z -> list Z) (P : Z -> Prop) `{forall b, Decision (P b)} (n : Z) :
  exists w : gmap Z (list Z), (forall b, 0 <= b < n -> w !! b = if decide (P b) then Some (g b) else None) /\
    forall b, is_Some (w !! b) -> P b.
Proof.
  set (l := (fun b => (b, g b)) <$> filter P (seqZ 0 n)). exists (list_to_map l).
  assert (NoDup l.*1) as Hnd.
  { unfold l. rewrite <- list_fmap_compose. apply NoDup_fmap_2; [by intros x y | apply NoDup_filter, NoDup_seqZ]. }
  assert (forall b x, (b, x) ∈ l <-> x = g b /\ P b /\ 0 <= b < n) as Hel.
  { intros b x. unfold l. rewrite list_elem_of_fmap. setoid_rewrite list_elem_of_filter. setoid_rewrite elem_of_seqZ. split.
    - intros (y & [= -> ->] & ? & ?). split_and!; (done || lia).
    - intros (-> & ? & ?). exists b. split_and!; (done || lia). }
  split.
  - intros b Hb. destruct (decide (P b)).
    + apply elem_of_list_to_map; [done |]. by apply Hel.
    + apply not_elem_of_list_to_map. intros ([b' x] & Ex & Hin)%list_elem_of_fmap. cbn in Ex. subst b'. by apply Hel in Hin as (_ & ? & _).
  - intros b [x Hx]. apply elem_of_list_to_map in Hx; [| done]. by apply Hel in Hx as (_ & ? & _).
Qed.

Section Store.
  Context {PD : Padding}.
  Variables (f : Formatter) (n m i : Z) (k : InodeKind) (bytes : list Z) (fP : Formatter).
  Hypothesis Hf : fm_inv f n m.
  Hypothesis Hi : 1 <= i < n.
  Hypothesis Hir : fm_inodes f !! Z.to_nat i = Some (new_raw k).
  Hypothesis Hby : Forall byte_ok bytes.
  Hypothesis Hlen : zlen bytes <= MAX_FILE.
  #[local] Abbreviation c := (div_ceil (zlen bytes) BLOCK_SIZE).
  Hypothesis Hroom : m + c <= fm_data_blocks f.
  Hypothesis HP : placed f m (chunks (length bytes) bytes) fP.

Definition body_raw : RawInode :=
  mkRawInode (kind_code k) 0 1 (zlen bytes) 0 0 (seqZ (fm_data_start f + m) c ++ replicate (12 - Z.to_nat c) 0).
Definition stored_fm : Formatter := with_inodes fP (<[Z.to_nat i := body_raw]> (fm_inodes fP)).

Lemma body_blocks : 0 <= c <= 12 /\ zlen (chunks (length bytes) bytes) = c.
Proof.
  destruct (chunks_spec (length bytes) bytes ltac:(lia)) as [E _]. split; [| done].
  pose proof (needed_range (zlen bytes) ltac:(unfold zlen; lia)) as H. rewrite (proj2 (Z.ltb_ge _ _) Hlen) in H.
  apply Z.ltb_ge in H. unfold DIRECT_BLOCKS in H. pose proof (block_count_nonneg (zlen bytes) ltac:(unfold zlen; lia)). lia.
Qed.

Lemma body_direct j : (j < 12)%nat -> direct body_raw !! j = Some (if Z.of_nat j <? c then fm_data_start f + m + Z.of_nat j else 0).
Proof.
  intros Hj. destruct body_blocks as [Hc _]. unfold body_raw. cbn [direct]. destruct (Z.ltb_spec (Z.of_nat j) c).
  - rewrite lookup_app_l by (rewrite length_seqZ; lia). apply lookup_seqZ_lt. lia.
  - rewrite lookup_app_r by (rewrite length_seqZ; lia). apply lookup_replicate_2. rewrite length_seqZ. lia.
Qed.

Lemma body_direct_len : length (direct body_raw) = 12%nat.
Proof. destruct body_blocks as [Hc _]. unfold body_raw. cbn [direct]. rewrite length_app, length_seqZ, length_replicate. lia. Qed.

Lemma body_direct_inv j b : direct body_raw !! j = Some b -> b ≠ 0 ->
  b = fm_data_start f + m + Z.of_nat j /\ Z.of_nat j < c /\ (j < 12)%nat.
Proof.
  intros Hj Hb. pose proof (lookup_lt_Some _ _ _ Hj) as Hl. rewrite body_direct_len in Hl. rewrite body_direct in Hj by done.
  injection Hj as Hj. destruct (Z.ltb_spec (Z.of_nat j) c); [split_and!; (done || lia) | congruence].
Qed.

Lemma stored_order : 1 <= fm_data_start f /\ fm_data_start f + fm_data_blocks f <= zlen (img f) /\ zlen (img f) * 4096 < 2 ^ 64 /\
  0 <= m <= fm_data_blocks f.
Proof.
  pose proof (geo_order f (fi_shape _ _ _ Hf)) as (? & ? & ? & ? & ? & ? & _). pose proof (sh_size _ (fi_shape _ _ _ Hf)) as Hs.
  pose proof (fi_m _ _ _ Hf). unfold DISK_BLOCK, fm_data_blocks in *. lia.
Qed.

Lemma body_raw_ok : raw_ok body_raw.
Proof.
  pose proof stored_order as (? & ? & ? & ?). assert (0 <= zlen bytes) by (unfold zlen; lia).
  assert (0 <= kind_code k < 2 ^ 16) by (destruct k; done). unfold MAX_FILE, DIRECT_BLOCKS, BLOCK_SIZE in Hlen.
  unfold raw_ok. cbn [body_raw r_kind r_pad0 link_count r_size mtime r_pad1].
  do 6 (split; [lia |]). split; [apply body_direct_len |]. apply Forall_lookup_2. intros j b Hj.
  destruct (decide (b = 0)) as [-> |]; [lia |]. destruct (body_direct_inv j b Hj ltac:(done)) as (-> & ? & ?). lia.
Qed.

Lemma stored_shape : fm_shape stored_fm.
Proof. apply shape_inodes; [apply HP | apply body_raw_ok]. Qed.

Lemma stored_same : fm_super stored_fm = fm_super f /\ fm_inodes stored_fm = <[Z.to_nat i := body_raw]> (fm_inodes f) /\
  fm_bitmap stored_fm = fm_bitmap fP /\ img stored_fm = img fP /\ fm_data_blocks stored_fm = fm_data_blocks f.
Proof.
  unfold stored_fm, fm_data_blocks. cbn. rewrite (pl_same _ _ _ _ HP). split_and!; done.
Qed.

Lemma stored_raw j : 0 <= j < fm_inode_count f ->
  disk_raw (mkMemDisk (final_img stored_fm)) (fm_super f) j
  = if j =? i then body_raw else disk_raw (mkMemDisk (final_img f)) (fm_super f) j.
Proof.
  intros Hj. pose proof stored_same as (Es & Ei & _). rewrite <- Es at 1. destruct (fm_inode f n m j Hf Hj) as (r & Hr & Er).
  apply (final_raw stored_fm stored_shape); [| lia]. rewrite Ei. destruct (Z.eqb_spec j i) as [-> |].
  - apply list_lookup_insert_eq. by apply lookup_lt_Some in Hir.
  - rewrite list_lookup_insert_ne by lia. by rewrite Er.
Qed.

(** The data blocks: those of the body are its chunks, the others as before. *)
Lemma data_block (g : Formatter) b : fm_shape g -> fm_data_start g <= b -> final_block g b = default [] (img g !! Z.to_nat b).
Proof.
  intros Hg Hb. pose proof (geo_order g Hg) as (? & ? & ? & ? & ? & ? & _). unfold final_block.
  rewrite (proj2 (Z.eqb_neq _ _)), (proj2 (Z.ltb_ge _ (fm_bitmap_start g + _))), andb_false_r by lia.
  by rewrite (proj2 (Z.ltb_ge _ (fm_inode_table_start g + _))), andb_false_r by lia.
Qed.

Lemma stored_block b : fm_data_start f <= b < zlen (img f) ->
  dev_block (mkMemDisk (final_img stored_fm)) b
  = if (fm_data_start f + m <=? b) && (b <? fm_data_start f + m + c)
    then pad_block (take 4096 (drop (4096 * Z.to_nat (b - fm_data_start f - m)) bytes)) else final_block f b.
Proof.
  intros Hb. pose proof stored_same as (Es & Ei & _ & Eimg & _). pose proof stored_order as (? & ? & ? & ?).
  rewrite final_at by (rewrite Eimg, (pl_len _ _ _ _ HP); lia).
  pose proof (f_equal data_start Es) as Eds. change (fm_data_start stored_fm = fm_data_start f) in Eds.
  rewrite data_block; [| apply stored_shape | lia].
  rewrite Eimg, (pl_img _ _ _ _ HP) by lia. destruct body_blocks as [Hc Ec]. rewrite Ec.
  destruct (Z.leb_spec (fm_data_start f + m) b), (Z.ltb_spec b (fm_data_start f + m + c)); cbn [andb];
    try (rewrite data_block by (apply Hf || lia); done).
  destruct (chunks_spec (length bytes) bytes ltac:(lia)) as [_ Hat].
  rewrite Hat; [done |]. unfold zlen in Ec at 1. lia.
Qed.

Lemma body_bytes x : 0 <= x < MAX_FILE ->
  fbyte (mkMemDisk (final_img stored_fm)) body_raw x = if x <? zlen bytes then bytes !!! Z.to_nat x else 0.
Proof.
  intros Hx. pose proof stored_order as (? & ? & ? & ?). destruct body_blocks as [Hc _]. pose proof (block_index x Hx) as Hk.
  assert (0 < fm_data_start f) by lia. unfold fbyte.
  pose proof (body_direct (Z.to_nat (x / BLOCK_SIZE)) ltac:(lia)) as Ed. rewrite (list_lookup_total_correct _ _ _ Ed), Z2Nat.id by lia.
  pose proof (Z.div_mod x BLOCK_SIZE ltac:(done)) as Hdm. pose proof (Z.mod_pos_bound x BLOCK_SIZE ltac:(done)) as Hm.
  assert (x < zlen bytes -> x / BLOCK_SIZE < c) as Hlt.
  { intros Hlt. unfold div_ceil, BLOCK_SIZE in *. pose proof (Z.div_mod (zlen bytes + 4096 - 1) 4096 ltac:(lia)). pose proof (Z.mod_pos_bound (zlen bytes + 4096 - 1) 4096 ltac:(lia)). nia. }
  destruct (Z.ltb_spec (x / BLOCK_SIZE) c) as [Hin | Hout].
  - rewrite (proj2 (Z.eqb_neq _ _)) by lia. rewrite stored_block by lia.
    rewrite (proj2 (Z.leb_le _ _)), (proj2 (Z.ltb_lt _ _)) by lia. cbn [andb].
    replace (Z.to_nat (fm_data_start f + m + x / BLOCK_SIZE - fm_data_start f - m)) with (Z.to_nat (x / BLOCK_SIZE)) by lia.
    unfold pad_block, BLOCK_SIZE in *. set (ch := take 4096 _).
    assert (length ch = Nat.min 4096 (length bytes - 4096 * Z.to_nat (x / 4096))) as Hch by (unfold ch; by rewrite length_take, length_drop).
    rewrite list_lookup_total_alt. destruct (Z.ltb_spec x (zlen bytes)) as [Hxl | Hxl]; unfold zlen in Hxl.
    + rewrite lookup_app_l by lia. unfold ch. rewrite lookup_take_lt, lookup_drop by lia. rewrite list_lookup_total_alt. do 2 f_equal. lia.
    + rewrite lookup_app_r by lia. rewrite lookup_replicate_2 by lia. done.
  - rewrite Z.eqb_refl. destruct (Z.ltb_spec x (zlen bytes)); [lia | done].
Qed.

Lemma body_content : content (mkMemDisk (final_img stored_fm)) body_raw = bytes.
Proof.
  unfold content, fbytes. change (r_size body_raw) with (zlen bytes).
  apply list_eq_same_length with (n := length bytes); [done | by unfold zlen; rewrite length_fmap, length_seqZ, Nat2Z.id |].
  intros j x y Hj Hx Hy. rewrite list_lookup_fmap, lookup_seqZ_lt in Hx by (unfold zlen; lia). simpl in Hx. injection Hx as <-.
  rewrite body_bytes by (unfold zlen in *; lia). rewrite (proj2 (Z.ltb_lt _ _)) by (unfold zlen; lia). rewrite Z.add_0_l, Nat2Z.id.
  by apply list_lookup_total_correct.
Qed.

Lemma stored_written : exists w, written (mkMemDisk (final_img f)) w (mkMemDisk (final_img stored_fm)) /\
  forall b, is_Some (w !! b) -> b < fm_data_start f \/ fm_data_start f + m <= b < fm_data_start f + m + c.
Proof.
  destruct (blocks_map (final_block stored_fm) (fun b => b < fm_data_start f \/ fm_data_start f + m <= b < fm_data_start f + m + c)
    (zlen (img f))) as (w & Hw & Hdom). exists w. split; [| done].
  pose proof stored_same as (Es & Ei & _ & Eimg & _).
  apply written_final; [apply stored_shape | rewrite Eimg; apply (pl_len _ _ _ _ HP) |]. intros b Hb. rewrite Hw by done.
  destruct (decide _) as [| Hno]; [done |]. cbn [default].
  rewrite <- final_at by (rewrite Eimg, (pl_len _ _ _ _ HP); lia). rewrite stored_block by lia.
  destruct (Z.leb_spec (fm_data_start f + m) b), (Z.ltb_spec b (fm_data_start f + m + c)); cbn [andb]; (done || lia).
Qed.

Lemma body_blocks_ok : blocks_ok (fm_super f) (fm_bitmap fP) body_raw.
Proof.
  pose proof stored_order as (? & ? & ? & ?). split; [apply body_direct_len | |].
  - intros j b Hj Hb. destruct (body_direct_inv j b Hj Hb) as (-> & ? & ?). cbn [fm_super data_start total_blocks].
    unfold fm_data_blocks in *. split; [lia |]. rewrite (bt_bits _ _ _ (pl_bits _ _ _ _ HP)) by lia.
    destruct body_blocks as [_ ->]. apply Z.ltb_lt. lia.
  - intros j l b Hj Hl Hb. destruct (body_direct_inv j b Hj Hb) as (-> & _), (body_direct_inv l _ Hl Hb) as (E & _). lia.
Qed.

Lemma body_good : inode_good (mkMemDisk (final_img stored_fm)) (fm_super f) (fm_bitmap fP) body_raw body_raw.
Proof.
  assert (sized body_raw) as Hsz.
  { split; [cbn; unfold zlen in *; lia |]. change (r_size body_raw) with (zlen bytes). intros j Hj. unfold mapped.
    pose proof stored_order as (? & ? & ? & ?). destruct body_blocks as [Hc _].
    pose proof (body_direct (Z.to_nat j) ltac:(lia)) as Ed. rewrite (list_lookup_total_correct _ _ _ Ed), Z2Nat.id by lia.
    rewrite (proj2 (Z.ltb_lt _ _)) by lia. lia. }
  split; [apply body_raw_ok | apply body_raw_ok | cbn [body_raw r_kind]; destruct k; [by left | by right] | apply body_blocks_ok | done | | by split].
  intros _ x Hx. change (r_size body_raw) with (zlen bytes) in Hx. rewrite body_bytes by (unfold zlen in *; lia).
  by rewrite (proj2 (Z.ltb_ge _ _)) by lia.
Qed.

(** The file system with inode [i] open, before and after. *)
Definition open_before : Pond MemDisk := cached (pond_of f) i (new_raw k).
Definition open_after : Pond MemDisk :=
  mkPond (mkMemDisk (final_img stored_fm)) (fm_super f) (fm_bitmap fP) (inode_cache open_before)
    (<[0 := mkInodeState i body_raw]> (states open_before)) 1 false ∅.

Lemma open_before_ok : pond_inv open_before /\ handle open_before 0 i /\ states open_before !! 0 = Some (mkInodeState i (new_raw k)).
Proof.
  pose proof (fi_n _ _ _ Hf) as Hn.
  assert (disk_raw (mkMemDisk (final_img f)) (fm_super f) i = new_raw k) as Er by (apply final_raw; [apply Hf | done | lia]).
  destruct (cached_keeps (pond_of f) i (fi_pond _ _ _ Hf)) as [K Hh]; [done | by apply (fm_used f n m) | apply lookup_empty |].
  change (disk_raw (dev (pond_of f)) (sb (pond_of f)) i) with (disk_raw (mkMemDisk (final_img f)) (fm_super f) i) in K, Hh.
  rewrite Er in K, Hh. split; [apply K |]. split; [exact Hh |]. apply lookup_insert_eq.
Qed.

Lemma stored_change : changes open_before i 0 (new_raw k) open_after body_raw.
Proof.
  pose proof stored_same as (Es & Ei & Eb & Eimg & _). pose proof stored_order as (? & ? & ? & ?). pose proof (fi_n _ _ _ Hf) as Hn.
  split; try done.
  - pose proof (final_disk_ok stored_fm stored_shape) as [O1 O2 O3]. cbn [pond_of fresh_pond dev sb bitmap] in *. rewrite Es in *. rewrite Eb in *. by split.
  - destruct stored_written as (w & W & Hw). exists w. split; [exact W |]. intros b Hb.
    destruct (Hw b Hb) as [Hlt | Hin]; [left | right]; unfold private, in_data, block_free; cbn [open_before cached with_cache with_states pond_of fresh_pond sb fm_super data_start total_blocks bitmap]; [lia |].
    unfold fm_data_blocks in *. split; [lia |]. left. rewrite (fi_bits _ _ _ Hf) by lia. apply Z.ltb_ge. lia.
  - intros j Hj Hne. cbn in Hj. etransitivity; [apply (stored_raw j Hj) |]. by rewrite (proj2 (Z.eqb_neq _ _) Hne).
  - intros j Hj. cbn. rewrite (fi_bits _ _ _ Hf), (bt_bits _ _ _ (pl_bits _ _ _ _ HP)) by done.
    destruct body_blocks as [? ->]. rewrite !Z.ltb_lt. lia.
  - intros j b Hj Hb. right. destruct (body_direct_inv j b Hj Hb) as (-> & ? & ?).
    unfold in_data, block_free. cbn [open_before cached with_cache with_states pond_of fresh_pond sb fm_super data_start total_blocks bitmap].
    unfold fm_data_blocks in *. split; [lia |]. rewrite (fi_bits _ _ _ Hf) by lia. apply Z.ltb_ge. lia.
  - cbn [open_before cached with_cache with_states pond_of fresh_pond sb]. cbn [open_after dev bitmap].
    rewrite stored_raw by lia. rewrite Z.eqb_refl. apply body_good.
Qed.

(** What is stored: the bytes of a file, or the entries of a directory whose
    children are there. *)
Definition stores (x : pnode) : Prop :=
  match k, x with
  | File, PFile b => b = bytes
  | Dir, PDir es => encodes es bytes /\ NoDup (es.*1.*1) /\
      forall nm kk j, (nm, kk, j) ∈ es -> 1 <= j < n /\ node_kind <$> tab f j = Some kk
  | _, _ => False
  end.

Lemma node_kind_code g j x : fm_inv g n m -> 1 <= j < n -> tab g j = Some x ->
  r_kind (disk_raw (mkMemDisk (final_img g)) (fm_super g) j) = kind_code (node_kind x).
Proof.
  intros _ _. unfold tab, table_of, disk_node, node_of. cbn [pond_of fresh_pond dev sb].
  destruct (Z.eqb_spec (r_kind (disk_raw (mkMemDisk (final_img g)) (fm_super g) j)) INODE_KIND_FILE) as [-> |]; [by intros [= <-] |].
  destruct (Z.eqb_spec (r_kind (disk_raw (mkMemDisk (final_img g)) (fm_super g) j)) INODE_KIND_DIR) as [-> |]; [| done].
  destruct (parse_entries _ _ _ _) as [[es |] | | |]; [by intros [= <-] | done ..].
Qed.

Lemma store_inv x : stores x ->
  fm_inv stored_fm n (m + c) /\ tab stored_fm i = Some x /\
  forall j, 1 <= j < fm_inode_count f -> j ≠ i -> tab stored_fm j = tab f j.
Proof.
  intros Hx. pose proof stored_same as (Es & Ei & Eb & Eimg & Edb). pose proof (fi_n _ _ _ Hf) as Hn. pose proof (fi_m _ _ _ Hf) as Hm.
  destruct open_before_ok as (Hi0 & Hh & Hst). pose proof stored_change as Hch. destruct body_blocks as [Hc Ec].
  assert (r_kind body_raw = INODE_KIND_DIR -> exists es, dir_good open_after body_raw es) as Hdir.
  { intros Hk. assert (k = Dir) as Ek by (cbn [body_raw r_kind] in Hk; destruct k; done). unfold stores in Hx. rewrite Ek in Hx.
    destruct x as [b | es]; [done |].
    destruct Hx as (He & Hnd & Hes). exists es. split_and!; [cbn [open_after dev]; by rewrite body_content | done |].
    intros nm kk j Hin. destruct (Hes nm kk j Hin) as [Hj Hk0]. assert (used open_before j) as Hu by (by apply (fm_used f n m)).
    rewrite (changes_used _ _ _ _ _ _ Hi0 Hh Hst Hch). split; [done |].
    etransitivity; [apply (changes_kind _ _ _ _ _ _ Hi0 Hh Hst Hch); apply Hu |].
    apply fmap_Some in Hk0 as (x & Hxj & ->). exact (node_kind_code f j x Hf Hj Hxj). }
  destruct (changes_inv _ _ _ _ _ _ Hi0 Hh Hst Hch Hdir) as [Hi1 Hnodes].
  assert (pond_of stored_fm = fresh_pond (dev open_after) (sb open_after) (bitmap open_after)) as Epond.
  { unfold pond_of. cbn [open_after dev sb bitmap]. by rewrite Es, Eb. }
  split_and!.
  - split; [apply stored_shape | | | | | |].
    + rewrite (f_equal inode_count Es : fm_inode_count stored_fm = fm_inode_count f). done.
    + rewrite Edb. lia.
    + intros j r Hj. rewrite Ei. destruct (decide (j = i)) as [-> |].
      * intros Hr. rewrite list_lookup_insert_eq in Hr by (by apply lookup_lt_Some in Hir). injection Hr as <-. cbn [body_raw r_kind]. by destruct k.
      * rewrite list_lookup_insert_ne by lia. by apply (fi_used _ _ _ Hf).
    + intros j r Hj. rewrite Ei, list_lookup_insert_ne by lia. by apply (fi_unused _ _ _ Hf).
    + intros j Hj. rewrite Eb, (bt_bits _ _ _ (pl_bits _ _ _ _ HP)) by done. by rewrite Ec.
    + rewrite Epond. by apply forget_inv.
  - unfold tab, table_of. rewrite Epond. cbn [fresh_pond dev sb open_after].
    etransitivity; [exact (changes_node _ _ _ _ _ _ Hch) |]. cbn [open_after dev]. unfold stores in Hx.
    assert (k = File \/ k = Dir) as [Ek | Ek] by (destruct k; auto); rewrite Ek in Hx; destruct x as [b | es]; try done.
    + rewrite node_of_file by (cbn [body_raw r_kind]; by rewrite Ek). by rewrite body_content, Hx.
    + apply node_of_dir; [cbn [body_raw r_kind]; by rewrite Ek | rewrite body_content; apply Hx | apply body_good].
  - intros j Hj Hne. unfold tab, table_of. rewrite Epond. apply Hnodes; [unfold valid_ino; cbn; lia | done].
Qed.

End Store.

(** ** mkpondfs: writing the bodies of files and directories *)

Definition file_blocks (n : Z) : Z := div_ceil n BLOCK_SIZE.

Section Bodies.
  Context {PD : Padding}.

Lemma place_run f n m bytes :
  fm_inv f n m -> Forall byte_ok bytes -> zlen bytes <= MAX_FILE -> m + file_blocks (zlen bytes) <= fm_data_blocks f ->
  exists fP, write_chunks 0 (chunks (length bytes) bytes) (replicate (Z.to_nat DIRECT_BLOCKS) 0) f
    = Ret (direct (body_raw f m File bytes), fP) /\ placed f m (chunks (length bytes) bytes) fP.
Proof.
  intros Hf Hby Hlen Hroom. unfold file_blocks in Hroom. destruct (chunks_spec (length bytes) bytes ltac:(lia)) as [Hc Hat].
  assert (0 <= div_ceil (zlen bytes) BLOCK_SIZE <= 12) as Hc12.
  { pose proof (needed_range (zlen bytes) ltac:(unfold zlen; lia)) as H. rewrite (proj2 (Z.ltb_ge _ _) Hlen) in H.
    apply Z.ltb_ge in H. unfold DIRECT_BLOCKS in H. pose proof (block_count_nonneg (zlen bytes) ltac:(unfold zlen; lia)). lia. }
  destruct (write_chunks_run (chunks (length bytes) bytes) f m 0 (replicate (Z.to_nat DIRECT_BLOCKS) 0)) as (fP & E & HP);
    [apply Hf | apply (fi_bits _ _ _ Hf) | apply (fi_m _ _ _ Hf) | lia | lia | lia | done | |].
  - apply Forall_lookup_2. intros j x Hj. rewrite Hat in Hj by (by apply lookup_lt_Some in Hj). injection Hj as <-.
    split; [rewrite length_take; lia | by apply Forall_take, Forall_drop].
  - exists fP. split; [| done]. rewrite E. unfold body_raw. cbn [direct]. rewrite Hc. do 2 f_equal.
    rewrite Z.add_0_r || idtac. change (take (Z.to_nat 0) (replicate (Z.to_nat DIRECT_BLOCKS) 0)) with (@nil Z). rewrite app_nil_l, drop_replicate.
    do 2 f_equal. unfold zlen in Hc at 1. change (Z.to_nat DIRECT_BLOCKS) with 12%nat. lia.
Qed.

Lemma write_file_bytes_run f n m i k bytes :
  fm_inv f n m -> 1 <= i < n -> fm_inodes f !! Z.to_nat i = Some (new_raw k) ->
  Forall byte_ok bytes -> zlen bytes <= MAX_FILE -> m + file_blocks (zlen bytes) <= fm_data_blocks f ->
  exists fP, write_file_bytes i bytes f = Ret (tt, stored_fm f m i File bytes fP) /\ placed f m (chunks (length bytes) bytes) fP.
Proof.
  intros Hf Hi Hir Hby Hlen Hroom. destruct (place_run f n m bytes Hf Hby Hlen Hroom) as (fP & E & HP). exists fP. split; [| done].
  unfold write_file_bytes. pose proof (needed_range (zlen bytes) ltac:(unfold zlen; lia)) as H. rewrite (proj2 (Z.ltb_ge _ _) Hlen) in H.
  apply Z.ltb_ge in H. rewrite (proj2 (Z.leb_le _ _) H). cbn [negb]. rewrite (st_bind_step _ _ _ _ _ E).
  assert (fm_inodes fP = fm_inodes f) as Ei by (rewrite (pl_same _ _ _ _ HP); done).
  rewrite (st_bind_step (get_inode i) _ fP fP (new_raw k)).
  2:{ unfold get_inode, st_bind, st_get, st_lift. cbn [obind]. rewrite Ei.
      assert (idx (fm_inodes f) i = Ret (new_raw k)) as -> by (apply idx_Ret; split; [lia | done]). done. }
  unfold set_inode, st_bind, st_get, st_lift, st_modify. cbn [obind]. rewrite upd_in_range; [done |].
  rewrite Ei. apply lookup_lt_Some in Hir. unfold zlen. lia.
Qed.

Lemma write_body f n m i bytes :
  fm_inv f n m -> 1 <= i < n -> fm_inodes f !! Z.to_nat i = Some (new_raw File) ->
  Forall byte_ok bytes -> zlen bytes <= MAX_FILE -> m + file_blocks (zlen bytes) <= fm_data_blocks f ->
  exists f', write_file_bytes i bytes f = Ret (tt, f') /\ fm_inv f' n (m + file_blocks (zlen bytes)) /\
    fm_super f' = fm_super f /\ tab f' i = Some (PFile bytes) /\
    (forall j, 1 <= j < fm_inode_count f -> j ≠ i -> tab f' j = tab f j) /\
    (forall j, 0 <= j -> j ≠ i -> fm_inodes f' !! Z.to_nat j = fm_inodes f !! Z.to_nat j).
Proof.
  intros Hf Hi Hir Hby Hlen Hroom. destruct (write_file_bytes_run f n m i File bytes Hf Hi Hir Hby Hlen Hroom) as (fP & E & HP).
  destruct (store_inv f n m i File bytes fP Hf Hi Hir Hlen Hroom HP (PFile bytes) eq_refl) as (H1 & H2 & H3).
  destruct (stored_same f m i File bytes fP HP) as (S1 & S2 & _). eexists. split; [exact E |]. do 4 (split; [done |]).
  intros j Hj Hne. rewrite S2. apply list_lookup_insert_ne. lia.
Qed.

Lemma write_directory_run f n m i es :
  fm_inv f n m -> 1 <= i < n -> fm_inodes f !! Z.to_nat i = Some (new_raw Dir) ->
  Forall entry_ok es -> NoDup (es.*1.*1) -> (forall nm kk j, (nm, kk, j) ∈ es -> 1 <= j < n /\ node_kind <$> tab f j = Some kk) ->
  dir_len es <= MAX_FILE -> m + file_blocks (dir_len es) <= fm_data_blocks f ->
  exists f', write_directory i es f = Ret (tt, f') /\ fm_inv f' n (m + file_blocks (dir_len es)) /\
    fm_super f' = fm_super f /\ tab f' i = Some (PDir es) /\
    (forall j, 1 <= j < fm_inode_count f -> j ≠ i -> tab f' j = tab f j) /\
    (forall j, 0 <= j -> j ≠ i -> fm_inodes f' !! Z.to_nat j = fm_inodes f !! Z.to_nat j).
Proof.
  intros Hf Hi Hir Hes Hnd Hch Hlen Hroom. destruct (serialize_encodes es [] Hes eq_refl) as (bytes & Eser & Henc). rewrite app_nil_l in Eser.
  pose proof (encodes_dir_len _ _ Henc) as Hbl. pose proof (encodes_bytes _ _ Henc) as Hby. rewrite <- Hbl in Hlen, Hroom |- *.
  destruct (write_file_bytes_run f n m i Dir bytes Hf Hi Hir Hby Hlen Hroom) as (fP & E & HP).
  destruct (store_inv f n m i Dir bytes fP Hf Hi Hir Hlen Hroom HP (PDir es)) as (H1 & H2 & H3); [done |].
  destruct (stored_same f m i Dir bytes fP HP) as (S1 & S2 & _). eexists.
  split; [| do 4 (split; [done |]); intros j Hj Hne; rewrite S2; apply list_lookup_insert_ne; lia].
  unfold write_directory. rewrite Eser, (st_bind_step _ _ _ _ _ E). set (f1 := stored_fm f m i File bytes fP).
  assert (fm_inodes fP = fm_inodes f) as Ei by (rewrite (pl_same _ _ _ _ HP); done).
  assert (Z.to_nat i < length (fm_inodes f))%nat as Hl by (by apply lookup_lt_Some in Hir).
  rewrite (st_bind_step (get_inode i) _ f1 f1 (body_raw f m File bytes)).
  2:{ unfold get_inode, st_bind, st_get, st_lift. cbn [obind].
      assert (idx (fm_inodes f1) i = Ret (body_raw f m File bytes)) as ->; [| done].
      apply idx_Ret. split; [lia |]. unfold f1, stored_fm. cbn. rewrite Ei. by apply list_lookup_insert_eq. }
  unfold set_inode, st_bind, st_get, st_lift, st_modify. cbn [obind]. unfold f1, stored_fm.
  cbn [fm_inodes with_inodes]. rewrite Ei. rewrite upd_in_range by (unfold zlen; rewrite length_insert; lia). cbn [obind].
  rewrite list_insert_insert_eq. done.
Qed.

End Bodies.
