(* ===== verification/MkTree.v ===== *)
(** * mkpondfs: source trees

    What a tree needs, and what it means that a tree is stored: the inodes of
    a directory's children are consecutive, each subdirectory followed by its
    own. *)

From S2P Require Import Prelude Bytes Bitmap Inode Block PondLayout PondFs PondDisk PondFile PondGrow PondDir PondInv PondOps PondWrite PondCreate PondExample PondSpec PondMount MkPondFs MkFinal MkPondInv MkStore.

Lemma host_ind (P : HostNode -> Prop) :
  (forall b, P (HFile b)) -> (forall l : HostDir, Forall (fun x => P x.2) l -> P (HDir l)) -> P HOther -> forall t, P t.
Proof.
  intros H1 H2 H3. fix IH 1. intros [b | l |]; [apply H1 | | exact H3]. apply H2. induction l as [| [nm t] l IHl]; constructor; [apply IH | exact IHl].
Qed.

(** ** What a tree needs *)

Fixpoint tree_nodes (t : HostNode) : Z :=
  match t with
  | HFile _ => 1
  | HDir l => 1 + foldr (fun x a => tree_nodes x.2 + a) 0 l
  | HOther => 0
  end.
Definition dir_nodes (l : HostDir) : Z := foldr (fun x a => tree_nodes x.2 + a) 0 l.

(** The bytes of a directory. *)
Fixpoint listed_len (l : HostDir) : Z :=
  match l with
  | [] => 0
  | (nm, HOther) :: l => listed_len l
  | (nm, _) :: l => entry_len (nm, File, 0) + listed_len l
  end.
Fixpoint tree_blocks (t : HostNode) : Z :=
  match t with
  | HFile b => file_blocks (zlen b)
  | HDir l => file_blocks (listed_len l) + foldr (fun x a => tree_blocks x.2 + a) 0 l
  | HOther => 0
  end.

Fixpoint tree_ok (t : HostNode) : Prop :=
  match t with
  | HFile b => zlen b <= MAX_FILE /\ Forall byte_ok b
  | HDir l => NoDup l.*1 /\ listed_len l <= MAX_FILE /\ foldr (fun x P => (name_ok x.1 /\ tree_ok x.2) /\ P) True l
  | HOther => True
  end.
Definition dir_ok (l : HostDir) : Prop := foldr (fun x P => (name_ok x.1 /\ tree_ok x.2) /\ P) True l.

(** ** What is stored *)

Inductive laid (t : Inodes.table) : HostDir -> list DirEntry -> Z -> Z -> Prop :=
  | laid_nil lo : laid t [] [] lo lo
  | laid_skip nm l es lo hi : laid t l es lo hi -> laid t ((nm, HOther) :: l) es lo hi
  | laid_file nm b l es lo hi :
      t lo = Some (PFile b) -> laid t l es (lo + 1) hi -> laid t ((nm, HFile b) :: l) ((nm, File, lo) :: es) lo hi
  | laid_dir nm c ces l es lo mid hi :
      t lo = Some (PDir ces) -> laid t c ces (lo + 1) mid -> laid t l es mid hi ->
      laid t ((nm, HDir c) :: l) ((nm, Dir, lo) :: es) lo hi.

Lemma laid_range t l es lo hi : laid t l es lo hi -> lo <= hi.
Proof. induction 1; lia. Qed.

Lemma laid_ext t t' l es lo hi : laid t l es lo hi -> (forall j, lo <= j < hi -> t' j = t j) -> laid t' l es lo hi.
Proof.
  induction 1 as [lo | nm l es lo hi H IH | nm b l es lo hi Ht H IH | nm c ces l es lo mid hi Ht Hc IHc H IH]; intros Heq.
  - constructor.
  - constructor. auto.
  - pose proof (laid_range _ _ _ _ _ H). constructor; [rewrite Heq by lia; done |]. apply IH. intros; apply Heq; lia.
  - pose proof (laid_range _ _ _ _ _ H). pose proof (laid_range _ _ _ _ _ Hc).
    apply (laid_dir _ _ _ ces _ _ _ mid); [rewrite Heq by lia; done | |]; [apply IHc | apply IH]; intros; apply Heq; lia.
Qed.

Lemma laid_app t l1 l2 es lo hi : laid t (l1 ++ l2) es lo hi <->
  exists es1 es2 mid, es = es1 ++ es2 /\ laid t l1 es1 lo mid /\ laid t l2 es2 mid hi.
Proof.
  split.
  - revert es lo. induction l1 as [| x l1 IH]; intros es lo H; [by exists [], es, lo; split_and!; [| constructor |] |]. cbn [app] in H.
    inversion H as [| nm l es' lo' hi' H' | nm b l es' lo' hi' Ht H' | nm c ces l es' lo' mid hi' Ht Hc H']; subst;
      apply IH in H' as (es1 & es2 & mid' & -> & H1 & H2).
    + exists es1, es2, mid'. split_and!; [done | by constructor | done].
    + eexists (_ :: es1), es2, mid'. split_and!; [done | by constructor | done].
    + eexists (_ :: es1), es2, mid'. split_and!; [done | by econstructor | done].
  - intros (es1 & es2 & mid & -> & H1 & H2). induction H1; cbn [app]; [done | | |]; econstructor; eauto.
Qed.

Lemma laid_entry t l es lo hi nm k j : laid t l es lo hi -> (nm, k, j) ∈ es -> lo <= j < hi /\ node_kind <$> t j = Some k.
Proof.
  intros H. pose proof (laid_range _ _ _ _ _ H) as Hr. revert Hr.
  induction H as [lo | nm0 l es lo hi H IH | nm0 b l es lo hi Ht H IH | nm0 c ces l es lo mid hi Ht Hc IHc H IH]; intros Hr Hin.
  - by apply elem_of_nil in Hin.
  - auto.
  - pose proof (laid_range _ _ _ _ _ H). apply elem_of_cons in Hin as [[= -> -> ->] | Hin]; [rewrite Ht; split; [lia | done] |].
    destruct (IH ltac:(lia) Hin). split; [lia | done].
  - pose proof (laid_range _ _ _ _ _ H). pose proof (laid_range _ _ _ _ _ Hc).
    apply elem_of_cons in Hin as [[= -> -> ->] | Hin]; [rewrite Ht; split; [lia | done] |].
    destruct (IH ltac:(lia) Hin). split; [lia | done].
Qed.

Lemma laid_names t l es lo hi : laid t l es lo hi -> es.*1.*1 `sublist_of` l.*1.
Proof. induction 1; simpl; [constructor | by constructor | by constructor | by constructor]. Qed.

Lemma laid_len t l es lo hi : laid t l es lo hi -> dir_len es = listed_len l.
Proof. induction 1; simpl; auto; f_equal; auto. Qed.

Lemma laid_entries_ok t l es lo hi : laid t l es lo hi -> dir_ok l -> 0 <= lo -> hi < 2 ^ 64 -> Forall entry_ok es.
Proof.
  intros H Hok Hlo Hhi. apply Forall_forall. intros [[nm k] j] Hin. destruct (laid_entry _ _ _ _ _ _ _ _ H Hin) as [Hj _].
  assert (nm ∈ l.*1) as Hnm.
  { apply (elem_of_sublist (es.*1.*1)); [| by apply (laid_names _ _ _ _ _ H)].
    change nm with ((nm, k, j).1.1). by apply list_elem_of_fmap_2, list_elem_of_fmap_2. }
  assert (name_ok nm) as (? & ? & ? & ? & _).
  { clear - Hok Hnm. induction l as [| x l IH]; [by apply elem_of_nil in Hnm |]. destruct Hok as [[Hx _] Hok]. cbn in Hnm.
    apply elem_of_cons in Hnm as [-> |]; [done | by apply IH]. }
  split_and!; (done || lia).
Qed.

(** ** Bodies that are not yet written *)

Definition pend (l : HostDir) : HostDir := (fun x => (x.1, match x.2 with HFile _ => HFile [] | t => t end)) <$> l.
Fixpoint files_of (l : HostDir) : list (Str * list Z) :=
  match l with
  | [] => []
  | (nm, HFile b) :: l => (nm, b) :: files_of l
  | _ :: l => files_of l
  end.
Fixpoint body_sum (l : HostDir) : Z :=
  match l with [] => 0 | (_, HFile b) :: l => file_blocks (zlen b) + body_sum l | _ :: l => body_sum l end.
Fixpoint sub_sum (l : HostDir) : Z :=
  match l with [] => 0 | (_, HDir c) :: l => tree_blocks (HDir c) + sub_sum l | _ :: l => sub_sum l end.

Lemma tree_blocks_dir l : tree_blocks (HDir l) = file_blocks (listed_len l) + (sub_sum l + body_sum l).
Proof. cbn [tree_blocks]. f_equal. induction l as [| [nm [b | c |]] l IH]; cbn [foldr snd sub_sum body_sum tree_blocks] in *; lia. Qed.

Lemma file_blocks_nonneg n : 0 <= n -> 0 <= file_blocks n.
Proof. apply block_count_nonneg. Qed.

Lemma listed_nonneg l : 0 <= listed_len l.
Proof.
  induction l as [| [nm t] l IH]; [done |]. pose proof (entry_len_pos (nm, File, 0)). destruct t; simpl; lia.
Qed.

Lemma body_sum_nonneg l : 0 <= body_sum l.
Proof.
  induction l as [| [nm t] l IH]; [done |]. destruct t; simpl; try done. pose proof (file_blocks_nonneg (zlen bytes) ltac:(unfold zlen; lia)). lia.
Qed.

Lemma tree_blocks_nonneg t : 0 <= tree_blocks t.
Proof.
  induction t as [b | l IH |] using host_ind; cbn [tree_blocks]; [apply file_blocks_nonneg; unfold zlen; lia | | done].
  assert (0 <= foldr (fun x a => tree_blocks x.2 + a) 0 l) by (induction IH; cbn [foldr]; lia).
  pose proof (file_blocks_nonneg _ (listed_nonneg l)). lia.
Qed.

Lemma tree_nodes_nonneg t : 0 <= tree_nodes t.
Proof.
  induction t as [b | l IH |] using host_ind; cbn [tree_nodes]; [done | | done].
  assert (0 <= foldr (fun x a => tree_nodes x.2 + a) 0 l) by (induction IH; cbn [foldr]; lia). lia.
Qed.

Lemma dir_nodes_nonneg l : 0 <= dir_nodes l.
Proof. unfold dir_nodes. induction l as [| x l IH]; simpl; [done |]. pose proof (tree_nodes_nonneg x.2). lia. Qed.

Lemma sub_sum_nonneg l : 0 <= sub_sum l.
Proof. induction l as [| [nm t] l IH]; [done |]. destruct t; cbn [sub_sum]; [done | pose proof (tree_blocks_nonneg (HDir entries)); lia | done]. Qed.
