(* ===== verification/MkVisit.v ===== *)
(** * mkpondfs: the image mounts and holds the source tree *)

From S2P Require Import Prelude Bytes Bitmap Inode Block PondLayout PondFs PondDisk PondFile PondGrow PondDir PondInv PondOps PondWrite PondCreate PondExample PondSpec PondMount MkPondFs MkFinal MkPondInv MkStore MkTree.

Section Visit.
  Context {PD : Padding}.

(** The nodes and inodes below [n] stay, but perhaps that of [i]. *)
Definition untouched (f f' : Formatter) (n i : Z) : Prop :=
  forall j, 1 <= j < n -> j ≠ i -> tab f' j = tab f j /\ fm_inodes f' !! Z.to_nat j = fm_inodes f !! Z.to_nat j.

Lemma super_fields f f' : fm_super f' = fm_super f ->
  fm_inode_count f' = fm_inode_count f /\ fm_data_blocks f' = fm_data_blocks f.
Proof. intros E. unfold fm_super in E. injection E as ? ? ? ? ? ? ?. unfold fm_data_blocks. split; congruence. Qed.

(** ** The files of a directory *)

Definition reserved (f : Formatter) (es : list DirEntry) : Prop :=
  forall nm j, (nm, File, j) ∈ es -> fm_inodes f !! Z.to_nat j = Some (new_raw File).

Lemma find_entry_mid nm k j (es1 es2 : list DirEntry) : nm ∉ es1.*1.*1 -> find_entry nm (es1 ++ (nm, k, j) :: es2) = Some j.
Proof.
  induction es1 as [| [[m k'] j'] es1 IH]; simpl; intros H; [by rewrite decide_True |].
  apply not_elem_of_cons in H as [? ?]. rewrite decide_False by done. by apply IH.
Qed.

Lemma write_files_run (l2 l1 : HostDir) f n m es es1 es2 lo mid hi :
  fm_inv f n m -> 1 <= lo -> hi <= n -> es = es1 ++ es2 -> NoDup (es.*1.*1) ->
  laid (tab f) l1 es1 lo mid -> laid (tab f) (pend l2) es2 mid hi -> reserved f es2 ->
  dir_ok l2 -> m + body_sum l2 <= fm_data_blocks f ->
  exists f', write_files (files_of l2) es f = Ret (tt, f') /\ fm_inv f' n (m + body_sum l2) /\ fm_super f' = fm_super f /\
    laid (tab f') (l1 ++ l2) es lo hi /\
    (forall j, 1 <= j < fm_inode_count f -> ~ (lo <= j < hi) -> tab f' j = tab f j /\ fm_inodes f' !! Z.to_nat j = fm_inodes f !! Z.to_nat j).
Proof.
  revert l1 f m es1 es2 mid. induction l2 as [| [nm t] l2 IH]; intros l1 f m es1 es2 mid Hf Hlo Hhi Hes Hnd H1 H2 Hres Hok Hroom.
  { inversion H2; subst. exists f. split; [done |]. cbn [body_sum]. rewrite Z.add_0_r, !app_nil_r. split_and!; done. }
  destruct Hok as [[Hnm Ht] Hok]. cbn [pend fmap list_fmap fst snd] in H2. change (list_fmap _ _ ?g l2) with (g <$> l2) in H2.
  pose proof (laid_range _ _ _ _ _ H1) as Hr1. pose proof (fi_n _ _ _ Hf) as Hn.
  assert (forall es1' es2' mid', es = es1' ++ es2' -> laid (tab f) (l1 ++ [(nm, t)]) es1' lo mid' -> laid (tab f) (pend l2) es2' mid' hi ->
    (forall x, x ∈ es2' -> x ∈ es2) -> files_of ((nm, t) :: l2) = files_of l2 -> body_sum ((nm, t) :: l2) = body_sum l2 ->
    exists f', write_files (files_of ((nm, t) :: l2)) es f = Ret (tt, f') /\ fm_inv f' n (m + body_sum ((nm, t) :: l2)) /\ fm_super f' = fm_super f /\
      laid (tab f') (l1 ++ (nm, t) :: l2) es lo hi /\
      (forall j, 1 <= j < fm_inode_count f -> ~ (lo <= j < hi) -> tab f' j = tab f j /\ fm_inodes f' !! Z.to_nat j = fm_inodes f !! Z.to_nat j)) as Hskip.
  { intros es1' es2' mid' E' H1' H2' Hsub Ef Eb. rewrite Ef, Eb. rewrite Eb in Hroom.
    destruct (IH (l1 ++ [(nm, t)]) f m es1' es2' mid' Hf Hlo Hhi E' Hnd H1' H2') as (f' & R); [| done | done |].
    - intros x j Hx. by apply (Hres x j), Hsub.
    - exists f'. by rewrite <- app_assoc in R. }
  destruct t as [b | c |].
  - inversion H2 as [| | ? ? ? es' ? ? Hmid H2' |]; subst. clear Hskip. cbn [files_of write_files body_sum] in *. destruct Ht as [Hlen Hby].
    pose proof (laid_range _ _ _ _ _ H2') as Hr2. pose proof (body_sum_nonneg l2).
    rewrite find_entry_mid.
    2:{ rewrite !fmap_app in Hnd. apply NoDup_app in Hnd as (_ & Hd & _). intros Hin. apply (Hd nm Hin). cbn. apply elem_of_cons. by left. }
    destruct (write_body f n m mid b Hf ltac:(lia)) as (f1 & E1 & Hf1 & Es1 & Hb1 & Ho1 & Hi1);
      [apply (Hres nm mid), elem_of_cons; by left | done | done | lia |].
    destruct (super_fields _ _ Es1) as [Ec1 Ed1].
    assert (forall j, 1 <= j < fm_inode_count f -> j ≠ mid -> tab f1 j = tab f j) as Ho1' by done.
    destruct (IH (l1 ++ [(nm, HFile b)]) f1 (m + file_blocks (zlen b)) (es1 ++ [(nm, File, mid)]) es' (mid + 1)) as (f' & E' & Hf' & Es' & Hl' & Ho');
      [done | done | done | by rewrite <- app_assoc | done | | | | done | lia |].
    + apply laid_app. exists es1, [(nm, File, mid)], mid. split; [done |]. split.
      * apply (laid_ext (tab f)); [done |]. intros j Hj. apply Ho1; lia.
      * constructor; [done | constructor].
    + apply (laid_ext (tab f)); [done |]. intros j Hj. apply Ho1; lia.
    + intros x j Hx. destruct (laid_entry _ _ _ _ _ _ _ _ H2' Hx) as [Hj _]. rewrite Hi1 by lia. apply (Hres x j), elem_of_cons. by right.
    + exists f'. rewrite (st_bind_step _ _ _ _ _ E1), E'. split; [done |]. split; [by rewrite Z.add_assoc |]. split; [congruence |].
      split; [by rewrite <- app_assoc in Hl' |]. intros j Hj Hout. destruct (Ho' j ltac:(lia) Hout) as [-> ->]. split; [apply Ho1; lia | apply Hi1; lia].
  - inversion H2 as [| | | ? ? ces ? es' ? mid' ? Hmid Hc H2']; subst.
    apply (Hskip (es1 ++ [(nm, Dir, mid)]) es' mid'); [by rewrite <- app_assoc | | done | intros; apply elem_of_cons; by right | done | done].
    apply laid_app. exists es1, [(nm, Dir, mid)], mid. split_and!; [done | done |]. econstructor; [done | done | constructor].
  - inversion H2; subst. apply (Hskip es1 es2 mid); [done | | done | done | done | done].
    apply laid_app. exists es1, [], mid. split_and!; [by rewrite app_nil_r | done |]. constructor. constructor.
Qed.

(** ** A directory and what is below it *)

Definition visits (t : HostNode) : Prop := forall f n m i l,
  t = HDir l -> fm_inv f n m -> 1 <= i < n -> fm_inodes f !! Z.to_nat i = Some (new_raw Dir) -> tree_ok t ->
  n + dir_nodes l <= fm_inode_count f -> m + tree_blocks t <= fm_data_blocks f ->
  exists f' es, visit i t f = Ret (tt, f') /\ fm_inv f' (n + dir_nodes l) (m + tree_blocks t) /\ fm_super f' = fm_super f /\
    tab f' i = Some (PDir es) /\ laid (tab f') l es n (n + dir_nodes l) /\ untouched f f' n i.

(** The new inode is there, the others as before. *)
Lemma reserve_step f n m k :
  fm_inv f n m -> n < fm_inode_count f ->
  exists f', reserve k f = Ret (n, f') /\ fm_inv f' (n + 1) m /\ fm_super f' = fm_super f /\ tab f' n = Some (empty_node k) /\
    fm_inodes f' !! Z.to_nat n = Some (new_raw k) /\
    forall j, 1 <= j < n -> tab f' j = tab f j /\ fm_inodes f' !! Z.to_nat j = fm_inodes f !! Z.to_nat j.
Proof.
  intros Hf Hn. destruct (reserve_run f n m k Hf Hn) as (E & Hf' & Ht & Ho). pose proof (fi_n _ _ _ Hf) as Hn0.
  eexists. split; [exact E |]. split; [done |]. split; [done |]. split; [done |]. split.
  - cbn. apply list_lookup_insert_eq. pose proof (sh_inodes _ (fi_shape _ _ _ Hf)) as Hl. unfold zlen in Hl. lia.
  - intros j Hj. split; [apply Ho; lia |]. cbn. apply list_lookup_insert_ne. lia.
Qed.

Definition scanned (f f' : Formatter) (n m : Z) (l : HostDir) (es : list DirEntry) : Prop :=
  fm_inv f' (n + dir_nodes l) (m + sub_sum l) /\ fm_super f' = fm_super f /\ laid (tab f') (pend l) es n (n + dir_nodes l) /\
  reserved f' es /\ forall j, 1 <= j < n -> tab f' j = tab f j /\ fm_inodes f' !! Z.to_nat j = fm_inodes f !! Z.to_nat j.

Lemma scan_dir_run l : Forall (fun x => visits x.2) l -> forall f n m es0 fs0,
  fm_inv f n m -> n + dir_nodes l <= fm_inode_count f -> m + sub_sum l <= fm_data_blocks f -> dir_ok l ->
  exists f' es, scan_dir visit l es0 fs0 f = Ret ((es0 ++ es, fs0 ++ files_of l), f') /\ scanned f f' n m l es.
Proof.
  unfold scanned. induction 1 as [| [nm t] l Hv _ IH]; intros f n m es0 fs0 Hf Hn Hm Hok.
  { exists f, []. cbn [dir_nodes foldr sub_sum files_of]. rewrite !Z.add_0_r, !app_nil_r. split_and!; try done; [constructor |]. intros x j Hx. by apply elem_of_nil in Hx. }
  destruct Hok as [[Hnm Ht] Hok]. pose proof (dir_nodes_nonneg l) as Hdn. pose proof (fi_n _ _ _ Hf) as Hn0.
  assert (dir_nodes ((nm, t) :: l) = tree_nodes t + dir_nodes l) as Edn by done. rewrite Edn in Hn |- *. clear Edn.
  destruct t as [b | c |]; cbn [sub_sum files_of] in *; cbn [snd] in Hv.
  - change (tree_nodes (HFile b)) with 1 in *. destruct (reserve_step f n m File Hf ltac:(lia)) as (f1 & E1 & Hf1 & Es1 & Ht1 & Hr1 & Ho1). destruct (super_fields _ _ Es1) as [Ec1 Ed1].
    destruct (IH f1 (n + 1) m (es0 ++ [(nm, File, n)]) (fs0 ++ [(nm, b)])) as (f2 & es & E2 & Hf2 & Es2 & Hl2 & Hr2 & Ho2); [done | lia | lia | done |].
    exists f2, ((nm, File, n) :: es). destruct (Ho2 n ltac:(lia)) as [Ht2 Hi2]. split; [| split_and!].
    + cbn [scan_dir]. rewrite (st_bind_step _ _ _ _ _ E1). fold (scan_dir visit). rewrite E2. by rewrite <- !app_assoc.
    + by replace (n + (1 + dir_nodes l)) with (n + 1 + dir_nodes l) by lia.
    + congruence.
    + replace (n + (1 + dir_nodes l)) with (n + 1 + dir_nodes l) by lia. constructor; [by rewrite Ht2 | done].
    + intros x j [[= -> ->] | Hx]%elem_of_cons; [by rewrite Hi2 | by apply (Hr2 x)].
    + intros j Hj. destruct (Ho2 j ltac:(lia)) as [-> ->]. by apply Ho1.
  - change (tree_nodes (HDir c)) with (1 + dir_nodes c) in *. pose proof (dir_nodes_nonneg c) as Hdc. pose proof (sub_sum_nonneg l).
    destruct (reserve_step f n m Dir Hf ltac:(lia)) as (f1 & E1 & Hf1 & Es1 & Ht1 & Hr1 & Ho1). destruct (super_fields _ _ Es1) as [Ec1 Ed1].
    destruct (Hv f1 (n + 1) m n c eq_refl Hf1 ltac:(lia) Hr1 Ht ltac:(lia) ltac:(lia)) as (f2 & ces & E2 & Hf2 & Es2 & Ht2 & Hl2 & Ho2).
    destruct (super_fields _ _ Es2) as [Ec2 Ed2].
    destruct (IH f2 (n + 1 + dir_nodes c) (m + tree_blocks (HDir c)) (es0 ++ [(nm, Dir, n)]) fs0) as (f3 & es & E3 & Hf3 & Es3 & Hl3 & Hr3 & Ho3);
      [done | lia | lia | done |].
    exists f3, ((nm, Dir, n) :: es). split; [| split_and!].
    + cbn [scan_dir]. rewrite (st_bind_step _ _ _ _ _ E1), (st_bind_step _ _ _ _ _ E2). fold (scan_dir visit). rewrite E3. by rewrite <- !app_assoc.
    + replace (n + (1 + dir_nodes c + dir_nodes l)) with (n + 1 + dir_nodes c + dir_nodes l) by lia. by rewrite Z.add_assoc.
    + congruence.
    + replace (n + (1 + dir_nodes c + dir_nodes l)) with (n + 1 + dir_nodes c + dir_nodes l) by lia.
      apply (laid_dir _ _ _ ces _ _ _ (n + 1 + dir_nodes c)); [by rewrite (proj1 (Ho3 n ltac:(lia))) | | done].
      apply (laid_ext (tab f2)); [done |]. intros j Hj. apply Ho3. lia.
    + intros x j [[=] | Hx]%elem_of_cons. by apply (Hr3 x).
    + intros j Hj. destruct (Ho3 j ltac:(lia)) as [-> ->]. destruct (Ho2 j ltac:(lia) ltac:(lia)) as [-> ->]. by apply Ho1.
  - change (tree_nodes HOther) with 0 in *. rewrite Z.add_0_l in *. destruct (IH f n m es0 fs0 Hf Hn Hm Hok) as (f2 & es & E2 & Hf2 & Es2 & Hl2 & Hr2 & Ho2).
    exists f2, es. split_and!; try done. by constructor.
Qed.

Lemma visit_run t : visits t.
Proof.
  induction t as [b | l IH |] using host_ind; intros f n m i l0 E; [done | injection E as <- | done].
  intros Hf Hi Hir (Hnd & Hlen & Hok) Hn Hm. rewrite tree_blocks_dir in Hm |- *. fold (dir_ok l) in Hok.
  pose proof (body_sum_nonneg l). pose proof (file_blocks_nonneg _ (listed_nonneg l)). pose proof (dir_nodes_nonneg l).
  destruct (scan_dir_run l IH f n m [] [] Hf Hn ltac:(lia) Hok) as (f1 & es & E1 & Hf1 & Es1 & Hl1 & Hr1 & Ho1). cbn [app] in E1.
  destruct (super_fields _ _ Es1) as [Ec1 Ed1]. pose proof (fi_n _ _ _ Hf1) as Hn1.
  assert (NoDup (es.*1.*1)) as Hnde.
  { apply (sublist_NoDup _ ((pend l).*1)); [| by apply (laid_names _ _ _ _ _ Hl1)].
    assert ((pend l).*1 = l.*1) as -> by (unfold pend; rewrite <- list_fmap_compose; done). done. }
  destruct (write_files_run l [] f1 (n + dir_nodes l) (m + sub_sum l) es [] es n n (n + dir_nodes l)) as (f2 & E2 & Hf2 & Es2 & Hl2 & Ho2);
    [done | lia | lia | done | done | constructor | done | done | done | lia |]. cbn [app] in Hl2.
  destruct (super_fields _ _ Es2) as [Ec2 Ed2]. pose proof (laid_len _ _ _ _ _ Hl2) as Edl.
  assert (fm_inode_count f2 < 2 ^ 64) as Hic by (pose proof (sh_u64 _ (fi_shape _ _ _ Hf2)) as Hu; rewrite !Forall_cons in Hu; lia).
  destruct (write_directory_run f2 (n + dir_nodes l) (m + sub_sum l + body_sum l) i es Hf2) as (f3 & E3 & Hf3 & Es3 & Ht3 & Ho3 & Hi3).
  - lia.
  - rewrite (proj2 (Ho2 i ltac:(lia) ltac:(lia))), (proj2 (Ho1 i ltac:(lia))). done.
  - apply (laid_entries_ok _ _ _ _ _ Hl2); [done | lia | lia].
  - done.
  - intros nm k j Hin. destruct (laid_entry _ _ _ _ _ _ _ _ Hl2 Hin). split; [lia | done].
  - lia.
  - rewrite Edl. lia.
  - rewrite Edl in Hf3. exists f3, es. split_and!.
    + cbn [visit]. rewrite (st_bind_step _ _ _ _ _ E1), (st_bind_step _ _ _ _ _ E2). done.
    + by replace (m + (file_blocks (listed_len l) + (sub_sum l + body_sum l))) with (m + sub_sum l + body_sum l + file_blocks (listed_len l)) by lia.
    + congruence.
    + done.
    + apply (laid_ext (tab f2)); [done |]. intros j Hj. apply Ho3; lia.
    + intros j Hj Hne. rewrite Ho3, Hi3 by lia. destruct (Ho2 j ltac:(lia) ltac:(lia)) as [-> ->]. apply Ho1. lia.
Qed.

End Visit.

(** ** A new image *)

(** The blocks of the bitmap of an image of [total] blocks with 64 inodes. *)
Definition bitmap_need (total : Z) : Z := Z.max 1 (div_ceil (total - 4) (8 * BLOCK_SIZE)).

Lemma div_ceil_bounds (a b : Z) : 0 < b -> b * (div_ceil a b - 1) < a <= b * div_ceil a b.
Proof.
  intros Hb. unfold div_ceil. pose proof (Z.div_mod (a + b - 1) b ltac:(lia)). pose proof (Z.mod_pos_bound (a + b - 1) b Hb). nia.
Qed.

Lemma size_bitmap_run total : 64 <= total -> size_bitmap 3 total 2 1 = Ret (bitmap_need total).
Proof.
  intros Ht. unfold bitmap_need. cbn [size_bitmap]. replace (1 + 1 + 2) with 4 by lia. rewrite (Z.max_r 0 (total - 4)) by lia.
  change (8 * BLOCK_SIZE) with 32768. pose proof (div_ceil_bounds (total - 4) 32768 ltac:(lia)).
  destruct (Z.leb_spec (div_ceil (total - 4) 32768) 1); [by rewrite Z.max_l by lia |].
  set (k := div_ceil (total - 4) 32768) in *. rewrite (Z.max_r 1 k) by lia.
  pose proof (div_ceil_bounds (Z.max 0 (total - (1 + k + 2))) 32768 ltac:(lia)).
  destruct (Z.leb_spec (div_ceil (Z.max 0 (total - (1 + k + 2))) 32768) k); [done | exfalso; lia].
Qed.

Lemma bitmap_need_bounds total : 64 <= total -> 1 <= bitmap_need total /\ total - (3 + bitmap_need total) <= 32768 * bitmap_need total /\
  3 + bitmap_need total <= total /\ 32768 * (bitmap_need total - 1) <= total.
Proof.
  intros Ht. unfold bitmap_need. change (8 * BLOCK_SIZE) with 32768. pose proof (div_ceil_bounds (total - 4) 32768 ltac:(lia)). lia.
Qed.

Lemma bit_at_zeros (n : nat) j : bit_at (replicate n 0) j = false.
Proof.
  unfold bit_at. destruct (replicate n 0 !! Z.to_nat (j / 8)) as [b |] eqn:E; [| apply Z.bits_0]. apply lookup_replicate in E as [-> _].
  apply Z.bits_0.
Qed.

Definition image_ok (image : list (list Z)) (total_bytes : Z) : Prop :=
  zlen image = total_bytes / BLOCK_SIZE /\ 64 <= zlen image /\ total_bytes < 2 ^ 64 /\
  Forall (fun b => zlen b = DISK_BLOCK /\ Forall byte_ok b) image.

Lemma raw_default_ok : raw_ok raw_default.
Proof. unfold raw_ok. cbn. do 6 (split; [lia |]). split; [done |]. repeat constructor; lia. Qed.

Lemma formatter_new_run image total_bytes : image_ok image total_bytes ->
  exists f, formatter_new image total_bytes 64 = Ret f /\ fm_inv f 1 0 /\ fm_inode_count f = 64 /\
    fm_data_blocks f = zlen image - (3 + bitmap_need (zlen image)) /\
    fm_inodes f = replicate 64 raw_default.
Proof.
  intros (Hz & H64 & Ht & Hb). unfold formatter_new. rewrite <- Hz. rewrite (proj2 (Z.leb_le _ _) H64). cbn [negb].
  change (div_ceil 64 INODES_PER_BLOCK) with 2. rewrite size_bitmap_run by done. cbn [obind]. eexists. split; [done |].
  pose proof (bitmap_need_bounds (zlen image) H64) as (Hn1 & Hn2 & Hn3 & Hn4).
  assert (zlen image * 4096 <= total_bytes) as Hsz by (rewrite Hz; unfold BLOCK_SIZE; pose proof (Z.mul_div_le total_bytes 4096); lia).
  set (f := mkFormatter _ _ _ _ _ _ _ _ _ _).
  assert (fm_data_blocks f = zlen image - (3 + bitmap_need (zlen image))) as Edb by (unfold fm_data_blocks; cbn; lia).
  assert (fm_shape f) as Hsh.
  { split; unfold fm_super, f; cbn [img fm_total_blocks fm_inode_count fm_inodes fm_bitmap fm_bitmap_start fm_bitmap_blocks
      fm_inode_table_start fm_inode_table_blocks fm_data_start]; try done.
    - split; cbn [sb_magic sb_version total_blocks inode_count bitmap_start bitmap_blocks inode_table_start inode_table_blocks data_start];
        [done | done | lia | lia | lia | change INODES_PER_BLOCK with 32; lia | unfold BLOCK_SIZE; lia].
    - unfold DISK_BLOCK. lia.
    - apply Forall_replicate, raw_default_ok.
    - unfold zlen at 1. rewrite length_replicate. unfold BLOCK_SIZE. lia.
    - apply Forall_replicate. lia.
    - repeat (apply Forall_cons_2; [lia |]). apply Forall_nil_2. }
  assert (forall i r, fm_inodes f !! i = Some r -> r = raw_default) as Hdef by (intros i r Hr; by apply lookup_replicate in Hr as [-> _]).
  assert (forall i, ~ used (pond_of f) i) as Hnone.
  { intros i [Hv Hk]. unfold valid_ino in Hv. cbn in Hv. apply Hk. cbn [pond_of fresh_pond dev sb].
    destruct (lookup_lt_is_Some_2 (fm_inodes f) (Z.to_nat i)) as [r Hr]; [cbn [f fm_inodes]; rewrite length_replicate; lia |].
    rewrite (final_raw f Hsh i r Hr) by lia. by rewrite (Hdef _ _ Hr). }
  split_and!; [| done | done | done]. split; [done | cbn; lia | lia | | | |].
  - intros i r Hi. lia.
  - intros i r _ Hr. by apply (Hdef _ _ Hr).
  - intros j Hj. cbn [f fm_bitmap]. rewrite bit_at_zeros. symmetry. apply Z.ltb_ge. lia.
  - split; [by apply final_disk_ok | | | | |].
    + intros i a H. cbn in H. by apply lookup_empty_Some in H.
    + intros a [? H]. cbn in H. by apply lookup_empty_Some in H.
    + intros i Hu. by destruct (Hnone i).
    + intros i j k l b Hu. by destruct (Hnone i).
    + intros i Hu. by destruct (Hnone i).
Qed.

(** C10 Formatting an image and mounting it gives the source tree back: for any
    directory tree whose files are at most 48 KiB, whose directories encode in
    at most 48 KiB, with at most 62 nodes and no more data blocks than the
    image has, [mkpondfs] terminates without a panic, the kernel mounts the
    image it leaves, the mounted state satisfies the invariant of the file
    system, and the root and everything below it is the tree: names in order,
    kinds, and the bytes of every file. *)
Theorem mkpondfs_mounts {PD : Padding} (image : list (list Z)) (total_bytes : Z) (l : HostDir) :
  image_ok image total_bytes -> tree_ok (HDir l) -> dir_nodes l <= 62 ->
  tree_blocks (HDir l) <= zlen image - (3 + bitmap_need (zlen image)) ->
  exists image' s a es, mkpondfs image total_bytes (HDir l) = Ret image' /\ pond_mount (mkMemDisk image') = Ret (Ok (s, a)) /\
    pond_inv s /\ unlocked s /\ handle s a ROOT_INO /\
    table_of s ROOT_INO = Some (PDir es) /\ laid (table_of s) l es 2 (2 + dir_nodes l).
Proof.
  intros Him Htree Hnodes Hblocks. destruct (formatter_new_run image total_bytes Him) as (f0 & E0 & Hf0 & Ec & Ed & Ei).
  destruct (reserve_run f0 1 0 Dir Hf0 ltac:(lia)) as (_ & Hf1 & _ & _). set (f1 := with_inodes f0 _) in Hf1.
  change (1 + 1) with 2 in Hf1.
  destruct (visit_run (HDir l) f1 2 0 ROOT_INO l eq_refl Hf1) as (f2 & es & E2 & Hf2 & Es2 & Ht2 & Hl2 & _);
    [unfold ROOT_INO; lia | | done | cbn; lia | change (fm_data_blocks f1) with (fm_data_blocks f0); lia |].
  { cbn. rewrite Ei. done. }
  pose proof (fi_shape _ _ _ Hf2) as Hsh2. destruct (super_fields _ _ Es2) as [Ec2 _]. change (fm_inode_count f1) with (fm_inode_count f0) in Ec2.
  pose proof (dir_nodes_nonneg l) as Hdn.
  destruct (mount_run (mkMemDisk (final_img f2)) (fm_super f2) (fm_bitmap f2) (fi_pond _ _ _ Hf2)) as (s & a & Em & Hi & Hun & Hh & Esb & Hn).
  { apply (fm_used f2 _ _ ROOT_INO Hf2). unfold ROOT_INO. lia. }
  assert (forall j, 1 <= j < 64 -> table_of s j = tab f2 j) as Htab.
  { intros j Hj. unfold table_of. rewrite Esb. apply Hn. unfold valid_ino. cbn. lia. }
  exists (final_img f2), s, a, es. split_and!; [| done | done | done | done | by rewrite Htab by (unfold ROOT_INO; lia) |].
  - unfold mkpondfs. rewrite E0. cbn [obind].
    assert (get_inode ROOT_INO f0 = Ret (raw_default, f0)) as Eg by (unfold get_inode, st_bind, st_get, st_lift; cbn [obind]; by rewrite Ei).
    rewrite (st_bind_step _ _ _ _ _ Eg).
    rewrite (st_bind_step (set_inode ROOT_INO _) _ f0 f1 tt)
      by (unfold set_inode, st_bind, st_get, st_lift, st_modify; cbn [obind]; rewrite upd_in_range by (rewrite Ei; done); done).
    rewrite (st_bind_step _ _ _ _ _ E2), (finalize_run f2 Hsh2). done.
  - apply (laid_ext (tab f2)); [done |]. intros j Hj. apply Htab. lia.
Qed.

Lemma mkpondfs_mounts_witness :
  exists image' s a es, mkpondfs (replicate 64 zero_block) (64 * 4096) (HDir [([97], HFile [104; 105])]) = Ret image' /\
    pond_mount (mkMemDisk image') = Ret (Ok (s, a)) /\
    pond_inv s /\ unlocked s /\ handle s a ROOT_INO /\
    table_of s ROOT_INO = Some (PDir es) /\ laid (table_of s) [([97], HFile [104; 105])] es 2 3.
Proof.
  apply (mkpondfs_mounts (replicate 64 zero_block) (64 * 4096) [([97], HFile [104; 105])]).
  - split; [vm_compute; reflexivity |]. split; [vm_compute; discriminate |]. split; [lia |].
    apply Forall_replicate. exact zero_block_ok.
  - split; [apply NoDup_singleton |]. split; [vm_compute; discriminate |]. split; [| done]. split; [exact short_name |].
    split; [vm_compute; discriminate |]. repeat constructor; unfold byte_ok; lia.
  - vm_compute. discriminate.
  - vm_compute. discriminate.
Defined.
