(* ===== verification/Font.v ===== *)
(** * Boot font

    The 8x16 glyphs of [kernel/src/drivers/framebuffer/font.rs]; bit 0x80 of a
    row is its leftmost pixel. *)

From S2P Require Import Prelude.

(** The macro [g!]: up to 16 rows, the rest empty. *)
Definition g_rows (rows : list Z) : list Z := take 16 (rows ++ replicate 16 0).

Definition MISSING : list Z :=
  [0x00; 0x7E; 0x42; 0x42; 0x42; 0x42; 0x42; 0x42; 0x42; 0x42; 0x42; 0x42; 0x7E; 0x00; 0x00; 0x00].
Definition SPACE : list Z := replicate 16 0.
Definition LETTER_M : list Z :=
  g_rows [0x00; 0x00; 0xC3; 0xE7; 0xFF; 0xDB; 0xC3; 0xC3; 0xC3; 0xC3; 0xC3; 0xC3; 0x00; 0x00; 0x00; 0x00].
Definition LETTER_O : list Z :=
  g_rows [0x00; 0x00; 0x3C; 0x66; 0xC3; 0xC3; 0xC3; 0xC3; 0xC3; 0xC3; 0x66; 0x3C; 0x00; 0x00; 0x00; 0x00].
Definition LETTER_S : list Z :=
  g_rows [0x00; 0x00; 0x3E; 0x63; 0xC0; 0xC0; 0x78; 0x0E; 0x03; 0x03; 0xC6; 0x7C; 0x00; 0x00; 0x00; 0x00].
Definition LETTER_a : list Z :=
  g_rows [0; 0; 0; 0; 0; 0x7C; 0x06; 0x7E; 0xC6; 0xC6; 0xC6; 0x7B; 0; 0; 0; 0].
Definition LETTER_b : list Z :=
  g_rows [0xC0; 0xC0; 0xC0; 0xFC; 0xC6; 0xC3; 0xC3; 0xC3; 0xC3; 0xC6; 0xFC; 0; 0; 0; 0; 0].
Definition LETTER_d : list Z :=
  g_rows [0x03; 0x03; 0x03; 0x3F; 0x63; 0xC3; 0xC3; 0xC3; 0xC3; 0x63; 0x3F; 0; 0; 0; 0; 0].
Definition LETTER_e : list Z :=
  g_rows [0; 0; 0; 0; 0; 0x3C; 0x66; 0xC3; 0xFF; 0xC0; 0x63; 0x3E; 0; 0; 0; 0].
Definition LETTER_f : list Z :=
  g_rows [0x1E; 0x33; 0x30; 0x30; 0xFC; 0x30; 0x30; 0x30; 0x30; 0x30; 0x30; 0x30; 0; 0; 0; 0].
Definition LETTER_k : list Z :=
  g_rows [0xC0; 0xC0; 0xC0; 0xC6; 0xCC; 0xD8; 0xF0; 0xF8; 0xCC; 0xC6; 0xC3; 0; 0; 0; 0; 0].
Definition LETTER_l : list Z :=
  g_rows [0x3C; 0x0C; 0x0C; 0x0C; 0x0C; 0x0C; 0x0C; 0x0C; 0x0C; 0x0C; 0x3F; 0; 0; 0; 0; 0].
Definition LETTER_m : list Z :=
  g_rows [0; 0; 0; 0; 0; 0xEE; 0xFF; 0xDB; 0xDB; 0xDB; 0xDB; 0xDB; 0; 0; 0; 0].
Definition LETTER_n : list Z :=
  g_rows [0; 0; 0; 0; 0; 0xFC; 0xC6; 0xC3; 0xC3; 0xC3; 0xC3; 0xC3; 0; 0; 0; 0].
Definition LETTER_o : list Z :=
  g_rows [0; 0; 0; 0; 0; 0x3C; 0x66; 0xC3; 0xC3; 0xC3; 0x66; 0x3C; 0; 0; 0; 0].
Definition LETTER_p : list Z :=
  g_rows [0; 0; 0; 0; 0; 0xFC; 0xC6; 0xC3; 0xC3; 0xC6; 0xFC; 0xC0; 0xC0; 0xC0; 0xC0; 0x00].
Definition LETTER_r : list Z :=
  g_rows [0; 0; 0; 0; 0; 0xDE; 0xE3; 0xC0; 0xC0; 0xC0; 0xC0; 0xC0; 0; 0; 0; 0].
Definition LETTER_s : list Z :=
  g_rows [0; 0; 0; 0; 0; 0x7E; 0xC0; 0xE0; 0x3C; 0x07; 0xC3; 0xFE; 0; 0; 0; 0].
Definition LETTER_t : list Z :=
  g_rows [0; 0; 0x18; 0x18; 0xFF; 0x18; 0x18; 0x18; 0x18; 0x18; 0x1B; 0x0E; 0; 0; 0; 0].
Definition LETTER_u : list Z :=
  g_rows [0; 0; 0; 0; 0; 0xC3; 0xC3; 0xC3; 0xC3; 0xC3; 0xC7; 0x7B; 0; 0; 0; 0].
Definition LETTER_y : list Z :=
  g_rows [0; 0; 0; 0; 0; 0xC3; 0xC3; 0xC3; 0xC3; 0x67; 0x3B; 0x03; 0xC6; 0x7C; 0; 0].
Definition DIGIT_0 : list Z := LETTER_O.
Definition DIGIT_1 : list Z :=
  g_rows [0; 0; 0x18; 0x38; 0x78; 0x18; 0x18; 0x18; 0x18; 0x18; 0x18; 0x7E; 0; 0; 0; 0].
Definition DIGIT_M0 : list Z :=
  g_rows [0; 0; 0x3C; 0x66; 0xC7; 0xCF; 0xDB; 0xF3; 0xE3; 0xC3; 0x66; 0x3C; 0; 0; 0; 0].
Definition COMMA : list Z :=
  g_rows [0; 0; 0; 0; 0; 0; 0; 0; 0; 0; 0; 0x1C; 0x1C; 0x0C; 0x18; 0x30].
Definition DASH : list Z :=
  g_rows [0; 0; 0; 0; 0; 0; 0; 0x7E; 0x7E; 0; 0; 0; 0; 0; 0; 0].
Definition DOT : list Z :=
  g_rows [0; 0; 0; 0; 0; 0; 0; 0; 0; 0; 0; 0; 0; 0x18; 0x18; 0].

(** [ch] as its code point. *)
Definition glyph (ch : Z) : list Z :=
  match ch with
  | 32 => SPACE
  | 77 => LETTER_M
  | 79 => LETTER_O
  | 83 => LETTER_S
  | 97 => LETTER_a
  | 98 => LETTER_b
  | 100 => LETTER_d
  | 101 => LETTER_e
  | 102 => LETTER_f
  | 107 => LETTER_k
  | 108 => LETTER_l
  | 109 => LETTER_m
  | 110 => LETTER_n
  | 111 => LETTER_o
  | 112 => LETTER_p
  | 114 => LETTER_r
  | 115 => LETTER_s
  | 116 => LETTER_t
  | 117 => LETTER_u
  | 121 => LETTER_y
  | 48 => DIGIT_M0
  | 49 => DIGIT_1
  | 45 => DASH
  | 44 => COMMA
  | 46 => DOT
  | _ => MISSING
  end.

Lemma glyph_rows (ch : Z) : length (glyph ch) = 16%nat.
Proof. unfold glyph. repeat case_match; reflexivity. Qed.
