(* ===== verification/Framebuffer.v ===== *)
(** * Framebuffer console

    [kernel/src/drivers/framebuffer.rs]: solid fills and bitmap text on the
    linear framebuffer the bootloader hands over.  The memory is named by the
    kernel's virtual addresses, as [fb.base] is. *)

From S2P Require Import Prelude Bytes BootInfo Font.

Record DisplayInfo : Type := mkDisplayInfo {
  di_width : Z; di_height : Z; di_pitch : Z; di_bits_per_pixel : Z; di_pixel_format : Z }.

(** [pixel_format as u32]. *)
Definition format_code (f : PixelFormat) : Z :=
  match f with Bgrx8888 => 0 | Rgbx8888 => 1 | PfUnknown => 0xFFFFFFFF end.

Definition sat_add32 (a b : Z) : Z := Z.min (a + b) (2 ^ 32 - 1).

Section Console.
  Variable fb : Framebuffer.

Definition fb_info : DisplayInfo :=
  mkDisplayInfo (fb_width fb) (fb_height fb) (fb_pitch fb) (fb_bits_per_pixel fb)
    (format_code (fb_pixel_format fb)).

Definition encode (rgb : Z) : Z :=
  let r := Z.land (Z.shiftr rgb 16) 0xFF in
  let g := Z.land (Z.shiftr rgb 8) 0xFF in
  let b := Z.land rgb 0xFF in
  match fb_pixel_format fb with
  | Bgrx8888 => Z.lor (Z.lor (Z.shiftl r 16) (Z.shiftl g 8)) b
  | Rgbx8888 => Z.lor (Z.lor (Z.shiftl b 16) (Z.shiftl g 8)) r
  | PfUnknown => rgb
  end.

(** The pointer arithmetic is checked, and [write_volatile] wants an aligned
    pointer that is not null. *)
Definition put_raw (m : PhysMem) (x y pixel : Z) : outcome PhysMem :=
  let! offset := checked 64 (y * fb_pitch fb + x * 4) in
  let! ptr := checked 64 (fb_base fb + offset) in
  if (ptr mod 4 =? 0) && negb (ptr =? 0) then Ret (store m ptr (le_bytes 4 pixel)) else Panic.

Definition fill_row (px x x_end : Z) (m : PhysMem) (dy : Z) : outcome PhysMem :=
  ofold (fun m dx => put_raw m dx dy px) (seqZ x (x_end - x)) m.
Definition fb_fill_rect (m : PhysMem) (x y width height color : Z) : outcome PhysMem :=
  if (fb_width fb <=? x) || (fb_height fb <=? y) || (width =? 0) || (height =? 0) then Ret m
  else
    let x_end := Z.min (sat_add32 x width) (fb_width fb) in
    let y_end := Z.min (sat_add32 y height) (fb_height fb) in
    ofold (fill_row (encode color) x x_end) (seqZ y (y_end - y)) m.

Definition fb_clear (m : PhysMem) (color : Z) : outcome PhysMem :=
  fb_fill_rect m 0 0 (fb_width fb) (fb_height fb) color.

(** One pixel of a glyph: its row, the bits of the row, its column. *)
Definition draw_dot (px x y row bits : Z) (m : PhysMem) (col : Z) : outcome PhysMem :=
  if Z.land (Z.shiftr bits (7 - col)) 1 =? 1 then
    let! dx := checked 32 (x + col) in
    let! dy := checked 32 (y + row) in
    if (dx <? fb_width fb) && (dy <? fb_height fb) then put_raw m dx dy px else Ret m
  else Ret m.
Definition draw_row (px x y : Z) (m : PhysMem) (rb : Z * Z) : outcome PhysMem :=
  ofold (draw_dot px x y rb.1 rb.2) (seqZ 0 8) m.
Definition draw_char (m : PhysMem) (x y ch color : Z) : outcome PhysMem :=
  ofold (draw_row (encode color) x y) (imap (fun i bits => (Z.of_nat i, bits)) (glyph ch)) m.

Definition printable (b : Z) : bool := (0x20 <=? b) && (b <=? 0x7E).

Fixpoint draw_loop (x color : Z) (text : list Z) (m : PhysMem) (cx y drawn : Z) : outcome (Z * PhysMem) :=
  match text with
  | [] => Ret (drawn, m)
  | b :: text =>
      if b =? 10 then
        let y := sat_add32 y 16 in
        let! bottom := checked 32 (y + 16) in
        if fb_height fb <? bottom then Ret (drawn, m) else draw_loop x color text m x y drawn
      else
        let! edge := checked 32 (cx + 8) in
        if fb_width fb <? edge then Ret (drawn, m)
        else
          let! m := draw_char m cx y (if printable b then b else 32) color in
          let! drawn := checked 64 (drawn + 1) in
          let! cx := checked 32 (cx + 8) in
          draw_loop x color text m cx y drawn
  end.
Definition draw_bytes (m : PhysMem) (x y : Z) (text : list Z) (color : Z) : outcome (Z * PhysMem) :=
  draw_loop x color text m x y 0.

End Console.

(** ** The display *)

Record Screen : Type := mkScreen { DISPLAY : option Framebuffer; vram : PhysMem }.

Definition framebuffer_init (fb : Framebuffer) : ST Screen unit := st_modify (fun s => mkScreen (Some fb) (vram s)).
Definition display_info : ST Screen (option DisplayInfo) := fun s => Ret (fb_info <$> DISPLAY s, s).
Definition clear (color : Z) : ST Screen Z := fun s =>
  match DISPLAY s with
  | Some fb => let! m := fb_clear fb (vram s) color in Ret (0, mkScreen (DISPLAY s) m)
  | None => Ret (-1, s)
  end.
Definition fill_rect (x y width height color : Z) : ST Screen Z := fun s =>
  match DISPLAY s with
  | Some fb => let! m := fb_fill_rect fb (vram s) x y width height color in Ret (0, mkScreen (DISPLAY s) m)
  | None => Ret (-1, s)
  end.
Definition draw_text (x y : Z) (bytes : list Z) (color : Z) : ST Screen Z := fun s =>
  match DISPLAY s with
  | Some fb => let! (n, m) := draw_bytes fb (vram s) x y bytes color in Ret (n, mkScreen (DISPLAY s) m)
  | None => Ret (-1, s)
  end.
