(* ===== verification/FramebufferProps.v ===== *)
(** * What the framebuffer console draws

    Fills and text touch exactly the pixels they should: a rectangle clipped to
    the screen, and the dots of the glyphs of the characters that fit on a
    line.  Nothing outside the pixels of the screen is written. *)

From S2P Require Import Prelude Bytes BootInfo Font Framebuffer.

(** The framebuffer [FramebufferConsole::new] asks for: [pitch * height] bytes
    at [base], rows of whole pixels. *)
Record fb_ok (fb : Framebuffer) : Prop := {
  fo_base : 0 < fb_base fb; fo_base_al : fb_base fb mod 4 = 0;
  fo_width : 0 <= fb_width fb; fo_height : 0 <= fb_height fb < 2 ^ 31;
  fo_pitch_al : fb_pitch fb mod 4 = 0; fo_rows : 4 * fb_width fb <= fb_pitch fb < 2 ^ 32;
  fo_end : fb_base fb + fb_pitch fb * fb_height fb <= 2 ^ 64
}.

Section Painting.
  Variable fb : Framebuffer.
  Hypothesis Hfb : fb_ok fb.

Definition pixel_addr (x y : Z) : Z := fb_base fb + (y * fb_pitch fb + x * 4).
Definition on_screen (x y : Z) : Prop := 0 <= x < fb_width fb /\ 0 <= y < fb_height fb.
Definition pixel (m : PhysMem) (x y : Z) : Z := le_val (load m (pixel_addr x y) 4).
(** The bytes of the pixels of the screen. *)
Definition pixel_byte (a : Z) : Prop := exists x y, on_screen x y /\ pixel_addr x y <= a < pixel_addr x y + 4.

(** [m'] is [m] with the pixels of [P] set to [px]. *)
Definition painted (P : Z -> Z -> bool) (px : Z) (m m' : PhysMem) : Prop :=
  (forall x y, on_screen x y -> pixel m' x y = if P x y then px else pixel m x y) /\
  (forall a, ~ pixel_byte a -> m' a = m a).

Lemma painted_none (P : Z -> Z -> bool) (px : Z) m : (forall x y, on_screen x y -> P x y = false) -> painted P px m m.
Proof. intros HP. split; [intros x y Hs; by rewrite HP | done]. Qed.

Lemma painted_ext (P Q : Z -> Z -> bool) (px : Z) m m' :
  (forall x y, on_screen x y -> P x y = Q x y) -> painted P px m m' -> painted Q px m m'.
Proof. intros HP [A1 A2]. split; [intros x y Hs; by rewrite <- HP, A1 | done]. Qed.

Lemma painted_union (P Q : Z -> Z -> bool) (px : Z) m m1 m2 :
  painted P px m m1 -> painted Q px m1 m2 -> painted (fun x y => P x y || Q x y) px m m2.
Proof.
  intros [A1 A2] [B1 B2]. split; [| intros a Ha; by rewrite B2, A2].
  intros x y Hs. rewrite B1, A1 by done. by destruct (P x y), (Q x y).
Qed.

(** Pixels do not overlap. *)
Lemma pixel_apart (x y x' y' a : Z) :
  on_screen x y -> on_screen x' y' -> (x, y) ≠ (x', y') ->
  pixel_addr x y <= a < pixel_addr x y + 4 -> ~ (pixel_addr x' y' <= a < pixel_addr x' y' + 4).
Proof.
  unfold on_screen, pixel_addr. destruct Hfb. intros Hs Hs' Hne Ha Ha'.
  assert (y = y') as -> by nia. apply Hne. f_equal. lia.
Qed.

Lemma pixel_addr_range (x y : Z) :
  on_screen x y -> 0 <= y * fb_pitch fb + x * 4 < 2 ^ 64 /\ 0 < pixel_addr x y < 2 ^ 64 /\ pixel_addr x y mod 4 = 0.
Proof.
  unfold on_screen, pixel_addr. destruct Hfb as [? Hb ? ? Hp ? ?]. intros Hs.
  assert (y * fb_pitch fb + x * 4 < fb_pitch fb * fb_height fb) by nia. split_and!; try nia.
  apply Z.mod_divide in Hb as [b Eb], Hp as [p Ep]; [| lia ..].
  replace (fb_base fb + (y * fb_pitch fb + x * 4)) with ((b + y * p + x) * 4) by (rewrite Eb, Ep; lia).
  apply Z.mod_mul. lia.
Qed.

Lemma put_raw_spec m (x y px : Z) :
  on_screen x y -> 0 <= px < 2 ^ 32 ->
  exists m', put_raw fb m x y px = Ret m' /\ painted (fun x' y' => (x' =? x) && (y' =? y)) px m m'.
Proof.
  intros Hs Hpx. destruct (pixel_addr_range x y Hs) as (H1 & H2 & H3). unfold put_raw.
  rewrite checked_fits by done. cbn [obind]. fold (pixel_addr x y). rewrite checked_fits by lia. cbn [obind].
  rewrite H3. destruct (Z.eqb_spec (pixel_addr x y) 0); [lia |]. cbn [negb andb Z.eqb]. eexists. split; [done |].
  assert (zlen (le_bytes 4 px) = 4) as Hl by done. split.
  - intros x' y' Hs'. unfold pixel. destruct (decide ((x', y') = (x, y))) as [[= -> ->] | Hne].
    + rewrite !Z.eqb_refl. change 4%nat with (length (le_bytes 4 px)). rewrite load_store_same.
      by apply le_val_bytes.
    + replace ((x' =? x) && (y' =? y)) with false by (zcases; naive_solver). f_equal. apply load_ext.
      intros a Ha. apply store_other. rewrite Hl. apply (pixel_apart x' y'); [done | done | done | lia].
  - intros a Ha. apply store_other. rewrite Hl. intros Hin. apply Ha. by exists x, y.
Qed.

(** A loop whose turns each paint a part paints the union. *)
Lemma paint_loop {X} (f : PhysMem -> X -> outcome PhysMem) (P : X -> Z -> Z -> bool) (px : Z) (l : list X) m :
  (forall m i, i ∈ l -> exists m', f m i = Ret m' /\ painted (P i) px m m') ->
  exists m', ofold f l m = Ret m' /\ painted (fun x y => existsb (fun i => P i x y) l) px m m'.
Proof.
  revert m. induction l as [| i l IH]; intros m Hf; cbn [ofold existsb].
  { exists m. split; [done |]. by apply painted_none. }
  destruct (Hf m i) as (m1 & -> & H1); [by left |]. cbn [obind].
  destruct (IH m1) as (m2 & -> & H2); [intros m' j Hj; apply Hf; by right |].
  exists m2. split; [done |]. by eapply painted_union.
Qed.

Lemma existsb_seqZ (a n v : Z) (b : bool) :
  existsb (fun i => (v =? i) && b) (seqZ a n) = (a <=? v) && (v <? a + n) && b.
Proof.
  apply Bool.eq_iff_eq_true. rewrite existsb_exists, !andb_true_iff, Z.leb_le, Z.ltb_lt. split.
  - intros (i & Hi & [-> %Z.eqb_eq Hb]%andb_true_iff). apply list_elem_of_In, elem_of_seqZ in Hi. split; [lia | done].
  - intros [[H1 H2] Hb]. exists v. rewrite Z.eqb_refl, Hb. split; [| done]. apply list_elem_of_In, elem_of_seqZ. lia.
Qed.

(** ** Fills *)

Definition in_rect (x y w h x' y' : Z) : bool := (x <=? x') && (x' <? x + w) && (y <=? y') && (y' <? y + h).

Lemma encode_range (rgb : Z) : 0 <= rgb < 2 ^ 32 -> 0 <= encode fb rgb < 2 ^ 32.
Proof.
  intros H. unfold encode.
  assert (forall v, 0 <= Z.land v 0xFF < 2 ^ 8) as Hb by (intros v; change 0xFF with (Z.ones 8); rewrite Z.land_ones by lia; apply Z.mod_pos_bound; lia).
  assert (forall a b c, 0 <= a < 2 ^ 8 -> 0 <= b < 2 ^ 8 -> 0 <= c < 2 ^ 8 ->
    0 <= Z.lor (Z.lor (Z.shiftl a 16) (Z.shiftl b 8)) c < 2 ^ 32) as Hor.
  { intros a b c Ha Hb' Hc. apply lor_range; [lia | apply lor_range; [lia | apply shiftl_range; lia ..] | lia]. }
  destruct (fb_pixel_format fb); [by apply Hor | by apply Hor | done].
Qed.

Lemma fill_row_spec m (px x x_end y : Z) :
  0 <= px < 2 ^ 32 -> 0 <= x -> x_end <= fb_width fb -> 0 <= y < fb_height fb ->
  exists m', fill_row fb px x x_end m y = Ret m' /\
    painted (fun x' y' => (y' =? y) && ((x <=? x') && (x' <? x_end))) px m m'.
Proof.
  intros Hpx Hx He Hy. unfold fill_row.
  destruct (paint_loop (fun m dx => put_raw fb m dx y px) (fun i x' y' => (x' =? i) && (y' =? y)) px
    (seqZ x (x_end - x)) m) as (m' & E & HP).
  { intros m1 i Hi%elem_of_seqZ. apply put_raw_spec; [unfold on_screen; lia | done]. }
  exists m'. split; [exact E |]. eapply painted_ext; [| exact HP]. intros x' y' _. cbv beta. rewrite existsb_seqZ.
  replace (x + (x_end - x)) with x_end by lia. by rewrite andb_comm.
Qed.

Lemma fill_rect_spec m (x y w h color : Z) :
  0 <= x -> 0 <= y -> 0 <= w -> 0 <= h -> 0 <= color < 2 ^ 32 ->
  exists m', fb_fill_rect fb m x y w h color = Ret m' /\ painted (in_rect x y w h) (encode fb color) m m'.
Proof.
  intros Hx Hy Hw Hh Hc. pose proof (encode_range color Hc) as He. unfold fb_fill_rect.
  assert (fb_width fb < 2 ^ 31 /\ fb_height fb < 2 ^ 31) as [Hfw Hfh] by (destruct Hfb; lia).
  destruct ((fb_width fb <=? x) || (fb_height fb <=? y) || (w =? 0) || (h =? 0)) eqn:E.
  { exists m. split; [done |]. apply painted_none. unfold on_screen, in_rect. intros x' y' Hs.
    rewrite !orb_true_iff, !Z.leb_le, !Z.eqb_eq in E. zcases; (done || lia). }
  rewrite !orb_false_iff, !Z.leb_gt, !Z.eqb_neq in E. destruct E as [[[E1 E2] E3] E4]. unfold sat_add32.
  set (xe := Z.min (Z.min (x + w) (2 ^ 32 - 1)) (fb_width fb)). set (ye := Z.min (Z.min (y + h) (2 ^ 32 - 1)) (fb_height fb)).
  destruct (paint_loop (fill_row fb (encode fb color) x xe)
    (fun i x' y' => (y' =? i) && ((x <=? x') && (x' <? xe))) (encode fb color) (seqZ y (ye - y)) m) as (m' & Er & HP).
  { intros m1 i Hi%elem_of_seqZ. apply fill_row_spec; [done | done | lia | lia]. }
  exists m'. split; [exact Er |]. eapply painted_ext; [| exact HP]. unfold on_screen, in_rect. intros x' y' Hs. cbv beta.
  rewrite existsb_seqZ. zcases; (done || lia).
Qed.

(** ** Text *)

(** The dots of a character drawn at [x, y]. *)
Definition dot (ch x y x' y' : Z) : bool :=
  (x <=? x') && (x' <? x + 8) && (y <=? y') && (y' <? y + 16)
  && Z.testbit (default 0 (glyph ch !! Z.to_nat (y' - y))) (7 - (x' - x)).

(** The characters that are drawn, with their places.  A line feed starts the
    next row, unless it does not fit; a character that does not fit ends the
    text. *)
Fixpoint cells (x : Z) (text : list Z) (cx y : Z) : list (Z * Z * Z) :=
  match text with
  | [] => []
  | b :: text =>
      if b =? 10 then if fb_height fb <? y + 32 then [] else cells x text x (y + 16)
      else if fb_width fb <? cx + 8 then []
      else (if printable b then b else 32, cx, y) :: cells x text (cx + 8) y
  end.
Definition lit (l : list (Z * Z * Z)) (x' y' : Z) : bool :=
  existsb (fun c => dot c.1.1 c.1.2 c.2 x' y') l.

Lemma bit_one (b k : Z) : 0 <= k -> (Z.land (Z.shiftr b k) 1 =? 1) = Z.testbit b k.
Proof.
  intros Hk. change 1 with (Z.ones 1) at 1. rewrite Z.land_ones by lia. rewrite <- Z.bit0_mod, Z.shiftr_spec by lia.
  rewrite Z.add_0_l. by destruct (Z.testbit b k).
Qed.

Lemma draw_dot_spec m (px x y row bits col : Z) :
  0 <= px < 2 ^ 32 -> 0 <= x -> x + 8 <= 2 ^ 32 -> 0 <= y -> y + 16 <= 2 ^ 32 -> 0 <= row < 16 -> 0 <= col < 8 ->
  exists m', draw_dot fb px x y row bits m col = Ret m' /\
    painted (fun x' y' => (x' =? x + col) && ((y' =? y + row) && Z.testbit bits (7 - col))) px m m'.
Proof.
  intros Hpx Hx Hx' Hy Hy' Hr Hc. unfold draw_dot. rewrite bit_one by lia.
  destruct (Z.testbit bits (7 - col)) eqn:Eb.
  2: { exists m. split; [done |]. apply painted_none. intros x' y' _. by rewrite !andb_false_r. }
  rewrite !checked_fits by lia. cbn [obind].
  destruct ((x + col <? fb_width fb) && (y + row <? fb_height fb)) eqn:Es.
  - apply andb_true_iff in Es as [E1%Z.ltb_lt E2%Z.ltb_lt].
    destruct (put_raw_spec m (x + col) (y + row) px) as (m' & E & HP); [unfold on_screen; lia | done |].
    exists m'. split; [done |]. eapply painted_ext; [| exact HP]. intros x' y' _. by rewrite andb_true_r.
  - exists m. split; [done |]. apply painted_none. unfold on_screen. intros x' y' Hs.
    rewrite andb_false_iff, !Z.ltb_ge in Es. zcases; (done || lia).
Qed.

Lemma draw_char_spec m (x y ch color : Z) :
  0 <= x -> x + 8 <= 2 ^ 32 -> 0 <= y -> y + 16 <= 2 ^ 32 -> 0 <= color < 2 ^ 32 ->
  exists m', draw_char fb m x y ch color = Ret m' /\ painted (dot ch x y) (encode fb color) m m'.
Proof.
  intros Hx Hx' Hy Hy' Hc. pose proof (encode_range color Hc) as He. unfold draw_char.
  set (rows := imap _ (glyph ch)).
  assert (forall rb, rb ∈ rows <-> 0 <= rb.1 < 16 /\ glyph ch !! Z.to_nat rb.1 = Some rb.2) as Hrows.
  { intros [r b]. unfold rows. rewrite elem_of_lookup_imap. cbn. split.
    - intros (i & b' & [= -> ->] & Hl). rewrite Nat2Z.id. split; [| done]. apply lookup_lt_Some in Hl.
      rewrite glyph_rows in Hl. lia.
    - intros [Hr Hl]. exists (Z.to_nat r), b. split; [f_equal; lia | done]. }
  destruct (paint_loop (draw_row fb (encode fb color) x y)
    (fun rb x' y' => existsb (fun col => (x' =? x + col) && ((y' =? y + rb.1) && Z.testbit rb.2 (7 - col))) (seqZ 0 8))
    (encode fb color) rows m) as (m' & Er & HP).
  { intros m1 rb [Hr _]%Hrows. apply paint_loop. intros m2 col Hcol%elem_of_seqZ. apply draw_dot_spec; (done || lia). }
  exists m'. split; [exact Er |]. eapply painted_ext; [| exact HP]. intros x' y' _. cbv beta.
  apply Bool.eq_iff_eq_true. rewrite existsb_exists. unfold dot. rewrite !andb_true_iff, !Z.leb_le, !Z.ltb_lt. split.
  - intros (rb & Hin%list_elem_of_In & (col & Hcol & Ht)%existsb_exists). apply Hrows in Hin as [Hr Hl].
    apply list_elem_of_In, elem_of_seqZ in Hcol. rewrite !andb_true_iff, !Z.eqb_eq in Ht. destruct Ht as (-> & -> & Ht).
    replace (y + rb.1 - y) with (rb.1) by lia. rewrite Hl. cbn. replace (x + col - x) with col by lia. split; [lia | done].
  - intros ([[[H1 H2] H3] H4] & Ht). destruct (glyph ch !! Z.to_nat (y' - y)) as [b |] eqn:Hl.
    2: { cbn in Ht. by rewrite Z.bits_0 in Ht. }
    exists (y' - y, b). split; [apply list_elem_of_In, Hrows; cbn; split; [lia | done] |]. apply existsb_exists.
    exists (x' - x). split; [apply list_elem_of_In, elem_of_seqZ; lia |]. rewrite !andb_true_iff, !Z.eqb_eq. cbn in *. split_and!; [lia | lia | done].
Qed.

Lemma draw_loop_spec (x color : Z) (text : list Z) m (cx y drawn : Z) :
  0 <= color < 2 ^ 32 -> 0 <= x -> x + 8 < 2 ^ 32 -> 0 <= cx -> cx + 8 < 2 ^ 32 -> 0 <= y -> y + 32 < 2 ^ 32 ->
  0 <= drawn -> drawn + zlen text < 2 ^ 64 ->
  exists m', draw_loop fb x color text m cx y drawn = Ret (drawn + zlen (cells x text cx y), m') /\
    painted (lit (cells x text cx y)) (encode fb color) m m'.
Proof.
  assert (fb_width fb < 2 ^ 30 /\ fb_height fb < 2 ^ 31) as [Hfw Hfh] by (destruct Hfb; lia).
  intros Hc Hx Hx'. unfold zlen. revert m cx y drawn.
  induction text as [| b text IH]; intros m cx y drawn Hcx Hcx' Hy Hy' Hd Hl; cbn [draw_loop cells length] in *.
  { exists m. split; [f_equal; f_equal; cbn; lia |]. by apply painted_none. }
  destruct (Z.eqb_spec b 10).
  - unfold sat_add32. rewrite Z.min_l by lia. rewrite checked_fits by lia. cbn [obind].
    replace (y + 16 + 16) with (y + 32) by lia. destruct (Z.ltb_spec (fb_height fb) (y + 32)).
    + exists m. split; [f_equal; f_equal; cbn; lia |]. by apply painted_none.
    + apply IH; lia.
  - rewrite checked_fits by lia. cbn [obind]. destruct (Z.ltb_spec (fb_width fb) (cx + 8)).
    { exists m. split; [f_equal; f_equal; cbn; lia |]. by apply painted_none. }
    destruct (draw_char_spec m cx y (if printable b then b else 32) color) as (m1 & E1 & H1); [lia .. | done |].
    rewrite E1. cbn [obind]. rewrite !checked_fits by lia. cbn [obind].
    destruct (IH m1 (cx + 8) y (drawn + 1)) as (m2 & E2 & H2); [lia .. |].
    exists m2. rewrite E2. split; [f_equal; f_equal; cbn [length]; lia |]. by eapply painted_union.
Qed.
End Painting.

(** C40 Drawing stays on the screen and draws what it should, whatever the
    arguments: [fill_rect] returns 0 and sets exactly the pixels of the
    rectangle, clipped to the screen; [draw_text], at a place that leaves room
    for one more character below [u32::MAX], returns the number of characters
    that fit and sets exactly the dots of their glyphs.  No byte but those of
    the pixels of the screen changes. *)
Theorem display_draws_on_screen (s : Screen) (fb : Framebuffer) (x y w h color : Z) (text : list Z) :
  DISPLAY s = Some fb -> fb_ok fb -> 0 <= x < 2 ^ 32 -> 0 <= y < 2 ^ 32 -> 0 <= w < 2 ^ 32 -> 0 <= h < 2 ^ 32 ->
  0 <= color < 2 ^ 32 -> zlen text < 2 ^ 64 ->
  (exists s', fill_rect x y w h color s = Ret (0, s') /\ DISPLAY s' = Some fb /\
     painted fb (in_rect x y w h) (encode fb color) (vram s) (vram s')) /\
  (x + 8 < 2 ^ 32 -> y + 32 < 2 ^ 32 ->
   exists s', draw_text x y text color s = Ret (zlen (cells fb x text x y), s') /\ DISPLAY s' = Some fb /\
     painted fb (lit (cells fb x text x y)) (encode fb color) (vram s) (vram s')).
Proof.
  intros Hd Hfb Hx Hy Hw Hh Hc Ht. unfold fill_rect, draw_text. rewrite Hd. split.
  - destruct (fill_rect_spec fb Hfb (vram s) x y w h color) as (m & -> & HP); [lia .. |]. by eexists.
  - intros Hx' Hy'. destruct (draw_loop_spec fb Hfb x color text (vram s) x y 0) as (m & E & HP); [lia .. |].
    unfold draw_bytes. rewrite E. by eexists.
Qed.

(** The coordinates of [draw_text] come from the program unchecked, and
    [cx + 8] is checked arithmetic: with [x] among the last eight values of a
    [u32] the first character that is not a line feed panics the kernel. *)
Theorem draw_text_overflow_panics (s : Screen) (fb : Framebuffer) (x y b color : Z) (text : list Z) :
  DISPLAY s = Some fb -> 2 ^ 32 - 8 <= x -> b ≠ 10 -> draw_text x y (b :: text) color s = Panic.
Proof.
  intros Hd Hx Hb. unfold draw_text, draw_bytes. rewrite Hd. cbn [draw_loop].
  destruct (Z.eqb_spec b 10); [done |]. by rewrite checked_panic by lia.
Qed.

(** A screen of 16 x 16 pixels. *)
Definition small_fb : Framebuffer := mkFramebuffer 0x1000 16 16 64 32 Bgrx8888.
Definition small_screen : Screen := mkScreen (Some small_fb) (fun _ => 0).
Lemma small_fb_ok : fb_ok small_fb.
Proof. split; vm_compute; (done || lia || (split; done)). Qed.

Lemma display_draws_on_screen_witness :
  zlen (cells small_fb 0 [77; 79; 83] 0 0) = 2 /\
  exists s', draw_text 0 0 [77; 79; 83] 0xFFFFFF small_screen = Ret (2, s') /\ pixel small_fb (vram s') 0 2 = 0xFFFFFF.
Proof.
  split; [reflexivity |].
  destruct (display_draws_on_screen small_screen small_fb 0 0 4 4 0xFFFFFF [77; 79; 83]) as [_ H];
    [reflexivity | apply small_fb_ok | lia .. | vm_compute; reflexivity |].
  destruct H as (s' & E & _ & [HP _]); [lia | lia |]. exists s'. split; [exact E |].
  rewrite HP by (unfold on_screen; cbn; lia). vm_compute. reflexivity.
Defined.

Lemma draw_text_overflow_panics_witness : draw_text 0xFFFFFFF8 0 [77] 0xFFFFFF small_screen = Panic.
Proof. apply (draw_text_overflow_panics small_screen small_fb); [reflexivity | lia | lia]. Defined.
