(* ===== verification/Machine.v ===== *)
(** * Memory-mapped devices

    The state the drivers of memory-mapped devices work on: the memory manager
    with physical memory, and the hardware.  The registers of a device are
    reached at virtual addresses ([vmm::map_mmio], or the direct map for the
    configuration space); what stands behind them is a parameter.  A device
    reads and writes memory on its own while the processor waits for it. *)

From S2P Require Import Prelude Bytes Frames BootInfo X86 Vmm.

(** [mmio_read bits va] and [mmio_write bits va value]: the volatile accesses
    of the drivers.  [dev_run]: what the devices do with memory meanwhile. *)
Class Mmio (W : Type) : Type := {
  mmio_read : Z -> Z -> W -> Z * W;
  mmio_write : Z -> Z -> Z -> W -> W;
  dev_run : PhysMem -> W -> PhysMem * W
}.

Record Machine (A W : Type) : Type := mkMachine { mc_vm : Vmm A; mc_dev : W }.
Arguments mkMachine {A W} _ _.
Arguments mc_vm {A W} _.
Arguments mc_dev {A W} _.

Section Machine.
  Context {A W : Type} `{FrameAllocator A} `{PageTableEntry} `{Mmio W}.

Definition MM (X : Type) : Type := ST (Machine A W) X.

Definition on_vm {X} (c : VM (A := A) X) : MM X := fun s =>
  let! (x, v) := c (mc_vm s) in Ret (x, mkMachine v (mc_dev s)).

(** [pmm::free_frame]. *)
Definition vm_free (f : Z) : VM unit := fun v =>
  let! fa := fa_free (vm_frames v) f in
  Ret (tt, mkVmm (vm_mem v) fa (KERNEL_AS v) (MMIO_NEXT v) (CR3 v)).
Definition mc_alloc : MM (option Z) := on_vm vm_alloc.
Definition mc_free (f : Z) : MM unit := on_vm (vm_free f).

(** Physical memory through the direct map. *)
Definition mem_load (a : Z) (n : nat) : MM (list Z) := on_vm (let* m := get_mem in st_ret (load m a n)).
Definition mem_store (a : Z) (l : list Z) : MM unit := on_vm (set_mem (fun m => store m a l)).
Definition mem_zero (a n : Z) : MM unit := on_vm (set_mem (fun m => fill m a n 0)).

(** Registers; the address is computed in [u64] arithmetic. *)
Definition reg_addr (base off : Z) : MM Z := st_lift (checked 64 (base + off)).
Definition reg_read (bits va : Z) : MM Z := fun s =>
  let '(v, w) := mmio_read bits va (mc_dev s) in Ret (v, mkMachine (mc_vm s) w).
Definition reg_write (bits va v : Z) : MM unit := fun s =>
  Ret (tt, mkMachine (mc_vm s) (mmio_write bits va v (mc_dev s))).

(** The devices run. *)
Definition dev_turn : MM unit := fun s =>
  let v := mc_vm s in
  let '(m, w) := dev_run (vm_mem v) (mc_dev s) in
  Ret (tt, mkMachine (mkVmm m (vm_frames v) (KERNEL_AS v) (MMIO_NEXT v) (CR3 v)) w).
End Machine.
