(* ===== verification/Arch.v ===== *)
(** * Descriptor tables, interrupts and the first steps of the kernel

    [arch/x86_64/gdt.rs], [idt.rs], [pic.rs], [apic.rs], [syscall.rs]
    ([init_bsp]) and [mod.rs], with [mm/heap.rs] and [mm/mod.rs]: the tables
    the processor works with, the interrupt controllers, the vectors for
    devices, and the order in which [_start] brings them up.  The processor and
    the devices are parameters with their documented behaviour; the text that
    the exception handlers print is left out. *)

From S2P Require Import Prelude Bitmap Bytes Frames BootInfo Pmm X86 Vmm Asm Sched PortIo Machine.

(** ** Parameters *)

(** Model-specific registers. *)
Class Msr (W : Type) : Type := {
  msr_read : Z -> W -> Z;
  msr_write : Z -> Z -> W -> W
}.

Inductive Descriptor : Type :=
  | kernel_code_segment | kernel_data_segment | user_data_segment | user_code_segment | tss_segment.
(** [x86_64::structures::gdt::GlobalDescriptorTable]: [append] answers the
    selector. *)
Class DescriptorTable (G : Type) : Type := {
  gdt_new : G;
  gdt_append : Descriptor -> G -> outcome (Z * G);
  gdt_entries : G -> list (option Descriptor)
}.
(** A system descriptor takes two entries. *)
Definition slots (d : Descriptor) : Z := match d with tss_segment => 2 | _ => 1 end.
Definition dpl (d : Descriptor) : Z := match d with user_data_segment | user_code_segment => 3 | _ => 0 end.
(** The first entry is null; eight entries fit; a selector is the index, and
    the privilege level in its low bits. *)
Class DescriptorTableLaws (G : Type) `{DescriptorTable G} : Prop := {
  gdt_new_spec : gdt_entries gdt_new = [None];
  gdt_append_spec : forall d g, zlen (gdt_entries g) + slots d <= 8 ->
    exists g', gdt_append d g = Ret (zlen (gdt_entries g) * 8 + dpl d, g') /\
      gdt_entries g' = gdt_entries g ++ Some d :: replicate (Z.to_nat (slots d - 1)) None
}.

(** ** State *)

Record Selectors : Type := mkSelectors { kernel_code : Z; kernel_data : Z; user_data : Z; user_code : Z; tss : Z }.
Record TaskStateSegment : Type := mkTss { interrupt_stack_table : list Z; privilege_stack_table : list Z }.
(** The segment registers and the task register. *)
Record SegRegs : Type := mkSegRegs { sr_cs : Z; sr_ds : Z; sr_es : Z; sr_ss : Z; sr_fs : Z; sr_gs : Z; sr_tr : Z }.

Inductive Handler : Type :=
  | ex_divide | ex_debug | ex_nmi | ex_breakpoint | ex_overflow | ex_bound | ex_invalid_opcode | ex_device_na
  | ex_double_fault | ex_invalid_tss | ex_seg_not_present | ex_stack_fault | ex_gpf | ex_page_fault | ex_x87
  | ex_alignment | ex_machine_check | ex_simd | ex_virt | irq_timer | irq_spurious
  | irq_device (address : Z).
Record Gate : Type := mkGate { g_handler : Handler; g_ist : option Z }.

(** [ar_gdtr] and [ar_idtr]: the table is loaded. *)
Record Arch (W G : Type) : Type := mkArch {
  ar_dev : W;
  TSS : option TaskStateSegment;
  GDT : option (G * Selectors);
  SELECTORS : option Selectors;
  ar_segs : SegRegs;
  ar_gdtr : bool;
  IDT : option (gmap Z Gate);
  ar_idtr : bool;
  VECTOR_BITMAP : list Z;
  LAPIC_BASE : Z
}.
Arguments mkArch {W G} _ _ _ _ _ _ _ _ _ _.
Arguments ar_dev {W G} _.
Arguments TSS {W G} _.
Arguments GDT {W G} _.
Arguments SELECTORS {W G} _.
Arguments ar_segs {W G} _.
Arguments ar_gdtr {W G} _.
Arguments IDT {W G} _.
Arguments ar_idtr {W G} _.
Arguments VECTOR_BITMAP {W G} _.
Arguments LAPIC_BASE {W G} _.

(** The statics before [init_bsp]. *)
Definition arch_statics {W G} (w : W) (segs : SegRegs) : Arch W G :=
  mkArch w None None None segs false None false (replicate 32 0) 0.

Definition DOUBLE_FAULT_IST : Z := 0.
Definition STACK_SIZE : Z := 16 * 1024.
Definition TIMER_VECTOR : Z := 0x20.
Definition SPURIOUS_VECTOR : Z := 0xFF.
Definition DYN_VECTOR_LO : Z := 0x30.
Definition DYN_VECTOR_HI : Z := 0xEF.

(** Where the image has its static stacks and the system-call entry. *)
Class ArchImage : Type := { DF_STACK : Z; PRIV0_STACK : Z; syscall_entry_addr : Z }.

Section Arch.
  Context {W G : Type} {PIO : PortIO W} {MIO : Mmio W} {MS : Msr W} {DT : DescriptorTable G} {PE : PageTableEntry} {AI : ArchImage}.

Definition HM (X : Type) : Type := ST (Arch W G) X.

(** ** The global descriptor table *)

Definition new_tss : outcome TaskStateSegment :=
  let! df_top := (let! a := checked 64 (DF_STACK + STACK_SIZE) in virt_addr_new a) in
  let! ist := upd (replicate 7 0) DOUBLE_FAULT_IST df_top in
  let! rsp0 := (let! a := checked 64 (PRIV0_STACK + STACK_SIZE) in virt_addr_new a) in
  let! pst := upd (replicate 3 0) 0 rsp0 in
  Ret (mkTss ist pst).
Definition new_gdt : outcome (G * Selectors) :=
  let! (kc, g) := gdt_append kernel_code_segment gdt_new in
  let! (kd, g) := gdt_append kernel_data_segment g in
  let! (ud, g) := gdt_append user_data_segment g in
  let! (uc, g) := gdt_append user_code_segment g in
  let! (ts, g) := gdt_append tss_segment g in
  Ret (g, mkSelectors kc kd ud uc ts).
(** [Once::call_once]. *)
Definition call_once {X} (o : option X) (make : outcome X) : outcome X := match o with Some x => Ret x | None => make end.
Definition gdt_init : HM unit := fun s =>
  let! t := call_once (TSS s) new_tss in
  let! (g, sel) := call_once (GDT s) new_gdt in
  let segs := mkSegRegs (kernel_code sel) (kernel_data sel) (kernel_data sel) (kernel_data sel) 0 0 (tss sel) in
  Ret (tt, mkArch (ar_dev s) (Some t) (Some (g, sel)) (Some sel) segs true (IDT s) (ar_idtr s) (VECTOR_BITMAP s) (LAPIC_BASE s)).

(** Undefined before [gdt_init]. *)
Definition selectors : HM Selectors := fun s => match SELECTORS s with Some sel => Ret (sel, s) | None => Panic end.
Definition set_kernel_stack (top : Z) : HM unit := fun s =>
  match TSS s with
  | None => Panic
  | Some t =>
      let! pst := upd (privilege_stack_table t) 0 top in
      Ret (tt, mkArch (ar_dev s) (Some (mkTss (interrupt_stack_table t) pst)) (GDT s) (SELECTORS s) (ar_segs s) (ar_gdtr s)
                 (IDT s) (ar_idtr s) (VECTOR_BITMAP s) (LAPIC_BASE s))
  end.

(** ** The interrupt descriptor table *)

(** The vectors of the fields of [InterruptDescriptorTable]. *)
Definition exception_gates : list (Z * Gate) :=
  [(0, mkGate ex_divide None); (1, mkGate ex_debug None); (2, mkGate ex_nmi None); (3, mkGate ex_breakpoint None);
   (4, mkGate ex_overflow None); (5, mkGate ex_bound None); (6, mkGate ex_invalid_opcode None); (7, mkGate ex_device_na None);
   (8, mkGate ex_double_fault (Some DOUBLE_FAULT_IST)); (10, mkGate ex_invalid_tss None); (11, mkGate ex_seg_not_present None);
   (12, mkGate ex_stack_fault None); (13, mkGate ex_gpf None); (14, mkGate ex_page_fault None); (16, mkGate ex_x87 None);
   (17, mkGate ex_alignment None); (18, mkGate ex_machine_check None); (19, mkGate ex_simd None); (20, mkGate ex_virt None)].
Definition new_idt : gmap Z Gate :=
  let idt : gmap Z Gate := list_to_map exception_gates in
  let idt := <[TIMER_VECTOR := mkGate irq_timer None]> idt in
  <[SPURIOUS_VECTOR := mkGate irq_spurious None]> idt.
Definition with_idt (s : Arch W G) (idt : gmap Z Gate) (loaded : bool) (bm : list Z) : Arch W G :=
  mkArch (ar_dev s) (TSS s) (GDT s) (SELECTORS s) (ar_segs s) (ar_gdtr s) (Some idt) loaded bm (LAPIC_BASE s).
Definition idt_init : HM unit := fun s =>
  let! idt := call_once (IDT s) (Ret new_idt) in
  Ret (tt, with_idt s idt true (VECTOR_BITMAP s)).

(** [for v in DYN_VECTOR_LO..=DYN_VECTOR_HI], from some vector on. *)
Fixpoint vector_loop (vs : list Z) (handler : Z) : HM Z := fun s =>
  match vs with
  | [] => Panic
  | v :: vs =>
      let bm := VECTOR_BITMAP s in
      let byte := Z.shiftr v 3 in
      let bit := Z.land v 7 in
      let! b := idx bm byte in
      if Z.land b (Z.shiftl 1 bit) =? 0 then
        let! bm := upd bm byte (Z.lor b (Z.shiftl 1 bit)) in
        match IDT s with
        | None => Panic
        | Some idt => Ret (v, with_idt s (<[v := mkGate (irq_device handler) None]> idt) (ar_idtr s) bm)
        end
      else vector_loop vs handler s
  end.
Definition alloc_vector (handler : Z) : HM Z :=
  vector_loop (seqZ DYN_VECTOR_LO (DYN_VECTOR_HI - DYN_VECTOR_LO + 1)) handler.

(** ** Instructions on devices and registers *)

Definition with_hw (s : Arch W G) (w : W) : Arch W G :=
  mkArch w (TSS s) (GDT s) (SELECTORS s) (ar_segs s) (ar_gdtr s) (IDT s) (ar_idtr s) (VECTOR_BITMAP s) (LAPIC_BASE s).
Definition with_lapic (s : Arch W G) (base : Z) : Arch W G :=
  mkArch (ar_dev s) (TSS s) (GDT s) (SELECTORS s) (ar_segs s) (ar_gdtr s) (IDT s) (ar_idtr s) (VECTOR_BITMAP s) base.
Definition on_hw {X} (c : ST W X) : HM X := fun s => let! (x, w) := c (ar_dev s) in Ret (x, with_hw s w).
Definition rdmsr (msr : Z) : HM Z := fun s => Ret (msr_read msr (ar_dev s), s).
Definition wrmsr (msr value : Z) : HM unit := on_hw (fun w => Ret (tt, msr_write msr value w)).

(** ** The 8259 interrupt controllers *)

Definition PIC1_CMD : Z := 0x20.
Definition PIC1_DATA : Z := 0x21.
Definition PIC2_CMD : Z := 0xA0.
Definition PIC2_DATA : Z := 0xA1.
Definition ICW1_INIT : Z := 0x10.
Definition ICW1_ICW4 : Z := 0x01.
Definition ICW4_8086 : Z := 0x01.
Definition disable_legacy : HM unit := on_hw (
  let* _ := outb PIC1_CMD (Z.lor ICW1_INIT ICW1_ICW4) in
  let* _ := outb PIC2_CMD (Z.lor ICW1_INIT ICW1_ICW4) in
  let* _ := outb PIC1_DATA 0x20 in
  let* _ := outb PIC2_DATA 0x28 in
  let* _ := outb PIC1_DATA (Z.shiftl 1 2) in
  let* _ := outb PIC2_DATA 2 in
  let* _ := outb PIC1_DATA ICW4_8086 in
  let* _ := outb PIC2_DATA ICW4_8086 in
  let* _ := outb PIC1_DATA 0xFF in
  outb PIC2_DATA 0xFF).

(** ** The local APIC *)

Definition IA32_APIC_BASE : Z := 0x1B.
Definition APIC_BASE_ENABLE : Z := Z.shiftl 1 11.
Definition REG_ID : Z := 0x020.
Definition REG_EOI : Z := 0x0B0.
Definition REG_SIVR : Z := 0x0F0.
Definition REG_LVT_TIMER : Z := 0x320.
Definition REG_TIMER_ICR : Z := 0x380.
Definition REG_TIMER_CCR : Z := 0x390.
Definition REG_TIMER_DCR : Z := 0x3E0.
Definition LVT_MASKED : Z := Z.shiftl 1 16.
Definition LVT_TIMER_PERIODIC : Z := Z.shiftl 1 17.
Definition DCR_DIV_16 : Z := 3.
Definition PIT_CH2 : Z := 0x42.
Definition PIT_CMD : Z := 0x43.
Definition PIT_GATE : Z := 0x61.
Definition PIT_HZ : Z := 1193182.

Definition lapic_read (off : Z) : HM Z := fun s => on_hw (fun w => Ret (mmio_read 32 (LAPIC_BASE s + off) w)) s.
Definition lapic_write (off val : Z) : HM unit := fun s => on_hw (fun w => Ret (tt, mmio_write 32 (LAPIC_BASE s + off) val w)) s.
Definition eoi : HM unit := lapic_write REG_EOI 0.
Definition mask_timer : HM unit := lapic_write REG_LVT_TIMER LVT_MASKED.
Definition lapic_id : HM Z := let* v := lapic_read REG_ID in st_ret (Z.shiftr v 24).

Definition pit_oneshot_ms (ms : Z) : HM unit := on_hw (
  let ticks := wrap 16 (PIT_HZ * ms / 1000) in
  let* gate := inb PIT_GATE in
  let* _ := outb PIT_GATE (Z.lor (Z.land gate 0xFD) 0x01) in
  let* _ := outb PIT_CMD 0xB0 in
  let* _ := outb PIT_CH2 (wrap 8 ticks) in
  outb PIT_CH2 (wrap 8 (Z.shiftr ticks 8))).
Fixpoint pit_poll (fuel : nat) : ST W unit :=
  match fuel with
  | O => st_lift OutOfFuel
  | S fuel => let* v := inb PIT_GATE in if Z.land v 0x20 =? 0 then pit_poll fuel else st_ret tt
  end.
Definition pit_wait (fuel : nat) : HM unit := on_hw (pit_poll fuel).

Definition apic_init_bsp (fuel : nat) : HM unit :=
  let* apic_base_msr := rdmsr IA32_APIC_BASE in
  let phys := Z.land apic_base_msr 0xFFFFF000 in
  let* virt := st_lift (checked 64 (phys + HHDM_OFFSET)) in
  let* _ := st_modify (fun s => with_lapic s virt) in
  let* _ := wrmsr IA32_APIC_BASE (Z.lor apic_base_msr APIC_BASE_ENABLE) in
  let* _ := lapic_write REG_SIVR (Z.lor 0x100 SPURIOUS_VECTOR) in
  let* _ := lapic_write REG_TIMER_DCR DCR_DIV_16 in
  let* _ := pit_oneshot_ms 10 in
  let* _ := lapic_write REG_TIMER_ICR 0xFFFFFFFF in
  let* _ := pit_wait fuel in
  let* remaining := lapic_read REG_TIMER_CCR in
  let* elapsed := st_lift (checked 32 (0xFFFFFFFF - remaining)) in
  let period := Z.max elapsed 1 in
  let* _ := lapic_write REG_LVT_TIMER (Z.lor LVT_TIMER_PERIODIC TIMER_VECTOR) in
  lapic_write REG_TIMER_ICR period.

(** ** System calls *)

Definition IA32_EFER : Z := 0xC0000080.
Definition IA32_STAR : Z := 0xC0000081.
Definition IA32_LSTAR : Z := 0xC0000082.
Definition IA32_FMASK : Z := 0xC0000084.
Definition EFER_SCE : Z := 1.
Definition syscall_init_bsp : HM unit :=
  let* sel := selectors in
  let kernel_cs := kernel_code sel in
  let* user_base := st_lift (checked 64 (user_data sel - 8)) in
  let* efer := rdmsr IA32_EFER in
  let* _ := wrmsr IA32_EFER (Z.lor efer EFER_SCE) in
  let* _ := wrmsr IA32_STAR (Z.lor (wrap 64 (Z.shiftl kernel_cs 32)) (wrap 64 (Z.shiftl user_base 48))) in
  let* _ := wrmsr IA32_LSTAR syscall_entry_addr in
  wrmsr IA32_FMASK 0x40700.

(** [arch::x86_64::init_bsp]. *)
Definition init_bsp (fuel : nat) : HM unit :=
  let* _ := gdt_init in
  let* _ := idt_init in
  let* _ := disable_legacy in
  let* _ := apic_init_bsp fuel in
  syscall_init_bsp.

(** ** Handlers *)

(** [report_and_halt] and its like do not return. *)
Inductive Fate : Type := Resumes | Halts.
(** On the state with the scheduler's; a device's handler is a parameter. *)
Definition run_handler (device : Z -> ST (Arch W G * Sched) unit) (h : Handler) : ST (Arch W G * Sched) Fate :=
  match h with
  | ex_breakpoint | irq_spurious => st_ret Resumes
  | irq_timer =>
      let* _ := (fun st => let! (_, s) := eoi st.1 in Ret (tt, (s, st.2))) in
      let* _ := (fun st => Ret ((on_tick st.2).1, (st.1, (on_tick st.2).2))) in
      st_ret Resumes
  | irq_device a => let* _ := device a in st_ret Resumes
  | _ => st_ret Halts
  end.
End Arch.

(** ** The heap and the start of memory management *)

Definition HEAP_SIZE : Z := 4 * 1024 * 1024.
(** [heap::init]: the address and the size given to the allocator. *)
Definition heap_init (st : PmmState) : outcome (Z * Z * PmmState) :=
  let pages := HEAP_SIZE / PAGE_SIZE in
  let! (r, st) := alloc_contig st pages in
  match r with
  | None => Panic
  | Some phys => let! virt := checked 64 (phys + HHDM_OFFSET) in Ret (virt, HEAP_SIZE, st)
  end.

(** The part of the kernel's state that is set up before the devices. *)
Record Early (W G : Type) : Type := mkEarly { ea_vm : Vmm PmmState; ea_heap : option (Z * Z); ea_arch : Arch W G }.
Arguments mkEarly {W G} _ _ _.
Arguments ea_vm {W G} _.
Arguments ea_heap {W G} _.
Arguments ea_arch {W G} _.

Section Early.
  Context {W G : Type} {PIO : PortIO W} {MIO : Mmio W} {MS : Msr W} {DT : DescriptorTable G} {PE : PageTableEntry} {AI : ArchImage}.

(** [mm::init]. *)
Definition mm_init (info : BootInfo) : ST (Early W G) unit := fun s =>
  let v := ea_vm s in
  let! st := init (bi_memory_map info) in
  let! (heap, size, st) := heap_init st in
  let! (_, v) := vmm_init (mkVmm (vm_mem v) st (KERNEL_AS v) (MMIO_NEXT v) (CR3 v)) in
  Ret (tt, mkEarly v (Some (heap, size)) (ea_arch s)).

(** [_start] up to the devices. *)
Definition early_start (fuel : nat) (info : BootInfo) : ST (Early W G) Fate :=
  if negb (bi_magic info =? BOOT_INFO_MAGIC) then st_ret Halts
  else if negb (bi_version info =? BOOT_INFO_VERSION) then st_ret Halts
  else
    let* _ := mm_init info in
    let* _ := (fun s => let! (_, a) := init_bsp fuel (ea_arch s) in Ret (tt, mkEarly (ea_vm s) (ea_heap s) a)) in
    st_ret Resumes.
End Early.

(** ** What the hardware does *)

(** An 8259A: the initialisation word it expects next (0 when it works),
    whether that sequence has a fourth word and a third one, and the vector
    base and the mask. *)
Record Pic : Type := mkPic { pic_next : Z; pic_needs4 : bool; pic_single : bool; pic_base : Z; pic_mask : Z }.
Definition pic_command (p : Pic) (v : Z) : Pic :=
  if Z.testbit v 4 then mkPic 2 (Z.testbit v 0) (Z.testbit v 1) (pic_base p) 0 else p.
Definition pic_data (p : Pic) (v : Z) : Pic :=
  let last := if pic_needs4 p then 4 else 0 in
  match pic_next p with
  | 2 => mkPic (if pic_single p then last else 3) (pic_needs4 p) (pic_single p) (Z.land v 0xF8) (pic_mask p)
  | 3 => mkPic last (pic_needs4 p) (pic_single p) (pic_base p) (pic_mask p)
  | 4 => mkPic 0 (pic_needs4 p) (pic_single p) (pic_base p) (pic_mask p)
  | _ => mkPic (pic_next p) (pic_needs4 p) (pic_single p) (pic_base p) v
  end.
Definition pics_out (port v : Z) (ps : Pic * Pic) : Pic * Pic :=
  if port =? PIC1_CMD then (pic_command ps.1 v, ps.2)
  else if port =? PIC1_DATA then (pic_data ps.1 v, ps.2)
  else if port =? PIC2_CMD then (ps.1, pic_command ps.2 v)
  else if port =? PIC2_DATA then (ps.1, pic_data ps.2 v)
  else ps.

(** What can be seen of a platform: the two controllers and what was last
    written to a memory-mapped register; and how long the timer is polled. *)
Class Platform (W : Type) : Type := {
  pics : W -> Pic * Pic;
  reg_at : W -> Z -> Z;
  pit_polls : nat
}.

Section Platform.
  Context {W : Type} {PIO : PortIO W} {MIO : Mmio W} {MS : Msr W} {PF : Platform W}.

Definition unchanged (w w' : W) : Prop :=
  pics w' = pics w /\ (forall va, reg_at w' va = reg_at w va) /\ (forall m, msr_read m w' = msr_read m w).
Fixpoint poll (n : nat) (w : W) : W := match n with O => w | S n => poll n (port_in 8 PIT_GATE w).2 end.
Class PlatformLaws : Prop := {
  port_in_unchanged : forall bits p w, unchanged w (port_in bits p w).2;
  port_out_effect : forall bits p v w, let w' := port_out bits p v w in
    pics w' = pics_out p v (pics w) /\ (forall va, reg_at w' va = reg_at w va) /\ (forall m, msr_read m w' = msr_read m w);
  mmio_read_unchanged : forall bits va w, unchanged w (mmio_read bits va w).2;
  mmio_read_range : forall va w, 0 <= (mmio_read 32 va w).1 < 2 ^ 32;
  mmio_write_effect : forall bits va v w, let w' := mmio_write bits va v w in
    pics w' = pics w /\ (forall va', reg_at w' va' = if va' =? va then v else reg_at w va') /\ (forall m, msr_read m w' = msr_read m w);
  msr_write_effect : forall m v w, let w' := msr_write m v w in
    pics w' = pics w /\ (forall va, reg_at w' va = reg_at w va) /\ (forall m', msr_read m' w' = if m' =? m then v else msr_read m' w);
  (* the output of channel 2 goes high *)
  pit_answers : forall w, exists n, (n < pit_polls)%nat /\ Z.land (port_in 8 PIT_GATE (poll n w)).1 0x20 <> 0
}.

Lemma unchanged_refl w : unchanged w w.
Proof. by split_and!. Qed.
Lemma unchanged_trans w1 w2 w3 : unchanged w1 w2 -> unchanged w2 w3 -> unchanged w1 w3.
Proof. intros (A1 & A2 & A3) (B1 & B2 & B3). split_and!; [congruence | intros va; by rewrite B2 | intros m; by rewrite B3]. Qed.

Lemma pit_poll_returns `{PlatformLaws} (fuel : nat) (w : W) : (pit_polls <= fuel)%nat -> exists w', pit_poll fuel w = Ret (tt, w') /\ unchanged w w'.
Proof.
  intros Hf. destruct (pit_answers w) as (n & Hn & Hb). assert (n < fuel)%nat as Hnf by lia. clear Hf Hn.
  revert n w Hb Hnf. induction fuel as [| fuel IH]; intros n w Hb Hnf; [lia |]. cbn [pit_poll].
  unfold st_bind, inb. cbn [obind]. pose proof (port_in_unchanged 8 PIT_GATE w) as Hu. destruct (port_in 8 PIT_GATE w) as [v w1] eqn:E. cbn in Hu.
  destruct (Z.eqb_spec (Z.land v 0x20) 0) as [Hz | Hz]; [| by exists w1].
  destruct n as [| n]; [cbn in Hb; rewrite E in Hb; done |]. cbn in Hb. rewrite E in Hb. destruct (IH n w1 Hb ltac:(lia)) as (w' & -> & Hu').
  exists w'. split; [done | by eapply unchanged_trans].
Qed.
End Platform.

Section BringUp.
  Context {W G : Type} {PIO : PortIO W} {MIO : Mmio W} {MS : Msr W} {PF : Platform W} {PLW : PlatformLaws (W := W)}.
  Context {DT : DescriptorTable G} {DL : DescriptorTableLaws G} {PE : PageTableEntry} {PEL : PageTableEntryLaws} {AI : ArchImage}.
  Implicit Types (s : Arch W G) (w : W).

(** ** The interrupt controllers *)

Lemma outs_effect (l : list (Z * Z)) w : let w' := foldl (fun w pv => port_out 8 pv.1 pv.2 w) w l in
  pics w' = foldl (fun ps pv => pics_out pv.1 pv.2 ps) (pics w) l /\ (forall va, reg_at w' va = reg_at w va) /\ (forall m, msr_read m w' = msr_read m w).
Proof using PLW.
  revert w. induction l as [| [p v] l IH]; intros w; cbn [foldl fst snd]; [by split_and! |].
  destruct (port_out_effect 8 p v w) as (E1 & E2 & E3), (IH (port_out 8 p v w)) as (F1 & F2 & F3). cbn zeta in *.
  split_and!; [by rewrite F1, E1 | intros va; by rewrite F2, E2 | intros m; by rewrite F3, E3].
Qed.
Definition masked (base : Z) (p : Pic) : Prop := pic_next p = 0 /\ pic_base p = base /\ pic_mask p = 0xFF.
Lemma disable_legacy_spec s : exists w', disable_legacy s = Ret (tt, with_hw s w') /\
  masked 0x20 (pics w').1 /\ masked 0x28 (pics w').2 /\ (forall va, reg_at w' va = reg_at (ar_dev s) va) /\ (forall m, msr_read m w' = msr_read m (ar_dev s)).
Proof using PLW.
  set (l := [(PIC1_CMD, 0x11); (PIC2_CMD, 0x11); (PIC1_DATA, 0x20); (PIC2_DATA, 0x28); (PIC1_DATA, 4); (PIC2_DATA, 2); (PIC1_DATA, 1);
    (PIC2_DATA, 1); (PIC1_DATA, 0xFF); (PIC2_DATA, 0xFF)]).
  destruct (outs_effect l (ar_dev s)) as (E1 & E2 & E3). exists (foldl (fun w pv => port_out 8 pv.1 pv.2 w) (ar_dev s) l).
  split; [reflexivity |]. rewrite E1. destruct (pics (ar_dev s)) as [p1 p2]. by split_and!.
Qed.

(** ** The timer *)

Lemma wrmsr_step m v s : wrmsr m v s = Ret (tt, with_hw s (msr_write m v (ar_dev s))).
Proof. done. Qed.
Lemma lapic_write_step off v s : lapic_write off v s = Ret (tt, with_hw s (mmio_write 32 (LAPIC_BASE s + off) v (ar_dev s))).
Proof. done. Qed.
Lemma pit_oneshot_spec ms s : exists w', pit_oneshot_ms ms s = Ret (tt, with_hw s w') /\ unchanged (ar_dev s) w'.
Proof using PLW.
  unfold pit_oneshot_ms, on_hw, st_bind, inb, outb. cbn [obind]. pose proof (port_in_unchanged 8 PIT_GATE (ar_dev s)) as Hu.
  destruct (port_in 8 PIT_GATE (ar_dev s)) as [v w1]. cbn [snd] in Hu. cbn [obind].
  set (t := wrap 16 (PIT_HZ * ms / 1000)).
  destruct (outs_effect [(PIT_GATE, Z.lor (Z.land v 0xFD) 0x01); (PIT_CMD, 0xB0); (PIT_CH2, wrap 8 t); (PIT_CH2, wrap 8 (Z.shiftr t 8))] w1) as (E1 & E2 & E3).
  eexists. split; [reflexivity |]. eapply unchanged_trans; [exact Hu |]. split; [exact E1 |]. split; [exact E2 | exact E3].
Qed.
Lemma lapic_read_spec off s : exists v w', lapic_read off s = Ret (v, with_hw s w') /\ 0 <= v < 2 ^ 32 /\ unchanged (ar_dev s) w'.
Proof using PLW.
  unfold lapic_read, on_hw. cbn [obind]. pose proof (mmio_read_unchanged 32 (LAPIC_BASE s + off) (ar_dev s)) as Hu.
  pose proof (mmio_read_range (LAPIC_BASE s + off) (ar_dev s)) as Hr. destruct (mmio_read 32 _ (ar_dev s)) as [v w']. exists v, w'.
  by cbn in *.
Qed.
Lemma pit_wait_spec fuel s : (pit_polls <= fuel)%nat -> exists w', pit_wait fuel s = Ret (tt, with_hw s w') /\ unchanged (ar_dev s) w'.
Proof using PLW. intros Hf. destruct (pit_poll_returns fuel (ar_dev s) Hf) as (w' & E & Hu). exists w'. split; [| done]. unfold pit_wait, on_hw. by rewrite E. Qed.

Lemma pics_mmio bits va v w : pics (mmio_write bits va v w) = pics w.
Proof using PLW. apply mmio_write_effect. Qed.
Lemma reg_mmio bits va v w va' : reg_at (mmio_write bits va v w) va' = if va' =? va then v else reg_at w va'.
Proof using PLW. apply mmio_write_effect. Qed.
Lemma msr_mmio bits va v w m : msr_read m (mmio_write bits va v w) = msr_read m w.
Proof using PLW. apply mmio_write_effect. Qed.
Lemma pics_msr m v w : pics (msr_write m v w) = pics w.
Proof using PLW. apply msr_write_effect. Qed.
Lemma reg_msr m v w va : reg_at (msr_write m v w) va = reg_at w va.
Proof using PLW. apply msr_write_effect. Qed.
Lemma msr_msr m v w m' : msr_read m' (msr_write m v w) = if m' =? m then v else msr_read m' w.
Proof using PLW. apply msr_write_effect. Qed.
(** Registers of the local APIC are the same when their offsets are. *)
Ltac same_reg := repeat match goal with
  | |- context [?b + ?x =? ?b + ?y] => replace (b + x =? b + y) with (x =? y) by (apply Bool.eq_iff_eq_true; rewrite !Z.eqb_eq; lia);
      let r := eval vm_compute in (x =? y) in change (x =? y) with r; cbn iota
  end.

Definition lapic_virt w : Z := Z.land (msr_read IA32_APIC_BASE w) 0xFFFFF000 + HHDM_OFFSET.
Lemma apic_init_spec fuel s : (pit_polls <= fuel)%nat -> exists w' period, let base := lapic_virt (ar_dev s) in
  apic_init_bsp fuel s = Ret (tt, with_hw (with_lapic s base) w') /\ pics w' = pics (ar_dev s) /\
  reg_at w' (base + REG_SIVR) = 0x1FF /\ reg_at w' (base + REG_LVT_TIMER) = 0x20020 /\ reg_at w' (base + REG_TIMER_ICR) = period /\
  reg_at w' (base + REG_TIMER_DCR) = 3 /\ 1 <= period < 2 ^ 32 /\
  (forall m, msr_read m w' = if m =? IA32_APIC_BASE then Z.lor (msr_read m (ar_dev s)) APIC_BASE_ENABLE else msr_read m (ar_dev s)).
Proof using PLW.
  intros Hf. cbn zeta. set (base := lapic_virt (ar_dev s)). set (msr := msr_read IA32_APIC_BASE (ar_dev s)).
  assert (0 <= Z.land msr 0xFFFFF000 < 2 ^ 32) as Hphys.
  { change 0xFFFFF000 with (Z.land 0xFFFFF000 (Z.ones 32)). rewrite Z.land_assoc, Z.land_ones by lia. by apply Z.mod_pos_bound. }
  unfold apic_init_bsp. erewrite st_bind_step by reflexivity. fold msr.
  erewrite st_bind_step by (unfold st_lift; rewrite checked_fits by (unfold HHDM_OFFSET; lia); reflexivity).
  erewrite st_bind_step by reflexivity. change (Z.land msr 0xFFFFF000 + HHDM_OFFSET) with base.
  erewrite st_bind_step by apply wrmsr_step. erewrite st_bind_step by apply lapic_write_step. erewrite st_bind_step by apply lapic_write_step.
  cbn [ar_dev with_hw with_lapic LAPIC_BASE TSS GDT SELECTORS ar_segs ar_gdtr IDT ar_idtr VECTOR_BITMAP].
  set (w1 := mmio_write 32 (base + REG_TIMER_DCR) _ _).
  destruct (pit_oneshot_spec 10 (with_hw (with_lapic s base) w1)) as (w2 & E2 & U2). erewrite st_bind_step by exact E2.
  erewrite st_bind_step by apply lapic_write_step. set (w3 := mmio_write 32 _ _ _).
  destruct (pit_wait_spec fuel (with_hw (with_lapic s base) w3) Hf) as (w4 & E4 & U4). erewrite st_bind_step by exact E4.
  destruct (lapic_read_spec REG_TIMER_CCR (with_hw (with_lapic s base) w4)) as (rem & w5 & E5 & Hrem & U5). erewrite st_bind_step by exact E5.
  erewrite st_bind_step by (unfold st_lift; rewrite checked_fits by lia; reflexivity).
  erewrite st_bind_step by apply lapic_write_step. rewrite lapic_write_step.
  destruct U2 as (P2 & R2 & M2), U4 as (P4 & R4 & M4), U5 as (P5 & R5 & M5). cbn [ar_dev with_hw] in *.
  eexists _, (Z.max (0xFFFFFFFF - rem) 1). split; [reflexivity |]. split; [| split; [| split; [| split; [| split; [| split]]]]];
    cbn [ar_dev with_hw with_lapic LAPIC_BASE]; rewrite ?pics_mmio, ?reg_mmio, ?P5, ?R5, ?P4, ?R4; unfold w3;
    cbn [ar_dev with_hw with_lapic LAPIC_BASE]; rewrite ?pics_mmio, ?reg_mmio, ?P2, ?R2; unfold w1; rewrite ?pics_mmio, ?reg_mmio, ?pics_msr; same_reg; try lia; try done.
  intros m. rewrite !msr_mmio, M5, M4. unfold w3. rewrite msr_mmio, M2. unfold w1. rewrite !msr_mmio, msr_msr. unfold msr. by destruct (Z.eqb_spec m IA32_APIC_BASE) as [-> |].
Qed.

(** ** The tables *)

(** A selector names a descriptor, with its privilege level. *)
Definition names (g : G) (sel : Z) (d : Descriptor) : Prop := gdt_entries g !! Z.to_nat (sel / 8) = Some (Some d) /\ sel mod 8 = dpl d.
Definition gdt_selectors : Selectors := mkSelectors 0x08 0x10 0x1B 0x23 0x28.
Lemma new_gdt_spec : exists g, new_gdt = Ret (g, gdt_selectors) /\ names g 0x08 kernel_code_segment /\ names g 0x10 kernel_data_segment /\
  names g 0x1B user_data_segment /\ names g 0x23 user_code_segment /\ names g 0x28 tss_segment.
Proof using DL.
  unfold new_gdt. pose proof gdt_new_spec as E0.
  destruct (gdt_append_spec kernel_code_segment gdt_new) as (g1 & -> & E1); [by rewrite E0 |]. rewrite E0 in *.
  destruct (gdt_append_spec kernel_data_segment g1) as (g2 & H2 & E2); [by rewrite E1 |]. rewrite E1 in *.
  destruct (gdt_append_spec user_data_segment g2) as (g3 & H3 & E3); [by rewrite E2 |]. rewrite E2 in *.
  destruct (gdt_append_spec user_code_segment g3) as (g4 & H4 & E4); [by rewrite E3 |]. rewrite E3 in *.
  destruct (gdt_append_spec tss_segment g4) as (g5 & H5 & E5); [by rewrite E4 |]. rewrite E4 in *.
  exists g5. cbn [obind]. rewrite H2. cbn [obind]. rewrite H3. cbn [obind]. rewrite H4. cbn [obind]. rewrite H5. split; [done |].
  unfold names. rewrite E5. by split_and!.
Qed.
Definition static_tss : TaskStateSegment := mkTss [DF_STACK + STACK_SIZE; 0; 0; 0; 0; 0; 0] [PRIV0_STACK + STACK_SIZE; 0; 0].
Definition stacks_ok : Prop := 0 <= DF_STACK /\ canonical (DF_STACK + STACK_SIZE) /\ 0 <= PRIV0_STACK /\ canonical (PRIV0_STACK + STACK_SIZE).
Lemma new_tss_spec : stacks_ok -> new_tss = Ret static_tss.
Proof using PEL.
  intros (H1 & H2 & H3 & H4). unfold new_tss. pose proof H2 as H2'. pose proof H4 as H4'. unfold canonical in H2', H4'.
  rewrite checked_fits by lia. cbn [obind]. rewrite virt_addr_new_ok by done. cbn [obind].
  rewrite checked_fits by lia. cbn [obind]. rewrite virt_addr_new_ok by done. done.
Qed.

(** ** Bring-up *)

(** The value of the flags register after [syscall]. *)
Definition kernel_flags w (fl : Z) : Z := Z.land fl (Z.lnot (msr_read IA32_FMASK w)).

(** What [syscall_init_bsp] leaves in the registers of the processor. *)
Lemma syscall_init_spec s : SELECTORS s = Some gdt_selectors -> exists w', syscall_init_bsp s = Ret (tt, with_hw s w') /\
  pics w' = pics (ar_dev s) /\ (forall va, reg_at w' va = reg_at (ar_dev s) va) /\
  msr_read IA32_STAR w' = star_value 0x08 0x1B /\ msr_read IA32_LSTAR w' = syscall_entry_addr /\ msr_read IA32_FMASK w' = 0x40700 /\
  Z.testbit (msr_read IA32_EFER w') 0 = true /\ msr_read IA32_APIC_BASE w' = msr_read IA32_APIC_BASE (ar_dev s).
Proof using PLW.
  intros Hsel. unfold syscall_init_bsp, selectors. unfold st_bind at 1. rewrite Hsel. cbn [obind].
  erewrite st_bind_step by reflexivity. erewrite st_bind_step by reflexivity.
  do 3 erewrite st_bind_step by apply wrmsr_step. rewrite wrmsr_step. cbn [ar_dev with_hw].
  eexists. split; [reflexivity |]. rewrite !pics_msr. split; [done |]. split; [intros va; by rewrite !reg_msr |].
  rewrite !msr_msr. split; [done |]. split; [done |]. split; [done |]. split; [| done].
  cbn -[Z.testbit Z.lor]. by rewrite Z.lor_spec, orb_true_r.
Qed.

(** C23 [init_bsp] brings the processor up.  The segment registers, SYSCALL and
    SYSRET name the descriptors of the GDT that they should, in particular
    SYSRET enters ring 3 on the user segments; the double fault has a stack of
    its own; the gates of the exceptions and of the timer are set; both 8259 controllers are masked,
    with their vectors above the exceptions; the local APIC is enabled and its
    timer runs, periodically and on vector 0x20, with a period of at least one
    tick; and a system call enters the kernel at [syscall_entry] with IF, DF,
    TF and AC clear, but with NT as the program set it. *)
Theorem processor_brought_up fuel w segs :
  (pit_polls <= fuel)%nat -> stacks_ok ->
  exists s g, let w' := ar_dev s in
    init_bsp fuel (arch_statics w segs : Arch W G) = Ret (tt, s) /\ GDT s = Some (g, gdt_selectors) /\ ar_gdtr s = true /\
    names g (sr_cs (ar_segs s)) kernel_code_segment /\ names g (sr_ss (ar_segs s)) kernel_data_segment /\ names g (sr_tr (ar_segs s)) tss_segment /\
    names g (Z.land (Z.shiftr (msr_read IA32_STAR w') 32) 0xFFFF) kernel_code_segment /\
    names g (Z.land (Z.shiftr (msr_read IA32_STAR w') 32) 0xFFFF + 8) kernel_data_segment /\
    (forall c, star c = msr_read IA32_STAR w' -> names g (cs (step c SYSRETQ)) user_code_segment /\ names g (ss (step c SYSRETQ)) user_data_segment) /\
    TSS s = Some static_tss /\ IDT s = Some new_idt /\ ar_idtr s = true /\
    masked 0x20 (pics w').1 /\ masked 0x28 (pics w').2 /\
    (let base := Z.land (msr_read IA32_APIC_BASE w) 0xFFFFF000 + HHDM_OFFSET in
     LAPIC_BASE s = base /\ Z.testbit (msr_read IA32_APIC_BASE w') 11 = true /\ reg_at w' (base + REG_SIVR) = 0x1FF /\
     reg_at w' (base + REG_LVT_TIMER) = Z.lor LVT_TIMER_PERIODIC TIMER_VECTOR /\ 1 <= reg_at w' (base + REG_TIMER_ICR) < 2 ^ 32) /\
    Z.testbit (msr_read IA32_EFER w') 0 = true /\ msr_read IA32_LSTAR w' = syscall_entry_addr /\
    forall fl, Z.testbit (kernel_flags w' fl) 9 = false /\ Z.testbit (kernel_flags w' fl) 10 = false /\ Z.testbit (kernel_flags w' fl) 8 = false /\
      Z.testbit (kernel_flags w' fl) 18 = false /\ Z.testbit (kernel_flags w' fl) 14 = Z.testbit fl 14.
Proof using PLW DL PEL.
  intros Hf Hst. destruct new_gdt_spec as (g & Eg & N1 & N2 & N3 & N4 & N5).
  set (segs' := mkSegRegs 0x08 0x10 0x10 0x10 0 0 0x28).
  set (s2 := mkArch w (Some static_tss) (Some (g, gdt_selectors)) (Some gdt_selectors) segs' true (Some new_idt) true (replicate 32 0) 0).
  destruct (disable_legacy_spec s2) as (w3 & E3 & K1 & K2 & R3 & M3).
  destruct (apic_init_spec fuel (with_hw s2 w3) Hf) as (w4 & period & E4 & P4 & A1 & A2 & A3 & _ & Hper & M4).
  set (base := lapic_virt (ar_dev (with_hw s2 w3))) in *. assert (base = Z.land (msr_read IA32_APIC_BASE w) 0xFFFFF000 + HHDM_OFFSET) as Hbase.
  { unfold base, lapic_virt. cbn. by rewrite M3. }
  destruct (syscall_init_spec (with_hw (with_lapic (with_hw s2 w3) base) w4) eq_refl) as (w5 & E5 & P5 & R5 & S1 & S2 & S3 & S4 & S5).
  exists (with_hw (with_lapic (with_hw s2 w3) base) w5), g. cbn zeta. rewrite <- Hbase. cbn [ar_dev with_hw with_lapic] in *. rewrite P5, P4, S1, S2, !R5, A1, A2, A3.
  split.
  { unfold init_bsp. erewrite st_bind_step by (unfold gdt_init; cbn [TSS GDT arch_statics call_once]; rewrite new_tss_spec by done; cbn [obind]; rewrite Eg; reflexivity).
    erewrite st_bind_step by reflexivity. erewrite st_bind_step by exact E3. erewrite st_bind_step by exact E4. exact E5. }
  split; [done |]. split; [done |]. split; [exact N1 |]. split; [exact N2 |]. split; [exact N5 |]. split; [exact N1 |]. split; [exact N2 |].
  split; [intros c Hc; cbn [step cs ss]; rewrite Hc; split; [exact N4 | exact N3] |].
  do 3 (split; [done |]). split; [exact K1 |]. split; [exact K2 |].
  split; [split; [done |]; split; [| split; [done |]; split; [done | lia]] |].
  { rewrite S5, M4, Z.eqb_refl, Z.lor_spec. apply orb_true_r. }
  split; [exact S4 |]. split; [done |]. intros fl. unfold kernel_flags. rewrite S3, !Z.land_spec, !Z.lnot_spec by lia. by rewrite !andb_false_r, andb_true_r.
Qed.
End BringUp.

(** ** Vectors for devices *)

Section Vectors.
  Context {W G : Type}.
  Implicit Types (s : Arch W G).

Fixpoint alloc_vectors (handlers : list Z) : HM (W := W) (G := G) (list Z) :=
  match handlers with
  | [] => st_ret []
  | h :: handlers => let* v := alloc_vector h in let* vs := alloc_vectors handlers in st_ret (v :: vs)
  end.

(** The first [n] vectors of the pool are taken. *)
Definition taken (n : Z) (bm : list Z) : Prop :=
  zlen bm = 32 /\ forall v, 0 <= v < 256 -> bit_at bm v = (DYN_VECTOR_LO <=? v) && (v <? DYN_VECTOR_LO + n).

Lemma vector_byte v bm : zlen bm = 32 -> 0 <= v < 256 -> exists b, idx bm (Z.shiftr v 3) = Ret b /\ bm !! Z.to_nat (v / 8) = Some b /\
  (Z.land b (Z.shiftl 1 (Z.land v 7)) =? 0) = negb (bit_at bm v).
Proof.
  intros Hl Hv. rewrite Z.shiftr_div_pow2 by lia. change (2 ^ 3) with 8. change 7 with (Z.ones 3). rewrite Z.land_ones by lia. change (2 ^ 3) with 8.
  destruct (idx_in_range bm (v / 8)) as (b & E & Hb); [rewrite Hl; Z.to_euclidean_division_equations; lia |]. exists b. split; [done |]. split; [done |].
  rewrite test_mask by (apply Z.mod_pos_bound; lia). unfold bit_at. by rewrite Hb.
Qed.
Lemma vector_loop_skip vs rest h s : zlen (VECTOR_BITMAP s) = 32 -> Forall (fun v => 0 <= v < 256 /\ bit_at (VECTOR_BITMAP s) v = true) vs ->
  vector_loop (vs ++ rest) h s = vector_loop rest h s.
Proof.
  intros Hl. induction 1 as [| v vs [Hv Hbit] _ IH]; [done |]. cbn [vector_loop app].
  destruct (vector_byte v _ Hl Hv) as (b & -> & _ & Hm). cbn [obind]. rewrite Hm, Hbit. exact IH.
Qed.

Lemma alloc_vector_spec n h s idt : 0 <= n <= 192 -> taken n (VECTOR_BITMAP s) -> IDT s = Some idt ->
  if n =? 192 then alloc_vector h s = Panic
  else let v := DYN_VECTOR_LO + n in exists bm, taken (n + 1) bm /\
    alloc_vector h s = Ret (v, with_idt s (<[v := mkGate (irq_device h) None]> idt) (ar_idtr s) bm).
Proof.
  intros Hn [Hl Hbits] Hidt. unfold alloc_vector. change (DYN_VECTOR_HI - DYN_VECTOR_LO + 1) with 192. unfold DYN_VECTOR_LO in *.
  assert (Forall (fun v => 0 <= v < 256 /\ bit_at (VECTOR_BITMAP s) v = true) (seqZ 0x30 n)) as Hset.
  { apply Forall_forall. intros v Hv%elem_of_seqZ. split; [lia |]. rewrite Hbits by lia. apply andb_true_iff. split; [apply Z.leb_le | apply Z.ltb_lt]; lia. }
  destruct (Z.eqb_spec n 192) as [-> | Hne].
  { rewrite <- (app_nil_r (seqZ 48 192)). by rewrite vector_loop_skip. }
  assert (seqZ 0x30 192 = seqZ 0x30 n ++ (0x30 + n) :: seqZ (Z.succ (0x30 + n)) (Z.pred (192 - n))) as ->.
  { rewrite <- seqZ_cons, <- seqZ_app by lia. f_equal. lia. }
  rewrite vector_loop_skip by done. cbn [vector_loop]. destruct (vector_byte (0x30 + n) _ Hl ltac:(lia)) as (b & -> & Hb & Hm). cbn [obind].
  assert (bit_at (VECTOR_BITMAP s) (48 + n) = false) as Hfree by (rewrite Hbits by lia; zcases; simpl; (done || lia)).
  rewrite Hm, Hfree. cbn [negb]. rewrite Z.shiftr_div_pow2 by lia. change (2 ^ 3) with 8. change 7 with (Z.ones 3). rewrite Z.land_ones by lia. change (2 ^ 3) with 8.
  rewrite upd_in_range by (rewrite Hl; Z.to_euclidean_division_equations; lia). cbn [obind]. rewrite Hidt. eexists. split; [| reflexivity].
  split; [unfold zlen; rewrite length_insert; exact Hl |]. intros v Hv. rewrite (bit_at_set _ (48 + n) v b) by (done || lia). rewrite Hbits by lia.
  unfold DYN_VECTOR_LO. zcases; simpl; (done || lia).
Qed.

Lemma alloc_vectors_from handlers : forall n s idt, 0 <= n -> n + zlen handlers <= 192 -> taken n (VECTOR_BITMAP s) -> IDT s = Some idt ->
  exists s' idt', alloc_vectors handlers s = Ret (seqZ (DYN_VECTOR_LO + n) (zlen handlers), s') /\ IDT s' = Some idt' /\
    taken (n + zlen handlers) (VECTOR_BITMAP s') /\
    (forall i h, handlers !! i = Some h -> idt' !! (DYN_VECTOR_LO + n + Z.of_nat i) = Some (mkGate (irq_device h) None)) /\
    (forall v, ~ (DYN_VECTOR_LO + n <= v < DYN_VECTOR_LO + n + zlen handlers) -> idt' !! v = idt !! v).
Proof.
  induction handlers as [| h hs IH]; intros n s idt Hn Hlen Ht Hidt.
  { exists s, idt. rewrite Z.add_0_r. by split_and!. }
  assert (zlen (h :: hs) = zlen hs + 1) as Hz by (unfold zlen; cbn [length]; lia). assert (0 <= zlen hs) by (unfold zlen; lia). rewrite Hz in *.
  pose proof (alloc_vector_spec n h s idt ltac:(lia) Ht Hidt) as Hone. rewrite (proj2 (Z.eqb_neq _ _)) in Hone by lia. destruct Hone as (bm & Ht1 & E1).
  set (s1 := with_idt _ _ _ _) in E1. destruct (IH (n + 1) s1 (<[DYN_VECTOR_LO + n := mkGate (irq_device h) None]> idt)) as (s' & idt' & E & Hi & Ht' & H1 & H2);
    [lia | lia | done | done |].
  exists s', idt'. cbn [alloc_vectors]. erewrite st_bind_step by exact E1. erewrite st_bind_step by exact E. split; [| split; [done |]].
  { rewrite (seqZ_cons (DYN_VECTOR_LO + n)) by lia. unfold st_ret. do 3 f_equal. f_equal; lia. }
  split; [by replace (n + (zlen hs + 1)) with (n + 1 + zlen hs) by lia |]. split.
  - intros [| i] h' Hh; cbn in Hh; [injection Hh as <- |].
    + rewrite Z.add_0_r, H2 by lia. apply lookup_insert_eq.
    + rewrite <- (H1 i h' Hh). f_equal. lia.
  - intros v Hv. rewrite H2 by lia. apply lookup_insert_ne. lia.
Qed.

(** C35 The vectors that [alloc_vector] hands out lie in the pool 0x30..=0xEF and
    are all different; each gets the handler it was asked for, the exceptions,
    the timer and the spurious vector keep theirs; and when the 192 vectors of
    the pool are gone the next request panics. *)
Theorem vectors_handed_out (handlers : list Z) s (idt : gmap Z Gate) :
  VECTOR_BITMAP s = replicate 32 0 -> IDT s = Some idt -> zlen handlers <= 192 ->
  exists s' idt', alloc_vectors handlers s = Ret (seqZ DYN_VECTOR_LO (zlen handlers), s') /\ IDT s' = Some idt' /\
    (forall i h, handlers !! i = Some h -> idt' !! (DYN_VECTOR_LO + Z.of_nat i) = Some (mkGate (irq_device h) None)) /\
    (forall v, ~ (DYN_VECTOR_LO <= v < DYN_VECTOR_LO + zlen handlers) -> idt' !! v = idt !! v) /\
    (zlen handlers = 192 -> forall h, alloc_vector h s' = Panic).
Proof.
  intros Hbm Hidt Hlen. assert (taken 0 (VECTOR_BITMAP s)) as Ht.
  { rewrite Hbm. split; [done |]. intros v Hv. unfold bit_at. rewrite lookup_replicate_2 by (Z.to_euclidean_division_equations; lia). cbn [default from_option id].
    rewrite Z.bits_0. unfold DYN_VECTOR_LO. zcases; simpl; (done || lia). }
  destruct (alloc_vectors_from handlers 0 s idt) as (s' & idt' & E & Hi & Ht' & H1 & H2); [lia | lia | done | done |].
  exists s', idt'. rewrite Z.add_0_l, Z.add_0_r in *. split; [done |]. split; [done |]. split; [done |]. split; [done |].
  intros Hall h. rewrite Hall in Ht'. pose proof (alloc_vector_spec 192 h s' idt' ltac:(lia) Ht' Hi) as Hp. exact Hp.
Qed.
End Vectors.

(** ** Memory management comes up *)

Section MemoryUp.
  Context {W G : Type}.

(** [mm::init]: the heap is 4 MiB of frames that were free and are in use from
    now on, and the kernel keeps the page tables it was started on.  Physical
    memory has to end below 2^47, where the direct map does. *)
Lemma mm_init_spec (info : BootInfo) (s : Early W G) (st0 : PmmState) (p : Pmm) (k : Z) :
  init (bi_memory_map info) = Ret st0 -> state_wf st0 -> PMM st0 = Some p -> total_pfns p <= 2 ^ 35 -> free_run p (HEAP_SIZE / PAGE_SIZE) k ->
  exists s' phys, mm_init info s = Ret (tt, s') /\ ea_heap s' = Some (phys + HHDM_OFFSET, HEAP_SIZE) /\ phys mod PAGE_SIZE = 0 /\
    KERNEL_AS (ea_vm s') = Some (CR3 (ea_vm s)) /\ CR3 (ea_vm s') = CR3 (ea_vm s) /\ vm_mem (ea_vm s') = vm_mem (ea_vm s) /\
    state_wf (vm_frames (ea_vm s')) /\
    (forall f, phys <= f < phys + HEAP_SIZE -> frame_free st0 f /\ ~ frame_free (vm_frames (ea_vm s')) f).
Proof.
  intros Hi Hst Hp Hmax Hrun. destruct (alloc_contig_spec st0 p (HEAP_SIZE / PAGE_SIZE) Hst Hp ltac:(done)) as (r & st & E & Hst' & Hr).
  destruct r as [a |]; [| by destruct Hr as [_ Hno]; apply Hno in Hrun]. destruct Hr as (k' & p' & -> & (H1 & H2 & H3) & _ & Hp' & Hu & _).
  assert (state_wf st0) as Hw by done. unfold state_wf in Hw. rewrite Hp in Hw. destruct Hw as (Hwf & _). pose proof (wf_total p Hwf) as Htot.
  eexists _, (k' * PAGE_SIZE). unfold mm_init. rewrite Hi. cbn [obind]. unfold heap_init. rewrite E. cbn [obind].
  change (HEAP_SIZE / PAGE_SIZE) with 1024 in *. rewrite checked_fits by (unfold HHDM_OFFSET, PAGE_SIZE; lia). cbn [obind]. split; [reflexivity |]. cbn.
  split; [done |]. split; [by apply Z.mod_mul |]. do 3 (split; [done |]). split; [done |].
  intros f Hf. unfold frame_free. rewrite Hp, Hp'. unfold PAGE_SIZE, HEAP_SIZE in *.
  assert (k' <= f / 4096 < k' + 1024) as Hfr by (Z.to_euclidean_division_equations; lia).
  split; [split; [lia | by apply H3] |]. intros [_ Hfree]. rewrite Hu in Hfree by lia. revert Hfree. zcases; simpl; (done || lia).
Qed.
End MemoryUp.

(** ** Witnesses *)

(** A platform whose timer is done at once. *)
Record Pc : Type := mkPc { pc_msrs : Z -> Z; pc_regs : Z -> Z; pc_pics : Pic * Pic }.
#[local] Instance pc_ports : PortIO Pc := {|
  port_in _ _ w := (0x20, w);
  port_out _ p v w := mkPc (pc_msrs w) (pc_regs w) (pics_out p v (pc_pics w))
|}.
#[local] Instance pc_mmio : Mmio Pc := {|
  mmio_read _ _ w := (0xFFFF0000, w);
  mmio_write _ va v w := mkPc (pc_msrs w) (fun x => if x =? va then v else pc_regs w x) (pc_pics w);
  dev_run m w := (m, w)
|}.
#[local] Instance pc_msr : Msr Pc := {|
  msr_read m w := pc_msrs w m;
  msr_write m v w := mkPc (fun x => if x =? m then v else pc_msrs w x) (pc_regs w) (pc_pics w)
|}.
#[local] Instance pc_platform : Platform Pc := {| pics := pc_pics; reg_at := pc_regs; pit_polls := 1 |}.
#[local] Instance pc_laws : PlatformLaws (W := Pc).
Proof. split; try done. intros w. exists 0%nat. split; [cbn; lia | done]. Qed.

(** The table as its entries. *)
#[local] Instance list_gdt : DescriptorTable (list (option Descriptor)) := {|
  gdt_new := [None];
  gdt_append d g := if zlen g + slots d <=? 8 then Ret (zlen g * 8 + dpl d, g ++ Some d :: replicate (Z.to_nat (slots d - 1)) None) else Panic;
  gdt_entries g := g
|}.
#[local] Instance list_gdt_laws : DescriptorTableLaws (list (option Descriptor)).
Proof.
  split; [done |]. intros d g Hd. cbn [gdt_entries gdt_append list_gdt] in *. rewrite (proj2 (Z.leb_le _ _)) by done. by eexists.
Qed.
#[local] Instance demo_stacks : ArchImage := {| DF_STACK := 0xFFFFFFFF80010000; PRIV0_STACK := 0xFFFFFFFF80014000; syscall_entry_addr := 0xFFFFFFFF80001000 |}.

Definition demo_pc : Pc := mkPc (fun m => if m =? IA32_APIC_BASE then 0xFEE00900 else 0) (fun _ => 0) (mkPic 0 true false 8 0, mkPic 0 true false 0x70 0).
Definition demo_segs : SegRegs := mkSegRegs 0 0 0 0 0 0 0.

Lemma processor_brought_up_witness : exists s : Arch Pc (list (option Descriptor)), init_bsp 1 (arch_statics demo_pc demo_segs) = Ret (tt, s) /\
  LAPIC_BASE s = 0xFFFF8000FEE00000 /\ TSS s = Some static_tss /\
  forall c, star c = msr_read IA32_STAR (ar_dev s) -> exists g, names g (cs (step c SYSRETQ)) user_code_segment.
Proof.
  destruct (processor_brought_up (G := list (option Descriptor)) 1 demo_pc demo_segs) as (s & g & E & _ & _ & _ & _ & _ & _ & _ & Hret & Ht & _ & _ & _ & _ & (Hb & _) & _);
    [cbn; lia | unfold stacks_ok, canonical, STACK_SIZE; cbn; lia |].
  exists s. split; [exact E |]. split; [exact Hb |]. split; [exact Ht |]. intros c Hc. exists g. by apply Hret.
Defined.
Lemma vectors_handed_out_witness : exists s', alloc_vectors [7; 8] (with_idt (arch_statics demo_pc demo_segs : Arch Pc unit) new_idt true (replicate 32 0)) = Ret ([0x30; 0x31], s') /\
  exists idt, IDT s' = Some idt /\ idt !! 0x31 = Some (mkGate (irq_device 8) None) /\ idt !! 0x20 = Some (mkGate irq_timer None).
Proof.
  destruct (vectors_handed_out [7; 8] (with_idt (arch_statics demo_pc demo_segs : Arch Pc unit) new_idt true (replicate 32 0)) new_idt)
    as (s' & idt & E & Hi & H1 & H2 & _); [done | done | by vm_compute |].
  exists s'. split; [exact E |]. exists idt. split; [done |]. split; [exact (H1 1%nat 8 eq_refl) |]. rewrite H2; [done |]. unfold DYN_VECTOR_LO. lia.
Defined.
