(* ===== verification/Pci.v ===== *)
(** * ACPI and PCI

    [kernel/src/arch/x86_64/acpi.rs] finds the MCFG table of the firmware, and
    [kernel/src/drivers/pci] walks the configuration space it describes.  The
    configuration space is memory-mapped below the direct map; the tables are
    in physical memory.  The lines written to the serial port are left out. *)

From S2P Require Import Prelude Bytes Frames BootInfo X86 Vmm Machine.

(** ** Data *)

Record McfgAllocation : Type := mkMcfgAllocation { al_base : Z; al_segment : Z; al_bus_start : Z; al_bus_end : Z }.

Record Bar : Type := mkBar { bar_base : Z; bar_size : Z; bar_io : bool; bar_prefetchable : bool }.
Record MsixCap : Type := mkMsixCap {
  cap_off : Z; table_size : Z; table_bir : Z; table_off : Z; pba_bir : Z; pba_off : Z }.
Record Device : Type := mkDevice {
  d_segment : Z; d_bus : Z; d_device : Z; d_function : Z; d_ecam_base : Z;
  d_vendor_id : Z; d_device_id : Z; d_class : Z; d_subclass : Z; d_prog_if : Z; d_header_type : Z;
  d_bars : list (option Bar);
  d_msix : option MsixCap }.

Definition active_bar_count (d : Device) : Z := zlen (filter is_Some (d_bars d)).

(** ** ACPI tables *)

(** [size_of::<SdtHeader>()] and the signatures. *)
Definition SDT_HEADER : Z := 36.
Definition RSD_PTR : list Z := [0x52; 0x53; 0x44; 0x20; 0x50; 0x54; 0x52; 0x20].
Definition XSDT : list Z := [0x58; 0x53; 0x44; 0x54].
Definition MCFG_SIG : list Z := [0x4D; 0x43; 0x46; 0x47].

(** One element of the array of allocations, 16 bytes packed. *)
Definition read_allocation (m : PhysMem) (a : Z) : McfgAllocation :=
  mkMcfgAllocation (le_val (load m a 8)) (le_val (load m (a + 8) 2)) (m (a + 10)) (m (a + 11)).

Definition parse_mcfg (m : PhysMem) (table_phys length : Z) : outcome (list McfgAllocation) :=
  let MCFG_ALLOC_OFF := SDT_HEADER + 8 in
  let data_bytes := Z.max (length - MCFG_ALLOC_OFF) 0 in
  let count := data_bytes / 16 in
  let! _ := checked 64 (table_phys + HHDM_OFFSET + MCFG_ALLOC_OFF) in
  Ret ((fun i => read_allocation m (table_phys + MCFG_ALLOC_OFF + 16 * i)) <$> seqZ 0 count).

(** The loop over the entries of the XSDT. *)
Fixpoint find_mcfg (m : PhysMem) (entry_ptr : Z) (l : list Z) : outcome (option (list McfgAllocation)) :=
  match l with
  | [] => Ret None
  | i :: l =>
      let table_phys := le_val (load m (entry_ptr + 8 * i) 8) in
      let! _ := checked 64 (table_phys + HHDM_OFFSET) in
      if bool_decide (load m table_phys 4 = MCFG_SIG)
      then let! l := parse_mcfg m table_phys (le_val (load m (table_phys + 4) 4)) in Ret (Some l)
      else find_mcfg m entry_ptr l
  end.

(** [acpi::init], with the value it puts into [MCFG]. *)
Definition acpi_init (m : PhysMem) (rsdp_phys : Z) : outcome (option (list McfgAllocation)) :=
  if rsdp_phys =? 0 then Ret None
  else
    let! _ := checked 64 (rsdp_phys + HHDM_OFFSET) in
    if negb (bool_decide (load m rsdp_phys 8 = RSD_PTR)) then Ret None
    else if m (rsdp_phys + 15) <? 2 then Ret None
    else
      let xsdt_phys := le_val (load m (rsdp_phys + 24) 8) in
      let! _ := checked 64 (xsdt_phys + HHDM_OFFSET) in
      if negb (bool_decide (load m xsdt_phys 4 = XSDT)) then Ret None
      else
        let! entries_bytes := checked 64 (le_val (load m (xsdt_phys + 4) 4) - SDT_HEADER) in
        let entries := entries_bytes / 8 in
        let! _ := checked 64 (xsdt_phys + HHDM_OFFSET + SDT_HEADER) in
        find_mcfg m (xsdt_phys + SDT_HEADER) (seqZ 0 entries).

Section Pci.
  Context {A W : Type} {FA : FrameAllocator A} {PE : PageTableEntry} {MIO : Mmio W}.
Abbreviation M X := (MM (A := A) (W := W) X).

(** ** Configuration space *)

(** A function by its coordinates. *)
Record Func : Type := mkFunc { f_base : Z; f_bus : Z; f_dev : Z; f_func : Z }.

Definition ecam_addr (f : Func) : outcome Z :=
  let! a := checked 64 (f_base f + Z.shiftl (f_bus f) 20) in
  let! a := checked 64 (a + Z.shiftl (f_dev f) 15) in
  checked 64 (a + Z.shiftl (f_func f) 12).
Definition cfg_ptr (f : Func) (off : Z) : outcome Z :=
  let! a := ecam_addr f in
  let! a := checked 64 (a + off) in
  checked 64 (a + HHDM_OFFSET).

Definition read_u32 (f : Func) (off : Z) : M Z := let* p := st_lift (cfg_ptr f off) in reg_read 32 p.
Definition write_u32 (f : Func) (off v : Z) : M unit := let* p := st_lift (cfg_ptr f off) in reg_write 32 p v.
(** [off & !3] on a [u16]. *)
Definition read_u16 (f : Func) (off : Z) : M Z :=
  let* w := read_u32 f (Z.land off 0xFFFC) in
  st_ret (wrap 16 (Z.shiftr w (Z.land off 3 * 8))).
Definition read_u8 (f : Func) (off : Z) : M Z :=
  let* w := read_u32 f (Z.land off 0xFFFC) in
  st_ret (wrap 8 (Z.shiftr w (Z.land off 3 * 8))).

(** ** Base address registers *)

(** [!x] of a [u32] and of a [u64]. *)
Definition not32 (x : Z) : Z := Z.lxor x 0xFFFFFFFF.
Definition not64 (x : Z) : Z := Z.lxor x 0xFFFFFFFFFFFFFFFF.

Definition read_bar (f : Func) (index : Z) : M (option Bar * Z) :=
  let off := 0x10 + index * 4 in
  let* orig := read_u32 f off in
  if orig =? 0 then st_ret (None, index + 1)
  else if Z.land orig 1 =? 1 then
    let* _ := write_u32 f off 0xFFFFFFFC in
    let* p := read_u32 f off in
    let probed := Z.land p 0xFFFFFFFC in
    let* _ := write_u32 f off orig in
    let size := wrap 32 (not32 probed + 1) in
    st_ret (Some (mkBar (Z.land orig 0xFFFFFFFC) size true false), index + 1)
  else
    let ty := Z.land (Z.shiftr orig 1) 0x3 in
    let prefetchable := negb (Z.land orig 0x08 =? 0) in
    if (ty =? 0x2) && (index <? 5) then
      let hi_off := off + 4 in
      let* orig_hi := read_u32 f hi_off in
      let* _ := write_u32 f off 0xFFFFFFF0 in
      let* _ := write_u32 f hi_off 0xFFFFFFFF in
      let* l := read_u32 f off in
      let lo := Z.land l 0xFFFFFFF0 in
      let* hi := read_u32 f hi_off in
      let* _ := write_u32 f off orig in
      let* _ := write_u32 f hi_off orig_hi in
      let masked := Z.lor (Z.shiftl hi 32) lo in
      let size := wrap 64 (not64 masked + 1) in
      let addr := Z.lor (Z.shiftl orig_hi 32) (Z.land orig 0xFFFFFFF0) in
      st_ret (Some (mkBar addr size false prefetchable), index + 2)
    else
      let* _ := write_u32 f off 0xFFFFFFF0 in
      let* p := read_u32 f off in
      let probed := Z.land p 0xFFFFFFF0 in
      let* _ := write_u32 f off orig in
      let size := Z.land (wrap 64 (not64 probed + 1)) 0xFFFFFFFF in
      st_ret (Some (mkBar (Z.land orig 0xFFFFFFF0) size false prefetchable), index + 1).

(** The loop of [probe]: at most six registers. *)
Fixpoint bars_loop (fuel : nat) (f : Func) (i : Z) (bars : list (option Bar)) : M (list (option Bar)) :=
  if 6 <=? i then st_ret bars
  else match fuel with
       | O => st_lift OutOfFuel
       | S fuel =>
           let* (b, next) := read_bar f i in
           match b with
           | Some bar => let* bars := st_lift (upd bars i (Some bar)) in bars_loop fuel f next bars
           | None => bars_loop fuel f next bars
           end
       end.

(** ** Capabilities *)

(** The loop of [find_msix], which makes at most 48 hops. *)
Fixpoint msix_loop (hops : nat) (f : Func) (cap : Z) : M (option MsixCap) :=
  match hops with
  | O => st_ret None
  | S hops =>
      if cap =? 0 then st_ret None
      else
        let* id := read_u8 f cap in
        let* next := read_u8 f (cap + 1) in
        if id =? 0x11 then
          let* msg_ctrl := read_u16 f (cap + 2) in
          let* table := read_u32 f (cap + 4) in
          let* pba := read_u32 f (cap + 8) in
          st_ret (Some (mkMsixCap cap (Z.land msg_ctrl 0x7FF + 1)
                          (Z.land table 7) (Z.land table 0xFFFFFFF8) (Z.land pba 7) (Z.land pba 0xFFFFFFF8)))
        else msix_loop hops f (Z.land next 0xFC)
  end.
Definition find_msix (f : Func) : M (option MsixCap) :=
  let* status := read_u16 f 0x06 in
  if Z.land status (Z.shiftl 1 4) =? 0 then st_ret None
  else let* cap := read_u8 f 0x34 in msix_loop 48 f (Z.land cap 0xFC).

(** ** Devices *)

Definition probe (f : Func) : M (option Device) :=
  let* vendor := read_u16 f 0 in
  if vendor =? 0xFFFF then st_ret None
  else
    let* device_id := read_u16 f 2 in
    let* class := read_u8 f 0x0B in
    let* subclass := read_u8 f 0x0A in
    let* prog_if := read_u8 f 0x09 in
    let* header_type := read_u8 f 0x0E in
    let* bars := (if Z.land header_type 0x7F =? 0 then bars_loop 6 f 0 (replicate 6 None)
                  else st_ret (replicate 6 None)) in
    let* msix := find_msix f in
    st_ret (Some (mkDevice 0 (f_bus f) (f_dev f) (f_func f) (f_base f) vendor device_id
                    class subclass prog_if header_type bars msix)).

Definition func_of (d : Device) : Func := mkFunc (d_ecam_base d) (d_bus d) (d_device d) (d_function d).
(** [enable_mmio_bus_master] and [enable_io_bus_master]. *)
Definition enable_command (bits : Z) (d : Device) : M unit :=
  let* c := read_u32 (func_of d) 0x04 in
  let cmd := Z.lor (Z.land c 0xFFFF) bits in
  let* s := read_u32 (func_of d) 0x04 in
  let status_hi := Z.land s 0xFFFF0000 in
  write_u32 (func_of d) 0x04 (Z.lor status_hi cmd).
Definition enable_mmio_bus_master : Device -> M unit := enable_command (Z.lor 0x0002 0x0004).
Definition enable_io_bus_master : Device -> M unit := enable_command (Z.lor 0x0001 0x0004).

(** The innermost loop of [enumerate]: the functions of a device. *)
Fixpoint funcs_loop (base bus dev : Z) (funcs : list Z) (devs : list Device) : M (list Device) :=
  match funcs with
  | [] => st_ret devs
  | func :: funcs =>
      let* d := probe (mkFunc base bus dev func) in
      match d with
      | Some d => funcs_loop base bus dev funcs (devs ++ [d])
      | None => if func =? 0 then st_ret devs else funcs_loop base bus dev funcs devs
      end
  end.
(** [for x in l] over the list of devices. *)
Fixpoint devs_loop {X} (body : X -> list Device -> M (list Device)) (l : list X) (devs : list Device) : M (list Device) :=
  match l with
  | [] => st_ret devs
  | x :: l => let* devs := body x devs in devs_loop body l devs
  end.
Definition enumerate (mcfg : option (list McfgAllocation)) (DEVICES : list Device) : M (list Device) :=
  match mcfg with
  | None => st_ret DEVICES
  | Some allocations =>
      devs_loop (fun al =>
        devs_loop (fun bus =>
          devs_loop (fun dev => funcs_loop (al_base al) bus dev (seqZ 0 8)) (seqZ 0 32))
          (seqZ (al_bus_start al) (al_bus_end al - al_bus_start al + 1))) allocations DEVICES
  end.

Definition find_class (DEVICES : list Device) (class subclass prog_if : Z) : option Device :=
  snd <$> list_find (fun d => d_class d = class /\ d_subclass d = subclass /\ d_prog_if d = prog_if) DEVICES.
End Pci.

(** ** The VirtIO graphics device (drivers/virtio_gpu.rs) *)

Definition VIRTIO_VENDOR : Z := 0x1AF4.
Definition VIRTIO_GPU_LEGACY : Z := 0x1050.
Definition VIRTIO_GPU_TRANSITIONAL : Z := 0x1000.
Record GpuInfo : Type := mkGpuInfo { g_bus : Z; g_device : Z; g_function : Z; g_bar0_base : Z; g_bar0_size : Z }.

Definition is_virtio_gpu (d : Device) : bool :=
  if negb (d_vendor_id d =? VIRTIO_VENDOR) then false
  else (d_device_id d =? VIRTIO_GPU_LEGACY) || (d_device_id d =? VIRTIO_GPU_TRANSITIONAL).

(** The first candidate decides. *)
Fixpoint discover (devices : list Device) : outcome (option GpuInfo) :=
  match devices with
  | [] => Ret None
  | dev :: devices =>
      if negb (is_virtio_gpu dev) then discover devices
      else
        let! b := idx (d_bars dev) 0 in
        match b with
        | None => Ret None
        | Some bar0 =>
            if bar_io bar0 then Ret None
            else Ret (Some (mkGpuInfo (d_bus dev) (d_device dev) (d_function dev) (bar_base bar0) (bar_size bar0)))
        end
  end.

(** ** What probing a base address register finds

    [read_bar] of [kernel/src/drivers/pci/config.rs] on registers that behave
    as the PCI specification says. *)

(** ** Masks *)

(** The bits [k..n - 1]. *)
Definition mask (n k : Z) : Z := 2 ^ n - 2 ^ k.

Lemma mask_testbit (n k i : Z) : 0 <= k <= n -> 0 <= i -> Z.testbit (mask n k) i = (k <=? i) && (i <? n).
Proof.
  intros Hk Hi. replace (mask n k) with (Z.shiftl (Z.ones (n - k)) k).
  - rewrite Z.shiftl_spec by lia. destruct (Z.leb_spec k i).
    + rewrite Z.testbit_ones by lia. zcases; simpl; (done || lia).
    + by rewrite Z.testbit_neg_r by lia.
  - rewrite Z.shiftl_mul_pow2, Z.ones_equiv by lia. unfold mask.
    replace n with (n - k + k) at 2 by lia. rewrite Z.pow_add_r by lia. lia.
Qed.

Lemma testbit_high (x n i : Z) : 0 <= x < 2 ^ n -> n <= i -> Z.testbit x i = false.
Proof.
  intros Hx Hi. destruct (decide (x = 0)) as [-> |]; [apply Z.bits_0 |].
  assert (0 <= n) by (destruct (Z.le_gt_cases 0 n); [done | rewrite (Z.pow_neg_r 2 n) in Hx by lia; lia]).
  apply Z.bits_above_log2; [lia |]. apply Z.log2_lt_pow2; [lia |]. pose proof (Z.pow_le_mono_r 2 n i). lia.
Qed.

Lemma land_range (a b n : Z) : 0 <= n -> 0 <= a -> 0 <= b < 2 ^ n -> 0 <= Z.land a b < 2 ^ n.
Proof.
  intros Hn Ha Hb. rewrite <- (Z.mod_small b (2 ^ n)) at 1 2 by lia. rewrite <- Z.land_ones, Z.land_assoc, Z.land_ones by lia.
  apply Z.mod_pos_bound, Z.pow_pos_nonneg; lia.
Qed.

(** Bit by bit. *)
Ltac bits :=
  apply Z.bits_inj'; let i := fresh "i" in let Hi := fresh "Hi" in intros i Hi;
  repeat first [rewrite Z.lor_spec | rewrite Z.land_spec | rewrite Z.ldiff_spec | rewrite Z.lxor_spec];
  rewrite ?mask_testbit by lia.

(** What a register shows after all ones were written to its address bits:
    [w] is what the driver writes and [m] the bits that can be written. *)
Definition after_write (m old v : Z) : Z := Z.lor (Z.land v m) (Z.ldiff old m).

Lemma after_write_back (m old v : Z) : after_write m (after_write m old v) old = old.
Proof.
  unfold after_write. bits. destruct (Z.testbit m i), (Z.testbit old i), (Z.testbit v i); done.
Qed.

Lemma after_write_range (n m old v : Z) :
  0 <= n -> 0 <= m < 2 ^ n -> 0 <= old < 2 ^ n -> 0 <= after_write m old v < 2 ^ n.
Proof.
  intros Hn Hm Ho. replace (after_write m old v) with (after_write m old v mod 2 ^ n);
    [apply Z.mod_pos_bound, Z.pow_pos_nonneg; lia |].
  rewrite <- Z.land_ones by lia. unfold after_write. bits. rewrite Z.testbit_ones by lia.
  rewrite (proj2 (Z.leb_le 0 i) Hi). simpl. destruct (Z.ltb_spec i n); [by rewrite andb_true_r |].
  rewrite (testbit_high m n), (testbit_high old n) by lia. by rewrite !andb_false_r.
Qed.

(** Only the low [t] bits of what is left are type bits: the rest is zero
    because the base is a multiple of the size. *)
Lemma probed_mask (n k t old : Z) :
  0 <= t <= k -> k <= n -> 0 <= old < 2 ^ n -> old mod 2 ^ k < 2 ^ t ->
  Z.land (after_write (mask n k) old (mask n t)) (mask n t) = mask n k.
Proof.
  intros Ht Hk Ho Hm. unfold after_write. bits.
  destruct (Z.leb_spec k i); destruct (Z.ltb_spec i n); destruct (Z.leb_spec t i); try lia; simpl;
    rewrite ?andb_true_r, ?andb_false_r; try done.
  rewrite <- (Z.mod_pow2_bits_low old k i) by lia. apply (testbit_high _ t); [| lia].
  pose proof (Z.mod_pos_bound old (2 ^ k)). pose proof (Z.pow_pos_nonneg 2 k). lia.
Qed.

Lemma lxor_mask (n x : Z) : 0 <= n -> 0 <= x < 2 ^ n -> Z.lxor x (2 ^ n - 1) = 2 ^ n - 1 - x.
Proof.
  intros Hn Hx. replace (2 ^ n - 1) with (Z.ones n) by (rewrite Z.ones_equiv; lia).
  replace (Z.lxor x (Z.ones n)) with (Z.ldiff (Z.ones n) x).
  - rewrite <- Z.sub_nocarry_ldiff; [done |]. bits. rewrite Z.bits_0, Z.testbit_ones by lia.
    destruct (Z.ltb_spec i n); [by rewrite (proj2 (Z.leb_le 0 i) Hi), andb_false_r |].
    by rewrite (testbit_high x n) by lia.
  - bits. rewrite Z.testbit_ones by lia. rewrite (proj2 (Z.leb_le 0 i) Hi). simpl.
    destruct (Z.ltb_spec i n); [by destruct (Z.testbit x i) |]. by rewrite (testbit_high x n) by lia.
Qed.

Lemma mask_range (n k : Z) : 0 <= k <= n -> 0 <= mask n k < 2 ^ n.
Proof. intros H. unfold mask. pose proof (Z.pow_le_mono_r 2 k n). pose proof (Z.pow_pos_nonneg 2 k). lia. Qed.

Lemma land_mask (n t x : Z) : 0 <= t <= n -> 0 <= x < 2 ^ n -> Z.land x (mask n t) = x - x mod 2 ^ t.
Proof.
  intros Ht Hx. assert (E : x - x mod 2 ^ t = Z.ldiff x (x mod 2 ^ t)).
  { apply Z.sub_nocarry_ldiff. bits. rewrite Z.bits_0. destruct (Z.ltb_spec i t).
    - rewrite Z.mod_pow2_bits_low by lia. by destruct (Z.testbit x i).
    - rewrite Z.mod_pow2_bits_high by lia. done. }
  rewrite E. bits. destruct (Z.leb_spec t i); simpl.
  - rewrite Z.mod_pow2_bits_high by lia. simpl. rewrite andb_true_r.
    destruct (Z.ltb_spec i n); [by rewrite andb_true_r |]. by rewrite (testbit_high x n) by lia.
  - rewrite Z.mod_pow2_bits_low by lia. by destruct (Z.testbit x i).
Qed.

(** Two words as one. *)
Definition words (hi lo : Z) : Z := Z.lor (Z.shiftl hi 32) lo.
Lemma words_testbit (hi lo i : Z) : 0 <= lo < 2 ^ 32 -> 0 <= i ->
  Z.testbit (words hi lo) i = if i <? 32 then Z.testbit lo i else Z.testbit hi (i - 32).
Proof.
  intros Hl Hi. unfold words. rewrite Z.lor_spec, Z.shiftl_spec by lia. destruct (Z.ltb_spec i 32).
  - by rewrite (Z.testbit_neg_r hi) by lia.
  - by rewrite (testbit_high lo 32), orb_false_r by lia.
Qed.
Lemma words_range (hi lo : Z) : 0 <= hi < 2 ^ 32 -> 0 <= lo < 2 ^ 32 -> 0 <= words hi lo < 2 ^ 64.
Proof. intros. apply lor_range; [lia | apply shiftl_range; lia | lia]. Qed.

(** ** Registers *)

(** A base address register of the PCI specification: reading it shows it,
    writing it changes the bits that can be written, and only them. *)
Class ConfigSpace (W : Type) `{Mmio W} : Type := {
  cfg_reg : W -> Z -> Z;
  cfg_mask : Z -> Z;
  cfg_bar : Z -> Prop;
  cfg_read w a : cfg_bar a -> mmio_read 32 a w = (cfg_reg w a, w);
  cfg_write w a v b : cfg_bar a -> cfg_bar b -> 0 <= v < 2 ^ 32 ->
    cfg_reg (mmio_write 32 a v w) b = if b =? a then after_write (cfg_mask a) (cfg_reg w a) v else cfg_reg w b;
  cfg_range w a : cfg_bar a -> 0 <= cfg_reg w a < 2 ^ 32
}.

(** A region of [2 ^ k] bytes, as the register [r] with the writable bits [m]
    (and the next one, for a region with 64-bit addresses) describe it. *)
Inductive region (index : Z) (r m r2 m2 : Z) : Bar -> Z -> Prop :=
  | RegionIo k : 2 <= k < 32 -> Z.land r 1 = 1 -> m = mask 32 k -> r mod 2 ^ k < 4 ->
      region index r m r2 m2 (mkBar (r - r mod 4) (2 ^ k) true false) (index + 1)
  | RegionMem32 k : 4 <= k < 32 -> r <> 0 -> Z.land r 1 = 0 -> Z.land (Z.shiftr r 1) 3 <> 2 -> m = mask 32 k ->
      r mod 2 ^ k < 16 ->
      region index r m r2 m2 (mkBar (r - r mod 16) (2 ^ k) false (Z.testbit r 3)) (index + 1)
  | RegionMem64 k : 4 <= k < 64 -> index < 5 -> Z.land r 1 = 0 -> Z.land (Z.shiftr r 1) 3 = 2 ->
      words m2 m = mask 64 k -> 0 <= m < 2 ^ 32 -> words r2 r mod 2 ^ k < 16 ->
      region index r m r2 m2 (mkBar (words r2 r - words r2 r mod 16) (2 ^ k) false (Z.testbit r 3)) (index + 2).

Section Probe.
  Context {A W : Type} {FA : FrameAllocator A} {PE : PageTableEntry} {MIO : Mmio W} {CS : ConfigSpace W}.
  Implicit Types s : Machine A W.

Lemma read_u32_bar (f : Func) (off a : Z) s :
  cfg_ptr f off = Ret a -> cfg_bar a -> read_u32 f off s = Ret (cfg_reg (mc_dev s) a, s).
Proof.
  intros Hp Hb. unfold read_u32, st_bind, st_lift. rewrite Hp. cbn [obind]. unfold reg_read. rewrite cfg_read by done.
  by destruct s.
Qed.
Lemma write_u32_bar (f : Func) (off a v : Z) s :
  cfg_ptr f off = Ret a -> write_u32 f off v s = Ret (tt, mkMachine (mc_vm s) (mmio_write 32 a v (mc_dev s))).
Proof. intros Hp. unfold write_u32, st_bind, st_lift. by rewrite Hp. Qed.

(** Same registers. *)
Definition same_bars s s' : Prop := mc_vm s' = mc_vm s /\ forall b, cfg_bar b -> cfg_reg (mc_dev s') b = cfg_reg (mc_dev s) b.

(** The first bit and the two after it. *)
Lemma bar_bit3 (r : Z) : negb (Z.land r 8 =? 0) = Z.testbit r 3.
Proof.
  replace 8 with (2 ^ 3) by done. destruct (Z.testbit r 3) eqn:E.
  - replace (Z.land r (2 ^ 3)) with (2 ^ 3); [done |]. bits. rewrite Z.pow2_bits_eqb by lia.
    destruct (Z.eqb_spec 3 i) as [<- |]; [by rewrite E | by rewrite andb_false_r].
  - replace (Z.land r (2 ^ 3)) with 0; [done |]. bits. rewrite Z.pow2_bits_eqb, Z.bits_0 by lia.
    destruct (Z.eqb_spec 3 i) as [<- |]; [by rewrite E | by rewrite andb_false_r].
Qed.

(** Sizes from what was read back. *)
Lemma size_io (k r : Z) : 2 <= k < 32 -> 0 <= r < 2 ^ 32 -> r mod 2 ^ k < 4 ->
  wrap 32 (not32 (Z.land (after_write (mask 32 k) r 0xFFFFFFFC) 0xFFFFFFFC) + 1) = 2 ^ k.
Proof.
  intros Hk Hr Hm. change 0xFFFFFFFC with (mask 32 2). rewrite probed_mask by (done || lia). unfold not32.
  change 0xFFFFFFFF with (2 ^ 32 - 1). rewrite lxor_mask; [| lia | apply mask_range; lia]. unfold wrap, mask.
  pose proof (Z.pow_pos_nonneg 2 k). pose proof (Z.pow_lt_mono_r 2 k 32). rewrite Z.mod_small; lia.
Qed.
Lemma size_mem32 (k r : Z) : 4 <= k < 32 -> 0 <= r < 2 ^ 32 -> r mod 2 ^ k < 16 ->
  Z.land (wrap 64 (not64 (Z.land (after_write (mask 32 k) r 0xFFFFFFF0) 0xFFFFFFF0) + 1)) 0xFFFFFFFF = 2 ^ k.
Proof.
  intros Hk Hr Hm. change 0xFFFFFFF0 with (mask 32 4). rewrite probed_mask by (done || lia). unfold not64.
  pose proof (mask_range 32 k). change 0xFFFFFFFFFFFFFFFF with (2 ^ 64 - 1). rewrite lxor_mask by lia.
  change 0xFFFFFFFF with (Z.ones 32). rewrite Z.land_ones by lia. unfold wrap, mask in *.
  pose proof (Z.pow_pos_nonneg 2 k). pose proof (Z.pow_lt_mono_r 2 k 32). rewrite (Z.mod_small _ (2 ^ 64)) by lia.
  replace (2 ^ 64 - 1 - (2 ^ 32 - 2 ^ k) + 1) with (2 ^ k + (2 ^ 32 - 1) * 2 ^ 32) by lia.
  rewrite Z.mod_add by lia. apply Z.mod_small. lia.
Qed.
Lemma size_mem64 (k r m r2 m2 : Z) : 4 <= k < 64 -> 0 <= r < 2 ^ 32 -> 0 <= r2 < 2 ^ 32 -> 0 <= m < 2 ^ 32 ->
  words m2 m = mask 64 k -> words r2 r mod 2 ^ k < 16 ->
  wrap 64 (not64 (Z.lor (Z.shiftl (after_write m2 r2 0xFFFFFFFF) 32) (Z.land (after_write m r 0xFFFFFFF0) 0xFFFFFFF0)) + 1) = 2 ^ k.
Proof.
  intros Hk Hr Hr2 Hm Hmm Hal.
  replace (Z.lor _ _) with (mask 64 k).
  - unfold not64. change 0xFFFFFFFFFFFFFFFF with (2 ^ 64 - 1). rewrite lxor_mask; [| lia | apply mask_range; lia].
    unfold wrap, mask. pose proof (Z.pow_pos_nonneg 2 k). pose proof (Z.pow_lt_mono_r 2 k 64). rewrite Z.mod_small; lia.
  - rewrite <- (probed_mask 64 k 4 (words r2 r)) by (done || lia || by apply words_range). rewrite <- Hmm.
    change 0xFFFFFFF0 with (mask 32 4). change 0xFFFFFFFF with (mask 32 0). unfold after_write. bits.
    rewrite !words_testbit, Z.shiftl_spec by lia.
    destruct (Z.ltb_spec i 32); rewrite ?andb_true_r.
    + rewrite (Z.testbit_neg_r _ (i - 32)) by lia. rewrite (proj2 (Z.ltb_lt i 64)) by lia. simpl. by rewrite !andb_true_r.
    + repeat first [rewrite Z.lor_spec | rewrite Z.land_spec | rewrite Z.ldiff_spec]. rewrite mask_testbit by lia.
      rewrite (proj2 (Z.leb_le 4 i)), (proj2 (Z.leb_le 0 (i - 32))) by lia. rewrite !andb_false_r, orb_false_r. simpl.
      destruct (Z.ltb_spec i 64); destruct (Z.ltb_spec (i - 32) 32); try lia; simpl; rewrite ?andb_true_r, ?andb_false_r; [done |].
      rewrite (testbit_high r2 32) by lia. done.
Qed.

Lemma base_io (r : Z) : 0 <= r < 2 ^ 32 -> Z.land r 0xFFFFFFFC = r - r mod 4.
Proof. intros. change 0xFFFFFFFC with (mask 32 2). by rewrite land_mask by lia. Qed.
Lemma base_mem32 (r : Z) : 0 <= r < 2 ^ 32 -> Z.land r 0xFFFFFFF0 = r - r mod 16.
Proof. intros. change 0xFFFFFFF0 with (mask 32 4). by rewrite land_mask by lia. Qed.
Lemma base_mem64 (r r2 : Z) : 0 <= r < 2 ^ 32 -> 0 <= r2 < 2 ^ 32 ->
  Z.lor (Z.shiftl r2 32) (Z.land r 0xFFFFFFF0) = words r2 r - words r2 r mod 16.
Proof.
  intros. change 16 with (2 ^ 4). rewrite <- (land_mask 64 4) by (lia || by apply words_range).
  change 0xFFFFFFF0 with (mask 32 4). bits. rewrite words_testbit, Z.shiftl_spec by lia. destruct (Z.ltb_spec i 32).
  - rewrite (Z.testbit_neg_r _ (i - 32)) by lia. rewrite (proj2 (Z.ltb_lt i 64)) by lia. simpl. by rewrite !andb_true_r.
  - rewrite (proj2 (Z.leb_le 4 i)) by lia. rewrite andb_false_r, orb_false_r. simpl.
    destruct (Z.ltb_spec i 64); rewrite ?andb_true_r, ?andb_false_r; [done |]. by rewrite (testbit_high r2 32) by lia.
Qed.

(** The writes of a probe, undone. *)
Lemma restored_one s a v : cfg_bar a -> 0 <= v < 2 ^ 32 ->
  same_bars s (mkMachine (mc_vm s) (mmio_write 32 a (cfg_reg (mc_dev s) a) (mmio_write 32 a v (mc_dev s)))).
Proof.
  intros Ha Hv. split; [done |]. intros b Hb. cbn [mc_dev]. rewrite cfg_write by (done || by apply cfg_range). destruct (Z.eqb_spec b a) as [-> |Hne].
  - rewrite cfg_write by done. rewrite Z.eqb_refl. apply after_write_back.
  - rewrite cfg_write by done. by rewrite (proj2 (Z.eqb_neq _ _) Hne).
Qed.
Lemma restored_two s a a2 v v2 : cfg_bar a -> cfg_bar a2 -> a2 <> a -> 0 <= v < 2 ^ 32 -> 0 <= v2 < 2 ^ 32 ->
  same_bars s (mkMachine (mc_vm s)
    (mmio_write 32 a2 (cfg_reg (mc_dev s) a2) (mmio_write 32 a (cfg_reg (mc_dev s) a)
      (mmio_write 32 a2 v2 (mmio_write 32 a v (mc_dev s)))))).
Proof.
  intros Ha Ha2 Hne Hv Hv2. split; [done |]. intros b Hb. cbn [mc_dev]. rewrite !cfg_write by (done || by apply cfg_range).
  rewrite !Z.eqb_refl. rewrite (proj2 (Z.eqb_neq a2 a) Hne), (proj2 (Z.eqb_neq a a2)) by done.
  destruct (Z.eqb_spec b a2) as [-> |]; [apply after_write_back |].
  destruct (Z.eqb_spec b a) as [-> |]; [apply after_write_back | done].
Qed.

Lemma read_bar_region (f : Func) (index a a2 next : Z) (bar : Bar) s :
  cfg_ptr f (0x10 + index * 4) = Ret a -> cfg_ptr f (0x10 + index * 4 + 4) = Ret a2 -> a2 <> a ->
  cfg_bar a -> cfg_bar a2 ->
  region index (cfg_reg (mc_dev s) a) (cfg_mask a) (cfg_reg (mc_dev s) a2) (cfg_mask a2) bar next ->
  exists s', read_bar f index s = Ret ((Some bar, next), s') /\ same_bars s s'.
Proof.
  intros Hp Hp2 Hne Hb Hb2 HR. pose proof (cfg_range (mc_dev s) a Hb) as Hr. pose proof (cfg_range (mc_dev s) a2 Hb2) as Hr2.
  assert (Hzero : forall x, Z.land x 1 = 1 \/ Z.land (Z.shiftr x 1) 3 = 2 -> x <> 0) by (intros x [H | H] ->; discriminate H).
  unfold read_bar. rewrite (st_bind_step _ _ _ _ _ (read_u32_bar f _ a s Hp Hb)).
  inversion HR as [k Hk H1 Hm Hal | k Hk H0 H1 Hty Hm Hal | k Hk Hi H1 Hty Hm Hml Hal]; subst bar next; clear HR.
  - rewrite (proj2 (Z.eqb_neq _ _)) by (apply Hzero; by left). rewrite H1. simpl (1 =? 1). cbv match.
    rewrite (st_bind_step _ _ _ _ _ (write_u32_bar f _ a _ s Hp)).
    rewrite (st_bind_step _ _ _ _ _ (read_u32_bar f _ a _ Hp Hb)). cbn [mc_dev]. rewrite cfg_write, Z.eqb_refl by done.
    rewrite (st_bind_step _ _ _ _ _ (write_u32_bar f _ a _ _ Hp)). rewrite Hm, size_io, base_io by (done || lia).
    eexists. split; [reflexivity |]. by apply (restored_one s a _ Hb).
  - rewrite (proj2 (Z.eqb_neq _ _)) by done. rewrite H1. simpl (0 =? 1). cbv match.
    rewrite (proj2 (Z.eqb_neq _ 2) Hty), bar_bit3. cbn [andb].
    rewrite (st_bind_step _ _ _ _ _ (write_u32_bar f _ a _ s Hp)).
    rewrite (st_bind_step _ _ _ _ _ (read_u32_bar f _ a _ Hp Hb)). cbn [mc_dev]. rewrite cfg_write, Z.eqb_refl by done.
    rewrite (st_bind_step _ _ _ _ _ (write_u32_bar f _ a _ _ Hp)). rewrite Hm, size_mem32, base_mem32 by (done || lia).
    eexists. split; [reflexivity |]. by apply (restored_one s a _ Hb).
  - rewrite (proj2 (Z.eqb_neq _ _)) by (apply Hzero; by right). rewrite H1. simpl (0 =? 1). cbv match.
    rewrite Hty, bar_bit3, (proj2 (Z.ltb_lt index 5) Hi). simpl (2 =? 2). cbn [andb].
    rewrite (st_bind_step _ _ _ _ _ (read_u32_bar f _ a2 _ Hp2 Hb2)).
    rewrite (st_bind_step _ _ _ _ _ (write_u32_bar f _ a _ s Hp)).
    rewrite (st_bind_step _ _ _ _ _ (write_u32_bar f _ a2 _ _ Hp2)).
    rewrite (st_bind_step _ _ _ _ _ (read_u32_bar f _ a _ Hp Hb)). cbn [mc_dev].
    rewrite (st_bind_step _ _ _ _ _ (read_u32_bar f _ a2 _ Hp2 Hb2)). cbn [mc_dev].
    rewrite !cfg_write, !Z.eqb_refl, (proj2 (Z.eqb_neq a2 a) Hne), (proj2 (Z.eqb_neq a a2)) by done.
    rewrite (st_bind_step _ _ _ _ _ (write_u32_bar f _ a _ _ Hp)).
    rewrite (st_bind_step _ _ _ _ _ (write_u32_bar f _ a2 _ _ Hp2)).
    rewrite size_mem64 with (k := k), base_mem64 by (done || lia).
    eexists. split; [reflexivity |]. by apply (restored_two s a a2 _ _ Hb Hb2).
Qed.

(** Probing a base address register of a device that behaves as the PCI
    specification says finds the region behind it, its base and its size, for
    I/O regions and for memory regions with 32-bit and with 64-bit addresses,
    and leaves all base address registers as they were. *)
Theorem read_bar_correct (f : Func) (index a a2 next : Z) (bar : Bar) s :
  cfg_ptr f (0x10 + index * 4) = Ret a -> cfg_ptr f (0x10 + index * 4 + 4) = Ret a2 -> a2 <> a ->
  cfg_bar a -> cfg_bar a2 ->
  region index (cfg_reg (mc_dev s) a) (cfg_mask a) (cfg_reg (mc_dev s) a2) (cfg_mask a2) bar next ->
  exists s', read_bar f index s = Ret ((Some bar, next), s') /\ mc_vm s' = mc_vm s /\
    forall b, cfg_bar b -> cfg_reg (mc_dev s') b = cfg_reg (mc_dev s) b.
Proof. intros Hp Hp2 Hne Hb Hb2 HR. exact (read_bar_region f index a a2 next bar s Hp Hp2 Hne Hb Hb2 HR). Qed.
End Probe.

(** A device with one region: 16 KiB of memory with 64-bit addresses, at
    0x8_FE00_4000. *)
Module DemoFunc.
Definition base : Z := 0xB0000000 + HHDM_OFFSET.
Definition demo_mask (a : Z) : Z := if a =? base + 0x10 then 0xFFFFC000 else 0xFFFFFFFF.
#[local] Instance demo_mmio : Mmio (Z -> Z) := {|
  mmio_read bits a w := (w a mod 2 ^ 32, w);
  mmio_write bits a v w := fun b => if b =? a then after_write (demo_mask a) (w a mod 2 ^ 32) v else w b;
  dev_run m w := (m, w)
|}.
#[local] Program Instance demo_config : ConfigSpace (Z -> Z) := {|
  cfg_reg w a := w a mod 2 ^ 32;
  cfg_mask := demo_mask;
  cfg_bar a := a = base + 0x10 \/ a = base + 0x14
|}.
Next Obligation. done. Qed.
Next Obligation.
  intros w a v b _ _ Hv. cbn. destruct (b =? a); [| done]. apply Z.mod_small.
  apply after_write_range; [lia | | apply Z.mod_pos_bound; lia]. unfold demo_mask. by destruct (a =? base + 0x10).
Qed.
Next Obligation. intros w a _. apply Z.mod_pos_bound. lia. Qed.

Definition regs : Z -> Z := fun a => if a =? base + 0x10 then 0xFE004004 else if a =? base + 0x14 then 8 else 0.
End DemoFunc.

Definition demo_machine : Machine unit (Z -> Z) := mkMachine (mkVmm (fun _ => 0) tt None 0 0) DemoFunc.regs.
Lemma read_bar_correct_witness :
  exists s', read_bar (MIO := DemoFunc.demo_mmio) (mkFunc 0xB0000000 0 0 0) 0 demo_machine
  = Ret ((Some (mkBar 0x8FE004000 0x4000 false false), 2), s').
Proof.
  edestruct (read_bar_correct (CS := DemoFunc.demo_config) (mkFunc 0xB0000000 0 0 0) 0 (DemoFunc.base + 0x10) (DemoFunc.base + 0x14)
    2 (mkBar 0x8FE004000 0x4000 false false) demo_machine) as (s' & E & _); [reflexivity | reflexivity | done | by left | by right | |].
  - change (mkBar 0x8FE004000 0x4000 false false) with (mkBar (words 8 0xFE004004 - words 8 0xFE004004 mod 16) (2 ^ 14) false (Z.testbit 0xFE004004 3)).
    apply (RegionMem64 0 0xFE004004 0xFFFFC000 8 0xFFFFFFFF 14); (reflexivity || lia).
  - exists s'. exact E.
Defined.
