(* ===== verification/Nvme.v ===== *)
(** * NVMe driver

    [kernel/src/drivers/nvme/mod.rs]: queues in memory that the processor and
    the controller share, commands with one page of data, completions found by
    polling.  The loops that wait for the controller take the number of polls
    they may make.  The lines written to the serial port are left out. *)

From S2P Require Import Prelude Bytes Frames BootInfo X86 Vmm Block Machine Pci.

Definition REG_CAP : Z := 0x00.
Definition REG_CC : Z := 0x14.
Definition REG_CSTS : Z := 0x1C.
Definition REG_AQA : Z := 0x24.
Definition REG_ASQ : Z := 0x28.
Definition REG_ACQ : Z := 0x30.
Definition CC_EN : Z := 1.
Definition CC_IOSQES_6 : Z := Z.shiftl 6 16.
Definition CC_IOCQES_4 : Z := Z.shiftl 4 20.
Definition CSTS_RDY : Z := 1.
Definition ADMIN_Q_DEPTH : Z := 64.
Definition IO_Q_DEPTH : Z := 64.

(** ** Commands and completions *)

(** The fields the driver sets; the others are zero in every command. *)
Record SubmissionEntry : Type := mkSubmission {
  cdw0 : Z; nsid : Z; prp1 : Z; cdw10 : Z; cdw11 : Z; cdw12 : Z }.
Definition submission_zero : SubmissionEntry := mkSubmission 0 0 0 0 0 0.
(** The 64 bytes of an entry. *)
Definition submission_bytes (c : SubmissionEntry) : list Z :=
  le_bytes 4 (cdw0 c) ++ le_bytes 4 (nsid c) ++ replicate 8 0 ++ le_bytes 8 0 ++ le_bytes 8 (prp1 c) ++ le_bytes 8 0
  ++ le_bytes 4 (cdw10 c) ++ le_bytes 4 (cdw11 c) ++ le_bytes 4 (cdw12 c) ++ le_bytes 4 0 ++ le_bytes 4 0 ++ le_bytes 4 0.

(** [cdw0] and [status] of a completion. *)
Definition cqe_cdw0 (m : PhysMem) (a : Z) : Z := le_val (load m a 4).
Definition cqe_status (m : PhysMem) (a : Z) : Z := le_val (load m (a + 14) 2).

(** ** State *)

Record Queue : Type := mkQueue {
  sq_phys : Z; cq_phys : Z; sq_depth : Z; cq_depth : Z; sq_tail : Z; cq_head : Z; q_phase : Z;
  doorbell_sq : Z; doorbell_cq : Z; next_cid : Z }.
Record Controller : Type := mkController {
  ct_mmio : Z; ct_admin : Queue; ct_io : option Queue; doorbell_stride : Z }.

(** The namespace with the controller it locks, on the machine. *)
Record Nvme (A W : Type) : Type := mkNvme {
  ns_controller : Controller; ns_nsid : Z; ns_lba_bytes : Z; ns_block_count : Z; ns_machine : Machine A W }.
Arguments mkNvme {A W} _ _ _ _ _.
Arguments ns_controller {A W} _.
Arguments ns_nsid {A W} _.
Arguments ns_lba_bytes {A W} _.
Arguments ns_block_count {A W} _.
Arguments ns_machine {A W} _.

Section Nvme.
  Context {A W : Type} {FA : FrameAllocator A} {PE : PageTableEntry} {MIO : Mmio W}.
  (** How often a loop that waits for the controller may poll. *)
  Variable polls : nat.
Abbreviation M X := (MM (A := A) (W := W) X).

(** ** Queues *)

Definition sq_slot (q : Queue) (i : Z) : Z := sq_phys q + 64 * i.
Definition cq_slot (q : Queue) (i : Z) : Z := cq_phys q + 16 * i.
(** [a % b] of unsigned integers. *)
Definition urem (a b : Z) : outcome Z := if b =? 0 then Panic else Ret (a mod b).

(** The loop of [submit_sync] that waits for the phase of the head entry. *)
Fixpoint poll_completion (fuel : nat) (q : Queue) : M (Z * Z * Queue) :=
  match fuel with
  | O => st_lift OutOfFuel
  | S fuel =>
      let* _ := dev_turn in
      let* m := on_vm get_mem in
      let cqe := cq_slot q (cq_head q) in
      if Z.land (cqe_status m cqe) 1 =? q_phase q then
        let status := Z.shiftr (cqe_status m cqe) 1 in
        let cdw0 := cqe_cdw0 m cqe in
        let* h := st_lift (let! n := checked 32 (cq_head q + 1) in urem n (cq_depth q)) in
        let phase := if h =? 0 then Z.lxor (q_phase q) 1 else q_phase q in
        let* _ := reg_write 32 (doorbell_cq q) h in
        st_ret (cdw0, status, mkQueue (sq_phys q) (cq_phys q) (sq_depth q) (cq_depth q) (sq_tail q) h phase
                                (doorbell_sq q) (doorbell_cq q) (next_cid q))
      else poll_completion fuel q
  end.

Definition submit_sync (q : Queue) (cmd : SubmissionEntry) : M (Z * Z * Queue) :=
  let cid := next_cid q in
  let cmd := mkSubmission (Z.lor (Z.land (cdw0 cmd) 0x0000FFFF) (Z.shiftl cid 16)) (nsid cmd) (prp1 cmd)
               (cdw10 cmd) (cdw11 cmd) (cdw12 cmd) in
  let slot := sq_tail q in
  let* _ := mem_store (sq_slot q slot) (submission_bytes cmd) in
  let* t := st_lift (let! n := checked 32 (sq_tail q + 1) in urem n (sq_depth q)) in
  let* _ := reg_write 32 (doorbell_sq q) t in
  poll_completion polls (mkQueue (sq_phys q) (cq_phys q) (sq_depth q) (cq_depth q) t (cq_head q) (q_phase q)
                           (doorbell_sq q) (doorbell_cq q) (wrap 16 (cid + 1))).

(** ** The block device *)

(** [BlockDevice for NvmeNs]: code that runs on the machine and the queue. *)
Definition NS (X : Type) : Type := ST (Nvme A W) X.
Definition on_machine {X} (c : M X) : NS X := fun d =>
  let! (x, s) := c (ns_machine d) in
  Ret (x, mkNvme (ns_controller d) (ns_nsid d) (ns_lba_bytes d) (ns_block_count d) s).
(** [g.io.as_mut().ok_or(Io)?] and [submit_sync], as the status. *)
Definition submit_io (cmd : SubmissionEntry) : NS (result Z BlockError) := fun d =>
  let c := ns_controller d in
  match ct_io c with
  | None => Ret (Err BlkIo, d)
  | Some io =>
      let! (_, status, io, s) := submit_sync io cmd (ns_machine d) in
      Ret (Ok status, mkNvme (mkController (ct_mmio c) (ct_admin c) (Some io) (doorbell_stride c))
                        (ns_nsid d) (ns_lba_bytes d) (ns_block_count d) s)
  end.

(** The checks both directions begin with: an answer, or the number of blocks. *)
Definition is_multiple_of (a b : Z) : bool := if b =? 0 then a =? 0 else a mod b =? 0.
Definition check_request (d : Nvme A W) (lba len : Z) : outcome (result Z (result unit BlockError)) :=
  if negb (is_multiple_of len (ns_lba_bytes d)) then Ret (Err (Err BadLength))
  else if ns_lba_bytes d =? 0 then Panic
  else
    let nblocks := wrap 32 (len / ns_lba_bytes d) in
    if nblocks =? 0 then Ret (Err (Ok tt))
    else if ns_block_count d <? Z.min (lba + nblocks) (2 ^ 64 - 1) then Ret (Err (Err OutOfRange))
    else if PAGE_SIZE <? len then Ret (Err (Err BlkUnsupported))
    else Ret (Ok nblocks).

Definition io_command (opcode ns frame lba nblocks : Z) : SubmissionEntry :=
  mkSubmission opcode ns frame (wrap 32 lba) (wrap 32 (Z.shiftr lba 32)) (nblocks - 1).

Definition nvme_read_blocks (lba len : Z) : NS (result (list Z) BlockError) := fun d =>
  let! c := check_request d lba len in
  match c with
  | Err (Err e) => Ret (Err e, d)
  | Err (Ok _) => Ret (Ok (replicate (Z.to_nat len) 0), d)
  | Ok nblocks =>
      (let* f := on_machine mc_alloc in
       match f with
       | None => st_ret (Err BlkIo)
       | Some frame =>
           let* result :=
             (let? status := submit_io (io_command 0x02 (ns_nsid d) frame lba nblocks) in
              if negb (status =? 0) then st_ret (Err BlkIo)
              else let* data := on_machine (mem_load frame (Z.to_nat len)) in st_ret (Ok data)) in
           let* _ := on_machine (mc_free frame) in
           st_ret result
       end) d
  end.

Definition nvme_write_blocks (lba : Z) (buf : list Z) : NS (result unit BlockError) := fun d =>
  let! c := check_request d lba (zlen buf) in
  match c with
  | Err r => Ret (r, d)
  | Ok nblocks =>
      (let* f := on_machine mc_alloc in
       match f with
       | None => st_ret (Err BlkIo)
       | Some frame =>
           let* _ := on_machine (mem_store frame buf) in
           let? status := submit_io (io_command 0x01 (ns_nsid d) frame lba nblocks) in
           let* _ := on_machine (mc_free frame) in
           st_ret (if negb (status =? 0) then Err BlkIo else Ok tt)
       end) d
  end.

#[export] Instance nvme_device : BlockDevice (Nvme A W) := {|
  block_size := ns_lba_bytes;
  block_count := ns_block_count;
  read_blocks := nvme_read_blocks;
  write_blocks := nvme_write_blocks
|}.

(** ** Bringing the controller up *)

Definition ctrl_read (bits mmio off : Z) : M Z := let* a := reg_addr mmio off in reg_read bits a.
Definition ctrl_write (bits mmio off v : Z) : M unit := let* a := reg_addr mmio off in reg_write bits a v.

Definition doorbell (mmio stride qid : Z) (completion : bool) : M Z :=
  let idx := qid * 2 + (if completion then 1 else 0) in
  reg_addr mmio (0x1000 + idx * (Z.shiftl 1 stride * 4)).

Definition dummy_queue : Queue := mkQueue 0 0 0 0 0 0 0 0 0 0.

(** [while read32(REG_CSTS) & CSTS_RDY != 0] and its converse, which gives up
    after a hundred million turns. *)
Fixpoint wait_disabled (fuel : nat) (mmio : Z) : M unit :=
  match fuel with
  | O => st_lift OutOfFuel
  | S fuel =>
      let* csts := ctrl_read 32 mmio REG_CSTS in
      if Z.land csts CSTS_RDY =? 0 then st_ret tt
      else let* _ := dev_turn in wait_disabled fuel mmio
  end.
Fixpoint wait_ready (fuel : nat) (mmio spins : Z) : M bool :=
  match fuel with
  | O => st_lift OutOfFuel
  | S fuel =>
      let* csts := ctrl_read 32 mmio REG_CSTS in
      if negb (Z.land csts CSTS_RDY =? 0) then st_ret true
      else
        let* _ := dev_turn in
        if 100000000 <? spins + 1 then st_ret false else wait_ready fuel mmio (spins + 1)
  end.

(** A new frame, or the rest is skipped. *)
Definition with_frame {X} (k : Z -> M (option X)) : M (option X) :=
  let* f := mc_alloc in
  match f with None => st_ret None | Some a => k a end.

Definition bring_up (mmio : Z) : M (option Controller) :=
  let* cc := ctrl_read 32 mmio REG_CC in
  let* _ := (if negb (Z.land cc CC_EN =? 0) then
               let* _ := ctrl_write 32 mmio REG_CC (Z.ldiff cc CC_EN) in
               wait_disabled polls mmio
             else st_ret tt) in
  let* cap := ctrl_read 64 mmio REG_CAP in
  let stride := Z.land (Z.shiftr cap 32) 0xF in
  let mqes := Z.land cap 0xFFFF + 1 in
  let adm_depth := Z.min ADMIN_Q_DEPTH mqes in
  with_frame (fun asq => with_frame (fun acq =>
    let* _ := mem_zero asq PAGE_SIZE in
    let* _ := mem_zero acq PAGE_SIZE in
    let* _ := ctrl_write 32 mmio REG_AQA (Z.lor (Z.shiftl (adm_depth - 1) 16) (adm_depth - 1)) in
    let* _ := ctrl_write 64 mmio REG_ASQ asq in
    let* _ := ctrl_write 64 mmio REG_ACQ acq in
    let* dsq := doorbell mmio stride 0 false in
    let* dcq := doorbell mmio stride 0 true in
    let admin := mkQueue asq acq adm_depth adm_depth 0 0 1 dsq dcq 0 in
    let* _ := ctrl_write 32 mmio REG_CC (Z.lor (Z.lor CC_IOSQES_6 CC_IOCQES_4) CC_EN) in
    let* ready := wait_ready polls mmio 0 in
    st_ret (if ready then Some (mkController mmio admin None stride) else None))).

Definition with_admin (c : Controller) (q : Queue) : Controller := mkController (ct_mmio c) q (ct_io c) (doorbell_stride c).
(** [ctrl.admin.submit_sync(cmd)], as the status. *)
Definition submit_admin (c : Controller) (cmd : SubmissionEntry) : M (Z * Controller) :=
  let* (_, status, q) := submit_sync (ct_admin c) cmd in
  st_ret (status, with_admin c q).

Definition identify_controller (c : Controller) : M (option Controller) :=
  with_frame (fun buf =>
    let* _ := mem_zero buf PAGE_SIZE in
    let* (status, c) := submit_admin c (mkSubmission 0x06 0 buf 1 0 0) in
    let* _ := mc_free buf in
    st_ret (if negb (status =? 0) then None else Some c)).

(** The fields of the namespace structure. *)
Definition namespace_geometry (raw : list Z) : outcome (Z * Z) :=
  let! n := slice raw 0 8 in
  let nsze := le_val n in
  let! b := idx raw 26 in
  let flbas := Z.land b 0xF in
  let! lbads := idx raw (128 + flbas * 4 + 2) in
  if 32 <=? lbads then Panic else Ret (Z.shiftl 1 lbads, nsze).

Definition identify_namespace (c : Controller) : M (option (Z * Z * Z * Controller)) :=
  with_frame (fun buf =>
    let* _ := mem_zero buf PAGE_SIZE in
    let* (status, c) := submit_admin c (mkSubmission 0x06 0 buf 2 0 0) in
    if negb (status =? 0) then let* _ := mc_free buf in st_ret None
    else
      let* l := mem_load buf 4 in
      let nsid := le_val l in
      let* _ := mc_free buf in
      if nsid =? 0 then st_ret None
      else with_frame (fun ns_buf =>
        let* _ := mem_zero ns_buf PAGE_SIZE in
        let* (status, c) := submit_admin c (mkSubmission 0x06 nsid ns_buf 0 0 0) in
        if negb (status =? 0) then let* _ := mc_free ns_buf in st_ret None
        else
          let* raw := mem_load ns_buf 4096 in
          let* (lba_bytes, nsze) := st_lift (namespace_geometry raw) in
          let* _ := mc_free ns_buf in
          st_ret (Some (nsid, lba_bytes, nsze, c)))).

Definition create_io_queues (c : Controller) : M (option Controller) :=
  with_frame (fun cq => with_frame (fun sq =>
    let* _ := mem_zero cq PAGE_SIZE in
    let* _ := mem_zero sq PAGE_SIZE in
    let depth := IO_Q_DEPTH in
    let size := Z.lor (Z.shiftl (depth - 1) 16) 1 in
    let* (status, c) := submit_admin c (mkSubmission 0x05 0 cq size 1 0) in
    if negb (status =? 0) then st_ret None
    else
      let* (status, c) := submit_admin c (mkSubmission 0x01 0 sq size (Z.lor (Z.shiftl 1 16) 1) 0) in
      if negb (status =? 0) then st_ret None
      else
        let* dsq := doorbell (ct_mmio c) (doorbell_stride c) 1 false in
        let* dcq := doorbell (ct_mmio c) (doorbell_stride c) 1 true in
        st_ret (Some (mkController (ct_mmio c) (ct_admin c) (Some (mkQueue sq cq depth depth 0 0 1 dsq dcq 0))
                        (doorbell_stride c))))).

(** Code that gives up with [None]. *)
Definition opt_bind {X Y} (c : M (option X)) (k : X -> M (option Y)) : M (option Y) :=
  let* r := c in match r with None => st_ret None | Some x => k x end.

(** [init_from_pci], with the controller, namespace, block size and number of
    blocks it registers; the product in the last message can overflow. *)
Definition nvme_init_from_pci (DEVICES : list Device) : M (option (Controller * Z * Z * Z)) :=
  match find_class DEVICES 0x01 0x08 0x02 with
  | None => st_ret None
  | Some dev =>
      let* b := st_lift (idx (d_bars dev) 0) in
      match b with
      | None => st_ret None
      | Some bar0 =>
          if bar_io bar0 || (bar_size bar0 <? 0x2000) then st_ret None
          else
            let* _ := enable_mmio_bus_master dev in
            let* r := on_vm (map_mmio (bar_base bar0) (bar_size bar0)) in
            match r with
            | Err _ => st_ret None
            | Ok mmio =>
                opt_bind (bring_up mmio) (fun c =>
                opt_bind (identify_controller c) (fun c =>
                opt_bind (identify_namespace c) (fun '(nsid, lba_bytes, count, c) =>
                opt_bind (create_io_queues c) (fun c =>
                let* _ := st_lift (checked 64 (count * lba_bytes)) in
                st_ret (Some (c, nsid, lba_bytes, count))))))
            end
      end
  end.
End Nvme.

(** ** An NVMe controller

    What the driver relies on of the hardware, after the NVM Express base
    specification: one submission and one completion queue in memory with their
    doorbells, and the commands Read and Write on a namespace, with a single
    page of data.  [demo_nvme] is a controller that behaves so. *)

(** ** State *)

Record NvmeHw : Type := mkHw {
  hw_sq : Z; hw_cq : Z; hw_depth : Z;
  hw_head : Z;              (* the next command to fetch *)
  hw_tail : Z;              (* the next completion to post *)
  hw_phase : Z;             (* the phase tag of the completions posted now *)
  hw_busy : option nat;     (* a command was submitted; turns until it is done *)
  hw_nsid : Z; hw_lba : Z; hw_count : Z;
  hw_data : Z -> list Z     (* the logical blocks *)
}.
Definition with_busy (h : NvmeHw) (b : option nat) : NvmeHw :=
  mkHw (hw_sq h) (hw_cq h) (hw_depth h) (hw_head h) (hw_tail h) (hw_phase h) b (hw_nsid h) (hw_lba h) (hw_count h) (hw_data h).
(** A command has been completed: both indices advance, and the phase changes
    when the completion queue wraps. *)
Definition completed (h : NvmeHw) (data : Z -> list Z) : NvmeHw :=
  let t := (hw_tail h + 1) mod hw_depth h in
  mkHw (hw_sq h) (hw_cq h) (hw_depth h) ((hw_head h + 1) mod hw_depth h) t
    (if t =? 0 then 1 - hw_phase h else hw_phase h) None (hw_nsid h) (hw_lba h) (hw_count h) data.

(** ** Commands *)

(** The fields of the command at an address. *)
Definition cmd_opcode (m : PhysMem) (a : Z) : Z := m a.
Definition cmd_cid (m : PhysMem) (a : Z) : Z := le_val (load m (a + 2) 2).
Definition cmd_nsid (m : PhysMem) (a : Z) : Z := le_val (load m (a + 4) 4).
Definition cmd_prp1 (m : PhysMem) (a : Z) : Z := le_val (load m (a + 24) 8).
Definition cmd_slba (m : PhysMem) (a : Z) : Z := le_val (load m (a + 40) 8).
Definition cmd_nlb (m : PhysMem) (a : Z) : Z := le_val (load m (a + 48) 2) + 1.

(** Logical blocks as bytes, and bytes as logical blocks. *)
Definition get_blocks (data : Z -> list Z) (slba nlb : Z) : list Z := seqZ slba nlb ≫= data.
Definition put_blocks (data : Z -> list Z) (lba slba nlb : Z) (bytes : list Z) : Z -> list Z := fun i =>
  if (slba <=? i) && (i <? slba + nlb) then take (Z.to_nat lba) (drop (Z.to_nat ((i - slba) * lba)) bytes) else data i.

Definition cmd_at (h : NvmeHw) : Z := hw_sq h + 64 * hw_head h.
(** The command can be carried out. *)
Definition cmd_valid (h : NvmeHw) (m : PhysMem) : bool :=
  let a := cmd_at h in
  ((cmd_opcode m a =? 1) || (cmd_opcode m a =? 2)) && (cmd_nsid m a =? hw_nsid h) && (cmd_prp1 m a mod 4096 =? 0)
  && (cmd_nlb m a * hw_lba h <=? 4096) && (cmd_slba m a + cmd_nlb m a <=? hw_count h).
(** The memory a pending command may change before it is completed. *)
Definition in_transfer (h : NvmeHw) (m : PhysMem) (x : Z) : Prop :=
  let a := cmd_at h in
  cmd_valid h m = true /\ cmd_opcode m a = 2 /\ cmd_prp1 m a <= x < cmd_prp1 m a + cmd_nlb m a * hw_lba h.

(** A completion entry for a command with a status. *)
Definition completion (phase cid status : Z) (cqe : list Z) : Prop :=
  length cqe = 16%nat /\ Forall byte_ok cqe /\
  le_val (take 2 (drop 12 cqe)) = cid /\ le_val (take 2 (drop 14 cqe)) = 2 * status + phase.

(** ** Behaviour *)

Definition post (h : NvmeHw) (m : PhysMem) (cqe : list Z) : PhysMem := store m (hw_cq h + 16 * hw_tail h) cqe.

Inductive nvme_step : PhysMem * NvmeHw -> PhysMem * NvmeHw -> Prop :=
  | StepIdle m h : hw_busy h = None -> nvme_step (m, h) (m, h)
  | StepWork m m' h n :
      hw_busy h = Some (S n) -> mem_ok m' -> (forall x, ~ in_transfer h m x -> m' x = m x) ->
      nvme_step (m, h) (m', with_busy h (Some n))
  | StepRead m h cqe :
      hw_busy h = Some O -> cmd_valid h m = true -> cmd_opcode m (cmd_at h) = 2 ->
      completion (hw_phase h) (cmd_cid m (cmd_at h)) 0 cqe ->
      let data := get_blocks (hw_data h) (cmd_slba m (cmd_at h)) (cmd_nlb m (cmd_at h)) in
      nvme_step (m, h) (post h (store m (cmd_prp1 m (cmd_at h)) data) cqe, completed h (hw_data h))
  | StepWrite m h cqe :
      hw_busy h = Some O -> cmd_valid h m = true -> cmd_opcode m (cmd_at h) = 1 ->
      completion (hw_phase h) (cmd_cid m (cmd_at h)) 0 cqe ->
      let n := cmd_nlb m (cmd_at h) in
      let bytes := load m (cmd_prp1 m (cmd_at h)) (Z.to_nat (n * hw_lba h)) in
      nvme_step (m, h) (post h m cqe, completed h (put_blocks (hw_data h) (hw_lba h) (cmd_slba m (cmd_at h)) n bytes))
  | StepFail m h cqe status :
      hw_busy h = Some O -> cmd_valid h m = false -> 0 < status < 2 ^ 15 ->
      completion (hw_phase h) (cmd_cid m (cmd_at h)) status cqe ->
      nvme_step (m, h) (post h m cqe, completed h (hw_data h)).

(** The controller behind the registers.  [nv_latency] bounds the turns it
    takes for a command. *)
Class NvmeController (W : Type) `{Mmio W} : Type := {
  nv_hw : W -> NvmeHw;
  nv_db_sq : Z;
  nv_db_cq : Z;
  nv_latency : nat;
  nv_run m w : mem_ok m -> nvme_step (m, nv_hw w) ((dev_run m w).1, nv_hw (dev_run m w).2);
  nv_ring w v : hw_busy (nv_hw w) = None -> v = (hw_head (nv_hw w) + 1) mod hw_depth (nv_hw w) ->
    exists n, (n <= nv_latency)%nat /\ nv_hw (mmio_write 32 nv_db_sq v w) = with_busy (nv_hw w) (Some n);
  nv_ack w v : nv_hw (mmio_write 32 nv_db_cq v w) = nv_hw w
}.

(** ** A controller *)

(** It takes three turns for a command, and reports an invalid one with
    status 2 (Invalid Field in Command). *)
Definition demo_exec (m : PhysMem) (h : NvmeHw) : PhysMem * NvmeHw :=
  let a := cmd_at h in
  let cqe status := replicate 8 0 ++ le_bytes 2 ((hw_head h + 1) mod hw_depth h) ++ le_bytes 2 1 ++ load m (a + 2) 2
                    ++ le_bytes 2 (2 * status + hw_phase h) in
  if negb (cmd_valid h m) then (post h m (cqe 2), completed h (hw_data h))
  else if cmd_opcode m a =? 2 then
    (post h (store m (cmd_prp1 m a) (get_blocks (hw_data h) (cmd_slba m a) (cmd_nlb m a))) (cqe 0), completed h (hw_data h))
  else
    (post h m (cqe 0), completed h (put_blocks (hw_data h) (hw_lba h) (cmd_slba m a) (cmd_nlb m a)
                                     (load m (cmd_prp1 m a) (Z.to_nat (cmd_nlb m a * hw_lba h))))).
Definition DEMO_SQ_DB : Z := 0xFFFF900000001008.
Definition DEMO_CQ_DB : Z := 0xFFFF90000000100C.
(** The phase tag is a bit. *)
Definition demo_norm (h : NvmeHw) : NvmeHw :=
  mkHw (hw_sq h) (hw_cq h) (hw_depth h) (hw_head h) (hw_tail h) (hw_phase h mod 2) (hw_busy h) (hw_nsid h) (hw_lba h) (hw_count h) (hw_data h).

#[export] Instance demo_nvme_mmio : Mmio NvmeHw := {|
  mmio_read bits a h := (0, h);
  mmio_write bits a v h := if a =? DEMO_SQ_DB then with_busy h (Some 3%nat) else h;
  dev_run m h :=
    let h := demo_norm h in
    match hw_busy h with
    | None => (m, h)
    | Some (S n) => (m, with_busy h (Some n))
    | Some O => demo_exec m h
    end
|}.

Lemma demo_completion (m : PhysMem) (h : NvmeHw) (status : Z) :
  mem_ok m -> 0 <= hw_phase h < 2 -> 0 <= status < 2 ^ 15 ->
  completion (hw_phase h) (cmd_cid m (cmd_at h)) status
    (replicate 8 0 ++ le_bytes 2 ((hw_head h + 1) mod hw_depth h) ++ le_bytes 2 1 ++ load m (cmd_at h + 2) 2
     ++ le_bytes 2 (2 * status + hw_phase h)).
Proof.
  intros Hm Hp Hs. unfold completion. split_and!; [done | | done |].
  - rewrite !Forall_app. split_and!; [by apply Forall_replicate | apply le_bytes_ok | apply le_bytes_ok | by apply load_ok | apply le_bytes_ok].
  - change (take 2 (drop 14 _)) with (le_bytes 2 (2 * status + hw_phase h)). apply le_val_bytes. simpl. lia.
Qed.

Lemma demo_norm_completed (h : NvmeHw) data : 0 <= hw_phase h < 2 -> demo_norm (completed h data) = completed h data.
Proof.
  intros Hp. unfold demo_norm, completed. simpl. f_equal. rewrite Z.mod_small; [done |]. destruct (_ =? 0); lia.
Qed.

#[export] Program Instance demo_nvme : NvmeController NvmeHw := {|
  nv_hw := demo_norm;
  nv_db_sq := DEMO_SQ_DB;
  nv_db_cq := DEMO_CQ_DB;
  nv_latency := 3
|}.
Next Obligation.
  intros m w Hm. cbn [dev_run demo_nvme_mmio]. cbv zeta. set (h := demo_norm w).
  assert (Hp : 0 <= hw_phase h < 2) by (apply Z.mod_pos_bound; lia).
  assert (Hn : forall b, demo_norm (with_busy h b) = with_busy h b) by (intros b; unfold demo_norm, with_busy; simpl; by rewrite Zmod_mod).
  assert (Hn' : demo_norm h = h) by (unfold demo_norm, h; simpl; by rewrite Zmod_mod).
  destruct (hw_busy h) as [[| n] |] eqn:Eb; cbn [fst snd].
  - unfold demo_exec. cbv zeta. destruct (cmd_valid h m) eqn:Ev; cbn [negb].
    + destruct (Z.eqb_spec (cmd_opcode m (cmd_at h)) 2) as [Eo | Eo]; cbn [fst snd]; rewrite demo_norm_completed by done.
      * apply StepRead; [done .. |]. by apply demo_completion.
      * apply StepWrite; [done .. | |].
        -- unfold cmd_valid in Ev. rewrite !andb_true_iff, orb_true_iff, !Z.eqb_eq in Ev. tauto.
        -- by apply demo_completion.
    + cbn [fst snd]. rewrite demo_norm_completed by done. apply (StepFail _ _ _ 2); [done .. |]. by apply demo_completion.
  - rewrite Hn. apply (StepWork _ _ _ n); done.
  - rewrite Hn'. by apply StepIdle.
Qed.
Next Obligation. intros w v _ _. exists 3%nat. split; [done |]. reflexivity. Qed.
Next Obligation. intros w v. reflexivity. Qed.
