(* ===== verification/NvmeProps.v ===== *)
(** * The NVMe driver is a block device

    The queue protocol of [Nvme.v] against its controller:
    commands reach the controller, completions are recognised by their phase
    across the wrap of the queue, and reads and writes do to the blocks what
    the file systems rely on ([Disk] of [Block.v]). *)

From S2P Require Import Prelude Bytes Frames BootInfo Pmm X86 Vmm VmmSpec Machine Pci Block Nvme.

(** ** Bytes in memory *)

Lemma le_val_app (l1 l2 : list Z) : le_val (l1 ++ l2) = le_val l1 + 256 ^ zlen l1 * le_val l2.
Proof.
  unfold zlen. induction l1 as [| b l1 IH]; cbn [app le_val length]; [simpl; lia |].
  rewrite Nat2Z.inj_succ, Z.pow_succ_r, IH by lia. lia.
Qed.

Lemma load_store_part (m : PhysMem) (a : Z) (l : list Z) (k n : nat) :
  (k + n <= length l)%nat -> load (store m a l) (a + Z.of_nat k) n = take n (drop k l).
Proof.
  intros H. apply list_eq. intros i. unfold load. rewrite list_lookup_fmap.
  destruct (decide (i < n)%nat) as [Hi | Hi].
  - rewrite lookup_seq_lt by done. cbn. rewrite lookup_take_lt by done. rewrite lookup_drop.
    destruct (lookup_lt_is_Some_2 l (k + i)) as [b Hb]; [lia |]. rewrite Hb. f_equal. unfold store, zlen.
    rewrite (proj2 (Z.leb_le _ _)), (proj2 (Z.ltb_lt _ _)) by lia. cbn [andb].
    replace (Z.to_nat (a + Z.of_nat k + Z.of_nat i - a)) with (k + i)%nat by lia.
    by apply nth_lookup_Some.
  - rewrite lookup_seq_ge by lia. rewrite lookup_take_ge by lia. done.
Qed.

Lemma load_app_frame (m m' : PhysMem) (a n : Z) : (forall x, a <= x < a + n -> m' x = m x) -> load m' a (Z.to_nat n) = load m a (Z.to_nat n).
Proof. intros H. apply load_ext. intros x Hx. apply H. lia. Qed.

(** ** The command the driver writes *)

Definition cmd_is (m : PhysMem) (a op ns f slba nlb : Z) : Prop :=
  cmd_opcode m a = op /\ cmd_nsid m a = ns /\ cmd_prp1 m a = f /\ cmd_slba m a = slba /\ cmd_nlb m a = nlb.

Lemma cmd_is_ext (m m' : PhysMem) (a op ns f slba nlb : Z) :
  (forall x, a <= x < a + 64 -> m' x = m x) -> cmd_is m a op ns f slba nlb -> cmd_is m' a op ns f slba nlb.
Proof.
  intros He (H1 & H2 & H3 & H4 & H5). unfold cmd_is, cmd_opcode, cmd_nsid, cmd_prp1, cmd_slba, cmd_nlb in *.
  rewrite He by lia. split_and!; [done | rewrite <- H2 | rewrite <- H3 | rewrite <- H4 | rewrite <- H5; f_equal];
    f_equal; apply load_ext; intros x Hx; apply He; simpl in Hx; lia.
Qed.

Definition with_cid (c : SubmissionEntry) (cid : Z) : SubmissionEntry :=
  mkSubmission (Z.lor (Z.land (cdw0 c) 0x0000FFFF) (Z.shiftl cid 16)) (nsid c) (prp1 c) (cdw10 c) (cdw11 c) (cdw12 c).

Lemma opcode_byte (op cid : Z) : 0 <= op < 256 -> 0 <= cid -> Z.lor (Z.land op 0x0000FFFF) (Z.shiftl cid 16) mod 256 = op.
Proof.
  intros Ho Hc. change 0x0000FFFF with (Z.ones 16). rewrite Z.land_ones, (Z.mod_small op) by lia.
  change 256 with (2 ^ 8). rewrite <- Z.land_ones by lia. rewrite Z.land_lor_distr_l. rewrite !Z.land_ones by lia.
  rewrite (Z.mod_small op) by lia. rewrite Z.shiftl_mul_pow2 by lia.
  replace (cid * 2 ^ 16) with (cid * 2 ^ 8 * 2 ^ 8) by lia. rewrite Z.mod_mul by lia. apply Z.lor_0_r.
Qed.

Lemma submission_length (c : SubmissionEntry) : length (submission_bytes c) = 64%nat.
Proof. reflexivity. Qed.

Lemma submitted_cmd (m : PhysMem) (a op ns f lba nlb cid : Z) :
  0 <= op < 256 -> 0 <= cid -> 0 <= ns < 2 ^ 32 -> 0 <= f < 2 ^ 64 -> 0 <= lba < 2 ^ 64 -> 1 <= nlb <= 2 ^ 16 ->
  cmd_is (store m a (submission_bytes (with_cid (io_command op ns f lba nlb) cid))) a op ns f lba nlb.
Proof.
  intros Ho Hc Hns Hf Hl Hn. set (c := with_cid _ cid). pose proof (submission_length c) as Hlen.
  assert (Hpart : forall z k n, z = Z.of_nat k -> (k + n <= 64)%nat ->
            load (store m a (submission_bytes c)) (a + z) n = take n (drop k (submission_bytes c)))
    by (intros ? ? ? -> ?; apply load_store_part; lia).
  unfold cmd_is, cmd_opcode, cmd_nsid, cmd_prp1, cmd_slba, cmd_nlb. split_and!.
  - specialize (Hpart 0 0%nat 1%nat eq_refl ltac:(lia)). rewrite Z.add_0_r in Hpart. unfold load in Hpart. cbn [seq fmap list_fmap] in Hpart.
    rewrite Z.add_0_r in Hpart. injection Hpart as ->. by apply opcode_byte.
  - rewrite (Hpart 4 4%nat 4%nat) by lia. change (take 4 (drop 4 (submission_bytes c))) with (le_bytes 4 ns). by apply le_val_bytes.
  - rewrite (Hpart 24 24%nat 8%nat) by lia. change (take 8 (drop 24 (submission_bytes c))) with (le_bytes 8 f). by apply le_val_bytes.
  - rewrite (Hpart 40 40%nat 8%nat) by lia.
    change (take 8 (drop 40 (submission_bytes c))) with (le_bytes 4 (wrap 32 lba) ++ le_bytes 4 (wrap 32 (Z.shiftr lba 32))).
    rewrite le_val_app. unfold zlen. rewrite le_bytes_length.
    rewrite !le_val_bytes by (unfold wrap; apply Z.mod_pos_bound; lia). unfold wrap.
    rewrite Z.shiftr_div_pow2 by lia. rewrite (Z.mod_small (lba / 2 ^ 32)) by (split; [apply Z.div_pos; lia | apply Z.div_lt_upper_bound; lia]).
    pose proof (Z.div_mod lba (2 ^ 32)). change (256 ^ Z.of_nat 4) with (2 ^ 32). lia.
  - rewrite (Hpart 48 48%nat 2%nat) by lia. change (take 2 (drop 48 (submission_bytes c))) with (le_bytes 2 (nlb - 1)).
    rewrite le_val_bytes by (simpl; lia). lia.
Qed.

(** ** The queues *)

(** The driver's view of its queue and the controller's agree.  A completion
    slot below the head carries the current phase, the others the one before. *)
Record queue_ok (m : PhysMem) (h : NvmeHw) (q : Queue) : Prop := mkQueueOk {
  qo_sq : sq_phys q = hw_sq h;
  qo_cq : cq_phys q = hw_cq h;
  qo_sdepth : sq_depth q = hw_depth h;
  qo_cdepth : cq_depth q = hw_depth h;
  qo_depth : 2 <= hw_depth h <= 64;
  qo_head : 0 <= hw_head h < hw_depth h;
  qo_tail : 0 <= hw_tail h < hw_depth h;
  qo_cq_head : cq_head q = hw_tail h;
  qo_phase : q_phase q = hw_phase h;
  qo_bit : hw_phase h = 0 \/ hw_phase h = 1;
  qo_cid : 0 <= next_cid q < 2 ^ 16;
  qo_sq_frame : frame_addr (hw_sq h);
  qo_cq_frame : frame_addr (hw_cq h);
  qo_distinct : hw_sq h <> hw_cq h;
  qo_mem : mem_ok m;
  qo_slots : forall i, 0 <= i < hw_depth h ->
    Z.land (cqe_status m (hw_cq h + 16 * i)) 1 = if i <? hw_tail h then hw_phase h else 1 - hw_phase h
}.

(** Two frames that differ do not overlap. *)
Lemma frames_apart (f g x : Z) : frame_addr f -> frame_addr g -> f <> g -> f <= x < f + 4096 -> ~ (g <= x < g + 4096).
Proof. intros [_ Hf] [_ Hg] Hne Hx Hy. pose proof (Z.div_mod f 4096). pose proof (Z.div_mod g 4096). lia. Qed.

Lemma cqe_status_ext (m m' : PhysMem) (a : Z) : (forall x, a <= x < a + 16 -> m' x = m x) -> cqe_status m' a = cqe_status m a.
Proof. intros H. unfold cqe_status. f_equal. apply load_ext. intros x Hx. apply H. simpl in Hx. lia. Qed.

(** Nothing of the queues lies outside their pages. *)
Lemma queue_ok_ext (m m' : PhysMem) (h : NvmeHw) (q : Queue) :
  mem_ok m' -> (forall x, hw_cq h <= x < hw_cq h + 4096 -> m' x = m x) -> queue_ok m h q -> queue_ok m' h q.
Proof.
  intros Hm He [? ? ? ? Hd ? ? ? ? ? ? ? ? ? ? Hs]. constructor; try done. intros i Hi. rewrite <- Hs by done.
  f_equal. apply cqe_status_ext. intros x Hx. apply He. lia.
Qed.

(** The queue of the driver after it took a completion. *)
Definition taken (q : Queue) : Queue :=
  let h := (cq_head q + 1) mod cq_depth q in
  mkQueue (sq_phys q) (cq_phys q) (sq_depth q) (cq_depth q) (sq_tail q) h
    (if h =? 0 then Z.lxor (q_phase q) 1 else q_phase q) (doorbell_sq q) (doorbell_cq q) (next_cid q).

Lemma completion_status (m : PhysMem) (a phase cid status : Z) (cqe : list Z) :
  completion phase cid status cqe -> cqe_status (store m a cqe) a = 2 * status + phase.
Proof.
  intros (Hl & _ & _ & Hs). unfold cqe_status. change 14 with (Z.of_nat 14). rewrite load_store_part by lia. done.
Qed.

Lemma land_one (x : Z) : Z.land x 1 = x mod 2.
Proof. change 1 with (Z.ones 1) at 1. by rewrite Z.land_ones by lia. Qed.

Lemma completed_ok (m : PhysMem) (h : NvmeHw) (q : Queue) (data : Z -> list Z) (cid status : Z) (cqe : list Z) :
  queue_ok m h q -> completion (hw_phase h) cid status cqe -> queue_ok (post h m cqe) (completed h data) (taken q).
Proof.
  intros [] Hc. assert (Hbyte : Forall byte_ok cqe /\ length cqe = 16%nat) by (destruct Hc as (? & ? & _); done).
  destruct Hbyte as [Hbyte Hlen]. pose proof (Z.mod_pos_bound (hw_tail h + 1) (hw_depth h)).
  pose proof (Z.mod_pos_bound (hw_head h + 1) (hw_depth h)).
  assert (Hx : Z.lxor (hw_phase h) 1 = 1 - hw_phase h) by (destruct qo_bit0 as [-> | ->]; done).
  constructor; cbn [completed hw_sq hw_cq hw_depth hw_head hw_tail hw_phase taken sq_phys cq_phys sq_depth cq_depth cq_head q_phase next_cid];
    try done; try lia.
  - by rewrite qo_cdepth0, qo_cq_head0.
  - rewrite qo_cdepth0, qo_cq_head0, qo_phase0. by rewrite Hx.
  - destruct (_ =? 0); lia.
  - by apply store_mem_ok.
  - intros i Hi. unfold post. rewrite land_one. destruct (decide (i = hw_tail h)) as [-> | Hne].
    + rewrite (completion_status _ _ _ _ _ _ Hc). replace ((2 * status + hw_phase h) mod 2) with (hw_phase h).
      2: { rewrite Z.add_comm, Z.mul_comm, Z.mod_add by lia. rewrite Z.mod_small; lia. }
      destruct (Z.eq_dec (hw_tail h + 1) (hw_depth h)) as [E | E].
      * rewrite E, Z.mod_same by lia. simpl. rewrite (proj2 (Z.ltb_ge _ _)) by lia. lia.
      * rewrite Z.mod_small by lia. rewrite (proj2 (Z.eqb_neq _ _)), (proj2 (Z.ltb_lt _ _)) by lia. done.
    + rewrite (cqe_status_ext m) by (intros x Hx'; apply store_other; unfold zlen; lia).
      rewrite <- land_one, qo_slots0 by done.
      destruct (Z.eq_dec (hw_tail h + 1) (hw_depth h)) as [E | E].
      * rewrite E, Z.mod_same by lia. simpl. rewrite (proj2 (Z.ltb_lt i (hw_tail h))), (proj2 (Z.ltb_ge i 0)) by lia. lia.
      * rewrite Z.mod_small by lia. rewrite (proj2 (Z.eqb_neq _ _)) by lia. zcases; (done || lia).
Qed.

(** ** One command *)

Definition blocks_ok (h : NvmeHw) : Prop :=
  0 < hw_lba h /\ forall i, 0 <= i < hw_count h -> zlen (hw_data h i) = hw_lba h /\ Forall byte_ok (hw_data h i).

(** A command is in the queue: [nlb] blocks from [slba] between the namespace
    and the frame [f]. *)
Record pending (m : PhysMem) (h : NvmeHw) (q : Queue) (f op slba nlb : Z) : Prop := mkPending {
  pd_queue : queue_ok m h q;
  pd_tail : sq_tail q = (hw_head h + 1) mod hw_depth h;
  pd_cmd : cmd_is m (cmd_at h) op (hw_nsid h) f slba nlb;
  pd_op : op = 1 \/ op = 2;
  pd_frame : frame_addr f /\ f <> hw_sq h /\ f <> hw_cq h;
  pd_blocks : blocks_ok h;
  pd_range : 0 <= slba /\ 1 <= nlb /\ nlb * hw_lba h <= 4096 /\ slba + nlb <= hw_count h
}.

(** It was carried out and its completion taken. *)
Record finished (m : PhysMem) (h : NvmeHw) (q : Queue) (f op slba nlb : Z) (m' : PhysMem) (h' : NvmeHw) (q' : Queue) : Prop := mkFinished {
  fi_queue : queue_ok m' h' q';
  fi_tail : sq_tail q' = hw_head h';
  fi_idle : hw_busy h' = None;
  fi_same : hw_sq h' = hw_sq h /\ hw_cq h' = hw_cq h /\ hw_nsid h' = hw_nsid h /\ hw_lba h' = hw_lba h /\ hw_count h' = hw_count h;
  fi_bells : doorbell_sq q' = doorbell_sq q /\ doorbell_cq q' = doorbell_cq q;
  fi_mem : forall x, ~ (hw_cq h <= x < hw_cq h + 4096) -> ~ (f <= x < f + 4096) -> m' x = m x;
  fi_data : let n := Z.to_nat (nlb * hw_lba h) in
    if op =? 2 then hw_data h' = hw_data h /\ load m' f n = get_blocks (hw_data h) slba nlb
    else hw_data h' = put_blocks (hw_data h) (hw_lba h) slba nlb (load m f n)
}.

Lemma pending_valid m h q f op slba nlb : pending m h q f op slba nlb -> cmd_valid h m = true.
Proof.
  intros [? ? (E1 & E2 & E3 & E4 & E5) Hop [[_ Hf] _] _ (? & ? & ? & ?)]. unfold cmd_valid. rewrite E1, E2, E3, E4, E5.
  rewrite Z.eqb_refl, (proj2 (Z.eqb_eq _ _) Hf), (proj2 (Z.leb_le _ _)), (proj2 (Z.leb_le _ _)) by lia.
  destruct Hop as [-> | ->]; done.
Qed.

Lemma pending_transfer m h q f op slba nlb x :
  pending m h q f op slba nlb -> in_transfer h m x -> op = 2 /\ f <= x < f + 4096.
Proof.
  intros [? ? (E1 & E2 & E3 & E4 & E5) Hop _ _ (? & ? & ? & ?)] (_ & Ho & Hx). rewrite E1 in Ho. rewrite E3, E5 in Hx. lia.
Qed.

(** A turn in which the command is not completed keeps it pending. *)
Lemma pending_step m m' h q f op slba nlb b :
  pending m h q f op slba nlb -> mem_ok m' -> (forall x, ~ in_transfer h m x -> m' x = m x) ->
  pending m' (with_busy h b) q f op slba nlb /\
  (forall x, ~ (f <= x < f + 4096) -> m' x = m x) /\ (op <> 2 -> forall x, m' x = m x).
Proof.
  intros HP Hm' He.
  assert (Ha : forall x, ~ (f <= x < f + 4096) -> m' x = m x).
  { intros x Hx. apply He. intros Ht. by apply (pending_transfer _ _ _ _ _ _ _ _ HP) in Ht as [_ ?]. }
  split; [| split; [exact Ha |]].
  - destruct HP as [Hq Ht Hc Hop (Hf & Hfs & Hfc) Hb Hr]. pose proof Hq as []. constructor; try done.
    + destruct (queue_ok_ext m m' h q) as []; [done | | done |].
      * intros x Hx. apply Ha. by apply (frames_apart (hw_cq h) f x qo_cq_frame0 Hf (not_eq_sym Hfc)).
      * by constructor.
    + apply (cmd_is_ext m); [| done]. intros x Hx. apply Ha. apply (frames_apart (hw_sq h) f x qo_sq_frame0 Hf (not_eq_sym Hfs)).
      unfold cmd_at in Hx. cbn [with_busy hw_sq hw_head] in Hx. lia.
  - intros Hop x. apply He. intros Ht. by apply (pending_transfer _ _ _ _ _ _ _ _ HP) in Ht as [? _].
Qed.

Lemma finished_from m m1 h b q f op slba nlb m' h' q' :
  (forall x, ~ (f <= x < f + 4096) -> m1 x = m x) -> (op <> 2 -> forall x, m1 x = m x) ->
  finished m1 (with_busy h b) q f op slba nlb m' h' q' -> finished m h q f op slba nlb m' h' q'.
Proof.
  intros Ha Hw [Hq Ht Hi Hs Hb Hm Hd]. constructor; [done .. | |].
  - intros x H1 H2. rewrite (Hm x H1 H2). by apply Ha.
  - cbv zeta in *. cbn [with_busy hw_data hw_lba] in Hd. destruct (Z.eqb_spec op 2); [done |]. rewrite Hd.
    f_equal. apply load_ext. intros x _. by apply Hw.
Qed.

Lemma get_blocks_ok (h : NvmeHw) (slba nlb : Z) : blocks_ok h -> 0 <= slba -> 0 <= nlb -> slba + nlb <= hw_count h ->
  zlen (get_blocks (hw_data h) slba nlb) = nlb * hw_lba h /\ Forall byte_ok (get_blocks (hw_data h) slba nlb).
Proof.
  intros [_ Hb] Hs Hn. unfold get_blocks. rewrite <- (Z2Nat.id nlb) by lia. generalize (Z.to_nat nlb). clear nlb Hn.
  intros n. induction n as [| n IH]; intros Hr; [done |].
  rewrite Nat2Z.inj_succ in *. rewrite <- Z.add_1_r, seqZ_S_r, bind_app by lia. destruct IH as [IH1 IH2]; [lia |].
  destruct (Hb (slba + Z.of_nat n)) as [Hl Hf]; [lia |]. cbn [mbind list_bind]. rewrite app_nil_r. split.
  - unfold zlen in *. rewrite length_app, Nat2Z.inj_add, IH1, Hl. lia.
  - by apply Forall_app.
Qed.

Lemma post_other (h : NvmeHw) (m : PhysMem) (q : Queue) (phase cid status x : Z) (cqe : list Z) :
  queue_ok m h q -> completion phase cid status cqe -> ~ (hw_cq h <= x < hw_cq h + 4096) -> post h m cqe x = m x.
Proof. intros [] (Hl & _) Hx. apply store_other. unfold zlen. rewrite Hl. lia. Qed.

Lemma complete_step m h q f op slba nlb m1 h1 :
  pending m h q f op slba nlb -> hw_busy h = Some O -> nvme_step (m, h) (m1, h1) ->
  finished m h q f op slba nlb m1 h1 (taken q) /\ cqe_status m1 (hw_cq h + 16 * hw_tail h) = hw_phase h.
Proof.
  intros HP Hb Hstep. pose proof (pending_valid _ _ _ _ _ _ _ HP) as Hv.
  destruct HP as [Hq Ht (Eo & En & Ef & Es & El) Hop (Hf & Hfs & Hfc) Hbl (Hs & Hn & Hsz & Hr)].
  assert (Hbounds : forall x, f <= x < f + 4096 -> ~ (hw_cq h <= x < hw_cq h + 4096)).
  { intros x. apply (frames_apart f (hw_cq h) x Hf (qo_cq_frame _ _ _ Hq) Hfc). }
  inversion Hstep as [| | ? ? cqe _ _ E2 Hc data | ? ? cqe _ _ E1 Hc n bytes | ? ? ? ? _ Hv']; subst; try congruence.
  - (* read *)
    destruct (get_blocks_ok h (cmd_slba m (cmd_at h)) (cmd_nlb m (cmd_at h)) Hbl) as [Hlen Hby]; [lia .. |]. fold data in Hlen, Hby.
    set (f := cmd_prp1 m (cmd_at h)) in *. set (m2 := store m f data).
    assert (Ha : forall x, ~ (f <= x < f + 4096) -> m2 x = m x) by (intros x Hx; apply store_other; lia).
    assert (Hq2 : queue_ok m2 h q).
    { apply (queue_ok_ext m); [by apply store_mem_ok; [apply (qo_mem _ _ _ Hq) |] | | done].
      intros x Hx. apply Ha. intros Hx'. by apply (Hbounds x Hx'). }
    split; [| unfold post; by rewrite (completion_status _ _ _ _ _ _ Hc)]. constructor; try done.
    + by apply (completed_ok _ _ _ _ _ _ _ Hq2 Hc).
    + intros x H1 H2. rewrite (post_other _ _ _ _ _ _ _ _ Hq2 Hc H1). by apply Ha.
    + cbv zeta. rewrite E2. simpl (2 =? 2). split; [done |].
      rewrite (load_ext m2). { unfold m2. replace (Z.to_nat _) with (length data) by (unfold zlen in Hlen; lia). apply load_store_same. }
      intros x Hx. apply (post_other _ _ _ _ _ _ _ _ Hq2 Hc). apply Hbounds. lia.
  - (* write *)
    split; [| unfold post; by rewrite (completion_status _ _ _ _ _ _ Hc)]. constructor; try done.
    + by apply (completed_ok _ _ _ _ _ _ _ Hq Hc).
    + intros x H1 _. apply (post_other _ _ _ _ _ _ _ _ Hq Hc H1).
    + cbv zeta. by rewrite E1.
Qed.

Section Driver.
  Context {A W : Type} {FA : FrameAllocator A} {PE : PageTableEntry} {MIO : Mmio W} {NC : NvmeController W}.
  Implicit Types s : Machine A W.

Definition mem_of s : PhysMem := vm_mem (mc_vm s).
Definition hw_of s : NvmeHw := nv_hw (mc_dev s).
(** The machine with other memory and devices. *)
Definition moved s (m : PhysMem) (w : W) : Machine A W :=
  let v := mc_vm s in mkMachine (mkVmm m (vm_frames v) (KERNEL_AS v) (MMIO_NEXT v) (CR3 v)) w.

Lemma dev_turn_run s : dev_turn s = Ret (tt, moved s (dev_run (mem_of s) (mc_dev s)).1 (dev_run (mem_of s) (mc_dev s)).2).
Proof. unfold dev_turn, moved, mem_of. by destruct (dev_run _ _). Qed.

Lemma moved_moved s m w m' w' : moved (moved s m w) m' w' = moved s m' w'.
Proof. reflexivity. Qed.

(** The loop takes the completion as soon as it is there, and not before. *)
Lemma poll_completion_ok (n : nat) : forall (fuel : nat) s q f op slba nlb,
  (n < fuel)%nat -> hw_busy (hw_of s) = Some n -> doorbell_cq q = nv_db_cq ->
  pending (mem_of s) (hw_of s) q f op slba nlb ->
  exists c0 m' w', poll_completion fuel q s = Ret ((c0, 0, taken q), moved s m' w') /\
    finished (mem_of s) (hw_of s) q f op slba nlb m' (nv_hw w') (taken q).
Proof.
  induction n as [| n IH]; intros [| fuel] s q f op slba nlb Hfuel Hbusy Hdb HP; try lia;
    pose proof (pd_queue _ _ _ _ _ _ _ HP) as Hq; cbn [poll_completion];
    rewrite (st_bind_step _ _ _ _ _ (dev_turn_run s));
    pose proof (nv_run (mem_of s) (mc_dev s) (qo_mem _ _ _ Hq)) as Hstep; fold (hw_of s) in Hstep;
    destruct (dev_run (mem_of s) (mc_dev s)) as [m1 w1]; cbn [fst snd] in *.
  - destruct (complete_step _ _ _ _ _ _ _ _ _ HP Hbusy Hstep) as [HF Hst].
    erewrite st_bind_step by reflexivity. cbn [moved mc_vm vm_mem].
    assert (Eslot : cq_slot q (cq_head q) = hw_cq (hw_of s) + 16 * hw_tail (hw_of s)).
    { unfold cq_slot. by rewrite (qo_cq _ _ _ Hq), (qo_cq_head _ _ _ Hq). }
    rewrite Eslot, Hst, (qo_phase _ _ _ Hq). destruct (qo_bit _ _ _ Hq) as [Ep | Ep]; rewrite Ep; simpl (Z.land _ _ =? _); cbv match.
    all: pose proof (qo_tail _ _ _ Hq); pose proof (qo_depth _ _ _ Hq).
    all: unfold st_lift at 1; unfold st_bind at 1; rewrite checked_fits by (rewrite (qo_cq_head _ _ _ Hq); lia); cbn [obind].
    all: unfold urem; rewrite (proj2 (Z.eqb_neq (cq_depth q) 0)) by (rewrite (qo_cdepth _ _ _ Hq); lia); cbn [obind].
    all: eexists _, m1, (mmio_write 32 (doorbell_cq q) ((cq_head q + 1) mod cq_depth q) w1).
    all: rewrite Hdb, nv_ack; split; [| exact HF].
    all: unfold st_bind, reg_write, st_ret, taken; cbn [obind]; rewrite (qo_phase _ _ _ Hq), Ep, Hdb; reflexivity.
  - inversion Hstep as [| ? ? ? n' En' Hm1 Ha E1 E2 | | |]; try congruence.
    assert (n' = n) as -> by congruence. subst.
    destruct (pending_step _ _ _ _ _ _ _ _ (Some n) HP Hm1 Ha) as (HP1 & Hf1 & Hw1).
    erewrite st_bind_step by reflexivity. cbn [moved mc_vm vm_mem].
    rename select (with_busy _ _ = nv_hw w1) into E2. pose proof (pd_queue _ _ _ _ _ _ _ HP1) as Hq1.
    assert (Hno : (Z.land (cqe_status m1 (cq_slot q (cq_head q))) 1 =? q_phase q) = false).
    { unfold cq_slot. rewrite (qo_cq _ _ _ Hq1), (qo_cq_head _ _ _ Hq1), (qo_slots _ _ _ Hq1) by (apply (qo_tail _ _ _ Hq1)).
      rewrite Z.ltb_irrefl, (qo_phase _ _ _ Hq1). destruct (qo_bit _ _ _ Hq1) as [-> | ->]; done. }
    rewrite Hno. destruct (IH fuel (moved s m1 w1) q f op slba nlb) as (c0 & m' & w' & Er & HF);
      [lia | unfold hw_of; cbn [moved mc_dev]; by rewrite <- E2 | done | by rewrite E2 in HP1 |].
    exists c0, m', w'. split; [exact Er |]. unfold hw_of, mem_of in HF. cbn [moved mc_dev mc_vm vm_mem] in HF. rewrite <- E2 in HF.
    by apply (finished_from _ m1 _ (Some n)).
Qed.

(** No command is in flight. *)
Record rest s (q : Queue) : Prop := mkRest {
  rs_queue : queue_ok (mem_of s) (hw_of s) q;
  rs_tail : sq_tail q = hw_head (hw_of s);
  rs_idle : hw_busy (hw_of s) = None;
  rs_bells : doorbell_sq q = nv_db_sq /\ doorbell_cq q = nv_db_cq
}.

(** What a command does. *)
Record io_effect s (f op slba nlb : Z) (m' : PhysMem) (w' : W) : Prop := mkIoEffect {
  ie_same : hw_sq (nv_hw w') = hw_sq (hw_of s) /\ hw_cq (nv_hw w') = hw_cq (hw_of s) /\ hw_nsid (nv_hw w') = hw_nsid (hw_of s) /\
            hw_lba (nv_hw w') = hw_lba (hw_of s) /\ hw_count (nv_hw w') = hw_count (hw_of s);
  ie_data : let n := Z.to_nat (nlb * hw_lba (hw_of s)) in
    if op =? 2 then hw_data (nv_hw w') = hw_data (hw_of s) /\ load m' f n = get_blocks (hw_data (hw_of s)) slba nlb
    else hw_data (nv_hw w') = put_blocks (hw_data (hw_of s)) (hw_lba (hw_of s)) slba nlb (load (mem_of s) f n)
}.

(** The driver after it wrote a command and rang the doorbell. *)
Definition rung (q : Queue) : Queue :=
  mkQueue (sq_phys q) (cq_phys q) (sq_depth q) (cq_depth q) ((sq_tail q + 1) mod sq_depth q) (cq_head q) (q_phase q)
    (doorbell_sq q) (doorbell_cq q) (wrap 16 (next_cid q + 1)).

Lemma submit_pending s q f op lba nlb (w : W) (n : nat) :
  rest s q -> op = 1 \/ op = 2 -> frame_addr f -> f <> hw_sq (hw_of s) -> f <> hw_cq (hw_of s) -> blocks_ok (hw_of s) ->
  0 <= hw_nsid (hw_of s) < 2 ^ 32 -> 0 <= lba < 2 ^ 64 -> 1 <= nlb -> nlb * hw_lba (hw_of s) <= 4096 -> lba + nlb <= hw_count (hw_of s) ->
  nv_hw w = with_busy (hw_of s) (Some n) ->
  pending (store (mem_of s) (sq_slot q (sq_tail q)) (submission_bytes (with_cid (io_command op (hw_nsid (hw_of s)) f lba nlb) (next_cid q))))
    (nv_hw w) (rung q) f op lba nlb.
Proof.
  intros [Hq Ht Hi Hd] Hop Hf Hfs Hfc Hb Hns Hl Hn Hsz Hr ->. pose proof Hq as [].
  assert (Eslot : sq_slot q (sq_tail q) = cmd_at (hw_of s)) by (unfold sq_slot, cmd_at; by rewrite qo_sq0, Ht).
  rewrite Eslot. set (l := submission_bytes _).
  assert (Hl64 : zlen l = 64) by (unfold zlen, l; by rewrite submission_length).
  destruct Hb as [Hlba Hb]. assert (Hnl : nlb <= 4096) by nia.
  constructor; cbn [with_busy hw_sq hw_cq hw_nsid hw_lba hw_count hw_head hw_depth]; try done.
  - assert (Hq1 : queue_ok (store (mem_of s) (cmd_at (hw_of s)) l) (hw_of s) q).
    { apply (queue_ok_ext (mem_of s)); [| | done].
      - apply store_mem_ok; [done |]. unfold l, submission_bytes. rewrite !Forall_app.
        split_and!; first [apply le_bytes_ok | by apply Forall_replicate].
      - intros x Hx. apply store_other. rewrite Hl64. unfold cmd_at.
        pose proof (frames_apart (hw_cq (hw_of s)) (hw_sq (hw_of s)) x qo_cq_frame0 qo_sq_frame0 (not_eq_sym qo_distinct0) Hx). lia. }
    destruct Hq1. constructor; try done. cbn [rung next_cid]. unfold wrap. apply Z.mod_pos_bound. lia.
  - cbn [rung sq_tail]. by rewrite Ht, qo_sdepth0.
  - apply submitted_cmd; try done; try lia. destruct Hf as [Hf _]. lia.
  - lia.
Qed.

Lemma submit_sync_ok (polls : nat) s q f op lba nlb :
  (nv_latency < polls)%nat ->
  rest s q -> op = 1 \/ op = 2 -> frame_addr f -> f <> hw_sq (hw_of s) -> f <> hw_cq (hw_of s) -> blocks_ok (hw_of s) ->
  0 <= hw_nsid (hw_of s) < 2 ^ 32 -> 0 <= lba < 2 ^ 64 -> 1 <= nlb -> nlb * hw_lba (hw_of s) <= 4096 -> lba + nlb <= hw_count (hw_of s) ->
  exists c0 q' m' w', submit_sync polls q (io_command op (hw_nsid (hw_of s)) f lba nlb) s = Ret ((c0, 0, q'), moved s m' w') /\
    rest (moved s m' w') q' /\ io_effect s f op lba nlb m' w'.
Proof.
  intros Hp Hrest Hop Hf Hfs Hfc Hb Hns Hl Hn Hsz Hr. pose proof Hrest as [Hq Ht Hi [Hdsq Hdcq]]. pose proof Hq as [].
  unfold submit_sync. change (mkSubmission (Z.lor _ _) _ _ _ _ _) with (with_cid (io_command op (hw_nsid (hw_of s)) f lba nlb) (next_cid q)).
  set (l := submission_bytes _). set (m1 := store (mem_of s) (sq_slot q (sq_tail q)) l).
  erewrite st_bind_step by reflexivity. unfold st_lift at 1. unfold st_bind at 1.
  rewrite checked_fits by (rewrite Ht; lia). cbn [obind]. unfold urem.
  rewrite (proj2 (Z.eqb_neq (sq_depth q) 0)) by (rewrite qo_sdepth0; lia). cbn [obind].
  destruct (nv_ring (mc_dev s) ((sq_tail q + 1) mod sq_depth q)) as (n & Hn' & Hw); [done | by rewrite Ht, qo_sdepth0 |].
  fold (hw_of s) in Hw. rewrite <- Hdsq in Hw. set (w1 := mmio_write 32 (doorbell_sq q) _ (mc_dev s)) in *.
  pose proof (submit_pending s q f op lba nlb w1 n Hrest Hop Hf Hfs Hfc Hb Hns Hl Hn Hsz Hr Hw) as HP. fold l m1 in HP.
  destruct (poll_completion_ok n polls (moved s m1 w1) (rung q) f op lba nlb) as (c0 & m' & w' & Er & HF);
    [lia | unfold hw_of; cbn [moved mc_dev]; by rewrite Hw | done | exact HP |].
  exists c0, (taken (rung q)), m', w'. split; [exact Er |]. unfold hw_of, mem_of in HF. cbn [moved mc_dev mc_vm vm_mem] in HF.
  rewrite Hw in HF. destruct HF as [HFq HFt HFi HFs HFb HFm HFd]. split.
  - constructor; [exact HFq | exact HFt | exact HFi | by cbn].
  - constructor; [exact HFs |]. cbv zeta in *. cbn [with_busy hw_data hw_lba] in HFd. destruct (op =? 2); [exact HFd |].
    rewrite HFd. f_equal. apply load_ext. intros x Hx. apply store_other. unfold zlen, l. rewrite submission_length.
    unfold sq_slot. rewrite qo_sq0, Ht.
    assert (f <= x < f + 4096) as Hx' by (destruct Hb; nia).
    pose proof (frames_apart f (hw_sq (hw_of s)) x Hf qo_sq_frame0 Hfs Hx'). lia.
Qed.

(** ** Block requests *)

  Variable polls : nat.
  Hypothesis polls_enough : (nv_latency < polls)%nat.
  Implicit Types d : Nvme A W.

Definition ns_hw d : NvmeHw := hw_of (ns_machine d).
Definition ns_frames d : A := vm_frames (mc_vm (ns_machine d)).

(** The driver after bring-up and between requests: no command in flight, the
    geometry of the namespace, and a frame to spare. *)
Record nvme_ok d : Prop := mkNvmeOk {
  no_io : exists q, ct_io (ns_controller d) = Some q /\ rest (ns_machine d) q;
  no_nsid : ns_nsid d = hw_nsid (ns_hw d) /\ 0 <= hw_nsid (ns_hw d) < 2 ^ 32;
  no_lba : ns_lba_bytes d = hw_lba (ns_hw d);
  no_count : ns_block_count d = hw_count (ns_hw d);
  no_geometry : 512 <= hw_lba (ns_hw d) /\ 4096 mod hw_lba (ns_hw d) = 0 /\ 0 <= hw_count (ns_hw d) /\ hw_count (ns_hw d) * hw_lba (ns_hw d) < 2 ^ 64;
  no_blocks : blocks_ok (ns_hw d);
  no_fa : fa_ok (ns_frames d);
  no_queues : ~ fa_avail (ns_frames d) (hw_sq (ns_hw d)) /\ ~ fa_avail (ns_frames d) (hw_cq (ns_hw d));
  no_frame : exists f, frame_addr f /\ fa_avail (ns_frames d) f
}.

(** The same device with other contents. *)
Definition same_device d d' : Prop :=
  ns_lba_bytes d' = ns_lba_bytes d /\ ns_block_count d' = ns_block_count d /\ hw_lba (ns_hw d') = hw_lba (ns_hw d) /\
  hw_count (ns_hw d') = hw_count (ns_hw d).

Lemma alloc_frame_ok d : nvme_ok d ->
  exists f a, fa_alloc (ns_frames d) = Ret (Some f, a) /\ frame_addr f /\ f <> hw_sq (ns_hw d) /\ f <> hw_cq (ns_hw d) /\
    exists a', fa_free a f = Ret a' /\ fa_ok a' /\ forall g, frame_addr g -> fa_avail a' g <-> fa_avail (ns_frames d) g.
Proof.
  intros []. destruct (fa_alloc_spec _ no_fa0) as (r & a & Er & Hok & Hram & Hr).
  destruct no_frame0 as (f0 & Hf0 & Ha0). destruct r as [f |]; [| by destruct Hr as [_ Hr]; apply Hr in Hf0].
  destruct Hr as (Hf & Hz & Hr & Hav & Hiff). destruct no_queues0 as [Hs Hc].
  exists f, a. split_and!; [done | done | by intros -> | by intros -> |].
  destruct (fa_free_spec a f Hok Hf Hz) as (a' & Ef & Hok' & _ & Hiff'); [by apply Hram | by rewrite Hiff; [intros [? _] | done] |].
  exists a'. split_and!; [done | done |]. intros g Hg. rewrite Hiff' by done. rewrite Hiff by done.
  destruct (decide (g = f)) as [-> |]; tauto.
Qed.

(** After a command: the queue advanced, [data] in the namespace, the frame
    given back. *)
Lemma nvme_ok_after d q' m' w' a' data :
  nvme_ok d -> rest (moved (ns_machine d) m' w') q' ->
  hw_sq (nv_hw w') = hw_sq (ns_hw d) -> hw_cq (nv_hw w') = hw_cq (ns_hw d) -> hw_nsid (nv_hw w') = hw_nsid (ns_hw d) ->
  hw_lba (nv_hw w') = hw_lba (ns_hw d) -> hw_count (nv_hw w') = hw_count (ns_hw d) -> hw_data (nv_hw w') = data ->
  (forall i, 0 <= i < hw_count (ns_hw d) -> zlen (data i) = hw_lba (ns_hw d) /\ Forall byte_ok (data i)) ->
  fa_ok a' -> (forall g, frame_addr g -> fa_avail a' g <-> fa_avail (ns_frames d) g) ->
  let c := ns_controller d in
  let v := mc_vm (ns_machine d) in
  let d' := mkNvme (mkController (ct_mmio c) (ct_admin c) (Some q') (doorbell_stride c)) (ns_nsid d) (ns_lba_bytes d) (ns_block_count d)
              (mkMachine (mkVmm m' a' (KERNEL_AS v) (MMIO_NEXT v) (CR3 v)) w') in
  nvme_ok d' /\ same_device d d'.
Proof.
  intros [] [Hrq Hrt Hri Hrb] E1 E2 E3 E4 E5 <- Hdata Hfa Hav c v d'. destruct no_io0 as (q & _ & [Hq _ _ _]). destruct Hq.
  assert (Hh : ns_hw d' = nv_hw w') by done.
  split; [| split_and!; try done; by rewrite Hh].
  constructor; rewrite ?Hh, ?E1, ?E2, ?E3, ?E4, ?E5; try done.
  - exists q'. split; [done |]. by constructor.
  - unfold blocks_ok. rewrite E4, E5. split; [lia | done].
  - change (ns_frames d') with a'. rewrite !Hav by done. done.
  - destruct no_frame0 as (f & Hf & Ha). exists f. split; [done |]. change (ns_frames d') with a'. by apply Hav.
Qed.

(** The namespace while a frame is allocated. *)
Definition with_frames d (a : A) : Nvme A W :=
  let v := mc_vm (ns_machine d) in
  mkNvme (ns_controller d) (ns_nsid d) (ns_lba_bytes d) (ns_block_count d)
    (mkMachine (mkVmm (vm_mem v) a (KERNEL_AS v) (MMIO_NEXT v) (CR3 v)) (mc_dev (ns_machine d))).

Lemma alloc_step d f a : fa_alloc (ns_frames d) = Ret (f, a) -> on_machine mc_alloc d = Ret (f, with_frames d a).
Proof. intros E. unfold on_machine, mc_alloc, on_vm, vm_alloc, ns_frames in *. by rewrite E. Qed.

(** A request that passed the checks, from the allocated frame on; [m] is
    memory with the data of a write in the frame. *)
Lemma io_request_ok d a a' f m op lba nlb :
  nvme_ok d -> op = 1 \/ op = 2 -> frame_addr f -> f <> hw_sq (ns_hw d) -> f <> hw_cq (ns_hw d) -> mem_ok m ->
  (forall x, ~ (f <= x < f + 4096) -> m x = mem_of (ns_machine d) x) ->
  fa_free a f = Ret a' -> fa_ok a' -> (forall g, frame_addr g -> fa_avail a' g <-> fa_avail (ns_frames d) g) ->
  0 <= lba -> 1 <= nlb -> nlb * hw_lba (ns_hw d) <= 4096 -> lba + nlb <= hw_count (ns_hw d) ->
  exists m' w' q', let v := mc_vm (ns_machine d) in let c := ns_controller d in
    let d2 a := mkNvme (mkController (ct_mmio c) (ct_admin c) (Some q') (doorbell_stride c)) (ns_nsid d) (ns_lba_bytes d) (ns_block_count d)
              (mkMachine (mkVmm m' a (KERNEL_AS v) (MMIO_NEXT v) (CR3 v)) w') in
    submit_io polls (io_command op (ns_nsid d) f lba nlb)
      (mkNvme c (ns_nsid d) (ns_lba_bytes d) (ns_block_count d)
         (mkMachine (mkVmm m a (KERNEL_AS v) (MMIO_NEXT v) (CR3 v)) (mc_dev (ns_machine d)))) = Ret (Ok 0, d2 a) /\
    on_machine (mc_free f) (d2 a) = Ret (tt, d2 a') /\ nvme_ok (d2 a') /\ same_device d (d2 a') /\
    let n := Z.to_nat (nlb * hw_lba (ns_hw d)) in
    if op =? 2 then hw_data (nv_hw w') = hw_data (ns_hw d) /\ load m' f n = get_blocks (hw_data (ns_hw d)) lba nlb
    else hw_data (nv_hw w') = put_blocks (hw_data (ns_hw d)) (hw_lba (ns_hw d)) lba nlb (load m f n).
Proof.
  intros Hd Hop Hf Hfs Hfc Hm Ha Efree Hfa Hav Hl Hn Hsz Hr. pose proof Hd as []. destruct no_io0 as (q & Eq & Hrest).
  destruct no_geometry0 as (Hg1 & Hg2 & Hg3 & Hg4). destruct no_nsid0 as [Ens Hns].
  set (v := mc_vm (ns_machine d)). set (s1 := mkMachine (mkVmm m a (KERNEL_AS v) (MMIO_NEXT v) (CR3 v)) (mc_dev (ns_machine d))).
  assert (Hrest1 : rest s1 q).
  { destruct Hrest as [Hq Ht Hi Hb]. constructor; try done. apply (queue_ok_ext (mem_of (ns_machine d))); [done | | done].
    intros x Hx. apply Ha. apply (frames_apart (hw_cq (ns_hw d)) f x (qo_cq_frame _ _ _ Hq) Hf (not_eq_sym Hfc) Hx). }
  destruct (submit_sync_ok polls s1 q f op lba nlb polls_enough Hrest1 Hop Hf Hfs Hfc no_blocks0 Hns) as (c0 & q' & m' & w' & Er & Hr' & [Hsame Hdata]);
    [split; [done | nia] | done | done | done |].
  exists m', w', q'. cbv zeta. split; [| split].
  - unfold submit_io. cbn [ns_controller]. rewrite Eq. cbn [ns_machine ns_nsid]. rewrite Ens.
    fold v s1. change (hw_nsid (ns_hw d)) with (hw_nsid (hw_of s1)). rewrite Er. reflexivity.
  - unfold on_machine, mc_free, on_vm, vm_free. cbn. by rewrite Efree.
  - destruct Hsame as (E1 & E2 & E3 & E4 & E5).
    assert (Hnew : forall i, 0 <= i < hw_count (ns_hw d) -> zlen (hw_data (nv_hw w') i) = hw_lba (ns_hw d) /\ Forall byte_ok (hw_data (nv_hw w') i)).
    { intros i Hi. destruct no_blocks0 as [_ Hb]. cbv zeta in Hdata. destruct (op =? 2); [destruct Hdata as [-> _]; by apply Hb |].
      rewrite Hdata. unfold put_blocks. destruct (Z.leb_spec lba i); [destruct (Z.ltb_spec i (lba + nlb)) |]; cbn [andb]; [| by apply Hb ..].
      assert (Forall byte_ok (load m f (Z.to_nat (nlb * hw_lba (hw_of s1))))) as Hby by by apply load_ok.
      split; [| by apply Forall_take, Forall_drop]. unfold zlen. rewrite length_take, length_drop, load_length.
      change (hw_lba (hw_of s1)) with (hw_lba (ns_hw d)).
      assert (0 <= (i - lba) * hw_lba (ns_hw d) /\ (i - lba) * hw_lba (ns_hw d) + hw_lba (ns_hw d) <= nlb * hw_lba (ns_hw d)) by nia. lia. }
    assert (Hr2 : rest (moved (ns_machine d) m' w') q') by (destruct Hr'; by constructor).
    destruct (nvme_ok_after d q' m' w' a' _ Hd Hr2 E1 E2 E3 E4 E5 eq_refl Hnew Hfa Hav) as [Hok' Hsd].
    split; [exact Hok' |]. split; [exact Hsd |]. exact Hdata.
Qed.

(** ** The block device *)

(** The checks a request has to pass, and what it then does to the blocks. *)
Definition request_error d (lba len : Z) : option BlockError :=
  let bs := ns_lba_bytes d in
  if negb (len mod bs =? 0) then Some BadLength
  else if len =? 0 then None
  else if ns_block_count d <? lba + len / bs then Some OutOfRange
  else if 4096 <? len then Some BlkUnsupported
  else None.

Lemma check_request_ok d lba len : nvme_ok d -> 0 <= lba < 2 ^ 64 -> 0 <= len < 2 ^ 32 ->
  check_request d lba len = Ret (match request_error d lba len with
                                 | Some e => Err (Err e)
                                 | None => if len =? 0 then Err (Ok tt) else Ok (len / ns_lba_bytes d)
                                 end).
Proof.
  intros [] Hl Hn. destruct no_geometry0 as (Hg1 & Hg2 & Hg3 & Hg4). rewrite <- no_lba0, <- no_count0 in *.
  unfold check_request, request_error, is_multiple_of. rewrite (proj2 (Z.eqb_neq (ns_lba_bytes d) 0)) by lia.
  destruct (Z.eqb_spec (len mod ns_lba_bytes d) 0) as [Em | Em]; cbn [negb]; [| done].
  pose proof (Z.div_mod len (ns_lba_bytes d)) as Hdm. rewrite Em in Hdm.
  assert (0 <= len / ns_lba_bytes d < 2 ^ 32) as Hq by (split; [apply Z.div_pos; lia | apply Z.div_lt_upper_bound; nia]).
  unfold wrap. rewrite Z.mod_small by lia.
  destruct (Z.eqb_spec len 0) as [-> | Hnz]; [by rewrite Z.div_0_l by lia |].
  rewrite (proj2 (Z.eqb_neq (len / ns_lba_bytes d) 0)) by nia.
  assert (ns_block_count d < 2 ^ 63) by nia.
  replace (ns_block_count d <? Z.min (lba + len / ns_lba_bytes d) (2 ^ 64 - 1)) with (ns_block_count d <? lba + len / ns_lba_bytes d) by (zcases; lia).
  destruct (_ <? _); [done |]. unfold PAGE_SIZE. destruct (4096 <? len); done.
Qed.

Lemma nvme_read_ok d lba len : nvme_ok d -> 0 <= lba < 2 ^ 64 -> 0 <= len < 2 ^ 32 ->
  exists d', nvme_read_blocks polls lba len d =
    Ret (match request_error d lba len with
         | Some e => Err e
         | None => Ok (get_blocks (hw_data (ns_hw d)) lba (len / ns_lba_bytes d))
         end, d') /\ nvme_ok d' /\ same_device d d' /\ hw_data (ns_hw d') = hw_data (ns_hw d).
Proof.
  intros Hd Hl Hn. unfold nvme_read_blocks. rewrite (check_request_ok d lba len Hd Hl Hn). cbn [obind].
  destruct (request_error d lba len) as [e |] eqn:Ereq; [exists d; split; [done |]; split; [done |]; by split_and! |].
  pose proof (no_lba _ Hd) as Elba. destruct (no_geometry _ Hd) as (Hg1 & Hg2 & Hg3 & Hg4).
  destruct (Z.eqb_spec len 0) as [-> | Hnz].
  { exists d. split; [by rewrite Z.div_0_l by lia |]. split; [done |]. by split_and!. }
  unfold request_error in Ereq. destruct (Z.eqb_spec (len mod ns_lba_bytes d) 0) as [Em |]; [cbn [negb] in Ereq | done].
  rewrite (proj2 (Z.eqb_neq len 0) Hnz) in Ereq.
  destruct (Z.ltb_spec (ns_block_count d) (lba + len / ns_lba_bytes d)) as [| Hr]; [done |]. destruct (Z.ltb_spec 4096 len); [done |]. clear Ereq.
  pose proof (Z.div_mod len (ns_lba_bytes d)) as Hdm. rewrite Em in Hdm. set (nlb := len / ns_lba_bytes d) in *.
  destruct (alloc_frame_ok d Hd) as (f & a & Ea & Hf & Hfs & Hfc & a' & Efree & Hfa & Hav).
  rewrite (st_bind_step _ _ _ _ _ (alloc_step d _ _ Ea)).
  destruct (io_request_ok d a a' f (mem_of (ns_machine d)) 2 lba nlb) as (m' & w' & q' & Es & Efr & Hok & Hsd & Hdata);
    try done; try (by right); try lia; try nia.
  { destruct (no_io _ Hd) as (q & _ & [Hq _ _ _]). apply (qo_mem _ _ _ Hq). }
  { rewrite <- (no_count _ Hd). lia. }
  cbv zeta in *. simpl (2 =? 2) in Hdata. cbv match in Hdata. destruct Hdata as [Hdt Hld].
  eexists. split; [| split; [exact Hok | split; [exact Hsd | exact Hdt]]].
  erewrite st_bind_step; cycle 1.
  { erewrite (st_try_Ok _ _ _ _ _ Es). simpl (negb (0 =? 0)). cbv match. erewrite st_bind_step by reflexivity. reflexivity. }
  erewrite st_bind_step by exact Efr. unfold st_ret. do 3 f_equal.
  rewrite <- Hld. cbn [with_frames ns_machine mc_vm vm_mem]. f_equal. lia.
Qed.

Lemma nvme_write_ok d lba buf : nvme_ok d -> 0 <= lba < 2 ^ 64 -> zlen buf < 2 ^ 32 -> Forall byte_ok buf ->
  exists d', nvme_write_blocks polls lba buf d =
    Ret (match request_error d lba (zlen buf) with Some e => Err e | None => Ok tt end, d') /\ nvme_ok d' /\ same_device d d' /\
    hw_data (ns_hw d') = match request_error d lba (zlen buf) with
                         | Some _ => hw_data (ns_hw d)
                         | None => if zlen buf =? 0 then hw_data (ns_hw d)
                                   else put_blocks (hw_data (ns_hw d)) (hw_lba (ns_hw d)) lba (zlen buf / ns_lba_bytes d) buf
                         end.
Proof.
  intros Hd Hl Hn Hby. unfold nvme_write_blocks. rewrite (check_request_ok d lba (zlen buf) Hd Hl) by (unfold zlen in *; lia). cbn [obind].
  destruct (request_error d lba (zlen buf)) as [e |] eqn:Ereq; [exists d; split; [done |]; split; [done |]; by split_and! |].
  pose proof (no_lba _ Hd) as Elba. destruct (no_geometry _ Hd) as (Hg1 & Hg2 & Hg3 & Hg4).
  destruct (Z.eqb_spec (zlen buf) 0) as [Hz | Hnz]; [exists d; split; [done |]; split; [done |]; by split_and! |].
  unfold request_error in Ereq. destruct (Z.eqb_spec (zlen buf mod ns_lba_bytes d) 0) as [Em |]; [cbn [negb] in Ereq | done].
  rewrite (proj2 (Z.eqb_neq (zlen buf) 0) Hnz) in Ereq.
  destruct (Z.ltb_spec (ns_block_count d) (lba + zlen buf / ns_lba_bytes d)) as [| Hr]; [done |]. destruct (Z.ltb_spec 4096 (zlen buf)); [done |]. clear Ereq.
  pose proof (Z.div_mod (zlen buf) (ns_lba_bytes d)) as Hdm. rewrite Em in Hdm. set (nlb := zlen buf / ns_lba_bytes d) in *.
  assert (0 <= zlen buf) by (unfold zlen; lia).
  destruct (alloc_frame_ok d Hd) as (f & a & Ea & Hf & Hfs & Hfc & a' & Efree & Hfa & Hav).
  rewrite (st_bind_step _ _ _ _ _ (alloc_step d _ _ Ea)). erewrite st_bind_step by reflexivity.
  destruct (io_request_ok d a a' f (store (mem_of (ns_machine d)) f buf) 1 lba nlb) as (m' & w' & q' & Es & Efr & Hok & Hsd & Hdata);
    try done; try (by left); try lia; try nia.
  { apply store_mem_ok; [| done]. destruct (no_io _ Hd) as (q & _ & [Hq _ _ _]). apply (qo_mem _ _ _ Hq). }
  { intros x Hx. apply store_other. lia. }
  { rewrite <- (no_count _ Hd). lia. }
  cbv zeta in *. simpl (1 =? 2) in Hdata. cbv match in Hdata.
  eexists. split; [| split; [exact Hok | split; [exact Hsd |]]].
  - erewrite (st_try_Ok _ _ _ _ _ Es). erewrite st_bind_step by exact Efr. reflexivity.
  - unfold ns_hw at 1, hw_of. cbn [ns_machine mc_dev]. rewrite Hdata. f_equal.
    replace (Z.to_nat (nlb * hw_lba (ns_hw d))) with (length buf) by (unfold zlen in *; nia). apply load_store_same.
Qed.

(** C8 The NVMe driver on a controller that follows the specification: every
    read and write request returns; a request of a bad length, past the end of
    the namespace or of more than a page is refused and changes nothing; any
    other read returns the blocks of the namespace and any other write replaces
    exactly its blocks.  Afterwards the queues of driver and controller agree
    again, at any position and phase, and no frame is lost. *)
Theorem nvme_refines_blocks d lba len buf :
  nvme_ok d -> 0 <= lba < 2 ^ 64 -> 0 <= len < 2 ^ 32 -> zlen buf < 2 ^ 32 -> Forall byte_ok buf ->
  (exists d', nvme_read_blocks polls lba len d =
     Ret (match request_error d lba len with
          | Some e => Err e
          | None => Ok (get_blocks (hw_data (ns_hw d)) lba (len / ns_lba_bytes d))
          end, d') /\ nvme_ok d' /\ same_device d d' /\ hw_data (ns_hw d') = hw_data (ns_hw d)) /\
  (exists d', nvme_write_blocks polls lba buf d =
     Ret (match request_error d lba (zlen buf) with Some e => Err e | None => Ok tt end, d') /\ nvme_ok d' /\ same_device d d' /\
     hw_data (ns_hw d') = match request_error d lba (zlen buf) with
                          | Some _ => hw_data (ns_hw d)
                          | None => if zlen buf =? 0 then hw_data (ns_hw d)
                                    else put_blocks (hw_data (ns_hw d)) (hw_lba (ns_hw d)) lba (zlen buf / ns_lba_bytes d) buf
                          end).
Proof.
  intros Hd Hl Hn Hb Hby. split; [exact (nvme_read_ok d lba len Hd Hl Hn) | exact (nvme_write_ok d lba buf Hd Hl Hb Hby)].
Qed.

(** ** A disk for the file systems *)

Lemma bind_ext_elem {X Y} (f g : X -> list Y) (l : list X) : (forall x, x ∈ l -> f x = g x) -> (l ≫= f) = (l ≫= g).
Proof.
  induction l as [| x l IH]; intros H; [done |]. cbn [mbind list_bind]. rewrite H by by left. f_equal. apply IH.
  intros y Hy. apply H. by right.
Qed.

Lemma get_put_prefix (data : Z -> list Z) (lba slba nlb : Z) (bytes : list Z) (j : nat) :
  0 <= lba -> zlen bytes = nlb * lba -> Z.of_nat j <= nlb ->
  get_blocks (put_blocks data lba slba nlb bytes) slba (Z.of_nat j) = take (Z.to_nat (Z.of_nat j * lba)) bytes.
Proof.
  intros Hl Hb. induction j as [| j IH]; intros Hj; [done |]. rewrite Nat2Z.inj_succ in *. unfold get_blocks in *.
  rewrite <- Z.add_1_r, seqZ_S_r, bind_app, IH by lia. cbn [mbind list_bind]. rewrite app_nil_r. unfold put_blocks at 1.
  rewrite (proj2 (Z.leb_le _ _)), (proj2 (Z.ltb_lt _ _)) by lia. cbn [andb].
  replace (slba + Z.of_nat j - slba) with (Z.of_nat j) by lia. rewrite take_take_drop. f_equal. nia.
Qed.
Lemma get_put_same (data : Z -> list Z) (lba slba nlb : Z) (bytes : list Z) :
  0 <= lba -> 0 <= nlb -> zlen bytes = nlb * lba -> get_blocks (put_blocks data lba slba nlb bytes) slba nlb = bytes.
Proof.
  intros Hl Hn Hb. pose proof (get_put_prefix data lba slba nlb bytes (Z.to_nat nlb) Hl Hb) as H. rewrite Z2Nat.id in H by lia.
  rewrite H by lia. apply take_ge. unfold zlen in Hb. lia.
Qed.
Lemma get_put_other (data : Z -> list Z) (lba slba nlb s2 n2 : Z) (bytes : list Z) :
  s2 + n2 <= slba \/ slba + nlb <= s2 -> get_blocks (put_blocks data lba slba nlb bytes) s2 n2 = get_blocks data s2 n2.
Proof.
  intros H. apply bind_ext_elem. intros i Hi%elem_of_seqZ. unfold put_blocks. zcases; simpl; (done || lia).
Qed.

(** 4096 bytes are a whole number of blocks. *)
Lemma page_blocks d : nvme_ok d -> let k := 4096 / ns_lba_bytes d in
  0 < k /\ k * hw_lba (ns_hw d) = 4096 /\ 4096 mod ns_lba_bytes d = 0 /\
  forall b, (b <? hw_count (ns_hw d) * hw_lba (ns_hw d) / 4096) = (b * k + k <=? hw_count (ns_hw d)).
Proof.
  intros []. destruct no_geometry0 as (Hg1 & Hg2 & Hg3 & Hg4). cbv zeta. rewrite no_lba0.
  pose proof (Z.div_mod 4096 (hw_lba (ns_hw d))) as Hdm. rewrite Hg2 in Hdm. set (k := 4096 / hw_lba (ns_hw d)) in *.
  assert (0 < k) by nia. split_and!; [done | lia | done |]. intros b.
  replace (hw_count (ns_hw d) * hw_lba (ns_hw d) / 4096) with (hw_count (ns_hw d) / k).
  2: { replace 4096 with (k * hw_lba (ns_hw d)) by lia. by rewrite Z.div_mul_cancel_r by lia. }
  pose proof (Z.div_mod (hw_count (ns_hw d)) k). pose proof (Z.mod_pos_bound (hw_count (ns_hw d)) k). zcases; nia.
Qed.

Lemma page_request_error d blk : nvme_ok d -> 0 <= blk ->
  request_error d (blk * (4096 / ns_lba_bytes d)) 4096 =
  if blk <? hw_count (ns_hw d) * hw_lba (ns_hw d) / 4096 then None else Some OutOfRange.
Proof.
  intros Hd Hb. destruct (page_blocks d Hd) as (Hk & Hk4 & Hm & Hlt). unfold request_error. rewrite Hm, Hlt, <- (no_count _ Hd).
  simpl (negb _). simpl (4096 =? 0). simpl (4096 <? 4096). cbv match. zcases; (done || lia).
Qed.

(** The driver is a [Disk]: what is proved of PondFS on a disk holds on NVMe. *)
#[local] Program Definition nvme_disk : @Disk (Nvme A W) (nvme_device polls) := {|
  dev_blocks d := hw_count (ns_hw d) * hw_lba (ns_hw d) / 4096;
  dev_block d blk := get_blocks (hw_data (ns_hw d)) (blk * (4096 / ns_lba_bytes d)) (4096 / ns_lba_bytes d);
  dev_ok := nvme_ok
|}.
Next Obligation.
  intros d Hd. destruct (page_blocks d Hd) as (Hk & Hk4 & Hm & _). destruct (no_geometry _ Hd) as (Hg1 & Hg2 & Hg3 & Hg4).
  cbn [block_size nvme_device]. rewrite (no_lba _ Hd) in *. unfold DISK_BLOCK.
  pose proof (Z.mul_div_le (hw_count (ns_hw d) * hw_lba (ns_hw d)) 4096). split_and!; [lia | done | apply Z.div_pos; nia | lia].
Qed.
Next Obligation.
  intros d blk Hd Hb. destruct (page_blocks d Hd) as (Hk & Hk4 & _ & Hlt). cbv beta in *.
  assert (blk * (4096 / ns_lba_bytes d) + 4096 / ns_lba_bytes d <= hw_count (ns_hw d)) by (apply Z.leb_le; rewrite <- Hlt; apply Z.ltb_lt; lia).
  destruct (get_blocks_ok (ns_hw d) (blk * (4096 / ns_lba_bytes d)) (4096 / ns_lba_bytes d) (no_blocks _ Hd)) as [Hz Hf]; [nia | lia | lia |].
  split; [unfold DISK_BLOCK; congruence | exact Hf].
Qed.
Next Obligation.
  intros d blk Hd Hb Hl. cbn [block_size read_blocks nvme_device] in *. unfold DISK_BLOCK in *.
  destruct (page_blocks d Hd) as (Hk & Hk4 & Hm & Hlt). pose proof (no_lba _ Hd) as El.
  destruct (nvme_read_ok d (blk * (4096 / ns_lba_bytes d)) 4096 Hd) as (d' & Er & Hd' & (E1 & E2 & E3 & E4) & Edata); [nia | lia |].
  rewrite page_request_error in Er by done. eexists _, d'. split; [exact Er |]. cbv beta. rewrite E1, E3, E4, Edata.
  do 4 (split; [done |]). destruct (_ <? _); [done | by eexists].
Qed.
Next Obligation.
  intros d blk data Hd Hb Hl Hz Hby. cbn [block_size write_blocks nvme_device] in *. unfold DISK_BLOCK in *.
  destruct (page_blocks d Hd) as (Hk & Hk4 & Hm & Hlt). pose proof (no_lba _ Hd) as El.
  destruct (nvme_write_ok d (blk * (4096 / ns_lba_bytes d)) data Hd) as (d' & Er & Hd' & (E1 & E2 & E3 & E4) & Edata); [nia | lia | done |].
  rewrite Hz, page_request_error in Er, Edata by done. eexists _, d'. split; [exact Er |]. cbv beta. rewrite E1, E3, E4, Edata.
  do 3 (split; [done |]). simpl (4096 =? 0). destruct (blk <? _); cbv match; [| split; [by eexists | done]].
  split; [done |]. intros b Hb'. destruct (Z.eqb_spec b blk) as [-> |].
  - apply get_put_same; [destruct (no_geometry _ Hd); lia | lia | lia].
  - apply get_put_other. nia.
Qed.
End Driver.

(** ** Witness *)

(** 32 blocks of 512 bytes, each filled with its number, and both queues of 64
    entries empty. *)
Definition demo_hw : NvmeHw :=
  mkHw 0x9000 0xA000 64 0 0 1 None 1 512 32 (fun i => replicate 512 (i mod 256)).
Definition demo_ns : Nvme PmmState NvmeHw :=
  mkNvme (mkController 0xFFFF900000000000 dummy_queue
            (Some (mkQueue 0x9000 0xA000 64 64 0 0 1 DEMO_SQ_DB DEMO_CQ_DB 0)) 0) 1 512 32 (mkMachine vm_demo demo_hw).

Lemma demo_ns_ok : nvme_ok demo_ns.
Proof.
  constructor; try done.
  - eexists. split; [reflexivity |]. constructor; try done. constructor; try done; try (by right).
    intros i Hi. replace (cqe_status _ _) with 0 by reflexivity. simpl. by rewrite (proj2 (Z.ltb_ge i 0)) by lia.
  - split; [done |]. intros i Hi. change (hw_data (ns_hw demo_ns) i) with (replicate 512 (i mod 256)).
    split; [reflexivity |]. apply Forall_replicate, Z.mod_pos_bound. lia.
  - apply vm_demo_frames_ok.
  - split; vm_compute; by intros [_ [=]].
  - exists 0x2000. split; [by split |]. vm_compute. split; [split; congruence | done].
Qed.

Lemma nvme_refines_blocks_witness : exists d',
  nvme_read_blocks 4 3 1024 demo_ns = Ret (Ok (replicate 512 3 ++ replicate 512 4), d') /\ nvme_ok d'.
Proof.
  destruct (nvme_refines_blocks (NC := demo_nvme) 4 (le_n 4) demo_ns 3 1024 [] demo_ns_ok) as [(d' & E & Hok & _) _];
    [by split | by split | done | by apply Forall_nil_2 |].
  exists d'. split; [| exact Hok]. rewrite E. reflexivity.
Defined.
