(* ===== verification/Dhcp.v ===== *)
(** * DHCP messages

    The packets of [kernel/src/drivers/e1000.rs]: the discover message that
    [build_dhcp_discover] writes and the offers that [parse_dhcp_offer] reads.
    Buffers are lists of bytes; an index out of range panics. *)

From S2P Require Import Prelude Bytes.

(** ** Big-endian fields *)

(** [to_be_bytes] and [from_be_bytes]. *)
Definition be_bytes (n : nat) (v : Z) : list Z := rev (le_bytes n v).
Definition be_val (l : list Z) : Z := le_val (rev l).

Definition put_be16 (buf : list Z) (off value : Z) : outcome (list Z) := splice buf off (be_bytes 2 value).
Definition put_be32 (buf : list Z) (off value : Z) : outcome (list Z) := splice buf off (be_bytes 4 value).
Definition read_be16 (buf : list Z) (off : Z) : outcome Z :=
  let! a := idx buf off in let! b := idx buf (off + 1) in Ret (be_val [a; b]).
Definition read_be32 (buf : list Z) (off : Z) : outcome Z :=
  let! a := idx buf off in let! b := idx buf (off + 1) in
  let! c := idx buf (off + 2) in let! d := idx buf (off + 3) in Ret (be_val [a; b; c; d]).

(** ** The checksum of an IPv4 header *)

(** The first loop, two bytes at a time; an odd last byte is left out. *)
Fixpoint sum_words (bytes : list Z) (sum : Z) : outcome Z :=
  match bytes with
  | a :: b :: bytes => let! sum := checked 32 (sum + be_val [a; b]) in sum_words bytes sum
  | _ => Ret sum
  end.
(** The second loop, which folds the carries. *)
Fixpoint fold_carries (fuel : nat) (sum : Z) : outcome Z :=
  if Z.shiftr sum 16 =? 0 then Ret sum
  else match fuel with
       | O => OutOfFuel
       | S fuel => let! sum := checked 32 (Z.land sum 0xFFFF + Z.shiftr sum 16) in fold_carries fuel sum
       end.
Definition ipv4_checksum (bytes : list Z) : outcome Z :=
  let! sum := sum_words bytes 0 in
  let! sum := fold_carries 2 sum in
  Ret (Z.lxor (wrap 16 sum) 0xFFFF).

(** ** The discover message *)

Definition TX_BUF_SIZE : Z := 2048.
Definition DHCP_XID : Z := 0x706f7335.
Definition DHCP_MAGIC : list Z := [99; 130; 83; 99].

Definition build_dhcp_discover (buf mac : list Z) : outcome (Z * list Z) :=
  let dhcp_len := 236 + 4 + 13 in
  let udp_len := 8 + dhcp_len in
  let ip_len := 20 + udp_len in
  let total := 14 + ip_len in
  let! buf := splice buf 0 (replicate 6 0xFF) in
  let! buf := splice buf 6 mac in
  let! buf := put_be16 buf 12 0x0800 in
  let ip := 14 in
  let! buf := upd buf ip 0x45 in
  let! buf := upd buf (ip + 1) 0 in
  let! buf := put_be16 buf (ip + 2) (wrap 16 ip_len) in
  let! buf := put_be16 buf (ip + 4) 0x1001 in
  let! buf := put_be16 buf (ip + 6) 0 in
  let! buf := upd buf (ip + 8) 64 in
  let! buf := upd buf (ip + 9) 17 in
  let! buf := splice buf (ip + 12) [0; 0; 0; 0] in
  let! buf := splice buf (ip + 16) [255; 255; 255; 255] in
  let! hdr := slice buf ip 20 in
  let! csum := ipv4_checksum hdr in
  let! buf := put_be16 buf (ip + 10) csum in
  let udp := ip + 20 in
  let! buf := put_be16 buf udp 68 in
  let! buf := put_be16 buf (udp + 2) 67 in
  let! buf := put_be16 buf (udp + 4) (wrap 16 udp_len) in
  let! buf := put_be16 buf (udp + 6) 0 in
  let dhcp := udp + 8 in
  let! buf := upd buf dhcp 1 in
  let! buf := upd buf (dhcp + 1) 1 in
  let! buf := upd buf (dhcp + 2) 6 in
  let! buf := upd buf (dhcp + 3) 0 in
  let! buf := put_be32 buf (dhcp + 4) DHCP_XID in
  let! buf := put_be16 buf (dhcp + 10) 0x8000 in
  let! buf := splice buf (dhcp + 28) mac in
  let opts := dhcp + 236 in
  let! buf := splice buf opts DHCP_MAGIC in
  let! buf := splice buf (opts + 4) [53; 1; 1; 55; 3; 1; 3; 6; 57; 2; 2; 64] in
  let! buf := upd buf (opts + 16) 255 in
  Ret (total, buf).

(** ** Offers *)

Record DhcpOffer : Type := mkDhcpOffer { yiaddr : list Z; router : list Z; dns : list Z }.

(** The variables of the loop over the options. *)
Record Options : Type := mkOptions { msg_type : Z; o_router : list Z; o_dns : list Z }.
Definition no_options : Options := mkOptions 0 [0; 0; 0; 0] [0; 0; 0; 0].

(** The [match] on one option of [len] bytes at [pos]. *)
Definition take_option (packet : list Z) (opt len pos : Z) (o : Options) : outcome Options :=
  if (opt =? 53) && (1 <=? len) then
    let! t := idx packet pos in Ret (mkOptions t (o_router o) (o_dns o))
  else if (opt =? 3) && (4 <=? len) then
    let! r := slice packet pos 4 in Ret (mkOptions (msg_type o) r (o_dns o))
  else if (opt =? 6) && (4 <=? len) then
    let! d := slice packet pos 4 in Ret (mkOptions (msg_type o) (o_router o) d)
  else Ret o.

Fixpoint options_loop (fuel : nat) (packet : list Z) (pos : Z) (o : Options) : outcome Options :=
  if zlen packet <=? pos then Ret o
  else match fuel with
       | O => OutOfFuel
       | S fuel =>
           let! opt := idx packet pos in
           let pos := pos + 1 in
           if opt =? 255 then Ret o
           else if opt =? 0 then options_loop fuel packet pos o
           else if zlen packet <=? pos then Ret o
           else
             let! len := idx packet pos in
             let pos := pos + 1 in
             if zlen packet <? pos + len then Ret o
             else
               let! o := take_option packet opt len pos o in
               options_loop fuel packet (pos + len) o
       end.

(** [a || b]: [b] is only evaluated when [a] is false. *)
Definition or_else (a : outcome bool) (b : outcome bool) : outcome bool :=
  let! x := a in if x then Ret true else b.
Definition byte_differs (packet : list Z) (i b : Z) : outcome bool := let! x := idx packet i in Ret (negb (x =? b)).
Definition bytes_differ (packet : list Z) (i : Z) (l : list Z) : outcome bool :=
  let! x := slice packet i (zlen l) in Ret (negb (bool_decide (x = l))).

Definition parse_dhcp_offer (packet mac : list Z) : outcome (option DhcpOffer) :=
  let len := zlen packet in
  let! bad := or_else (Ret (len <? 14 + 20 + 8 + 240))
                (or_else (byte_differs packet 12 0x08) (byte_differs packet 13 0x00)) in
  if bad then Ret None else
  let ip := 14 in
  let! b0 := idx packet ip in
  let ihl := Z.land b0 0x0F * 4 in
  let! bad := or_else (Ret (ihl <? 20))
                (or_else (Ret (len <? ip + ihl + 8 + 240)) (byte_differs packet (ip + 9) 17)) in
  if bad then Ret None else
  let udp := ip + ihl in
  let! bad := or_else (let! p := read_be16 packet udp in Ret (negb (p =? 67)))
                (let! p := read_be16 packet (udp + 2) in Ret (negb (p =? 68))) in
  if bad then Ret None else
  let dhcp := udp + 8 in
  let! bad := or_else (byte_differs packet dhcp 2)
                (or_else (byte_differs packet (dhcp + 1) 1) (byte_differs packet (dhcp + 2) 6)) in
  if bad then Ret None else
  let! bad := or_else (let! x := read_be32 packet (dhcp + 4) in Ret (negb (x =? DHCP_XID)))
                (bytes_differ packet (dhcp + 28) mac) in
  if bad then Ret None else
  let! bad := bytes_differ packet (dhcp + 236) DHCP_MAGIC in
  if bad then Ret None else
  let! o := options_loop (length packet) packet (dhcp + 240) no_options in
  if negb (msg_type o =? 2) then Ret None
  else
    let! y := slice packet (dhcp + 16) 4 in
    Ret (Some (mkDhcpOffer y (o_router o) (o_dns o))).

(** ** DHCP: what is sent and what is accepted

    The checksum verifies, the discover message is the one RFC 2131 asks for,
    no received bytes make the parser panic, and an offer is read back as the
    server wrote it. *)

(** ** The checksum *)

(** The sum of the 16-bit words. *)
Fixpoint word_sum (l : list Z) : Z :=
  match l with
  | a :: b :: l => be_val [a; b] + word_sum l
  | _ => 0
  end.

Lemma be_val_pair (a b : Z) : be_val [a; b] = 256 * a + b.
Proof. unfold be_val. simpl. lia. Qed.

(** Induction two bytes at a time. *)
Lemma pair_ind (P : list Z -> Prop) :
  P [] -> (forall a, P [a]) -> (forall a b l, P l -> P (a :: b :: l)) -> forall l, P l.
Proof.
  intros H0 H1 H2 l. enough (P l /\ forall a, P (a :: l)) by tauto.
  induction l as [| b l [IH1 IH2]]; [split; [exact H0 | exact H1] |]. split; [apply IH2 |]. intros a. apply H2, IH1.
Qed.

Lemma word_sum_range (l : list Z) : Forall byte_ok l -> 0 <= word_sum l <= 0x8000 * zlen l.
Proof.
  unfold zlen. induction l as [| a | a b l IH] using pair_ind; intros H; cbn [word_sum length]; [lia | lia |].
  inversion_clear H as [| ?? Ha Hl]. inversion_clear Hl as [| ?? Hb Hl']. specialize (IH Hl').
  rewrite be_val_pair. unfold byte_ok in *. lia.
Qed.

Lemma sum_words_ok (l : list Z) (s : Z) :
  Forall byte_ok l -> 0 <= s -> s + 0x8000 * zlen l < 2 ^ 32 -> sum_words l s = Ret (s + word_sum l).
Proof.
  revert s. unfold zlen. induction l as [| a | a b l IH] using pair_ind; intros s H Hs Hb; cbn [word_sum sum_words length] in *;
    [f_equal; lia | f_equal; lia |].
  inversion_clear H as [| ?? Ha Hl]. inversion_clear Hl as [| ?? Hb' Hl']. rewrite be_val_pair. unfold byte_ok in *.
  rewrite checked_fits by lia. cbn [obind]. rewrite IH; [f_equal; lia | done | lia | lia].
Qed.

(** Folding the carries takes two rounds and keeps the sum modulo 0xFFFF; a
    sum other than zero does not become zero. *)
Lemma fold_step (s : Z) : 0 <= s ->
  Z.land s 0xFFFF + Z.shiftr s 16 = s - 0xFFFF * (s / 65536).
Proof.
  intros H. change 0xFFFF with (Z.ones 16). rewrite Z.land_ones, Z.shiftr_div_pow2 by lia.
  change (2 ^ 16) with 65536. pose proof (Z.div_mod s 65536). change (Z.ones 16) with 65535. lia.
Qed.

Lemma fold_carries_ok (s : Z) : 0 <= s < 2 ^ 32 ->
  exists q, fold_carries 2 s = Ret (s - 0xFFFF * q) /\ 0 <= s - 0xFFFF * q < 65536 /\ (0 < s -> 0 < s - 0xFFFF * q).
Proof.
  intros Hs. cbn [fold_carries].
  assert (Hd : forall x, 0 <= x -> (Z.shiftr x 16 =? 0) = (x <? 65536)).
  { intros x Hx. rewrite Z.shiftr_div_pow2 by lia. change (2 ^ 16) with 65536.
    destruct (Z.ltb_spec x 65536); [by rewrite Z.div_small by lia |].
    apply Z.eqb_neq. pose proof (Z.div_le_lower_bound x 65536 1). lia. }
  rewrite Hd by lia. destruct (Z.ltb_spec s 65536); [exists 0; split_and!; [f_equal; lia | lia .. ] |].
  pose proof (Z.div_mod s 65536). pose proof (Z.mod_pos_bound s 65536).
  assert (0 < s / 65536 < 65536) by (split; [apply Z.div_str_pos; lia | apply Z.div_lt_upper_bound; lia]).
  rewrite fold_step by lia. rewrite checked_fits by lia. cbn [obind]. rewrite Hd by lia.
  set (t := s - 0xFFFF * (s / 65536)) in *.
  destruct (Z.ltb_spec t 65536); [exists (s / 65536); split_and!; [done | lia .. ] |].
  pose proof (Z.div_mod t 65536). pose proof (Z.mod_pos_bound t 65536).
  assert (t / 65536 = 1) by lia.
  rewrite fold_step by lia. rewrite checked_fits by lia. cbn [obind]. rewrite Hd by lia.
  rewrite (proj2 (Z.ltb_lt _ 65536)) by lia.
  exists (s / 65536 + 1). split_and!; [f_equal; lia | lia ..].
Qed.

Lemma lxor_ones16 (x : Z) : 0 <= x < 65536 -> Z.lxor x 0xFFFF = 65535 - x.
Proof.
  intros H. change 0xFFFF with (Z.ones 16).
  replace (Z.lxor x (Z.ones 16)) with (Z.ldiff (Z.ones 16) x).
  - rewrite <- Z.sub_nocarry_ldiff; [done |].
    apply Z.bits_inj'. intros n Hn. rewrite Z.ldiff_spec, Z.bits_0, Z.testbit_ones by lia.
    destruct (Z.ltb_spec n 16); [by rewrite (proj2 (Z.leb_le 0 n) Hn), andb_false_r |].
    rewrite (proj2 (Z.leb_le 0 n) Hn). simpl. rewrite andb_true_r.
    destruct (decide (x = 0)) as [-> |]; [apply Z.bits_0 |].
    apply Z.bits_above_log2; [lia |]. apply Z.log2_lt_pow2; [lia |].
    pose proof (Z.pow_le_mono_r 2 16 n). lia.
  - apply Z.bits_inj'. intros n Hn. rewrite Z.ldiff_spec, Z.lxor_spec, Z.testbit_ones by lia.
    rewrite (proj2 (Z.leb_le 0 n) Hn). simpl. destruct (Z.ltb_spec n 16); [by destruct (Z.testbit x n) |].
    simpl. rewrite xorb_false_r. symmetry.
    destruct (decide (x = 0)) as [-> |]; [apply Z.bits_0 |].
    apply Z.bits_above_log2; [lia |]. apply Z.log2_lt_pow2; [lia |].
    pose proof (Z.pow_le_mono_r 2 16 n). lia.
Qed.

(** The value: the complement of a representative of the sum modulo 0xFFFF. *)
Lemma ipv4_checksum_value (l : list Z) :
  Forall byte_ok l -> zlen l <= 60 ->
  exists q, let s := word_sum l - 0xFFFF * q in
    ipv4_checksum l = Ret (65535 - s) /\ 0 <= s < 65536 /\ (0 < word_sum l -> 0 < s).
Proof.
  intros Hl Hn. pose proof (word_sum_range l Hl) as Hr. unfold ipv4_checksum.
  rewrite sum_words_ok; [| done | lia | lia]. cbn [obind]. rewrite Z.add_0_l.
  destruct (fold_carries_ok (word_sum l)) as (q & -> & Hq & Hp); [lia |]. cbn [obind]. exists q.
  cbv zeta. split_and!; [| lia | lia | done]. unfold wrap. rewrite Z.mod_small by lia. f_equal. by apply lxor_ones16.
Qed.

Lemma word_sum_app (l1 l2 : list Z) : Nat.Even (length l1) -> word_sum (l1 ++ l2) = word_sum l1 + word_sum l2.
Proof.
  induction l1 as [| a | a b l1 IH] using pair_ind; intros He; cbn [word_sum app]; [lia | |].
  - destruct He as [k He]. simpl in He. lia.
  - rewrite IH; [lia |]. destruct He as [k He]. exists (k - 1)%nat. simpl in He. lia.
Qed.

(** The checksum of [ipv4_checksum] verifies: a header with its checksum in
    the field that was zero when it was computed has the checksum zero, which
    is what a receiver tests.  The header may be any that IPv4 allows (an even
    number of bytes, at most 60, not all zero). *)
Theorem ipv4_checksum_verifies (before after : list Z) :
  Forall byte_ok before -> Forall byte_ok after -> Nat.Even (length before) ->
  zlen before + zlen after <= 58 -> 0 < word_sum (before ++ after) ->
  exists csum, ipv4_checksum (before ++ [0; 0] ++ after) = Ret csum /\ 0 <= csum < 2 ^ 16 /\
    ipv4_checksum (before ++ be_bytes 2 csum ++ after) = Ret 0.
Proof.
  intros Hb Ha He Hn Hpos. rewrite word_sum_app in Hpos by done.
  assert (Hlen : forall x y, zlen (before ++ [x; y] ++ after) <= 60) by (intros; unfold zlen in *; rewrite !length_app; simpl; lia).
  destruct (ipv4_checksum_value (before ++ [0; 0] ++ after)) as (q & Hc & Hr & Hp).
  { rewrite !Forall_app. split_and!; [done | by repeat constructor | done]. } { apply Hlen. }
  rewrite word_sum_app in Hc, Hr, Hp by done. cbn [app word_sum] in Hc, Hr, Hp. rewrite be_val_pair in Hc, Hr, Hp.
  cbv zeta in *. set (s := word_sum before + (256 * 0 + 0 + word_sum after) - 65535 * q) in *.
  eexists. split; [exact Hc |]. split; [lia |].
  assert (Hbe : exists x y, be_bytes 2 (65535 - s) = [x; y] /\ byte_ok x /\ byte_ok y /\ 256 * x + y = 65535 - s).
  { exists ((65535 - s) / 256), ((65535 - s) mod 256). unfold be_bytes, byte_ok. simpl.
    pose proof (Z.div_mod (65535 - s) 256). pose proof (Z.mod_pos_bound (65535 - s) 256).
    rewrite (Z.mod_small ((65535 - s) / 256)) by lia. split_and!; [done | lia ..]. }
  destruct Hbe as (x & y & -> & Hx & Hy & Hxy).
  destruct (ipv4_checksum_value (before ++ [x; y] ++ after)) as (q' & Hc' & Hr' & Hp').
  { rewrite !Forall_app. split_and!; [done | by apply Forall_cons_2; [| apply Forall_singleton] | done]. } { apply Hlen. }
  rewrite word_sum_app in Hc', Hr', Hp' by done. cbn [app word_sum] in Hc', Hr', Hp'. rewrite be_val_pair in Hc', Hr', Hp'.
  cbv zeta in *. cbn [app]. rewrite Hc'. f_equal.
  pose proof (word_sum_range _ Hb). pose proof (word_sum_range _ Ha). lia.
Qed.

Lemma ipv4_checksum_verifies_witness : exists csum,
  ipv4_checksum [0x45; 0; 1; 25; 0x10; 1; 0; 0; 64; 17; 0; 0; 0; 0; 0; 0; 255; 255; 255; 255] = Ret csum /\
  0 <= csum < 2 ^ 16 /\
  ipv4_checksum ([0x45; 0; 1; 25; 0x10; 1; 0; 0; 64; 17] ++ be_bytes 2 csum ++ [0; 0; 0; 0; 255; 255; 255; 255]) = Ret 0.
Proof.
  apply (ipv4_checksum_verifies [0x45; 0; 1; 25; 0x10; 1; 0; 0; 64; 17] [0; 0; 0; 0; 255; 255; 255; 255]);
    [by repeat constructor | by repeat constructor | by exists 5%nat | vm_compute; discriminate | reflexivity].
Defined.

(** ** The discover message *)

(** The header of RFC 791 with the checksum [ipv4_checksum] gives, and the
    datagram and message of RFC 768 and RFC 2131. *)
Definition discover_ip (csum : Z) : list Z :=
  [0x45; 0] ++ be_bytes 2 281 ++ be_bytes 2 0x1001 ++ [0; 0; 64; 17] ++ be_bytes 2 csum
  ++ [0; 0; 0; 0] ++ [255; 255; 255; 255].
Definition discover_udp : list Z := be_bytes 2 68 ++ be_bytes 2 67 ++ be_bytes 2 261 ++ [0; 0].
Definition discover_dhcp (mac : list Z) : list Z :=
  [1; 1; 6; 0] ++ be_bytes 4 DHCP_XID ++ [0; 0] ++ be_bytes 2 0x8000 ++ replicate 16 0
  ++ mac ++ replicate 202 0 ++ DHCP_MAGIC ++ [53; 1; 1] ++ [55; 3; 1; 3; 6] ++ [57; 2; 2; 64] ++ [255].

Lemma discover_built (mac : list Z) :
  length mac = 6%nat ->
  exists buf, build_dhcp_discover (replicate (Z.to_nat TX_BUF_SIZE) 0) mac = Ret (295, buf) /\ length buf = 2048%nat /\
    take 295 buf = replicate 6 0xFF ++ mac ++ [8; 0] ++ discover_ip 0x69D4 ++ discover_udp ++ discover_dhcp mac.
Proof.
  intros H. destruct mac as [| m0 [| m1 [| m2 [| m3 [| m4 [| m5 [|]]]]]]]; try discriminate H.
  eexists. split; [vm_compute; reflexivity |]. split; vm_compute; reflexivity.
Qed.

(** [build_dhcp_discover] writes, for any hardware address, a frame to the
    broadcast address that holds one IPv4 datagram with consistent lengths and
    a checksum that verifies, carrying a DHCP discover from port 68 to 67. *)
Theorem dhcp_discover_well_formed (mac : list Z) :
  length mac = 6%nat ->
  exists buf csum, build_dhcp_discover (replicate (Z.to_nat TX_BUF_SIZE) 0) mac = Ret (295, buf) /\
    take 295 buf = replicate 6 0xFF ++ mac ++ [8; 0] ++ discover_ip csum ++ discover_udp ++ discover_dhcp mac /\
    ipv4_checksum (discover_ip csum) = Ret 0 /\
    zlen (discover_ip csum ++ discover_udp ++ discover_dhcp mac) = 281 /\
    zlen (discover_udp ++ discover_dhcp mac) = 261.
Proof.
  intros H. destruct (discover_built mac H) as (buf & Hb & _ & Ht). exists buf, 0x69D4.
  split; [exact Hb |]. split; [exact Ht |]. destruct mac as [| m0 [| m1 [| m2 [| m3 [| m4 [| m5 [|]]]]]]]; try discriminate H.
  split_and!; vm_compute; reflexivity.
Qed.

Lemma dhcp_discover_well_formed_witness :
  exists buf csum, build_dhcp_discover (replicate (Z.to_nat TX_BUF_SIZE) 0) [0x52; 0x54; 0; 0x12; 0x34; 0x56] = Ret (295, buf) /\
    take 295 buf = replicate 6 0xFF ++ [0x52; 0x54; 0; 0x12; 0x34; 0x56] ++ [8; 0] ++ discover_ip csum ++ discover_udp
                   ++ discover_dhcp [0x52; 0x54; 0; 0x12; 0x34; 0x56].
Proof.
  destruct (dhcp_discover_well_formed [0x52; 0x54; 0; 0x12; 0x34; 0x56] eq_refl) as (buf & csum & Hb & Ht & _).
  exists buf, csum. split; [exact Hb | exact Ht].
Defined.

(** ** Offers *)

(** The options of RFC 2132 and what the driver takes from them: the last
    message type, router and name server that are long enough. *)
Inductive DhcpOption : Type :=
  | PadOption
  | Option (code : Z) (data : list Z).
Definition option_ok (x : DhcpOption) : Prop :=
  match x with
  | PadOption => True
  | Option code data => code <> 0 /\ code <> 255 /\ zlen data < 256
  end.
Definition encode_option (x : DhcpOption) : list Z :=
  match x with PadOption => [0] | Option code data => code :: zlen data :: data end.
Definition encode_options (l : list DhcpOption) : list Z := l ≫= encode_option.
Definition apply_option (o : Options) (x : DhcpOption) : Options :=
  match x with
  | PadOption => o
  | Option code data =>
      if (code =? 53) && (1 <=? zlen data) then mkOptions (hd 0 data) (o_router o) (o_dns o)
      else if (code =? 3) && (4 <=? zlen data) then mkOptions (msg_type o) (take 4 data) (o_dns o)
      else if (code =? 6) && (4 <=? zlen data) then mkOptions (msg_type o) (o_router o) (take 4 data)
      else o
  end.

Lemma idx_app_here {A} (pre post : list A) (x : A) (i : Z) : i = zlen pre -> idx (pre ++ x :: post) i = Ret x.
Proof.
  intros ->. apply idx_Ret. unfold zlen. split; [lia |]. rewrite Nat2Z.id. by rewrite list_lookup_middle.
Qed.

Lemma slice_app_here {A} (pre mid post : list A) (i n : Z) :
  i = zlen pre -> n = zlen mid -> slice (pre ++ mid ++ post) i n = Ret mid.
Proof.
  intros -> ->. apply slice_Ret. unfold zlen. rewrite !length_app. split_and!; [lia .. |].
  rewrite !Nat2Z.id, drop_app_length, take_app_length. done.
Qed.

(** Push lengths through lists and leave the arithmetic to [lia]. *)
Ltac zlen_lia :=
  repeat first [rewrite zlen_app | rewrite zlen_cons]; change (zlen (@nil Z)) with 0; lia.

Lemma take_option_spec (pre data post : list Z) (code : Z) (o : Options) :
  take_option (pre ++ data ++ post) code (zlen data) (zlen pre) o = Ret (apply_option o (Option code data)).
Proof.
  unfold take_option, apply_option.
  destruct ((code =? 53) && (1 <=? zlen data)) eqn:E1.
  { apply andb_true_iff in E1 as [_ E1%Z.leb_le]. destruct data as [| d data]; [done |].
    cbn [app hd]. by rewrite idx_app_here. }
  assert (Hs : (4 <=? zlen data) = true -> slice (pre ++ data ++ post) (zlen pre) 4 = Ret (take 4 data)).
  { intros H%Z.leb_le. rewrite <- (take_drop 4 data) at 1. rewrite <- app_assoc. apply slice_app_here; [done |].
    unfold zlen in *. rewrite length_take. lia. }
  destruct ((code =? 3) && (4 <=? zlen data)) eqn:E2; [apply andb_true_iff in E2 as [_ E2]; by rewrite Hs |].
  destruct ((code =? 6) && (4 <=? zlen data)) eqn:E3; [apply andb_true_iff in E3 as [_ E3]; by rewrite Hs | done].
Qed.

(** The loop reads encoded options, up to the end of the packet or to the end
    marker, after which anything may follow. *)
Lemma options_loop_encoded (l : list DhcpOption) (pre tail : list Z) (fuel : nat) (o : Options) :
  Forall option_ok l -> tail = [] \/ hd 0 tail = 255 ->
  (length (encode_options l ++ tail) <= fuel)%nat ->
  options_loop fuel (pre ++ encode_options l ++ tail) (zlen pre) o = Ret (foldl apply_option o l).
Proof.
  intros Hl Ht. revert pre fuel o. induction Hl as [| x l Hx _ IH]; intros pre fuel o Hf.
  { unfold encode_options in *. cbn [mbind list_bind app foldl] in *. destruct Ht as [-> | Ht].
    - rewrite app_nil_r. destruct fuel; cbn [options_loop]; by rewrite (proj2 (Z.leb_le _ _)) by lia.
    - destruct tail as [| t tail]; [done |]. simpl in Ht. subst t. destruct fuel as [| fuel]; [simpl in Hf; lia |].
      cbn [options_loop]. rewrite (proj2 (Z.leb_gt _ _)) by (pose proof (zlen_nonneg tail); zlen_lia).
      by rewrite idx_app_here. }
  unfold encode_options in *. cbn [mbind list_bind foldl] in *. rewrite <- app_assoc in *.
  set (rest := mbind encode_option l ++ tail) in *. pose proof (zlen_nonneg rest).
  destruct x as [| code data]; cbn [encode_option app] in *; (destruct fuel as [| fuel]; [simpl in Hf; lia |]); cbn [options_loop].
  - rewrite (proj2 (Z.leb_gt _ _)) by (zlen_lia).
    rewrite idx_app_here by done. cbn [obind]. simpl (0 =? _). cbv match.
    specialize (IH (pre ++ [0]) fuel o). rewrite zlen_app, <- app_assoc in IH. apply IH. simpl in Hf. lia.
  - destruct Hx as (Hc0 & Hc1 & Hlen). pose proof (zlen_nonneg data).
    rewrite (proj2 (Z.leb_gt _ _)) by (zlen_lia).
    rewrite idx_app_here by done. cbn [obind]. rewrite (proj2 (Z.eqb_neq _ _) Hc1), (proj2 (Z.eqb_neq _ _) Hc0).
    rewrite (proj2 (Z.leb_gt _ _)) by (zlen_lia).
    change (pre ++ code :: zlen data :: data ++ rest) with (pre ++ [code] ++ zlen data :: data ++ rest).
    rewrite app_assoc, idx_app_here by (by rewrite zlen_app). cbn [obind].
    rewrite (proj2 (Z.ltb_ge _ _)) by zlen_lia.
    change ((pre ++ [code]) ++ zlen data :: data ++ rest) with ((pre ++ [code]) ++ [zlen data] ++ data ++ rest).
    rewrite app_assoc. set (pre' := (pre ++ [code]) ++ [zlen data]).
    replace (zlen pre + 1 + 1) with (zlen pre') by (unfold pre'; zlen_lia).
    rewrite take_option_spec. cbn [obind]. rewrite app_assoc, <- (zlen_app pre' data). apply IH.
    simpl in Hf. rewrite length_app in Hf. lia.
Qed.

(** The loop ends on any bytes. *)
Lemma slice_in_range {A} (l : list A) (a n : Z) :
  0 <= a -> 0 <= n -> a + n <= zlen l -> exists r, slice l a n = Ret r.
Proof. intros. eexists. by apply slice_Ret. Qed.

Lemma idx_byte (l : list Z) (i : Z) : Forall byte_ok l -> 0 <= i < zlen l -> exists b, idx l i = Ret b /\ byte_ok b.
Proof.
  intros Hl Hi. destruct (idx_in_range l i Hi) as (b & Hb & Hx). exists b. split; [done |].
  by apply (Forall_lookup_1 _ _ _ _ Hl Hx).
Qed.

Lemma options_loop_total (packet : list Z) (fuel : nat) (pos : Z) (o : Options) :
  Forall byte_ok packet -> 0 <= pos -> zlen packet - pos <= Z.of_nat fuel ->
  exists o', options_loop fuel packet pos o = Ret o'.
Proof.
  intros Hb. revert pos o. induction fuel as [| fuel IH]; intros pos o Hp Hf; cbn [options_loop];
    (destruct (Z.leb_spec (zlen packet) pos); [eauto |]); [lia |].
  destruct (idx_byte packet pos) as (opt & -> & Hopt); [done | lia |]. cbn [obind].
  destruct (opt =? 255); [eauto |]. destruct (opt =? 0); [apply IH; lia |].
  destruct (Z.leb_spec (zlen packet) (pos + 1)); [eauto |].
  destruct (idx_byte packet (pos + 1)) as (len & -> & Hlen); [done | lia |]. cbn [obind]. unfold byte_ok in Hlen.
  destruct (Z.ltb_spec (zlen packet) (pos + 1 + 1 + len)); [eauto |].
  assert (exists o', take_option packet opt len (pos + 1 + 1) o = Ret o') as [o' ->].
  { unfold take_option. destruct (Z.leb_spec 1 len), (Z.leb_spec 4 len); rewrite ?andb_true_r, ?andb_false_r; [.. | eauto]; try lia;
      repeat case_match; try by eauto.
    all: first [destruct (idx_byte packet (pos + 1 + 1)) as (? & -> & _); [done | lia | by eauto] |
                destruct (slice_in_range packet (pos + 1 + 1) 4) as [? ->]; [lia .. | by eauto]]. }
  cbn [obind]. apply IH; lia.
Qed.

Lemma byte_differs_total (packet : list Z) (i b : Z) : 0 <= i < zlen packet -> exists r, byte_differs packet i b = Ret r.
Proof. intros H. unfold byte_differs. destruct (idx_in_range packet i H) as (x & -> & _). simpl. eauto. Qed.
Lemma bytes_differ_total (packet l : list Z) (i : Z) :
  0 <= i -> i + zlen l <= zlen packet -> exists r, bytes_differ packet i l = Ret r.
Proof.
  intros. unfold bytes_differ. destruct (slice_in_range packet i (zlen l)) as [x ->]; [done | apply zlen_nonneg | done |].
  simpl. eauto.
Qed.
Lemma read_be16_total (packet : list Z) (i : Z) : 0 <= i -> i + 2 <= zlen packet -> exists v, read_be16 packet i = Ret v.
Proof.
  intros. unfold read_be16. destruct (idx_in_range packet i) as (? & -> & _); [lia |].
  destruct (idx_in_range packet (i + 1)) as (? & -> & _); [lia |]. simpl. eauto.
Qed.
Lemma read_be32_total (packet : list Z) (i : Z) : 0 <= i -> i + 4 <= zlen packet -> exists v, read_be32 packet i = Ret v.
Proof.
  intros. unfold read_be32. do 4 (edestruct (idx_in_range packet) as (? & -> & _); [| cbn [obind]]; [lia |]). eauto.
Qed.

(** Take the next access of the goal, which is in range. *)
Ltac access_total :=
  match goal with
  | |- context [byte_differs ?p ?i ?b] => destruct (byte_differs_total p i b) as [[] ->]; [lia | |]
  | |- context [bytes_differ ?p ?i ?l] => destruct (bytes_differ_total p l i) as [[] ->]; [lia | lia | |]
  | |- context [read_be16 ?p ?i] => destruct (read_be16_total p i) as [? ->]; [lia | lia |]
  | |- context [read_be32 ?p ?i] => destruct (read_be32_total p i) as [? ->]; [lia | lia |]
  end; cbn [obind or_else]; repeat case_match; try by eauto.

Lemma parse_dhcp_offer_total (packet mac : list Z) :
  Forall byte_ok packet -> zlen mac = 6 -> exists r, parse_dhcp_offer packet mac = Ret r.
Proof.
  intros Hb Hm. unfold parse_dhcp_offer, or_else. cbn [obind].
  destruct (Z.ltb_spec (zlen packet) (14 + 20 + 8 + 240)); [eauto |]. do 2 access_total.
  destruct (idx_byte packet 14) as (b0 & -> & Hb0); [done | lia |]. cbn [obind].
  destruct (Z.ltb_spec (Z.land b0 0x0F * 4) 20); [eauto |]. cbn [obind].
  destruct (Z.ltb_spec (zlen packet) (14 + Z.land b0 0x0F * 4 + 8 + 240)); [eauto |].
  set (ihl := Z.land b0 0x0F * 4) in *. assert (zlen DHCP_MAGIC = 4) by done.
  repeat access_total.
  all: destruct (options_loop_total packet (length packet) (14 + ihl + 8 + 240) no_options) as [o ->];
    [done | lia | unfold zlen; lia |]. cbn [obind].
  case_match; [eauto |]. destruct (slice_in_range packet (14 + ihl + 8 + 16) 4) as [? ->]; [lia .. |]. simpl. eauto.
Qed.

(** A reply of a server, as RFC 2131 lays it out; the fields the driver does
    not look at are arbitrary. *)
Record Reply : Type := mkReply {
  rp_eth : list Z;        (* the two hardware addresses *)
  rp_b0 : Z;              (* version and header length *)
  rp_ip1 : list Z;        (* up to the protocol *)
  rp_ip2 : list Z;        (* checksum, addresses, options *)
  rp_udp : list Z;        (* length, checksum *)
  rp_hops : Z;
  rp_secs : list Z;       (* secs, flags, ciaddr *)
  rp_yiaddr : list Z;
  rp_siaddr : list Z;     (* siaddr, giaddr *)
  rp_rest : list Z;       (* the rest of chaddr, sname, file *)
  rp_options : list DhcpOption;
  rp_tail : list Z
}.
Definition reply_ok (r : Reply) : Prop :=
  zlen (rp_eth r) = 12 /\ zlen (rp_ip1 r) = 8 /\ zlen (rp_ip2 r) = Z.land (rp_b0 r) 0x0F * 4 - 10 /\
  20 <= Z.land (rp_b0 r) 0x0F * 4 /\ zlen (rp_udp r) = 4 /\ zlen (rp_secs r) = 8 /\
  zlen (rp_yiaddr r) = 4 /\ zlen (rp_siaddr r) = 8 /\ zlen (rp_rest r) = 202 /\
  Forall option_ok (rp_options r) /\ (rp_tail r = [] \/ hd 0 (rp_tail r) = 255).
Definition encode_reply (r : Reply) (mac : list Z) : list Z :=
  rp_eth r ++ [8; 0] ++ [rp_b0 r] ++ rp_ip1 r ++ [17] ++ rp_ip2 r ++ [0; 67; 0; 68] ++ rp_udp r
  ++ [2; 1; 6] ++ [rp_hops r] ++ [0x70; 0x6f; 0x73; 0x35] ++ rp_secs r ++ rp_yiaddr r ++ rp_siaddr r
  ++ mac ++ rp_rest r ++ DHCP_MAGIC ++ encode_options (rp_options r) ++ rp_tail r.

Lemma idx_cons_here {A} (x : A) (l : list A) (i : Z) : i = 0 -> idx (x :: l) i = Ret x.
Proof. by intros ->. Qed.
Lemma idx_app_skip {A} (l1 l2 : list A) (i : Z) : zlen l1 <= i -> idx (l1 ++ l2) i = idx l2 (i - zlen l1).
Proof.
  unfold zlen. intros H. unfold idx. zcases; [lia .. | lia |]. rewrite lookup_app_r by lia.
  replace (Z.to_nat i - length l1)%nat with (Z.to_nat (i - Z.of_nat (length l1))) by lia. done.
Qed.
Lemma idx_cons_skip {A} (x : A) (l : list A) (i : Z) : 0 < i -> idx (x :: l) i = idx l (i - 1).
Proof. intros H. change (x :: l) with ([x] ++ l). rewrite idx_app_skip; [done | unfold zlen; simpl; lia]. Qed.
Lemma slice_app_skip {A} (l1 l2 : list A) (a n : Z) : zlen l1 <= a -> slice (l1 ++ l2) a n = slice l2 (a - zlen l1) n.
Proof.
  intros H. unfold slice. rewrite zlen_app. pose proof (zlen_nonneg l1). zcases; simpl; try lia; [| done ..].
  f_equal. f_equal. unfold zlen in *. rewrite drop_app_ge by lia. f_equal. lia.
Qed.
Lemma slice_cons_skip {A} (x : A) (l : list A) (a n : Z) : 0 < a -> slice (x :: l) a n = slice l (a - 1) n.
Proof. intros H. change (x :: l) with ([x] ++ l). rewrite slice_app_skip; [done | unfold zlen; simpl; lia]. Qed.
Lemma slice_app_first {A} (l1 l2 : list A) (a n : Z) : a = 0 -> n = zlen l1 -> slice (l1 ++ l2) a n = Ret l1.
Proof. intros -> ->. apply (slice_app_here [] l1 l2); done. Qed.

(** Walk to the place of an access. *)
Ltac seek :=
  repeat first
    [ rewrite idx_cons_here by lia | rewrite idx_cons_skip by lia | rewrite idx_app_skip by lia
    | rewrite slice_app_first by (done || lia) | rewrite slice_cons_skip by lia | rewrite slice_app_skip by lia ];
  cbn [obind].

Lemma parse_dhcp_encoded (r : Reply) (mac : list Z) :
  reply_ok r -> zlen mac = 6 ->
  parse_dhcp_offer (encode_reply r mac) mac =
  let o := foldl apply_option no_options (rp_options r) in
  Ret (if msg_type o =? 2 then Some (mkDhcpOffer (rp_yiaddr r) (o_router o) (o_dns o)) else None).
Proof.
  intros (He & H1 & H2 & Hihl & Hu & Hs & Hy & Hsi & Hr & Ho & Ht) Hm.
  set (packet := encode_reply r mac). set (ihl := Z.land (rp_b0 r) 0x0F * 4) in *.
  set (opts := encode_options (rp_options r) ++ rp_tail r).
  assert (Hlen : zlen packet = 14 + ihl + 8 + 240 + zlen opts).
  { unfold packet, encode_reply. fold opts. assert (zlen DHCP_MAGIC = 4) by done. zlen_lia. }
  pose proof (zlen_nonneg opts). cbv zeta.
  assert (Hopt : options_loop (length packet) packet (14 + ihl + 8 + 240) no_options =
                 Ret (foldl apply_option no_options (rp_options r))).
  { set (n := length packet). assert (Hn : (length opts <= n)%nat) by (unfold zlen in Hlen; lia).
    unfold packet, encode_reply. rewrite !app_assoc. rewrite <- (app_assoc _ (encode_options _)).
    match goal with |- options_loop _ (?pre ++ _) _ _ = _ => replace (14 + ihl + 8 + 240) with (zlen pre) end.
    - by apply options_loop_encoded.
    - assert (zlen DHCP_MAGIC = 4) by done. zlen_lia. }
  assert (idx packet 12 = Ret 8 /\ idx packet 13 = Ret 0 /\ idx packet 14 = Ret (rp_b0 r)) as (E12 & E13 & E14)
    by (unfold packet, encode_reply; cbn [app]; split_and!; seek; done).
  unfold parse_dhcp_offer, or_else, byte_differs, bytes_differ, read_be16, read_be32.
  rewrite Hlen, E12, E13, E14. rewrite (proj2 (Z.ltb_ge _ _)) by lia. cbn [obind]. simpl (negb _). cbv match. cbn [obind].
  fold ihl. rewrite Hopt. rewrite (proj2 (Z.ltb_ge ihl 20)) by lia. cbn [obind]. rewrite (proj2 (Z.ltb_ge _ _)) by lia.
  unfold packet, encode_reply. cbn [app]. seek.
  change (be_val [0; 67]) with 67. change (be_val [0; 68]) with 68.
  change (be_val [0x70; 0x6f; 0x73; 0x35]) with DHCP_XID. rewrite !bool_decide_eq_true_2 by done. simpl (negb _). cbv match.
  destruct (msg_type _ =? 2); simpl; done.
Qed.

(** [parse_dhcp_offer] returns on every sequence of bytes the network can
    deliver, and it reads every well-formed reply of a server to this machine
    back: an offer with the address, router and name server the server put
    into it, and nothing from a reply that is not an offer. *)
Theorem dhcp_offers_read_back (mac : list Z) :
  zlen mac = 6 ->
  (forall packet, Forall byte_ok packet -> exists r, parse_dhcp_offer packet mac = Ret r) /\
  (forall r, reply_ok r ->
     parse_dhcp_offer (encode_reply r mac) mac =
     let o := foldl apply_option no_options (rp_options r) in
     Ret (if msg_type o =? 2 then Some (mkDhcpOffer (rp_yiaddr r) (o_router o) (o_dns o)) else None)).
Proof.
  intros Hm. split; [intros packet Hp; by apply parse_dhcp_offer_total | intros r Hr; by apply parse_dhcp_encoded].
Qed.

Definition demo_reply : Reply :=
  mkReply (replicate 12 1) 0x45 (replicate 8 0) (replicate 10 0) (replicate 4 0) 0 (replicate 8 0)
    [10; 0; 2; 15] (replicate 8 0) (replicate 202 0)
    [Option 53 [2]; PadOption; Option 3 [10; 0; 2; 2]; Option 51 [0; 1; 81; 128]; Option 6 [10; 0; 2; 3]] [255; 0; 0].
Lemma dhcp_offers_read_back_witness :
  parse_dhcp_offer (encode_reply demo_reply [0x52; 0x54; 0; 0x12; 0x34; 0x56]) [0x52; 0x54; 0; 0x12; 0x34; 0x56] =
  Ret (Some (mkDhcpOffer [10; 0; 2; 15] [10; 0; 2; 2] [10; 0; 2; 3])).
Proof.
  destruct (dhcp_offers_read_back [0x52; 0x54; 0; 0x12; 0x34; 0x56] eq_refl) as [_ H].
  refine (H demo_reply _). unfold reply_ok. split_and!; try reflexivity; [| by right].
  cbn [demo_reply rp_options]. repeat (apply Forall_cons_2; [by vm_compute |]). by apply Forall_nil_2.
Defined.
