(* ===== verification/E1000.v ===== *)
(** * E1000 network driver

    The controller part of [kernel/src/drivers/e1000.rs]: descriptor rings in
    memory that the processor and the card share, and the DHCP exchange of
    [configure].  The packets themselves are in [Dhcp.v].  Waits are bounded by
    the constants of the source.  The lines written to the serial port are left
    out. *)

From S2P Require Import Prelude Bytes Frames BootInfo X86 Vmm Machine Pci Dhcp.

Definition RX_COUNT : Z := 16.
Definition TX_COUNT : Z := 16.
Definition E_CTRL : Z := 0x0000.
Definition E_STATUS : Z := 0x0008.
Definition REG_IMC : Z := 0x00D8.
Definition REG_RCTL : Z := 0x0100.
Definition REG_TCTL : Z := 0x0400.
Definition REG_TIPG : Z := 0x0410.
Definition REG_RDBAL : Z := 0x2800.
Definition REG_RDBAH : Z := 0x2804.
Definition REG_RDLEN : Z := 0x2808.
Definition REG_RDH : Z := 0x2810.
Definition REG_RDT : Z := 0x2818.
Definition REG_TDBAL : Z := 0x3800.
Definition REG_TDBAH : Z := 0x3804.
Definition REG_TDLEN : Z := 0x3808.
Definition REG_TDH : Z := 0x3810.
Definition REG_TDT : Z := 0x3818.
Definition REG_RAL0 : Z := 0x5400.
Definition REG_RAH0 : Z := 0x5404.
Definition CTRL_SLU : Z := Z.shiftl 1 6.
Definition CTRL_RST : Z := Z.shiftl 1 26.
Definition STATUS_LU : Z := Z.shiftl 1 1.
Definition RCTL_EN : Z := Z.shiftl 1 1.
Definition RCTL_BAM : Z := Z.shiftl 1 15.
Definition RCTL_SECRC : Z := Z.shiftl 1 26.
Definition TCTL_EN : Z := Z.shiftl 1 1.
Definition TCTL_PSP : Z := Z.shiftl 1 3.
Definition TX_CMD_EOP : Z := Z.shiftl 1 0.
Definition TX_CMD_IFCS : Z := Z.shiftl 1 1.
Definition TX_CMD_RS : Z := Z.shiftl 1 3.
Definition DESC_STATUS_DD : Z := Z.shiftl 1 0.
Definition RX_STATUS_EOP : Z := Z.shiftl 1 1.

Record NetInfo : Type := mkNetInfo {
  ni_present : Z; ni_link_up : Z; ni_configured : Z; ni_tx_packets : Z; ni_rx_packets : Z;
  ni_mac : list Z; ni_ipv4 : list Z; ni_router : list Z; ni_dns : list Z }.
Definition net_info_empty : NetInfo := mkNetInfo 0 0 0 0 0 (replicate 6 0) (replicate 4 0) (replicate 4 0) (replicate 4 0).

Record NetController : Type := mkNetController {
  e_mmio : Z; e_mac : list Z; rx_ring_phys : Z; tx_ring_phys : Z; rx_bufs : list Z; tx_buf_phys : Z;
  rx_head : Z; tx_tail : Z; tx_packets : Z; rx_packets : Z }.

(** The statics [NET] and [LAST_INFO] on the machine. *)
Record NetState (A W : Type) : Type := mkNetState {
  NET : option NetController; NET_LAST_INFO : NetInfo; net_machine : Machine A W }.
Arguments mkNetState {A W} _ _ _.
Arguments NET {A W} _.
Arguments NET_LAST_INFO {A W} _.
Arguments net_machine {A W} _.

(** The turns of the loops that wait. *)
Definition RESET_TURNS : nat := Z.to_nat 100000.
Definition SEND_TURNS : nat := Z.to_nat 100000.
Definition OFFER_TURNS : nat := Z.to_nat 20000000.

Section E1000.
  Context {A W : Type} {FA : FrameAllocator A} {PE : PageTableEntry} {MIO : Mmio W}.
Abbreviation M X := (MM (A := A) (W := W) X).

Definition e_read32 (mmio off : Z) : M Z := let* a := reg_addr mmio off in reg_read 32 a.
Definition e_write32 (mmio off v : Z) : M unit := let* a := reg_addr mmio off in reg_write 32 a v.

(** [for _ in 0..n { if done { break; } spin_loop(); }], and whether it broke. *)
Fixpoint wait_for (n : nat) (done : M bool) : M bool :=
  match n with
  | O => st_ret false
  | S n =>
      let* b := done in
      if b then st_ret true else let* _ := dev_turn in wait_for n done
  end.

Definition read_mac (mmio : Z) : M (list Z) :=
  let* l := e_read32 mmio REG_RAL0 in
  let* h := e_read32 mmio REG_RAH0 in
  let mac := le_bytes 4 l ++ take 2 (le_bytes 4 h) in
  st_ret (if bool_decide (mac = replicate 6 0) then [0x52; 0x54; 0x00; 0x12; 0x34; 0x56] else mac).

(** ** Bringing the card up *)

Definition zeroed_frame {X} (k : Z -> M (option X)) : M (option X) :=
  let* f := mc_alloc in
  match f with
  | None => st_ret None
  | Some a => let* _ := mem_zero a PAGE_SIZE in k a
  end.
(** The loop that allocates the receive buffers. *)
Fixpoint rx_frames {X} (n : nat) (bufs : list Z) (k : list Z -> M (option X)) : M (option X) :=
  match n with
  | O => k bufs
  | S n => zeroed_frame (fun phys => rx_frames n (bufs ++ [phys]) k)
  end.

Definition controller_new (mmio : Z) : M (option NetController) :=
  let* r := mc_alloc in
  match r with
  | None => st_ret None
  | Some rx_ring =>
      let* t := mc_alloc in
      match t with
      | None => st_ret None
      | Some tx_ring =>
          let* _ := mem_zero rx_ring PAGE_SIZE in
          let* _ := mem_zero tx_ring PAGE_SIZE in
          rx_frames (Z.to_nat RX_COUNT) [] (fun bufs => zeroed_frame (fun tx_buf =>
            let* _ := e_write32 mmio REG_IMC 0xFFFFFFFF in
            let* c := e_read32 mmio E_CTRL in
            let* _ := e_write32 mmio E_CTRL (Z.lor c CTRL_RST) in
            let* _ := wait_for RESET_TURNS (let* c := e_read32 mmio E_CTRL in st_ret (Z.land c CTRL_RST =? 0)) in
            let* _ := e_write32 mmio REG_IMC 0xFFFFFFFF in
            let* c := e_read32 mmio E_CTRL in
            let* _ := e_write32 mmio E_CTRL (Z.lor c CTRL_SLU) in
            let* _ := wait_for RESET_TURNS (let* s := e_read32 mmio E_STATUS in st_ret (negb (Z.land s STATUS_LU =? 0))) in
            let* mac := read_mac mmio in
            st_ret (Some (mkNetController mmio mac rx_ring tx_ring bufs tx_buf 0 0 0 0))))
      end
  end.

(** A descriptor is 16 bytes. *)
Definition desc_at (ring i : Z) : Z := ring + 16 * i.
Definition rx_desc_zero (addr : Z) : list Z := le_bytes 8 addr ++ replicate 8 0.
Definition tx_desc_zero : list Z := replicate 12 0 ++ [DESC_STATUS_DD] ++ replicate 3 0.

Fixpoint rx_descs (ring i : Z) (bufs : list Z) : M unit :=
  match bufs with
  | [] => st_ret tt
  | b :: bufs => let* _ := mem_store (desc_at ring i) (rx_desc_zero b) in rx_descs ring (i + 1) bufs
  end.
Fixpoint tx_descs (ring i : Z) (n : nat) : M unit :=
  match n with
  | O => st_ret tt
  | S n => let* _ := mem_store (desc_at ring i) tx_desc_zero in tx_descs ring (i + 1) n
  end.

Definition init_rings (c : NetController) : M unit :=
  let m := e_mmio c in
  let* _ := rx_descs (rx_ring_phys c) 0 (rx_bufs c) in
  let* _ := tx_descs (tx_ring_phys c) 0 (Z.to_nat TX_COUNT) in
  let ral := le_val (take 4 (e_mac c)) in
  let rah := Z.lor (le_val (take 2 (drop 4 (e_mac c)))) (Z.shiftl 1 31) in
  let* _ := e_write32 m REG_RAL0 ral in
  let* _ := e_write32 m REG_RAH0 rah in
  let* _ := e_write32 m REG_RDBAL (wrap 32 (rx_ring_phys c)) in
  let* _ := e_write32 m REG_RDBAH (wrap 32 (Z.shiftr (rx_ring_phys c) 32)) in
  let* _ := e_write32 m REG_RDLEN (RX_COUNT * 16) in
  let* _ := e_write32 m REG_RDH 0 in
  let* _ := e_write32 m REG_RDT (RX_COUNT - 1) in
  let* _ := e_write32 m REG_RCTL (Z.lor (Z.lor RCTL_EN RCTL_BAM) RCTL_SECRC) in
  let* _ := e_write32 m REG_TDBAL (wrap 32 (tx_ring_phys c)) in
  let* _ := e_write32 m REG_TDBAH (wrap 32 (Z.shiftr (tx_ring_phys c) 32)) in
  let* _ := e_write32 m REG_TDLEN (TX_COUNT * 16) in
  let* _ := e_write32 m REG_TDH 0 in
  let* _ := e_write32 m REG_TDT 0 in
  let* _ := e_write32 m REG_TIPG (Z.lor (Z.lor 10 (Z.shiftl 8 10)) (Z.shiftl 6 20)) in
  e_write32 m REG_TCTL (Z.lor (Z.lor (Z.lor TCTL_EN TCTL_PSP) (Z.shiftl 15 4)) (Z.shiftl 64 12)).

(** ** Packets *)

Definition net_snapshot (c : NetController) (configured : bool) : M NetInfo :=
  let* s := e_read32 (e_mmio c) E_STATUS in
  st_ret (mkNetInfo 1 (if Z.land s STATUS_LU =? 0 then 0 else 1) (if configured then 1 else 0)
            (tx_packets c) (rx_packets c) (e_mac c) (replicate 4 0) (replicate 4 0) (replicate 4 0)).

Definition saturating_inc (x : Z) : Z := Z.min (x + 1) (2 ^ 32 - 1).

Definition send_packet (c : NetController) (packet : list Z) : M (bool * NetController) :=
  if TX_BUF_SIZE <? zlen packet then st_ret (false, c)
  else
    let* _ := mem_store (tx_buf_phys c) packet in
    let idx := tx_tail c in
    let desc := desc_at (tx_ring_phys c) idx in
    let cmd := Z.lor (Z.lor TX_CMD_EOP TX_CMD_IFCS) TX_CMD_RS in
    let* _ := mem_store desc (le_bytes 8 (tx_buf_phys c) ++ le_bytes 2 (wrap 16 (zlen packet)) ++ [0; cmd; 0; 0] ++ le_bytes 2 0) in
    let next := (idx + 1) mod TX_COUNT in
    let* _ := e_write32 (e_mmio c) REG_TDT next in
    let* sent := wait_for SEND_TURNS (let* st := mem_load (desc + 12) 1 in st_ret (negb (Z.land (le_val st) DESC_STATUS_DD =? 0))) in
    if sent then
      st_ret (true, mkNetController (e_mmio c) (e_mac c) (rx_ring_phys c) (tx_ring_phys c) (rx_bufs c) (tx_buf_phys c)
                      (rx_head c) next (saturating_inc (tx_packets c)) (rx_packets c))
    else st_ret (false, c).

(** One turn of [poll_offer]: the descriptor at the head, if it is filled. *)
Definition poll_one (c : NetController) : M (option (option DhcpOffer) * NetController) :=
  let idx := rx_head c in
  let desc := desc_at (rx_ring_phys c) idx in
  let* st := mem_load (desc + 12) 1 in
  let status := le_val st in
  if Z.land status DESC_STATUS_DD =? 0 then st_ret (None, c)
  else
    let* l := mem_load (desc + 8) 2 in
    let len := le_val l in
    let eop := negb (Z.land status RX_STATUS_EOP =? 0) in
    let* buf := st_lift (Prelude.idx (rx_bufs c) idx) in
    let* packet := mem_load buf (Z.to_nat len) in
    let* offer := (if eop then st_lift (parse_dhcp_offer packet (e_mac c)) else st_ret None) in
    let* _ := mem_store (desc + 8) (le_bytes 2 0) in
    let* _ := mem_store (desc + 12) [0] in
    let* _ := e_write32 (e_mmio c) REG_RDT idx in
    st_ret (Some offer, mkNetController (e_mmio c) (e_mac c) (rx_ring_phys c) (tx_ring_phys c) (rx_bufs c) (tx_buf_phys c)
                          ((idx + 1) mod RX_COUNT) (tx_tail c) (tx_packets c) (saturating_inc (rx_packets c))).
Fixpoint poll_loop (n : nat) (c : NetController) : M (option DhcpOffer * NetController) :=
  match n with
  | O => st_ret (None, c)
  | S n =>
      let* (r, c) := poll_one c in
      match r with
      | None => st_ret (None, c)
      | Some (Some o) => st_ret (Some o, c)
      | Some None => poll_loop n c
      end
  end.
Definition poll_offer (c : NetController) : M (option DhcpOffer * NetController) := poll_loop (Z.to_nat RX_COUNT) c.

(** ** The entry points *)

(** The loop of [configure]. *)
Fixpoint await_offer (n : nat) (c : NetController) : M (option DhcpOffer * NetController) :=
  match n with
  | O => st_ret (None, c)
  | S n =>
      let* (o, c) := poll_offer c in
      match o with
      | Some o => st_ret (Some o, c)
      | None => let* _ := dev_turn in await_offer n c
      end
  end.

Definition with_rx (i : NetInfo) (rx : Z) : NetInfo :=
  mkNetInfo (ni_present i) (ni_link_up i) (ni_configured i) (ni_tx_packets i) rx (ni_mac i) (ni_ipv4 i) (ni_router i) (ni_dns i).
Definition with_tx (i : NetInfo) (tx : Z) : NetInfo :=
  mkNetInfo (ni_present i) (ni_link_up i) (ni_configured i) tx (ni_rx_packets i) (ni_mac i) (ni_ipv4 i) (ni_router i) (ni_dns i).

(** What [configure] returns and the controller it leaves behind. *)
Definition exchange (c : NetController) : M (NetInfo * NetController) :=
  let* info := net_snapshot c false in
  let* (len, packet) := st_lift (build_dhcp_discover (replicate (Z.to_nat TX_BUF_SIZE) 0) (e_mac c)) in
  let* p := st_lift (slice packet 0 len) in
  let* (sent, c) := send_packet c p in
  if negb sent then st_ret (info, c)
  else
    let info := with_tx info (tx_packets c) in
    let* (offer, c) := await_offer OFFER_TURNS c in
    match offer with
    | Some o =>
        let* i := net_snapshot c true in
        st_ret (mkNetInfo (ni_present i) (ni_link_up i) (ni_configured i) (ni_tx_packets i) (rx_packets c) (ni_mac i)
                  (yiaddr o) (router o) (dns o), c)
    | None => st_ret (with_rx info (rx_packets c), c)
    end.
Definition configure : ST (NetState A W) NetInfo := fun s =>
  match NET s with
  | None => Ret (NET_LAST_INFO s, s)
  | Some c =>
      let! (info, c, m) := exchange c (net_machine s) in
      Ret (info, mkNetState (Some c) info m)
  end.
Definition last_info : ST (NetState A W) NetInfo := fun s => Ret (NET_LAST_INFO s, s).

Definition is_e1000 (d : Device) : bool :=
  (d_vendor_id d =? 0x8086)
  && ((d_device_id d =? 0x100e) || (d_device_id d =? 0x100f) || (d_device_id d =? 0x1004) || (d_device_id d =? 0x1008)).
(** [init_from_pci], as the new values of the two statics. *)
Definition e1000_init_from_pci (DEVICES : list Device) : M (option (NetController * NetInfo)) :=
  match list_find is_e1000 DEVICES with
  | None => st_ret None
  | Some (_, dev) =>
      let* b := st_lift (idx (d_bars dev) 0) in
      match b with
      | None => st_ret None
      | Some bar0 =>
          if bar_io bar0 then st_ret None
          else
            let* _ := enable_mmio_bus_master dev in
            let* r := on_vm (map_mmio (bar_base bar0) (bar_size bar0)) in
            match r with
            | Err _ => st_ret None
            | Ok mmio =>
                let* c := controller_new mmio in
                match c with
                | None => st_ret None
                | Some c =>
                    let* _ := init_rings c in
                    let* info := net_snapshot c false in
                    st_ret (Some (c, info))
                end
            end
      end
  end.
End E1000.

(** ** The network driver against any network

    Whatever the card does to the rings and whatever packets arrive, the DHCP
    exchange of [configure] returns and reports well-formed values. *)

(** Four bytes of an address. *)
Definition addr_ok (l : list Z) : Prop := length l = 4%nat /\ Forall byte_ok l.
Lemma zero_addr_ok : addr_ok (replicate 4 0).
Proof. split; [done | by apply Forall_replicate]. Qed.

(** ** The shape of an offer *)

Definition options_ok (o : Options) : Prop := addr_ok (o_router o) /\ addr_ok (o_dns o).

Lemma slice_addr (l r : list Z) (a : Z) : Forall byte_ok l -> slice l a 4 = Ret r -> addr_ok r.
Proof.
  intros Hl H. pose proof (slice_length _ _ _ _ H) as Hn. apply slice_Ret in H as (_ & _ & _ & ->). split; [unfold zlen in Hn; lia |].
  by apply Forall_take, Forall_drop.
Qed.

Lemma take_option_shape (packet : list Z) (opt len pos : Z) (o o' : Options) :
  Forall byte_ok packet -> options_ok o -> take_option packet opt len pos o = Ret o' -> options_ok o'.
Proof.
  intros Hp [Hr Hd]. unfold take_option.
  repeat case_match; intros Hr'; inv_bind Hr'; injection Hr' as <-; split; cbn [o_router o_dns]; try done; by eapply slice_addr.
Qed.

Lemma options_loop_shape (packet : list Z) (fuel : nat) : Forall byte_ok packet -> forall (pos : Z) (o o' : Options),
  options_ok o -> options_loop fuel packet pos o = Ret o' -> options_ok o'.
Proof.
  intros Hp. induction fuel as [| fuel IH]; intros pos o o' Ho; cbn [options_loop]; (case_match; [intros [= <-]; done |]); [done |].
  intros (opt & _ & Hl)%obind_Ret. repeat case_match; try (injection Hl as <-; done); [by apply IH in Hl |].
  apply obind_Ret in Hl as (len & _ & Hl). case_match; [injection Hl as <-; done |].
  apply obind_Ret in Hl as (o1 & Ht & Hl). apply IH in Hl; [done |]. by eapply take_option_shape.
Qed.

Definition offer_ok (o : DhcpOffer) : Prop := addr_ok (yiaddr o) /\ addr_ok (router o) /\ addr_ok (dns o).

Lemma parse_offer_shape (packet mac : list Z) (o : DhcpOffer) :
  Forall byte_ok packet -> parse_dhcp_offer packet mac = Ret (Some o) -> offer_ok o.
Proof.
  intros Hp H. unfold parse_dhcp_offer in H. cbv zeta in H.
  repeat (apply obind_Ret in H; destruct H as (? & ? & H); try (case_match; [discriminate H |])).
  injection H as <-. split; [by eapply slice_addr |].
  rename select (options_loop _ _ _ _ = _) into Hl. apply options_loop_shape in Hl; [exact Hl | done |].
  by repeat constructor.
Qed.

(** ** Driver code that cannot fail *)

(** A register read has the width of the access, and devices write bytes. *)
Class MmioLaws (W : Type) `{Mmio W} : Prop := {
  mmio_read_range : forall bits a w, 0 <= bits -> 0 <= (mmio_read bits a w).1 < 2 ^ bits;
  dev_run_bytes : forall m w, mem_ok m -> mem_ok (dev_run m w).1
}.

Section Safe.
  Context {A W : Type} {FA : FrameAllocator A} {PE : PageTableEntry} {MIO : Mmio W} {ML : MmioLaws W}.
Abbreviation M X := (MM (A := A) (W := W) X).

(** From memory of bytes the code returns, with memory of bytes and a result
    that satisfies [Q]. *)
Definition safe {X} (c : M X) (Q : X -> Prop) : Prop := forall s, mem_ok (vm_mem (mc_vm s)) ->
  exists x s', c s = Ret (x, s') /\ mem_ok (vm_mem (mc_vm s')) /\ Q x.

Lemma safe_ret {X} (x : X) (Q : X -> Prop) : Q x -> safe (st_ret x) Q.
Proof. intros HQ s Hs. by exists x, s. Qed.
Lemma safe_bind {X Y} (c : M X) (k : X -> M Y) (P : X -> Prop) (Q : Y -> Prop) :
  safe c P -> (forall x, P x -> safe (k x) Q) -> safe (st_bind c k) Q.
Proof.
  intros Hc Hk s Hs. destruct (Hc s Hs) as (x & s1 & E & H1 & HP). rewrite (st_bind_step _ _ _ _ _ E). by apply Hk.
Qed.
Lemma safe_lift {X} (o : outcome X) (x : X) (Q : X -> Prop) : o = Ret x -> Q x -> safe (st_lift o) Q.
Proof. intros -> HQ s Hs. by exists x, s. Qed.
Lemma safe_read (mmio off : Z) : 0 <= mmio -> 0 <= off -> mmio + off < 2 ^ 64 -> safe (e_read32 mmio off) (fun v => 0 <= v < 2 ^ 32).
Proof.
  intros H1 H2 H3 s Hs. unfold e_read32, reg_addr, st_bind, st_lift. rewrite checked_fits by lia. cbn [obind]. unfold reg_read.
  pose proof (mmio_read_range 32 (mmio + off) (mc_dev s)) as Hr. destruct (mmio_read 32 (mmio + off) (mc_dev s)) as [v w].
  eexists v, _. split; [done |]. split; [done |]. apply Hr. lia.
Qed.
Lemma safe_write (mmio off v : Z) : 0 <= mmio -> 0 <= off -> mmio + off < 2 ^ 64 -> safe (e_write32 mmio off v) (fun _ => True).
Proof.
  intros H1 H2 H3 s Hs. unfold e_write32, reg_addr, st_bind, st_lift. rewrite checked_fits by lia. by eexists _, _.
Qed.
Lemma safe_load (a : Z) (n : nat) : safe (mem_load a n) (fun l => length l = n /\ Forall byte_ok l).
Proof.
  intros s Hs. eexists _, _. split; [reflexivity |]. split; [done |]. split; [apply load_length | by apply load_ok].
Qed.
Lemma safe_mem_store (a : Z) (l : list Z) : Forall byte_ok l -> safe (mem_store a l) (fun _ => True).
Proof. intros Hl s Hs. eexists _, _. split; [reflexivity |]. split; [by apply store_mem_ok | done]. Qed.
Lemma safe_turn : safe dev_turn (fun _ => True).
Proof.
  intros s Hs. unfold dev_turn. pose proof (dev_run_bytes (vm_mem (mc_vm s)) (mc_dev s) Hs) as H.
  destruct (dev_run (vm_mem (mc_vm s)) (mc_dev s)) as [m w]. by eexists _, _.
Qed.
Lemma safe_wait (n : nat) (done : M bool) : safe done (fun _ => True) -> safe (wait_for n done) (fun _ => True).
Proof.
  intros Hd. induction n as [| n IH]; cbn [wait_for]; [by apply safe_ret |].
  apply (safe_bind _ _ (fun _ => True)); [done | intros [] _; [by apply safe_ret |]].
  apply (safe_bind _ _ (fun _ => True)); [apply safe_turn | done].
Qed.

(** ** The exchange *)

Record card_ok (c : NetController) : Prop := mkCardOk {
  co_mmio : 0 <= e_mmio c /\ e_mmio c + 0x6000 <= 2 ^ 64;
  co_mac : length (e_mac c) = 6%nat /\ Forall byte_ok (e_mac c);
  co_bufs : length (rx_bufs c) = 16%nat;
  co_head : 0 <= rx_head c < 16;
  co_tail : 0 <= tx_tail c < 16;
  co_tx : 0 <= tx_packets c < 2 ^ 32;
  co_rx : 0 <= rx_packets c < 2 ^ 32
}.

(** The values of a report: bits, counters and addresses. *)
Definition info_ok (i : NetInfo) : Prop :=
  ni_present i = 1 /\ (ni_link_up i = 0 \/ ni_link_up i = 1) /\ (ni_configured i = 0 \/ ni_configured i = 1) /\
  0 <= ni_tx_packets i < 2 ^ 32 /\ 0 <= ni_rx_packets i < 2 ^ 32 /\
  length (ni_mac i) = 6%nat /\ Forall byte_ok (ni_mac i) /\ addr_ok (ni_ipv4 i) /\ addr_ok (ni_router i) /\ addr_ok (ni_dns i).

Lemma saturating_inc_range (x : Z) : 0 <= x < 2 ^ 32 -> 0 <= saturating_inc x < 2 ^ 32.
Proof. unfold saturating_inc. lia. Qed.

(** The same card with other counters. *)
Definition same_card (c c' : NetController) : Prop := card_ok c' /\ e_mac c' = e_mac c.

Lemma snapshot_safe (c : NetController) (b : bool) : card_ok c -> safe (net_snapshot c b) (fun i => info_ok i /\ ni_mac i = e_mac c).
Proof.
  intros [[Hm1 Hm2] [Hmac Hmb] ? ? ? ? ?]. unfold net_snapshot. eapply safe_bind; [apply safe_read; [lia | done | unfold E_STATUS; lia] |].
  intros v _. apply safe_ret. split; [| done]. unfold info_ok. cbn.
  split_and!; first [done | lia | exact zero_addr_ok | destruct b; by auto | destruct (_ =? 0); by auto].
Qed.

Lemma send_packet_safe (c : NetController) (packet : list Z) :
  card_ok c -> Forall byte_ok packet -> safe (send_packet c packet) (fun r => same_card c r.2).
Proof.
  intros Hc Hp. pose proof Hc as [[Hm1 Hm2] ? ? ? Ht ? ?]. unfold send_packet. case_match; [by apply safe_ret |].
  eapply safe_bind; [by apply safe_mem_store | intros _ _].
  eapply safe_bind; [apply safe_mem_store; rewrite !Forall_app; split_and!; try apply le_bytes_ok; by repeat constructor | intros _ _].
  eapply safe_bind; [apply safe_write; [lia | done | unfold REG_TDT; lia] | intros _ _].
  eapply safe_bind; [apply safe_wait; eapply safe_bind; [apply safe_load | intros l _; by apply safe_ret] | intros [] _; apply safe_ret; [| by split]].
  split; [| done]. cbn [snd]. constructor; cbn; try done; [apply Z.mod_pos_bound; done | by apply saturating_inc_range].
Qed.

Lemma poll_one_safe (c : NetController) : card_ok c ->
  safe (poll_one c) (fun r => same_card c r.2 /\ forall o, r.1 = Some (Some o) -> offer_ok o).
Proof.
  intros Hc. pose proof Hc as [[Hm1 Hm2] [Hmac Hmb] Hbufs Hh ? ? ?]. unfold poll_one.
  eapply safe_bind; [apply safe_load | intros st _]. case_match; [by apply safe_ret |].
  eapply safe_bind; [apply safe_load | intros l _].
  destruct (idx_in_range (rx_bufs c) (rx_head c)) as (buf & Eb & _); [unfold zlen; lia |].
  eapply (safe_bind _ _ (fun _ => True)); [by apply (safe_lift _ buf) | intros b _].
  eapply safe_bind; [apply safe_load | intros packet [_ Hpb]].
  eapply (safe_bind _ _ (fun r => forall o, r = Some o -> offer_ok o)).
  { case_match; [| by apply safe_ret]. destruct (parse_dhcp_offer_total packet (e_mac c)) as [r Er]; [done | unfold zlen; lia |].
    apply (safe_lift _ r); [done |]. intros o ->. by eapply parse_offer_shape. }
  intros offer Ho. eapply safe_bind; [apply safe_mem_store, le_bytes_ok | intros _ _].
  eapply safe_bind; [apply safe_mem_store; by repeat constructor | intros _ _].
  eapply safe_bind; [apply safe_write; [lia | done | unfold REG_RDT; lia] | intros _ _].
  apply safe_ret. cbn [fst snd]. split; [| intros o [= ->]; by apply Ho]. split; [| done].
  constructor; cbn; try done; [apply Z.mod_pos_bound; done | by apply saturating_inc_range].
Qed.

Lemma poll_loop_safe (n : nat) : forall c, card_ok c ->
  safe (poll_loop n c) (fun r => same_card c r.2 /\ forall o, r.1 = Some o -> offer_ok o).
Proof.
  induction n as [| n IH]; intros c Hc; cbn [poll_loop]; [by apply safe_ret |].
  eapply safe_bind; [by apply poll_one_safe | intros [r c'] [[Hc' Em] Ho]]. cbn [fst snd] in *.
  destruct r as [[o |] |]; [by apply safe_ret; split; [split |]; [..| intros ? [= <-]; apply Ho] | | by apply safe_ret].
  intros s Hs. destruct (IH c' Hc' s Hs) as (x & s' & E & Hs' & [Hx Em'] & Hox). exists x, s'. split_and!; try done.
  split; [done | congruence].
Qed.

Lemma await_offer_safe (n : nat) : forall c, card_ok c ->
  safe (await_offer n c) (fun r => same_card c r.2 /\ forall o, r.1 = Some o -> offer_ok o).
Proof.
  induction n as [| n IH]; intros c Hc; cbn [await_offer]; [by apply safe_ret |].
  eapply safe_bind; [by apply poll_loop_safe | intros [r c'] [[Hc' Em] Ho]]. cbn [fst snd] in *.
  destruct r as [o |]; [by apply safe_ret; split; [split |]; [..| intros ? [= <-]; apply Ho] |].
  eapply safe_bind; [apply safe_turn | intros _ _].
  intros s Hs. destruct (IH c' Hc' s Hs) as (x & s' & E & Hs' & [Hx Em'] & Hox). exists x, s'. split_and!; try done.
  split; [done | congruence].
Qed.

Lemma discover_bytes (mac : list Z) : Forall byte_ok mac ->
  Forall byte_ok (replicate 6 0xFF ++ mac ++ [8; 0] ++ discover_ip 0x69D4 ++ discover_udp ++ discover_dhcp mac).
Proof.
  intros Hm. unfold discover_ip, discover_udp, discover_dhcp, DHCP_MAGIC, be_bytes.
  rewrite !Forall_app. split_and!; try done; try (apply Forall_rev, le_bytes_ok); try (by apply Forall_replicate).
  all: repeat (apply Forall_cons_2; [done |]); by apply Forall_nil_2.
Qed.

Lemma exchange_safe (c : NetController) : card_ok c ->
  safe (exchange c) (fun r => info_ok r.1 /\ same_card c r.2 /\ ni_mac r.1 = e_mac c).
Proof.
  intros Hc. pose proof Hc as [_ [Hmac Hmb] _ _ _ _ _]. unfold exchange.
  eapply safe_bind; [by apply snapshot_safe | intros info [Hi Em]].
  destruct (discover_built (e_mac c) Hmac) as (buf & Eb & Hl & Ht).
  eapply (safe_bind _ _ (fun r => r = (295, buf))); [by eapply safe_lift | intros [len packet] [= -> ->]].
  assert (Es : slice buf 0 295 = Ret (take 295 buf)) by (apply slice_Ret; unfold zlen; rewrite Hl; done).
  eapply (safe_bind _ _ (fun p => p = take 295 buf)); [by eapply safe_lift | intros p ->].
  eapply safe_bind; [apply send_packet_safe; [done | rewrite Ht; by apply discover_bytes] | intros [sent c1] [Hc1 Em1]]. cbn [fst snd] in *.
  destruct sent; cbn [negb]; [| by apply safe_ret]. pose proof Hc1 as [_ _ _ _ _ Htx _].
  eapply safe_bind; [by apply await_offer_safe | intros [offer c2] [[Hc2 Em2] Ho]]. cbn [fst snd] in *.
  pose proof Hc2 as [_ _ _ _ _ _ Hrx]. destruct offer as [o |].
  - eapply safe_bind; [by apply snapshot_safe | intros i [Hi2 Emi]]. apply safe_ret. cbn [fst snd].
    destruct (Ho o eq_refl) as (Hy & Hr & Hd). unfold info_ok in *. cbn. split; [| split; [split; [done |] |]; congruence]. tauto.
  - apply safe_ret. cbn [fst snd]. unfold info_ok in *. cbn. split; [tauto |]. split; [split; [done |] | done]. congruence.
Qed.

(** C39 [net_configure] with any behaviour of the card and any packets: it
    returns, the report has the shape programs are promised (flags 0 or 1,
    32-bit counters, a hardware address of six bytes, three addresses of four
    bytes), it is what [net_info] shows from then on, and the card is in order
    for the next call. *)
Theorem net_configure_safe (s : NetState A W) (c : NetController) :
  NET s = Some c -> card_ok c -> mem_ok (vm_mem (mc_vm (net_machine s))) ->
  exists info c' m', configure s = Ret (info, mkNetState (Some c') info m') /\ info_ok info /\ ni_mac info = e_mac c /\
    card_ok c' /\ e_mac c' = e_mac c /\ mem_ok (vm_mem (mc_vm m')) /\
    last_info (mkNetState (Some c') info m') = Ret (info, mkNetState (Some c') info m').
Proof.
  intros Hs Hc Hm. destruct (exchange_safe c Hc (net_machine s) Hm) as ([info c'] & m' & E & Hm' & Hi & [Hc' Em] & Emi). cbn [fst snd] in *.
  exists info, c', m'. split_and!; try done. unfold configure. rewrite Hs, E. reflexivity.
Qed.
End Safe.

(** A card whose registers read as zero and that does nothing. *)
Module IdleCard.
#[local] Instance idle_mmio : Mmio unit := {| mmio_read _ _ w := (0, w); mmio_write _ _ _ w := w; dev_run m w := (m, w) |}.
#[local] Instance idle_laws : MmioLaws unit.
Proof. split; [intros bits a w Hb; simpl; split; [lia | by apply Z.pow_pos_nonneg] | done]. Qed.
Definition card : NetController :=
  mkNetController 0xFFFF900000000000 [0x52; 0x54; 0; 0x12; 0x34; 0x56] 0x1000 0x2000 (replicate 16 0x3000) 0x4000 0 0 0 0.
Definition state : NetState unit unit := mkNetState (Some card) net_info_empty (mkMachine (mkVmm (fun _ => 0) tt None 0 0) tt).
End IdleCard.

Lemma net_configure_safe_witness : exists info s',
  configure (MIO := IdleCard.idle_mmio) IdleCard.state = Ret (info, s') /\ info_ok info.
Proof.
  destruct (net_configure_safe (ML := IdleCard.idle_laws) IdleCard.state IdleCard.card eq_refl)
    as (info & c' & m' & E & Hi & _).
  - constructor; cbn; try lia; try done. split; [done |]. repeat (apply Forall_cons_2; [done |]). by apply Forall_nil_2.
  - intros a. cbn. done.
  - exists info, (mkNetState (Some c') info m'). split; [exact E | exact Hi].
Defined.
