(* ===== verification/Ac97.v ===== *)
(** * AC97 audio driver

    [kernel/src/drivers/ac97.rs]: a square wave in a buffer that the controller
    plays.  The registers are in the I/O space.  The lines written to the
    serial port are left out. *)

From S2P Require Import Prelude Bytes Frames BootInfo X86 Vmm PortIo Machine Pci.

Definition NABM_PO_BDBAR : Z := 0x10.
Definition NABM_PO_LVI : Z := 0x15.
Definition NABM_PO_SR : Z := 0x16.
Definition NABM_PO_PICB : Z := 0x18.
Definition NABM_PO_CR : Z := 0x1B.
Definition NAM_RESET : Z := 0x00.
Definition NAM_MASTER_VOLUME : Z := 0x02.
Definition NAM_PCM_VOLUME : Z := 0x18.
Definition NAM_EXT_AUDIO_ID : Z := 0x28.
Definition NAM_EXT_AUDIO_CTRL : Z := 0x2A.
Definition NAM_PCM_FRONT_RATE : Z := 0x2C.
Definition CR_RPBM : Z := 1.
Definition CR_RR : Z := Z.shiftl 1 1.
Definition SR_BCIS : Z := Z.shiftl 1 3.
Definition SR_LVBCI : Z := Z.shiftl 1 2.
Definition TONE_RATE : Z := 48000.
Definition TONE_MS : Z := 180.
Definition TONE_FRAMES : Z := TONE_RATE * TONE_MS / 1000.
Definition AUDIO_BYTES : Z := TONE_FRAMES * 4.

Record AudioInfo : Type := mkAudioInfo { ai_present : Z; ai_played : Z; ai_sample_rate : Z; ai_frames : Z }.
Definition audio_info_empty : AudioInfo := mkAudioInfo 0 0 0 0.

Record AudioController : Type := mkAudioController { nam : Z; nabm : Z; bdl_phys : Z; pcm_phys : Z }.

(** [pmm::alloc_contig]. *)
Class ContigAllocator (A : Type) : Type := { fa_alloc_contig : A -> Z -> outcome (option Z * A) }.

(** The statics [AUDIO] and [LAST_INFO], memory and the I/O space. *)
Record AudioState (A W : Type) : Type := mkAudioState {
  AUDIO : option AudioController; AUDIO_LAST_INFO : AudioInfo; au_vm : Vmm A; au_ports : W }.
Arguments mkAudioState {A W} _ _ _ _.
Arguments AUDIO {A W} _.
Arguments AUDIO_LAST_INFO {A W} _.
Arguments au_vm {A W} _.
Arguments au_ports {A W} _.

(** The turns of the loops that wait. *)
Definition CODEC_TURNS : nat := Z.to_nat 10000.
Definition PLAY_TURNS : nat := Z.to_nat 8000000.

Section Ac97.
  Context {A W : Type} {FA : FrameAllocator A} {CA : ContigAllocator A} {PIO : PortIO W}.
(** Memory and ports. *)
Definition AM (X : Type) : Type := ST (Vmm A * W) X.

Definition on_mem {X} (c : VM (A := A) X) : AM X := fun s => let! (x, v) := c s.1 in Ret (x, (v, s.2)).
Definition on_ports {X} (c : ST W X) : AM X := fun s => let! (x, w) := c s.2 in Ret (x, (s.1, w)).

(** [self.nam + off] and [self.nabm + off] on [u16]. *)
Definition port_at (base off : Z) : ST W Z := st_lift (checked 16 (base + off)).
Definition nam_read16 (c : AudioController) (off : Z) : ST W Z := let* p := port_at (nam c) off in inw p.
Definition nam_write16 (c : AudioController) (off v : Z) : ST W unit := let* p := port_at (nam c) off in outw p v.
Definition nabm_read8 (c : AudioController) (off : Z) : ST W Z := let* p := port_at (nabm c) off in inb p.
Definition nabm_write8 (c : AudioController) (off v : Z) : ST W unit := let* p := port_at (nabm c) off in outb p v.
Definition nabm_read16 (c : AudioController) (off : Z) : ST W Z := let* p := port_at (nabm c) off in inw p.
Definition nabm_write16 (c : AudioController) (off v : Z) : ST W unit := let* p := port_at (nabm c) off in outw p v.
Definition nabm_write32 (c : AudioController) (off v : Z) : ST W unit := let* p := port_at (nabm c) off in outl p v.

(** [for _ in 0..n { if done { break; } }] of [reset_pcm_out]. *)
Fixpoint reset_wait (n : nat) (c : AudioController) : ST W unit :=
  match n with
  | O => st_ret tt
  | S n =>
      let* cr := nabm_read8 c NABM_PO_CR in
      if Z.land cr CR_RR =? 0 then st_ret tt else reset_wait n c
  end.
Definition reset_pcm_out (c : AudioController) : ST W unit :=
  let* _ := nabm_write8 c NABM_PO_CR CR_RR in
  let* _ := reset_wait CODEC_TURNS c in
  nabm_write16 c NABM_PO_SR 0x1C.

Definition init_codec (c : AudioController) : ST W unit :=
  let* _ := nam_write16 c NAM_RESET 0 in
  let* _ := nam_write16 c NAM_MASTER_VOLUME 0x0000 in
  let* _ := nam_write16 c NAM_PCM_VOLUME 0x0808 in
  let* ext := nam_read16 c NAM_EXT_AUDIO_ID in
  let* _ := (if negb (Z.land ext 1 =? 0) then
               let* _ := nam_write16 c NAM_EXT_AUDIO_CTRL 1 in
               nam_write16 c NAM_PCM_FRONT_RATE (wrap 16 TONE_RATE)
             else st_ret tt) in
  reset_pcm_out c.

Definition audio_controller_new (nam nabm : Z) : AM (option AudioController) :=
  let* b := on_mem vm_alloc in
  match b with
  | None => st_ret None
  | Some bdl =>
      let* p := on_mem (fun v => let! (r, fa) := fa_alloc_contig (vm_frames v) (div_ceil AUDIO_BYTES PAGE_SIZE) in
                                 Ret (r, mkVmm (vm_mem v) fa (KERNEL_AS v) (MMIO_NEXT v) (CR3 v))) in
      match p with
      | None => st_ret None
      | Some pcm =>
          let* _ := on_mem (set_mem (fun m => fill m bdl PAGE_SIZE 0)) in
          let* _ := on_mem (set_mem (fun m => fill m pcm AUDIO_BYTES 0)) in
          st_ret (Some (mkAudioController nam nabm bdl pcm))
      end
  end.

(** ** The tone *)

(** The two bytes of an [i16]. *)
Definition i16_bytes (v : Z) : list Z := le_bytes 2 (wrap 16 v).
(** Frame [i] of the wave: the same sample on both channels. *)
Definition tone_frame (period i : Z) : list Z :=
  let sample := if (i mod period) <? period / 2 then 6000 else -6000 in
  i16_bytes sample ++ i16_bytes sample.
Fixpoint tone_loop (n : nat) (pcm period i : Z) (m : PhysMem) : PhysMem :=
  match n with
  | O => m
  | S n => tone_loop n pcm period (i + 1) (store m (pcm + 4 * i) (tone_frame period i))
  end.
Definition fill_tone (c : AudioController) (freq_hz frames : Z) : VM (A := A) unit :=
  let period := Z.max (TONE_RATE / Z.max freq_hz 1) 2 in
  set_mem (tone_loop (Z.to_nat frames) (pcm_phys c) period 0).

(** The loop of [play]. *)
Fixpoint play_wait (n : nat) (c : AudioController) : ST W bool :=
  match n with
  | O => st_ret false
  | S n =>
      let* sr := nabm_read16 c NABM_PO_SR in
      if negb (Z.land sr (Z.lor SR_BCIS SR_LVBCI) =? 0) then st_ret true
      else let* _ := nabm_read16 c NABM_PO_PICB in play_wait n c
  end.
Definition play (c : AudioController) (frames : Z) : AM bool :=
  let* _ := on_ports (reset_pcm_out c) in
  let desc := le_bytes 4 (wrap 32 (pcm_phys c)) ++ le_bytes 2 (wrap 16 (frames * 2)) ++ le_bytes 2 (Z.shiftl 1 15) in
  let* _ := on_mem (set_mem (fun m => store m (bdl_phys c) desc)) in
  let* _ := on_ports (nabm_write32 c NABM_PO_BDBAR (wrap 32 (bdl_phys c))) in
  let* _ := on_ports (nabm_write8 c NABM_PO_LVI 0) in
  let* _ := on_ports (nabm_write16 c NABM_PO_SR 0x1C) in
  let* _ := on_ports (nabm_write8 c NABM_PO_CR CR_RPBM) in
  let* ended := on_ports (play_wait PLAY_TURNS c) in
  let* _ := on_ports (nabm_write8 c NABM_PO_CR 0) in
  let* _ := (if ended : bool then on_ports (nabm_write16 c NABM_PO_SR 0x1C) else st_ret tt) in
  st_ret ended.

(** ** The entry points *)

Definition tone_frames (duration_ms : Z) : Z :=
  let frames := TONE_RATE * Z.min duration_ms 500 / 1000 in
  Z.max 1 (Z.min frames TONE_FRAMES).
Definition play_tone (freq_hz duration_ms : Z) : ST (AudioState A W) AudioInfo := fun s =>
  match AUDIO s with
  | None => Ret (AUDIO_LAST_INFO s, s)
  | Some c =>
      let frames := tone_frames duration_ms in
      let! (played, (v, w)) :=
        (let* _ := on_mem (fill_tone c (Z.max 110 (Z.min freq_hz 1760)) frames) in
         play c frames) (au_vm s, au_ports s) in
      let info := mkAudioInfo 1 (if played : bool then 1 else 0) TONE_RATE frames in
      Ret (info, mkAudioState (Some c) info v w)
  end.
Definition audio_last_info : ST (AudioState A W) AudioInfo := fun s => Ret (AUDIO_LAST_INFO s, s).

(** [init_from_pci] from the device on, after [enable_io_bus_master]. *)
Definition is_ac97 (d : Device) : bool := (d_vendor_id d =? 0x8086) && (d_device_id d =? 0x2415).
Definition ac97_bars (dev : Device) : outcome (option (Z * Z)) :=
  let! b0 := idx (d_bars dev) 0 in
  match b0 with
  | None => Ret None
  | Some nam_bar =>
      let! b1 := idx (d_bars dev) 1 in
      match b1 with
      | None => Ret None
      | Some nabm_bar =>
          Ret (if negb (bar_io nam_bar) || negb (bar_io nabm_bar) then None
               else Some (wrap 16 (bar_base nam_bar), wrap 16 (bar_base nabm_bar)))
      end
  end.
Definition ac97_bring_up (nam nabm : Z) : AM (option (AudioController * AudioInfo)) :=
  let* c := audio_controller_new nam nabm in
  match c with
  | None => st_ret None
  | Some c =>
      let* _ := on_ports (init_codec c) in
      st_ret (Some (c, mkAudioInfo 1 0 TONE_RATE TONE_FRAMES))
  end.
End Ac97.

(** ** Playing a tone

    Whatever a program asks for and whatever the sound hardware answers,
    [play_tone] returns, stays inside its buffers and leaves the wave of the
    requested pitch in memory. *)

Section Tone.
  Context {A W : Type} {FA : FrameAllocator A} {CA : ContigAllocator A} {PIO : PortIO W}.

(** The registers of the controller are ports, and its two buffers do not
    overlap. *)
Definition audio_ok (c : AudioController) : Prop :=
  0 <= nam c < 0xFF00 /\ 0 <= nabm c < 0xFF00 /\
  (bdl_phys c + 8 <= pcm_phys c \/ pcm_phys c + AUDIO_BYTES <= bdl_phys c).

(** ** The registers always answer *)

Definition total {S X} (c : ST S X) : Prop := forall s, exists x s', c s = Ret (x, s').

Lemma total_ret {S X} (x : X) : total (st_ret (S := S) x).
Proof. intros s. by eexists _, _. Qed.
Lemma total_bind {S X Y} (c : ST S X) (k : X -> ST S Y) : total c -> (forall x, total (k x)) -> total (st_bind c k).
Proof. intros Hc Hk s. destruct (Hc s) as (x & s1 & E). rewrite (st_bind_step _ _ _ _ _ E). apply Hk. Qed.
Lemma total_port (base off : Z) : 0 <= base < 0xFF00 -> 0 <= off < 256 -> total (S := W) (port_at base off).
Proof. intros Hb Ho s. unfold port_at, st_lift. rewrite checked_fits by lia. by eexists _, _. Qed.
Lemma total_io {X} (f : W -> X * W) : total (fun w => Ret (f w)).
Proof. intros s. destruct (f s) as [x s']. by exists x, s'. Qed.
End Tone.

#[export] Hint Resolve total_ret total_bind total_port total_io : persona.

(** Every register access of the driver is total. *)
Ltac total_regs :=
  repeat first
    [ apply total_bind; [| intros ?]
    | apply total_ret
    | apply total_port; [assumption | by (split; vm_compute)]
    | apply total_io
    | case_match ].

Section Playing.
  Context {A W : Type} {FA : FrameAllocator A} {CA : ContigAllocator A} {PIO : PortIO W}.

Lemma reset_total (c : AudioController) : audio_ok c -> total (reset_pcm_out c).
Proof.
  intros (Hm & Hb & _). unfold reset_pcm_out. apply total_bind; [unfold nabm_write8; total_regs | intros _].
  apply total_bind; [| intros _; unfold nabm_write16; total_regs]. generalize CODEC_TURNS as n.
  induction n as [| n IH]; cbn [reset_wait]; [apply total_ret |]. unfold nabm_read8. total_regs. exact IH.
Qed.

Lemma play_wait_total (c : AudioController) (n : nat) : audio_ok c -> total (play_wait n c).
Proof.
  intros (Hm & Hb & _). induction n as [| n IH]; cbn [play_wait]; [apply total_ret |]. unfold nabm_read16. total_regs. exact IH.
Qed.

(** ** The wave *)

Lemma tone_frame_length (period i : Z) : zlen (tone_frame period i) = 4.
Proof. reflexivity. Qed.

Lemma tone_loop_spec (n : nat) : forall (pcm period i : Z) (m : PhysMem),
  (forall x, ~ (pcm + 4 * i <= x < pcm + 4 * (i + Z.of_nat n)) -> tone_loop n pcm period i m x = m x) /\
  (forall j, i <= j < i + Z.of_nat n -> load (tone_loop n pcm period i m) (pcm + 4 * j) 4 = tone_frame period j).
Proof.
  induction n as [| n IH]; intros pcm period i m; cbn [tone_loop]; [split; [done | lia] |].
  destruct (IH pcm period (i + 1) (store m (pcm + 4 * i) (tone_frame period i))) as [H1 H2]. split.
  - intros x Hx. rewrite H1 by lia. apply store_other. rewrite tone_frame_length. lia.
  - intros j Hj. destruct (Z.eq_dec j i) as [-> |]; [| apply H2; lia].
    rewrite (load_ext (store m (pcm + 4 * i) (tone_frame period i))) by (intros x Hx; apply H1; simpl in Hx; lia).
    apply (load_store_same m (pcm + 4 * i) (tone_frame period i)).
Qed.

(** A step on the ports leaves memory alone. *)
Lemma on_ports_total {X} (c : ST W X) (v : Vmm A) (w : W) : total c -> exists x w', on_ports c (v, w) = Ret (x, (v, w')).
Proof. intros Hc. destruct (Hc w) as (x & w' & E). exists x, w'. unfold on_ports. cbn [fst snd]. by rewrite E. Qed.

Definition with_mem (v : Vmm A) (m : PhysMem) : Vmm A := mkVmm m (vm_frames v) (KERNEL_AS v) (MMIO_NEXT v) (CR3 v).
Definition play_desc (c : AudioController) (frames : Z) : list Z :=
  le_bytes 4 (wrap 32 (pcm_phys c)) ++ le_bytes 2 (wrap 16 (frames * 2)) ++ le_bytes 2 (Z.shiftl 1 15).

Lemma play_total (c : AudioController) (frames : Z) (v : Vmm A) (w : W) :
  audio_ok c -> exists ended w', play c frames (v, w) = Ret (ended, (with_mem v (store (vm_mem v) (bdl_phys c) (play_desc c frames)), w')).
Proof.
  intros Hc. pose proof Hc as (Hm & Hb & _). unfold play.
  assert (Hw8 : forall off x, 0 <= off < 256 -> total (nabm_write8 c off x)) by (intros; unfold nabm_write8; total_regs; by apply total_port).
  assert (Hw16 : forall off x, 0 <= off < 256 -> total (nabm_write16 c off x)) by (intros; unfold nabm_write16; total_regs; by apply total_port).
  assert (Hw32 : forall off x, 0 <= off < 256 -> total (nabm_write32 c off x)) by (intros; unfold nabm_write32; total_regs; by apply total_port).
  edestruct (on_ports_total (reset_pcm_out c) v w) as (? & w1 & E1); [by apply reset_total |]. rewrite (st_bind_step _ _ _ _ _ E1).
  erewrite st_bind_step by reflexivity. cbn [fst snd]. fold (play_desc c frames). fold (with_mem v (store (vm_mem v) (bdl_phys c) (play_desc c frames))).
  set (v' := with_mem v _).
  edestruct (on_ports_total (nabm_write32 c NABM_PO_BDBAR (wrap 32 (bdl_phys c))) v' w1) as (? & w2 & E2); [by apply Hw32 |].
  rewrite (st_bind_step _ _ _ _ _ E2).
  edestruct (on_ports_total (nabm_write8 c NABM_PO_LVI 0) v' w2) as (? & w3 & E3); [by apply Hw8 |]. rewrite (st_bind_step _ _ _ _ _ E3).
  edestruct (on_ports_total (nabm_write16 c NABM_PO_SR 0x1C) v' w3) as (? & w4 & E4); [by apply Hw16 |]. rewrite (st_bind_step _ _ _ _ _ E4).
  edestruct (on_ports_total (nabm_write8 c NABM_PO_CR CR_RPBM) v' w4) as (? & w5 & E5); [by apply Hw8 |]. rewrite (st_bind_step _ _ _ _ _ E5).
  edestruct (on_ports_total (play_wait PLAY_TURNS c) v' w5) as (ended & w6 & E6); [by apply play_wait_total |]. rewrite (st_bind_step _ _ _ _ _ E6).
  edestruct (on_ports_total (nabm_write8 c NABM_PO_CR 0) v' w6) as (? & w7 & E7); [by apply Hw8 |]. rewrite (st_bind_step _ _ _ _ _ E7).
  destruct ended.
  - edestruct (on_ports_total (nabm_write16 c NABM_PO_SR 0x1C) v' w7) as (? & w8 & E8); [by apply Hw16 |]. rewrite (st_bind_step _ _ _ _ _ E8).
    by exists true, w8.
  - exists false, w7. reflexivity.
Qed.

Lemma tone_frames_range (duration_ms : Z) : 1 <= tone_frames duration_ms <= TONE_FRAMES.
Proof. unfold tone_frames. change TONE_FRAMES with 8640. lia. Qed.

(** [play_tone] with any arguments and any behaviour of the hardware: it
    returns, the number of frames is between 1 and what the buffer holds,
    memory outside the frames in use and the descriptor is as it was, and every
    frame holds the sample of a square wave of the pitch, clamped to 110 to
    1760 Hz, on both channels. *)
Theorem play_tone_in_bounds (s : AudioState A W) (c : AudioController) (freq_hz duration_ms : Z) :
  AUDIO s = Some c -> audio_ok c -> 0 <= freq_hz < 2 ^ 32 -> 0 <= duration_ms < 2 ^ 32 ->
  let frames := tone_frames duration_ms in
  let period := TONE_RATE / Z.max 110 (Z.min freq_hz 1760) in
  exists info s', play_tone freq_hz duration_ms s = Ret (info, s') /\
    AUDIO s' = Some c /\ AUDIO_LAST_INFO s' = info /\ ai_frames info = frames /\ ai_sample_rate info = TONE_RATE /\
    1 <= frames /\ 4 * frames <= AUDIO_BYTES /\ 27 <= period <= 436 /\
    (forall x, ~ (pcm_phys c <= x < pcm_phys c + 4 * frames) -> ~ (bdl_phys c <= x < bdl_phys c + 8) ->
       vm_mem (au_vm s') x = vm_mem (au_vm s) x) /\
    (forall i, 0 <= i < frames -> load (vm_mem (au_vm s')) (pcm_phys c + 4 * i) 4 = tone_frame period i) /\
    load (vm_mem (au_vm s')) (bdl_phys c) 8 = le_bytes 4 (wrap 32 (pcm_phys c)) ++ le_bytes 2 (2 * frames) ++ [0; 128].
Proof.
  intros Hs Hc Hf Hd frames period. pose proof (tone_frames_range duration_ms) as Hfr. fold frames in Hfr.
  change TONE_FRAMES with 8640 in Hfr. set (freq := Z.max 110 (Z.min freq_hz 1760)) in *.
  assert (Hper : 27 <= period <= 436).
  { split; [apply Z.div_le_lower_bound | apply Z.lt_succ_r, Z.div_lt_upper_bound]; unfold TONE_RATE, freq; lia. }
  assert (Eper : Z.max (TONE_RATE / Z.max freq 1) 2 = period) by (replace (Z.max freq 1) with freq by lia; fold period; lia).
  unfold play_tone. rewrite Hs. cbv zeta. fold freq frames. erewrite st_bind_step by reflexivity. cbn [fst snd].
  rewrite Eper. set (m1 := tone_loop (Z.to_nat frames) (pcm_phys c) period 0 (vm_mem (au_vm s))).
  destruct (play_total c frames (with_mem (au_vm s) m1) (au_ports s) Hc) as (ended & w' & E). unfold with_mem at 1 in E. rewrite E. cbn [obind].
  destruct (tone_loop_spec (Z.to_nat frames) (pcm_phys c) period 0 (vm_mem (au_vm s))) as [H1 H2]. fold m1 in H1, H2.
  destruct Hc as (_ & _ & Hdis). change AUDIO_BYTES with 34560 in *. assert (Hlen : zlen (play_desc c frames) = 8) by reflexivity.
  eexists _, _. split; [reflexivity |]. cbn [AUDIO AUDIO_LAST_INFO ai_frames ai_sample_rate au_vm with_mem vm_mem].
  split_and!; try done; try lia.
  - intros x Hx Hx'. rewrite store_other by lia. apply H1. lia.
  - intros i Hi. rewrite (load_ext m1) by (intros x Hx; apply store_other; simpl in Hx; lia). apply H2. lia.
  - change 8%nat with (length (play_desc c frames)). rewrite load_store_same. unfold play_desc, wrap.
    rewrite (Z.mod_small (frames * 2)) by lia. by rewrite (Z.mul_comm frames 2).
Qed.
End Playing.

(** Ports that read as zero. *)
Module SilentPorts.
#[local] Instance silent_ports : PortIO unit := {| port_in _ _ w := (0, w); port_out _ _ _ w := w |}.
#[local] Instance no_frames : ContigAllocator unit := {| fa_alloc_contig a _ := Ret (None, a) |}.
Definition controller : AudioController := mkAudioController 0xC000 0xC400 0x1000 0x10000.
Definition state : AudioState unit unit := mkAudioState (Some controller) audio_info_empty (mkVmm (fun _ => 0) tt None 0 0) tt.
End SilentPorts.

Lemma play_tone_in_bounds_witness : exists info s',
  play_tone (PIO := SilentPorts.silent_ports) 440 100 SilentPorts.state = Ret (info, s') /\ ai_frames info = 4800 /\ load (vm_mem (au_vm s')) (0x10000 + 4 * 60) 4 = tone_frame 109 60.
Proof.
  destruct (play_tone_in_bounds (PIO := SilentPorts.silent_ports) SilentPorts.state SilentPorts.controller 440 100)
    as (info & s' & E & _ & _ & Hf & _ & _ & _ & _ & _ & Hw & _);
    [reflexivity | unfold audio_ok; cbn; split_and!; [lia .. | left; lia] | lia | lia |].
  exists info, s'. split; [exact E |]. split; [exact Hf |]. apply (Hw 60). split; [lia | vm_compute; reflexivity].
Defined.
