(* ===== verification/Elf.v ===== *)
(** * ELF loader

    [kernel/src/fs/elf.rs].  The headers are parsed by the crate [xmas_elf],
    which is a parameter: [elf_new] stands for [ElfFile::new] with the entry
    point and the program headers of the result; [elf.input] is the slice it
    was given. *)

From S2P Require Import Prelude Bytes Frames X86 Vmm VmmInv VmmProps VmmRanges VmmCopy.

Inductive ElfError : Type := Parse | Map | Copy.

(** [program::Type]: what matters is whether it is [Load]. *)
Inductive PhType : Type := Load | OtherType.
#[global] Instance PhType_eq_dec : EqDecision PhType.
Proof. solve_decision. Defined.

Record Segment : Type := mkSegment { virtual_addr : Z; p_offset : Z; file_size : Z; mem_size : Z; p_flags : Z }.
(** [get_type] fails on a type outside the standard. *)
Inductive ProgramHeader : Type :=
  | Ph32 (t : option PhType)
  | Ph64 (t : option PhType) (p : Segment).
Definition get_type (ph : ProgramHeader) : option PhType := match ph with Ph32 t => t | Ph64 t _ => t end.

Record ElfFile : Type := mkElfFile { entry_point : Z; program_headers : list ProgramHeader }.
Class ElfParser : Type := { elf_new : list Z -> outcome (option ElfFile) }.

Section Elf.
  Context {A : Type} {FA : FrameAllocator A} {PE : PageTableEntry} {EP : ElfParser}.

Definition segment_flags (flags : Z) : Z :=
  let map_flags := MF_USER in
  let map_flags := if negb (Z.land flags 0x2 =? 0) then Z.lor map_flags MF_WRITE else map_flags in
  if Z.land flags 0x1 =? 0 then Z.lor map_flags MF_NX else map_flags.

(** [r.map_err(|_| e)]. *)
Definition map_err {X E E'} (e : E') (c : VM (A := A) (result X E)) : VM (result X E') :=
  let* r := c in st_ret (match r with Ok x => Ok x | Err _ => Err e end).

Definition load_seg (bytes : list Z) (p : Segment) (as_ : AddressSpace) : VM (A := A) (result unit ElfError) :=
  let virt := virtual_addr p in
  let aligned_virt := Z.land virt (2 ^ 64 - PAGE_SIZE) in
  let page_off := virt - aligned_virt in
  let* span := st_lift (checked 64 (page_off + mem_size p)) in
  let pages := div_ceil span PAGE_SIZE in
  let? _ := map_err Map (map_anon as_ aligned_virt pages (Z.lor (segment_flags (p_flags p)) MF_WRITE)) in
  let? _ := map_err Copy (zero_user as_ virt (mem_size p)) in
  let start := p_offset p in
  let* end_ := st_lift (checked 64 (start + file_size p)) in
  let* data := st_lift (slice bytes start (end_ - start)) in
  let? _ := map_err Copy (copy_to_user as_ virt data) in
  st_ret (Ok tt).

Fixpoint load_headers (bytes : list Z) (phs : list ProgramHeader) (as_ : AddressSpace) : VM (result unit ElfError) :=
  match phs with
  | [] => st_ret (Ok tt)
  | ph :: phs =>
      if decide (get_type ph = Some Load) then
        match ph with
        | Ph64 _ p => let? _ := load_seg bytes p as_ in load_headers bytes phs as_
        | Ph32 _ => st_ret (Err Parse)
        end
      else load_headers bytes phs as_
  end.
Definition elf_load (bytes : list Z) (as_ : AddressSpace) : VM (result Z ElfError) :=
  let* elf := st_lift (elf_new bytes) in
  match elf with
  | None => st_ret (Err Parse)
  | Some elf =>
      let? _ := load_headers bytes (program_headers elf) as_ in
      st_ret (Ok (entry_point elf))
  end.
End Elf.

(** ** What is in memory after a load *)

Definition user_byte {A} `{PageTableEntry} (s : Vmm A) (r va : Z) : option Z :=
  vm_mem s <$> phys_for_virt (vm_mem s) r va.

(** A segment that lies in the user half and whose bytes are in the file. *)
Definition seg_ok (bytes : list Z) (p : Segment) : Prop :=
  0 <= virtual_addr p /\ 0 <= mem_size p /\ virtual_addr p + mem_size p <= 2 ^ 47 /\
  0 <= file_size p <= mem_size p /\ 0 <= p_offset p /\ p_offset p + file_size p <= zlen bytes < 2 ^ 63.
(** The byte [k] of the segment in memory. *)
Definition seg_byte (bytes : list Z) (p : Segment) (k : Z) : Z :=
  if k <? file_size p then bytes !!! Z.to_nat (p_offset p + k) else 0.
Definition seg_loaded {A} `{PageTableEntry} (s : Vmm A) (r : Z) (bytes : list Z) (p : Segment) : Prop :=
  forall k, 0 <= k < mem_size p -> user_byte s r (virtual_addr p + k) = Some (seg_byte bytes p k).
Definition load_segments (phs : list ProgramHeader) : list Segment :=
  omap (fun ph => match ph with Ph64 (Some Load) p => Some p | _ => None end) phs.

(** ** Loading a program

    After a successful load every byte of every loadable segment is where its
    program header says, the rest of the segment is zero, and whatever was
    mapped before, in this address space or another, is as it was. *)

#[local] Arguments child_of _ _ : simpl never.

Section Loading.
  Context {A : Type} {FA : FrameAllocator A} {PE : PageTableEntry} {PL : PageTableEntryLaws} {EP : ElfParser}.
  Context (managed : Z -> Z -> bool).

Abbreviation pt_inv s owner := (VmmInv.pt_inv s owner managed).
Abbreviation user_space := (VmmRanges.user_space managed).

Lemma user_byte_leaf (s : Vmm A) (r va b : Z) :
  user_byte s r va = Some b <-> exists e, leaf (vm_mem s) r va = Some e /\ vm_mem s (pte_addr e + va mod 4096) = b.
Proof.
  unfold user_byte. rewrite phys_for_virt_leaf, land_fff. destruct (leaf (vm_mem s) r va) as [e |]; simpl.
  - split; [intros [= <-]; by exists e | intros (e' & [= <-] & <-); done].
  - split; [done | by intros (e & ? & _)].
Qed.

(** What is mapped in the address spaces of [Q] stays as it is. *)
Record preserves (Q : Z -> Prop) (s : Vmm A) (owner : owner_map) (s' : Vmm A) (owner' : owner_map) : Prop := {
  pv_inv : pt_inv s' owner';
  pv_space : forall r, user_space owner r -> user_space owner' r;
  pv_byte : forall r va b, Q r -> user_space owner r -> 0 <= va < 2 ^ 47 ->
    user_byte s r va = Some b -> user_byte s' r va = Some b
}.
Abbreviation preserves_all := (preserves (fun _ => True)).

Lemma preserves_refl Q s owner : pt_inv s owner -> preserves Q s owner s owner.
Proof. intros Hi. by split. Qed.

Lemma preserves_trans Q s1 o1 s2 o2 s3 o3 : preserves Q s1 o1 s2 o2 -> preserves Q s2 o2 s3 o3 -> preserves Q s1 o1 s3 o3.
Proof.
  intros [H1 H2 H3] [H4 H5 H6]. split; [done | auto |]. intros r va b Hq Hr Hva Hb. apply H6; auto.
Qed.

Lemma preserves_weaken (Q Q' : Z -> Prop) s1 o1 s2 o2 :
  (forall r, Q' r -> Q r) -> preserves Q s1 o1 s2 o2 -> preserves Q' s1 o1 s2 o2.
Proof. intros HQ [H1 H2 H3]. split; [done | done | intros r va b Hq; apply H3, HQ, Hq]. Qed.

(** ** Mapping *)

Lemma page_in_range (r r' virt n va : Z) :
  user_range virt n -> virt mod 4096 = 0 -> 0 <= va < 2 ^ 47 -> in_range r virt 0 n (page_of r' va) ->
  r' = r /\ exists i, 0 <= i < n /\ va / 4096 = (virt + i * PAGE_SIZE) / 4096.
Proof.
  intros Hr Hm Hva (i & Hi & E). assert (0 <= virt + i * PAGE_SIZE < 2 ^ 47) as Hvi by (apply (range_page virt 0 n); [by rewrite Z.add_0_l | lia | lia]).
  pose proof (f_equal fst E) as E1. rewrite !page_of_user in E1
    by (unfold user_va; match goal with |- pml4_idx ?v < _ => pose proof (pml4_idx_user v) end; lia).
  subst r'. apply page_of_inj in E; [| done | done]. split; [done |]. exists i. split; [lia | done].
Qed.

Lemma map_anon_preserves (s : Vmm A) (owner : owner_map) (r virt pages fl : Z) :
  pt_inv s owner -> user_space owner r -> user_range virt pages -> virt mod 4096 = 0 ->
  exists res s' owner', map_anon r virt pages fl s = Ret (res, s') /\
    preserves (fun r' => r' <> r) s owner s' owner' /\ anon_result s s' r virt 0 pages fl res /\
    (forall va, 0 <= va < 2 ^ 47 -> ~ (virt <= va < virt + pages * PAGE_SIZE) -> leaf (vm_mem s') r va = leaf (vm_mem s) r va) /\
    (res = Ok tt -> preserves_all s owner s' owner' /\
       forall va, virt <= va < virt + pages * PAGE_SIZE ->
         leaf (vm_mem s) r va = None /\ user_byte s' r va = Some 0).
Proof.
  intros Hi Hu Hrg Hal. assert (0 <= pages) as Hp by (unfold user_range in Hrg; lia).
  destruct (map_anon_loop_ok managed r virt fl (Z.to_nat pages) 0 s owner) as (res & s' & o' & Hrun & Hm & Hres);
    [done | done | | lia |]; rewrite ?Z2Nat.id, ?Z.add_0_l in * by lia; [done |].
  assert (forall r' va b, user_space owner r' -> 0 <= va < 2 ^ 47 -> ~ in_range r virt 0 pages (page_of r' va) ->
    user_byte s r' va = Some b -> user_byte s' r' va = Some b) as Hkeep.
  { intros r' va b Hr' Hva Hout (e & Hl & Hb)%user_byte_leaf. apply user_byte_leaf. exists e.
    destruct (moves_keeps_page managed _ _ s s' owner o' r' va e Hi Hm) as [Hl' Hk]; [done .. |].
    split; [done |]. rewrite Hk; [done |]. unfold PAGE_SIZE. apply Z.mod_pos_bound. lia. }
  assert (forall r', user_space owner r' -> user_space o' r') as Hsp by (intros r' Hr'; by eapply user_space_moves).
  exists res, s', o'. split; [done |]. split.
  { split; [apply Hm | done |]. intros r' va b Hne Hr' Hva. apply Hkeep; [done | done |].
    intros Hin. by apply page_in_range in Hin as (-> & _). }
  split; [done |]. split.
  { intros va Hva Hout. apply (mv_leaves _ _ _ _ _ _ _ Hm); [by apply (user_space_ok managed) |].
    intros Hin. apply page_in_range in Hin as (_ & i & Hix & E); [| done ..]. apply Hout.
    apply Z.mod_divide in Hal as [v Hal]; [| lia]. unfold PAGE_SIZE in *.
    replace (virt + i * 4096) with ((v + i) * 4096) in E by lia. rewrite Z.div_mul in E by lia.
    pose proof (Z.div_mod va 4096 ltac:(lia)). pose proof (Z.mod_pos_bound va 4096 ltac:(lia)). lia. }
  intros ->. simpl in Hres.
  assert (forall va, virt <= va < virt + pages * PAGE_SIZE ->
    exists i, 0 <= i < pages /\ va / 4096 = (virt + i * PAGE_SIZE) / 4096 /\ 0 <= va < 2 ^ 47) as Hpage.
  { intros va Hva. exists ((va - virt) / 4096). unfold user_range, PAGE_SIZE in *. split.
    - split; [apply Z.div_pos; lia | apply Z.div_lt_upper_bound; lia].
    - split; [| lia]. apply Z.mod_divide in Hal as [v ->]; [| lia].
      replace (v * 4096 + (va - v * 4096) / 4096 * 4096) with ((v + (va - v * 4096) / 4096) * 4096) by lia.
      rewrite Z.div_mul by lia. rewrite <- Z.div_add_l by lia. f_equal. lia. }
  split.
  - split; [apply Hm | done |]. intros r' va b _ Hr' Hva Hb. apply Hkeep; [done .. | | done].
    intros Hin. apply page_in_range in Hin as (-> & i & Hix & E); [| done ..].
    apply user_byte_leaf in Hb as (e & Hl & _). destruct (Hres i) as (e' & Hn & _); [lia |].
    rewrite (leaf_same_page _ r va _ E) in Hl. congruence.
  - intros va Hva. destruct (Hpage va Hva) as (i & Hix & E & _). destruct (Hres i Hix) as (e & Hn & Hl & _ & _ & Hz).
    split; [by rewrite (leaf_same_page _ r va _ E) |]. apply user_byte_leaf. exists e.
    split; [by rewrite (leaf_same_page _ r va _ E) |]. apply Hz. unfold PAGE_SIZE. apply Z.mod_pos_bound. lia.
Qed.

(** ** Writing into mapped pages *)

Lemma user_byte_apart (s : Vmm A) (owner : owner_map) (r r' va va' p : Z) :
  pt_inv s owner -> user_space owner r -> user_space owner r' -> 0 <= va < 2 ^ 47 -> 0 <= va' < 2 ^ 47 ->
  phys_for_virt (vm_mem s) r va = Some p -> phys_for_virt (vm_mem s) r' va' = Some p -> r' = r /\ va' = va.
Proof.
  intros Hi Hu Hu' Hva Hva' Hp Hp'.
  destruct (user_space_ok managed owner r va Hu Hva) as [Hs Huv].
  destruct (user_space_ok managed owner r' va' Hu' Hva') as [Hs' Huv'].
  assert (r' = r) as ->.
  { rewrite phys_for_virt_leaf, land_fff in Hp, Hp'. destruct (leaf _ r va) as [e |] eqn:E; [| done].
    destruct (leaf _ r' va') as [e' |] eqn:E'; [| done]. simpl in Hp, Hp'. injection Hp as <-. injection Hp' as H.
    pose proof (leaf_frame_addr _ _ _ _ (inv_mem _ _ _ Hi) E) as [k Hk]%frame_addr_mul.
    pose proof (leaf_frame_addr _ _ _ _ (inv_mem _ _ _ Hi) E') as [k' Hk']%frame_addr_mul.
    pose proof (leaf_owner managed s owner r va e Hi Hs Huv E) as Ho.
    pose proof (leaf_owner managed s owner r' va' e' Hi Hs' Huv' E') as Ho'.
    rewrite Hk, Hk' in *. unfold PAGE_SIZE in *.
    pose proof (Z.mod_pos_bound va 4096). pose proof (Z.mod_pos_bound va' 4096).
    assert (k = k') as -> by lia. rewrite Ho in Ho'. apply (inj Some), (f_equal fst) in Ho'.
    by rewrite !page_of_user in Ho'. }
  split; [done |]. by apply (phys_for_virt_inj managed s owner r va' va p).
Qed.

Lemma copied_keeps (s : Vmm A) (owner : owner_map) (r virt w : Z) (bytes : list Z) (m : PhysMem) (r' va b : Z) :
  pt_inv s owner -> user_space owner r -> user_space owner r' -> 0 <= virt -> virt + zlen bytes <= 2 ^ 47 ->
  0 <= va < 2 ^ 47 -> copied s owner r virt bytes w m -> ~ (r' = r /\ virt <= va < virt + zlen bytes) ->
  user_byte s r' va = Some b -> user_byte (with_mem s m) r' va = Some b.
Proof.
  intros Hi Hu Hu' Hv Hend Hva Hc Hout. unfold user_byte. simpl.
  destruct (user_space_ok managed owner r' va Hu' Hva) as [Hs' _].
  assert (phys_for_virt m r' va = phys_for_virt (vm_mem s) r' va) as ->.
  { by rewrite !phys_for_virt_leaf, (data_write_leaf managed s owner m r' va Hi (cp_data _ _ _ _ _ _ _ Hc) Hs'). }
  destruct (phys_for_virt (vm_mem s) r' va) as [p |] eqn:Hp; [| done]. simpl. intros [= <-]. f_equal.
  apply (cp_rest _ _ _ _ _ _ _ Hc). intros k Hk Hpk. apply Hout.
  destruct (user_byte_apart s owner r r' (virt + k) va p) as [-> ->]; [done .. | lia | lia | done | done |]. split; [done | lia].
Qed.

(** A copy into pages that are mapped goes through, and puts the bytes there. *)
Lemma copy_mapped (s : Vmm A) (owner : owner_map) (r virt : Z) (bytes : list Z) res m :
  pt_inv s owner -> user_space owner r -> 0 <= virt -> virt + zlen bytes <= 2 ^ 47 ->
  (forall va, virt <= va < virt + zlen bytes -> is_Some (user_byte s r va)) ->
  copy_result s owner r virt bytes res m ->
  res = Ok tt /\
  pt_inv (with_mem s m) owner /\ copied s owner r virt bytes (zlen bytes) m /\
  forall k b, bytes !! k = Some b -> user_byte (with_mem s m) r (virt + Z.of_nat k) = Some b.
Proof.
  intros Hi Hu Hv Hend Hmap Hres. destruct res as [[] | e]; simpl in Hres.
  2: { destruct Hres as (_ & _ & k & Hk & Hn). destruct (Hmap (virt + k)) as [b Hb]; [lia |].
       unfold user_byte in Hb. by rewrite Hn in Hb. }
  split; [done |]. pose proof (cp_data _ _ _ _ _ _ _ Hres) as Hd.
  split; [by apply data_write_inv |]. split; [done |]. intros k b Hk.
  assert (Z.of_nat k < zlen bytes) as Hlt by (apply lookup_lt_Some in Hk; unfold zlen; lia).
  destruct (cp_prefix _ _ _ _ _ _ _ Hres k b Hk Hlt) as (p & Hp & Hb). unfold user_byte. simpl.
  destruct (user_space_ok managed owner r (virt + Z.of_nat k) Hu ltac:(lia)) as [Hs _].
  rewrite !phys_for_virt_leaf, (data_write_leaf managed s owner m r _ Hi Hd Hs), <- phys_for_virt_leaf, Hp.
  simpl. by rewrite Hb.
Qed.

(** ** Segments *)

Lemma align_down (v : Z) : 0 <= v < 2 ^ 64 -> Z.land v (2 ^ 64 - PAGE_SIZE) = v / 4096 * 4096.
Proof.
  intros Hv. replace (2 ^ 64 - PAGE_SIZE) with (Z.shiftl (Z.ones 52) 12) by reflexivity.
  change 4096 with (2 ^ 12). rewrite <- Z.shiftr_div_pow2, <- Z.shiftl_mul_pow2 by lia.
  apply Z.bits_inj'. intros n Hn. rewrite Z.land_spec. destruct (Z.ltb_spec n 12).
  { rewrite !(Z.shiftl_spec_low _ 12 n) by lia. apply andb_false_r. }
  rewrite !Z.shiftl_spec, Z.shiftr_spec, Z.testbit_ones_nonneg by lia. replace (n - 12 + 12) with n by lia.
  destruct (Z.ltb_spec (n - 12) 52); [apply andb_true_r |]. rewrite andb_false_r. symmetry.
  destruct (Z.eq_dec v 0) as [-> |]; [apply Z.bits_0 |]. apply Z.bits_above_log2; [lia |].
  apply Z.log2_lt_pow2; [lia |]. apply Z.lt_le_trans with (2 ^ 64); [lia |]. apply Z.pow_le_mono_r; lia.
Qed.

(** The pages of a segment. *)
Definition seg_base (p : Segment) : Z := virtual_addr p / 4096 * 4096.
Definition seg_pages (p : Segment) : Z := div_ceil (virtual_addr p - seg_base p + mem_size p) PAGE_SIZE.

Lemma seg_range (bytes : list Z) (p : Segment) :
  seg_ok bytes p -> user_range (seg_base p) (seg_pages p) /\ seg_base p mod 4096 = 0 /\
    seg_base p <= virtual_addr p /\ virtual_addr p + mem_size p <= seg_base p + seg_pages p * PAGE_SIZE.
Proof.
  intros (Hv & Hm & Hend & _). unfold user_range, seg_pages, seg_base, div_ceil, PAGE_SIZE.
  pose proof (Z.div_mod (virtual_addr p) 4096 ltac:(lia)). pose proof (Z.mod_pos_bound (virtual_addr p) 4096 ltac:(lia)).
  remember (virtual_addr p / 4096) as q eqn:Eq. remember (virtual_addr p - q * 4096 + mem_size p) as n eqn:En.
  pose proof (Z.div_mod (n + 4096 - 1) 4096 ltac:(lia)). pose proof (Z.mod_pos_bound (n + 4096 - 1) 4096 ltac:(lia)).
  assert (0 <= q) by (rewrite Eq; apply Z.div_pos; lia). rewrite Z.mod_mul by lia. change (2 ^ 47) with (2 ^ 35 * 4096) in *.
  split_and!; [lia | apply Z.div_pos; lia | | done | lia | lia].

  assert (q + (n + 4096 - 1) / 4096 < 2 ^ 35 + 1); [| lia].
  rewrite <- (Z.div_add_l q 4096) by lia. apply Z.div_lt_upper_bound; lia.
Qed.

Lemma map_err_run {X E E'} (e : E') (c : VM (A := A) (result X E)) (s s' : Vmm A) (r : result X E) :
  c s = Ret (r, s') -> map_err e c s = Ret (match r with Ok x => Ok x | Err _ => Err e end, s').
Proof. intros Hc. unfold map_err. by rewrite (st_bind_step _ _ _ _ _ Hc). Qed.

Lemma fill_segment (s : Vmm A) (owner : owner_map) (r : Z) (bytes : list Z) (p : Segment) :
  pt_inv s owner -> user_space owner r -> seg_ok bytes p -> Forall byte_ok bytes ->
  (forall va, seg_base p <= va < seg_base p + seg_pages p * PAGE_SIZE -> is_Some (user_byte s r va)) ->
  exists m1 data m2, zero_user r (virtual_addr p) (mem_size p) s = Ret (Ok tt, with_mem s m1) /\
    slice bytes (p_offset p) (file_size p) = Ret data /\
    copy_to_user r (virtual_addr p) data (with_mem s m1) = Ret (Ok tt, with_mem s m2) /\
    pt_inv (with_mem s m2) owner /\ seg_loaded (with_mem s m2) r bytes p /\
    (forall va, 0 <= va < 2 ^ 47 -> leaf m2 r va = leaf (vm_mem s) r va) /\
    forall r' va b, user_space owner r' -> 0 <= va < 2 ^ 47 -> ~ (r' = r /\ virtual_addr p <= va < virtual_addr p + mem_size p) ->
      user_byte s r' va = Some b -> user_byte (with_mem s m2) r' va = Some b.
Proof.
  intros Hi Hu Hseg Hb Hmap. destruct (seg_range bytes p Hseg) as (_ & _ & Hlo & Hhi).
  destruct Hseg as (Hv & Hm & Hend & Hf & Ho & Hfile).
  set (zs := replicate (Z.to_nat (mem_size p)) 0).
  assert (zlen zs = mem_size p) as Hzl by (unfold zs, zlen; rewrite length_replicate; lia).
  destruct (zero_user_ok managed s owner r (virtual_addr p) (mem_size p)) as (r1 & m1 & E1 & R1); [done .. |]. fold zs in R1.
  destruct (copy_mapped s owner r (virtual_addr p) zs r1 m1) as (-> & Hi1 & Hc1 & Hz); [done | done | done | lia | | done |].
  { intros va Hva. apply Hmap. lia. }
  set (data := take (Z.to_nat (file_size p)) (drop (Z.to_nat (p_offset p)) bytes)).
  assert (slice bytes (p_offset p) (file_size p) = Ret data) as Hsl by (apply slice_Ret; split_and!; lia || done).
  assert (zlen data = file_size p) as Hdl by (by eapply slice_length).
  assert (forall k, 0 <= k < mem_size p -> user_byte (with_mem s m1) r (virtual_addr p + k) = Some 0) as Hzero.
  { intros k Hk. rewrite <- (Z2Nat.id k) by lia. apply Hz. unfold zs. apply lookup_replicate_2. lia. }
  destruct (copy_to_user_ok managed (with_mem s m1) owner r (virtual_addr p) data) as (r2 & m2 & E2 & R2);
    [done | done | done | lia | unfold data; by apply Forall_take, Forall_drop |].
  destruct (copy_mapped (with_mem s m1) owner r (virtual_addr p) data r2 m2) as (-> & Hi2 & Hc2 & Hd);
    [done | done | done | lia | intros va Hva | done |].
  { exists 0. replace va with (virtual_addr p + (va - virtual_addr p)) by lia. apply Hzero. lia. }
  exists m1, data, m2. split; [done |]. split; [done |]. split; [done |]. split; [done |]. split; [| split].
  - intros k Hk. unfold seg_byte. destruct (Z.ltb_spec k (file_size p)) as [Hlt | Hge].
    + rewrite <- (Z2Nat.id k) at 1 by lia. apply Hd. unfold data. rewrite lookup_take_lt, lookup_drop by lia.
      replace (Z.to_nat (p_offset p) + Z.to_nat k)%nat with (Z.to_nat (p_offset p + k)) by lia.
      apply list_lookup_lookup_total_lt. unfold zlen in *. lia.
    + apply (copied_keeps (with_mem s m1) owner r (virtual_addr p) (zlen data) data m2); try done; [lia .. |].
      by apply Hzero.
  - intros va Hva. destruct (user_space_ok managed owner r va Hu Hva) as [Hs _].
    rewrite (data_write_leaf managed (with_mem s m1) owner m2 r va Hi1 (cp_data _ _ _ _ _ _ _ Hc2) Hs).
    exact (data_write_leaf managed s owner m1 r va Hi (cp_data _ _ _ _ _ _ _ Hc1) Hs).
  - intros r' va b Hr' Hva Hout Hby. apply (copied_keeps (with_mem s m1) owner r (virtual_addr p) (zlen data) data m2); try done.
    + lia.
    + intros [-> ?]. apply Hout. split; [done | lia].
    + apply (copied_keeps s owner r (virtual_addr p) (zlen zs) zs m1); try done; [lia |].
      intros [-> ?]. apply Hout. split; [done | lia].
Qed.

(** The addresses of the pages of a segment. *)
Definition in_pages (p : Segment) (va : Z) : Prop := seg_base p <= va < seg_base p + seg_pages p * PAGE_SIZE.
Definition no_frame (s : Vmm A) : Prop := forall f, frame_addr f -> ~ fa_avail (vm_frames s) f.

Lemma load_seg_ok (s : Vmm A) (owner : owner_map) (r : Z) (bytes : list Z) (p : Segment) :
  pt_inv s owner -> user_space owner r -> seg_ok bytes p -> Forall byte_ok bytes ->
  exists res s' owner', load_seg bytes p r s = Ret (res, s') /\
    preserves (fun r' => r' <> r) s owner s' owner' /\
    match res with
    | Ok _ => preserves_all s owner s' owner' /\ seg_loaded s' r bytes p /\
        forall va, 0 <= va < 2 ^ 47 -> ~ in_pages p va -> leaf (vm_mem s') r va = leaf (vm_mem s) r va
    | Err e => e = Map /\ (no_frame s' \/ exists va, in_pages p va /\ is_Some (leaf (vm_mem s) r va))
    end.
Proof.
  intros Hi Hu Hseg Hb. destruct (seg_range bytes p Hseg) as (Hrg & Hal & Hlo & Hhi).
  pose proof Hseg as (Hv & Hm & Hend & Hf & Ho & Hfile). pose proof Hrg as (Hb0 & _). unfold load_seg.
  rewrite align_down by lia. fold (seg_base p).
  rewrite (st_bind_step _ _ s s (virtual_addr p - seg_base p + mem_size p)) by (unfold st_lift; rewrite checked_fits by lia; done).
  fold (seg_pages p). set (fl := Z.lor (segment_flags (p_flags p)) MF_WRITE).
  destruct (map_anon_preserves s owner r (seg_base p) (seg_pages p) fl Hi Hu Hrg Hal) as (res & s1 & o1 & E & Hoth & Han & Hlv & Hok).
  apply (map_err_run Map) in E. destruct res as [[] | e]; [rewrite (st_try_Ok _ _ _ _ _ E) |]; cycle 1.
  { exists (Err Map), s1, o1. split; [by apply st_try_Err |]. split; [done |]. split; [done |].
    destruct e; simpl in Han; [by left | right | done | done]. destruct Han as (i & Hix & Hsome).
    exists (seg_base p + i * PAGE_SIZE). split; [unfold in_pages, PAGE_SIZE; lia | done]. }
  destruct (Hok eq_refl) as [Hpv Hnew].
  destruct (fill_segment s1 o1 r bytes p) as (m1 & data & m2 & E1 & Hsl & E2 & Hi2 & Hld & Hlf & Hkeep);
    [apply Hpv | by apply (pv_space _ _ _ _ _ Hpv) | done | done | intros va Hva; eexists; by apply Hnew |].
  apply (map_err_run Copy) in E1. rewrite (st_try_Ok _ _ _ _ _ E1).
  rewrite (st_bind_step _ _ (with_mem s1 m1) (with_mem s1 m1) (p_offset p + file_size p))
    by (unfold st_lift; rewrite checked_fits by lia; done).
  replace (p_offset p + file_size p - p_offset p) with (file_size p) by lia.
  rewrite (st_bind_step _ _ (with_mem s1 m1) (with_mem s1 m1) data) by (unfold st_lift; by rewrite Hsl).
  apply (map_err_run Copy) in E2. rewrite (st_try_Ok _ _ _ _ _ E2).
  assert (preserves_all s owner (with_mem s1 m2) o1) as Hall.
  { split; [done | apply Hpv |]. intros r' va b _ Hr' Hva Hby.
    apply Hkeep; [by apply (pv_space _ _ _ _ _ Hpv) | done | | by apply (pv_byte _ _ _ _ _ Hpv)].
    intros [-> Hin]. destruct (Hnew va) as [Hn _]; [lia |]. apply user_byte_leaf in Hby as (e & He & _). congruence. }
  exists (Ok tt), (with_mem s1 m2), o1. split; [done |]. split; [by eapply preserves_weaken; [| exact Hall] |].
  split; [done |]. split; [done |]. intros va Hva Hout. simpl. by rewrite Hlf, Hlv.
Qed.

(** ** The headers *)

Lemma seg_loaded_preserved (s s' : Vmm A) owner owner' (r : Z) (bytes : list Z) (p : Segment) :
  preserves_all s owner s' owner' -> user_space owner r -> seg_ok bytes p -> seg_loaded s r bytes p -> seg_loaded s' r bytes p.
Proof.
  intros Hp Hu (Hv & Hm & Hend & _) Hl k Hk. apply (pv_byte _ _ _ _ _ Hp); [done | done | lia | by apply Hl].
Qed.

(** A page of a segment was mapped already, or is also one of an earlier
    segment. *)
Definition page_conflict (s : Vmm A) (r : Z) (segs : list Segment) : Prop :=
  exists i p va, segs !! i = Some p /\ in_pages p va /\ 0 <= va < 2 ^ 47 /\
    (is_Some (leaf (vm_mem s) r va) \/ exists j p', (j < i)%nat /\ segs !! j = Some p' /\ in_pages p' va).

Lemma page_conflict_cons (s s1 : Vmm A) (r : Z) (p : Segment) (segs : list Segment) :
  (forall va, 0 <= va < 2 ^ 47 -> ~ in_pages p va -> leaf (vm_mem s1) r va = leaf (vm_mem s) r va) ->
  page_conflict s1 r segs -> page_conflict s r (p :: segs).
Proof.
  intros Hlv (i & q & va & Hq & Hin & Hva & Hor). exists (S i), q, va. split; [done |]. split; [done |]. split; [done |].
  assert (Decision (in_pages p va)) as HD by (unfold in_pages; apply _).
  destruct (decide (in_pages p va)) as [Hp | Hp]; [right; exists 0%nat, p; split; [lia | done] |].
  destruct Hor as [Hs | (j & p' & Hj & Hp' & Hin')]; [left; by rewrite <- Hlv |].
  right. exists (S j), p'. split; [lia | done].
Qed.

Lemma load_headers_ok (bytes : list Z) (phs : list ProgramHeader) : forall (s : Vmm A) (owner : owner_map) (r : Z),
  pt_inv s owner -> user_space owner r -> Forall (seg_ok bytes) (load_segments phs) -> Forall byte_ok bytes ->
  exists res s' owner', load_headers bytes phs r s = Ret (res, s') /\
    preserves (fun r' => r' <> r) s owner s' owner' /\
    match res with
    | Ok _ => preserves_all s owner s' owner' /\ Forall (seg_loaded s' r bytes) (load_segments phs) /\
        forall va, 0 <= va < 2 ^ 47 -> Forall (fun p => ~ in_pages p va) (load_segments phs) ->
          leaf (vm_mem s') r va = leaf (vm_mem s) r va
    | Err Parse => Ph32 (Some Load) ∈ phs
    | Err Map => no_frame s' \/ page_conflict s r (load_segments phs)
    | Err Copy => False
    end.
Proof.
  induction phs as [| ph phs IH]; intros s owner r Hi Hu Hsegs Hb; cbn [load_headers].
  { exists (Ok tt), s, owner. split; [done |]. split; [by apply preserves_refl |]. split; [by apply preserves_refl | done]. }
  destruct (decide (get_type ph = Some Load)) as [Ht | Ht].
  2: { assert (load_segments (ph :: phs) = load_segments phs) as E by (destruct ph as [? | [[] |] ?]; done).
       rewrite E in *. destruct (IH s owner r Hi Hu Hsegs Hb) as (res & s' & o' & Hrun & Hoth & Hres).
       exists res, s', o'. split; [done |]. split; [done |]. destruct res as [? | []]; try done. by right. }
  destruct ph as [t | t p]; cbn in Ht; subst t.
  { exists (Err Parse), s, owner. split; [done |]. split; [by apply preserves_refl | by left]. }
  change (load_segments (Ph64 (Some Load) p :: phs)) with (p :: load_segments phs) in *. apply Forall_cons in Hsegs as [Hp Hsegs].
  destruct (load_seg_ok s owner r bytes p Hi Hu Hp Hb) as (res & s1 & o1 & E & Hoth & Hres).
  destruct res as [[] | e].
  2: { exists (Err e), s1, o1. split; [by apply st_try_Err |]. split; [done |]. destruct Hres as [-> [Hno | (va & Hin & Hs)]]; [by left |].
       right. exists 0%nat, p, va. split; [done |]. split; [done |]. split; [| by left].
       destruct (seg_range bytes p Hp) as ((? & ? & ?) & _). unfold in_pages in Hin. lia. }
  rewrite (st_try_Ok _ _ _ _ _ E). destruct Hres as (Hall & Hld & Hlv).
  destruct (IH s1 o1 r) as (res & s' & o' & Hrun & Hoth' & Hres);
    [apply Hall | by apply (pv_space _ _ _ _ _ Hall) | done | done |].
  exists res, s', o'. split; [done |]. split; [by eapply preserves_trans |]. destruct res as [[] | []]; [| by right | | done].
  - destruct Hres as (Hall' & Hl & Hlv'). split; [by eapply preserves_trans |]. split.
    + constructor; [| done]. by eapply seg_loaded_preserved; [exact Hall' | by apply (pv_space _ _ _ _ _ Hall) | |].
    + intros va Hva [Hp' Hout]%Forall_cons. by rewrite Hlv', Hlv.
  - destruct Hres as [| Hc]; [by left | right]. by eapply page_conflict_cons.
Qed.

Lemma elf_load_ok (bytes : list Z) (elf : ElfFile) (s : Vmm A) (owner : owner_map) (r : Z) :
  elf_new bytes = Ret (Some elf) -> Forall (seg_ok bytes) (load_segments (program_headers elf)) -> Forall byte_ok bytes ->
  pt_inv s owner -> user_space owner r ->
  exists res s' owner', elf_load bytes r s = Ret (res, s') /\ preserves (fun r' => r' <> r) s owner s' owner' /\
    match res with
    | Ok entry => entry = entry_point elf /\ preserves_all s owner s' owner' /\
        Forall (seg_loaded s' r bytes) (load_segments (program_headers elf)) /\
        forall va, 0 <= va < 2 ^ 47 -> Forall (fun p => ~ in_pages p va) (load_segments (program_headers elf)) ->
          leaf (vm_mem s') r va = leaf (vm_mem s) r va
    | Err Parse => Ph32 (Some Load) ∈ program_headers elf
    | Err Map => no_frame s' \/ page_conflict s r (load_segments (program_headers elf))
    | Err Copy => False
    end.
Proof.
  intros He Hsegs Hb Hi Hu. unfold elf_load. rewrite (st_bind_step _ _ s s (Some elf)) by (unfold st_lift; by rewrite He).
  destruct (load_headers_ok bytes (program_headers elf) s owner r Hi Hu Hsegs Hb) as (res & s' & o' & E & Hoth & Hres).
  destruct res as [[] | e]; [rewrite (st_try_Ok _ _ _ _ _ E) | rewrite (st_try_Err _ _ _ _ _ E)]; by eexists _, _, _.
Qed.
End Loading.
