(* ===== verification/Bootloader.v ===== *)
(** * Bootloader

    [bootloader/src/main.rs]: the page tables the kernel starts on, the kernel
    image in memory, the choice of a video mode and the memory map.  The
    firmware (the crate [uefi]), the ELF parser ([xmas_elf]) and the page-table
    entries ([x86_64]) are parameters with their documented behaviour.  While
    the bootloader runs the firmware maps memory at its physical addresses.
    The lines that it logs are left out. *)

From S2P Require Import Prelude Bytes Frames BootInfo X86 Vmm VmmInv Elf.

(** ** The firmware *)

(** [uefi::mem::memory_map::MemoryType]. *)
Inductive UefiMemoryType : Type :=
  | CONVENTIONAL | BOOT_SERVICES_CODE | BOOT_SERVICES_DATA | LOADER_CODE | LOADER_DATA
  | ACPI_RECLAIM | ACPI_NON_VOLATILE | UNUSABLE | OtherMemory.
#[global] Instance UefiMemoryType_eq_dec : EqDecision UefiMemoryType.
Proof. solve_decision. Defined.

(** [boot::allocate_pages(AnyPages, ty, n)]; the pages that are free, and those
    that were handed out with a memory type. *)
Class Uefi (F : Type) : Type := {
  allocate_pages : UefiMemoryType -> Z -> F -> option (Z * F);
  uefi_free : F -> Z -> Prop;
  uefi_held : F -> UefiMemoryType -> Z -> Prop
}.
(** Page-aligned memory that was free, and now belongs to the caller with the
    type asked for. *)
Class UefiLaws (F : Type) `{Uefi F} : Prop := {
  allocate_pages_spec : forall ty n fw a fw', 0 < n -> allocate_pages ty n fw = Some (a, fw') ->
    frame_addr a /\ a <> 0 /\ a + n * PAGE_SIZE <= 2 ^ 52 /\
    (forall g, frame_addr g -> a <= g < a + n * PAGE_SIZE -> uefi_free fw g) /\
    (forall g, frame_addr g -> uefi_free fw' g <-> uefi_free fw g /\ ~ (a <= g < a + n * PAGE_SIZE));
  allocate_pages_held : forall ty n fw a fw', 0 < n -> allocate_pages ty n fw = Some (a, fw') ->
    (forall g, frame_addr g -> a <= g < a + n * PAGE_SIZE -> uefi_held fw' ty g) /\
    (forall ty' g, uefi_held fw ty' g -> uefi_held fw' ty' g)
}.

(** Large pages and unused entries of [x86_64::structures::paging]; the flags
    are the bits of the processor manual. *)
Class HugeEntry `{PageTableEntry} : Type := {
  PTF_HUGE_PAGE : Z;
  pte_is_unused : Z -> bool
}.
Class HugeEntryLaws `{HugeEntry} : Prop := {
  ptf_bits : PTF_PRESENT = 1 /\ PTF_WRITABLE = 2 /\ PTF_HUGE_PAGE = 128 /\ PTF_NO_EXECUTE = 2 ^ 63;
  ptf_huge_ok : ptf_ok PTF_HUGE_PAGE;
  pte_is_unused_spec : forall e, pte_is_unused e = (e =? 0)
}.
#[export] Instance sdm_huge : HugeEntry := {| PTF_HUGE_PAGE := 128; pte_is_unused e := e =? 0 |}.
#[export] Instance sdm_huge_laws : HugeEntryLaws.
Proof. by split. Qed.

(** ** State *)

Record Loader (F : Type) : Type := mkLoader { ld_mem : PhysMem; ld_fw : F }.
Arguments mkLoader {F} _ _.
Arguments ld_mem {F} _.
Arguments ld_fw {F} _.

Definition KERNEL_STACK_SIZE : Z := 64 * 1024.
Definition IDENTITY_MAP_BYTES : Z := 4 * 1024 * 1024 * 1024.
Definition MMAP_PAGES : Z := 16.
Definition HUGE_SIZE : Z := 2 * 1024 * 1024.
(** Where the kernel is linked. *)
Definition KERNEL_BASE : Z := 0xFFFFFFFF80000000.

(** [x & !(a - 1)] for a power of two. *)
Definition ld_align_down (x a : Z) : Z := Z.land x (2 ^ 64 - a).
Definition align_up (x a : Z) : outcome Z :=
  let! y := checked 64 (x + a) in
  let! y := checked 64 (y - 1) in
  Ret (ld_align_down y a).
Definition pages_for (bytes : Z) : Z := div_ceil bytes 4096.

Section Loader.
  Context {F : Type} {UF : Uefi F} {PE : PageTableEntry} {HE : HugeEntry}.

Definition LD (X : Type) : Type := ST (Loader F) X.

Definition alloc_pages (n : Z) : LD Z := fun s =>
  match allocate_pages LOADER_DATA n (ld_fw s) with
  | Some (a, fw) => Ret (a, mkLoader (ld_mem s) fw)
  | None => Panic
  end.
Definition ld_load (a : Z) : LD Z := fun s => Ret (read64 (ld_mem s) a, s).
Definition ld_set (f : PhysMem -> PhysMem) : LD unit := st_modify (fun s => mkLoader (f (ld_mem s)) (ld_fw s)).

(** ** Page tables *)

(** [entry.set_addr(PhysAddr::new(addr), flags)] of the entry at [a]. *)
Definition ld_set_entry (a addr flags : Z) : LD unit :=
  let* pa := st_lift (phys_addr_new addr) in
  let* e := st_lift (pte_set_addr pa flags) in
  ld_set (fun m => write64 m a e).
Definition ld_ensure_child (a : Z) : LD Z :=
  let* e := ld_load a in
  let* _ := (if pte_is_unused e then
               let* frame := alloc_pages 1 in
               let* _ := ld_set (fun m => fill m frame 4096 0) in
               ld_set_entry a frame (Z.lor PTF_PRESENT PTF_WRITABLE)
             else st_ret tt) in
  let* e := ld_load a in
  st_ret (pte_addr e).
Definition walk_to_pd (pml4 v : Z) : LD Z :=
  let* pdpt := ld_ensure_child (slot pml4 (pml4_idx v)) in
  ld_ensure_child (slot pdpt (pdpt_idx v)).
Definition walk_to_pt (pml4 v : Z) : LD Z :=
  let* pd := walk_to_pd pml4 v in
  ld_ensure_child (slot pd (pd_idx v)).

(** One turn of the loops. *)
Definition map_one_2m (pml4 virt phys huge off : Z) : LD unit :=
  let* v := st_lift (let! x := checked 64 (virt + off) in virt_addr_new x) in
  let* p := st_lift (checked 64 (phys + off)) in
  let* pd := walk_to_pd pml4 v in
  ld_set_entry (slot pd (pd_idx v)) p huge.
Definition map_one_4k (pml4 virt phys flags off : Z) : LD unit :=
  let* v := st_lift (let! x := checked 64 (virt + off) in virt_addr_new x) in
  let* p := st_lift (checked 64 (phys + off)) in
  let* pt := walk_to_pt pml4 v in
  ld_set_entry (slot pt (pt_idx v)) p flags.
Fixpoint region_loop (fuel : nat) (step length : Z) (map_one : Z -> LD unit) (off : Z) : LD unit :=
  if length <=? off then st_ret tt
  else match fuel with
       | O => st_lift OutOfFuel
       | S fuel =>
           let* _ := map_one off in
           let* off := st_lift (checked 64 (off + step)) in
           region_loop fuel step length map_one off
       end.
Definition map_region_2m (pml4 virt phys length flags : Z) : LD unit :=
  let huge := Z.lor flags PTF_HUGE_PAGE in
  region_loop (Z.to_nat (div_ceil length HUGE_SIZE)) HUGE_SIZE length (map_one_2m pml4 virt phys huge) 0.
Definition map_region_4k (pml4 virt phys length flags : Z) : LD unit :=
  region_loop (Z.to_nat (div_ceil length 4096)) 4096 length (map_one_4k pml4 virt phys flags) 0.

(** ** The kernel image *)

(** [ph.flags()]: bit 0 is execute, bit 1 write. *)
Definition image_flags (fl : Z) : Z :=
  let flags := PTF_PRESENT in
  let flags := if negb (Z.land fl 2 =? 0) then Z.lor flags PTF_WRITABLE else flags in
  if Z.land fl 1 =? 0 then Z.lor flags PTF_NO_EXECUTE else flags.

(** [input] is the address of [elf.input]. *)
Definition load_segment (pml4 input : Z) (ph : Segment) : LD unit :=
  let virt := virtual_addr ph in
  let low := Z.land virt 0xFFF in
  let* span := st_lift (checked 64 (mem_size ph + low)) in
  let pages := pages_for span in
  let* seg_phys := alloc_pages pages in
  let* size := st_lift (checked 64 (pages * 4096)) in
  let* _ := ld_set (fun m => fill m seg_phys size 0) in
  let* dst := st_lift (checked 64 (seg_phys + low)) in
  let* _ := ld_set (fun m => store m dst (load m (input + p_offset ph) (Z.to_nat (file_size ph)))) in
  let virt_start := ld_align_down virt 4096 in
  map_region_4k pml4 virt_start seg_phys size (image_flags (p_flags ph)).

(** The loop of [build_page_tables] over the program headers. *)
Fixpoint load_image (pml4 input : Z) (phs : list (option PhType * Segment)) (max_virt : Z) : LD Z :=
  match phs with
  | [] => st_ret max_virt
  | (t, ph) :: phs =>
      if decide (t = Some Load) then
        let* _ := load_segment pml4 input ph in
        let* end_ := st_lift (checked 64 (virtual_addr ph + mem_size ph)) in
        load_image pml4 input phs (if max_virt <? end_ then end_ else max_virt)
      else load_image pml4 input phs max_virt
  end.

Definition build_page_tables (input : Z) (phs : list (option PhType * Segment)) (fb : Framebuffer) : LD (Z * Z) :=
  let* pml4 := alloc_pages 1 in
  let* _ := ld_set (fun m => fill m pml4 4096 0) in
  let rw := Z.lor PTF_PRESENT PTF_WRITABLE in
  let* _ := map_region_2m pml4 0 0 IDENTITY_MAP_BYTES rw in
  let* _ := map_region_2m pml4 HHDM_OFFSET 0 IDENTITY_MAP_BYTES (Z.lor rw PTF_NO_EXECUTE) in
  let* fb_phys := st_lift (checked 64 (fb_base fb - HHDM_OFFSET)) in
  let fb_bytes := fb_pitch fb * fb_height fb in
  let start := ld_align_down fb_phys HUGE_SIZE in
  let* virt := st_lift (checked 64 (HHDM_OFFSET + start)) in
  let* span := st_lift (checked 64 (fb_bytes + Z.land fb_phys 0x1FFFFF)) in
  let* len := st_lift (align_up span HUGE_SIZE) in
  let* _ := map_region_2m pml4 virt start len (Z.lor rw PTF_NO_EXECUTE) in
  let* max_virt := load_image pml4 input phs 0 in
  st_ret (pml4, max_virt).
End Loader.

(** ** The screen *)

Inductive GopPixelFormat : Type := GopRgb | GopBgr | GopBitmask | GopBltOnly.
#[global] Instance GopPixelFormat_eq_dec : EqDecision GopPixelFormat.
Proof. solve_decision. Defined.
(** [mode.info()]: resolution, pixel format and stride. *)
Record GopMode : Type := mkMode { gm_width : Z; gm_height : Z; gm_format : GopPixelFormat; gm_stride : Z }.

(** The loop over [gop.modes()]; [best] is the number of a mode and the mode. *)
Fixpoint best_mode (modes : list GopMode) (idx : Z) (best : option (Z * GopMode)) : option (Z * GopMode) :=
  match modes with
  | [] => best
  | m :: modes =>
      let best :=
        if decide (gm_format m = GopRgb \/ gm_format m = GopBgr) then
          match best with
          | None => Some (idx, m)
          | Some (_, bm) => if gm_width bm * gm_height bm <? gm_width m * gm_height m then Some (idx, m) else best
          end
        else best in
      best_mode modes (idx + 1) best
  end.
Definition pixel_format_of (f : GopPixelFormat) : PixelFormat :=
  match f with GopRgb => Rgbx8888 | GopBgr => Bgrx8888 | _ => PfUnknown end.
(** [current] is the mode the firmware has set before, [frame_buffer m] the
    address of the memory of the screen in mode [m]. *)
Definition init_framebuffer (modes : list GopMode) (current : GopMode) (frame_buffer : GopMode -> Z) : outcome Framebuffer :=
  let info := match best_mode modes 0 None with Some (_, m) => m | None => current end in
  let! pitch := checked 32 (wrap 32 (gm_stride info) * 4) in
  let! base := checked 64 (frame_buffer info + HHDM_OFFSET) in
  Ret (mkFramebuffer base (wrap 32 (gm_width info)) (wrap 32 (gm_height info)) pitch 32 (pixel_format_of (gm_format info))).

(** ** What the kernel is told *)

Record UefiDesc : Type := mkDesc { d_ty : UefiMemoryType; d_phys_start : Z; d_page_count : Z }.
Definition uefi_kind (t : UefiMemoryType) : MemoryKind :=
  match t with
  | CONVENTIONAL => Usable
  | BOOT_SERVICES_CODE | BOOT_SERVICES_DATA => BootloaderReclaimable
  | LOADER_CODE | LOADER_DATA => BootloaderReclaimable
  | ACPI_RECLAIM => AcpiReclaimable
  | ACPI_NON_VOLATILE => AcpiNvs
  | UNUSABLE => BadMemory
  | OtherMemory => Reserved
  end.
(** [size_of::<MemoryRegion>()]. *)
Definition REGION_SIZE : Z := 24.
Definition mmap_capacity : Z := MMAP_PAGES * 4096 / REGION_SIZE.
Fixpoint regions_of (descs : list UefiDesc) (count : Z) : outcome (list MemoryRegion) :=
  match descs with
  | [] => Ret []
  | d :: descs =>
      if mmap_capacity <=? count then Ret []
      else
        let! len := checked 64 (d_page_count d * 4096) in
        let! l := regions_of descs (count + 1) in
        Ret (mkRegion (d_phys_start d) len (uefi_kind (d_ty d)) :: l)
  end.

(** The configuration table: ACPI 2, ACPI 1 and other entries. *)
Inductive CfgGuid : Type := ACPI2_GUID | ACPI_GUID | OtherGuid.
Fixpoint rsdp_loop (entries : list (CfgGuid * Z)) (acpi1 : Z) : Z * Z :=
  match entries with
  | [] => (0, acpi1)
  | (ACPI2_GUID, a) :: _ => (a, acpi1)
  | (ACPI_GUID, a) :: entries => rsdp_loop entries a
  | (OtherGuid, _) :: entries => rsdp_loop entries acpi1
  end.
Definition find_rsdp (entries : list (CfgGuid * Z)) : Z :=
  let '(acpi2, acpi1) := rsdp_loop entries 0 in if negb (acpi2 =? 0) then acpi2 else acpi1.

(** [repr(u32)] of the two enumerations. *)
Definition region_code (k : MemoryKind) : Z :=
  match k with
  | Usable => 0 | BootloaderReclaimable => 1 | KernelAndModules => 2 | AcpiReclaimable => 3
  | AcpiNvs => 4 | Reserved => 5 | BadMemory => 6 | MkFramebuffer => 7
  end.
Definition pixel_code (f : PixelFormat) : Z := match f with Bgrx8888 => 0 | Rgbx8888 => 1 | PfUnknown => 0xFFFFFFFF end.
(** [ptr::write] of the structures: the fields at their offsets, the padding
    as it was. *)
Definition put_fields (m : PhysMem) (a : Z) (fields : list (Z * nat * Z)) : PhysMem :=
  foldl (fun m f => let '(off, n, v) := f in store m (a + off) (le_bytes n v)) m fields.
Definition put_region (m : PhysMem) (a : Z) (r : MemoryRegion) : PhysMem :=
  put_fields m a [(0, 8%nat, r_base r); (8, 8%nat, r_length r); (16, 4%nat, region_code (r_kind r))].
Fixpoint put_regions (m : PhysMem) (a : Z) (l : list MemoryRegion) : PhysMem :=
  match l with [] => m | r :: l => put_regions (put_region m a r) (a + REGION_SIZE) l end.
Definition put_boot_info (m : PhysMem) (a mmap_virt : Z) (i : BootInfo) : PhysMem :=
  let fb := bi_framebuffer i in
  put_fields m a [(0, 8%nat, bi_magic i); (8, 4%nat, bi_version i); (12, 4%nat, 0);
           (16, 8%nat, fb_base fb); (24, 4%nat, fb_width fb); (28, 4%nat, fb_height fb); (32, 4%nat, fb_pitch fb);
           (36, 4%nat, fb_bits_per_pixel fb); (40, 4%nat, pixel_code (fb_pixel_format fb));
           (48, 8%nat, mmap_virt); (56, 8%nat, zlen (bi_memory_map i)); (64, 8%nat, bi_rsdp_phys i);
           (72, 8%nat, 0); (80, 8%nat, 0); (88, 8%nat, bi_hhdm_offset i)].

(** The state of the processor at the jump to the kernel. *)
Record Handoff : Type := mkHandoff { ho_cr3 : Z; ho_rsp : Z; ho_rip : Z; ho_rdi : Z; ho_info : BootInfo }.

Section Main.
  Context {F : Type} {UF : Uefi F} {PE : PageTableEntry} {HE : HugeEntry}.

(** [efi_main] from the point where the screen is set up and the kernel file is
    in memory at [input]; [memory_map] is what [exit_boot_services] returns. *)
Definition efi_main (fb : Framebuffer) (input entry_point : Z) (phs : list (option PhType * Segment))
    (cfg : list (CfgGuid * Z)) (memory_map : F -> list UefiDesc) : LD (F := F) Handoff :=
  let* stack_phys := alloc_pages (pages_for KERNEL_STACK_SIZE) in
  let* stack_top := st_lift (let! a := checked 64 (HHDM_OFFSET + stack_phys) in checked 64 (a + KERNEL_STACK_SIZE)) in
  let rsdp := find_rsdp cfg in
  let* (pml4, _) := build_page_tables input phs fb in
  let* boot_info_phys := alloc_pages 1 in
  let* mmap_entries_phys := alloc_pages MMAP_PAGES in
  let* s := st_get in
  let* regions := st_lift (regions_of (memory_map (ld_fw s)) 0) in
  let* _ := ld_set (fun m => put_regions m mmap_entries_phys regions) in
  let* mmap_virt := st_lift (checked 64 (mmap_entries_phys + HHDM_OFFSET)) in
  let info := mkBootInfo BOOT_INFO_MAGIC BOOT_INFO_VERSION fb regions rsdp HHDM_OFFSET in
  let* _ := ld_set (fun m => put_boot_info m boot_info_phys mmap_virt info) in
  let* info_virt := st_lift (checked 64 (boot_info_phys + HHDM_OFFSET)) in
  (* [PhysFrame::from_start_address(..).unwrap()] and the write to CR3 *)
  let* _ := st_lift (phys_addr_new pml4) in
  let* _ := st_lift (if pml4 mod 4096 =? 0 then Ret tt else Panic) in
  st_ret (mkHandoff pml4 stack_top entry_point info_virt info).
End Main.
