(* ===== verification/BootloaderProps.v ===== *)
(** * What the bootloader leaves to the kernel

    The page tables it builds translate the first 4 GiB at their own addresses
    and at [HHDM_OFFSET], the memory of the screen, and every page of the
    kernel image, whose bytes are those of the file.  The proof follows the
    tree of tables: a map from paths of indices to the frames of tables, and a
    map from paths to the entries of pages. *)

From S2P Require Import Prelude Bytes Frames BootInfo Pmm X86 Vmm VmmInv Elf Bootloader.

Abbreviation Paths := (gmap (list Z) Z).

Section Tree.
  Context {F : Type} {UF : Uefi F} {UL : UefiLaws F}
    {PE : PageTableEntry} {PL : PageTableEntryLaws} {HE : HugeEntry} {HL : HugeEntryLaws}.
  Implicit Types (s : Loader F) (T L : Paths) (p q : list Z).

(** ** Entries *)

Definition PW : Z := Z.lor PTF_PRESENT PTF_WRITABLE.
Definition entry_of (a fl : Z) : Z := match pte_set_addr a fl with Ret e => e | _ => 0 end.
Definition leaf_ok (fl : Z) : Prop := ptf_ok fl /\ contains fl PTF_PRESENT = true.

Lemma entry_of_spec a fl : frame_addr a -> ptf_ok fl ->
  pte_set_addr a fl = Ret (entry_of a fl) /\ 0 <= entry_of a fl < 2 ^ 64 /\ pte_addr (entry_of a fl) = a /\ pte_flags (entry_of a fl) = fl.
Proof using PL.
  intros Ha Hf. unfold entry_of. destruct (pte_set_addr_spec a fl Ha Hf) as (e & -> & H1 & H2 & H3). done.
Qed.
Lemma entry_of_present a fl : frame_addr a -> leaf_ok fl -> present (entry_of a fl) = true /\ 0 < entry_of a fl < 2 ^ 64.
Proof using PL.
  intros Ha [Hf Hp]. destruct (entry_of_spec a fl Ha Hf) as (_ & Hr & _ & Hfl). unfold present. rewrite Hfl. split; [done |].
  assert (entry_of a fl <> 0); [| lia]. intros E. rewrite E, pte_flags_unused in Hfl. subst fl.
  rewrite contains_zero in Hp by apply ptf_present_nonzero. done.
Qed.
Lemma PW_ok : leaf_ok PW.
Proof using PL. split; [apply ptf_ok_lor; [apply ptf_present_ok | apply ptf_writable_ok] | apply contains_lor_l, contains_refl]. Qed.
Lemma PW_not_huge : contains PW PTF_HUGE_PAGE = false.
Proof using HL. destruct ptf_bits as (H1 & H2 & H3 & _). unfold PW. by rewrite H1, H2, H3. Qed.

(** ** The tree *)

(** The word of the entry at a path. *)
Definition word T L q : Z := match T !! q with Some g => entry_of g PW | None => default 0 (L !! q) end.

Record tree s (root : Z) T L : Prop := mkTree {
  tr_root : T !! [] = Some root;
  tr_table : forall p f, T !! p = Some f -> frame_addr f /\ ~ uefi_free (ld_fw s) f /\ (length p <= 3)%nat;
  tr_inj : forall p q f, T !! p = Some f -> T !! q = Some f -> p = q;
  tr_entry : forall p f i, T !! p = Some f -> index_ok i -> entry (ld_mem s) f i = word T L (p ++ [i]);
  tr_leaf : forall q e, L !! q = Some e -> (length q = 3 \/ length q = 4)%nat;
  tr_parent : forall p i, is_Some (T !! (p ++ [i])) \/ is_Some (L !! (p ++ [i])) -> is_Some (T !! p);
  tr_disjoint : forall q, is_Some (T !! q) -> L !! q = None;
  tr_held : forall p f, T !! p = Some f -> uefi_held (ld_fw s) LOADER_DATA f
}.

Lemma tree_frames s root T L p f : tree s root T L -> T !! p = Some f -> frame_addr f.
Proof. intros Ht Hp. by destruct (tr_table _ _ _ _ Ht p f Hp). Qed.

(** What was handed out before and is no table is as it was; tables stay, and
    new ones were free. *)
Record gains s s' T T' : Prop := mkGrows {
  gr_free : forall f, frame_addr f -> uefi_free (ld_fw s') f -> uefi_free (ld_fw s) f;
  gr_mem : forall f x, frame_addr f -> f <= x < f + PAGE_SIZE -> ~ uefi_free (ld_fw s) f ->
    (forall p, T !! p <> Some f) -> ld_mem s' x = ld_mem s x;
  gr_tabs : T ⊆ T';
  gr_new : forall p f, T' !! p = Some f -> T !! p = Some f \/ uefi_free (ld_fw s) f;
  gr_held : forall ty f, uefi_held (ld_fw s) ty f -> uefi_held (ld_fw s') ty f
}.
Lemma gains_refl s T : gains s s T T.
Proof. split; auto. Qed.
Lemma gains_trans s1 s2 s3 T1 T2 T3 : gains s1 s2 T1 T2 -> gains s2 s3 T2 T3 ->
  (forall p f, T2 !! p = Some f -> frame_addr f) -> (forall p f, T3 !! p = Some f -> frame_addr f) -> gains s1 s3 T1 T3.
Proof.
  intros [F1 M1 S1 N1 D1] [F2 M2 S2 N2 D2] H2 H3. split.
  - auto.
  - intros f x Hf Hx Hn Ht. rewrite (M2 f x Hf Hx); [by apply (M1 f) | auto |].
    intros p Hp. destruct (N1 p f Hp) as [Hp1 | Hp1]; [by apply (Ht p) | done].
  - by etrans.
  - intros p f Hp. destruct (N2 p f Hp) as [Hp2 | Hp2]; [by apply N1 | right]. apply F1; [| done]. by eapply H3.
  - auto.
Qed.

(** ** Pages of the firmware *)

(** Requests of [k] pages in all are served. *)
Fixpoint requests (ns : list Z) (fw : F) : bool :=
  match ns with
  | [] => true
  | n :: ns => match allocate_pages LOADER_DATA n fw with Some (_, fw') => requests ns fw' | None => false end
  end.
Definition serves (k : Z) (fw : F) : Prop :=
  forall ns, Forall (fun n => 0 < n) ns -> foldr Z.add 0 ns <= k -> requests ns fw = true.
Lemma serves_mono k k' fw : serves k fw -> k' <= k -> serves k' fw.
Proof. intros Hs Hk ns Hn Hsum. apply Hs; [done | lia]. Qed.
Lemma serves_step k n fw : serves k fw -> 0 < n <= k -> exists a fw', allocate_pages LOADER_DATA n fw = Some (a, fw') /\ serves (k - n) fw'.
Proof.
  intros Hs Hn. pose proof (Hs [n]) as H1. cbn in H1. specialize (H1 ltac:(repeat constructor; lia) ltac:(lia)).
  destruct (allocate_pages LOADER_DATA n fw) as [[a fw'] |] eqn:E; [| done]. exists a, fw'. split; [done |].
  intros ns Hns Hsum. specialize (Hs (n :: ns)). cbn in Hs. rewrite E in Hs. apply Hs; [by constructor; [lia |] | lia].
Qed.

(** A table lies outside what was free. *)
Lemma frame_apart a f n x : frame_addr a -> frame_addr f -> ~ (a <= f < a + n * PAGE_SIZE) -> f <= x < f + PAGE_SIZE -> 0 < n ->
  ~ (a <= x < a + n * PAGE_SIZE).
Proof. intros [i ->]%frame_addr_mul [j ->]%frame_addr_mul Hn Hx Hp. unfold PAGE_SIZE in *. nia. Qed.
Lemma entry_ext (m m' : PhysMem) f i : index_ok i -> (forall x, f <= x < f + PAGE_SIZE -> m' x = m x) -> entry m' f i = entry m f i.
Proof. intros Hi Hm. apply read64_ext. intros x Hx. apply Hm. by apply (slot_in_frame f i). Qed.

(** Memory that has just been handed out may be written. *)
Lemma alloc_spec k n s root T L : tree s root T L -> serves k (ld_fw s) -> 0 < n <= k ->
  exists a fw', alloc_pages n s = Ret (a, mkLoader (ld_mem s) fw') /\ serves (k - n) fw' /\
    frame_addr a /\ a + n * PAGE_SIZE <= 2 ^ 52 /\
    (forall g, frame_addr g -> a <= g < a + n * PAGE_SIZE ->
       uefi_free (ld_fw s) g /\ ~ uefi_free fw' g /\ uefi_held fw' LOADER_DATA g) /\
    forall m', (forall x, ~ (a <= x < a + n * PAGE_SIZE) -> m' x = ld_mem s x) ->
      tree (mkLoader m' fw') root T L /\ gains s (mkLoader m' fw') T T.
Proof using UL.
  intros Ht Hs Hn. destruct (serves_step k n _ Hs Hn) as (a & fw' & E & Hs'). exists a, fw'. unfold alloc_pages. rewrite E.
  destruct (allocate_pages_spec LOADER_DATA n _ a fw' ltac:(lia) E) as (Ha & _ & Hend & Hfree & Hiff).
  destruct (allocate_pages_held LOADER_DATA n _ a fw' ltac:(lia) E) as (Hheld & Hstay).
  split_and!; [done | done | done | done | |].
  { intros g Hg Hin. split; [by apply Hfree |]. split; [| by apply Hheld]. intros Hg'. by apply Hiff in Hg' as [_ ?]. }
  intros m' Hm'.
  assert (forall f x, frame_addr f -> ~ uefi_free (ld_fw s) f -> f <= x < f + PAGE_SIZE -> m' x = ld_mem s x) as Hkeep.
  { intros f x Hf Hnf Hx. apply Hm', (frame_apart a f n x); try done; [| lia]. intros Hin. by apply Hnf, Hfree. }
  split.
  - destruct Ht as [H1 H2 H3 H4 H5 H6 H7 H8]. split; cbn [ld_mem ld_fw]; try done.
    + intros p f Hp. destruct (H2 p f Hp) as (Hf & Hnf & Hl). split_and!; [done | | done]. intros Hfr. by apply Hiff in Hfr as [? _].
    + intros p f i Hp Hi. rewrite <- (H4 p f i Hp Hi). destruct (H2 p f Hp) as (Hf & Hnf & _). apply entry_ext; [done |]. eauto.
    + intros p f Hp. by eapply Hstay, H8.
  - split; cbn [ld_mem ld_fw]; [| | done | auto | done].
    + intros f Hf Hfr. by apply Hiff in Hfr as [? _].
    + intros f x Hf Hx Hnf _. by apply (Hkeep f).
Qed.

(** Writing one entry of a table. *)
Lemma ld_set_entry_spec s root T L p f i a fl :
  tree s root T L -> T !! p = Some f -> index_ok i -> frame_addr a -> leaf_ok fl ->
  let m' := write64 (ld_mem s) (slot f i) (entry_of a fl) in
  ld_set_entry (slot f i) a fl s = Ret (tt, mkLoader m' (ld_fw s)) /\
  (forall q g j, T !! q = Some g -> index_ok j ->
     entry m' g j = if decide (q ++ [j] = p ++ [i]) then entry_of a fl else word T L (q ++ [j])) /\
  gains s (mkLoader m' (ld_fw s)) T T.
Proof using PL.
  intros Ht Hp Hi Ha Hfl m'. destruct (tr_table _ _ _ _ Ht p f Hp) as (Hf & Hnf & _).
  destruct (entry_of_spec a fl Ha (proj1 Hfl)) as (E & Hr & _). split_and!.
  - unfold ld_set_entry, st_bind, st_lift, ld_set, st_modify. rewrite phys_addr_new_ok by (destruct Ha; lia). cbn [obind]. by rewrite E.
  - intros q g j Hq Hj. destruct (tr_table _ _ _ _ Ht q g Hq) as (Hg & _). case_decide as Heq.
    + apply app_inj_2 in Heq as [-> [= ->]]; [| done]. rewrite Hp in Hq. injection Hq as <-. by apply entry_write_same.
    + rewrite <- (tr_entry _ _ _ _ Ht q g j Hq Hj). apply entry_write_other; try done.
      intros [= -> ->]. apply Heq. by rewrite (tr_inj _ _ _ _ Ht _ _ _ Hq Hp).
  - split; cbn [ld_mem ld_fw]; [auto | | done | auto | done]. intros f' x Hf' Hx Hnf' Hnt. unfold m', write64.
    apply store_other. unfold zlen. rewrite le_bytes_length. intros Hin. apply (Hnt p). rewrite Hp. f_equal.
    pose proof (slot_in_frame f i x Hi ltac:(lia)) as Hx2. by rewrite <- (frame_of_in f x Hf Hx2), (frame_of_in f' x Hf' Hx).
Qed.

(** A page is entered. *)
Lemma leaf_spec s root T L p f i a fl :
  tree s root T L -> T !! p = Some f -> (length p = 2 \/ length p = 3)%nat -> T !! (p ++ [i]) = None -> index_ok i ->
  frame_addr a -> leaf_ok fl ->
  exists s', ld_set_entry (slot f i) a fl s = Ret (tt, s') /\ ld_fw s' = ld_fw s /\
    tree s' root T (<[p ++ [i] := entry_of a fl]> L) /\ gains s s' T T.
Proof using PL.
  intros Ht Hp Hlen Hnt Hi Ha Hfl. destruct (ld_set_entry_spec s root T L p f i a fl Ht Hp Hi Ha Hfl) as (E & Hent & Hg).
  eexists. split; [exact E |]. split; [done |]. split; [| exact Hg]. destruct Ht as [H1 H2 H3 H4 H5 H6 H7 H8].
  split; cbn [ld_mem ld_fw]; try done.
  - intros q g j Hq Hj. rewrite (Hent q g j Hq Hj). unfold word. case_decide as Heq.
    + rewrite Heq, Hnt. by rewrite lookup_insert_eq.
    + by rewrite lookup_insert_ne by congruence.
  - intros q e. destruct (decide (q = p ++ [i])) as [-> | Hne]; [| rewrite lookup_insert_ne by done; apply H5].
    intros _. rewrite length_app. simpl. lia.
  - intros q j Hq. destruct (decide (q ++ [j] = p ++ [i])) as [Heq | Hne].
    + apply app_inj_2 in Heq as [-> _]; [| done]. by rewrite Hp.
    + apply (H6 q j). rewrite lookup_insert_ne in Hq by done. exact Hq.
  - intros q Hq. rewrite lookup_insert_ne; [by apply H7 |]. intros <-. rewrite Hnt in Hq. by destruct Hq.
Qed.

(** A table is entered, which was free and is now empty. *)
Lemma table_spec s s1 root T L p f i g :
  tree s1 root T L -> T !! p = Some f -> (length p <= 2)%nat -> T !! (p ++ [i]) = None -> L !! (p ++ [i]) = None -> index_ok i ->
  frame_addr g -> uefi_free (ld_fw s) g -> ~ uefi_free (ld_fw s1) g -> uefi_held (ld_fw s1) LOADER_DATA g -> (forall q, T !! q <> Some g) ->
  (forall j, index_ok j -> entry (ld_mem s1) g j = 0) -> gains s s1 T T ->
  exists s', ld_set_entry (slot f i) g PW s1 = Ret (tt, s') /\ ld_fw s' = ld_fw s1 /\
    tree s' root (<[p ++ [i] := g]> T) L /\ gains s s' T (<[p ++ [i] := g]> T).
Proof using PL.
  intros Ht Hp Hlen Hnt Hnl Hi Hg Hfree Hnf Hhd Hng Hzero Hgr.
  destruct (ld_set_entry_spec s1 root T L p f i g PW Ht Hp Hi Hg PW_ok) as (E & Hent & Hg2).
  eexists. split; [exact E |]. split; [done |]. pose proof Ht as [H1 H2 H3 H4 H5 H6 H7 H8].
  destruct (H2 p f Hp) as (Hf & _). assert (f <> g) as Hfg by (intros ->; by apply (Hng p)).
  assert (forall j, T !! ((p ++ [i]) ++ [j]) = None /\ L !! ((p ++ [i]) ++ [j]) = None) as Hbelow.
  { intros j. split; apply eq_None_not_Some; intros Hs; destruct (H6 (p ++ [i]) j) as [x Hx]; auto; congruence. }
  split.
  - split; cbn [ld_mem ld_fw].
    + rewrite lookup_insert_ne; [done | by destruct p].
    + intros q h. destruct (decide (q = p ++ [i])) as [-> | Hne]; [| rewrite lookup_insert_ne by done; apply H2].
      rewrite lookup_insert_eq. intros [= <-]. rewrite length_app. simpl. split_and!; [done | done | lia].
    + intros q1 q2 h. destruct (decide (q1 = p ++ [i])) as [-> | N1], (decide (q2 = p ++ [i])) as [-> | N2]; try done;
        rewrite ?lookup_insert_eq, ?lookup_insert_ne by done; [intros [= <-] Hq; by apply Hng in Hq | intros Hq [= <-]; by apply Hng in Hq | apply H3].
    + intros q h j. destruct (decide (q = p ++ [i])) as [-> | Hne].
      * rewrite lookup_insert_eq. intros [= <-] Hj. unfold word. destruct (Hbelow j) as [HT HL']. rewrite HL'.
        rewrite lookup_insert_ne by (intros Hx; apply (f_equal length) in Hx; rewrite !length_app in Hx; simpl in Hx; lia).
        rewrite HT. simpl. rewrite <- (Hzero j Hj). apply entry_write_other; try done. congruence.
      * rewrite lookup_insert_ne by done. intros Hq Hj. rewrite (Hent q h j Hq Hj). unfold word. case_decide as Heq.
        -- by rewrite Heq, lookup_insert_eq.
        -- by rewrite lookup_insert_ne by congruence.
    + exact H5.
    + intros q j Hq. destruct (decide (q ++ [j] = p ++ [i])) as [Heq | Hne].
      * apply app_inj_2 in Heq as [-> _]; [| done]. rewrite lookup_insert_ne; [by rewrite Hp |].
        intros Hx. apply (f_equal length) in Hx. rewrite length_app in Hx. simpl in Hx. lia.
      * rewrite lookup_insert_ne in Hq by done. destruct (H6 q j Hq) as [h Hh].
        destruct (decide (p ++ [i] = q)) as [<- | ]; [by rewrite lookup_insert_eq | by rewrite lookup_insert_ne, Hh].
    + intros q Hq. destruct (decide (q = p ++ [i])) as [-> | Hne]; [done |]. apply H7. by rewrite lookup_insert_ne in Hq.
    + intros q h. destruct (decide (q = p ++ [i])) as [-> | Hne]; [rewrite lookup_insert_eq; by intros [= <-] | rewrite lookup_insert_ne by done; apply H8].
  - destruct (gains_trans _ _ _ _ _ _ Hgr Hg2) as [G1 G2 G3 G4 G5]; [intros q h Hq; by destruct (H2 q h Hq) .. |].
    split; cbn [ld_fw ld_mem] in *; [done | done | by apply insert_subseteq | | done].
    intros q h. destruct (decide (q = p ++ [i])) as [-> | Hne]; [rewrite lookup_insert_eq; intros [= <-]; by right | rewrite lookup_insert_ne by done; auto].
Qed.

Lemma ensure_child_spec k s root T L p f i :
  tree s root T L -> T !! p = Some f -> (length p <= 2)%nat -> L !! (p ++ [i]) = None -> index_ok i -> serves k (ld_fw s) -> 1 <= k ->
  exists g s' T', ld_ensure_child (slot f i) s = Ret (g, s') /\ serves (k - 1) (ld_fw s') /\
    tree s' root T' L /\ gains s s' T T' /\ T' !! (p ++ [i]) = Some g /\ (forall q, q <> p ++ [i] -> T' !! q = T !! q).
Proof using UL PL HL.
  intros Ht Hp Hlen Hnl Hi Hs Hk. pose proof (tr_entry _ _ _ _ Ht p f i Hp Hi) as He. unfold word in He. rewrite Hnl in He.
  unfold ld_ensure_child. erewrite st_bind_step by reflexivity. fold (entry (ld_mem s) f i). rewrite He, pte_is_unused_spec.
  destruct (T !! (p ++ [i])) as [g |] eqn:ET.
  - destruct (tr_table _ _ _ _ Ht _ g ET) as (Hg & _). destruct (entry_of_present g PW Hg PW_ok) as [_ Hr].
    destruct (entry_of_spec g PW Hg (proj1 PW_ok)) as (_ & _ & Ha & _).
    rewrite (proj2 (Z.eqb_neq _ _)) by lia. exists g, s, T. split_and!; [| apply (serves_mono k); [done | lia] | done | apply gains_refl | done | done].
    unfold st_bind, st_ret, ld_load. cbn [obind]. fold (entry (ld_mem s) f i). by rewrite He, Ha.
  - cbn [default from_option id]. rewrite Z.eqb_refl.
    destruct (alloc_spec k 1 s root T L Ht Hs ltac:(lia)) as (g & fw' & Ea & Hs' & Hg & Hend & Hfree & Hw).
    set (s1 := mkLoader (fill (ld_mem s) g 4096 0) fw').
    destruct (Hw (ld_mem s1)) as [Ht1 Hg1]; [intros x Hx; apply fill_other; unfold PAGE_SIZE in Hx; lia |].
    destruct (Hfree g Hg) as (Hf1 & Hf2 & Hf3); [unfold PAGE_SIZE; lia |].
    destruct (table_spec s s1 root T L p f i g) as (s2 & E2 & Hfw & Ht2 & Hg2); try done.
    { intros q Hq. by destruct (tr_table _ _ _ _ Ht q g Hq) as (_ & ? & _). }
    { intros j Hj. by apply entry_fill_same. }
    exists g, s2, (<[p ++ [i] := g]> T).
    split_and!; [| rewrite Hfw; exact Hs' | exact Ht2 | exact Hg2 | apply lookup_insert_eq | intros q Hq; by rewrite lookup_insert_ne].
    assert (entry (ld_mem s2) f i = entry_of g PW) as He2.
    { rewrite (tr_entry _ _ _ _ Ht2 p f i); [unfold word; by rewrite lookup_insert_eq | | done].
      rewrite lookup_insert_ne; [done |]. intros Hx. apply (f_equal length) in Hx. rewrite length_app in Hx. simpl in Hx. lia. }
    destruct (entry_of_spec g PW Hg (proj1 PW_ok)) as (_ & _ & Ha & _).
    unfold st_bind at 1. erewrite st_bind_step by exact Ea. erewrite st_bind_step by reflexivity. fold s1. fold PW.
    cbn [ld_mem ld_fw]. fold s1. rewrite E2. cbn [obind]. unfold st_bind, st_ret, ld_load. cbn [obind].
    fold (entry (ld_mem s2) f i). by rewrite He2, Ha.
Qed.

Lemma leaf_short s root T L q : tree s root T L -> (length q <= 2)%nat -> L !! q = None.
Proof. intros Ht Hq. apply eq_None_not_Some. intros [e He]. apply (tr_leaf _ _ _ _ Ht) in He. lia. Qed.

Lemma walk_to_pd_spec k s root T L v :
  tree s root T L -> serves k (ld_fw s) -> 2 <= k ->
  exists g s' T', walk_to_pd root v s = Ret (g, s') /\ serves (k - 2) (ld_fw s') /\
    tree s' root T' L /\ gains s s' T T' /\ T' !! [pml4_idx v; pdpt_idx v] = Some g /\ (forall q, (3 <= length q)%nat -> T' !! q = T !! q).
Proof using UL PL HL.
  intros Ht Hs Hk. unfold walk_to_pd.
  destruct (ensure_child_spec k s root T L [] root (pml4_idx v)) as (g1 & s1 & T1 & E1 & Hs1 & Ht1 & Hg1 & Hl1 & Hq1);
    [done | apply Ht | simpl; lia | by eapply leaf_short; [exact Ht | simpl; lia] | apply land_1FF_range | done | lia |].
  destruct (ensure_child_spec (k - 1) s1 root T1 L [pml4_idx v] g1 (pdpt_idx v)) as (g2 & s2 & T2 & E2 & Hs2 & Ht2 & Hg2 & Hl2 & Hq2);
    [done | exact Hl1 | simpl; lia | by eapply leaf_short; [exact Ht1 | simpl; lia] | apply land_1FF_range | done | lia |].
  exists g2, s2, T2. erewrite st_bind_step by exact E1. split_and!; [exact E2 | by replace (k - 2) with (k - 1 - 1) by lia | done | | done |].
  - eapply gains_trans; [exact Hg1 | exact Hg2 | intros p f; by eapply tree_frames ..].
  - intros q Hq. rewrite Hq2, Hq1; [done | |]; intros ->; simpl in Hq; lia.
Qed.
Lemma walk_to_pt_spec k s root T L v :
  tree s root T L -> serves k (ld_fw s) -> 3 <= k -> L !! path3 v = None ->
  exists g s' T', walk_to_pt root v s = Ret (g, s') /\ serves (k - 3) (ld_fw s') /\
    tree s' root T' L /\ gains s s' T T' /\ T' !! path3 v = Some g.
Proof using UL PL HL.
  intros Ht Hs Hk Hl. unfold walk_to_pt.
  destruct (walk_to_pd_spec k s root T L v Ht Hs ltac:(lia)) as (g1 & s1 & T1 & E1 & Hs1 & Ht1 & Hg1 & Hl1 & _).
  destruct (ensure_child_spec (k - 2) s1 root T1 L [pml4_idx v; pdpt_idx v] g1 (pd_idx v)) as (g2 & s2 & T2 & E2 & Hs2 & Ht2 & Hg2 & Hl2 & _);
    [done | exact Hl1 | simpl; lia | exact Hl | apply land_1FF_range | done | lia |].
  exists g2, s2, T2. erewrite st_bind_step by exact E1. split_and!; [exact E2 | by replace (k - 3) with (k - 2 - 1) by lia | done | | done].
  eapply gains_trans; [exact Hg1 | exact Hg2 | intros p f; by eapply tree_frames ..].
Qed.

(** ** Regions *)

Lemma region_loop_spec (Inv : Z -> Loader F -> Prop) (step len : Z) (map_one : Z -> LD (F := F) unit) s :
  0 < step -> 0 <= len -> len + step <= 2 ^ 64 -> Inv 0 s ->
  (forall i s, 0 <= i -> i * step < len -> Inv i s -> exists s', map_one (i * step) s = Ret (tt, s') /\ Inv (i + 1) s') ->
  exists s', region_loop (Z.to_nat (div_ceil len step)) step len map_one 0 s = Ret (tt, s') /\ Inv (div_ceil len step) s'.
Proof.
  intros Hst Hlen Hmax H0 Hstep. set (n := div_ceil len step).
  assert (len <= n * step < len + step) as Hn.
  { unfold n, div_ceil. pose proof (Z.div_mod (len + step - 1) step ltac:(lia)). pose proof (Z.mod_pos_bound (len + step - 1) step Hst). lia. }
  assert (0 <= n) as Hn0 by nia.
  assert (forall fuel i s, 0 <= i <= n -> Z.of_nat fuel = n - i -> Inv i s ->
    exists s', region_loop fuel step len map_one (i * step) s = Ret (tt, s') /\ Inv n s') as Hloop.
  { induction fuel as [| fuel IH]; intros i s1 Hi Hf Hinv; cbn [region_loop].
    - replace i with n in * by lia. rewrite (proj2 (Z.leb_le _ _)) by lia. by exists s1.
    - assert ((i + 1) * step <= n * step) by (apply Z.mul_le_mono_nonneg_r; lia).
      rewrite (proj2 (Z.leb_gt _ _)) by lia.
      destruct (Hstep i s1) as (s2 & E & Hinv2); [lia | lia | done |]. erewrite st_bind_step by exact E.
      erewrite st_bind_step by (unfold st_lift; rewrite checked_fits by lia; reflexivity).
      replace (i * step + step) with ((i + 1) * step) by lia. apply IH; [lia | lia | done]. }
  destruct (Hloop (Z.to_nat n) 0 s) as (s' & E & Hs'); [lia | lia | done |]. by exists s'.
Qed.

(** Entries made in order. *)
Definition entered (key : Z -> list Z) (w : Z -> Z) (n : Z) L : Paths := foldl (fun L i => <[key i := w i]> L) L (seqZ 0 n).
Lemma entered_S key w n L : 0 <= n -> entered key w (n + 1) L = <[key n := w n]> (entered key w n L).
Proof. intros Hn. unfold entered. by rewrite seqZ_S_r, foldl_app by done. Qed.
Lemma entered_hit key w n L i : 0 <= i < n -> (forall j, 0 <= j < n -> key j = key i -> w j = w i) -> entered key w n L !! key i = Some (w i).
Proof.
  revert i. induction n as [n IH] using (well_founded_induction (Z.lt_wf 0)). intros i Hi Hw.
  replace n with (n - 1 + 1) by lia. rewrite entered_S by lia. destruct (decide (key (n - 1) = key i)) as [E | Hne].
  - rewrite E, lookup_insert_eq. f_equal. apply Hw; [lia | done].
  - rewrite lookup_insert_ne by done. apply IH; [lia | | intros j Hj; apply Hw; lia].
    destruct (decide (i = n - 1)) as [-> |]; [done | lia].
Qed.
Lemma entered_miss key w n L q : 0 <= n -> (forall j, 0 <= j < n -> key j <> q) -> entered key w n L !! q = L !! q.
Proof.
  induction n as [n IH] using (well_founded_induction (Z.lt_wf 0)). intros Hn Hk.
  destruct (decide (n = 0)) as [-> |]; [done |]. replace n with (n - 1 + 1) by lia. rewrite entered_S by lia.
  rewrite lookup_insert_ne by (apply Hk; lia). apply IH; [lia | lia | intros j Hj; apply Hk; lia].
Qed.

Lemma count_lt len step i : 0 < step -> 0 <= i -> i * step < len -> i < div_ceil len step.
Proof.
  intros Hs Hi Hil. unfold div_ceil. assert (i <= (len + step - 1) / step - 1); [| lia].
  apply Z.le_add_le_sub_r. apply Z.div_le_lower_bound; lia.
Qed.

Definition no_page_tables T : Prop := forall q, (3 <= length q)%nat -> T !! q = None.

Lemma map_one_2m_spec k s root T L virt phys fl off :
  tree s root T L -> no_page_tables T -> serves k (ld_fw s) -> 2 <= k ->
  0 <= virt + off -> canonical (virt + off) -> frame_addr (phys + off) -> leaf_ok fl ->
  exists s' T', map_one_2m root virt phys fl off s = Ret (tt, s') /\ serves (k - 2) (ld_fw s') /\
    tree s' root T' (<[path3 (virt + off) := entry_of (phys + off) fl]> L) /\ no_page_tables T' /\ gains s s' T T'.
Proof using UL PL HL.
  intros Ht Hnp Hs Hk Hv0 Hv Hp Hfl. set (v := virt + off) in *. unfold map_one_2m.
  assert (0 <= v < 2 ^ 64) as Hv64 by (unfold canonical in Hv; lia).
  erewrite st_bind_step by (unfold st_lift; fold v; rewrite checked_fits by lia; cbn [obind]; rewrite virt_addr_new_ok by done; reflexivity).
  erewrite st_bind_step by (unfold st_lift; rewrite checked_fits by (destruct Hp; lia); reflexivity).
  destruct (walk_to_pd_spec k s root T L v Ht Hs Hk) as (g & s1 & T1 & E1 & Hs1 & Ht1 & Hg1 & Hl1 & Hq1).
  erewrite st_bind_step by exact E1.
  destruct (leaf_spec s1 root T1 L [pml4_idx v; pdpt_idx v] g (pd_idx v) (phys + off) fl) as (s2 & E2 & Hfw & Ht2 & Hg2);
    [done | done | simpl; lia | rewrite Hq1 by (simpl; lia); apply Hnp; simpl; lia | apply land_1FF_range | done | done |].
  exists s2, T1. split_and!; [exact E2 | by rewrite Hfw | exact Ht2 | intros q Hq; rewrite Hq1 by done; by apply Hnp |].
  eapply gains_trans; [exact Hg1 | exact Hg2 | intros p f; by eapply tree_frames ..].
Qed.

Lemma map_region_2m_spec k s root T L virt phys len fl :
  tree s root T L -> no_page_tables T -> serves k (ld_fw s) -> 0 <= len -> len + HUGE_SIZE <= 2 ^ 64 -> 2 * div_ceil len HUGE_SIZE <= k ->
  0 <= virt -> (forall i, 0 <= i -> i * HUGE_SIZE < len -> canonical (virt + i * HUGE_SIZE) /\ frame_addr (phys + i * HUGE_SIZE)) ->
  leaf_ok (Z.lor fl PTF_HUGE_PAGE) ->
  exists s' T', map_region_2m root virt phys len fl s = Ret (tt, s') /\ serves (k - 2 * div_ceil len HUGE_SIZE) (ld_fw s') /\
    tree s' root T' (entered (fun i => path3 (virt + i * HUGE_SIZE)) (fun i => entry_of (phys + i * HUGE_SIZE) (Z.lor fl PTF_HUGE_PAGE)) (div_ceil len HUGE_SIZE) L) /\
    no_page_tables T' /\ gains s s' T T'.
Proof using UL PL HL.
  intros Ht Hnp Hs Hlen Hmax Hk Hv Hreg Hfl. set (key := fun i => path3 (virt + i * HUGE_SIZE)).
  set (w := fun i => entry_of (phys + i * HUGE_SIZE) (Z.lor fl PTF_HUGE_PAGE)).
  assert (0 < HUGE_SIZE) as Hpos by (unfold HUGE_SIZE; lia).
  destruct (region_loop_spec (fun i s' => exists T', tree s' root T' (entered key w i L) /\ no_page_tables T' /\ gains s s' T T' /\
      serves (k - 2 * i) (ld_fw s')) HUGE_SIZE len (map_one_2m root virt phys (Z.lor fl PTF_HUGE_PAGE)) s)
    as (s' & E & T' & Ht' & Hnp' & Hg' & Hs'); [done | done | done | | |].
  - exists T. split_and!; [done | done | apply gains_refl | by rewrite Z.mul_0_r, Z.sub_0_r].
  - intros i s1 Hi Hil (T1 & Ht1 & Hnp1 & Hg1 & Hs1). destruct (Hreg i Hi Hil) as [Hc Hf]. pose proof (count_lt len HUGE_SIZE i Hpos Hi Hil).
    destruct (map_one_2m_spec (k - 2 * i) s1 root T1 (entered key w i L) virt phys (Z.lor fl PTF_HUGE_PAGE) (i * HUGE_SIZE))
      as (s2 & T2 & E2 & Hs2 & Ht2 & Hnp2 & Hg2); [done | done | done | lia | nia | done | done | done |].
    exists s2. split; [done |]. exists T2. split_and!; [by rewrite entered_S | done | | by replace (k - 2 * (i + 1)) with (k - 2 * i - 2) by lia].
    eapply gains_trans; [exact Hg1 | exact Hg2 | intros p f; by eapply tree_frames ..].
  - exists s', T'. split_and!; done.
Qed.

Definition path4 (v : Z) : list Z := path3 v ++ [pt_idx v].

Lemma map_one_4k_spec k s root T L virt phys fl off :
  tree s root T L -> serves k (ld_fw s) -> 3 <= k -> L !! path3 (virt + off) = None ->
  0 <= virt + off -> canonical (virt + off) -> frame_addr (phys + off) -> leaf_ok fl ->
  exists s' T', map_one_4k root virt phys fl off s = Ret (tt, s') /\ serves (k - 3) (ld_fw s') /\
    tree s' root T' (<[path4 (virt + off) := entry_of (phys + off) fl]> L) /\ gains s s' T T'.
Proof using UL PL HL.
  intros Ht Hs Hk Hl Hv0 Hv Hp Hfl. set (v := virt + off) in *. unfold map_one_4k.
  assert (0 <= v < 2 ^ 64) as Hv64 by (unfold canonical in Hv; lia).
  erewrite st_bind_step by (unfold st_lift; fold v; rewrite checked_fits by lia; cbn [obind]; rewrite virt_addr_new_ok by done; reflexivity).
  erewrite st_bind_step by (unfold st_lift; rewrite checked_fits by (destruct Hp; lia); reflexivity).
  destruct (walk_to_pt_spec k s root T L v Ht Hs Hk Hl) as (g & s1 & T1 & E1 & Hs1 & Ht1 & Hg1 & Hl1).
  erewrite st_bind_step by exact E1.
  destruct (leaf_spec s1 root T1 L (path3 v) g (pt_idx v) (phys + off) fl) as (s2 & E2 & Hfw & Ht2 & Hg2);
    [done | done | simpl; lia | | apply land_1FF_range | done | done |].
  { apply eq_None_not_Some. intros [h Hh]. by destruct (tr_table _ _ _ _ Ht1 _ h Hh) as (_ & _ & ?); simpl in *; lia. }
  exists s2, T1. split_and!; [exact E2 | by rewrite Hfw | exact Ht2 |].
  eapply gains_trans; [exact Hg1 | exact Hg2 | intros p f; by eapply tree_frames ..].
Qed.

Lemma map_region_4k_spec k s root T L virt phys n fl :
  tree s root T L -> serves k (ld_fw s) -> 0 <= n -> (n + 1) * 4096 <= 2 ^ 64 -> 3 * n <= k ->
  0 <= virt -> (forall i, 0 <= i < n -> canonical (virt + i * 4096) /\ frame_addr (phys + i * 4096) /\ L !! path3 (virt + i * 4096) = None) ->
  leaf_ok fl ->
  exists s' T', map_region_4k root virt phys (n * 4096) fl s = Ret (tt, s') /\ serves (k - 3 * n) (ld_fw s') /\
    tree s' root T' (entered (fun i => path4 (virt + i * 4096)) (fun i => entry_of (phys + i * 4096) fl) n L) /\ gains s s' T T'.
Proof using UL PL HL.
  intros Ht Hs Hn Hmax Hk Hv Hreg Hfl. set (key := fun i => path4 (virt + i * 4096)). set (w := fun i => entry_of (phys + i * 4096) fl).
  assert (div_ceil (n * 4096) 4096 = n) as Hdiv by (unfold div_ceil; symmetry; apply (Z.div_unique _ _ _ 4095); lia).
  unfold map_region_4k.
  destruct (region_loop_spec (fun i s' => exists T', tree s' root T' (entered key w i L) /\ gains s s' T T' /\
      serves (k - 3 * i) (ld_fw s')) 4096 (n * 4096) (map_one_4k root virt phys fl) s)
    as (s' & E & T' & Ht' & Hg' & Hs'); [lia | lia | lia | | |].
  - exists T. split_and!; [done | apply gains_refl | by rewrite Z.mul_0_r, Z.sub_0_r].
  - intros i s1 Hi Hil (T1 & Ht1 & Hg1 & Hs1). destruct (Hreg i ltac:(lia)) as (Hc & Hf & Hl).
    destruct (map_one_4k_spec (k - 3 * i) s1 root T1 (entered key w i L) virt phys fl (i * 4096))
      as (s2 & T2 & E2 & Hs2 & Ht2 & Hg2); [done | done | lia | | lia | done | done | done |].
    { rewrite entered_miss; [done | lia |]. intros j _ Hx. apply (f_equal length) in Hx. done. }
    exists s2. split; [done |]. exists T2. split_and!; [by rewrite entered_S | | by replace (k - 3 * (i + 1)) with (k - 3 * i - 3) by lia].
    eapply gains_trans; [exact Hg1 | exact Hg2 | intros p f; by eapply tree_frames ..].
  - rewrite Hdiv in *. exists s', T'. split_and!; done.
Qed.

(** ** Paths *)

Lemma index_div v n : 0 <= n -> Z.land (Z.shiftr v n) 0x1FF = v / 2 ^ n mod 512.
Proof. intros Hn. rewrite Z.shiftr_div_pow2 by done. by rewrite <- (Z.land_ones _ 9) by done. Qed.
Lemma path3_div v : path3 v = [v / HUGE_SIZE / 262144 mod 512; v / HUGE_SIZE / 512 mod 512; v / HUGE_SIZE mod 512].
Proof.
  unfold path3, pml4_idx, pdpt_idx, pd_idx, HUGE_SIZE. rewrite !index_div, !Zdiv.Zdiv_Zdiv by lia. done.
Qed.
Lemma path4_div v : path4 v = path3 v ++ [v / 4096 mod 512].
Proof. unfold path4, pt_idx. by rewrite index_div. Qed.
Lemma path3_inj v v' : canonical v -> canonical v' -> path3 v = path3 v' -> v / HUGE_SIZE = v' / HUGE_SIZE.
Proof.
  intros Hv Hv'. rewrite !path3_div. intros [= H1 H2 H3].
  assert (forall v, canonical v -> 0 <= v / HUGE_SIZE < 2 ^ 26 \/ 2 ^ 43 - 2 ^ 26 <= v / HUGE_SIZE < 2 ^ 43) as Hr.
  { unfold canonical, HUGE_SIZE. intros u Hu. Z.to_euclidean_division_equations; lia. }
  apply Hr in Hv, Hv'. revert Hv Hv' H1 H2 H3. clear. generalize (v / HUGE_SIZE) (v' / HUGE_SIZE). intros a b Ha Hb.
  replace (a / 262144) with (a / 512 / 512) by (by rewrite Zdiv.Zdiv_Zdiv).
  replace (b / 262144) with (b / 512 / 512) by (by rewrite Zdiv.Zdiv_Zdiv). Z.to_euclidean_division_equations; lia.
Qed.
Lemma path4_inj v v' : canonical v -> canonical v' -> path4 v = path4 v' -> v / 4096 = v' / 4096.
Proof.
  intros Hv Hv'. rewrite !path4_div. intros [H1 [= H2]]%app_inj_2; [| done]. apply path3_inj in H1; [| done | done].
  unfold HUGE_SIZE in H1. Z.to_euclidean_division_equations; lia.
Qed.
Lemma path3_page v v' : v / HUGE_SIZE = v' / HUGE_SIZE -> path3 v = path3 v'.
Proof. intros H. by rewrite !path3_div, H. Qed.
Lemma path4_page v v' : v / 4096 = v' / 4096 -> path4 v = path4 v'.
Proof. intros H. rewrite !path4_div, H. f_equal. apply path3_page. unfold HUGE_SIZE. Z.to_euclidean_division_equations; lia. Qed.

(** ** What the processor sees *)

(** The address that a virtual address means, and whether it may be written
    and executed (Intel SDM, volume 3, 4.5 and 4.6). *)
Definition may_write (l : list Z) : bool := forallb (fun e => contains (pte_flags e) PTF_WRITABLE) l.
Definition may_execute (l : list Z) : bool := forallb (fun e => negb (contains (pte_flags e) PTF_NO_EXECUTE)) l.
Definition translate (m : PhysMem) (root va : Z) : option (Z * bool * bool) :=
  let e1 := entry m root (pml4_idx va) in
  if negb (present e1) then None else
  let e2 := entry m (pte_addr e1) (pdpt_idx va) in
  if negb (present e2) then None else
  if contains (pte_flags e2) PTF_HUGE_PAGE then Some (pte_addr e2 + va mod 2 ^ 30, may_write [e1; e2], may_execute [e1; e2]) else
  let e3 := entry m (pte_addr e2) (pd_idx va) in
  if negb (present e3) then None else
  if contains (pte_flags e3) PTF_HUGE_PAGE then Some (pte_addr e3 + va mod HUGE_SIZE, may_write [e1; e2; e3], may_execute [e1; e2; e3]) else
  let e4 := entry m (pte_addr e3) (pt_idx va) in
  if negb (present e4) then None else
  Some (pte_addr e4 + va mod PAGE_SIZE, may_write [e1; e2; e3; e4], may_execute [e1; e2; e3; e4]).

Lemma table_word s root T L p i f g : tree s root T L -> T !! p = Some f -> index_ok i -> T !! (p ++ [i]) = Some g ->
  let e := entry (ld_mem s) f i in
  present e = true /\ pte_addr e = g /\ pte_flags e = PW.
Proof using PL.
  intros Ht Hp Hi Hg e. unfold e. rewrite (tr_entry _ _ _ _ Ht p f i Hp Hi). unfold word. rewrite Hg.
  pose proof (tree_frames _ _ _ _ _ _ Ht Hg) as Hfr. destruct (entry_of_present g PW Hfr PW_ok) as [H1 _].
  destruct (entry_of_spec g PW Hfr (proj1 PW_ok)) as (_ & _ & H2 & H3). done.
Qed.
Lemma leaf_word s root T L p i f a fl : tree s root T L -> T !! p = Some f -> index_ok i -> L !! (p ++ [i]) = Some (entry_of a fl) ->
  frame_addr a -> leaf_ok fl -> let e := entry (ld_mem s) f i in present e = true /\ pte_addr e = a /\ pte_flags e = fl.
Proof using PL.
  intros Ht Hp Hi Hl Ha Hfl e. unfold e. rewrite (tr_entry _ _ _ _ Ht p f i Hp Hi). unfold word.
  destruct (T !! (p ++ [i])) as [g |] eqn:E. { rewrite (tr_disjoint _ _ _ _ Ht (p ++ [i])) in Hl by (by rewrite E). done. }
  rewrite Hl. simpl. destruct (entry_of_present a fl Ha Hfl) as [H1 _]. destruct (entry_of_spec a fl Ha (proj1 Hfl)) as (_ & _ & H2 & H3). done.
Qed.
Lemma PW_rights : contains PW PTF_WRITABLE = true /\ contains PW PTF_NO_EXECUTE = false.
Proof using HL. destruct ptf_bits as (H1 & H2 & _ & H4). unfold PW. by rewrite H1, H2, H4. Qed.

Lemma translate_2m s root T L va a fl : tree s root T L -> L !! path3 va = Some (entry_of a fl) -> frame_addr a -> leaf_ok fl ->
  contains fl PTF_HUGE_PAGE = true ->
  translate (ld_mem s) root va = Some (a + va mod HUGE_SIZE, contains fl PTF_WRITABLE, negb (contains fl PTF_NO_EXECUTE)).
Proof using PL HL.
  intros Ht Hl Ha Hfl Hhuge. destruct (tr_parent _ _ _ _ Ht [pml4_idx va; pdpt_idx va] (pd_idx va)) as [t2 E2]; [right; eexists; exact Hl |].
  destruct (tr_parent _ _ _ _ Ht [pml4_idx va] (pdpt_idx va)) as [t1 E1]; [left; eexists; exact E2 |].
  destruct (table_word s root T L [] (pml4_idx va) root t1 Ht (tr_root _ _ _ _ Ht) (land_1FF_range _) E1) as (P1 & A1 & F1).
  destruct (table_word s root T L [pml4_idx va] (pdpt_idx va) t1 t2 Ht E1 (land_1FF_range _) E2) as (P2 & A2 & F2).
  destruct (leaf_word s root T L [pml4_idx va; pdpt_idx va] (pd_idx va) t2 a fl Ht E2 (land_1FF_range _) Hl Ha Hfl) as (P3 & A3 & F3).
  destruct PW_rights as [HW HX]. unfold translate. rewrite P1, A1. cbn [negb]. rewrite P2, A2, F2, PW_not_huge. cbn [negb].
  rewrite P3, F3, Hhuge, A3. cbn [negb]. unfold may_write, may_execute. cbn [forallb]. rewrite F1, F2, F3, HW, HX. cbn [negb andb].
  by rewrite !andb_true_r.
Qed.
Lemma translate_4k s root T L va a fl : tree s root T L -> L !! path4 va = Some (entry_of a fl) -> frame_addr a -> leaf_ok fl ->
  translate (ld_mem s) root va = Some (a + va mod PAGE_SIZE, contains fl PTF_WRITABLE, negb (contains fl PTF_NO_EXECUTE)).
Proof using PL HL.
  intros Ht Hl Ha Hfl. destruct (tr_parent _ _ _ _ Ht (path3 va) (pt_idx va)) as [t3 E3]; [right; eexists; exact Hl |].
  destruct (tr_parent _ _ _ _ Ht [pml4_idx va; pdpt_idx va] (pd_idx va)) as [t2 E2]; [left; eexists; exact E3 |].
  destruct (tr_parent _ _ _ _ Ht [pml4_idx va] (pdpt_idx va)) as [t1 E1]; [left; eexists; exact E2 |].
  destruct (table_word s root T L [] (pml4_idx va) root t1 Ht (tr_root _ _ _ _ Ht) (land_1FF_range _) E1) as (P1 & A1 & F1).
  destruct (table_word s root T L [pml4_idx va] (pdpt_idx va) t1 t2 Ht E1 (land_1FF_range _) E2) as (P2 & A2 & F2).
  destruct (table_word s root T L [pml4_idx va; pdpt_idx va] (pd_idx va) t2 t3 Ht E2 (land_1FF_range _) E3) as (P3 & A3 & F3).
  destruct (leaf_word s root T L (path3 va) (pt_idx va) t3 a fl Ht E3 (land_1FF_range _) Hl Ha Hfl) as (P4 & A4 & F4).
  destruct PW_rights as [HW HX]. unfold translate. rewrite P1, A1. cbn [negb]. rewrite P2, A2, F2, PW_not_huge. cbn [negb].
  rewrite P3, F3, PW_not_huge, A3. cbn [negb]. rewrite P4, A4. unfold may_write, may_execute. cbn [forallb negb].
  rewrite F1, F2, F3, F4, HW, HX. cbn [negb andb]. by rewrite !andb_true_r.
Qed.

(** ** One segment of the kernel *)

Definition page_offset (ph : Segment) : Z := Z.land (virtual_addr ph) 0xFFF.
Definition seg_pages (ph : Segment) : Z := pages_for (mem_size ph + page_offset ph).
Definition seg_ok (ph : Segment) : Prop :=
  KERNEL_BASE <= virtual_addr ph /\ 0 < mem_size ph /\ virtual_addr ph + mem_size ph < 2 ^ 64 /\
  0 <= file_size ph <= mem_size ph /\ 0 <= p_offset ph.
(** A byte of memory that is not the firmware's to give away. *)
Definition backed (fw : F) (x : Z) : Prop := exists f, frame_addr f /\ f <= x < f + PAGE_SIZE /\ ~ uefi_free fw f.
Definition source (input : Z) (ph : Segment) (x : Z) : Prop := input + p_offset ph <= x < input + p_offset ph + file_size ph.
(** What byte [i] of a segment must be. *)
Definition image_byte (m : PhysMem) (input : Z) (ph : Segment) (i : Z) : Z :=
  if i <? file_size ph then m (input + p_offset ph + i) else 0.

Lemma page_offset_mod ph : page_offset ph = virtual_addr ph mod 4096.
Proof. unfold page_offset. by rewrite <- (Z.land_ones _ 12) by done. Qed.
Lemma seg_pages_bounds ph : seg_ok ph -> let e := mem_size ph + page_offset ph in
  e <= seg_pages ph * 4096 < e + 4096 /\ 0 < seg_pages ph /\ 0 <= page_offset ph < 4096 /\ seg_pages ph * 4096 + virtual_addr ph - page_offset ph <= 2 ^ 64.
Proof.
  intros (Hb & Hm & He & _). unfold KERNEL_BASE in Hb. rewrite page_offset_mod. unfold seg_pages, pages_for, div_ceil. rewrite page_offset_mod.
  Z.to_euclidean_division_equations; lia.
Qed.
Lemma ld_align_down_mod x n : 0 <= n <= 64 -> 0 <= x < 2 ^ 64 -> ld_align_down x (2 ^ n) = x - x mod 2 ^ n.
Proof.
  intros Hn Hx. unfold ld_align_down. assert (0 < 2 ^ n) as Hp by (apply Z.pow_pos_nonneg; lia).
  replace (2 ^ 64 - 2 ^ n) with (Z.ldiff (Z.ones 64) (Z.ones n)).
  - replace (Z.land x (Z.ldiff (Z.ones 64) (Z.ones n))) with (Z.ldiff x (Z.ones n)).
    + rewrite Z.ldiff_ones_r, Z.shiftl_mul_pow2, Z.shiftr_div_pow2 by lia. pose proof (Z.div_mod x (2 ^ n) ltac:(lia)). lia.
    + apply Z.bits_inj'. intros i Hi. rewrite Z.land_spec, !Z.ldiff_spec. destruct (decide (i < 64)) as [Hlt | Hge].
      * by rewrite (Z.ones_spec_low 64) by lia.
      * rewrite <- (Z.mod_small x (2 ^ 64)) by done. by rewrite Z.mod_pow2_bits_high by lia.
  - rewrite <- Z.sub_nocarry_ldiff.
    + rewrite !Z.ones_equiv. lia.
    + apply Z.bits_inj'. intros i Hi. rewrite Z.ldiff_spec, Z.bits_0. destruct (decide (i < n)).
      * by rewrite (Z.ones_spec_low 64), andb_false_r by lia.
      * by rewrite (Z.ones_spec_high n) by lia.
Qed.
Lemma ld_align_down_sub ph : seg_ok ph -> ld_align_down (virtual_addr ph) 4096 = virtual_addr ph - page_offset ph.
Proof. intros (Hb & Hm & He & _). unfold KERNEL_BASE in Hb. rewrite page_offset_mod. apply (ld_align_down_mod _ 12); lia. Qed.

Definition copied (m : PhysMem) (a input : Z) (ph : Segment) : PhysMem :=
  let m' := fill m a (seg_pages ph * 4096) 0 in
  store m' (a + page_offset ph) (load m' (input + p_offset ph) (Z.to_nat (file_size ph))).
Lemma copied_other m a input ph x : seg_ok ph -> ~ (a <= x < a + seg_pages ph * PAGE_SIZE) -> copied m a input ph x = m x.
Proof.
  intros Hok Hx. pose proof (seg_pages_bounds ph Hok) as (Hn & _ & Ho & _). destruct Hok as (_ & Hm & _ & Hf & _). unfold PAGE_SIZE in Hx.
  unfold copied. rewrite store_other, fill_other; [done | lia |]. unfold zlen. rewrite load_length. lia.
Qed.
Lemma copied_byte m a input ph i : seg_ok ph -> (forall x, source input ph x -> ~ (a <= x < a + seg_pages ph * PAGE_SIZE)) ->
  0 <= i < mem_size ph -> copied m a input ph (a + page_offset ph + i) = image_byte m input ph i.
Proof.
  intros Hok Hsrc Hi. pose proof (seg_pages_bounds ph Hok) as (Hn & _ & Ho & _). destruct Hok as (_ & Hm & _ & Hf & _).
  unfold copied, image_byte. destruct (Z.ltb_spec i (file_size ph)) as [Hlt | Hge].
  - unfold store. rewrite (proj2 (Z.leb_le _ _)) by lia. unfold zlen. rewrite load_length, (proj2 (Z.ltb_lt _ _)) by lia. cbn [andb].
    replace (a + page_offset ph + i - (a + page_offset ph)) with i by lia.
    apply nth_lookup_Some. unfold load. rewrite list_lookup_fmap, lookup_seq_lt by lia. cbn [fmap option_fmap option_map].
    f_equal. replace (Z.of_nat (0 + Z.to_nat i)) with i by lia. apply fill_other. unfold PAGE_SIZE in Hsrc. apply Hsrc. unfold source. lia.
  - rewrite store_other by (unfold zlen; rewrite load_length; lia). apply fill_in. lia.
Qed.

Definition seg_writable (ph : Segment) : bool := negb (Z.land (p_flags ph) 2 =? 0).
Definition seg_executable (ph : Segment) : bool := negb (Z.land (p_flags ph) 1 =? 0).
Lemma image_flags_spec ph : let fl := image_flags (p_flags ph) in
  leaf_ok fl /\ contains fl PTF_WRITABLE = seg_writable ph /\ negb (contains fl PTF_NO_EXECUTE) = seg_executable ph.
Proof using PL HL.
  pose proof ptf_present_ok. pose proof ptf_writable_ok. pose proof ptf_no_execute_ok. destruct ptf_bits as (E1 & E2 & _ & E4).
  unfold image_flags, seg_writable, seg_executable, leaf_ok.
  destruct (Z.land (p_flags ph) 2 =? 0), (Z.land (p_flags ph) 1 =? 0); cbn [negb]; split_and!;
    repeat apply ptf_ok_lor; try done; by rewrite ?E1, ?E2, ?E4.
Qed.

(** The entries of the pages of a segment loaded at [a]. *)
Definition seg_entries (ph : Segment) (a : Z) : Paths -> Paths :=
  entered (fun i => path4 (virtual_addr ph - page_offset ph + i * 4096)) (fun i => entry_of (a + i * 4096) (image_flags (p_flags ph))) (seg_pages ph).

(** A segment is in memory at [a]. *)
Record placed (s s' : Loader F) T' (m : PhysMem) (input : Z) (ph : Segment) (a : Z) : Prop := mkPlaced {
  pl_frame : frame_addr a;
  pl_end : a + seg_pages ph * PAGE_SIZE <= 2 ^ 52;
  pl_new : forall g, frame_addr g -> a <= g < a + seg_pages ph * PAGE_SIZE -> uefi_free (ld_fw s) g /\ ~ uefi_free (ld_fw s') g /\ forall p, T' !! p <> Some g;
  pl_held : forall g, frame_addr g -> a <= g < a + seg_pages ph * PAGE_SIZE -> uefi_held (ld_fw s') LOADER_DATA g;
  pl_byte : forall i, 0 <= i < mem_size ph -> ld_mem s' (a + page_offset ph + i) = image_byte m input ph i
}.

Lemma frame_add a i n : frame_addr a -> a + n * PAGE_SIZE <= 2 ^ 52 -> 0 <= i < n -> frame_addr (a + i * 4096).
Proof. intros [Ha Hm] He Hi. unfold PAGE_SIZE in *. split; [lia |]. rewrite Z.mod_add by lia. done. Qed.

Lemma load_segment_spec k s root T L input ph :
  tree s root T L -> serves k (ld_fw s) -> 4 * seg_pages ph <= k -> seg_ok ph ->
  (forall v, KERNEL_BASE <= v < 2 ^ 64 -> L !! path3 v = None) -> (forall x, source input ph x -> backed (ld_fw s) x) ->
  exists s' T' a, load_segment root input ph s = Ret (tt, s') /\ serves (k - 4 * seg_pages ph) (ld_fw s') /\
    tree s' root T' (seg_entries ph a L) /\ gains s s' T T' /\ placed s s' T' (ld_mem s) input ph a.
Proof using UL PL HL.
  intros Ht Hs Hk Hok Hkern Hsrc. pose proof (seg_pages_bounds ph Hok) as (Hn & Hn0 & Ho & Htop). pose proof Hok as (Hb & Hm & He & Hf & _).
  assert (KERNEL_BASE mod 4096 = 0) as Hkb by done. unfold KERNEL_BASE in Hb, Hkern, Hkb. pose proof (page_offset_mod ph) as Hpo.
  destruct (alloc_spec k (seg_pages ph) s root T L Ht Hs ltac:(lia)) as (a & fw1 & Ea & Hs1 & Ha & Hend & Hfree & Hw).
  assert (forall x, source input ph x -> ~ (a <= x < a + seg_pages ph * PAGE_SIZE)) as Hapart.
  { intros x (f & Hfr & Hx & Hnf)%Hsrc. apply (frame_apart a f); try done. intros Hin. by apply Hnf, Hfree. }
  set (s1 := mkLoader (copied (ld_mem s) a input ph) fw1).
  destruct (Hw (ld_mem s1)) as [Ht1 Hg1]; [intros x Hx; by apply copied_other |].
  destruct (image_flags_spec ph) as (Hfl & _).
  destruct (map_region_4k_spec (k - seg_pages ph) s1 root T L (virtual_addr ph - page_offset ph) a (seg_pages ph) (image_flags (p_flags ph)))
    as (s2 & T2 & E2 & Hs2 & Ht2 & Hg2); [done | done | lia | lia | lia | lia | | done |].
  { intros i Hi. assert (0xFFFFFFFF80000000 <= virtual_addr ph - page_offset ph) by (rewrite Hpo; Z.to_euclidean_division_equations; lia).
    split_and!; [right; lia | by apply (frame_add a i (seg_pages ph)) | apply Hkern; lia]. }
  assert (gains s s2 T T2) as Hg by (eapply gains_trans; [exact Hg1 | exact Hg2 | intros p f; by eapply tree_frames ..]).
  exists s2, T2, a. split_and!; [| by replace (k - 4 * seg_pages ph) with (k - seg_pages ph - 3 * seg_pages ph) by lia | exact Ht2 | exact Hg |].
  - unfold load_segment. fold (page_offset ph).
    erewrite st_bind_step by (unfold st_lift; rewrite checked_fits by lia; reflexivity). fold (seg_pages ph).
    erewrite st_bind_step by exact Ea. unfold PAGE_SIZE in *.
    erewrite st_bind_step by (unfold st_lift; rewrite checked_fits by (destruct Ha; lia); reflexivity).
    erewrite st_bind_step by reflexivity.
    erewrite st_bind_step by (unfold st_lift; rewrite checked_fits by (destruct Ha; lia); reflexivity).
    erewrite st_bind_step by reflexivity. cbn [ld_mem ld_fw]. rewrite ld_align_down_sub by done. exact E2.
  - assert (forall g, frame_addr g -> a <= g < a + seg_pages ph * PAGE_SIZE -> forall p, T !! p <> Some g) as Hnt.
    { intros g Hg0 Hin p Hp. destruct (Hfree g Hg0 Hin) as (Hf1 & _). by destruct (tr_table _ _ _ _ Ht p g Hp) as (_ & ? & _). }
    split; [done | done | | intros g Hg0 Hin; by apply (gr_held _ _ _ _ Hg2), Hfree |].
    + intros g Hg0 Hin. destruct (Hfree g Hg0 Hin) as (Hf1 & Hf2 & _). split_and!; [done | intros Hx; by apply Hf2, (gr_free _ _ _ _ Hg2) |].
      intros p Hp. destruct (gr_new _ _ _ _ Hg2 p g Hp) as [Hx | Hx]; [by apply (Hnt g Hg0 Hin p) | done].
    + intros i Hi. rewrite <- (copied_byte (ld_mem s) a input ph i Hok Hapart Hi). change (copied (ld_mem s) a input ph) with (ld_mem s1).
      set (x := a + page_offset ph + i). assert (a <= x < a + seg_pages ph * PAGE_SIZE) as Hx by (unfold x, PAGE_SIZE; lia).
      assert (a mod 4096 = 0) as Ham by apply Ha. assert (frame_addr (x - x mod 4096)) as Hfx.
      { unfold PAGE_SIZE in *. destruct Ha. split; Z.to_euclidean_division_equations; lia. }
      assert (a <= x - x mod 4096 < a + seg_pages ph * PAGE_SIZE) as Hin by (unfold PAGE_SIZE in *; Z.to_euclidean_division_equations; lia).
      apply (gr_mem _ _ _ _ Hg2 (x - x mod 4096)); [done | unfold PAGE_SIZE; pose proof (Z.mod_pos_bound x 4096 ltac:(lia)); lia | by apply Hfree | by apply Hnt].
Qed.

(** ** The image *)

(** A byte in memory that is neither free nor in a table. *)
Definition held s T (x : Z) : Prop :=
  exists f, frame_addr f /\ f <= x < f + PAGE_SIZE /\ ~ uefi_free (ld_fw s) f /\ forall p, T !! p <> Some f.
Lemma held_gains s s' T T' x : gains s s' T T' -> held s T x -> held s' T' x /\ ld_mem s' x = ld_mem s x.
Proof.
  intros Hg (f & Hf & Hx & Hnf & Hnt). split; [| by apply (gr_mem _ _ _ _ Hg f)]. exists f. split; [done |]. split; [done |]. split.
  - intros Hx'. by apply Hnf, (gr_free _ _ _ _ Hg).
  - intros p Hp. by destruct (gr_new _ _ _ _ Hg p f Hp) as [? | ?]; [apply (Hnt p) |].
Qed.

Definition loads (phs : list (option PhType * Segment)) : list Segment :=
  omap (fun h => if decide (h.1 = Some Load) then Some h.2 else None) phs.
(** The page of an address is one of the segment's. *)
Definition covers (ph : Segment) (v : Z) : Prop := virtual_addr ph / 4096 <= v / 4096 <= (virtual_addr ph + mem_size ph - 1) / 4096.
Definition apart (ph ph' : Segment) : Prop := forall v, covers ph v -> ~ covers ph' v.

Lemma seg_page ph v : seg_ok ph -> covers ph v ->
  exists j, 0 <= j < seg_pages ph /\ v / 4096 = (virtual_addr ph - page_offset ph + j * 4096) / 4096.
Proof.
  intros Hok Hv. pose proof (seg_pages_bounds ph Hok) as (Hn & _). exists (v / 4096 - virtual_addr ph / 4096). unfold covers in Hv.
  rewrite page_offset_mod in *. Z.to_euclidean_division_equations; lia.
Qed.
Lemma seg_page_covers ph j : seg_ok ph -> 0 <= j < seg_pages ph -> covers ph (virtual_addr ph - page_offset ph + j * 4096) /\
  KERNEL_BASE <= virtual_addr ph - page_offset ph + j * 4096 < 2 ^ 64.
Proof.
  intros Hok Hj. pose proof (seg_pages_bounds ph Hok) as (Hn & _ & _ & Ht). destruct Hok as (Hb & Hm & _). unfold covers, KERNEL_BASE in *.
  rewrite page_offset_mod in *. Z.to_euclidean_division_equations; lia.
Qed.
Lemma seg_entries_miss ph a L v : seg_ok ph -> canonical v -> ~ covers ph v -> seg_entries ph a L !! path4 v = L !! path4 v.
Proof.
  intros Hok Hv Hc. pose proof (seg_pages_bounds ph Hok) as (_ & Hn & _). apply entered_miss; [lia |]. intros j Hj E.
  destruct (seg_page_covers ph j Hok Hj) as [Hcj Hr]. apply path4_inj in E; [| unfold KERNEL_BASE in Hr; right; lia | done].
  apply Hc. unfold covers in *. by rewrite <- E.
Qed.
Lemma seg_entries_short ph a L q : seg_ok ph -> length q = 3%nat -> seg_entries ph a L !! q = L !! q.
Proof.
  intros Hok Hq. pose proof (seg_pages_bounds ph Hok) as (_ & Hn & _). apply entered_miss; [lia |]. intros j Hj E. apply (f_equal length) in E.
  by rewrite Hq in E.
Qed.
Lemma seg_entries_hit ph a L i : seg_ok ph -> 0 <= i < seg_pages ph ->
  seg_entries ph a L !! path4 (virtual_addr ph - page_offset ph + i * 4096) = Some (entry_of (a + i * 4096) (image_flags (p_flags ph))).
Proof.
  intros Hok Hi. unfold seg_entries.
  apply (entered_hit (fun i => path4 (virtual_addr ph - page_offset ph + i * 4096)) (fun i => entry_of (a + i * 4096) (image_flags (p_flags ph)))); [done |].
  intros j Hj E. destruct (seg_page_covers ph j Hok Hj) as [_ Hr], (seg_page_covers ph i Hok Hi) as [_ Hr']. unfold KERNEL_BASE in *.
  apply path4_inj in E; [| right; lia | right; lia]. replace j with i; [done |]. Z.to_euclidean_division_equations; lia.
Qed.

(** The segment is in memory at [a] and its pages are entered. *)
Record resident s T L (m : PhysMem) (input : Z) (ph : Segment) (a : Z) : Prop := mkResident {
  rs_frame : frame_addr a;
  rs_end : a + seg_pages ph * PAGE_SIZE <= 2 ^ 52;
  rs_entry : forall i, 0 <= i < seg_pages ph ->
    L !! path4 (virtual_addr ph - page_offset ph + i * 4096) = Some (entry_of (a + i * 4096) (image_flags (p_flags ph)));
  rs_held : forall g, frame_addr g -> a <= g < a + seg_pages ph * PAGE_SIZE -> uefi_held (ld_fw s) LOADER_DATA g;
  rs_byte : forall i, 0 <= i < mem_size ph -> held s T (a + page_offset ph + i) /\ ld_mem s (a + page_offset ph + i) = image_byte m input ph i
}.
Lemma resident_gains s s' T T' L L' m input ph a : gains s s' T T' -> seg_ok ph ->
  (forall v, canonical v -> covers ph v -> L' !! path4 v = L !! path4 v) -> resident s T L m input ph a -> resident s' T' L' m input ph a.
Proof.
  intros Hg Hok HL' [H1 H2 H3 H5 H4]. split; [done | done | | intros g Hg0 Hin; by apply (gr_held _ _ _ _ Hg), H5 |].
  - intros i Hi. rewrite HL'; [by apply H3 | |]; destruct (seg_page_covers ph i Hok Hi) as [? Hr]; [unfold KERNEL_BASE in Hr; right; lia | done].
  - intros i Hi. destruct (H4 i Hi) as [Hh Hb]. destruct (held_gains _ _ _ _ _ Hg Hh) as [Hh' E]. by rewrite E.
Qed.
Lemma placed_resident s s' T' L m input ph a : seg_ok ph -> placed s s' T' m input ph a -> resident s' T' (seg_entries ph a L) m input ph a.
Proof.
  intros Hok [H1 H2 H3 H5 H4]. split; [done | done | intros i Hi; by apply seg_entries_hit | done |]. intros i Hi. split; [| by apply H4].
  pose proof (seg_pages_bounds ph Hok) as (Hn & _ & Ho & _). set (x := a + page_offset ph + i). assert (a mod 4096 = 0) as Ham by apply H1.
  assert (frame_addr (x - x mod 4096) /\ a <= x - x mod 4096 < a + seg_pages ph * PAGE_SIZE) as [Hf Hin].
  { destruct H1. unfold frame_addr, PAGE_SIZE in *. Z.to_euclidean_division_equations; lia. }
  destruct (H3 _ Hf Hin) as (_ & Hnf & Hnt). exists (x - x mod 4096). split_and!; try done; pose proof (Z.mod_pos_bound x 4096 ltac:(lia)); unfold PAGE_SIZE; lia.
Qed.

Definition image_ok (segs : list Segment) : Prop := Forall seg_ok segs /\ ForallOrdPairs apart segs.
Definition image_pages (segs : list Segment) : Z := foldr (fun ph n => seg_pages ph + n) 0 segs.
Definition image_end (segs : list Segment) (top : Z) : Z := foldl (fun top ph => Z.max top (virtual_addr ph + mem_size ph)) top segs.

Lemma image_byte_ext m m' input ph i : 0 <= i -> (forall x, source input ph x -> m' x = m x) -> image_byte m' input ph i = image_byte m input ph i.
Proof. intros Hi Hm. unfold image_byte. destruct (Z.ltb_spec i (file_size ph)); [| done]. apply Hm. unfold source. lia. Qed.
Lemma resident_mem s T L m m' input ph a : (forall x, source input ph x -> m' x = m x) -> resident s T L m' input ph a -> resident s T L m input ph a.
Proof.
  intros Hm [H1 H2 H3 H5 H4]. split; try done. intros i Hi. destruct (H4 i Hi) as [Hh E]. split; [done |]. rewrite E. apply image_byte_ext; [lia | done].
Qed.
Lemma image_pages_nonneg segs : Forall seg_ok segs -> 0 <= image_pages segs.
Proof.
  induction 1 as [| ph segs Hok _ IH]; [done |]. cbn [image_pages foldr]. fold (image_pages segs).
  pose proof (seg_pages_bounds ph Hok) as (_ & Hn & _). lia.
Qed.

Lemma load_image_spec input phs : forall k s root T L top,
  tree s root T L -> serves k (ld_fw s) -> 4 * image_pages (loads phs) <= k -> image_ok (loads phs) ->
  (forall v, KERNEL_BASE <= v < 2 ^ 64 -> L !! path3 v = None) ->
  (forall ph x, ph ∈ loads phs -> source input ph x -> held s T x) ->
  exists s' T' L', load_image root input phs top s = Ret (image_end (loads phs) top, s') /\
    serves (k - 4 * image_pages (loads phs)) (ld_fw s') /\ tree s' root T' L' /\ gains s s' T T' /\
    (forall q, length q = 3%nat -> L' !! q = L !! q) /\
    (forall v, canonical v -> (forall ph, ph ∈ loads phs -> ~ covers ph v) -> L' !! path4 v = L !! path4 v) /\
    (forall ph, ph ∈ loads phs -> exists a, resident s' T' L' (ld_mem s) input ph a).
Proof using UL PL HL.
  induction phs as [| [t ph] phs IH]; intros k s root T L top Ht Hs Hk [Hok Hap] Hkern Hsrc.
  { exists s, T, L. split_and!; try done; [by rewrite Z.sub_0_r | apply gains_refl | intros ph Hph; by apply elem_of_nil in Hph]. }
  unfold loads in *. cbn [omap list_omap load_image fst snd] in *. case_decide; [| by apply IH]. fold (loads phs) in *.
  change (image_pages (ph :: loads phs)) with (seg_pages ph + image_pages (loads phs)) in *.
  apply Forall_cons in Hok as [Hph Hok]. inversion Hap as [| ? ? Hhd Htl]; subst.
  pose proof (image_pages_nonneg _ Hok) as Hip.
  destruct (load_segment_spec k s root T L input ph) as (s1 & T1 & a & E1 & Hs1 & Ht1 & Hg1 & Hpl); [done | done | lia | done | done | |].
  { intros x Hx. destruct (Hsrc ph x) as (f & Hf & Hfx & Hnf & _); [left | done |]. by exists f. }
  destruct (IH (k - 4 * seg_pages ph) s1 root T1 (seg_entries ph a L) (Z.max top (virtual_addr ph + mem_size ph)))
    as (s2 & T2 & L2 & E2 & Hs2 & Ht2 & Hg2 & H3 & H4 & Hres); [done | done | lia | done | | |].
  { intros v Hv. rewrite seg_entries_short by done. by apply Hkern. }
  { intros ph' x Hin Hx. apply (held_gains _ _ _ _ _ Hg1). apply (Hsrc ph'); [by right | done]. }
  exists s2, T2, L2. split_and!; try done.
  - erewrite st_bind_step by exact E1. destruct Hph as (Hb & Hm & He & _). unfold KERNEL_BASE in Hb.
    erewrite st_bind_step by (unfold st_lift; rewrite checked_fits by lia; reflexivity).
    replace (if top <? virtual_addr ph + mem_size ph then virtual_addr ph + mem_size ph else top) with (Z.max top (virtual_addr ph + mem_size ph));
      [exact E2 |]. destruct (Z.ltb_spec top (virtual_addr ph + mem_size ph)); lia.
  - by replace (k - 4 * (seg_pages ph + image_pages (loads phs))) with (k - 4 * seg_pages ph - 4 * image_pages (loads phs)) by lia.
  - eapply gains_trans; [exact Hg1 | exact Hg2 | intros p f; by eapply tree_frames ..].
  - intros q Hq. rewrite H3 by done. by apply seg_entries_short.
  - intros v Hv Hcov. rewrite H4; [| done | intros ph' Hin; apply Hcov; by right]. apply seg_entries_miss; [done | done | apply Hcov; left].
  - intros ph' [-> | Hin]%elem_of_cons.
    + exists a. apply (resident_gains s1 _ T1 _ (seg_entries ph a L)); [done | done | | by apply (placed_resident s)].
      intros v Hv Hcov. apply H4; [done |]. intros ph' Hin Hc. rewrite Forall_forall in Hhd. by apply (Hhd ph' Hin v).
    + destruct (Hres ph' Hin) as [a' Hr]. exists a'. apply (resident_mem _ _ _ _ (ld_mem s1)); [| done].
      intros x Hx. destruct (held_gains _ _ _ _ x Hg1) as [_ E]; [apply (Hsrc ph'); [by right | done] | done].
Qed.

(** ** The large maps *)

Definition huge_entries (virt phys n fl : Z) : Paths -> Paths :=
  entered (fun i => path3 (virt + i * HUGE_SIZE)) (fun i => entry_of (phys + i * HUGE_SIZE) fl) n.
Lemma huge_hit virt phys n fl L v : virt mod HUGE_SIZE = 0 -> (forall i, 0 <= i < n -> canonical (virt + i * HUGE_SIZE)) ->
  virt <= v < virt + n * HUGE_SIZE -> huge_entries virt phys n fl L !! path3 v = Some (entry_of (phys + (v - virt) - v mod HUGE_SIZE) fl).
Proof.
  intros Hv Hc Hr. set (i := (v - virt) / HUGE_SIZE). unfold HUGE_SIZE in *.
  assert (0 <= i < n) as Hi by (unfold i; Z.to_euclidean_division_equations; lia).
  assert (v - virt - v mod (2 * 1024 * 1024) = i * (2 * 1024 * 1024)) as E by (unfold i; Z.to_euclidean_division_equations; lia).
  rewrite (path3_page v (virt + i * HUGE_SIZE)) by (unfold HUGE_SIZE; rewrite <- E; Z.to_euclidean_division_equations; lia).
  unfold huge_entries. replace (phys + (v - virt) - v mod (2 * 1024 * 1024)) with (phys + i * HUGE_SIZE) by (unfold HUGE_SIZE; lia).
  apply (entered_hit (fun i => path3 (virt + i * HUGE_SIZE)) (fun i => entry_of (phys + i * HUGE_SIZE) fl)); [done |].
  intros j Hj Hk. apply path3_inj in Hk; [| by apply Hc ..]. unfold HUGE_SIZE in Hk. replace j with i; [done |].
  Z.to_euclidean_division_equations; lia.
Qed.
Lemma huge_miss virt phys n fl L v : 0 <= n -> virt mod HUGE_SIZE = 0 -> (forall i, 0 <= i < n -> canonical (virt + i * HUGE_SIZE)) ->
  canonical v -> ~ (virt <= v < virt + n * HUGE_SIZE) -> huge_entries virt phys n fl L !! path3 v = L !! path3 v.
Proof.
  intros Hn Hv Hc Hcv Hr. apply entered_miss; [done |]. intros j Hj Hk. apply path3_inj in Hk; [| by apply Hc | done].
  unfold HUGE_SIZE in *. apply Hr. Z.to_euclidean_division_equations; nia.
Qed.

Definition screen_phys (fb : Framebuffer) : Z := fb_base fb - HHDM_OFFSET.
Definition screen_bytes (fb : Framebuffer) : Z := fb_pitch fb * fb_height fb.
Definition screen_start (fb : Framebuffer) : Z := screen_phys fb - screen_phys fb mod HUGE_SIZE.
Definition screen_pages (fb : Framebuffer) : Z := div_ceil (screen_bytes fb + screen_phys fb mod HUGE_SIZE) HUGE_SIZE.
(** The screen is below the kernel. *)
Definition screen_ok (fb : Framebuffer) : Prop :=
  0 <= screen_phys fb /\ 0 <= screen_bytes fb /\ fb_base fb + screen_bytes fb + HUGE_SIZE <= KERNEL_BASE.

Definition ID_FLAGS : Z := Z.lor PW PTF_HUGE_PAGE.
Definition HHDM_FLAGS : Z := Z.lor (Z.lor PW PTF_NO_EXECUTE) PTF_HUGE_PAGE.
Lemma large_flags : (leaf_ok ID_FLAGS /\ contains ID_FLAGS PTF_HUGE_PAGE = true /\ contains ID_FLAGS PTF_WRITABLE = true /\ contains ID_FLAGS PTF_NO_EXECUTE = false) /\
  leaf_ok HHDM_FLAGS /\ contains HHDM_FLAGS PTF_HUGE_PAGE = true /\ contains HHDM_FLAGS PTF_WRITABLE = true /\ contains HHDM_FLAGS PTF_NO_EXECUTE = true.
Proof using PL HL.
  pose proof ptf_present_ok. pose proof ptf_writable_ok. pose proof ptf_no_execute_ok. pose proof ptf_huge_ok. destruct ptf_bits as (E1 & E2 & E3 & E4).
  unfold leaf_ok, HHDM_FLAGS, ID_FLAGS, PW. split_and!; repeat apply ptf_ok_lor; try done; by rewrite ?E1, ?E2, ?E3, ?E4.
Qed.

Definition LOW_PAGES : Z := 2048.
Definition low_maps (fb : Framebuffer) : Paths :=
  huge_entries (HHDM_OFFSET + screen_start fb) (screen_start fb) (screen_pages fb) HHDM_FLAGS
    (huge_entries HHDM_OFFSET 0 LOW_PAGES HHDM_FLAGS (huge_entries 0 0 LOW_PAGES ID_FLAGS ∅)).

Lemma screen_bounds fb : screen_ok fb -> 0 <= screen_start fb <= screen_phys fb /\ screen_start fb mod HUGE_SIZE = 0 /\ 0 <= screen_pages fb /\
  screen_phys fb + screen_bytes fb <= screen_start fb + screen_pages fb * HUGE_SIZE /\ HHDM_OFFSET + screen_start fb + screen_pages fb * HUGE_SIZE < KERNEL_BASE.
Proof.
  intros (H1 & H2 & H3). unfold screen_start, screen_pages, div_ceil, screen_phys, HHDM_OFFSET, KERNEL_BASE, HUGE_SIZE in *.
  Z.to_euclidean_division_equations; lia.
Qed.
Lemma huge_div n : div_ceil (n * HUGE_SIZE) HUGE_SIZE = n.
Proof. unfold div_ceil, HUGE_SIZE. symmetry. apply (Z.div_unique _ _ _ (2 * 1024 * 1024 - 1)); lia. Qed.
Lemma low_canonical i : 0 <= i < LOW_PAGES -> canonical (0 + i * HUGE_SIZE) /\ canonical (HHDM_OFFSET + i * HUGE_SIZE).
Proof. unfold canonical, LOW_PAGES, HUGE_SIZE, HHDM_OFFSET. lia. Qed.
Lemma screen_canonical fb i : screen_ok fb -> 0 <= i < screen_pages fb -> canonical (HHDM_OFFSET + screen_start fb + i * HUGE_SIZE).
Proof. intros (H1 & _ & _ & _ & H2)%screen_bounds Hi. unfold canonical, HUGE_SIZE, HHDM_OFFSET, KERNEL_BASE in *. lia. Qed.
Lemma screen_aligned fb : screen_ok fb -> (HHDM_OFFSET + screen_start fb) mod HUGE_SIZE = 0.
Proof. intros (_ & H & _)%screen_bounds. rewrite Z.add_mod, H by done. done. Qed.

Lemma low_maps_identity fb a : screen_ok fb -> 0 <= a < IDENTITY_MAP_BYTES -> low_maps fb !! path3 a = Some (entry_of (a - a mod HUGE_SIZE) ID_FLAGS).
Proof.
  intros Hfb Ha. pose proof (screen_bounds fb Hfb) as (Hs & _ & Hn & _). unfold IDENTITY_MAP_BYTES in Ha. unfold low_maps.
  rewrite huge_miss; [| done | by apply screen_aligned | intros i; by apply screen_canonical | left; lia | unfold HHDM_OFFSET; lia].
  rewrite huge_miss; [| done | done | apply low_canonical | left; lia | unfold HHDM_OFFSET; lia].
  rewrite huge_hit; [do 2 f_equal; lia | done | apply low_canonical | unfold LOW_PAGES, HUGE_SIZE; lia].
Qed.
Lemma low_maps_hhdm fb a : screen_ok fb -> 0 <= a < IDENTITY_MAP_BYTES \/ screen_phys fb <= a < screen_phys fb + screen_bytes fb ->
  low_maps fb !! path3 (HHDM_OFFSET + a) = Some (entry_of (a - a mod HUGE_SIZE) HHDM_FLAGS).
Proof.
  intros Hfb Ha. pose proof (screen_bounds fb Hfb) as (Hs & _ & Hn & Hcov & Htop). unfold low_maps.
  assert ((HHDM_OFFSET + a) mod HUGE_SIZE = a mod HUGE_SIZE) as Hmod by (unfold HHDM_OFFSET, HUGE_SIZE; Z.to_euclidean_division_equations; lia).
  destruct (decide (screen_start fb <= a < screen_start fb + screen_pages fb * HUGE_SIZE)) as [Hin | Hout].
  - rewrite huge_hit; [| by apply screen_aligned | intros i; by apply screen_canonical | lia]. rewrite Hmod. do 2 f_equal. lia.
  - assert (0 <= a < IDENTITY_MAP_BYTES) as Ha' by lia. unfold IDENTITY_MAP_BYTES in Ha'.
    rewrite huge_miss; [| done | by apply screen_aligned | intros i; by apply screen_canonical | right; unfold HHDM_OFFSET; lia | lia].
    rewrite huge_hit; [| done | apply low_canonical | unfold LOW_PAGES, HUGE_SIZE; lia]. rewrite Hmod. do 2 f_equal. lia.
Qed.
Lemma low_maps_kernel fb v : screen_ok fb -> KERNEL_BASE <= v < 2 ^ 64 -> low_maps fb !! path3 v = None.
Proof.
  intros Hfb Hv. pose proof (screen_bounds fb Hfb) as (Hs & _ & Hn & _ & Htop). assert (canonical v) as Hc by (unfold KERNEL_BASE in Hv; right; lia).
  unfold low_maps. rewrite huge_miss; [| done | by apply screen_aligned | intros i; by apply screen_canonical | done | lia].
  unfold KERNEL_BASE in Hv. rewrite huge_miss; [| done | done | apply low_canonical | done | unfold HHDM_OFFSET, LOW_PAGES, HUGE_SIZE; lia].
  rewrite huge_miss; [| done | done | apply low_canonical | done | unfold LOW_PAGES, HUGE_SIZE; lia]. apply lookup_empty.
Qed.

(** ** All of it *)

Definition root_only (root : Z) : Paths := {[ [] := root ]}.
Lemma root_spec k s : serves k (ld_fw s) -> 1 <= k ->
  exists root fw', alloc_pages 1 s = Ret (root, mkLoader (ld_mem s) fw') /\ serves (k - 1) fw' /\
    let s1 := mkLoader (fill (ld_mem s) root 4096 0) fw' in
    tree s1 root (root_only root) ∅ /\ no_page_tables (root_only root) /\ (forall g, frame_addr g -> uefi_free fw' g -> uefi_free (ld_fw s) g) /\
    (forall ty f, uefi_held (ld_fw s) ty f -> uefi_held fw' ty f) /\
    forall x, backed (ld_fw s) x -> held s1 (root_only root) x /\ ld_mem s1 x = ld_mem s x.
Proof using UL.
  intros Hs Hk. destruct (serves_step k 1 _ Hs ltac:(lia)) as (a & fw' & E & Hs'). exists a, fw'. unfold alloc_pages. rewrite E.
  destruct (allocate_pages_spec LOADER_DATA 1 _ a fw' ltac:(lia) E) as (Ha & _ & Hend & Hfree & Hiff). split; [done |]. split; [done |].
  destruct (allocate_pages_held LOADER_DATA 1 _ a fw' ltac:(lia) E) as (Hheld & Hstay).
  unfold root_only. split; [| split; [| split; [intros g Hg Hx; by apply Hiff in Hx as [? _] | split; [exact Hstay |]]]].
  - split; cbn [ld_mem ld_fw].
    + apply lookup_insert_eq.
    + intros p f [<- <-]%lookup_singleton_Some. split; [done |]. split; [| simpl; lia].
      intros Hx. apply Hiff in Hx as [_ Hx]; [| done]. apply Hx. unfold PAGE_SIZE. lia.
    + intros p q f [<- _]%lookup_singleton_Some [<- _]%lookup_singleton_Some. done.
    + intros p f i [<- <-]%lookup_singleton_Some Hi. rewrite entry_fill_same by done. unfold word. cbn [app].
      rewrite lookup_singleton_ne by done. by rewrite lookup_empty.
    + intros q e. by rewrite lookup_empty.
    + intros p i [[? Hx] | [? Hx]]; [apply lookup_singleton_Some in Hx as [Hx _]; by destruct p | by rewrite lookup_empty in Hx].
    + intros q _. apply lookup_empty.
    + intros p f [<- <-]%lookup_singleton_Some. apply Hheld; [done | unfold PAGE_SIZE; lia].
  - intros q Hq. apply lookup_singleton_ne. intros <-. simpl in Hq. lia.
  - intros x (f & Hf & Hx & Hnf). split.
    + exists f. split; [done |]. split; [done |]. split; [cbn; intros Hx'; by apply Hiff in Hx' as [? _] |].
      intros p [_ ->]%lookup_singleton_Some. apply Hnf, Hfree; [done | unfold PAGE_SIZE; lia].
    + cbn. apply fill_other. apply (frame_apart a f 1 x); try done. intros Hin. by apply Hnf, Hfree.
Qed.

Definition table_pages (fb : Framebuffer) (segs : list Segment) : Z := 1 + 4 * LOW_PAGES + 2 * screen_pages fb + 4 * image_pages segs.

Lemma align_up_huge x : 0 <= x -> x + HUGE_SIZE < 2 ^ 64 -> align_up x HUGE_SIZE = Ret (div_ceil x HUGE_SIZE * HUGE_SIZE).
Proof.
  intros Hx Hmax. unfold align_up, HUGE_SIZE in *. rewrite checked_fits by lia. cbn [obind]. rewrite checked_fits by lia. cbn [obind].
  change (2 * 1024 * 1024) with (2 ^ 21) in *. rewrite ld_align_down_mod by lia. f_equal. unfold div_ceil. Z.to_euclidean_division_equations; lia.
Qed.
Lemma screen_low fb : Z.land (screen_phys fb) 0x1FFFFF = screen_phys fb mod HUGE_SIZE.
Proof. by rewrite <- (Z.land_ones _ 21) by done. Qed.

Lemma screen_map_run {X} root fb fl (after : LD (F := F) X) s s' : screen_ok fb ->
  map_region_2m root (HHDM_OFFSET + screen_start fb) (screen_start fb) (screen_pages fb * HUGE_SIZE) fl s = Ret (tt, s') ->
  (let* fb_phys := st_lift (checked 64 (fb_base fb - HHDM_OFFSET)) in
   let start := ld_align_down fb_phys HUGE_SIZE in
   let* virt := st_lift (checked 64 (HHDM_OFFSET + start)) in
   let* span := st_lift (checked 64 (fb_pitch fb * fb_height fb + Z.land fb_phys 0x1FFFFF)) in
   let* len := st_lift (align_up span HUGE_SIZE) in
   let* _ := map_region_2m root virt start len fl in
   after) s = after s'.
Proof.
  intros Hfb E. pose proof (screen_bounds fb Hfb) as (Hst & Hmod & Hsp & Hcov & Htop). destruct Hfb as (Hp & Hb & Hk).
  unfold HHDM_OFFSET, KERNEL_BASE, HUGE_SIZE in Hk, Htop. assert (screen_phys fb = fb_base fb - HHDM_OFFSET) as Hph by done. unfold HHDM_OFFSET in Hph.
  pose proof (Z.mod_pos_bound (screen_phys fb) HUGE_SIZE ltac:(done)) as Hm. fold (screen_bytes fb).
  erewrite st_bind_step by (unfold st_lift; fold (screen_phys fb); rewrite checked_fits by lia; reflexivity).
  assert (ld_align_down (screen_phys fb) HUGE_SIZE = screen_start fb) as -> by (apply (ld_align_down_mod _ 21); lia).
  erewrite st_bind_step by (unfold st_lift; rewrite checked_fits by (unfold HHDM_OFFSET; lia); reflexivity).
  erewrite st_bind_step by (unfold st_lift; rewrite screen_low, checked_fits by (unfold HUGE_SIZE in *; lia); reflexivity).
  erewrite st_bind_step by (unfold st_lift; rewrite align_up_huge by (unfold HUGE_SIZE in *; lia); reflexivity).
  fold (screen_pages fb). by erewrite st_bind_step by exact E.
Qed.
(** The three maps of large pages. *)
Lemma large_maps_spec {X} k s root fb (after : LD (F := F) X) (T0 := root_only root) :
  tree s root T0 ∅ -> no_page_tables T0 -> serves k (ld_fw s) -> 4 * LOW_PAGES + 2 * screen_pages fb <= k -> screen_ok fb ->
  exists s' T', (let* _ := map_region_2m root 0 0 IDENTITY_MAP_BYTES PW in
      let* _ := map_region_2m root HHDM_OFFSET 0 IDENTITY_MAP_BYTES (Z.lor PW PTF_NO_EXECUTE) in
      let* fb_phys := st_lift (checked 64 (fb_base fb - HHDM_OFFSET)) in
      let start := ld_align_down fb_phys HUGE_SIZE in
      let* virt := st_lift (checked 64 (HHDM_OFFSET + start)) in
      let* span := st_lift (checked 64 (fb_pitch fb * fb_height fb + Z.land fb_phys 0x1FFFFF)) in
      let* len := st_lift (align_up span HUGE_SIZE) in
      let* _ := map_region_2m root virt start len (Z.lor PW PTF_NO_EXECUTE) in
      after) s = after s' /\
    serves (k - (4 * LOW_PAGES + 2 * screen_pages fb)) (ld_fw s') /\ tree s' root T' (low_maps fb) /\ gains s s' T0 T'.
Proof using UL PL HL.
  intros Ht0 Hn0 Hs Hk Hfb. pose proof (screen_bounds fb Hfb) as (Hst & Hmod & Hsp & Hcov & Htop).
  destruct large_flags as [(Hid & _) (Hhh & _)]. assert (div_ceil IDENTITY_MAP_BYTES HUGE_SIZE = LOW_PAGES) as Hlow by done.
  destruct (map_region_2m_spec k s root T0 ∅ 0 0 IDENTITY_MAP_BYTES PW) as (s1 & T1 & E1 & Hs1 & Ht1 & Hn1 & Hg1);
    [done | done | done | done | done | rewrite Hlow; unfold LOW_PAGES in *; lia | done | | done |].
  { unfold IDENTITY_MAP_BYTES, canonical, frame_addr, HUGE_SIZE. intros i Hi Hil. split; [lia |]. split; [lia |]. Z.to_euclidean_division_equations; lia. }
  rewrite Hlow in Hs1, Ht1.
  destruct (map_region_2m_spec (k - 2 * LOW_PAGES) s1 root T1 (huge_entries 0 0 LOW_PAGES ID_FLAGS ∅) HHDM_OFFSET 0 IDENTITY_MAP_BYTES (Z.lor PW PTF_NO_EXECUTE))
    as (s2 & T2 & E2 & Hs2 & Ht2 & Hn2 & Hg2); [done | done | done | done | done | rewrite Hlow; unfold LOW_PAGES in *; lia | done | | done |].
  { unfold IDENTITY_MAP_BYTES, canonical, frame_addr, HUGE_SIZE, HHDM_OFFSET. intros i Hi Hil. split; [lia |]. split; [lia |]. Z.to_euclidean_division_equations; lia. }
  rewrite Hlow in Hs2, Ht2.
  destruct (map_region_2m_spec (k - 2 * LOW_PAGES - 2 * LOW_PAGES) s2 root T2 (huge_entries HHDM_OFFSET 0 LOW_PAGES HHDM_FLAGS (huge_entries 0 0 LOW_PAGES ID_FLAGS ∅))
      (HHDM_OFFSET + screen_start fb) (screen_start fb) (screen_pages fb * HUGE_SIZE) (Z.lor PW PTF_NO_EXECUTE))
    as (s3 & T3 & E3 & Hs3 & Ht3 & Hn3 & Hg3);
    [done | done | done | unfold HUGE_SIZE; lia | unfold HUGE_SIZE, KERNEL_BASE, HHDM_OFFSET in *; lia | rewrite huge_div; unfold LOW_PAGES in *; lia |
     unfold HHDM_OFFSET; lia | | done |].
  { intros i Hi Hil. split; [apply screen_canonical; [done | unfold HUGE_SIZE in Hil; lia] |].
    unfold HUGE_SIZE, KERNEL_BASE, HHDM_OFFSET, frame_addr in *. split; [lia |]. Z.to_euclidean_division_equations; lia. }
  rewrite huge_div in Hs3, Ht3. exists s3, T3. split; [| split; [| split; [exact Ht3 |]]].
  - erewrite st_bind_step by exact E1. erewrite st_bind_step by exact E2. by apply screen_map_run.
  - by replace (k - (4 * LOW_PAGES + 2 * screen_pages fb)) with (k - 2 * LOW_PAGES - 2 * LOW_PAGES - 2 * screen_pages fb) by lia.
  - eapply gains_trans; [exact Hg1 | eapply gains_trans; [exact Hg2 | exact Hg3 | |] | |]; intros p f; by eapply tree_frames.
Qed.

Lemma build_spec k s input phs fb :
  serves k (ld_fw s) -> table_pages fb (loads phs) <= k -> screen_ok fb -> image_ok (loads phs) ->
  (forall ph x, ph ∈ loads phs -> source input ph x -> backed (ld_fw s) x) ->
  exists s' root T L, build_page_tables input phs fb s = Ret ((root, image_end (loads phs) 0), s') /\
    serves (k - table_pages fb (loads phs)) (ld_fw s') /\ tree s' root T L /\
    (forall x, backed (ld_fw s) x -> held s' T x /\ ld_mem s' x = ld_mem s x) /\ (forall g, frame_addr g -> uefi_free (ld_fw s') g -> uefi_free (ld_fw s) g) /\
    (forall ty f, uefi_held (ld_fw s) ty f -> uefi_held (ld_fw s') ty f) /\
    (forall v, L !! path3 v = low_maps fb !! path3 v) /\ (forall ph, ph ∈ loads phs -> exists a, resident s' T L (ld_mem s) input ph a).
Proof using UL PL HL.
  intros Hs Hk Hfb Himg Hsrc. pose proof (screen_bounds fb Hfb) as (Hst & Hmod & Hsp & Hcov & Htop). pose proof (image_pages_nonneg _ (proj1 Himg)).
  pose proof Hfb as (Hp0 & Hb & Htop'). unfold table_pages in Hk. assert (0 <= LOW_PAGES) by done.
  destruct (root_spec k s Hs ltac:(lia)) as (root & fw0 & E0 & Hs0 & Ht0 & Hn0 & Hrt & Hst0 & Hb0).
  set (s0 := mkLoader (fill (ld_mem s) root 4096 0) fw0) in *.
  destruct (large_maps_spec (k - 1) s0 root fb (let* top := load_image root input phs 0 in st_ret (root, top)) Ht0 Hn0 Hs0 ltac:(lia) Hfb)
    as (s3 & T3 & E3 & Hs3 & Ht3 & Hg3).
  destruct (load_image_spec input phs (k - 1 - (4 * LOW_PAGES + 2 * screen_pages fb)) s3 root T3 (low_maps fb) 0)
    as (s4 & T4 & L4 & E4 & Hs4 & Ht4 & Hg4 & H3 & _ & Hres); [done | done | lia | done | intros v Hv; by apply low_maps_kernel | |].
  { intros ph x Hin Hx. eapply held_gains; [exact Hg3 |]. eapply Hb0, Hsrc; done. }
  exists s4, root, T4, L4. split; [| split; [| split; [exact Ht4 | split; [| split; [| split; [| split]]]]]].
  - unfold build_page_tables. erewrite st_bind_step by exact E0. erewrite st_bind_step by reflexivity. cbn [ld_mem ld_fw]. fold s0. fold PW.
    etrans; [exact E3 |]. by erewrite st_bind_step by exact E4.
  - unfold table_pages.
    by replace (k - (1 + 4 * LOW_PAGES + 2 * screen_pages fb + 4 * image_pages (loads phs))) with (k - 1 - (4 * LOW_PAGES + 2 * screen_pages fb) - 4 * image_pages (loads phs)) by lia.
  - intros x Hx. destruct (Hb0 x Hx) as [Hh0 M0]. destruct (held_gains _ _ _ _ _ Hg3 Hh0) as [Hh3 M3]. destruct (held_gains _ _ _ _ _ Hg4 Hh3) as [Hh4 M4].
    split; [done | by rewrite M4, M3, M0].
  - intros g Hg Hx. apply Hrt; [done |]. apply (gr_free _ _ _ _ Hg3); [done |]. by apply (gr_free _ _ _ _ Hg4).
  - intros ty f Hf. by apply (gr_held _ _ _ _ Hg4), (gr_held _ _ _ _ Hg3), Hst0.
  - intros v. by apply H3.
  - intros ph Hin. destruct (Hres ph Hin) as [a Hr]. exists a. apply (resident_mem _ _ _ _ (ld_mem s3)); [| done].
    intros x Hx. destruct (Hb0 x) as [Hh0 M0]; [by apply (Hsrc ph) |]. destruct (held_gains _ _ _ _ _ Hg3 Hh0) as [_ M3]. by rewrite M3, M0.
Qed.

(** Memory as the kernel sees it. *)
Definition virt_mem (m : PhysMem) (root : Z) : PhysMem :=
  fun va => match translate m root va with Some (pa, _, _) => m pa | None => 0 end.

Lemma translate_low s root T L fb a : tree s root T L -> (forall v, L !! path3 v = low_maps fb !! path3 v) -> screen_ok fb ->
  (0 <= a < IDENTITY_MAP_BYTES -> translate (ld_mem s) root a = Some (a, true, true)) /\
  (0 <= a < IDENTITY_MAP_BYTES \/ screen_phys fb <= a < screen_phys fb + screen_bytes fb ->
   translate (ld_mem s) root (HHDM_OFFSET + a) = Some (a, true, false)).
Proof using PL HL.
  intros Ht HL3 Hfb. destruct large_flags as [(H1 & H2 & H3 & H4) (G1 & G2 & G3 & G4)].
  assert (0 <= a < 2 ^ 52 -> frame_addr (a - a mod HUGE_SIZE)) as Hfr.
  { intros Ha. unfold frame_addr, HUGE_SIZE. Z.to_euclidean_division_equations; lia. }
  split; intros Ha.
  - rewrite (translate_2m s root T L a (a - a mod HUGE_SIZE) ID_FLAGS); [| done | | | done | done].
    + rewrite H3, H4. by rewrite Z.sub_add.
    + rewrite HL3. by apply low_maps_identity.
    + apply Hfr. unfold IDENTITY_MAP_BYTES in Ha. lia.
  - rewrite (translate_2m s root T L (HHDM_OFFSET + a) (a - a mod HUGE_SIZE) HHDM_FLAGS); [| done | | | done | done].
    + rewrite G3, G4. do 3 f_equal. unfold HHDM_OFFSET, HUGE_SIZE. Z.to_euclidean_division_equations; lia.
    + rewrite HL3. by apply low_maps_hhdm.
    + apply Hfr. destruct Hfb as (B1 & B2 & B3). unfold IDENTITY_MAP_BYTES, screen_phys, HHDM_OFFSET, KERNEL_BASE, HUGE_SIZE in *. lia.
Qed.
Lemma translate_image s root T L m input ph a i : tree s root T L -> seg_ok ph -> resident s T L m input ph a -> 0 <= i < mem_size ph ->
  translate (ld_mem s) root (virtual_addr ph + i) = Some (a + page_offset ph + i, seg_writable ph, seg_executable ph).
Proof using PL HL.
  intros Ht Hok [H1 H2 H3 _] Hi. pose proof (seg_pages_bounds ph Hok) as (Hn & _ & Ho & _). destruct (image_flags_spec ph) as (Hfl & HW & HX).
  pose proof (page_offset_mod ph) as Hpo. set (j := (page_offset ph + i) / 4096).
  assert (0 <= j < seg_pages ph) as Hj by (unfold j; Z.to_euclidean_division_equations; lia).
  rewrite (translate_4k s root T L (virtual_addr ph + i) (a + j * 4096) (image_flags (p_flags ph))); [| done | | by apply (frame_add a j (seg_pages ph)) | done].
  - rewrite HW, HX. do 3 f_equal. unfold j, PAGE_SIZE. rewrite Hpo. Z.to_euclidean_division_equations; lia.
  - rewrite <- (H3 j Hj). f_equal. apply path4_page. unfold j. rewrite Hpo. Z.to_euclidean_division_equations; lia.
Qed.

(** ** Pages handed out later *)

Lemma fresh_write s s' root T L : tree s root T L ->
  (forall f, frame_addr f -> uefi_free (ld_fw s') f -> uefi_free (ld_fw s) f) ->
  (forall f x, frame_addr f -> ~ uefi_free (ld_fw s) f -> f <= x < f + PAGE_SIZE -> ld_mem s' x = ld_mem s x) ->
  (forall ty f, uefi_held (ld_fw s) ty f -> uefi_held (ld_fw s') ty f) ->
  tree s' root T L /\ gains s s' T T.
Proof.
  intros Ht Hfree Hmem Hstay. split; [| split; [done | intros f x Hf Hx Hnf _; by apply (Hmem f) | done | auto | done]].
  destruct Ht as [H1 H2 H3 H4 H5 H6 H7 H8]. split; try done.
  - intros p f Hp. destruct (H2 p f Hp) as (Hf & Hnf & Hl). split; [done |]. split; [| done]. intros Hx. by apply Hnf, Hfree.
  - intros p f i Hp Hi. rewrite <- (H4 p f i Hp Hi). destruct (H2 p f Hp) as (Hf & Hnf & _). apply entry_ext; [done |]. eauto.
  - intros p f Hp. by apply Hstay, (H8 p).
Qed.

(** C13 [build_page_tables] returns, given that the firmware has pages, that the
    screen lies below the kernel and that the segments of the kernel are at
    [KERNEL_BASE] or above and share no page.  Under the new tables the first
    4 GiB are where they are, and once more at [HHDM_OFFSET] with the screen,
    there not executable; byte [i] of every segment is byte [i] of its part of
    the file, or zero beyond it, with the rights that the header asks for; and
    memory that the firmware had given away before is as it was. *)
Theorem kernel_address_space k s input phs fb :
  serves k (ld_fw s) -> table_pages fb (loads phs) <= k -> screen_ok fb -> image_ok (loads phs) ->
  (forall ph x, ph ∈ loads phs -> source input ph x -> backed (ld_fw s) x) ->
  exists root s', build_page_tables input phs fb s = Ret ((root, image_end (loads phs) 0), s') /\
    (forall a, 0 <= a < IDENTITY_MAP_BYTES -> translate (ld_mem s') root a = Some (a, true, true)) /\
    (forall a, 0 <= a < IDENTITY_MAP_BYTES \/ screen_phys fb <= a < screen_phys fb + screen_bytes fb ->
       translate (ld_mem s') root (HHDM_OFFSET + a) = Some (a, true, false)) /\
    (forall ph i, ph ∈ loads phs -> 0 <= i < mem_size ph -> exists pa,
       translate (ld_mem s') root (virtual_addr ph + i) = Some (pa, seg_writable ph, seg_executable ph) /\
       ld_mem s' pa = image_byte (ld_mem s) input ph i) /\
    (forall x, backed (ld_fw s) x -> ld_mem s' x = ld_mem s x).
Proof using UL PL HL.
  intros Hs Hk Hfb Himg Hsrc. destruct (build_spec k s input phs fb Hs Hk Hfb Himg Hsrc) as (s' & root & T & L & E & _ & Ht & Hb & _ & _ & HL3 & Hres).
  exists root, s'. split; [exact E |]. split; [intros a; by apply (translate_low s' root T L fb) |].
  split; [intros a; by apply (translate_low s' root T L fb) |]. split; [| intros x Hx; by apply Hb].
  intros ph i Hin Hi. destruct (Hres ph Hin) as [a Hr]. exists (a + page_offset ph + i). split; [| by apply (rs_byte _ _ _ _ _ _ _ Hr)].
  apply (translate_image s' root T L (ld_mem s) input); [done | | done | done]. destruct Himg as [Hok _]. rewrite Forall_forall in Hok. by apply Hok.
Qed.

(** ** The boot information *)

(** Fields in ascending order from [lo] up to [hi]. *)
Fixpoint laid (lo hi : Z) (fields : list (Z * nat * Z)) : Prop :=
  match fields with
  | [] => lo <= hi
  | (off, n, _) :: fields => lo <= off /\ laid (off + Z.of_nat n) hi fields
  end.
Lemma laid_le lo hi fields : laid lo hi fields -> lo <= hi.
Proof. revert lo. induction fields as [| [[off n] v] fields IH]; intros lo; cbn; [done |]. intros [H1 H2%IH]. lia. Qed.
Lemma put_fields_other m a fields x : forall lo hi, laid lo hi fields -> ~ (a + lo <= x < a + hi) -> put_fields m a fields x = m x.
Proof.
  revert m. induction fields as [| [[off n] v] fields IH]; intros m lo hi Hl Hx; [done |]. destruct Hl as [H1 H2]. pose proof (laid_le _ _ _ H2).
  unfold put_fields. cbn [foldl]. etrans; [apply (IH _ _ hi H2); lia |]. apply store_other. unfold zlen. rewrite le_bytes_length. lia.
Qed.
Lemma put_fields_read m a fields off n v : forall lo hi, laid lo hi fields -> (off, n, v) ∈ fields ->
  load (put_fields m a fields) (a + off) n = le_bytes n v.
Proof.
  revert m. induction fields as [| [[off' n'] v'] fields IH]; intros m lo hi Hl Hin; [by apply elem_of_nil in Hin |]. destruct Hl as [H1 H2].
  unfold put_fields. cbn [foldl]. apply elem_of_cons in Hin as [[= -> -> ->] | Hin]; [| by eapply IH].
  rewrite (load_ext (store m (a + off') (le_bytes n' v'))).
  - pose proof (load_store_same m (a + off') (le_bytes n' v')) as E. by rewrite le_bytes_length in E.
  - intros x Hx. apply (put_fields_other _ a fields x (off' + Z.of_nat n') hi); [done | lia].
Qed.

(** The kernel's view of the structures. *)
Definition kind_at (c : Z) : option MemoryKind :=
  match c with
  | 0 => Some Usable | 1 => Some BootloaderReclaimable | 2 => Some KernelAndModules | 3 => Some AcpiReclaimable
  | 4 => Some AcpiNvs | 5 => Some Reserved | 6 => Some BadMemory | 7 => Some MkFramebuffer | _ => None
  end.
Definition format_at (c : Z) : option PixelFormat :=
  if c =? 0 then Some Bgrx8888 else if c =? 1 then Some Rgbx8888 else if c =? 0xFFFFFFFF then Some PfUnknown else None.
Definition field (m : PhysMem) (a off : Z) (n : nat) : Z := le_val (load m (a + off) n).
Definition read_region (m : PhysMem) (a : Z) : option MemoryRegion :=
  (mkRegion (field m a 0 8) (field m a 8 8)) <$> kind_at (field m a 16 4).
Definition read_boot_info (m : PhysMem) (a : Z) : option BootInfo :=
  match format_at (field m a 40 4), mapM (fun i => read_region m (field m a 48 8 + i * REGION_SIZE)) (seqZ 0 (field m a 56 8)) with
  | Some f, Some l =>
      Some (mkBootInfo (field m a 0 8) (field m a 8 4)
        (mkFramebuffer (field m a 16 8) (field m a 24 4) (field m a 28 4) (field m a 32 4) (field m a 36 4) f)
        l (field m a 64 8) (field m a 88 8))
  | _, _ => None
  end.

Definition u32_ok (x : Z) : Prop := 0 <= x < 2 ^ 32.
Definition u64_ok (x : Z) : Prop := 0 <= x < 2 ^ 64.
Definition region_ok (r : MemoryRegion) : Prop := u64_ok (r_base r) /\ u64_ok (r_length r).
Definition info_ok (i : BootInfo) : Prop :=
  let fb := bi_framebuffer i in
  u64_ok (bi_magic i) /\ u32_ok (bi_version i) /\ u64_ok (fb_base fb) /\ u32_ok (fb_width fb) /\ u32_ok (fb_height fb) /\ u32_ok (fb_pitch fb) /\
  u32_ok (fb_bits_per_pixel fb) /\ u64_ok (bi_rsdp_phys i) /\ u64_ok (bi_hhdm_offset i) /\ Forall region_ok (bi_memory_map i).

Lemma field_put m a fields off n v : laid 0 4096 fields -> (off, n, v) ∈ fields -> 0 <= v < 256 ^ Z.of_nat n -> field (put_fields m a fields) a off n = v.
Proof. intros Hl Hin Hv. unfold field. rewrite (put_fields_read m a fields off n v 0 4096) by done. by apply le_val_bytes. Qed.
Lemma field_ext m m' a off n : (forall x, a + off <= x < a + off + Z.of_nat n -> m' x = m x) -> field m' a off n = field m a off n.
Proof. intros H. unfold field. by rewrite (load_ext m m'). Qed.

Ltac in_fields := apply list_elem_of_In; cbn; tauto.
Lemma read_put_region m a r : region_ok r -> read_region (put_region m a r) a = Some r.
Proof.
  intros [H1 H2]. unfold read_region, put_region. unfold u64_ok in *.
  set (fs := [(0, 8%nat, r_base r); (8, 8%nat, r_length r); (16, 4%nat, region_code (r_kind r))]).
  assert (laid 0 4096 fs) as Hl by (cbn; lia).
  rewrite (field_put m a fs 0 8 (r_base r)), (field_put m a fs 8 8 (r_length r)), (field_put m a fs 16 4 (region_code (r_kind r)));
    [by destruct r as [? ? []] | done | in_fields | by destruct (r_kind r) | done | in_fields | done | done | in_fields | done].
Qed.
Lemma put_regions_other l : forall m a x, ~ (a <= x < a + zlen l * REGION_SIZE) -> put_regions m a l x = m x.
Proof.
  induction l as [| r l IH]; intros m a x Hx; [done |]. cbn [put_regions]. unfold zlen, REGION_SIZE in *. cbn [length] in Hx.
  rewrite IH by lia. unfold put_region. apply (put_fields_other m a _ x 0 24); [cbn; lia | lia].
Qed.
Lemma read_put_regions l : forall m a i r, Forall region_ok l -> l !! i = Some r -> read_region (put_regions m a l) (a + Z.of_nat i * REGION_SIZE) = Some r.
Proof.
  induction l as [| r0 l IH]; intros m a i r Hok Hi; [done |]. apply Forall_cons in Hok as [Hr Hok]. cbn [put_regions]. destruct i as [| i]; cbn in Hi.
  - injection Hi as <-. rewrite <- (read_put_region m a r0 Hr). unfold read_region. rewrite Z.add_0_r.
    assert (forall off n, 0 <= off -> off + Z.of_nat n <= 24 -> field (put_regions (put_region m a r0) (a + REGION_SIZE) l) a off n = field (put_region m a r0) a off n) as Hf.
    { intros off n Ho Hn. apply field_ext. intros x Hx. apply put_regions_other. unfold REGION_SIZE. lia. }
    by rewrite !Hf by lia.
  - rewrite <- (IH (put_region m a r0) (a + REGION_SIZE) i r Hok Hi). f_equal. unfold REGION_SIZE. lia.
Qed.

Lemma field_view vm m a off n : (forall x, a + off <= x < a + off + Z.of_nat n -> vm (HHDM_OFFSET + x) = m x) ->
  field vm (a + HHDM_OFFSET) off n = field m a off n.
Proof.
  intros H. unfold field, load. f_equal. apply list_fmap_ext. intros i x [-> Hx]%lookup_seq.
  rewrite <- H by lia. f_equal. lia.
Qed.
Lemma read_region_view vm m b : (forall x, b <= x < b + REGION_SIZE -> vm (HHDM_OFFSET + x) = m x) -> read_region vm (b + HHDM_OFFSET) = read_region m b.
Proof. intros H. unfold read_region, REGION_SIZE in *. rewrite !(field_view vm m) by (intros x Hx; apply H; lia). done. Qed.
Lemma mapM_seqZ {X} (f : Z -> option X) (l : list X) : (forall i x, l !! i = Some x -> f (Z.of_nat i) = Some x) -> mapM f (seqZ 0 (zlen l)) = Some l.
Proof.
  intros H. apply mapM_Some, Forall2_same_length_lookup. unfold zlen. rewrite length_seqZ. split; [lia |].
  intros i z x Hz Hx. apply lookup_seqZ in Hz as [-> _]. rewrite Z.add_0_l. by apply H.
Qed.

(** The kernel reads what the bootloader wrote. *)
Lemma read_put_boot_info vm m m0 a b i : info_ok i -> 0 <= b -> b + HHDM_OFFSET < 2 ^ 64 -> zlen (bi_memory_map i) < 2 ^ 64 ->
  (forall x, a <= x < a + PAGE_SIZE -> vm (HHDM_OFFSET + x) = put_boot_info m a (b + HHDM_OFFSET) i x) ->
  (forall x, b <= x < b + zlen (bi_memory_map i) * REGION_SIZE -> vm (HHDM_OFFSET + x) = put_regions m0 b (bi_memory_map i) x) ->
  read_boot_info vm (a + HHDM_OFFSET) = Some i.
Proof.
  intros (H1 & H2 & H3 & H4 & H5 & H6 & H7 & H8 & H9 & Hregs) Hb0 Hb Hlen Hva Hvb.
  set (fs := [(0, 8%nat, bi_magic i); (8, 4%nat, bi_version i); (12, 4%nat, 0);
           (16, 8%nat, fb_base (bi_framebuffer i)); (24, 4%nat, fb_width (bi_framebuffer i)); (28, 4%nat, fb_height (bi_framebuffer i));
           (32, 4%nat, fb_pitch (bi_framebuffer i)); (36, 4%nat, fb_bits_per_pixel (bi_framebuffer i)); (40, 4%nat, pixel_code (fb_pixel_format (bi_framebuffer i)));
           (48, 8%nat, b + HHDM_OFFSET); (56, 8%nat, zlen (bi_memory_map i)); (64, 8%nat, bi_rsdp_phys i);
           (72, 8%nat, 0); (80, 8%nat, 0); (88, 8%nat, bi_hhdm_offset i)]).
  assert (laid 0 4096 fs) as Hl by (cbn; lia).
  assert (forall off n v, (off, n, v) ∈ fs -> 0 <= off -> off + Z.of_nat n <= 4096 -> 0 <= v < 256 ^ Z.of_nat n -> field vm (a + HHDM_OFFSET) off n = v) as Hf.
  { intros off n v Hin Ho Hn Hv. rewrite (field_view vm (put_fields m a fs)); [by apply field_put |]. intros x Hx. apply Hva. unfold PAGE_SIZE. lia. }
  assert (0 <= zlen (bi_memory_map i)) as Hz by (unfold zlen; lia).
  unfold read_boot_info, u32_ok, u64_ok, HHDM_OFFSET in *.
  rewrite (Hf 40 4%nat (pixel_code (fb_pixel_format (bi_framebuffer i)))), (Hf 48 8%nat (b + 0xFFFF800000000000)), (Hf 56 8%nat (zlen (bi_memory_map i))),
    (Hf 0 8%nat (bi_magic i)), (Hf 8 4%nat (bi_version i)), (Hf 16 8%nat (fb_base (bi_framebuffer i))), (Hf 24 4%nat (fb_width (bi_framebuffer i))),
    (Hf 28 4%nat (fb_height (bi_framebuffer i))), (Hf 32 4%nat (fb_pitch (bi_framebuffer i))), (Hf 36 4%nat (fb_bits_per_pixel (bi_framebuffer i))),
    (Hf 64 8%nat (bi_rsdp_phys i)), (Hf 88 8%nat (bi_hhdm_offset i)); try in_fields; try lia; [| by destruct (fb_pixel_format (bi_framebuffer i))].
  rewrite mapM_seqZ.
  - by destruct i as [? ? [? ? ? ? ? []] ? ? ?].
  - intros j r Hj. pose proof (lookup_lt_Some _ _ _ Hj) as Hlt. rewrite <- (read_put_regions _ m0 b j r Hregs Hj).
    replace (b + 0xFFFF800000000000 + Z.of_nat j * REGION_SIZE) with (b + Z.of_nat j * REGION_SIZE + 0xFFFF800000000000) by lia.
    apply (read_region_view vm). intros x Hx. apply Hvb. unfold zlen, REGION_SIZE in *. lia.
Qed.

(** ** The handoff *)

(** The firmware has memory below 4 GiB only. *)
Definition low_memory (fw : F) : Prop := forall g, frame_addr g -> uefi_free fw g -> g < IDENTITY_MAP_BYTES.
Lemma pages_spec k n fw : serves k fw -> 0 < n <= k -> low_memory fw ->
  exists a fw', (forall m, alloc_pages n (mkLoader m fw) = Ret (a, mkLoader m fw')) /\ serves (k - n) fw' /\ frame_addr a /\ a + n * PAGE_SIZE <= IDENTITY_MAP_BYTES /\
    low_memory fw' /\ (forall g, frame_addr g -> uefi_free fw' g -> uefi_free fw g) /\
    (forall f x, frame_addr f -> ~ uefi_free fw f -> f <= x < f + PAGE_SIZE -> ~ (a <= x < a + n * PAGE_SIZE)) /\
    (forall g, frame_addr g -> a <= g < a + n * PAGE_SIZE -> ~ uefi_free fw' g /\ uefi_held fw' LOADER_DATA g) /\
    (forall ty f, uefi_held fw ty f -> uefi_held fw' ty f).
Proof using UL.
  intros Hs Hn Hlow. destruct (serves_step k n fw Hs Hn) as (a & fw' & E & Hs').
  destruct (allocate_pages_spec LOADER_DATA n fw a fw' ltac:(lia) E) as (Ha & _ & Hend & Hfree & Hiff).
  destruct (allocate_pages_held LOADER_DATA n fw a fw' ltac:(lia) E) as (Hheld & Hstay).
  assert (forall g, frame_addr g -> uefi_free fw' g -> uefi_free fw g) as Hmono by (intros g Hg Hx; by apply Hiff in Hx as [? _]).
  exists a, fw'. split; [intros m; unfold alloc_pages; cbn; by rewrite E |]. split; [done |]. split; [done |]. split; [| split; [| split; [done | split; [| split; [| done]]]]].
  - assert (frame_addr (a + (n - 1) * 4096)) as Hl by (apply (frame_add a (n - 1) n); [done | done | lia]).
    pose proof (Hlow _ Hl (Hfree _ Hl ltac:(unfold PAGE_SIZE; lia))) as Hlt. destruct Hl as [_ Hm]. unfold IDENTITY_MAP_BYTES, PAGE_SIZE in *.
    Z.to_euclidean_division_equations; lia.
  - intros g Hg Hx. by apply Hlow, Hmono.
  - intros f x Hf Hnf Hx. apply (frame_apart a f n x); try done; [| lia]. intros Hin. by apply Hnf, Hfree.
  - intros g Hg Hin. split; [| by apply Hheld]. intros Hx. by apply Hiff in Hx as [_ ?].
Qed.

Definition region_of (d : UefiDesc) : MemoryRegion := mkRegion (d_phys_start d) (d_page_count d * 4096) (uefi_kind (d_ty d)).
Definition desc_ok (d : UefiDesc) : Prop := u64_ok (d_phys_start d) /\ u64_ok (d_page_count d * 4096).
Lemma regions_of_spec descs : forall c, Forall desc_ok descs -> regions_of descs c = Ret (region_of <$> take (Z.to_nat (mmap_capacity - c)) descs).
Proof.
  induction descs as [| d descs IH]; intros c Hok; [by rewrite take_nil |]. apply Forall_cons in Hok as [[Hp Hl] Hok]. cbn [regions_of].
  destruct (Z.leb_spec mmap_capacity c) as [Hle | Hgt]; [by replace (Z.to_nat (mmap_capacity - c)) with 0%nat by lia |].
  rewrite checked_fits by exact Hl. cbn [obind]. rewrite IH by done. cbn [obind].
  replace (Z.to_nat (mmap_capacity - c)) with (S (Z.to_nat (mmap_capacity - (c + 1)))) by lia. done.
Qed.
Lemma rsdp_ok cfg : Forall (fun e => u64_ok e.2) cfg -> u64_ok (find_rsdp cfg).
Proof.
  intros Hok. assert (forall a1, u64_ok a1 -> u64_ok (rsdp_loop cfg a1).1 /\ u64_ok (rsdp_loop cfg a1).2) as H.
  { induction Hok as [| [g a] cfg Ha _ IH]; intros a1 H1; [by split |]. destruct g; cbn; auto. }
  unfold find_rsdp. destruct (H 0 ltac:(unfold u64_ok; lia)) as [H1 H2]. destruct (rsdp_loop cfg 0) as [x y]. by destruct (negb (x =? 0)).
Qed.

Definition screen_fields (fb : Framebuffer) : Prop :=
  u32_ok (fb_width fb) /\ u32_ok (fb_height fb) /\ u32_ok (fb_pitch fb) /\ u32_ok (fb_bits_per_pixel fb).

(** What follows [build_page_tables]. *)
Lemma info_spec k s root T L fb m input phs (info : F -> BootInfo) : tree s root T L -> serves k (ld_fw s) -> 1 + MMAP_PAGES <= k -> low_memory (ld_fw s) ->
  (forall v, L !! path3 v = low_maps fb !! path3 v) -> screen_ok fb -> (forall fw, info_ok (info fw) /\ zlen (bi_memory_map (info fw)) <= mmap_capacity) ->
  (forall ph, ph ∈ loads phs -> exists a, resident s T L m input ph a) ->
  exists a b fw1 fw2, alloc_pages 1 s = Ret (a, mkLoader (ld_mem s) fw1) /\ alloc_pages MMAP_PAGES (mkLoader (ld_mem s) fw1) = Ret (b, mkLoader (ld_mem s) fw2) /\
    0 <= a /\ a + PAGE_SIZE <= IDENTITY_MAP_BYTES /\ 0 <= b /\ b + PAGE_SIZE <= IDENTITY_MAP_BYTES /\
    let i := info fw2 in
    let s' := mkLoader (put_boot_info (put_regions (ld_mem s) b (bi_memory_map i)) a (b + HHDM_OFFSET) i) fw2 in
    tree s' root T L /\ read_boot_info (virt_mem (ld_mem s') root) (a + HHDM_OFFSET) = Some i /\
    (forall ph, ph ∈ loads phs -> exists a, resident s' T L m input ph a) /\
    frame_addr a /\ uefi_held fw2 LOADER_DATA a /\ (forall ty f, uefi_held (ld_fw s) ty f -> uefi_held fw2 ty f).
Proof using UL PL HL.
  intros Ht Hs Hk Hlow HL3 Hfb Hinfo Hres. unfold MMAP_PAGES in *.
  destruct (pages_spec k 1 (ld_fw s) Hs ltac:(lia) Hlow) as (a & fw1 & E1 & Hs1 & Ha & Hae & Hlow1 & Hm1 & Hap1 & Hown1 & Hst1).
  destruct (pages_spec (k - 1) 16 fw1 Hs1 ltac:(lia) Hlow1) as (b & fw2 & E2 & Hs2 & Hb & Hbe & _ & Hm2 & Hap2 & Hown2 & Hst2).
  exists a, b, fw1, fw2. split; [destruct s; apply E1 |]. split; [apply E2 |]. split; [apply Ha |]. split; [lia |]. split; [apply Hb |].
  split; [unfold PAGE_SIZE in *; lia |]. destruct (Hinfo fw2) as [Hok Hlen]. set (i := info fw2) in *. cbn zeta.
  set (m1 := put_regions (ld_mem s) b (bi_memory_map i)). set (s' := mkLoader (put_boot_info m1 a (b + HHDM_OFFSET) i) fw2).
  assert (mmap_capacity = 2730) as Hc by done.
  assert (zlen (bi_memory_map i) * REGION_SIZE <= 16 * PAGE_SIZE) as Hcap.
  { unfold REGION_SIZE, PAGE_SIZE. lia. }
  assert (forall x, ~ (a <= x < a + PAGE_SIZE) -> ld_mem s' x = m1 x) as Hoa.
  { intros x Hx. unfold s', put_boot_info. cbn [ld_mem]. apply (put_fields_other _ a _ x 0 4096); [cbn; lia | unfold PAGE_SIZE in Hx; lia]. }
  destruct (fresh_write s s' root T L Ht) as [Ht' Hg'].
  { intros f Hf Hx. by apply Hm1, Hm2. }
  { intros f x Hf Hnf Hx. rewrite Hoa by (intros Hin; apply (Hap1 f x); [done .. | lia]). apply put_regions_other.
    intros Hin. apply (Hap2 f x); [done | intros Hx'; by apply Hnf, Hm1 | done | lia]. }
  { intros ty f Hf. by apply Hst2, Hst1. }
  split; [done |]. split; [| split; [| split; [done | split; [| intros ty f Hf; by apply Hst2, Hst1]]]].
  - assert (forall x, 0 <= x < IDENTITY_MAP_BYTES -> virt_mem (ld_mem s') root (HHDM_OFFSET + x) = ld_mem s' x) as Hview.
    { intros x Hx. unfold virt_mem. destruct (translate_low s' root T L fb x Ht' HL3 Hfb) as [_ ->]; [done | by left]. }
    destruct Ha as [Ha Ham], Hb as [Hb Hbm].
    apply (read_put_boot_info _ m1 (ld_mem s) a b i); [done | lia | unfold HHDM_OFFSET, IDENTITY_MAP_BYTES, PAGE_SIZE in *; lia | lia | |].
    + intros x Hx. by rewrite Hview by lia.
    + intros x Hx. rewrite Hview by lia. apply Hoa. intros Hin.
      apply (Hap2 a x); [done | apply Hown1; [done | unfold PAGE_SIZE; lia] | lia | lia].
  - intros ph Hin. destruct (Hres ph Hin) as [c Hr]. exists c.
    destruct Hr as [R1 R2 R3 R5 R4]. split; [done | done | done | intros g Hg Hin'; by apply (gr_held _ _ _ _ Hg'), R5 |]. intros j Hj. destruct (R4 j Hj) as [Hh Hbyte].
    destruct (held_gains _ _ _ _ _ Hg' Hh) as [Hh' ->]. by split.
  - apply Hst2, Hown1; [done | unfold PAGE_SIZE; lia].
Qed.

Definition handoff_info (fb : Framebuffer) (cfg : list (CfgGuid * Z)) (descs : list UefiDesc) : BootInfo :=
  mkBootInfo BOOT_INFO_MAGIC BOOT_INFO_VERSION fb (region_of <$> take (Z.to_nat mmap_capacity) descs) (find_rsdp cfg) HHDM_OFFSET.
Lemma handoff_info_ok fb cfg descs : screen_ok fb -> screen_fields fb -> Forall (fun e => u64_ok e.2) cfg -> Forall desc_ok descs ->
  info_ok (handoff_info fb cfg descs) /\ zlen (bi_memory_map (handoff_info fb cfg descs)) <= mmap_capacity.
Proof.
  intros (H1 & H2 & H3) (F1 & F2 & F3 & F4) Hcfg Hd. split.
  - unfold info_ok, handoff_info. cbn. split; [done |]. split; [done |]. unfold screen_phys, HHDM_OFFSET, KERNEL_BASE, HUGE_SIZE in *.
    split; [unfold u64_ok; lia |]. split_and!; try done; [by apply rsdp_ok |].
    apply Forall_fmap, Forall_take. eapply Forall_impl; [exact Hd |]. intros d [Hp Hl]. by split.
  - unfold handoff_info, zlen. cbn [bi_memory_map]. rewrite length_fmap, length_take. assert (mmap_capacity = 2730) as -> by done. lia.
Qed.

Definition boot_pages (fb : Framebuffer) (segs : list Segment) : Z := 16 + table_pages fb segs + 1 + MMAP_PAGES.

(** The run of [efi_main], with the tree of its page tables. *)
Lemma efi_main_spec k s fb input entry phs cfg memory_map :
  serves k (ld_fw s) -> boot_pages fb (loads phs) <= k -> low_memory (ld_fw s) -> screen_ok fb -> screen_fields fb -> image_ok (loads phs) ->
  (forall ph x, ph ∈ loads phs -> source input ph x -> backed (ld_fw s) x) ->
  Forall (fun e => u64_ok e.2) cfg -> (forall fw, Forall desc_ok (memory_map fw)) ->
  exists h s' T L stk, efi_main fb input entry phs cfg memory_map s = Ret (h, s') /\ ho_rip h = entry /\
    ho_info h = handoff_info fb cfg (memory_map (ld_fw s')) /\
    tree s' (ho_cr3 h) T L /\ (forall v, L !! path3 v = low_maps fb !! path3 v) /\
    (forall ph, ph ∈ loads phs -> exists a, resident s' T L (ld_mem s) input ph a) /\
    read_boot_info (virt_mem (ld_mem s') (ho_cr3 h)) (ho_rdi h) = Some (ho_info h) /\
    (ho_rsp h = HHDM_OFFSET + stk + KERNEL_STACK_SIZE /\ frame_addr stk /\ stk + KERNEL_STACK_SIZE <= IDENTITY_MAP_BYTES /\
     forall g, frame_addr g -> stk <= g < stk + KERNEL_STACK_SIZE -> uefi_held (ld_fw s') LOADER_DATA g) /\
    (frame_addr (ho_rdi h - HHDM_OFFSET) /\ uefi_held (ld_fw s') LOADER_DATA (ho_rdi h - HHDM_OFFSET)).
Proof using UL PL HL.
  intros Hs Hk Hlow Hfb Hff Himg Hsrc Hcfg Hmm. unfold boot_pages, MMAP_PAGES in Hk.
  assert (0 <= table_pages fb (loads phs)) as Htp.
  { pose proof (screen_bounds fb Hfb). pose proof (image_pages_nonneg _ (proj1 Himg)). unfold table_pages, LOW_PAGES. lia. }
  destruct (pages_spec k 16 (ld_fw s) Hs ltac:(lia) Hlow) as (stk & fw0 & E0 & Hs0 & Hst & Hste & Hlow0 & Hm0 & _ & Hown0 & _).
  pose proof Hst as [Hst0 _].
  destruct (build_spec (k - 16) (mkLoader (ld_mem s) fw0) input phs fb Hs0 ltac:(lia) Hfb Himg) as (s1 & root & T & L & E1 & Hs1 & Ht1 & _ & Hm1 & Hst1 & HL3 & Hres).
  { intros ph x Hin Hx. destruct (Hsrc ph x Hin Hx) as (f & Hf & Hfx & Hnf). exists f. split; [done |]. split; [done |]. cbn. intros Hx'. by apply Hnf, Hm0. }
  destruct (info_spec (k - 16 - table_pages fb (loads phs)) s1 root T L fb (ld_mem s) input phs (fun fw => handoff_info fb cfg (memory_map fw)) Ht1 Hs1)
    as (a & b & fw1 & fw2 & E2 & E3 & Ha0 & Ha & Hb0 & Hb & Ht2 & Hread & Hres2 & Hfa & Hheld & Hst2);
    [unfold MMAP_PAGES; lia | intros g Hg Hx; by apply Hlow0, Hm1 | done | done | intros fw; by apply handoff_info_ok | done |].
  set (i := handoff_info fb cfg (memory_map fw2)) in *. cbn zeta in *.
  set (s' := mkLoader (put_boot_info (put_regions (ld_mem s1) b (bi_memory_map i)) a (b + HHDM_OFFSET) i) fw2) in *.
  pose proof (tree_frames _ _ _ _ _ _ Ht1 (tr_root _ _ _ _ Ht1)) as Hroot.
  unfold IDENTITY_MAP_BYTES, PAGE_SIZE in Ha, Hb, Hste.
  exists (mkHandoff root (HHDM_OFFSET + stk + KERNEL_STACK_SIZE) entry (a + HHDM_OFFSET) i), s', T, L, stk. cbn [ho_rip ho_info ho_cr3 ho_rdi ho_rsp].
  split; [| split; [done | split; [done | split; [exact Ht2 | split; [exact HL3 | split; [exact Hres2 | split; [exact Hread | split]]]]]]].
  - assert (alloc_pages 16 s = Ret (stk, mkLoader (ld_mem s) fw0)) as E0' by (destruct s; apply E0).
    unfold efi_main. erewrite st_bind_step by exact E0'.
    erewrite st_bind_step by (unfold st_lift; rewrite checked_fits by (unfold HHDM_OFFSET; lia); cbn [obind];
      rewrite checked_fits by (unfold HHDM_OFFSET, KERNEL_STACK_SIZE; lia); reflexivity).
    erewrite st_bind_step by exact E1. cbn beta iota zeta. erewrite st_bind_step by exact E2. erewrite st_bind_step by exact E3. erewrite st_bind_step by reflexivity.
    cbn [ld_fw]. erewrite st_bind_step by (unfold st_lift; rewrite regions_of_spec, Z.sub_0_r by done; reflexivity).
    erewrite st_bind_step by reflexivity.
    erewrite st_bind_step by (unfold st_lift; rewrite checked_fits by (unfold HHDM_OFFSET; lia); reflexivity).
    erewrite st_bind_step by reflexivity.
    erewrite st_bind_step by (unfold st_lift; rewrite checked_fits by (unfold HHDM_OFFSET; lia); reflexivity).
    destruct Hroot as [Hr1 Hr2]. erewrite st_bind_step by (unfold st_lift; rewrite phys_addr_new_ok by lia; reflexivity).
    rewrite Hr2. cbn [Z.eqb]. erewrite st_bind_step by reflexivity. done.
  - split; [done |]. split; [done |]. split; [unfold KERNEL_STACK_SIZE, IDENTITY_MAP_BYTES in *; lia |].
    intros g Hg Hin. apply Hst2, Hst1. apply Hown0; [done |]. unfold KERNEL_STACK_SIZE, PAGE_SIZE in *. lia.
  - replace (a + HHDM_OFFSET - HHDM_OFFSET) with a by lia. done.
Qed.

(** C14 Given memory below 4 GiB from the firmware, [efi_main] reaches the
    kernel, and there everything it passes on is in reach: through the new
    page tables the kernel reads at [rdi] the boot information that was
    meant, with the first 2730 regions of the firmware's last memory map; the
    64 KiB below [rsp] can be written; and the image is where it was linked. *)
Theorem handoff_complete k s fb input entry phs cfg memory_map :
  serves k (ld_fw s) -> boot_pages fb (loads phs) <= k -> low_memory (ld_fw s) -> screen_ok fb -> screen_fields fb -> image_ok (loads phs) ->
  (forall ph x, ph ∈ loads phs -> source input ph x -> backed (ld_fw s) x) ->
  Forall (fun e => u64_ok e.2) cfg -> (forall fw, Forall desc_ok (memory_map fw)) ->
  exists h s', efi_main fb input entry phs cfg memory_map s = Ret (h, s') /\ ho_rip h = entry /\
    ho_info h = handoff_info fb cfg (memory_map (ld_fw s')) /\
    read_boot_info (virt_mem (ld_mem s') (ho_cr3 h)) (ho_rdi h) = Some (ho_info h) /\
    (forall x, ho_rsp h - KERNEL_STACK_SIZE <= x < ho_rsp h -> translate (ld_mem s') (ho_cr3 h) x = Some (x - HHDM_OFFSET, true, false)) /\
    (forall ph i, ph ∈ loads phs -> 0 <= i < mem_size ph -> exists pa,
       translate (ld_mem s') (ho_cr3 h) (virtual_addr ph + i) = Some (pa, seg_writable ph, seg_executable ph) /\
       ld_mem s' pa = image_byte (ld_mem s) input ph i).
Proof using UL PL HL.
  intros Hs Hk Hlow Hfb Hff Himg Hsrc Hcfg Hmm.
  destruct (efi_main_spec k s fb input entry phs cfg memory_map) as (h & s' & T & L & stk & E & Hrip & Hinf & Ht & HL3 & Hres & Hread & (Hrsp & [Hst _] & Hste & _) & _);
    [done .. |]. exists h, s'. split; [exact E |]. split; [done |]. split; [done |]. split; [exact Hread |]. split.
  - intros x Hx. rewrite Hrsp in Hx. unfold KERNEL_STACK_SIZE in *. replace x with (HHDM_OFFSET + (x - HHDM_OFFSET)) at 1 by lia.
    apply (translate_low s' (ho_cr3 h) T L fb); [done | done | done |]. left. unfold IDENTITY_MAP_BYTES in *. lia.
  - intros ph j Hin Hj. destruct (Hres ph Hin) as [c Hr]. exists (c + page_offset ph + j). split; [| by apply (rs_byte _ _ _ _ _ _ _ Hr)].
    apply (translate_image s' (ho_cr3 h) T L (ld_mem s) input); [done | | done | done]. destruct Himg as [Hok _]. rewrite Forall_forall in Hok. by apply Hok.
Qed.
End Tree.

(** ** The kernel's frame allocator on this map *)

Lemma regions_of_elem descs : forall c regions d, regions_of descs c = Ret regions -> c + zlen descs <= mmap_capacity -> d ∈ descs -> region_of d ∈ regions.
Proof.
  induction descs as [| d0 descs IH]; intros c regions d Hr Hlen Hd; [by apply elem_of_nil in Hd |]. cbn [regions_of] in Hr. unfold zlen in *. cbn [length] in Hlen.
  rewrite (proj2 (Z.leb_gt _ _)) in Hr by lia. inv_bind Hr. match goal with H : checked 64 _ = Ret _ |- _ => apply checked_Ret in H as [-> _] end.
  injection Hr as <-. apply elem_of_cons in Hd as [-> | Hd]; [left | right]. eapply IH; [done | lia | done].
Qed.

Lemma reclaimed_free (descs : list UefiDesc) (regions : list MemoryRegion) (d : UefiDesc) (m b f : Z) :
  regions_of descs 0 = Ret regions -> zlen descs <= mmap_capacity -> d ∈ descs -> d_ty d = LOADER_DATA ->
  map_ok regions -> max_phys_of regions = Ret m -> 0 < m ->
  find_bitmap_region regions (bitmap_pages (div_ceil m PAGE_SIZE)) = Some b ->
  frame_addr f -> f <> 0 -> d_phys_start d mod 4096 = 0 -> d_phys_start d <= f < d_phys_start d + d_page_count d * 4096 ->
  ~ (b / PAGE_SIZE <= f / PAGE_SIZE < b / PAGE_SIZE + bitmap_pages (div_ceil m PAGE_SIZE)) ->
  exists st, init regions = Ret st /\ state_wf st /\ frame_free st f.
Proof.
  intros Hr Hlen Hd Hty Hmap Hm Hpos Hfind Hf Hf0 Hal Hin Hnb.
  destruct (init_spec regions m b Hmap Hm Hpos Hfind) as (st & p & E & Hst & Hp & _ & Ht & Hused). exists st. split; [done |]. split; [done |].
  assert (region_of d ∈ regions) as Hreg by (by apply (regions_of_elem descs 0)).
  assert (f / PAGE_SIZE ∈ usable_frames regions) as Hu.
  { apply list_elem_of_In, in_concat. exists (seqZ (d_phys_start d / PAGE_SIZE) (d_page_count d * 4096 / PAGE_SIZE)). split.
    - apply in_map_iff. exists (region_of d). split; [| by apply list_elem_of_In]. unfold region_of. cbn. by rewrite Hty.
    - apply list_elem_of_In, elem_of_seqZ. destruct Hf as [_ Hfm]. unfold PAGE_SIZE. Z.to_euclidean_division_equations; lia. }
  unfold frame_free. rewrite Hp. destruct Hmap as [Hrange Hnd].
  destruct (max_phys_of_spec regions 0 Hrange ltac:(lia)) as (m' & Hm' & _ & Hbound). unfold max_phys_of in Hm. rewrite Hm in Hm'. injection Hm' as <-.
  pose proof (usable_frames_range regions m _ Hrange Hbound Hu) as Hfr. rewrite Ht in *. split; [done |]. apply Hused; [done |].
  split; [done |]. split; [| done]. destruct Hf as [_ Hfm]. unfold PAGE_SIZE. Z.to_euclidean_division_equations; lia.
Qed.

(** Calls of [alloc_frame] one after the other. *)
Fixpoint allocs (n : nat) (st : PmmState) : outcome PmmState :=
  match n with
  | O => Ret st
  | S n => let! (_, st) := alloc_frame st in allocs n st
  end.

(** A free frame is handed out sooner or later. *)
Lemma alloc_reaches (st : PmmState) (f : Z) : state_wf st -> frame_addr f -> frame_free st f ->
  exists n st1 st2, allocs n st = Ret st1 /\ alloc_frame st1 = Ret (Some f, st2).
Proof.
  remember (Z.to_nat (FREE_FRAMES st)) as k eqn:Hk. revert st Hk. induction k as [k IH] using (well_founded_induction lt_wf). intros st Hk Hst Hf Hfree.
  unfold frame_free in Hfree. destruct (PMM st) as [p |] eqn:Hp; [| done]. destruct Hfree as [Hr Hu].
  pose proof Hst as Hw. unfold state_wf in Hw. rewrite Hp in Hw. destruct Hw as (_ & _ & _ & HF). pose proof (n_free_pos p _ Hr Hu) as Hpos.
  destruct (alloc_frame_spec st p Hst) as (r & st' & Ha & Hst' & _ & Hres); [unfold progress; rewrite Hp; right; by exists (f / PAGE_SIZE) | done |].
  destruct r as [a |]; [| lia]. destruct Hres as (g & p' & -> & Hg & _ & Hp' & Hs & Ht & HF').
  destruct (decide (g * PAGE_SIZE = f)) as [Heq | Hne]; [subst f; by exists 0%nat, st, st' |].
  destruct (IH (Z.to_nat (FREE_FRAMES st'))) with st' as (n & st1 & st2 & E1 & E2); [lia | done | done | done | |].
  - apply (frame_free_sets st st' p p' g f Hp Hp' Ht Hs Hf). split; [done |]. unfold frame_free. by rewrite Hp.
  - exists (S n), st1, st2. cbn [allocs]. rewrite Ha. done.
Qed.

Section Reclaimed.
  Context {F : Type} {UF : Uefi F} {UL : UefiLaws F}
    {PE : PageTableEntry} {PL : PageTableEntryLaws} {HE : HugeEntry} {HL : HugeEntryLaws}.

(** The frames the kernel runs on when it is entered. *)
Inductive runs_on (h : Handoff) (m : PhysMem) (phs : list (option PhType * Segment)) : Z -> Prop :=
  | on_table p f : (length p <= 2)%nat -> Forall index_ok p -> descend m (ho_cr3 h) p = Some f -> runs_on h m phs f
  | on_image_table ph i f : ph ∈ loads phs -> 0 <= i < mem_size ph ->
      descend m (ho_cr3 h) (path3 (virtual_addr ph + i)) = Some f -> runs_on h m phs f
  | on_image ph i pa w x : ph ∈ loads phs -> 0 <= i < mem_size ph ->
      translate m (ho_cr3 h) (virtual_addr ph + i) = Some (pa, w, x) -> runs_on h m phs (frame_of pa)
  | on_stack x : ho_rsp h - KERNEL_STACK_SIZE <= x < ho_rsp h -> runs_on h m phs (frame_of (x - HHDM_OFFSET))
  | on_boot_info : runs_on h m phs (frame_of (ho_rdi h - HHDM_OFFSET)).

(** The documented map of [exit_boot_services]: each page that was handed out is
    in a descriptor of its type. *)
Definition map_describes (memory_map : F -> list UefiDesc) : Prop :=
  forall fw ty g, frame_addr g -> uefi_held fw ty g -> exists d, d ∈ memory_map fw /\ d_ty d = ty /\
    d_phys_start d mod 4096 = 0 /\ d_phys_start d <= g < d_phys_start d + d_page_count d * 4096.

(** A walk stays in the tree. *)
Lemma walk_tree (s : Loader F) root T L (p : list Z) : tree s root T L -> Forall index_ok p ->
  forall q f t, T !! q = Some t -> (forall n, (n <= length p)%nat -> L !! (q ++ take n p) = None) ->
  descend (ld_mem s) t p = Some f -> T !! (q ++ p) = Some f.
Proof using PL.
  intros Ht Hp. induction Hp as [| i p Hi _ IH]; intros q f t Hq HL' Hd; [rewrite app_nil_r; simpl in Hd; congruence |]. cbn [descend] in Hd.
  rewrite (tr_entry _ _ _ _ Ht q t i Hq Hi) in Hd. unfold word in Hd. pose proof (HL' 1%nat ltac:(simpl; lia)) as Hn. change (take 1 (i :: p)) with [i] in Hn.
  destruct (T !! (q ++ [i])) as [g |] eqn:Eg.
  - destruct (entry_of_spec g PW (tree_frames _ _ _ _ _ _ Ht Eg) (proj1 PW_ok)) as (_ & _ & Ea & _). rewrite Ea in Hd.
    destruct (present _); [| done]. change (i :: p) with ([i] ++ p). rewrite (app_assoc q [i] p). apply (IH (q ++ [i]) f g Eg); [| done].
    intros n Hlen. rewrite <- app_assoc. apply (HL' (S n)). simpl. lia.
  - rewrite Hn in Hd. cbn [default from_option] in Hd. unfold id in Hd. by rewrite present_unused in Hd.
Qed.

Lemma frame_of_within (a x n : Z) : frame_addr a -> a <= x < a + n * 4096 -> a + n * 4096 <= 2 ^ 52 ->
  frame_addr (frame_of x) /\ a <= frame_of x < a + n * 4096.
Proof. intros [Ha Hm] Hx Hn. unfold frame_of, frame_addr, PAGE_SIZE. Z.to_euclidean_division_equations; lia. Qed.

(** All of them are loader data. *)
Lemma runs_on_held k s fb input entry phs cfg memory_map h s' :
  serves k (ld_fw s) -> boot_pages fb (loads phs) <= k -> low_memory (ld_fw s) -> screen_ok fb -> screen_fields fb -> image_ok (loads phs) ->
  (forall ph x, ph ∈ loads phs -> source input ph x -> backed (ld_fw s) x) ->
  Forall (fun e => u64_ok e.2) cfg -> (forall fw, Forall desc_ok (memory_map fw)) ->
  efi_main fb input entry phs cfg memory_map s = Ret (h, s') ->
  forall f, runs_on h (ld_mem s') phs f -> frame_addr f /\ uefi_held (ld_fw s') LOADER_DATA f.
Proof using UL PL HL.
  intros Hs Hk Hlow Hfb Hff Himg Hsrc Hcfg Hmm E.
  destruct (efi_main_spec k s fb input entry phs cfg memory_map) as (h0 & s0 & T & L & stk & E0 & _ & _ & Ht & HL3 & Hres & _ & (Hrsp & Hst & Hste & Hstk) & Hrdi);
    [done .. |]. rewrite E0 in E. injection E as -> ->.
  assert (forall p f, Forall index_ok p -> (forall n, (n <= length p)%nat -> L !! take n p = None) -> descend (ld_mem s') (ho_cr3 h) p = Some f ->
    frame_addr f /\ uefi_held (ld_fw s') LOADER_DATA f) as Htab.
  { intros p f Hp HLn Hd. pose proof (walk_tree s' (ho_cr3 h) T L p Ht Hp [] f (ho_cr3 h) (tr_root _ _ _ _ Ht) HLn Hd) as HT.
    split; [by eapply tree_frames | by apply (tr_held _ _ _ _ Ht _ f HT)]. }
  destruct Himg as [Hok _]. rewrite Forall_forall in Hok.
  intros f [p f' Hp Hix Hd | ph i f' Hin Hi Hd | ph i pa w x Hin Hi Htr | x Hx |].
  - apply (Htab p f' Hix); [| done]. intros n Hn. eapply leaf_short; [exact Ht |]. rewrite length_take. lia.
  - apply (Htab (path3 (virtual_addr ph + i)) f'); [apply path3_ok | | done]. intros n Hn. destruct (decide (n <= 2)%nat) as [Hn2 | Hn2].
    + eapply leaf_short; [exact Ht |]. rewrite length_take. lia.
    + rewrite take_ge by (simpl in *; lia). rewrite HL3. apply low_maps_kernel; [done |].
      destruct (Hok ph Hin) as (Hb & _ & He & _). unfold KERNEL_BASE in *. lia.
  - destruct (Hres ph Hin) as [a Hr].
    rewrite (translate_image s' (ho_cr3 h) T L (ld_mem s) input ph a i Ht (Hok ph Hin) Hr Hi) in Htr. injection Htr as <- _ _.
    pose proof (seg_pages_bounds ph (Hok ph Hin)) as (Hn & _ & Ho & _).
    destruct (frame_of_within a (a + page_offset ph + i) (seg_pages ph) (rs_frame _ _ _ _ _ _ _ Hr)) as [Hfa Hin'];
      [lia | apply (rs_end _ _ _ _ _ _ _ Hr) |]. split; [done |]. apply (rs_held _ _ _ _ _ _ _ Hr); [done |]. unfold PAGE_SIZE. lia.
  - rewrite Hrsp in Hx. unfold KERNEL_STACK_SIZE, IDENTITY_MAP_BYTES in *.
    destruct (frame_of_within stk (x - HHDM_OFFSET) 16 Hst) as [Hfa Hin']; [lia | lia |]. split; [done |]. apply Hstk; [done | lia].
  - destruct Hrdi as [Hfa Hh]. rewrite (frame_of_in (ho_rdi h - HHDM_OFFSET)); [done | done |]. unfold PAGE_SIZE. lia.
Qed.

(** The memory map the kernel is told of. *)
Lemma handoff_map k s fb input entry phs cfg memory_map :
  serves k (ld_fw s) -> boot_pages fb (loads phs) <= k -> low_memory (ld_fw s) -> screen_ok fb -> screen_fields fb -> image_ok (loads phs) ->
  (forall ph x, ph ∈ loads phs -> source input ph x -> backed (ld_fw s) x) ->
  Forall (fun e => u64_ok e.2) cfg -> (forall fw, Forall desc_ok (memory_map fw)) ->
  exists h s', efi_main fb input entry phs cfg memory_map s = Ret (h, s') /\
    bi_memory_map (ho_info h) = region_of <$> take (Z.to_nat mmap_capacity) (memory_map (ld_fw s')).
Proof using UL PL HL.
  intros. destruct (efi_main_spec k s fb input entry phs cfg memory_map) as (h & s' & T & L & stk & E & _ & Hinf & _); [done .. |].
  exists h, s'. split; [done |]. by rewrite Hinf.
Qed.

(** C27 The frames the kernel runs on when [efi_main] enters it, its page
    tables, its image, its stack and the boot information, were all allocated
    as loader data.  The bootloader passes these on as reclaimable and
    [pmm::init] takes them as free: after some calls [alloc_frame] hands out
    any such frame, other than frame 0 and those of the bitmap, although it is
    in use. *)
Theorem loader_frames_reclaimed k s fb input entry phs cfg memory_map m b :
  serves k (ld_fw s) -> boot_pages fb (loads phs) <= k -> low_memory (ld_fw s) -> screen_ok fb -> screen_fields fb -> image_ok (loads phs) ->
  (forall ph x, ph ∈ loads phs -> source input ph x -> backed (ld_fw s) x) ->
  Forall (fun e => u64_ok e.2) cfg -> (forall fw, Forall desc_ok (memory_map fw)) ->
  map_describes memory_map -> (forall fw, zlen (memory_map fw) <= mmap_capacity) ->
  exists h s', efi_main fb input entry phs cfg memory_map s = Ret (h, s') /\
    let regions := bi_memory_map (ho_info h) in
    forall f, runs_on h (ld_mem s') phs f -> uefi_held (ld_fw s') LOADER_DATA f /\
      (map_ok regions -> max_phys_of regions = Ret m -> 0 < m ->
       find_bitmap_region regions (bitmap_pages (div_ceil m PAGE_SIZE)) = Some b -> f <> 0 ->
       ~ (b / PAGE_SIZE <= f / PAGE_SIZE < b / PAGE_SIZE + bitmap_pages (div_ceil m PAGE_SIZE)) ->
       exists st n st1 st2, init regions = Ret st /\ allocs n st = Ret st1 /\ alloc_frame st1 = Ret (Some f, st2)).
Proof using UL PL HL.
  intros Hs Hk Hlow Hfb Hff Himg Hsrc Hcfg Hmm Hdesc Hcap.
  destruct (efi_main_spec k s fb input entry phs cfg memory_map) as (h & s' & T & L & stk & E & _ & Hinf & _); [done .. |].
  exists h, s'. split; [exact E |]. cbv zeta. intros f Hon.
  destruct (runs_on_held k s fb input entry phs cfg memory_map h s' Hs Hk Hlow Hfb Hff Himg Hsrc Hcfg Hmm E f Hon) as [Hfa Hh].
  split; [exact Hh |]. intros Hmap Hm Hpos Hfind Hf0 Hnb. destruct (Hdesc (ld_fw s') LOADER_DATA f Hfa Hh) as (d & Hd & Hty & Hal & Hin).
  assert (regions_of (memory_map (ld_fw s')) 0 = Ret (bi_memory_map (ho_info h))) as Hreg.
  { rewrite Hinf, regions_of_spec by done. unfold handoff_info. cbn. by rewrite Z.sub_0_r. }
  destruct (reclaimed_free _ _ d m b f Hreg (Hcap _) Hd Hty Hmap Hm Hpos Hfind Hfa Hf0 Hal Hin Hnb) as (st & Hi & Hwf & Hfree).
  destruct (alloc_reaches st f Hwf Hfa Hfree) as (n & st1 & st2 & E1 & E2). by exists st, n, st1, st2.
Qed.
End Reclaimed.

(** ** The video mode *)

Definition supported (g : GopMode) : Prop := gm_format g = GopRgb \/ gm_format g = GopBgr.
Definition area (g : GopMode) : Z := gm_width g * gm_height g.
(** [best] is a largest supported mode of those before [idx]. *)
Definition best_of (before : list GopMode) (best : option (Z * GopMode)) : Prop :=
  match best with
  | None => Forall (fun g => ~ supported g) before
  | Some (i, g) => 0 <= i /\ before !! Z.to_nat i = Some g /\ supported g /\ Forall (fun g' => supported g' -> area g' <= area g) before
  end.
Lemma best_of_step before g best : best_of before best ->
  best_of (before ++ [g]) (if decide (supported g) then
    match best with None => Some (zlen before, g) | Some (_, bm) => if area bm <? area g then Some (zlen before, g) else best end else best).
Proof.
  intros Hb. assert ((before ++ [g]) !! Z.to_nat (zlen before) = Some g) as Hlast.
  { unfold zlen. rewrite Nat2Z.id. by rewrite lookup_app_r, Nat.sub_diag by lia. }
  case_decide as Hg; destruct best as [[i bm] |]; cbn in *.
  - destruct Hb as (Hi & Hl & Hs & Hmax). destruct (Z.ltb_spec (area bm) (area g)) as [Hlt | Hge]; cbn.
    + split; [unfold zlen; lia |]. split; [done |]. split; [done |]. apply Forall_app. split; [| by constructor; [| constructor]].
      eapply Forall_impl; [exact Hmax |]. intros g' H' Hs'. specialize (H' Hs'). lia.
    + split; [done |]. split; [by apply lookup_app_l_Some |]. split; [done |]. apply Forall_app. split; [done |]. by constructor; [| constructor].
  - split; [unfold zlen; lia |]. split; [done |]. split; [done |]. apply Forall_app. split; [| by constructor; [| constructor]].
    eapply Forall_impl; [exact Hb |]. done.
  - destruct Hb as (Hi & Hl & Hs & Hmax). split; [done |]. split; [by apply lookup_app_l_Some |]. split; [done |].
    apply Forall_app. split; [done |]. by constructor; [| constructor].
  - apply Forall_app. split; [done |]. by constructor; [| constructor].
Qed.
Lemma best_mode_spec modes : forall before best, best_of before best -> best_of (before ++ modes) (best_mode modes (zlen before) best).
Proof.
  induction modes as [| g modes IH]; intros before best Hb; [by rewrite app_nil_r |]. cbn [best_mode].
  replace (before ++ g :: modes) with ((before ++ [g]) ++ modes) by (by rewrite <- app_assoc).
  replace (zlen before + 1) with (zlen (before ++ [g])) by (unfold zlen; rewrite length_app; cbn; lia).
  apply IH, (best_of_step before g best Hb).
Qed.

(** ** Witnesses *)

(** A firmware that gives away the pages below 1 GiB in ascending order; the
    state is the address of the next one. *)
#[local] Instance bump : Uefi Z := {|
  allocate_pages ty n fw :=
    if bool_decide (ty = LOADER_DATA) && (0x100000 <=? fw) && (0 <? n) && (0 <? fw) && (fw mod 4096 =? 0) && (fw + n * 4096 <=? 2 ^ 30)
    then Some (fw, fw + n * 4096) else None;
  uefi_free fw g := fw <= g < 2 ^ 30;
  uefi_held fw ty g := ty = LOADER_DATA /\ 0x100000 <= g < Z.min fw (2 ^ 30)
|}.
Lemma bump_run ty n fw a fw' : allocate_pages ty n fw = Some (a, fw') ->
  ty = LOADER_DATA /\ 0x100000 <= fw /\ 0 < n /\ fw mod 4096 = 0 /\ fw + n * 4096 <= 2 ^ 30 /\ a = fw /\ fw' = fw + n * 4096.
Proof.
  cbn. case_bool_decide; [| done]. destruct (Z.leb_spec 0x100000 fw), (Z.ltb_spec 0 n), (Z.ltb_spec 0 fw), (Z.eqb_spec (fw mod 4096) 0), (Z.leb_spec (fw + n * 4096) (2 ^ 30)); cbn; try done.
  by intros [= <- <-].
Qed.
#[local] Instance bump_laws : UefiLaws Z.
Proof.
  split; intros ty n fw a fw' Hn (-> & Hlo & _ & Hm & Hhi & -> & ->)%bump_run; cbn.
  - unfold frame_addr, PAGE_SIZE. split_and!; try lia; intros g [Hg _]; lia.
  - unfold PAGE_SIZE. split; [intros g [Hg _] Hin | intros ty' g [-> Hg]]; (split; [done | lia]).
Qed.
Lemma bump_serves k fw : 0x100000 <= fw -> fw mod 4096 = 0 -> fw + k * 4096 <= 2 ^ 30 -> serves k fw.
Proof.
  intros Hf Hm Hk ns. revert k fw Hf Hm Hk. induction ns as [| n ns IH]; intros k fw Hf Hm Hk Hns Hsum; [done |]. apply Forall_cons in Hns as [Hn Hns].
  cbn [requests foldr] in *. assert (0 <= foldr Z.add 0 ns) as H0 by (clear -Hns; induction Hns; cbn; lia). cbn.
  rewrite (proj2 (Z.leb_le 0x100000 fw)), (proj2 (Z.ltb_lt 0 n)), (proj2 (Z.ltb_lt 0 fw)), (proj2 (Z.eqb_eq _ _)), (proj2 (Z.leb_le _ (2 ^ 30))) by lia. cbn.
  apply (IH (k - n)); [lia | by rewrite Z.mod_add | lia | done | lia].
Qed.

Definition demo_loader : Loader Z := mkLoader (fun x => x mod 251) 0x100000.
Definition demo_fb : Framebuffer := mkFramebuffer (HHDM_OFFSET + 0x80000000) 1024 768 4096 32 Bgrx8888.
Definition demo_seg : Segment := mkSegment 0xFFFFFFFF80000000 0x200 0x10 0x1800 5.
Definition demo_phs : list (option PhType * Segment) := [(Some OtherType, demo_seg); (Some Load, demo_seg)].
Definition demo_descs : list UefiDesc := [mkDesc CONVENTIONAL 0x1000 16; mkDesc LOADER_DATA 0x11000 4].

Lemma demo_screen_ok : screen_ok demo_fb.
Proof. unfold screen_ok. vm_compute. by split_and!. Qed.
Lemma demo_image_ok : image_ok (loads demo_phs).
Proof. change (loads demo_phs) with [demo_seg]. split; repeat constructor; vm_compute; congruence. Qed.
Lemma demo_source ph x : ph ∈ loads demo_phs -> source 0x1000 ph x -> backed (ld_fw demo_loader) x.
Proof.
  change (loads demo_phs) with [demo_seg]. intros ->%list_elem_of_singleton Hx. exists 0x1000. unfold source in Hx. cbn in *. unfold PAGE_SIZE, frame_addr.
  split_and!; try done; lia.
Qed.
Lemma demo_low : low_memory (ld_fw demo_loader).
Proof. intros g _. cbn. unfold IDENTITY_MAP_BYTES. lia. Qed.

Lemma kernel_address_space_witness : exists root s', build_page_tables 0x1000 demo_phs demo_fb demo_loader = Ret ((root, 0xFFFFFFFF80001800), s') /\
  translate (ld_mem s') root 0x1234567 = Some (0x1234567, true, true) /\
  (exists pa, translate (ld_mem s') root 0xFFFFFFFF80000003 = Some (pa, false, true) /\ ld_mem s' pa = 0x1203 mod 251).
Proof.
  destruct (kernel_address_space 9000 demo_loader 0x1000 demo_phs demo_fb) as (root & s' & E & Hid & _ & Himg & _);
    [apply bump_serves; [cbn; lia | done | cbn; lia] | vm_compute; congruence | apply demo_screen_ok | apply demo_image_ok | apply demo_source |].
  exists root, s'. split; [exact E |]. split; [apply Hid; vm_compute; split; congruence |].
  destruct (Himg demo_seg 3) as (pa & Ht & Hb); [change (loads demo_phs) with [demo_seg]; left | vm_compute; split; congruence |].
  exists pa. split; [exact Ht | rewrite Hb; vm_compute; reflexivity].
Defined.
Lemma handoff_complete_witness : exists h s', efi_main demo_fb 0x1000 0xFFFFFFFF80000000 demo_phs [(ACPI2_GUID, 0xE0000)] (fun _ => demo_descs) demo_loader = Ret (h, s') /\
  read_boot_info (virt_mem (ld_mem s') (ho_cr3 h)) (ho_rdi h) =
    Some (mkBootInfo BOOT_INFO_MAGIC 1 demo_fb [mkRegion 0x1000 0x10000 Usable; mkRegion 0x11000 0x4000 BootloaderReclaimable] 0xE0000 HHDM_OFFSET).
Proof.
  destruct (handoff_complete 9000 demo_loader demo_fb 0x1000 0xFFFFFFFF80000000 demo_phs [(ACPI2_GUID, 0xE0000)] (fun _ => demo_descs))
    as (h & s' & E & _ & Hi & Hr & _);
    [apply bump_serves; [cbn; lia | done | cbn; lia] | vm_compute; congruence | apply demo_low | apply demo_screen_ok | unfold screen_fields, u32_ok; cbn; lia | apply demo_image_ok | apply demo_source |
     repeat constructor; vm_compute; congruence | intros _; repeat constructor; vm_compute; congruence |].
  exists h, s'. split; [exact E |]. rewrite Hr, Hi. done.
Defined.
(** The map of this firmware: what it hands out is loader data. *)
Definition bump_map (_ : Z) : list UefiDesc := [mkDesc CONVENTIONAL 0x1000 64; mkDesc LOADER_DATA 0x100000 261888].
Definition bump_regions : list MemoryRegion := [mkRegion 0x1000 0x40000 Usable; mkRegion 0x100000 0x3FF00000 BootloaderReclaimable].

Lemma bump_regions_ok : map_ok bump_regions.
Proof.
  split; [repeat constructor; vm_compute; congruence |].
  change (NoDup (seqZ 1 64 ++ seqZ 256 261888 ++ [])). rewrite app_nil_r. apply NoDup_app. split; [apply NoDup_seqZ |].
  split; [| apply NoDup_seqZ]. intros x Hx%elem_of_seqZ Hx'%elem_of_seqZ. lia.
Qed.
Lemma bump_describes : map_describes bump_map.
Proof.
  intros fw ty g _ [-> Hg]. exists (mkDesc LOADER_DATA 0x100000 261888). split; [right; left |]. split; [done |]. split; [done |]. cbn. lia.
Qed.

Lemma bump_map_ok (fw : Z) : Forall desc_ok (bump_map fw).
Proof. unfold bump_map, desc_ok, u64_ok. repeat (constructor; [cbn; lia |]). constructor. Qed.

Lemma bump_past_bitmap f : 0x100000 <= f -> ~ (0x1000 / PAGE_SIZE <= f / PAGE_SIZE < 0x1000 / PAGE_SIZE + bitmap_pages (div_ceil 0x40000000 PAGE_SIZE)).
Proof.
  intros Hf. change (bitmap_pages (div_ceil 0x40000000 PAGE_SIZE)) with 8. change (0x1000 / PAGE_SIZE) with 1. unfold PAGE_SIZE.
  assert (0x100000 / 4096 <= f / 4096) as H by (apply Z.div_le_mono; lia). change (0x100000 / 4096) with 256 in H. lia.
Qed.

Lemma loader_frames_reclaimed_witness : exists h s', efi_main demo_fb 0x1000 0xFFFFFFFF80000000 demo_phs [] bump_map demo_loader = Ret (h, s') /\
  exists st n st1 st2, init bump_regions = Ret st /\ allocs n st = Ret st1 /\ alloc_frame st1 = Ret (Some (ho_cr3 h), st2).
Proof.
  destruct (handoff_map 9000 demo_loader demo_fb 0x1000 0xFFFFFFFF80000000 demo_phs [] bump_map) as (h0 & s0 & E0 & Hmap);
    [apply bump_serves; [cbn; lia | done | cbn; lia] | vm_compute; congruence | apply demo_low | apply demo_screen_ok | unfold screen_fields, u32_ok; cbn; lia | apply demo_image_ok | apply demo_source |
     apply Forall_nil_2 | apply bump_map_ok |].
  destruct (loader_frames_reclaimed 9000 demo_loader demo_fb 0x1000 0xFFFFFFFF80000000 demo_phs [] bump_map 0x40000000 0x1000) as (h & s' & E & Hall);
    [apply bump_serves; [cbn; lia | done | cbn; lia] | vm_compute; congruence | apply demo_low | apply demo_screen_ok | unfold screen_fields, u32_ok; cbn; lia | apply demo_image_ok | apply demo_source |
     apply Forall_nil_2 | apply bump_map_ok | apply bump_describes | intros fw; vm_compute; congruence |].
  rewrite E0 in E. injection E as <- <-. exists h0, s0. split; [exact E0 |].
  destruct (Hall (ho_cr3 h0)) as [Hh Hfree]; [apply (on_table _ _ _ []); [apply Nat.le_0_l | constructor | reflexivity] |].
  pose proof (proj2 Hh) as Hheld.
  rewrite Hmap in Hfree. apply Hfree; [exact bump_regions_ok | reflexivity | lia | reflexivity | lia |].
  apply bump_past_bitmap. exact (proj1 Hheld).
Defined.
