(* ===== verification/Files.v ===== *)
(** * The files of the system

    [Arc<dyn Inode>] and [Arc<dyn Filesystem>]: an inode of the RAM file system,
    of PondFS or of the terminal, over the states of the three. *)

From S2P Require Import Prelude PortIo Ps2 Terminal Inode Vfs RamFs Block PondLayout PondFs.

Inductive Node : Type :=
  | RamNode (a : Z)
  | PondNode (a : Z)
  | TermNode (t : Terminal).
Inductive MountedFs : Type :=
  | RamMount (fs : RamFs)
  | PondMount (root : Z).
#[global] Instance mounted_filesystem : Filesystem MountedFs Node := {|
  root fs := match fs with RamMount fs => RamNode (ram_root fs) | PondMount r => PondNode r end
|}.

(** [f_pond] is the mounted PondFS, when there is one. *)
Record Files (W D : Type) : Type := mkFiles { f_ram : RamHeap; f_pond : option (Pond D); f_term : Ps2 W }.
Arguments mkFiles {W D} _ _ _.
Arguments f_ram {W D} _.
Arguments f_pond {W D} _.
Arguments f_term {W D} _.

Section Files.
  Context {W D : Type} {PIO : PortIO W} {BD : BlockDevice D} {PD : Padding}.
  Variables (polls turns : nat).

Definition FM (X : Type) : Type := ST (Files W D) X.
Definition on_ram {X} (c : ST RamHeap X) : FM X := fun f =>
  let! (x, h) := c (f_ram f) in Ret (x, mkFiles h (f_pond f) (f_term f)).
(** There are inodes of PondFS only while it is mounted. *)
Definition on_pond {X} (c : ST (Pond D) X) : FM X := fun f =>
  match f_pond f with
  | None => Panic
  | Some p => let! (x, p) := c p in Ret (x, mkFiles (f_ram f) (Some p) (f_term f))
  end.
Definition on_term {X} (c : ST (Ps2 W) X) : FM X := fun f =>
  let! (x, t) := c (f_term f) in Ret (x, mkFiles (f_ram f) (f_pond f) t).

(** [Arc::clone(..) as Arc<dyn Inode>]. *)
Definition wrap_node {X E} (k : X -> Node) (c : FM (result X E)) : FM (result Node E) :=
  let* r := c in st_ret (match r with Ok a => Ok (k a) | Err e => Err e end).

#[local] Existing Instance pond_inode.

Definition files_inode : Inode (Files W D) Node := {|
  i_kind n := match n with
    | RamNode a => on_ram (i_kind a) | PondNode a => on_pond (i_kind a)
    | TermNode t => on_term (i_kind (Inode := terminal_inode polls turns) t) end;
  i_size n := match n with
    | RamNode a => on_ram (i_size a) | PondNode a => on_pond (i_size a)
    | TermNode t => on_term (i_size (Inode := terminal_inode polls turns) t) end;
  i_read_at n off len := match n with
    | RamNode a => on_ram (i_read_at a off len) | PondNode a => on_pond (i_read_at a off len)
    | TermNode t => on_term (i_read_at (Inode := terminal_inode polls turns) t off len) end;
  i_write_at n off buf := match n with
    | RamNode a => on_ram (i_write_at a off buf) | PondNode a => on_pond (i_write_at a off buf)
    | TermNode t => on_term (i_write_at (Inode := terminal_inode polls turns) t off buf) end;
  i_lookup n name := match n with
    | RamNode a => wrap_node RamNode (on_ram (i_lookup a name))
    | PondNode a => wrap_node PondNode (on_pond (i_lookup a name))
    | TermNode t => wrap_node TermNode (on_term (i_lookup (Inode := terminal_inode polls turns) t name)) end;
  i_readdir n := match n with
    | RamNode a => on_ram (i_readdir a) | PondNode a => on_pond (i_readdir a)
    | TermNode t => on_term (i_readdir (Inode := terminal_inode polls turns) t) end;
  i_create n name kind := match n with
    | RamNode a => wrap_node RamNode (on_ram (i_create a name kind))
    | PondNode a => wrap_node PondNode (on_pond (i_create a name kind))
    | TermNode t => wrap_node TermNode (on_term (i_create (Inode := terminal_inode polls turns) t name kind)) end;
  i_unlink n name := match n with
    | RamNode a => on_ram (i_unlink a name) | PondNode a => on_pond (i_unlink a name)
    | TermNode t => on_term (i_unlink (Inode := terminal_inode polls turns) t name) end
|}.
End Files.
