(* ===== verification/System.v ===== *)
(** * The system

    The state all system calls work on: the kernel of [Kernel.v], the files,
    the mount table, the open files and the descriptor tables, the display,
    the kernel heap and the remaining devices; and the creation of tasks
    ([sched/task.rs], [user/mod.rs]). *)

From S2P Require Import Prelude Bytes Utf8 Frames BootInfo X86 Vmm Asm Sched Kernel Ipc PortIo Ps2 Terminal.
From S2P Require Import Inode Vfs RamFs Block PondLayout PondFs Files Font Framebuffer Elf Machine Pci Dhcp E1000 Ac97.

(** ** Parameters *)

(** The global allocator (the crate [linked_list_allocator]), on the block
    [heap::init] reserves: where the next block of a size is, by its physical
    address.  An allocation that fails panics. *)
Class KernelHeap (H : Type) : Type := { heap_alloc : Z -> H -> option (Z * H) }.

(** The network and the audio driver ([E1000.v], [Ac97.v]). *)
Class NetDriver (V : Type) : Type := { net_configure : ST V NetInfo; net_info : ST V NetInfo }.
Class AudioDriver (V : Type) : Type := { audio_play_tone : Z -> Z -> ST V AudioInfo; audio_info : ST V AudioInfo }.
Definition e1000_driver {A W} `{Mmio W} : NetDriver (NetState A W) := {| net_configure := configure; net_info := last_info |}.
Definition ac97_driver {A W} `{PortIO W} : AudioDriver (AudioState A W) := {| audio_play_tone := play_tone; audio_info := audio_last_info |}.

(** The selectors of the GDT and the address of [enter_user]. *)
Class Image : Type := { user_code_sel : Z; user_data_sel : Z; enter_user_addr : Z }.

(** ** State *)

(** [sy_open] holds the [Arc<OpenFile>]s, named by addresses that are not
    reused; [sy_waiters] the tasks parked inside [sys_waitpid] with its
    arguments. *)
Record System (A W D H V : Type) : Type := mkSystem {
  sy_kernel : Kernel A;
  sy_files : Files W D;
  MOUNTS : MountTable MountedFs;
  sy_open : gmap Z (OpenFile Node);
  sy_next_open : Z;
  sy_fds : gmap Z FdTable;
  sy_screen : Screen;
  sy_heap : H;
  sy_dev : V;
  sy_waiters : gmap Z (Z * Z)
}.
Arguments mkSystem {A W D H V} _ _ _ _ _ _ _ _ _ _.
Arguments sy_kernel {A W D H V} _.
Arguments sy_files {A W D H V} _.
Arguments MOUNTS {A W D H V} _.
Arguments sy_open {A W D H V} _.
Arguments sy_next_open {A W D H V} _.
Arguments sy_fds {A W D H V} _.
Arguments sy_screen {A W D H V} _.
Arguments sy_heap {A W D H V} _.
Arguments sy_dev {A W D H V} _.
Arguments sy_waiters {A W D H V} _.

Inductive SpawnError : Type := SpFs | SpAddressSpace | SpElf | SpStack.
Definition USER_STACK_TOP : Z := 0x7FFFF000.
Definition USER_STACK_PAGES : Z := 4.

Section System.
  Context {A W D H V : Type}.
  Context {FA : FrameAllocator A} {PE : PageTableEntry} {KMm : KernelMemory A} {PIO : PortIO W}.
  Context {BD : BlockDevice D} {PD : Padding} {EP : ElfParser} {KH : KernelHeap H} {IM : Image}.
  (** Polls of a device and keys of a line, as in [Terminal.v]. *)
  Variables (polls turns : nat).
  Implicit Types y : System A W D H V.

Definition SM (X : Type) : Type := ST (System A W D H V) X.

Definition with_kernel y (k : Kernel A) : System A W D H V :=
  mkSystem k (sy_files y) (MOUNTS y) (sy_open y) (sy_next_open y) (sy_fds y) (sy_screen y) (sy_heap y) (sy_dev y) (sy_waiters y).
Definition with_files y (f : Files W D) : System A W D H V :=
  mkSystem (sy_kernel y) f (MOUNTS y) (sy_open y) (sy_next_open y) (sy_fds y) (sy_screen y) (sy_heap y) (sy_dev y) (sy_waiters y).
Definition with_open y (o : gmap Z (OpenFile Node)) (next : Z) : System A W D H V :=
  mkSystem (sy_kernel y) (sy_files y) (MOUNTS y) o next (sy_fds y) (sy_screen y) (sy_heap y) (sy_dev y) (sy_waiters y).
Definition with_fds y (t : gmap Z FdTable) : System A W D H V :=
  mkSystem (sy_kernel y) (sy_files y) (MOUNTS y) (sy_open y) (sy_next_open y) t (sy_screen y) (sy_heap y) (sy_dev y) (sy_waiters y).
Definition with_screen y (s : Screen) : System A W D H V :=
  mkSystem (sy_kernel y) (sy_files y) (MOUNTS y) (sy_open y) (sy_next_open y) (sy_fds y) s (sy_heap y) (sy_dev y) (sy_waiters y).
Definition with_heap y (h : H) : System A W D H V :=
  mkSystem (sy_kernel y) (sy_files y) (MOUNTS y) (sy_open y) (sy_next_open y) (sy_fds y) (sy_screen y) h (sy_dev y) (sy_waiters y).
Definition with_dev y (v : V) : System A W D H V :=
  mkSystem (sy_kernel y) (sy_files y) (MOUNTS y) (sy_open y) (sy_next_open y) (sy_fds y) (sy_screen y) (sy_heap y) v (sy_waiters y).
Definition with_waiters y (w : gmap Z (Z * Z)) : System A W D H V :=
  mkSystem (sy_kernel y) (sy_files y) (MOUNTS y) (sy_open y) (sy_next_open y) (sy_fds y) (sy_screen y) (sy_heap y) (sy_dev y) w.

Definition on_kernel {X} (c : KM (A := A) X) : SM X := fun y =>
  let! (x, k) := c (sy_kernel y) in Ret (x, with_kernel y k).
Definition on_files {X} (c : FM (W := W) (D := D) X) : SM X := fun y =>
  let! (x, f) := c (sy_files y) in Ret (x, with_files y f).
Definition on_screen_of {X} (c : ST Screen X) : SM X := fun y =>
  let! (x, s) := c (sy_screen y) in Ret (x, with_screen y s).
Definition on_dev {X} (c : ST V X) : SM X := fun y =>
  let! (x, v) := c (sy_dev y) in Ret (x, with_dev y v).
Definition on_sched {X} (f : Sched -> X * Sched) : SM X := fun y =>
  let '(x, s) := f (k_sched (sy_kernel y)) in Ret (x, with_kernel y (with_sched (sy_kernel y) s)).
Definition get_sched : SM Sched := fun y => Ret (k_sched (sy_kernel y), y).

#[local] Instance node_inode : Inode (Files W D) Node := files_inode polls turns.

(** ** Open files *)

(** [OpenFile::new]. *)
Definition new_open (n : Node) (flags : Z) : SM Z := fun y =>
  let a := sy_next_open y in
  Ret (a, with_open y (<[a := open_file_new n flags]> (sy_open y)) (a + 1)).
Definition fd_table y (task : Z) : FdTable := default fd_table_new (sy_fds y !! task).
(** [task.fds().lock().get(fd)], and the file behind the [Arc]. *)
Definition get_file (task fd : Z) : SM (option (Z * OpenFile Node)) := fun y =>
  Ret (match fd_get (fd_table y task) fd with
       | Some a => (fun f => (a, f)) <$> sy_open y !! a
       | None => None
       end, y).
Definition set_offset (a off : Z) : SM unit := st_modify (fun y =>
  with_open y (alter (fun f => mkOpenFile (inode f) off (flags f)) a (sy_open y)) (sy_next_open y)).

(** ** Paths *)

Definition vfs_lookup (path : Str) : SM (result Node FsError) := fun y => on_files (Vfs.lookup (MOUNTS y) path) y.

(** ** New tasks *)

(** [new_kstack]. *)
Definition new_kstack : SM Z := fun y =>
  match heap_alloc KSTACK_SIZE (sy_heap y) with
  | None => Panic
  | Some (p, h) => Ret (p, with_heap y h)
  end.

Definition set_fd_table (task : Z) (t : FdTable) : SM unit := st_modify (fun y => with_fds y (<[task := t]> (sy_fds y))).
(** The descriptors 0, 1 and 2; the last two share an open file. *)
Definition std_fds : SM FdTable :=
  let* stdin := new_open (TermNode TtyStdin) FD_READ in
  let* stdout := new_open (TermNode SerialStdout) FD_WRITE in
  let* t := st_lift (fd_install_at fd_table_new 0 stdin) in
  let* t := st_lift (fd_install_at t 1 stdout) in
  st_lift (fd_install_at t 2 stdout).

(** [spawn_user]: the stack with the frame for the first switch, descriptors,
    capabilities, and the task object. *)
Definition spawn_user (address_space entry_user stack_user : Z) (initial_caps : list Cap) (parent_pid : Z) : SM Z :=
  let* kstack := new_kstack in
  let* rsp := on_kernel (on_vmm (fun v =>
    let m := fill (vm_mem v) kstack KSTACK_SIZE 0 in
    let '(sp, m) := user_stack m kstack user_code_sel user_data_sel entry_user stack_user enter_user_addr in
    Ret (sp, mkVmm m (vm_frames v) (KERNEL_AS v) (MMIO_NEXT v) (CR3 v)))) in
  let* fds := std_fds in
  let* id := on_sched (fun s => new_task s parent_pid (Some address_space)
                                  (kstack + HHDM_OFFSET + KSTACK_SIZE) (rsp + HHDM_OFFSET)) in
  let* _ := set_fd_table id fds in
  let* _ := on_kernel (new_caps id initial_caps) in
  st_ret id.

(** A fresh address space with the program and its stack. *)
Definition load_program (bytes : list Z) : VM (A := A) (result (Z * Z) SpawnError) :=
  let* r := new_user in
  match r with
  | None => st_ret (Err SpAddressSpace)
  | Some sp =>
      let? entry := map_err SpElf (elf_load bytes sp) in
      let stack_base := USER_STACK_TOP - USER_STACK_PAGES * PAGE_SIZE in
      let? _ := map_err SpStack (map_anon sp stack_base USER_STACK_PAGES (Z.lor (Z.lor MF_WRITE MF_USER) MF_NX)) in
      st_ret (Ok (sp, entry))
  end.

(** [vec![0; size]], which panics past [isize::MAX] bytes, filled by [read_at]
    and truncated to what was read. *)
Definition read_whole (n : Node) : SM (result (list Z) SpawnError) :=
  let* size := on_files (i_size n) in
  if 2 ^ 63 <=? size then st_lift Panic
  else
    let* (r, data) := on_files (i_read_at n 0 size) in
    match r with
    | Err _ => st_ret (Err SpFs)
    | Ok k => st_ret (Ok (take (Z.to_nat k) (data ++ replicate (Z.to_nat size - length data) 0)))
    end.

Definition spawn_from_path (path : Str) (initial_caps : list Cap) (parent_pid : Z) : SM (result Z SpawnError) :=
  let* r := vfs_lookup path in
  match r with
  | Err _ => st_ret (Err SpFs)
  | Ok inode =>
      let? bytes := read_whole inode in
      let? (sp, entry) := on_kernel (on_vmm (load_program bytes)) in
      let* id := spawn_user sp entry USER_STACK_TOP initial_caps parent_pid in
      st_ret (Ok id)
  end.

(** "/init". *)
Definition INIT_PATH : Str := [0x2F; 0x69; 0x6E; 0x69; 0x74].
Definition spawn_init : SM Z :=
  let* r := spawn_from_path INIT_PATH [registrar] 0 in
  match r with Ok id => st_ret id | Err _ => st_lift Panic end.

(** [seed_init_into_vfs] with the bytes of the embedded ELF. *)
Definition seed_init_into_vfs (init_elf : list Z) : SM unit :=
  let* r := vfs_lookup [SLASH] in
  match r with
  | Err _ => st_lift Panic
  | Ok root =>
      let* l := on_files (i_lookup root (drop 1 INIT_PATH)) in
      match l with
      | Ok _ => st_ret tt
      | Err _ =>
          let* f := on_files (expect (i_create root (drop 1 INIT_PATH) File)) in
          let* _ := on_files (expect (i_write_at f 0 init_elf)) in
          st_ret tt
      end
  end.
End System.
Arguments SM A W D H V X : clear implicits.
