(* ===== verification/Syscall.v ===== *)
(** * System calls

    The handlers and the dispatcher of [kernel/src/syscall.rs].  The handlers of
    [ipc/syscalls.rs] are in [Ipc.v].  A user buffer is read when the inode it
    goes to is called, and written when the inode has returned. *)

From S2P Require Import Prelude Bytes Utf8 Frames X86 Vmm Asm Sched Kernel Ipc PortIo Ps2.
From S2P Require Import Inode Vfs RamFs Block PondLayout PondFs Files Framebuffer Elf E1000 Ac97 System.

Definition SYS_WRITE : Z := 0.
Definition SYS_EXIT : Z := 1.
Definition SYS_YIELD : Z := 2.
Definition SYS_GETPID : Z := 3.
Definition SYS_OPEN : Z := 4.
Definition SYS_READ : Z := 5.
Definition SYS_CLOSE : Z := 6.
Definition SYS_LSEEK : Z := 7.
Definition SYS_FSTAT : Z := 8.
Definition SYS_IPC_PORT_CREATE : Z := 9.
Definition SYS_IPC_SEND : Z := 10.
Definition SYS_IPC_RECV : Z := 11.
Definition SYS_IPC_CAP_DROP : Z := 12.
Definition SYS_IPC_CAP_DUP : Z := 13.
Definition SYS_IPC_NAME : Z := 14.
Definition SYS_SPAWN : Z := 15.
Definition SYS_WAITPID : Z := 16.
Definition SYS_KILL : Z := 17.
Definition SYS_DISPLAY_INFO : Z := 18.
Definition SYS_DISPLAY_CLEAR : Z := 19.
Definition SYS_DISPLAY_FILL_RECT : Z := 20.
Definition SYS_DISPLAY_DRAW_TEXT : Z := 21.
Definition SYS_INPUT_POLL_BYTE : Z := 22.
Definition SYS_NET_CONFIGURE : Z := 23.
Definition SYS_NET_INFO : Z := 24.
Definition SYS_AUDIO_PLAY_TONE : Z := 25.
Definition SYS_AUDIO_INFO : Z := 26.

Definition SEEK_SET : Z := 0.
Definition SEEK_CUR : Z := 1.
Definition SEEK_END : Z := 2.
Definition WNOHANG : Z := Z.shiftl 1 0.
Definition MAX_IO : Z := 4096.
Definition MAX_PATH : Z := 256.

(** [e as i64] by the order of the variants. *)
Definition fs_error_index (e : FsError) : Z :=
  match e with
  | NotFound => 0 | NotDir => 1 | NotFile => 2 | Exists_ => 3 | InvalidPath => 4
  | IsDir => 5 | Io => 6 | NoSpace => 7 | BadFd => 8 | Unsupported => 9
  end.
Definition fs_err_to_code (e : FsError) : Z := - (fs_error_index e + 1).

(** What became of a call: it returned (the value reaches the program when its
    task runs again), its task sleeps inside it, or the task is gone. *)
Inductive CallResult : Type :=
  | Returned (v : Z)
  | Asleep
  | Exited.

(** The bytes of the structures that are copied out. *)
Definition u32s (l : list Z) : list Z := l ≫= le_bytes 4.
Definition display_info_bytes (i : DisplayInfo) : list Z :=
  u32s [di_width i; di_height i; di_pitch i; di_bits_per_pixel i; di_pixel_format i].
Definition net_info_bytes (i : NetInfo) : list Z :=
  u32s [ni_present i; ni_link_up i; ni_configured i; ni_tx_packets i; ni_rx_packets i]
  ++ ni_mac i ++ [0; 0] ++ ni_ipv4 i ++ ni_router i ++ ni_dns i.
Definition audio_info_bytes (i : AudioInfo) : list Z :=
  u32s [ai_present i; ai_played i; ai_sample_rate i; ai_frames i].
Definition kind_word (k : InodeKind) : Z := match k with File => 0 | Dir => 1 end.

Section Syscalls.
  Context {A W D H V : Type}.
  Context {FA : FrameAllocator A} {PE : PageTableEntry} {KMm : KernelMemory A} {PIO : PortIO W}.
  Context {BD : BlockDevice D} {PD : Padding} {EP : ElfParser} {KH : KernelHeap H} {IM : Image}.
  Context {ND : NetDriver V} {AD : AudioDriver V}.
  Variables (polls turns : nat).

Abbreviation M X := (SM A W D H V X).
#[local] Instance call_inode : Inode (Files W D) Node := files_inode polls turns.

Definition load_user (va n : Z) : M (list Z) := on_kernel (load_bytes va (Z.to_nat n)).
Definition store_user (va : Z) (l : list Z) : M unit := on_kernel (store_bytes va l).
Definition current_task : M (option Z) := let* s := get_sched in st_ret (CURRENT s).

(** ** Files *)

(** The beginning most handlers share: the current task and its open file. *)
Definition with_file (fd : Z) (body : Z -> OpenFile Node -> M Z) : M Z :=
  let* t := current_task in
  match t with
  | None => st_ret (-1)
  | Some task =>
      let* f := get_file task fd in
      match f with
      | None => st_ret (fs_err_to_code BadFd)
      | Some (a, f) => body a f
      end
  end.

Definition sys_write (fd buf len : Z) : M Z :=
  if (MAX_IO <? len) || (buf =? 0) then st_ret (-1)
  else with_file fd (fun a f =>
    let* bytes := load_user buf len in
    let* r := on_files (i_write_at (inode f) (offset f) bytes) in
    match r with
    | Ok n => let* _ := set_offset a (wrap 64 (offset f + n)) in st_ret n
    | Err e => st_ret (fs_err_to_code e)
    end).

Definition sys_read (fd buf len : Z) : M Z :=
  if (MAX_IO <? len) || (buf =? 0) then st_ret (-1)
  else with_file fd (fun a f =>
    let* (r, data) := on_files (i_read_at (inode f) (offset f) len) in
    let* _ := store_user buf data in
    match r with
    | Ok n => let* _ := set_offset a (wrap 64 (offset f + n)) in st_ret n
    | Err e => st_ret (fs_err_to_code e)
    end).

(** [fs::lookup], or with [FD_CREATE] a new file. *)
Definition open_or_create (path : Str) (flags : Z) : M (result Node Z) :=
  let* r := vfs_lookup polls turns path in
  match r with
  | Ok n => st_ret (Ok n)
  | Err e =>
      if negb (Z.land flags FD_CREATE =? 0) && bool_decide (e = NotFound) then
        match split_parent path with
        | None => st_ret (Err (fs_err_to_code InvalidPath))
        | Some (parent, name) =>
            let* p := vfs_lookup polls turns parent in
            match p with
            | Err e => st_ret (Err (fs_err_to_code e))
            | Ok pdir =>
                let* c := on_files (i_create pdir name File) in
                st_ret (match c with Ok n => Ok n | Err e => Err (fs_err_to_code e) end)
            end
        end
      else st_ret (Err (fs_err_to_code e))
  end.

Definition sys_open (path_ptr path_len flags : Z) : M Z :=
  if (path_len =? 0) || (MAX_PATH <? path_len) || (path_ptr =? 0) then st_ret (-1)
  else
    let* path := load_user path_ptr path_len in
    if negb (utf8_valid path) then st_ret (fs_err_to_code InvalidPath)
    else
      let* r := open_or_create path flags in
      match r with
      | Err code => st_ret code
      | Ok n =>
          let* open := new_open n flags in
          let* t := current_task in
          match t with
          | None => st_ret (-1)
          | Some task => fun y =>
              let! (fd, tbl) := fd_install (fd_table y task) open in
              let! (_, y) := set_fd_table task tbl y in
              Ret (fd, y)
          end
      end.

Definition sys_close (fd : Z) : M Z :=
  let* t := current_task in
  match t with
  | None => st_ret (-1)
  | Some task => fun y =>
      let '(was, tbl) := fd_close (fd_table y task) fd in
      let! (_, y) := set_fd_table task tbl y in
      Ret (if was then 0 else fs_err_to_code BadFd, y)
  end.

(** [(base as i64 + off).max(0) as u64]. *)
Definition seek_to (base off : Z) : outcome Z := let! s := ichecked 64 (signed 64 base + off) in Ret (Z.max s 0).
Definition sys_lseek (fd off whence : Z) : M Z :=
  with_file fd (fun a f =>
    let store new_off := let* _ := set_offset a new_off in st_ret (signed 64 new_off) in
    if whence =? SEEK_SET then store (Z.max off 0)
    else if whence =? SEEK_CUR then let* n := st_lift (seek_to (offset f) off) in store n
    else if whence =? SEEK_END then
      let* size := on_files (i_size (inode f)) in
      let* n := st_lift (seek_to size off) in store n
    else st_ret (-1)).

Definition sys_fstat (fd buf : Z) : M Z :=
  if buf =? 0 then st_ret (-1)
  else with_file fd (fun a f =>
    let* size := on_files (i_size (inode f)) in
    let* kind := on_files (i_kind (inode f)) in
    let* _ := store_user buf (le_bytes 8 size) in
    let* _ := store_user (wrap 64 (buf + 8)) (le_bytes 4 (kind_word kind)) in
    let* _ := store_user (wrap 64 (buf + 12)) (le_bytes 4 0) in
    st_ret 0).

(** ** Tasks *)

Definition sys_spawn (path_ptr path_len : Z) : M Z :=
  if (path_len =? 0) || (MAX_PATH <? path_len) || (path_ptr =? 0) then st_ret (-1)
  else
    let* path := load_user path_ptr path_len in
    if negb (utf8_valid path) then st_ret (-1)
    else
      let* t := current_task in
      match t with
      | None => st_ret (-1)
      | Some parent =>
          let* r := spawn_from_path polls turns path [] parent in
          match r with
          | Err _ => st_ret (-1)
          | Ok child =>
              let* _ := on_sched (fun s => (tt, register s child)) in
              let* _ := on_sched (fun s => (tt, enqueue s child)) in
              st_ret child
          end
      end.

(** One turn of the loop of [sys_waitpid]. *)
Definition waitpid_turn (parent pid status_ptr flags : Z) : M CallResult :=
  let* s := get_sched in
  match find_exited_child s parent pid with
  | Some (exited_pid, code) =>
      let* _ := (if status_ptr =? 0 then st_ret tt else on_kernel (store_i32 status_ptr code)) in
      st_ret (Returned exited_pid)
  | None =>
      if negb (Z.land flags WNOHANG =? 0) then st_ret (Returned 0)
      else
        let* _ := st_modify (fun y => with_waiters y (<[parent := (pid, status_ptr)]> (sy_waiters y))) in
        let* _ := on_sched (fun s => block_on s (wait_key parent)) in
        st_ret Asleep
  end.
Definition sys_waitpid (pid status_ptr flags : Z) : M CallResult :=
  let* t := current_task in
  match t with
  | None => st_ret (Returned (-1))
  | Some parent =>
      let* s := get_sched in
      if negb (has_child s parent pid) then st_ret (Returned (-1))
      else waitpid_turn parent pid status_ptr flags
  end.
(** A parent that was woken goes around its loop when it runs again; only a
    call without [WNOHANG] sleeps. *)
Definition waitpid_resume : M CallResult :=
  let* t := current_task in
  match t with
  | None => st_lift Panic
  | Some parent => fun y =>
      match sy_waiters y !! parent with
      | None => Panic
      | Some (pid, status_ptr) => waitpid_turn parent pid status_ptr 0 (with_waiters y (delete parent (sy_waiters y)))
      end
  end.

Definition sys_kill (pid code : Z) : M CallResult :=
  let* t := current_task in
  match t with
  | None => st_ret (Returned (-1))
  | Some caller =>
      if pid =? caller then let* _ := on_sched (fun s => current_exit s code) in st_ret Exited
      else
        let* s := get_sched in
        if negb ((caller =? 2) || is_child s caller pid) then st_ret (Returned (-1))
        else
          let* ok := on_sched (fun s => Sched.kill s pid code) in
          st_ret (Returned (if ok then 0 else -1))
  end.

(** ** Display, network and audio *)

Definition copy_out (ptr : Z) (c : M (list Z)) : M Z :=
  if ptr =? 0 then st_ret (-1)
  else let* bytes := c in let* _ := store_user ptr bytes in st_ret 0.

Definition sys_display_info (info_ptr : Z) : M Z :=
  if info_ptr =? 0 then st_ret (-1)
  else
    let* i := on_screen_of display_info in
    match i with
    | None => st_ret (-1)
    | Some i => let* _ := store_user info_ptr (display_info_bytes i) in st_ret 0
    end.
Definition sys_display_draw_text (x y buf len color : Z) : M Z :=
  if (MAX_IO <? len) || (buf =? 0) then st_ret (-1)
  else let* bytes := load_user buf len in on_screen_of (draw_text x y bytes color).
Definition sys_net_configure (info_ptr : Z) : M Z :=
  copy_out info_ptr (let* i := on_dev net_configure in st_ret (net_info_bytes i)).
Definition sys_net_info (info_ptr : Z) : M Z :=
  copy_out info_ptr (let* i := on_dev net_info in st_ret (net_info_bytes i)).
Definition sys_audio_play_tone (freq_hz duration_ms info_ptr : Z) : M Z :=
  copy_out info_ptr (let* i := on_dev (audio_play_tone freq_hz duration_ms) in st_ret (audio_info_bytes i)).
Definition sys_audio_info (info_ptr : Z) : M Z :=
  copy_out info_ptr (let* i := on_dev audio_info in st_ret (audio_info_bytes i)).

(** ** The dispatcher *)

Definition i32 (a : Z) : Z := signed 32 a.
Definition u32 (a : Z) : Z := wrap 32 a.
(** [.. as u64] of an [i64]. *)
Definition done (c : M Z) : M CallResult := let* v := c in st_ret (Returned (wrap 64 v)).
Definition done_or_asleep (c : M CallResult) : M CallResult :=
  let* r := c in st_ret (match r with Returned v => Returned (wrap 64 v) | r => r end).

Definition dispatch (a0 a1 a2 a3 a4 num : Z) : M CallResult :=
  if num =? SYS_WRITE then done (sys_write (i32 a0) a1 a2)
  else if num =? SYS_EXIT then let* _ := on_sched (fun s => current_exit s (i32 a0)) in st_ret Exited
  else if num =? SYS_YIELD then let* _ := on_sched yield_now in st_ret (Returned 0)
  else if num =? SYS_GETPID then let* t := current_task in st_ret (Returned (default 0 t))
  else if num =? SYS_OPEN then done (sys_open a0 a1 (u32 a2))
  else if num =? SYS_READ then done (sys_read (i32 a0) a1 a2)
  else if num =? SYS_CLOSE then done (sys_close (i32 a0))
  else if num =? SYS_LSEEK then done (sys_lseek (i32 a0) (signed 64 a1) a2)
  else if num =? SYS_FSTAT then done (sys_fstat (i32 a0) a1)
  else if num =? SYS_IPC_PORT_CREATE then done (on_kernel sys_port_create)
  else if num =? SYS_IPC_SEND then done (on_kernel (sys_send (i32 a0) a1))
  else if num =? SYS_IPC_RECV then
    done_or_asleep (let* r := on_kernel (sys_recv (i32 a0) a1) in
                    st_ret (match r with Done v => Returned v | Parked => Asleep end))
  else if num =? SYS_IPC_CAP_DROP then done (on_kernel (sys_cap_drop (i32 a0)))
  else if num =? SYS_IPC_CAP_DUP then done (on_kernel (sys_cap_dup (i32 a0) (u32 a1)))
  else if num =? SYS_IPC_NAME then done (on_kernel (sys_name (u32 a0) a1 a2 (i32 a3)))
  else if num =? SYS_SPAWN then done (sys_spawn a0 a1)
  else if num =? SYS_WAITPID then done_or_asleep (sys_waitpid a0 a1 a2)
  else if num =? SYS_KILL then done_or_asleep (sys_kill a0 (i32 a1))
  else if num =? SYS_DISPLAY_INFO then done (sys_display_info a0)
  else if num =? SYS_DISPLAY_CLEAR then done (on_screen_of (Framebuffer.clear (u32 a0)))
  else if num =? SYS_DISPLAY_FILL_RECT then
    done (on_screen_of (fill_rect (u32 a0) (u32 a1) (u32 a2) (u32 a3) (u32 a4)))
  else if num =? SYS_DISPLAY_DRAW_TEXT then done (sys_display_draw_text (u32 a0) (u32 a1) a2 a3 (u32 a4))
  else if num =? SYS_INPUT_POLL_BYTE then
    let* b := on_files (on_term poll_event_byte) in st_ret (Returned (default 0 b))
  else if num =? SYS_NET_CONFIGURE then done (sys_net_configure a0)
  else if num =? SYS_NET_INFO then done (sys_net_info a0)
  else if num =? SYS_AUDIO_PLAY_TONE then done (sys_audio_play_tone (u32 a0) (u32 a1) a2)
  else if num =? SYS_AUDIO_INFO then done (sys_audio_info a0)
  else st_ret (Returned (wrap 64 (-1))).
End Syscalls.
