(* ===== verification/SpawnProps.v ===== *)
(** * Starting a program

    What [spawn_from_path] leaves in the address space of the new task. *)

From S2P Require Import Prelude Bytes Frames Pmm X86 Vmm VmmInv VmmProps VmmRanges VmmCopy VmmSpec Elf System.

#[local] Arguments child_of _ _ : simpl never.

Definition STACK_BASE : Z := USER_STACK_TOP - USER_STACK_PAGES * PAGE_SIZE.
Definition on_stack (va : Z) : Prop := STACK_BASE <= va < USER_STACK_TOP.

(** Two segments share a page. *)
Definition segments_overlap (segs : list Segment) : Prop :=
  exists i j p p' va, (j < i)%nat /\ segs !! i = Some p /\ segs !! j = Some p' /\ in_pages p va /\ in_pages p' va.

Section Spawn.
  Context {A : Type} {FA : FrameAllocator A} {PE : PageTableEntry} {PL : PageTableEntryLaws} {EP : ElfParser}.
  Context (managed : Z -> Z -> bool).

Abbreviation pt_inv s owner := (VmmInv.pt_inv s owner managed).
Abbreviation user_space := (VmmRanges.user_space managed).
Abbreviation preserves := (Elf.preserves managed).

(** What [load_program] promises, for an image that was parsed to [elf]. *)
Definition program_result (bytes : list Z) (elf : ElfFile) (s s' : Vmm A) (owner owner' : owner_map)
    (res : result (Z * Z) SpawnError) : Prop :=
  let segs := load_segments (program_headers elf) in
  match res with
  | Ok (sp, entry) => owner !! sp = None /\ user_space owner' sp /\ entry = entry_point elf /\
      Forall (seg_loaded s' sp bytes) segs /\ (forall va, on_stack va -> user_byte s' sp va = Some 0) /\
      forall va, 0 <= va < 2 ^ 47 -> ~ on_stack va -> Forall (fun p => ~ in_pages p va) segs -> user_byte s' sp va = None
  | Err SpAddressSpace => no_frame s
  | Err SpElf => Ph32 (Some Load) ∈ program_headers elf \/ no_frame s' \/ segments_overlap segs
  | Err SpStack => no_frame s' \/ exists p va, p ∈ segs /\ in_pages p va /\ on_stack va
  | Err SpFs => False
  end.

Lemma new_user_preserves (s s' : Vmm A) (owner owner' : owner_map) :
  pt_inv s owner -> pt_inv s' owner' -> owner ⊆ owner' ->
  (forall r va, space_ok managed owner r va -> phys_for_virt (vm_mem s') r va = phys_for_virt (vm_mem s) r va) ->
  (forall a o, owner !! frame_of a = Some o -> length o.2 = 4%nat -> vm_mem s' a = vm_mem s a) ->
  preserves (fun _ => True) s owner s' owner'.
Proof.
  intros Hi Hi' Hsub Htr Hdata. split; [done | intros r [Hr Hm]; split; [by eapply lookup_weaken | done] |].
  intros r va b _ Hu Hva Hb. destruct (user_space_ok managed owner r va Hu Hva) as [Hs Huv].
  unfold user_byte in *. rewrite Htr by done. destruct (phys_for_virt (vm_mem s) r va) as [p |] eqn:Ep; [| done].
  simpl in *. rewrite phys_for_virt_leaf, land_fff in Ep. destruct (leaf (vm_mem s) r va) as [e |] eqn:El; [| done].
  simpl in Ep. injection Ep as <-. pose proof (leaf_owner managed s owner r va e Hi Hs Huv El) as Ho.
  rewrite (Hdata _ (page_of r va)); [done | | by rewrite page_of_path].
  rewrite (frame_of_in (pte_addr e)); [done | by apply (inv_frame _ _ _ Hi _ _ Ho) |].
  pose proof (Z.mod_pos_bound va 4096 ltac:(lia)). unfold PAGE_SIZE. lia.
Qed.

(** The error of the loader in a space that was empty. *)
Lemma conflict_overlap (s : Vmm A) (r : Z) (segs : list Segment) :
  (forall va, 0 <= va < 2 ^ 47 -> leaf (vm_mem s) r va = None) -> page_conflict s r segs -> segments_overlap segs.
Proof.
  intros Hn (i & p & va & Hp & Hin & Hva & [Hs | (j & p' & Hj & Hp' & Hin')]).
  - rewrite Hn in Hs by done. by destruct Hs.
  - by exists i, j, p, p', va.
Qed.

(** The program is loaded into the empty address space [sp], and the stack
    after it. *)
Lemma load_into (s : Vmm A) (owner : owner_map) (sp : Z) (bytes : list Z) (elf : ElfFile) :
  pt_inv s owner -> user_space owner sp -> (forall va, 0 <= va < 2 ^ 47 -> leaf (vm_mem s) sp va = None) ->
  elf_new bytes = Ret (Some elf) -> Forall (seg_ok bytes) (load_segments (program_headers elf)) -> Forall byte_ok bytes ->
  let segs := load_segments (program_headers elf) in
  exists res s' owner', (let? entry := map_err SpElf (elf_load bytes sp) in
      let? _ := map_err SpStack (map_anon sp STACK_BASE USER_STACK_PAGES (Z.lor (Z.lor MF_WRITE MF_USER) MF_NX)) in
      st_ret (Ok (sp, entry))) s = Ret (res, s') /\
    preserves (fun r => r <> sp) s owner s' owner' /\
    match res with
    | Ok (sp', entry) => sp' = sp /\ user_space owner' sp /\ entry = entry_point elf /\
        Forall (seg_loaded s' sp bytes) segs /\ (forall va, on_stack va -> user_byte s' sp va = Some 0) /\
        forall va, 0 <= va < 2 ^ 47 -> ~ on_stack va -> Forall (fun p => ~ in_pages p va) segs -> user_byte s' sp va = None
    | Err SpElf => Ph32 (Some Load) ∈ program_headers elf \/ no_frame s' \/ segments_overlap segs
    | Err SpStack => no_frame s' \/ exists p va, p ∈ segs /\ in_pages p va /\ on_stack va
    | Err _ => False
    end.
Proof.
  intros Hi Hu Hempty He Hsegs Hb segs.
  destruct (elf_load_ok managed bytes elf s owner sp He Hsegs Hb Hi Hu) as (r1 & s1 & o1 & E1 & Hoth1 & R1).
  apply (map_err_run SpElf) in E1. destruct r1 as [entry | e]; [rewrite (st_try_Ok _ _ _ _ _ E1) | rewrite (st_try_Err _ _ _ _ _ E1)].
  2: { exists (Err SpElf), s1, o1. split; [done |]. split; [done |]. destruct e; [by left | right | done].
       destruct R1 as [| Hc]; [by left | right]. by eapply conflict_overlap. }
  destruct R1 as (-> & Hall1 & Hld & Hlv). pose proof (pv_space _ _ _ _ _ _ Hall1 sp Hu) as Hu1.
  destruct (map_anon_preserves managed s1 o1 sp STACK_BASE USER_STACK_PAGES (Z.lor (Z.lor MF_WRITE MF_USER) MF_NX))
    as (r2 & s2 & o2 & E2 & Hoth2 & R2 & Hlv2 & Hok2);
    [apply Hall1 | done | unfold user_range, STACK_BASE, USER_STACK_TOP, USER_STACK_PAGES, PAGE_SIZE; lia | reflexivity |].
  assert (forall va, on_stack va <-> STACK_BASE <= va < STACK_BASE + USER_STACK_PAGES * PAGE_SIZE) as Hst.
  { intros va. unfold on_stack, STACK_BASE. lia. }
  apply (map_err_run SpStack) in E2. destruct r2 as [[] | e]; [rewrite (st_try_Ok _ _ _ _ _ E2) | rewrite (st_try_Err _ _ _ _ _ E2)].
  2: { exists (Err SpStack), s2, o2. split; [done |]. split; [by eapply preserves_trans |].
       destruct e; simpl in R2; [by left | right | done | done]. destruct R2 as (i & Hix & Hsome).
       set (va := STACK_BASE + i * PAGE_SIZE) in *. assert (on_stack va) as Hva by (apply Hst; unfold va, PAGE_SIZE; lia).
       assert (0 <= va < 2 ^ 47) as Hva' by (unfold on_stack, STACK_BASE, USER_STACK_TOP, USER_STACK_PAGES, PAGE_SIZE in Hva; lia).
       assert (forall p : Segment, Decision (~ in_pages p va)) as HD by (intros p; unfold in_pages; apply _).
       destruct (decide (Forall (fun p => ~ in_pages p va) segs)) as [Hf | Hf].
       { rewrite Hlv, Hempty in Hsome by done. by destruct Hsome. }
       apply not_Forall_Exists, Exists_exists in Hf as (p & Hp & Hin); [| done]. exists p, va. split; [done |].
       split; [| done]. by apply dec_stable. }
  destruct (Hok2 eq_refl) as [Hall2 Hnew]. exists (Ok (sp, entry_point elf)), s2, o2. split; [done |].
  split; [by eapply preserves_trans |]. split; [done |]. split; [by apply (pv_space _ _ _ _ _ _ Hall2) |]. split; [done |]. split.
  - rewrite Forall_forall in Hld, Hsegs |- *. intros p Hp. eapply seg_loaded_preserved; [exact Hall2 | done | by apply Hsegs | by apply Hld].
  - split; [intros va Hva; apply Hnew; by apply Hst |]. intros va Hva Hns Hout.
    unfold user_byte. rewrite phys_for_virt_leaf, Hlv2, Hlv, Hempty; [done .. |]. by rewrite <- Hst.
Qed.

Lemma load_program_ok (s : Vmm A) (owner : owner_map) (k : Z) (bytes : list Z) (elf : ElfFile) :
  pt_inv s owner -> KERNEL_AS s = Some k -> owner !! k = Some (k, []) ->
  (forall r i, 256 <= i -> managed r i = managed k i) -> (forall r i, 0 <= i < 256 -> managed r i = true) ->
  elf_new bytes = Ret (Some elf) -> Forall (seg_ok bytes) (load_segments (program_headers elf)) -> Forall byte_ok bytes ->
  exists res s' owner', load_program bytes s = Ret (res, s') /\
    preserves (fun r => is_Some (owner !! r)) s owner s' owner' /\ program_result bytes elf s s' owner owner' res.
Proof.
  intros Hi HK Hk Hshare Hlow He Hsegs Hb. unfold load_program.
  destruct (new_user_ok managed s owner k Hi HK Hk Hshare) as (r & s1 & o1 & E & Hi1 & Htr & Hdata & Hsub & Hr).
  rewrite (st_bind_step _ _ _ _ _ E). destruct r as [sp |].
  2: { destruct Hr as [-> Hno]. exists (Err SpAddressSpace), s, owner. split; [done |]. split; [by apply preserves_refl | done]. }
  destruct Hr as (Hnew & Ho1 & Hav & Hempty & _).
  pose proof (new_user_preserves s s1 owner o1 Hi Hi1 Hsub Htr Hdata) as Hpv.
  assert (user_space o1 sp) as Hu1 by (split; [done | apply Hlow]).
  destruct (load_into s1 o1 sp bytes elf Hi1 Hu1) as (res & s' & o' & E' & Hoth & Hres); [| done .. |].
  { intros va Hva. destruct (user_space_ok managed o1 sp va Hu1 Hva) as [_ Huv]. specialize (Hempty va Huv).
    rewrite phys_for_virt_leaf in Hempty. by destruct (leaf (vm_mem s1) sp va). }
  exists res, s', o'. split; [exact E' |]. split.
  - eapply preserves_trans; [by eapply preserves_weaken; [| exact Hpv] |]. eapply preserves_weaken; [| exact Hoth].
    cbv beta. intros r [o Ho] Er. assert (owner !! r = None) by (rewrite Er; exact Hnew). congruence.
  - destruct res as [[sp' entry] | []]; [| done ..]. by destruct Hres as (-> & Hres).
Qed.

(** C12 Starting a program: for an image whose loadable segments lie in the user
    half and in the file, [load_program] returns.  On [Ok] the address space is
    new, every segment is in it byte for byte with zeros behind the bytes of
    the file, the four pages of the stack are there, zeroed, and nothing else
    is mapped; the entry point is the one of the image.  It fails only for want
    of a frame, for a 32-bit header, or when segments share a page with each
    other or with the stack.  The memory of every other address space is as it
    was. *)
Theorem load_program_correct (s : Vmm A) (owner : owner_map) (k : Z) (bytes : list Z) (elf : ElfFile) :
  pt_inv s owner -> KERNEL_AS s = Some k -> owner !! k = Some (k, []) ->
  (forall r i, 256 <= i -> managed r i = managed k i) -> (forall r i, 0 <= i < 256 -> managed r i = true) ->
  elf_new bytes = Ret (Some elf) -> Forall (seg_ok bytes) (load_segments (program_headers elf)) -> Forall byte_ok bytes ->
  exists res s' owner', load_program bytes s = Ret (res, s') /\
    preserves (fun r => is_Some (owner !! r)) s owner s' owner' /\ program_result bytes elf s s' owner owner' res.
Proof. apply load_program_ok. Qed.
End Spawn.

(** A parser that takes every image for a program of one page at 4 MiB. *)
Definition demo_elf : ElfFile := mkElfFile 0x400000 [Ph64 None (mkSegment 0 0 0 0 0); Ph64 (Some Load) (mkSegment 0x400000 0 2 16 5)].
#[export] Instance demo_parser : ElfParser := {| elf_new _ := Ret (Some demo_elf) |}.

Lemma load_program_correct_witness : exists res s' owner',
  load_program [0x90; 0xC3] vm_demo = Ret (res, s') /\
  program_result all_managed [0x90; 0xC3] demo_elf vm_demo s' vm_demo_owner owner' res.
Proof.
  destruct (load_program_correct all_managed vm_demo vm_demo_owner 0x9000 [0x90; 0xC3] demo_elf) as (res & s' & o' & E & _ & R).
  - apply vm_demo_inv.
  - reflexivity.
  - reflexivity.
  - done.
  - done.
  - reflexivity.
  - apply Forall_singleton. unfold seg_ok, zlen. cbn. lia.
  - repeat constructor; unfold byte_ok; lia.
  - exists res, s', o'. split; [exact E | exact R].
Defined.
