(* ===== verification/Boot.v ===== *)
(** * Start of the system

    [_start] of [kernel/src/main.rs] from the point where the devices are up
    ([Pci.v], [E1000.v], [Ac97.v], [Ps2.v], [Nvme.v]): the file systems, the
    first picture, the idle task and Spring, and [sched::run].  The lines it
    writes to the serial port on the way are left out. *)

From S2P Require Import Prelude Bytes Frames BootInfo Pmm X86 Vmm Asm Sched Utf8 Kernel Ipc PortIo Ps2 Inode Vfs Terminal RamFs Block PondLayout PondFs PondExample Framebuffer E1000 Ac97 Elf Files System Syscall.
From S2P Require Import Inode Vfs RamFs Block PondLayout PondFs Files Framebuffer Elf E1000 Ac97 System.

(** "/hello.txt", "/boot" and the strings of [_start]. *)
Definition HELLO_PATH : Str := [0x2F; 0x68; 0x65; 0x6C; 0x6C; 0x6F; 0x2E; 0x74; 0x78; 0x74].
Definition BOOT_PATH : Str := [0x2F; 0x62; 0x6F; 0x6F; 0x74].
(** "hello from ramfs\n". *)
Definition HELLO_TEXT : list Z :=
  [0x68; 0x65; 0x6C; 0x6C; 0x6F; 0x20; 0x66; 0x72; 0x6F; 0x6D; 0x20; 0x72; 0x61; 0x6D; 0x66; 0x73; 0x0A].
(** "personaOS booted". *)
Definition BOOTED_TEXT : list Z :=
  [0x70; 0x65; 0x72; 0x73; 0x6F; 0x6E; 0x61; 0x4F; 0x53; 0x20; 0x62; 0x6F; 0x6F; 0x74; 0x65; 0x64].
(** "M4 - display syscalls online". *)
Definition ONLINE_TEXT : list Z :=
  [0x4D; 0x34; 0x20; 0x2D; 0x20; 0x64; 0x69; 0x73; 0x70; 0x6C; 0x61; 0x79; 0x20; 0x73; 0x79; 0x73; 0x63; 0x61; 0x6C; 0x6C;
   0x73; 0x20; 0x6F; 0x6E; 0x6C; 0x69; 0x6E; 0x65].

Section Boot.
  Context {A W D H V : Type}.
  Context {FA : FrameAllocator A} {PE : PageTableEntry} {KMm : KernelMemory A} {PIO : PortIO W}.
  Context {BD : BlockDevice D} {PD : Padding} {EP : ElfParser} {KH : KernelHeap H} {IM : Image}.
  Variables (polls turns : nat).
Abbreviation M X := (SM A W D H V X).

(** ** File systems *)

Definition mount_at (path : Str) (fs : MountedFs) : M unit := fun y =>
  Ret (tt, mkSystem (sy_kernel y) (sy_files y) (Vfs.mount (MOUNTS y) path fs) (sy_open y) (sy_next_open y) (sy_fds y)
             (sy_screen y) (sy_heap y) (sy_dev y) (sy_waiters y)).
(** [PondFs::mount] of the disk; a mounted file system keeps the disk. *)
Definition mount_pond (d : D) : M bool := fun y =>
  let! r := pond_mount d in
  match r with
  | Ok (p, root) =>
      let! (_, y) := mount_at [SLASH] (PondMount root)
                       (with_files y (mkFiles (f_ram (sy_files y)) (Some p) (f_term (sy_files y)))) in
      Ret (true, y)
  | Err _ => Ret (false, y)
  end.

Definition mount_filesystems (nvme : option D) (init_elf : list Z) : M unit :=
  let* rfs := on_files (on_ram ramfs_new) in
  let* _ := on_files (on_ram (put_file rfs HELLO_PATH HELLO_TEXT)) in
  let* _ := on_files (on_ram (put_file rfs INIT_PATH init_elf)) in
  let* _ := mount_at BOOT_PATH (RamMount rfs) in
  let* mounted_pondfs := (match nvme with Some dev => mount_pond dev | None => st_ret false end) in
  if mounted_pondfs then st_ret tt
  else
    let* _ := mount_at [SLASH] (RamMount rfs) in
    seed_init_into_vfs polls turns init_elf.

(** ** The first picture *)

Definition paint (fb : Framebuffer) : M unit :=
  let* _ := on_screen_of (framebuffer_init fb) in
  let* _ := on_screen_of (Framebuffer.clear 0x0B1020) in
  let* _ := on_screen_of (draw_text 32 32 BOOTED_TEXT 0xE6E6FA) in
  let* _ := on_screen_of (draw_text 32 56 ONLINE_TEXT 0x9FB4FF) in
  st_ret tt.

(** ** The first tasks *)

Definition spawn_idle (entry : Z) : M Z :=
  let* kstack := new_kstack in
  let* rsp := on_kernel (on_vmm (fun v =>
    let m := fill (vm_mem v) kstack KSTACK_SIZE 0 in
    let '(sp, m) := idle_stack m kstack entry in
    Ret (sp, mkVmm m (vm_frames v) (KERNEL_AS v) (MMIO_NEXT v) (CR3 v)))) in
  let* id := on_sched (fun s => new_task s 0 None (kstack + HHDM_OFFSET + KSTACK_SIZE) (rsp + HHDM_OFFSET)) in
  let* _ := set_fd_table id fd_table_new in
  let* _ := on_kernel (new_caps id []) in
  st_ret id.

Definition start_tasks (idle_entry : Z) : M unit :=
  let* idle := spawn_idle idle_entry in
  let* _ := on_sched (fun s => (tt, register s idle)) in
  let* _ := on_sched (fun s => (tt, enqueue s idle)) in
  let* init := spawn_init polls turns in
  let* _ := on_sched (fun s => (tt, register s init)) in
  on_sched (fun s => (tt, enqueue s init)).

Definition enter_scheduler : M unit := fun y =>
  let! s := run (k_sched (sy_kernel y)) in Ret (tt, with_kernel y (with_sched (sy_kernel y) s)).

Definition boot (nvme : option D) (init_elf : list Z) (fb : Framebuffer) (idle_entry : Z) : M unit :=
  let* _ := mount_filesystems nvme init_elf in
  let* _ := paint fb in
  let* _ := start_tasks idle_entry in
  enter_scheduler.
End Boot.

(** ** A small machine

    A concrete system on which the theorems about system calls are run: 64 free
    frames, a heap that hands out consecutive blocks, a line that records what
    is sent, no disk, and a first program that consists of the string
    "/hello.txt". *)

Module Demo.

(** The program occupies one page at 4 MiB. *)
Definition spring_elf : ElfFile := mkElfFile 0x400000 [Ph64 (Some Load) (mkSegment 0x400000 0 10 4096 7)].
#[export] Instance demo_parse : ElfParser := {| elf_new _ := Ret (Some spring_elf) |}.
#[export] Instance demo_memory : KernelMemory PmmState := {| km_load _ _ := Panic; km_store _ _ _ := Panic |}.
#[export] Instance demo_heap : KernelHeap Z := {| heap_alloc n h := Some (h, h + n) |}.
#[export] Instance demo_image : Image := {| user_code_sel := 0x20; user_data_sel := 0x18; enter_user_addr := 0xFFFFFFFF80001000 |}.
#[export] Instance demo_net : NetDriver unit := {| net_configure := st_ret net_info_empty; net_info := st_ret net_info_empty |}.
#[export] Instance demo_audio : AudioDriver unit :=
  {| audio_play_tone _ _ := st_ret audio_info_empty; audio_info := st_ret audio_info_empty |}.
#[export] Existing Instance line_io.

Definition frames : PmmState :=
  Eval vm_compute in match init [mkRegion 0x1000 0x40000 Usable; mkRegion 0x41000 0x100000 Reserved] with Ret s => s | _ => pmm_statics end.
Definition vm : Vmm PmmState := mkVmm (fun _ => 0) frames (Some 0x50000) MMIO_VA_BASE 0x50000.
Definition machine : System PmmState (list Z) MemDisk Z unit :=
  mkSystem (mkKernel vm sched_statics ∅ ∅ 0x1000000 ∅ ∅) (mkFiles (mkRamHeap ∅ 0) None (mkPs2 [] input_state_new)) []
    ∅ 0 ∅ (mkScreen None (fun _ => 0)) 0x80000 tt ∅.
Definition fb : Framebuffer := mkFramebuffer 0xFFFF800080000000 4 4 16 32 Bgrx8888.

(** The state after a computation that returns. *)
Definition after {X} (c : SM PmmState (list Z) MemDisk Z unit X) (y : System PmmState (list Z) MemDisk Z unit) :
    System PmmState (list Z) MemDisk Z unit :=
  match c y with Ret (_, y') => y' | _ => y end.
Definition value {X} (c : SM PmmState (list Z) MemDisk Z unit X) (y : System PmmState (list Z) MemDisk Z unit) : option X :=
  match c y with Ret (x, _) => Some x | _ => None end.

Definition booted : System PmmState (list Z) MemDisk Z unit := after (boot 1 1 None HELLO_PATH fb 0xFFFFFFFF80002000) machine.
(** Spring runs after the first tick of the timer. *)
Definition spring : System PmmState (list Z) MemDisk Z unit := after (on_sched on_tick) booted.
(** It opens the file of that name. *)
Definition opened : System PmmState (list Z) MemDisk Z unit := after (dispatch 1 1 0x400000 10 0 0 0 SYS_OPEN) spring.

Lemma value_after {X} (c : SM PmmState (list Z) MemDisk Z unit X) y x : value c y = Some x -> c y = Ret (x, after c y).
Proof. unfold value, after. destruct (c y) as [[x' y'] | | |]; [by intros [= <-] | done ..]. Qed.

Lemma sched_after {X} (f : Sched -> X * Sched) y : exists x, on_sched f y = Ret (x, after (on_sched f) y).
Proof. unfold after, on_sched. destruct (f _). by eexists. Qed.

Lemma boot_returns : value (boot 1 1 None HELLO_PATH fb 0xFFFFFFFF80002000) machine = Some tt.
Proof. vm_compute. reflexivity. Qed.
Lemma open_returns : value (dispatch 1 1 0x400000 10 0 0 0 SYS_OPEN) spring = Some (Returned 3).
Proof. vm_compute. reflexivity. Qed.
End Demo.
