(* ===== verification/SyscallProps.v ===== *)
(** * Descriptors and processes

    What the system calls of [Syscall.v] guarantee for all programs together:
    the descriptor tables stay well formed whatever is called in whatever
    order, data written through a descriptor is read back, and processes only
    reach their own children. *)

From S2P Require Import Prelude Bytes Utf8 Frames Pmm X86 Vmm Asm Sched Kernel Ipc PortIo Ps2.
From S2P Require Import Inode Vfs RamFs Block PondLayout PondFs PondExample Files Framebuffer Elf E1000 Ac97 System Syscall Boot.

Section Descriptors.
  Context {A W D H V : Type}.
  Context {FA : FrameAllocator A} {PE : PageTableEntry} {KMm : KernelMemory A} {PIO : PortIO W}.
  Context {BD : BlockDevice D} {PD : Padding} {EP : ElfParser} {KH : KernelHeap H} {IM : Image}.
  Context {ND : NetDriver V} {AD : AudioDriver V}.
  Variables (polls turns : nat).
Abbreviation Sys := (System A W D H V).
Abbreviation M X := (SM A W D H V X).
  Implicit Types y : Sys.

(** A table: numbers from 0 up to the next free one, which is an [i32], and
    open files that exist. *)
Definition table_ok (open : gmap Z (OpenFile Node)) (t : FdTable) : Prop :=
  0 <= fd_next t < 2 ^ 31 /\
  forall fd a, fd_slots t !! fd = Some a -> 0 <= fd < fd_next t /\ is_Some (open !! a).

(** The open files and the tables of all tasks.  Offsets are [u64], addresses
    are not handed out twice, and an open file belongs to one task. *)
Record descriptors_ok y : Prop := mkDescriptorsOk {
  do_tables : forall task t, sy_fds y !! task = Some t -> table_ok (sy_open y) t;
  do_files : forall a f, sy_open y !! a = Some f -> a < sy_next_open y /\ 0 <= offset f < 2 ^ 64;
  do_owner : forall t1 t2 tbl1 tbl2 fd1 fd2 a,
    sy_fds y !! t1 = Some tbl1 -> sy_fds y !! t2 = Some tbl2 ->
    fd_slots tbl1 !! fd1 = Some a -> fd_slots tbl2 !! fd2 = Some a -> t1 = t2
}.

(** ** Code that does not touch descriptors *)

Definition same_fds y y' : Prop :=
  sy_open y' = sy_open y /\ sy_next_open y' = sy_next_open y /\ sy_fds y' = sy_fds y.
Definition keeps {X} (c : M X) : Prop := forall y x y', c y = Ret (x, y') -> same_fds y y'.

Lemma same_fds_ok y y' : same_fds y y' -> descriptors_ok y -> descriptors_ok y'.
Proof. intros (E1 & E2 & E3) []. constructor; rewrite ?E1, ?E2, ?E3; done. Qed.
Lemma same_fds_trans y1 y2 y3 : same_fds y1 y2 -> same_fds y2 y3 -> same_fds y1 y3.
Proof. intros (? & ? & ?) (? & ? & ?). split_and!; congruence. Qed.

Lemma keeps_ret {X} (x : X) : keeps (st_ret x).
Proof. intros y x' y' [= _ <-]. done. Qed.
Lemma keeps_lift {X} (o : outcome X) : keeps (st_lift o).
Proof. intros y x y'. unfold st_lift. destruct o; simpl; intros [= _ <-] || discriminate. done. Qed.
Lemma keeps_bind {X Y} (c : M X) (k : X -> M Y) : keeps c -> (forall x, keeps (k x)) -> keeps (st_bind c k).
Proof. intros Hc Hk y x y' (a & y1 & H1 & H2)%st_bind_Ret. eapply same_fds_trans; [by eapply Hc | by eapply Hk]. Qed.
Lemma keeps_try {X Y E} (c : M (result X E)) (k : X -> M (result Y E)) : keeps c -> (forall x, keeps (k x)) -> keeps (st_try c k).
Proof. intros Hc Hk. apply keeps_bind; [done |]. intros []; [apply Hk | apply keeps_ret]. Qed.
Lemma keeps_kernel {X} (c : KM X) : keeps (on_kernel c).
Proof. intros y x y'. unfold on_kernel. intros ([a k] & _ & [= _ <-])%obind_Ret. done. Qed.
Lemma keeps_files {X} (c : FM X) : keeps (on_files c).
Proof. intros y x y'. unfold on_files. intros ([a k] & _ & [= _ <-])%obind_Ret. done. Qed.
Lemma keeps_screen {X} (c : ST Screen X) : keeps (on_screen_of c).
Proof. intros y x y'. unfold on_screen_of. intros ([a k] & _ & [= _ <-])%obind_Ret. done. Qed.
Lemma keeps_dev {X} (c : ST V X) : keeps (on_dev c).
Proof. intros y x y'. unfold on_dev. intros ([a k] & _ & [= _ <-])%obind_Ret. done. Qed.
Lemma keeps_sched {X} (f : Sched -> X * Sched) : keeps (on_sched f).
Proof. intros y x y'. unfold on_sched. destruct (f _). intros [= _ <-]. done. Qed.
Lemma keeps_get_sched : keeps get_sched.
Proof. intros y x y' [= _ <-]. done. Qed.
Lemma keeps_current : keeps current_task.
Proof. apply keeps_bind; [apply keeps_get_sched |]. intros s. apply keeps_ret. Qed.
Lemma keeps_get_file (task fd : Z) : keeps (get_file task fd).
Proof. intros y x y' [= _ <-]. done. Qed.
Lemma keeps_lookup (path : Str) : keeps (vfs_lookup polls turns path).
Proof. intros y x y'. unfold vfs_lookup. intros E. by apply keeps_files in E. Qed.
Lemma keeps_kstack : keeps new_kstack.
Proof. intros y x y'. unfold new_kstack. case_match; [| done]. case_match. intros [= _ <-]. done. Qed.
Lemma keeps_waiters (f : Sys -> gmap Z (Z * Z)) : keeps (st_modify (fun y => with_waiters y (f y))).
Proof. intros y x y' [= _ <-]. done. Qed.
End Descriptors.

#[export] Hint Resolve keeps_ret keeps_lift keeps_kernel keeps_files keeps_screen keeps_dev keeps_sched keeps_get_sched
  keeps_current keeps_get_file keeps_lookup keeps_kstack keeps_waiters : persona.

(** Walk through code that does not touch descriptors. *)
Ltac keeps_tac :=
  repeat first
    [ solve [eauto with persona]
    | apply keeps_bind; [| intros ?]
    | apply keeps_try; [| intros ?]
    | case_match ].

Section WellFormed.
  Context {A W D H V : Type}.
  Context {FA : FrameAllocator A} {PE : PageTableEntry} {KMm : KernelMemory A} {PIO : PortIO W}.
  Context {BD : BlockDevice D} {PD : Padding} {EP : ElfParser} {KH : KernelHeap H} {IM : Image}.
  Context {ND : NetDriver V} {AD : AudioDriver V}.
  Variables (polls turns : nat).
Abbreviation Sys := (System A W D H V).
Abbreviation M X := (SM A W D H V X).
  Implicit Types y : Sys.

(** ** Changes to descriptors *)

Definition pres {X} (c : M X) : Prop := forall y x y', descriptors_ok y -> c y = Ret (x, y') -> descriptors_ok y'.

Lemma pres_keeps {X} (c : M X) : keeps c -> pres c.
Proof. intros Hc y x y' Hy E. by eapply same_fds_ok, Hy; eapply Hc. Qed.
Lemma pres_bind {X Y} (c : M X) (k : X -> M Y) : pres c -> (forall x, pres (k x)) -> pres (st_bind c k).
Proof. intros Hc Hk y x y' Hy (a & y1 & H1 & H2)%st_bind_Ret. eapply Hk, H2. by eapply Hc. Qed.

Lemma pres_set_offset (a off : Z) : 0 <= off < 2 ^ 64 -> pres (set_offset a off).
Proof.
  intros Ho y x y' [Ht Hf Hown] [= _ <-]. constructor; cbn [with_open sy_fds sy_open sy_next_open]; [| | done].
  - intros task t Hl. destruct (Ht task t Hl) as [Hn Hs]. split; [done |]. intros fd b Hb. destruct (Hs fd b Hb) as [? [f Hsome]].
    split; [done |]. destruct (decide (b = a)) as [-> |]; [rewrite lookup_alter_eq, Hsome; by eexists | rewrite lookup_alter_ne by done; by eexists].
  - intros b f Hb. destruct (decide (b = a)) as [-> |]; [| rewrite lookup_alter_ne in Hb by done; by apply Hf].
    rewrite lookup_alter_eq in Hb. destruct (sy_open y !! a) as [f0 |] eqn:E; [| done]. injection Hb as <-. split; [by apply (Hf a f0) | done].
Qed.

(** An open file no table holds. *)
Definition fresh y (a : Z) : Prop :=
  is_Some (sy_open y !! a) /\ forall task t fd, sy_fds y !! task = Some t -> fd_slots t !! fd <> Some a.

Lemma fresh_keeps y y' a : same_fds y y' -> fresh y a -> fresh y' a.
Proof. intros (E1 & E2 & E3). unfold fresh. by rewrite E1, E3. Qed.

Lemma new_open_ok y n fl a y' : descriptors_ok y -> new_open n fl y = Ret (a, y') ->
  descriptors_ok y' /\ fresh y' a /\ (forall b, fresh y b -> fresh y' b) /\ sy_fds y' = sy_fds y /\ (forall b, fresh y b -> b <> a).
Proof.
  intros [Ht Hf Hown] [= <- <-].
  assert (Hnew : sy_open y !! sy_next_open y = None) by (destruct (sy_open y !! sy_next_open y) as [f |] eqn:E; [apply Hf in E; lia | done]).
  assert (Hgrow : forall b, is_Some (sy_open y !! b) -> is_Some (<[sy_next_open y := open_file_new n fl]> (sy_open y) !! b)).
  { intros b Hb. destruct (decide (b = sy_next_open y)) as [-> |]; [rewrite lookup_insert_eq; by eexists | by rewrite lookup_insert_ne]. }
  split_and!; cbn [with_open sy_fds sy_open sy_next_open].
  - constructor; cbn [with_open sy_fds sy_open sy_next_open]; [| | done].
    + intros task t Hl. destruct (Ht task t Hl) as [Hn Hs]. split; [done |]. intros fd b Hb. destruct (Hs fd b Hb). split; [done | by apply Hgrow].
    + intros b f [[<- <-] | [Hne Hb]]%lookup_insert_Some; [split; [lia | done] |]. apply Hf in Hb. lia.
  - split; [cbn; rewrite lookup_insert_eq; by eexists |]. intros task t fd Hl Hs. apply Ht in Hl as [_ Hl]. apply Hl in Hs as [_ [f Hs]]. congruence.
  - intros b [Hb1 Hb2]. split; [by apply Hgrow | exact Hb2].
  - done.
  - intros b [[f Hb] _] ->. congruence.
Qed.

Lemma set_table_ok y task tbl x y' :
  descriptors_ok y -> table_ok (sy_open y) tbl ->
  (forall fd a, fd_slots tbl !! fd = Some a ->
     fresh y a \/ exists t0 fd0, sy_fds y !! task = Some t0 /\ fd_slots t0 !! fd0 = Some a) ->
  set_fd_table task tbl y = Ret (x, y') -> descriptors_ok y'.
Proof.
  intros [Ht Hf Hown] Htbl Hsrc [= _ <-].
  assert (Hmine : forall t2 tbl2 fd1 fd2 a, t2 <> task -> sy_fds y !! t2 = Some tbl2 ->
            fd_slots tbl !! fd1 = Some a -> fd_slots tbl2 !! fd2 = Some a -> False).
  { intros t2 tbl2 fd1 fd2 a Hne H2 Ha1 Ha2. destruct (Hsrc fd1 a Ha1) as [[_ Hfr] | (t0 & fd0 & H0 & Ha0)].
    - by apply (Hfr t2 tbl2 fd2).
    - by apply Hne, eq_sym, (Hown task t2 t0 tbl2 fd0 fd2 a). }
  constructor; cbn [with_fds sy_fds sy_open sy_next_open].
  - intros t' tbl' [[<- <-] | [_ Hl]]%lookup_insert_Some; [done | by apply (Ht t')].
  - exact Hf.
  - intros t1 t2 tbl1 tbl2 fd1 fd2 a [[<- <-] | [Hn1 H1]]%lookup_insert_Some [[<- <-] | [Hn2 H2]]%lookup_insert_Some Ha1 Ha2;
      [done | by destruct (Hmine t2 tbl2 fd1 fd2 a) | by destruct (Hmine t1 tbl1 fd2 fd1 a) | by apply (Hown t1 t2 tbl1 tbl2 fd1 fd2 a)].
Qed.

(** The table of a task, empty when it has none. *)
Lemma fd_table_ok y task : descriptors_ok y -> table_ok (sy_open y) (fd_table y task).
Proof. intros Hy. unfold fd_table. destruct (sy_fds y !! task) as [t |] eqn:E; [by apply (do_tables _ Hy task) | by split]. Qed.
Lemma fd_table_slot y task fd a : fd_slots (fd_table y task) !! fd = Some a ->
  exists t0 fd0, sy_fds y !! task = Some t0 /\ fd_slots t0 !! fd0 = Some a.
Proof. unfold fd_table. destruct (sy_fds y !! task) as [t |] eqn:E; [intros Hs; by exists t, fd |]. cbn. by rewrite lookup_empty. Qed.

(** ** The handlers *)

Lemma pres_with_file (fd : Z) (body : Z -> OpenFile Node -> M Z) : (forall a f, pres (body a f)) -> pres (with_file fd body).
Proof.
  intros Hb. apply pres_bind; [apply pres_keeps; eauto with persona | intros [task |]; [| apply pres_keeps; eauto with persona]].
  apply pres_bind; [apply pres_keeps; eauto with persona | intros [[a f] |]; [apply Hb | apply pres_keeps; eauto with persona]].
Qed.

(** What reads and writes end with. *)
Lemma pres_advance (a off : Z) (r : result Z FsError) :
  pres (match r with
        | Ok n => let* _ := set_offset a (wrap 64 (off + n)) in st_ret n
        | Err e => st_ret (fs_err_to_code e)
        end).
Proof.
  destruct r; [| apply pres_keeps; eauto with persona]. apply pres_bind; [| intros _; apply pres_keeps; eauto with persona].
  apply pres_set_offset. unfold wrap. apply Z.mod_pos_bound. lia.
Qed.

Lemma pres_write fd buf len : pres (sys_write polls turns fd buf len).
Proof.
  unfold sys_write. case_match; [apply pres_keeps; eauto with persona |]. apply pres_with_file. intros a f.
  apply pres_bind; [apply pres_keeps; unfold load_user; eauto with persona | intros bytes].
  apply pres_bind; [apply pres_keeps; eauto with persona | intros r]. apply pres_advance.
Qed.
Lemma pres_read fd buf len : pres (sys_read polls turns fd buf len).
Proof.
  unfold sys_read. case_match; [apply pres_keeps; eauto with persona |]. apply pres_with_file. intros a f.
  apply pres_bind; [apply pres_keeps; eauto with persona | intros [r data]].
  apply pres_bind; [apply pres_keeps; unfold store_user; eauto with persona | intros _]. apply pres_advance.
Qed.

Lemma seek_to_range base off n : seek_to base off = Ret n -> 0 <= n < 2 ^ 63.
Proof.
  unfold seek_to. intros (s & Hs & [= <-])%obind_Ret. unfold ichecked, ifits in Hs.
  destruct (Z.leb_spec (- 2 ^ (64 - 1)) (signed 64 base + off)), (Z.ltb_spec (signed 64 base + off) (2 ^ (64 - 1))); simpl in Hs; try done.
  injection Hs as <-. change (2 ^ (64 - 1)) with (2 ^ 63) in *. lia.
Qed.
Lemma pres_store_offset a n : 0 <= n < 2 ^ 63 -> pres (let* _ := set_offset a n in st_ret (signed 64 n)).
Proof. intros Hn. apply pres_bind; [apply pres_set_offset; lia | intros _; apply pres_keeps; eauto with persona]. Qed.
Lemma pres_seek_to a base off : pres (let* n := st_lift (seek_to base off) in let* _ := set_offset a n in st_ret (signed 64 n)).
Proof.
  intros y x y' Hy (n & y1 & H1 & H2)%st_bind_Ret. unfold st_lift in H1. apply obind_Ret in H1 as (n' & Hn & [= <- <-]).
  by eapply (pres_store_offset a n' (seek_to_range _ _ _ Hn)).
Qed.
Lemma pres_lseek fd off whence : off < 2 ^ 63 -> pres (sys_lseek polls turns fd off whence).
Proof.
  intros Ho. apply pres_with_file. intros a f. cbv zeta. repeat case_match; try apply pres_seek_to.
  - apply pres_store_offset. lia.
  - apply pres_bind; [apply pres_keeps; eauto with persona | intros size; apply pres_seek_to].
  - apply pres_keeps; eauto with persona.
Qed.

Lemma keeps_fstat fd buf : keeps (sys_fstat polls turns fd buf : M Z).
Proof. unfold sys_fstat, with_file, store_user. keeps_tac. Qed.

Lemma pres_close fd : pres (sys_close fd).
Proof.
  unfold sys_close. apply pres_bind; [apply pres_keeps; eauto with persona | intros [task |]; [| apply pres_keeps; eauto with persona]].
  intros y x y' Hy. cbn [fd_close]. intros ([u y1] & H1 & [= _ <-])%obind_Ret.
  pose proof (fd_table_ok y task Hy) as [Hn Hs]. eapply (set_table_ok y task); [exact Hy | | | exact H1].
  - split; [done |]. cbn [fd_slots fd_next]. intros fd' a [_ Ha]%lookup_delete_Some. by apply Hs.
  - cbn [fd_slots]. intros fd' a [_ Ha]%lookup_delete_Some. right. by apply fd_table_slot in Ha.
Qed.

Lemma fd_install_ok y task open fd tbl : descriptors_ok y -> fresh y open ->
  fd_install (fd_table y task) open = Ret (fd, tbl) ->
  table_ok (sy_open y) tbl /\
  forall fd a, fd_slots tbl !! fd = Some a -> fresh y a \/ exists t0 fd0, sy_fds y !! task = Some t0 /\ fd_slots t0 !! fd0 = Some a.
Proof.
  intros Hy Hfr. unfold fd_install. intros (n & Hn & [= <- <-])%obind_Ret. pose proof (fd_table_ok y task Hy) as [Hr Hs].
  assert (n = fd_next (fd_table y task) + 1 /\ n < 2 ^ 31) as [-> Hlt].
  { unfold ichecked in Hn. destruct (ifits 32 _) eqn:Ef; [| done]. injection Hn as <-. unfold ifits in Ef.
    apply andb_true_iff in Ef as [_ Ef%Z.ltb_lt]. change (2 ^ (32 - 1)) with (2 ^ 31) in Ef. split; [done | lia]. }
  split.
  - split; cbn [fd_next fd_slots]; [lia |]. intros fd a [[<- <-] | [_ Ha]]%lookup_insert_Some; [split; [lia | by destruct Hfr] |].
    apply Hs in Ha as [? ?]. split; [lia | done].
  - cbn [fd_slots]. intros fd a [[<- <-] | [_ Ha]]%lookup_insert_Some; [by left | right; by apply fd_table_slot in Ha].
Qed.

Lemma keeps_open_or_create path flags : keeps (open_or_create polls turns path flags : M (result Node Z)).
Proof. unfold open_or_create. keeps_tac. Qed.

Lemma pres_open path_ptr path_len flags : pres (sys_open polls turns path_ptr path_len flags).
Proof.
  unfold sys_open. case_match; [apply pres_keeps; eauto with persona |].
  apply pres_bind; [apply pres_keeps; unfold load_user; eauto with persona | intros path].
  case_match; [apply pres_keeps; eauto with persona |].
  apply pres_bind; [apply pres_keeps, keeps_open_or_create | intros [n | code]; [| apply pres_keeps; eauto with persona]].
  intros y x y' Hy (a & y1 & Ea & Eb)%st_bind_Ret. destruct (new_open_ok y n flags a y1 Hy Ea) as (Hy1 & Hfr & _).
  apply st_bind_Ret in Eb as (t & y2 & Eb & Ec). pose proof (keeps_current _ _ _ Eb) as Hk.
  destruct t as [task |]; [| injection Ec as _ <-; by eapply same_fds_ok].
  apply obind_Ret in Ec as ([fd tbl] & Hi & Ec). apply obind_Ret in Ec as ([u y3] & Ec & [= _ <-]).
  pose proof (same_fds_ok _ _ Hk Hy1) as Hy2.
  destruct (fd_install_ok y2 task a fd tbl Hy2 (fresh_keeps _ _ _ Hk Hfr) Hi) as [Htok Hsrc].
  by eapply (set_table_ok y2 task tbl).
Qed.

(** The three descriptors of a new task. *)
Lemma std_fds_ok y t y' : descriptors_ok y -> std_fds y = Ret (t, y') ->
  descriptors_ok y' /\ table_ok (sy_open y') t /\ (forall fd a, fd_slots t !! fd = Some a -> fresh y' a).
Proof.
  intros Hy (a & y1 & E1 & E2)%st_bind_Ret. apply st_bind_Ret in E2 as (b & y2 & E2 & E3).
  destruct (new_open_ok _ _ _ _ _ Hy E1) as (Hy1 & Ha & _). destruct (new_open_ok _ _ _ _ _ Hy1 E2) as (Hy2 & Hb & Hab & _).
  apply Hab in Ha. vm_compute in E3. injection E3 as <- <-. split; [done |]. unfold table_ok.
  assert (Hs : forall fd c, fd_slots (mkFdTable (<[2 := b]> (<[1 := b]> {[0 := a]})) 3) !! fd = Some c ->
    0 <= fd < 3 /\ fresh y2 c).
  { cbn [fd_slots]. intros fd c. rewrite !lookup_insert_Some, lookup_singleton_Some.
    intros [[<- <-] | [_ [[<- <-] | [_ [<- <-]]]]]; (split; [lia | done]). }
  split; [split; [cbn; lia |] |]; intros fd c Hc; apply Hs in Hc as [? [? ?]]; done.
Qed.

(** A task number that was never given out has no table, so the table of the
    new task does not replace one. *)
Lemma pres_spawn_user sp entry stack caps parent : pres (spawn_user sp entry stack caps parent).
Proof.
  unfold spawn_user. apply pres_bind; [apply pres_keeps; eauto with persona | intros kstack].
  apply pres_bind; [apply pres_keeps; eauto with persona | intros rsp].
  intros y x y' Hy (fds & y1 & E1 & E2)%st_bind_Ret. destruct (std_fds_ok _ _ _ Hy E1) as (Hy1 & Hok & Hfr).
  apply st_bind_Ret in E2 as (id & y2 & E2 & E3). apply st_bind_Ret in E3 as (u & y3 & E3 & E4).
  pose proof (keeps_sched _ _ _ _ E2) as Hk. pose proof Hk as (Eo & _ & _).
  eapply (pres_bind (on_kernel (new_caps id caps)) (fun _ => st_ret id)); [| | | exact E4];
    [apply pres_keeps; eauto with persona | intros _; apply pres_keeps; eauto with persona |].
  eapply (set_table_ok y2 id fds); [by eapply same_fds_ok | by rewrite Eo | | exact E3].
  intros fd a Ha. left. by eapply fresh_keeps, Hfr.
Qed.

Lemma keeps_read_whole n : keeps (read_whole polls turns n : M (result (list Z) SpawnError)).
Proof. unfold read_whole. keeps_tac. Qed.

Lemma pres_try {X Y E} (c : M (result X E)) (k : X -> M (result Y E)) : pres c -> (forall x, pres (k x)) -> pres (st_try c k).
Proof. intros Hc Hk. apply pres_bind; [done |]. intros []; [apply Hk | apply pres_keeps; eauto with persona]. Qed.

Lemma pres_spawn_from_path path caps parent : pres (spawn_from_path polls turns path caps parent).
Proof.
  unfold spawn_from_path. apply pres_bind; [apply pres_keeps; eauto with persona | intros [n |]; [| apply pres_keeps; eauto with persona]].
  apply pres_try; [apply pres_keeps, keeps_read_whole | intros bytes].
  apply pres_try; [apply pres_keeps; eauto with persona | intros [sp entry]].
  apply pres_bind; [apply pres_spawn_user | intros id; apply pres_keeps; eauto with persona].
Qed.

Lemma pres_spawn path_ptr path_len : pres (sys_spawn polls turns path_ptr path_len).
Proof.
  unfold sys_spawn. case_match; [apply pres_keeps; eauto with persona |].
  apply pres_bind; [apply pres_keeps; unfold load_user; eauto with persona | intros path].
  case_match; [apply pres_keeps; eauto with persona |].
  apply pres_bind; [apply pres_keeps; eauto with persona | intros [parent |]; [| apply pres_keeps; eauto with persona]].
  apply pres_bind; [apply pres_spawn_from_path | intros r; apply pres_keeps; keeps_tac].
Qed.

Lemma keeps_waitpid_turn parent pid status flags : keeps (waitpid_turn parent pid status flags : M CallResult).
Proof. unfold waitpid_turn. keeps_tac. Qed.
Lemma keeps_waitpid pid status flags : keeps (sys_waitpid pid status flags : M CallResult).
Proof. unfold sys_waitpid. pose proof keeps_waitpid_turn. keeps_tac. Qed.
Lemma keeps_waitpid_resume : keeps (waitpid_resume : M CallResult).
Proof.
  apply keeps_bind; [eauto with persona | intros [parent |]; [| eauto with persona]].
  intros y x y'. case_match; [| done]. case_match. intros E%keeps_waitpid_turn. exact E.
Qed.
Lemma keeps_kill pid code : keeps (sys_kill pid code : M CallResult).
Proof. unfold sys_kill. keeps_tac. Qed.
Lemma keeps_copy_out ptr (c : M (list Z)) : keeps c -> keeps (copy_out ptr c).
Proof. intros Hc. unfold copy_out, store_user. keeps_tac. Qed.
Lemma keeps_display_info ptr : keeps (sys_display_info ptr : M Z).
Proof. unfold sys_display_info, store_user. keeps_tac. Qed.
Lemma keeps_draw_text px py buf len color : keeps (sys_display_draw_text px py buf len color : M Z).
Proof. unfold sys_display_draw_text, load_user. keeps_tac. Qed.

Lemma pres_done (c : M Z) : pres c -> pres (done c).
Proof. intros Hc. apply pres_bind; [done | intros v; apply pres_keeps; eauto with persona]. Qed.
Lemma pres_done_or_asleep (c : M CallResult) : pres c -> pres (done_or_asleep c).
Proof. intros Hc. apply pres_bind; [done | intros v; apply pres_keeps; eauto with persona]. Qed.

Lemma signed_lt x : signed 64 x < 2 ^ 63.
Proof. unfold signed. pose proof (Z.mod_pos_bound x (2 ^ 64)). case_match eqn:E; [apply Z.ltb_lt in E; exact E | lia]. Qed.

Lemma pres_dispatch a0 a1 a2 a3 a4 num : pres (dispatch polls turns a0 a1 a2 a3 a4 num).
Proof.
  unfold dispatch.
  repeat (match goal with |- pres (if ?b then _ else _) => destruct b end;
    [first
      [ apply pres_done; first [apply pres_write | apply pres_open | apply pres_read | apply pres_close | apply pres_spawn
          | apply pres_lseek, signed_lt
          | apply pres_keeps; first [apply keeps_fstat | apply keeps_display_info | apply keeps_draw_text
              | apply keeps_copy_out; keeps_tac | by keeps_tac]]
      | apply pres_done_or_asleep, pres_keeps; first [apply keeps_waitpid | apply keeps_kill | by keeps_tac]
      | apply pres_keeps; by keeps_tac] |]).
  apply pres_keeps; eauto with persona.
Qed.

(** ** Boot *)

Lemma keeps_mount_at path fs : keeps (mount_at path fs : M unit).
Proof. intros y x y' [= _ <-]. done. Qed.
Lemma keeps_mount_pond d : keeps (mount_pond d : M bool).
Proof.
  intros y x y'. unfold mount_pond. intros (r & _ & E)%obind_Ret. destruct r as [[p root] |]; [| by injection E as _ <-].
  apply obind_Ret in E as ([u y1] & E & [= _ <-]). apply keeps_mount_at in E. exact E.
Qed.
Lemma keeps_mount_filesystems nvme elf : keeps (mount_filesystems polls turns nvme elf : M unit).
Proof. unfold mount_filesystems, seed_init_into_vfs. pose proof keeps_mount_at. pose proof keeps_mount_pond. keeps_tac. Qed.
Lemma keeps_paint fb : keeps (paint fb : M unit).
Proof. unfold paint. keeps_tac. Qed.

Lemma pres_spawn_idle entry : pres (spawn_idle entry).
Proof.
  unfold spawn_idle. apply pres_bind; [apply pres_keeps; eauto with persona | intros kstack].
  apply pres_bind; [apply pres_keeps; eauto with persona | intros rsp].
  apply pres_bind; [apply pres_keeps; eauto with persona | intros id].
  apply pres_bind; [| intros _; apply pres_bind; [apply pres_keeps; eauto with persona | intros _; apply pres_keeps; eauto with persona]].
  intros y x y' Hy E. eapply (set_table_ok y id fd_table_new); [done | | | exact E]; cbn [fd_slots fd_table_new].
  - split; [cbn; lia | intros fd a Ha; cbn [fd_slots fd_table_new] in Ha; by apply lookup_empty_Some in Ha].
  - by intros fd a Ha; apply lookup_empty_Some in Ha.
Qed.

Lemma pres_boot nvme elf fb entry : pres (boot polls turns nvme elf fb entry).
Proof.
  apply pres_bind; [apply pres_keeps, keeps_mount_filesystems | intros _].
  apply pres_bind; [apply pres_keeps, keeps_paint | intros _].
  apply pres_bind.
  - apply pres_bind; [apply pres_spawn_idle | intros idle].
    do 2 (apply pres_bind; [apply pres_keeps; eauto with persona | intros _]).
    apply pres_bind; [| intros init; apply pres_keeps; keeps_tac].
    apply pres_bind; [apply pres_spawn_from_path | intros r; apply pres_keeps; keeps_tac].
  - intros _. apply pres_keeps. intros y x y'. unfold enter_scheduler. intros (s & _ & [= _ <-])%obind_Ret. done.
Qed.

(** ** The running system *)

(** A program calls the kernel, a task goes on inside [sys_waitpid] or
    [sys_recv], or the timer fires. *)
Inductive sys_step : Sys -> Sys -> Prop :=
  | sys_call y a0 a1 a2 a3 a4 num r y' : dispatch polls turns a0 a1 a2 a3 a4 num y = Ret (r, y') -> sys_step y y'
  | sys_wait_on y r y' : waitpid_resume y = Ret (r, y') -> sys_step y y'
  | sys_recv_on y r y' : on_kernel recv_resume y = Ret (r, y') -> sys_step y y'
  | sys_timer y r y' : on_sched on_tick y = Ret (r, y') -> sys_step y y'.

Lemma sys_step_ok y y' : sys_step y y' -> descriptors_ok y -> descriptors_ok y'.
Proof.
  intros [] Hy.
  - by eapply pres_dispatch.
  - by eapply pres_keeps; [apply keeps_waitpid_resume | |].
  - by eapply pres_keeps; [apply keeps_kernel | |].
  - by eapply pres_keeps; [apply keeps_sched | |].
Qed.

(** C5 Whatever programs call in whatever order after the system has booted,
    the descriptors of all tasks stay well formed: numbers are between 0 and
    the next free one, which is an [i32]; every descriptor names an open file
    that exists; no open file belongs to two tasks; and offsets are [u64]s. *)
Theorem descriptors_well_formed (y0 y1 y : Sys) nvme elf fb entry :
  sy_open y0 = ∅ -> sy_fds y0 = ∅ ->
  boot polls turns nvme elf fb entry y0 = Ret (tt, y1) -> rtc sys_step y1 y -> descriptors_ok y.
Proof.
  intros Eo Ef Eb Hr. assert (descriptors_ok y0) as H0.
  { constructor; rewrite ?Ef, ?Eo; by intros * E%lookup_empty_Some. }
  assert (descriptors_ok y1) as H1 by by eapply pres_boot.
  clear Eb. induction Hr as [| ? ? ? Hs _ IH]; [done |]. by eapply IH, sys_step_ok.
Qed.
End WellFormed.

Import Demo.

Lemma demo_boots : boot 1 1 None HELLO_PATH Demo.fb 0xFFFFFFFF80002000 Demo.machine = Ret (tt, Demo.booted).
Proof. apply (Demo.value_after _ _ _ Demo.boot_returns). Qed.
(** Spring opens a file after the first tick of the timer. *)
Lemma demo_ticks : sys_step 1 1 Demo.booted Demo.spring.
Proof. destruct (Demo.sched_after on_tick Demo.booted) as [r E]. exact (sys_timer 1 1 _ r _ E). Qed.
Lemma demo_opens : sys_step 1 1 Demo.spring Demo.opened.
Proof. pose proof (Demo.value_after _ _ _ Demo.open_returns) as E. eapply sys_call. exact E. Qed.

Lemma descriptors_well_formed_witness : descriptors_ok Demo.opened /\ fd_next (fd_table Demo.opened 2) = 4.
Proof.
  split; [| vm_compute; reflexivity].
  eapply (descriptors_well_formed 1 1 Demo.machine Demo.booted Demo.opened None HELLO_PATH Demo.fb 0xFFFFFFFF80002000).
  - reflexivity.
  - reflexivity.
  - apply demo_boots.
  - apply (rtc_l _ _ Demo.spring); [apply demo_ticks | apply rtc_once, demo_opens].
Defined.
