(* ===== verification/FileProps.v ===== *)
(** * Data through a descriptor

    [sys_write], [sys_lseek] and [sys_read] one after the other, from the memory
    of the program to an inode and back. *)

From S2P Require Import Prelude Bytes Utf8 Frames Pmm X86 Vmm VmmInv VmmSpec Asm Sched Kernel Ipc IpcFrames IpcSpec IpcRecv PortIo Ps2.
From S2P Require Import Inode Vfs RamFs RamFsProps Block PondLayout PondFs PondFile PondGrow PondInv PondOps PondWrite PondCreate PondExample Files Framebuffer Elf E1000 Ac97 System Syscall Boot.

(** ** A file of the RAM file system *)

Lemma slice_overwrite d off b : 0 <= off -> slice (overwrite d off b) off (zlen b) = Ret b.
Proof.
  intros Ho. apply slice_Ret. rewrite overwrite_length by done. split_and!; [lia | unfold zlen; lia | lia |].
  unfold overwrite. rewrite app_assoc, drop_app_length' by (rewrite length_app, length_take, length_replicate; lia).
  by rewrite take_app_length' by (unfold zlen; lia).
Qed.

Lemma ram_write_read h a e off b :
  nodes h !! a = Some e -> e_kind e = File -> 0 <= off -> off + zlen b < 2 ^ 63 ->
  exists h', ram_write_at a off b h = Ret (Ok (zlen b), h') /\ ram_read_at a off (zlen b) h' = Ret ((Ok (zlen b), b), h').
Proof.
  intros He Ek Ho Hb. destruct (splice_resized e off b Ho Hb) as (d1 & E1 & E2).
  exists (mkRamHeap (<[a := mkEntry File (overwrite (e_data e) off b) (e_children e)]> (nodes h)) (fresh_addr h)). split.
  - unfold ram_write_at, st_bind at 1, entry. rewrite He. cbn [obind]. rewrite decide_False by (rewrite Ek; auto).
    unfold st_bind, st_lift. rewrite checked_fits by (unfold zlen in *; lia). simpl. rewrite E1. simpl. rewrite E2. simpl. by rewrite Ek.
  - unfold ram_read_at, st_bind at 1, entry. cbn [nodes]. rewrite lookup_insert_eq. cbn [obind e_kind e_data].
    rewrite decide_False by auto. rewrite overwrite_length by done.
    destruct (Z.leb_spec (Z.max (zlen (e_data e)) (off + zlen b)) off) as [Hle | Hgt].
    + destruct b; [done |]. unfold zlen in *. simpl in *. lia.
    + rewrite Z.min_l by lia. unfold st_bind, st_lift. by rewrite slice_overwrite.
Qed.

(** ** A file of PondFS *)

Section PondRoundTrip.
  Context {D : Type} {BD : BlockDevice D} {DK : Disk D} {PD : Padding}.

(** The two ways PondFS refuses a write of [n] bytes: past the largest size of
    a file, and when there are not as many free blocks as are missing. *)
Inductive pond_refuses (s : Pond D) (i off n : Z) : FsError -> Prop :=
  | too_large : MAX_FILE < off + n -> pond_refuses s i off n Unsupported
  | disk_full : off + n <= MAX_FILE -> free_blocks s < missing (eff s i) 0 (div_ceil (off + n) BLOCK_SIZE) ->
      pond_refuses s i off n NoSpace.

Lemma pond_write_read s a i off b data :
  pond_inv s -> unlocked s -> handle s a i -> disk_node (dev s) (sb s) i = Some (PFile data) ->
  0 <= off -> off + zlen b < 2 ^ 63 -> Forall byte_ok b ->
  exists x s1, pond_write_at a off b s = Ret (x, s1) /\
    ((x = Ok (zlen b) /\ exists s2, pond_read_at a off (zlen b) s1 = Ret ((Ok (zlen b), b), s2)) \/
     (exists e, x = Err e /\ pond_refuses s i off (zlen b) e /\ keeps s s1)).
Proof.
  intros Hinv Hun Ha Hn Ho Hend Hb. destruct (pond_write_at_run s a i off b Hinv Hun Ha Ho ltac:(lia) Hb) as (x & s1 & E & Hx).
  rewrite Hn in Hx. exists x, s1. split; [exact E |].
  destruct (Z.ltb_spec MAX_FILE (off + zlen b)) as [Hm | Hm]; [| destruct Hx as [[-> Hs] | (-> & Hk & Hf)]].
  - destruct Hx as [-> Hk]. right. exists Unsupported. split; [done |]. by split; [apply too_large |].
  - left. split; [done |]. pose proof (zlen_nonneg b).
    destruct (pond_read_at_run s1 a i (st_inv _ _ _ _ Hs) (st_un _ _ _ _ Hs) (st_handles _ _ _ _ Hs _ _ Ha) off (zlen b)) as (y & s2 & E2 & _ & Hy); [lia .. |].
    rewrite (st_sb _ _ _ _ Hs), (st_node _ _ _ _ Hs) in Hy. exists s2. rewrite E2, Hy. cbv zeta.
    pose proof (slice_overwrite data off b Ho) as Hsl. apply slice_Ret in Hsl as (_ & _ & _ & Hsl). by rewrite <- Hsl.
  - right. exists NoSpace. split; [done |]. by split; [apply disk_full |].
Qed.
End PondRoundTrip.

Section RoundTrip.
  Context {A W D H V : Type}.
  Context {FA : FrameAllocator A} {PE : PageTableEntry} {PL : PageTableEntryLaws} {KMm : KernelMemory A} {PIO : PortIO W}.
  Context {BD : BlockDevice D} {DK : Disk D} {PD : Padding} {EP : ElfParser} {KH : KernelHeap H} {IM : Image}.
  Context {ND : NetDriver V} {AD : AudioDriver V}.
  Variables (managed : Z -> Z -> bool) (polls turns : nat).
Abbreviation Sys := (System A W D H V).
Abbreviation safe := (IpcFrames.safe managed).
  Implicit Types y : Sys.

(** ** The program's memory *)

(** [bytes] are in the memory of the running program at [va]. *)
Definition in_memory (k : Kernel A) (va : Z) (bytes : list Z) : Prop :=
  user_buf va (zlen bytes) /\ forall i b, bytes !! i = Some b -> ubyte k (va + Z.of_nat i) = Some b.
(** There is memory of [n] bytes at [va]. *)
Definition mapped_buf (k : Kernel A) (va n : Z) : Prop := user_buf va n /\ forall i, 0 <= i < n -> is_Some (ubyte k (va + i)).

Lemma in_memory_bytes e k va bytes : safe e k -> in_memory k va bytes -> Forall byte_ok bytes.
Proof.
  intros [owner Hm] [_ Hb]. apply Forall_lookup. intros i b Hi. apply Hb in Hi. unfold ubyte in Hi.
  destruct (phys_for_virt _ _ _); [| done]. injection Hi as <-. apply (inv_mem _ _ _ (mi_pt _ _ _ _ Hm)).
Qed.

Lemma cpu_store_mapped k va b : 0 <= va < 2 ^ 47 -> is_Some (ubyte k va) -> exists k', cpu_store va b k = Ret (tt, k').
Proof.
  intros Hva [c Hc]. unfold cpu_store, ubyte in *. rewrite (proj2 (Z.leb_le 0 va)), (proj2 (Z.ltb_lt va (2 ^ 47))) by lia.
  cbn [andb]. destruct (phys_for_virt _ _ va); [| done]. by eexists.
Qed.

Lemma store_bytes_mapped (l : list Z) e k va : safe e k -> Forall byte_ok l -> mapped_buf k va (zlen l) ->
  exists k', store_bytes va l k = Ret (tt, k').
Proof.
  intros Hs Hl. revert va k Hs. induction Hl as [| b l Hbo Hl IH]; intros va k Hs [[Hv Hend] Hm]; [by eexists |].
  cbn [store_bytes]. rewrite zlen_cons in *. assert (0 <= zlen l) by (unfold zlen; lia).
  destruct (cpu_store_mapped k va b) as [k1 E1]; [lia | rewrite <- (Z.add_0_r va); apply Hm; lia |].
  rewrite (st_bind_step _ _ _ _ _ E1). destruct (cpu_store_ubyte managed e k k1 va b tt Hs ltac:(lia) Hbo E1) as [_ H1'].
  destruct l as [| b' l]; [by eexists |]. assert (0 < zlen (b' :: l)) by (rewrite zlen_cons; unfold zlen; lia).
  unfold wrap. rewrite Z.mod_small by lia.
  apply (IH (va + 1) k1 (safe_cpu_store managed e k va b Hs ltac:(lia) Hbo tt k1 E1)). split; [split; lia |].
  intros i Hi. destruct (H1' (va + 1 + i) ltac:(lia)) as [_ ->]. case_match; [by eexists |].
  replace (va + 1 + i) with (va + (1 + i)) by lia. apply Hm. lia.
Qed.

Lemma store_bytes_in_memory (l : list Z) e k va : safe e k -> Forall byte_ok l -> mapped_buf k va (zlen l) ->
  exists k', store_bytes va l k = Ret (tt, k') /\ in_memory k' va l.
Proof.
  intros Hs Hl Hm. destruct (store_bytes_mapped l e k va Hs Hl Hm) as [k' E]. exists k'. split; [done |].
  destruct Hm as [Hu _]. split; [done |]. destruct Hu as [Hv Hend].
  destruct (store_bytes_ubyte managed l e k k' va tt Hs (conj Hv Hend) Hl E) as [_ Hb]. intros i b Hi.
  pose proof (lookup_lt_Some _ _ _ Hi). destruct (Hb (va + Z.of_nat i)) as [_ ->]; [unfold zlen in *; lia |].
  rewrite (proj2 (Z.leb_le _ _)), (proj2 (Z.ltb_lt _ _)) by (unfold zlen in *; lia). simpl.
  replace (Z.to_nat (va + Z.of_nat i - va)) with i by lia. done.
Qed.

(** ** Calls on an open file *)

(** Descriptor [fd] of the running task is the open file [a], which is [f]. *)
Definition fd_is y (fd a : Z) (f : OpenFile Node) : Prop :=
  exists task, CURRENT (k_sched (sy_kernel y)) = Some task /\ fd_get (fd_table y task) fd = Some a /\ sy_open y !! a = Some f.

Lemma with_file_is y fd a f body : fd_is y fd a f -> with_file fd body y = body a f y.
Proof.
  intros (task & Hc & Hfd & Hf). unfold with_file, current_task.
  erewrite st_bind_step by (unfold get_sched, st_bind, st_ret; cbn [obind]; rewrite Hc; reflexivity). cbv match.
  erewrite st_bind_step by (unfold get_file; rewrite Hfd, Hf; reflexivity). done.
Qed.

(** What the offset becomes when a transfer succeeds. *)
Definition moved y (a off : Z) : Sys :=
  with_open y (alter (fun f => mkOpenFile (inode f) off (flags f)) a (sy_open y)) (sy_next_open y).
Lemma fd_is_moved y fd a f off : fd_is y fd a f -> fd_is (moved y a off) fd a (mkOpenFile (inode f) off (flags f)).
Proof. intros (task & Hc & Hfd & Hf). exists task. split_and!; [done | done |]. cbn. by rewrite lookup_alter_eq, Hf. Qed.

(** The inode is a file, of the RAM file system or of the mounted PondFS. *)
Definition is_file (fs : Files W D) (nd : Node) : Prop :=
  match nd with
  | RamNode n => exists e, nodes (f_ram fs) !! n = Some e /\ e_kind e = File
  | PondNode p => exists s i data, f_pond fs = Some s /\ pond_inv s /\ unlocked s /\ handle s p i /\
      disk_node (dev s) (sb s) i = Some (PFile data)
  | TermNode _ => False
  end.
(** A write of [n] bytes is refused with [e]: only PondFS does that, and every
    file and directory of it keeps its contents. *)
Definition refused (fs : Files W D) (nd : Node) (off n : Z) (e : FsError) (fs1 : Files W D) : Prop :=
  exists p s i s1, nd = PondNode p /\ f_pond fs = Some s /\ handle s p i /\ pond_refuses s i off n e /\
    keeps s s1 /\ fs1 = mkFiles (f_ram fs) (Some s1) (f_term fs).

#[local] Instance inodes : Inode (Files W D) Node := files_inode polls turns.

Lemma node_write_read fs nd off b : is_file fs nd -> 0 <= off -> off + zlen b < 2 ^ 63 -> Forall byte_ok b ->
  exists x fs1, i_write_at nd off b fs = Ret (x, fs1) /\
    ((x = Ok (zlen b) /\ exists fs2, i_read_at nd off (zlen b) fs1 = Ret ((Ok (zlen b), b), fs2)) \/
     (exists e, x = Err e /\ refused fs nd off (zlen b) e fs1)).
Proof.
  intros Hf Ho Hend Hb. destruct nd as [n | p |]; [| | done].
  - destruct Hf as (e & He & Ek). destruct (ram_write_read _ n e off b He Ek Ho Hend) as (h' & Ew & Er).
    eexists _, _. split; [cbn; unfold on_ram; cbn; rewrite Ew; reflexivity |]. left. split; [done |].
    eexists. cbn. unfold on_ram. cbn. rewrite Er. reflexivity.
  - destruct Hf as (s & i & data & Hp & Hinv & Hun & Ha & Hn).
    destruct (pond_write_read s p i off b data Hinv Hun Ha Hn Ho Hend Hb) as (x & s1 & Ew & Hx).
    eexists _, _. split; [cbn [i_write_at inodes files_inode]; unfold on_pond; rewrite Hp; cbn [i_write_at pond_inode]; rewrite Ew; reflexivity |].
    destruct Hx as [[-> (s2 & Er)] | (e & -> & He & Hk)]; [left; split; [done |] | right; exists e; split; [done |]].
    + eexists. cbn [i_read_at inodes files_inode]. unfold on_pond. cbn [f_pond i_read_at pond_inode]. rewrite Er. reflexivity.
    + by exists p, s, i, s1.
Qed.

(** What [sys_write] answers, and what of the system it changes, from what the
    inode answers. *)
Definition written y (a : Z) (f : OpenFile Node) (x : result Z FsError) (fs1 : Files W D) : Z * Sys :=
  match x with
  | Ok n => (n, moved (with_files y fs1) a (wrap 64 (offset f + n)))
  | Err e => (fs_err_to_code e, with_files y fs1)
  end.

Lemma write_file y fd a f buf bytes x fs1 :
  fd_is y fd a f -> buf <> 0 -> zlen bytes <= MAX_IO -> in_memory (sy_kernel y) buf bytes ->
  i_write_at (inode f) (offset f) bytes (sy_files y) = Ret (x, fs1) ->
  sys_write polls turns fd buf (zlen bytes) y = Ret (written y a f x fs1).
Proof.
  intros Hfd Hb Hmax [Hu Hm] Ew. unfold sys_write.
  rewrite (proj2 (Z.ltb_ge _ _) Hmax), (proj2 (Z.eqb_neq _ _) Hb). cbn [orb]. rewrite (with_file_is _ _ _ _ _ Hfd).
  erewrite st_bind_step. 2:{ unfold load_user, on_kernel. unfold zlen. rewrite Nat2Z.id, (load_bytes_ubyte bytes) by done. reflexivity. }
  erewrite st_bind_step. 2:{ unfold on_files. change (sy_files (with_kernel y (sy_kernel y))) with (sy_files y).
    change (call_inode polls turns) with inodes. rewrite Ew. reflexivity. }
  by destruct x.
Qed.

Lemma seek_set y fd a f off : fd_is y fd a f -> 0 <= off < 2 ^ 63 ->
  sys_lseek polls turns fd off SEEK_SET y = Ret (off, moved y a off).
Proof.
  intros Hfd Ho. unfold sys_lseek. rewrite (with_file_is _ _ _ _ _ Hfd). cbv zeta. change (SEEK_SET =? SEEK_SET) with true. cbv match.
  rewrite Z.max_l by lia. unfold st_bind, set_offset, st_modify, st_ret. cbn [obind]. unfold signed.
  rewrite Z.mod_small by lia. by rewrite (proj2 (Z.ltb_lt off (2 ^ (64 - 1)))) by lia.
Qed.

Lemma read_file y fd a f buf bytes fs2 k' :
  fd_is y fd a f -> buf <> 0 -> zlen bytes <= MAX_IO ->
  i_read_at (inode f) (offset f) (zlen bytes) (sy_files y) = Ret ((Ok (zlen bytes), bytes), fs2) ->
  store_bytes buf bytes (sy_kernel y) = Ret (tt, k') ->
  exists y', sys_read polls turns fd buf (zlen bytes) y = Ret (zlen bytes, y') /\ sy_kernel y' = k'.
Proof.
  intros Hfd Hb Hmax Er Es. unfold sys_read.
  rewrite (proj2 (Z.ltb_ge _ _) Hmax), (proj2 (Z.eqb_neq _ _) Hb). cbn [orb]. rewrite (with_file_is _ _ _ _ _ Hfd).
  erewrite st_bind_step. 2:{ unfold on_files. change (call_inode polls turns) with inodes. rewrite Er. reflexivity. }
  cbv match. erewrite st_bind_step. 2:{ unfold store_user, on_kernel. cbn [with_files sy_kernel]. rewrite Es. reflexivity. }
  eexists. split; reflexivity.
Qed.

(** C15 What a program writes to a file, of the RAM file system or of PondFS,
    it can seek back to and read.  [sys_write] of the bytes of a buffer returns.
    Either it returns their number, and then [sys_lseek] to where the write
    began and [sys_read] of as many bytes put the same bytes into a second
    buffer, wherever the two are in the memory of the program, and return what
    they should; or the file is one of PondFS and the write is refused, because
    it ends past the largest size of a file or because the disk has fewer free
    blocks than it takes: then the code of that error is returned, the offset
    stays and every file keeps its contents. *)
Theorem file_round_trip y (fd a buf dst : Z) (f : OpenFile Node) (bytes : list Z) :
  safe [] (sy_kernel y) -> fd_is y fd a f -> is_file (sy_files y) (inode f) ->
  0 <= offset f -> offset f + zlen bytes < 2 ^ 63 -> zlen bytes <= MAX_IO -> buf <> 0 -> dst <> 0 ->
  in_memory (sy_kernel y) buf bytes -> mapped_buf (sy_kernel y) dst (zlen bytes) ->
  exists r y1, sys_write polls turns fd buf (zlen bytes) y = Ret (r, y1) /\
    ((r = zlen bytes /\ exists y2 y3,
        sys_lseek polls turns fd (offset f) SEEK_SET y1 = Ret (offset f, y2) /\
        sys_read polls turns fd dst (zlen bytes) y2 = Ret (zlen bytes, y3) /\
        in_memory (sy_kernel y3) dst bytes) \/
     (exists e fs1, r = fs_err_to_code e /\ y1 = with_files y fs1 /\
        refused (sy_files y) (inode f) (offset f) (zlen bytes) e fs1)).
Proof.
  intros Hs Hfd Hfile Ho Hend Hmax Hb Hd Hin Hdst. pose proof (in_memory_bytes [] _ buf _ Hs Hin) as Hbytes.
  destruct (node_write_read _ _ (offset f) bytes Hfile Ho Hend Hbytes) as (x & fs1 & Ew & Hx).
  pose proof (write_file y fd a f buf bytes x fs1 Hfd Hb Hmax Hin Ew) as E1.
  destruct Hx as [[-> (fs2 & Er)] | (e & -> & He)]; do 2 eexists; (split; [exact E1 |]).
  2:{ right. exists e, fs1. done. }
  left. split; [done |]. assert (fd_is (with_files y fs1) fd a f) as Hfd0 by exact Hfd.
  pose proof (fd_is_moved _ _ _ _ (wrap 64 (offset f + zlen bytes)) Hfd0) as Hfd1.
  pose proof (fd_is_moved _ _ _ _ (offset f) Hfd1) as Hfd2.
  destruct (store_bytes_in_memory bytes [] (sy_kernel y) dst Hs Hbytes Hdst) as (k' & Es & Hk').
  destruct (read_file _ fd a _ dst bytes fs2 k' Hfd2) as (y3 & E3 & Hy3); [done .. | subst k'].
  do 2 eexists. split; [apply (seek_set _ fd a _ _ Hfd1); pose proof (zlen_nonneg bytes); lia |].
  split; [exact E3 | exact Hk'].
Qed.
End RoundTrip.

(** Spring, with "hi" in the page of its buffer and a new file open as
    descriptor 3: a file of the RAM file system, or of PondFS. *)
Import Demo.
Definition hi : list Z := [0x68; 0x69].
Definition hi_kernel : Kernel PmmState :=
  match store_bytes 0x400100 hi mail_boot with Ret (_, k) => k | _ => mail_boot end.
Definition hi_file (nd : Node) : OpenFile Node := mkOpenFile nd 5 FD_WRITE.
Definition hi_system (nd : Node) : System PmmState (list Z) MemDisk Z unit :=
  mkSystem hi_kernel (mkFiles (mkRamHeap {[1 := mkEntry File [] ∅]} 2) (Some tiny_created) (mkPs2 [] input_state_new)) []
    {[7 := hi_file nd]} 8 {[2 := mkFdTable {[3 := 7]} 4]} (mkScreen None (fun _ => 0)) 0x80000 tt ∅.

Lemma hi_stored : store_bytes 0x400100 hi mail_boot = Ret (tt, hi_kernel).
Proof.
  assert (match store_bytes 0x400100 hi mail_boot with Ret _ => true | _ => false end = true) as E by (vm_compute; reflexivity).
  unfold hi_kernel. destruct (store_bytes 0x400100 hi mail_boot) as [[[] k] | | |]; [done | discriminate E ..].
Qed.
Lemma hi_safe : IpcFrames.safe all_managed [] hi_kernel.
Proof.
  refine (safe_store all_managed [] mail_boot 0x400100 hi mail_boot_safe _ _ tt hi_kernel hi_stored).
  - split; vm_compute; congruence.
  - repeat (apply Forall_cons_2; [unfold byte_ok; lia |]). by apply Forall_nil_2.
Qed.

Lemma hi_in_memory : in_memory hi_kernel 0x400100 hi.
Proof. split; [split; vm_compute; congruence |]. intros [| [| i]] b; [intros [= <-]; vm_compute; reflexivity .. | done]. Qed.
Lemma hi_mapped : mapped_buf hi_kernel 0x400200 (zlen hi).
Proof.
  split; [split; vm_compute; congruence |]. intros i Hi. change (zlen hi) with 2 in Hi.
  assert (i = 0 \/ i = 1) as [-> | ->] by lia; refine (bool_decide_unpack _ _); vm_compute; exact I.
Qed.
Lemma hi_pond : is_file (D := MemDisk) (sy_files (hi_system (PondNode 1))) (PondNode 1).
Proof.
  destruct tiny_created_adds as [j Hj]. exists tiny_created, 2, []. split; [reflexivity |].
  split; [apply Hj |]. split; [apply Hj |]. split; [vm_compute; reflexivity |]. vm_compute. reflexivity.
Qed.
Lemma hi_fits e fs1 : ~ refused (D := MemDisk) (sy_files (hi_system (PondNode 1))) (PondNode 1) 5 2 e fs1.
Proof.
  intros (p & s & i & s1 & [= <-] & [= <-] & Hh & Hr & _). assert (i = 2) as ->.
  { unfold handle in Hh. assert (inode_cache tiny_created = {[1 := 0; 2 := 1]}) as E by (vm_compute; reflexivity). rewrite E in Hh. clear E.
    apply lookup_insert_Some in Hh as [[_ ?] | [_ Hh]]; [done |]. by apply lookup_singleton_Some in Hh as [-> _]. }
  destruct Hr as [H | _ H]; vm_compute in H; discriminate H.
Qed.

Lemma file_round_trip_witness : Forall (fun nd => exists y1 y2 y3,
  sys_write 1 1 3 0x400100 2 (hi_system nd) = Ret (2, y1) /\ sys_lseek 1 1 3 5 SEEK_SET y1 = Ret (5, y2) /\
  sys_read 1 1 3 0x400200 2 y2 = Ret (2, y3) /\ in_memory (sy_kernel y3) 0x400200 hi) [RamNode 1; PondNode 1].
Proof.
  assert (forall nd, fd_is (hi_system nd) 3 7 (hi_file nd)) as Hfd by (intros nd; exists 2; split_and!; reflexivity).
  apply Forall_cons_2; [| apply Forall_cons_2; [| apply Forall_nil_2]].
  - destruct (file_round_trip all_managed 1 1 (hi_system (RamNode 1)) 3 7 0x400100 0x400200 (hi_file (RamNode 1)) hi hi_safe (Hfd _))
      as (r & y1 & E & [(-> & y2 & y3 & H) | (e & fs1 & _ & _ & p & s & i & s1 & Hn & _)]);
      [by eexists | cbn; lia | reflexivity | vm_compute; congruence | lia | lia | exact hi_in_memory | exact hi_mapped | | discriminate Hn].
    exists y1, y2, y3. split; [exact E | exact H].
  - destruct (file_round_trip all_managed 1 1 (hi_system (PondNode 1)) 3 7 0x400100 0x400200 (hi_file (PondNode 1)) hi hi_safe (Hfd _))
      as (r & y1 & E & [(-> & y2 & y3 & H) | (e & fs1 & _ & _ & Hr)]);
      [exact hi_pond | cbn; lia | reflexivity | vm_compute; congruence | lia | lia | exact hi_in_memory | exact hi_mapped | | destruct (hi_fits _ _ Hr)].
    exists y1, y2, y3. split; [exact E | exact H].
Defined.
