(* ===== verification/BootProps.v ===== *)
(** * The files of a system that has booted *)

From S2P Require Import Prelude Bytes Utf8 Frames Pmm X86 Vmm Asm Sched Kernel Ipc PortIo Ps2.
From S2P Require Import Inode Vfs RamFs RamFsProps Block PondLayout PondFs PondExample Files Framebuffer Elf E1000 Ac97 System Boot.

(** ** The RAM file system at boot *)

(** A root with the two files. *)
Definition hello_name : Str := drop 1 HELLO_PATH.
Definition init_name : Str := drop 1 INIT_PATH.
Definition boot_heap (elf : list Z) : RamHeap :=
  mkRamHeap (<[2 := mkEntry File elf ∅]> (<[0 := mkEntry Dir [] (<[init_name := 2]> {[hello_name := 1]})]>
    {[1 := mkEntry File HELLO_TEXT ∅]})) 3.

Lemma write_empty h a bytes : nodes h !! a = Some (mkEntry File [] ∅) -> zlen bytes < 2 ^ 63 ->
  ram_write_at a 0 bytes h = Ret (Ok (zlen bytes), mkRamHeap (<[a := mkEntry File bytes ∅]> (nodes h)) (fresh_addr h)).
Proof.
  intros He Hb. pose proof (zlen_nonneg bytes). destruct (splice_resized (mkEntry File [] ∅) 0 bytes) as (d1 & E1 & E2); [lia | done |].
  unfold ram_write_at, st_bind at 1, entry. rewrite He. cbn [obind]. rewrite decide_False by (cbn; auto).
  unfold st_bind, st_lift. rewrite checked_fits by lia. cbn [obind]. rewrite E1. cbn [obind]. rewrite E2. cbn [obind].
  unfold overwrite. cbn [e_data]. rewrite take_nil, drop_nil, app_nil_r. done.
Qed.


Lemma ram_read_whole h a data : nodes h !! a = Some (mkEntry File data ∅) ->
  ram_read_at a 0 (zlen data) h = Ret ((Ok (zlen data), data), h).
Proof.
  intros Ha. unfold ram_read_at, entry, st_bind. rewrite Ha. cbn [obind e_kind e_data]. rewrite decide_False by auto.
  destruct (Z.leb_spec (zlen data) 0) as [Hz | Hz].
  - destruct data; [done |]. rewrite zlen_cons in Hz. pose proof (zlen_nonneg data). lia.
  - rewrite Z.sub_0_r, Z.min_id. unfold st_lift. replace (slice data 0 (zlen data)) with (Ret data); [done |].
    symmetry. apply slice_Ret. split_and!; [lia | lia | lia |]. unfold zlen. by rewrite Nat2Z.id, drop_0, firstn_all.
Qed.

(** The heap after [RamFs::new], and with [/hello.txt]. *)
Definition root_heap : RamHeap := mkRamHeap {[0 := mkEntry Dir [] ∅]} 1.
Definition hello_heap : RamHeap :=
  Eval vm_compute in match put_file (mkRamFs 0) HELLO_PATH HELLO_TEXT root_heap with Ret (_, h) => h | _ => root_heap end.

Lemma put_hello : put_file (mkRamFs 0) HELLO_PATH HELLO_TEXT root_heap = Ret (tt, hello_heap).
Proof. vm_compute. reflexivity. Qed.
Lemma put_init elf : zlen elf < 2 ^ 63 -> put_file (mkRamFs 0) INIT_PATH elf hello_heap = Ret (tt, boot_heap elf).
Proof.
  intros Hl. unfold put_file. change (negb (starts_with INIT_PATH [SLASH])) with false.
  change (components INIT_PATH) with [init_name]. cbn [last removelast make_dirs].
  erewrite st_bind_step by reflexivity. erewrite st_bind_step by (vm_compute; reflexivity).
  erewrite st_bind_step; [reflexivity |]. unfold expect.
  erewrite st_bind_step by (apply write_empty; [reflexivity | done]). vm_compute. reflexivity.
Qed.

Section Booted.
  Context {A W D H V : Type}.
  Context {FA : FrameAllocator A} {PE : PageTableEntry} {KMm : KernelMemory A} {PIO : PortIO W}.
  Context {BD : BlockDevice D} {PD : Padding} {EP : ElfParser} {KH : KernelHeap H} {IM : Image}.
  Variables (polls turns : nat).
Abbreviation Sys := (System A W D H V).
Abbreviation M X := (SM A W D H V X).
  Implicit Types y : Sys.

(** ** Paths of the mounted system *)

Definition set_files y (f : Files W D) (m : MountTable MountedFs) : Sys :=
  mkSystem (sy_kernel y) f m (sy_open y) (sy_next_open y) (sy_fds y) (sy_screen y) (sy_heap y) (sy_dev y) (sy_waiters y).

Lemma on_ram_step {X} (c : RM X) y x h :
  c (f_ram (sy_files y)) = Ret (x, h) ->
  on_files (on_ram c) y = Ret (x, set_files y (mkFiles h (f_pond (sy_files y)) (f_term (sy_files y))) (MOUNTS y)).
Proof. intros E. unfold on_files, on_ram. by rewrite E. Qed.

(** Reading a whole file by its path. *)
Definition read_path (path : Str) : M (result (list Z) SpawnError) :=
  let* r := vfs_lookup polls turns path in
  match r with Err _ => st_ret (Err SpFs) | Ok n => read_whole polls turns n end.

Lemma set_files_self y f m : sy_files y = f -> MOUNTS y = m -> set_files y f m = y.
Proof. intros <- <-. by destruct y. Qed.

(** A path of one component below the mount point of the RAM file system. *)
Lemma read_ram_path y path rest name a e data :
  starts_with path [SLASH] = true -> resolve_mount (MOUNTS y) path = Some (RamMount (mkRamFs 0), rest) -> components rest = [name] ->
  nodes (f_ram (sy_files y)) !! 0 = Some e -> e_kind e = Dir -> e_children e !! name = Some a ->
  nodes (f_ram (sy_files y)) !! a = Some (mkEntry File data ∅) -> zlen data < 2 ^ 63 ->
  read_path path y = Ret (Ok data, y).
Proof.
  intros Hp Hm Hc Hr Hk Hn Ha Hl. pose proof (zlen_nonneg data) as Hpos.
  assert (forall y', y' = set_files y (mkFiles (f_ram (sy_files y)) (f_pond (sy_files y)) (f_term (sy_files y))) (MOUNTS y) -> y' = y) as Hself.
  { intros y' ->. apply set_files_self; [by destruct (sy_files y) | done]. }
  assert (vfs_lookup polls turns path y = Ret (Ok (RamNode a), y)) as Hlook.
  { unfold vfs_lookup, Vfs.lookup. rewrite Hp, Hm, Hc. cbn [negb walk_components root mounted_filesystem ram_root].
    unfold on_files, st_try, st_bind. cbn [i_lookup node_inode files_inode]. unfold wrap_node, on_ram, st_bind.
    cbn [i_lookup ram_inode]. unfold ram_lookup, entry, st_bind. rewrite Hr. cbn [obind]. rewrite decide_False by (rewrite Hk; auto).
    rewrite Hn. unfold st_ret. cbn [obind]. repeat f_equal. by apply Hself. }
  unfold read_path. rewrite (st_bind_step _ _ _ _ _ Hlook). unfold read_whole.
  erewrite st_bind_step. 2:{ cbn [i_size node_inode files_inode]. apply on_ram_step. cbn [i_size ram_inode].
    unfold ram_size, entry, st_bind. rewrite Ha. reflexivity. }
  rewrite (Hself _ eq_refl). cbn [e_data]. rewrite (proj2 (Z.leb_gt _ _) Hl).
  erewrite st_bind_step. 2:{ cbn [i_read_at node_inode files_inode]. apply on_ram_step. cbn [i_read_at ram_inode].
    by apply ram_read_whole. }
  rewrite (Hself _ eq_refl). cbv match. unfold zlen. rewrite Nat2Z.id, Nat.sub_diag, app_nil_r, firstn_all. done.
Qed.

(** ** Mounting *)

Definition boot_mount : Str * MountedFs := (BOOT_PATH, RamMount (mkRamFs 0)).
(** The file system on the disk, if there is one that mounts. *)
Definition root_disk (nvme : option D) : option (Pond D * Z) :=
  match nvme with
  | Some d => match pond_mount d with Ret (Ok x) => Some x | _ => None end
  | None => None
  end.
(** The state when all is mounted. *)
Definition mounted_system y (elf : list Z) (disk : option (Pond D * Z)) : Sys :=
  set_files y
    (mkFiles (boot_heap elf) (match disk with Some (p, _) => Some p | None => f_pond (sy_files y) end) (f_term (sy_files y)))
    [boot_mount; ([SLASH], match disk with Some (_, r) => PondMount r | None => RamMount (mkRamFs 0) end)].

Lemma boot_root elf : nodes (boot_heap elf) !! 0 = Some (mkEntry Dir [] (<[init_name := 2]> {[hello_name := 1]})).
Proof. vm_compute. reflexivity. Qed.

Lemma lookup_root y disk elf :
  vfs_lookup polls turns [SLASH] (mounted_system y elf disk) =
    Ret (Ok (match disk with Some (_, r) => PondNode r | None => RamNode 0 end), mounted_system y elf disk).
Proof. destruct disk as [[p r] |]; reflexivity. Qed.

Lemma seed_mounted y elf : seed_init_into_vfs polls turns elf (mounted_system y elf None) = Ret (tt, mounted_system y elf None).
Proof.
  unfold seed_init_into_vfs. rewrite (st_bind_step _ _ _ _ _ (lookup_root y None elf)). cbv match.
  rewrite (st_bind_step _ _ _ (mounted_system y elf None) (Ok (RamNode 2))); [reflexivity |]. unfold on_files. cbn [i_lookup node_inode files_inode]. unfold wrap_node, on_ram, st_bind.
  cbn [i_lookup ram_inode mounted_system set_files sy_files f_ram]. unfold ram_lookup, entry, st_bind.
  rewrite boot_root. cbn [obind e_kind e_children]. rewrite decide_False by auto.
  change (drop 1 INIT_PATH) with init_name. rewrite lookup_insert_eq. reflexivity.
Qed.

Lemma mount_filesystems_spec y nvme elf :
  f_ram (sy_files y) = mkRamHeap ∅ 0 -> MOUNTS y = [] -> zlen elf < 2 ^ 63 ->
  (forall d, nvme = Some d -> exists r, pond_mount d = Ret r) ->
  mount_filesystems polls turns nvme elf y = Ret (tt, mounted_system y elf (root_disk nvme)).
Proof.
  intros Hr Hm Hl Hn. unfold mount_filesystems.
  erewrite st_bind_step by (apply on_ram_step; rewrite Hr; reflexivity).
  erewrite st_bind_step by (apply on_ram_step; exact put_hello).
  erewrite st_bind_step by (apply on_ram_step; by apply put_init).
  erewrite st_bind_step by reflexivity. cbn [set_files sy_files MOUNTS sy_kernel f_pond f_term sy_open sy_next_open sy_fds sy_screen sy_heap sy_dev sy_waiters].
  rewrite Hm. set (y1 := mkSystem _ _ _ _ _ _ _ _ _ _).
  assert (root_disk nvme = None -> (let* _ := mount_at [SLASH] (RamMount (mkRamFs 0)) in seed_init_into_vfs polls turns elf) y1 =
    Ret (tt, mounted_system y elf None)) as Hfall.
  { intros _. exact (seed_mounted y elf). }
  destruct nvme as [d |]; [| by erewrite st_bind_step by reflexivity; apply Hfall].
  destruct (Hn d eq_refl) as [r Er]. unfold root_disk in *. rewrite Er in *.
  destruct r as [[p root] | e].
  - erewrite st_bind_step by (unfold mount_pond; rewrite Er; reflexivity). reflexivity.
  - erewrite st_bind_step by (unfold mount_pond; rewrite Er; reflexivity). by apply Hfall.
Qed.

(** C34 The files of a system that has booted: mounting returns, with a disk or
    without one.  [/boot/init] and [/boot/hello.txt] read as what the kernel
    put there.  A disk with a PondFS that mounts is the root; otherwise the
    root is the RAM file system, and [/init] is the program in the kernel. *)
Theorem boot_mounts_files y nvme elf :
  f_ram (sy_files y) = mkRamHeap ∅ 0 -> MOUNTS y = [] -> zlen elf < 2 ^ 63 ->
  (forall d, nvme = Some d -> exists r, pond_mount d = Ret r) ->
  exists y', mount_filesystems polls turns nvme elf y = Ret (tt, y') /\
    read_path (BOOT_PATH ++ INIT_PATH) y' = Ret (Ok elf, y') /\
    read_path (BOOT_PATH ++ HELLO_PATH) y' = Ret (Ok HELLO_TEXT, y') /\
    match root_disk nvme with
    | Some (p, r) => f_pond (sy_files y') = Some p /\ vfs_lookup polls turns [SLASH] y' = Ret (Ok (PondNode r), y')
    | None => read_path INIT_PATH y' = Ret (Ok elf, y') /\ read_path HELLO_PATH y' = Ret (Ok HELLO_TEXT, y')
    end.
Proof.
  intros Hr Hm Hl Hn. exists (mounted_system y elf (root_disk nvme)). split; [by apply mount_filesystems_spec |].
  set (root := mkEntry Dir [] (<[init_name := 2]> {[hello_name := 1]})).
  assert (forall path rest, starts_with path [SLASH] = true ->
    resolve_mount (MOUNTS (mounted_system y elf (root_disk nvme))) path = Some (RamMount (mkRamFs 0), rest) ->
    (components rest = [init_name] -> read_path path (mounted_system y elf (root_disk nvme)) = Ret (Ok elf, mounted_system y elf (root_disk nvme))) /\
    (components rest = [hello_name] -> read_path path (mounted_system y elf (root_disk nvme)) = Ret (Ok HELLO_TEXT, mounted_system y elf (root_disk nvme))))
    as Hread.
  { intros path rest Hp Hres. split; intros Hc.
    - apply (read_ram_path _ path rest init_name 2 root elf); try done; vm_compute; reflexivity.
    - apply (read_ram_path _ path rest hello_name 1 root HELLO_TEXT); try done; vm_compute; reflexivity. }
  split_and!.
  - by apply (Hread _ INIT_PATH).
  - by apply (Hread _ HELLO_PATH).
  - revert Hread. destruct (root_disk nvme) as [[p r] |]; intros Hread; split; [done | done | by apply (Hread _ init_name) | by apply (Hread _ hello_name)].
Qed.
End Booted.

Import Demo.
Lemma boot_mounts_files_witness : exists y',
  mount_filesystems 1 1 None HELLO_PATH Demo.machine = Ret (tt, y') /\ read_path 1 1 INIT_PATH y' = Ret (Ok HELLO_PATH, y').
Proof.
  destruct (boot_mounts_files 1 1 Demo.machine None HELLO_PATH) as (y' & E & _ & _ & Hi & _);
    [reflexivity | reflexivity | reflexivity | done |].
  exists y'. split; [exact E | exact Hi].
Defined.
