(* ===== verification/User.v ===== *)
(** * Programs

    A user program as the system calls it makes: [libs/libpersona/src/lib.rs].
    A call names its arguments with the bytes behind its pointers; an answer is
    the value of [rax] and what the kernel wrote to the memory that was passed.
    Programs are built in release mode: arithmetic wraps, and a panic is
    [exit(-1)]. *)

From Stdlib Require Import Strings.Ascii Strings.String.
From S2P Require Import Prelude Bytes.

(** A byte string literal, and one with a line feed at its end. *)
Definition b (s : string) : list Z := (fun c => Z.of_nat (nat_of_ascii c)) <$> list_ascii_of_string s.
Definition bn (s : string) : list Z := b s ++ [10].
Arguments b _%_string.
Arguments bn _%_string.

(** ** Calls *)

(** The structure [SendMsg], with the capabilities and the payload behind its
    pointers. *)
Record UMsg : Type := mkUMsg { um_regs : list Z; um_caps : list Z; um_pages : list Z }.

Inductive Call : Type :=
  | CWrite (fd : Z) (s : list Z)
  | CYield
  | CGetpid
  | COpen (path : list Z) (flags : Z)
  | CRead (fd len : Z)
  | CClose (fd : Z)
  | CSpawn (path : list Z)
  | CWaitpid (pid : Z)
  | CKill (pid code : Z)
  | CDisplayInfo
  | CDisplayClear (color : Z)
  | CDisplayFillRect (x y width height color : Z)
  | CDisplayDrawText (x y : Z) (text : list Z) (color : Z)
  | CInputPollByte
  | CNetConfigure
  | CNetInfo
  | CAudioPlayTone (freq_hz duration_ms : Z)
  | CAudioInfo
  | CPortCreate
  | CSend (cap : Z) (msg : UMsg)
  | CRecv (cap caps_max : Z)
  | CCapDrop (cap : Z)
  | CCapDup (cap mask : Z)
  | CName (op : Z) (name : list Z) (cap : Z)
  | CPeek (va len : Z).

(** [CPeek] is not a system call: the program looks at memory that a message
    brought it.

    [rax], the bytes written to the first structure or buffer that was passed,
    and those written to [caps_out]. *)
Record Answer : Type := mkAnswer { a_ret : Z; a_out : list Z; a_caps : list Z }.

(** How many bytes the kernel may write. *)
Definition out_len (c : Call) : Z :=
  match c with
  | CRead _ len => len
  | CWaitpid _ => 4
  | CDisplayInfo => 20
  | CNetConfigure | CNetInfo => 40
  | CAudioPlayTone _ _ | CAudioInfo => 16
  | CRecv _ _ => 88
  | CPeek _ len => len
  | _ => 0
  end.
Definition caps_len (c : Call) : Z := match c with CRecv _ n => 4 * n | _ => 0 end.

(** ** Programs *)

Inductive Prog (R : Type) : Type :=
  | PRet (r : R)
  | PCall (c : Call) (k : Answer -> Prog R)
  | PExit (code : Z)
  | PHang.
Arguments PRet {R} _.
Arguments PCall {R} _ _.
Arguments PExit {R} _.
Arguments PHang {R}.

Fixpoint pbind {A B} (p : Prog A) (f : A -> Prog B) : Prog B :=
  match p with
  | PRet a => f a
  | PCall c k => PCall c (fun x => pbind (k x) f)
  | PExit code => PExit code
  | PHang => PHang
  end.
Declare Scope prog_scope.
Delimit Scope prog_scope with prog.
Notation "'do!' x := p 'in' q" := (pbind p (fun x => q)) (at level 200, x pattern, p at level 100, q at level 200) : prog_scope.
Notation "p ;;; q" := (pbind p (fun _ => q)) (at level 100, right associativity) : prog_scope.
Open Scope prog_scope.

(** A panic ends in [on_panic]. *)
Definition plift {A} (o : outcome A) : Prog A :=
  match o with Ret a => PRet a | Panic => PExit (-1) | _ => PHang end.

(** ** libpersona *)

Definition call64 (c : Call) : Prog Z := PCall c (fun a => PRet (signed 64 (a_ret a))).
Definition call32 (c : Call) : Prog Z := PCall c (fun a => PRet (signed 32 (a_ret a))).
Definition call_ (c : Call) : Prog unit := PCall c (fun _ => PRet tt).
(** A buffer after the kernel has written to it. *)
Definition overlay (data buf : list Z) : list Z := take (length buf) data ++ drop (length data) buf.

Definition write (fd : Z) (s : list Z) : Prog Z := call64 (CWrite fd s).
Definition do_yield : Prog unit := call_ CYield.
Definition getpid : Prog Z := PCall CGetpid (fun a => PRet (a_ret a)).
Definition open (path : list Z) (flags : Z) : Prog Z := call32 (COpen path flags).
Definition read (fd : Z) (buf : list Z) : Prog (Z * list Z) :=
  PCall (CRead fd (zlen buf)) (fun a => PRet (signed 64 (a_ret a), overlay (a_out a) buf)).
Definition close (fd : Z) : Prog unit := call_ (CClose fd).
Definition exit {R} (code : Z) : Prog R := PExit code.
Definition spawn (path : list Z) : Prog Z := call64 (CSpawn path).
(** [status] is 0 before the call. *)
Definition waitpid (pid : Z) : Prog (Z * Z) :=
  PCall (CWaitpid pid) (fun a => PRet (signed 64 (a_ret a), signed 32 (le_val (overlay (a_out a) (replicate 4 0))))).
Definition kill (pid code : Z) : Prog Z := call64 (CKill pid code).

(** A structure of [n] bytes that is zero before the call, as its [u32]s. *)
Definition call_info (c : Call) : Prog (Z * list Z) :=
  PCall c (fun a => PRet (signed 64 (a_ret a), overlay (a_out a) (replicate (Z.to_nat (out_len c)) 0))).
Definition field32 (l : list Z) (off : nat) : Z := le_val (take 4 (drop off l)).
Definition display_info : Prog (Z * list Z) := call_info CDisplayInfo.
Definition net_configure : Prog (Z * list Z) := call_info CNetConfigure.
Definition net_info : Prog (Z * list Z) := call_info CNetInfo.
Definition audio_play_tone (freq_hz duration_ms : Z) : Prog (Z * list Z) := call_info (CAudioPlayTone freq_hz duration_ms).
Definition audio_info : Prog (Z * list Z) := call_info CAudioInfo.

Definition display_clear (color : Z) : Prog Z := call64 (CDisplayClear color).
Definition display_fill_rect (x y width height color : Z) : Prog Z := call64 (CDisplayFillRect x y width height color).
Definition display_draw_text (x y : Z) (text : list Z) (color : Z) : Prog Z := call64 (CDisplayDrawText x y text color).
Definition input_poll_byte : Prog Z := call64 CInputPollByte.

Definition ipc_port_create : Prog Z := call32 CPortCreate.
Definition ipc_send (cap : Z) (msg : UMsg) : Prog Z := call64 (CSend cap msg).
(** The fields of [RecvMsg] the kernel fills in, all zero before the call, and
    the array behind [caps_out]. *)
Record URecv : Type := mkURecv { ur_regs : list Z; ur_ncaps : Z; ur_pages_va : Z; ur_pages_len : Z }.
Definition u64_at (l : list Z) (i : nat) : Z := le_val (take 8 (drop (8 * i) l)).
Definition recv_of (l : list Z) : URecv := mkURecv (u64_at l <$> seq 0 6) (u64_at l 8) (u64_at l 9) (u64_at l 10).
Definition ipc_recv (cap caps_max : Z) : Prog (Z * URecv * list Z) :=
  PCall (CRecv cap caps_max) (fun a =>
    PRet (signed 64 (a_ret a), recv_of (overlay (a_out a) (replicate 88 0)), overlay (a_caps a) (replicate (Z.to_nat (4 * caps_max)) 0))).
Definition ipc_cap_drop (cap : Z) : Prog Z := call64 (CCapDrop cap).
Definition ipc_cap_dup (cap mask : Z) : Prog Z := call32 (CCapDup cap mask).
Definition IPC_NAME_PUBLISH : Z := 0.
Definition IPC_NAME_LOOKUP : Z := 1.
Definition ipc_name (op : Z) (name : list Z) (cap : Z) : Prog Z := call64 (CName op name cap).
Definition ipc_name_lookup (name : list Z) : Prog Z := ipc_name IPC_NAME_LOOKUP name 0.

Definition peek (va len : Z) : Prog (list Z) := PCall (CPeek va len) (fun a => PRet (overlay (a_out a) (replicate (Z.to_nat len) 0))).

Definition RIGHTS_SEND : Z := Z.shiftl 1 0.
Definition RIGHTS_RECV : Z := Z.shiftl 1 1.
Definition RIGHTS_DUP : Z := Z.shiftl 1 2.
Definition FD_CREATE : Z := Z.shiftl 1 2.
Definition REFLECTION_READY : Z := 0x7265666c00000001.
Definition SURFACE_DRAW : Z := 0x7375726600000001.
Definition SURFACE_SHUTDOWN : Z := 0x7375726600000002.
Definition SURFACE_DESKTOP : Z := 0x7375726600000003.
Definition SURFACE_SKIM : Z := 0x7375726600000004.
Definition SURFACE_STONES : Z := 0x7375726600000005.
Definition SURFACE_TIDE : Z := 0x7375726600000006.
Definition SURFACE_DRIFT : Z := 0x7375726600000007.

(** ** Numbers as text *)

(** The loop of [write_hex], from the last digit. *)
Fixpoint hex_loop (n : nat) (i v : Z) (buf : list Z) : outcome (list Z) :=
  match n with
  | O => Ret buf
  | S n =>
      let nib := Z.land v 0xF in
      let! buf := upd buf (15 - i) (if nib <? 10 then 48 + nib else 97 + nib - 10) in
      hex_loop n (i + 1) (Z.shiftr v 4) buf
  end.
Definition write_hex (fd v : Z) : Prog unit :=
  do! buf := plift (hex_loop 16 0 v (replicate 16 0)) in
  write fd buf ;;; PRet tt.

(** The loop of [write_dec]; 20 digits are more than an [i64] has. *)
Fixpoint dec_loop (fuel : nat) (v i : Z) (buf : list Z) : outcome (Z * list Z) :=
  if v <=? 0 then Ret (i, buf)
  else match fuel with
       | O => OutOfFuel
       | S fuel =>
           let! buf := upd buf (i - 1) (48 + v mod 10) in
           dec_loop fuel (v / 10) (i - 1) buf
       end.
Definition write_dec (v : Z) : Prog unit :=
  (if v <? 0 then write 1 (b "-") ;;; PRet tt else PRet tt) ;;;
  let v := if v <? 0 then signed 64 (- v) else v in
  if v =? 0 then write 1 (b "0") ;;; PRet tt
  else
    do! (i, buf) := plift (dec_loop 20 v 20 (replicate 20 0)) in
    write 1 (drop (Z.to_nat i) buf) ;;; PRet tt.

(** ** Running programs

    A program against any kernel that keeps to the interface, and rules for
    what its calls amount to. *)

(** ** Runs *)

Abbreviation History := (list (Call * Answer)).
Inductive Res (R : Type) : Type :=
  | Finished (r : R)
  | Exits (code : Z)
  | Hangs.
Arguments Finished {R} _.
Arguments Exits {R} _.
Arguments Hangs {R}.

(** A kernel answers a call by what was called before. *)
Definition Oracle : Type := History -> Call -> Answer.
Fixpoint interp {R} (K : Oracle) (h : History) (p : Prog R) : History * Res R :=
  match p with
  | PRet r => (h, Finished r)
  | PCall c k => let a := K h c in interp K (h ++ [(c, a)]) (k a)
  | PExit code => (h, Exits code)
  | PHang => (h, Hangs)
  end.

(** What the handlers promise: [rax] is a [u64], memory is written inside the
    buffer, and a read returns no more than was asked for. *)
Definition answer_ok (c : Call) (a : Answer) : Prop :=
  0 <= a_ret a < 2 ^ 64 /\ zlen (a_out a) <= Z.max 0 (out_len c) /\ zlen (a_caps a) <= Z.max 0 (caps_len c) /\ Forall byte_ok (a_out a) /\
  match c with CRead _ len => signed 64 (a_ret a) <= Z.max 0 len | _ => True end.
Definition kernel_ok (K : Oracle) : Prop := forall h c, answer_ok c (K h c).

Lemma interp_bind {A B} K h (p : Prog A) (f : A -> Prog B) :
  interp K h (pbind p f) =
  match interp K h p with
  | (h', Finished r) => interp K h' (f r)
  | (h', Exits code) => (h', Exits code)
  | (h', Hangs) => (h', Hangs)
  end.
Proof. revert h. induction p as [r | c k IH | code |]; intros h; simpl; [done | apply IH | done | done]. Qed.

(** ** Programs that return *)

(** Against every such kernel [p] returns, and [T] holds of its calls and its
    result. *)
Definition ends {R} (p : Prog R) (T : History -> R -> Prop) : Prop :=
  forall K h, kernel_ok K -> exists tr r, interp K h p = (h ++ tr, Finished r) /\ T tr r.

Lemma ends_ret {R} (r : R) (T : History -> R -> Prop) : T [] r -> ends (PRet r) T.
Proof. intros HT K h _. exists [], r. by rewrite app_nil_r. Qed.
Lemma ends_call {R} c (k : Answer -> Prog R) (T : History -> R -> Prop) :
  (forall a, answer_ok c a -> ends (k a) (fun tr => T ((c, a) :: tr))) -> ends (PCall c k) T.
Proof.
  intros Hk K h HK. destruct (Hk (K h c) (HK h c) K (h ++ [(c, K h c)]) HK) as (tr & r & E & HT).
  exists ((c, K h c) :: tr), r. split; [simpl; by rewrite E, <- app_assoc | done].
Qed.
Lemma ends_bind {A B} (p : Prog A) (f : A -> Prog B) (T1 : History -> A -> Prop) (T : History -> B -> Prop) :
  ends p T1 -> (forall tr r, T1 tr r -> ends (f r) (fun tr2 => T (tr ++ tr2))) -> ends (pbind p f) T.
Proof.
  intros Hp Hf K h HK. destruct (Hp K h HK) as (tr & r & E & HT). rewrite interp_bind, E.
  destruct (Hf tr r HT K (h ++ tr) HK) as (tr2 & r2 & E2 & HT2). exists (tr ++ tr2), r2. by rewrite app_assoc.
Qed.
Lemma ends_mono {R} (p : Prog R) (T1 T : History -> R -> Prop) : ends p T1 -> (forall tr r, T1 tr r -> T tr r) -> ends p T.
Proof. intros Hp HT K h HK. destruct (Hp K h HK) as (tr & r & E & H1). exists tr, r. auto. Qed.

(** ** Children *)

Definition child_pid (a : Answer) : Z := signed 64 (a_ret a).
Definition waited (pid : Z) (tr : History) : Prop := exists a, (CWaitpid pid, a) ∈ tr.
(** Every child that was started is waited for. *)
Definition reaped (tr : History) : Prop :=
  forall pre path a post, tr = pre ++ (CSpawn path, a) :: post -> 0 < child_pid a -> waited (child_pid a) post.

Lemma reaped_nil : reaped [].
Proof. intros [| e pre] path a post E; discriminate E. Qed.
Lemma reaped_cons c a tr : (forall path, c <> CSpawn path) -> reaped tr -> reaped ((c, a) :: tr).
Proof.
  intros Hc Hr [| e pre] path a' post [= E1 E2]; [by destruct (Hc path) | by eapply Hr].
Qed.
Lemma reaped_spawn path a tr : reaped tr -> (0 < child_pid a -> waited (child_pid a) tr) -> reaped ((CSpawn path, a) :: tr).
Proof. intros Hr Hw [| e pre] path' a' post [= ]; subst; [auto | by eapply Hr]. Qed.
Lemma waited_mono pid tr tr' : waited pid tr -> (forall e, e ∈ tr -> e ∈ tr') -> waited pid tr'.
Proof. intros [a Ha] Hs. exists a. auto. Qed.
Lemma reaped_app tr1 tr2 : reaped tr1 -> reaped tr2 -> reaped (tr1 ++ tr2).
Proof.
  intros H1 H2 pre path a post E Hp. apply app_eq_inv in E as [(k & -> & E) | (k & -> & E)].
  - destruct k as [| e k]; simpl in E.
    + eapply (H2 [] path a post); [by rewrite <- E | done].
    + injection E as <- ->. eapply waited_mono; [by eapply H1 |]. intros e' He. apply elem_of_app. by left.
  - by eapply (H2 k).
Qed.

Definition any {A : Type} (x : A) : Prop := True.

(** The range of an [i64], which all values that programs compute with have. *)
Definition i64 (v : Z) : Prop := - 2 ^ 63 <= v < 2 ^ 63.
Lemma i64_signed v : i64 (signed 64 v).
Proof.
  pose proof (Z.mod_pos_bound v (2 ^ 64) ltac:(lia)). unfold i64, signed. change (2 ^ (64 - 1)) with (2 ^ 63).
  destruct (Z.ltb_spec (v mod 2 ^ 64) (2 ^ 63)); lia.
Qed.
Lemma i64_signed32 v : i64 (signed 32 v).
Proof.
  pose proof (Z.mod_pos_bound v (2 ^ 32) ltac:(lia)). unfold i64, signed. change (2 ^ (32 - 1)) with (2 ^ 31).
  destruct (Z.ltb_spec (v mod 2 ^ 32) (2 ^ 31)); lia.
Qed.

(** ** What holds of every stretch of a run *)

(** Calls other than those that start a program or send a message. *)
Definition plain (c : Call) : bool := match c with CSpawn _ | CSend _ _ => false | _ => true end.
(** A property of traces that holds of a run when it holds of its parts, and
    that these calls do not bear on. *)
Class Trace (P : History -> Prop) : Prop := mkTrace {
  trace_nil : P [];
  trace_app : forall tr1 tr2, P tr1 -> P tr2 -> P (tr1 ++ tr2);
  trace_plain : forall c a, plain c = true -> P [(c, a)] }.
#[export] Instance reaped_trace : Trace reaped.
Proof. split; [apply reaped_nil | apply reaped_app |]. intros c a Hc. apply reaped_cons; [by destruct c | apply reaped_nil]. Qed.

(** The messages a program has sent. *)
Definition sends (tr : History) : list (Z * UMsg) := tr ≫= fun e => match e.1 with CSend cap msg => [(cap, msg)] | _ => [] end.
Lemma sends_app tr1 tr2 : sends (tr1 ++ tr2) = sends tr1 ++ sends tr2.
Proof. unfold sends. by rewrite bind_app. Qed.
Definition silent (tr : History) : Prop := sends tr = [].
#[export] Instance silent_trace : Trace silent.
Proof.
  split; [done | | by intros [] a Hc; try discriminate Hc].
  intros tr1 tr2 H1 H2. unfold silent in *. by rewrite sends_app, H1, H2.
Qed.

(** [p] returns, with a result that satisfies [Q], and its calls satisfy [P]. *)
Definition obeys (P : History -> Prop) {R} (p : Prog R) (Q : R -> Prop) : Prop := ends p (fun tr r => P tr /\ Q r).
(** Programs that leave no child behind. *)
Abbreviation calm := (obeys reaped).

Lemma overlay_length data buf : length (overlay data buf) = length buf.
Proof. unfold overlay. rewrite length_app, length_take, length_drop. lia. Qed.

(** ** Numbers *)

Lemma hex_loop_Ret n i v buf : 0 <= i -> i + Z.of_nat n <= 16 -> length buf = 16%nat -> exists buf', hex_loop n i v buf = Ret buf'.
Proof.
  revert i v buf. induction n as [| n IH]; intros i v buf Hi Hn Hl; simpl; [by eexists |].
  unfold upd. rewrite Hl. rewrite (proj2 (Z.leb_le 0 (15 - i))), (proj2 (Z.ltb_lt (15 - i) (Z.of_nat 16))) by lia. simpl.
  apply IH; [lia | lia | by rewrite length_insert].
Qed.
(** The number a string of digits stands for. *)
Definition dec_val (ds : list Z) : Z := foldl (fun acc d => acc * 10 + (d - 48)) 0 ds.
Definition is_digit (d : Z) : Prop := 48 <= d <= 57.
(** Digits without a zero in front. *)
Definition canonical (ds : list Z) : Prop := Forall is_digit ds /\ (ds = [48] \/ head ds <> Some 48).

Lemma dec_val_snoc ds d : dec_val (ds ++ [d]) = dec_val ds * 10 + (d - 48).
Proof. unfold dec_val. by rewrite foldl_app. Qed.

Lemma dec_loop_spec fuel v i buf :
  0 <= v < 10 ^ i -> 0 <= i <= Z.of_nat fuel -> i <= zlen buf ->
  exists i' buf' ds, dec_loop fuel v i buf = Ret (i', buf') /\ 0 <= i' /\ drop (Z.to_nat i') buf' = ds ++ drop (Z.to_nat i) buf /\
    dec_val ds = v /\ Forall is_digit ds /\ (0 < v -> ds <> [] /\ head ds <> Some 48).
Proof.
  revert v i buf. induction fuel as [| fuel IH]; intros v i buf Hv Hi Hb.
  { assert (i = 0) as -> by lia. assert (v = 0) as -> by (change (10 ^ 0) with 1 in Hv; lia). exists 0, buf, []. by repeat split. }
  cbn [dec_loop]. destruct (Z.leb_spec v 0) as [Hz | Hz].
  { exists i, buf, []. assert (v = 0) as -> by lia. by repeat split; try lia. }
  assert (0 < i) as Hip by (destruct (decide (i = 0)) as [-> |]; [change (10 ^ 0) with 1 in Hv |]; lia).
  unfold upd. rewrite (proj2 (Z.leb_le 0 (i - 1))), (proj2 (Z.ltb_lt (i - 1) (Z.of_nat (length buf)))) by (unfold zlen in Hb; lia).
  cbn [andb obind]. set (d := 48 + v mod 10). pose proof (Z.mod_pos_bound v 10 ltac:(lia)).
  destruct (IH (v / 10) (i - 1) (<[Z.to_nat (i - 1) := d]> buf)) as (i' & buf' & ds & E & Hi' & Hd & Hval & Hdig & Hhd).
  - split; [apply Z.div_pos; lia |]. apply Z.div_lt_upper_bound; [lia |]. replace (10 * 10 ^ (i - 1)) with (10 ^ i); [lia |].
    rewrite <- (Z.pow_succ_r 10 (i - 1)) by lia. f_equal. lia.
  - lia.
  - unfold zlen in *. rewrite length_insert. lia.
  - exists i', buf', (ds ++ [d]). split; [exact E |]. split; [done |]. split_and!.
    + rewrite Hd, <- app_assoc. f_equal. rewrite (drop_S _ d) by (apply list_lookup_insert_eq; unfold zlen in *; lia).
      simpl. f_equal. rewrite drop_insert_lt by lia. f_equal. lia.
    + rewrite dec_val_snoc, Hval. unfold d. pose proof (Z.div_mod v 10 ltac:(lia)). lia.
    + apply Forall_app. split; [done |]. apply Forall_singleton. unfold is_digit, d. lia.
    + intros _. split; [by destruct ds |]. destruct (decide (0 < v / 10)) as [Hq | Hq].
      * destruct (Hhd Hq) as [Hne Hh]. by destruct ds.
      * assert (v / 10 = 0) as Hq0 by (pose proof (Z.div_pos v 10); lia). destruct ds as [| x ds]; simpl.
        { intros [= E48]. unfold d in E48. pose proof (Z.div_mod v 10 ltac:(lia)). lia. }
        intros [= ->]. rewrite Hq0 in E. destruct fuel; simpl in E; injection E as <- <-; apply (f_equal length) in Hd;
          rewrite length_app in Hd; simpl in Hd; lia.
Qed.

(** What a program has written to a descriptor. *)
Definition written (fd : Z) (tr : History) : list Z :=
  tr ≫= fun e => match e.1 with CWrite fd' s => if fd' =? fd then s else [] | _ => [] end.
Lemma written_app fd tr1 tr2 : written fd (tr1 ++ tr2) = written fd tr1 ++ written fd tr2.
Proof. unfold written. by rewrite bind_app. Qed.


Section Obeys.
  Context {P : History -> Prop} {HP : Trace P}.

Lemma obeys_ret {R} (r : R) (Q : R -> Prop) : Q r -> obeys P (PRet r) Q.
Proof using HP. intros HQ. apply ends_ret. split; [apply trace_nil | done]. Qed.
Lemma obeys_bind {A B} (p : Prog A) (f : A -> Prog B) (Q1 : A -> Prop) (Q : B -> Prop) :
  obeys P p Q1 -> (forall r, Q1 r -> obeys P (f r) Q) -> obeys P (pbind p f) Q.
Proof using HP.
  intros Hp Hf. eapply ends_bind; [exact Hp |]. intros tr r [Hr HQ]. eapply ends_mono; [by apply Hf |].
  intros tr2 r2 [Hr2 HQ2]. split; [by apply trace_app | done].
Qed.
Lemma obeys_mono {R} (p : Prog R) (Q1 Q : R -> Prop) : obeys P p Q1 -> (forall r, Q1 r -> Q r) -> obeys P p Q.
Proof. intros Hp HQ. eapply ends_mono; [exact Hp |]. intros tr r [Hr H1]. auto. Qed.
Lemma obeys_any {R} (p : Prog R) (Q : R -> Prop) : obeys P p Q -> obeys P p any.
Proof. intros Hp. by eapply obeys_mono. Qed.
Lemma obeys_call {R} c (k : Answer -> Prog R) (Q : R -> Prop) :
  plain c = true -> (forall a, answer_ok c a -> obeys P (k a) Q) -> obeys P (PCall c k) Q.
Proof using HP.
  intros Hc Hk. apply ends_call. intros a Ha. eapply ends_mono; [by apply Hk |].
  intros tr r [Hr HQ]. split; [| done]. apply (trace_app [(c, a)] tr); [by apply trace_plain | done].
Qed.

(** *** The calls of the library *)

Lemma obeys_call64 c : plain c = true -> obeys P (call64 c) i64.
Proof using HP. intros Hc. apply obeys_call; [done |]. intros a _. apply obeys_ret, i64_signed. Qed.
Lemma obeys_call32 c : plain c = true -> obeys P (call32 c) i64.
Proof using HP. intros Hc. apply obeys_call; [done |]. intros a _. apply obeys_ret, i64_signed32. Qed.
Lemma obeys_call_ c : plain c = true -> obeys P (call_ c) any.
Proof using HP. intros Hc. apply obeys_call; [done |]. intros a _. by apply obeys_ret. Qed.
Lemma obeys_write fd s : obeys P (write fd s) i64.
Proof using HP. by apply obeys_call64. Qed.
Lemma obeys_open path fl : obeys P (open path fl) i64.
Proof using HP. by apply obeys_call32. Qed.
Lemma obeys_close fd : obeys P (close fd) any.
Proof using HP. by apply obeys_call_. Qed.
Lemma obeys_yield : obeys P (do_yield) any.
Proof using HP. by apply obeys_call_. Qed.
Lemma obeys_port_create : obeys P (ipc_port_create) i64.
Proof using HP. by apply obeys_call32. Qed.
Lemma obeys_cap_drop cap : obeys P (ipc_cap_drop cap) i64.
Proof using HP. by apply obeys_call64. Qed.
Lemma obeys_cap_dup cap mask : obeys P (ipc_cap_dup cap mask) i64.
Proof using HP. by apply obeys_call32. Qed.
Lemma obeys_name op n cap : obeys P (ipc_name op n cap) i64.
Proof using HP. by apply obeys_call64. Qed.
Lemma obeys_lookup n : obeys P (ipc_name_lookup n) i64.
Proof using HP. by apply obeys_call64. Qed.
Lemma obeys_clear c : obeys P (display_clear c) i64.
Proof using HP. by apply obeys_call64. Qed.
Lemma obeys_fill_rect x y w h c : obeys P (display_fill_rect x y w h c) i64.
Proof using HP. by apply obeys_call64. Qed.
Lemma obeys_draw_text x y t c : obeys P (display_draw_text x y t c) i64.
Proof using HP. by apply obeys_call64. Qed.
Lemma obeys_poll_byte : obeys P (input_poll_byte) i64.
Proof using HP. by apply obeys_call64. Qed.
Lemma obeys_getpid : obeys P getpid any.
Proof using HP. apply obeys_call; [done |]. intros a _. by apply obeys_ret. Qed.
Lemma obeys_recv cap n : obeys P (ipc_recv cap n) (fun '(rr, _, _) => i64 rr).
Proof using HP. apply obeys_call; [done |]. intros a _. apply obeys_ret, i64_signed. Qed.
Lemma obeys_waitpid pid : obeys P (waitpid pid) (fun '(wr, st) => i64 wr /\ i64 st).
Proof using HP. apply obeys_call; [done |]. intros a _. apply obeys_ret. auto using i64_signed, i64_signed32. Qed.
Lemma obeys_peek va n : obeys P (peek va n) any.
Proof using HP. apply obeys_call; [done |]. intros a _. by apply obeys_ret. Qed.
Lemma obeys_plift {A} (o : outcome A) (x : A) (Q : A -> Prop) : o = Ret x -> Q x -> obeys P (plift o) Q.
Proof using HP. intros -> HQ. by apply obeys_ret. Qed.

(** A read leaves the buffer as long as it is and returns at most its length. *)
Lemma obeys_read fd buf : obeys P (read fd buf) (fun '(n, buf') => i64 n /\ n <= zlen buf /\ length buf' = length buf).
Proof using HP.
  apply obeys_call; [done |]. intros a (_ & _ & _ & _ & Hn). apply obeys_ret. pose proof (zlen_nonneg buf).
  split_and!; [apply i64_signed | lia | apply overlay_length].
Qed.

(** A structure the kernel fills in: bytes, as many as it has. *)
Lemma obeys_info c : plain c = true -> obeys P (call_info c) (fun '(r, l) => i64 r /\ Forall byte_ok l).
Proof using HP.
  intros Hc. apply obeys_call; [done |]. intros a (_ & _ & _ & Hb & _). apply obeys_ret. split; [apply i64_signed |].
  unfold overlay. apply Forall_app. split; [by apply Forall_take | apply Forall_drop, Forall_replicate; unfold byte_ok; lia].
Qed.
Lemma obeys_write_hex fd v : obeys P (write_hex fd v) any.
Proof using HP.
  destruct (hex_loop_Ret 16 0 v (replicate 16 0)) as [buf E]; [lia | lia | done |].
  eapply obeys_bind; [apply (obeys_plift _ _ any E); done |]. intros buf' _.
  eapply obeys_bind; [apply obeys_write | intros; by apply obeys_ret].
Qed.

Lemma ends_write s : ends (write 1 s) (fun tr _ => P tr /\ written 1 tr = s).
Proof using HP. apply ends_call. intros a _. apply ends_ret. split; [by apply trace_plain | by cbn; rewrite app_nil_r]. Qed.

(** [write_dec] prints the decimal representation of every [i64] but the
    smallest, of which it prints only the sign. *)
Lemma write_dec_spec v : - 2 ^ 63 < v < 2 ^ 63 ->
  ends (write_dec v) (fun tr _ => P tr /\
    exists ds, written 1 tr = (if v <? 0 then [45] else []) ++ ds /\ canonical ds /\ dec_val ds = Z.abs v).
Proof using HP.
  intros Hv. unfold write_dec. set (sign := if v <? 0 then [45] else []).
  eapply (ends_bind _ _ (fun tr _ => P tr /\ written 1 tr = sign)).
  { subst sign. destruct (v <? 0); [| by apply ends_ret; split; [apply trace_nil |]].
    eapply ends_bind; [apply ends_write |]. intros tr r [Hr Hw]. apply ends_ret. by rewrite app_nil_r. }
  intros tr _ [Hr Hw]. assert ((if v <? 0 then signed 64 (- v) else v) = Z.abs v) as ->.
  { destruct (Z.ltb_spec v 0); [| lia]. unfold signed. rewrite Z.mod_small by lia.
    rewrite (proj2 (Z.ltb_lt _ _)); [lia |]. change (2 ^ (64 - 1)) with (2 ^ 63). lia. }
  assert (forall s, (exists ds, s = ds /\ canonical ds /\ dec_val ds = Z.abs v) ->
    ends (write 1 s ;;; PRet tt) (fun tr2 (_ : unit) => P (tr ++ tr2) /\
      exists ds, written 1 (tr ++ tr2) = sign ++ ds /\ canonical ds /\ dec_val ds = Z.abs v)) as Hend.
  { intros s (ds & -> & Hds). eapply ends_bind; [apply ends_write |]. intros tr2 r [Hr2 Hw2]. apply ends_ret.
    rewrite app_nil_r, written_app, Hw, Hw2. split; [by apply trace_app | by exists ds]. }
  destruct (Z.eqb_spec (Z.abs v) 0) as [Hz | Hz].
  { apply Hend. exists [48]. rewrite Hz. repeat split; [| by left]. apply Forall_singleton. unfold is_digit. lia. }
  destruct (dec_loop_spec 20 (Z.abs v) 20 (replicate 20 0)) as (i' & buf' & ds & E & Hi' & Hd & Hval & Hdig & Hhd);
    [change (10 ^ 20) with 100000000000000000000; lia | lia | done |].
  rewrite E. cbn [plift pbind]. apply Hend. exists ds. rewrite Hd. change (drop (Z.to_nat 20) (replicate 20 0)) with (@nil Z).
  rewrite app_nil_r. repeat split; [done | right; apply Hhd; lia | done].
Qed.
Lemma obeys_write_dec v : i64 v -> obeys P (write_dec v) any.
Proof using HP.
  intros Hr. destruct (decide (v = - 2 ^ 63)) as [-> | Hne].
  - unfold write_dec. eapply obeys_bind; [apply (obeys_bind _ _ i64); [apply obeys_write | intros; by apply (obeys_ret tt any)] |].
    intros _ _. change (obeys P (write 1 [] ;;; PRet tt) any). eapply obeys_bind; [apply obeys_write | intros; by apply obeys_ret].
  - eapply ends_mono; [apply write_dec_spec; unfold i64 in Hr; lia |]. by intros tr r [Hrp _].
Qed.

End Obeys.

Create HintDb calm discriminated.
#[export] Hint Constants Opaque : calm.
#[export] Hint Resolve i64_signed i64_signed32 reaped_trace silent_trace : calm.
#[export] Hint Resolve obeys_write obeys_open obeys_close obeys_yield obeys_getpid obeys_port_create obeys_recv obeys_waitpid obeys_cap_drop
  obeys_cap_dup obeys_name obeys_lookup obeys_clear obeys_fill_rect obeys_draw_text obeys_poll_byte obeys_peek obeys_write_hex obeys_write_dec : calm.

(** ** Children *)

Definition waits {R} (pid : Z) (p : Prog R) : Prop := ends p (fun tr r => reaped tr /\ waited pid tr).
Lemma calm_send cap msg : calm (ipc_send cap msg) i64.
Proof. apply ends_call. intros a _. apply ends_ret. split; [by apply reaped_cons, reaped_nil | apply i64_signed]. Qed.
#[export] Hint Resolve calm_send : calm.
Lemma calm_spawn {R} path (f : Z -> Prog R) :
  (forall pid, i64 pid -> 0 < pid -> waits pid (f pid)) -> (forall pid, i64 pid -> pid <= 0 -> calm (f pid) any) ->
  calm (pbind (spawn path) f) any.
Proof.
  intros Hw Hc. apply ends_call. intros a Ha. cbn [pbind]. destruct (Z.ltb_spec 0 (child_pid a)) as [Hp | Hp].
  - eapply ends_mono; [exact (Hw (child_pid a) (i64_signed _) Hp) |]. intros tr r [Hr Hwt]. split; [by apply reaped_spawn | done].
  - eapply ends_mono; [exact (Hc (child_pid a) (i64_signed _) Hp) |]. intros tr r [Hr _]. split; [apply reaped_spawn; [done | lia] | done].
Qed.
Lemma waits_bind {A B} pid (p : Prog A) (f : A -> Prog B) (Q1 : A -> Prop) :
  calm p Q1 -> (forall r, Q1 r -> waits pid (f r)) -> waits pid (pbind p f).
Proof.
  intros Hp Hf. eapply ends_bind; [exact Hp |]. intros tr r [Hr HQ]. eapply ends_mono; [by apply Hf |].
  intros tr2 r2 [Hr2 Hw]. split; [by apply reaped_app |]. eapply waited_mono; [exact Hw |]. intros e He. apply elem_of_app. by right.
Qed.
Lemma waits_here {R} pid (f : Z * Z -> Prog R) (Q : R -> Prop) :
  (forall wr st, calm (f (signed 64 wr, signed 32 st)) Q) -> waits pid (pbind (waitpid pid) f).
Proof.
  intros Hf. apply ends_call. intros a Ha. cbn [pbind]. eapply ends_mono; [apply Hf |]. intros tr r [Hr _].
  split; [by apply reaped_cons |]. exists a. left.
Qed.


(** Walk over calls that start no program. *)
Ltac calm_go :=
  repeat first
    [ progress cbn beta iota in *
    | match goal with
      | |- obeys _ (PRet _) _ => apply obeys_ret; solve [done | eauto with calm]
      | |- obeys _ (pbind _ _) _ => eapply obeys_bind; [solve [eauto with calm] | intros ? ?]
      end
    | solve [eauto with calm | eapply obeys_any; eauto with calm]
    | match goal with
      | x : (_ * _)%type |- _ => destruct x
      | H : _ /\ _ |- _ => destruct H
      | |- obeys _ (match ?x with _ => _ end) _ => destruct x eqn:?
      | |- obeys _ (pbind (match ?x with _ => _ end) _) _ => destruct x eqn:?
      end ].
