(* ===== verification/Spring.v ===== *)
(** * Spring

    The first program, [user/init/src/main.rs]: the service manifest, the file
    system and IPC self-tests, and the supervision of services. *)

From S2P Require Import Prelude Bytes User.

Definition MAX_MANIFEST : Z := 1400.
Definition MAX_SERVICES : Z := 11.
Definition MAX_LABEL : nat := 48.
Definition MAX_SPEC_PATH : nat := 64.

Definition LABEL_VFSD : list Z := b "com.persona.vfsd".
Definition LABEL_NETD : list Z := b "com.persona.netd".
Definition LABEL_AUDIOD : list Z := b "com.persona.audiod".
Definition LABEL_REFLECTION : list Z := b "com.persona.reflection".
Definition LABEL_DESKTOP : list Z := b "com.persona.desktop".
Definition LABEL_TIDE : list Z := b "com.persona.tide".
Definition LABEL_SKIM : list Z := b "com.persona.skim".
Definition LABEL_STONES : list Z := b "com.persona.stones".
Definition LABEL_DRIFT : list Z := b "com.persona.drift".
Definition LABEL_SURFACE_DEMO : list Z := b "com.persona.surface-demo".
Definition LABEL_DEPTH : list Z := b "com.persona.depth".
Definition NETD_READY : Z := 0x6e657464.
Definition AUDIOD_READY : Z := 0x6175646f.
Definition VFSD_READY : Z := 0x76667364.

(** ** The manifest *)

Record ServiceSpec : Type := mkServiceSpec {
  sp_label : list Z; sp_label_len : Z; sp_path : list Z; sp_path_len : Z; sp_keep_alive : bool }.
Definition service_empty : ServiceSpec :=
  mkServiceSpec (replicate MAX_LABEL 0) 0 (replicate MAX_SPEC_PATH 0) 0 false.
(** [&self.label[..self.label_len]]. *)
Definition spec_label (s : ServiceSpec) : outcome (list Z) := slice (sp_label s) 0 (sp_label_len s).
Definition spec_path (s : ServiceSpec) : outcome (list Z) := slice (sp_path s) 0 (sp_path_len s).

Fixpoint copy_field (value dest : list Z) (i : Z) : Z * list Z :=
  match value, dest with
  | v :: value, _ :: dest => let '(n, d) := copy_field value dest (i + 1) in (n, v :: d)
  | _, _ => (i, dest)
  end.
Definition set_label (s : ServiceSpec) (value : list Z) : ServiceSpec :=
  let '(n, d) := copy_field value (sp_label s) 0 in mkServiceSpec d n (sp_path s) (sp_path_len s) (sp_keep_alive s).
Definition set_path (s : ServiceSpec) (value : list Z) : ServiceSpec :=
  let '(n, d) := copy_field value (sp_path s) 0 in mkServiceSpec (sp_label s) (sp_label_len s) d n (sp_keep_alive s).
Definition set_keep_alive (s : ServiceSpec) (v : bool) : ServiceSpec :=
  mkServiceSpec (sp_label s) (sp_label_len s) (sp_path s) (sp_path_len s) v.

Record ServiceRef : Type := mkServiceRef { sr_label : list Z; sr_path : list Z }.
Record ServiceManifest : Type := mkManifest { mf_services : list ServiceSpec; mf_len : Z; mf_loaded : bool }.
Definition manifest_empty : ServiceManifest := mkManifest (replicate (Z.to_nat MAX_SERVICES) service_empty) 0 false.

(** [ServiceManifest::service]. *)
Fixpoint service_loop (services : list ServiceSpec) (i len : Z) (label fallback : list Z) : outcome (option ServiceRef) :=
  if len <=? i then Ret None
  else match services with
       | [] => Panic
       | s :: services =>
           let! l := spec_label s in
           if bool_decide (l = label) then
             let! p := (if 0 <? sp_path_len s then spec_path s else Ret fallback) in Ret (Some (mkServiceRef l p))
           else service_loop services (i + 1) len label fallback
       end.
Definition service (m : ServiceManifest) (label fallback : list Z) : outcome (option ServiceRef) :=
  let! r := service_loop (mf_services m) 0 (mf_len m) label fallback in
  Ret (match r with
       | Some r => Some r
       | None => if mf_loaded m then None else Some (mkServiceRef label fallback)
       end).

(** ** Lines *)

Definition is_ascii_space (byte : Z) : bool := (byte =? 32) || (byte =? 9) || (byte =? 13) || (byte =? 10).
Fixpoint trim_start (bytes : list Z) : list Z :=
  match bytes with
  | [] => []
  | x :: l => if is_ascii_space x then trim_start l else bytes
  end.
Definition trim_ascii (bytes : list Z) : list Z := rev (trim_start (rev (trim_start bytes))).

(** [starts_with], and the rest after the prefix. *)
Fixpoint strip_prefix (p l : list Z) : option (list Z) :=
  match p, l with
  | [], _ => Some l
  | x :: p, y :: l => if x =? y then strip_prefix p l else None
  | _ :: _, [] => None
  end.
Definition key_is (line key : list Z) : bool :=
  match strip_prefix key line with
  | None => false
  | Some rest => match trim_ascii rest with c :: _ => c =? 61 | [] => false end
  end.

(** The bytes before the first [c], and those after it. *)
Fixpoint cut (c : Z) (l : list Z) : option (list Z * list Z) :=
  match l with
  | [] => None
  | x :: l => if x =? c then Some ([], l) else (fun r => (x :: r.1, r.2)) <$> cut c l
  end.
Definition toml_string_value (line : list Z) : option (list Z) :=
  match cut 34 line with
  | None => None
  | Some (_, rest) => fst <$> cut 34 rest
  end.
Definition toml_bool_value (line : list Z) : bool :=
  match cut 61 line with
  | None => false
  | Some (_, rest) => bool_decide (is_Some (strip_prefix (b "true") (trim_ascii rest)))
  end.

(** What one line does; [current] is [None] for [NO_SERVICE]. *)
Definition parse_line (line : list Z) (current : option Z) (m : ServiceManifest) : outcome (option Z * ServiceManifest) :=
  if bool_decide (line = b "[[service]]") then
    if mf_len m <? MAX_SERVICES then
      let! l := upd (mf_services m) (mf_len m) service_empty in
      Ret (Some (mf_len m), mkManifest l (mf_len m + 1) (mf_loaded m))
    else Ret (None, m)
  else match current with
       | None => Ret (None, m)
       | Some cur =>
           let! s := idx (mf_services m) cur in
           let s' :=
             if key_is line (b "label") then
               match toml_string_value line with Some v => set_label s v | None => s end
             else if key_is line (b "path") then
               match toml_string_value line with Some v => set_path s v | None => s end
             else if key_is line (b "keep_alive") then set_keep_alive s (toml_bool_value line)
             else s in
           let! l := upd (mf_services m) cur s' in
           Ret (Some cur, mkManifest l (mf_len m) (mf_loaded m))
       end.

(** The end of the line that begins at [pos]. *)
Fixpoint line_end (raw : list Z) (pos : Z) : Z :=
  match raw with
  | [] => pos
  | x :: raw => if x =? 10 then pos else line_end raw (pos + 1)
  end.
Fixpoint parse_loop (fuel : nat) (raw : list Z) (pos : Z) (current : option Z) (m : ServiceManifest) : outcome ServiceManifest :=
  if zlen raw <=? pos then Ret m
  else match fuel with
       | O => OutOfFuel
       | S fuel =>
           let start := pos in
           let pos := line_end (drop (Z.to_nat pos) raw) pos in
           let! l := slice raw start (pos - start) in
           let! (current, m) := parse_line (trim_ascii l) current m in
           parse_loop fuel raw (if pos <? zlen raw then pos + 1 else pos) current m
       end.
Definition parse_manifest (raw : list Z) (m : ServiceManifest) : outcome ServiceManifest := parse_loop (length raw) raw 0 None m.

(** ** Start-up *)

Definition log_missing_service (label : list Z) : Prog unit :=
  write 1 (b "[spring] manifest missing service ") ;;; write 1 label ;;; write 1 (bn "; skipping") ;;; PRet tt.

(** [&buf[..n as usize]] for an [i64] that is positive. *)
Definition prefix_of_buf (buf : list Z) (n : Z) : Prog (list Z) := plift (slice buf 0 n).

Section Turns.
  (** Reads of [/hello.txt] that return data. *)
  Variable turns : nat.

Fixpoint hello_loop (fuel : nat) (fd : Z) (buf : list Z) : Prog unit :=
  match fuel with
  | O => PHang
  | S fuel =>
      do! (n, buf) := read fd buf in
      if n <=? 0 then PRet tt
      else
        write 1 (b "[spring] hello: ") ;;;
        do! s := prefix_of_buf buf n in
        write 1 s ;;; hello_loop fuel fd buf
  end.

Definition boot_fs_self_test : Prog unit :=
  write 1 (bn "[spring] fs self-test: /hello.txt") ;;;
  do! fd := open (b "/hello.txt") 0 in
  (if 0 <=? fd then hello_loop turns fd (replicate 64 0) ;;; close fd
   else write 1 (bn "[spring] open(/hello.txt) failed") ;;; PRet tt) ;;;
  do! fd := open (b "/scratch.txt") FD_CREATE in
  if 0 <=? fd then
    do! n := write fd (bn "scratch wrote this") in
    write 1 (b "[spring] wrote /scratch.txt: ") ;;; write_dec n ;;; write 1 [10] ;;;
    close fd ;;;
    do! fd2 := open (b "/scratch.txt") 0 in
    if 0 <=? fd2 then
      do! (r, buf) := read fd2 (replicate 64 0) in
      (if 0 <? r then
         write 1 (b "[spring] /scratch.txt: ") ;;;
         do! s := prefix_of_buf buf r in write 1 s ;;; PRet tt
       else PRet tt) ;;;
      close fd2
    else PRet tt
  else write 1 (bn "[spring] open(/scratch.txt, CREATE) failed") ;;; PRet tt.

(** The loop of [load_manifest]: every turn reads at least one of the 1400
    bytes. *)
Fixpoint manifest_loop (fuel : nat) (fd : Z) (raw : list Z) (len : Z) : Prog (Z * list Z) :=
  if len =? MAX_MANIFEST then PRet (len, raw)
  else match fuel with
       | O => PHang
       | S fuel =>
           do! rest := plift (slice raw len (zlen raw - len)) in
           do! (n, rest) := read fd rest in
           if n <=? 0 then PRet (len, take (Z.to_nat len) raw ++ rest)
           else manifest_loop fuel fd (take (Z.to_nat len) raw ++ rest) (wrap 64 (len + n))
       end.
Definition load_manifest (m : ServiceManifest) : Prog ServiceManifest :=
  do! fd := open (b "/etc/spring.toml") 0 in
  if fd <? 0 then write 1 (bn "[spring] no /etc/spring.toml yet") ;;; PRet m
  else
    do! (len, raw) := manifest_loop (S (Z.to_nat MAX_MANIFEST)) fd (replicate (Z.to_nat MAX_MANIFEST) 0) 0 in
    close fd ;;;
    do! text := plift (slice raw 0 len) in
    do! m := plift (parse_manifest text (mkManifest (mf_services m) (mf_len m) true)) in
    write 1 (bn "[spring] manifest loaded:") ;;; write 1 text ;;;
    write 1 (b "[spring] manifest services=") ;;; write_dec (mf_len m) ;;; write 1 [10] ;;;
    PRet m.

(** ** Supervision *)

Definition msg_reg (m : URecv) (i : nat) : Z := default 0 (ur_regs m !! i).

(** The lines about a child that has ended. *)
Definition report_exit (before : list Z) (wr status : Z) : Prog unit :=
  write 1 before ;;; write_dec wr ;;; write 1 (b " status=") ;;; write_dec status ;;; write 1 [10] ;;; PRet tt.
(** "[spring] service <label> exited pid=" in three writes, then the rest. *)
Definition report_service (label : list Z) (wr status : Z) : Prog unit :=
  write 1 (b "[spring] service ") ;;; write 1 label ;;; report_exit (b " exited pid=") wr status.

Definition supervise_ready_service (supervisor : Z) (service : ServiceRef) (expected_op : Z) : Prog bool :=
  if supervisor <=? 0 then
    write 1 (b "[spring] cannot start ") ;;; write 1 (sr_label service) ;;;
    write 1 (bn ": supervisor port unavailable") ;;; PRet false
  else
    write 1 (b "[spring] spawning ") ;;; write 1 (sr_label service) ;;; write 1 (b " at ") ;;;
    write 1 (sr_path service) ;;; write 1 [10] ;;;
    do! pid := spawn (sr_path service) in
    write 1 (b "[spring] spawn ") ;;; write 1 (sr_label service) ;;; write 1 (b " -> ") ;;; write_dec pid ;;; write 1 [10] ;;;
    if pid <=? 0 then PRet false
    else
      do! (rr, msg, _) := ipc_recv supervisor 0 in
      let ready := (rr =? 0) && (msg_reg msg 0 =? expected_op) in
      write 1 (b "[spring] supervisor recv -> ") ;;; write_dec rr ;;;
      (if ready then
         write 1 (b "; service ") ;;; write 1 (sr_label service) ;;;
         write 1 (b " ready pid=") ;;; write_dec (signed 64 (msg_reg msg 1)) ;;;
         write 1 (b " state=") ;;; write_dec (signed 64 (msg_reg msg 2)) ;;; write 1 [10]
       else write 1 (bn "; unexpected service message")) ;;;
      do! (wr, status) := waitpid pid in
      report_service (sr_label service) wr status ;;;
      PRet (ready && (status =? 0)).

Definition supervise_vfsd (supervisor : Z) (service : ServiceRef) : Prog unit :=
  if supervisor <=? 0 then write 1 (bn "[spring] cannot start vfsd: supervisor port unavailable") ;;; PRet tt
  else
    write 1 (b "[spring] spawning ") ;;; write 1 (sr_label service) ;;; write 1 (b " at ") ;;;
    write 1 (sr_path service) ;;; write 1 [10] ;;;
    do! pid := spawn (sr_path service) in
    write 1 (b "[spring] spawn vfsd -> ") ;;; write_dec pid ;;; write 1 [10] ;;;
    if pid <=? 0 then PRet tt
    else
      do! (rr, msg, _) := ipc_recv supervisor 0 in
      write 1 (b "[spring] supervisor recv -> ") ;;; write_dec rr ;;;
      (if (rr =? 0) && (msg_reg msg 0 =? VFSD_READY) then
         write 1 (b "; service com.persona.vfsd ready pid=") ;;; write_dec (signed 64 (msg_reg msg 1)) ;;; write 1 [10]
       else write 1 (bn "; unexpected service message")) ;;;
      do! (wr, status) := waitpid pid in
      report_exit (b "[spring] service com.persona.vfsd exited pid=") wr status.

(** A child that is only waited for: the first line names [what], the second
    the short [name]. *)
Definition run_child (what name : list Z) (service : ServiceRef) : Prog unit :=
  write 1 what ;;; write 1 (sr_path service) ;;; write 1 [10] ;;;
  do! pid := spawn (sr_path service) in
  write 1 name ;;; write_dec pid ;;; write 1 [10] ;;;
  if 0 <? pid then
    do! (wr, status) := waitpid pid in
    report_service (sr_label service) wr status
  else PRet tt.
Definition run_optional (what name label : list Z) (service : option ServiceRef) : Prog unit :=
  match service with
  | Some s => run_child what name s
  | None => log_missing_service label
  end.

Definition supervise_reflection (supervisor : Z) (reflection : ServiceRef)
    (desktop tide skim stones drift surface_demo : option ServiceRef) : Prog unit :=
  write 1 (b "[spring] launching Reflection compositor at ") ;;; write 1 (sr_path reflection) ;;; write 1 [10] ;;;
  do! pid := spawn (sr_path reflection) in
  write 1 (b "[spring] spawn reflection -> ") ;;; write_dec pid ;;; write 1 [10] ;;;
  if pid <=? 0 then PRet tt
  else
    do! (rr, msg, caps) := ipc_recv supervisor 1 in
    let cap := signed 32 (le_val (take 4 caps)) in
    write 1 (b "[spring] reflection recv -> ") ;;; write_dec rr ;;;
    (if (rr =? 0) && (msg_reg msg 0 =? REFLECTION_READY) && (ur_ncaps msg =? 1) then
       write 1 (b "; service com.persona.reflection ready pid=") ;;; write_dec (signed 64 (msg_reg msg 1)) ;;;
       write 1 (b " surface_cap=") ;;; write_dec cap ;;; write 1 [10]
     else write 1 (bn "; unexpected reflection message")) ;;;
    (if 0 <? cap then
       do! pr := ipc_name IPC_NAME_PUBLISH (b "com.persona.reflection") cap in
       write 1 (b "[spring] published com.persona.reflection -> ") ;;; write_dec pr ;;; write 1 [10] ;;; PRet tt
     else PRet tt) ;;;
    run_optional (b "[spring] launching desktop shell at ") (b "[spring] spawn desktop -> ") LABEL_DESKTOP desktop ;;;
    run_optional (b "[spring] launching Tide launcher at ") (b "[spring] spawn tide -> ") LABEL_TIDE tide ;;;
    run_optional (b "[spring] launching Skim file manager at ") (b "[spring] spawn skim -> ") LABEL_SKIM skim ;;;
    run_optional (b "[spring] launching Stones settings at ") (b "[spring] spawn stones -> ") LABEL_STONES stones ;;;
    run_optional (b "[spring] launching Drift editor at ") (b "[spring] spawn drift -> ") LABEL_DRIFT drift ;;;
    run_optional (b "[spring] launching surface demo at ") (b "[spring] spawn surface-demo -> ") LABEL_SURFACE_DEMO surface_demo ;;;
    do! (wr, status) := waitpid pid in
    report_exit (b "[spring] service com.persona.reflection exited pid=") wr status.

Definition supervise_depth (service : ServiceRef) : Prog unit :=
  write 1 (b "[spring] launching Depth terminal at ") ;;; write 1 (sr_path service) ;;; write 1 [10] ;;;
  do! pid := spawn (sr_path service) in
  write 1 (b "[spring] spawn depth -> ") ;;; write_dec pid ;;; write 1 [10] ;;;
  if pid <=? 0 then PRet tt
  else
    do! (wr, status) := waitpid pid in
    report_service (sr_label service) wr status.

(** ** The IPC self-test *)

(** [PAYLOAD] holds the greeting at its start when it is sent. *)
Definition greeting : list Z := b "hello-from-spring".
Definition init_supervisor_ipc : Prog Z :=
  write 1 (bn "[spring] ipc: creating supervisor port") ;;;
  do! p := ipc_port_create in
  write 1 (b "[spring] ipc: supervisor cap=") ;;; write_dec p ;;; write 1 [10] ;;;
  if p <=? 0 then PRet p
  else
    let name := b "com.persona.spring" in
    do! pr := ipc_name IPC_NAME_PUBLISH name p in
    write 1 (b "[spring] supervisor published as com.persona.spring -> ") ;;; write_dec pr ;;; write 1 [10] ;;;
    do! lookup_cap := ipc_name IPC_NAME_LOOKUP name 0 in
    write 1 (b "[spring] supervisor lookup cap=") ;;; write_dec lookup_cap ;;; write 1 [10] ;;;
    do! send_cap := ipc_cap_dup p (Z.lor RIGHTS_SEND RIGHTS_DUP) in
    write 1 (b "[spring] ipc: dup SEND cap=") ;;; write_dec send_cap ;;; write 1 [10] ;;;
    do! sr := ipc_send send_cap (mkUMsg [1; 2; 3; 4; 5; 6] [] []) in
    write 1 (b "[spring] ipc: inline send -> ") ;;; write_dec sr ;;; write 1 [10] ;;;
    do! (rr, msg, _) := ipc_recv p 0 in
    write 1 (b "[spring] ipc: inline recv -> ") ;;; write_dec rr ;;;
    write 1 (if (rr =? 0) && bool_decide (ur_regs msg = [1; 2; 3; 4; 5; 6]) then bn " (regs ok)" else bn " (regs MISMATCH)") ;;;
    do! sr := ipc_send send_cap (mkUMsg [0x51A10001; 0; 0; 0; 0; 0] [] (greeting ++ replicate (8192 - length greeting) 0)) in
    write 1 (b "[spring] ipc: page-steal send -> ") ;;; write_dec sr ;;; write 1 [10] ;;;
    do! (rr, msg, _) := ipc_recv p 0 in
    write 1 (b "[spring] ipc: page-steal recv -> ") ;;; write_dec rr ;;;
    write 1 (b " len=") ;;; write_dec (signed 64 (ur_pages_len msg)) ;;;
    write 1 (b " va=0x") ;;; write_hex 1 (ur_pages_va msg) ;;; write 1 [10] ;;;
    (if (rr =? 0) && (zlen greeting <=? ur_pages_len msg) then
       write 1 (b "[spring] ipc: payload first bytes: ") ;;;
       do! bytes := peek (ur_pages_va msg) (zlen greeting) in
       write 1 bytes ;;; write 1 [10] ;;; PRet tt
     else PRet tt) ;;;
    do! (neg, _, _) := ipc_recv send_cap 0 in
    write 1 (b "[spring] ipc: recv-on-send -> ") ;;; write_dec neg ;;;
    write 1 (if neg <? 0 then bn " (ok, rejected)" else bn " (BUG: succeeded)") ;;;
    do! dr := ipc_cap_drop send_cap in
    write 1 (b "[spring] ipc: cap_drop SEND -> ") ;;; write_dec dr ;;; write 1 [10] ;;;
    PRet p.

(** ** [_start] *)

(** [if let Some(service) = manifest.service(..)] and its [else]. *)
Definition with_service (m : ServiceManifest) (label fallback : list Z) (run : ServiceRef -> Prog unit) : Prog unit :=
  do! s := plift (service m label fallback) in
  match s with Some s => run s | None => log_missing_service label end.

Fixpoint ticks (n : nat) : Prog unit :=
  match n with
  | O => PRet tt
  | S n => write 1 (bn "[spring] scheduler tick") ;;; do_yield ;;; ticks n
  end.

Definition start_services (m : ServiceManifest) (supervisor : Z) : Prog unit :=
  with_service m LABEL_VFSD (b "/sbin/vfsd") (supervise_vfsd supervisor) ;;;
  with_service m LABEL_NETD (b "/sbin/netd") (fun s => supervise_ready_service supervisor s NETD_READY ;;; PRet tt) ;;;
  with_service m LABEL_AUDIOD (b "/sbin/audiod") (fun s => supervise_ready_service supervisor s AUDIOD_READY ;;; PRet tt) ;;;
  do! reflection := plift (service m LABEL_REFLECTION (b "/bin/reflection")) in
  do! desktop := plift (service m LABEL_DESKTOP (b "/bin/desktop")) in
  do! tide := plift (service m LABEL_TIDE (b "/bin/tide")) in
  do! skim := plift (service m LABEL_SKIM (b "/bin/skim")) in
  do! stones := plift (service m LABEL_STONES (b "/bin/stones")) in
  do! drift := plift (service m LABEL_DRIFT (b "/bin/drift")) in
  do! surface_demo := plift (service m LABEL_SURFACE_DEMO (b "/bin/surface-demo")) in
  (match reflection with
   | Some s => supervise_reflection supervisor s desktop tide skim stones drift surface_demo
   | None => log_missing_service LABEL_REFLECTION
   end) ;;;
  with_service m LABEL_DEPTH (b "/bin/depth") supervise_depth.

Definition spring_main : Prog unit :=
  write 1 (b "[spring] starting pid=0x") ;;;
  do! pid := getpid in
  write_hex 1 pid ;;; write 1 [10] ;;;
  do! m := load_manifest manifest_empty in
  boot_fs_self_test ;;;
  ticks 3 ;;;
  do! supervisor := init_supervisor_ipc in
  start_services m supervisor ;;;
  write 1 (bn "[spring] vfsd broker registration deferred") ;;;
  write 1 (bn "[spring] exiting cleanly") ;;;
  PRet tt.
Definition spring_start : Prog unit := spring_main ;;; exit 0.
End Turns.
