(* ===== verification/SpringProps.v ===== *)
(** * What Spring does

    The manifest parser takes any text and reads back what is printed in the
    format of the image; Spring waits for every program it starts. *)

From S2P Require Import Prelude Bytes User Spring.

(** ** The parser never fails *)

Record spec_ok (s : ServiceSpec) : Prop := mkSpecOk {
  so_label : length (sp_label s) = MAX_LABEL; so_label_len : 0 <= sp_label_len s <= Z.of_nat MAX_LABEL;
  so_path : length (sp_path s) = MAX_SPEC_PATH; so_path_len : 0 <= sp_path_len s <= Z.of_nat MAX_SPEC_PATH }.
Record manifest_ok (m : ServiceManifest) : Prop := mkManifestOk {
  mo_services : zlen (mf_services m) = MAX_SERVICES; mo_len : 0 <= mf_len m <= MAX_SERVICES;
  mo_specs : Forall spec_ok (mf_services m) }.
Definition current_ok (cur : option Z) : Prop := match cur with Some c => 0 <= c < MAX_SERVICES | None => True end.

Lemma service_empty_ok : spec_ok service_empty.
Proof. split; try reflexivity; cbn; unfold MAX_LABEL, MAX_SPEC_PATH; lia. Qed.
Lemma manifest_empty_ok : manifest_ok manifest_empty.
Proof. split; [reflexivity | cbn; unfold MAX_SERVICES; lia | apply Forall_replicate, service_empty_ok]. Qed.

Lemma copy_field_spec value dest i :
  copy_field value dest i = (i + Z.min (zlen value) (zlen dest), overlay value dest).
Proof.
  revert dest i. induction value as [| v value IH]; intros [| d dest] i; cbn [copy_field].
  1-3: unfold overlay, zlen; cbn; rewrite ?take_nil; f_equal; lia.
  rewrite IH, !zlen_cons. cbn. f_equal. lia.
Qed.
Lemma set_label_ok s v : spec_ok s -> spec_ok (set_label s v).
Proof.
  intros [H1 H2 H3 H4]. unfold set_label. rewrite copy_field_spec. pose proof (zlen_nonneg v). unfold zlen in *.
  split; cbn [sp_label sp_label_len sp_path sp_path_len]; rewrite ?overlay_length; lia.
Qed.
Lemma set_path_ok s v : spec_ok s -> spec_ok (set_path s v).
Proof.
  intros [H1 H2 H3 H4]. unfold set_path. rewrite copy_field_spec. pose proof (zlen_nonneg v). unfold zlen in *.
  split; cbn [sp_label sp_label_len sp_path sp_path_len]; rewrite ?overlay_length; lia.
Qed.

Lemma upd_in {A} (l : list A) i x : 0 <= i < zlen l -> upd l i x = Ret (<[Z.to_nat i := x]> l).
Proof. intros Hi. unfold upd. by rewrite (proj2 (Z.leb_le _ _)), (proj2 (Z.ltb_lt _ _)) by (unfold zlen in Hi; lia). Qed.
Lemma zlen_insert {A} (l : list A) i x : zlen (<[i := x]> l) = zlen l.
Proof. unfold zlen. by rewrite length_insert. Qed.

Lemma parse_line_ok line cur m : manifest_ok m -> current_ok cur ->
  exists cur' m', parse_line line cur m = Ret (cur', m') /\ manifest_ok m' /\ current_ok cur'.
Proof.
  intros [Hs Hl Hf] Hc. unfold parse_line. case_bool_decide.
  - destruct (Z.ltb_spec (mf_len m) MAX_SERVICES); [| exists None, m; split_and!; [done | by split | done]].
    rewrite upd_in by lia. cbn [obind]. do 2 eexists. split; [reflexivity |]. split; [| cbn; lia].
    split; cbn [mf_services mf_len]; [by rewrite zlen_insert | lia | apply Forall_insert; [done | apply service_empty_ok]].
  - destruct cur as [c |]; [| exists None, m; split_and!; [done | by split | done]]. cbn in Hc.
    destruct (lookup_lt_is_Some_2 (mf_services m) (Z.to_nat c)) as [s Es]; [unfold zlen in Hs; lia |].
    unfold idx. rewrite (proj2 (Z.ltb_ge c 0)), Es by lia. cbn [obind]. rewrite upd_in by lia. cbn [obind].
    do 2 eexists. split; [reflexivity |]. split; [| done].
    split; cbn [mf_services mf_len]; [by rewrite zlen_insert | done | apply Forall_insert; [done |]].
    rewrite Forall_lookup in Hf. pose proof (Hf _ _ Es) as [H1 H2 H3 H4].
    repeat case_match; try (by split); [apply set_label_ok; by split | apply set_path_ok; by split].
Qed.

Lemma line_end_spec l pos : pos <= line_end l pos <= pos + zlen l.
Proof.
  revert pos. induction l as [| x l IH]; intros pos; cbn [line_end]; [unfold zlen; simpl; lia |].
  rewrite zlen_cons. pose proof (zlen_nonneg l). case_match; [lia |]. specialize (IH (pos + 1)). lia.
Qed.
Lemma zlen_drop {A} (l : list A) i : 0 <= i <= zlen l -> zlen (drop (Z.to_nat i) l) = zlen l - i.
Proof. intros Hi. unfold zlen in *. rewrite length_drop. lia. Qed.

Lemma parse_loop_ok fuel raw pos cur m : manifest_ok m -> current_ok cur -> 0 <= pos -> zlen raw - pos <= Z.of_nat fuel ->
  exists m', parse_loop fuel raw pos cur m = Ret m' /\ manifest_ok m'.
Proof.
  revert pos cur m. induction fuel as [| fuel IH]; intros pos cur m Hm Hc Hp Hfuel; cbn [parse_loop].
  { rewrite (proj2 (Z.leb_le _ _)) by lia. by exists m. }
  destruct (Z.leb_spec (zlen raw) pos); [by exists m |].
  pose proof (line_end_spec (drop (Z.to_nat pos) raw) pos) as He. rewrite zlen_drop in He by lia.
  set (e := line_end _ _) in *. destruct (slice raw pos (e - pos)) as [l | | |] eqn:El; cbn [obind].
  2-4: exfalso; unfold slice in El; rewrite !(proj2 (Z.leb_le _ _)) in El by lia; discriminate El.
  destruct (parse_line_ok (trim_ascii l) cur m Hm Hc) as (cur' & m' & E & Hm' & Hc'). rewrite E. cbn [obind].
  apply IH; [done | done | case_match; lia |]. destruct (Z.ltb_spec e (zlen raw)); lia.
Qed.
Lemma parse_manifest_ok raw m : manifest_ok m -> exists m', parse_manifest raw m = Ret m' /\ manifest_ok m'.
Proof. intros Hm. apply parse_loop_ok; [done | done | lia | unfold zlen; lia]. Qed.

Lemma slice_prefix {A} (l : list A) n : 0 <= n <= zlen l -> slice l 0 n = Ret (take (Z.to_nat n) l).
Proof. intros Hn. apply slice_Ret. split_and!; [lia | lia | lia | done]. Qed.

Lemma service_ok m label fb : manifest_ok m -> exists r, service m label fb = Ret r.
Proof.
  intros [Hs Hl Hf]. unfold service.
  assert (forall ss i, Forall spec_ok ss -> 0 <= i -> mf_len m - i <= zlen ss -> exists r, service_loop ss i (mf_len m) label fb = Ret r) as Hloop.
  { induction ss as [| s ss IH]; intros i Hss Hi Hlen; cbn [service_loop].
    - rewrite (proj2 (Z.leb_le _ _)) by (unfold zlen in Hlen; simpl in Hlen; lia). by eexists.
    - case_match; [by eexists |]. apply Forall_cons in Hss as [[H1 H2 H3 H4] Hss]. rewrite zlen_cons in Hlen.
      unfold spec_label. rewrite slice_prefix by (unfold zlen; lia). cbn [obind]. case_bool_decide; [| apply IH; [done | lia | lia]].
      unfold spec_path. case_match; [rewrite slice_prefix by (unfold zlen; lia) |]; by eexists. }
  destruct (Hloop (mf_services m) 0) as [r E]; [done | lia | lia |]. rewrite E. by eexists.
Qed.

(** ** Spring waits for every program it starts *)

Lemma calm_service m label fb : manifest_ok m -> calm (plift (service m label fb)) any.
Proof. intros Hm. destruct (service_ok m label fb Hm) as [r E]. by apply (obeys_plift _ r). Qed.
Lemma calm_report_exit s wr st : i64 wr -> i64 st -> calm (report_exit s wr st) any.
Proof. intros Hw Hs. unfold report_exit. calm_go. Qed.
#[local] Hint Resolve calm_service calm_report_exit : calm.
Lemma calm_report_service l wr st : i64 wr -> i64 st -> calm (report_service l wr st) any.
Proof. intros Hw Hs. unfold report_service. calm_go. Qed.
Lemma calm_missing l : calm (log_missing_service l) any.
Proof. unfold log_missing_service. calm_go. Qed.
#[local] Hint Resolve calm_report_service calm_missing : calm.

(** Up to the call that starts a program, and then up to the one that waits. *)
Ltac to_spawn := repeat (eapply obeys_bind; [solve [eauto with calm] | intros ? ?]); apply calm_spawn; intros pid Hi Hpid.
Ltac to_wait :=
  repeat first [ apply (waits_here _ _ any); intros wr st; calm_go
               | eapply waits_bind; [solve [eauto with calm] | intros ? ?]
               | apply (waits_bind _ _ _ any); [solve [calm_go] | intros ? ?]
               | match goal with
                 | x : (_ * _)%type |- _ => destruct x
                 end; cbn beta iota zeta in * ].

Ltac past_spawn := repeat (eapply waits_bind; [solve [calm_go] | intros ? ?]).
Ltac not_spawned :=
  repeat (eapply obeys_bind; [solve [eauto with calm] | intros ? ?]);
  match goal with H : ?pid <= 0 |- _ => rewrite (proj2 (Z.leb_le pid 0) H) end; by apply obeys_ret.

Lemma calm_run_child what name s : calm (run_child what name s) any.
Proof.
  unfold run_child. to_spawn; cbv beta.
  - past_spawn. rewrite (proj2 (Z.ltb_lt 0 pid) Hpid). to_wait.
  - calm_go.
Qed.
Lemma calm_run_optional what name l s : calm (run_optional what name l s) any.
Proof. destruct s; [apply calm_run_child | apply calm_missing]. Qed.
#[local] Hint Resolve calm_run_optional : calm.

Lemma calm_supervise_ready sup s op : calm (supervise_ready_service sup s op) any.
Proof.
  unfold supervise_ready_service. destruct (sup <=? 0); [calm_go |]. to_spawn.
  - past_spawn. rewrite (proj2 (Z.leb_gt pid 0) Hpid). to_wait.
  - not_spawned.
Qed.
Lemma calm_supervise_vfsd sup s : calm (supervise_vfsd sup s) any.
Proof.
  unfold supervise_vfsd. destruct (sup <=? 0); [calm_go |]. to_spawn.
  - past_spawn. rewrite (proj2 (Z.leb_gt pid 0) Hpid). to_wait.
  - not_spawned.
Qed.
Lemma calm_supervise_reflection sup r d t s st dr sd : calm (supervise_reflection sup r d t s st dr sd) any.
Proof.
  unfold supervise_reflection. to_spawn; [| not_spawned].
  past_spawn. rewrite (proj2 (Z.leb_gt pid 0) Hpid).
  eapply waits_bind; [apply obeys_recv |]. intros [[rr msg] caps] Hrr. cbn beta iota zeta.
  do 2 (eapply waits_bind; [solve [eauto with calm] | intros ? ?]).
  do 2 (apply (waits_bind _ _ _ any); [solve [calm_go] | intros _ _]).
  do 6 (eapply waits_bind; [apply calm_run_optional | intros _ _]).
  apply (waits_here _ _ any). intros wr status. calm_go.
Qed.
Lemma calm_supervise_depth s : calm (supervise_depth s) any.
Proof.
  unfold supervise_depth. to_spawn.
  - past_spawn. rewrite (proj2 (Z.leb_gt pid 0) Hpid). to_wait.
  - not_spawned.
Qed.
#[local] Hint Resolve calm_supervise_ready calm_supervise_vfsd calm_supervise_reflection calm_supervise_depth : calm.

Lemma calm_with_service m l fb (run : ServiceRef -> Prog unit) :
  manifest_ok m -> (forall s, calm (run s) any) -> calm (with_service m l fb run) any.
Proof. intros Hm Hr. unfold with_service. eapply obeys_bind; [by apply calm_service |]. intros [s |] _; [apply Hr | apply calm_missing]. Qed.
Lemma calm_start_services m sup : manifest_ok m -> calm (start_services m sup) any.
Proof.
  intros Hm. unfold start_services.
  do 3 (eapply obeys_bind; [apply calm_with_service; [done | intros s; calm_go] | intros _ _]).
  do 7 (eapply obeys_bind; [by apply calm_service | intros ? _]).
  eapply obeys_bind; [case_match; [apply calm_supervise_reflection | apply calm_missing] | intros _ _].
  apply calm_with_service; [done | intros s; calm_go].
Qed.

Lemma calm_init_supervisor : calm init_supervisor_ipc i64.
Proof.
  unfold init_supervisor_ipc. do 5 (eapply obeys_bind; [solve [eauto with calm] | intros ? ?]).
  match goal with |- obeys _ (if ?x then _ else _) _ => destruct x end; [by apply obeys_ret |].
  repeat first [ eapply obeys_bind; [solve [eauto with calm] | intros ? ?]
               | apply (obeys_bind _ _ any); [solve [calm_go] | intros ? ?]
               | match goal with x : (_ * _)%type |- _ => destruct x end; cbn beta iota zeta in * ].
  by apply obeys_ret.
Qed.

Lemma calm_ticks n : calm (ticks n) any.
Proof. induction n as [| n IH]; cbn [ticks]; [by apply obeys_ret |]. calm_go. Qed.

(** Reading the manifest: every turn of the loop takes at least one byte. *)
Lemma calm_manifest_loop fuel fd raw len :
  zlen raw = MAX_MANIFEST -> 0 <= len <= MAX_MANIFEST -> MAX_MANIFEST - len < Z.of_nat fuel ->
  calm (manifest_loop fuel fd raw len) (fun '(n, raw') => 0 <= n <= MAX_MANIFEST /\ zlen raw' = MAX_MANIFEST).
Proof.
  revert raw len. induction fuel as [| fuel IH]; intros raw len Hraw Hlen Hfuel; [lia |]. cbn [manifest_loop].
  destruct (Z.eqb_spec len MAX_MANIFEST) as [-> | Hne]; [by apply obeys_ret |].
  set (rest := take (Z.to_nat (zlen raw - len)) (drop (Z.to_nat len) raw)).
  assert (zlen rest = MAX_MANIFEST - len) as Hrest by (subst rest; unfold zlen in *; rewrite length_take, length_drop; lia).
  eapply obeys_bind; [apply (obeys_plift _ rest (fun r => r = rest)); [| done] |].
  { apply slice_Ret. split_and!; [lia | lia | lia | done]. }
  intros r ->. eapply obeys_bind; [apply obeys_read |]. intros [n rest'] (_ & Hn & Hl).
  assert (zlen (take (Z.to_nat len) raw ++ rest') = MAX_MANIFEST) as Hraw'.
  { unfold zlen in *. rewrite length_app, length_take, Hl. lia. }
  destruct (Z.leb_spec n 0); [by apply obeys_ret |].
  unfold wrap. rewrite (Z.mod_small (len + n)) by (unfold MAX_MANIFEST in *; lia). apply IH; [done | lia | lia].
Qed.
Lemma calm_load_manifest m : manifest_ok m -> calm (load_manifest m) manifest_ok.
Proof.
  intros Hm. unfold load_manifest. eapply obeys_bind; [apply obeys_open | intros fd Hfd].
  destruct (fd <? 0); [eapply obeys_bind; [apply obeys_write | intros; by apply obeys_ret] |].
  eapply obeys_bind; [apply calm_manifest_loop; [reflexivity | unfold MAX_MANIFEST; lia | unfold MAX_MANIFEST; lia] |].
  intros [len raw] [Hl Hr]. eapply obeys_bind; [apply obeys_close | intros _ _].
  eapply obeys_bind; [apply (obeys_plift _ (take (Z.to_nat len) raw) any); [apply slice_prefix; lia | done] | intros text _].
  destruct (parse_manifest_ok text (mkManifest (mf_services m) (mf_len m) true)) as (m' & E & Hm'); [by destruct Hm |].
  eapply obeys_bind; [by apply (obeys_plift _ m' manifest_ok) | intros m2 Hm2].
  do 3 (eapply obeys_bind; [apply obeys_write | intros _ _]).
  eapply obeys_bind; [apply obeys_write_dec; destruct Hm2; unfold i64, MAX_SERVICES in *; lia | intros _ _].
  eapply obeys_bind; [apply obeys_write | intros _ _]. by apply obeys_ret.
Qed.

(** ** The loop that prints [/hello.txt] *)

(** Reads that returned data. *)
Definition is_data_read (e : Call * Answer) : bool := match e.1 with CRead _ _ => 0 <? signed 64 (a_ret e.2) | _ => false end.
Definition data_reads (tr : History) : nat := length (filter (fun e => is_data_read e = true) tr).
Lemma data_reads_app tr1 tr2 : data_reads (tr1 ++ tr2) = (data_reads tr1 + data_reads tr2)%nat.
Proof. unfold data_reads. by rewrite filter_app, length_app. Qed.

Section Turns.
  Variable turns : nat.

(** [p] leaves no child behind; it returns, or [turns] reads were not enough. *)
Definition good {R} (p : Prog R) (Q : R -> Prop) : Prop :=
  forall K h, kernel_ok K -> exists tr, reaped tr /\
    ((exists r, interp K h p = (h ++ tr, Finished r) /\ Q r) \/ interp K h p = (h ++ tr, Hangs) /\ (turns <= data_reads tr)%nat).

Lemma good_calm {R} (p : Prog R) (Q : R -> Prop) : calm p Q -> good p Q.
Proof. intros Hp K h HK. destruct (Hp K h HK) as (tr & r & E & Hr & HQ). exists tr. split; [done |]. left. by exists r. Qed.
Lemma good_bind {A B} (p : Prog A) (f : A -> Prog B) (Q1 : A -> Prop) (Q : B -> Prop) :
  good p Q1 -> (forall r, Q1 r -> good (f r) Q) -> good (pbind p f) Q.
Proof.
  intros Hp Hf K h HK. destruct (Hp K h HK) as (tr & Hr & [(r & E & HQ1) | [E Hn]]).
  - destruct (Hf r HQ1 K (h ++ tr) HK) as (tr2 & Hr2 & H2). exists (tr ++ tr2). split; [by apply reaped_app |].
    rewrite interp_bind, E, data_reads_app, app_assoc. destruct H2 as [H2 | [H2 Hn]]; [by left | right; split; [done | lia]].
  - exists tr. split; [done |]. right. by rewrite interp_bind, E.
Qed.

Lemma hello_loop_runs fuel fd buf K h : kernel_ok K -> exists tr, reaped tr /\
  (interp K h (hello_loop fuel fd buf) = (h ++ tr, Finished tt) \/
   interp K h (hello_loop fuel fd buf) = (h ++ tr, Hangs) /\ (fuel <= data_reads tr)%nat).
Proof.
  intros HK. revert h buf. induction fuel as [| fuel IH]; intros h buf; cbn [hello_loop].
  { exists []. split; [apply reaped_nil |]. right. by rewrite app_nil_r. }
  set (c := CRead fd (zlen buf)). set (a := K h c). assert (answer_ok c a) as (_ & _ & _ & _ & Hn) by apply HK. cbn in Hn. pose proof (zlen_nonneg buf).
  cbn [read pbind interp]. fold c a. destruct (signed 64 (a_ret a) <=? 0) eqn:En.
  { exists [(c, a)]. split; [by apply reaped_cons, reaped_nil |]. by left. }
  apply Z.leb_gt in En. set (buf' := overlay (a_out a) buf).
  assert (slice buf' 0 (signed 64 (a_ret a)) = Ret (take (Z.to_nat (signed 64 (a_ret a))) buf')) as Es.
  { apply slice_prefix. unfold zlen, buf' in *. rewrite overlay_length. lia. }
  assert (calm (write 1 (b "[spring] hello: ") ;;; do! s := prefix_of_buf buf' (signed 64 (a_ret a)) in write 1 s) any) as Hc.
  { eapply obeys_bind; [apply obeys_write | intros _ _]. unfold prefix_of_buf. rewrite Es. cbn [plift pbind]. eapply obeys_any, obeys_write. }
  destruct (Hc K (h ++ [(c, a)]) HK) as (tr1 & r1 & E1 & Hr1 & _).
  destruct (IH ((h ++ [(c, a)]) ++ tr1) buf') as (tr2 & Hr2 & H2).
  assert (forall res, interp K ((h ++ [(c, a)]) ++ tr1) (hello_loop fuel fd buf') = (((h ++ [(c, a)]) ++ tr1) ++ tr2, res) ->
    interp K (h ++ [(c, a)]) (write 1 (b "[spring] hello: ") ;;; do! s := prefix_of_buf buf' (signed 64 (a_ret a)) in
      write 1 s ;;; hello_loop fuel fd buf') = (h ++ (c, a) :: tr1 ++ tr2, res)) as Hjoin.
  { intros res Eres. unfold prefix_of_buf in *. rewrite Es in *. cbn [plift pbind] in *. rewrite interp_bind in E1.
    rewrite interp_bind. destruct (interp K _ (write 1 (b "[spring] hello: "))) as [h1 [v | |]]; [| discriminate E1 ..].
    rewrite interp_bind, E1, Eres. f_equal. by rewrite <- !app_assoc. }
  exists ((c, a) :: tr1 ++ tr2). split; [apply reaped_cons; [done | by apply reaped_app] |].
  destruct H2 as [H2 | [H2 Hd]]; [left; by apply Hjoin | right; split; [by apply Hjoin |]].
  change ((c, a) :: tr1 ++ tr2) with ([(c, a)] ++ tr1 ++ tr2). rewrite !data_reads_app.
  assert (data_reads [(c, a)] = 1%nat) as ->; [| lia]. unfold data_reads. rewrite filter_cons_True; [done |].
  unfold is_data_read. cbn [fst snd c]. by apply Z.ltb_lt.
Qed.

Lemma good_hello_loop fd buf : good (hello_loop turns fd buf) any.
Proof.
  intros K h HK. destruct (hello_loop_runs turns fd buf K h HK) as (tr & Hr & H). exists tr. split; [done |].
  destruct H as [H | H]; [left; by exists tt | by right].
Qed.

Lemma good_self_test : good (boot_fs_self_test turns) any.
Proof.
  unfold boot_fs_self_test. do 2 (eapply good_bind; [apply good_calm; eauto with calm | intros ? ?]).
  eapply (good_bind _ _ any).
  { match goal with |- good (if ?x then _ else _) _ => destruct x end.
    - eapply good_bind; [apply good_hello_loop | intros _ _; apply good_calm; eauto with calm].
    - apply good_calm. calm_go. }
  intros _ _. apply good_calm. eapply obeys_bind; [apply obeys_open | intros fd _].
  destruct (0 <=? fd); [| calm_go]. do 5 (eapply obeys_bind; [solve [eauto with calm] | intros ? ?]).
  eapply obeys_bind; [apply obeys_open | intros fd2 _]. destruct (0 <=? fd2); [| by apply obeys_ret].
  eapply obeys_bind; [apply obeys_read | intros [n buf] (_ & Hn & Hl)].
  eapply (obeys_bind _ _ any); [| intros _ _; apply obeys_close].
  destruct (Z.ltb_spec 0 n); [| by apply obeys_ret]. eapply obeys_bind; [apply obeys_write | intros _ _].
  eapply obeys_bind; [apply (obeys_plift _ (take (Z.to_nat n) buf) any); [apply slice_prefix | done] | intros s _].
  - unfold zlen in *. rewrite Hl. lia.
  - calm_go.
Qed.

Lemma good_spring : good (spring_main turns) any.
Proof.
  unfold spring_main. do 4 (eapply good_bind; [apply good_calm; eauto with calm | intros ? _]).
  eapply good_bind; [apply good_calm, calm_load_manifest, manifest_empty_ok | intros m Hm].
  eapply good_bind; [apply good_self_test | intros _ _]. eapply good_bind; [apply good_calm, calm_ticks | intros _ _].
  eapply good_bind; [apply good_calm, calm_init_supervisor | intros sup _].
  apply good_calm. eapply obeys_bind; [by apply calm_start_services | intros _ _]. calm_go.
Qed.

End Turns.

(** A kernel on which every program starts with a new number and exits at once,
    and the supervisor port has capability 2; all other calls return 0. *)
Definition demo_oracle : Oracle := fun h c =>
  match c with
  | CSpawn _ => mkAnswer (3 + Z.of_nat (length h mod 1000)) [] []
  | CPortCreate => mkAnswer 2 [] []
  | _ => mkAnswer 0 [] []
  end.
Lemma demo_oracle_ok : kernel_ok demo_oracle.
Proof.
  intros h c. pose proof (Nat.mod_upper_bound (length h) 1000 ltac:(lia)). unfold answer_ok.
  destruct c; cbn [demo_oracle a_ret a_out a_caps]; unfold zlen; cbn [length Z.of_nat]; split_and!; try done; try lia;
    change (signed 64 0) with 0; lia.
Qed.

(** ** Reading back a manifest *)

Record Service : Type := mkService { sv_label : list Z; sv_path : list Z; sv_keep_alive : bool }.
Definition quote : Z := 34.
(** A service as [tools/mkdisk.sh] writes it, one line each. *)
Definition label_line (l : list Z) : list Z := b "label = " ++ quote :: l ++ [quote].
Definition path_line (p : list Z) : list Z := b "path = " ++ quote :: p ++ [quote].
Definition keep_line (k : bool) : list Z := if k then b "keep_alive = true" else b "keep_alive = false".
Definition service_lines (s : Service) : list (list Z) :=
  [b "[[service]]"; label_line (sv_label s); path_line (sv_path s); keep_line (sv_keep_alive s)].
(** The text: every line ends in a line feed, services have an empty line
    between them. *)
Definition print_lines (ls : list (list Z)) : list Z := ls ≫= fun l => l ++ [10].
Fixpoint manifest_lines (l : list Service) : list (list Z) :=
  match l with
  | [] => []
  | [s] => service_lines s
  | s :: l => service_lines s ++ [] :: manifest_lines l
  end.
Definition print_manifest (l : list Service) : list Z := print_lines (manifest_lines l).

(** Values that fit and need no escape. *)
Definition service_fits (s : Service) : Prop :=
  (quote ∉ sv_label s) /\ (10 ∉ sv_label s) /\ (length (sv_label s) <= MAX_LABEL)%nat /\
  (quote ∉ sv_path s) /\ (10 ∉ sv_path s) /\ (0 < length (sv_path s) <= MAX_SPEC_PATH)%nat.

(** *** One line *)

Definition last_not_space (l : list Z) : Prop := forall x, last l = Some x -> is_ascii_space x = false.
Lemma trim_start_id l : (forall x, head l = Some x -> is_ascii_space x = false) -> trim_start l = l.
Proof. destruct l as [| x l]; [done |]. intros Hx. cbn [trim_start]. by rewrite Hx. Qed.
Lemma trim_end_id l : last_not_space l -> rev (trim_start (rev l)) = l.
Proof.
  intros Hl. rewrite trim_start_id, rev_involutive; [done |]. intros x Hx. apply Hl.
  destruct l as [| y l _] using rev_ind; [done |]. rewrite rev_app_distr in Hx. rewrite last_snoc. exact Hx.
Qed.
Lemma quoted_last pre v : last_not_space (pre ++ quote :: v ++ [quote]).
Proof. intros x Hx. rewrite app_comm_cons, app_assoc, last_snoc in Hx. by injection Hx as <-. Qed.
Lemma trim_quoted c pre v : is_ascii_space c = false -> trim_ascii (c :: pre ++ quote :: v ++ [quote]) = c :: pre ++ quote :: v ++ [quote].
Proof.
  intros Hc. unfold trim_ascii. rewrite (trim_start_id (c :: _)) by (intros x [= <-]; done).
  apply trim_end_id, (quoted_last (c :: pre)).
Qed.

Lemma cut_app c l r : c ∉ l -> cut c (l ++ c :: r) = Some (l, r).
Proof.
  induction l as [| x l IH]; intros Hl; cbn [cut app]; [by rewrite Z.eqb_refl |].
  apply not_elem_of_cons in Hl as [Hx Hl]. rewrite (proj2 (Z.eqb_neq x c)) by done. by rewrite IH.
Qed.
Lemma quoted_value pre v : quote ∉ pre -> quote ∉ v -> toml_string_value (pre ++ quote :: v ++ [quote]) = Some v.
Proof. intros Hp Hv. unfold toml_string_value. fold quote. rewrite cut_app by done. by rewrite cut_app. Qed.
Lemma key_quoted key v : key_is (key ++ b " = " ++ quote :: v ++ [quote]) key = true.
Proof.
  unfold key_is. assert (forall k r, strip_prefix k (k ++ r) = Some r) as ->.
  { induction k as [| x k IH]; intros r; cbn [strip_prefix app]; [by destruct r | by rewrite Z.eqb_refl]. }
  change (b " = " ++ quote :: v ++ [quote]) with (32 :: 61 :: [32] ++ quote :: v ++ [quote]).
  unfold trim_ascii. cbn [trim_start]. change (is_ascii_space 32) with true. change (is_ascii_space 61) with false. cbn iota.
  by rewrite (trim_end_id (61 :: _)) by apply (quoted_last [61; 32]).
Qed.

(** Where the parser is: [current] is the last service, which has number [n]. *)
Definition at_service (n : nat) (pre : list ServiceSpec) (s : ServiceSpec) (post : list ServiceSpec) (m : ServiceManifest) : Prop :=
  mf_services m = pre ++ s :: post /\ length pre = n /\ mf_len m = Z.of_nat n + 1.
Definition put (m : ServiceManifest) (pre : list ServiceSpec) (s : ServiceSpec) (post : list ServiceSpec) : ServiceManifest :=
  mkManifest (pre ++ s :: post) (mf_len m) (mf_loaded m).
Lemma parse_line_at n pre s post m line :
  at_service n pre s post m -> line <> b "[[service]]" ->
  parse_line line (Some (Z.of_nat n)) m = Ret (Some (Z.of_nat n), put m pre
    (if key_is line (b "label") then match toml_string_value line with Some v => set_label s v | None => s end
     else if key_is line (b "path") then match toml_string_value line with Some v => set_path s v | None => s end
     else if key_is line (b "keep_alive") then set_keep_alive s (toml_bool_value line) else s) post).
Proof.
  intros (Hm & Hn & Hl) Hline. unfold parse_line. rewrite bool_decide_false by done. rewrite Hm. unfold idx.
  rewrite (proj2 (Z.ltb_ge (Z.of_nat n) 0)), Nat2Z.id, list_lookup_middle by lia. cbn [obind].
  rewrite upd_in by (unfold zlen; rewrite length_app; simpl; lia). cbn [obind]. unfold put. do 3 f_equal.
  by rewrite Nat2Z.id, <- Hn, <- (Nat.add_0_r (length pre)), insert_app_r.
Qed.

(** *** Lines *)

Fixpoint parse_lines (ls : list (list Z)) (cur : option Z) (m : ServiceManifest) : outcome (option Z * ServiceManifest) :=
  match ls with
  | [] => Ret (cur, m)
  | l :: ls => let! (cur, m) := parse_line (trim_ascii l) cur m in parse_lines ls cur m
  end.
Lemma line_end_app line rest pos : 10 ∉ line -> line_end (line ++ 10 :: rest) pos = pos + zlen line.
Proof.
  revert pos. induction line as [| x line IH]; intros pos Hl; cbn [line_end app]; [unfold zlen; simpl; lia |].
  apply not_elem_of_cons in Hl as [Hx Hl]. rewrite (proj2 (Z.eqb_neq x 10)) by done. rewrite IH, zlen_cons by done. lia.
Qed.
Lemma slice_middle {A} (l1 l2 l3 : list A) : slice (l1 ++ l2 ++ l3) (zlen l1) (zlen l2) = Ret l2.
Proof.
  apply slice_Ret. unfold zlen. rewrite !length_app, !Nat2Z.id. split_and!; [lia | lia | lia |].
  by rewrite drop_app_length, take_app_length.
Qed.
Lemma parse_loop_print ls cur m cur' m' : Forall (fun l => 10 ∉ l) ls -> parse_lines ls cur m = Ret (cur', m') ->
  forall fuel pre, (length (print_lines ls) <= fuel)%nat -> parse_loop fuel (pre ++ print_lines ls) (zlen pre) cur m = Ret m'.
Proof.
  intros Hls. revert cur m. induction Hls as [| line ls Hline Hls IH]; intros cur m Hp fuel pre Hf.
  { injection Hp as <- <-. cbn [print_lines mbind list_bind]. rewrite app_nil_r. by destruct fuel; cbn [parse_loop]; rewrite Z.leb_refl. }
  change (print_lines (line :: ls)) with ((line ++ [10]) ++ print_lines ls) in *. rewrite <- (app_assoc line) in *. cbn [app] in *.
  cbn [parse_lines] in Hp. destruct (parse_line (trim_ascii line) cur m) as [[c1 m1] | | |] eqn:E; try discriminate Hp. cbn [obind] in Hp.
  rewrite length_app in Hf. simpl in Hf. destruct fuel as [| fuel]; [lia |]. cbn [parse_loop].
  assert (zlen (pre ++ line ++ 10 :: print_lines ls) = zlen pre + zlen line + 1 + zlen (print_lines ls)) as Hz.
  { unfold zlen. rewrite !length_app. simpl. lia. }
  pose proof (zlen_nonneg line). pose proof (zlen_nonneg (print_lines ls)).
  rewrite Hz, (proj2 (Z.leb_gt _ _)) by lia.
  assert (drop (Z.to_nat (zlen pre)) (pre ++ line ++ 10 :: print_lines ls) = line ++ 10 :: print_lines ls) as ->.
  { unfold zlen. by rewrite Nat2Z.id, drop_app_length. }
  rewrite line_end_app by done. replace (zlen pre + zlen line - zlen pre) with (zlen line) by lia.
  rewrite slice_middle. cbn [obind]. rewrite E. cbn [obind]. rewrite (proj2 (Z.ltb_lt _ _)) by lia.
  specialize (IH c1 m1 Hp fuel (pre ++ line ++ [10]) ltac:(lia)). rewrite <- !app_assoc in IH. cbn [app] in IH.
  rewrite <- IH. f_equal. unfold zlen. rewrite !length_app. simpl. lia.
Qed.

(** *** Services *)

Definition spec_of (s : Service) : ServiceSpec :=
  mkServiceSpec (overlay (sv_label s) (replicate MAX_LABEL 0)) (zlen (sv_label s))
    (overlay (sv_path s) (replicate MAX_SPEC_PATH 0)) (zlen (sv_path s)) (sv_keep_alive s).

Lemma parse_start n pre s0 post m cur :
  mf_services m = pre ++ s0 :: post -> length pre = n -> mf_len m = Z.of_nat n -> Z.of_nat n < MAX_SERVICES ->
  exists m', parse_line (b "[[service]]") cur m = Ret (Some (Z.of_nat n), m') /\
    at_service n pre service_empty post m' /\ mf_loaded m' = mf_loaded m.
Proof.
  intros Hm Hn Hl Hmax. unfold parse_line. rewrite bool_decide_true, Hl, (proj2 (Z.ltb_lt _ _)) by done.
  rewrite Hm, upd_in by (unfold zlen; rewrite length_app; simpl; lia). cbn [obind]. eexists. split; [reflexivity |].
  split; [| done]. split_and!; cbn [mf_services mf_len]; [| done | done].
  by rewrite Nat2Z.id, <- Hn, <- (Nat.add_0_r (length pre)), insert_app_r.
Qed.
Lemma at_put n pre s s' post m : at_service n pre s post m -> at_service n pre s' post (put m pre s' post).
Proof. intros (_ & Hn & Hl). by split_and!. Qed.

(** A line with a key and a quoted value. *)
Lemma quoted_line_parsed c key v : is_ascii_space c = false -> c <> 91 -> (quote ∉ c :: key) -> (quote ∉ v) ->
  let line := trim_ascii ((c :: key ++ b " = ") ++ quote :: v ++ [quote]) in
  line <> b "[[service]]" /\ (exists rest, line = c :: rest) /\ key_is line (c :: key) = true /\ toml_string_value line = Some v.
Proof.
  intros Hc H91 Hk Hv line. subst line. cbn [app]. rewrite (trim_quoted c (key ++ b " = ") v Hc).
  split_and!; [intros [= E _]; done | by eexists | | apply (quoted_value (c :: key ++ b " = ")); [| done]].
  - rewrite <- app_assoc. apply (key_quoted (c :: key)).
  - rewrite app_comm_cons, not_elem_of_app. split; [done |]. by apply (bool_decide_unpack _), I.
Qed.
Lemma key_is_other c rest k key : c <> k -> key_is (c :: rest) (k :: key) = false.
Proof. intros Hc. unfold key_is. cbn [strip_prefix]. by rewrite (proj2 (Z.eqb_neq k c)). Qed.

Lemma label_parsed n pre s post m v : at_service n pre s post m -> (quote ∉ v) ->
  parse_line (trim_ascii (label_line v)) (Some (Z.of_nat n)) m = Ret (Some (Z.of_nat n), put m pre (set_label s v) post).
Proof.
  intros Hm Hv. destruct (quoted_line_parsed 108 (b "abel") v) as (H1 & _ & H2 & H3); [done | done | | done |].
  { by apply (bool_decide_unpack _), I. }
  change ((108 :: b "abel" ++ b " = ") ++ quote :: v ++ [quote]) with (label_line v) in *.
  change (108 :: b "abel") with (b "label") in H2.
  by rewrite (parse_line_at n pre s post m _ Hm H1), H2, H3.
Qed.
Lemma path_parsed n pre s post m v : at_service n pre s post m -> (quote ∉ v) ->
  parse_line (trim_ascii (path_line v)) (Some (Z.of_nat n)) m = Ret (Some (Z.of_nat n), put m pre (set_path s v) post).
Proof.
  intros Hm Hv. destruct (quoted_line_parsed 112 (b "ath") v) as (H1 & (rest & Hr) & H2 & H3); [done | done | | done |].
  { by apply (bool_decide_unpack _), I. }
  change ((112 :: b "ath" ++ b " = ") ++ quote :: v ++ [quote]) with (path_line v) in *.
  change (112 :: b "ath") with (b "path") in H2.
  rewrite (parse_line_at n pre s post m _ Hm H1), H2, H3, Hr. change (b "label") with (108 :: b "abel"). by rewrite key_is_other.
Qed.
Lemma keep_parsed n pre s post m k : at_service n pre s post m ->
  parse_line (trim_ascii (keep_line k)) (Some (Z.of_nat n)) m = Ret (Some (Z.of_nat n), put m pre (set_keep_alive s k) post).
Proof. intros Hm. rewrite (parse_line_at n pre s post m _ Hm) by by destruct k. by destruct k. Qed.
Lemma blank_parsed n pre s post m : at_service n pre s post m ->
  parse_line (trim_ascii []) (Some (Z.of_nat n)) m = Ret (Some (Z.of_nat n), put m pre s post).
Proof. intros Hm. by rewrite (parse_line_at n pre s post m _ Hm). Qed.

Lemma set_all s : service_fits s ->
  set_keep_alive (set_path (set_label service_empty (sv_label s)) (sv_path s)) (sv_keep_alive s) = spec_of s.
Proof.
  intros (_ & _ & Hl & _ & _ & Hp). unfold set_keep_alive, set_path, set_label, spec_of. rewrite !copy_field_spec.
  cbn [sp_label sp_label_len sp_path sp_path_len sp_keep_alive service_empty].
  f_equal; unfold zlen; rewrite length_replicate; unfold MAX_LABEL, MAX_SPEC_PATH in *; lia.
Qed.

Lemma parse_service s ls n pre s0 post m cur :
  service_fits s -> mf_services m = pre ++ s0 :: post -> length pre = n -> mf_len m = Z.of_nat n -> Z.of_nat n < MAX_SERVICES ->
  parse_lines (service_lines s ++ ls) cur m =
  parse_lines ls (Some (Z.of_nat n)) (mkManifest (pre ++ spec_of s :: post) (Z.of_nat n + 1) (mf_loaded m)).
Proof.
  intros Hs Hm Hn Hl Hmax. pose proof Hs as (Hq1 & _ & _ & Hq2 & _). unfold service_lines. cbn [app parse_lines].
  change (trim_ascii (b "[[service]]")) with (b "[[service]]").
  destruct (parse_start n pre s0 post m cur Hm Hn Hl Hmax) as (m1 & E1 & H1 & Hld). rewrite E1. cbn [obind].
  rewrite (label_parsed _ _ _ _ _ _ H1 Hq1). cbn [obind]. eapply at_put in H1 as H2.
  rewrite (path_parsed _ _ _ _ _ _ H2 Hq2). cbn [obind]. eapply at_put in H2 as H3.
  rewrite (keep_parsed _ _ _ _ _ _ H3). cbn [obind]. unfold put. cbn [mf_len mf_loaded].
  rewrite set_all, Hld by done. by destruct H1 as (_ & _ & ->).
Qed.
Lemma parse_blank ls n pre s post m : at_service n pre s post m ->
  parse_lines ([] :: ls) (Some (Z.of_nat n)) m = parse_lines ls (Some (Z.of_nat n)) m.
Proof.
  intros Hm. cbn [parse_lines]. rewrite (blank_parsed _ _ _ _ _ Hm). cbn [obind]. f_equal. destruct m as [ss len ld].
  destruct Hm as (Hm & _). cbn in Hm. by rewrite Hm.
Qed.

Lemma parse_services l n pre post m cur :
  l <> [] -> Forall service_fits l -> mf_services m = pre ++ post -> length pre = n -> mf_len m = Z.of_nat n ->
  (length l <= length post)%nat -> Z.of_nat (n + length post) = MAX_SERVICES ->
  exists cur', parse_lines (manifest_lines l) cur m =
    Ret (cur', mkManifest (pre ++ (spec_of <$> l) ++ drop (length l) post) (Z.of_nat (n + length l)) (mf_loaded m)).
Proof.
  revert n pre post m cur. induction l as [| s l IH]; intros n pre post m cur Hne Hl Hm Hn Hlen Hpost Hmax; [done |].
  apply Forall_cons in Hl as [Hs Hl]. destruct post as [| s0 post]; [simpl in Hpost; lia |]. simpl in Hpost, Hmax.
  destruct l as [| s2 l].
  - cbn [manifest_lines]. rewrite <- (app_nil_r (service_lines s)). rewrite (parse_service s [] n pre s0 post m cur) by (done || lia).
    cbn [parse_lines]. eexists. do 3 f_equal. simpl. lia.
  - change (manifest_lines (s :: s2 :: l)) with (service_lines s ++ [] :: manifest_lines (s2 :: l)).
    rewrite (parse_service s _ n pre s0 post m cur) by (done || lia).
    erewrite parse_blank by (split_and!; [reflexivity | exact Hn | reflexivity]).
    destruct (IH (S n) (pre ++ [spec_of s]) post (mkManifest (pre ++ spec_of s :: post) (Z.of_nat n + 1) (mf_loaded m)) (Some (Z.of_nat n)))
      as [cur' E]; [done | done | cbn; by rewrite <- app_assoc | rewrite length_app; simpl; lia | cbn; lia | simpl in *; lia | lia |].
    exists cur'. rewrite E. do 3 f_equal; [by rewrite <- app_assoc | simpl; lia].
Qed.

(** *** Looking services up *)

Lemma overlay_prefix (v : list Z) n : (length v <= n)%nat -> slice (overlay v (replicate n 0)) 0 (zlen v) = Ret v.
Proof.
  intros Hn. rewrite slice_prefix by (unfold zlen; rewrite overlay_length, length_replicate; lia). unfold zlen. rewrite Nat2Z.id.
  unfold overlay. rewrite (take_ge v) by (rewrite length_replicate; lia). by rewrite take_app_length.
Qed.
Lemma spec_label_of s : service_fits s -> spec_label (spec_of s) = Ret (sv_label s).
Proof. intros (_ & _ & Hl & _). by apply overlay_prefix. Qed.
Lemma spec_path_of s : service_fits s -> spec_path (spec_of s) = Ret (sv_path s).
Proof. intros (_ & _ & _ & _ & _ & Hp). apply overlay_prefix. lia. Qed.

(** The first service with a label. *)
Definition find_service (l : list Service) (label : list Z) : option ServiceRef :=
  (fun s => mkServiceRef (sv_label s) (sv_path s)) <$> find (fun s => bool_decide (sv_label s = label)) l.
Lemma service_loop_find l rest i label fb : Forall service_fits l ->
  service_loop ((spec_of <$> l) ++ rest) i (i + zlen l) label fb = Ret (find_service l label).
Proof.
  intros Hl. revert i. induction Hl as [| s l Hs Hl IH]; intros i.
  { unfold zlen. simpl. destruct rest; cbn [service_loop]; by rewrite (proj2 (Z.leb_le _ _)) by lia. }
  rewrite fmap_cons. cbn [app service_loop]. rewrite zlen_cons. pose proof (zlen_nonneg l). rewrite (proj2 (Z.leb_gt _ _)) by lia.
  rewrite spec_label_of by done. cbn [obind]. unfold find_service. cbn [find]. destruct (bool_decide (sv_label s = label)) eqn:E.
  - rewrite spec_path_of by done. pose proof Hs as (_ & _ & _ & _ & _ & Hp). cbn [sp_path_len spec_of].
    by rewrite (proj2 (Z.ltb_lt _ _)) by (unfold zlen; lia).
  - replace (i + (1 + zlen l)) with (i + 1 + zlen l) by lia. apply IH.
Qed.
Lemma lines_without_lf l : Forall service_fits l -> Forall (fun x => 10 ∉ x) (manifest_lines l).
Proof.
  assert (forall s, service_fits s -> Forall (fun x => 10 ∉ x) (service_lines s)) as Hline.
  { intros s (_ & Hl & _ & _ & Hp & _). repeat constructor.
    - by apply (bool_decide_unpack _), I.
    - unfold label_line. rewrite not_elem_of_app, not_elem_of_cons, not_elem_of_app, list_elem_of_singleton.
      split_and!; [by apply (bool_decide_unpack _), I | done | done | done].
    - unfold path_line. rewrite not_elem_of_app, not_elem_of_cons, not_elem_of_app, list_elem_of_singleton.
      split_and!; [by apply (bool_decide_unpack _), I | done | done | done].
    - destruct (sv_keep_alive s); by apply (bool_decide_unpack _), I. }
  induction 1 as [| s l Hs Hl IH]; cbn [manifest_lines]; [constructor |]. destruct l as [| s2 l]; [by apply Hline |].
  apply Forall_app_2; [by apply Hline |]. constructor; [by apply not_elem_of_nil | exact IH].
Qed.
Lemma parse_printed l m : Forall service_fits l -> zlen l <= MAX_SERVICES -> zlen (mf_services m) = MAX_SERVICES -> mf_len m = 0 ->
  parse_manifest (print_manifest l) m = Ret (mkManifest ((spec_of <$> l) ++ drop (length l) (mf_services m)) (zlen l) (mf_loaded m)).
Proof.
  intros Hl Hmax Hm H0. destruct l as [| s l].
  { destruct m as [ss len ld]. cbn in *. by rewrite H0. }
  destruct (parse_services (s :: l) 0 [] (mf_services m) m None) as [cur E]; [done | done | done | done | done | unfold zlen in *; lia | exact Hm |].
  unfold parse_manifest, print_manifest.
  exact (parse_loop_print _ _ _ _ _ (lines_without_lf _ Hl) E _ [] (Nat.le_refl _)).
Qed.

(** C17 A manifest printed in the format of the disk image is read back: for up
    to eleven services whose labels and paths fit and contain no quote or line
    feed, the parser returns exactly these services with their labels, paths
    and flags, and [service] finds the first one with a label and nothing for
    a label that is not listed, never the built-in path. *)
Theorem manifest_round_trip (l : list Service) : Forall service_fits l -> zlen l <= MAX_SERVICES ->
  exists m, parse_manifest (print_manifest l) (mkManifest (mf_services manifest_empty) (mf_len manifest_empty) true) = Ret m /\
    mf_len m = zlen l /\
    (forall i s, l !! i = Some s -> exists sp, mf_services m !! i = Some sp /\
       spec_label sp = Ret (sv_label s) /\ spec_path sp = Ret (sv_path s) /\ sp_keep_alive sp = sv_keep_alive s) /\
    (forall label fallback, service m label fallback = Ret (find_service l label)).
Proof.
  intros Hl Hmax. eexists. split; [by apply parse_printed |]. split; [done |]. split.
  - intros i s Hi. exists (spec_of s). assert (service_fits s) as Hs by (rewrite Forall_lookup in Hl; by eapply Hl). split_and!.
    + cbn [mf_services]. apply lookup_app_l_Some. by rewrite list_lookup_fmap, Hi.
    + by apply spec_label_of.
    + by apply spec_path_of.
    + done.
  - intros label fb. unfold service. cbn [mf_services mf_len mf_loaded].
    rewrite (service_loop_find l _ 0) by done. cbn [obind]. by destruct (find_service l label).
Qed.

(** The manifest of the image. *)
Definition shipped_services : list Service :=
  (fun '(l, p, k) => mkService l p k) <$>
    [(LABEL_VFSD, b "/sbin/vfsd", true); (LABEL_NETD, b "/sbin/netd", false); (LABEL_AUDIOD, b "/sbin/audiod", false);
     (LABEL_REFLECTION, b "/bin/reflection", false); (LABEL_DESKTOP, b "/bin/desktop", false); (LABEL_TIDE, b "/bin/tide", false);
     (LABEL_SKIM, b "/bin/skim", false); (LABEL_STONES, b "/bin/stones", false); (LABEL_DRIFT, b "/bin/drift", false);
     (LABEL_SURFACE_DEMO, b "/bin/surface-demo", false); (LABEL_DEPTH, b "/bin/depth", false)].
#[export] Instance service_fits_dec s : Decision (service_fits s).
Proof. unfold service_fits. apply _. Defined.
Lemma manifest_round_trip_witness : zlen (print_manifest shipped_services) <= MAX_MANIFEST /\
  exists m, parse_manifest (print_manifest shipped_services) (mkManifest (mf_services manifest_empty) (mf_len manifest_empty) true) = Ret m /\
    mf_len m = 11 /\ service m LABEL_DEPTH [] = Ret (Some (mkServiceRef LABEL_DEPTH (b "/bin/depth"))).
Proof.
  split; [vm_compute; discriminate |].
  destruct (manifest_round_trip shipped_services) as (m & E & Hlen & _ & Hfind).
  - apply (bool_decide_unpack _). vm_compute. exact I.
  - vm_compute. discriminate.
  - exists m. split; [exact E |]. split; [exact Hlen |]. rewrite Hfind. vm_compute. reflexivity.
Defined.
