(* ===== verification/Apps.v ===== *)
(** * User programs

    The services [vfsd], [netd] and [audiod], the clients of the compositor
    ([desktop], [tide], [skim], [stones], [drift], [surface-demo]), the terminal
    host [depth] and the shell [shore], all under [user/], with the libraries
    [libs/skipstone] and [libs/lily]. *)

From S2P Require Import Prelude Bytes User.

(** ** skipstone and lily *)

Record TextStyle : Type := mkTextStyle { ts_id : Z; ts_line_height : Z; ts_color : Z }.
Definition BODY : TextStyle := mkTextStyle 1 16 0xE6E6FA.
Definition CAPTION : TextStyle := mkTextStyle 2 16 0x9FB4FF.
Definition style_name (id : Z) : list Z :=
  if id =? 1 then b "Skipstone Body" else if id =? 2 then b "Skipstone Caption" else b "Skipstone Unknown".

Record SurfaceCard : Type := mkCard {
  card_x : Z; card_y : Z; card_accent : Z; card_title : list Z; card_text_style : TextStyle }.
Definition card_new (title : list Z) : SurfaceCard := mkCard 420 360 0x7AA2FF title BODY.
Definition position (c : SurfaceCard) (x y : Z) : SurfaceCard := mkCard x y (card_accent c) (card_title c) (card_text_style c).
Definition accent (c : SurfaceCard) (color : Z) : SurfaceCard := mkCard (card_x c) (card_y c) color (card_title c) (card_text_style c).
Definition text_style (c : SurfaceCard) (style : TextStyle) : SurfaceCard :=
  mkCard (card_x c) (card_y c) (card_accent c) (card_title c) style.
Definition title_id (title : list Z) : Z := if bool_decide (title = b "Lily surface") then 1 else 0.

(** [(line_height as u64) << 32 | id]. *)
Definition style_word (s : TextStyle) : Z := Z.lor (wrap 64 (Z.shiftl (ts_line_height s) 32)) (ts_id s).
(** A message of six words and nothing else. *)
Definition regs_msg (regs : list Z) : UMsg := mkUMsg regs [] [].
Definition card_send (c : SurfaceCard) (surface : Z) : Prog Z :=
  ipc_send surface (regs_msg [SURFACE_DRAW; card_x c; card_y c; card_accent c; title_id (card_title c); style_word (card_text_style c)]).

(** ** Lines of output *)

Definition newline : Prog unit := write 1 [10] ;;; PRet tt.
(** A string, a number and the end of the line. *)
Definition write_result (s : list Z) (v : Z) : Prog unit := write 1 s ;;; write_dec v ;;; newline.

(** ** vfsd *)

Definition read_hello : Prog unit :=
  do! fd := open (b "/hello.txt") 0 in
  if fd <? 0 then write 1 (bn "[vfsd] open /hello.txt failed") ;;; PRet tt
  else
    do! (n, buf) := read fd (replicate 64 0) in
    (if 0 <? n then
       write 1 (b "[vfsd] read /hello.txt: ") ;;;
       do! s := plift (slice buf 0 n) in
       write 1 s ;;; PRet tt
     else write_result (b "[vfsd] read /hello.txt returned ") n) ;;;
    close fd.

Definition VFSD_MAGIC : Z := 0x76667364.
Definition vfsd_notify_spring (pid : Z) : Prog Z :=
  do! cap := ipc_name_lookup (b "com.persona.spring") in
  write_result (b "[vfsd] spring lookup cap=") cap ;;;
  if cap <? 0 then PRet cap
  else ipc_send (signed 32 cap) (regs_msg [VFSD_MAGIC; pid; 0; 0; 0; 0]).
Definition vfsd_start : Prog unit :=
  do! pid := getpid in
  write 1 (b "[vfsd] starting pid=0x") ;;; write_hex 1 pid ;;; newline ;;;
  read_hello ;;;
  do! nr := vfsd_notify_spring pid in
  write_result (b "[vfsd] notify spring -> ") nr ;;;
  write 1 (bn "[vfsd] exiting") ;;;
  exit 0.

(** ** netd *)

Definition NETD_MAGIC : Z := 0x6e657464.
(** The fields of [NetInfo]. *)
Definition ni_present (i : list Z) : Z := field32 i 0.
Definition ni_link_up (i : list Z) : Z := field32 i 4.
Definition ni_configured (i : list Z) : Z := field32 i 8.
Definition ni_tx_packets (i : list Z) : Z := field32 i 12.
Definition ni_rx_packets (i : list Z) : Z := field32 i 16.
Definition ni_ipv4 (i : list Z) (k : nat) : Z := default 0 (i !! (28 + k)%nat).

Definition write_ipv4 (i : list Z) : Prog unit :=
  write_dec (ni_ipv4 i 0) ;;; write 1 (b ".") ;;; write_dec (ni_ipv4 i 1) ;;; write 1 (b ".") ;;;
  write_dec (ni_ipv4 i 2) ;;; write 1 (b ".") ;;; write_dec (ni_ipv4 i 3).
Definition netd_notify_spring (pid : Z) (info : list Z) : Prog Z :=
  do! cap := ipc_name_lookup (b "com.persona.spring") in
  write_result (b "[netd] spring lookup cap=") cap ;;;
  if cap <? 0 then PRet cap
  else
    let ip := Z.lor (Z.lor (Z.lor (Z.shiftl (ni_ipv4 info 0) 24) (Z.shiftl (ni_ipv4 info 1) 16)) (Z.shiftl (ni_ipv4 info 2) 8)) (ni_ipv4 info 3) in
    ipc_send (signed 32 cap) (regs_msg [NETD_MAGIC; pid; ni_configured info; ip; ni_tx_packets info; ni_rx_packets info]).
Definition netd_start : Prog unit :=
  do! pid := getpid in
  write 1 (b "[netd] starting pid=0x") ;;; write_hex 1 pid ;;; newline ;;;
  do! (rc, info) := net_configure in
  write 1 (b "[netd] net_configure -> ") ;;; write_dec rc ;;;
  write 1 (b " present=") ;;; write_dec (ni_present info) ;;;
  write 1 (b " link=") ;;; write_dec (ni_link_up info) ;;;
  write 1 (b " configured=") ;;; write_dec (ni_configured info) ;;;
  write 1 (b " ip=") ;;; write_ipv4 info ;;;
  write 1 (b " tx=") ;;; write_dec (ni_tx_packets info) ;;;
  write 1 (b " rx=") ;;; write_dec (ni_rx_packets info) ;;; newline ;;;
  do! nr := netd_notify_spring pid info in
  write_result (b "[netd] notify spring -> ") nr ;;;
  write 1 (bn "[netd] exiting") ;;;
  exit (if (rc =? 0) && negb (ni_configured info =? 0) then 0 else 1).

(** ** audiod *)

Definition AUDIOD_MAGIC : Z := 0x6175646f.
Definition ai_present (i : list Z) : Z := field32 i 0.
Definition ai_played (i : list Z) : Z := field32 i 4.
Definition ai_sample_rate (i : list Z) : Z := field32 i 8.
Definition ai_frames (i : list Z) : Z := field32 i 12.
Definition audiod_notify_spring (pid : Z) (info : list Z) : Prog Z :=
  do! cap := ipc_name_lookup (b "com.persona.spring") in
  write_result (b "[audiod] spring lookup cap=") cap ;;;
  if cap <? 0 then PRet cap
  else ipc_send (signed 32 cap) (regs_msg [AUDIOD_MAGIC; pid; ai_played info; ai_sample_rate info; ai_frames info; 0]).
Definition audiod_start : Prog unit :=
  do! pid := getpid in
  write 1 (b "[audiod] starting pid=0x") ;;; write_hex 1 pid ;;; newline ;;;
  do! (rc, info) := audio_play_tone 440 180 in
  write 1 (b "[audiod] audio_play_tone -> ") ;;; write_dec rc ;;;
  write 1 (b " present=") ;;; write_dec (ai_present info) ;;;
  write 1 (b " played=") ;;; write_dec (ai_played info) ;;;
  write 1 (b " rate=") ;;; write_dec (ai_sample_rate info) ;;;
  write 1 (b " frames=") ;;; write_dec (ai_frames info) ;;; newline ;;;
  do! nr := audiod_notify_spring pid info in
  write_result (b "[audiod] notify spring -> ") nr ;;;
  write 1 (bn "[audiod] exiting") ;;;
  exit (if (rc =? 0) && negb (ai_played info =? 0) then 0 else 1).

(** ** Clients of the compositor *)

(** [draw_desktop] of the desktop. *)
Definition desktop_draw (surface : Z) : Prog Z :=
  let style := style_word BODY in
  let dock_apps := 5 in
  do! (_, net) := net_info in
  do! (_, audio) := audio_info in
  let status_flags := 4 in
  let status_flags := if negb (ni_configured net =? 0) then Z.lor status_flags 1 else status_flags in
  let status_flags := if negb (ai_played audio =? 0) then Z.lor status_flags 2 else status_flags in
  do! pid := getpid in
  ipc_send surface (regs_msg [SURFACE_DESKTOP; 0x7AA2FF; style; dock_apps; status_flags; pid]).
Definition tide_draw (surface : Z) : Prog Z :=
  do! pid := getpid in ipc_send surface (regs_msg [SURFACE_TIDE; 0x7AA2FF; style_word BODY; 4; 0; pid]).
Definition skim_draw (surface : Z) : Prog Z :=
  do! pid := getpid in ipc_send surface (regs_msg [SURFACE_SKIM; 0x7AA2FF; style_word BODY; 4; 0; pid]).
Definition stones_draw (surface : Z) : Prog Z :=
  do! pid := getpid in ipc_send surface (regs_msg [SURFACE_STONES; 0x4F8CFF; style_word BODY; 3; 0; pid]).
Definition drift_draw (surface : Z) : Prog Z :=
  do! pid := getpid in ipc_send surface (regs_msg [SURFACE_DRIFT; 0xFFBD2E; style_word BODY; 3; 0; pid]).

(** The [_start] that these five share but for their name and what they draw. *)
Definition client_start (name what : list Z) (draw : Z -> Prog Z) : Prog unit :=
  write 1 (b "[" ++ name ++ b "] starting pid=0x") ;;;
  do! pid := getpid in
  write_hex 1 pid ;;; newline ;;;
  do! surface := ipc_name_lookup (b "com.persona.reflection") in
  write_result (b "[" ++ name ++ b "] reflection lookup cap=") surface ;;;
  if surface <=? 0 then exit 1
  else
    do! dr := draw (signed 32 surface) in
    write_result (b "[" ++ name ++ b "] draw " ++ what ++ b " -> ") dr ;;;
    if dr <? 0 then exit 1
    else write 1 (b "[" ++ name ++ bn "] exiting") ;;; exit 0.
Definition desktop_start : Prog unit := client_start (b "desktop") (b "desktop") desktop_draw.
Definition tide_start : Prog unit := client_start (b "tide") (b "tide") tide_draw.
Definition skim_start : Prog unit := client_start (b "skim") (b "skim") skim_draw.
Definition stones_start : Prog unit := client_start (b "stones") (b "stones") stones_draw.
Definition drift_start : Prog unit := client_start (b "drift") (b "drift") drift_draw.

(** *** surface-demo *)

Definition demo_card : SurfaceCard := text_style (accent (position (card_new (b "Lily surface")) 420 360) 0x7AA2FF) CAPTION.
Definition send_draw (surface : Z) : Prog Z := card_send demo_card surface.
Definition send_shutdown (surface : Z) : Prog Z := ipc_send surface (regs_msg [SURFACE_SHUTDOWN; 0; 0; 0; 0; 0]).
Definition surface_demo_start : Prog unit :=
  write 1 (b "[surface-demo] starting pid=0x") ;;;
  do! pid := getpid in
  write_hex 1 pid ;;; newline ;;;
  do! surface := ipc_name_lookup (b "com.persona.reflection") in
  write_result (b "[surface-demo] reflection lookup cap=") surface ;;;
  if surface <=? 0 then exit 1
  else
    do! dr := send_draw (signed 32 surface) in
    write_result (b "[surface-demo] draw -> ") dr ;;;
    if dr <? 0 then exit 1
    else
      do! sr := send_shutdown (signed 32 surface) in
      write_result (b "[surface-demo] shutdown -> ") sr ;;;
      if sr <? 0 then exit 1
      else write 1 (bn "[surface-demo] exiting") ;;; exit 0.

(** ** depth *)

Definition depth_start : Prog unit :=
  do! pid := getpid in
  write 1 (b "[depth] starting pid=0x") ;;; write_hex 1 pid ;;; newline ;;;
  write 1 (bn "[depth] launching Shore at /bin/shore") ;;;
  do! child := spawn (b "/bin/shore") in
  write_result (b "[depth] spawn shore -> ") child ;;;
  if child <=? 0 then exit 1
  else
    do! (wr, status) := waitpid child in
    write 1 (b "[depth] shore exited pid=") ;;; write_dec wr ;;;
    write_result (b " status=") status ;;;
    write 1 (bn "[depth] exiting") ;;;
    exit status.

(** ** shore *)

Fixpoint line_prefix (l : list Z) : list Z :=
  match l with
  | [] => []
  | x :: l => if (x =? 10) || (x =? 13) then [] else x :: line_prefix l
  end.
Definition eq_cmd (input cmd : list Z) : bool := bool_decide (line_prefix input = cmd).
Definition read_line (buf : list Z) : Prog (Z * list Z) :=
  do! (n, buf) := read 0 buf in PRet (if n <=? 0 then 0 else n, buf).

Section Turns.
  (** Reads of [/hello.txt] that return data. *)
  Variable turns : nat.

Fixpoint cat_loop (fuel : nat) (fd : Z) (buf : list Z) : Prog unit :=
  match fuel with
  | O => PHang
  | S fuel =>
      do! (n, buf) := read fd buf in
      if n <=? 0 then PRet tt
      else do! s := plift (slice buf 0 n) in write 1 s ;;; cat_loop fuel fd buf
  end.
Definition cat_hello : Prog unit :=
  do! fd := open (b "/hello.txt") 0 in
  if fd <? 0 then write 1 (bn "shore: open failed") ;;; PRet tt
  else cat_loop turns fd (replicate 64 0) ;;; close fd.
Definition run_vfsd : Prog unit :=
  do! pid := spawn (b "/sbin/vfsd") in
  write_result (b "shore: spawn /sbin/vfsd -> ") pid ;;;
  if 0 <? pid then
    do! (wr, status) := waitpid pid in
    write 1 (b "shore: waitpid -> ") ;;; write_dec wr ;;; write_result (b " status=") status
  else PRet tt.

(** One command; [false] for the one that leaves the loop. *)
Definition shore_command (line : list Z) : Prog bool :=
  if eq_cmd line (b "help") then write 1 (bn "help hello run-vfsd exit") ;;; PRet true
  else if eq_cmd line (b "hello") then cat_hello ;;; PRet true
  else if eq_cmd line (b "run-vfsd") then run_vfsd ;;; PRet true
  else if eq_cmd line (b "exit") then write 1 (bn "[shore] exiting") ;;; PRet false
  else write 1 (bn "shore: unknown command") ;;; PRet true.
(** The loop of [_start], for [fuel] prompts. *)
Fixpoint shore_loop (fuel : nat) (line : list Z) : Prog unit :=
  match fuel with
  | O => PHang
  | S fuel =>
      write 1 (b "shore> ") ;;;
      do! (n, line) := read_line line in
      if n =? 0 then shore_loop fuel line
      else
        do! cmd := plift (slice line 0 n) in
        do! go := shore_command cmd in
        if go then shore_loop fuel line else exit 0
  end.
Definition shore_start (fuel : nat) : Prog unit :=
  write 1 (b "[shore] starting pid=0x") ;;;
  do! pid := getpid in
  write_hex 1 pid ;;; newline ;;;
  write 1 (bn "Shore 0.1 - commands: help, hello, run-vfsd, exit") ;;;
  shore_loop fuel (replicate 64 0).
End Turns.
