(* ===== verification/Reflection.v ===== *)
(** * Reflection

    The compositor, [user/reflection/src/main.rs]: windows as sequences of
    display calls, and the loop that serves the clients' messages. *)

From S2P Require Import Prelude Bytes User Apps.

(** Arithmetic on [u32]; [saturating_sub]. *)
Definition w32 (v : Z) : Z := wrap 32 v.
Definition sub_sat (x y : Z) : Z := Z.max (x - y) 0.

(** ** Windows *)

Definition draw_window (x y width height : Z) (title : list Z) : Prog unit :=
  display_fill_rect x y width height 0x182033 ;;;
  display_fill_rect (w32 (x + 1)) (w32 (y + 1)) (sub_sat width 2) 24 0x273552 ;;;
  display_fill_rect (w32 (x + 8)) (w32 (y + 8)) 8 8 0xFF5F57 ;;;
  display_fill_rect (w32 (x + 24)) (w32 (y + 8)) 8 8 0xFFBD2E ;;;
  display_fill_rect (w32 (x + 40)) (w32 (y + 8)) 8 8 0x28C840 ;;;
  display_draw_text (w32 (x + 64)) (w32 (y + 6)) title 0xE6E6FA ;;;
  display_fill_rect (w32 (x + 1)) (w32 (y + 25)) (sub_sat width 2) (sub_sat height 26) 0x101827 ;;; PRet tt.

(** The end of the line each drawing reports. *)
Definition write_style (style : list Z) (line_height : Z) : Prog unit :=
  write 1 (b " style=") ;;; write 1 style ;;; write 1 (b " line_height=") ;;; write_dec line_height ;;; newline.
(** The loops over the marks beside a list. *)
Fixpoint mark_loop (n : nat) (i : Z) (draw : Z -> Prog Z) : Prog unit :=
  match n with
  | O => PRet tt
  | S n => draw i ;;; mark_loop n (i + 1) draw
  end.

Definition draw_desktop (accent style_id line_height dock_apps status_flags : Z) : Prog unit :=
  let style := style_name style_id in
  display_clear 0x0B1020 ;;; display_fill_rect 0 0 2048 30 0x101827 ;;;
  display_draw_text 18 7 (b "personaOS") 0xE6E6FA ;;; display_draw_text 128 7 (b "Tide") 0x9FB4FF ;;;
  display_draw_text 184 7 (b "Skim") 0x9FB4FF ;;; display_draw_text 240 7 (b "Stones") 0x9FB4FF ;;;
  display_draw_text 312 7 (b "Drift") 0x9FB4FF ;;; display_draw_text 384 7 (b "Depth") 0x9FB4FF ;;;
  (if negb (Z.land status_flags 1 =? 0) then display_draw_text 1760 7 (b "Wi-Fi") 0x9FB4FF ;;; PRet tt else PRet tt) ;;;
  (if negb (Z.land status_flags 2 =? 0) then display_draw_text 1824 7 (b "Sound") 0x9FB4FF ;;; PRet tt else PRet tt) ;;;
  (if negb (Z.land status_flags 4 =? 0) then display_draw_text 1904 7 (b "Pond") 0x9FB4FF ;;; PRet tt else PRet tt) ;;;
  display_fill_rect 690 1872 668 104 0x182033 ;;; display_fill_rect 718 1896 56 56 accent ;;;
  display_fill_rect 718 1960 32 4 accent ;;; display_draw_text 708 1930 (b "Tide") 0xE6E6FA ;;;
  display_fill_rect 820 1896 56 56 0x4F8CFF ;;; display_fill_rect 820 1960 32 4 0x4F8CFF ;;;
  display_draw_text 810 1930 (b "Skim") 0xE6E6FA ;;; display_fill_rect 922 1896 56 56 0x28C840 ;;;
  display_fill_rect 922 1960 32 4 0x28C840 ;;; display_draw_text 902 1930 (b "Stones") 0xE6E6FA ;;;
  display_fill_rect 1024 1896 56 56 0xFFBD2E ;;; display_fill_rect 1024 1960 32 4 0xFFBD2E ;;;
  display_draw_text 1014 1930 (b "Drift") 0xE6E6FA ;;; display_fill_rect 1126 1896 56 56 0xFF5F57 ;;;
  display_fill_rect 1126 1960 32 4 0xFF5F57 ;;; display_draw_text 1116 1930 (b "Depth") 0xE6E6FA ;;;
  draw_window 420 360 420 220 (b "Desktop") ;;; display_draw_text 444 416 (b "Dock + menu bar smoke") 0xE6E6FA ;;;
  display_draw_text 444 440 style 0x9FB4FF ;;; display_fill_rect 444 468 (Z.min line_height 32) 8 accent ;;;
  write 1 (b "[reflection] drew desktop shell dock_apps=") ;;; write_dec dock_apps ;;;
  write 1 (b " status_flags=") ;;; write_dec status_flags ;;; write_style style line_height.

Definition draw_skim (accent style_id line_height entries : Z) : Prog unit :=
  let style := style_name style_id in
  draw_window 900 360 520 320 (b "Skim") ;;; display_fill_rect 901 386 128 293 0x121B2B ;;;
  display_draw_text 924 416 (b "Favorites") 0x9FB4FF ;;; display_draw_text 924 448 (b "Pond") 0xE6E6FA ;;;
  display_draw_text 924 472 (b "Apps") 0xE6E6FA ;;; display_draw_text 1060 416 (b "/") 0x9FB4FF ;;;
  display_draw_text 1060 448 (b "hello.txt") 0xE6E6FA ;;; display_draw_text 1060 472 (b "scratch.txt") 0xE6E6FA ;;;
  display_draw_text 1060 496 (b "bin") 0xE6E6FA ;;; display_draw_text 1060 520 (b "etc") 0xE6E6FA ;;;
  display_draw_text 1060 552 style 0x9FB4FF ;;; display_fill_rect 1060 584 (Z.min line_height 32) 8 accent ;;;
  mark_loop (Z.to_nat (Z.min entries 5)) 0 (fun i => display_fill_rect 1048 (444 + i * 24) 4 12 accent) ;;;
  write 1 (b "[reflection] drew Skim file manager entries=") ;;; write_dec entries ;;;
  write_style style line_height.

Definition draw_tide (accent style_id line_height results : Z) : Prog unit :=
  let style := style_name style_id in
  display_fill_rect 560 180 928 360 0x101827 ;;; display_fill_rect 562 182 924 64 0x182033 ;;;
  display_draw_text 600 206 (b "Tide") 0xE6E6FA ;;; display_draw_text 680 206 (b "skim") 0x9FB4FF ;;;
  display_fill_rect 600 260 848 2 accent ;;; display_draw_text 620 292 (b "Skim") 0xE6E6FA ;;;
  display_draw_text 620 324 (b "Stones") 0xE6E6FA ;;; display_draw_text 620 356 (b "Depth") 0xE6E6FA ;;;
  display_draw_text 620 388 (b "Reflection") 0xE6E6FA ;;; display_draw_text 920 292 (b "File manager") 0x9FB4FF ;;;
  display_draw_text 920 324 (b "Settings") 0x9FB4FF ;;; display_draw_text 920 356 (b "Terminal") 0x9FB4FF ;;;
  display_draw_text 920 388 (b "Compositor") 0x9FB4FF ;;; display_draw_text 620 444 style 0x9FB4FF ;;;
  display_fill_rect 620 476 (Z.min line_height 32) 8 accent ;;;
  mark_loop (Z.to_nat (Z.min results 4)) 0 (fun i => display_fill_rect 596 (288 + i * 32) 8 18 accent) ;;;
  write 1 (b "[reflection] drew Tide launcher results=") ;;; write_dec results ;;; write_style style line_height.

Definition draw_drift (accent style_id line_height lines : Z) : Prog unit :=
  let style := style_name style_id in
  draw_window 1080 760 560 340 (b "Drift") ;;; display_draw_text 1112 816 (b "drift.md") 0x9FB4FF ;;;
  display_fill_rect 1112 846 488 1 0x273552 ;;; display_draw_text 1112 880 (b "# personaOS") 0xE6E6FA ;;;
  display_draw_text 1112 912 (b "Calm tools for focused work.") 0xE6E6FA ;;;
  display_draw_text 1112 944 (b "Local-first. Capability-safe.") 0xE6E6FA ;;;
  display_draw_text 1112 992 style 0x9FB4FF ;;; display_fill_rect 1112 1024 (Z.min line_height 32) 8 accent ;;;
  mark_loop (Z.to_nat (Z.min lines 4)) 0 (fun i => display_fill_rect 1096 (876 + i * 32) 4 18 accent) ;;;
  write 1 (b "[reflection] drew Drift editor lines=") ;;; write_dec lines ;;; write_style style line_height.

Definition draw_stones (accent style_id line_height toggles : Z) : Prog unit :=
  let style := style_name style_id in
  draw_window 500 720 520 300 (b "Stones") ;;; display_draw_text 532 776 (b "System Settings") 0xE6E6FA ;;;
  display_draw_text 532 808 (b "Appearance") 0x9FB4FF ;;; display_draw_text 532 840 (b "Privacy") 0x9FB4FF ;;;
  display_draw_text 532 872 (b "Updates") 0x9FB4FF ;;; display_fill_rect 760 806 48 22 0x273552 ;;;
  display_fill_rect 786 810 14 14 accent ;;; display_fill_rect 760 838 48 22 0x273552 ;;;
  display_fill_rect 768 842 14 14 accent ;;; display_fill_rect 760 870 48 22 0x273552 ;;;
  display_fill_rect 786 874 14 14 accent ;;; display_draw_text 532 920 style 0x9FB4FF ;;;
  display_fill_rect 532 952 (Z.min line_height 32) 8 accent ;;;
  write 1 (b "[reflection] drew Stones settings toggles=") ;;; write_dec toggles ;;;
  write_style style line_height.

(** ** The keyboard *)

(** At most 80000 polls, until one returns a key. *)
Definition KEY_POLLS : Z := 80000.
Fixpoint key_loop (n : nat) (key : Z) : Prog Z :=
  match n with
  | O => PRet key
  | S n => do! key := input_poll_byte in if 0 <? key then PRet key else key_loop n key
  end.
Definition poll_input_smoke : Prog unit :=
  do! key := key_loop (Z.to_nat KEY_POLLS) 0 in
  if key <=? 0 then PRet tt
  else
    display_fill_rect 1628 4 112 22 0x273552 ;;; display_draw_text 1640 7 (b "Key") 0xE6E6FA ;;;
    display_fill_rect 1684 10 (Z.min (w32 key) 56) 8 0x7AA2FF ;;;
    write 1 (b "[reflection] input key=0x") ;;; write_hex 1 (wrap 64 key) ;;; newline.

(** ** Spring and the first picture *)

Definition reflection_notify_spring (pid surface_send : Z) : Prog Z :=
  do! spring := ipc_name_lookup (b "com.persona.spring") in
  write_result (b "[reflection] spring lookup cap=") spring ;;;
  if spring <? 0 then PRet spring
  else ipc_send (signed 32 spring) (mkUMsg [REFLECTION_READY; pid; 0; 0; 0; 0] [surface_send] []).

Definition draw_initial (width height : Z) : Prog unit :=
  display_clear 0x0B1020 ;;;
  display_draw_text 32 28 (b "personaOS") 0xE6E6FA ;;; display_draw_text 32 52 (b "M5 desktop seed") 0x9FB4FF ;;;
  let panel_w := if 360 <? width then 320 else sub_sat width 48 in
  let panel_h := if 260 <? height then 180 else sub_sat height 96 in
  let panel_x := if panel_w <? width then (width - panel_w) / 2 else 0 in
  let panel_y := if panel_h <? height then (height - panel_h) / 2 else 0 in
  draw_window panel_x panel_y panel_w panel_h (b "Reflection") ;;;
  display_draw_text (w32 (panel_x + 24)) (w32 (panel_y + 56)) (b "waiting for desktop") 0xE6E6FA ;;;
  display_fill_rect (w32 (panel_x + 24)) (w32 (panel_y + 120)) (sub_sat panel_w 48) 6 0x4F8CFF ;;;
  PRet tt.

(** ** Messages *)

Definition reg_of (regs : list Z) (i : nat) : Z := default 0 (regs !! i).
(** The two halves of a style word. *)
Definition low_word (r : Z) : Z := Z.land r 0xFFFFFFFF.
Definition high_word (r : Z) : Z := w32 (Z.shiftr r 32).
(** The arm for [SURFACE_DRAW]. *)
Definition draw_client (x y color label style_id line_height : Z) : Prog unit :=
  let label := if label =? 1 then b "Lily surface" else b "client surface" in
  let style := style_name style_id in
  draw_window x y 360 180 label ;;;
  display_draw_text (w32 (x + 24)) (w32 (y + 56)) (b "drawn via IPC") 0xE6E6FA ;;;
  display_draw_text (w32 (x + 24)) (w32 (y + 80)) style 0x9FB4FF ;;;
  display_fill_rect (w32 (x + 24)) (w32 (y + 104)) (Z.min line_height 32) 8 color ;;;
  display_fill_rect (w32 (x + 24)) (w32 (y + 124)) 280 8 color ;;;
  write 1 (b "[reflection] drew client surface style=") ;;; write 1 style ;;;
  write_result (b " line_height=") line_height.

(** What a message does; a status ends the loop. *)
Definition serve_message (regs : list Z) : Prog (option Z) :=
  let op := reg_of regs 0 in
  let r i := reg_of regs i in
  if op =? SURFACE_DRAW then
    draw_client (w32 (r 1%nat)) (w32 (r 2%nat)) (w32 (r 3%nat)) (r 4%nat) (low_word (r 5%nat)) (high_word (r 5%nat)) ;;; PRet None
  else if op =? SURFACE_DESKTOP then
    draw_desktop (w32 (r 1%nat)) (low_word (r 2%nat)) (high_word (r 2%nat)) (w32 (r 3%nat)) (w32 (r 4%nat)) ;;; PRet None
  else if op =? SURFACE_SKIM then draw_skim (w32 (r 1%nat)) (low_word (r 2%nat)) (high_word (r 2%nat)) (w32 (r 3%nat)) ;;; PRet None
  else if op =? SURFACE_STONES then draw_stones (w32 (r 1%nat)) (low_word (r 2%nat)) (high_word (r 2%nat)) (w32 (r 3%nat)) ;;; PRet None
  else if op =? SURFACE_TIDE then draw_tide (w32 (r 1%nat)) (low_word (r 2%nat)) (high_word (r 2%nat)) (w32 (r 3%nat)) ;;; PRet None
  else if op =? SURFACE_DRIFT then draw_drift (w32 (r 1%nat)) (low_word (r 2%nat)) (high_word (r 2%nat)) (w32 (r 3%nat)) ;;; PRet None
  else if op =? SURFACE_SHUTDOWN then write 1 (bn "[reflection] shutdown requested") ;;; PRet (Some 0)
  else write 1 (bn "[reflection] unknown surface op") ;;; PRet None.

(** The loop, for [fuel] messages. *)
Fixpoint serve (fuel : nat) (surface_recv : Z) : Prog Z :=
  match fuel with
  | O => PHang
  | S fuel =>
      do! (rr, msg, _) := ipc_recv surface_recv 0 in
      write 1 (b "[reflection] surface recv -> ") ;;; write_dec rr ;;;
      write 1 (b " op=0x") ;;; write_hex 1 (reg_of (ur_regs msg) 0) ;;; newline ;;;
      if rr <? 0 then PRet 1
      else
        poll_input_smoke ;;;
        do! res := serve_message (ur_regs msg) in
        match res with Some status => PRet status | None => serve fuel surface_recv end
  end.

Definition reflection_start (fuel : nat) : Prog unit :=
  do! pid := getpid in
  write 1 (b "[reflection] starting pid=0x") ;;; write_hex 1 pid ;;; newline ;;;
  do! (ir, info) := display_info in
  let width := field32 info 0 in
  let height := field32 info 4 in
  write 1 (b "[reflection] display_info -> ") ;;; write_dec ir ;;; write 1 (b " ") ;;;
  write_dec width ;;; write 1 (b "x") ;;; write_dec height ;;; newline ;;;
  if ir <? 0 then exit 1
  else
    draw_initial width height ;;;
    do! surface := ipc_port_create in
    write_result (b "[reflection] surface port cap=") surface ;;;
    if surface <=? 0 then exit 1
    else
      do! surface_send := ipc_cap_dup surface (Z.lor RIGHTS_SEND RIGHTS_DUP) in
      write_result (b "[reflection] surface send cap=") surface_send ;;;
      if surface_send <=? 0 then exit 1
      else
        do! nr := reflection_notify_spring pid surface_send in
        write_result (b "[reflection] notify spring -> ") nr ;;;
        if nr <? 0 then exit 1
        else
          do! status := serve fuel surface in
          write 1 (bn "[reflection] exiting") ;;;
          exit status.
