(* ===== verification/AppsProps.v ===== *)
(** * How the programs work together

    The services announce themselves with the messages Spring waits for, and
    the requests of the clients are the ones Reflection draws. *)

From S2P Require Import Prelude Bytes User Spring SpringProps Apps Reflection.

(** ** Programs that exit *)

Definition exits (p : Prog unit) (T : History -> Z -> Prop) : Prop :=
  forall K h, kernel_ok K -> exists tr code, interp K h p = (h ++ tr, Exits code) /\ T tr code.

Lemma exits_exit code (T : History -> Z -> Prop) : T [] code -> exits (exit code) T.
Proof. intros HT K h _. exists [], code. by rewrite app_nil_r. Qed.
Lemma exits_bind {A} (p : Prog A) (f : A -> Prog unit) (T1 : History -> A -> Prop) (T : History -> Z -> Prop) :
  ends p T1 -> (forall tr r, T1 tr r -> exits (f r) (fun tr2 => T (tr ++ tr2))) -> exits (pbind p f) T.
Proof.
  intros Hp Hf K h HK. destruct (Hp K h HK) as (tr & r & E & HT). rewrite interp_bind, E.
  destruct (Hf tr r HT K (h ++ tr) HK) as (tr2 & code & E2 & HT2). exists (tr ++ tr2), code. by rewrite app_assoc.
Qed.
Lemma exits_mono (p : Prog unit) (T1 T : History -> Z -> Prop) : exits p T1 -> (forall tr c, T1 tr c -> T tr c) -> exits p T.
Proof. intros Hp HT K h HK. destruct (Hp K h HK) as (tr & code & E & H1). exists tr, code. auto. Qed.

(** Calls that send nothing, in front. *)
Definition ignores_silent (T : History -> Z -> Prop) : Prop := forall tr tr2 code, silent tr -> T tr2 code -> T (tr ++ tr2) code.
Lemma exits_silent {A} (p : Prog A) (f : A -> Prog unit) (Q : A -> Prop) (T : History -> Z -> Prop) :
  ignores_silent T -> obeys silent p Q -> (forall r, Q r -> exits (f r) T) -> exits (pbind p f) T.
Proof.
  intros HT Hp Hf. eapply exits_bind; [exact Hp |]. intros tr r [Hs HQ]. eapply exits_mono; [by apply Hf |].
  intros tr2 code H2. by apply HT.
Qed.

(** ** Lines of output *)

Section Lines.
  Context {P : History -> Prop} {HP : Trace P}.

Lemma obeys_newline : obeys P newline any.
Proof using HP. unfold newline. calm_go. Qed.
Lemma obeys_write_result s v : i64 v -> obeys P (write_result s v) any.
Proof using HP.
  intros Hv. unfold write_result. eapply obeys_bind; [apply obeys_write | intros _ _].
  eapply obeys_bind; [by apply obeys_write_dec | intros _ _]. apply obeys_newline.
Qed.
End Lines.
#[export] Hint Resolve obeys_newline obeys_write_result : calm.

(** Fields of structures the kernel fills in. *)
Lemma le_val_bound l : Forall byte_ok l -> 0 <= le_val l < 256 ^ zlen l.
Proof.
  induction 1 as [| x l Hx Hl IH]; cbn [le_val]; [change (256 ^ zlen (@nil Z)) with 1; lia |].
  rewrite zlen_cons, Z.pow_add_r by (unfold zlen; lia). change (256 ^ 1) with 256. unfold byte_ok in Hx. nia.
Qed.
Lemma field32_i64 l off : Forall byte_ok l -> i64 (field32 l off).
Proof.
  intros Hl. unfold field32, i64. set (x := take 4 (drop off l)).
  assert (Forall byte_ok x) as Hx by apply Forall_take, Forall_drop, Hl.
  pose proof (le_val_bound x Hx). assert (zlen x <= 4) by (unfold zlen, x; rewrite length_take; lia).
  assert (256 ^ zlen x <= 256 ^ 4) by (apply Z.pow_le_mono_r; lia). change (256 ^ 4) with 4294967296 in *. lia.
Qed.
Lemma ipv4_i64 l k : Forall byte_ok l -> i64 (ni_ipv4 l k).
Proof.
  intros Hl. unfold ni_ipv4, i64. destruct (l !! (28 + k)%nat) as [x |] eqn:E; cbn [default from_option id]; [| lia].
  rewrite Forall_lookup in Hl. specialize (Hl _ _ E). unfold byte_ok in Hl. lia.
Qed.
#[export] Hint Transparent ni_present ni_link_up ni_configured ni_tx_packets ni_rx_packets ai_present ai_played ai_sample_rate ai_frames : calm.
#[export] Hint Resolve field32_i64 ipv4_i64 : calm.

(** ** Announcements *)

Definition SPRING_NAME : list Z := b "com.persona.spring".
(** What a lookup in this run returned. *)
Definition looked_up (name : list Z) (tr : History) (cap : Z) : Prop :=
  exists a, (CName IPC_NAME_LOOKUP name 0, a) ∈ tr /\ cap = signed 64 (a_ret a).
(** The run looked up [name] and sent [msgs] to what it found, if it did. *)
Definition announced (msg : UMsg) (tr : History) : Prop :=
  exists cap, looked_up SPRING_NAME tr cap /\ sends tr = if cap <? 0 then [] else [(signed 32 cap, msg)].

Lemma looked_up_app name tr1 tr2 cap : looked_up name tr1 cap \/ looked_up name tr2 cap -> looked_up name (tr1 ++ tr2) cap.
Proof. intros [(a & Ha & E) | (a & Ha & E)]; exists a; split; try done; apply elem_of_app; auto. Qed.
Lemma announced_after msg tr1 tr2 : silent tr1 -> announced msg tr2 -> announced msg (tr1 ++ tr2).
Proof. intros Hs (cap & Hl & E). exists cap. split; [apply looked_up_app; auto |]. by rewrite sends_app, Hs, E. Qed.
Lemma announced_before msg tr1 tr2 : announced msg tr1 -> silent tr2 -> announced msg (tr1 ++ tr2).
Proof. intros (cap & Hl & E) Hs. exists cap. split; [apply looked_up_app; auto |]. by rewrite sends_app, Hs, E, app_nil_r. Qed.

Lemma announced_sends msg tr to msg' : announced msg tr -> (to, msg') ∈ sends tr -> msg' = msg.
Proof.
  intros (cap & _ & E) Hin. rewrite E in Hin. case_match; [by apply not_elem_of_nil in Hin |].
  apply list_elem_of_singleton in Hin. by injection Hin.
Qed.

(** The shape of every [notify_spring]. *)
Lemma notify_announces s msg :
  ends (do! cap := ipc_name_lookup SPRING_NAME in
        write_result s cap ;;; if cap <? 0 then PRet cap else ipc_send (signed 32 cap) msg)
    (fun tr r => announced msg tr /\ i64 r).
Proof.
  apply ends_call. intros a _. cbn [pbind]. set (cap := signed 64 (a_ret a)).
  eapply ends_bind; [apply (obeys_write_result (P := silent) s cap), i64_signed |]. intros tr _ [Hs _].
  assert (looked_up SPRING_NAME [(CName IPC_NAME_LOOKUP SPRING_NAME 0, a)] cap) as Hl by (exists a; split; [left | done]).
  destruct (cap <? 0) eqn:Ec.
  - apply ends_ret. split; [| apply i64_signed]. exists cap. rewrite Ec, app_nil_r. split; [| done].
    by apply (looked_up_app _ [_] tr); left.
  - apply ends_call. intros a2 _. apply ends_ret. split; [| apply i64_signed]. exists cap. rewrite Ec. split.
    + apply (looked_up_app _ [_] (tr ++ _)). by left.
    + change (sends (tr ++ [(CSend (signed 32 cap) msg, a2)]) = [(signed 32 cap, msg)]). by rewrite sends_app, Hs.
Qed.

(** A run that asked for its number, announced itself with it as the first
    two registers say, and exits with 0 or 1. *)
Definition service_run (op : Z) (tr : History) (code : Z) : Prop :=
  (code = 0 \/ code = 1) /\
  exists a regs, (CGetpid, a) ∈ tr /\ announced (regs_msg regs) tr /\ reg_of regs 0 = op /\ reg_of regs 1 = a_ret a.

(** The last part of the three services: the announcement, then a line and
    the end. *)
Lemma service_end op pid s1 s2 s3 regs code :
  code = 0 \/ code = 1 -> reg_of regs 0 = op -> reg_of regs 1 = pid ->
  exits (do! nr := (do! cap := ipc_name_lookup SPRING_NAME in
                    write_result s1 cap ;;; if cap <? 0 then PRet cap else ipc_send (signed 32 cap) (regs_msg regs)) in
         write_result s2 nr ;;; write 1 s3 ;;; exit code)
    (fun tr c => (c = 0 \/ c = 1) /\ exists regs, announced (regs_msg regs) tr /\ reg_of regs 0 = op /\ reg_of regs 1 = pid).
Proof.
  intros Hc H0 H1. eapply exits_bind; [apply notify_announces |]. intros tr nr [Ha Hnr].
  eapply exits_mono.
  { eapply (exits_silent _ _ any (fun tr c => silent tr /\ (c = 0 \/ c = 1)));
      [intros t1 t2 c Hs [Hs2 Hc2]; split; [by apply trace_app | done] | by apply obeys_write_result |].
    intros _ _. eapply exits_silent;
      [intros t1 t2 c Hs [Hs2 Hc2]; split; [by apply trace_app | done] | apply obeys_write |].
    intros _ _. by apply exits_exit. }
  cbn. intros tr2 c [Hs Hc2]. split; [done |]. exists regs. split; [by apply announced_before | done].
Qed.

Lemma obeys_read_hello {P : History -> Prop} {HP : Trace P} : obeys P read_hello any.
Proof.
  unfold read_hello. eapply obeys_bind; [apply obeys_open | intros fd _]. destruct (fd <? 0); [calm_go |].
  eapply obeys_bind; [apply obeys_read | intros [n buf] (Hi & Hn & Hl)].
  eapply (obeys_bind _ _ any); [| intros _ _; apply obeys_close].
  destruct (Z.ltb_spec 0 n); [| by apply obeys_write_result].
  eapply obeys_bind; [apply obeys_write | intros _ _].
  eapply obeys_bind; [apply (obeys_plift _ (take (Z.to_nat n) buf) any); [apply slice_prefix | done] | intros s _; calm_go].
  unfold zlen in *. rewrite Hl. lia.
Qed.
Lemma obeys_write_ipv4 {P : History -> Prop} {HP : Trace P} i : Forall byte_ok i -> obeys P (write_ipv4 i) any.
Proof. intros Hi. unfold write_ipv4. calm_go. Qed.
#[export] Hint Resolve obeys_read_hello obeys_write_ipv4 : calm.

(** The announcement at the end of a run whose first call was [getpid]. *)
Definition announces (op pid : Z) (tr : History) (code : Z) : Prop :=
  (code = 0 \/ code = 1) /\ exists regs, announced (regs_msg regs) tr /\ reg_of regs 0 = op /\ reg_of regs 1 = pid.
Lemma announces_silent op pid : ignores_silent (announces op pid).
Proof. intros tr tr2 code Hs [Hc (msg & Ha & Hr)]. split; [done |]. exists msg. split; [by apply announced_after | done]. Qed.
Lemma service_run_getpid op (p : Z -> Prog unit) :
  (forall pid, exits (p pid) (announces op pid)) -> exits (pbind getpid p) (service_run op).
Proof.
  intros Hp. eapply (exits_bind _ _ (fun tr r => exists a, tr = [(CGetpid, a)] /\ r = a_ret a)).
  { apply ends_call. intros a _. apply ends_ret. by exists a. }
  intros tr r (a & -> & ->). eapply exits_mono; [apply Hp |]. intros tr2 c [Hc (msg & Ha & H0 & H1)]. split; [done |].
  exists a, msg. split_and!; [left | by apply (announced_after _ [_] tr2) | done | done].
Qed.

(** Past the calls that only write or ask. *)
Ltac past := repeat (eapply exits_silent; [apply announces_silent | solve [eauto with calm] | intros ? ?]; cbn beta iota in *).

Lemma vfsd_runs : exits vfsd_start (service_run VFSD_MAGIC).
Proof. apply service_run_getpid. intros pid. past. apply service_end; auto. Qed.
Lemma netd_runs : exits netd_start (service_run NETD_MAGIC).
Proof.
  apply service_run_getpid. intros pid. do 3 (eapply exits_silent; [apply announces_silent | solve [eauto with calm] | intros ? ?]).
  eapply exits_silent; [apply announces_silent | by apply obeys_info |]. intros [rc info] [Hrc Hi]. past.
  apply service_end; [case_match; auto | done | done].
Qed.
Lemma audiod_runs : exits audiod_start (service_run AUDIOD_MAGIC).
Proof.
  apply service_run_getpid. intros pid. do 3 (eapply exits_silent; [apply announces_silent | solve [eauto with calm] | intros ? ?]).
  eapply exits_silent; [apply announces_silent | by apply obeys_info |]. intros [rc info] [Hrc Hi]. past.
  apply service_end; [case_match; auto | done | done].
Qed.

(** ** Reflection *)

(** Any way for a run to end. *)
Definition does {R} (p : Prog R) (T : History -> Res R -> Prop) : Prop :=
  forall K h, kernel_ok K -> exists tr res, interp K h p = (h ++ tr, res) /\ T tr res.
Lemma does_ends {R} (p : Prog R) (T1 : History -> R -> Prop) (T : History -> Res R -> Prop) :
  ends p T1 -> (forall tr r, T1 tr r -> T tr (Finished r)) -> does p T.
Proof. intros Hp HT K h HK. destruct (Hp K h HK) as (tr & r & E & H1). exists tr, (Finished r). auto. Qed.
Lemma does_bind {A B} (p : Prog A) (f : A -> Prog B) (T1 : History -> A -> Prop) (T : History -> Res B -> Prop) :
  ends p T1 -> (forall tr r, T1 tr r -> does (f r) (fun tr2 => T (tr ++ tr2))) -> does (pbind p f) T.
Proof.
  intros Hp Hf K h HK. destruct (Hp K h HK) as (tr & r & E & HT). rewrite interp_bind, E.
  destruct (Hf tr r HT K (h ++ tr) HK) as (tr2 & res & E2 & HT2). exists (tr ++ tr2), res. by rewrite app_assoc.
Qed.
Lemma does_mono {R} (p : Prog R) (T1 T : History -> Res R -> Prop) : does p T1 -> (forall tr r, T1 tr r -> T tr r) -> does p T.
Proof. intros Hp HT K h HK. destruct (Hp K h HK) as (tr & res & E & H1). exists tr, res. auto. Qed.

Section Drawing.
  Context {P : History -> Prop} {HP : Trace P}.

Lemma obeys_window x y w h t : obeys P (draw_window x y w h t) any.
Proof using HP. unfold draw_window. calm_go. Qed.
Lemma obeys_write_style s v : i64 v -> obeys P (write_style s v) any.
Proof using HP. intros Hv. unfold write_style. calm_go. Qed.
Lemma obeys_mark_loop n i (f : Z -> Prog Z) : (forall i, obeys P (f i) i64) -> obeys P (mark_loop n i f) any.
Proof using HP.
  intros Hf. revert i. induction n as [| n IH]; intros i; cbn [mark_loop]; [by apply obeys_ret |].
  eapply obeys_bind; [apply Hf | intros _ _; apply IH].
Qed.
Lemma obeys_marks n x w h c (y : Z -> Z) : obeys P (mark_loop n 0 (fun i => display_fill_rect x (y i) w h c)) any.
Proof using HP. apply obeys_mark_loop. intros i. apply obeys_fill_rect. Qed.
End Drawing.
#[export] Hint Resolve obeys_window obeys_write_style obeys_marks : calm.

Lemma w32_i64 v : i64 (w32 v).
Proof. unfold w32, wrap, i64. pose proof (Z.mod_pos_bound v (2 ^ 32) ltac:(lia)). lia. Qed.
#[export] Hint Resolve w32_i64 : calm.

Section Messages.
  Context {P : History -> Prop} {HP : Trace P}.

Lemma obeys_draw_desktop c st lh d fl : i64 lh -> i64 d -> i64 fl -> obeys P (draw_desktop c st lh d fl) any.
Proof using HP.
  intros Hl Hd Hf. unfold draw_desktop. do 8 (eapply obeys_bind; [solve [eauto with calm] | intros _ _]).
  do 3 (eapply (obeys_bind _ _ any); [solve [calm_go] | intros _ _]). calm_go.
Qed.
Lemma obeys_draw_skim c st lh n : i64 lh -> i64 n -> obeys P (draw_skim c st lh n) any.
Proof using HP. intros Hl Hn. unfold draw_skim. calm_go. Qed.
Lemma obeys_draw_tide c st lh n : i64 lh -> i64 n -> obeys P (draw_tide c st lh n) any.
Proof using HP. intros Hl Hn. unfold draw_tide. calm_go. Qed.
Lemma obeys_draw_drift c st lh n : i64 lh -> i64 n -> obeys P (draw_drift c st lh n) any.
Proof using HP. intros Hl Hn. unfold draw_drift. calm_go. Qed.
Lemma obeys_draw_stones c st lh n : i64 lh -> i64 n -> obeys P (draw_stones c st lh n) any.
Proof using HP. intros Hl Hn. unfold draw_stones. calm_go. Qed.
Lemma obeys_draw_client x y c l st lh : i64 lh -> obeys P (draw_client x y c l st lh) any.
Proof using HP. intros Hl. unfold draw_client. calm_go. Qed.
Lemma obeys_draw_initial w h : obeys P (draw_initial w h) any.
Proof using HP. unfold draw_initial. calm_go. Qed.

Lemma obeys_key_loop n key : i64 key -> obeys P (key_loop n key) i64.
Proof using HP.
  revert key. induction n as [| n IH]; intros key Hk; cbn [key_loop]; [by apply obeys_ret |].
  eapply obeys_bind; [apply obeys_poll_byte | intros k Hk2]. destruct (0 <? k); [by apply obeys_ret | by apply IH].
Qed.
Lemma obeys_poll_input : obeys P poll_input_smoke any.
Proof using HP.
  unfold poll_input_smoke. eapply obeys_bind; [apply obeys_key_loop; unfold i64; lia | intros key Hk].
  destruct (key <=? 0); [by apply obeys_ret |]. calm_go.
Qed.

(** A message is drawn, and only a request to shut down ends the loop. *)
Lemma obeys_serve_message regs :
  obeys P (serve_message regs) (fun r => r = if reg_of regs 0 =? SURFACE_SHUTDOWN then Some 0 else None).
Proof using HP.
  assert (forall p : Prog unit, obeys P p any -> obeys P (p ;;; PRet None) (fun r : option Z => r = None)) as Hnone.
  { intros p Hp. eapply obeys_bind; [exact Hp | intros _ _; by apply obeys_ret]. }
  unfold serve_message. set (op := reg_of regs 0).
  assert (forall s, SURFACE_SHUTDOWN <> s -> (op =? s) = true -> (op =? SURFACE_SHUTDOWN) = false) as Hop.
  { intros s Hs E. apply Z.eqb_eq in E as ->. by apply Z.eqb_neq. }
  repeat match goal with
         | |- obeys _ (if op =? ?s then _ else _) _ => destruct (op =? s) eqn:?; [try (erewrite (Hop s) by done) |]
         end.
  1-6: apply Hnone.
  1: apply obeys_draw_client; apply w32_i64.
  1: apply obeys_draw_desktop; apply w32_i64.
  1: apply obeys_draw_skim; apply w32_i64.
  1: apply obeys_draw_stones; apply w32_i64.
  1: apply obeys_draw_tide; apply w32_i64.
  1: apply obeys_draw_drift; apply w32_i64.
  all: (eapply obeys_bind; [apply obeys_write | intros _ _; by apply obeys_ret]).
Qed.
End Messages.
#[export] Hint Resolve obeys_draw_initial obeys_poll_input : calm.

(** Messages that were asked for. *)
Definition is_recv (e : Call * Answer) : bool := match e.1 with CRecv _ _ => true | _ => false end.
Definition recvs (tr : History) : nat := length (filter (fun e => is_recv e = true) tr).
Lemma recvs_app tr1 tr2 : recvs (tr1 ++ tr2) = (recvs tr1 + recvs tr2)%nat.
Proof. unfold recvs. by rewrite filter_app, length_app. Qed.

(** How the loop of Reflection ends: with status 0 for a shutdown, with 1 when
    receiving fails, or not before [fuel] messages. *)
Definition served (fuel : nat) (tr : History) (res : Res Z) : Prop :=
  silent tr /\
  match res with
  | Finished st => st = 0 \/ st = 1
  | Exits _ => False
  | Hangs => (fuel <= recvs tr)%nat
  end.
Lemma serve_does fuel cap : does (serve fuel cap) (served fuel).
Proof.
  induction fuel as [| fuel IH]; cbn [serve].
  { intros K h _. exists [], Hangs. rewrite app_nil_r. split; [done |]. by split; [| unfold recvs; simpl; lia]. }
  eapply (does_bind _ _ (fun tr '(rr, _, _) => silent tr /\ recvs tr = 1%nat /\ i64 rr)).
  { apply ends_call. intros a _. apply ends_ret. split_and!; [done | done | apply i64_signed]. }
  intros tr [[rr msg] caps] (Hs & Hr & Hrr).
  assert (forall R (p : Prog R) Q (f : R -> Prog Z) T, obeys silent p Q ->
    (forall tr r, silent tr -> Q r -> does (f r) (fun tr2 => T (tr ++ tr2))) -> does (pbind p f) T) as Hstep.
  { intros R p Q f T Hp Hf. eapply does_bind; [exact Hp |]. intros t r [Ht HQ]. by apply Hf. }
  do 5 (eapply Hstep; [solve [eauto with calm] | intros ? _ ? _]).
  destruct (rr <? 0).
  { eapply does_ends; [apply (ends_ret 1 (fun t r => t = [] /\ r = 1)); done |]. intros t r [-> ->].
    split; [repeat apply trace_app; done | by right]. }
  eapply Hstep; [apply obeys_poll_input | intros ? _ ? _].
  eapply Hstep; [apply obeys_serve_message | intros tm res Htm ->].
  destruct (reg_of (ur_regs msg) 0 =? SURFACE_SHUTDOWN).
  { eapply does_ends; [apply (ends_ret 0 (fun t r => t = [] /\ r = 0)); done |]. intros t r [-> ->].
    split; [repeat apply trace_app; done | by left]. }
  eapply does_mono; [exact IH |]. intros t r [Ht Hres]. split; [repeat apply trace_app; done |].
  destruct r as [st | |]; [done | done |]. rewrite !recvs_app, Hr. lia.
Qed.

(** Reflection's announcement carries the capability to its port. *)
Definition ready_msg (pid send : Z) : UMsg := mkUMsg [REFLECTION_READY; pid; 0; 0; 0; 0] [send] [].
Definition reflection_run (fuel : nat) (tr : History) (res : Res unit) : Prop :=
  (silent tr \/ exists pid send, announced (ready_msg pid send) tr /\ 0 < send) /\
  match res with
  | Finished _ => False
  | Exits code => code = 0 \/ code = 1
  | Hangs => (fuel <= recvs tr)%nat
  end.
Lemma reflection_run_after fuel tr tr2 res : silent tr -> reflection_run fuel tr2 res -> reflection_run fuel (tr ++ tr2) res.
Proof.
  intros Hs [Hm Hres]. split; [| destruct res; [done | done | rewrite recvs_app; lia]].
  destruct Hm as [Hm | (pid & send & Ha & Hp)]; [left; by apply trace_app | right]. exists pid, send. split; [by apply announced_after | done].
Qed.
Lemma reflection_step {R} (p : Prog R) (Q : R -> Prop) (f : R -> Prog unit) fuel :
  obeys silent p Q -> (forall r, Q r -> does (f r) (reflection_run fuel)) -> does (pbind p f) (reflection_run fuel).
Proof.
  intros Hp Hf. eapply does_bind; [exact Hp |]. intros tr r [Hs HQ]. eapply does_mono; [by apply Hf |].
  intros tr2 res H2. by apply reflection_run_after.
Qed.
Lemma reflection_exit fuel code : code = 0 \/ code = 1 -> does (exit code) (reflection_run fuel).
Proof. intros Hc K h _. exists [], (Exits code). rewrite app_nil_r. split; [done |]. split; [by left | done]. Qed.

(** The end of a run of Reflection, after the announcement. *)
Definition ending (fuel : nat) (tr : History) (res : Res unit) : Prop :=
  silent tr /\ match res with Finished _ => False | Exits code => code = 0 \/ code = 1 | Hangs => (fuel <= recvs tr)%nat end.
Lemma serving_does fuel surface nr s :
  i64 nr ->
  does (write_result s nr ;;;
        if nr <? 0 then exit 1
        else do! status := serve fuel surface in write 1 (bn "[reflection] exiting") ;;; exit status) (ending fuel).
Proof.
  intros Hnr. eapply does_bind; [apply (obeys_write_result (P := silent) _ nr Hnr) |]. intros t1 _ [Ht1 _].
  destruct (nr <? 0); intros K h HK.
  { exists [], (Exits 1). rewrite !app_nil_r. split; [done |]. split; [done | by right]. }
  destruct (serve_does fuel surface K h HK) as (tr & res & E & Hs & Hres). rewrite interp_bind, E.
  destruct res as [st | code |]; [| done |].
  - eexists (tr ++ [_]), (Exits st). rewrite app_assoc. split; [reflexivity |]. split; [| done].
    by apply trace_app, trace_app; [| | apply trace_plain].
  - exists tr, Hangs. split; [done |]. split; [by apply trace_app | rewrite recvs_app; lia].
Qed.

Lemma reflection_does fuel : does (reflection_start fuel) (reflection_run fuel).
Proof.
  unfold reflection_start. eapply reflection_step; [solve [eauto with calm] | intros pid _].
  do 3 (eapply reflection_step; [solve [eauto with calm] | intros ? ?]).
  eapply reflection_step; [by apply obeys_info | intros [ir info] [Hir Hi]].
  do 7 (eapply reflection_step; [solve [eauto with calm] | intros ? ?]).
  destruct (ir <? 0); [apply reflection_exit; by right |].
  do 3 (eapply reflection_step; [solve [eauto with calm] | intros ? ?]).
  match goal with |- does (if ?x then _ else _) _ => destruct x end; [apply reflection_exit; by right |].
  eapply reflection_step; [solve [eauto with calm] | intros send Hsend].
  eapply reflection_step; [solve [eauto with calm] | intros _ _].
  destruct (Z.leb_spec send 0) as [Hle | Hgt]; [apply reflection_exit; by right |].
  eapply does_bind; [apply notify_announces |]. intros tra nr [Ha Hnr].
  eapply does_mono; [by apply serving_does |]. intros t res [Ht Hres]. split.
  - right. exists pid, send. split; [by apply announced_before | done].
  - destruct res; [done | done | rewrite recvs_app; lia].
Qed.

(** ** Spring's side *)

(** Against one kernel. *)
Definition runs (K : Oracle) {R} (p : Prog R) (T : History -> R -> Prop) : Prop :=
  forall h, exists tr r, interp K h p = (h ++ tr, Finished r) /\ T tr r.
Section Runs.
  Context (K : Oracle) (HK : kernel_ok K).

Lemma runs_ends {R} (p : Prog R) (T : History -> R -> Prop) : ends p T -> runs K p T.
Proof using HK. intros Hp h. by apply Hp. Qed.
Lemma runs_ret {R} (r : R) (T : History -> R -> Prop) : T [] r -> runs K (PRet r) T.
Proof using HK. intros HT. by apply runs_ends, ends_ret. Qed.
Lemma runs_call {R} c (k : Answer -> Prog R) (T : History -> R -> Prop) :
  (forall h, runs K (k (K h c)) (fun tr => T ((c, K h c) :: tr))) -> runs K (PCall c k) T.
Proof using HK.
  intros Hk h. destruct (Hk h (h ++ [(c, K h c)])) as (tr & r & E & HT).
  exists ((c, K h c) :: tr), r. split; [simpl; by rewrite E, <- app_assoc | done].
Qed.
Lemma runs_bind {A B} (p : Prog A) (f : A -> Prog B) (T1 : History -> A -> Prop) (T : History -> B -> Prop) :
  runs K p T1 -> (forall tr r, T1 tr r -> runs K (f r) (fun tr2 => T (tr ++ tr2))) -> runs K (pbind p f) T.
Proof using HK.
  intros Hp Hf h. destruct (Hp h) as (tr & r & E & HT). rewrite interp_bind, E.
  destruct (Hf tr r HT (h ++ tr)) as (tr2 & r2 & E2 & HT2). exists (tr ++ tr2), r2. by rewrite app_assoc.
Qed.
Lemma runs_weaken {R} (p : Prog R) (T1 T : History -> R -> Prop) : runs K p T1 -> (forall tr r, T1 tr r -> T tr r) -> runs K p T.
Proof. intros Hp HT h. destruct (Hp h) as (tr & r & E & H1). exists tr, r. auto. Qed.
(** What holds whatever was called before. *)
Lemma runs_past {A B} (p : Prog A) (f : A -> Prog B) (Q : A -> Prop) (T : History -> B -> Prop) :
  calm p Q -> (forall tr tr2 r, T tr2 r -> T (tr ++ tr2) r) -> (forall r, Q r -> runs K (f r) T) -> runs K (pbind p f) T.
Proof using HK.
  intros Hp HT Hf. eapply runs_bind; [by apply runs_ends |]. intros tr r [_ HQ] h.
  destruct (Hf r HQ h) as (tr2 & r2 & E & H2). exists tr2, r2. auto.
Qed.
End Runs.

(** A message that waits at a port, as a receiver with room for its
    capabilities gets it. *)
Definition delivers (K : Oracle) (port : Z) (msg : UMsg) : Prop :=
  forall h n, zlen (um_caps msg) <= n ->
    let a := K h (CRecv port n) in
    let m := recv_of (overlay (a_out a) (replicate 88 0)) in
    a_ret a = 0 /\ ur_regs m = um_regs msg /\ ur_ncaps m = zlen (um_caps msg) /\
    (um_caps msg <> [] -> 0 < signed 32 (le_val (take 4 (overlay (a_caps a) (replicate (Z.to_nat (4 * n)) 0))))).
Definition spawns (K : Oracle) : Prop := forall h path, 0 < child_pid (K h (CSpawn path)).
(** Every child has exited with [code]. *)
Definition reports (K : Oracle) (code : Z) : Prop :=
  forall h pid, signed 32 (le_val (overlay (a_out (K h (CWaitpid pid))) (replicate 4 0))) = code.

Lemma supervise_ready_accepts K sup s op msg code :
  kernel_ok K -> 0 < sup -> spawns K -> um_caps msg = [] -> delivers K sup msg -> reports K code ->
  runs K (supervise_ready_service sup s op) (fun _ r => r = (reg_of (um_regs msg) 0 =? op) && (code =? 0)).
Proof.
  intros HK Hsup Hsp Hnc Hdel Hrep. unfold supervise_ready_service. rewrite (proj2 (Z.leb_gt sup 0) Hsup).
  do 5 (eapply (runs_past K HK); [solve [eauto with calm] | done | intros ? _]).
  unfold spawn, call64. cbn [pbind]. apply (runs_call K HK). intros h1. cbn [pbind]. fold (child_pid (K h1 (CSpawn (sr_path s)))). specialize (Hsp h1 (sr_path s)).
  set (pid := child_pid _) in *. pose proof (i64_signed (a_ret (K h1 (CSpawn (sr_path s)))) : i64 pid) as Hpid.
  do 5 (eapply (runs_past K HK); [solve [eauto with calm] | done | intros ? _]).
  rewrite (proj2 (Z.leb_gt pid 0) Hsp). unfold ipc_recv. cbn [pbind]. apply (runs_call K HK). intros h2. cbn [pbind].
  destruct (Hdel h2 0) as (Hr0 & Hregs & _); [by rewrite Hnc |]. rewrite Hr0. change (signed 64 0) with 0.
  set (m := recv_of _) in *. assert (msg_reg m 0 = reg_of (um_regs msg) 0) as Hm by (unfold msg_reg, reg_of; by rewrite Hregs).
  rewrite Hm. change (0 =? 0) with true. cbn [andb].
  eapply (runs_past K HK); [apply obeys_write | done | intros _ _].
  eapply (runs_past K HK); [apply obeys_write_dec; unfold i64; lia | done | intros _ _].
  eapply (runs_past K HK _ _ any); [case_match; calm_go | done | intros _ _].
  unfold waitpid. cbn [pbind]. apply (runs_call K HK). intros h3. cbn [pbind]. rewrite Hrep.
  eapply (runs_past K HK _ _ any); [apply calm_report_service; [apply i64_signed | rewrite <- (Hrep h3 pid); apply i64_signed32] | done | intros _ _].
  apply (runs_ret K HK). pose proof (Hrep h3 pid) as Hc. cbn in Hc |- *. by rewrite Hc.
Qed.

(** Something was published as the compositor. *)
Definition REFLECTION_NAME : list Z := b "com.persona.reflection".
Definition published (tr : History) : Prop := exists cap a, 0 < cap /\ (CName IPC_NAME_PUBLISH REFLECTION_NAME cap, a) ∈ tr.
Lemma published_after tr tr2 : published tr2 -> published (tr ++ tr2).
Proof. intros (cap & a & Hc & Ha). exists cap, a. split; [done |]. apply elem_of_app. by right. Qed.
Lemma published_before tr tr2 : published tr -> published (tr ++ tr2).
Proof. intros (cap & a & Hc & Ha). exists cap, a. split; [done |]. apply elem_of_app. by left. Qed.

(** The part of [supervise_reflection] after the announcement. *)
Lemma rest_calm (pid : Z) (s : list Z) (d t sk st dr sd : option ServiceRef) :
  calm (run_optional (b "[spring] launching desktop shell at ") (b "[spring] spawn desktop -> ") LABEL_DESKTOP d ;;;
    run_optional (b "[spring] launching Tide launcher at ") (b "[spring] spawn tide -> ") LABEL_TIDE t ;;;
    run_optional (b "[spring] launching Skim file manager at ") (b "[spring] spawn skim -> ") LABEL_SKIM sk ;;;
    run_optional (b "[spring] launching Stones settings at ") (b "[spring] spawn stones -> ") LABEL_STONES st ;;;
    run_optional (b "[spring] launching Drift editor at ") (b "[spring] spawn drift -> ") LABEL_DRIFT dr ;;;
    run_optional (b "[spring] launching surface demo at ") (b "[spring] spawn surface-demo -> ") LABEL_SURFACE_DEMO sd ;;;
    do! (wr, status) := waitpid pid in report_exit s wr status) any.
Proof.
  do 6 (eapply obeys_bind; [apply calm_run_optional | intros _ _]).
  eapply obeys_bind; [apply obeys_waitpid |]. intros [wr stt] [H1 H2]. by apply calm_report_exit.
Qed.

Lemma supervise_reflection_publishes K sup s d t sk st dr sd pid send :
  kernel_ok K -> spawns K -> delivers K sup (ready_msg pid send) ->
  runs K (supervise_reflection sup s d t sk st dr sd) (fun tr _ => published tr).
Proof.
  intros HK Hsp Hdel. unfold supervise_reflection.
  do 3 (eapply (runs_past K HK); [solve [eauto with calm] | intros; by apply published_after | intros ? _]).
  eapply (runs_bind K HK _ _ (fun _ p => i64 p /\ 0 < p)).
  { apply (runs_call K HK). intros h. apply (runs_ret K HK). split; [apply i64_signed | apply Hsp]. }
  intros tr0 p [Hi Hp]. eapply (runs_weaken K); [| intros ? ?; apply (published_after tr0)].
  do 3 (eapply (runs_past K HK); [solve [eauto with calm] | intros; by apply published_after | intros ? _]).
  rewrite (proj2 (Z.leb_gt p 0) Hp).
  eapply (runs_bind K HK _ _ (fun _ '(rr, m, caps) => rr = 0 /\ i64 rr /\ 0 < signed 32 (le_val (take 4 caps)))).
  { apply (runs_call K HK). intros h. apply (runs_ret K HK). destruct (Hdel h 1) as (H0 & _ & _ & Hc); [done |].
    rewrite H0. split_and!; [done | done | by apply Hc]. }
  intros tr1 [[rr m] caps] (-> & Hrr & Hcap). eapply (runs_weaken K); [| intros ? ?; apply (published_after tr1)].
  cbv zeta. set (cap := signed 32 (le_val (take 4 caps))) in *.
  do 2 (eapply (runs_past K HK); [solve [eauto with calm] | intros; by apply published_after | intros ? _]).
  eapply (runs_past K HK _ _ any); [| intros; by apply published_after | intros _ _].
  { destruct (_ && _); [| calm_go]. do 4 (eapply obeys_bind; [solve [eauto with calm] | intros _ _]).
    eapply obeys_any, obeys_write. }
  rewrite (proj2 (Z.ltb_lt 0 cap) Hcap).
  eapply (runs_bind K HK _ _ (fun tr _ => published tr)).
  - unfold ipc_name, call64. cbn [pbind]. apply (runs_call K HK). intros h.
    assert (forall tr a, published ((CName IPC_NAME_PUBLISH REFLECTION_NAME cap, a) :: tr)) as Hpub.
    { intros tr a. exists cap, a. split; [done | left]. }
    eapply (runs_weaken K); [apply (runs_ends K HK _ (fun tr r => reaped tr /\ any r)) | intros ? ? _; apply Hpub].
    change (calm (write 1 (b "[spring] published com.persona.reflection -> ") ;;; write_dec (signed 64 (a_ret (K h (CName IPC_NAME_PUBLISH (b "com.persona.reflection") cap)))) ;;; write 1 [10] ;;; PRet tt) any).
    eapply obeys_bind; [apply obeys_write | intros _ _].
    eapply obeys_bind; [apply obeys_write_dec, i64_signed | intros _ _]. eapply obeys_bind; [apply obeys_write | intros _ _].
    by apply (obeys_ret (P := reaped) tt any).
  - intros tr _ Hpub. eapply (runs_weaken K); [apply (runs_ends K HK), rest_calm | intros; by apply published_before].
Qed.


(** A kernel on which every name is found at 7, numbers are 5, and the network
    card, configured, has sent one packet and received two. *)
Definition service_oracle : Oracle := fun h c =>
  match c with
  | CGetpid => mkAnswer 5 [] []
  | CName _ _ _ => mkAnswer 7 [] []
  | CNetConfigure => mkAnswer 0 ([1; 0; 0; 0; 1; 0; 0; 0; 1; 0; 0; 0; 1; 0; 0; 0; 2] ++ replicate 11 0 ++ [10; 0; 2; 15]) []
  | CPortCreate => mkAnswer 3 [] []
  | CCapDup _ _ => mkAnswer 4 [] []
  | _ => mkAnswer 0 [] []
  end.
(** One on which programs start, a message of these bytes and capabilities
    waits, and children have exited with 0. *)
Definition spring_oracle (out caps : list Z) : Oracle := fun h c =>
  match c with
  | CSpawn _ => mkAnswer 5 [] []
  | CRecv _ n => mkAnswer 0 out (take (Z.to_nat (4 * n)) caps)
  | _ => mkAnswer 0 [] []
  end.
Definition recv_bytes (msg : UMsg) : list Z := (um_regs msg ≫= le_bytes 8) ++ replicate 16 0 ++ le_bytes 8 (zlen (um_caps msg)).
Lemma service_oracle_ok : kernel_ok service_oracle.
Proof.
  intros h c. unfold answer_ok. destruct c; cbn [service_oracle a_ret a_out a_caps]; unfold zlen; cbn -[Z.pow signed Z.max];
    split_and!; try done; try lia; try (by repeat constructor; unfold byte_ok; lia); change (signed 64 0) with 0; lia.
Qed.
Lemma spring_oracle_ok out caps : zlen out <= 88 -> Forall byte_ok out -> kernel_ok (spring_oracle out caps).
Proof.
  intros Hl Hb h c. unfold answer_ok. destruct c; cbn [spring_oracle a_ret a_out a_caps out_len caps_len]; split_and!;
    try done; try lia; try (change (signed 64 0) with 0; lia).
  all: unfold zlen; rewrite ?length_take; simpl; lia.
Qed.

Lemma recv_bytes_ok msg : Forall byte_ok (recv_bytes msg).
Proof.
  unfold recv_bytes. repeat apply Forall_app_2; [| apply Forall_replicate; unfold byte_ok; lia | apply le_bytes_ok].
  apply Forall_bind, Forall_true. intros x. apply le_bytes_ok.
Qed.
Lemma recv_bytes_len msg : length (um_regs msg) = 6%nat -> zlen (recv_bytes msg) <= 88.
Proof.
  intros Hl. unfold recv_bytes, zlen. rewrite !length_app, length_replicate, le_bytes_length.
  assert (length (um_regs msg ≫= le_bytes 8) = 48%nat) as ->; [| lia].
  destruct (um_regs msg) as [| r1 [| r2 [| r3 [| r4 [| r5 [| r6 [| ]]]]]]]; try discriminate Hl. done.
Qed.

Definition netd_msg : UMsg := regs_msg [NETD_READY; 5; 1; 0x0A00020F; 1; 2].
Definition refl_msg : UMsg := ready_msg 5 4.

(** ** depth and shore *)

(** A run that leaves no child behind and, if it ends, ends with a status that
    satisfies [C]: 0 for the shell, that of the shell for its terminal. *)
Definition tidy {R} (C : Z -> Prop) (p : Prog R) (Q : R -> Prop) : Prop :=
  does p (fun tr res => reaped tr /\ match res with Finished r => Q r | Exits code => C code | Hangs => True end).
Lemma tidy_calm {R} C (p : Prog R) (Q : R -> Prop) : calm p Q -> tidy C p Q.
Proof. intros Hp. eapply does_ends; [exact Hp |]. by intros tr r [H1 H2]. Qed.
Lemma tidy_bind {A B} C (p : Prog A) (f : A -> Prog B) (Q1 : A -> Prop) (Q : B -> Prop) :
  tidy C p Q1 -> (forall r, Q1 r -> tidy C (f r) Q) -> tidy C (pbind p f) Q.
Proof.
  intros Hp Hf K h HK. destruct (Hp K h HK) as (tr & res & E & Hr & Hres). rewrite interp_bind, E.
  destruct res as [r | code |]; [| by exists tr, (Exits code) | by exists tr, Hangs].
  destruct (Hf r Hres K (h ++ tr) HK) as (tr2 & res2 & E2 & Hr2 & Hres2). exists (tr ++ tr2), res2.
  rewrite app_assoc. split; [done |]. split; [by apply reaped_app | done].
Qed.
Lemma tidy_exit {R} (C : Z -> Prop) code (Q : R -> Prop) : C code -> tidy C (exit code) Q.
Proof. intros Hc K h _. exists [], (Exits code). rewrite app_nil_r. split; [done |]. split; [apply reaped_nil | done]. Qed.
Lemma tidy_hang {R} C (Q : R -> Prop) : tidy C PHang Q.
Proof. intros K h _. exists [], Hangs. rewrite app_nil_r. split; [done |]. split; [apply reaped_nil | done]. Qed.

Lemma tidy_cat_loop C fuel fd buf : tidy C (cat_loop fuel fd buf) any.
Proof.
  revert buf. induction fuel as [| fuel IH]; intros buf; cbn [cat_loop]; [apply tidy_hang |].
  eapply tidy_bind; [apply tidy_calm, obeys_read | intros [n buf'] (_ & Hn & Hl)].
  destruct (Z.leb_spec n 0); [by apply tidy_calm, obeys_ret |].
  eapply tidy_bind; [apply tidy_calm, (obeys_plift _ (take (Z.to_nat n) buf') any); [apply slice_prefix | done] | intros s _].
  - unfold zlen in *. rewrite Hl. lia.
  - eapply tidy_bind; [apply tidy_calm, obeys_write | intros _ _; apply IH].
Qed.
Lemma tidy_cat_hello C turns : tidy C (cat_hello turns) any.
Proof.
  unfold cat_hello. eapply tidy_bind; [apply tidy_calm, obeys_open | intros fd _].
  destruct (fd <? 0); [apply tidy_calm; calm_go |].
  eapply tidy_bind; [apply tidy_cat_loop | intros _ _; apply tidy_calm, obeys_close].
Qed.
Lemma calm_run_vfsd : calm run_vfsd any.
Proof.
  unfold run_vfsd. apply calm_spawn; intros pid Hi Hp; cbv beta.
  - eapply waits_bind; [by apply obeys_write_result | intros _ _]. rewrite (proj2 (Z.ltb_lt 0 pid) Hp).
    apply (waits_here _ _ any). intros wr st. calm_go.
  - eapply obeys_bind; [by apply obeys_write_result | intros _ _]. rewrite (proj2 (Z.ltb_ge 0 pid) Hp). by apply obeys_ret.
Qed.
Lemma tidy_shore_command C turns line : tidy C (shore_command turns line) any.
Proof.
  unfold shore_command. repeat case_match; try (apply tidy_calm; calm_go; fail).
  - eapply tidy_bind; [apply tidy_cat_hello | intros _ _; by apply tidy_calm, obeys_ret].
  - eapply tidy_bind; [apply tidy_calm, calm_run_vfsd | intros _ _; by apply tidy_calm, obeys_ret].
Qed.
Lemma tidy_shore_loop turns fuel line : length line = 64%nat -> tidy (eq 0) (shore_loop turns fuel line) any.
Proof.
  revert line. induction fuel as [| fuel IH]; intros line Hlen; cbn [shore_loop]; [apply tidy_hang |].
  eapply tidy_bind; [apply tidy_calm, obeys_write | intros _ _].
  eapply (tidy_bind _ _ _ (fun '(n, l) => 0 <= n <= 64 /\ length l = 64%nat)).
  { apply tidy_calm. unfold read_line. eapply obeys_bind; [apply obeys_read |]. intros [n l] (_ & Hn & Hl). apply obeys_ret.
    unfold zlen in Hn. destruct (Z.leb_spec n 0); lia. }
  intros [n l] [Hn Hl]. destruct (n =? 0); [by apply IH |].
  eapply tidy_bind; [apply tidy_calm, (obeys_plift _ (take (Z.to_nat n) l) any); [apply slice_prefix; unfold zlen; lia | done] | intros cmd _].
  eapply tidy_bind; [apply tidy_shore_command |]. intros [] _; [by apply IH | by apply tidy_exit].
Qed.
(** The shell takes any input: it never panics, waits for what it starts, and
    leaves only with status 0. *)
Lemma tidy_shore turns fuel : tidy (eq 0) (shore_start turns fuel) any.
Proof.
  unfold shore_start. do 5 (eapply tidy_bind; [apply tidy_calm; solve [eauto with calm] | intros ? ?]).
  by apply tidy_shore_loop.
Qed.
(** The terminal starts the shell, waits for it and exits with its status. *)
Definition status_of (w : Answer) : Z := signed 32 (le_val (overlay (a_out w) (replicate 4 0))).
Definition depth_run (tr : History) (code : Z) : Prop :=
  exists pre a post, tr = pre ++ (CSpawn (b "/bin/shore"), a) :: post /\
    (child_pid a <= 0 /\ code = 1 \/ exists w, (CWaitpid (child_pid a), w) ∈ post /\ code = status_of w).
Lemma depth_run_after (tr tr2 : History) code : depth_run tr2 code -> depth_run (tr ++ tr2) code.
Proof. intros (pre & a & post & -> & H). exists (tr ++ pre), a, post. by rewrite <- app_assoc. Qed.
Lemma depth_exits : exits depth_start depth_run.
Proof.
  assert (forall {A} (p : Prog A) Q (f : A -> Prog unit), calm p Q -> (forall r, Q r -> exits (f r) depth_run) -> exits (pbind p f) depth_run) as Hstep.
  { intros A p Q f Hp Hf. eapply exits_bind; [exact Hp |]. intros tr r [_ HQ]. eapply exits_mono; [by apply Hf |].
    intros tr2 code. apply depth_run_after. }
  unfold depth_start. do 5 (eapply Hstep; [solve [eauto with calm] | intros ? ?]).
  eapply (exits_bind _ _ (fun tr r => exists a, tr = [(CSpawn (b "/bin/shore"), a)] /\ r = child_pid a)).
  { apply ends_call. intros a _. apply ends_ret. by exists a. }
  intros tr ? (a & -> & ->). eapply exits_bind; [apply (obeys_write_result (P := reaped) _ (child_pid a)), i64_signed |]. intros t1 _ _.
  destruct (Z.leb_spec (child_pid a) 0) as [Hle | Hgt].
  { apply exits_exit. exists [], a, (t1 ++ []). split; [done | by left]. }
  eapply (exits_bind _ _ (fun tr '(wr, st) => i64 wr /\ i64 st /\ exists w, (CWaitpid (child_pid a), w) ∈ tr /\ st = status_of w)).
  { apply ends_call. intros w _. apply ends_ret. split_and!; [apply i64_signed | apply i64_signed32 | exists w; split; [left | done]]. }
  intros t2 [wr st] (Hwr & Hst & w & Hw & ->).
  assert (exits (write 1 (b "[depth] shore exited pid=") ;;; write_dec wr ;;; write_result (b " status=") (status_of w) ;;;
    write 1 (bn "[depth] exiting") ;;; exit (status_of w)) (fun _ code => code = status_of w)) as Hend.
  { do 4 (eapply exits_bind; [eapply obeys_any; solve [eauto with calm] | intros ? ? _]). by apply exits_exit. }
  eapply exits_mono; [exact Hend |]. cbn. intros t3 code ->. exists [], a, (t1 ++ t2 ++ t3). split; [done |]. right. exists w.
  split; [apply elem_of_app; right; apply elem_of_app; by left | done].
Qed.
