(* ===== verification/SurfaceProps.v ===== *)
(** * Clients and the compositor

    What the clients send to Reflection is what Reflection draws: the style
    word is taken apart as it was put together, the operations and the order of
    the registers agree, and a client's run sends its requests and no others. *)

From S2P Require Import Prelude Bytes User Spring SpringProps Apps Reflection AppsProps.

(** ** The style word *)

Definition is_u32 (v : Z) : Prop := 0 <= v < 2 ^ 32.
Definition style_ok (s : TextStyle) : Prop := is_u32 (ts_id s) /\ is_u32 (ts_line_height s).

Lemma style_word_add s : style_ok s -> style_word s = ts_line_height s * 2 ^ 32 + ts_id s.
Proof.
  intros [Hi Hl]. unfold is_u32, style_word, wrap in *. rewrite Z.shiftl_mul_pow2, (Z.mod_small (_ * _)) by lia.
  rewrite <- Z.add_lor_land, <- (Z.mod_small (ts_id s) (2 ^ 32)) at 1 by lia.
  replace (Z.land (ts_line_height s * 2 ^ 32) (ts_id s)) with 0; [rewrite Z.mod_small by lia; lia |].
  symmetry. apply Z.bits_inj'. intros n Hn. rewrite Z.land_spec, Z.bits_0, <- Z.shiftl_mul_pow2, Z.shiftl_spec by lia.
  destruct (Z.ltb_spec n 32); [by rewrite Z.testbit_neg_r by lia |].
  rewrite andb_comm. replace (ts_id s) with (ts_id s mod 2 ^ 32) by (apply Z.mod_small; lia). by rewrite Z.mod_pow2_bits_high by lia.
Qed.
Lemma low_style_word s : style_ok s -> low_word (style_word s) = ts_id s.
Proof.
  intros Hs. rewrite style_word_add by done. destruct Hs as [Hi _]. unfold low_word, is_u32 in *.
  change 0xFFFFFFFF with (Z.ones 32). rewrite Z.land_ones by lia. rewrite Z.add_comm, Z.mod_add by lia. by apply Z.mod_small.
Qed.
Lemma high_style_word s : style_ok s -> high_word (style_word s) = ts_line_height s.
Proof.
  intros Hs. rewrite style_word_add by done. destruct Hs as [Hi Hl]. unfold high_word, w32, wrap, is_u32 in *.
  rewrite Z.shiftr_div_pow2, Z.div_add_l, (Z.div_small (ts_id s)) by lia. rewrite Z.mod_small; lia.
Qed.
Lemma w32_u32 v : is_u32 v -> w32 v = v.
Proof. intros Hv. apply Z.mod_small, Hv. Qed.

(** ** What a card looks like *)

Definition card_regs (c : SurfaceCard) : list Z :=
  [SURFACE_DRAW; card_x c; card_y c; card_accent c; title_id (card_title c); style_word (card_text_style c)].
Lemma card_drawn (c : SurfaceCard) :
  is_u32 (card_x c) -> is_u32 (card_y c) -> is_u32 (card_accent c) -> style_ok (card_text_style c) ->
  serve_message (card_regs c) =
    (draw_client (card_x c) (card_y c) (card_accent c) (title_id (card_title c)) (ts_id (card_text_style c)) (ts_line_height (card_text_style c)) ;;;
     PRet None).
Proof.
  intros Hx Hy Ha Hs. unfold serve_message, card_regs, reg_of. cbn [lookup list_lookup default from_option id].
  by rewrite Z.eqb_refl, !w32_u32, low_style_word, high_style_word.
Qed.

(** ** Runs of clients *)

(** A client's run: it exits with 0 or 1, has sent nothing or, to what it found
    under the name of the compositor, one message that satisfies [M]; it exits
    with 0 only if it has sent it. *)
Definition client_run (M : list Z -> Prop) (tr : History) (code : Z) : Prop :=
  (code = 1 /\ silent tr) \/
  ((code = 0 \/ code = 1) /\ exists cap regs, looked_up REFLECTION_NAME tr cap /\ 0 < cap /\
     sends tr = [(signed 32 cap, regs_msg regs)] /\ M regs).
Lemma client_run_after M tr tr2 code : silent tr -> client_run M tr2 code -> client_run M (tr ++ tr2) code.
Proof.
  intros Hs [[-> H2] | (Hc & cap & regs & Hl & Hp & E & HM)]; [left; split; [done | by apply trace_app] | right].
  split; [done |]. exists cap, regs. rewrite sends_app, Hs, E. split_and!; [apply looked_up_app; auto | done | done | done].
Qed.

(** One message with the program's own registers, to the surface. *)
Definition draws (M : list Z -> Prop) (draw : Z -> Prog Z) : Prop :=
  forall surface, ends (draw surface) (fun tr r => i64 r /\ exists regs, sends tr = [(surface, regs_msg regs)] /\ M regs).

Lemma exits_step M {A} (p : Prog A) (Q : A -> Prop) (f : A -> Prog unit) :
  obeys silent p Q -> (forall r, Q r -> exits (f r) (client_run M)) -> exits (pbind p f) (client_run M).
Proof. intros Hp Hf. eapply exits_silent; [| exact Hp | exact Hf]. intros tr tr2 code. apply client_run_after. Qed.

(** The end of a run after the request. *)
Lemma exits_quiet {A} (p : Prog A) (Q : A -> Prop) (f : A -> Prog unit) :
  obeys silent p Q -> (forall r, Q r -> exits (f r) (fun tr code => silent tr /\ (code = 0 \/ code = 1))) ->
  exits (pbind p f) (fun tr code => silent tr /\ (code = 0 \/ code = 1)).
Proof. intros Hp Hf. eapply exits_silent; [| exact Hp | exact Hf]. intros tr tr2 code Hs [Hs2 Hc]. split; [by apply trace_app | done]. Qed.

(** From the lookup on. *)
Lemma client_exits M name what draw : draws M draw -> exits (client_start name what draw) (client_run M).
Proof.
  intros Hd. unfold client_start. do 4 (eapply exits_step; [solve [eauto with calm] | intros ? ?]).
  unfold ipc_name_lookup, ipc_name, call64. intros K h HK. cbn [pbind interp].
  set (c := CName IPC_NAME_LOOKUP (b "com.persona.reflection") 0). set (a := K h c). set (cap := signed 64 (a_ret a)).
  assert (looked_up REFLECTION_NAME [(c, a)] cap) as Hl by (exists a; split; [left | done]).
  destruct (obeys_write_result (P := silent) (b "[" ++ name ++ b "] reflection lookup cap=") cap (i64_signed _) K (h ++ [(c, a)]) HK)
    as (t1 & [] & E1 & Hs1 & _). rewrite interp_bind, E1.
  destruct (Z.leb_spec cap 0) as [Hle | Hgt].
  { exists ((c, a) :: t1), 1. rewrite <- !app_assoc. split; [done |]. left. split; [done | exact Hs1]. }
  destruct (Hd (signed 32 cap) K ((h ++ [(c, a)]) ++ t1) HK) as (t2 & dr & E2 & Hdr & regs & Hsend & HM). rewrite interp_bind, E2.
  assert (exits (write_result (b "[" ++ name ++ b "] draw " ++ what ++ b " -> ") dr ;;;
      if dr <? 0 then exit 1 else write 1 (b "[" ++ name ++ bn "] exiting") ;;; exit 0)
    (fun tr code => silent tr /\ (code = 0 \/ code = 1))) as Hend.
  { eapply exits_quiet; [by apply obeys_write_result | intros _ _]. destruct (dr <? 0); [apply exits_exit; split; [done | auto] |].
    eapply exits_quiet; [apply obeys_write | intros _ _; apply exits_exit; split; [done | auto]]. }
  destruct (Hend K (((h ++ [(c, a)]) ++ t1) ++ t2) HK) as (t3 & code & E3 & Hs3 & Hc). rewrite E3.
  exists ((c, a) :: t1 ++ t2 ++ t3), code. split; [by rewrite <- !app_assoc |]. right. split; [done |]. exists cap, regs.
  split_and!; [by apply (looked_up_app _ [(c, a)] (t1 ++ t2 ++ t3)); left | done | | done].
  change (sends (t1 ++ t2 ++ t3) = [(signed 32 cap, regs_msg regs)]). by rewrite !sends_app, Hs1, Hs3, Hsend, app_nil_r.
Qed.

(** ** What each client sends *)

(** Reflection answers these registers with [p] and goes on. *)
Definition drawn (p : Prog unit) (regs : list Z) : Prop := serve_message regs = (p ;;; PRet None).

Lemma getpid_draws (M : list Z -> Prop) (regs : Z -> list Z) :
  (forall pid, M (regs pid)) -> draws M (fun surface => do! pid := getpid in ipc_send surface (regs_msg (regs pid))).
Proof.
  intros HM surface. apply ends_call. intros a _. apply ends_call. intros a2 _. apply ends_ret.
  split; [apply i64_signed |]. exists (regs (a_ret a)). split; [done | apply HM].
Qed.

Lemma skim_draws : draws (drawn (draw_skim 0x7AA2FF 1 16 4)) skim_draw.
Proof. apply (getpid_draws _ (fun pid => [SURFACE_SKIM; 0x7AA2FF; style_word BODY; 4; 0; pid])). reflexivity. Qed.
Lemma tide_draws : draws (drawn (draw_tide 0x7AA2FF 1 16 4)) tide_draw.
Proof. apply (getpid_draws _ (fun pid => [SURFACE_TIDE; 0x7AA2FF; style_word BODY; 4; 0; pid])). reflexivity. Qed.
Lemma stones_draws : draws (drawn (draw_stones 0x4F8CFF 1 16 3)) stones_draw.
Proof. apply (getpid_draws _ (fun pid => [SURFACE_STONES; 0x4F8CFF; style_word BODY; 3; 0; pid])). reflexivity. Qed.
Lemma drift_draws : draws (drawn (draw_drift 0xFFBD2E 1 16 3)) drift_draw.
Proof. apply (getpid_draws _ (fun pid => [SURFACE_DRIFT; 0xFFBD2E; style_word BODY; 3; 0; pid])). reflexivity. Qed.

(** The desktop's status: the disk always, the network and the sound as found. *)
Definition desktop_drawn (regs : list Z) : Prop :=
  exists net audio : bool, drawn (draw_desktop 0x7AA2FF 1 16 5 (4 + Z.b2z net + 2 * Z.b2z audio)) regs.
Lemma desktop_draws : draws desktop_drawn desktop_draw.
Proof.
  intros surface. apply ends_call. intros a1 _. apply ends_call. intros a2 _. apply ends_call. intros a3 _.
  apply ends_call. intros a4 _. apply ends_ret. split; [apply i64_signed |].
  set (net := negb (ni_configured _ =? 0)). set (audio := negb (ai_played _ =? 0)). eexists. split; [reflexivity |].
  exists net, audio. by destruct net, audio.
Qed.

(** *** surface-demo *)

Definition shutdown_msg : UMsg := regs_msg [SURFACE_SHUTDOWN; 0; 0; 0; 0; 0].
Definition demo_run (tr : History) (code : Z) : Prop :=
  (code = 1 /\ silent tr) \/
  exists cap, looked_up REFLECTION_NAME tr cap /\ 0 < cap /\
    let card := (signed 32 cap, regs_msg (card_regs demo_card)) in
    (code = 1 /\ sends tr = [card]) \/ ((code = 0 \/ code = 1) /\ sends tr = [card; (signed 32 cap, shutdown_msg)]).
Lemma demo_run_after tr tr2 code : silent tr -> demo_run tr2 code -> demo_run (tr ++ tr2) code.
Proof.
  intros Hs [[-> H2] | (cap & Hl & Hp & H2)]; [left; split; [done | by apply trace_app] | right].
  exists cap. rewrite sends_app, Hs. split; [apply looked_up_app; auto | done].
Qed.

(** Sends and a line that reports them. *)
Lemma ends_send cap msg : ends (ipc_send cap msg) (fun tr r => sends tr = [(cap, msg)] /\ i64 r).
Proof. apply ends_call. intros a _. apply ends_ret. split; [done | apply i64_signed]. Qed.

Lemma demo_tail s1 s2 s3 cap :
  exits (do! dr := send_draw cap in
         write_result s1 dr ;;;
         if dr <? 0 then exit 1
         else do! sr := send_shutdown cap in
              write_result s2 sr ;;; if sr <? 0 then exit 1 else write 1 s3 ;;; exit 0)
    (fun tr code => let card := (cap, regs_msg (card_regs demo_card)) in
      (code = 1 /\ sends tr = [card]) \/ ((code = 0 \/ code = 1) /\ sends tr = [card; (cap, shutdown_msg)])).
Proof.
  eapply exits_bind; [apply ends_send |]. intros t1 dr [H1 Hdr].
  eapply exits_bind; [apply (obeys_write_result (P := silent) s1 dr Hdr) |]. intros t2 _ [H2 _].
  destruct (dr <? 0).
  { apply exits_exit. left. split; [done |]. by rewrite !sends_app, H1, H2. }
  eapply exits_bind; [apply ends_send |]. intros t3 sr [H3 Hsr].
  eapply exits_mono.
  { eapply exits_quiet; [apply (obeys_write_result (P := silent) s2 sr Hsr) | intros _ _]. destruct (sr <? 0).
    - apply exits_exit. split; [done | auto].
    - eapply exits_quiet; [apply obeys_write | intros _ _; apply exits_exit; split; [done | auto]]. }
  cbn. intros t4 code [H4 Hc]. right. split; [done |]. by rewrite !sends_app, H1, H2, H3, H4.
Qed.
Lemma surface_demo_exits : exits surface_demo_start demo_run.
Proof.
  unfold surface_demo_start.
  do 4 (eapply exits_silent; [intros tr tr2 code; apply demo_run_after | solve [eauto with calm] | intros ? ?]).
  eapply (exits_bind _ _ (fun tr r => silent tr /\ looked_up REFLECTION_NAME tr r /\ i64 r)).
  { apply ends_call. intros a _. apply ends_ret. split_and!; [done | exists a; split; [left | done] | apply i64_signed]. }
  intros t1 cap (Hs1 & Hl & Hcap). eapply exits_bind; [apply (obeys_write_result (P := silent) _ cap Hcap) |]. intros t2 _ [Hs2 _].
  destruct (Z.leb_spec cap 0).
  { apply exits_exit. left. split; [done |]. rewrite app_nil_r. by apply trace_app. }
  eapply exits_mono; [apply demo_tail |]. intros t3 code Hend. right. exists cap.
  split; [apply looked_up_app; auto |]. split; [done |]. by rewrite !sends_app, Hs1, Hs2.
Qed.

